(* ===== verification/_CoqProject ===== *)
-Q . S2P
Prelude.v
Digits.v
Bitops.v
Bitmap.v
MulDiv.v
MemBlock.v
MemAlloc.v
PageAlloc.v
Timer.v
CString.v
Crc.v
T1.v
Bh.v
ByteList.v
Clk.v
T0.v
Ifd.v
Atr.v
Slot.v
Pps.v
SlotInv.v
Reader.v
Readline.v
Editor.v
Cmdline.v
Printf.v
Format.v
QSpin.v
QSpinInv.v
QSpinThm.v
Paging.v
PageTab.v
PageMap.v
PageThm.v
Bulk.v
Heap.v
Task.v
Usbd.v
UsbdHal.v
UsbdIn.v
UsbdOut.v
UsbCtrl.v
UsbCtrlIo.v
UsbDesc.v
UsbScr100.v
UsbRun.v
Kbd.v
UsbHid.v
UsbHidDesc.v
UsbKbd.v
UsbKbdRun.v
