(* ===== verification/Prelude.v ===== *)
(** * sdfirm verification library

    sdfirm is a firmware for small systems: boot code per architecture (src/arch), a
    kernel of memory, timer, bottom half, interrupt, clock and task services (src/kernel),
    protocol stacks on top of them (smart card readers in src/kernel/scs, USB, storage,
    network), drivers (src/drivers) and a freestanding C library (src/lib).  This library
    models the kernel services that every configuration uses, the C library they rest on,
    the smart card reader and the USB device stack, and proves that they do what they are
    for.

    How the parts interact, and where they are

    At boot the machine code adds its memory banks to the memory map and the image is
    reserved ([mem_init]); the page tables are built for the memory of the map, with frames
    from [mem_alloc], which takes memory from the map until [mem_free_all] hands
    the free ranges to the page allocator.  Timers keep a queue over one hardware timer;
    the interrupt ([do_IRQ], [tick_handler]) runs due interrupt timers and wakes the bottom
    half of the timers, and the main loop ([bh_loop]) runs the bottom halves that are
    awake, the smart card reader's and the console's among them.  The reader powers a card,
    receives and parses its answer to reset (ATR), agrees on rate and protocol (PPS) and
    exchanges commands with it over T=0 or T=1, all through one exchange buffer; its bottom
    half runs the slot machine, whose sequences end in a callback to the upper layer.  The
    USB device stack moves the requests of its interface drivers packet by packet through
    the controller, whose interrupts resume the drivers' handlers, and serves the host's
    control transfers; its bottom half starts and ends requests outside of interrupts.  One
    such driver is the keyboard: scans of the key matrix hand events to its callback, and
    its reports go to the host on an interrupt endpoint.  The console's bottom half feeds characters to the line editor, which hands each line to
    the command interpreter.

    - [Prelude] (this file): faults and the error monad, machine integers as [Z] with
      explicit wrap-around, bit lemmas.
    - [Digits], [Bitops]: src/lib/bitops.c, words (population count, first and last bit, bit
      reversal, parity, exchange).  [Digits] is the arithmetic of fields in a word.
    - [Bitmap]: src/lib/bitops.c, arrays of words; the class [BitUnit] is the interface to
      the word size of the architecture, with an instance for each of the four widths.
    - [MulDiv]: src/lib/muldiv.c.
    - [MemBlock], [MemAlloc]: src/kernel/mem.c.  [mem_type] is [struct mem_type] with the
      used part of its array, [mem_state] the two arrays, the limit and the direction.
    - [PageAlloc]: src/kernel/page.c.  The free list is the list of its runs of pages.
    - [Timer]: src/kernel/timer.c, tickless build; [timer_state] are the file's variables.
    - [CString]: src/lib/string.c over memory as a list of bytes.
    - [Crc]: src/lib/crc16_ccitt.c, src/lib/crc32_table.c and their use in UEFI code.
    - [T1], [T0]: src/kernel/scs/ifd_t1.c and ifd_t0.c with the exchange buffer and the
      transfer loop of ifd.c; [t1] and [t0] are the protocol states.
    - [Ifd]: src/kernel/scs/ifd.c, the slot machine, the exchange machine and the calls of
      the upper layer; [ifd] is the file's state, with the state of the protocols as a
      parameter, [ifd_proto] is their callback table.  [Atr] has the format of the ATR and
      the theorems on its reception and parsing, [Slot] those on power-on and on sequences
      that do not end, [Pps] the parameter functions of both protocols and the PPS
      exchange, [SlotInv] the invariant of the slot machine.  The classes [ProtosOk] and
      [ProtosFrame] are the interface between the slot machine and the protocols; [Reader]
      registers the callbacks of [T0] and [T1], discharges both classes for them and has the
      theorems on the reader as a whole.
    - [Bh]: src/kernel/bh.c and the dispatch of src/kernel/irq.c.
    - [Readline], [Editor], [Cmdline]: the console.  [Readline] is src/kernel/readline.c,
      [rl] its variables, what it prints and the lines it hands on; [Editor] the abstract
      editor, the terminal and the theorems; [Cmdline] src/kernel/cmdline.c.
    - [Printf]: src/lib/vsnprintf.c, both printers; [Format] has directives as data, the
      text they stand for, and the theorems.
    - [QSpin]: src/kernel/spinlock.c, the queued spinlock, as a step relation over the
      contexts of several CPUs; [QSpinInv] its invariant, [QSpinThm] the theorems.
    - [Paging]: src/kernel/paging.c with the descriptors of arm64; [pg] is memory, the slots
      of the fixmap and the page frames [mem_alloc] will return.  [PageTab] has the walk of
      the hardware and well-formed tables, [PageMap] the contract of the functions, level by
      level, [PageThm] the functions against it and the theorems.
    - [Task]: src/kernel/task.c and semaphore.c.  [Heap]: src/kernel/heap.c, on top of
      [PageAlloc].  [Bulk]: src/kernel/bulk_dio.c, on top of [Bitmap].
    - [Usbd], [UsbCtrl]: src/kernel/usb/usb_dev.c, the engine of endpoints and requests and
      the control pipe; [usbd] is the file's state.  The controller is the class [UsbdHw],
      its contract [UsbdHwOk] (in [UsbdHal], with the symbolic execution of the engine);
      [UsbScr100] is the driver of the AT90SCR100 (src/arch/avr/mach-at90scr100/usb.c), an
      instance of both.  [UsbdIn] and [UsbdOut] have the theorems on requests, [UsbCtrlIo]
      on control transfers, [UsbDesc] on descriptors; [UsbRun] is a concrete device.
      [UsbdAddr] adds the address the controller answers to.
    - [Kbd]: src/kernel/io/kbd.c and the key matrix of the AT90SCR100
      (src/arch/avr/mach-at90scr100/kbd.c); [kbd] and [matrix] are their variables and
      registers.  [UsbHid]: src/kernel/usb/hid/usb_hid.c and hid_kbd.c; [hid] are their
      variables.  [UsbHidDesc] has its descriptors.  [UsbKbd] has the abstract keyboard and the simulation, over matrix,
      keyboard and device stack together; [UsbKbdRun] is a concrete keyboard.
    - [ByteList]: src/lib/byte_list.c.   [Clk]: src/kernel/clk.c.

    A C function is a function of the same name; what it reads and writes of the global
    state is passed through explicitly; a function that can stop the system or leave an
    array returns [res].  Registered callbacks (handlers of timers, bottom halves and
    interrupts, clock drivers) are parameters of the sections that call them, and what the
    theorems need of them is a named hypothesis ([handler_ok], [handlers_ok])
    with a concrete instance in the witnesses.  So is the card: what it
    answers in which class and convention, and what it sends.  Sizes that are set by the configuration
    (NR_TIMERS, NR_BHS, IFD_BUF_SIZE, MAX_VECTORS, ...) are parameters too.

    What the theorems show

    - Memory map: any sequence of additions and removals keeps the array in normal form and
      implements union and difference of sets of addresses ([mem_type_refines_set]); each
      operation returns or stops in [BUG()] exactly when the array is too small; reserving
      and freeing is a round trip; the iterators end and enumerate exactly the free
      addresses; [mem_alloc] returns a block that satisfies the request, shows that there is
      none, or stops in [BUG()], exactly when there is one and the array is full.
    - Page allocator: first fit, well-formedness of the free list, and the round trip of
      allocation and release through the coalescing loop.
    - Timers: scheduling keeps the queue ordered and programs the hardware timer with the
      least due time, for times below 2^30; running due timers ends.
    - T=1: the shared buffer gets every byte of the command back after each block; a
      checksum exposes every change of one byte; sequence numbers and S-block pairing of
      accepted blocks; error recovery gives up after exactly nine failures; where the
      answer is received.  T=0: commands and answers against every card that follows the
      protocol.
    - Reader, with T=0 and T=1 registered: power-on with automatic class selection completes
      for every card whose answer to reset has fewer than 256 characters and line errors, with
      the first class and convention in which the card answers; reception takes exactly the
      bytes of the ATR from the line; the parser leaves in the slot what the interface
      bytes say; a PPS exchange puts the requested parameters in force; in every reachable
      state the machine is well formed and callbacks do not outnumber accepted requests.
    - Console: whatever bytes a terminal sends for the keys, the line editor refines a line
      with a cursor and a history of 19 lines, and keeps the terminal's row equal to the
      line; no input at all breaks its state; a line that is entered reaches the command
      its first word names with exactly its words; batches run command by command.
    - Formatted output: for every format written from directives and every buffer,
      [vsnprintf] stores the text of the directives as far as it fits and returns its full
      length; [vtxprintf] sends the same text; printed numbers are read back by [strtoul].
      Precisions within six of INT_MAX and the least 64-bit number, where the signed
      arithmetic of the source overflows, are excluded.
    - Queued spinlock: in every interleaving two contexts never hold a lock; the lock refines
      a first-come first-served lock; contexts never all spin while a lock is free.
    - Page tables: a mapping request changes the translation of the hardware in its range
      only, to what was asked for; sequences of requests refine updates of an address
      space; [map_mem] maps exactly the memory of the memory map around the image.
    - Bottom halves: one turn of the main loop runs all that are awake, in order, once;
      dispatch of interrupts.
    - Tasks: in every window of as many slices as tasks each task runs once.  Heap: its memory
      is taken from the free pages and the break stays in it.  Bulk transfers end and move
      exactly the bytes asked for, in order.
    - USB: for every controller that keeps its contract, IN and OUT requests of any length
      are handed over in packets with no byte lost, doubled or reordered, although handlers
      are run again from their start for every packet, and are completed once; control
      reads are served in their three stages and leave the pipe ready; SET_ADDRESS takes
      effect after its status stage and not before; the keyboard's configuration, HID and
      report descriptors have the lengths they state.
    - Keyboard: a scan hands over one event for each key whose debounced state has changed;
      from the pins to the packets, in every order of scans, polls and endpoint events, the
      host gets a press and a release for every accepted key stroke, and from every state
      reached by these events the reports that are due can be completed.
    - Library: every optimised routine agrees with its mathematical definition (population
      counts, bit scans, division, products, CRC-32 table, strtoul, memmove, comparison,
      bitmap search), for all arguments of the type.
    - Some theorems state what the code does where that is not what it is for: a card can
      overflow the buffer of T=0 and of the ATR, the block size of T=1 wraps in 8 bits, S(RESYNC) requests
      are never sent, interrupt timers are shortened twice or hang the interrupt, the
      console's bottom half runs inside [bh_sync], ranges without a whole page enter the
      free list, break loses the next line, a blank joins commands of a batch,
      [%ld] prints 32 bits, precisions near 2^31 overflow, timers of 2^30 ticks and more are
      armed for a negative time, a section over a table is dropped, a timed-out wait
      takes its units, a bulk writer gets more than it takes at a time, an overlong USB packet
      stops the system, a configured USB device cannot be deconfigured, the status of an
      endpoint is not sent, IN packets can begin with bytes of an OUT packet, a restarted
      endpoint silences the keyboard, and the queued
      spinlock fails with 64-bit atomics and with contexts that have no node.

    Fuel and bounds

    Loops over arrays recurse on the array or on the number of turns.  Where the C loop has
    no such bound the definition takes fuel, running out of it is the fault [FHang], and
    the theorems prove that the fuel given is enough: the length of the arrays for the
    iterators of the memory map and for page coalescing, one turn per queued timer and one
    more, NR_BHS for the main loop, one round per byte of the card for T=0 and in the
    transfer loop of [Ifd], 256 groups for the ATR parser, 31 runs of the bottom half for
    power-on, 65 steps for [gcd32u], one turn per byte of the text for the scans and batches
    of the command interpreter and for the scan of a format, 64 digits for a number, one turn
    per entry of a table (512) for the loops of the page tables, 2^17 turns for the loop that
    drops the rest of an OUT packet (each turn advances a 16-bit cursor).  Handlers of USB
    endpoints call the stack, whose handlers they are: [endpoints] unfolds this knot to a
    given depth, and the theorems are about any two tables that agree on an endpoint's
    attributes, as two successive depths do.  Lines of cards have fewer than 256 entries where the
    exchange buffer of 261 bytes must not be left.  Integers have their C width; [phys_addr_t], [size_t] and [unsigned long] are
    64 bits wide, [scs_size_t] and [scs_off_t] 16.

    What is not modelled

    Locks and interrupts that arrive inside a function (outside of [QSpin] the functions run
    to completion on one CPU), weak memory models (the accesses of [QSpin] are sequentially
    consistent), delays and waiting times, output, the optional builds named in the header of
    each file, floating point ([strtod], [%f]), and the parts of the system that rest on
    hardware: drivers, architecture code, the USB host stack, the USB class drivers other than
    the keyboard, storage, network, multi-processing, and of paging the fixmap's own tables and TLB
    maintenance.
    Third-party code in the tree (libfdt, ACPI, dlmalloc) is left out.

    Next in line: USB mass storage as a client of [UsbdIn] and [UsbdOut], the MMC stack, the
    card side cos.c, and the SBI of the RISC-V port. *)
From stdpp Require Export base tactics list list_numbers numbers option.
From Stdlib Require Export ZArith Lia Bool.
#[export] Set Default Goal Selector "!".
Global Open Scope Z_scope.

(** ** Outcomes of C code

    A C function either returns a value or stops the firmware.  [FBug] is
    [BUG()] / [BUG_ON(c)] (target/panic.h: the CPU ends in [bh_panic]),
    [FOob] is an access outside the array the code indexes, [FHang] is a loop
    that used up the fuel a caller gave it, [FOverflow] an operation on signed integers
    whose result their type does not have, which C leaves undefined. *)
Inductive fault : Type := FBug | FOob | FHang | FOverflow.

Inductive res (A : Type) : Type :=
  | Ok (a : A)
  | Fault (f : fault).
Arguments Ok {A} _.
Arguments Fault {A} _.

#[export] Instance fault_eq_dec : EqDecision fault.
Proof. solve_decision. Defined.
#[export] Instance res_mret : MRet res := @Ok.
#[export] Instance res_mbind : MBind res := fun A B k m =>
  match m with Ok a => k a | Fault f => Fault f end.

(** [BUG_ON(c)] *)
Definition bug_on (c : bool) : res unit := if c then Fault FBug else Ok tt.
(** Reading a cell of an array through the model's bounds check. *)
Definition oob {A} (o : option A) : res A :=
  match o with Some a => Ok a | None => Fault FOob end.

Lemma res_bind_Ok {A B} (m : res A) (k : A -> res B) b :
  (m ≫= k) = Ok b <-> exists a, m = Ok a /\ k a = Ok b.
Proof. destruct m; cbn; naive_solver. Qed.

Lemma bug_on_Ok c : bug_on c = Ok tt <-> c = false.
Proof. destruct c; cbn; naive_solver. Qed.

Lemma oob_Ok {A} (o : option A) a : oob o = Ok a <-> o = Some a.
Proof. destruct o; cbn; naive_solver. Qed.

(** Inversion of a successful run: every bind is opened, every [BUG_ON] turned
    into the negation of its condition, every array read into a lookup. *)
Ltac res_inv :=
  repeat match goal with
  | H : Ok _ = Ok _ |- _ => injection H as H; subst
  | H : Fault _ = Ok _ |- _ => discriminate H
  | H : mret ?x = Ok _ |- _ => change (mret x) with (@Ok _ x) in H
  | H : (_ ≫= _) = Ok _ |- _ =>
      apply res_bind_Ok in H; let a := fresh "r" in destruct H as (a & ? & H)
  | H : bug_on _ = Ok ?u |- _ => destruct u; apply bug_on_Ok in H
  | H : oob _ = Ok _ |- _ => apply oob_Ok in H
  end.

(** ** Machine integers

    A [w]-bit unsigned integer is a [Z] in [[0, 2^w)]; C's conversions to such a
    type are [wrap w].  Signed types use [swrap w]. *)
Definition wrap (w z : Z) : Z := z mod 2 ^ w.
Definition swrap (w z : Z) : Z := (z + 2 ^ (w - 1)) mod 2 ^ w - 2 ^ (w - 1).
Abbreviation u8 := (wrap 8).
Abbreviation u16 := (wrap 16).
Abbreviation u32 := (wrap 32).
Abbreviation u64 := (wrap 64).
Abbreviation s32 := (swrap 32).
Abbreviation in_u w z := (0 <= z < 2 ^ w).

Declare Scope c_scope.
Delimit Scope c_scope with C.
(** C's bit operators, with the C precedence replaced by parentheses. *)
Notation "a &&& b" := (Z.land a b) (at level 40, left associativity) : c_scope.
Notation "a ||| b" := (Z.lor a b) (at level 50, left associativity) : c_scope.
Notation "a ^^^ b" := (Z.lxor a b) (at level 50, left associativity) : c_scope.
Notation "a <<< b" := (Z.shiftl a b) (at level 40, left associativity) : c_scope.
Notation "a >>> b" := (Z.shiftr a b) (at level 40, left associativity) : c_scope.
Global Open Scope c_scope.

Lemma wrap_range w z : 0 <= w -> in_u w (wrap w z).
Proof. intros. apply Z.mod_pos_bound. lia. Qed.

Lemma wrap_id w z : in_u w z -> wrap w z = z.
Proof. intros. by apply Z.mod_small. Qed.

Lemma wrap_wrap w z : 0 <= w -> wrap w (wrap w z) = wrap w z.
Proof. intros. apply wrap_id. by apply wrap_range. Qed.

Lemma swrap_range w z : 0 < w -> - 2 ^ (w - 1) <= swrap w z < 2 ^ (w - 1).
Proof.
  intros. unfold swrap.
  assert (2 ^ w = 2 * 2 ^ (w - 1)) by (rewrite <- Z.pow_succ_r by lia; f_equal; lia).
  pose proof (Z.mod_pos_bound (z + 2 ^ (w - 1)) (2 ^ w)). lia.
Qed.

Lemma swrap_id w z : 0 < w -> - 2 ^ (w - 1) <= z < 2 ^ (w - 1) -> swrap w z = z.
Proof.
  intros. unfold swrap.
  assert (2 ^ w = 2 * 2 ^ (w - 1)) by (rewrite <- Z.pow_succ_r by lia; f_equal; lia).
  rewrite Z.mod_small; lia.
Qed.

(** ** Bits *)
Create HintDb zbits.

Lemma wrap_testbit w z i :
  0 <= w -> Z.testbit (wrap w z) i = (bool_decide (i < w) && Z.testbit z i)%bool.
Proof.
  intros. unfold wrap. case_bool_decide; cbn [andb].
  - by rewrite Z.mod_pow2_bits_low.
  - rewrite Z.mod_pow2_bits_high; [done|lia].
Qed.

Lemma testbit_high w z i : in_u w z -> w <= i -> Z.testbit z i = false.
Proof.
  intros Hz Hi. destruct (decide (0 <= w)) as [Hw|Hw].
  - rewrite <- (wrap_id w z Hz), wrap_testbit by lia. by rewrite bool_decide_false by lia.
  - rewrite Z.pow_neg_r in Hz; lia.
Qed.

Lemma in_u_testbit w z :
  0 <= w -> 0 <= z -> (forall i, w <= i -> Z.testbit z i = false) -> in_u w z.
Proof.
  intros Hw Hz Hb. assert (wrap w z = z) as <-; [|by apply wrap_range].
  apply Z.bits_inj'. intros i Hi. rewrite wrap_testbit by lia.
  case_bool_decide; [done|]. symmetry. apply Hb. lia.
Qed.

Lemma land_in_u w a b : 0 <= w -> in_u w a -> 0 <= b -> in_u w (a &&& b).
Proof.
  intros Hw Ha Hb. apply in_u_testbit; [done|apply Z.land_nonneg; lia|].
  intros i Hi. by rewrite Z.land_spec, (testbit_high w a i).
Qed.

Lemma lor_in_u w a b : 0 <= w -> in_u w a -> in_u w b -> in_u w (a ||| b).
Proof.
  intros Hw Ha Hb. apply in_u_testbit; [done|apply Z.lor_nonneg; lia|].
  intros i Hi. by rewrite Z.lor_spec, (testbit_high w a i), (testbit_high w b i).
Qed.

Lemma lxor_in_u w a b : 0 <= w -> in_u w a -> in_u w b -> in_u w (a ^^^ b).
Proof.
  intros Hw Ha Hb. apply in_u_testbit; [done|apply Z.lxor_nonneg; lia|].
  intros i Hi. by rewrite Z.lxor_spec, (testbit_high w a i), (testbit_high w b i).
Qed.

Lemma shiftr_in_u w a k : 0 <= k -> in_u w a -> in_u w (a >>> k).
Proof.
  intros Hk Ha. rewrite Z.shiftr_div_pow2 by done.
  split; [apply Z.div_pos; lia|].
  apply Z.le_lt_trans with a; [|lia]. apply Z.div_le_upper_bound; [lia|].
  assert (1 <= 2 ^ k) by (apply Z.lt_pred_le; lia). nia.
Qed.

Lemma testbit_nonzero x : 0 < x -> exists i, 0 <= i /\ Z.testbit x i = true.
Proof. intros. exists (Z.log2 x). split; [apply Z.log2_nonneg|by apply Z.bit_log2]. Qed.

(** The bits of a word split at position [k]. *)
Lemma testbit_split k c z i :
  0 <= k -> in_u k c -> 0 <= i ->
  Z.testbit (c + 2 ^ k * z) i = if bool_decide (i < k) then Z.testbit c i else Z.testbit z (i - k).
Proof.
  intros Hk Hc Hi. case_bool_decide.
  - rewrite <- (Z.mod_pow2_bits_low _ k) by done.
    by rewrite (Z.mul_comm (2 ^ k)), Z_mod_plus_full, Z.mod_small.
  - replace i with (i - k + k) at 1 by lia. rewrite <- Z.div_pow2_bits by lia.
    by rewrite (Z.mul_comm (2 ^ k)), Z.div_add, Z.div_small by lia.
Qed.

Lemma lor_shiftl k a b : 0 <= k -> in_u k a -> a ||| (b <<< k) = a + 2 ^ k * b.
Proof.
  intros Hk Ha. apply Z.bits_inj'. intros i Hi. rewrite Z.lor_spec, testbit_split by done. case_bool_decide.
  - rewrite Z.shiftl_spec_low by lia. apply orb_false_r.
  - rewrite Z.shiftl_spec by lia. by rewrite (testbit_high k a i Ha) by lia.
Qed.

(** Masks that clear or keep the low bits. *)
Lemma mask_bit n i : 0 <= n <= 64 -> 0 <= i -> Z.testbit (u64 (Z.lnot (2 ^ n - 1))) i = bool_decide (n <= i < 64).
Proof.
  intros. rewrite wrap_testbit, Z.lnot_spec by lia. replace (2 ^ n - 1) with (Z.ones n) by (rewrite Z.ones_equiv; lia).
  repeat case_bool_decide; try done || lia; cbn [andb]; [by rewrite Z.ones_spec_high by lia|by rewrite Z.ones_spec_low by lia].
Qed.
Lemma ldiff_mask n x : 0 <= n <= 64 -> in_u 64 x -> Z.ldiff x (u64 (Z.lnot (2 ^ n - 1))) = x mod 2 ^ n.
Proof.
  intros Hn Hx. apply Z.bits_inj'. intros i Hi. rewrite Z.ldiff_spec, mask_bit by done. change (x mod 2 ^ n) with (wrap n x). rewrite wrap_testbit by lia.
  repeat case_bool_decide; try lia; rewrite ?andb_true_r, ?andb_false_r; cbn [andb negb]; try done. by rewrite (testbit_high 64 x) by (done || lia).
Qed.
Lemma land_mask n x : 0 <= n <= 64 -> in_u 64 x -> Z.land x (u64 (Z.lnot (2 ^ n - 1))) = x / 2 ^ n * 2 ^ n.
Proof.
  intros Hn Hx. pose proof (Z.lor_ldiff_and x (u64 (Z.lnot (2 ^ n - 1)))) as H. rewrite <- Z.add_nocarry_lor, ldiff_mask in H; [|done|done|].
  - pose proof (Z.div_mod x (2 ^ n)). lia.
  - by rewrite (Z.land_comm x), Z.land_assoc, Z.land_ldiff.
Qed.

#[export] Hint Resolve wrap_range land_in_u lor_in_u lxor_in_u shiftr_in_u : zbits.

(** Goals on the lengths of concatenations. *)
Ltac len :=
  repeat (progress (rewrite ?length_app, ?length_drop, ?length_take, ?length_replicate, ?length_rev in *; cbn [length] in *)); lia.
