(* ===== verification/Digits.v ===== *)
(** * Digits: little-endian digit lists in base [2^k]

    Word-parallel ("SWAR") code such as the [hweight] functions treats a machine
    word as an array of small fields.  [dig k l] is the word whose [k]-bit fields
    are the elements of [l]; the lemmas push shifts, masks and sums through it. *)
From S2P Require Import Prelude.

Definition dig (k : Z) (l : list Z) : Z := foldr (fun d acc => d + 2 ^ k * acc) 0 l.

(** Every field fits in [k] bits. *)
Definition fits (k : Z) (l : list Z) : Prop := Forall (fun d => in_u k d) l.

(** Fields at even and odd positions, and the sums of neighbouring fields. *)
Fixpoint evens (l : list Z) : list Z :=
  match l with a :: _ :: l => a :: evens l | _ => [] end.
Fixpoint odds (l : list Z) : list Z :=
  match l with _ :: b :: l => b :: odds l | _ => [] end.
Fixpoint pairsums (l : list Z) : list Z :=
  match l with a :: b :: l => a + b :: pairsums l | _ => [] end.
Fixpoint pairup (k : Z) (l : list Z) : list Z :=
  match l with a :: b :: l => a + 2 ^ k * b :: pairup k l | _ => [] end.
Definition sumZ (l : list Z) : Z := foldr Z.add 0 l.

(** Induction two elements at a time, for lists of even length. *)
Lemma even_list_ind (P : list Z -> Prop) :
  P [] -> (forall a b l, P l -> P (a :: b :: l)) ->
  forall l, Nat.even (length l) = true -> P l.
Proof.
  intros H0 H2 l. remember (length l) as n eqn:En. revert l En.
  induction n as [n IH] using lt_wf_ind. intros [|a [|b l]] En Hev; cbn in *; subst; try done.
  apply H2, (IH (length l)); [lia|done|done].
Qed.

Ltac even_induction l H :=
  induction l using even_list_ind in H |- *; [| |exact H].

Lemma length_pairsums l : length (pairsums l) = Nat.div2 (length l).
Proof.
  remember (length l) as n eqn:En. revert l En.
  induction n as [n IH] using lt_wf_ind. intros [|a [|b l]] ->; cbn; try done.
  f_equal. apply (IH (length l)); cbn; lia.
Qed.

Lemma sumZ_pairsums l : Nat.even (length l) = true -> sumZ (pairsums l) = sumZ l.
Proof. revert l. apply even_list_ind; cbn; [done|]. intros a b l IH. unfold sumZ in *. lia. Qed.

Lemma sumZ_nonneg_bound m l :
  Forall (fun d => 0 <= d <= m) l -> 0 <= sumZ l <= m * Z.of_nat (length l).
Proof. induction 1; cbn; [lia|]. unfold sumZ in *. lia. Qed.

Lemma dig_cons k d l : dig k (d :: l) = d + 2 ^ k * dig k l.
Proof. done. Qed.

Lemma dig_bound k l : 0 <= k -> fits k l -> 0 <= dig k l < 2 ^ (k * Z.of_nat (length l)).
Proof.
  intros Hk. induction 1 as [|d l Hd _ IH]; cbn [length].
  - rewrite Z.mul_0_r. cbn. lia.
  - rewrite dig_cons, Nat2Z.inj_succ, Z.mul_succ_r, Z.add_comm, Z.pow_add_r by lia. nia.
Qed.

Lemma dig_nonneg k l : 0 <= k -> fits k l -> 0 <= dig k l.
Proof. intros. by apply dig_bound. Qed.

Lemma dig_shiftr k d l : 0 <= k -> in_u k d -> dig k (d :: l) >>> k = dig k l.
Proof.
  intros Hk Hd. rewrite dig_cons, Z.shiftr_div_pow2 by done.
  rewrite (Z.mul_comm (2 ^ k)), Z.div_add by lia. rewrite Z.div_small; lia.
Qed.

Lemma dig_low k d l : 0 <= k -> in_u k d -> dig k (d :: l) mod 2 ^ k = d.
Proof.
  intros Hk Hd. rewrite dig_cons, (Z.mul_comm (2 ^ k)), Z_mod_plus_full.
  by apply Z.mod_small.
Qed.

Lemma dig_pairup k l :
  0 <= k -> Nat.even (length l) = true -> dig (2 * k) (pairup k l) = dig k l.
Proof.
  intros Hk. revert l. apply even_list_ind; [done|]. intros a b l IH.
  cbn [pairup]. rewrite !dig_cons, IH.
  replace (2 * k) with (k + k) by lia. rewrite Z.pow_add_r by lia. lia.
Qed.

(** The mask selecting every other [k]-bit field, [n] times. *)
Definition altmask (k : Z) (n : nat) : Z := dig (2 * k) (replicate n (2 ^ k - 1)).

Lemma land_dig_cons k a b x y :
  0 <= k -> in_u k a -> in_u k b ->
  (a + 2 ^ k * x) &&& (b + 2 ^ k * y) = (a &&& b) + 2 ^ k * (x &&& y).
Proof.
  intros Hk Ha Hb. apply Z.bits_inj'. intros i Hi.
  rewrite Z.land_spec, !testbit_split by (done || apply land_in_u; lia).
  case_bool_decide; by rewrite Z.land_spec.
Qed.

Lemma altmask_S k n : 0 <= k -> altmask k (S n) = (2 ^ k - 1) + 2 ^ k * (0 + 2 ^ k * altmask k n).
Proof.
  intros. unfold altmask. cbn [replicate]. rewrite dig_cons.
  replace (2 * k) with (k + k) by lia. rewrite Z.pow_add_r by lia. lia.
Qed.

Lemma land_ones_id k a : 0 <= k -> in_u k a -> a &&& (2 ^ k - 1) = a.
Proof.
  intros. replace (2 ^ k - 1) with (Z.ones k) by (rewrite Z.ones_equiv; lia).
  rewrite Z.land_ones by done. by apply Z.mod_small.
Qed.

(** Masking keeps the even fields, each in a field of double width. *)
Lemma dig_land_mask k l :
  0 <= k -> fits k l -> Nat.even (length l) = true ->
  dig k l &&& altmask k (Nat.div2 (length l)) = dig (2 * k) (evens l).
Proof.
  intros Hk Hf Hev. revert l Hev Hf. refine (even_list_ind _ _ _); [done|].
  intros a b l IH [Ha [Hb Hf]%Forall_cons_1]%Forall_cons_1.
  cbn [length Nat.div2 evens]. rewrite altmask_S, !dig_cons by done.
  rewrite !land_dig_cons, IH, land_ones_id, Z.land_0_r by (done || lia).
  replace (2 * k) with (k + k) by lia. rewrite Z.pow_add_r by lia. lia.
Qed.

(** Shifting by one field first keeps the odd fields. *)
Lemma dig_land_mask_tail k a l :
  0 <= k -> Nat.even (length l) = true -> forall b, fits k (b :: l) ->
  dig k (b :: l) &&& altmask k (S (Nat.div2 (length l))) = dig (2 * k) (odds (a :: b :: l)).
Proof.
  intros Hk. revert l. refine (even_list_ind _ _ _).
  - intros b [Hb _]%Forall_cons_1. cbn [length Nat.div2]. rewrite altmask_S, !dig_cons by done.
    rewrite land_dig_cons, land_ones_id by (done || lia). cbn. by rewrite !Z.mul_0_r.
  - intros c d l IH b [Hb [Hc Hf]%Forall_cons_1]%Forall_cons_1. cbn [length Nat.div2].
    rewrite altmask_S, (dig_cons k b), (dig_cons k c) by done.
    rewrite !land_dig_cons, land_ones_id, Z.land_0_r, IH by (done || lia).
    cbn [odds]. rewrite (dig_cons (2 * k) b).
    replace (2 * k) with (k + k) by lia. rewrite Z.pow_add_r by lia. lia.
Qed.

Lemma dig_shiftr_land_mask k l :
  0 <= k -> fits k l -> Nat.even (length l) = true ->
  (dig k l >>> k) &&& altmask k (Nat.div2 (length l)) = dig (2 * k) (odds l).
Proof.
  intros Hk Hf Hev. destruct l as [|a [|b l]]; [cbn; by rewrite Z.shiftr_0_l|done|].
  apply Forall_cons_1 in Hf as [Ha Hf]. rewrite dig_shiftr by done.
  by apply (dig_land_mask_tail k a l).
Qed.

Lemma dig_pairsums k l :
  Nat.even (length l) = true -> dig k (evens l) + dig k (odds l) = dig k (pairsums l).
Proof.
  revert l. refine (even_list_ind _ _ _); [done|]. intros a b l IH.
  cbn [evens odds pairsums]. rewrite !dig_cons, <- IH. lia.
Qed.

Lemma dig_pairup_odds k l :
  0 <= k -> Nat.even (length l) = true ->
  dig k l - (2 ^ k - 1) * dig (2 * k) (odds l) = dig (2 * k) (pairsums l).
Proof.
  intros Hk Hev. rewrite <- (dig_pairup k l) by done.
  revert l Hev. refine (even_list_ind _ _ _); [cbn; lia|].
  intros a b l IH. cbn [pairup odds pairsums]. rewrite !dig_cons, <- IH. lia.
Qed.

Lemma Forall_pairsums m l :
  Forall (fun d => 0 <= d <= m) l -> Forall (fun d => 0 <= d <= 2 * m) (pairsums l).
Proof.
  remember (length l) as n eqn:En. revert l En.
  induction n as [n IH] using lt_wf_ind. intros [|a [|b l]] -> Hf; cbn; try constructor.
  - apply Forall_cons_1 in Hf as [Ha [Hb Hf]%Forall_cons_1]. lia.
  - apply Forall_cons_1 in Hf as [Ha [Hb Hf]%Forall_cons_1].
    apply (IH (length l)); cbn; [lia|done|done].
Qed.

Lemma fits_le k m l : m < 2 ^ k -> Forall (fun d => 0 <= d <= m) l -> fits k l.
Proof. intros Hm. apply Forall_impl. intros; lia. Qed.

(** Adding the word shifted by one field adds each field's right neighbour. *)
Fixpoint neighbours (l : list Z) : list Z :=
  match l with [] => [] | a :: l => a + hd 0 l :: neighbours l end.

Lemma dig_add_shiftr k l :
  0 <= k -> fits k l -> dig k l + (dig k l >>> k) = dig k (neighbours l).
Proof.
  intros Hk. induction 1 as [|a l Ha Hf IH]; [cbn; by rewrite Z.shiftr_0_l|].
  rewrite dig_shiftr by done. cbn [neighbours]. rewrite !dig_cons, <- IH.
  destruct Hf as [|b l Hb Hf]; cbn [hd].
  - change (dig k []) with 0. rewrite Z.shiftr_0_l. lia.
  - rewrite dig_shiftr, (dig_cons k b) by done. lia.
Qed.

Lemma evens_neighbours l : Nat.even (length l) = true -> evens (neighbours l) = pairsums l.
Proof. revert l. refine (even_list_ind _ _ _); [done|]. intros a b l IH. cbn. by rewrite IH. Qed.

Lemma length_neighbours l : length (neighbours l) = length l.
Proof. induction l; cbn; auto. Qed.

Lemma Forall_neighbours m l :
  0 <= m -> Forall (fun d => 0 <= d <= m) l -> Forall (fun d => 0 <= d <= 2 * m) (neighbours l).
Proof.
  intros Hm. induction 1 as [|a l Ha Hf IH]; cbn; constructor; [|done].
  destruct Hf; cbn; lia.
Qed.

(** Field-wise sum of two words. *)
Fixpoint add_digits (l m : list Z) : list Z :=
  match l, m with
  | [], _ => m
  | _, [] => l
  | a :: l, b :: m => a + b :: add_digits l m
  end.

Lemma dig_add k l m : dig k l + dig k m = dig k (add_digits l m).
Proof.
  revert m. induction l as [|a l IH]; intros [|b m]; [done..|cbn; lia|].
  cbn [add_digits]. rewrite !dig_cons, <- IH. lia.
Qed.

(** Dropping [j] fields is a shift by [j * k] bits. *)
Lemma dig_shiftr_drop k j l :
  0 <= k -> fits k l -> dig k l >>> (k * Z.of_nat j) = dig k (drop j l).
Proof.
  intros Hk. revert l. induction j as [|j IH]; intros l Hl.
  - by rewrite Z.mul_0_r, Z.shiftr_0_r.
  - replace (k * Z.of_nat (S j)) with (k + k * Z.of_nat j) by lia.
    rewrite <- Z.shiftr_shiftr by lia. destruct Hl as [|a l Ha Hl].
    + rewrite !Z.shiftr_0_l. done.
    + rewrite dig_shiftr by done. by apply IH.
Qed.

(** ** The three field-summing steps of a parallel population count *)
Lemma swar_step1 l :
  Forall (fun d => 0 <= d <= 1) l -> Nat.even (length l) = true ->
  dig 1 l - ((dig 1 l >>> 1) &&& altmask 1 (Nat.div2 (length l))) = dig 2 (pairsums l).
Proof.
  intros Hl Hev. rewrite dig_shiftr_land_mask; [|lia|by apply (fits_le 1 1)|done].
  pose proof (dig_pairup_odds 1 l ltac:(lia) Hev). change (2 * 1) with 2 in *. change (2 ^ 1) with 2 in *. lia.
Qed.

Lemma swar_step2 l :
  Forall (fun d => 0 <= d <= 2) l -> Nat.even (length l) = true ->
  (dig 2 l &&& altmask 2 (Nat.div2 (length l)))
  + ((dig 2 l >>> 2) &&& altmask 2 (Nat.div2 (length l))) = dig 4 (pairsums l).
Proof.
  intros Hl Hev. assert (fits 2 l) by (by apply (fits_le 2 2)).
  rewrite dig_shiftr_land_mask, dig_land_mask by (done || lia). by apply (dig_pairsums 4).
Qed.

Lemma swar_step3 l :
  Forall (fun d => 0 <= d <= 4) l -> Nat.even (length l) = true ->
  (dig 4 l + (dig 4 l >>> 4)) &&& altmask 4 (Nat.div2 (length l)) = dig 8 (pairsums l).
Proof.
  intros Hl Hev. rewrite dig_add_shiftr by (lia || by apply (fits_le 4 4)).
  rewrite <- (length_neighbours l) at 1. rewrite dig_land_mask.
  - by rewrite evens_neighbours.
  - done.
  - apply (fits_le 4 8); [lia|]. apply (Forall_neighbours 4); [lia|done].
  - by rewrite length_neighbours.
Qed.

(** ** The bits of a word as one-bit digits *)
Fixpoint bits_of (n : nat) (x : Z) : list Z :=
  match n with O => [] | S n => Z.b2z (Z.odd x) :: bits_of n (x >>> 1) end.

(** The number of set bits among the [n] low bits of [x]. *)
Definition popcount (n : nat) (x : Z) : Z :=
  sumZ (map (fun i => Z.b2z (Z.testbit x (Z.of_nat i))) (seq 0 n)).

Lemma length_bits_of n x : length (bits_of n x) = n.
Proof. revert x. induction n; intros; cbn; auto. Qed.

Lemma bits_of_range n x : Forall (fun d => 0 <= d <= 1) (bits_of n x).
Proof. revert x. induction n; intros; cbn; constructor; auto. destruct (Z.odd x); cbn; lia. Qed.

Lemma dig_bits_of n x : in_u (Z.of_nat n) x -> dig 1 (bits_of n x) = x.
Proof.
  revert x. induction n as [|n IH]; intros x Hx; [cbn in *; lia|].
  cbn [bits_of]. rewrite dig_cons, IH.
  - rewrite Z.shiftr_div_pow2 by lia. change (2 ^ 1) with 2.
    rewrite Zodd_mod. pose proof (Z.div_mod x 2). pose proof (Z.mod_pos_bound x 2).
    assert (x mod 2 = 0 \/ x mod 2 = 1) as [E|E] by lia; rewrite E; cbn; lia.
  - rewrite Nat2Z.inj_succ, Z.pow_succ_r in Hx by lia. rewrite Z.shiftr_div_pow2 by lia.
    change (2 ^ 1) with 2. split; [apply Z.div_pos; lia|apply Z.div_lt_upper_bound; lia].
Qed.

Lemma sumZ_bits_of n x : sumZ (bits_of n x) = popcount n x.
Proof.
  unfold popcount. revert x. induction n as [|n IH]; intros x; [done|].
  cbn [bits_of seq map]. change (sumZ (?a :: ?l)) with (a + sumZ l). rewrite IH, Z.bit0_odd.
  f_equal. rewrite <- seq_shift, map_map. f_equal. apply map_ext. intros i.
  rewrite Z.shiftr_spec by lia. do 2 f_equal. lia.
Qed.
