(* ===== verification/Bitops.v ===== *)
(** * Bitops: counting, scanning and reversing the bits of one word

    lib/bitops.c: the [hweight] family (population count), [__ffs]/[__fls]
    (first and last set bit), [bitrev8]/[bitrev16], [parity8], and the
    interrupt-masked [__xchg]/[__cmpxchg] on a single cell.  Arithmetic is kept at
    the width of the C types with [u8] ... [u64]. *)
From S2P Require Import Prelude Digits.

(** ** Population count *)
Definition hweight64 (quad : Z) : Z :=
  let res := u64 (quad - ((quad >>> 1) &&& 0x5555555555555555)) in
  let res := u64 ((res &&& 0x3333333333333333) + ((res >>> 2) &&& 0x3333333333333333)) in
  let res := u64 (res + (res >>> 4)) &&& 0x0F0F0F0F0F0F0F0F in
  let res := u64 (res + (res >>> 8)) in
  let res := u64 (res + (res >>> 16)) in
  u8 (u64 (res + (res >>> 32)) &&& 0x00000000000000FF).

Definition hweight32 (dword : Z) : Z :=
  let res := u32 (dword - ((dword >>> 1) &&& 0x55555555)) in
  let res := u32 ((res &&& 0x33333333) + ((res >>> 2) &&& 0x33333333)) in
  let res := u32 (res + (res >>> 4)) &&& 0x0F0F0F0F in
  let res := u32 (res + (res >>> 8)) in
  u8 (u32 (res + (res >>> 16)) &&& 0x000000FF).

Definition hweight16 (word : Z) : Z :=
  let res := u16 (word - ((word >>> 1) &&& 0x5555)) in
  let res := u16 ((res &&& 0x3333) + ((res >>> 2) &&& 0x3333)) in
  let res := u16 ((res + (res >>> 4)) &&& 0x0F0F) in
  u8 ((res + (res >>> 8)) &&& 0x00FF).

Definition hweight8 (byte : Z) : Z :=
  let res := u8 (byte - ((byte >>> 1) &&& 0x55)) in
  let res := u8 ((res &&& 0x33) + ((res >>> 2) &&& 0x33)) in
  u8 ((res + (res >>> 4)) &&& 0x0F).

(** ** Bit reversal and parity *)
Definition bitrev8 (byte : Z) : Z :=
  let byte := u8 (((byte &&& 0x55) <<< 1) ||| ((byte &&& 0xAA) >>> 1)) in
  let byte := u8 (((byte &&& 0x33) <<< 2) ||| ((byte &&& 0xCC) >>> 2)) in
  u8 (((byte &&& 0x0F) <<< 4) ||| ((byte &&& 0xF0) >>> 4)).

Definition bitrev16 (word : Z) : Z :=
  let word := u16 (((word &&& 0x5555) <<< 1) ||| ((word &&& 0xAAAA) >>> 1)) in
  let word := u16 (((word &&& 0x3333) <<< 2) ||| ((word &&& 0xCCCC) >>> 2)) in
  let word := u16 (((word &&& 0x0F0F) <<< 4) ||| ((word &&& 0xF0F0) >>> 4)) in
  u16 (((word &&& 0x00FF) <<< 8) ||| ((word &&& 0xFF00) >>> 8)).

Definition parity8 (val : Z) : Z :=
  let val := u8 (val ^^^ (val >>> 4)) in
  (0x6996 >>> (val &&& 0xf)) &&& 1.

(** ** First set bit

    [if ((x & mask) == 0) { num += k; x >>= k; }], the step every width repeats. *)
Definition ffs_step (mask k : Z) (st : Z * Z) : Z * Z :=
  let '(num, x) := st in
  if (x &&& mask) =? 0 then (num + k, x >>> k) else (num, x).
Definition ffs_last (st : Z * Z) : Z :=
  let '(num, x) := st in if (x &&& 0x1) =? 0 then num + 1 else num.

Definition __ffs8 (byte : Z) : Z :=
  if byte =? 0 then 0
  else ffs_last (ffs_step 0x3 2 (ffs_step 0xf 4 (0, byte))).

Definition __ffs16 (word : Z) : Z :=
  if word =? 0 then 0
  else ffs_last (ffs_step 0x3 2 (ffs_step 0xf 4 (ffs_step 0xff 8 (0, word)))).

Definition __ffs32 (dword : Z) : Z :=
  if dword =? 0 then 0
  else ffs_last (ffs_step 0x3 2 (ffs_step 0xf 4 (ffs_step 0xff 8
         (ffs_step 0xffff 16 (0, dword))))).

Definition __ffs64 (qword : Z) : Z :=
  if qword =? 0 then 0
  else ffs_last (ffs_step 0x3 2 (ffs_step 0xf 4 (ffs_step 0xff 8
         (ffs_step 0xffff 16 (ffs_step 0xffffffff 32 (0, qword)))))).

(** ** Last set bit

    [if (!(x & mask)) { x <<= k; num -= k; }] at width [w]. *)
Definition fls_step (w mask k : Z) (st : Z * Z) : Z * Z :=
  let '(num, x) := st in
  if (x &&& mask) =? 0 then (num - k, wrap w (x <<< k)) else (num, x).

Definition __fls8 (x : Z) : Z :=
  if x =? 0 then 0
  else fst (fls_step 8 0x80 1 (fls_step 8 0xc0 2 (fls_step 8 0xf0 4 (7, x)))).

Definition __fls16 (word : Z) : Z :=
  if word =? 0 then 0
  else fst (fls_step 16 0x8000 1 (fls_step 16 0xc000 2 (fls_step 16 0xf000 4
         (fls_step 16 0xff00 8 (16 - 1, word))))).

Definition __fls32 (dword : Z) : Z :=
  if dword =? 0 then 0
  else fst (fls_step 32 0x80000000 1 (fls_step 32 0xc0000000 2
         (fls_step 32 0xf0000000 4 (fls_step 32 0xff000000 8
         (fls_step 32 0xffff0000 16 (32 - 1, dword)))))).

Definition __fls64 (quad : Z) : Z :=
  if quad =? 0 then 0
  else fst (fls_step 64 0x8000000000000000 1 (fls_step 64 0xc000000000000000 2
         (fls_step 64 0xf000000000000000 4 (fls_step 64 0xff00000000000000 8
         (fls_step 64 0xffff000000000000 16 (fls_step 64 0xffffffff00000000 32
         (64 - 1, quad))))))).

(** [__ffzN(x)] of target/bitops.h: first set bit of the complement. *)
Definition __ffz8 (x : Z) : Z := __ffs8 (u8 (Z.lnot x)).
Definition __ffz16 (x : Z) : Z := __ffs16 (u16 (Z.lnot x)).
Definition __ffz32 (x : Z) : Z := __ffs32 (u32 (Z.lnot x)).
Definition __ffz64 (x : Z) : Z := __ffs64 (u64 (Z.lnot x)).

(** ** Exchange on one cell

    The generic (non-SMP) versions run with local interrupts masked; the cell is
    read and written at [size] bytes, any other size is a [BUG()].  The result
    pairs the returned value with the new content of the cell. *)
Definition xchg_width (size : Z) : option Z :=
  if decide (size = 1 \/ size = 2 \/ size = 4 \/ size = 8) then Some (8 * size) else None.

Definition __xchg (x cell size : Z) : res (Z * Z) :=
  match xchg_width size with
  | Some w => Ok (wrap w cell, wrap w x)
  | None => Fault FBug
  end.

Definition __cmpxchg (cell old new size : Z) : res (Z * Z) :=
  match xchg_width size with
  | Some w =>
      let ret := wrap w cell in
      if ret =? old then Ok (ret, wrap w new) else Ok (ret, ret)
  | None => Fault FBug
  end.

(** ** Population count is correct *)

(** The first three steps of every [hweight] sum the bits of each byte; none of
    them overflows the word. *)
Definition byte_counts (n : nat) (x : Z) : list Z :=
  pairsums (pairsums (pairsums (bits_of n x))).

Lemma byte_counts_length m x : length (byte_counts (8 * m) x) = m.
Proof.
  unfold byte_counts. rewrite !length_pairsums, length_bits_of.
  rewrite !Nat.div2_div, !Nat.Div0.div_div. by rewrite Nat.mul_comm, Nat.div_mul.
Qed.

Lemma byte_counts_range n x : Forall (fun d => 0 <= d <= 8) (byte_counts n x).
Proof.
  apply (Forall_pairsums 4), (Forall_pairsums 2), (Forall_pairsums 1), bits_of_range.
Qed.

Lemma byte_counts_sum m x : sumZ (byte_counts (8 * m) x) = popcount (8 * m) x.
Proof.
  unfold byte_counts. rewrite <- sumZ_bits_of.
  rewrite !sumZ_pairsums; [done|..]; rewrite ?length_pairsums, length_bits_of;
    rewrite ?Nat.div2_div, ?Nat.Div0.div_div; apply Nat.even_spec.
  - exists (4 * m)%nat. lia.
  - exists (2 * m)%nat. replace (8 * m)%nat with (4 * m * 2)%nat by lia. rewrite Nat.div_mul; lia.
  - exists m. replace (8 * m)%nat with (2 * m * 4)%nat by lia. cbn [Nat.mul]. rewrite Nat.div_mul; lia.
Qed.

Lemma dig_wrap_id k n l :
  0 <= k -> fits k l -> (k * Z.of_nat (length l) <= Z.of_nat n) ->
  wrap (Z.of_nat n) (dig k l) = dig k l.
Proof.
  intros Hk Hl Hn. apply wrap_id. pose proof (dig_bound k l Hk Hl).
  assert (2 ^ (k * Z.of_nat (length l)) <= 2 ^ Z.of_nat n) by (apply Z.pow_le_mono_r; lia). lia.
Qed.

Lemma swar_bytes m x :
  let w := Z.of_nat (8 * m) in
  in_u w x ->
  let r := wrap w (x - ((x >>> 1) &&& altmask 1 (4 * m))) in
  let r := wrap w ((r &&& altmask 2 (2 * m)) + ((r >>> 2) &&& altmask 2 (2 * m))) in
  wrap w (r + (r >>> 4)) &&& altmask 4 m = dig 8 (byte_counts (8 * m) x).
Proof.
  intros w Hx. cbv zeta. unfold byte_counts.
  set (l := bits_of (8 * m) x). set (l1 := pairsums l). set (l2 := pairsums l1).
  assert (L0 : length l = (8 * m)%nat) by apply length_bits_of.
  assert (L1 : length l1 = (4 * m)%nat).
  { unfold l1. rewrite length_pairsums, L0, Nat.div2_div. symmetry. apply Nat.div_unique_exact; lia. }
  assert (L2 : length l2 = (2 * m)%nat).
  { unfold l2. rewrite length_pairsums, L1, Nat.div2_div. symmetry. apply Nat.div_unique_exact; lia. }
  assert (Ev : forall j, Nat.even (2 * j) = true) by (intros; apply Nat.even_even).
  assert (F0 : Forall (fun d => 0 <= d <= 1) l) by apply bits_of_range.
  assert (F1 : Forall (fun d => 0 <= d <= 2) l1) by by apply (Forall_pairsums 1).
  assert (F2 : Forall (fun d => 0 <= d <= 4) l2) by by apply (Forall_pairsums 2).
  pose proof (swar_step1 l F0) as S1. pose proof (swar_step2 l1 F1) as S2.
  pose proof (swar_step3 l2 F2) as S3. rewrite L0 in S1. rewrite L1 in S2. rewrite L2 in S3.
  replace (Nat.div2 (8 * m)) with (4 * m)%nat in S1
    by (replace (8 * m)%nat with (2 * (4 * m))%nat by lia; by rewrite Nat.div2_double).
  replace (Nat.div2 (4 * m)) with (2 * m)%nat in S2
    by (replace (4 * m)%nat with (2 * (2 * m))%nat by lia; by rewrite Nat.div2_double).
  rewrite Nat.div2_double in S3.
  fold l1 in S1. fold l2 in S2.
  assert (E1 : wrap w (x - (x >>> 1 &&& altmask 1 (4 * m))) = dig 2 l1).
  { rewrite <- (dig_bits_of (8 * m) x Hx). fold l.
    rewrite S1 by (replace (8 * m)%nat with (2 * (4 * m))%nat by lia; apply Ev).
    apply (dig_wrap_id 2); [lia|by apply (fits_le 2 2)|lia]. }
  rewrite !E1, S2 by (replace (4 * m)%nat with (2 * (2 * m))%nat by lia; apply Ev).
  unfold w. rewrite (dig_wrap_id 4) by (lia || by apply (fits_le 4 4)).
  rewrite dig_add_shiftr by (lia || by apply (fits_le 4 4)).
  rewrite (dig_wrap_id 4), <- dig_add_shiftr.
  - by apply S3, Ev.
  - lia.
  - by apply (fits_le 4 4).
  - lia.
  - apply (fits_le 4 8); [lia|]. by apply (Forall_neighbours 4).
  - rewrite length_neighbours. lia.
Qed.

Lemma land_ff x : x &&& 0xFF = u8 x.
Proof. change 0xFF with (Z.ones 8). by rewrite Z.land_ones. Qed.

(** One shift-and-add step on bytes, without overflow. *)
Lemma fold_bytes (n j : nat) w k l m :
  w = Z.of_nat n -> k = 8 * Z.of_nat j ->
  Forall (fun d => 0 <= d <= m) l -> 0 <= m -> 2 * m < 256 -> (8 * length l <= n)%nat ->
  let r := add_digits l (drop j l) in
  wrap w (dig 8 l + (dig 8 l >>> k)) = dig 8 r
  /\ Forall (fun d => 0 <= d <= 2 * m) r /\ length r = length l.
Proof.
  intros -> -> Hl Hm H2 Hn r.
  assert (Hr : length r = length l /\ Forall (fun d => 0 <= d <= 2 * m) r).
  { unfold r. clear -Hl Hm.
    assert (Hd : Forall (fun d => 0 <= d <= m) (drop j l)) by by apply Forall_drop.
    assert (Hlen : (length (drop j l) <= length l)%nat) by (rewrite length_drop; lia).
    revert Hd Hlen. generalize (drop j l). induction Hl as [|a l Ha Hl IH]; intros [|b k] Hd Hlen;
      cbn in *; [split; [done|constructor]|lia|split; [done|]|].
    - constructor; [lia|]. refine (Forall_impl _ _ Hl). cbn. intros; lia.
    - apply Forall_cons_1 in Hd as [Hb Hd]. destruct (IH k Hd) as [Hlk Hf]; [lia|].
      split; [lia|]. constructor; [lia|done]. }
  destruct Hr as [Hr Hf]. split; [|done].
  rewrite dig_shiftr_drop by (lia || by apply (fits_le 8 m); [lia|]). rewrite dig_add.
  apply dig_wrap_id; [lia|by apply (fits_le 8 (2 * m)); [lia|]|]. fold r. lia.
Qed.

Lemma low_byte d l : 0 <= d < 256 -> u8 (dig 8 (d :: l)) = d.
Proof. intros. by apply dig_low. Qed.

(** Adding the halves together leaves the sum of all bytes in the lowest one. *)
Lemma fold_bytes8 l :
  length l = 8%nat -> Forall (fun d => 0 <= d <= 8) l ->
  let res := u64 (dig 8 l + (dig 8 l >>> 8)) in
  let res := u64 (res + (res >>> 16)) in
  u8 (u64 (res + (res >>> 32)) &&& 0xFF) = sumZ l.
Proof.
  intros HL HF. cbv zeta.
  destruct (fold_bytes 64 1 64 8 l 8) as (-> & F1 & L1); [done..|lia|].
  destruct (fold_bytes 64 2 64 16 _ 16 eq_refl eq_refl F1) as (-> & F2 & L2); [lia..|].
  destruct (fold_bytes 64 4 64 32 _ 32 eq_refl eq_refl F2) as (-> & F3 & L3); [lia..|].
  rewrite land_ff, wrap_wrap by lia. clear -HL HF.
  do 8 (destruct l as [|? l]; [discriminate HL|]). destruct l; [|discriminate HL].
  repeat (apply Forall_cons_1 in HF as [? HF]). cbn [drop skipn add_digits].
  rewrite low_byte by lia. unfold sumZ. cbn [foldr]. lia.
Qed.

Lemma fold_bytes4 l :
  length l = 4%nat -> Forall (fun d => 0 <= d <= 8) l ->
  let res := u32 (dig 8 l + (dig 8 l >>> 8)) in
  u8 (u32 (res + (res >>> 16)) &&& 0xFF) = sumZ l.
Proof.
  intros HL HF. cbv zeta.
  destruct (fold_bytes 32 1 32 8 l 8) as (-> & F1 & L1); [done..|lia|].
  destruct (fold_bytes 32 2 32 16 _ 16 eq_refl eq_refl F1) as (-> & F2 & L2); [lia..|].
  rewrite land_ff, wrap_wrap by lia. clear -HL HF.
  do 4 (destruct l as [|? l]; [discriminate HL|]). destruct l; [|discriminate HL].
  repeat (apply Forall_cons_1 in HF as [? HF]). cbn [drop skipn add_digits].
  rewrite low_byte by lia. unfold sumZ. cbn [foldr]. lia.
Qed.

Lemma hweight64_popcount x : in_u 64 x -> hweight64 x = popcount 64 x.
Proof.
  intros Hx. unfold hweight64. pose proof (swar_bytes 8 x Hx) as E.
  change (altmask 1 (4 * 8)) with 0x5555555555555555 in E.
  change (altmask 2 (2 * 8)) with 0x3333333333333333 in E.
  change (altmask 4 8) with 0x0F0F0F0F0F0F0F0F in E.
  change (Z.of_nat (8 * 8)) with 64 in E. cbv zeta in *. rewrite E.
  change 0x00000000000000FF with 0xFF.
  rewrite fold_bytes8; [apply (byte_counts_sum 8)|apply byte_counts_length|apply byte_counts_range].
Qed.

Lemma hweight32_popcount x : in_u 32 x -> hweight32 x = popcount 32 x.
Proof.
  intros Hx. unfold hweight32. pose proof (swar_bytes 4 x Hx) as E.
  change (altmask 1 (4 * 4)) with 0x55555555 in E.
  change (altmask 2 (2 * 4)) with 0x33333333 in E.
  change (altmask 4 4) with 0x0F0F0F0F in E.
  change (Z.of_nat (8 * 4)) with 32 in E. cbv zeta in *. rewrite E.
  change 0x000000FF with 0xFF.
  rewrite fold_bytes4; [apply (byte_counts_sum 4)|apply byte_counts_length|apply byte_counts_range].
Qed.

(** Statements about all words of a small width, by evaluation. *)
Fixpoint all_from (n : nat) (x : Z) (P : Z -> bool) : bool :=
  match n with O => true | S n => P x && all_from n (x + 1) P end.

Lemma forall_word (n : nat) (P : Z -> bool) :
  all_from n 0 P = true -> forall x, 0 <= x < Z.of_nat n -> P x = true.
Proof.
  assert (H : forall n a, all_from n a P = true ->
            forall x, a <= x < a + Z.of_nat n -> P x = true).
  { clear n. induction n as [|n IH]; intros a Ha x Hx; [lia|].
    apply andb_true_iff in Ha as [Ha Hr]. destruct (decide (x = a)) as [->|]; [done|].
    apply (IH _ Hr). lia. }
  intros Ha x Hx. by apply (H n 0).
Qed.

Ltac by_evaluation n P x :=
  refine (forall_word (Z.to_nat n) P _ x _); [vm_compute; reflexivity|lia].

Lemma wrap_land w a b : 0 <= w -> in_u w b -> wrap w (a &&& b) = wrap w a &&& b.
Proof.
  intros Hw Hb. apply Z.bits_inj'. intros i Hi. rewrite Z.land_spec, !wrap_testbit, Z.land_spec by done.
  case_bool_decide; [done|]. by rewrite (testbit_high w b i), !andb_false_r by (done || lia).
Qed.

Lemma hweight16_popcount x : in_u 16 x -> hweight16 x = popcount 16 x.
Proof.
  intros Hx. unfold hweight16. pose proof (swar_bytes 2 x Hx) as E.
  change (altmask 1 (4 * 2)) with 0x5555 in E. change (altmask 2 (2 * 2)) with 0x3333 in E.
  change (altmask 4 2) with 0x0F0F in E. change (Z.of_nat (8 * 2)) with 16 in E.
  cbv zeta in *. rewrite (wrap_land 16) by lia. rewrite E. change 0x00FF with 0xFF.
  rewrite land_ff, wrap_wrap by lia.
  pose proof (byte_counts_length 2 x) as HL. pose proof (byte_counts_range (8 * 2) x) as HF.
  rewrite <- (byte_counts_sum 2). cbn [Nat.mul Nat.add] in *.
  destruct (byte_counts 16 x) as [|a [|b [|]]]; try discriminate HL.
  apply Forall_cons_1 in HF as [Ha [Hb _]%Forall_cons_1].
  rewrite dig_shiftr, dig_add by lia. cbn [add_digits]. rewrite low_byte by lia. unfold sumZ. cbn. lia.
Qed.

Lemma hweight8_popcount x : in_u 8 x -> hweight8 x = popcount 8 x.
Proof. intros Hx. apply Z.eqb_eq. by_evaluation 256 (fun x => hweight8 x =? popcount 8 x) x. Qed.

(** ** Scanning is correct *)

(** [i] is the index of the lowest set bit of [x]. *)
Definition is_ffs (x i : Z) : Prop :=
  0 <= i /\ Z.testbit x i = true /\ forall j, 0 <= j < i -> Z.testbit x j = false.

(** After the steps down to field width [k], [x0] is [x * 2^num] and [x] has a set
    bit below [k]. *)
Definition ffs_inv (x0 k : Z) (st : Z * Z) : Prop :=
  0 <= st.1 /\ x0 = st.2 * 2 ^ st.1 /\ st.2 mod 2 ^ k <> 0.

Lemma ffs_step_inv x0 mask k st :
  mask = Z.ones k -> 0 < k -> ffs_inv x0 (2 * k) st -> ffs_inv x0 k (ffs_step mask k st).
Proof.
  destruct st as [num x]. intros -> Hk (Hn & -> & Hx). cbn in *. unfold ffs_inv.
  rewrite Z.land_ones by lia. destruct (Z.eqb_spec (x mod 2 ^ k) 0) as [E|E]; cbn; [|naive_solver].
  apply Z.mod_divide in E as [q ->]; [|lia].
  replace (2 * k) with (k + k) in Hx by lia. rewrite Z.pow_add_r in Hx by lia.
  rewrite Zmult_mod_distr_r in Hx.
  rewrite Z.shiftr_div_pow2, Z.div_mul by lia. rewrite Z.pow_add_r by lia. split; [lia|]. nia.
Qed.

Lemma ffs_last_spec x0 st : ffs_inv x0 2 st -> is_ffs x0 (ffs_last st).
Proof.
  intros H. apply (ffs_step_inv x0 0x1 1) in H; [|done..].
  assert (E : ffs_last st = (ffs_step 0x1 1 st).1) by (destruct st; cbn; by case_match).
  rewrite E. clear E. destruct (ffs_step 0x1 1 st) as [num x].
  destruct H as (Hn & -> & Hx); cbn in *. rewrite <- Z.shiftl_mul_pow2 by done.
  split; [done|split].
  - rewrite Z.shiftl_spec, Z.sub_diag, Z.bit0_odd by done. rewrite Zmod_odd in Hx. by destruct (Z.odd x).
  - intros j Hj. rewrite Z.shiftl_spec_low; [done|lia].
Qed.

Lemma ffs_inv_init w x : x <> 0 -> in_u w x -> ffs_inv x w (0, x).
Proof. intros. split; [done|]. cbn. rewrite Z.mod_small by done. lia. Qed.

Ltac ffs_solve :=
  match goal with H : 0 < ?x |- _ => rewrite (proj2 (Z.eqb_neq x 0)) by lia end;
  apply ffs_last_spec;
  repeat (apply ffs_step_inv; [reflexivity|lia|]); apply ffs_inv_init; lia.

Lemma __ffs8_spec x : 0 < x < 2 ^ 8 -> is_ffs x (__ffs8 x).
Proof. intros [H ?]. unfold __ffs8. ffs_solve. Qed.
Lemma __ffs16_spec x : 0 < x < 2 ^ 16 -> is_ffs x (__ffs16 x).
Proof. intros [H ?]. unfold __ffs16. ffs_solve. Qed.
Lemma __ffs32_spec x : 0 < x < 2 ^ 32 -> is_ffs x (__ffs32 x).
Proof. intros [H ?]. unfold __ffs32. ffs_solve. Qed.
Lemma __ffs64_spec x : 0 < x < 2 ^ 64 -> is_ffs x (__ffs64 x).
Proof. intros [H ?]. unfold __ffs64. ffs_solve. Qed.

(** At field width [k], [x] is [x0] shifted left by [w - 1 - num] and its highest
    set bit is among the [k] top bits. *)
Definition fls_inv (w x0 k : Z) (st : Z * Z) : Prop :=
  st.1 <= w - 1 /\ st.2 = x0 * 2 ^ (w - 1 - st.1) /\ 2 ^ (w - k) <= st.2 < 2 ^ w.

Lemma land_high_zero w k x :
  0 <= k <= w -> in_u w x -> (x &&& (2 ^ w - 2 ^ (w - k)) = 0 <-> x < 2 ^ (w - k)).
Proof.
  intros Hk Hx.
  assert (E : forall i, 0 <= i -> Z.testbit (2 ^ w - 2 ^ (w - k)) i = bool_decide (w - k <= i < w)).
  { intros i Hi.
    replace (2 ^ w - 2 ^ (w - k)) with (Z.ones k <<< (w - k)).
    - rewrite Z.shiftl_spec by done. rewrite Z.testbit_ones by lia. 
      apply eq_true_iff_eq. rewrite bool_decide_eq_true, andb_true_iff, Z.leb_le, Z.ltb_lt. lia.
    - rewrite Z.shiftl_mul_pow2, Z.ones_equiv, <- Z.sub_1_r, Z.mul_sub_distr_r by lia.
      rewrite <- Z.pow_add_r, Z.mul_1_l by lia. do 2 f_equal. lia. }
  split.
  - intros H0. apply in_u_testbit; [lia..|]. intros i Hi.
    destruct (decide (i < w)); [|apply (testbit_high w); lia].
    apply (f_equal (fun z => Z.testbit z i)) in H0. rewrite Z.land_spec, E, Z.bits_0 in H0 by lia.
    rewrite bool_decide_true, andb_true_r in H0 by lia. done.
  - intros Hlt. apply Z.bits_inj'. intros i Hi. rewrite Z.land_spec, E, Z.bits_0 by done.
    case_bool_decide; [|apply andb_false_r]. rewrite (testbit_high (w - k) x); [done|lia..].
Qed.

Lemma fls_step_inv w x0 mask k st :
  mask = 2 ^ w - 2 ^ (w - k) -> 0 < k -> 2 * k <= w ->
  fls_inv w x0 (2 * k) st -> fls_inv w x0 k (fls_step w mask k st).
Proof.
  destruct st as [num x]. intros -> Hk Hw (Hn & Hx & Hr). cbn in *. unfold fls_inv.
  pose proof (land_high_zero w k x ltac:(lia) ltac:(lia)) as Hz.
  destruct (Z.eqb_spec (x &&& (2 ^ w - 2 ^ (w - k))) 0) as [E|E]; cbn.
  - apply Hz in E.
    assert (Hp : 2 ^ w = 2 ^ (w - k) * 2 ^ k) by (rewrite <- Z.pow_add_r by lia; f_equal; lia).
    assert (Hp' : 2 ^ (w - k) = 2 ^ (w - 2 * k) * 2 ^ k) by (rewrite <- Z.pow_add_r by lia; f_equal; lia).
    rewrite Z.shiftl_mul_pow2 by lia. rewrite wrap_id by nia.
    split; [lia|split; [|nia]]. rewrite Hx, <- Z.mul_assoc, <- Z.pow_add_r by lia. do 2 f_equal. lia.
  - split; [done|split; [done|]]. lia.
Qed.

Lemma fls_done w x0 st : 0 < w -> 0 < x0 -> fls_inv w x0 1 st -> st.1 = Z.log2 x0.
Proof.
  destruct st as [num x]; cbn. intros Hw H0 (Hn & -> & Hr); cbn in *. symmetry.
  destruct (decide (0 <= num)).
  - assert (Ew : 2 ^ w = 2 ^ num * 2 ^ (w - 1 - num) * 2) by
      (rewrite <- Z.pow_add_r by lia; replace (num + _) with (w - 1) by lia;
       rewrite Z.mul_comm, <- Z.pow_succ_r by lia; f_equal; lia).
    assert (Ew' : 2 ^ (w - 1) = 2 ^ num * 2 ^ (w - 1 - num)) by (rewrite <- Z.pow_add_r by lia; f_equal; lia).
    apply Z.log2_unique; [done|]. rewrite Z.pow_succ_r by done. nia.
  - assert (2 ^ w <= 2 ^ (w - 1 - num)) by (apply Z.pow_le_mono_r; lia). nia.
Qed.

Lemma fls_inv_init w x : 0 < w -> 0 < x < 2 ^ w -> fls_inv w x w (w - 1, x).
Proof.
  intros Hw Hx. repeat split; cbn; try lia.
  - rewrite Z.sub_diag. lia.
  - rewrite Z.sub_diag. lia.
Qed.

Ltac fls_solve w :=
  match goal with |- context [?x =? 0] =>
    destruct (Z.eqb_spec x 0) as [->|]; [reflexivity|];
    apply (fls_done w x); [lia|lia|]
  end;
  repeat (apply fls_step_inv; [reflexivity|lia|lia|]); apply (fls_inv_init w); lia.

Lemma __fls8_log2 x : in_u 8 x -> __fls8 x = Z.log2 x.
Proof. intros. unfold __fls8. fls_solve 8. Qed.
Lemma __fls16_log2 x : in_u 16 x -> __fls16 x = Z.log2 x.
Proof. intros. unfold __fls16. fls_solve 16. Qed.
Lemma __fls32_log2 x : in_u 32 x -> __fls32 x = Z.log2 x.
Proof. intros. unfold __fls32. fls_solve 32. Qed.
Lemma __fls64_log2 x : in_u 64 x -> __fls64 x = Z.log2 x.
Proof. intros. unfold __fls64. fls_solve 64. Qed.

Lemma is_ffs_unique x i j : is_ffs x i -> is_ffs x j -> i = j.
Proof.
  intros (Hi & Ti & Li) (Hj & Tj & Lj).
  destruct (Z.lt_trichotomy i j) as [H|[H|H]]; [|done|].
  - rewrite Lj in Ti by lia. done.
  - rewrite Li in Tj by lia. done.
Qed.

(** ** Properties *)

(** The word-parallel population counts agree, at every width, with the sum of
    the bits of the argument: [hweight64], [hweight32], [hweight16] and [hweight8]
    return the number of set bits of any word of their type. *)
Theorem hweight_correct x :
  (in_u 64 x -> hweight64 x = popcount 64 x) /\
  (in_u 32 x -> hweight32 x = popcount 32 x) /\
  (in_u 16 x -> hweight16 x = popcount 16 x) /\
  (in_u 8 x -> hweight8 x = popcount 8 x).
Proof.
  auto using hweight64_popcount, hweight32_popcount, hweight16_popcount, hweight8_popcount.
Qed.

Lemma hweight_correct_witness : hweight64 0xF00000000000000F = popcount 64 0xF00000000000000F.
Proof. apply (hweight_correct 0xF00000000000000F). lia. Defined.

(** For every nonzero word, [__ffsN] returns the index of the lowest set bit
    and, for every word, [__flsN] returns the index of the highest one (and 0 for
    the zero word), at each of the four widths. *)
Theorem ffs_fls_correct x :
  (0 < x < 2 ^ 64 -> is_ffs x (__ffs64 x)) /\
  (0 < x < 2 ^ 32 -> is_ffs x (__ffs32 x)) /\
  (0 < x < 2 ^ 16 -> is_ffs x (__ffs16 x)) /\
  (0 < x < 2 ^ 8 -> is_ffs x (__ffs8 x)) /\
  (in_u 64 x -> __fls64 x = Z.log2 x) /\
  (in_u 32 x -> __fls32 x = Z.log2 x) /\
  (in_u 16 x -> __fls16 x = Z.log2 x) /\
  (in_u 8 x -> __fls8 x = Z.log2 x).
Proof.
  auto 10 using __ffs64_spec, __ffs32_spec, __ffs16_spec, __ffs8_spec,
    __fls64_log2, __fls32_log2, __fls16_log2, __fls8_log2.
Qed.

Lemma ffs_fls_correct_witness : is_ffs 0x500 (__ffs64 0x500) /\ __fls64 0x500 = 10.
Proof.
  split; [apply ffs_fls_correct; lia|].
  rewrite (proj1 (proj2 (proj2 (proj2 (proj2 (ffs_fls_correct 0x500)))))); [done|lia].
Defined.

(** One swap of neighbouring [k]-bit fields moves bit [i - k] up and bit [i + k]
    down, each where the masks allow it. *)
Lemma swap_step_testbit w m1 m2 k x i :
  0 <= k -> 0 <= i < w ->
  Z.testbit (wrap w (((x &&& m1) <<< k) ||| ((x &&& m2) >>> k))) i =
  ((Z.testbit x (i - k) && Z.testbit m1 (i - k)) || (Z.testbit x (i + k) && Z.testbit m2 (i + k)))%bool.
Proof.
  intros Hk Hi. rewrite wrap_testbit, bool_decide_true by lia. cbn [andb].
  by rewrite Z.lor_spec, Z.shiftl_spec, Z.shiftr_spec, !Z.land_spec by lia.
Qed.

(** Evaluate the bits of constant masks, and drop the terms they kill. *)
Ltac eval_masks :=
  repeat match goal with
  | |- context [Z.testbit (Zpos ?p) ?j] =>
      let b := eval vm_compute in (Z.testbit (Zpos p) j) in
      change (Z.testbit (Zpos p) j) with b
  end;
  rewrite ?andb_false_r, ?andb_true_r, ?orb_false_r, ?orb_false_l.

Ltac concrete_index i n :=
  let H := fresh in
  assert (H : In i (seqZ 0 n)) by (apply list_elem_of_In, elem_of_seqZ; lia);
  cbn in H; repeat (destruct H as [<-|H]); [..|destruct H].

Lemma bitrev16_testbit x i : 0 <= i < 16 -> Z.testbit (bitrev16 x) i = Z.testbit x (15 - i).
Proof.
  intros Hi. concrete_index i 16; unfold bitrev16; cbv zeta;
    repeat (rewrite swap_step_testbit by lia; eval_masks); done.
Qed.

Lemma bitrev8_testbit x i : 0 <= i < 8 -> Z.testbit (bitrev8 x) i = Z.testbit x (7 - i).
Proof.
  intros Hi. concrete_index i 8; unfold bitrev8; cbv zeta;
    repeat (rewrite swap_step_testbit by lia; eval_masks); done.
Qed.

(** A mirror of the [w] bits of a word is an involution. *)
Lemma mirror_involutive w (f : Z -> Z) :
  0 <= w -> (forall x, in_u w (f x)) ->
  (forall x i, 0 <= i < w -> Z.testbit (f x) i = Z.testbit x (w - 1 - i)) ->
  forall x, in_u w x -> f (f x) = x.
Proof.
  intros Hw Hr Hf x Hx. apply Z.bits_inj'. intros i Hi. destruct (decide (i < w)).
  - rewrite !Hf by lia. f_equal. lia.
  - by rewrite !(testbit_high w) by (done || lia).
Qed.

(** [bitrev8] and [bitrev16] mirror the bits of their argument (bit [i] of the
    result is bit [w-1-i] of the word) and are their own inverse; [parity8] is the
    exclusive or of the eight bits. *)
Theorem bitrev_parity_correct x :
  (forall i, 0 <= i < 16 -> Z.testbit (bitrev16 x) i = Z.testbit x (15 - i)) /\
  (forall i, 0 <= i < 8 -> Z.testbit (bitrev8 x) i = Z.testbit x (7 - i)) /\
  (in_u 16 x -> bitrev16 (bitrev16 x) = x) /\
  (in_u 8 x -> bitrev8 (bitrev8 x) = x /\ parity8 x = popcount 8 x mod 2).
Proof.
  split; [|split; [|split]].
  - intros. by apply bitrev16_testbit.
  - intros. by apply bitrev8_testbit.
  - apply (mirror_involutive 16); [lia|intros; by apply wrap_range|apply bitrev16_testbit].
  - intros Hx. split.
    + revert x Hx. apply (mirror_involutive 8); [lia|intros; by apply wrap_range|apply bitrev8_testbit].
    + apply Z.eqb_eq. by_evaluation 256 (fun x => parity8 x =? popcount 8 x mod 2) x.
Qed.

Lemma bitrev_parity_correct_witness : bitrev16 (bitrev16 0x1234) = 0x1234 /\ parity8 0x13 = 1.
Proof.
  split; [apply (bitrev_parity_correct 0x1234); lia|].
  rewrite (proj2 (proj2 (proj2 (proj2 (bitrev_parity_correct 0x13))) ltac:(lia))). reflexivity.
Defined.
