(* ===== verification/Bitmap.v ===== *)
(** * Bitmap: arrays of [bits_t] words

    lib/bitops.c: [__set_bit], [__clear_bit], [__test_and_set_bit],
    [__test_and_clear_bit], [test_bit], [find_next_set_bit] and
    [find_next_clear_bit].  The width of [bits_t] and the [__ffs] it uses are
    chosen by the architecture (target/bitops.h); [BitUnit] is that choice, and
    every theorem is proved against it.  A bitmap is the list of its words; an
    access outside the array is [FOob]. *)
From S2P Require Import Prelude Bitops.

(** ** The architecture's word *)
Class BitUnit : Type := {
  BITS_PER_UNIT : Z;
  __ffs_unit : Z -> Z;
  BITS_PER_UNIT_log : Z;
  BITS_PER_UNIT_pow2 : BITS_PER_UNIT = 2 ^ BITS_PER_UNIT_log;
  BITS_PER_UNIT_log_pos : 3 <= BITS_PER_UNIT_log;
  __ffs_unit_spec : forall x, 0 < x < 2 ^ BITS_PER_UNIT -> is_ffs x (__ffs_unit x);
}.

#[refine] Instance unit8 : BitUnit :=
  {| BITS_PER_UNIT := 8; __ffs_unit := __ffs8; BITS_PER_UNIT_log := 3 |}.
Proof. all: try lia. apply __ffs8_spec. Defined.
#[refine] Instance unit16 : BitUnit :=
  {| BITS_PER_UNIT := 16; __ffs_unit := __ffs16; BITS_PER_UNIT_log := 4 |}.
Proof. all: try lia. apply __ffs16_spec. Defined.
#[refine] Instance unit32 : BitUnit :=
  {| BITS_PER_UNIT := 32; __ffs_unit := __ffs32; BITS_PER_UNIT_log := 5 |}.
Proof. all: try lia. apply __ffs32_spec. Defined.
#[refine] Instance unit64 : BitUnit :=
  {| BITS_PER_UNIT := 64; __ffs_unit := __ffs64; BITS_PER_UNIT_log := 6 |}.
Proof. all: try lia. apply __ffs64_spec. Defined.

Section bitmap.
Context `{U : BitUnit}.
Local Abbreviation W := BITS_PER_UNIT.
Implicit Types (addr p : list Z) (nr size offset : Z).

Definition bits_t (z : Z) : Z := wrap W z.
Definition BITOP_MASK nr : Z := bits_t (1 <<< (nr mod W)).
Definition BITOP_WORD nr : Z := bits_t nr / W.
Definition __ffz_unit (x : Z) : Z := __ffs_unit (bits_t (Z.lnot x)).

(** ** Single bits *)

(** The word at [addr + BITOP_WORD(nr)] is replaced by [f] of it; also returns the old word. *)
Definition update_word nr addr (f : Z -> Z) : res (Z * list Z) :=
  let i := Z.to_nat (BITOP_WORD nr) in
  old ← oob (addr !! i);
  Ok (old, <[i := bits_t (f old)]> addr).

Definition __set_bit nr addr : res (list Z) :=
  '(_, addr) ← update_word nr addr (fun w => w ||| BITOP_MASK nr); Ok addr.

Definition __clear_bit nr addr : res (list Z) :=
  '(_, addr) ← update_word nr addr (fun w => w &&& Z.lnot (BITOP_MASK nr)); Ok addr.

Definition __test_and_set_bit nr addr : res (bool * list Z) :=
  '(old, addr) ← update_word nr addr (fun w => w ||| BITOP_MASK nr);
  Ok (negb ((old &&& BITOP_MASK nr) =? 0), addr).

Definition __test_and_clear_bit nr addr : res (bool * list Z) :=
  '(old, addr) ← update_word nr addr (fun w => w &&& Z.lnot (BITOP_MASK nr));
  Ok (negb ((old &&& BITOP_MASK nr) =? 0), addr).

Definition test_bit nr addr : res bool :=
  w ← oob (addr !! Z.to_nat (BITOP_WORD nr));
  Ok (negb ((1 &&& (w >>> (nr &&& (W - 1)))) =? 0)).

(** ** Searching

    The pointer [p] is the suffix of the bitmap it points to, [*(p++)] splits it. *)
Definition next_word p : res (Z * list Z) :=
  match p with w :: p => Ok (w, p) | [] => Fault FOob end.

Definition ONES : Z := bits_t (Z.lnot 0).

(** [found_first] and [found_middle] of [find_next_set_bit]. *)
Definition set_found_first (tmp size result : Z) : Z :=
  let tmp := tmp &&& (ONES >>> (W - size)) in
  if tmp =? 0 then bits_t (result + size) else bits_t (result + __ffs_unit tmp).

(** The [while (size & ~(BITS_PER_UNIT-1))] loop and what follows it. *)
Fixpoint set_loop p (size result : Z) : res Z :=
  if (size &&& Z.lnot (W - 1)) =? 0 then
    if size =? 0 then Ok result
    else '(tmp, _) ← next_word p; Ok (set_found_first tmp size result)
  else match p with
  | [] => Fault FOob
  | tmp :: p =>
      if tmp =? 0 then set_loop p (bits_t (size - W)) (bits_t (result + W))
      else Ok (bits_t (result + __ffs_unit tmp))
  end.

Definition find_next_set_bit addr size offset : res Z :=
  let p := drop (Z.to_nat (BITOP_WORD offset)) addr in
  let result := offset &&& Z.lnot (W - 1) in
  if size <=? offset then Ok size
  else
    let size := bits_t (size - result) in
    let offset := offset mod W in
    if offset =? 0 then set_loop p size result
    else
      '(tmp, p) ← next_word p;
      let tmp := tmp &&& bits_t (ONES <<< offset) in
      if size <? W then Ok (set_found_first tmp size result)
      else if negb (tmp =? 0) then Ok (bits_t (result + __ffs_unit tmp))
      else set_loop p (bits_t (size - W)) (bits_t (result + W)).

Definition clear_found_first (tmp size result : Z) : Z :=
  let tmp := bits_t (tmp ||| (ONES <<< size)) in
  if tmp =? ONES then bits_t (result + size) else bits_t (result + __ffz_unit tmp).

Fixpoint clear_loop p (size result : Z) : res Z :=
  if (size &&& Z.lnot (W - 1)) =? 0 then
    if size =? 0 then Ok result
    else '(tmp, _) ← next_word p; Ok (clear_found_first tmp size result)
  else match p with
  | [] => Fault FOob
  | tmp :: p =>
      if bits_t (Z.lnot tmp) =? 0 then clear_loop p (bits_t (size - W)) (bits_t (result + W))
      else Ok (bits_t (result + __ffz_unit tmp))
  end.

Definition find_next_clear_bit addr size offset : res Z :=
  let p := drop (Z.to_nat (BITOP_WORD offset)) addr in
  let result := offset &&& Z.lnot (W - 1) in
  if size <=? offset then Ok size
  else
    let size := bits_t (size - result) in
    let offset := offset mod W in
    if offset =? 0 then clear_loop p size result
    else
      '(tmp, p) ← next_word p;
      let tmp := tmp ||| (ONES >>> (W - offset)) in
      if size <? W then Ok (clear_found_first tmp size result)
      else if negb (bits_t (Z.lnot tmp) =? 0) then Ok (bits_t (result + __ffz_unit tmp))
      else clear_loop p (bits_t (size - W)) (bits_t (result + W)).

(** target/bitops.h *)
Definition find_first_set_bit addr size : res Z := find_next_set_bit addr size 0.
Definition find_first_clear_bit addr size : res Z := find_next_clear_bit addr size 0.

(** ** The abstract bitmap *)

Definition bm_bit addr (i : Z) : bool :=
  match addr !! Z.to_nat (i / W) with Some w => Z.testbit w (i mod W) | None => false end.

(** Every word fits its type, and [size] bits are backed by the array. *)
Definition bm_wf addr : Prop := Forall (fun w => in_u W w) addr.
Definition bm_room addr (size : Z) : Prop := size <= W * Z.of_nat (length addr).

(** [r] is the first index in [[offset, size)] where [P] holds, or [size]. *)
Definition is_next (P : Z -> bool) (size offset r : Z) : Prop :=
  offset <= r <= size /\ (forall i, offset <= i < r -> P i = false) /\ (r < size -> P r = true).

Lemma W_pos : 8 <= W.
Proof.
  rewrite BITS_PER_UNIT_pow2. change 8 with (2 ^ 3).
  apply Z.pow_le_mono_r; [lia|apply BITS_PER_UNIT_log_pos].
Qed.

Lemma W_lt_pow : W < 2 ^ W.
Proof. pose proof W_pos. apply Z.pow_gt_lin_r; lia. Qed.

Lemma div_mod_W x : x = W * (x / W) + x mod W /\ 0 <= x mod W < W.
Proof. pose proof W_pos. split; [apply Z.div_mod; lia|apply Z.mod_pos_bound; lia]. Qed.

Lemma align_mask x : x &&& Z.lnot (W - 1) = W * (x / W).
Proof.
  pose proof BITS_PER_UNIT_log_pos. rewrite BITS_PER_UNIT_pow2.
  replace (2 ^ BITS_PER_UNIT_log - 1) with (Z.ones BITS_PER_UNIT_log) by (rewrite Z.ones_equiv; lia).
  rewrite <- Z.ldiff_land, Z.ldiff_ones_r, Z.shiftl_mul_pow2, Z.shiftr_div_pow2 by lia. lia.
Qed.

Lemma low_mask x : x &&& (W - 1) = x mod W.
Proof.
  pose proof BITS_PER_UNIT_log_pos. rewrite BITS_PER_UNIT_pow2.
  replace (2 ^ BITS_PER_UNIT_log - 1) with (Z.ones BITS_PER_UNIT_log) by (rewrite Z.ones_equiv; lia).
  by rewrite Z.land_ones by lia.
Qed.

Lemma ONES_eq : ONES = Z.ones W.
Proof.
  pose proof W_pos. unfold ONES, bits_t. apply Z.bits_inj'. intros i Hi.
  rewrite wrap_testbit, Z.testbit_ones, Z.lnot_spec, Z.bits_0 by lia.
  case_bool_decide; destruct (Z.leb_spec 0 i), (Z.ltb_spec i W); cbn; done || lia.
Qed.

Lemma ONES_testbit i : 0 <= i -> Z.testbit ONES i = bool_decide (i < W).
Proof.
  intros. pose proof W_pos. rewrite ONES_eq, Z.testbit_ones by lia.
  case_bool_decide; destruct (Z.leb_spec 0 i), (Z.ltb_spec i W); cbn; done || lia.
Qed.

Lemma bm_bit_cons w p i : 0 <= i ->
  bm_bit (w :: p) i = if bool_decide (i < W) then Z.testbit w i else bm_bit p (i - W).
Proof.
  intros Hi. pose proof W_pos. unfold bm_bit. case_bool_decide.
  - rewrite Z.div_small, Z.mod_small by lia. done.
  - replace (i / W) with ((i - W) / W + 1) by (rewrite <- Z.div_add by lia; f_equal; lia).
    replace (i mod W) with ((i - W) mod W) by (rewrite <- (Z_mod_plus_full (i - W) 1 W); f_equal; lia).
    rewrite Z2Nat.inj_add, Nat.add_comm by (try apply Z.div_pos; lia). done.
Qed.

Lemma bm_bit_drop k addr i : 0 <= i ->
  bm_bit (drop k addr) i = bm_bit addr (W * Z.of_nat k + i).
Proof.
  intros Hi. pose proof W_pos. unfold bm_bit. rewrite lookup_drop.
  replace ((W * Z.of_nat k + i) / W) with (i / W + Z.of_nat k)
    by (rewrite <- Z.div_add by lia; f_equal; lia).
  replace ((W * Z.of_nat k + i) mod W) with (i mod W)
    by (rewrite <- (Z_mod_plus_full i (Z.of_nat k) W); f_equal; lia).
  rewrite Z2Nat.inj_add, Nat2Z.id, Nat.add_comm by (try apply Z.div_pos; lia). done.
Qed.

(** ** First set bit of one masked word *)
Lemma is_ffs_range x i : in_u W x -> is_ffs x i -> 0 <= i < W.
Proof.
  intros Hx (Hi & Ht & _). split; [done|]. destruct (decide (i < W)); [done|].
  rewrite (testbit_high W) in Ht by (done || lia). done.
Qed.

Lemma set_found_first_spec w size result :
  in_u W w -> 0 < size <= W -> 0 <= result -> result + size < 2 ^ W ->
  exists r, set_found_first w size result = result + r /\ is_next (Z.testbit w) size 0 r.
Proof.
  intros Hw Hs Hr Hb. pose proof W_pos. unfold set_found_first.
  set (t := w &&& (ONES >>> (W - size))).
  assert (Ht : forall i, 0 <= i -> Z.testbit t i = (Z.testbit w i && bool_decide (i < size))%bool).
  { intros i Hi. unfold t. rewrite Z.land_spec, Z.shiftr_spec, ONES_testbit by lia.
    f_equal. apply bool_decide_ext. lia. }
  assert (Hu : in_u W t).
  { apply land_in_u; [lia|done|]. rewrite ONES_eq, Z.shiftr_nonneg. rewrite Z.ones_equiv. lia. }
  destruct (Z.eqb_spec t 0) as [E|E].
  - exists size. split; [unfold bits_t; rewrite wrap_id by lia; done|].
    split; [lia|split; [|lia]]. intros i Hi. specialize (Ht i ltac:(lia)).
    rewrite E, Z.bits_0, bool_decide_true, andb_true_r in Ht by lia. done.
  - destruct (__ffs_unit_spec t) as (Hi & Hti & Hlow); [lia|].
    rewrite Ht in Hti by done. apply andb_true_iff in Hti as [Hwi Hlt%bool_decide_eq_true].
    exists (__ffs_unit t). split; [unfold bits_t; rewrite wrap_id by lia; done|].
    split; [lia|split; [|done]]. intros i Hi'. specialize (Hlow i ltac:(lia)).
    rewrite Ht, bool_decide_true, andb_true_r in Hlow by lia. done.
Qed.

(** Moving a search result past the words already scanned. *)
Lemma is_next_skip w p size r :
  W <= size -> (forall i, 0 <= i < W -> Z.testbit w i = false) ->
  is_next (bm_bit p) (size - W) 0 r -> is_next (bm_bit (w :: p)) size 0 (W + r).
Proof.
  intros Hs Hz (Hr & Hlow & Hhit). pose proof W_pos. split; [lia|split].
  - intros i Hi. rewrite bm_bit_cons by lia. case_bool_decide; [apply Hz; lia|apply Hlow; lia].
  - intros Hlt. rewrite bm_bit_cons, bool_decide_false by lia.
    replace (W + r - W) with r by lia. apply Hhit. lia.
Qed.

Lemma is_next_word w p size r :
  r < W -> is_next (Z.testbit w) size 0 r -> is_next (bm_bit (w :: p)) size 0 r.
Proof.
  intros HrW (Hr & Hlow & Hhit). pose proof W_pos. split; [done|split].
  - intros i Hi. rewrite bm_bit_cons, bool_decide_true by lia. apply Hlow. lia.
  - intros Hlt. rewrite bm_bit_cons, bool_decide_true by lia. by apply Hhit.
Qed.

Lemma set_loop_spec p size result :
  bm_wf p -> 0 <= size -> bm_room p size -> 0 <= result -> result + size < 2 ^ W ->
  exists r, set_loop p size result = Ok (result + r) /\ is_next (bm_bit p) size 0 r.
Proof.
  intros Hp. revert size result. pose proof W_pos.
  induction Hp as [|w p Hw Hp IH]; intros size result Hs Hroom Hr Hb; unfold bm_room in *; cbn [length] in *.
  - assert (size = 0) as -> by lia. exists 0. cbn.
    rewrite Z.add_0_r. split; [done|]. split; [lia|split; intros; lia].
  - cbn [set_loop]. rewrite align_mask. destruct (decide (size < W)) as [Hlt|Hge].
    + rewrite Z.div_small, Z.mul_0_r by lia. cbn [Z.eqb].
      destruct (Z.eqb_spec size 0) as [->|Hne].
      { exists 0. rewrite Z.add_0_r. split; [done|]. split; [lia|split; intros; lia]. }
      destruct (set_found_first_spec w size result) as (r & E & Hn); [done|lia..|].
      exists r. cbn. rewrite E. split; [done|]. apply is_next_word; [destruct Hn; lia|done].
    + assert (1 <= size / W) by (apply Z.div_le_lower_bound; lia).
      destruct (Z.eqb_spec (W * (size / W)) 0); [nia|].
      destruct (Z.eqb_spec w 0) as [->|Hne].
      * unfold bits_t. rewrite !wrap_id by lia.
        destruct (IH (size - W) (result + W)) as (r & E & Hn); [lia..|].
        exists (W + r). rewrite E. split; [f_equal; lia|].
        apply is_next_skip; [lia|intros; apply Z.bits_0|done].
      * destruct (__ffs_unit_spec w) as (Hi & Ht & Hlow); [lia|].
        assert (__ffs_unit w < W) by (apply (is_ffs_range w); [done|by split]).
        exists (__ffs_unit w). unfold bits_t. rewrite wrap_id by lia. split; [done|].
        apply is_next_word; [done|]. split; [lia|split; [done|intros; done]].
Qed.

(** ** [find_next_set_bit] *)

(** The masked first word makes the head of the search one more iteration. *)
Lemma set_loop_head tmp p size result :
  0 < size ->
  set_loop (tmp :: p) size result =
  if size <? W then Ok (set_found_first tmp size result)
  else if negb (tmp =? 0) then Ok (bits_t (result + __ffs_unit tmp))
  else set_loop p (bits_t (size - W)) (bits_t (result + W)).
Proof.
  intros Hs. pose proof W_pos. cbn [set_loop]. rewrite align_mask.
  destruct (Z.ltb_spec size W).
  - rewrite Z.div_small, Z.mul_0_r by lia. cbn. by rewrite (proj2 (Z.eqb_neq size 0)) by lia.
  - assert (1 <= size / W) by (apply Z.div_le_lower_bound; lia).
    rewrite (proj2 (Z.eqb_neq (W * _) 0)) by nia. by destruct (tmp =? 0).
Qed.

Lemma is_next_masked (P T : Z -> bool) o size r :
  0 <= o <= size -> (forall i, 0 <= i -> T i = (P i && bool_decide (o <= i))%bool) ->
  is_next T size 0 r -> is_next P size o r.
Proof.
  intros Ho HT (Hr & Hlow & Hhit).
  assert (o <= r).
  { destruct (decide (r < size)); [|lia]. specialize (Hhit ltac:(done)).
    rewrite HT in Hhit by lia. apply andb_true_iff in Hhit as [_ ?%bool_decide_eq_true]. done. }
  split; [lia|split].
  - intros i Hi. specialize (Hlow i ltac:(lia)).
    rewrite HT, bool_decide_true, andb_true_r in Hlow by lia. done.
  - intros Hlt. specialize (Hhit Hlt). rewrite HT in Hhit by lia.
    by apply andb_true_iff in Hhit as [? _].
Qed.

Lemma is_next_shift (k : nat) addr size o r :
  0 <= o -> is_next (bm_bit (drop k addr)) (size - W * Z.of_nat k) o r ->
  is_next (bm_bit addr) size (W * Z.of_nat k + o) (W * Z.of_nat k + r).
Proof.
  intros Ho (Hr & Hlow & Hhit). pose proof W_pos. split; [lia|split].
  - intros i Hi. rewrite <- (Hlow (i - W * Z.of_nat k)) by lia.
    rewrite bm_bit_drop by lia. f_equal. lia.
  - intros Hlt. rewrite <- bm_bit_drop by lia. apply Hhit. lia.
Qed.

Lemma bm_room_drop k addr size :
  bm_room addr size -> W * Z.of_nat k < size -> bm_room (drop k addr) (size - W * Z.of_nat k).
Proof. unfold bm_room. intros. pose proof W_pos. rewrite length_drop. nia. Qed.

Lemma find_next_set_bit_spec addr size offset :
  bm_wf addr -> bm_room addr size -> in_u W size -> in_u W offset ->
  exists r, find_next_set_bit addr size offset = Ok r /\
    if bool_decide (size <= offset) then r = size else is_next (bm_bit addr) size offset r.
Proof.
  intros Hwf Hroom Hs Ho. pose proof W_pos. pose proof W_lt_pow. unfold find_next_set_bit.
  unfold BITOP_WORD, bits_t. rewrite (wrap_id W offset), align_mask by done.
  set (k := Z.to_nat (offset / W)).
  assert (Hk : offset / W = Z.of_nat k) by (unfold k; rewrite Z2Nat.id by (apply Z.div_pos; lia); done).
  destruct (div_mod_W offset) as [Hdm Hmod].
  rewrite Hk in *. destruct (Z.leb_spec size offset) as [Hle|Hlt].
  { exists size. split; [done|]. by rewrite bool_decide_true. }
  rewrite bool_decide_false by lia. rewrite (wrap_id W (size - _)) by nia.
  set (o := offset mod W) in *. rewrite Hdm.
  assert (Hd : bm_wf (drop k addr)) by by apply Forall_drop.
  pose proof (bm_room_drop k addr size Hroom ltac:(nia)) as Hr.
  set (sz := size - W * Z.of_nat k) in *.
  destruct (Z.eqb_spec o 0) as [E|E].
  - destruct (set_loop_spec (drop k addr) sz (W * Z.of_nat k)) as (r & Er & Hn); [done|lia|done|lia..|].
    exists (W * Z.of_nat k + r). split; [done|]. rewrite E. by apply is_next_shift.
  - destruct (drop k addr) as [|w p] eqn:Ed; [unfold bm_room in Hr; cbn in Hr; lia|]. cbn.
    apply Forall_cons_1 in Hd as [Hw Hp].
    change (wrap W) with bits_t. set (tmp := w &&& bits_t (ONES <<< o)).
    rewrite <- (set_loop_head tmp p sz) by lia.
    assert (Ht : in_u W tmp) by (apply land_in_u; [lia|done|apply wrap_range; lia]).
    destruct (set_loop_spec (tmp :: p) sz (W * Z.of_nat k)) as (r & Er & Hn);
      [by constructor|lia|done|lia..|].
    exists (W * Z.of_nat k + r). split; [done|]. apply is_next_shift; [lia|]. rewrite Ed. fold sz.
    apply (is_next_masked _ (bm_bit (tmp :: p))); [lia| |done]. intros i Hi.
    rewrite !bm_bit_cons by done. case_bool_decide as HiW.
    + unfold tmp, bits_t. rewrite Z.land_spec, wrap_testbit, Z.shiftl_spec by lia.
      rewrite bool_decide_true by done. cbn [andb]. f_equal.
      destruct (decide (o <= i)).
      * rewrite ONES_testbit, !bool_decide_true by lia. done.
      * rewrite (Z.testbit_neg_r ONES), bool_decide_false by lia. done.
    + rewrite bool_decide_true by lia. by rewrite andb_true_r.
Qed.

(** ** [find_next_clear_bit] is [find_next_set_bit] of the complement *)
Definition compl (w : Z) : Z := bits_t (Z.lnot w).

Lemma compl_testbit w i : 0 <= i -> Z.testbit (compl w) i = (bool_decide (i < W) && negb (Z.testbit w i))%bool.
Proof. intros. pose proof W_pos. unfold compl, bits_t. rewrite wrap_testbit, Z.lnot_spec by lia. done. Qed.

Lemma compl_range w : in_u W (compl w).
Proof. apply wrap_range. pose proof W_pos. lia. Qed.

Lemma compl_zero w : in_u W w -> (w = ONES <-> compl w = 0).
Proof.
  intros Hw. pose proof W_pos. split.
  - intros ->. apply Z.bits_inj'. intros i Hi. rewrite compl_testbit, ONES_testbit, Z.bits_0 by done.
    by case_bool_decide.
  - intros E. apply Z.bits_inj'. intros i Hi. rewrite ONES_testbit by done. case_bool_decide.
    + apply (f_equal (fun z => Z.testbit z i)) in E.
      rewrite compl_testbit, Z.bits_0, bool_decide_true in E by done. by destruct (Z.testbit w i).
    + apply (testbit_high W); [done|lia].
Qed.

Lemma clear_found_first_compl w size result :
  0 < size < W -> clear_found_first w size result = set_found_first (compl w) size result.
Proof.
  intros Hs. pose proof W_pos. unfold clear_found_first, set_found_first, __ffz_unit.
  fold (compl (bits_t (w ||| (ONES <<< size)))).
  assert (E : compl (bits_t (w ||| (ONES <<< size))) = compl w &&& (ONES >>> (W - size))).
  { apply Z.bits_inj'. intros i Hi. unfold bits_t at 1.
    rewrite compl_testbit, Z.land_spec, wrap_testbit, Z.lor_spec, compl_testbit by lia.
    rewrite Z.shiftl_spec, Z.shiftr_spec, (ONES_testbit (i + _)) by lia. case_bool_decide; [|done]. cbn [andb].
    destruct (decide (i < size)).
    - rewrite (Z.testbit_neg_r ONES), bool_decide_true, orb_false_r, andb_true_r by lia. done.
    - rewrite ONES_testbit, bool_decide_true, bool_decide_false by lia.
      by rewrite orb_true_r, andb_false_r. }
  rewrite E.
  assert (H0 : in_u W (bits_t (w ||| (ONES <<< size)))) by (apply wrap_range; lia).
  pose proof (compl_zero _ H0) as Hz. rewrite E in Hz.
  destruct (Z.eqb_spec (bits_t (w ||| (ONES <<< size))) ONES) as [E1|E1],
    (Z.eqb_spec (compl w &&& (ONES >>> (W - size))) 0) as [E2|E2]; tauto || done.
Qed.

Lemma clear_loop_compl p size result :
  0 <= size < 2 ^ W -> clear_loop p size result = set_loop (map compl p) size result.
Proof.
  revert size result. pose proof W_pos. induction p as [|w p IH]; intros size result Hs; cbn [clear_loop set_loop map].
  - destruct (_ =? 0); [|done]. by destruct (size =? 0).
  - fold (compl w). rewrite align_mask. destruct (Z.eqb_spec (W * (size / W)) 0) as [E|E].
    + destruct (Z.eqb_spec size 0); [done|]. cbn. f_equal. apply clear_found_first_compl.
      destruct (div_mod_W size). lia.
    + destruct (compl w =? 0); [|done]. apply IH. apply wrap_range. lia.
Qed.

Lemma find_next_clear_bit_compl addr size offset :
  in_u W size -> in_u W offset ->
  find_next_clear_bit addr size offset = find_next_set_bit (map compl addr) size offset.
Proof.
  intros Hs Ho. pose proof W_pos. unfold find_next_clear_bit, find_next_set_bit.
  destruct (size <=? offset) eqn:Hle; [done|]. apply Z.leb_gt in Hle.
  assert (Hr : forall z, 0 <= bits_t z < 2 ^ W) by (intros; apply wrap_range; lia).
  rewrite align_mask. destruct (div_mod_W offset).
  assert (Hdr : drop (Z.to_nat (BITOP_WORD offset)) (map compl addr)
                = map compl (drop (Z.to_nat (BITOP_WORD offset)) addr)) by (symmetry; apply fmap_drop).
  rewrite Hdr. destruct (Z.eqb_spec (offset mod W) 0) as [E|E]; [by apply clear_loop_compl|].
  destruct (drop _ addr) as [|w p]; [done|]. cbn.
  set (t := w ||| (ONES >>> (W - offset mod W))). 
  assert (Et : compl t = compl w &&& bits_t (ONES <<< (offset mod W))).
  { apply Z.bits_inj'. intros i Hi. unfold t, bits_t.
    rewrite compl_testbit, Z.land_spec, wrap_testbit, Z.lor_spec, compl_testbit by lia.
    rewrite Z.shiftl_spec, Z.shiftr_spec, (ONES_testbit (i + _)) by lia. case_bool_decide; [|done]. cbn [andb].
    destruct (decide (offset mod W <= i)).
    - rewrite ONES_testbit, bool_decide_false, bool_decide_true, orb_false_r, andb_true_r by lia. done.
    - rewrite (Z.testbit_neg_r ONES), bool_decide_true, orb_true_r by lia. by rewrite andb_false_r. }
  unfold __ffz_unit. fold (compl t). rewrite Et.
  destruct (Z.ltb_spec (bits_t (size - W * (offset / W))) W).
  - f_equal. rewrite clear_found_first_compl; [by rewrite Et|].
    assert (Eb : bits_t (size - W * (offset / W)) = size - W * (offset / W))
      by (apply wrap_id; assert (0 <= offset / W) by (apply Z.div_pos; lia); nia). lia.
  - destruct (negb _); [done|]. by apply clear_loop_compl.
Qed.

Lemma bm_bit_compl addr i :
  0 <= i < W * Z.of_nat (length addr) -> bm_bit (map compl addr) i = negb (bm_bit addr i).
Proof.
  intros Hi. pose proof W_pos. unfold bm_bit.
  assert (Hlt : (Z.to_nat (i / W) < length addr)%nat).
  { assert (0 <= i / W < Z.of_nat (length addr)); [|lia].
    split; [apply Z.div_pos; lia|apply Z.div_lt_upper_bound; lia]. }
  apply lookup_lt_is_Some in Hlt as [w Hw]. rewrite list_lookup_fmap, Hw. cbn.
  destruct (div_mod_W i). rewrite compl_testbit, bool_decide_true by lia. done.
Qed.

Lemma find_next_clear_bit_spec addr size offset :
  bm_wf addr -> bm_room addr size -> in_u W size -> in_u W offset ->
  exists r, find_next_clear_bit addr size offset = Ok r /\
    if bool_decide (size <= offset) then r = size
    else is_next (fun i => negb (bm_bit addr i)) size offset r.
Proof.
  intros Hwf Hroom Hs Ho. rewrite find_next_clear_bit_compl by done.
  destruct (find_next_set_bit_spec (map compl addr) size offset) as (r & E & Hn); [|by unfold bm_room; rewrite length_map|done..|].
  { apply Forall_map, Forall_true. intros. apply compl_range. }
  exists r. split; [done|]. case_bool_decide; [done|]. unfold bm_room in Hroom.
  destruct Hn as (Hr & Hlow & Hhit). split; [done|split].
  - intros i Hi. rewrite <- bm_bit_compl by lia. by apply Hlow.
  - intros Hlt. rewrite <- bm_bit_compl by lia. by apply Hhit.
Qed.

(** ** Single bits *)
Lemma BITOP_WORD_eq nr : in_u W nr -> BITOP_WORD nr = nr / W.
Proof. intros. unfold BITOP_WORD, bits_t. by rewrite wrap_id. Qed.

Lemma BITOP_MASK_testbit nr i : 0 <= i -> Z.testbit (BITOP_MASK nr) i = bool_decide (i = nr mod W).
Proof.
  intros Hi. pose proof W_pos. destruct (div_mod_W nr). unfold BITOP_MASK, bits_t.
  rewrite wrap_testbit, Z.shiftl_1_l by lia. case_bool_decide as Hw; cbn [andb].
  - rewrite Z.pow2_bits_eqb by lia. destruct (Z.eqb_spec (nr mod W) i); case_bool_decide; done || lia.
  - by rewrite bool_decide_false by lia.
Qed.

Lemma bit_word_lookup nr addr :
  in_u W nr -> nr < W * Z.of_nat (length addr) -> bm_wf addr ->
  exists w, addr !! Z.to_nat (BITOP_WORD nr) = Some w /\ in_u W w /\ bm_bit addr nr = Z.testbit w (nr mod W).
Proof.
  intros Hnr Hlt Hwf. pose proof W_pos. unfold bm_bit. rewrite BITOP_WORD_eq by done.
  assert (Hi : (Z.to_nat (nr / W) < length addr)%nat).
  { assert (0 <= nr / W < Z.of_nat (length addr)); [|lia].
    split; [apply Z.div_pos; lia|apply Z.div_lt_upper_bound; lia]. }
  apply lookup_lt_is_Some in Hi as [w Hw]. exists w. rewrite Hw. split; [done|split; [|done]].
  by eapply Forall_lookup_1 in Hwf.
Qed.

(** Replacing the word of bit [nr] changes exactly the bits the new word changes. *)
Lemma update_word_spec nr addr f w :
  in_u W nr -> bm_wf addr -> addr !! Z.to_nat (BITOP_WORD nr) = Some w ->
  exists addr', update_word nr addr f = Ok (w, addr') /\ bm_wf addr' /\ length addr' = length addr /\
    forall i, 0 <= i ->
      bm_bit addr' i = if bool_decide (i / W = nr / W) then Z.testbit (f w) (i mod W) else bm_bit addr i.
Proof.
  intros Hnr Hwf Hw. pose proof W_pos. unfold update_word. rewrite Hw. cbn.
  eexists. split; [done|]. split; [|split].
  - apply Forall_insert; [done|]. apply wrap_range. lia.
  - apply length_insert.
  - intros i Hi. unfold bm_bit. rewrite BITOP_WORD_eq in * by done.
    assert (0 <= i / W) by (apply Z.div_pos; lia). assert (0 <= nr / W) by (apply Z.div_pos; lia).
    case_bool_decide as E.
    + rewrite E, list_lookup_insert_eq by by eapply lookup_lt_Some.
      destruct (div_mod_W i). unfold bits_t. rewrite wrap_testbit, bool_decide_true by lia. done.
    + rewrite list_lookup_insert_ne by lia. done.
Qed.

Lemma same_bit i nr : i / W = nr / W /\ i mod W = nr mod W <-> i = nr.
Proof. destruct (div_mod_W i), (div_mod_W nr). split; [intros [E1 E2]; congruence|by intros ->]. Qed.

(** The bitmap after setting ([v = true]) or clearing bit [nr]. *)
Definition bm_upd addr nr (v : bool) addr' : Prop :=
  bm_wf addr' /\ length addr' = length addr /\
  forall i, 0 <= i -> bm_bit addr' i = if bool_decide (i = nr) then v else bm_bit addr i.

Lemma update_word_set nr addr :
  in_u W nr -> nr < W * Z.of_nat (length addr) -> bm_wf addr ->
  exists w addr', update_word nr addr (fun w => w ||| BITOP_MASK nr) = Ok (w, addr') /\
    bm_upd addr nr true addr' /\ bm_bit addr nr = Z.testbit w (nr mod W).
Proof.
  intros Hnr Hlt Hwf. destruct (bit_word_lookup nr addr) as (w & Hw & Hu & Hb); [done..|].
  destruct (update_word_spec nr addr (fun w => w ||| BITOP_MASK nr) w Hnr Hwf Hw) as (addr' & E & Hwf' & Hl & Hbit).
  exists w, addr'. split; [done|split; [|done]]. split; [done|split; [done|]].
  intros i Hi. rewrite Hbit by done. destruct (div_mod_W i) as [_ Hm].
  pose proof (same_bit i nr) as Hsb. case_bool_decide as E1.
  - rewrite Z.lor_spec, BITOP_MASK_testbit by lia. case_bool_decide as E2.
    + rewrite bool_decide_true by tauto. apply orb_true_r.
    + rewrite bool_decide_false, orb_false_r by tauto.
      unfold bm_bit. rewrite E1, <- BITOP_WORD_eq, Hw by done. done.
  - rewrite bool_decide_false by (intros ->; tauto). done.
Qed.

Lemma update_word_clear nr addr :
  in_u W nr -> nr < W * Z.of_nat (length addr) -> bm_wf addr ->
  exists w addr', update_word nr addr (fun w => w &&& Z.lnot (BITOP_MASK nr)) = Ok (w, addr') /\
    bm_upd addr nr false addr' /\ bm_bit addr nr = Z.testbit w (nr mod W).
Proof.
  intros Hnr Hlt Hwf. destruct (bit_word_lookup nr addr) as (w & Hw & Hu & Hb); [done..|].
  destruct (update_word_spec nr addr (fun w => w &&& Z.lnot (BITOP_MASK nr)) w Hnr Hwf Hw)
    as (addr' & E & Hwf' & Hl & Hbit).
  exists w, addr'. split; [done|split; [|done]]. split; [done|split; [done|]].
  intros i Hi. rewrite Hbit by done. destruct (div_mod_W i) as [_ Hm].
  pose proof (same_bit i nr) as Hsb. case_bool_decide as E1.
  - rewrite Z.land_spec, Z.lnot_spec, BITOP_MASK_testbit by lia. case_bool_decide as E2; cbn [negb].
    + rewrite bool_decide_true by tauto. apply andb_false_r.
    + rewrite bool_decide_false, andb_true_r by tauto.
      unfold bm_bit. rewrite E1, <- BITOP_WORD_eq, Hw by done. done.
  - rewrite bool_decide_false by (intros ->; tauto). done.
Qed.

Lemma test_mask nr w : negb ((w &&& BITOP_MASK nr) =? 0) = Z.testbit w (nr mod W).
Proof.
  destruct (div_mod_W nr) as [_ Hm]. destruct (Z.eqb_spec (w &&& BITOP_MASK nr) 0) as [E|E]; cbn.
  - apply (f_equal (fun z => Z.testbit z (nr mod W))) in E.
    rewrite Z.land_spec, BITOP_MASK_testbit, bool_decide_true, andb_true_r, Z.bits_0 in E by lia. done.
  - destruct (Z.testbit w (nr mod W)) eqn:Et; [done|]. contradict E. apply Z.bits_inj'. intros i Hi.
    rewrite Z.land_spec, BITOP_MASK_testbit, Z.bits_0 by done. case_bool_decide as Ei; subst.
    + by rewrite Et.
    + apply andb_false_r.
Qed.

Lemma test_bit_spec nr addr : in_u W nr -> nr < W * Z.of_nat (length addr) -> bm_wf addr ->
  test_bit nr addr = Ok (bm_bit addr nr).
Proof.
  intros Hnr Hlt Hwf. destruct (bit_word_lookup nr addr Hnr Hlt Hwf) as (w & E & Hw & Hb).
  unfold test_bit. rewrite E. cbn. rewrite Hb, low_mask. f_equal.
  destruct (div_mod_W nr) as [_ Hm]. rewrite Z.land_comm.
  change 1 with (Z.ones 1). rewrite Z.land_ones, <- Z.bit0_mod, Z.shiftr_spec by lia.
  rewrite Z.add_0_l. by destruct (Z.testbit w (nr mod W)).
Qed.

(** ** Properties *)

(** On a bitmap of well-formed words that holds bit [nr], the four updates
    never leave the array, set or clear exactly bit [nr] and leave every other bit
    alone; the test-and variants return the bit's previous value and [test_bit]
    its current one. *)
Theorem bit_ops_correct addr nr :
  in_u W nr -> nr < W * Z.of_nat (length addr) -> bm_wf addr ->
  (exists s, __set_bit nr addr = Ok s /\ bm_upd addr nr true s /\
             __test_and_set_bit nr addr = Ok (bm_bit addr nr, s)) /\
  (exists c, __clear_bit nr addr = Ok c /\ bm_upd addr nr false c /\
             __test_and_clear_bit nr addr = Ok (bm_bit addr nr, c)) /\
  test_bit nr addr = Ok (bm_bit addr nr).
Proof.
  intros Hnr Hlt Hwf. split; [|split].
  - destruct (update_word_set nr addr Hnr Hlt Hwf) as (w & s & E & Hs & Hb). exists s.
    unfold __set_bit, __test_and_set_bit. rewrite E. cbn. by rewrite test_mask, Hb.
  - destruct (update_word_clear nr addr Hnr Hlt Hwf) as (w & s & E & Hs & Hb). exists s.
    unfold __clear_bit, __test_and_clear_bit. rewrite E. cbn. by rewrite test_mask, Hb.
  - by apply test_bit_spec.
Qed.

(** [find_next_set_bit] returns the first set bit at or after [offset], and
    [find_next_clear_bit] the first clear one, or [size] when there is none, for
    every word width; neither reads outside an array that backs [size] bits. *)
Theorem find_next_bit_correct addr size offset :
  bm_wf addr -> bm_room addr size -> in_u W size -> in_u W offset ->
  (exists r, find_next_set_bit addr size offset = Ok r /\
     if bool_decide (size <= offset) then r = size else is_next (bm_bit addr) size offset r) /\
  (exists r, find_next_clear_bit addr size offset = Ok r /\
     if bool_decide (size <= offset) then r = size
     else is_next (fun i => negb (bm_bit addr i)) size offset r).
Proof. auto using find_next_set_bit_spec, find_next_clear_bit_spec. Qed.

End bitmap.

Lemma bit_ops_correct_witness :
  exists s, __set_bit (U := unit8) 12 [0; 0x0F] = Ok s /\ bm_upd (U := unit8) [0; 0x0F] 12 true s.
Proof.
  destruct (bit_ops_correct (U := unit8) [0; 0x0F] 12) as [(s & H1 & H2 & _) _];
    [cbn; lia|cbn; lia| |by exists s].
  unfold bm_wf. rewrite !Forall_cons_iff. cbn. repeat split; lia || constructor.
Defined.

Lemma find_next_bit_correct_witness :
  exists r, find_next_set_bit (U := unit32) [0; 0x100] 64 5 = Ok r /\
    is_next (bm_bit (U := unit32) [0; 0x100]) 64 5 r.
Proof.
  destruct (find_next_bit_correct (U := unit32) [0; 0x100] 64 5) as [(r & H1 & H2) _];
    [|unfold bm_room; cbn; lia|cbn; lia|cbn; lia|by exists r].
  unfold bm_wf. rewrite !Forall_cons_iff. cbn. repeat split; lia || constructor.
Defined.
