(* ===== verification/MulDiv.v ===== *)
(** * MulDiv: software multiplication, division and remainder

    lib/muldiv.c, used where the CPU has no such instruction: shift-subtract
    division [div16u]/[div32u]/[div64u], byte- and word-wise multiplication
    [mul16u]/[mul32u], restoring remainder [mod16u]/[mod32u]/[mod64u] and Euclid's
    [gcd32u].  The three division (remainder) functions are one text at three
    types, so they share a loop parameterised by the width. *)
From S2P Require Import Prelude Digits Bitops.

(** ** Division *)
Definition MSB_IS_SET (w x : Z) : bool := negb (((x >>> (w - 1)) &&& 1) =? 0).

(** One turn of the [do ... while (--count)] loop. *)
Definition div_step (w y : Z) (st : Z * Z) : Z * Z :=
  let '(x, reste) := st in
  let c := MSB_IS_SET w x in
  let x := wrap w (x <<< 1) in
  let reste := wrap w (reste <<< 1) in
  let reste := if c then reste ||| 1 else reste in
  if y <=? reste then (x ||| 1, wrap w (reste - y)) else (x, reste).

Fixpoint div_loop (count : nat) (w y : Z) (st : Z * Z) : Z * Z :=
  match count with O => st | S count => div_loop count w y (div_step w y st) end.

Definition div16u (x y : Z) : Z := (div_loop 16 16 y (x, 0)).1.
Definition div32u (x y : Z) : Z := (div_loop 32 32 y (x, 0)).1.
Definition div64u (x y : Z) : Z := (div_loop 64 64 y (x, 0)).1.

(** ** Multiplication *)
Definition LOBYTE (x : Z) : Z := u8 x.
Definition HIBYTE (x : Z) : Z := u8 (x >>> 8).
Definition LOWORD (x : Z) : Z := u16 x.
Definition HIWORD (x : Z) : Z := u16 (x >>> 16).

Definition mul16u (x y : Z) : Z :=
  let mul1 := LOBYTE x in
  let mul2 := LOBYTE y in
  let a := u32 (mul1 * mul2) &&& 0x0000FFFF in
  let mul2 := HIBYTE y in
  let b := u32 (mul1 * mul2) &&& 0x0000FFFF in
  let a := u32 (a + u32 (b <<< 8)) in
  let mul1 := HIBYTE x in
  let b := u32 (mul1 * mul2) &&& 0x0000FFFF in
  let a := u32 (a + u32 (b <<< 16)) in
  let mul2 := LOBYTE y in
  let b := u32 (mul1 * mul2) &&& 0x0000FFFF in
  u32 (a + u32 (b <<< 8)).

Definition mul32u (x y : Z) : Z :=
  let a := mul16u (LOWORD x) (LOWORD y) &&& 0x00000000FFFFFFFF in
  let b := mul16u (LOWORD x) (HIWORD y) &&& 0x00000000FFFFFFFF in
  let a := u64 (a + u64 (b <<< 16)) in
  let b := mul16u (HIWORD x) (HIWORD y) &&& 0x00000000FFFFFFFF in
  let a := u64 (a + u64 (b <<< 32)) in
  let b := mul16u (HIWORD x) (LOWORD y) &&& 0x00000000FFFFFFFF in
  u64 (a + u64 (b <<< 16)).

(** ** Remainder *)

(** [while (!(y & (1 << (w-1)))) { y <<= 1; ++count; }] *)
Fixpoint mod_align (fuel : nat) (w y count : Z) : res (Z * Z) :=
  if (y &&& (1 <<< (w - 1))) =? 0 then
    match fuel with
    | O => Fault FHang
    | S fuel => mod_align fuel w (wrap w (y <<< 1)) (u8 (count + 1))
    end
  else Ok (y, count).

(** [while (count) { if (x >= y) x -= y; y >>= 1; --count; }] *)
Fixpoint mod_sub (count : nat) (x y : Z) : Z :=
  match count with
  | O => x
  | S count => mod_sub count (if y <=? x then x - y else x) (y >>> 1)
  end.

Definition modu (w zero x y : Z) : res Z :=
  if y =? 0 then Ok zero
  else '(y, count) ← mod_align (Z.to_nat w) w y 1; Ok (mod_sub (Z.to_nat count) x y).

Definition mod16u (x y : Z) : res Z := modu 16 (u16 (-1)) x y.
Definition mod32u (x y : Z) : res Z := modu 32 (u32 (-1)) x y.
Definition mod64u (x y : Z) : res Z := modu 64 (u32 (-1)) x y.

(** ** Greatest common divisor *)
Fixpoint gcd_loop (fuel : nat) (n m : Z) : res Z :=
  if m =? 0 then Ok n
  else match fuel with O => Fault FHang | S fuel => gcd_loop fuel m (n mod m) end.

(** Two turns at least halve [m], so 65 turns are enough for 32-bit arguments. *)
Definition gcd32u (n m : Z) : res Z := gcd_loop 65 n m.

(** ** Division is correct *)

(** After [i] turns the quotient of the [i] top bits of [X] is in the low bits of
    [x], the remainder in [r], and the bits not yet used are at the top of [x]. *)
Definition div_inv (w X y : Z) (i : Z) (st : Z * Z) : Prop :=
  exists q, st.1 = (X mod 2 ^ (w - i)) * 2 ^ i + q /\ 0 <= q < 2 ^ i /\
    X / 2 ^ (w - i) = q * y + st.2 /\ 0 <= st.2 < y.

Lemma lor_1_even z : (2 * z) ||| 1 = 2 * z + 1.
Proof.
  symmetry. apply Z.bits_inj'. intros i Hi. rewrite Z.lor_spec.
  pose proof (testbit_split 1 1 z i ltac:(lia) ltac:(lia) Hi) as E1.
  pose proof (testbit_split 1 0 z i ltac:(lia) ltac:(lia) Hi) as E0.
  change (2 ^ 1) with 2 in *. rewrite Z.add_0_l in E0. rewrite (Z.add_comm _ 1), E1, E0.
  case_bool_decide; [|rewrite (testbit_high 1 1) by lia; by rewrite orb_false_r].
  by rewrite Z.bits_0.
Qed.

Lemma div_step_inv w X y i st :
  0 <= i < w -> in_u w X -> 0 < y < 2 ^ w ->
  div_inv w X y i st -> div_inv w X y (i + 1) (div_step w y st).
Proof.
  destruct st as [x r]. intros Hi HX Hy (q & Ex & Hq & Er & Hr). cbn in Ex, Er, Hr.
  set (d := w - i - 1). assert (Hd : 0 <= d) by lia.
  assert (E1 : 2 ^ (w - i) = 2 * 2 ^ d) by (rewrite <- Z.pow_succ_r by lia; f_equal; lia).
  assert (E2 : 2 ^ (i + 1) = 2 * 2 ^ i) by (rewrite Z.pow_add_r by lia; lia).
  assert (E3 : 2 ^ w = 2 ^ d * 2 ^ i * 2) by (rewrite <- Z.pow_add_r, Z.mul_comm, <- Z.pow_succ_r by lia; f_equal; lia).
  set (P := 2 ^ d) in *. set (Q := 2 ^ i) in *.
  assert (HP : 0 < P) by (unfold P; lia). assert (HQ : 0 < Q) by (unfold Q; lia).
  (* the bit entering the remainder *)
  set (c := (X / P) mod 2).
  assert (Hc : 0 <= c < 2) by (apply Z.mod_pos_bound; lia).
  assert (HXP : X / P = 2 * (X / (2 * P)) + c).
  { unfold c. rewrite (Z.mul_comm 2 P), <- Z.div_div by lia. apply Z.div_mod. lia. }
  assert (Hlow : X mod (2 * P) = c * P + X mod P).
  { pose proof (Z.div_mod X P). pose proof (Z.div_mod X (2 * P)). nia. }
  pose proof (Z.mod_pos_bound X P HP) as HmP.
  rewrite E1, Hlow in Ex. rewrite E1 in Er.
  assert (Hxr : 0 <= x < 2 ^ w) by nia.
  assert (HM : MSB_IS_SET w x = (c =? 1)).
  { unfold MSB_IS_SET. change 1 with (Z.ones 1) at 2. rewrite Z.land_ones, Z.shiftr_div_pow2 by lia.
    replace (2 ^ (w - 1)) with (P * Q) by (unfold P, Q; rewrite <- Z.pow_add_r by lia; f_equal; lia).
    assert (x / (P * Q) = c) as -> by (symmetry; apply (Z.div_unique_pos _ _ _ (X mod P * Q + q)); nia).
    change (2 ^ 1) with 2. rewrite Z.mod_small by lia.
    destruct (Z.eqb_spec c 0), (Z.eqb_spec c 1); cbn; done || lia. }
  assert (Hx2 : wrap w (x <<< 1) = 2 * (X mod P * Q + q)).
  { rewrite Z.shiftl_mul_pow2 by lia. unfold wrap. rewrite E3.
    symmetry. apply (Z.mod_unique_pos _ _ c); nia. }
  assert (HrX : X / (2 * P) < Q) by (apply Z.div_lt_upper_bound; nia).
  assert (Hr2 : wrap w (r <<< 1) = 2 * r).
  { rewrite Z.shiftl_mul_pow2, wrap_id by (rewrite ?E3; nia). lia. }
  unfold div_inv, div_step. rewrite HM, Hx2, Hr2.
  assert (Hr3 : (if c =? 1 then 2 * r ||| 1 else 2 * r) = 2 * r + c).
  { destruct (Z.eqb_spec c 1) as [->|]; [apply lor_1_even|lia]. }
  rewrite Hr3. replace (w - (i + 1)) with d by lia. fold P. rewrite E2.
  destruct (Z.leb_spec y (2 * r + c)); cbn.
  - rewrite lor_1_even. rewrite wrap_id by nia.
    exists (2 * q + 1). repeat split; nia.
  - exists (2 * q). repeat split; nia.
Qed.

Lemma div_loop_inv w X y n i st :
  0 <= i -> i + Z.of_nat n <= w -> in_u w X -> 0 < y < 2 ^ w ->
  div_inv w X y i st -> div_inv w X y (i + Z.of_nat n) (div_loop n w y st).
Proof.
  revert i st. induction n as [|n IH]; intros i st Hi Hn HX Hy Hinv; cbn [div_loop].
  - by rewrite Z.add_0_r.
  - replace (i + Z.of_nat (S n)) with (i + 1 + Z.of_nat n) by lia.
    apply IH; [lia..|done|done|]. apply div_step_inv; [lia|done..].
Qed.

Lemma div_loop_correct n w X y :
  w = Z.of_nat n -> in_u w X -> 0 < y < 2 ^ w -> div_loop n w y (X, 0) = (X / y, X mod y).
Proof.
  intros Hw HX Hy.
  destruct (div_loop_inv w X y n 0 (X, 0)) as (q & Ex & Hq & Er & Hr); [lia..|done|done| |].
  { exists 0. cbn. rewrite Z.sub_0_r, Z.mod_small, Z.div_small by lia. lia. }
  rewrite <- Hw, Z.add_0_l, Z.sub_diag, Z.pow_0_r, Z.mod_1_r, Z.div_1_r in *.
  destruct (div_loop n w y (X, 0)) as [x r]; cbn in *. subst x.
  f_equal; [apply (Z.div_unique_pos _ _ _ r)|apply (Z.mod_unique_pos _ _ q)]; lia.
Qed.

(** Dividing by zero shifts a one into the quotient at every turn. *)
Lemma div_loop_zero n w j x r :
  0 <= j -> j + Z.of_nat n <= w -> 0 <= x -> 0 <= r -> x mod 2 ^ j = 2 ^ j - 1 ->
  (div_loop n w 0 (x, r)).1 mod 2 ^ (j + Z.of_nat n) = 2 ^ (j + Z.of_nat n) - 1.
Proof.
  revert j x r. induction n as [|n IH]; intros j x r Hj Hn Hx Hr Hones; cbn [div_loop].
  - by rewrite Z.add_0_r.
  - replace (j + Z.of_nat (S n)) with (j + 1 + Z.of_nat n) by lia.
    unfold div_step. set (r' := if MSB_IS_SET w x then wrap w (r <<< 1) ||| 1 else wrap w (r <<< 1)).
    assert (Hr' : 0 <= r').
    { assert (0 <= wrap w (r <<< 1)) by (apply wrap_range; lia).
      unfold r'. destruct (MSB_IS_SET w x); [apply Z.lor_nonneg|]; lia. }
    rewrite (proj2 (Z.leb_le 0 r') Hr'). rewrite Z.shiftl_mul_pow2 by lia. change (2 ^ 1) with 2.
    assert (E : wrap w (x * 2) = 2 * (x mod 2 ^ (w - 1))).
    { unfold wrap. rewrite Z.mul_comm. replace (2 ^ w) with (2 * 2 ^ (w - 1))
        by (rewrite <- Z.pow_succ_r by lia; f_equal; lia). apply Z.mul_mod_distr_l; lia. }
    rewrite E, lor_1_even. apply IH; [lia|lia| |apply wrap_range; lia|].
    + pose proof (Z.mod_pos_bound x (2 ^ (w - 1))). lia.
    + rewrite Z.pow_add_r by lia. change (2 ^ 1) with 2. rewrite (Z.mul_comm (2 ^ j)).
      rewrite Z.add_comm, Z.rem_mul_r by lia.
      rewrite (Z.mul_comm 2 (x mod _)), Z.mod_add, Z.div_add by lia.
      change (1 mod 2) with 1. change (1 / 2) with 0. rewrite Z.add_0_l.
      rewrite Z.mod_mod_divide by (exists (2 ^ (w - 1 - j)); rewrite <- Z.pow_add_r by lia; f_equal; lia).
      lia.
Qed.

(** ** Remainder is correct *)
Lemma land_top_zero w y : 0 < w -> in_u w y -> (y &&& (1 <<< (w - 1)) = 0 <-> y < 2 ^ (w - 1)).
Proof.
  intros Hw Hy. rewrite <- (land_high_zero w 1 y) by lia.
  rewrite Z.shiftl_1_l. replace (2 ^ w) with (2 ^ (w - 1) + 2 ^ (w - 1)); [by rewrite Z.add_simpl_r|].
  rewrite Z.add_diag, <- Z.pow_succ_r by lia. f_equal. lia.
Qed.

Lemma mod_align_spec w fuel y count :
  0 < w -> 0 < y < 2 ^ w -> 0 <= count -> count + Z.of_nat fuel < 256 ->
  2 ^ (w - 1) <= y * 2 ^ Z.of_nat fuel ->
  exists k : nat, mod_align fuel w y count = Ok (y * 2 ^ Z.of_nat k, count + Z.of_nat k) /\
    2 ^ (w - 1) <= y * 2 ^ Z.of_nat k < 2 ^ w.
Proof.
  revert y count. induction fuel as [|fuel IH]; intros y count Hw Hy Hc Hcw Hfuel; cbn [mod_align];
    pose proof (land_top_zero w y Hw ltac:(lia)) as Hz;
    destruct (Z.eqb_spec (y &&& (1 <<< (w - 1))) 0) as [E|E].
  - apply Hz in E. cbn in Hfuel. lia.
  - exists 0%nat. cbn. split; [f_equal; f_equal; lia|]. lia.
  - apply Hz in E.
    assert (2 ^ w = 2 * 2 ^ (w - 1)) by (rewrite <- Z.pow_succ_r by lia; f_equal; lia).
    rewrite Z.shiftl_mul_pow2, (wrap_id w), (wrap_id 8) by lia. change (2 ^ 1) with 2.
    rewrite Nat2Z.inj_succ, Z.pow_succ_r in Hfuel by lia.
    destruct (IH (y * 2) (count + 1)) as (k & Ek & Hk); [lia..|].
    exists (S k). rewrite Ek, Nat2Z.inj_succ, Z.pow_succ_r by lia. split; [f_equal; f_equal; lia|lia].
  - exists 0%nat. cbn. split; [f_equal; f_equal; lia|]. lia.
Qed.

Lemma mod_sub_spec k x y :
  0 < y -> 0 <= x < y * 2 ^ Z.of_nat (S k) -> mod_sub (S k) x (y * 2 ^ Z.of_nat k) = x mod y.
Proof.
  revert x. induction k as [|k IH]; intros x Hy Hx.
  - change (2 ^ Z.of_nat 1) with 2 in Hx. cbn. rewrite Z.mul_1_r. destruct (Z.leb_spec y x).
    + apply (Z.mod_unique_pos _ _ 1); lia.
    + symmetry. apply Z.mod_small. lia.
  - cbn [mod_sub]. rewrite (Nat2Z.inj_succ (S k)), Z.pow_succ_r in Hx by lia.
    set (x' := if y * 2 ^ Z.of_nat (S k) <=? x then x - y * 2 ^ Z.of_nat (S k) else x).
    assert (E : (y * 2 ^ Z.of_nat (S k)) >>> 1 = y * 2 ^ Z.of_nat k).
    { rewrite Z.shiftr_div_pow2, Nat2Z.inj_succ, Z.pow_succ_r by lia. change (2 ^ 1) with 2.
      replace (y * (2 * 2 ^ Z.of_nat k)) with (y * 2 ^ Z.of_nat k * 2) by lia. by apply Z.div_mul. }
    rewrite E. etransitivity; [apply IH; [done|]|].
    + unfold x'. destruct (Z.leb_spec (y * 2 ^ Z.of_nat (S k)) x); lia.
    + unfold x'. destruct (Z.leb_spec (y * 2 ^ Z.of_nat (S k)) x); [|done].
      replace (x - y * 2 ^ Z.of_nat (S k)) with (x + (- 2 ^ Z.of_nat (S k)) * y) by lia.
      by apply Z.mod_add; lia.
Qed.

Lemma modu_correct w zero x y :
  0 < w <= 64 -> in_u w x -> 0 < y < 2 ^ w -> modu w zero x y = Ok (x mod y).
Proof.
  intros Hw Hx Hy. unfold modu. rewrite (proj2 (Z.eqb_neq y 0)) by lia.
  destruct (mod_align_spec w (Z.to_nat w) y 1) as (k & E & Hk); [lia..| |].
  { rewrite Z2Nat.id by lia. assert (2 ^ (w - 1) <= 2 ^ w) by (apply Z.pow_le_mono_r; lia). nia. }
  rewrite E. cbn. f_equal. replace (Z.to_nat (1 + Z.of_nat k)) with (S k) by lia.
  apply mod_sub_spec; [lia|]. rewrite Nat2Z.inj_succ, Z.pow_succ_r by lia.
  assert (2 ^ w = 2 * 2 ^ (w - 1)) by (rewrite <- Z.pow_succ_r by lia; f_equal; lia). lia.
Qed.

(** ** Multiplication is correct *)
Lemma split_bytes x : in_u 16 x -> x = LOBYTE x + 256 * HIBYTE x /\ in_u 8 (LOBYTE x) /\ in_u 8 (HIBYTE x).
Proof.
  intros Hx. unfold LOBYTE, HIBYTE. rewrite Z.shiftr_div_pow2 by lia. unfold wrap. change (2 ^ 8) with 256.
  rewrite (Z.mod_small (x / 256)) by (split; [apply Z.div_pos|apply Z.div_lt_upper_bound]; lia).
  pose proof (Z.div_mod x 256). pose proof (Z.mod_pos_bound x 256).
  split; [lia|split; [lia|]]. split; [apply Z.div_pos|apply Z.div_lt_upper_bound]; lia.
Qed.

Lemma split_words x : in_u 32 x -> x = LOWORD x + 65536 * HIWORD x /\ in_u 16 (LOWORD x) /\ in_u 16 (HIWORD x).
Proof.
  intros Hx. unfold LOWORD, HIWORD. rewrite Z.shiftr_div_pow2 by lia. unfold wrap. change (2 ^ 16) with 65536.
  rewrite (Z.mod_small (x / 65536)) by (split; [apply Z.div_pos|apply Z.div_lt_upper_bound]; lia).
  pose proof (Z.div_mod x 65536). pose proof (Z.mod_pos_bound x 65536).
  split; [lia|split; [lia|]]. split; [apply Z.div_pos|apply Z.div_lt_upper_bound]; lia.
Qed.

(** A product of two halves keeps to its column. *)
Lemma column w a b :
  0 < w -> in_u w a -> in_u w b -> 0 <= a * b <= (2 ^ w - 1) * (2 ^ w - 1).
Proof. intros. nia. Qed.

Lemma mul16u_correct x y : in_u 16 x -> in_u 16 y -> mul16u x y = x * y.
Proof.
  intros Hx Hy. unfold mul16u.
  destruct (split_bytes x Hx) as (Ex & Hxl & Hxh). destruct (split_bytes y Hy) as (Ey & Hyl & Hyh).
  set (a := LOBYTE x) in *. set (b := HIBYTE x) in *. set (c := LOBYTE y) in *. set (d := HIBYTE y) in *.
  pose proof (column 8 a c ltac:(lia) Hxl Hyl). pose proof (column 8 a d ltac:(lia) Hxl Hyh).
  pose proof (column 8 b c ltac:(lia) Hxh Hyl). pose proof (column 8 b d ltac:(lia) Hxh Hyh).
  change 0x0000FFFF with (2 ^ 16 - 1). rewrite !Z.shiftl_mul_pow2 by lia.
  rewrite (wrap_id 32 (a * c)), (wrap_id 32 (a * d)), (wrap_id 32 (b * c)), (wrap_id 32 (b * d)) by lia.
  rewrite !land_ones_id by lia.
  rewrite (wrap_id 32 (a * d * 2 ^ 8)), (wrap_id 32 (b * c * 2 ^ 8)), (wrap_id 32 (b * d * 2 ^ 16)) by lia.
  rewrite (wrap_id 32 (a * c + _)) by lia. rewrite (wrap_id 32 (_ + b * d * 2 ^ 16)) by lia.
  rewrite wrap_id by lia. rewrite Ex, Ey. ring.
Qed.

Lemma mul32u_correct x y : in_u 32 x -> in_u 32 y -> mul32u x y = x * y.
Proof.
  intros Hx Hy. unfold mul32u.
  destruct (split_words x Hx) as (Ex & Hxl & Hxh). destruct (split_words y Hy) as (Ey & Hyl & Hyh).
  set (a := LOWORD x) in *. set (b := HIWORD x) in *. set (c := LOWORD y) in *. set (d := HIWORD y) in *.
  rewrite !mul16u_correct by done.
  pose proof (column 16 a c ltac:(lia) Hxl Hyl). pose proof (column 16 a d ltac:(lia) Hxl Hyh).
  pose proof (column 16 b c ltac:(lia) Hxh Hyl). pose proof (column 16 b d ltac:(lia) Hxh Hyh).
  change 0x00000000FFFFFFFF with (2 ^ 32 - 1). rewrite !Z.shiftl_mul_pow2 by lia.
  rewrite !land_ones_id by lia.
  rewrite (wrap_id 64 (a * d * 2 ^ 16)), (wrap_id 64 (b * c * 2 ^ 16)), (wrap_id 64 (b * d * 2 ^ 32)) by lia.
  rewrite (wrap_id 64 (a * c + _)) by lia. rewrite (wrap_id 64 (_ + b * d * 2 ^ 32)) by lia.
  rewrite wrap_id by lia. rewrite Ex, Ey. ring.
Qed.

(** ** Euclid's loop terminates with the greatest common divisor *)
Lemma gcd_loop_spec k fuel n m :
  0 <= n -> 0 <= m < 2 ^ Z.of_nat k -> (2 * k < fuel)%nat -> gcd_loop fuel n m = Ok (Z.gcd n m).
Proof.
  revert fuel n m. induction k as [|k IH]; intros fuel n m Hn Hm Hf.
  - assert (m = 0) as -> by (cbn in Hm; lia). destruct fuel; cbn; by rewrite Z.gcd_0_r_nonneg.
  - destruct fuel as [|[|fuel]]; [lia|lia|]. cbn [gcd_loop].
    destruct (Z.eqb_spec m 0) as [->|Hm0]; [by rewrite Z.gcd_0_r_nonneg|].
    pose proof (Z.mod_pos_bound n m ltac:(lia)) as Hr.
    assert (E1 : Z.gcd m (n mod m) = Z.gcd n m).
    { rewrite (Z.gcd_comm n m), <- (Z.gcd_mod n m) by lia. apply Z.gcd_comm. }
    destruct (Z.eqb_spec (n mod m) 0) as [Ez|Hr0].
    { rewrite <- E1, Ez. by rewrite Z.gcd_0_r_nonneg by lia. }
    rewrite Nat2Z.inj_succ, Z.pow_succ_r in Hm by lia.
    pose proof (Z.mod_pos_bound m (n mod m) ltac:(lia)) as Hr2.
    rewrite IH; [|lia| |lia].
    + rewrite <- E1. f_equal. rewrite (Z.gcd_comm m), <- (Z.gcd_mod m) by lia. apply Z.gcd_comm.
    + split; [lia|]. pose proof (Z.div_mod m (n mod m) ltac:(lia)).
      assert (1 <= m / (n mod m)) by (apply Z.div_le_lower_bound; lia). nia.
Qed.

(** ** Properties *)

(** At each width the shift-subtract loop divides: for a nonzero divisor
    [div16u], [div32u] and [div64u] return the quotient; a zero divisor yields the
    all-ones word. *)
Theorem divu_correct x y :
  (in_u 16 x -> 0 < y < 2 ^ 16 -> div16u x y = x / y) /\
  (in_u 32 x -> 0 < y < 2 ^ 32 -> div32u x y = x / y) /\
  (in_u 64 x -> 0 < y < 2 ^ 64 -> div64u x y = x / y) /\
  (in_u 16 x -> div16u x 0 mod 2 ^ 16 = 2 ^ 16 - 1) /\
  (in_u 32 x -> div32u x 0 mod 2 ^ 32 = 2 ^ 32 - 1) /\
  (in_u 64 x -> div64u x 0 mod 2 ^ 64 = 2 ^ 64 - 1).
Proof.
  unfold div16u, div32u, div64u. repeat split; intros.
  - by rewrite (div_loop_correct 16 16).
  - by rewrite (div_loop_correct 32 32).
  - by rewrite (div_loop_correct 64 64).
  - apply (div_loop_zero 16 16 0); try lia. apply Z.mod_1_r.
  - apply (div_loop_zero 32 32 0); try lia. apply Z.mod_1_r.
  - apply (div_loop_zero 64 64 0); try lia. apply Z.mod_1_r.
Qed.

Lemma divu_correct_witness : div32u 1000000007 12345 = 1000000007 / 12345.
Proof. destruct (divu_correct 1000000007 12345) as (_ & H & _). apply H; lia. Defined.

(** [mul16u] and [mul32u] return the exact double-width product; [mod16u],
    [mod32u] and [mod64u] terminate and return the remainder for a nonzero divisor,
    and for a zero one return all ones, which [mod64u] truncates to 32 bits;
    [gcd32u] terminates with the greatest common divisor. *)
Theorem mul_mod_gcd_correct x y :
  (in_u 16 x -> in_u 16 y -> mul16u x y = x * y) /\
  (in_u 32 x -> in_u 32 y -> mul32u x y = x * y) /\
  (in_u 16 x -> 0 < y < 2 ^ 16 -> mod16u x y = Ok (x mod y)) /\
  (in_u 32 x -> 0 < y < 2 ^ 32 -> mod32u x y = Ok (x mod y)) /\
  (in_u 64 x -> 0 < y < 2 ^ 64 -> mod64u x y = Ok (x mod y)) /\
  (mod16u x 0 = Ok (2 ^ 16 - 1) /\ mod32u x 0 = Ok (2 ^ 32 - 1) /\ mod64u x 0 = Ok (2 ^ 32 - 1)) /\
  (in_u 32 x -> in_u 32 y -> gcd32u x y = Ok (Z.gcd x y)).
Proof.
  split; [apply mul16u_correct|]. split; [apply mul32u_correct|].
  split; [intros; apply modu_correct; lia|]. split; [intros; apply modu_correct; lia|].
  split; [intros; apply modu_correct; lia|]. split; [done|].
  intros. apply (gcd_loop_spec 32); lia.
Qed.

Lemma mul_mod_gcd_correct_witness :
  mul32u 0xFFFFFFFF 0xFFFFFFFF = 0xFFFFFFFF * 0xFFFFFFFF /\ mod64u 100 7 = Ok (100 mod 7).
Proof.
  destruct (mul_mod_gcd_correct 0xFFFFFFFF 0xFFFFFFFF) as (_ & H & _).
  destruct (mul_mod_gcd_correct 100 7) as (_ & _ & _ & _ & H' & _).
  split; [apply H; lia|apply H'; lia].
Defined.
