(* ===== verification/MemBlock.v ===== *)
(** * MemBlock: the early memory map

    kernel/mem.c: two arrays of physical address ranges, the memory the machine has
    and the part of it that is reserved.  This file models the updates of one
    array ([struct mem_type]): [mem_insert_region], [mem_merge_regions],
    [mem_add_range], [mem_isolate_range], [mem_remove_region], [mem_remove_range].

    [phys_addr_t] is 64 bits wide.  [mt_regions] holds the [cnt] live entries of
    the C array in order (so [cnt] is its length) and [mt_max] the array's
    capacity; writing past the capacity is [FOob].  The build without
    CONFIG_MEM_RESIZE is modelled: [mem_double_array] fails and the callers [BUG()]. *)
From S2P Require Import Prelude.

Record mem_region : Type := MkRegion { rbase : Z; rsize : Z }.
Record mem_type : Type := MkType { mt_max : Z; mt_total : Z; mt_regions : list mem_region }.

#[export] Instance mem_region_eq_dec : EqDecision mem_region.
Proof. solve_decision. Defined.

Definition rend (r : mem_region) : Z := u64 (rbase r + rsize r).
Definition cnt (t : mem_type) : Z := Z.of_nat (length (mt_regions t)).
Definition dummy_region : mem_region := MkRegion 0 0.

Definition set_regions (t : mem_type) (l : list mem_region) : mem_type :=
  MkType (mt_max t) (mt_total t) l.
Definition set_total (t : mem_type) (z : Z) : mem_type :=
  MkType (mt_max t) (u64 z) (mt_regions t).

(** A [struct mem_type] as the kernel declares it: one empty dummy entry. *)
Definition mem_type_init (max : Z) : mem_type := MkType max 0 [dummy_region].

(** ** Operations *)
Definition mem_insert_region (t : mem_type) (idx : nat) (base size : Z) : res mem_type :=
  if mt_max t <=? cnt t then Fault FOob
  else
    let l := mt_regions t in
    Ok (set_total (set_regions t (take idx l ++ MkRegion base size :: drop idx l))
          (mt_total t + size)).

(** The [while] loop of [mem_merge_regions] at the entry [this], followed in the
    array by [rest]. *)
Fixpoint merge_loop (this : mem_region) (rest : list mem_region) : res (list mem_region) :=
  match rest with
  | [] => Ok [this]
  | next :: rest =>
      if negb (rend this =? rbase next) then
        _ ← bug_on (rbase next <? rend this);
        l ← merge_loop next rest; Ok (this :: l)
      else merge_loop (MkRegion (rbase this) (u64 (rsize this + rsize next))) rest
  end.

Definition mem_merge_regions (t : mem_type) : res mem_type :=
  match mt_regions t with
  | [] => Ok t
  | this :: rest => l ← merge_loop this rest; Ok (set_regions t l)
  end.

(** The region walk of [mem_add_range]: [l] is the part of the array from [idx] on.
    Returns the array, the index and the base the walk stopped at, and the number
    of portions. *)
Fixpoint add_loop (insert : bool) (t : mem_type) (idx : nat) (l : list mem_region)
    (base end_ nr_new : Z) : res (mem_type * nat * Z * Z) :=
  match l with
  | [] => Ok (t, idx, base, nr_new)
  | rgn :: l =>
      if end_ <=? rbase rgn then Ok (t, idx, base, nr_new)
      else if rend rgn <=? base then add_loop insert t (S idx) l base end_ nr_new
      else
        '(t, idx, nr_new) ←
          (if base <? rbase rgn then
             if insert then
               t ← mem_insert_region t idx base (u64 (rbase rgn - base));
               Ok (t, S idx, nr_new + 1)
             else Ok (t, idx, nr_new + 1)
           else Ok (t, idx, nr_new));
        add_loop insert t (S idx) l (Z.min (rend rgn) end_) end_ nr_new
  end.

(** The remaining portion, inserted where the walk stopped. *)
Definition add_rest (insert : bool) (end_ : Z) (s : mem_type * nat * Z * Z) : res (mem_type * Z) :=
  let '(t, idx, base, nr_new) := s in
  if base <? end_ then
    if insert then t ← mem_insert_region t idx base (u64 (end_ - base)); Ok (t, nr_new + 1)
    else Ok (t, nr_new + 1)
  else Ok (t, nr_new).

(** One round of [repeat:]. *)
Definition add_round (insert : bool) (t : mem_type) (base end_ : Z) : res (mem_type * Z) :=
  add_loop insert t 0 (mt_regions t) base end_ 0 ≫= add_rest insert end_.

(** Without CONFIG_MEM_RESIZE. *)
Definition mem_double_array (t : mem_type) (new_area_start new_area_size : Z) : Z := -1.

(** [while (cond) if (mem_double_array(...) < 0) { BUG(); return; }]: a failing
    array growth ends the loop at its first turn. *)
Definition grow_or_bug (cond : bool) (t : mem_type) (base size : Z) : res unit :=
  if cond then (if mem_double_array t base size <? 0 then Fault FBug else Fault FHang) else Ok tt.

Definition mem_add_range (t : mem_type) (base size : Z) : res mem_type :=
  let end_ := u64 (base + size) in
  if size =? 0 then Ok t
  else match mt_regions t with
  | [] => Fault FOob
  | r0 :: rs =>
      if rsize r0 =? 0 then
        Ok (MkType (mt_max t) size (MkRegion base size :: rs))
      else
        '(_, nr_new) ← add_round false t base end_;
        _ ← grow_or_bug (mt_max t <? cnt t + nr_new) t base size;
        '(t, _) ← add_round true t base end_;
        mem_merge_regions t
  end.

(** The walk of [mem_isolate_range]; [idx] is the C index at the loop test. *)
Fixpoint isolate_loop (fuel : nat) (t : mem_type) (idx : nat) (base end_ : Z)
    (start_rgn end_rgn : nat) : res (mem_type * nat * nat) :=
  match fuel with
  | O => Fault FHang
  | S fuel =>
      match mt_regions t !! idx with
      | None => Ok (t, start_rgn, end_rgn)
      | Some rgn =>
          let rb := rbase rgn in
          if end_ <=? rb then Ok (t, start_rgn, end_rgn)
          else if rend rgn <=? base then isolate_loop fuel t (S idx) base end_ start_rgn end_rgn
          else if rb <? base then
            let t := set_regions t
              (<[idx := MkRegion base (u64 (rsize rgn - (base - rb)))]> (mt_regions t)) in
            let t := set_total t (mt_total t - (base - rb)) in
            t ← mem_insert_region t idx rb (base - rb);
            isolate_loop fuel t (S idx) base end_ start_rgn end_rgn
          else if end_ <? rend rgn then
            let t := set_regions t
              (<[idx := MkRegion end_ (u64 (rsize rgn - (end_ - rb)))]> (mt_regions t)) in
            let t := set_total t (mt_total t - (end_ - rb)) in
            t ← mem_insert_region t idx rb (end_ - rb);
            isolate_loop fuel t idx base end_ start_rgn end_rgn
          else
            let start_rgn := if Nat.eqb end_rgn 0 then idx else start_rgn in
            isolate_loop fuel t (S idx) base end_ start_rgn (S idx)
      end
  end.

(** Every region is visited once, and at most two splits visit a half again. *)
Definition mem_isolate_range (t : mem_type) (base size : Z) : res (mem_type * nat * nat) :=
  let end_ := u64 (base + size) in
  if size =? 0 then Ok (t, O, O)
  else
    _ ← grow_or_bug (mt_max t <? cnt t + 2) t base size;
    isolate_loop (length (mt_regions t) + 4) t 0 base end_ 0 0.

Definition mem_remove_region (t : mem_type) (r : nat) : res mem_type :=
  rgn ← oob (mt_regions t !! r);
  let total := u64 (mt_total t - rsize rgn) in
  let l := take r (mt_regions t) ++ drop (S r) (mt_regions t) in
  match l with
  | [] => _ ← bug_on (negb (total =? 0)); Ok (MkType (mt_max t) total [dummy_region])
  | _ => Ok (MkType (mt_max t) total l)
  end.

(** [for (i = end_rgn - 1; i >= start_rgn; i--)], [n] entries from [start_rgn] up. *)
Fixpoint remove_loop (t : mem_type) (start_rgn n : nat) : res mem_type :=
  match n with
  | O => Ok t
  | S n => t ← mem_remove_region t (start_rgn + n); remove_loop t start_rgn n
  end.

Definition mem_remove_range (t : mem_type) (base size : Z) : res mem_type :=
  '(t, start_rgn, end_rgn) ← mem_isolate_range t base size;
  remove_loop t start_rgn (end_rgn - start_rgn).

(** ** The set of addresses an array describes *)
Definition re (r : mem_region) : Z := rbase r + rsize r.
Definition covers (l : list mem_region) (a : Z) : Prop :=
  Exists (fun r => rbase r <= a < re r) l.

(** Regions in increasing order from [lo] on, at least [k] apart, none empty, none
    reaching the last address. *)
Fixpoint ord (k lo : Z) (l : list mem_region) : Prop :=
  match l with
  | [] => True
  | r :: l => lo <= rbase r /\ 0 < rsize r /\ re r < 2 ^ 64 /\ ord k (re r + k) l
  end.

Fixpoint rsum (l : list mem_region) : Z :=
  match l with [] => 0 | r :: l => rsize r + rsum l end.

(** What every public operation keeps: the dummy entry alone, or maximal regions
    (adjacent ones are merged) with their sizes added up in [total_size]. *)
Definition mem_wf (t : mem_type) : Prop :=
  1 <= mt_max t /\ cnt t <= mt_max t /\
  ((mt_regions t = [dummy_region] /\ mt_total t = 0) \/
   (mt_regions t <> [] /\ ord 1 0 (mt_regions t) /\ mt_total t = rsum (mt_regions t))).

(** The array [mem_add_range] builds before it merges: the parts of [[base, end_)]
    that no region has are new entries between the old ones. *)
Definition portion (base end_ : Z) : list mem_region :=
  if base <? end_ then [MkRegion base (end_ - base)] else [].
Fixpoint gaps (l : list mem_region) (base end_ : Z) : list mem_region :=
  match l with
  | [] => portion base end_
  | r :: l' =>
      if end_ <=? rbase r then portion base end_ ++ l
      else if re r <=? base then r :: gaps l' base end_
      else portion base (rbase r) ++ r :: gaps l' (Z.min (re r) end_) end_
  end.

(** The entries, cut at [x], on either side of [x]. *)
Fixpoint low (x : Z) (l : list mem_region) : list mem_region :=
  match l with
  | [] => []
  | r :: l => if x <=? rbase r then []
              else if x <? re r then [MkRegion (rbase r) (x - rbase r)]
              else r :: low x l
  end.
Fixpoint up (x : Z) (l : list mem_region) : list mem_region :=
  match l with
  | [] => []
  | r :: l' => if x <=? rbase r then l
               else if x <? re r then MkRegion x (re r - x) :: l'
               else up x l'
  end.

(** *** Ordered arrays *)
Lemma covers_app l m a : covers (l ++ m) a <-> covers l a \/ covers m a.
Proof. apply Exists_app. Qed.
Lemma covers_cons r l a : covers (r :: l) a <-> rbase r <= a < re r \/ covers l a.
Proof. apply Exists_cons. Qed.
Lemma covers_nil a : covers [] a <-> False.
Proof. apply Exists_nil. Qed.
Lemma covers_portion b e a : covers (portion b e) a <-> b <= a < e.
Proof.
  unfold portion. destruct (Z.ltb_spec b e); rewrite ?covers_cons, covers_nil; unfold re; cbn; lia.
Qed.
Create Rewrite HintDb covers.
#[export] Hint Rewrite covers_app covers_cons covers_nil covers_portion : covers.

Lemma rsum_app l m : rsum (l ++ m) = rsum l + rsum m.
Proof. induction l; cbn; lia. Qed.

Lemma ord_weaken k k' lo lo' l : k' <= k -> lo' <= lo -> ord k lo l -> ord k' lo' l.
Proof.
  revert lo lo'. induction l as [|r l IH]; cbn; [done|].
  intros lo lo' Hk Hlo (? & ? & ? & H). repeat split; try lia. apply (IH (re r + k)); [lia|lia|done].
Qed.

Lemma ord_covers k lo l a : 0 <= k -> ord k lo l -> covers l a -> lo <= a.
Proof.
  intros Hk. revert lo. induction l as [|r l IH]; cbn; intros lo; autorewrite with covers; [done|].
  intros (? & ? & ? & H) [?|Hc]; [lia|]. specialize (IH _ H Hc). unfold re in *. lia.
Qed.

Lemma ord_rsum k lo l : 0 <= k -> 0 <= lo -> ord k lo l -> 0 <= rsum l /\ (l <> [] -> lo + rsum l < 2 ^ 64).
Proof.
  intros Hk. revert lo. induction l as [|r l IH]; cbn; intros lo Hlo; [done|].
  intros (? & ? & ? & H). unfold re in *. apply IH in H as [? IH']; [|lia]. split; [lia|].
  intros _. destruct l; [cbn; lia|]. specialize (IH' ltac:(done)). lia.
Qed.

Lemma ord_rsum_in_u k l : 0 <= k -> ord k 0 l -> in_u 64 (rsum l).
Proof.
  intros Hk H. destruct (ord_rsum k 0 l) as [? Hs]; [lia..|done|]. destruct l; [cbn; lia|].
  specialize (Hs ltac:(done)). lia.
Qed.

Lemma rend_re r : 0 <= rbase r -> 0 <= rsize r -> re r < 2 ^ 64 -> rend r = re r.
Proof. intros. unfold rend, re in *. apply wrap_id. lia. Qed.

(** *** Adding *)
Lemma gaps_done l b e : e <= b -> gaps l b e = l.
Proof.
  revert b. induction l as [|r l IH]; cbn; intros b Hb.
  - unfold portion. destruct (Z.ltb_spec b e); [lia|done].
  - unfold portion. destruct (Z.ltb_spec b e); [lia|]. destruct (Z.leb_spec e (rbase r)); [done|].
    destruct (Z.leb_spec (re r) b); [by rewrite IH by lia|].
    destruct (Z.ltb_spec b (rbase r)); [lia|]. cbn. by rewrite IH by lia.
Qed.

Lemma gaps_covers l b e a : covers (gaps l b e) a <-> covers l a \/ b <= a < e.
Proof.
  revert b. induction l as [|r l IH]; cbn; intros b; [autorewrite with covers; tauto|].
  destruct (Z.leb_spec e (rbase r)); [autorewrite with covers; tauto|].
  destruct (Z.leb_spec (re r) b); autorewrite with covers; rewrite IH; [tauto|].
  destruct (Z.lt_ge_cases a (rbase r)), (Z.lt_ge_cases a (re r)); intuition lia.
Qed.

Lemma gaps_ord l lo b e : ord 0 lo l -> lo <= b -> e < 2 ^ 64 -> ord 0 lo (gaps l b e).
Proof.
  revert lo b. induction l as [|r l IH]; intros lo b; cbn.
  - intros. unfold portion. destruct (Z.ltb_spec b e); cbn; unfold re; cbn; lia.
  - intros (? & ? & ? & Ho) ? ?. rewrite Z.add_0_r in *.
    destruct (Z.leb_spec e (rbase r)); [|destruct (Z.leb_spec (re r) b)].
    + unfold portion. destruct (Z.ltb_spec b e); cbn; rewrite ?Z.add_0_r; [|done].
      unfold re in *; cbn. repeat split; try lia. done.
    + cbn. rewrite Z.add_0_r. repeat split; try lia. apply IH; [done|lia|done].
    + assert (ord 0 (re r) (gaps l (Z.min (re r) e) e)).
      { destruct (Z.le_gt_cases (re r) e).
        - apply IH; [done|lia|done].
        - rewrite gaps_done by lia. done. }
      unfold portion. destruct (Z.ltb_spec b (rbase r)); cbn; rewrite !Z.add_0_r.
      * unfold re at 1 2. cbn. repeat split; try lia. done.
      * repeat split; try lia. done.
Qed.

Lemma gaps_length l b e : (length l <= length (gaps l b e))%nat.
Proof.
  revert b. induction l as [|r l IH]; intros b; cbn; [lia|].
  destruct (e <=? rbase r); [rewrite length_app; cbn; lia|].
  destruct (re r <=? b); cbn; [specialize (IH b); lia|].
  rewrite length_app. cbn. specialize (IH (Z.min (re r) e)). lia.
Qed.

Lemma insert_region_ok t pre post b s :
  mt_regions t = pre ++ post -> cnt t < mt_max t ->
  mem_insert_region t (length pre) b s =
    Ok (MkType (mt_max t) (u64 (mt_total t + s)) (pre ++ MkRegion b s :: post)).
Proof.
  intros Ht Hc. unfold mem_insert_region. destruct (Z.leb_spec (mt_max t) (cnt t)); [lia|].
  rewrite Ht. unfold set_total, set_regions; cbn. by rewrite take_app_length, drop_app_length.
Qed.

Lemma add_round_count t l lo idx b e n :
  ord 0 lo l -> 0 <= lo ->
  (add_loop false t idx l b e n ≫= add_rest false e) =
    Ok (t, n + (Z.of_nat (length (gaps l b e)) - Z.of_nat (length l))).
Proof.
  revert lo idx b n. induction l as [|r l IH]; intros lo idx b n Ho Hlo; cbn [add_loop gaps].
  - unfold portion. cbn. destruct (b <? e); cbn; do 2 f_equal; lia.
  - destruct Ho as (? & ? & ? & Ho). rewrite rend_re by lia.
    destruct (Z.leb_spec e (rbase r)).
    { cbn. unfold portion. destruct (b <? e); cbn; do 2 f_equal; lia. }
    assert (0 <= re r + 0) by (unfold re; lia).
    destruct (re r <=? b); [rewrite (IH (re r + 0)) by done; cbn; do 2 f_equal; lia|].
    rewrite length_app. unfold portion. destruct (b <? rbase r); cbn [mbind res_mbind length];
      rewrite (IH (re r + 0)) by done; do 2 f_equal; lia.
Qed.

Lemma add_rest_insert e t pre post b n :
  0 <= b -> e < 2 ^ 64 -> in_u 64 (mt_total t) -> mt_regions t = pre ++ post ->
  Z.of_nat (length pre + length (portion b e) + length post) <= mt_max t ->
  add_rest true e (t, length pre, b, n) =
    Ok (MkType (mt_max t) (u64 (mt_total t + rsum (portion b e))) (pre ++ portion b e ++ post),
        n + Z.of_nat (length (portion b e))).
Proof.
  intros Hb He HT Ht Hm. unfold portion in *; cbn. destruct (Z.ltb_spec b e); cbn in *.
  - rewrite (wrap_id 64 (e - b)) by lia.
    rewrite (insert_region_ok t pre post); [|done|unfold cnt; rewrite Ht, length_app; lia].
    cbn. by rewrite Z.add_0_r.
  - rewrite !Z.add_0_r, wrap_id by done. destruct t; cbn in *. by subst.
Qed.

Lemma add_round_insert e l : forall pre t lo b n,
  ord 0 lo l -> 0 <= lo -> 0 <= b -> e < 2 ^ 64 -> in_u 64 (mt_total t) ->
  mt_regions t = pre ++ l -> Z.of_nat (length pre + length (gaps l b e)) <= mt_max t ->
  (add_loop true t (length pre) l b e n ≫= add_rest true e) =
    Ok (MkType (mt_max t) (u64 (mt_total t + (rsum (gaps l b e) - rsum l))) (pre ++ gaps l b e),
        n + (Z.of_nat (length (gaps l b e)) - Z.of_nat (length l))).
Proof.
  induction l as [|r l IH]; intros pre t lo b n Ho Hlo Hb He HT Ht Hmax; cbn [add_loop gaps] in *.
  - cbn [mbind res_mbind]. rewrite (add_rest_insert e t pre []); [|done..|cbn; lia].
    rewrite app_nil_r. cbn. do 3 f_equal; [f_equal; lia|lia].
  - destruct Ho as (? & ? & ? & Ho). rewrite rend_re by lia.
    assert (0 <= re r + 0) by (unfold re; lia).
    destruct (Z.leb_spec e (rbase r)); [|destruct (Z.leb_spec (re r) b)].
    + rewrite length_app in Hmax |- *. rewrite rsum_app. cbn [mbind res_mbind].
      rewrite (add_rest_insert e t pre (r :: l)) by (done || lia).
      cbn [length rsum]. do 3 f_equal; [f_equal; lia|lia].
    + replace (S (length pre)) with (length (pre ++ [r])) by (rewrite length_app; cbn; lia).
      rewrite (IH (pre ++ [r]) t (re r + 0)); try done; [|by rewrite <- app_assoc|rewrite length_app; cbn in *; lia].
      rewrite <- app_assoc. cbn. do 3 f_equal; [f_equal; lia|lia].
    + unfold portion in *. destruct (Z.ltb_spec b (rbase r)) as [Hlt|]; cbn in Hmax |- *.
      * rewrite (wrap_id 64 (rbase r - b)) by (unfold re in *; lia).
        rewrite (insert_region_ok t pre (r :: l));
          [|done|pose proof (gaps_length l (Z.min (re r) e) e); unfold cnt; rewrite Ht, length_app; cbn; lia].
        cbn. replace (S (S (length pre))) with (length (pre ++ [MkRegion b (rbase r - b); r]))
          by (rewrite length_app; cbn; lia).
        rewrite (IH _ _ (re r + 0)); try done; cbn; [|lia|by apply wrap_range|by rewrite <- app_assoc|rewrite length_app; cbn; lia].
        rewrite <- app_assoc. cbn. do 2 f_equal; [f_equal|lia]. unfold wrap. rewrite Zplus_mod_idemp_l. f_equal. lia.
      * replace (S (length pre)) with (length (pre ++ [r])) by (rewrite length_app; cbn; lia).
        rewrite (IH (pre ++ [r]) t (re r + 0)); try done; [|lia|by rewrite <- app_assoc|rewrite length_app; cbn in *; lia].
        rewrite <- app_assoc. cbn. do 3 f_equal; [f_equal; lia|lia].
Qed.

Lemma merge_loop_ok l : forall r lo, ord 0 lo (r :: l) -> 0 <= lo ->
  exists l', merge_loop r l = Ok l' /\ ord 1 lo l' /\ l' <> [] /\ (length l' <= S (length l))%nat /\
    rsum l' = rsum (r :: l) /\ forall a, covers l' a <-> covers (r :: l) a.
Proof.
  induction l as [|n l IH]; intros r lo; cbn [merge_loop ord]; intros (? & ? & ? & Ho) Hlo.
  - exists [r]. cbn. repeat split; try lia; try done.
  - destruct Ho as (? & ? & ? & Ho). rewrite rend_re by lia.
    destruct (Z.eqb_spec (re r) (rbase n)) as [He|He]; cbn [negb].
    + rewrite (wrap_id 64) by (unfold re in *; lia).
      destruct (IH (MkRegion (rbase r) (rsize r + rsize n)) lo) as (l' & -> & ? & ? & ? & Hs & Hc).
      { unfold ord; fold (ord 0). unfold re in *; cbn. 
        replace (rbase r + (rsize r + rsize n) + 0) with (rbase n + rsize n + 0) by lia.
        repeat split; try lia. done. }
      { done. }
      exists l'. cbn in *. repeat split; try done; try lia; intros Ha; [apply Hc in Ha|apply Hc];
        autorewrite with covers in *; unfold re in *; cbn in *; intuition lia.
    + assert (re r < rbase n) by lia. destruct (Z.ltb_spec (rbase n) (re r)); [lia|]. cbn.
      destruct (IH n (re r + 1)) as (l' & -> & ? & ? & ? & Hs & Hc).
      { cbn. repeat split; try lia. done. }
      { unfold re in *; lia. }
      exists (r :: l'). cbn in *. repeat split; try done; try lia;
        intros Ha; autorewrite with covers in *; rewrite Hc in *; autorewrite with covers in *; done.
Qed.

(** *** Splitting and removing *)
Lemma low_up_rsum k lo x l : ord k lo l -> rsum (low x l) + rsum (up x l) = rsum l.
Proof.
  revert lo. induction l as [|r l IH]; intros lo; cbn; [done|]. intros (? & ? & ? & Ho).
  specialize (IH _ Ho). destruct (Z.leb_spec x (rbase r)); cbn; [lia|].
  destruct (Z.ltb_spec x (re r)); cbn; unfold re in *; lia.
Qed.

Lemma up_ord k lo x l : ord k lo l -> 0 <= k -> x < 2 ^ 64 -> ord k (Z.max lo x) (up x l).
Proof.
  intros Ho Hk Hx. revert lo Ho. induction l as [|r l IH]; intros lo; cbn; [done|].
  intros (? & ? & ? & Ho). destruct (Z.leb_spec x (rbase r)); cbn; [repeat split; (done || lia)|].
  destruct (Z.ltb_spec x (re r)); cbn.
  - replace (re (MkRegion x (re r - x))) with (re r) by (unfold re; cbn; lia).
    repeat split; (done || lia).
  - apply IH in Ho. unfold re in *. eapply ord_weaken; [..|exact Ho]; lia.
Qed.

Lemma low_up_covers k lo x l a : 0 <= k -> ord k lo l ->
  (covers (low x l) a <-> covers l a /\ a < x) /\ (covers (up x l) a <-> covers l a /\ x <= a).
Proof.
  intros Hk. revert lo. induction l as [|r l IH]; intros lo; cbn; autorewrite with covers; [tauto|].
  intros (? & ? & ? & Ho). pose proof (ord_covers _ _ _ a Hk Ho). specialize (IH _ Ho).
  destruct (Z.leb_spec x (rbase r)); [|destruct (Z.ltb_spec x (re r))];
    autorewrite with covers; unfold re in *; cbn; intuition lia.
Qed.

(** What lies below a cut, followed by ordered regions above it. *)
Lemma low_app_ord k lo x l m :
  ord k lo l -> 0 <= k -> ord k (x + k) m -> ord k lo m -> ord k lo (low x l ++ m).
Proof.
  intros Ho Hk Hm. revert lo Ho. induction l as [|r l IH]; intros lo; cbn; [done|].
  intros (? & ? & ? & Ho) Hlo. destruct (Z.leb_spec x (rbase r)); [done|].
  destruct (Z.ltb_spec x (re r)); cbn.
  - replace (re (MkRegion (rbase r) (x - rbase r))) with x by (unfold re; cbn; lia).
    repeat split; (done || lia).
  - repeat split; try done. apply IH; [done|]. apply ord_weaken with k (x + k); [lia|lia|done].
Qed.

(** The index pair after the entries [m] were recorded from index [i] on. *)
Definition iso_idx (m : list mem_region) (i s en : nat) : nat * nat :=
  match m with
  | [] => (s, en)
  | _ => ((if Nat.eqb en 0 then i else s), (i + length m)%nat)
  end.

Lemma iso_idx_cons r m i s en :
  iso_idx m (S i) (if Nat.eqb en 0 then i else s) (S i) = iso_idx (r :: m) i s en.
Proof. destruct m; cbn; f_equal; lia. Qed.

Lemma split_total T d : in_u 64 T -> u64 (u64 (T - d) + d) = T.
Proof.
  intros. unfold wrap. rewrite Zplus_mod_idemp_l. replace (T - d + d) with T by lia. by apply Z.mod_small.
Qed.

Lemma split_region_ok t pre r l x :
  mt_regions t = pre ++ r :: l -> cnt t + 1 <= mt_max t -> 0 <= rbase r < x -> x < re r < 2 ^ 64 ->
  in_u 64 (mt_total t) ->
  mem_insert_region
    (set_total (set_regions t
       (<[length pre := MkRegion x (u64 (rsize r - (x - rbase r)))]> (mt_regions t)))
       (mt_total (set_regions t
       (<[length pre := MkRegion x (u64 (rsize r - (x - rbase r)))]> (mt_regions t))) - (x - rbase r)))
    (length pre) (rbase r) (x - rbase r) =
  Ok (MkType (mt_max t) (mt_total t)
        (pre ++ MkRegion (rbase r) (x - rbase r) :: MkRegion x (re r - x) :: l)).
Proof.
  intros Ht Hc Hr Hx HT. rewrite (wrap_id 64 (rsize r - (x - rbase r))) by (unfold re in *; lia).
  replace (rsize r - (x - rbase r)) with (re r - x) by (unfold re; lia).
  rewrite Ht. rewrite insert_app_r_alt by lia. rewrite Nat.sub_diag. cbn [insert list_insert].
  rewrite (insert_region_ok _ pre (MkRegion x (re r - x) :: l)).
  - cbn. by rewrite split_total.
  - done.
  - unfold cnt in *; cbn. rewrite Ht in Hc. rewrite length_app in *. cbn in *. lia.
Qed.

(** The walk once no region starts below [base]. *)
Lemma isolate_above e l : forall pre t b lo s en fuel,
  ord 1 lo l -> 0 <= b <= lo -> b < e < 2 ^ 64 -> in_u 64 (mt_total t) ->
  mt_regions t = pre ++ l -> cnt t + 1 <= mt_max t -> (length l + 3 <= fuel)%nat ->
  isolate_loop fuel t (length pre) b e s en =
    Ok (MkType (mt_max t) (mt_total t) (pre ++ low e l ++ up e l),
        (iso_idx (low e l) (length pre) s en).1, (iso_idx (low e l) (length pre) s en).2).
Proof.
  induction l as [|r l IH]; intros pre t b lo s en fuel Ho Hb He HT Ht Hc Hf;
    (destruct fuel as [|fuel]; [cbn in Hf; lia|]); cbn [isolate_loop low up].
  - rewrite Ht, lookup_app_r, Nat.sub_diag by lia. cbn. destruct t; cbn in *. by subst.
  - rewrite Ht at 1. rewrite list_lookup_middle by done.
    destruct Ho as (? & ? & ? & Ho). rewrite rend_re by lia.
    destruct (Z.leb_spec e (rbase r)); [destruct t; cbn in *; by subst|].
    destruct (Z.leb_spec (re r) b); [unfold re in *; lia|].
    destruct (Z.ltb_spec (rbase r) b); [lia|]. destruct (Z.ltb_spec e (re r)).
    + rewrite (split_region_ok t pre r l e) by (done || lia). cbn [mbind res_mbind].
      destruct fuel as [|[|fuel]]; [cbn in Hf; lia..|]. cbn [isolate_loop mt_regions].
      rewrite list_lookup_middle by done. cbn [rbase].
      rewrite (rend_re (MkRegion _ _)) by (unfold re; cbn; lia).
      replace (re (MkRegion (rbase r) (e - rbase r))) with e by (unfold re; cbn; lia).
      destruct (Z.leb_spec e (rbase r)); [lia|]. destruct (Z.leb_spec e b); [lia|].
      destruct (Z.ltb_spec (rbase r) b); [lia|]. rewrite Z.ltb_irrefl.
      rewrite cons_middle, app_assoc, list_lookup_middle by (rewrite length_app; cbn; lia). cbn [rbase].
      rewrite Z.leb_refl. cbn. rewrite Nat.add_1_r. rewrite <- app_assoc. done.
    + replace (S (length pre)) with (length (pre ++ [r])) at 1 by (rewrite length_app; cbn; lia).
      rewrite (IH (pre ++ [r]) t b (re r + 1));
        try done; [|unfold re in *; lia|by rewrite <- app_assoc|cbn in Hf; lia].
      rewrite <- app_assoc, length_app, Nat.add_1_r. by rewrite (iso_idx_cons r).
Qed.

Lemma isolate_below b e l : forall pre t lo fuel,
  ord 1 lo l -> 0 <= lo -> 0 <= b < e -> e < 2 ^ 64 -> in_u 64 (mt_total t) ->
  mt_regions t = pre ++ l -> cnt t + 2 <= mt_max t -> (length l + 4 <= fuel)%nat ->
  let m := low e (up b l) in
  let i := iso_idx m (length pre + length (low b l)) 0 0 in
  isolate_loop fuel t (length pre) b e 0 0 =
    Ok (MkType (mt_max t) (mt_total t) (pre ++ low b l ++ m ++ up e (up b l)), i.1, i.2).
Proof.
  induction l as [|r l IH]; intros pre t lo fuel Ho Hlo Hb He HT Ht Hc Hf m i; subst m i.
  - rewrite (isolate_above e [] pre t b b) by (done || lia || (cbn in Hf |- *; lia)). done.
  - pose proof Ho as (? & ? & ? & Ho'). destruct (Z.le_gt_cases b (rbase r)) as [Hbr|Hbr].
    { cbn [low up]. rewrite (proj2 (Z.leb_le b (rbase r))) by done. rewrite Nat.add_0_r.
      apply (isolate_above e (r :: l) pre t b (rbase r)); try done; try lia. }
    destruct fuel as [|fuel]; [lia|]. cbn [isolate_loop low up].
    rewrite Ht at 1. rewrite list_lookup_middle by done. rewrite rend_re by lia.
    destruct (Z.leb_spec b (rbase r)); [lia|]. destruct (Z.leb_spec e (rbase r)); [lia|].
    destruct (Z.ltb_spec b (re r)).
    + destruct (Z.leb_spec (re r) b); [lia|]. destruct (Z.ltb_spec (rbase r) b); [|lia].
      rewrite (split_region_ok t pre r l b) by (done || lia). cbn [mbind res_mbind].
      replace (S (length pre)) with (length (pre ++ [MkRegion (rbase r) (b - rbase r)])) at 1
        by (rewrite length_app; cbn; lia).
      rewrite (isolate_above e (MkRegion b (re r - b) :: l) _ _ b b); cbn [mt_regions mt_total mt_max]; try done; try lia.
      * rewrite <- app_assoc, length_app. done.
      * cbn. replace (re (MkRegion b (re r - b))) with (re r) by (unfold re; cbn; lia). repeat split; (done || lia).
      * by rewrite <- app_assoc.
      * unfold cnt in *; cbn. rewrite Ht in Hc. rewrite length_app in *. cbn in *. lia.
      * cbn in *. lia.
    + destruct (Z.leb_spec (re r) b); [|lia].
      replace (S (length pre)) with (length (pre ++ [r])) at 1 by (rewrite length_app; cbn; lia).
      rewrite (IH (pre ++ [r]) t (re r + 1)); try done; [|unfold re in *; lia|by rewrite <- app_assoc|cbn in Hf; lia].
      rewrite <- app_assoc, length_app. cbn [length].
      replace (length pre + 1 + length (low b l))%nat with (length pre + S (length (low b l)))%nat by lia. done.
Qed.

(** An array the last entry was taken from holds the dummy entry. *)
Definition or_dummy (l : list mem_region) : list mem_region :=
  match l with [] => [dummy_region] | _ => l end.

Lemma or_dummy_id l : l <> [] -> or_dummy l = l.
Proof. by destruct l. Qed.

Lemma remove_region_ok t pre x post :
  mt_regions t = pre ++ x :: post -> mt_total t = rsum (mt_regions t) ->
  in_u 64 (rsum (pre ++ post)) ->
  mem_remove_region t (length pre) =
    Ok (MkType (mt_max t) (rsum (pre ++ post)) (or_dummy (pre ++ post))).
Proof.
  intros Ht HT Hu. unfold mem_remove_region. rewrite HT, Ht, list_lookup_middle by done. cbn.
  rewrite take_app_length, drop_app_ge, Nat.sub_succ_l, Nat.sub_diag by lia. cbn [drop]. rewrite drop_0.
  replace (rsum (pre ++ x :: post) - rsize x) with (rsum (pre ++ post)) by (rewrite !rsum_app; cbn; lia).
  rewrite (wrap_id 64) by done. by destruct (pre ++ post).
Qed.

Lemma remove_loop_ok m : forall t pre post,
  mt_regions t = pre ++ m ++ post -> mt_regions t <> [] -> mt_total t = rsum (mt_regions t) ->
  Forall (fun r => 0 <= rsize r) (pre ++ m ++ post) -> rsum (pre ++ m ++ post) < 2 ^ 64 ->
  remove_loop t (length pre) (length m) =
    Ok (MkType (mt_max t) (rsum (pre ++ post)) (or_dummy (pre ++ post))).
Proof.
  induction m as [|x m IH] using rev_ind; intros t pre post Ht Hne HT Hp Hb.
  - cbn. destruct t; cbn in *. subst. by rewrite or_dummy_id.
  - assert (Hnn : forall l, Forall (fun r => 0 <= rsize r) l -> 0 <= rsum l).
    { induction l; cbn; [done|]. intros [??]%Forall_cons_1. specialize (IHl ltac:(done)). lia. }
    rewrite <- app_assoc in *. rewrite length_app, Nat.add_1_r. cbn [remove_loop app] in *.
    rewrite !Forall_app, Forall_cons_iff in Hp. destruct Hp as (Hp1 & Hp2 & Hx & Hp3).
    pose proof (Hnn _ Hp1). pose proof (Hnn _ Hp2). pose proof (Hnn _ Hp3).
    rewrite !rsum_app in Hb. cbn in Hb.
    rewrite <- length_app, (remove_region_ok t (pre ++ m) x post); [|by rewrite <- app_assoc|done|rewrite !rsum_app; lia].
    rewrite <- app_assoc. cbn [mbind res_mbind]. destruct (decide (pre ++ m ++ post = [])) as [He|He].
    + apply app_nil in He as [-> He]. apply app_nil in He as [-> ->]. done.
    + rewrite or_dummy_id by done. rewrite (IH _ pre post); cbn; try done.
      * rewrite !Forall_app. done.
      * rewrite !rsum_app. lia.
Qed.

Lemma ord_nonneg k lo l : ord k lo l -> Forall (fun r => 0 <= rsize r) l.
Proof.
  revert lo. induction l; cbn; intros lo; [by constructor|]. intros (? & ? & ? & ?).
  constructor; [lia|by eapply IHl].
Qed.

Lemma isolated_ord lo b e l :
  ord 0 lo l -> lo <= b < 2 ^ 64 -> e < 2 ^ 64 ->
  ord 0 lo (low b l ++ low e (up b l) ++ up e (up b l)).
Proof.
  intros Ho Hb He.
  assert (Hcut : forall lo x l, ord 0 lo l -> x < 2 ^ 64 -> ord 0 lo (low x l ++ up x l)).
  { intros lo' x l' Ho' Hx. pose proof (up_ord 0 lo' x l' Ho' ltac:(lia) Hx).
    apply low_app_ord; [done|lia|..]; eapply ord_weaken; [..|eassumption| | |eassumption]; lia. }
  pose proof (up_ord 0 lo b l Ho ltac:(lia) ltac:(lia)) as Hu.
  pose proof (Hcut _ e _ Hu He) as Hc.
  apply low_app_ord; [done|lia|..]; eapply ord_weaken; [..|eassumption| | |eassumption]; lia.
Qed.

Lemma remove_range_ok t b s :
  0 < s -> 0 <= b -> b + s < 2 ^ 64 -> cnt t + 2 <= mt_max t ->
  mt_regions t <> [] -> ord 1 0 (mt_regions t) -> mt_total t = rsum (mt_regions t) ->
  let l := low b (mt_regions t) ++ up (b + s) (up b (mt_regions t)) in
  mem_remove_range t b s = Ok (MkType (mt_max t) (rsum l) (or_dummy l)).
Proof.
  intros Hs Hb He Hc Hne Ho HT. set (l := mt_regions t) in *. cbv zeta.
  assert (Hu := ord_rsum_in_u 1 l ltac:(lia) Ho).
  assert (H1 := low_up_rsum _ _ b _ Ho).
  assert (Hou := up_ord _ _ b _ Ho ltac:(lia) ltac:(lia)).
  assert (H2 := low_up_rsum _ _ (b + s) _ Hou).
  unfold mem_remove_range, mem_isolate_range, grow_or_bug.
  rewrite (wrap_id 64 (b + s)), (proj2 (Z.eqb_neq s 0)), (proj2 (Z.ltb_ge _ _)) by lia.
  cbn [mbind res_mbind].
  rewrite (isolate_below b (b + s) l [] t 0); try done; try lia.
  cbn [mbind res_mbind length app fst snd Nat.add].
  set (m := low (b + s) (up b l)) in *. set (p := low b l) in *. set (q := up (b + s) (up b l)) in *.
  set (t' := MkType _ _ _).
  assert (Hsum : rsum (p ++ m ++ q) = rsum l) by (rewrite !rsum_app; lia).
  assert (Hrem : remove_loop t' (length p) (length m) = Ok (MkType (mt_max t) (rsum (p ++ q)) (or_dummy (p ++ q)))).
  { rewrite (remove_loop_ok m t' p q); cbn; try done; [|lia| |lia].
    - intros E. rewrite E in Hsum. cbn in Hsum. destruct l as [|r l']; [done|].
      pose proof Ho as (? & ? & ? & Ho'). apply ord_rsum in Ho'; [|lia|unfold re; lia]. cbn in Hsum. lia.
    - eapply ord_nonneg, (isolated_ord 0 b (b + s) l); [|lia..]. by eapply ord_weaken; [..|exact Ho]. }
  destruct m as [|x m'] eqn:Em; cbn [iso_idx fst snd].
  - rewrite <- Hrem. cbn. done.
  - cbn [Nat.eqb]. replace (length p + length (x :: m') - length p)%nat with (length (x :: m')) by lia. done.
Qed.

Lemma removed_ord b e l : ord 1 0 l -> 0 <= b < e -> e < 2 ^ 64 ->
  ord 1 0 (low b l ++ up e (up b l)).
Proof.
  intros Ho Hb He.
  pose proof (up_ord 1 _ e _ (up_ord 1 0 b l Ho ltac:(lia) ltac:(lia)) ltac:(lia) He) as Hu.
  apply low_app_ord; [done|lia|..]; eapply ord_weaken; [..|eassumption| | |eassumption]; lia.
Qed.

Lemma cut_length b e l : (length (low b l ++ up e (up b l)) <= length l + 1)%nat.
Proof.
  assert (Hup : forall x l, (length (up x l) <= length l)%nat).
  { intros x l'. induction l' as [|r l' IH]; cbn; [lia|].
    destruct (x <=? rbase r); [done|]. destruct (x <? re r); cbn in *; lia. }
  rewrite length_app. pose proof (Hup e (up b l)).
  enough (length (low b l) + length (up b l) <= length l + 1)%nat by lia.
  induction l as [|r l IH]; cbn; [lia|]. destruct (b <=? rbase r); [cbn; lia|].
  specialize (IH (Hup _ _)). destruct (b <? re r); cbn; lia.
Qed.

(** Equal sets of addresses have equal arrays. *)
Lemma ord_canonical l : forall l' lo lo',
  ord 1 lo l -> ord 1 lo' l' -> (forall a, covers l a <-> covers l' a) -> l = l'.
Proof.
  induction l as [|r l IH]; intros [|r' l'] lo lo'; cbn.
  - done.
  - intros _ (? & ? & ? & _) HH. specialize (HH (rbase r')). autorewrite with covers in HH. unfold re in *. lia.
  - intros (? & ? & ? & _) _ HH. specialize (HH (rbase r)). autorewrite with covers in HH. unfold re in *. lia.
  - intros (? & ? & ? & Ho) (? & ? & ? & Ho') HH.
    assert (Hb := fun a => ord_covers 1 (re r + 1) l a ltac:(lia) Ho).
    assert (Hb' := fun a => ord_covers 1 (re r' + 1) l' a ltac:(lia) Ho').
    assert (H' := fun a => iff_trans (iff_sym (covers_cons r l a)) (iff_trans (HH a) (covers_cons r' l' a))).
    clear HH. unfold re in *.
    assert (rbase r = rbase r').
    { destruct (proj1 (H' (rbase r)) ltac:(left; lia)) as [|A%Hb'],
        (proj2 (H' (rbase r')) ltac:(left; lia)) as [|B%Hb]; lia. }
    assert (rsize r = rsize r').
    { destruct (Z.lt_total (rsize r) (rsize r')) as [Hlt|[?|Hlt]]; [|done|].
      - destruct (proj2 (H' (rbase r + rsize r)) ltac:(left; lia)) as [|B%Hb]; lia.
      - destruct (proj1 (H' (rbase r' + rsize r')) ltac:(left; lia)) as [|B%Hb']; lia. }
    assert (r = r') as -> by (destruct r, r'; cbn in *; congruence). f_equal.
    apply (IH _ _ _ Ho Ho'). intros a. specialize (H' a). specialize (Hb a). specialize (Hb' a). intuition lia.
Qed.

Lemma covers_dummy a : covers [dummy_region] a <-> False.
Proof. autorewrite with covers. unfold re, dummy_region; cbn. lia. Qed.

Lemma ord_head_ne r l lo k : ord k lo (r :: l) -> (rsize r =? 0) = false.
Proof. cbn. lia. Qed.

Lemma add_range_spec t base size :
  mem_wf t -> 0 <= base -> 0 <= size -> base + size < 2 ^ 64 ->
  match mem_add_range t base size with
  | Ok t' => mem_wf t' /\ mt_max t' = mt_max t /\
      forall a, covers (mt_regions t') a <-> covers (mt_regions t) a \/ base <= a < base + size
  | Fault f => f = FBug /\ mt_max t < Z.of_nat (length (gaps (mt_regions t) base (base + size)))
  end.
Proof.
  intros Hwf Hb Hs He. unfold mem_add_range. rewrite (wrap_id 64 (base + size)) by lia.
  destruct (Z.eqb_spec size 0) as [->|Hs0].
  { split; [done|]. split; [done|]. intros a. intuition lia. }
  destruct Hwf as (Hm & Hc & [[Hr HT]|(Hne & Ho & HT)]).
  - rewrite Hr; cbn. split; [|split; [done|]].
    + unfold mem_wf, cnt; cbn. repeat split; [lia..|]. right. unfold re; cbn. repeat split; (done || lia).
    + intros a. rewrite covers_dummy. autorewrite with covers. unfold re; cbn. tauto.
  - destruct (mt_regions t) as [|r0 rs] eqn:Hl; [done|]. rewrite (ord_head_ne _ _ _ _ Ho), <- Hl in *.
    assert (Ho0 : ord 0 0 (mt_regions t)) by (by eapply ord_weaken; [..|exact Ho]).
    assert (Hu := ord_rsum_in_u 0 _ ltac:(done) Ho0).
    unfold add_round. rewrite (add_round_count t _ 0) by done. cbn [mbind res_mbind].
    unfold grow_or_bug. unfold cnt in *. set (g := gaps (mt_regions t) base (base + size)) in *.
    destruct (Z.ltb_spec (mt_max t) (Z.of_nat (length (mt_regions t)) + (0 + (Z.of_nat (length g) - Z.of_nat (length (mt_regions t)))))).
    { cbn. split; [done|lia]. }
    cbn [mbind res_mbind].
    change O with (length (@nil mem_region)) at 1.
    rewrite (add_round_insert (base + size) (mt_regions t) [] t 0 base 0);
      [|done|done|lia|lia|by rewrite HT|done|fold g; cbn; lia].
    cbn [mbind res_mbind app]. fold g.
    assert (Hg : ord 0 0 g) by (apply gaps_ord; [done|lia|lia]).
    assert (Hug := ord_rsum_in_u 0 _ ltac:(done) Hg).
    unfold mem_merge_regions; cbn [mt_regions].
    assert (Hgl := gaps_length (mt_regions t) base (base + size)). fold g in Hgl.
    assert (Hcg := gaps_covers (mt_regions t) base (base + size)). fold g in Hcg.
    destruct g as [|r g']; [rewrite Hl in Hgl; cbn in Hgl; lia|].
    destruct (merge_loop_ok g' r 0 Hg ltac:(done)) as (l' & -> & Ho' & Hne' & Hlen & Hs' & Hc').
    cbn [mbind res_mbind]. unfold set_regions, mem_wf, cnt; cbn [mt_regions mt_max mt_total].
    split; [|split; [done|]].
    + split; [done|]. split; [cbn in *; lia|]. right. split; [done|]. split; [done|].
      rewrite HT, Hs', wrap_id; [lia|]. replace (rsum (mt_regions t) + _) with (rsum (r :: g')) by lia. done.
    + intros a. by rewrite Hc'.
Qed.

(** A range that meets no region takes one new entry. *)
Lemma gaps_length_free l : forall lo b e, ord 0 lo l -> b < e -> (forall a, b <= a < e -> ~ covers l a) ->
  length (gaps l b e) = S (length l).
Proof.
  induction l as [|r l IH]; intros lo b e Ho Hbe Hd; cbn [gaps].
  - unfold portion. by rewrite (proj2 (Z.ltb_lt b e)).
  - destruct Ho as (? & ? & ? & Ho). assert (Hd' : forall a, b <= a < e -> ~ (rbase r <= a < re r) /\ ~ covers l a).
    { intros a Ha. specialize (Hd a Ha). rewrite covers_cons in Hd. tauto. }
    destruct (Z.leb_spec e (rbase r)).
    + unfold portion. by rewrite (proj2 (Z.ltb_lt b e)).
    + destruct (Z.leb_spec (re r) b).
      * cbn. f_equal. eapply IH; [done|done|]. intros a Ha. by apply Hd'.
      * destruct (Hd' (Z.max b (rbase r))) as [Hn _]; unfold re in *; lia.
Qed.

(** Adding such a range stops in [BUG()] exactly when every entry is in use. *)
Lemma add_range_full t base size :
  mem_wf t -> 0 <= base -> 0 < size -> base + size < 2 ^ 64 ->
  (forall a, base <= a < base + size -> ~ covers (mt_regions t) a) ->
  (exists f, mem_add_range t base size = Fault f) <-> mt_regions t <> [dummy_region] /\ cnt t = mt_max t.
Proof.
  intros Hwf Hb Hs He Hd. pose proof (add_range_spec t base size Hwf Hb ltac:(lia) He) as Hspec.
  pose proof Hwf as (Hm & Hc & [[Hr HT]|(Hne & Ho & HT)]).
  - rewrite Hr. split; [|tauto]. intros [f E]. revert E. unfold mem_add_range.
    by rewrite (proj2 (Z.eqb_neq size 0)), Hr by lia.
  - assert (Ho0 : ord 0 0 (mt_regions t)) by (by eapply ord_weaken; [..|exact Ho]).
    pose proof (gaps_length_free _ 0 base (base + size) Ho0 ltac:(lia) Hd) as Hg. unfold cnt in *. split.
    + intros [f E]. rewrite E in Hspec. split; [|lia]. intros Hr. rewrite Hr in Ho. cbn in Ho. lia.
    + intros [_ Hfull]. exists FBug. unfold mem_add_range. rewrite (wrap_id 64 (base + size)) by lia.
      rewrite (proj2 (Z.eqb_neq size 0)) by lia.
      destruct (mt_regions t) as [|r0 rs] eqn:Hl; [done|]. rewrite (ord_head_ne _ _ _ _ Ho), <- Hl in *.
      unfold add_round. rewrite (add_round_count t _ 0) by done. cbn [mbind res_mbind].
      unfold grow_or_bug. by rewrite (proj2 (Z.ltb_lt _ _)) by (unfold cnt; lia).
Qed.

Lemma remove_range_spec t base size :
  mem_wf t -> 0 <= base -> 0 <= size -> base + size < 2 ^ 64 ->
  match mem_remove_range t base size with
  | Ok t' => mem_wf t' /\ mt_max t' = mt_max t /\
      forall a, covers (mt_regions t') a <-> covers (mt_regions t) a /\ ~ (base <= a < base + size)
  | Fault f => f = FBug /\ mt_max t < cnt t + 2
  end.
Proof.
  intros Hwf Hb Hs He.
  destruct (Z.eqb_spec size 0) as [->|Hs0].
  { cbn. split; [done|]. split; [done|]. intros a. intuition lia. }
  destruct (Z.lt_ge_cases (mt_max t) (cnt t + 2)) as [Hlt|Hge].
  { unfold mem_remove_range, mem_isolate_range, grow_or_bug.
    rewrite (proj2 (Z.eqb_neq size 0)), (proj2 (Z.ltb_lt _ _)) by done. done. }
  destruct Hwf as (Hm & Hc & [[Hr HT]|(Hne & Ho & HT)]).
  - destruct t as [mx tot regs]; cbn in Hr, HT, Hm; subst.
    unfold mem_remove_range, mem_isolate_range, grow_or_bug.
    rewrite (wrap_id 64 (base + size)), (proj2 (Z.eqb_neq size 0)), (proj2 (Z.ltb_ge _ _)) by (cbn in *; lia).
    cbn. rewrite (proj2 (Z.leb_gt (base + size) 0)) by lia.
    change (rend dummy_region) with 0. rewrite (proj2 (Z.leb_le 0 base)) by lia. cbn.
    split; [by split; [|split; [|left]]|]. split; [done|]. intros a. rewrite covers_dummy. tauto.
  - rewrite remove_range_ok by (done || lia). set (l := low base _ ++ _).
    assert (Hol : ord 1 0 l) by (apply removed_ord; [done|lia|lia]).
    assert (Hcov : forall a, covers l a <-> covers (mt_regions t) a /\ ~ (base <= a < base + size)).
    { intros a. pose proof (up_ord 1 0 base _ Ho ltac:(lia) ltac:(lia)) as Hu.
      destruct (low_up_covers 1 0 base _ a ltac:(lia) Ho) as [A B].
      destruct (low_up_covers 1 _ (base + size) _ a ltac:(lia) Hu) as [_ D].
      unfold l. rewrite covers_app, A, D, B. destruct (Z.lt_ge_cases a base); intuition lia. }
    pose proof (cut_length base (base + size) (mt_regions t)) as Hlen. fold l in Hlen.
    unfold mem_wf, cnt in *; cbn [mt_regions mt_max mt_total]. destruct l as [|r l']; cbn [or_dummy].
    + split; [|split; [done|intros a; rewrite covers_dummy, <- Hcov, covers_nil; done]].
      cbn. repeat split; [lia..|by left].
    + split; [|done]. repeat split; [lia..|]. by right.
Qed.

Lemma mem_type_init_wf max : 1 <= max -> mem_wf (mem_type_init max).
Proof. intros. unfold mem_wf, cnt; cbn. split; [done|]. split; [lia|by left]. Qed.

(** Two arrays in normal form that describe the same set are the same array. *)
Lemma mem_wf_canonical t t' :
  mem_wf t -> mem_wf t' -> (forall a, covers (mt_regions t) a <-> covers (mt_regions t') a) ->
  mt_regions t = mt_regions t' /\ mt_total t = mt_total t'.
Proof.
  assert (Hd : forall l, l <> [] -> ord 1 0 l -> (forall a, covers [dummy_region] a <-> covers l a) -> False).
  { intros [|r l] Hne Ho Hc; [done|]. specialize (Hc (rbase r)). rewrite covers_dummy, covers_cons in Hc.
    cbn in Ho. unfold re in *. lia. }
  intros (_ & _ & [[Hr HT]|(Hne & Ho & HT)]) (_ & _ & [[Hr' HT']|(Hne' & Ho' & HT')]) Hc.
  - rewrite Hr, Hr'. by rewrite HT, HT'.
  - rewrite Hr in Hc. by destruct (Hd _ Hne' Ho').
  - rewrite Hr' in Hc. destruct (Hd _ Hne Ho). intros a. by rewrite Hc.
  - rewrite HT, HT', (ord_canonical _ _ _ _ Ho Ho' Hc). done.
Qed.

(** ** Sequences of updates *)
Inductive mem_op : Type := OpAdd (base size : Z) | OpRemove (base size : Z).

Definition mem_op_ok (o : mem_op) : Prop :=
  match o with OpAdd b s | OpRemove b s => 0 <= b /\ 0 <= s /\ b + s < 2 ^ 64 end.

Definition mem_apply (t : mem_type) (o : mem_op) : res mem_type :=
  match o with
  | OpAdd b s => mem_add_range t b s
  | OpRemove b s => mem_remove_range t b s
  end.

Fixpoint mem_run (t : mem_type) (os : list mem_op) : res mem_type :=
  match os with [] => Ok t | o :: os => t ← mem_apply t o; mem_run t os end.

(** The abstract state: a set of addresses. *)
Definition set_apply (S : Z -> Prop) (o : mem_op) : Z -> Prop :=
  match o with
  | OpAdd b s => fun a => S a \/ b <= a < b + s
  | OpRemove b s => fun a => S a /\ ~ (b <= a < b + s)
  end.

Lemma mem_run_refines os : forall t (S : Z -> Prop) t',
  Forall mem_op_ok os -> mem_wf t -> (forall a, covers (mt_regions t) a <-> S a) ->
  mem_run t os = Ok t' ->
  mem_wf t' /\ forall a, covers (mt_regions t') a <-> foldl set_apply S os a.
Proof.
  induction os as [|o os IH]; intros t S t' Hok Hwf HS; cbn [mem_run]; intros Hr; res_inv; [done|].
  apply Forall_cons_1 in Hok as [Ho Hok]. cbn [foldl].
  destruct o as [b s|b s]; cbn in Ho, H; destruct Ho as (? & ? & ?);
    [pose proof (add_range_spec t b s) as Hp|pose proof (remove_range_spec t b s) as Hp];
    rewrite H in Hp; destruct Hp as (Hw & _ & Hc); try done;
    (eapply IH; [done|exact Hw| |exact Hr]); intros a; cbn; rewrite Hc, HS; done.
Qed.

(** C1: Refinement of the memory map to a set of addresses.  Whatever sequence of
    [mem_add_range] and [mem_remove_range] calls, with ranges that end below 2^64, the boot
    code makes on a fresh [struct mem_type], as long as no call ends in [BUG()] the region array is in
    normal form (sorted, pairwise separated by a gap, no empty entry, [total_size]
    the sum of the sizes, [cnt] within [max]) and describes exactly the set of
    addresses the calls added and did not remove again. *)
Theorem mem_type_refines_set max os t :
  1 <= max -> Forall mem_op_ok os -> mem_run (mem_type_init max) os = Ok t ->
  mem_wf t /\ forall a, covers (mt_regions t) a <-> foldl set_apply (fun _ => False) os a.
Proof.
  intros Hm Hok Hr. eapply mem_run_refines; [done|by apply mem_type_init_wf| |exact Hr].
  intros a. cbn [mem_type_init mt_regions]. by rewrite covers_dummy.
Qed.

Definition ops_example : list mem_op :=
  [OpAdd 0x1000 0x3000; OpAdd 0x8000 0x1000; OpRemove 0x2000 0x1000; OpAdd 0x3800 0x4800].

Lemma mem_type_refines_set_witness :
  exists t, mem_run (mem_type_init 8) ops_example = Ok t /\
    mt_regions t = [MkRegion 0x1000 0x1000; MkRegion 0x3000 0x6000] /\
    (covers (mt_regions t) 0x2800 <-> foldl set_apply (fun _ => False) ops_example 0x2800).
Proof.
  eexists. split; [vm_compute; reflexivity|]. split; [reflexivity|].
  refine (proj2 (mem_type_refines_set 8 ops_example _ _ _ _) 0x2800).
  - lia.
  - repeat constructor; lia.
  - vm_compute; reflexivity.
Defined.

(** [mem_add_range] on a well-formed array either returns, the array in normal
    form again and its set enlarged by exactly the new range, or it stops in [BUG()];
    it stops only when the array has no room for the entries the new range needs
    before they are merged.  It never writes outside the array, the
    [BUG_ON] of [mem_merge_regions] never fires and the loop ends. *)
Theorem mem_add_range_correct t base size :
  mem_wf t -> 0 <= base -> 0 <= size -> base + size < 2 ^ 64 ->
  match mem_add_range t base size with
  | Ok t' => mem_wf t' /\ mt_max t' = mt_max t /\
      forall a, covers (mt_regions t') a <-> covers (mt_regions t) a \/ base <= a < base + size
  | Fault f => f = FBug /\ mt_max t < Z.of_nat (length (gaps (mt_regions t) base (base + size)))
  end.
Proof. apply add_range_spec. Qed.

Definition two_regions : mem_type :=
  MkType 3 0x2000 [MkRegion 0x1000 0x1000; MkRegion 0x4000 0x1000].

Lemma two_regions_wf : mem_wf two_regions.
Proof. unfold mem_wf, cnt, re; cbn. split; [lia|]. split; [lia|]. right. repeat split; (done || lia). Qed.

Lemma mem_add_range_correct_witness :
  mem_add_range two_regions 0x1800 0x2800 = Ok (MkType 3 0x4000 [MkRegion 0x1000 0x4000]) /\
  mem_wf (MkType 3 0x4000 [MkRegion 0x1000 0x4000]).
Proof.
  assert (E : mem_add_range two_regions 0x1800 0x2800 = Ok (MkType 3 0x4000 [MkRegion 0x1000 0x4000]))
    by (vm_compute; reflexivity).
  split; [exact E|]. pose proof (mem_add_range_correct two_regions 0x1800 0x2800 two_regions_wf) as H.
  rewrite E in H. apply H; lia.
Defined.

(** C29: [mem_remove_range] (behind [mem_free] and [mem_remove]) of a range that is not empty
    and ends below 2^64, on a well-formed array, either returns, the array in normal form and its set reduced by exactly the
    range, or it stops in [BUG()], and that exactly when the array has fewer than
    two free entries: with the default capacity [NR_MEM_REGIONS] = 3 no range can be
    freed once two are reserved. *)
Theorem mem_remove_range_correct t base size :
  mem_wf t -> 0 <= base -> 0 < size -> base + size < 2 ^ 64 ->
  (mt_max t < cnt t + 2 -> mem_remove_range t base size = Fault FBug) /\
  (cnt t + 2 <= mt_max t -> exists t', mem_remove_range t base size = Ok t' /\ mem_wf t' /\
      forall a, covers (mt_regions t') a <-> covers (mt_regions t) a /\ ~ (base <= a < base + size)).
Proof.
  intros Hwf Hb Hs He. split; intros Hm.
  - unfold mem_remove_range, mem_isolate_range, grow_or_bug.
    by rewrite (proj2 (Z.eqb_neq size 0)), (proj2 (Z.ltb_lt _ _)) by lia.
  - pose proof (remove_range_spec t base size Hwf Hb ltac:(lia) He) as H.
    destruct (mem_remove_range t base size) as [t'|]; [|lia]. exists t'. naive_solver.
Qed.

Lemma mem_remove_range_correct_witness :
  mem_remove_range two_regions 0x1800 0x100 = Fault FBug.
Proof.
  refine (proj1 (mem_remove_range_correct two_regions 0x1800 0x100 two_regions_wf _ _ _) _).
  - lia.
  - lia.
  - lia.
  - vm_compute. reflexivity.
Defined.

(** Reserving a range that was free and freeing it again gives the array back
    entry by entry, [total_size] included, also when the reservation was merged
    with its neighbours. *)
Theorem mem_reserve_free_roundtrip t t1 t2 base size :
  mem_wf t -> 0 <= base -> 0 <= size -> base + size < 2 ^ 64 ->
  (forall a, base <= a < base + size -> ~ covers (mt_regions t) a) ->
  mem_add_range t base size = Ok t1 -> mem_remove_range t1 base size = Ok t2 -> t2 = t.
Proof.
  intros Hwf Hb Hs He Hfree H1 H2.
  pose proof (add_range_spec t base size Hwf Hb Hs He) as Ha. rewrite H1 in Ha.
  destruct Ha as (Hw1 & Hm1 & Hc1).
  pose proof (remove_range_spec t1 base size Hw1 Hb Hs He) as Hr. rewrite H2 in Hr.
  destruct Hr as (Hw2 & Hm2 & Hc2).
  destruct (mem_wf_canonical t2 t Hw2 Hwf) as [E1 E2].
  - intros a. rewrite Hc2, Hc1. specialize (Hfree a). tauto.
  - destruct t, t2; cbn in *. congruence.
Qed.

Lemma mem_reserve_free_roundtrip_witness :
  exists t1, mem_add_range (MkType 5 0x2000 (mt_regions two_regions)) 0x2000 0x2000 = Ok t1 /\
    mem_remove_range t1 0x2000 0x2000 = Ok (MkType 5 0x2000 (mt_regions two_regions)) /\
    MkType 5 0x2000 (mt_regions two_regions) = MkType 5 0x2000 (mt_regions two_regions).
Proof.
  eexists. split; [vm_compute; reflexivity|]. split; [vm_compute; reflexivity|].
  eapply (mem_reserve_free_roundtrip (MkType 5 0x2000 (mt_regions two_regions)) _ _ 0x2000 0x2000).
  - pose proof two_regions_wf as (_ & _ & H). unfold mem_wf, cnt. cbn. split; [lia|]. split; [lia|]. exact H.
  - lia.
  - lia.
  - lia.
  - intros a Ha. cbn [mt_regions two_regions]. autorewrite with covers. unfold re; cbn. lia.
  - vm_compute; reflexivity.
  - vm_compute; reflexivity.
Defined.
