(* ===== verification/MemAlloc.v ===== *)
(** * MemAlloc: free-range iteration and allocation over the memory map

    kernel/mem.c: the iterators [__next_mem_range], [__next_mem_range_rev] and
    [__next_reserved_mem_region] with the [for_each_*] loops over them, the range
    search [mem_find_in_range], [mem_alloc], [mem_reserve], [mem_free] and the boot
    entry points.  The two [struct mem_type]s of MemBlock and the file's static
    variables are the state. *)
From S2P Require Import Prelude MemBlock.

Definition ULLONG_MAX : Z := 18446744073709551615.
Definition PAGE_SIZE : Z := 4096.
Definition MEM_ALLOC_ANYWHERE : Z := ULLONG_MAX.
Definition MEM_ALLOC_ACCESSIBLE : Z := 0.

(** target/muldiv.h and target/bitops.h, at [phys_addr_t]. *)
Definition clamp (val lo hi : Z) : Z := Z.min (Z.max val lo) hi.
Definition round_mask (y : Z) : Z := u64 (y - 1).
Definition round_up (x y : Z) : Z := u64 ((u64 (x - 1) ||| round_mask y) + 1).
Definition round_down (x y : Z) : Z := x &&& u64 (Z.lnot (round_mask y)).

(** The file's static variables. [kernel_start] and [kernel_end] are the physical
    addresses of the linker's SDFIRM_START and SDFIRM_END. *)
Record mem_state : Type := MkMem {
  mem_memory_regions : mem_type;
  mem_reserved_regions : mem_type;
  mem_bottom_up : bool;
  mem_current_limit : Z;
  kernel_start : Z;
  kernel_end : Z }.

Definition set_memory (s : mem_state) (t : mem_type) : mem_state :=
  MkMem t (mem_reserved_regions s) (mem_bottom_up s) (mem_current_limit s) (kernel_start s) (kernel_end s).
Definition set_reserved (s : mem_state) (t : mem_type) : mem_state :=
  MkMem (mem_memory_regions s) t (mem_bottom_up s) (mem_current_limit s) (kernel_start s) (kernel_end s).

(** ** Iterators *)
Definition pack_idx (idx_a idx_b : Z) : Z := u32 idx_a ||| u64 (u64 idx_b <<< 32).
Definition unpack_a (idx : Z) : Z := s32 (idx &&& 0xffffffff).
Definition unpack_b (idx : Z) : Z := s32 (idx >>> 32).

(** The gap before reservation [idx_b]: its bounds as both iterators compute them. *)
Definition gap_start (type_b : mem_type) (idx_b : Z) : res Z :=
  if idx_b =? 0 then Ok 0
  else r ← oob (mt_regions type_b !! Z.to_nat (idx_b - 1)); Ok (rend r).
Definition gap_end (type_b : mem_type) (idx_b : Z) : res Z :=
  if u64 idx_b <? cnt type_b then r ← oob (mt_regions type_b !! Z.to_nat idx_b); Ok (rbase r)
  else Ok ULLONG_MAX.

(** How the scan over [type_b] for one entry of [type_a] ends: with a range and the
    indices of the next call, or with [idx_b] at the next entry. *)
Inductive scan : Type :=
  | Found (out_start out_end next_a next_b : Z)
  | Next (idx_b : Z).

Fixpoint scan_fwd (fuel : nat) (type_b : mem_type) (m_start m_end idx_a idx_b : Z) : res scan :=
  match fuel with
  | O => Fault FHang
  | S fuel =>
      if u64 idx_b <? cnt type_b + 1 then
        r_start ← gap_start type_b idx_b;
        r_end ← gap_end type_b idx_b;
        if m_end <=? r_start then Ok (Next idx_b)
        else if m_start <? r_end then
          let '(a, b) := if m_end <=? r_end then (idx_a + 1, idx_b) else (idx_a, idx_b + 1) in
          Ok (Found (Z.max m_start r_start) (Z.min m_end r_end) a b)
        else scan_fwd fuel type_b m_start m_end idx_a (idx_b + 1)
      else Ok (Next idx_b)
  end.

(** The result of an iterator call: the new [*idx], with the range it wrote. *)
Definition iter_result : Type := Z * option (Z * Z).
Definition end_of_iteration : iter_result := (ULLONG_MAX, None).

Fixpoint next_fwd (fuel : nat) (type_a : mem_type) (type_b : option mem_type)
    (idx_a idx_b : Z) : res iter_result :=
  match fuel with
  | O => Fault FHang
  | S fuel =>
      if u64 idx_a <? cnt type_a then
        m ← oob (mt_regions type_a !! Z.to_nat idx_a);
        let m_start := rbase m in
        let m_end := rend m in
        match type_b with
        | None => Ok (pack_idx (idx_a + 1) idx_b, Some (m_start, m_end))
        | Some tb =>
            s ← scan_fwd (S (S (length (mt_regions tb)))) tb m_start m_end idx_a idx_b;
            match s with
            | Found o_start o_end a b => Ok (pack_idx a b, Some (o_start, o_end))
            | Next b => next_fwd fuel type_a type_b (idx_a + 1) b
            end
        end
      else Ok end_of_iteration
  end.

Definition __next_mem_range (type_a : mem_type) (type_b : option mem_type) (idx : Z) : res iter_result :=
  next_fwd (S (length (mt_regions type_a))) type_a type_b (unpack_a idx) (unpack_b idx).

Fixpoint scan_rev (fuel : nat) (type_b : mem_type) (m_start m_end idx_a idx_b : Z) : res scan :=
  match fuel with
  | O => Fault FHang
  | S fuel =>
      if 0 <=? idx_b then
        r_start ← gap_start type_b idx_b;
        r_end ← gap_end type_b idx_b;
        if r_end <=? m_start then Ok (Next idx_b)
        else if r_start <? m_end then
          let '(a, b) := if r_start <=? m_start then (idx_a - 1, idx_b) else (idx_a, idx_b - 1) in
          Ok (Found (Z.max m_start r_start) (Z.min m_end r_end) a b)
        else scan_rev fuel type_b m_start m_end idx_a (idx_b - 1)
      else Ok (Next idx_b)
  end.

Fixpoint next_rev (fuel : nat) (type_a : mem_type) (type_b : option mem_type)
    (idx_a idx_b : Z) : res iter_result :=
  match fuel with
  | O => Fault FHang
  | S fuel =>
      if 0 <=? idx_a then
        m ← oob (mt_regions type_a !! Z.to_nat idx_a);
        let m_start := rbase m in
        let m_end := rend m in
        match type_b with
        | None => Ok (pack_idx (idx_a + 1) idx_b, Some (m_start, m_end))
        | Some tb =>
            s ← scan_rev (S (S (length (mt_regions tb)))) tb m_start m_end idx_a idx_b;
            match s with
            | Found o_start o_end a b => Ok (pack_idx a b, Some (o_start, o_end))
            | Next b => next_rev fuel type_a type_b (idx_a - 1) b
            end
        end
      else Ok end_of_iteration
  end.

(** Starting with [*idx == ULLONG_MAX] reads [type_b->cnt], also of a NULL [type_b]. *)
Definition __next_mem_range_rev (type_a : mem_type) (type_b : option mem_type) (idx : Z) : res iter_result :=
  '(idx_a, idx_b) ←
    (if idx =? ULLONG_MAX then tb ← oob type_b; Ok (s32 (cnt type_a - 1), s32 (cnt tb))
     else Ok (unpack_a idx, unpack_b idx));
  next_rev (S (length (mt_regions type_a))) type_a type_b idx_a idx_b.

Definition __next_reserved_mem_region (type : mem_type) (idx : Z) : res iter_result :=
  if idx <? cnt type then
    r ← oob (mt_regions type !! Z.to_nat idx);
    Ok (u64 (idx + 1), Some (rbase r, u64 (rbase r + rsize r - 1)))
  else Ok end_of_iteration.

(** The [for_each_*] loops: [next] is called first with the initial index; the body
    runs until it returns a value or the iterator says [ULLONG_MAX]. *)
Fixpoint for_each {S R : Type} (fuel : nat) (next : Z -> res iter_result)
    (body : Z -> Z -> S -> S * option R) (idx : Z) (s : S) : res (S * option R) :=
  match fuel with
  | O => Fault FHang
  | Datatypes.S fuel =>
      '(idx, out) ← next idx;
      if idx =? ULLONG_MAX then Ok (s, None)
      else
        '(b, e) ← oob out;
        let '(s, r) := body b e s in
        match r with Some r => Ok (s, Some r) | None => for_each fuel next body idx s end
  end.

(** Each turn advances one of the two array indices. *)
Definition iter_fuel (a b : mem_type) : nat := length (mt_regions a) + length (mt_regions b) + 2.
Definition for_each_free_mem_range {S R} (m : mem_state) (body : Z -> Z -> S -> S * option R) (s : S) :=
  let a := mem_memory_regions m in let b := mem_reserved_regions m in
  for_each (iter_fuel a b) (__next_mem_range a (Some b)) body 0 s.
Definition for_each_free_mem_range_reverse {S R} (m : mem_state) (body : Z -> Z -> S -> S * option R) (s : S) :=
  let a := mem_memory_regions m in let b := mem_reserved_regions m in
  for_each (iter_fuel a b) (__next_mem_range_rev a (Some b)) body ULLONG_MAX s.
Definition for_each_reserved_mem_region {S R} (m : mem_state) (body : Z -> Z -> S -> S * option R) (s : S) :=
  let b := mem_reserved_regions m in
  for_each (iter_fuel b b) (__next_reserved_mem_region b) body 0 s.

(** ** Searching a range *)
Definition bottom_up_body (start end_ size align this_start this_end : Z) : option Z :=
  let this_start := clamp this_start start end_ in
  let this_end := clamp this_end start end_ in
  let cand := round_up this_start align in
  if (cand <? this_end) && (size <=? this_end - cand) then Some cand else None.

Definition __mem_find_range_bottom_up (m : mem_state) (start end_ size align : Z) : res Z :=
  '(_, r) ← for_each_free_mem_range m
     (fun b e (_ : unit) => (tt, bottom_up_body start end_ size align b e)) tt;
  Ok (default 0 r).

Definition top_down_body (start end_ size align this_start this_end : Z) : option Z :=
  let this_start := clamp this_start start end_ in
  let this_end := clamp this_end start end_ in
  if this_end <? size then None
  else
    let cand := round_down (this_end - size) align in
    if this_start <=? cand then Some cand else None.

Definition __mem_find_range_top_down (m : mem_state) (start end_ size align : Z) : res Z :=
  '(_, r) ← for_each_free_mem_range_reverse m
     (fun b e (_ : unit) => (tt, top_down_body start end_ size align b e)) tt;
  Ok (default 0 r).

Definition mem_find_in_range (m : mem_state) (size align start end_ : Z) : res Z :=
  let end_ := if end_ =? MEM_ALLOC_ACCESSIBLE then mem_current_limit m else end_ in
  let start := Z.max start PAGE_SIZE in
  let end_ := Z.max start end_ in
  if mem_bottom_up m && (kernel_end m <? end_) then
    let bottom_up_start := Z.max start (kernel_end m) in
    ret ← __mem_find_range_bottom_up m bottom_up_start end_ size align;
    if negb (ret =? 0) then Ok ret else __mem_find_range_top_down m start end_ size align
  else __mem_find_range_top_down m start end_ size align.

(** ** The public operations *)
Definition mem_add (m : mem_state) (base size : Z) : res mem_state :=
  t ← mem_add_range (mem_memory_regions m) base size; Ok (set_memory m t).
Definition mem_reserve (m : mem_state) (base size : Z) : res mem_state :=
  t ← mem_add_range (mem_reserved_regions m) base size; Ok (set_reserved m t).
Definition mem_remove (m : mem_state) (base size : Z) : res mem_state :=
  t ← mem_remove_range (mem_reserved_regions m) base size; Ok (set_reserved m t).
Definition mem_free (m : mem_state) (base size : Z) : res mem_state :=
  t ← mem_remove_range (mem_reserved_regions m) base size; Ok (set_reserved m t).

(** [SMP_CACHE_BYTES] is 1 in the build without SMP. *)
Definition SMP_CACHE_BYTES : Z := 1.

Definition mem_alloc_range (m : mem_state) (size align start end_ : Z) : res (Z * mem_state) :=
  let align := if align =? 0 then SMP_CACHE_BYTES else align in
  found ← mem_find_in_range m size align start end_;
  if negb (found =? 0) then m ← mem_reserve m found size; Ok (found, m)
  else Ok (0, m).

Definition mem_alloc (m : mem_state) (size align : Z) : res (Z * mem_state) :=
  mem_alloc_range m size align 0 MEM_ALLOC_ACCESSIBLE.

Definition mem_start (m : mem_state) : res Z :=
  r ← oob (mt_regions (mem_memory_regions m) !! 0%nat); Ok (rbase r).
Definition mem_end (m : mem_state) : res Z :=
  let t := mem_memory_regions m in
  r ← oob (mt_regions t !! Z.to_nat (cnt t - 1)); Ok (rend r).

(** [mem_walk_memory] / [mem_walk_reserved]: the callback sees the entries in order
    until it returns [false]. *)
Fixpoint walk_regions {D} (iter : mem_region -> D -> bool * D) (l : list mem_region) (d : D) : D :=
  match l with
  | [] => d
  | rgn :: l => let '(go, d) := iter rgn d in if go then walk_regions iter l d else d
  end.
Definition mem_walk_memory {D} (m : mem_state) (iter : mem_region -> D -> bool * D) (d : D) : D :=
  walk_regions iter (mt_regions (mem_memory_regions m)) d.
Definition mem_walk_reserved {D} (m : mem_state) (iter : mem_region -> D -> bool * D) (d : D) : D :=
  walk_regions iter (mt_regions (mem_reserved_regions m)) d.

(** [mem_hw_range_init] is the machine's own code: it registers the RAM banks, here
    the list [banks] of its [mem_add] calls. *)
Fixpoint mem_hw_range_init (m : mem_state) (banks : list (Z * Z)) : res mem_state :=
  match banks with
  | [] => Ok m
  | (b, s) :: banks => m ← mem_add m b s; mem_hw_range_init m banks
  end.
Definition mem_init (m : mem_state) (banks : list (Z * Z)) : res mem_state :=
  let pa_start := round_down (kernel_start m) PAGE_SIZE in
  let pa_end := round_up (kernel_end m) PAGE_SIZE in
  m ← mem_hw_range_init m banks;
  mem_reserve m pa_start (u64 (pa_end - pa_start)).

Definition mem_boot (max : Z) (kstart kend : Z) : mem_state :=
  MkMem (mem_type_init max) (mem_type_init max) false MEM_ALLOC_ANYWHERE kstart kend.

(** ** The two-pointer walk

    Both iterators are the same walk over two sorted sequences of intervals, one
    from below and one from above.  [walks a b l]: from the positions [a] and [b]
    on, the walk yields the ranges [l]. *)
Section Walk.
Variables (mS mE rS rE : nat -> Z) (NA NB : nat).

Inductive walks : nat -> nat -> list (Z * Z) -> Prop :=
  | walks_end a b : (NA <= a \/ NB <= b)%nat -> walks a b []
  | walks_skip_a a b l : (a < NA)%nat -> (b < NB)%nat -> mE a <= rS b ->
      walks (S a) b l -> walks a b l
  | walks_skip_b a b l : (a < NA)%nat -> (b < NB)%nat -> rS b < mE a -> rE b <= mS a ->
      walks a (S b) l -> walks a b l
  | walks_yield_a a b l : (a < NA)%nat -> (b < NB)%nat -> rS b < mE a -> mS a < rE b -> mE a <= rE b ->
      walks (S a) b l -> walks a b ((Z.max (mS a) (rS b), Z.min (mE a) (rE b)) :: l)
  | walks_yield_b a b l : (a < NA)%nat -> (b < NB)%nat -> rS b < mE a -> mS a < rE b -> rE b < mE a ->
      walks a (S b) l -> walks a b ((Z.max (mS a) (rS b), Z.min (mE a) (rE b)) :: l).

Definition meets (a b : nat) : Prop := rS b < mE a /\ mS a < rE b.
Definition meet (a b : nat) : Z * Z := (Z.max (mS a) (rS b), Z.min (mE a) (rE b)).

Hypothesis m_mono : forall i j, (i < j < NA)%nat -> mE i <= mS j.
Hypothesis m_le : forall i, (i < NA)%nat -> mS i <= mE i.
Hypothesis r_mono : forall i j, (i < j < NB)%nat -> rE i <= rS j.
Hypothesis r_le : forall i, (i < NB)%nat -> rS i <= rE i.

Lemma walks_exact a b l : walks a b l ->
  forall p, p ∈ l <-> exists i j, (a <= i < NA)%nat /\ (b <= j < NB)%nat /\ meets i j /\ p = meet i j.
Proof using m_mono m_le r_mono r_le.
  assert (Hskip : forall i j b, (i < NA)%nat -> (b < j < NB)%nat -> mE i <= rE b -> ~ meets i j).
  { intros i j b' ? ? ? [? ?]. specialize (r_mono b' j ltac:(lia)). lia. }
  assert (Hskip' : forall a i j, (a < i < NA)%nat -> (j < NB)%nat -> rE j <= mE a -> ~ meets i j).
  { intros a' i j ? ? ? [? ?]. specialize (m_mono a' i ltac:(lia)). lia. }
  assert (Hrow : forall i j b, (i < NA)%nat -> (b <= j < NB)%nat -> mE i <= rS b -> ~ meets i j).
  { intros i j b' ? ? ? [? ?]. destruct (decide (j = b')) as [->|]; [lia|].
    specialize (r_mono b' j ltac:(lia)). specialize (r_le b' ltac:(lia)). lia. }
  assert (Hcol : forall a i j, (a <= i < NA)%nat -> (j < NB)%nat -> rE j <= mS a -> ~ meets i j).
  { intros a' i j ? ? ? [? ?]. destruct (decide (i = a')) as [->|]; [lia|].
    specialize (m_mono a' i ltac:(lia)). specialize (m_le a' ltac:(lia)). lia. }
  induction 1 as [a b Hend|a b l Ha Hb Hc _ IH|a b l Ha Hb Hc Hd _ IH|a b l Ha Hb Hc Hd He _ IH|a b l Ha Hb Hc Hd He _ IH]; intros p.
  - split; [by intros ?%elem_of_nil|]. intros (i & j & ? & ? & _). lia.
  - rewrite IH. split; intros (i & j & ? & ? & Hm & Hp); exists i, j.
    + repeat split; (done || lia || apply Hm).
    + destruct (decide (i = a)) as [->|]; [by destruct (Hrow a j b ltac:(lia) ltac:(lia) Hc)|]. repeat split; (done || lia || apply Hm).
  - rewrite IH. split; intros (i & j & ? & ? & Hm & Hp); exists i, j.
    + repeat split; (done || lia || apply Hm).
    + destruct (decide (j = b)) as [->|]; [by destruct (Hcol a i b ltac:(lia) ltac:(lia) Hd)|]. repeat split; (done || lia || apply Hm).
  - rewrite elem_of_cons, IH. split.
    + intros [->|(i & j & ? & ? & Hm & Hp)]; [exists a, b|exists i, j]; repeat split; (done || lia || apply Hm).
    + intros (i & j & ? & ? & Hm & Hp). destruct (decide (i = a)) as [->|]; [destruct (decide (j = b)) as [->|]; [by left|]|].
      * by destruct (Hskip a j b ltac:(lia) ltac:(lia) He).
      * right. exists i, j. repeat split; (done || lia || apply Hm).
  - rewrite elem_of_cons, IH. split.
    + intros [->|(i & j & ? & ? & Hm & Hp)]; [exists a, b|exists i, j]; repeat split; (done || lia || apply Hm).
    + intros (i & j & ? & ? & Hm & Hp). destruct (decide (j = b)) as [->|]; [destruct (decide (i = a)) as [->|]; [by left|]|].
      * by destruct (Hskip' a i b ltac:(lia) ltac:(lia) ltac:(lia)).
      * right. exists i, j. repeat split; (done || lia || apply Hm).
Qed.
End Walk.

(** What a [for_each] loop does with the ranges it is given. *)
Fixpoint run_body {S R} (body : Z -> Z -> S -> S * option R) (l : list (Z * Z)) (s : S) : S * option R :=
  match l with
  | [] => (s, None)
  | (b, e) :: l => let '(s, r) := body b e s in
                   match r with Some r => (s, Some r) | None => run_body body l s end
  end.

(** *** Index packing *)
Lemma pack_idx_val a b : -1 <= a < 2 ^ 31 -> 0 <= b < 2 ^ 31 -> pack_idx a b = u32 a + 2 ^ 32 * b.
Proof.
  intros Ha Hb. unfold pack_idx. rewrite (wrap_id 64 b) by lia.
  rewrite (wrap_id 64) by (rewrite Z.shiftl_mul_pow2 by lia; lia).
  apply lor_shiftl; [lia|apply wrap_range; lia].
Qed.

Lemma s32_u32 a : -1 <= a < 2 ^ 31 -> s32 (u32 a) = a.
Proof.
  intros Ha. destruct (decide (a = -1)) as [->|]; [done|].
  rewrite wrap_id by lia. apply swrap_id; cbn; lia.
Qed.

Lemma unpack_pack a b : -1 <= a < 2 ^ 31 -> 0 <= b < 2 ^ 31 ->
  unpack_a (pack_idx a b) = a /\ unpack_b (pack_idx a b) = b /\ pack_idx a b <> ULLONG_MAX.
Proof.
  intros Ha Hb. rewrite pack_idx_val by done. pose proof (wrap_range 32 a ltac:(lia)).
  unfold unpack_a, unpack_b. change 0xffffffff with (Z.ones 32).
  rewrite Z.land_ones, Z.shiftr_div_pow2 by lia.
  rewrite (Z.mul_comm (2 ^ 32)), Z_mod_plus_full, Z.mod_small, Z.div_add, Z.div_small by lia.
  rewrite s32_u32, swrap_id by (cbn; lia). unfold ULLONG_MAX. lia.
Qed.

(** *** Sorted arrays as sequences of intervals *)
Definition rg (t : mem_type) (i : nat) : mem_region := default dummy_region (mt_regions t !! i).
Definition nr (t : mem_type) : nat := length (mt_regions t).
Definition mS (t : mem_type) (i : nat) : Z := rbase (rg t i).
Definition mE (t : mem_type) (i : nat) : Z := re (rg t i).
Definition gS (t : mem_type) (j : nat) : Z := match j with O => 0 | S j => re (rg t j) end.
Definition gE (t : mem_type) (j : nat) : Z := if Nat.ltb j (nr t) then rbase (rg t j) else ULLONG_MAX.

Lemma rg_lookup t i r : mt_regions t !! i = Some r -> rg t i = r.
Proof. unfold rg. by intros ->. Qed.

Lemma lookup_rg t i : (i < nr t)%nat -> mt_regions t !! i = Some (rg t i).
Proof. intros Hi. unfold rg. destruct (lookup_lt_is_Some_2 _ _ Hi) as [r ->]. done. Qed.

Lemma ord_lookup k l : forall lo i r, 0 <= k -> ord k lo l -> l !! i = Some r ->
  lo <= rbase r /\ 0 < rsize r /\ re r < 2 ^ 64 /\
  forall j r', (i < j)%nat -> l !! j = Some r' -> re r + k <= rbase r'.
Proof.
  induction l as [|r0 l IH]; intros lo i r Hk; [done|]. intros (? & ? & ? & Ho) Hi.
  destruct i as [|i]; cbn in Hi.
  - injection Hi as <-. repeat split; [done..|]. intros [|j] r' Hj Hl; [lia|].
    by destruct (IH _ _ _ Hk Ho Hl) as [? _].
  - destruct (IH _ _ _ Hk Ho Hi) as (? & ? & ? & Hn). unfold re in *. repeat split; [lia..|].
    intros [|j] r' Hj Hl; [lia|]. apply (Hn j); [lia|done].
Qed.

(** The facts of a well-formed array the iterators rely on; [cnt] fits an [int]. *)
Lemma wf_sorted t : mem_wf t ->
  (forall i, (i < nr t)%nat -> 0 <= mS t i /\ mS t i <= mE t i < 2 ^ 64) /\
  (forall i j, (i < j < nr t)%nat -> mE t i + 1 <= mS t j).
Proof.
  intros (_ & _ & [[Hr _]|(_ & Ho & _)]); unfold mS, mE.
  - unfold nr, rg. rewrite Hr. cbn. split; [|lia]. intros [|i] Hi; [|lia]. cbn. unfold re; cbn. lia.
  - split.
    + intros i Hi%lookup_rg. destruct (ord_lookup 1 _ _ _ _ ltac:(lia) Ho Hi) as (? & ? & ? & _). unfold re in *. lia.
    + intros i j Hij. pose proof (lookup_rg t i ltac:(lia)) as Hi. pose proof (lookup_rg t j ltac:(lia)) as Hj.
      destruct (ord_lookup 1 _ _ _ _ ltac:(lia) Ho Hi) as (_ & _ & _ & H). apply (H j); [lia|done].
Qed.

Lemma gaps_sorted t : mem_wf t ->
  (forall j, (j < S (nr t))%nat -> 0 <= gS t j /\ gS t j <= gE t j <= ULLONG_MAX) /\
  (forall i j, (i < j < S (nr t))%nat -> gE t i <= gS t j).
Proof.
  intros Hwf. destruct (wf_sorted t Hwf) as [Hb Hm]. unfold gS, gE, mS, mE, ULLONG_MAX in *.
  split.
  - intros j Hj. destruct (Nat.ltb_spec j (nr t)); destruct j as [|j].
    + specialize (Hb 0%nat ltac:(lia)). lia.
    + specialize (Hm j (S j) ltac:(lia)). pose proof (Hb j ltac:(lia)). pose proof (Hb (S j) ltac:(lia)). lia.
    + lia.
    + specialize (Hb j ltac:(lia)). lia.
  - intros i j Hij. destruct j as [|j]; [lia|]. destruct (Nat.ltb_spec i (nr t)); [|lia].
    destruct (decide (i = j)) as [->|]; [specialize (Hb j ltac:(lia)); lia|].
    specialize (Hm i j ltac:(lia)). pose proof (Hb j ltac:(lia)). pose proof (Hb i ltac:(lia)). lia.
Qed.

(** *** The iterators are the walk *)
Section Iter.
Variables (ta tb : mem_type).
Hypothesis (Ha : mem_wf ta) (Hb : mem_wf tb).
Hypothesis (Hna : cnt ta < 2 ^ 31 - 1) (Hnb : cnt tb < 2 ^ 31 - 1).

Definition fwalk := walks (mS ta) (mE ta) (gS tb) (gE tb) (nr ta) (S (nr tb)).
Definition rwalk := walks
  (fun i => - mE ta (nr ta - 1 - i)) (fun i => - mS ta (nr ta - 1 - i))
  (fun j => - gE tb (nr tb - j)) (fun j => - gS tb (nr tb - j)) (nr ta) (S (nr tb)).

Lemma region_read t i : mem_wf t -> (i < nr t)%nat ->
  oob (mt_regions t !! Z.to_nat (Z.of_nat i)) = Ok (rg t i) /\ rend (rg t i) = mE t i.
Proof.
  intros Hwf Hi. rewrite Nat2Z.id, lookup_rg by done. split; [done|].
  destruct (wf_sorted t Hwf) as [Hs _]. specialize (Hs i Hi). unfold mS, mE, re in *.
  apply rend_re; unfold re; lia.
Qed.

Lemma gap_read j : (j <= nr tb)%nat ->
  gap_start tb (Z.of_nat j) = Ok (gS tb j) /\ gap_end tb (Z.of_nat j) = Ok (gE tb j).
Proof using All.
  intros Hj. unfold gap_start, gap_end, gS, gE, cnt in *. fold (nr tb) in *. split.
  - destruct j as [|j]; [done|]. rewrite (proj2 (Z.eqb_neq _ 0)) by lia.
    replace (Z.of_nat (S j) - 1) with (Z.of_nat j) by lia.
    destruct (region_read tb j Hb ltac:(lia)) as [-> He]. cbn. by rewrite He.
  - rewrite wrap_id by lia. destruct (Nat.ltb_spec j (nr tb)).
    + rewrite (proj2 (Z.ltb_lt _ _)) by lia. by destruct (region_read tb j Hb ltac:(lia)) as [-> _].
    + by rewrite (proj2 (Z.ltb_ge _ _)) by lia.
Qed.

Lemma scan_fwd_walk fuel : forall a b, (a < nr ta)%nat -> (S (nr tb) - b < fuel)%nat -> (b <= S (nr tb))%nat ->
  exists r, scan_fwd fuel tb (mS ta a) (mE ta a) (Z.of_nat a) (Z.of_nat b) = Ok r /\
    match r with
    | Found s e a' b' => exists i j, a' = Z.of_nat i /\ b' = Z.of_nat j /\
        (i <= nr ta)%nat /\ (j <= S (nr tb))%nat /\ (a + b < i + j)%nat /\
        (forall l, fwalk i j l -> fwalk a b ((s, e) :: l))
    | Next b' => exists j, b' = Z.of_nat j /\ (b <= j <= S (nr tb))%nat /\
        (forall l, fwalk (S a) j l -> fwalk a b l)
    end.
Proof using All.
  induction fuel as [|fuel IH]; intros a b Hai Hf Hbi; [lia|]. cbn [scan_fwd].
  unfold cnt in *. fold (nr tb) in *. rewrite wrap_id by lia.
  destruct (Z.ltb_spec (Z.of_nat b) (Z.of_nat (nr tb) + 1)).
  - destruct (gap_read b ltac:(lia)) as [-> ->]. cbn [mbind res_mbind].
    destruct (Z.leb_spec (mE ta a) (gS tb b)); [|destruct (Z.ltb_spec (mS ta a) (gE tb b))].
    + eexists. split; [done|]. exists b. repeat split; [lia..|]. intros l. apply walks_skip_a; (done || lia).
    + destruct (Z.leb_spec (mE ta a) (gE tb b)); eexists; (split; [done|]).
      * exists (S a), b. repeat split; [lia..|]. intros l. apply walks_yield_a; (done || lia).
      * exists a, (S b). repeat split; [lia..|]. intros l. apply walks_yield_b; (done || lia).
    + replace (Z.of_nat b + 1) with (Z.of_nat (S b)) by lia.
      destruct (IH a (S b) Hai ltac:(lia) ltac:(lia)) as (r & -> & Hr). exists r. split; [done|].
      assert (Hk : forall l, fwalk a (S b) l -> fwalk a b l)
        by (intros l; apply walks_skip_b; (done || lia)).
      destruct r as [s e a' b'|b'].
      * destruct Hr as (i & j & ? & ? & ? & ? & ? & Hw). exists i, j. repeat split; [done..|lia|]. auto.
      * destruct Hr as (j & ? & ? & Hw). exists j. repeat split; [done|lia|lia|]. auto.
  - eexists. split; [done|]. exists b. repeat split; [lia..|]. intros l Hw.
    inversion Hw; subst; try lia. apply walks_end. lia.
Qed.

Lemma next_fwd_walk fuel : forall a b, (nr ta - a < fuel)%nat -> (a <= nr ta)%nat -> (b <= S (nr tb))%nat ->
  exists r, next_fwd fuel ta (Some tb) (Z.of_nat a) (Z.of_nat b) = Ok r /\
    ((r = end_of_iteration /\ fwalk a b []) \/
     exists i j s e, r = (pack_idx (Z.of_nat i) (Z.of_nat j), Some (s, e)) /\
       (i <= nr ta)%nat /\ (j <= S (nr tb))%nat /\ (a + b < i + j)%nat /\
       (forall l, fwalk i j l -> fwalk a b ((s, e) :: l))).
Proof using All.
  induction fuel as [|fuel IH]; intros a b Hf Hai Hbi; [lia|]. cbn [next_fwd].
  assert (Hn : Z.of_nat (nr ta) < 2 ^ 31 - 1) by exact Hna.
  rewrite wrap_id by lia. change (cnt ta) with (Z.of_nat (nr ta)).
  destruct (Z.ltb_spec (Z.of_nat a) (Z.of_nat (nr ta))).
  - destruct (region_read ta a Ha ltac:(lia)) as [-> He]. cbn [mbind res_mbind]. rewrite He.
    change (rbase (rg ta a)) with (mS ta a). fold (nr tb).
    destruct (scan_fwd_walk (S (S (nr tb))) a b ltac:(lia) ltac:(lia) Hbi) as (r & -> & Hr). cbn [mbind res_mbind].
    destruct r as [s e a' b'|b'].
    + destruct Hr as (i & j & -> & -> & ? & ? & ? & Hw). eexists. split; [done|]. right.
      exists i, j, s, e. done.
    + destruct Hr as (j & -> & Hj & Hw). replace (Z.of_nat a + 1) with (Z.of_nat (S a)) by lia.
      destruct (IH (S a) j ltac:(lia) ltac:(lia) ltac:(lia)) as (r & -> & Hr). exists r. split; [done|].
      destruct Hr as [[-> Hr]|(i & k & s & e & -> & ? & ? & ? & Hr)]; [left; auto|].
      right. exists i, k, s, e. repeat split; [done..|lia|]. auto.
  - eexists. split; [done|]. left. split; [done|]. apply walks_end. lia.
Qed.

Lemma for_each_fwd {S R} (body : Z -> Z -> S -> S * option R) fuel : forall a b s,
  (nr ta + Datatypes.S (nr tb) - (a + b) < fuel)%nat -> (a <= nr ta)%nat -> (b <= Datatypes.S (nr tb))%nat ->
  exists l, fwalk a b l /\
    for_each fuel (__next_mem_range ta (Some tb)) body (pack_idx (Z.of_nat a) (Z.of_nat b)) s =
      Ok (run_body body l s).
Proof using All.
  induction fuel as [|fuel IH]; intros a b s Hf Hai Hbi; [lia|]. cbn [for_each].
  unfold cnt in *; fold (nr ta) (nr tb) in *.
  unfold __next_mem_range. destruct (unpack_pack (Z.of_nat a) (Z.of_nat b)) as (-> & -> & _); [lia..|].
  fold (nr ta). destruct (next_fwd_walk (Datatypes.S (nr ta)) a b ltac:(lia) Hai Hbi) as (r & -> & Hr).
  cbn [mbind res_mbind]. destruct Hr as [[-> Hw]|(i & j & s' & e & -> & ? & ? & ? & Hw)].
  - exists []. split; [done|]. done.
  - destruct (unpack_pack (Z.of_nat i) (Z.of_nat j)) as (_ & _ & Hp); [lia..|].
    rewrite (proj2 (Z.eqb_neq _ _) Hp). cbn [oob mbind res_mbind].
    destruct (IH i j (body s' e s).1 ltac:(lia) ltac:(lia) ltac:(lia)) as (l & Hl & Hrun).
    exists ((s', e) :: l). split; [auto|]. cbn [run_body].
    destruct (body s' e s) as [s1 [r|]]; [done|]. exact Hrun.
Qed.

(** The reverse iterator is the same walk seen from the other end: position [i]
    is index [cnt - 1 - i], intervals are mirrored. *)
Definition ia (i : nat) : Z := Z.of_nat (nr ta) - 1 - Z.of_nat i.
Definition ib (j : nat) : Z := Z.of_nat (nr tb) - Z.of_nat j.
Definition mirror (p : Z * Z) : Z * Z := (- p.2, - p.1).

Lemma mirror_range m1 m2 r1 r2 :
  (Z.max (- m2) (- r2), Z.min (- m1) (- r1)) = mirror (Z.max m1 r1, Z.min m2 r2).
Proof. unfold mirror; cbn. f_equal; lia. Qed.

Lemma scan_rev_walk fuel : forall a b, (a < nr ta)%nat -> (S (nr tb) - b < fuel)%nat -> (b <= S (nr tb))%nat ->
  exists r, scan_rev fuel tb (mS ta (nr ta - 1 - a)) (mE ta (nr ta - 1 - a)) (ia a) (ib b) = Ok r /\
    match r with
    | Found s e a' b' => exists i j, a' = ia i /\ b' = ib j /\
        (i <= nr ta)%nat /\ (j <= nr tb)%nat /\ (a + b < i + j)%nat /\
        (forall l, rwalk i j l -> rwalk a b (mirror (s, e) :: l))
    | Next b' => exists j, b' = ib j /\ (b <= j <= S (nr tb))%nat /\
        (forall l, rwalk (S a) j l -> rwalk a b l)
    end.
Proof using All.
  assert (Ha' := proj1 (wf_sorted ta Ha)).
  induction fuel as [|fuel IH]; intros a b Hai Hf Hbi; [lia|]. cbn [scan_rev]. unfold ib.
  destruct (Z.leb_spec 0 (Z.of_nat (nr tb) - Z.of_nat b)).
  - replace (Z.of_nat (nr tb) - Z.of_nat b) with (Z.of_nat (nr tb - b)) by lia.
    destruct (gap_read (nr tb - b) ltac:(lia)) as [-> ->]. cbn [mbind res_mbind].
    set (m1 := mS ta (nr ta - 1 - a)). set (m2 := mE ta (nr ta - 1 - a)).
    set (g1 := gS tb (nr tb - b)). set (g2 := gE tb (nr tb - b)).
    destruct (Z.leb_spec g2 m1); [|destruct (Z.ltb_spec g1 m2)].
    + eexists. split; [done|]. exists b. repeat split; [lia..|]. intros l. apply walks_skip_a; (done || lia).
    + destruct (Z.leb_spec g1 m1); eexists; (split; [done|]).
      * exists (S a), b. unfold ia. repeat split; [lia..|]. intros l.
        rewrite <- mirror_range. apply walks_yield_a; (done || lia).
      * exists a, (S b). unfold ia. repeat split; try lia.
        -- assert (g1 <> 0). { specialize (Ha' (nr ta - 1 - a)%nat ltac:(lia)). lia. }
           assert (nr tb - b <> 0)%nat by (intros E; subst g1; rewrite E in *; done). lia.
        -- intros l. rewrite <- mirror_range. apply walks_yield_b; (done || lia).
    + replace (Z.of_nat (nr tb - b) - 1) with (ib (S b)) by (unfold ib; lia).
      destruct (IH a (S b) Hai ltac:(lia) ltac:(lia)) as (r & Er & Hr). fold m1 m2 in Er. rewrite Er.
      exists r. split; [done|].
      assert (Hk : forall l, rwalk a (S b) l -> rwalk a b l)
        by (intros l; apply walks_skip_b; (done || lia)).
      destruct r as [s e a' b'|b'].
      * destruct Hr as (i & j & ? & ? & ? & ? & ? & Hw). exists i, j. repeat split; [done..|lia|]. auto.
      * destruct Hr as (j & ? & ? & Hw). exists j. repeat split; [done|lia|lia|]. auto.
  - eexists. split; [done|]. exists b. repeat split; [lia..|]. intros l Hw.
    inversion Hw; subst; try lia. apply walks_end. lia.
Qed.

Lemma next_rev_walk fuel : forall a b, (nr ta - a < fuel)%nat -> (a <= nr ta)%nat -> (b <= S (nr tb))%nat ->
  exists r, next_rev fuel ta (Some tb) (ia a) (ib b) = Ok r /\
    ((r = end_of_iteration /\ rwalk a b []) \/
     exists i j s e, r = (pack_idx (ia i) (ib j), Some (s, e)) /\
       (i <= nr ta)%nat /\ (j <= nr tb)%nat /\ (a + b < i + j)%nat /\
       (forall l, rwalk i j l -> rwalk a b (mirror (s, e) :: l))).
Proof using All.
  induction fuel as [|fuel IH]; intros a b Hf Hai Hbi; [lia|]. cbn [next_rev]. unfold ia.
  destruct (Z.leb_spec 0 (Z.of_nat (nr ta) - 1 - Z.of_nat a)).
  - replace (Z.of_nat (nr ta) - 1 - Z.of_nat a) with (Z.of_nat (nr ta - 1 - a)) by lia.
    destruct (region_read ta (nr ta - 1 - a) Ha ltac:(lia)) as [-> He]. cbn [mbind res_mbind]. rewrite He.
    change (rbase (rg ta (nr ta - 1 - a))) with (mS ta (nr ta - 1 - a)). fold (nr tb).
    replace (Z.of_nat (nr ta - 1 - a)) with (ia a) by (unfold ia; lia).
    destruct (scan_rev_walk (S (S (nr tb))) a b ltac:(lia) ltac:(lia) Hbi) as (r & -> & Hr). cbn [mbind res_mbind].
    destruct r as [s e a' b'|b'].
    + destruct Hr as (i & j & -> & -> & ? & ? & ? & Hw). eexists. split; [done|]. right.
      exists i, j, s, e. done.
    + destruct Hr as (j & -> & Hj & Hw). replace (ia a - 1) with (ia (S a)) by (unfold ia; lia).
      destruct (IH (S a) j ltac:(lia) ltac:(lia) ltac:(lia)) as (r & -> & Hr). exists r. split; [done|].
      destruct Hr as [[-> Hr]|(i & k & s & e & -> & ? & ? & ? & Hr)]; [left; auto|].
      right. exists i, k, s, e. repeat split; [done..|lia|]. auto.
  - eexists. split; [done|]. left. split; [done|]. apply walks_end. lia.
Qed.

Definition rev_next (a b : nat) : res iter_result :=
  next_rev (S (nr ta)) ta (Some tb) (ia a) (ib b).

Lemma for_each_rev {S R} (body : Z -> Z -> S -> S * option R) fuel : forall a b s idx,
  (nr ta + Datatypes.S (nr tb) - (a + b) < fuel)%nat -> (a <= nr ta)%nat -> (b <= nr tb)%nat ->
  __next_mem_range_rev ta (Some tb) idx = rev_next a b ->
  exists l, rwalk a b (map mirror l) /\
    for_each fuel (__next_mem_range_rev ta (Some tb)) body idx s = Ok (run_body body l s).
Proof using All.
  induction fuel as [|fuel IH]; intros a b s idx Hf Hai Hbi Hidx; [lia|]. cbn [for_each].
  unfold cnt in *; fold (nr ta) (nr tb) in *. rewrite Hidx. unfold rev_next.
  destruct (next_rev_walk (Datatypes.S (nr ta)) a b ltac:(lia) Hai ltac:(lia)) as (r & -> & Hr).
  cbn [mbind res_mbind]. destruct Hr as [[-> Hw]|(i & j & s' & e & -> & ? & ? & ? & Hw)].
  - exists []. split; [done|]. done.
  - destruct (unpack_pack (ia i) (ib j)) as (Eua & Eub & Hp); [unfold ia, ib; lia..|].
    rewrite (proj2 (Z.eqb_neq _ _) Hp). cbn [oob mbind res_mbind].
    destruct (IH i j (body s' e s).1 (pack_idx (ia i) (ib j)) ltac:(lia) ltac:(lia) ltac:(lia)) as (l & Hl & Hrun).
    { unfold __next_mem_range_rev. rewrite (proj2 (Z.eqb_neq _ _) Hp). cbn [mbind res_mbind]. by rewrite Eua, Eub. }
    exists ((s', e) :: l). split; [cbn; auto|]. cbn [run_body].
    destruct (body s' e s) as [s1 [r|]]; [done|]. exact Hrun.
Qed.

Lemma fwd_ranges {S R} (body : Z -> Z -> S -> S * option R) s :
  exists l, fwalk 0 0 l /\
    for_each (iter_fuel ta tb) (__next_mem_range ta (Some tb)) body 0 s = Ok (run_body body l s).
Proof using All.
  change 0 with (pack_idx (Z.of_nat 0) (Z.of_nat 0)) at 1. apply for_each_fwd; unfold iter_fuel, nr; lia.
Qed.

Lemma rev_ranges {S R} (body : Z -> Z -> S -> S * option R) s :
  exists l, rwalk 0 0 (map mirror l) /\
    for_each (iter_fuel ta tb) (__next_mem_range_rev ta (Some tb)) body ULLONG_MAX s = Ok (run_body body l s).
Proof using All.
  apply for_each_rev; [unfold iter_fuel, nr; lia|lia|lia|].
  unfold __next_mem_range_rev, rev_next, ia, ib. rewrite Z.eqb_refl. cbn [oob mbind res_mbind].
  unfold cnt in *. fold (nr ta) (nr tb) in *. rewrite !swrap_id by (cbn; lia). f_equal; lia.
Qed.

(** Both walks yield the meets of a memory region and a gap between reservations. *)
Definition free_ranges (l : list (Z * Z)) : Prop :=
  forall p, p ∈ l <-> exists i j, (i < nr ta)%nat /\ (j <= nr tb)%nat /\
    meets (mS ta) (mE ta) (gS tb) (gE tb) i j /\ p = meet (mS ta) (mE ta) (gS tb) (gE tb) i j.

Lemma fwalk_free l : fwalk 0 0 l -> free_ranges l.
Proof using All.
  destruct (wf_sorted ta Ha) as [A1 A2]. destruct (gaps_sorted tb Hb) as [B1 B2].
  intros Hw p. unfold fwalk in Hw. apply walks_exact with (p := p) in Hw.
  - rewrite Hw. split; intros (i & j & ? & ? & ?); exists i, j; (split; [lia|]); (split; [lia|]); done.
  - intros i j Hij. specialize (A2 i j Hij). lia.
  - intros i Hi. specialize (A1 i Hi). lia.
  - intros i j Hij. apply B2. lia.
  - intros j Hj. specialize (B1 j ltac:(lia)). lia.
Qed.

Lemma mirror_inj p q : mirror p = mirror q -> p = q.
Proof. destruct p, q. unfold mirror; cbn. intros [= ? ?]. f_equal; lia. Qed.

Lemma rwalk_free l : rwalk 0 0 (map mirror l) -> free_ranges l.
Proof using All.
  destruct (wf_sorted ta Ha) as [A1 A2]. destruct (gaps_sorted tb Hb) as [B1 B2].
  intros Hw p. unfold rwalk in Hw. apply walks_exact with (p := mirror p) in Hw.
  - assert (E : p ∈ l <-> mirror p ∈ map mirror l).
    { rewrite !list_elem_of_In, in_map_iff. split; [intros; by exists p|].
      intros (q & Hq%mirror_inj & ?). by subst. }
    rewrite E, Hw. unfold meets, meet. split.
    + intros (i & j & ? & ? & ? & Hp). exists (nr ta - 1 - i)%nat, (nr tb - j)%nat.
      rewrite mirror_range in Hp. apply mirror_inj in Hp. (split; [lia|]); (split; [lia|]). split; [lia|done].
    + intros (i & j & ? & ? & ? & Hp). exists (nr ta - 1 - i)%nat, (nr tb - j)%nat.
      replace (nr ta - 1 - (nr ta - 1 - i))%nat with i by lia.
      replace (nr tb - (nr tb - j))%nat with j by lia. rewrite mirror_range, Hp.
      (split; [lia|]); (split; [lia|]). split; [lia|done].
  - intros i j Hij. specialize (A2 (nr ta - 1 - j)%nat (nr ta - 1 - i)%nat ltac:(lia)). lia.
  - intros i Hi. specialize (A1 (nr ta - 1 - i)%nat ltac:(lia)). lia.
  - intros i j Hij. specialize (B2 (nr tb - j)%nat (nr tb - i)%nat ltac:(lia)). lia.
  - intros j Hj. specialize (B1 (nr tb - j)%nat ltac:(lia)). lia.
Qed.

(** The gap an address below the last one lies in, if no reservation has it. *)
Lemma gap_of x : 0 <= x < ULLONG_MAX -> ~ covers (mt_regions tb) x ->
  exists j, (j <= nr tb)%nat /\ gS tb j <= x < gE tb j.
Proof using All.
  intros Hx Hf.
  assert (Hex : forall n, (n <= nr tb)%nat -> gS tb n <= x -> exists j, (j <= nr tb)%nat /\ gS tb j <= x < gE tb j).
  { intros n. remember (nr tb - n)%nat as k eqn:Hk. revert n Hk.
    induction k as [|k IH]; intros n Hk Hn Hg.
    - exists n. split; [done|]. unfold gE. destruct (Nat.ltb_spec n (nr tb)); lia.
    - destruct (Z.lt_ge_cases x (gE tb n)) as [|Hge]; [exists n; done|].
      apply (IH (S n)); [lia|lia|]. unfold gE in Hge. destruct (Nat.ltb_spec n (nr tb)) as [Hlt|]; [|lia].
      cbn [gS]. destruct (Z.le_gt_cases (re (rg tb n)) x) as [|Hgt]; [done|]. destruct Hf.
      apply Exists_exists. exists (rg tb n). split; [|lia].
      apply list_elem_of_In, list_elem_of_lookup. exists n. by apply lookup_rg. }
  apply (Hex 0%nat); [lia|]. cbn. lia.
Qed.

Lemma covers_rg t x : covers (mt_regions t) x <-> exists i, (i < nr t)%nat /\ mS t i <= x < mE t i.
Proof.
  unfold covers. rewrite Exists_exists. split.
  - intros (r & Hin & Hr). apply list_elem_of_In, list_elem_of_lookup in Hin as [i Hi].
    exists i. unfold mS, mE. rewrite (rg_lookup _ _ _ Hi). split; [|done]. by apply lookup_lt_Some in Hi.
  - intros (i & Hi & Hx). exists (rg t i). split; [|done].
    apply list_elem_of_In, list_elem_of_lookup. exists i. by apply lookup_rg.
Qed.

(** An address of a gap is not reserved. *)
Lemma gap_free j x : (j <= nr tb)%nat -> gS tb j <= x < gE tb j -> ~ covers (mt_regions tb) x.
Proof using All.
  intros Hj Hx (i & Hi & Hc)%covers_rg. destruct (wf_sorted tb Hb) as [B1 B2].
  unfold gE in Hx. destruct (Nat.lt_ge_cases i j) as [Hij|Hij].
  - destruct j as [|j]; [lia|]. cbn [gS] in Hx. change (re (rg tb j)) with (mE tb j) in Hx.
    destruct (decide (i = j)) as [->|]; [lia|].
    pose proof (B2 i j ltac:(lia)). pose proof (B1 j ltac:(lia)). lia.
  - rewrite (proj2 (Nat.ltb_lt j (nr tb))) in Hx by lia. change (rbase (rg tb j)) with (mS tb j) in Hx.
    destruct (decide (i = j)) as [->|]; [lia|].
    pose proof (B2 j i ltac:(lia)). pose proof (B1 j ltac:(lia)). lia.
Qed.

Lemma region_lt t i : mem_wf t -> (i < nr t)%nat -> mS t i < mE t i \/ mE t i = 0.
Proof.
  intros (_ & _ & [[Hr _]|(_ & Ho & _)]) Hi; unfold mS, mE.
  - right. unfold nr, rg in *. rewrite Hr in *. destruct i; cbn in *; [done|lia].
  - left. apply lookup_rg in Hi. destruct (ord_lookup 1 _ _ _ _ ltac:(lia) Ho Hi) as (_ & ? & _). unfold re. lia.
Qed.

Lemma gap_lt j : (j <= nr tb)%nat -> gS tb j < gE tb j \/ gE tb j = 0 \/ gS tb j = ULLONG_MAX.
Proof using All.
  intros Hj. pose proof (proj1 (gaps_sorted tb Hb) j ltac:(lia)) as Hle. unfold gS, gE in *.
  destruct (wf_sorted tb Hb) as [B1 B2]. destruct (Nat.ltb_spec j (nr tb)); destruct j as [|j]; try lia.
  specialize (B2 j (S j) ltac:(lia)). unfold mS, mE in *. lia.
Qed.

Definition is_free (x : Z) : Prop := covers (mt_regions ta) x /\ ~ covers (mt_regions tb) x.

Lemma free_range_sound l s e : free_ranges l -> (s, e) ∈ l -> 0 <= s < e /\ e < 2 ^ 64 /\ forall x, s <= x < e -> is_free x.
Proof using All.
  intros Hl Hin. apply Hl in Hin as (i & j & Hi & Hj & Hm & Hp). unfold meets, meet in *.
  injection Hp as -> ->.
  pose proof (proj1 (wf_sorted ta Ha) i Hi). pose proof (proj1 (gaps_sorted tb Hb) j ltac:(lia)).
  split; [|split; [lia|]].
  - pose proof (region_lt ta i Ha Hi). pose proof (gap_lt j Hj). unfold ULLONG_MAX in *. lia.
  - intros x Hx. split; [apply covers_rg; exists i; split; [done|lia]|apply (gap_free j); [done|lia]].
Qed.

Lemma free_range_complete l x : free_ranges l -> is_free x -> x < ULLONG_MAX ->
  exists s e, (s, e) ∈ l /\ s <= x < e.
Proof using All.
  intros Hl [(i & Hi & Hm)%covers_rg Hr] Hx. pose proof (proj1 (wf_sorted ta Ha) i Hi).
  destruct (gap_of x ltac:(lia) Hr) as (j & Hj & Hg).
  eexists _, _. split; [apply Hl; exists i, j; split; [done|]; split; [done|]; split; [|done]|]; unfold meets; lia.
Qed.

(** A free block lies inside one of the ranges. *)
Lemma free_block l x n : free_ranges l -> 0 < n -> x + n <= ULLONG_MAX ->
  (forall y, x <= y < x + n -> is_free y) -> exists s e, (s, e) ∈ l /\ s <= x /\ x + n <= e.
Proof using All.
  intros Hl Hn Hx Hf. destruct (free_range_complete l x Hl) as (s & e & Hin & Hse); [apply Hf; lia|lia|].
  exists s, e. split; [done|]. split; [lia|].
  destruct (Z.le_gt_cases (x + n) e) as [|Hgt]; [done|]. exfalso.
  apply Hl in Hin as (i & j & Hi & Hj & Hm & Hp). unfold meets, meet in *. injection Hp as -> ->.
  destruct (Hf (Z.min (mE ta i) (gE tb j)) ltac:(lia)) as [Hc Hr].
  destruct (Z.le_gt_cases (mE ta i) (gE tb j)).
  - apply covers_rg in Hc as (k & Hk & Hc). destruct (wf_sorted ta Ha) as [A1 A2].
    destruct (Nat.lt_total i k) as [|[->|]].
    + specialize (A2 i k ltac:(lia)). lia.
    + lia.
    + specialize (A2 k i ltac:(lia)). specialize (A1 i Hi). lia.
  - pose proof (proj1 (gaps_sorted tb Hb) j ltac:(lia)).
    assert (Hlt : (j < nr tb)%nat).
    { unfold gE in *. destruct (Nat.ltb_spec j (nr tb)); [done|lia]. }
    assert (Hg : gE tb j = mS tb j) by (unfold gE; by rewrite (proj2 (Nat.ltb_lt _ _)) by done).
    apply Hr. rewrite Z.min_r by lia. apply covers_rg. exists j. split; [done|].
    pose proof (region_lt tb j Hb Hlt). pose proof (proj1 (wf_sorted tb Hb) j Hlt). lia.
Qed.
End Iter.

(** ** Alignment *)
Lemma round_down_spec x k : in_u 64 x -> 0 <= k < 64 -> round_down x (2 ^ k) = x - x mod 2 ^ k.
Proof.
  intros Hx Hk. assert (2 ^ k < 2 ^ 64) by (apply Z.pow_lt_mono_r; lia).
  assert (0 < 2 ^ k) by lia. unfold round_down, round_mask. rewrite (wrap_id 64 (2 ^ k - 1)) by lia.
  replace (x - x mod 2 ^ k) with (x / 2 ^ k * 2 ^ k) by (rewrite (Z.div_mod x (2 ^ k)) at 2 by lia; lia).
  rewrite <- Z.shiftr_div_pow2, <- Z.shiftl_mul_pow2 by lia.
  change (2 ^ k - 1) with (Z.pred (2 ^ k)). rewrite <- Z.ones_equiv.
  apply Z.bits_inj'. intros i Hi. rewrite Z.land_spec, wrap_testbit, Z.lnot_spec, Z.shiftl_spec by lia.
  destruct (Z.lt_ge_cases i k).
  - rewrite Z.ones_spec_low by lia. rewrite (Z.testbit_neg_r _ (i - k)) by lia.
    cbn. by rewrite !andb_false_r.
  - rewrite Z.ones_spec_high, Z.shiftr_spec by lia. replace (i - k + k) with i by lia. case_bool_decide.
    + apply andb_true_r.
    + by rewrite (testbit_high 64 x) by lia.
Qed.

Lemma round_up_spec x k : 0 < x < 2 ^ 64 -> 0 <= k < 64 ->
  round_up x (2 ^ k) = u64 (((x - 1) / 2 ^ k + 1) * 2 ^ k).
Proof.
  intros Hx Hk. assert (2 ^ k < 2 ^ 64) by (apply Z.pow_lt_mono_r; lia). assert (0 < 2 ^ k) by lia.
  unfold round_up, round_mask. rewrite !(wrap_id 64 (_ - 1)) by lia. f_equal.
  replace ((x - 1) ||| (2 ^ k - 1)) with ((2 ^ k - 1) + 2 ^ k * ((x - 1) / 2 ^ k)); [lia|].
  apply Z.bits_inj'. intros i Hi. rewrite testbit_split, Z.lor_spec by lia.
  change (2 ^ k - 1) with (Z.pred (2 ^ k)). rewrite <- Z.ones_equiv. case_bool_decide.
  - rewrite Z.ones_spec_low by lia. by rewrite orb_true_r.
  - rewrite Z.ones_spec_high, Z.div_pow2_bits, orb_false_r by lia. f_equal. lia.
Qed.

Lemma round_up_bounds x k : 0 < x < 2 ^ 64 -> 0 <= k < 64 -> round_up x (2 ^ k) <> 0 ->
  x <= round_up x (2 ^ k) /\ round_up x (2 ^ k) mod 2 ^ k = 0.
Proof.
  intros Hx Hk Hn. rewrite round_up_spec in * by done.
  assert (Hp : 0 < 2 ^ k) by lia. set (q := (x - 1) / 2 ^ k) in *.
  pose proof (Z.div_mod (x - 1) (2 ^ k) ltac:(lia)). pose proof (Z.mod_pos_bound (x - 1) (2 ^ k) Hp). fold q in H.
  assert (Hk2 : 2 ^ 64 = 2 ^ (64 - k) * 2 ^ k) by (rewrite <- Z.pow_add_r by lia; f_equal; lia).
  assert (q < 2 ^ (64 - k)). { apply Z.div_lt_upper_bound; [done|]. rewrite Z.mul_comm, <- Hk2. lia. }
  assert (0 <= q) by (apply Z.div_pos; lia).
  destruct (decide (q + 1 = 2 ^ (64 - k))) as [E|].
  - rewrite E, <- Hk2 in Hn. by unfold wrap in Hn; rewrite Z_mod_same_full in Hn.
  - rewrite wrap_id by nia. split; [nia|]. apply Z_mod_mult.
Qed.

Lemma aligned_le x c k : 0 <= k -> c mod 2 ^ k = 0 -> c <= x -> c <= x - x mod 2 ^ k.
Proof.
  intros Hk Hc Hle. assert (0 < 2 ^ k) by lia.
  pose proof (Z.div_mod x (2 ^ k) ltac:(lia)). pose proof (Z.div_mod c (2 ^ k) ltac:(lia)).
  pose proof (Z.div_le_mono c x (2 ^ k) ltac:(lia) Hle). nia.
Qed.

(** ** The search *)
Lemma run_find (f : Z -> Z -> option Z) l :
  let r := (run_body (fun b e (_ : unit) => (tt, f b e)) l tt).2 in
  (forall c, r = Some c -> exists s e, (s, e) ∈ l /\ f s e = Some c) /\
  (r = None -> forall s e, (s, e) ∈ l -> f s e = None).
Proof.
  induction l as [|[s e] l [IH1 IH2]]; cbn.
  - split; [done|]. by intros _ s e ?%elem_of_nil.
  - destruct (f s e) as [c|] eqn:E; cbn.
    + split; [|done]. intros ? [= <-]. exists s, e. split; [by left|done].
    + split.
      * intros c Hc. destruct (IH1 c Hc) as (s' & e' & ? & ?). exists s', e'. split; [by right|done].
      * intros Hn s' e' [[= -> ->]|?]%elem_of_cons; [done|]. by apply IH2.
Qed.

Lemma top_down_sound start end_ size k s e c :
  0 <= start <= end_ -> end_ < 2 ^ 64 -> 0 < size -> 0 <= k < 64 -> 0 <= s < e -> e < 2 ^ 64 ->
  top_down_body start end_ size (2 ^ k) s e = Some c ->
  c mod 2 ^ k = 0 /\ Z.max s start <= c /\ c + size <= Z.min e end_.
Proof.
  intros Hse He Hs Hk Hr Hr2. unfold top_down_body, clamp.
  destruct (Z.ltb_spec (Z.min (Z.max e start) end_) size); [done|].
  rewrite round_down_spec by lia. set (y := Z.min (Z.max e start) end_ - size) in *.
  pose proof (Z.mod_pos_bound y (2 ^ k) ltac:(lia)).
  destruct (Z.leb_spec (Z.min (Z.max s start) end_) (y - y mod 2 ^ k)); [|done]. intros [= <-].
  split; [|lia]. rewrite Zminus_mod_idemp_r, Z.sub_diag. done.
Qed.

Lemma top_down_complete start end_ size k s e c :
  0 <= start <= end_ -> end_ < 2 ^ 64 -> 0 < size -> 0 <= k < 64 -> e < 2 ^ 64 ->
  c mod 2 ^ k = 0 -> Z.max s start <= c -> c + size <= Z.min e end_ ->
  top_down_body start end_ size (2 ^ k) s e <> None.
Proof.
  intros Hse He Hs Hk Hr2 Hc H1 H2. unfold top_down_body, clamp.
  destruct (Z.ltb_spec (Z.min (Z.max e start) end_) size); [lia|].
  rewrite round_down_spec by lia.
  pose proof (aligned_le (Z.min (Z.max e start) end_ - size) c k ltac:(lia) Hc ltac:(lia)).
  by rewrite (proj2 (Z.leb_le _ _)) by lia.
Qed.

Lemma bottom_up_sound start end_ size k s e c :
  0 < start <= end_ -> end_ < 2 ^ 64 -> 0 < size -> 0 <= k < 64 -> 0 <= s < e -> e < 2 ^ 64 -> c <> 0 ->
  bottom_up_body start end_ size (2 ^ k) s e = Some c ->
  c mod 2 ^ k = 0 /\ Z.max s start <= c /\ c + size <= Z.min e end_.
Proof.
  intros Hse He Hs Hk Hr Hr2 Hc0. unfold bottom_up_body, clamp.
  destruct (_ && _) eqn:E; [|done]. intros [= Ec]. apply andb_prop in E as [E1 E2].
  rewrite Ec in E1, E2. destruct (round_up_bounds (Z.min (Z.max s start) end_) k) as [B1 B2]; [lia..|].
  rewrite Ec in B1, B2. split; [done|]. lia.
Qed.

(** A state the boot code can reach: two well-formed arrays whose counts fit the
    iterators' [int]s. *)
Definition mem_ok (m : mem_state) : Prop :=
  mem_wf (mem_memory_regions m) /\ mem_wf (mem_reserved_regions m) /\
  mt_max (mem_memory_regions m) < 2 ^ 31 - 1 /\ mt_max (mem_reserved_regions m) < 2 ^ 31 - 1 /\
  in_u 64 (mem_current_limit m) /\ in_u 64 (kernel_end m).

Definition free_at (m : mem_state) (x : Z) : Prop :=
  is_free (mem_memory_regions m) (mem_reserved_regions m) x.

(** An aligned free block inside [[start, end_)]. *)
Definition fits (m : mem_state) (size k start end_ c : Z) : Prop :=
  c mod 2 ^ k = 0 /\ start <= c /\ c + size <= end_ /\ forall x, c <= x < c + size -> free_at m x.

Section Find.
Context (m : mem_state) (Hok : mem_ok m).
Context (size k : Z) (Hsize : 0 < size) (Hk : 0 <= k < 64).

Lemma find_top_down start end_ : 0 < start <= end_ -> end_ < 2 ^ 64 ->
  exists c, __mem_find_range_top_down m start end_ size (2 ^ k) = Ok c /\
    (c <> 0 -> fits m size k start end_ c) /\
    (c = 0 -> forall c', ~ fits m size k start end_ c').
Proof using All.
  intros Hse He. destruct Hok as (Ha & Hb & Hna & Hnb & _).
  pose proof Ha as (_ & Hca & _). pose proof Hb as (_ & Hcb & _).
  unfold __mem_find_range_top_down, for_each_free_mem_range_reverse.
  edestruct (rev_ranges _ _ Ha Hb) as (l & Hl & ->); [lia..|]. cbn [mbind res_mbind].
  apply rwalk_free in Hl; [|done|done|lia|lia].
  pose proof (run_find (top_down_body start end_ size (2 ^ k)) l) as [Hf1 Hf2].
  destruct (run_body _ l tt) as [u r]. cbn [snd] in Hf1, Hf2. eexists. split; [done|].
  assert (Hsnd : forall c, r = Some c -> fits m size k start end_ c).
  { intros c Hc. destruct (Hf1 c Hc) as (s & e & Hin & Hb').
    destruct (free_range_sound _ _ Ha Hb ltac:(lia) ltac:(lia) l s e Hl Hin) as (? & ? & Hfr).
    apply top_down_sound in Hb' as (? & ? & ?); [|lia..].
    repeat split; [done|lia|lia|..]; apply Hfr; lia. }
  destruct r as [c|]; cbn [default from_option id].
  - split; [intros _; by apply Hsnd|]. intros ->. destruct (Hsnd 0 eq_refl) as (_ & ? & _). lia.
  - split; [done|]. intros _ c' (Hc1 & Hc2 & Hc3 & Hc4).
    destruct (free_block _ _ Ha Hb ltac:(lia) ltac:(lia) l c' size Hl Hsize) as (s & e & Hin & ? & ?);
      [unfold ULLONG_MAX; lia|done|].
    destruct (free_range_sound _ _ Ha Hb ltac:(lia) ltac:(lia) l s e Hl Hin) as (? & ? & _).
    apply (top_down_complete start end_ size k s e c'); try lia. by apply Hf2.
Qed.

Lemma find_bottom_up start end_ : 0 < start <= end_ -> end_ < 2 ^ 64 ->
  exists c, __mem_find_range_bottom_up m start end_ size (2 ^ k) = Ok c /\
    (c <> 0 -> fits m size k start end_ c).
Proof using All.
  intros Hse He. destruct Hok as (Ha & Hb & Hna & Hnb & _).
  pose proof Ha as (_ & Hca & _). pose proof Hb as (_ & Hcb & _).
  unfold __mem_find_range_bottom_up, for_each_free_mem_range.
  edestruct (fwd_ranges _ _ Ha Hb) as (l & Hl & ->); [lia..|]. cbn [mbind res_mbind].
  apply fwalk_free in Hl; [|done|done|lia|lia].
  pose proof (run_find (bottom_up_body start end_ size (2 ^ k)) l) as [Hf1 _].
  destruct (run_body _ l tt) as [u r]. cbn [snd] in Hf1. eexists. split; [done|].
  destruct r as [c|]; cbn [default from_option id]; [|done]. intros Hc0.
  destruct (Hf1 c eq_refl) as (s & e & Hin & Hb').
  destruct (free_range_sound _ _ Ha Hb ltac:(lia) ltac:(lia) l s e Hl Hin) as (? & ? & Hfr).
  apply bottom_up_sound in Hb' as (? & ? & ?); [|lia..].
  repeat split; [done|lia|lia|..]; apply Hfr; lia.
Qed.

Lemma find_in_range start end_ :
  in_u 64 start -> in_u 64 end_ ->
  let end_' := if end_ =? MEM_ALLOC_ACCESSIBLE then mem_current_limit m else end_ in
  let start' := Z.max start PAGE_SIZE in
  exists c, mem_find_in_range m size (2 ^ k) start end_ = Ok c /\
    (c <> 0 -> fits m size k start' end_' c) /\ (c = 0 -> forall c', ~ fits m size k start' end_' c').
Proof using All.
  intros Hst Hen end_' start'. pose proof Hok as (_ & _ & _ & _ & Hlim & Hke).
  unfold mem_find_in_range. fold end_' start'.
  assert (in_u 64 end_') by (unfold end_'; by destruct (_ =? _)).
  assert (Hstart : 0 < start' < 2 ^ 64) by (unfold start', PAGE_SIZE; lia).
  assert (Hfit : forall st c, start' <= st -> fits m size k st (Z.max start' end_') c -> fits m size k start' end_' c).
  { intros st c ? (? & ? & ? & ?). split; [done|]. split; [lia|]. split; [lia|done]. }
  assert (Hfit' : forall c, fits m size k start' end_' c -> fits m size k start' (Z.max start' end_') c).
  { intros c (? & ? & ? & ?). split; [done|]. split; [lia|]. split; [lia|done]. }
  destruct (find_top_down start' (Z.max start' end_')) as (c & Hc & Hc1 & Hc2); [lia..|].
  assert (Htd : exists c, __mem_find_range_top_down m start' (Z.max start' end_') size (2 ^ k) = Ok c /\
    (c <> 0 -> fits m size k start' end_' c) /\ (c = 0 -> forall c', ~ fits m size k start' end_' c')).
  { exists c. split; [done|]. split; [intros H0; apply (Hfit start'); [lia|auto]|].
    intros H0 c' Hc'. eapply Hc2; eauto. }
  destruct (mem_bottom_up m && _)%bool eqn:Eb; [|exact Htd].
  apply andb_prop in Eb as [_ Eb%Z.ltb_lt].
  destruct (find_bottom_up (Z.max start' (kernel_end m)) (Z.max start' end_')) as (c1 & -> & Hb1); [lia..|].
  cbn [mbind res_mbind]. destruct (Z.eqb_spec c1 0) as [->|Hn]; cbn [negb]; [exact Htd|].
  exists c1. split; [done|]. split; [|done]. intros _. apply (Hfit (Z.max start' (kernel_end m))); [lia|auto].
Qed.
End Find.

(** C30: The free-range iterators.  On well-formed arrays both [for_each_free_mem_range]
    and its reverse finish, without an access outside the arrays, and hand their body
    non-empty ranges of addresses that are memory and not reserved; every such address
    below the last one is in a range of each. *)
Theorem free_ranges_correct m :
  mem_ok m ->
  forall loop, loop = (fun body => @for_each_free_mem_range (list (Z * Z)) unit m body []) \/
               loop = (fun body => @for_each_free_mem_range_reverse (list (Z * Z)) unit m body []) ->
  exists l, loop (fun b e acc => (acc ++ [(b, e)], None)) = Ok (l, None) /\
    (forall b e, (b, e) ∈ l -> b < e /\ forall x, b <= x < e -> free_at m x) /\
    (forall x, free_at m x -> x < ULLONG_MAX -> exists b e, (b, e) ∈ l /\ b <= x < e).
Proof.
  intros (Ha & Hb & Hna & Hnb & _) loop Hloop.
  pose proof Ha as (_ & Hca & _). pose proof Hb as (_ & Hcb & _).
  assert (Hrun : forall l acc, run_body (fun b e acc => (acc ++ [(b, e)], None : option unit)) l acc = (acc ++ l, None)).
  { induction l as [|[b e] l IH]; intros acc; cbn; [by rewrite app_nil_r|]. by rewrite IH, <- app_assoc. }
  assert (Hl : exists l, free_ranges (mem_memory_regions m) (mem_reserved_regions m) l /\
    loop (fun b e acc => (acc ++ [(b, e)], None)) = Ok (l, None)).
  { destruct Hloop as [->| ->]; unfold for_each_free_mem_range, for_each_free_mem_range_reverse.
    - edestruct (fwd_ranges _ _ Ha Hb) as (l & Hl & ->); [lia..|]. rewrite Hrun. exists l.
      split; [apply fwalk_free; (done || lia)|done].
    - edestruct (rev_ranges _ _ Ha Hb) as (l & Hl & ->); [lia..|]. rewrite Hrun. exists l.
      split; [apply rwalk_free; (done || lia)|done]. }
  destruct Hl as (l & Hl & ->). exists l. split; [done|]. split.
  - intros b e Hin. destruct (free_range_sound _ _ Ha Hb ltac:(lia) ltac:(lia) l b e Hl Hin) as (? & ? & ?).
    split; [lia|done].
  - intros x Hx Hm. by apply (free_range_complete _ _ Ha Hb ltac:(lia) ltac:(lia) l x Hl).
Qed.

Definition mem_example : mem_state :=
  MkMem (MkType 4 0x110000 [MkRegion 0x80000000 0x100000; MkRegion 0x90000000 0x10000])
        (MkType 4 0x5000 [MkRegion 0x80001000 0x5000]) false MEM_ALLOC_ANYWHERE 0x80001234 0x80005678.

Lemma mem_example_ok : mem_ok mem_example.
Proof.
  unfold mem_ok, mem_wf, cnt, re; cbn. unfold re, MEM_ALLOC_ANYWHERE, ULLONG_MAX; cbn.
  repeat split; try lia; right; repeat split; (done || lia).
Qed.

Lemma free_ranges_correct_witness :
  for_each_free_mem_range mem_example (fun b e acc => (acc ++ [(b, e)], None : option unit)) [] =
    Ok ([(0x80000000, 0x80001000); (0x80006000, 0x80100000); (0x90000000, 0x90010000)], None) /\
  exists l, for_each_free_mem_range mem_example (fun b e acc => (acc ++ [(b, e)], None : option unit)) [] = Ok (l, None).
Proof.
  split; [vm_compute; reflexivity|].
  destruct (free_ranges_correct mem_example mem_example_ok
    (fun body => for_each_free_mem_range mem_example body []) (or_introl eq_refl)) as (l & Hl & _).
  exists l. exact Hl.
Defined.

(** Every entry of the reserved array is in use. *)
Definition reserved_full (m : mem_state) : Prop :=
  mt_regions (mem_reserved_regions m) <> [dummy_region] /\
  cnt (mem_reserved_regions m) = mt_max (mem_reserved_regions m).

(** C2: Allocation from the memory map.  [mem_alloc] of a positive size at a power-of-two
    alignment either returns the address of a block that is aligned, above the first
    page, below the limit and all free, and marks exactly that block reserved; or
    returns 0 and changes nothing, and then no such block exists; or stops in [BUG()],
    which it does exactly when such a block exists and every entry of the reserved array
    is in use. *)
Theorem mem_alloc_correct m size k :
  mem_ok m -> 0 < size < 2 ^ 64 -> 0 <= k < 64 ->
  match mem_alloc m size (2 ^ k) with
  | Ok (p, m') =>
      (p = 0 /\ m' = m /\ forall c, ~ fits m size k PAGE_SIZE (mem_current_limit m) c) \/
      (fits m size k PAGE_SIZE (mem_current_limit m) p /\ mem_ok m' /\
       (forall x, free_at m' x <-> free_at m x /\ ~ (p <= x < p + size)) /\
       ~ reserved_full m)
  | Fault f =>
      f = FBug /\ reserved_full m /\ exists c, fits m size k PAGE_SIZE (mem_current_limit m) c
  end.
Proof.
  intros Hok Hs Hk. unfold mem_alloc, mem_alloc_range. rewrite (proj2 (Z.eqb_neq (2 ^ k) 0)) by lia.
  destruct (find_in_range m Hok size k ltac:(lia) Hk 0 MEM_ALLOC_ACCESSIBLE) as (c & -> & Hc1 & Hc2);
    [lia|unfold MEM_ALLOC_ACCESSIBLE; lia|].
  cbn [Z.eqb MEM_ALLOC_ACCESSIBLE] in Hc1, Hc2. change (Z.max 0 PAGE_SIZE) with PAGE_SIZE in *.
  cbn [mbind res_mbind]. destruct (Z.eqb_spec c 0) as [->|Hn]; cbn [negb].
  - left. split; [done|]. split; [done|]. by apply Hc2.
  - specialize (Hc1 Hn). pose proof Hc1 as (_ & Hlo & Hhi & Hfree).
    pose proof Hok as (Ha & Hb & Hna & Hnb & Hlim & Hke).
    pose proof (add_range_spec (mem_reserved_regions m) c size Hb) as Hadd.
    unfold PAGE_SIZE in Hlo. specialize (Hadd ltac:(lia) ltac:(lia) ltac:(lia)).
    assert (Hd : forall a, c <= a < c + size -> ~ covers (mt_regions (mem_reserved_regions m)) a).
    { intros a Ha'. by apply Hfree. }
    pose proof (add_range_full (mem_reserved_regions m) c size Hb ltac:(lia) ltac:(lia) ltac:(lia) Hd) as Hfull.
    fold (reserved_full m) in Hfull.
    unfold mem_reserve. destruct (mem_add_range _ c size) as [t|f]; cbn.
    + destruct Hadd as (Hw & Hm & Hcov). right. split; [done|]. split; [|split].
      * unfold mem_ok; cbn. rewrite Hm. done.
      * intros x. unfold free_at, is_free; cbn. rewrite Hcov. tauto.
      * intros [f ?]%Hfull. done.
    + split; [apply Hadd|]. split; [apply Hfull; by exists f|by exists c].
Qed.

Lemma mem_alloc_correct_witness :
  exists m', mem_alloc mem_example 0x1800 (2 ^ 12) = Ok (0x9000e000, m') /\
    ((0x9000e000 = 0 /\ m' = mem_example /\ forall c, ~ fits mem_example 0x1800 12 PAGE_SIZE (mem_current_limit mem_example) c) \/
     (fits mem_example 0x1800 12 PAGE_SIZE (mem_current_limit mem_example) 0x9000e000 /\ mem_ok m' /\
      (forall x, free_at m' x <-> free_at mem_example x /\ ~ (0x9000e000 <= x < 0x9000e000 + 0x1800)) /\
      ~ reserved_full mem_example)).
Proof.
  pose proof (mem_alloc_correct mem_example 0x1800 12 mem_example_ok) as H.
  assert (E : exists m', mem_alloc mem_example 0x1800 (2 ^ 12) = Ok (0x9000e000, m'))
    by (eexists; vm_compute; reflexivity).
  destruct E as [m' E]. exists m'. split; [exact E|]. rewrite E in H. apply H; lia.
Defined.
