(* ===== verification/PageAlloc.v ===== *)
(** * PageAlloc: the page allocator

    kernel/page.c: a free list of runs of pages.  A [struct page] lives at the start of
    the run it describes, so a list node is its address and the [end] it stores.  The
    doubly linked list is the list of its nodes in order; [page_lock] serialises the
    operations, each of which is one step here. *)
From S2P Require Import Prelude MemBlock MemAlloc.

Definition PAGE_SHIFT : Z := 12.

Record page : Type := MkPage { paddr : Z; pend : Z }.

#[export] Instance page_eq_dec : EqDecision page.
Proof. solve_decision. Defined.

(** ** Operations *)
(** From the label [again] on: [curr] is linked, [pg] is not; [next] is the entry after
    [curr] when the iteration began (NULL at the end of the list) and [linked] says
    whether it still is in the list, in front of [rest].  [Some l] is a jump to
    [exit_lock] with [l] from [curr]'s place on, [None] the next turn of the loop. *)
Fixpoint page_again (fuel : nat) (curr pg : page) (next : option page) (linked : bool)
    (rest : list page) : res (option (list page)) :=
  match fuel with
  | O => Fault FHang
  | S fuel =>
      let tail := match next, linked with Some n, true => n :: rest | _, _ => rest end in
      if paddr pg =? pend curr then
        let curr := MkPage (paddr curr) (u64 (pend curr + (pend pg - paddr pg))) in
        match next with
        | None => if pend curr =? 0 then Fault FOob else Ok (Some (curr :: rest))
        | Some n =>
            if pend curr =? paddr n then page_again fuel curr n next false rest
            else Ok (Some (curr :: tail))
        end
      else if paddr pg <? paddr curr then
        if paddr curr =? pend pg then page_again fuel pg curr next linked rest
        else Ok (Some (pg :: curr :: tail))
      else Ok None
  end.

(** A non-empty entry is merged at most twice before the code leaves [again]. *)
Fixpoint page_insert (pg : page) (l : list page) : res (list page) :=
  match l with
  | [] => Ok [pg]
  | curr :: tl =>
      let '(next, rest) := match tl with [] => (None, []) | n :: r => (Some n, r) end in
      o ← page_again 4 curr pg next true rest;
      match o with
      | Some l => Ok l
      | None => l ← page_insert pg tl; Ok (curr :: l)
      end
  end.

Definition page_nr (pg : page) : Z := s32 (u64 (pend pg - paddr pg) >>> PAGE_SHIFT).
Definition page_offset (pg : Z) (nr_pages : Z) : Z := u64 (pg + u64 (nr_pages <<< PAGE_SHIFT)).

(** The walk of [page_alloc_pages]: the entry it takes, the list without it. *)
Fixpoint page_first_fit (nr_pages : Z) (l : list page) : option (page * list page) :=
  match l with
  | [] => None
  | pos :: l =>
      let nr := page_nr pos in
      if (nr =? nr_pages) || (nr_pages <? nr) then Some (pos, l)
      else '(p, l) ← page_first_fit nr_pages l; Some (p, pos :: l)
  end.

Definition page_alloc_pages (nr_pages : Z) (l : list page) : res (option Z * list page) :=
  if nr_pages =? 0 then Ok (None, l)
  else match page_first_fit nr_pages l with
  | None => Ok (None, l)
  | Some (pos, l') =>
      if page_nr pos =? nr_pages then Ok (Some (paddr pos), l')
      else
        l' ← page_insert (MkPage (page_offset (paddr pos) nr_pages) (pend pos)) l';
        Ok (Some (paddr pos), l')
  end.

Definition page_free_pages (pg : Z) (nr_pages : Z) (l : list page) : res (list page) :=
  if nr_pages =? 0 then Ok l
  else page_insert (MkPage pg (page_offset pg nr_pages)) l.

Definition ALIGN_MASK (x mask : Z) : Z := u64 (x + mask) &&& u64 (Z.lnot mask).
Definition ALIGN_UP (x a : Z) : Z := ALIGN_MASK x (a - 1).
Definition ALIGN_DOWN (x a : Z) : Z := ALIGN_MASK (u64 (x - (a - 1))) (a - 1).

Definition page_alloc_init (base size : Z) (l : list page) : res (list page) :=
  page_insert (MkPage (ALIGN_UP base PAGE_SIZE) (ALIGN_DOWN (u64 (base + size)) PAGE_SIZE)) l.

(** [mem_free_all] (kernel/mem.c), behind [page_init]: every free range of the memory map
    goes to the allocator. *)
Definition mem_free_all (m : mem_state) (l : list page) : res (list page) :=
  '(r, _) ← for_each_free_mem_range m
    (fun b e (acc : res (list page)) =>
       (l ← acc; page_alloc_init b (u64 (e - b)) l, None : option unit)) (Ok l);
  r.

(** The [page] command's test allocation. *)
Record page_test : Type := MkTest { page_test_ptr : option Z; page_test_num : Z }.
Definition do_page_free (arg : option Z) (t : page_test) (l : list page) : res (option page_test * list page) :=
  match page_test_ptr t with
  | None => Ok (None, l)
  | Some ptr =>
      let nr_pages := Z.min (default (page_test_num t) arg) (page_test_num t) in
      l ← page_free_pages ptr nr_pages l;
      let ptr' := if nr_pages <? page_test_num t then Some (page_offset ptr nr_pages) else None in
      Ok (Some (MkTest ptr' (page_test_num t - nr_pages)), l)
  end.
Definition do_page_alloc (arg : option Z) (t : page_test) (l : list page) : res (page_test * list page) :=
  let nr_pages := default 1 arg in
  l ← match page_test_ptr t with Some ptr => page_free_pages ptr (page_test_num t) l | None => Ok l end;
  '(p, l) ← page_alloc_pages nr_pages l;
  Ok (MkTest p nr_pages, l).

(** ** The set of free pages *)
Definition run (pg : page) : mem_region := MkRegion (paddr pg) (pend pg - paddr pg).
Definition runs (l : list page) : list mem_region := map run l.

(** Free runs in address order, none empty, no two adjacent, whole pages, none at
    address 0, none so long that its page count leaves an [int]. *)
Definition page_ok (pg : page) : Prop :=
  0 < paddr pg < pend pg /\ pend pg < 2 ^ 43 /\
  paddr pg mod PAGE_SIZE = 0 /\ pend pg mod PAGE_SIZE = 0.
Definition page_list_ok (l : list page) : Prop := ord 1 0 (runs l) /\ Forall page_ok l.

Lemma re_run pg : re (run pg) = pend pg.
Proof. unfold re, run; cbn. lia. Qed.

Lemma covers_runs_cons c l x : covers (runs (c :: l)) x <-> paddr c <= x < pend c \/ covers (runs l) x.
Proof. cbn [runs map]. by rewrite covers_cons, re_run. Qed.

(** *** Inserting a run *)
Lemma page_again_S fuel curr pg next linked rest :
  page_again (S fuel) curr pg next linked rest =
      let tail := match next, linked with Some n, true => n :: rest | _, _ => rest end in
      if paddr pg =? pend curr then
        let curr := MkPage (paddr curr) (u64 (pend curr + (pend pg - paddr pg))) in
        match next with
        | None => if pend curr =? 0 then Fault FOob else Ok (Some (curr :: rest))
        | Some n =>
            if pend curr =? paddr n then page_again fuel curr n next false rest
            else Ok (Some (curr :: tail))
        end
      else if paddr pg <? paddr curr then
        if paddr curr =? pend pg then page_again fuel pg curr next linked rest
        else Ok (Some (pg :: curr :: tail))
      else Ok None.
Proof. done. Qed.

Lemma merged_end c p : page_ok c -> page_ok p -> paddr p = pend c ->
  u64 (pend c + (pend p - pend c)) = pend p.
Proof. intros. unfold page_ok in *. rewrite wrap_id; lia. Qed.

(** [pg] starts where [c] ends: [c] grows, and takes in the entry after it if they
    now touch. *)
Lemma again_below c pg l :
  page_ok c -> page_ok pg -> Forall page_ok l -> paddr pg = pend c ->
  page_again 4 c pg (head l) true (tail l) =
    Ok (Some match l with
        | n :: r => if pend pg =? paddr n then MkPage (paddr c) (pend n) :: r
                    else MkPage (paddr c) (pend pg) :: l
        | [] => [MkPage (paddr c) (pend pg)]
        end).
Proof.
  intros Hc Hp Hl E. rewrite page_again_S, E, Z.eqb_refl, merged_end by done. cbv zeta.
  destruct l as [|n r]; cbn [head tail pend paddr].
  - by rewrite (proj2 (Z.eqb_neq (pend pg) 0)) by (unfold page_ok in *; lia).
  - destruct (Z.eqb_spec (pend pg) (paddr n)) as [E2|]; [|done].
    apply Forall_cons_1 in Hl as [Hn _]. rewrite page_again_S. cbn [pend paddr]. rewrite <- E2, Z.eqb_refl.
    rewrite merged_end by done. cbv zeta. cbn [pend paddr]. by rewrite (proj2 (Z.eqb_neq (pend n) (pend pg))) by (unfold page_ok in *; lia).
Qed.

(** [pg] ends at or below [c]'s start. *)
Lemma again_above c pg l :
  page_ok c -> page_ok pg -> pend pg <= paddr c -> (forall n r, l = n :: r -> pend c < paddr n) ->
  page_again 4 c pg (head l) true (tail l) =
    Ok (Some (if paddr c =? pend pg then MkPage (paddr pg) (pend c) :: l else pg :: c :: l)).
Proof.
  intros Hc Hp Hle Hn. pose proof (merged_end pg c Hp Hc) as Hme. rewrite page_again_S. unfold page_ok in *.
  rewrite (proj2 (Z.eqb_neq (paddr pg) (pend c))), (proj2 (Z.ltb_lt (paddr pg) (paddr c))) by lia.
  destruct (Z.eqb_spec (paddr c) (pend pg)) as [E|]; [|by destruct l].
  rewrite page_again_S, E, Z.eqb_refl, Hme by done. cbv zeta. destruct l as [|n r]; cbn [head tail pend paddr].
  - by rewrite (proj2 (Z.eqb_neq (pend c) 0)) by lia.
  - specialize (Hn n r eq_refl). by rewrite (proj2 (Z.eqb_neq (pend c) (paddr n))) by lia.
Qed.

Lemma page_insert_cons c l pg :
  page_insert pg (c :: l) =
    (o ← page_again 4 c pg (head l) true (tail l);
     match o with Some l => Ok l | None => l ← page_insert pg l; Ok (c :: l) end).
Proof. by destruct l. Qed.

Lemma runs_sep c l pg : page_ok c -> page_ok pg ->
  (forall x, paddr pg <= x < pend pg -> ~ covers (runs (c :: l)) x) ->
  (pend pg <= paddr c \/ pend c <= paddr pg) /\ (forall x, paddr pg <= x < pend pg -> ~ covers (runs l) x).
Proof.
  intros Hc Hp Hd. split.
  - destruct (Z.le_gt_cases (pend pg) (paddr c)); [by left|].
    destruct (Z.le_gt_cases (pend c) (paddr pg)); [by right|].
    destruct (Hd (Z.max (paddr pg) (paddr c))); [unfold page_ok in *; lia|].
    apply covers_runs_cons. left. unfold page_ok in *. lia.
  - intros x Hx Hc'. apply (Hd x Hx). apply covers_runs_cons. by right.
Qed.

Lemma ord_runs_cons k lo c l :
  ord k lo (runs (c :: l)) <-> lo <= paddr c /\ paddr c < pend c /\ pend c < 2 ^ 64 /\ ord k (pend c + k) (runs l).
Proof. cbn [runs map ord]. rewrite re_run. cbn [run rbase rsize]. split; intros (? & ? & ? & ?); repeat split; (done || lia). Qed.

Lemma page_insert_ok l : forall lo pg,
  ord 1 lo (runs l) -> 0 <= lo <= paddr pg -> Forall page_ok l -> page_ok pg ->
  (forall x, paddr pg <= x < pend pg -> ~ covers (runs l) x) ->
  exists l', page_insert pg l = Ok l' /\ ord 1 lo (runs l') /\ Forall page_ok l' /\
    forall x, covers (runs l') x <-> covers (runs l) x \/ paddr pg <= x < pend pg.
Proof.
  induction l as [|c l IH]; intros lo pg Ho Hlo Hl Hp Hd.
  - exists [pg]. split; [done|]. rewrite ord_runs_cons. unfold page_ok in *. split; [cbn; lia|].
    split; [by repeat constructor; lia|]. intros x. rewrite covers_runs_cons. tauto.
  - apply Forall_cons_1 in Hl as [Hc Hl]. destruct (runs_sep c l pg Hc Hp Hd) as [Hsep Hd'].
    apply ord_runs_cons in Ho as (Ho1 & Ho2 & Ho3 & Ho). rewrite page_insert_cons.
    destruct (Z.eq_dec (paddr pg) (pend c)) as [E|Hne].
    + rewrite again_below by done. cbn [mbind res_mbind]. destruct l as [|n r]; [|destruct (Z.eqb_spec (pend pg) (paddr n)) as [E2|]].
      * eexists. split; [done|]. rewrite ord_runs_cons. cbn [paddr pend]. unfold page_ok in *. split; [cbn; lia|].
        split; [by repeat constructor; cbn; lia|]. intros x. rewrite !covers_runs_cons. cbn [paddr pend]. intuition lia.
      * eexists. split; [done|]. apply ord_runs_cons in Ho as (? & ? & ? & ?). apply Forall_cons_1 in Hl as [Hn Hl].
        rewrite ord_runs_cons. cbn [paddr pend]. unfold page_ok in *. split; [repeat split; (done || lia)|].
        split; [constructor; [cbn; lia|done]|]. intros x. rewrite !covers_runs_cons. cbn [paddr pend].
        destruct (Z.lt_ge_cases x (pend c)), (Z.lt_ge_cases x (paddr n)); intuition lia.
      * eexists. split; [done|]. apply ord_runs_cons in Ho as (? & ? & ? & ?). pose proof Hl as [Hn _]%Forall_cons_1.
        destruct (runs_sep n r pg Hn Hp Hd') as [Hsep2 _].
        rewrite !ord_runs_cons. cbn [paddr pend]. unfold page_ok in *. split; [repeat split; (done || lia)|].
        split; [constructor; [cbn; lia|done]|]. intros x. rewrite !covers_runs_cons. cbn [paddr pend].
        destruct (Z.lt_ge_cases x (pend c)); intuition lia.
    + destruct Hsep as [Hsep|Hsep].
      * rewrite again_above; [|done..|intros n r ->; apply ord_runs_cons in Ho; lia]. cbn [mbind res_mbind].
        destruct (Z.eqb_spec (paddr c) (pend pg)) as [E|].
        -- eexists. split; [done|]. rewrite ord_runs_cons. cbn [paddr pend]. unfold page_ok in *.
           split; [repeat split; (done || lia)|]. split; [constructor; [cbn; lia|done]|].
           intros x. rewrite !covers_runs_cons. cbn [paddr pend]. destruct (Z.lt_ge_cases x (paddr c)); intuition lia.
        -- eexists. split; [done|]. rewrite !ord_runs_cons. unfold page_ok in *.
           split; [repeat split; (done || lia)|]. split; [by repeat constructor; try done; lia|].
           intros x. rewrite !covers_runs_cons. tauto.
      * rewrite page_again_S. rewrite (proj2 (Z.eqb_neq (paddr pg) (pend c))) by done.
        rewrite (proj2 (Z.ltb_ge (paddr pg) (paddr c))) by (unfold page_ok in *; lia). cbn [mbind res_mbind].
        destruct (IH (pend c + 1) pg) as (l' & -> & Ho' & Hl' & Hc'); try done; [unfold page_ok in *; lia|].
        cbn [mbind res_mbind]. exists (c :: l'). split; [done|]. rewrite ord_runs_cons. split; [done|].
        split; [by constructor|]. intros x. rewrite !covers_runs_cons, Hc'. tauto.
Qed.

(** *** Taking a run *)
Lemma page_nr_val pg : page_ok pg -> page_nr pg = (pend pg - paddr pg) / PAGE_SIZE /\
  pend pg = paddr pg + page_nr pg * PAGE_SIZE.
Proof.
  intros (H1 & H2 & H3 & H4). unfold page_nr. rewrite (wrap_id 64), Z.shiftr_div_pow2 by (unfold PAGE_SHIFT; lia).
  unfold PAGE_SHIFT, PAGE_SIZE in *. change (2 ^ 12) with 4096.
  rewrite swrap_id; [|lia|split; [apply Z.le_trans with 0; [done|apply Z.div_pos; lia]|apply Z.div_lt_upper_bound; cbn; lia]].
  split; [done|]. pose proof (Z.div_mod (pend pg) 4096). pose proof (Z.div_mod (paddr pg) 4096).
  replace (pend pg - paddr pg) with ((pend pg / 4096 - paddr pg / 4096) * 4096) by lia.
  rewrite Z.div_mul by done. lia.
Qed.

Lemma page_first_fit_spec n l :
  match page_first_fit n l with
  | None => Forall (fun p => page_nr p < n) l
  | Some (p, l') => exists pre post, l = pre ++ p :: post /\ l' = pre ++ post /\ n <= page_nr p /\
      Forall (fun q => page_nr q < n) pre
  end.
Proof.
  induction l as [|c l IH]; cbn; [done|].
  destruct ((page_nr c =? n) || (n <? page_nr c)) eqn:E.
  - exists [], l. repeat split; [done..| |done]. apply orb_prop in E. lia.
  - apply orb_false_elim in E. destruct (page_first_fit n l) as [[p l']|]; cbn.
    + destruct IH as (pre & post & -> & -> & ? & ?). exists (c :: pre), post.
      repeat split; [done..|]. constructor; [lia|done].
    + constructor; [lia|done].
Qed.

Lemma ord_app k lo l m : 0 <= k -> ord k lo (l ++ m) -> ord k lo l /\ ord k lo m /\
  forall x y, covers l x -> covers m y -> x + k < y.
Proof.
  intros Hk. revert lo. induction l as [|r l IH]; intros lo; cbn.
  - intros H. repeat split; [done|]. intros x y Hx. by apply covers_nil in Hx.
  - intros (? & ? & ? & H). destruct (IH _ H) as (? & Hm & Hc). repeat split; [done..| |].
    + eapply ord_weaken; [| |exact Hm]; unfold re; lia.
    + intros x y [Hx|Hx]%covers_cons Hy; [|by apply Hc]. pose proof (ord_covers _ _ _ _ Hk Hm Hy). lia.
Qed.

Lemma ord_drop k lo l r m : 0 <= k -> ord k lo (l ++ r :: m) -> ord k lo (l ++ m).
Proof.
  intros Hk. revert lo. induction l as [|r' l IH]; intros lo; cbn; [|naive_solver].
  intros (? & ? & ? & H). eapply ord_weaken; [| |exact H]; unfold re; lia.
Qed.

Lemma runs_app l m : runs (l ++ m) = runs l ++ runs m.
Proof. apply map_app. Qed.

(** Taking an entry out of an ordered list takes out exactly its addresses. *)
Lemma runs_remove pre p post : ord 1 0 (runs (pre ++ p :: post)) ->
  ord 1 0 (runs (pre ++ post)) /\
  forall x, covers (runs (pre ++ post)) x <-> covers (runs (pre ++ p :: post)) x /\ ~ (paddr p <= x < pend p).
Proof.
  rewrite !runs_app. cbn [runs map]. fold (runs post). intros Ho. split; [by eapply ord_drop|].
  intros x. destruct (ord_app 1 0 _ _ ltac:(lia) Ho) as (_ & Hp & Hsep).
  cbn in Hp. rewrite re_run in Hp. destruct Hp as (_ & _ & _ & Hpost).
  rewrite !covers_app, !covers_cons, re_run. split.
  - intros [Hx|Hx].
    + split; [by left|]. intros Hr. specialize (Hsep x x Hx). rewrite covers_cons, re_run in Hsep. cbn in Hsep. lia.
    + split; [tauto|]. pose proof (ord_covers 1 _ _ _ ltac:(lia) Hpost Hx). lia.
  - cbn. tauto.
Qed.

(** A block all of which is covered lies in one region. *)
Lemma block_in_region l : forall lo a s, ord 1 lo l -> 0 < s -> (forall x, a <= x < a + s -> covers l x) ->
  Exists (fun r => rbase r <= a /\ a + s <= re r) l.
Proof.
  induction l as [|r l IH]; intros lo a s; cbn.
  - intros _ Hs Hc. specialize (Hc a ltac:(lia)). by apply covers_nil in Hc.
  - intros (? & ? & ? & Ho) Hs Hc.
    assert (Hgap : forall x, covers l x -> re r + 1 <= x) by (intros x; by apply (ord_covers 1)).
    assert (Hc' : forall x, a <= x < a + s -> (rbase r <= x < re r) \/ covers l x)
      by (intros x Hx; by apply covers_cons, Hc).
    destruct (Hc' a ltac:(lia)) as [Ha|Ha].
    + left. split; [lia|]. destruct (Z.le_gt_cases (a + s) (re r)) as [|Hgt]; [done|].
      destruct (Hc' (re r) ltac:(lia)) as [|Hx%Hgap]; lia.
    + right. apply (IH _ a s Ho Hs). intros x Hx. destruct (Hc' x Hx) as [?|]; [|done].
      specialize (Hgap a Ha). lia.
Qed.

(** [pg] is the first run of [l] that has room for [n] pages. *)
Definition first_run (n : Z) (l : list page) (pg : page) : Prop :=
  exists pre post, l = pre ++ pg :: post /\ n * PAGE_SIZE <= pend pg - paddr pg /\
    Forall (fun q => pend q - paddr q < n * PAGE_SIZE) pre.

(** Below the start of that run no [n] adjacent pages are free. *)
Lemma first_run_lowest n l pg b :
  ord 1 0 (runs l) -> 0 < n -> first_run n l pg -> b < paddr pg ->
  ~ (forall x, b <= x < b + n * PAGE_SIZE -> covers (runs l) x).
Proof.
  intros Ho Hn (pre & post & -> & Hlen & Hpre) Hb Hc. unfold PAGE_SIZE in *.
  apply (block_in_region _ 0 b (n * 4096) Ho) in Hc; [|lia].
  apply list.Exists_exists in Hc as (r & Hr & Hin). rewrite runs_app in Hr, Ho.
  apply elem_of_app in Hr as [Hr|Hr].
  - unfold runs in Hr. apply list_elem_of_In, in_map_iff in Hr as (q & <- & Hq). rewrite re_run in Hin. cbn in Hin.
    rewrite List.Forall_forall in Hpre. specialize (Hpre q Hq). cbn in Hpre. lia.
  - destruct (ord_app 1 0 _ _ ltac:(lia) Ho) as (_ & Hm & _). apply ord_runs_cons in Hm as (_ & ? & _ & Hpost).
    cbn [runs map] in Hr. apply elem_of_cons in Hr as [->|Hr]; [cbn in Hin; lia|].
    assert (Hx : covers (runs post) b).
    { apply list.Exists_exists. exists r. split; [done|]. unfold re in *. lia. }
    pose proof (ord_covers 1 _ _ _ ltac:(lia) Hpost Hx). lia.
Qed.

Lemma runs_inj l : forall l', runs l = runs l' -> l = l'.
Proof.
  induction l as [|[a e] l IH]; intros [|[a' e'] l']; cbn; try done.
  intros [= -> ? ?]. f_equal; [f_equal; lia|auto].
Qed.

Lemma page_offset_val a n : 0 < n -> 0 <= a -> a + n * PAGE_SIZE < 2 ^ 64 -> page_offset a n = a + n * PAGE_SIZE.
Proof.
  intros. unfold page_offset, PAGE_SHIFT, PAGE_SIZE in *. rewrite Z.shiftl_mul_pow2 by lia.
  change (2 ^ 12) with 4096. rewrite (wrap_id 64 (n * 4096)), wrap_id by lia. done.
Qed.

Lemma alloc_pages_spec n l : page_list_ok l -> 0 < n ->
  exists r l', page_alloc_pages n l = Ok (r, l') /\ page_list_ok l' /\
    match r with
    | None => l' = l /\ forall a, ~ (forall x, a <= x < a + n * PAGE_SIZE -> covers (runs l) x)
    | Some a => 0 < a /\ a mod PAGE_SIZE = 0 /\ a + n * PAGE_SIZE < 2 ^ 43 /\
        (exists pg, first_run n l pg /\ a = paddr pg) /\
        (forall x, a <= x < a + n * PAGE_SIZE -> covers (runs l) x) /\
        (forall x, covers (runs l') x <-> covers (runs l) x /\ ~ (a <= x < a + n * PAGE_SIZE))
    end.
Proof.
  intros [Ho Hl] Hn. unfold page_alloc_pages. rewrite (proj2 (Z.eqb_neq n 0)) by lia.
  pose proof (page_first_fit_spec n l) as Hf. destruct (page_first_fit n l) as [[p l']|].
  2:{ eexists _, _. split; [done|]. split; [done|]. split; [done|]. intros a Hc.
      apply (block_in_region _ 0 a (n * PAGE_SIZE) Ho) in Hc; [|unfold PAGE_SIZE; lia].
      apply Exists_exists in Hc as (r & (q & <- & Hq)%in_map_iff & Hr). rewrite re_run in Hr. cbn in Hr.
      rewrite List.Forall_forall in Hf, Hl. specialize (Hf q Hq). destruct (page_nr_val q (Hl q Hq)) as [_ Hv].
      unfold PAGE_SIZE in *. lia. }
  destruct Hf as (pre & post & -> & -> & Hge & Hpre). destruct (runs_remove pre p post Ho) as [Ho' Hc'].
  assert (Hl' : Forall page_ok (pre ++ post) /\ page_ok p).
  { rewrite Forall_app, Forall_cons_iff in Hl. rewrite Forall_app. tauto. }
  destruct Hl' as [Hl' Hp]. destruct (page_nr_val p Hp) as [_ Hv].
  assert (Hcov : forall x, paddr p <= x < pend p -> covers (runs (pre ++ p :: post)) x).
  { intros x Hx. rewrite runs_app, covers_app. right. apply covers_runs_cons. by left. }
  assert (Hfirst : first_run n (pre ++ p :: post) p).
  { exists pre, post. split; [done|]. split; [unfold PAGE_SIZE in *; lia|].
    rewrite List.Forall_forall in Hpre |- *. intros q Hq. specialize (Hpre q Hq). cbn in Hpre.
    rewrite List.Forall_forall in Hl.
    destruct (page_nr_val q (Hl q ltac:(apply in_or_app; by left))) as [_ Hvq]. unfold PAGE_SIZE in *. lia. }
  assert (Hp' := Hp). destruct Hp' as (? & ? & ? & ?). unfold PAGE_SIZE in *.
  destruct (Z.eqb_spec (page_nr p) n) as [E|Hne].
  - eexists _, _. split; [done|]. split; [done|]. rewrite <- E.
    split; [lia|]. split; [done|]. split; [lia|]. split; [exists p; by rewrite E|].
    split; [intros x Hx; apply Hcov; lia|]. intros x. rewrite Hc'. by rewrite Hv.
  - rewrite page_offset_val by (unfold PAGE_SIZE; lia). unfold PAGE_SIZE in *.
    destruct (page_insert_ok (pre ++ post) 0 (MkPage (paddr p + n * 4096) (pend p))) as (l2 & -> & Ho2 & Hl2 & Hc2).
    + done.
    + cbn. lia.
    + done.
    + unfold page_ok; cbn. unfold PAGE_SIZE. rewrite Z_mod_plus_full. lia.
    + intros x Hx. cbn in Hx. rewrite Hc'. lia.
    + cbn [mbind res_mbind]. eexists _, _. split; [done|]. split; [done|].
      split; [lia|]. split; [done|]. split; [lia|]. split; [by exists p|]. split; [intros x Hx; apply Hcov; lia|].
      intros x. rewrite Hc2, Hc'. cbn. specialize (Hcov x).
      destruct (Z.lt_ge_cases x (paddr p)), (Z.lt_ge_cases x (paddr p + n * 4096)), (Z.lt_ge_cases x (pend p));
        intuition lia.
Qed.

Lemma free_pages_spec a n l : page_list_ok l -> 0 < n -> 0 < a -> a mod PAGE_SIZE = 0 ->
  a + n * PAGE_SIZE < 2 ^ 43 -> (forall x, a <= x < a + n * PAGE_SIZE -> ~ covers (runs l) x) ->
  exists l', page_free_pages a n l = Ok l' /\ page_list_ok l' /\
    forall x, covers (runs l') x <-> covers (runs l) x \/ a <= x < a + n * PAGE_SIZE.
Proof.
  intros [Ho Hl] Hn Ha Ham Hb Hd. unfold page_free_pages. rewrite (proj2 (Z.eqb_neq n 0)) by lia.
  rewrite page_offset_val by lia. unfold PAGE_SIZE in *.
  destruct (page_insert_ok l 0 (MkPage a (a + n * 4096))) as (l' & -> & ? & ? & ?); try done.
  - cbn. lia.
  - unfold page_ok; cbn. unfold PAGE_SIZE. rewrite Z_mod_plus_full. lia.
  - by exists l'.
Qed.

(** C31: [page_alloc_pages] takes the first run that is long enough.  On a well-formed free
    list it returns the page-aligned start of the first run of the list that has room for
    [n] pages, every run before it being shorter (so no [n] adjacent pages are free at a
    lower address), and the list without exactly those [n] pages, well-formed again; or
    NULL, the list unchanged, and then no [n] adjacent pages are free.  The loop of
    [page_insert] ends. *)
Theorem page_alloc_pages_correct n l : page_list_ok l -> 0 < n ->
  exists r l', page_alloc_pages n l = Ok (r, l') /\ page_list_ok l' /\
    match r with
    | None => l' = l /\ forall a, ~ (forall x, a <= x < a + n * PAGE_SIZE -> covers (runs l) x)
    | Some a => 0 < a /\ a mod PAGE_SIZE = 0 /\ a + n * PAGE_SIZE < 2 ^ 43 /\
        (exists pg, first_run n l pg /\ a = paddr pg) /\
        (forall b, b < a -> ~ (forall x, b <= x < b + n * PAGE_SIZE -> covers (runs l) x)) /\
        (forall x, a <= x < a + n * PAGE_SIZE -> covers (runs l) x) /\
        (forall x, covers (runs l') x <-> covers (runs l) x /\ ~ (a <= x < a + n * PAGE_SIZE))
    end.
Proof.
  intros Hl Hn. destruct (alloc_pages_spec n l Hl Hn) as (r & l' & E & Hl' & Hr).
  exists r, l'. split; [done|]. split; [done|]. destruct r as [a|]; [|done].
  destruct Hr as (? & ? & ? & (pg & Hpg & ->) & ? & ?). do 3 (split; [done|]). split; [by exists pg|].
  split; [|done]. intros b. by apply first_run_lowest; [apply Hl|..].
Qed.

Definition free_list_example : list page :=
  [MkPage 0x80006000 0x80008000; MkPage 0x80010000 0x80020000].

Lemma free_list_example_ok : page_list_ok free_list_example.
Proof. unfold page_list_ok, page_ok, re, PAGE_SIZE; cbn. unfold re; cbn. repeat constructor; cbn; lia. Qed.

Lemma page_alloc_pages_correct_witness :
  page_alloc_pages 3 free_list_example =
    Ok (Some 0x80010000, [MkPage 0x80006000 0x80008000; MkPage 0x80013000 0x80020000]) /\
  (exists pg, first_run 3 free_list_example pg /\ 0x80010000 = paddr pg).
Proof.
  assert (E : page_alloc_pages 3 free_list_example =
    Ok (Some 0x80010000, [MkPage 0x80006000 0x80008000; MkPage 0x80013000 0x80020000])) by (vm_compute; reflexivity).
  split; [exact E|].
  destruct (page_alloc_pages_correct 3 free_list_example free_list_example_ok) as (r & l' & H & _ & Hr); [lia|].
  rewrite E in H. injection H as <- _. apply Hr.
Defined.

(** C32: Freed pages go back where they came from: [page_free_pages] after
    [page_alloc_pages] restores the free list entry by entry, whatever neighbours the
    freed run has to be joined with. *)
Theorem page_alloc_free_roundtrip n l a l1 :
  page_list_ok l -> 0 < n -> page_alloc_pages n l = Ok (Some a, l1) -> page_free_pages a n l1 = Ok l.
Proof.
  intros Hl Hn E. destruct (alloc_pages_spec n l Hl Hn) as (r & l' & E' & Hl' & Hr).
  rewrite E in E'. injection E' as <- <-. destruct Hr as (Ha & Ham & Hb & _ & Hin & Hc).
  destruct (free_pages_spec a n l1 Hl' Hn Ha Ham Hb) as (l2 & -> & Hl2 & Hc2).
  { intros x Hx. rewrite Hc. tauto. }
  f_equal. apply runs_inj. destruct Hl as [Ho _], Hl2 as [Ho2 _].
  apply (ord_canonical _ _ _ _ Ho2 Ho). intros x. rewrite Hc2, Hc. specialize (Hin x).
  destruct (decide (a <= x < a + n * PAGE_SIZE)); tauto.
Qed.

Lemma page_alloc_free_roundtrip_witness :
  page_free_pages 0x80010000 3 [MkPage 0x80006000 0x80008000; MkPage 0x80013000 0x80020000] = Ok free_list_example.
Proof.
  refine (page_alloc_free_roundtrip 3 free_list_example 0x80010000 _ free_list_example_ok _ _).
  - lia.
  - vm_compute; reflexivity.
Defined.

Lemma ALIGN_UP_val x : 0 <= x < 2 ^ 64 - PAGE_SIZE -> ALIGN_UP x PAGE_SIZE = (x + 4095) - (x + 4095) mod 4096.
Proof.
  intros. unfold ALIGN_UP, ALIGN_MASK, PAGE_SIZE in *. change (4096 - 1) with 4095. rewrite (wrap_id 64 (x + 4095)) by lia.
  apply (round_down_spec (x + 4095) 12); lia.
Qed.

Lemma ALIGN_DOWN_val x : in_u 64 x -> ALIGN_DOWN x PAGE_SIZE = x - x mod 4096.
Proof.
  intros. unfold ALIGN_DOWN, ALIGN_MASK, PAGE_SIZE. change (4096 - 1) with 4095.
  replace (u64 (u64 (x - 4095) + 4095)) with x.
  - apply (round_down_spec x 12); lia.
  - unfold wrap. rewrite Zplus_mod_idemp_l. replace (x - 4095 + 4095) with x by lia. by rewrite Z.mod_small.
Qed.

(** Handing a range of memory to the allocator.  A range that holds a whole page gives
    exactly its whole pages to the free list.  A range that does not is not rejected:
    the code then links a [struct page] with [end] at or below its own address, stored
    in a page that is not inside the range. *)
Theorem page_alloc_init_correct base size l :
  page_list_ok l -> 0 < base -> 0 < size -> base + size < 2 ^ 43 ->
  (forall x, base <= x < base + size -> ~ covers (runs l) x) ->
  let first := ALIGN_UP base PAGE_SIZE in
  let last := ALIGN_DOWN (base + size) PAGE_SIZE in
  (first < last ->
     base <= first /\ last <= base + size /\ first - base < PAGE_SIZE /\ base + size - last < PAGE_SIZE /\
     exists l', page_alloc_init base size l = Ok l' /\ page_list_ok l' /\
       forall x, covers (runs l') x <-> covers (runs l) x \/ first <= x < last) /\
  (last <= first -> base + size < first + PAGE_SIZE /\ page_alloc_init base size [] = Ok [MkPage first last]).
Proof.
  intros [Ho Hl] Hb Hs He Hd first last.
  assert (E1 : first = base + 4095 - (base + 4095) mod 4096) by (apply ALIGN_UP_val; unfold PAGE_SIZE; lia).
  assert (E2 : last = base + size - (base + size) mod 4096) by (apply ALIGN_DOWN_val; lia).
  pose proof (Z.mod_pos_bound (base + 4095) 4096 ltac:(lia)).
  pose proof (Z.mod_pos_bound (base + size) 4096 ltac:(lia)).
  assert (M1 : first mod 4096 = 0) by (rewrite E1, Zminus_mod_idemp_r, Z.sub_diag; done).
  assert (M2 : last mod 4096 = 0) by (rewrite E2, Zminus_mod_idemp_r, Z.sub_diag; done).
  unfold page_alloc_init. rewrite (wrap_id 64 (base + size)) by lia. fold first last. unfold PAGE_SIZE in *.
  split.
  - intros Hlt. repeat split; [lia..|].
    destruct (page_insert_ok l 0 (MkPage first last)) as (l' & E & ? & ? & ?); try done.
    + cbn. lia.
    + unfold page_ok, PAGE_SIZE; cbn. lia.
    + intros x Hx. cbn in Hx. apply Hd. lia.
    + by exists l'.
  - intros Hle. split; [lia|done].
Qed.

Lemma page_alloc_init_correct_witness :
  page_alloc_init 0x9000f800 0x800 [] = Ok [MkPage 0x90010000 0x90010000].
Proof.
  refine (proj2 (proj2 (page_alloc_init_correct 0x9000f800 0x800 [] _ _ _ _ _) _)).
  - split; [exact I|constructor].
  - lia.
  - lia.
  - lia.
  - intros x _ H. inversion H.
  - vm_compute. discriminate.
Defined.

(** An empty run in the list makes [page_insert] loop: once the run in front of it grows
    up to it, [goto again] is taken for ever, whatever the fuel. *)
Lemma empty_run_hangs fuel :
  page_again fuel (MkPage 0x1000 0x2000) (MkPage 0x2000 0x3000) (Some (MkPage 0x3000 0x3000)) true [] = Fault FHang.
Proof.
  assert (H : forall f, page_again f (MkPage 0x1000 0x3000) (MkPage 0x3000 0x3000) (Some (MkPage 0x3000 0x3000)) false [] = Fault FHang).
  { intros f. induction f as [|f IH]; [done|]. exact IH. }
  destruct fuel as [|fuel]; [done|]. exact (H fuel).
Qed.
