(* ===== verification/Timer.v ===== *)
(** * Timer: one-shot software timers over one hardware timer

    kernel/timer.c, in the tickless build ([CONFIG_TICK] not set) with a 32-bit
    [timeout_t] (CONFIG_TIMER_31BIT) on one CPU.  A timer's [timeout_t] is 0 when idle or due
    ([TIMER_IDLE]) and [2 * time + 1] when armed; [timer_orders] is the queue of timer
    ids by due time, padded with [INVALID_TID].

    Inputs and outputs of the code are explicit: [now] is [tick_get_counter()], [gpt]
    records the arguments of [gpt_oneshot_timeout], [timer_bh_awake] is set by
    [bh_resume(timer_bh)], and [call] runs a registered handler. *)
From S2P Require Import Prelude Bitops Bitmap.
From stdpp Require Import list sorting.
Local Open Scope Z_scope.
Local Open Scope c_scope.

Definition TIMER_BH : Z := 0.
Definition TIMER_IRQ : Z := 1.
Definition MAX_TIMEOUT : Z := 0x7FFFFFFF.

(** The encoding of [timeout_t] values. *)
Definition TIMER_FLAG_SHOT : Z := 1.
Definition TIMER_IDLE : Z := 0.
Definition TIMER_SHOT (timeout : Z) : bool := negb ((timeout &&& TIMER_FLAG_SHOT) =? 0).
Definition TIMER_TIME (timeout : Z) : Z := timeout >>> 1.
Definition TIMER_MAKE (time : Z) : Z := TIMER_FLAG_SHOT ||| s32 (time <<< 1).

(** [timer_desc_t]; a handler is named by a number. *)
Record timer_desc : Type := MkDesc { t_type : Z; t_handler : option nat }.

Record timer_state : Type := MkTimers {
  timer_descs : list (option timer_desc);
  timer_timeouts : list Z;
  timer_regs : list Z;
  timer_running_tid : Z;
  timer_orders : list Z;
  timer_last_tick : Z;
  timer_timeout : Z;
  timer_unshot_timeout : Z;
  timer_bh_awake : bool;
  gpt : list Z }.

Definition set_descs (s : timer_state) v := MkTimers v (timer_timeouts s) (timer_regs s)
  (timer_running_tid s) (timer_orders s) (timer_last_tick s) (timer_timeout s) (timer_unshot_timeout s) (timer_bh_awake s) (gpt s).
Definition set_timeouts (s : timer_state) v := MkTimers (timer_descs s) v (timer_regs s)
  (timer_running_tid s) (timer_orders s) (timer_last_tick s) (timer_timeout s) (timer_unshot_timeout s) (timer_bh_awake s) (gpt s).
Definition set_regs (s : timer_state) v := MkTimers (timer_descs s) (timer_timeouts s) v
  (timer_running_tid s) (timer_orders s) (timer_last_tick s) (timer_timeout s) (timer_unshot_timeout s) (timer_bh_awake s) (gpt s).
Definition set_running (s : timer_state) v := MkTimers (timer_descs s) (timer_timeouts s) (timer_regs s)
  v (timer_orders s) (timer_last_tick s) (timer_timeout s) (timer_unshot_timeout s) (timer_bh_awake s) (gpt s).
Definition set_orders (s : timer_state) v := MkTimers (timer_descs s) (timer_timeouts s) (timer_regs s)
  (timer_running_tid s) v (timer_last_tick s) (timer_timeout s) (timer_unshot_timeout s) (timer_bh_awake s) (gpt s).
Definition set_last_tick (s : timer_state) v := MkTimers (timer_descs s) (timer_timeouts s) (timer_regs s)
  (timer_running_tid s) (timer_orders s) v (timer_timeout s) (timer_unshot_timeout s) (timer_bh_awake s) (gpt s).
Definition set_timeout (s : timer_state) v := MkTimers (timer_descs s) (timer_timeouts s) (timer_regs s)
  (timer_running_tid s) (timer_orders s) (timer_last_tick s) v (timer_unshot_timeout s) (timer_bh_awake s) (gpt s).
Definition set_unshot (s : timer_state) v := MkTimers (timer_descs s) (timer_timeouts s) (timer_regs s)
  (timer_running_tid s) (timer_orders s) (timer_last_tick s) (timer_timeout s) v (timer_bh_awake s) (gpt s).
Definition set_bh_awake (s : timer_state) v := MkTimers (timer_descs s) (timer_timeouts s) (timer_regs s)
  (timer_running_tid s) (timer_orders s) (timer_last_tick s) (timer_timeout s) (timer_unshot_timeout s) v (gpt s).
Definition gpt_oneshot_timeout (s : timer_state) (v : Z) := MkTimers (timer_descs s) (timer_timeouts s) (timer_regs s)
  (timer_running_tid s) (timer_orders s) (timer_last_tick s) (timer_timeout s) (timer_unshot_timeout s) (timer_bh_awake s) (gpt s ++ [v]).

Section Timer.
(** CONFIG_MAX_TIMERS, the hardware timer's range and the registered handlers. *)
Context (NR_TIMERS : nat) (GPT_MAX_TIMEOUT : Z) (call : nat -> timer_state -> res timer_state).
Context {U : BitUnit}.

Definition INVALID_TID : Z := Z.of_nat NR_TIMERS.

Definition get_timeout (s : timer_state) (tid : Z) : res Z := oob (timer_timeouts s !! Z.to_nat tid).
Definition put_timeout (s : timer_state) (tid v : Z) : timer_state :=
  set_timeouts s (<[Z.to_nat tid := v]> (timer_timeouts s)).

(** ** The order queue *)
(** First loop of [__timer_del], [n] entries left: [None] is the early return. *)
Fixpoint del_find (orders : list Z) (tid : Z) (n : nat) (i : nat) : res (option nat) :=
  match n with
  | O => Ok (Some i)
  | S n =>
      o ← oob (orders !! i);
      if o =? INVALID_TID then Ok None
      else if o =? tid then Ok (Some i)
      else del_find orders tid n (S i)
  end.
(** Second loop: [n] is [NR_TIMERS - 1 - i]. *)
Fixpoint del_swap (orders : list Z) (n : nat) (i : nat) : res (list Z) :=
  match n with
  | O => Ok orders
  | S n =>
      o ← oob (orders !! i);
      orders ← (if negb (o =? INVALID_TID) then
                  swp ← oob (orders !! S i); Ok (<[i := swp]> (<[S i := o]> orders))
                else Ok orders);
      del_swap orders n (S i)
  end.
Definition del_orders (orders : list Z) (tid : Z) : res (list Z) :=
  r ← del_find orders tid NR_TIMERS 0;
  match r with
  | None => Ok orders
  | Some i =>
      let n := (NR_TIMERS - 1 - i)%nat in
      orders ← del_swap orders n i;
      Ok (<[(i + n)%nat := INVALID_TID]> orders)
  end.
Definition __timer_del (s : timer_state) (tid : Z) : res timer_state :=
  o ← del_orders (timer_orders s) tid; Ok (set_orders s o).

(** The loop of [__timer_add], looking at [timer_orders[j - 1]]; in C [i] is
    [NR_TIMERS - j]. *)
Fixpoint add_orders (s : timer_state) (tid : Z) (j : nat) (orders : list Z) : res (list Z) :=
  match j with
  | O =>
      o ← oob (orders !! 0%nat);
      _ ← bug_on (negb (o =? INVALID_TID));
      Ok (<[0%nat := tid]> orders)
  | S j' =>
      t ← oob (orders !! j');
      _ ← bug_on (t =? tid);
      if negb (t =? INVALID_TID) then
        _ ← bug_on (Nat.eqb (NR_TIMERS - j) 0);
        tt ← get_timeout s t;
        tn ← get_timeout s tid;
        if TIMER_TIME tn <? TIMER_TIME tt then
          add_orders s tid j' (<[j' := INVALID_TID]> (<[j := t]> orders))
        else Ok (<[j := tid]> orders)
      else add_orders s tid j' orders
  end.
Definition __timer_add (s : timer_state) (tid : Z) : res timer_state :=
  o ← add_orders s tid NR_TIMERS (timer_orders s); Ok (set_orders s o).

(** ** Running timers *)
Definition __timer_run (s : timer_state) (tid : Z) : res timer_state :=
  timer ← oob (timer_descs s !! Z.to_nat tid);
  match timer with
  | Some (MkDesc _ (Some h)) =>
      s ← __timer_del (set_running s tid) tid;
      s ← call h s;
      Ok (set_running s INVALID_TID)
  | _ => Fault FBug
  end.

(** [timer_descs[tid]] is read before [tid] is tested; the value is not used when
    [tid] is [INVALID_TID]. *)
Fixpoint timer_run_timeout (fuel : nat) (type : Z) (s : timer_state) : res timer_state :=
  match fuel with
  | O => Fault FHang
  | S fuel =>
      tid ← oob (timer_orders s !! 0%nat);
      if tid =? INVALID_TID then Ok s
      else
        tout ← get_timeout s tid;
        if negb (tout =? TIMER_IDLE) then Ok s
        else
          timer ← oob (timer_descs s !! Z.to_nat tid);
          timer ← oob timer;
          _ ← bug_on ((type =? TIMER_BH) && negb (t_type timer =? type));
          s ← (if t_type timer =? type then __timer_run s tid else Ok s);
          timer_run_timeout fuel type s
  end.

(** ** Registration; [smp_initialized] holds after boot. *)
Definition timer_register (s : timer_state) (timer : timer_desc) : res (Z * timer_state) :=
  tid ← find_first_clear_bit (timer_regs s) INVALID_TID;
  _ ← bug_on (tid =? INVALID_TID);
  let s := put_timeout (set_descs s (<[Z.to_nat tid := Some timer]> (timer_descs s))) tid TIMER_IDLE in
  regs ← __set_bit tid (timer_regs s);
  Ok (tid, set_running (set_regs s regs) tid).

Definition timer_unregister (s : timer_state) (tid : Z) : res timer_state :=
  _ ← bug_on (negb (tid =? timer_running_tid s));
  s ← __timer_del s tid;
  regs ← __clear_bit tid (timer_regs s);
  Ok (set_running (set_regs (set_descs s (<[Z.to_nat tid := None]> (timer_descs s))) regs) INVALID_TID).

(** ** The hardware timer *)
Definition timer_shot_timeout (s : timer_state) (to_shot : Z) : timer_state :=
  if to_shot <? GPT_MAX_TIMEOUT then
    gpt_oneshot_timeout (set_unshot s 0) (if to_shot =? 0 then 1 else to_shot)
  else gpt_oneshot_timeout (set_unshot s (s32 (to_shot - GPT_MAX_TIMEOUT))) (s32 GPT_MAX_TIMEOUT).

Definition timer_restart (s : timer_state) : timer_state :=
  if TIMER_SHOT (timer_timeout s) then timer_shot_timeout s (TIMER_TIME (timer_timeout s)) else s.

(** The loop of [__timer_recalc_timeout] over the first [n] orders. *)
Fixpoint recalc_loop (shot : bool) (span : Z) (n : nat) (orders : list Z) (s : timer_state) : res timer_state :=
  match n, orders with
  | S n, tid :: orders =>
      if tid =? INVALID_TID then Ok s
      else
        t ← get_timeout s tid;
        if TIMER_SHOT t then
          let tout := s32 (TIMER_TIME t - span) in
          let tout := if negb shot && (tout <=? 0) then 1 else tout in
          let s := put_timeout s tid (TIMER_MAKE tout) in
          if negb (TIMER_SHOT (timer_timeout s)) then
            recalc_loop shot span n orders (set_timeout s (TIMER_MAKE tout))
          else
            (* the comparison is inside TIMER_TIME(), whose value is 0 >> 1 or 1 >> 1 *)
            _ ← bug_on (negb (TIMER_TIME (Z.b2z (TIMER_MAKE tout <? TIMER_TIME (timer_timeout s))) =? 0));
            recalc_loop shot span n orders s
        else recalc_loop shot span n orders s
  | _, _ => Ok s
  end.

Definition recalc_span (shot : bool) (now : Z) (s : timer_state) : Z :=
  if shot then TIMER_TIME (timer_timeout s)
  else let span := s32 (u32 (now - timer_last_tick s)) in if span <? 0 then 0 else span.

Definition __timer_recalc_timeout (shot : bool) (now : Z) (s : timer_state) : res timer_state :=
  let span := recalc_span shot now s in
  recalc_loop shot span NR_TIMERS (timer_orders s) (set_timeout (set_last_tick s now) TIMER_IDLE).

Definition timer_recalc_timeout (shot : bool) (now : Z) (s : timer_state) : res timer_state :=
  s ← __timer_recalc_timeout shot now s; Ok (timer_restart s).

Definition timer_bh_timeout (fuel : nat) (now : Z) (s : timer_state) : res timer_state :=
  s ← timer_run_timeout fuel TIMER_BH s; timer_recalc_timeout true now s.

(** The loop of [timer_irq_timeout]: returns [run_irq] and [run_bh]. *)
Fixpoint irq_loop (tout : Z) (n : nat) (orders : list Z) (s : timer_state) (run_irq run_bh : bool)
    : res (timer_state * bool * bool) :=
  match n, orders with
  | S n, tid :: orders =>
      if tid =? INVALID_TID then Ok (s, run_irq, run_bh)
      else
        t ← get_timeout s tid;
        if TIMER_SHOT t then
          let tid_tout := TIMER_TIME t in
          if tid_tout <=? tout then
            timer ← oob (timer_descs s !! Z.to_nat tid);
            timer ← oob timer;
            let s := put_timeout s tid TIMER_IDLE in
            if negb (t_type timer =? TIMER_IRQ) then
              irq_loop tout n orders (set_bh_awake s true) run_irq true
            else irq_loop tout n orders s true run_bh
          else irq_loop tout n orders (put_timeout s tid (TIMER_MAKE (s32 (tid_tout - tout)))) run_irq run_bh
        else irq_loop tout n orders s run_irq run_bh
  | _, _ => Ok (s, run_irq, run_bh)
  end.

Definition timer_irq_timeout (fuel : nat) (now : Z) (s : timer_state) : res timer_state :=
  if negb (TIMER_SHOT (timer_timeout s)) then Ok s
  else
    let tout := TIMER_TIME (timer_timeout s) in
    '(s, run_irq, run_bh) ← irq_loop tout NR_TIMERS (timer_orders s) s false false;
    s ← (if negb run_bh then timer_recalc_timeout true now s else Ok s : res timer_state);
    if (run_irq : bool) then timer_run_timeout fuel TIMER_IRQ s else Ok s.

Definition tick_handler (fuel : nat) (now : Z) (s : timer_state) : res timer_state :=
  if negb (timer_unshot_timeout s =? 0) then Ok (timer_shot_timeout s (timer_unshot_timeout s))
  else timer_irq_timeout fuel now s.

Definition timer_schedule_shot (s : timer_state) (now tid tout_ms : Z) : res timer_state :=
  _ ← bug_on (MAX_TIMEOUT <? tout_ms);
  s ← __timer_del s tid;
  s ← __timer_recalc_timeout false now s;
  let tout_ms := if tout_ms <=? 0 then 1 else tout_ms in
  s ← __timer_add (put_timeout s tid (TIMER_MAKE tout_ms)) tid;
  t ← get_timeout s tid;
  let s := if negb (TIMER_SHOT (timer_timeout s)) || (tout_ms <? TIMER_TIME (timer_timeout s))
           then set_timeout s t else s in
  Ok (timer_restart s).

Definition BH_WAKEUP : Z := 0.
Definition timer_bh_handler (fuel : nat) (now event : Z) (s : timer_state) : res timer_state :=
  if event =? BH_WAKEUP then s ← timer_bh_timeout fuel now s; Ok (timer_restart s)
  else Ok s.

Definition timer_init (s : timer_state) : timer_state :=
  set_bh_awake (set_orders (set_timeout (set_running s INVALID_TID) TIMER_IDLE)
    (replicate (S NR_TIMERS) INVALID_TID)) true.

(** ** The queue as a list of timer ids *)
Definition orders_of (live : list Z) : list Z :=
  live ++ replicate (S NR_TIMERS - length live) INVALID_TID.
Definition live_ok (live : list Z) : Prop :=
  NoDup live /\ Forall (fun t => 0 <= t < INVALID_TID) live /\ (length live <= NR_TIMERS)%nat.

Lemma orders_of_pad live : (length live <= NR_TIMERS)%nat ->
  orders_of live = live ++ replicate (NR_TIMERS - length live) INVALID_TID ++ [INVALID_TID].
Proof.
  clear call.
  intros. unfold orders_of. replace (S NR_TIMERS - length live)%nat with ((NR_TIMERS - length live) + 1)%nat by lia.
  by rewrite replicate_add.
Qed.

Lemma del_find_skip a : forall pre rest tid n,
  Forall (fun o => o <> INVALID_TID /\ o <> tid) a -> (length a <= n)%nat ->
  del_find (pre ++ a ++ rest) tid n (length pre) =
    del_find (pre ++ a ++ rest) tid (n - length a) (length pre + length a).
Proof.
  clear call.
  induction a as [|o a IH]; intros pre rest tid n Ha Hn; cbn [length] in *.
  - by rewrite Nat.sub_0_r, Nat.add_0_r.
  - destruct n as [|n]; [lia|]. apply Forall_cons_1 in Ha as [[H1 H2] Ha]. cbn [del_find app].
    rewrite list_lookup_middle by done. cbn [oob mbind res_mbind].
    rewrite (proj2 (Z.eqb_neq _ _) H1), (proj2 (Z.eqb_neq _ _) H2).
    rewrite (cons_middle o pre), app_assoc. specialize (IH (pre ++ [o]) rest tid n Ha ltac:(lia)).
    rewrite length_app in IH. cbn [length] in IH. rewrite Nat.add_1_r in IH. rewrite IH. f_equal; lia.
Qed.

Lemma del_swap_ok rest : forall a t x, t <> INVALID_TID ->
  del_swap (a ++ t :: rest ++ x) (length rest) (length a) = Ok (a ++ rest ++ t :: x).
Proof.
  clear call.
  induction rest as [|o rest IH]; intros a t x Ht; [done|]. cbn [length del_swap app].
  rewrite (list_lookup_middle a _ t (length a)) by done. cbn [oob mbind res_mbind]. rewrite (proj2 (Z.eqb_neq _ _) Ht). cbn [negb].
  rewrite (cons_middle t a), app_assoc. rewrite (list_lookup_middle (a ++ [t])) by (rewrite length_app; cbn; lia).
  cbn [oob mbind res_mbind].
  replace (<[length a := o]> (<[S (length a) := t]> ((a ++ [t]) ++ o :: rest ++ x)))
    with ((a ++ [o]) ++ t :: rest ++ x).
  - specialize (IH (a ++ [o]) t x Ht). rewrite length_app, Nat.add_1_r in IH. rewrite IH. by rewrite <- app_assoc.
  - rewrite <- !app_assoc. cbn. rewrite !insert_app_r_alt by lia.
    replace (S (length a) - length a)%nat with 1%nat by lia. by rewrite Nat.sub_diag.
Qed.

Lemma insert_middle (l r : list Z) (x y : Z) n : n = length l -> <[n := x]> (l ++ y :: r) = l ++ x :: r.
Proof. intros ->. by rewrite insert_app_r_alt, Nat.sub_diag by lia. Qed.

Lemma filter_all {A} (P : A -> Prop) `{!forall x, Decision (P x)} (l : list A) : Forall P l -> filter P l = l.
Proof. induction 1; [done|]. rewrite filter_cons_True by done. by f_equal. Qed.
Lemma filter_none {A} (P : A -> Prop) `{!forall x, Decision (P x)} (l : list A) :
  Forall (fun x => ~ P x) l -> filter P l = [].
Proof. induction 1; [done|]. by rewrite filter_cons_False by done. Qed.

Lemma sorted_filter {A} (R : A -> A -> Prop) (P : A -> Prop) `{!forall x, Decision (P x)} (l : list A) :
  StronglySorted R l -> StronglySorted R (filter P l).
Proof.
  clear call.
  induction 1 as [|x l Hs IH Hx]; [constructor|]. destruct (decide (P x)).
  - rewrite filter_cons_True by done. constructor; [done|].
    apply Forall_forall. intros y [_ Hy]%list_elem_of_filter. rewrite Forall_forall in Hx. by apply Hx.
  - by rewrite filter_cons_False.
Qed.

Lemma filter_ext_elem {A} (P Q : A -> Prop) `{!forall x, Decision (P x), !forall x, Decision (Q x)} (l : list A) :
  (forall x, x ∈ l -> P x <-> Q x) -> filter P l = filter Q l.
Proof.
  clear call.
  induction l as [|x l IH]; intros HPQ; [done|]. assert (Hx := HPQ x ltac:(left)).
  assert (IH' : filter P l = filter Q l) by (apply IH; intros y Hy; apply HPQ; by right).
  destruct (decide (P x)); [rewrite !filter_cons_True by tauto|rewrite !filter_cons_False by tauto]; by rewrite IH'.
Qed.

Lemma filter_ne_id (tid : Z) (l : list Z) : tid ∉ l -> filter (fun t => t <> tid) l = l.
Proof.
  clear call.
  induction l as [|c l IH]; [done|]. intros [Hc Hl]%not_elem_of_cons.
  rewrite filter_cons_True by done. by rewrite IH.
Qed.

Lemma live_ne (a : list Z) tid : Forall (fun t => 0 <= t < INVALID_TID) a -> tid ∉ a ->
  Forall (fun o => o <> INVALID_TID /\ o <> tid) a.
Proof.
  clear call.
  intros Ha Hin. apply Forall_forall. intros o Ho. rewrite Forall_forall in Ha. specialize (Ha o Ho).
  split; [lia|]. intros ->. done.
Qed.

Lemma del_orders_ok live tid : live_ok live -> 0 <= tid < INVALID_TID ->
  del_orders (orders_of live) tid = Ok (orders_of (filter (fun t => t <> tid) live)).
Proof.
  clear call.
  intros (Hnd & Hr & Hlen) Ht. unfold del_orders.
  destruct (decide (tid ∈ live)) as [Hin|Hin].
  - apply list_elem_of_split in Hin as (a & b & ->). pose proof Hlen as Hlen'. rewrite length_app in Hlen'. cbn in Hlen'.
    apply NoDup_app in Hnd as (_ & Hab & Hnd). apply NoDup_cons in Hnd as [Hb _].
    assert (Ha : tid ∉ a) by (intros Hin; apply (Hab tid Hin); left).
    apply Forall_app in Hr as [Hra _].
    rewrite filter_app, filter_cons_False, !filter_ne_id by tauto. rewrite orders_of_pad, <- app_assoc by done.
    pose proof (del_find_skip a [] (tid :: b ++ replicate (NR_TIMERS - length (a ++ tid :: b)) INVALID_TID ++ [INVALID_TID])
      tid NR_TIMERS (live_ne a tid Hra Ha) ltac:(lia)) as E. cbn [app length Nat.add] in E. cbn [app]. rewrite E. clear E.
    destruct (NR_TIMERS - length a)%nat as [|n] eqn:En; [lia|]. cbn [del_find].
    rewrite list_lookup_middle by done. cbn [oob mbind res_mbind].
    rewrite (proj2 (Z.eqb_neq tid INVALID_TID)), Z.eqb_refl by lia. cbn [mbind res_mbind].
    set (pad := replicate (NR_TIMERS - length (a ++ tid :: b)) INVALID_TID).
    assert (Hp : length (b ++ pad) = (NR_TIMERS - 1 - length a)%nat).
    { unfold pad. rewrite !length_app, length_replicate, ?length_app. cbn. lia. }
    rewrite (app_assoc b), <- Hp, del_swap_ok by lia. cbn [mbind res_mbind]. f_equal.
    rewrite <- length_app. rewrite (app_assoc a (b ++ pad)), insert_middle by done.
    unfold orders_of, pad. rewrite <- !app_assoc. do 2 f_equal. rewrite !length_app. cbn [length].
    replace (S NR_TIMERS - (length a + length b))%nat with ((NR_TIMERS - (length a + S (length b))) + 2)%nat by lia.
    by rewrite replicate_add.
  - rewrite filter_ne_id by done. rewrite orders_of_pad by done.
    pose proof (del_find_skip live [] (replicate (NR_TIMERS - length live) INVALID_TID ++ [INVALID_TID]) tid NR_TIMERS
      (live_ne live tid Hr Hin) Hlen) as E. cbn [app length Nat.add] in E. rewrite E. clear E.
    destruct (NR_TIMERS - length live)%nat as [|n] eqn:En.
    + cbn [del_find mbind res_mbind]. replace (NR_TIMERS - 1 - length live)%nat with 0%nat by lia. cbn [del_swap mbind res_mbind].
      cbn [replicate app]. by rewrite insert_middle by lia.
    + cbn [del_find replicate app]. rewrite list_lookup_middle by done. cbn [oob mbind res_mbind]. by rewrite Z.eqb_refl.
Qed.

(** The due time of a timer, as the queue compares it. *)
Definition tmo (s : timer_state) (t : Z) : Z := default 0 (timer_timeouts s !! Z.to_nat t).
Definition due (s : timer_state) (t : Z) : Z := TIMER_TIME (tmo s t).

Lemma get_timeout_ok s t : length (timer_timeouts s) = NR_TIMERS -> 0 <= t < INVALID_TID ->
  get_timeout s t = Ok (tmo s t).
Proof.
  clear call.
  unfold INVALID_TID. intros Hl Ht. unfold get_timeout, tmo.
  by destruct (lookup_lt_is_Some_2 (timer_timeouts s) (Z.to_nat t)) as [x ->]; [lia|].
Qed.

(** Where [__timer_add] puts a timer: behind every timer due no later. *)
Definition place (s : timer_state) (tid : Z) (live : list Z) : list Z :=
  filter (fun t => due s t <= due s tid) live ++ tid :: filter (fun t => due s tid < due s t) live.

Lemma add_orders_skip s tid live m k : tid <> INVALID_TID -> (k <= m)%nat ->
  add_orders s tid (length live + k) (live ++ replicate m INVALID_TID) =
    add_orders s tid (length live) (live ++ replicate m INVALID_TID).
Proof.
  clear call.
  intros Ht. induction k as [|k IH]; intros Hk; [by rewrite Nat.add_0_r|].
  rewrite Nat.add_succ_r. cbn [add_orders].
  rewrite lookup_app_r, (lookup_replicate_2 _ _ (length live + k - length live)) by lia. cbn [oob mbind res_mbind].
  rewrite (proj2 (Z.eqb_neq INVALID_TID tid)), Z.eqb_refl by done. cbn. apply IH. lia.
Qed.

Lemma add_orders_place s tid p : forall b,
  length (timer_timeouts s) = NR_TIMERS -> 0 <= tid < INVALID_TID -> tid ∉ p ->
  Forall (fun t => 0 <= t < INVALID_TID) p -> StronglySorted (fun x y => due s x <= due s y) p ->
  (length p < NR_TIMERS)%nat ->
  add_orders s tid (length p) (p ++ INVALID_TID :: b) = Ok (place s tid p ++ b).
Proof.
  clear call.
  induction p as [|t p IH] using rev_ind; intros b Hlen Ht Hin Hr Hs Hn.
  - cbn. by rewrite Z.eqb_refl.
  - rewrite length_app, Nat.add_1_r in *. rewrite not_elem_of_app, list_elem_of_singleton in Hin.
    apply Forall_app in Hr as [Hr Hrt]. apply Forall_cons_1 in Hrt as [Hrt _].
    apply StronglySorted_app in Hs as (Hcross & Hs & _).
    cbn [add_orders]. rewrite <- app_assoc. cbn [app].
    rewrite (list_lookup_middle p _ t (length p)) by done. cbn [oob mbind res_mbind].
    rewrite (proj2 (Z.eqb_neq t tid)), (proj2 (Z.eqb_neq t INVALID_TID)) by naive_solver lia. cbn [bug_on negb mbind res_mbind].
    rewrite (proj2 (Nat.eqb_neq (NR_TIMERS - S (length p)) 0)) by lia. cbn [bug_on mbind res_mbind].
    rewrite !get_timeout_ok by done. cbn [mbind res_mbind]. fold (due s t) (due s tid).
    assert (Hcat : p ++ t :: INVALID_TID :: b = (p ++ [t]) ++ INVALID_TID :: b) by (by rewrite <- app_assoc).
    unfold place. rewrite !filter_app. destruct (Z.ltb_spec (due s tid) (due s t)) as [Hlt|Hge].
    + rewrite Hcat, insert_middle by (rewrite length_app; cbn; lia).
      rewrite <- app_assoc. cbn [app]. rewrite insert_middle by done. rewrite IH; [|naive_solver lia..]. unfold place.
      rewrite (filter_cons_False (fun t0 => due s t0 <= due s tid)), (filter_cons_True (fun t0 => due s tid < due s t0)) by lia.
      rewrite !filter_nil, app_nil_r. by rewrite <- !app_assoc; cbn; rewrite <- app_assoc.
    + rewrite Hcat, insert_middle by (rewrite length_app; cbn; lia).
      rewrite (filter_cons_True (fun t0 => due s t0 <= due s tid)), (filter_cons_False (fun t0 => due s tid < due s t0)) by lia.
      assert (Hle : Forall (fun x => due s x <= due s tid) p).
      { apply Forall_forall. intros x Hx. specialize (Hcross x t Hx ltac:(left)). cbn in Hcross. lia. }
      rewrite (filter_all (fun t0 => due s t0 <= due s tid)) by done.
      rewrite (filter_none (fun t0 => due s tid < due s t0)) by (eapply Forall_impl; [exact Hle|cbn; lia]).
      rewrite !filter_nil, app_nil_r. by rewrite <- !app_assoc.
Qed.

Lemma place_perm s tid live : place s tid live ≡ₚ tid :: live.
Proof.
  clear call.
  unfold place. rewrite <- Permutation_middle. f_equiv.
  induction live as [|t live IH]; [done|]. destruct (Z.le_gt_cases (due s t) (due s tid)).
  - rewrite filter_cons_True, filter_cons_False by lia. cbn. by f_equiv.
  - rewrite filter_cons_False, filter_cons_True by lia. rewrite <- Permutation_middle. by f_equiv.
Qed.

Lemma place_ok s tid live : live_ok live -> (length live < NR_TIMERS)%nat -> tid ∉ live ->
  0 <= tid < INVALID_TID -> live_ok (place s tid live).
Proof.
  clear call.
  intros (Hnd & Hr & Hl) Hlt Hin Ht. unfold live_ok. rewrite !place_perm. cbn [length].
  rewrite NoDup_cons, Forall_cons. repeat split; (done || lia).
Qed.

Lemma place_sorted s tid live : StronglySorted (fun x y => due s x <= due s y) live ->
  StronglySorted (fun x y => due s x <= due s y) (place s tid live).
Proof.
  clear call.
  intros Hs. unfold place. apply StronglySorted_app_2.
  - intros x y [Hx _]%list_elem_of_filter [->|[Hy _]%list_elem_of_filter]%elem_of_cons; lia.
  - by apply sorted_filter.
  - constructor; [by apply sorted_filter|].
    apply Forall_forall. intros x [Hx _]%list_elem_of_filter. lia.
Qed.

Lemma add_orders_ok s tid live :
  length (timer_timeouts s) = NR_TIMERS -> live_ok live -> (length live < NR_TIMERS)%nat ->
  0 <= tid < INVALID_TID -> tid ∉ live -> StronglySorted (fun x y => due s x <= due s y) live ->
  add_orders s tid NR_TIMERS (orders_of live) = Ok (orders_of (place s tid live)).
Proof.
  clear call.
  intros Hlen (Hnd & Hr & Hl) Hlt Ht Hin Hs. unfold orders_of.
  replace NR_TIMERS with (length live + (NR_TIMERS - length live))%nat at 1 by lia.
  rewrite add_orders_skip by lia. replace (S NR_TIMERS - length live)%nat with (S (NR_TIMERS - length live)) by lia.
  cbn [replicate]. rewrite add_orders_place by done. do 2 f_equal. f_equal.
  rewrite place_perm. cbn [length]. lia.
Qed.

(** ** The encoding *)
Lemma TIMER_MAKE_shot t : TIMER_SHOT (TIMER_MAKE t) = true.
Proof.
  clear call.
  unfold TIMER_SHOT, TIMER_MAKE, TIMER_FLAG_SHOT. set (x := s32 _).
  change 1 with (Z.ones 1) at 2. rewrite Z.land_ones by lia.
  assert (Z.testbit (1 ||| x) 0 = true) as Hb by (by rewrite Z.lor_spec).
  rewrite Z.bit0_odd in Hb. change (2 ^ 1) with 2. rewrite Zmod_odd, Hb. done.
Qed.

Lemma TIMER_TIME_MAKE t : - 2 ^ 30 <= t < 2 ^ 30 -> TIMER_TIME (TIMER_MAKE t) = t.
Proof.
  clear call.
  intros Ht. unfold TIMER_TIME, TIMER_MAKE, TIMER_FLAG_SHOT.
  rewrite Z.shiftl_mul_pow2, swrap_id by (cbn in *; lia). rewrite Z.shiftr_lor, (Z.shiftr_div_pow2 (t * 2 ^ 1)) by lia.
  rewrite Z.div_mul by done. done.
Qed.

(** ** Recalculation *)
Definition armed (s : timer_state) (t : Z) : Prop := TIMER_SHOT (tmo s t) = true.
#[local] Instance armed_dec s t : Decision (armed s t) := decide (TIMER_SHOT (tmo s t) = true).

Definition new_time (shot : bool) (span time : Z) : Z :=
  let tout := s32 (time - span) in if negb shot && (tout <=? 0) then 1 else tout.
Definition new_timeout (shot : bool) (span v : Z) : Z :=
  if TIMER_SHOT v then TIMER_MAKE (new_time shot span (TIMER_TIME v)) else v.

Definition recalc_step (shot : bool) (span : Z) (s : timer_state) (tid : Z) : timer_state :=
  if TIMER_SHOT (tmo s tid) then
    let v := new_timeout shot span (tmo s tid) in
    let s := put_timeout s tid v in
    if TIMER_SHOT (timer_timeout s) then s else set_timeout s v
  else s.

Lemma recalc_loop_fold shot span live : forall n k s,
  length (timer_timeouts s) = NR_TIMERS -> Forall (fun t => 0 <= t < INVALID_TID) live ->
  (length live <= n)%nat ->
  recalc_loop shot span n (live ++ replicate (S k) INVALID_TID) s = Ok (foldl (recalc_step shot span) s live).
Proof.
  clear call.
  induction live as [|t live IH]; intros n k s Hlen Hr Hn; cbn [length app] in *.
  - destruct n; cbn; [done|]. by rewrite Z.eqb_refl.
  - destruct n as [|n]; [lia|]. apply Forall_cons in Hr as [Ht Hr]. cbn [recalc_loop foldl].
    rewrite (proj2 (Z.eqb_neq t INVALID_TID)), get_timeout_ok by lia. cbn [mbind res_mbind].
    unfold recalc_step at 2, new_timeout, new_time. destruct (TIMER_SHOT (tmo s t)); [|by apply IH; [..|lia]].
    cbv zeta. set (v := TIMER_MAKE _). destruct (TIMER_SHOT (timer_timeout (put_timeout s t v))); cbn [negb].
    + replace (negb (TIMER_TIME (Z.b2z (v <? TIMER_TIME (timer_timeout (put_timeout s t v)))) =? 0)) with false
        by (by destruct (v <? _)).
      cbn [bug_on mbind res_mbind]. apply IH; [cbn; by rewrite length_insert|done|lia].
    + apply IH; [cbn; by rewrite length_insert|done|lia].
Qed.

Lemma tmo_put s t v t' : length (timer_timeouts s) = NR_TIMERS -> 0 <= t < INVALID_TID -> 0 <= t' < INVALID_TID ->
  tmo (put_timeout s t v) t' = if decide (t' = t) then v else tmo s t'.
Proof.
  clear call.
  intros Hl Ht Ht'. unfold tmo, put_timeout, INVALID_TID in *; cbn. destruct (decide (t' = t)) as [->|Hne].
  - rewrite list_lookup_insert_eq by lia. done.
  - rewrite list_lookup_insert_ne by lia. done.
Qed.

(** Fields [recalc_step] leaves alone. *)
Definition same_but_times (s s' : timer_state) : Prop :=
  timer_descs s' = timer_descs s /\ timer_regs s' = timer_regs s /\ timer_running_tid s' = timer_running_tid s /\
  timer_orders s' = timer_orders s /\ timer_last_tick s' = timer_last_tick s /\
  timer_unshot_timeout s' = timer_unshot_timeout s /\ timer_bh_awake s' = timer_bh_awake s /\ gpt s' = gpt s /\
  length (timer_timeouts s') = length (timer_timeouts s).

Lemma recalc_fold_spec shot span live : forall s,
  length (timer_timeouts s) = NR_TIMERS -> NoDup live -> Forall (fun t => 0 <= t < INVALID_TID) live ->
  let s' := foldl (recalc_step shot span) s live in
  same_but_times s s' /\
  (forall t, 0 <= t < INVALID_TID -> tmo s' t = if decide (t ∈ live) then new_timeout shot span (tmo s t) else tmo s t) /\
  timer_timeout s' = (if TIMER_SHOT (timer_timeout s) then timer_timeout s
                      else match filter (armed s) live with
                           | [] => timer_timeout s
                           | t :: _ => new_timeout shot span (tmo s t)
                           end).
Proof.
  clear call.
  induction live as [|t live IH]; intros s Hlen Hnd Hr s'; subst s'; cbn [foldl].
  - split; [done|]. split; [intros; by rewrite decide_False by apply not_elem_of_nil|]. cbn. by destruct (TIMER_SHOT _).
  - apply NoDup_cons in Hnd as [Hin Hnd]. apply Forall_cons in Hr as [Ht Hr].
    set (s1 := recalc_step shot span s t).
    assert (Hsame : same_but_times s s1).
    { unfold s1, recalc_step, same_but_times. destruct (TIMER_SHOT (tmo s t)); [|done].
      cbn. destruct (TIMER_SHOT _); cbn; rewrite length_insert; done. }
    assert (Hlen1 : length (timer_timeouts s1) = NR_TIMERS) by (destruct Hsame as (_ & _ & _ & _ & _ & _ & _ & _ & ->); done).
    assert (Htmo : forall t', 0 <= t' < INVALID_TID -> tmo s1 t' = if decide (t' = t) then new_timeout shot span (tmo s t) else tmo s t').
    { intros t' Ht'. unfold s1, recalc_step. destruct (TIMER_SHOT (tmo s t)) eqn:E.
      - cbv zeta. destruct (TIMER_SHOT (timer_timeout _)); [by apply tmo_put|].
        change (tmo (set_timeout ?x _) t') with (tmo x t'). by apply tmo_put.
      - destruct (decide (t' = t)) as [->|]; [|done]. unfold new_timeout. by rewrite E. }
    destruct (IH s1 Hlen1 Hnd Hr) as (Hs & Hv & Hto). split; [|split].
    + unfold same_but_times in *. naive_solver congruence.
    + intros t' Ht'. rewrite Hv by done. rewrite Htmo by done. destruct (decide (t' = t)) as [->|Hne].
      * rewrite decide_False by done. by rewrite decide_True by left.
      * destruct (decide (t' ∈ live)); [rewrite decide_True by (by right)|rewrite decide_False by (by rewrite elem_of_cons; tauto)]; done.
    + rewrite Hto.
      assert (Hfil : filter (armed s1) live = filter (armed s) live).
      { apply filter_ext_elem. intros t' Ht'. unfold armed. rewrite Htmo.
        - destruct (decide (t' = t)) as [->|]; done.
        - rewrite Forall_forall in Hr. by apply Hr. }
      rewrite Hfil. unfold s1, recalc_step. destruct (TIMER_SHOT (tmo s t)) eqn:E.
      * rewrite (filter_cons_True (armed s)) by done. cbn. destruct (TIMER_SHOT (timer_timeout s)) eqn:E2; cbn; [by rewrite E2|].
        unfold new_timeout at 1. by rewrite E, TIMER_MAKE_shot.
      * by rewrite (filter_cons_False (armed s)) by (unfold armed; congruence).
Qed.

(** ** The invariant of the queue

    Every queued timer is due (idle timeout) or armed with a time that fits the
    encoding; due timers come first and the armed ones follow by due time. *)
Definition before (s : timer_state) (x y : Z) : Prop := armed s x -> armed s y /\ due s x <= due s y.
Definition queued_ok (s : timer_state) (t : Z) : Prop :=
  tmo s t = TIMER_IDLE \/ (armed s t /\ - 2 ^ 30 <= due s t < 2 ^ 30).
Definition timer_wf (s : timer_state) (live : list Z) : Prop :=
  live_ok live /\ timer_orders s = orders_of live /\ length (timer_timeouts s) = NR_TIMERS /\
  Forall (queued_ok s) live /\ StronglySorted (before s) live.

Lemma live_room live tid : NoDup live -> Forall (fun t => 0 <= t < INVALID_TID) live -> tid ∉ live ->
  0 <= tid < INVALID_TID -> (length live < NR_TIMERS)%nat.
Proof.
  clear call.
  intros Hnd Hr Hin Ht. assert (Hsub : tid :: live ⊆+ map Z.of_nat (seq 0 NR_TIMERS)).
  { apply NoDup_submseteq; [by constructor|]. intros x Hx.
    assert (0 <= x < INVALID_TID) by (apply elem_of_cons in Hx as [->|Hx]; [done|by rewrite Forall_forall in Hr; apply Hr]).
    apply list_elem_of_fmap. exists (Z.to_nat x). unfold INVALID_TID in *. split; [lia|]. apply elem_of_seq. lia. }
  apply submseteq_length in Hsub. rewrite length_map, length_seq in Hsub. cbn in Hsub. lia.
Qed.

Lemma sorted_impl {A} (R R' : A -> A -> Prop) l :
  (forall x y, x ∈ l -> y ∈ l -> R x y -> R' x y) -> StronglySorted R l -> StronglySorted R' l.
Proof.
  clear call.
  induction l as [|x l IH]; intros HR Hs; [constructor|]. apply StronglySorted_inv in Hs as [Hs Hx].
  constructor; [apply IH; [|done]; intros y z Hy Hz; apply HR; by right|].
  rewrite Forall_forall in *. intros y Hy. apply HR; [left|by right|by apply Hx].
Qed.

Lemma s32_fits x : - 2 ^ 31 <= x < 2 ^ 31 -> s32 x = x.
Proof. intros. apply swrap_id; cbn; lia. Qed.

(** What the recalculation before scheduling does to a queue. *)
Lemma recalc_unshot_spec now s live :
  timer_wf s live -> let e := recalc_span false now s in e < 2 ^ 30 ->
  exists s', __timer_recalc_timeout false now s = Ok s' /\ timer_wf s' live /\
    timer_descs s' = timer_descs s /\ timer_regs s' = timer_regs s /\ gpt s' = gpt s /\
    (forall t, 0 <= t < INVALID_TID -> armed s' t <-> armed s t) /\
    (forall t, 0 <= t < INVALID_TID -> t ∉ live -> tmo s' t = tmo s t) /\
    (forall t, t ∈ live -> ~ armed s t -> tmo s' t = tmo s t) /\
    (forall t, t ∈ live -> armed s t -> due s' t = Z.max 1 (due s t - e)) /\
    StronglySorted (fun x y => due s' x <= due s' y) live /\
    timer_timeout s' = match filter (armed s') live with [] => TIMER_IDLE | t :: _ => tmo s' t end.
Proof.
  clear call.
  intros ((Hnd & Hr & Hll) & Ho & Hlen & Hq & Hs) e He.
  assert (He0 : 0 <= e) by (unfold e, recalc_span; destruct (Z.ltb_spec (s32 (u32 (now - timer_last_tick s))) 0); lia).
  unfold __timer_recalc_timeout. fold e. rewrite Ho. unfold orders_of.
  replace (S NR_TIMERS - length live)%nat with (S (NR_TIMERS - length live)) by lia.
  rewrite recalc_loop_fold; [|done|done|lia].
  set (s0 := set_timeout (set_last_tick s now) TIMER_IDLE).
  destruct (recalc_fold_spec false e live s0 Hlen Hnd Hr) as (Hsame & Hv & Hto).
  set (s' := foldl _ s0 live) in *. cbn [TIMER_SHOT TIMER_IDLE timer_timeout s0 set_timeout] in Hto.
  change (TIMER_SHOT (timer_timeout s0)) with false in Hto. cbn in Hto.
  change (tmo s0) with (tmo s) in *.
  assert (Hrange : forall t, t ∈ live -> 0 <= t < INVALID_TID) by (rewrite Forall_forall in Hr; auto).
  assert (Harm : forall t, 0 <= t < INVALID_TID -> armed s' t <-> armed s t).
  { intros t Ht. unfold armed. rewrite Hv by done. destruct (decide _); [|done]. unfold new_timeout.
    destruct (TIMER_SHOT (tmo s t)) eqn:E; [by rewrite TIMER_MAKE_shot|by rewrite E]. }
  assert (Hdue : forall t, t ∈ live -> armed s t -> due s' t = Z.max 1 (due s t - e)).
  { intros t Hin Ha. unfold due. rewrite Hv, decide_True by auto. unfold new_timeout. rewrite Ha.
    rewrite Forall_forall in Hq. destruct (Hq t Hin) as [E|[_ Hb]].
    { unfold armed in Ha. rewrite E in Ha. done. }
    unfold due in Hb. unfold new_time. rewrite s32_fits by lia. cbn [negb andb].
    destruct (Z.leb_spec (TIMER_TIME (tmo s t) - e) 0); rewrite TIMER_TIME_MAKE by lia; lia. }
  assert (Hidle : forall t, t ∈ live -> ~ armed s t -> tmo s' t = tmo s t).
  { intros t Hin Ha. rewrite Hv, decide_True by auto. unfold new_timeout, armed in *. by destruct (TIMER_SHOT (tmo s t)). }
  assert (Hidle0 : forall t, t ∈ live -> ~ armed s t -> due s' t = 0).
  { intros t Hin Ha. unfold due. rewrite Hidle by done. rewrite Forall_forall in Hq. by destruct (Hq t Hin) as [->|[? _]]. }
  destruct Hsame as (Hs1 & Hs2 & _ & Hs4 & _ & _ & _ & Hs8 & Hs9).
  exists s'. split; [done|]. split; [|split; [done|split; [done|split; [done|split; [done|split; [|split; [done|split; [done|split]]]]]]]].
  - split; [done|]. split; [by rewrite Hs4, <- Ho|]. split; [by rewrite Hs9|]. split.
    + rewrite Forall_forall in *. intros t Hin. unfold queued_ok. destruct (decide (armed s t)) as [Ha|Ha].
      * right. split; [by apply Harm; auto|]. rewrite Hdue by done. destruct (Hq t Hin) as [E|[_ Hb]]; [|lia].
        unfold armed in Ha. rewrite E in Ha. done.
      * left. rewrite Hidle by done. by destruct (Hq t Hin) as [->|[? _]].
    + eapply sorted_impl; [|exact Hs]. intros x y Hx Hy Hb Hax. apply Harm in Hax; [|auto].
      destruct (Hb Hax) as [Hay Hle]. split; [by apply Harm; auto|]. rewrite !Hdue by done. lia.
  - intros t Ht Hin. by rewrite Hv, decide_False.
  - eapply sorted_impl; [|exact Hs]. intros x y Hx Hy Hb. destruct (decide (armed s x)) as [Hax|Hax].
    + destruct (Hb Hax) as [Hay Hle]. rewrite !Hdue by done. lia.
    + rewrite (Hidle0 x) by done. destruct (decide (armed s y)) as [Hay|Hay]; [rewrite Hdue by done; lia|by rewrite Hidle0].
  - rewrite Hto. rewrite (filter_ext_elem (armed s') (armed s)) by (intros; apply Harm; auto).
    rewrite (filter_ext_elem (armed s0) (armed s)) by done. destruct (filter (armed s) live) as [|t l] eqn:Ef; [done|].
    rewrite Hv, decide_True; [done|..].
    + assert (t ∈ filter (armed s) live) as [_ ?]%list_elem_of_filter by (rewrite Ef; left). done.
    + apply Hrange. assert (t ∈ filter (armed s) live) as [_ ?]%list_elem_of_filter by (rewrite Ef; left). done.
Qed.

Lemma live_ok_filter live (P : Z -> Prop) `{!forall x, Decision (P x)} : live_ok live -> live_ok (filter P live).
Proof.
  clear call.
  intros (Hnd & Hr & Hl). split; [by apply NoDup_filter|]. split.
  - rewrite Forall_forall in *. intros t [_ Ht]%list_elem_of_filter. auto.
  - pose proof (length_filter P live). lia.
Qed.

Lemma del_wf s live tid : timer_wf s live -> 0 <= tid < INVALID_TID ->
  exists s', __timer_del s tid = Ok s' /\ s' = set_orders s (orders_of (filter (fun t => t <> tid) live)) /\
    timer_wf s' (filter (fun t => t <> tid) live).
Proof.
  clear call.
  intros (Hl & Ho & Hlen & Hq & Hs) Ht. unfold __timer_del. rewrite Ho, del_orders_ok by done. cbn [mbind res_mbind].
  eexists. split; [done|]. split; [done|]. split; [by apply live_ok_filter|]. split; [done|]. split; [done|]. split.
  - rewrite Forall_forall in *. intros t [_ Ht']%list_elem_of_filter. by apply Hq.
  - by apply sorted_filter.
Qed.

(** Arming a timer that is not queued and adding it to a queue ordered by due time. *)
Lemma add_wf s live tid tout : timer_wf s live -> 0 <= tid < INVALID_TID -> tid ∉ live ->
  1 <= tout < 2 ^ 30 -> StronglySorted (fun x y => due s x <= due s y) live ->
  (forall t, t ∈ live -> armed s t -> 1 <= due s t) ->
  exists s', let sp := put_timeout s tid (TIMER_MAKE tout) in
    __timer_add sp tid = Ok s' /\ s' = set_orders sp (orders_of (place sp tid live)) /\
    timer_wf s' (place sp tid live) /\ armed s' tid /\ due s' tid = tout /\
    (forall t, 0 <= t < INVALID_TID -> t <> tid -> tmo s' t = tmo s t).
Proof.
  clear call.
  intros ((Hnd & Hr & Hll) & Ho & Hlen & Hq & Hs) Ht Hin Htout Hdue Hpos.
  assert (Hrange : forall t, t ∈ live -> 0 <= t < INVALID_TID) by (rewrite Forall_forall in Hr; auto).
  set (sp := put_timeout s tid (TIMER_MAKE tout)).
  assert (Hlenp : length (timer_timeouts sp) = NR_TIMERS) by (cbn; by rewrite length_insert).
  assert (Hother : forall t, 0 <= t < INVALID_TID -> t <> tid -> tmo sp t = tmo s t).
  { intros t Ht' Hne. unfold sp. rewrite tmo_put by done. by rewrite decide_False. }
  assert (Hself : tmo sp tid = TIMER_MAKE tout) by (unfold sp; rewrite tmo_put by done; by rewrite decide_True).
  assert (Hne : forall t, t ∈ live -> t <> tid) by (intros t Ht' ->; done).
  assert (Hdt : due sp tid = tout) by (unfold due; rewrite Hself; apply TIMER_TIME_MAKE; lia).
  assert (Hat : armed sp tid) by (unfold armed; rewrite Hself; apply TIMER_MAKE_shot).
  assert (Hsp : StronglySorted (fun x y => due sp x <= due sp y) live).
  { eapply sorted_impl; [|exact Hdue]. intros x y Hx Hy. unfold due. rewrite !Hother by auto. done. }
  assert (Hroom := live_room live tid Hnd Hr Hin Ht).
  eexists. cbv zeta. split; [|split; [reflexivity|]].
  { unfold __timer_add. change (timer_orders sp) with (timer_orders s). rewrite Ho, add_orders_ok by (done || lia). done. }
  split; [|split; [exact Hat|split; [exact Hdt|exact Hother]]].
  assert (Hel : forall t, t ∈ place sp tid live <-> t = tid \/ t ∈ live) by (intros t; by rewrite place_perm, elem_of_cons).
  split; [by apply place_ok|]. split; [done|]. split; [done|]. split.
  - rewrite Forall_forall in *. intros t [->|Ht']%Hel; [right; split; [done|]; change (- 2 ^ 30 <= due sp tid < 2 ^ 30); lia|].
    change (queued_ok sp t). unfold queued_ok, armed, due. rewrite Hother by auto. exact (Hq t Ht').
  - assert (Hps := place_sorted sp tid live Hsp).
    eapply sorted_impl; [|exact Hps]. intros x y Hx%Hel Hy%Hel Hle Hax.
    change (armed sp y /\ due sp x <= due sp y). change (armed sp x) in Hax. split; [|exact Hle].
    destruct Hy as [->|Hy]; [done|]. unfold armed. rewrite Hother by auto.
    assert (1 <= due sp x).
    { destruct Hx as [->|Hx]; [lia|]. unfold due. rewrite Hother by auto. apply Hpos; [done|].
      unfold armed in Hax. by rewrite Hother in Hax by auto. }
    rewrite Forall_forall in Hq. destruct (Hq y Hy) as [E|[Ha _]]; [|done].
    assert (due sp y = 0) by (unfold due; rewrite Hother, E by auto; done). cbv beta in Hle. lia.
Qed.

(** The argument the hardware timer is programmed with, and what is left for later. *)
Lemma timer_restart_gpt s : TIMER_SHOT (timer_timeout s) = true -> 1 <= TIMER_TIME (timer_timeout s) < 2 ^ 31 -> 0 < GPT_MAX_TIMEOUT < 2 ^ 31 ->
  let d := TIMER_TIME (timer_timeout s) in
  timer_restart s = gpt_oneshot_timeout (set_unshot s (Z.max 0 (d - GPT_MAX_TIMEOUT))) (Z.min d GPT_MAX_TIMEOUT).
Proof.
  clear call.
  intros Hs Ht Hg d. unfold timer_restart. rewrite Hs. fold d. unfold timer_shot_timeout.
  destruct (Z.ltb_spec d GPT_MAX_TIMEOUT).
  - rewrite (proj2 (Z.eqb_neq d 0)) by lia. f_equal; [f_equal; lia|lia].
  - rewrite !s32_fits by lia. f_equal; [f_equal; lia|lia].
Qed.

(** The head of an ordered queue of armed timers has the least due time. *)
Lemma head_least s live t l : StronglySorted (before s) live -> filter (armed s) live = t :: l ->
  t ∈ live /\ armed s t /\ forall x, x ∈ live -> armed s x -> due s t <= due s x.
Proof.
  clear call.
  intros Hs Ef. apply (sorted_filter _ (armed s)) in Hs. rewrite Ef in Hs. apply StronglySorted_inv in Hs as [_ Hs].
  assert (t ∈ filter (armed s) live) as [Ha Hin]%list_elem_of_filter by (rewrite Ef; left).
  split; [done|]. split; [done|]. intros x Hx Hax.
  assert (Hxf : x ∈ t :: l) by (rewrite <- Ef; by apply list_elem_of_filter).
  apply elem_of_cons in Hxf as [->|Hxl]; [done|]. rewrite Forall_forall in Hs. by apply Hs.
Qed.

(** The timeout kept after a timer was armed is that of a timer with the least due time. *)
Lemma least_after_add s2 s3 live tid tout :
  StronglySorted (before s2) live ->
  timer_timeout s2 = match filter (armed s2) live with [] => TIMER_IDLE | t :: _ => tmo s2 t end ->
  (forall t, 0 <= t < INVALID_TID -> t <> tid -> tmo s3 t = tmo s2 t) ->
  (forall t, t ∈ live -> 0 <= t < INVALID_TID) -> tid ∉ live -> armed s3 tid -> due s3 tid = tout ->
  exists t0, (t0 = tid \/ t0 ∈ live) /\ armed s3 t0 /\
    (if negb (TIMER_SHOT (timer_timeout s2)) || (tout <? TIMER_TIME (timer_timeout s2)) then tmo s3 tid else timer_timeout s2) = tmo s3 t0 /\
    forall t, t = tid \/ t ∈ live -> armed s3 t -> due s3 t0 <= due s3 t.
Proof.
  clear call.
  intros Hs2 Hto Hother Hr1 Hin1 Hat Hdt.
  assert (Hdo : forall t, t ∈ live -> due s3 t = due s2 t /\ (armed s3 t <-> armed s2 t)).
  { intros t Hin. unfold due, armed. rewrite Hother by (naive_solver). done. }
  rewrite Hto. destruct (filter (armed s2) live) as [|t0 l] eqn:Ef.
  - exists tid. split; [by left|]. split; [done|]. split; [done|].
    intros t [->|Hin] Ha; [done|]. exfalso.
    assert (t ∈ filter (armed s2) live) by (apply list_elem_of_filter; split; [by apply Hdo|done]).
    rewrite Ef in *. by apply (not_elem_of_nil t).
  - destruct (head_least _ _ _ _ Hs2 Ef) as (Hin0 & Ha0 & Hle0).
    rewrite Ha0. cbn [negb orb]. fold (due s2 t0). destruct (Z.ltb_spec tout (due s2 t0)) as [Hlt|Hge].
    + exists tid. split; [by left|]. split; [done|]. split; [done|].
      intros t [->|Hin] Ha; [done|]. destruct (Hdo t Hin) as [-> Ha2]. specialize (Hle0 t Hin (proj1 Ha2 Ha)). lia.
    + exists t0. split; [by right|]. destruct (Hdo t0 Hin0) as [Hd0 Ha02]. split; [tauto|]. split.
      { symmetry. apply Hother; [auto|]. intros ->. done. }
      intros t [->|Hin] Ha; [rewrite Hd0; lia|]. destruct (Hdo t Hin) as [-> Ha2]. rewrite Hd0. apply Hle0; tauto.
Qed.

(** C28: Scheduling a timer for less than 2^30 ticks, less than 2^30 ticks after the last
    recalculation (from 2^30 on the time armed is negative: [timer_long_shot_negative]).
    On a well-formed queue [timer_schedule_shot] then returns: the timer is queued once, armed for [max 1 tout_ms], the other armed timers have the elapsed
    time taken off (but stay at least 1), timers already due are untouched, the queue is
    well-formed (due timers first, then by due time), [timer_timeout] is the least due
    time and the hardware timer is programmed with it, in steps of its range. *)
Theorem timer_schedule_shot_correct s live now tid tout :
  timer_wf s live -> 0 <= tid < INVALID_TID -> tout < 2 ^ 30 -> 0 < GPT_MAX_TIMEOUT < 2 ^ 31 ->
  let e := recalc_span false now s in e < 2 ^ 30 ->
  exists s' live', timer_schedule_shot s now tid tout = Ok s' /\ timer_wf s' live' /\
    live' ≡ₚ tid :: filter (fun t => t <> tid) live /\
    armed s' tid /\ due s' tid = Z.max 1 tout /\
    (forall t, t ∈ live -> t <> tid ->
       if decide (armed s t) then armed s' t /\ due s' t = Z.max 1 (due s t - e) else tmo s' t = tmo s t) /\
    (forall t, t ∈ live' -> armed s' t -> TIMER_TIME (timer_timeout s') <= due s' t) /\
    (exists t, t ∈ live' /\ armed s' t /\ timer_timeout s' = tmo s' t) /\
    gpt s' = gpt s ++ [Z.min (TIMER_TIME (timer_timeout s')) GPT_MAX_TIMEOUT] /\
    timer_unshot_timeout s' = Z.max 0 (TIMER_TIME (timer_timeout s') - GPT_MAX_TIMEOUT).
Proof.
  clear call.
  intros Hwf Ht Htout Hg e He. unfold timer_schedule_shot.
  rewrite (proj2 (Z.ltb_ge MAX_TIMEOUT tout)) by (unfold MAX_TIMEOUT; lia). cbn [bug_on mbind res_mbind].
  destruct (del_wf s live tid Hwf Ht) as (s1 & -> & E1 & Hwf1). set (live1 := filter (fun t => t <> tid) live) in *.
  cbn [mbind res_mbind].
  destruct (recalc_unshot_spec now s1 live1 Hwf1) as (s2 & -> & Hwf2 & _ & _ & Hgpt & Harm & Hout & Hidle & Hdue & Hsorted & Hto).
  { by rewrite E1. }
  subst s1. change (recalc_span false now (set_orders s ?o)) with e in Hdue.
  cbn [mbind res_mbind]. replace (if tout <=? 0 then 1 else tout) with (Z.max 1 tout) by (destruct (Z.leb_spec tout 0); lia).
  assert (Hin1 : tid ∉ live1) by (intros [? _]%list_elem_of_filter; done).
  assert (Hr1 : forall t, t ∈ live1 -> 0 <= t < INVALID_TID).
  { destruct Hwf1 as ((_ & Hr & _) & _). by rewrite Forall_forall in Hr. }
  assert (Hpos : forall t, t ∈ live1 -> armed s2 t -> 1 <= due s2 t).
  { intros t Hin Ha. rewrite Hdue; [lia|done|]. by apply Harm; auto. }
  destruct (add_wf s2 live1 tid (Z.max 1 tout) Hwf2 Ht Hin1 ltac:(lia) Hsorted Hpos) as (s3 & Hadd & E3 & Hwf3 & Hat & Hdt & Hother).
  rewrite Hadd. cbn [mbind res_mbind]. set (live' := place _ tid live1) in *.
  assert (Hlen3 : length (timer_timeouts s3) = NR_TIMERS) by (by destruct Hwf3 as (_ & _ & ? & _)).
  rewrite get_timeout_ok by done. cbn [mbind res_mbind].
  assert (Hgp3 : gpt s3 = gpt s /\ timer_timeout s3 = timer_timeout s2) by (rewrite E3; cbn; split; [exact Hgpt|done]).
  destruct Hgp3 as [Hg3 Hto3]. rewrite Hto3.
  assert (Hel : forall t, t ∈ live' <-> t = tid \/ t ∈ live1) by (intros t; unfold live'; by rewrite place_perm, elem_of_cons).
  destruct (least_after_add s2 s3 live1 tid (Z.max 1 tout)) as (t0 & Hin0 & Ha0 & Hval & Hle0);
    [by destruct Hwf2 as (_ & _ & _ & _ & ?)|done..|].
  setoid_rewrite <- Hel in Hin0. setoid_rewrite <- Hel in Hle0.
  set (s4 := if _ || _ then set_timeout s3 _ else s3).
  assert (Hs4 : s4 = set_timeout s3 (tmo s3 t0)).
  { unfold s4. destruct (_ || _); [by rewrite Hval|]. rewrite <- Hval, <- Hto3. by destruct s3. }
  clearbody s4. subst s4.
  assert (Hq0 : 1 <= due s3 t0 < 2 ^ 30).
  { destruct (proj1 (Hel t0) Hin0) as [->|Hin]; [lia|].
    assert (Hne : t0 <> tid) by (intros ->; done). unfold due, armed in *. rewrite Hother in Ha0 |- * by auto.
    destruct Hwf2 as (_ & _ & _ & Hq & _). rewrite Forall_forall in Hq. split; [by apply Hpos|].
    destruct (Hq t0 Hin) as [E|[_ [_ ?]]]; [by rewrite E in Ha0|done]. }
  rewrite timer_restart_gpt; [|exact Ha0|change (1 <= due s3 t0 < 2 ^ 31); lia|done].
  eexists _, live'. split; [reflexivity|].
  split; [exact Hwf3|]. split; [apply place_perm|]. split; [exact Hat|]. split; [exact Hdt|].
  split; [|split; [exact Hle0|split; [by exists t0|split; [by cbn; rewrite Hg3|done]]]].
  intros t Hin Hne. assert (Hin' : t ∈ live1) by (by apply list_elem_of_filter).
  change (if decide (armed s t) then armed s3 t /\ due s3 t = Z.max 1 (due s t - e) else tmo s3 t = tmo s t).
  assert (E : tmo s3 t = tmo s2 t) by (apply Hother; auto). destruct (decide (armed s t)) as [Ha|Ha].
  - split; [change (TIMER_SHOT (tmo s3 t) = true)|change (TIMER_TIME (tmo s3 t) = Z.max 1 (due s t - e))]; rewrite E.
    + apply Harm; auto.
    + by apply Hdue.
  - rewrite E. by apply Hidle.
Qed.

(** ** Running the due timers *)
(** Every due timer of the queue has a handler and the type that is being run. *)
Definition ready (type : Z) (s : timer_state) (live : list Z) : Prop :=
  forall t, t ∈ live -> ~ armed s t -> exists h, timer_descs s !! Z.to_nat t = Some (Some (MkDesc type (Some h))).

(** A handler may schedule, unschedule and re-arm timers; it leaves the queue
    well-formed, the registrations alone, and makes no timer due. *)
Definition handler_ok : Prop := forall h s live, timer_wf s live ->
  exists s' live', call h s = Ok s' /\ timer_wf s' live' /\ timer_descs s' = timer_descs s /\
    (forall t, t ∈ live' -> ~ armed s' t -> t ∈ live /\ ~ armed s t).

Lemma armed_not_idle s t : armed s t -> (tmo s t =? TIMER_IDLE) = false.
Proof. unfold armed. intros Ha. apply Z.eqb_neq. intros E. by rewrite E in Ha. Qed.

Lemma due_head_run s t l type : timer_wf s (t :: l) -> ready type s (t :: l) -> ~ armed s t -> handler_ok ->
  exists h s' live', timer_descs s !! Z.to_nat t = Some (Some (MkDesc type (Some h))) /\ __timer_run s t = Ok s' /\
    timer_wf s' live' /\ timer_descs s' = timer_descs s /\
    (forall x, x ∈ live' -> ~ armed s' x -> x ∈ l /\ ~ armed s x).
Proof.
  intros Hwf Hrdy Ha Hh. destruct (Hrdy t ltac:(left) Ha) as [h Hd].
  pose proof Hwf as ((Hnd & Hr & _) & _). apply NoDup_cons in Hnd as [Hin _]. apply Forall_cons in Hr as [Ht _].
  destruct (del_wf (set_running s t) (t :: l) t Hwf Ht) as (s1 & E1 & -> & Hwf1).
  rewrite filter_cons_False, filter_ne_id in * by tauto.
  destruct (Hh h _ l Hwf1) as (s2 & live' & E2 & Hwf2 & Hd2 & Hidle).
  exists h, (set_running s2 INVALID_TID), live'. split; [done|]. split.
  { unfold __timer_run. rewrite Hd. cbn [oob mbind res_mbind]. by rewrite E1; cbn [mbind res_mbind]; rewrite E2. }
  split; [exact Hwf2|]. split; [exact Hd2|]. exact Hidle.
Qed.

(** [timer_run_timeout] runs every due timer: as long as handlers keep the queue
    well-formed and make no timer due, the loop ends after at most one turn per queued
    timer and one more, no [BUG_ON] fires, and only armed timers are left in the queue. *)
Theorem timer_run_timeout_correct type s live fuel :
  timer_wf s live -> ready type s live -> handler_ok ->
  (length (filter (fun t => ~ armed s t) live) < fuel)%nat ->
  exists s' live', timer_run_timeout fuel type s = Ok s' /\ timer_wf s' live' /\
    Forall (armed s') live' /\ timer_descs s' = timer_descs s.
Proof.
  revert s live. induction fuel as [|fuel IH]; intros s live Hwf Hrdy Hh Hf; [lia|]. cbn [timer_run_timeout].
  pose proof Hwf as ((Hnd & Hr & Hl) & Ho & Hlen & Hq & Hs). rewrite Ho.
  destruct live as [|t l].
  { unfold orders_of. cbn. rewrite Z.eqb_refl. exists s, []. split; [done|]. split; [done|]. by split; [constructor|]. }
  cbn [orders_of app lookup list_lookup oob mbind res_mbind].
  apply Forall_cons in Hr as [Ht Hr]. rewrite (proj2 (Z.eqb_neq t INVALID_TID)), get_timeout_ok by lia. cbn [mbind res_mbind].
  destruct (decide (armed s t)) as [Ha|Ha].
  - rewrite armed_not_idle by done. cbn [negb]. exists s, (t :: l). split; [done|]. split; [done|]. split; [|done].
    apply StronglySorted_inv in Hs as [_ Hs]. constructor; [done|]. rewrite Forall_forall in *. intros x Hx. by apply Hs.
  - assert (Hid : tmo s t = TIMER_IDLE) by (apply Forall_cons in Hq as [[?|[? _]] _]; done).
    rewrite Hid. cbn [negb Z.eqb TIMER_IDLE].
    destruct (due_head_run s t l type Hwf Hrdy Ha Hh) as (h & s' & live' & Hd & Hrun & Hwf' & Hdesc & Hidle).
    rewrite Hd. cbn [oob mbind res_mbind t_type]. rewrite Z.eqb_refl, andb_false_r. cbn [bug_on mbind res_mbind].
    rewrite Hrun. cbn [mbind res_mbind].
    destruct (IH s' live' Hwf') as (s2 & l2 & -> & Hwf2 & Hall & Hd2).
    + intros x Hx Hna. destruct (Hidle x Hx Hna) as [Hxl Hxa]. rewrite Hdesc. apply Hrdy; [by right|done].
    + done.
    + rewrite filter_cons_True in Hf by done. cbn [length] in Hf.
      enough (length (filter (fun t => ~ armed s' t) live') <= length (filter (fun t => ~ armed s t) l))%nat by lia.
      apply submseteq_length, NoDup_submseteq.
      * apply NoDup_filter. by destruct Hwf' as ((? & _) & _).
      * intros x [Hxa Hx]%list_elem_of_filter. destruct (Hidle x Hx Hxa). by apply list_elem_of_filter.
    + exists s2, l2. rewrite Hd2. done.
Qed.

(** A due timer of another type at the head of the queue keeps the loop going for ever. *)
Lemma run_irq_stuck fuel s tid desc :
  timer_orders s !! 0%nat = Some tid -> 0 <= tid < INVALID_TID ->
  timer_timeouts s !! Z.to_nat tid = Some TIMER_IDLE ->
  timer_descs s !! Z.to_nat tid = Some (Some desc) -> t_type desc <> TIMER_IRQ ->
  timer_run_timeout fuel TIMER_IRQ s = Fault FHang.
Proof.
  intros H0 Ht Hto Hd Hty. induction fuel as [|fuel IH]; [done|]. cbn [timer_run_timeout].
  rewrite H0. cbn [oob mbind res_mbind]. rewrite (proj2 (Z.eqb_neq tid INVALID_TID)) by lia.
  unfold get_timeout. rewrite Hto. cbn [oob mbind res_mbind]. rewrite Hd. cbn.
  by rewrite (proj2 (Z.eqb_neq _ _) Hty).
Qed.
End Timer.

(** ** Four timers after boot *)
Definition timers_boot : timer_state :=
  timer_init 4 (MkTimers (replicate 4 None) (replicate 4 0) [0] 0 [] 0 0 0 false []).
Definition nop_handler (_ : nat) (s : timer_state) : res timer_state := Ok s.
#[local] Instance timers_unit : BitUnit := unit64.

(** [timer_test] (CONFIG_TIMER_TEST), with its [BUG_ON]s on the first three orders; all calls
    are made at tick [now]. *)
Definition expect_orders (s : timer_state) (a b c : Z) : res unit :=
  x ← oob (timer_orders s !! 0%nat); y ← oob (timer_orders s !! 1%nat); z ← oob (timer_orders s !! 2%nat);
  bug_on (negb ((x =? a) && (y =? b) && (z =? c))).

Definition timer_test (now : Z) (s : timer_state) : res timer_state :=
  let inv := INVALID_TID 4 in
  let shot s tid tout := timer_schedule_shot 4 10000 s now tid tout in
  '(tid_1, s) ← timer_register 4 s (MkDesc TIMER_IRQ (Some 0%nat));
  s ← shot s tid_1 20; _ ← expect_orders s tid_1 inv inv;
  '(tid_2, s) ← timer_register 4 s (MkDesc TIMER_BH (Some 0%nat));
  s ← shot s tid_2 30; _ ← expect_orders s tid_1 tid_2 inv;
  s ← shot s tid_2 10; _ ← expect_orders s tid_2 tid_1 inv;
  s ← shot s tid_2 30; _ ← expect_orders s tid_1 tid_2 inv;
  '(tid_3, s) ← timer_register 4 s (MkDesc TIMER_IRQ (Some 0%nat));
  s ← shot s tid_3 10; _ ← expect_orders s tid_3 tid_1 tid_2;
  s ← shot s tid_3 25; _ ← expect_orders s tid_1 tid_3 tid_2;
  s ← shot s tid_3 40; _ ← expect_orders s tid_1 tid_2 tid_3;
  s ← timer_unregister 4 (set_running s tid_1) tid_1; _ ← expect_orders s tid_2 tid_3 inv;
  s ← timer_unregister 4 (set_running s tid_2) tid_2; _ ← expect_orders s tid_3 inv inv;
  s ← timer_unregister 4 (set_running s tid_3) tid_3;
  b ← find_first_clear_bit (timer_regs s) 4; _ ← bug_on (negb (b =? 0));
  _ ← expect_orders s inv inv inv;
  Ok s.

(** The repository's own [timer_test] passes: none of its [BUG_ON]s on the order of the
    queue fires, and it leaves no timer registered or queued. *)
Theorem timer_test_passes :
  exists s, timer_test 0 timers_boot = Ok s /\ timer_regs s = [0] /\ timer_orders s = [4; 4; 4; 4; 4].
Proof. eexists. split; [vm_compute; reflexivity|]. split; reflexivity. Qed.

(** Two timers armed at tick 0. *)
Definition two_timers (type1 tout1 type2 tout2 : Z) : res (Z * Z * timer_state) :=
  '(a, s) ← timer_register 4 timers_boot (MkDesc type1 (Some 0%nat));
  s ← timer_schedule_shot 4 10000 s 0 a tout1;
  '(b, s) ← timer_register 4 s (MkDesc type2 (Some 0%nat));
  s ← timer_schedule_shot 4 10000 s 0 b tout2;
  Ok (a, b, s).

Definition timers_20_50 : timer_state :=
  match two_timers TIMER_IRQ 20 TIMER_IRQ 50 with Ok (_, _, s) => s | Fault _ => timers_boot end.

Lemma timers_20_50_wf : timer_wf 4 timers_20_50 [0; 1].
Proof.
  split; [|split; [vm_compute; reflexivity|split; [reflexivity|split]]].
  - split; [repeat constructor; (apply not_elem_of_cons || apply not_elem_of_nil || idtac); try done; split; [done|apply not_elem_of_nil]|].
    split; [repeat constructor; (lia || done)|cbn; lia].
  - constructor; [|constructor; [|constructor]]; right; (split; [vm_compute; reflexivity|vm_compute; split; (discriminate || reflexivity)]).
  - repeat constructor; (vm_compute; (reflexivity || discriminate)).
Qed.

Lemma timer_schedule_shot_correct_witness :
  exists s' live', timer_schedule_shot 4 10000 timers_20_50 15 2 30 = Ok s' /\ timer_wf 4 s' live' /\
    armed s' 2 /\ due s' 2 = 30.
Proof.
  destruct (timer_schedule_shot_correct 4 10000 timers_20_50 [0; 1] 15 2 30 timers_20_50_wf)
    as (s' & live' & H & Hw & _ & Ha & Hd & _).
  - unfold INVALID_TID. lia.
  - lia.
  - lia.
  - vm_compute. reflexivity.
  - exists s', live'. split; [exact H|]. split; [exact Hw|]. split; [exact Ha|exact Hd].
Defined.

Lemma TIMER_TIME_MAKE_long t : 2 ^ 30 <= t < 2 ^ 31 -> TIMER_TIME (TIMER_MAKE t) = t - 2 ^ 31.
Proof.
  intros Ht. rewrite <- (TIMER_TIME_MAKE (t - 2 ^ 31)) by lia. unfold TIMER_MAKE. do 2 f_equal.
  rewrite !Z.shiftl_mul_pow2 by lia. unfold swrap.
  replace ((t - 2 ^ 31) * 2 ^ 1 + 2 ^ (32 - 1)) with (t * 2 ^ 1 + 2 ^ (32 - 1) + (-1) * 2 ^ 32) by lia.
  by rewrite Z_mod_plus_full.
Qed.

(** Long times: every time from 2^30 to MAX_TIMEOUT passes the range check of
    [timer_schedule_shot] and is stored as a negative one.  A timer scheduled for 2^30 ticks
    is queued in front of the two that are due after 5 and 35. *)
Theorem timer_long_shot_negative :
  (forall t, 2 ^ 30 <= t <= MAX_TIMEOUT -> TIMER_TIME (TIMER_MAKE t) = t - 2 ^ 31) /\
  exists s, timer_schedule_shot 4 10000 timers_20_50 15 2 (2 ^ 30) = Ok s /\
    timer_orders s = [2; 0; 1; INVALID_TID 4; INVALID_TID 4] /\
    due s 2 = - 2 ^ 30 /\ due s 0 = 5 /\ due s 1 = 35.
Proof.
  split; [intros t Ht; apply TIMER_TIME_MAKE_long; unfold MAX_TIMEOUT in *; lia|].
  eexists. split; [vm_compute; reflexivity|]. repeat split.
Qed.

(** The same queue with its first timer due. *)
Definition timers_due : timer_state := put_timeout timers_20_50 0 TIMER_IDLE.

Lemma timers_due_wf : timer_wf 4 timers_due [0; 1].
Proof.
  destruct timers_20_50_wf as (Hl & _). split; [exact Hl|]. split; [vm_compute; reflexivity|]. split; [reflexivity|]. split.
  - constructor; [left; vm_compute; reflexivity|].
    constructor; [|constructor]; right; (split; [vm_compute; reflexivity|vm_compute; split; (discriminate || reflexivity)]).
  - constructor; [repeat constructor|]. constructor; [|constructor]. intros H. vm_compute in H. discriminate.
Qed.

Lemma timer_run_timeout_correct_witness :
  exists s' live', timer_run_timeout 4 nop_handler 3 TIMER_IRQ timers_due = Ok s' /\
    timer_wf 4 s' live' /\ Forall (armed s') live'.
Proof.
  destruct (timer_run_timeout_correct 4 nop_handler TIMER_IRQ timers_due [0; 1] 3 timers_due_wf)
    as (s' & live' & H & Hw & Ha & _).
  - intros t [->|[->|H]%elem_of_cons]%elem_of_cons _; [exists 0%nat; vm_compute; reflexivity..|].
    exfalso. exact (not_elem_of_nil _ H).
  - intros h s live Hwf. exists s, live. split; [reflexivity|]. split; [exact Hwf|]. split; [reflexivity|].
    intros t Hin Ha. split; [exact Hin|exact Ha].
  - vm_compute. lia.
  - exists s', live'. split; [exact H|]. split; [exact Hw|exact Ha].
Defined.

(** A due interrupt timer shortens the others twice.  Two TIMER_IRQ timers armed at tick
    0 for 20 and 50: when the hardware timer fires at tick 20, [timer_irq_timeout] takes 20
    off the second timer and [timer_recalc_timeout] then takes 20 off again, so it is armed
    for 10 more ticks and not for the 30 that are left. *)
Theorem timer_irq_span_twice :
  exists s, tick_handler 4 10000 nop_handler 8 20 timers_20_50 = Ok s /\
    timer_orders s !! 0%nat = Some 1 /\ due timers_20_50 1 = 50 /\ due s 1 = 10 /\ gpt s = gpt timers_20_50 ++ [10].
Proof. eexists. split; [vm_compute; reflexivity|]. repeat split. Qed.

(** Mixed due timers hang the interrupt handler.  A TIMER_BH and a TIMER_IRQ timer that
    are due at the same tick: [tick_handler] calls [timer_run_timeout(TIMER_IRQ)], whose loop
    neither runs the TIMER_BH timer at the head of the queue nor leaves it, whatever the
    number of turns. *)
Theorem timer_irq_bh_hang fuel :
  match two_timers TIMER_BH 10 TIMER_IRQ 10 with
  | Ok (_, _, s) => tick_handler 4 10000 nop_handler fuel 10 s = Fault FHang
  | Fault _ => False
  end.
Proof.
  destruct (two_timers TIMER_BH 10 TIMER_IRQ 10) as [[[a b] s]|f] eqn:E; [|vm_compute in E; discriminate].
  assert (s = match two_timers TIMER_BH 10 TIMER_IRQ 10 with Ok (_, _, s) => s | Fault _ => timers_boot end) as -> by (by rewrite E).
  clear E a b. unfold tick_handler. 
  set (s := match _ with Ok _ => _ | _ => _ end). vm_compute in s. subst s.
  unfold timer_irq_timeout. cbn [timer_unshot_timeout timer_timeout].
  change (negb (0 =? 0)) with false. cbn iota. 
  set (r := irq_loop _ _ _ _ _ _ _). vm_compute in r. subst r. cbn [mbind res_mbind negb].
  eapply run_irq_stuck; [reflexivity|split; [done|reflexivity]|reflexivity|reflexivity|done].
Qed.

(** The encoding of timeouts.  [TIMER_MAKE] and [TIMER_TIME] are inverse to each other for
    times below 2^30, and a made timeout always counts as armed; from 2^30 on, which the
    range check [tout_ms > MAX_TIMEOUT] of [timer_schedule_shot] lets through, the
    time read back is negative. *)
Theorem timer_encoding_roundtrip t :
  TIMER_SHOT (TIMER_MAKE t) = true /\
  (- 2 ^ 30 <= t < 2 ^ 30 -> TIMER_TIME (TIMER_MAKE t) = t) /\
  (2 ^ 30 <= t <= MAX_TIMEOUT -> TIMER_TIME (TIMER_MAKE t) = t - 2 ^ 31).
Proof.
  split; [apply TIMER_MAKE_shot|]. split; [apply TIMER_TIME_MAKE|]. unfold MAX_TIMEOUT. intros Ht.
  rewrite <- (TIMER_TIME_MAKE (t - 2 ^ 31)) by lia. unfold TIMER_TIME, TIMER_MAKE. do 2 f_equal.
  rewrite !Z.shiftl_mul_pow2 by lia. unfold swrap. change (2 ^ 1) with 2. change (2 ^ 31) with 2147483648. change (2 ^ (32 - 1)) with 2147483648.
  change (2 ^ 32) with 4294967296. f_equal. rewrite <- (Z_mod_plus_full ((t - 2147483648) * 2 + 2147483648) 1). f_equal. lia.
Qed.
