(* ===== verification/CString.v ===== *)
(** * CString: the C string library

    lib/string.c.  Memory is a list of bytes, a pointer an index into it; reads and writes
    outside are [FOob].  Functions that only read get the memory from their pointer on. *)
From S2P Require Import Prelude.
From stdpp Require Import list.
Local Open Scope Z_scope.
Local Open Scope c_scope.

Abbreviation mem := (list Z).

Definition rd (m : mem) (p : nat) : res Z := oob (m !! p).
Definition wr (m : mem) (p : nat) (b : Z) : res mem :=
  if decide (p < length m)%nat then Ok (<[p := b]> m) else Fault FOob.

(** ** Blocks *)
Fixpoint memset (m : mem) (xs : nat) (c : Z) (count : nat) : res mem :=
  match count with
  | O => Ok m
  | S count => m ← wr m xs (u8 c); memset m (S xs) c count
  end.

Fixpoint copy_up (m : mem) (tmp s : nat) (count : nat) : res mem :=
  match count with
  | O => Ok m
  | S count => b ← rd m s; m ← wr m tmp b; copy_up m (S tmp) (S s) count
  end.
(** [tmp] and [s] are the ends of the blocks. *)
Fixpoint copy_down (m : mem) (tmp s : nat) (count : nat) : res mem :=
  match count with
  | O => Ok m
  | S count => b ← rd m (s - 1); m ← wr m (tmp - 1) b; copy_down m (tmp - 1) (s - 1) count
  end.

Definition memcpy (m : mem) (dest src count : nat) : res mem := copy_up m dest src count.
Definition memmove (m : mem) (dest src count : nat) : res mem :=
  if (dest <=? src)%nat then copy_up m dest src count
  else copy_down m (dest + count) (src + count) count.

Fixpoint memcmp (cs ct : mem) (count : nat) : res Z :=
  match count with
  | O => Ok 0
  | S count =>
      a ← rd cs 0; b ← rd ct 0;
      if negb (a - b =? 0) then Ok (a - b) else memcmp (drop 1 cs) (drop 1 ct) count
  end.

(** The index [memchr] returns a pointer to; [None] is NULL. *)
Fixpoint memchr (s : mem) (c : Z) (n : nat) : res (option nat) :=
  match n with
  | O => Ok None
  | S n =>
      b ← rd s 0;
      if u8 c =? b then Ok (Some O)
      else r ← memchr (drop 1 s) c n; Ok (option_map S r)
  end.

(** ** Strings; each recursion consumes one byte of the memory behind the pointer. *)
Fixpoint strlen (s : mem) : res Z :=
  match s with
  | [] => Fault FOob
  | c :: s => if c =? 0 then Ok 0 else n ← strlen s; Ok (1 + n)
  end.
Definition text_strlen (s : mem) : res Z := strlen s.

Fixpoint strnlen (s : mem) (count : nat) : res Z :=
  match count with
  | O => Ok 0
  | S count =>
      match s with
      | [] => Fault FOob
      | c :: s => if c =? 0 then Ok 0 else n ← strnlen s count; Ok (1 + n)
      end
  end.

(** At most one byte per cell of the memory is copied. *)
Fixpoint strcpy_loop (fuel : nat) (m : mem) (dest src : nat) : res mem :=
  match fuel with
  | O => Fault FHang
  | S fuel =>
      b ← rd m src; m ← wr m dest b;
      if b =? 0 then Ok m else strcpy_loop fuel m (S dest) (S src)
  end.
Definition strcpy (m : mem) (dest src : nat) : res mem := strcpy_loop (S (length m)) m dest src.

Fixpoint strncpy (m : mem) (tmp src : nat) (count : nat) : res mem :=
  match count with
  | O => Ok m
  | S count =>
      b ← rd m src; m ← wr m tmp b;
      strncpy m (S tmp) (if b =? 0 then src else S src) count
  end.

Fixpoint strcmp (cs ct : mem) : res Z :=
  match cs, ct with
  | c1 :: cs, c2 :: ct =>
      if negb (c1 =? c2) then Ok (if c1 <? c2 then -1 else 1)
      else if c1 =? 0 then Ok 0
      else strcmp cs ct
  | _, _ => Fault FOob
  end.

Fixpoint strncmp (cs ct : mem) (count : nat) : res Z :=
  match count with
  | O => Ok 0
  | S count =>
      match cs, ct with
      | c1 :: cs, c2 :: ct =>
          if negb (c1 =? c2) then Ok (if c1 <? c2 then -1 else 1)
          else if c1 =? 0 then Ok 0
          else strncmp cs ct count
      | _, _ => Fault FOob
      end
  end.

Fixpoint strchr (s : mem) (c : Z) : res (option nat) :=
  match s with
  | [] => Fault FOob
  | b :: s =>
      if b =? u8 c then Ok (Some O)
      else if b =? 0 then Ok None
      else r ← strchr s c; Ok (option_map S r)
  end.

Fixpoint strrchr_loop (s : mem) (c : Z) (i : nat) (last : option nat) : res (option nat) :=
  match s with
  | [] => Fault FOob
  | b :: s =>
      let last := if b =? u8 c then Some i else last in
      if b =? 0 then Ok last else strrchr_loop s c (S i) last
  end.
Definition strrchr (s : mem) (c : Z) : res (option nat) := strrchr_loop s c 0 None.

(** ** Numbers *)
Definition ULONG_MAX : Z := 2 ^ 64 - 1.

(** The digit conversion of the loop: [None] leaves it. *)
Definition digit_value (c : Z) : option Z :=
  if (48 <=? c) && (c <=? 57) then Some (c - 48)
  else if (65 <=? c) && (c <=? 90) then Some (c - 55)
  else if (97 <=? c) && (c <=? 122) then Some (c - 87)
  else None.

Inductive conv : Type := NoConv | Conv | Overflow. (* any = 0, 1, -1 *)

(** The [for] loop at the character [c], with [s] the memory behind it and [n] the number
    of characters read before [c]. Returns [any], [acc] and the number of characters in
    front of the one that ended the loop. *)
Fixpoint strtoul_loop (base : Z) (any : conv) (acc : Z) (c : Z) (s : mem) (n : nat) : res (conv * Z * nat) :=
  let cutoff := ULONG_MAX / base in
  let cutlim := ULONG_MAX mod base in
  match digit_value c with
  | None => Ok (any, acc, n)
  | Some d =>
      if base <=? d then Ok (any, acc, n)
      else
        let '(any, acc) :=
          match any with
          | Overflow => (Overflow, acc)
          | _ => if (cutoff <? acc) || ((acc =? cutoff) && (cutlim <? d)) then (Overflow, acc)
                 else (Conv, u64 (acc * base + d))
          end in
        match s with
        | [] => Fault FOob
        | c :: s => strtoul_loop base any acc c s (S n)
        end
  end.

Definition isspace (c : Z) : bool := (c =? 32) || ((9 <=? c) && (c <=? 13)).
Fixpoint skip_space (s : mem) (n : nat) : res (Z * mem * nat) :=
  match s with
  | [] => Fault FOob
  | c :: s => if isspace c then skip_space s (S n) else Ok (c, s, n)
  end.

Definition is_xdigit (c : Z) : bool :=
  ((48 <=? c) && (c <=? 57)) || ((65 <=? c) && (c <=? 70)) || ((97 <=? c) && (c <=? 102)).

(** [errno] after the call. *)
Inductive errno : Type := ENone | ERANGE | EINVAL.

(** The result: the value, [*endptr - nptr], [errno].  [strtoull] is the same code with the
    limits computed by [div64u] and [mod64u]. *)
Definition strtoul (nptr : mem) (base : Z) : res (Z * nat * errno) :=
  '(c, s, n) ← skip_space nptr 0;
  '(neg, c, s, n) ←
    (if c =? 45 then c' ← rd s 0; Ok (true, c', drop 1 s, S n)
     else if c =? 43 then c' ← rd s 0; Ok (false, c', drop 1 s, S n)
     else Ok (false, c, s, n));
  '(c, s, n, base) ←
    (if ((base =? 0) || (base =? 16)) && (c =? 48) then
       x ← rd s 0;
       if (x =? 120) || (x =? 88) then
         d ← rd s 1;
         if is_xdigit d then Ok (d, drop 2 s, S (S n), 16) else Ok (c, s, n, base)
       else Ok (c, s, n, base)
     else Ok (c, s, n, base));
  let base := if base =? 0 then (if c =? 48 then 8 else 10) else base in
  if (base <? 2) || (36 <? base) then Ok (0, O, EINVAL)
  else
    '(any, acc, n) ← strtoul_loop base NoConv 0 c s n;
    Ok match any with
       | Overflow => (ULONG_MAX, n, ERANGE)
       | NoConv => (acc, O, EINVAL)
       | Conv => (if (neg : bool) then u64 (- acc) else acc, n, ENone)
       end.

(** ** Block operations *)
Lemma rd_ok m p : (p < length m)%nat -> exists b, m !! p = Some b /\ rd m p = Ok b.
Proof. intros [b Hb]%lookup_lt_is_Some_2. exists b. unfold rd. by rewrite Hb. Qed.

Lemma wr_ok m p b : (p < length m)%nat -> wr m p b = Ok (<[p := b]> m).
Proof. intros. unfold wr. by rewrite decide_True. Qed.

Lemma wr_app a x c b : wr (a ++ x :: b) (length a) c = Ok (a ++ c :: b).
Proof. rewrite wr_ok by (len). f_equal. rewrite insert_app_r_alt, Nat.sub_diag by lia. done. Qed.

(** [m'] is [m] with the [n] bytes at [d] replaced by those at [s]. *)
Definition moved (m m' : mem) (d s n : nat) : Prop :=
  length m' = length m /\
  forall i, m' !! i = if decide (d <= i < d + n)%nat then m !! (s + (i - d))%nat else m !! i.

Lemma copy_up_moved n : forall m d s,
  (d + n <= length m)%nat -> (s + n <= length m)%nat -> (d <= s \/ s + n <= d)%nat ->
  exists m', copy_up m d s n = Ok m' /\ moved m m' d s n.
Proof.
  induction n as [|n IH]; intros m d s Hd Hs Hov; cbn [copy_up].
  - exists m. split; [done|]. split; [done|]. intros i. by rewrite decide_False by lia.
  - destruct (rd_ok m s ltac:(lia)) as (b & Hb & ->). cbn [mbind res_mbind]. rewrite wr_ok by lia. cbn [mbind res_mbind].
    destruct (IH (<[d := b]> m) (S d) (S s)) as (m' & -> & Hl & Hm); [rewrite length_insert; lia..|lia|].
    exists m'. split; [done|]. rewrite length_insert in Hl. split; [done|]. intros i. rewrite Hm.
    destruct (decide (S d <= i < S d + n)%nat).
    + rewrite decide_True by lia. rewrite list_lookup_insert_ne by lia. f_equal. lia.
    + destruct (decide (i = d)) as [->|].
      * rewrite list_lookup_insert_eq, decide_True by lia. rewrite <- Hb. f_equal. lia.
      * rewrite list_lookup_insert_ne, decide_False by lia. done.
Qed.

Lemma copy_down_moved n : forall m d s,
  (d + n <= length m)%nat -> (s <= d)%nat ->
  exists m', copy_down m (d + n) (s + n) n = Ok m' /\ moved m m' d s n.
Proof.
  induction n as [|n IH]; intros m d s Hd Hs; cbn [copy_down].
  - exists m. split; [done|]. split; [done|]. intros i. by rewrite decide_False by lia.
  - replace (s + S n - 1)%nat with (s + n)%nat by lia. replace (d + S n - 1)%nat with (d + n)%nat by lia.
    destruct (rd_ok m (s + n) ltac:(lia)) as (b & Hb & ->). cbn [mbind res_mbind]. rewrite wr_ok by lia. cbn [mbind res_mbind].
    destruct (IH (<[(d + n)%nat := b]> m) d s) as (m' & -> & Hl & Hm); [rewrite length_insert; lia|lia|].
    exists m'. split; [done|]. rewrite length_insert in Hl. split; [done|]. intros i. rewrite Hm.
    destruct (decide (d <= i < d + n)%nat).
    + rewrite decide_True by lia. by rewrite list_lookup_insert_ne by lia.
    + destruct (decide (i = d + n)%nat) as [->|].
      * rewrite list_lookup_insert_eq, decide_True by lia. rewrite <- Hb. f_equal. lia.
      * rewrite list_lookup_insert_ne, decide_False by lia. done.
Qed.

(** [memmove] copies the bytes the source block had before the call, whatever the
    overlap of the blocks, and changes no other byte; [memcpy] does so when the destination
    does not start inside the source block. *)
Theorem memmove_correct m dest src n :
  (dest + n <= length m)%nat -> (src + n <= length m)%nat ->
  (exists m', memmove m dest src n = Ok m' /\ moved m m' dest src n) /\
  (dest <= src \/ src + n <= dest -> exists m', memcpy m dest src n = Ok m' /\ moved m m' dest src n)%nat.
Proof.
  intros Hd Hs. split.
  - unfold memmove. destruct (Nat.leb_spec dest src); [apply copy_up_moved; lia|apply copy_down_moved; lia].
  - apply copy_up_moved; lia.
Qed.

Lemma memmove_correct_witness :
  exists m', memmove [1; 2; 3; 4; 5; 6] 2 0 4 = Ok m' /\ moved [1; 2; 3; 4; 5; 6] m' 2 0 4.
Proof. refine (proj1 (memmove_correct [1; 2; 3; 4; 5; 6] 2 0 4 _ _)); cbn; lia. Defined.

(** ** Strings *)
(** A C string in memory: non-zero bytes, a zero byte, anything. *)
Definition nz (s : list Z) : Prop := Forall (fun c => c <> 0) s.

Lemma eqb0 c : c <> 0 -> (c =? 0) = false.
Proof. apply Z.eqb_neq. Qed.

(** The position of the first byte [c] of a list. *)
Fixpoint index_of (c : Z) (s : list Z) : option nat :=
  match s with [] => None | b :: s => if b =? c then Some O else option_map S (index_of c s) end.
Fixpoint last_index_of (c : Z) (s : list Z) : option nat :=
  match s with
  | [] => None
  | b :: s => match last_index_of c s with
              | Some i => Some (S i)
              | None => if b =? c then Some O else None
              end
  end.

Lemma strrchr_loop_ok c s rest : forall i last, nz s ->
  strrchr_loop (s ++ 0 :: rest) c i last =
    Ok match last_index_of (u8 c) (s ++ [0]) with Some k => Some (i + k)%nat | None => last end.
Proof.
  induction s as [|b s IH]; intros i last Hs; cbn [strrchr_loop app].
  - cbn [last_index_of app]. destruct (0 =? u8 c); [do 2 f_equal; lia|done].
  - apply Forall_cons in Hs as [Hb Hs]. rewrite eqb0, IH by done. f_equal. cbn [last_index_of app].
    destruct (last_index_of (u8 c) (s ++ [0])) as [k|]; [f_equal; lia|].
    destruct (b =? u8 c); [f_equal; lia|done].
Qed.

(** Scanning a string.  On a zero-terminated string [strlen] counts the bytes in front
    of the terminator, [strnlen] counts them up to its bound, [strchr] and [strrchr] find the
    first and the last occurrence of a byte (the terminator itself included), [memchr]
    the first among [n] bytes; none of them reads behind the terminator. *)
Theorem string_scan_correct s rest c n :
  nz s ->
  strlen (s ++ 0 :: rest) = Ok (Z.of_nat (length s)) /\
  strnlen (s ++ 0 :: rest) n = Ok (Z.of_nat (Nat.min n (length s))) /\
  strchr (s ++ 0 :: rest) c = Ok (index_of (u8 c) (s ++ [0])) /\
  strrchr (s ++ 0 :: rest) c = Ok (last_index_of (u8 c) (s ++ [0])) /\
  ((n <= length s)%nat -> memchr (s ++ 0 :: rest) c n = Ok (index_of (u8 c) (take n s))).
Proof.
  intros Hs. split; [|split; [|split; [|split]]].
  - induction s as [|b s IH]; [done|]. apply Forall_cons in Hs as [Hb Hs]. cbn [app strlen].
    rewrite eqb0, IH by done. cbn. f_equal. lia.
  - revert n. induction s as [|b s IH]; intros [|n]; [done..|]. apply Forall_cons in Hs as [Hb Hs]. cbn [app strnlen].
    rewrite eqb0, IH by done. cbn. f_equal. lia.
  - induction s as [|b s IH]; cbn [app strchr index_of].
    + by destruct (0 =? u8 c).
    + apply Forall_cons in Hs as [Hb Hs]. destruct (b =? u8 c); [done|]. by rewrite eqb0, IH by done.
  - unfold strrchr. rewrite strrchr_loop_ok by done. by destruct (last_index_of _ _).
  - revert s Hs. induction n as [|n IH]; intros [|b s] Hs Hn; cbn in Hn; [done|done|lia|].
    apply Forall_cons in Hs as [Hb Hs]. cbn [memchr take index_of app]. cbn [rd lookup list_lookup oob mbind res_mbind].
    rewrite Z.eqb_sym. destruct (b =? u8 c); [done|]. cbn [drop]. rewrite drop_0, IH by (done || lia). done.
Qed.

Lemma string_scan_correct_witness :
  strlen [104; 105; 0; 33] = Ok 2 /\ strchr [104; 105; 0; 33] 33 = Ok None.
Proof.
  destruct (string_scan_correct [104; 105] [33] 33 0) as (H1 & _ & H3 & _).
  - repeat constructor; lia.
  - split; [exact H1|exact H3].
Defined.

(** Lexicographic comparison of byte strings, with C's results. *)
Fixpoint lex (s t : list Z) : Z :=
  match s, t with
  | [], [] => 0
  | [], _ :: _ => -1
  | _ :: _, [] => 1
  | a :: s, b :: t => if a <? b then -1 else if b <? a then 1 else lex s t
  end.

Lemma lex_zero s : forall t, lex s t = 0 <-> s = t.
Proof.
  induction s as [|a s IH]; intros [|b t]; cbn; [done..|].
  destruct (Z.ltb_spec a b), (Z.ltb_spec b a); try (split; [lia|intros [= -> _]; lia]).
  rewrite IH. assert (a = b) as -> by lia. split; [by intros ->|by intros [= ->]].
Qed.

Lemma lex_antisym s : forall t, lex s t = - lex t s.
Proof.
  induction s as [|a s IH]; intros [|b t]; cbn; [done..|].
  destruct (Z.ltb_spec a b), (Z.ltb_spec b a); try lia. apply IH.
Qed.

Lemma strncmp_lex s t r1 r2 : nz s -> nz t -> Forall (fun c => 0 <= c) s -> Forall (fun c => 0 <= c) t -> forall n,
  strncmp (s ++ 0 :: r1) (t ++ 0 :: r2) n = Ok (lex (take n s) (take n t)).
Proof.
  revert t. induction s as [|a s IH]; intros [|b t] Hs Ht Hs0 Ht0 [|n]; try done; cbn [app strncmp take lex].
  - apply Forall_cons in Ht as [Hb _], Ht0 as [Hb0 _]. rewrite (proj2 (Z.eqb_neq 0 b)), (proj2 (Z.ltb_lt 0 b)) by lia. done.
  - apply Forall_cons in Hs as [Ha _], Hs0 as [Ha0 _]. rewrite (proj2 (Z.eqb_neq a 0)), (proj2 (Z.ltb_ge a 0)) by lia. done.
  - apply Forall_cons in Hs as [Ha Hs], Hs0 as [Ha0 Hs0], Ht as [Hb Ht], Ht0 as [Hb0 Ht0].
    destruct (Z.eqb_spec a b) as [->|Hne]; cbn [negb].
    + rewrite eqb0, Z.ltb_irrefl by done. by apply IH.
    + destruct (Z.ltb_spec a b), (Z.ltb_spec b a); (done || lia).
Qed.

Lemma strcmp_lex s t r1 r2 : nz s -> nz t -> Forall (fun c => 0 <= c) s -> Forall (fun c => 0 <= c) t ->
  strcmp (s ++ 0 :: r1) (t ++ 0 :: r2) = Ok (lex s t).
Proof.
  intros Hs Ht Hs0 Ht0.
  assert (E : forall cs ct k r, (length cs < k)%nat -> strncmp cs ct k = Ok r -> strcmp cs ct = Ok r).
  { induction cs as [|a cs IH]; intros [|b ct] [|k] r Hk; cbn [strncmp strcmp length] in *; try (done || lia).
    destruct (negb (a =? b)); [done|]. destruct (a =? 0); [done|]. apply IH. lia. }
  pose proof (strncmp_lex s t r1 r2 Hs Ht Hs0 Ht0 (S (length (s ++ 0 :: r1) + length t))) as H.
  rewrite (take_ge s), (take_ge t) in H by (rewrite ?length_app; lia). eapply E; [|exact H]. lia.
Qed.

(** Comparing strings.  [strcmp] and [strncmp] of zero-terminated strings are the
    lexicographic comparison of the strings (of their first [n] bytes): the result is 0
    exactly for equal strings, and swapping the arguments negates it. *)
Theorem strcmp_correct s t r1 r2 n :
  nz s -> nz t -> Forall (fun c => 0 <= c) s -> Forall (fun c => 0 <= c) t ->
  strcmp (s ++ 0 :: r1) (t ++ 0 :: r2) = Ok (lex s t) /\
  strncmp (s ++ 0 :: r1) (t ++ 0 :: r2) n = Ok (lex (take n s) (take n t)) /\
  (lex s t = 0 <-> s = t) /\ lex s t = - lex t s.
Proof.
  intros Hs Ht Hs0 Ht0. split; [by apply strcmp_lex|split; [by apply strncmp_lex|split; [apply lex_zero|apply lex_antisym]]].
Qed.

Lemma strcmp_correct_witness : strcmp [97; 98; 0] [97; 99; 0] = Ok (-1).
Proof. refine (proj1 (strcmp_correct [97; 98] [97; 99] [] [] 0 _ _ _ _)); repeat constructor; lia. Defined.

(** ** Numerals *)
Definition is_digit (base c : Z) : Prop := exists d, digit_value c = Some d /\ d < base.
Definition dv (c : Z) : Z := default 0 (digit_value c).
(** The number a numeral denotes, read behind [acc]. *)
Definition numeral (base acc : Z) (cs : list Z) : Z := foldl (fun a c => a * base + dv c) acc cs.

Lemma digit_value_bounds c d : digit_value c = Some d -> 0 <= d < 36 /\ 48 <= c <= 122.
Proof.
  unfold digit_value. intros H.
  destruct ((48 <=? c) && (c <=? 57)) eqn:E1; [|destruct ((65 <=? c) && (c <=? 90)) eqn:E2;
    [|destruct ((97 <=? c) && (c <=? 122)) eqn:E3; [|done]]];
    apply andb_prop in E1 || apply andb_prop in E2 || apply andb_prop in E3; injection H as <-; lia.
Qed.

Lemma numeral_mono base cs : forall acc, 2 <= base -> 0 <= acc -> Forall (is_digit base) cs -> acc <= numeral base acc cs.
Proof.
  induction cs as [|c cs IH]; intros acc Hb Ha Hc; cbn; [lia|].
  apply Forall_cons in Hc as [(d & Hd & _) Hc]. destruct (digit_value_bounds _ _ Hd) as [? _].
  unfold dv. rewrite Hd. cbn. etransitivity; [|apply (IH (acc * base + d)); [done|nia|done]]. nia.
Qed.

(** The loop's overflow test is exact. *)
Lemma cutoff_exact base acc d : 2 <= base -> 0 <= acc -> 0 <= d < base ->
  ((ULONG_MAX / base <? acc) || ((acc =? ULONG_MAX / base) && (ULONG_MAX mod base <? d)))%bool =
    (ULONG_MAX <? acc * base + d).
Proof.
  intros Hb Ha Hd. pose proof (Z.div_mod ULONG_MAX base ltac:(lia)) as E.
  pose proof (Z.mod_pos_bound ULONG_MAX base ltac:(lia)).
  set (q := ULONG_MAX / base) in *. set (r := ULONG_MAX mod base) in *. clearbody q r.
  destruct (Z.ltb_spec q acc), (Z.eqb_spec acc q), (Z.ltb_spec r d), (Z.ltb_spec ULONG_MAX (acc * base + d));
    cbn; try done; nia.
Qed.

Lemma loop_overflow base acc stop rest cs : forall n c s,
  c :: s = cs ++ stop :: rest -> Forall (is_digit base) cs -> ~ is_digit base stop ->
  strtoul_loop base Overflow acc c s n = Ok (Overflow, acc, (n + length cs)%nat).
Proof.
  assert (Hstop : forall any acc n s, ~ is_digit base stop -> strtoul_loop base any acc stop s n = Ok (any, acc, n)).
  { intros any a n [|c' s] Hns; cbn; (destruct (digit_value stop) as [d|] eqn:E; [|done]);
      (destruct (Z.leb_spec base d); [done|]); destruct Hns; by exists d. }
  induction cs as [|c0 cs IH]; intros n c s Hcs Hd Hs; cbn [app] in Hcs; injection Hcs as -> ->.
  - rewrite Hstop by done. by rewrite Nat.add_0_r.
  - apply Forall_cons in Hd as [(d & Hd & Hlt) Hds]. destruct (cs ++ stop :: rest) as [|c1 s1] eqn:E; [by destruct cs|].
    cbn [strtoul_loop]. rewrite Hd. destruct (Z.leb_spec base d); [lia|].
    rewrite (IH (S n) c1 s1) by (done || by rewrite E). do 2 f_equal. cbn. lia.
Qed.

Lemma strtoul_loop_ok base stop rest cs : 2 <= base <= 36 -> forall n any acc c s,
  c :: s = cs ++ stop :: rest -> Forall (is_digit base) cs -> ~ is_digit base stop ->
  any <> Overflow -> 0 <= acc <= ULONG_MAX ->
  exists a, strtoul_loop base any acc c s n =
    Ok ((if ULONG_MAX <? numeral base acc cs then Overflow else match cs with [] => any | _ => Conv end), a, (n + length cs)%nat) /\
    (numeral base acc cs <= ULONG_MAX -> a = numeral base acc cs).
Proof.
  intros Hb. induction cs as [|c0 cs IH]; intros n any acc c s Hcs Hd Hs Hany Hacc; cbn [app] in Hcs; injection Hcs as -> ->.
  - exists acc. cbn [numeral foldl length]. rewrite Nat.add_0_r, (proj2 (Z.ltb_ge ULONG_MAX acc)) by lia. split; [|done].
    destruct rest as [|c' s]; cbn; (destruct (digit_value stop) as [d|] eqn:E; [|done]);
      (destruct (Z.leb_spec base d); [done|]); destruct Hs; by exists d.
  - apply Forall_cons in Hd as [(d & Hd & Hlt) Hds]. destruct (digit_value_bounds _ _ Hd) as [Hd0 _].
    destruct (cs ++ stop :: rest) as [|c1 s1] eqn:E; [by destruct cs|].
    assert (Hn : numeral base acc (c0 :: cs) = numeral base (acc * base + d) cs) by (unfold numeral, dv; cbn; by rewrite Hd).
    rewrite Hn. cbn [strtoul_loop]. rewrite Hd. destruct (Z.leb_spec base d); [lia|].
    rewrite cutoff_exact by lia. pose proof (numeral_mono base cs (acc * base + d) ltac:(lia) ltac:(nia) Hds) as Hm.
    destruct (Z.ltb_spec ULONG_MAX (acc * base + d)).
    + rewrite (proj2 (Z.ltb_lt ULONG_MAX (numeral base (acc * base + d) cs))) by lia. exists acc. split; [|lia].
      destruct any; (done || (rewrite (loop_overflow base acc stop rest cs) by (done || by rewrite E); do 2 f_equal; cbn; lia)).
    + rewrite (wrap_id 64) by (unfold ULONG_MAX in *; nia).
      destruct (IH (S n) Conv (acc * base + d) c1 s1) as (a & Ha & Hv); [done..|unfold ULONG_MAX in *; nia|].
      exists a. split; [|done]. destruct any; [..|done]; rewrite Ha; do 2 f_equal; try (cbn; lia);
        destruct (ULONG_MAX <? _), cs; done.
Qed.

(** What [strtoul] returns for a numeral [cs] in [base] whose last digit is at offset [n]. *)
Definition strtoul_result (neg : bool) (base : Z) (cs : list Z) (n : nat) : Z * nat * errno :=
  if ULONG_MAX <? numeral base 0 cs then (ULONG_MAX, n, ERANGE)
  else (if neg then u64 (- numeral base 0 cs) else numeral base 0 cs, n, ENone).

Lemma skip_space_ok sp c s : Forall (fun x => isspace x = true) sp -> isspace c = false -> forall n,
  skip_space (sp ++ c :: s) n = Ok (c, s, (n + length sp)%nat).
Proof.
  intros Hsp Hc. induction sp as [|x sp IH]; intros n; cbn [app skip_space].
  - rewrite Hc. by rewrite Nat.add_0_r.
  - apply Forall_cons in Hsp as [Hx Hsp]. rewrite Hx, IH by done. do 2 f_equal. cbn. lia.
Qed.

Lemma digit_not_space base c : is_digit base c -> isspace c = false /\ c <> 45 /\ c <> 43.
Proof.
  intros (d & Hd & _). apply digit_value_bounds in Hd as [_ Hc]. unfold isspace.
  rewrite (proj2 (Z.eqb_neq c 32)), (proj2 (Z.leb_gt c 13)) by lia. rewrite andb_false_r. lia.
Qed.

Lemma strtoul_numeral sp sign cs stop rest base :
  Forall (fun x => isspace x = true) sp -> sign = [] \/ sign = [43] \/ sign = [45] -> cs <> [] ->
  let neg := bool_decide (sign = [45]) in
  (2 <= base <= 36 -> base <> 16 -> Forall (is_digit base) cs -> ~ is_digit base stop ->
   strtoul (sp ++ sign ++ cs ++ stop :: rest) base =
     Ok (strtoul_result neg base cs (length sp + length sign + length cs))) /\
  (base = 0 \/ base = 16 -> Forall (is_digit 16) cs -> ~ is_digit 16 stop ->
   strtoul (sp ++ sign ++ 48 :: 120 :: cs ++ stop :: rest) base =
     Ok (strtoul_result neg 16 cs (length sp + length sign + 2 + length cs))).
Proof.
  intros Hsp Hsign Hne neg. destruct cs as [|c0 cs']; [done|]. set (cs := c0 :: cs') in *.
  assert (Hsgn : forall c s, isspace c = false -> c <> 45 -> c <> 43 -> exists c1 s1,
    sp ++ sign ++ c :: s = sp ++ c1 :: s1 /\ isspace c1 = false /\
    (if c1 =? 45 then c' ← rd s1 0; Ok (true, c', drop 1 s1, S (length sp))
     else if c1 =? 43 then c' ← rd s1 0; Ok (false, c', drop 1 s1, S (length sp))
     else Ok (false, c1, s1, length sp)) = Ok (neg, c, s, (length sp + length sign)%nat)).
  { intros c s Hc H45 H43. destruct Hsign as [->|[->| ->]].
    - exists c, s. split; [done|]. split; [done|].
      rewrite (proj2 (Z.eqb_neq c 45)), (proj2 (Z.eqb_neq c 43)) by done. cbn. by rewrite Nat.add_0_r.
    - exists 43, (c :: s). split; [done|]. split; [done|]. cbn. by rewrite Nat.add_1_r.
    - exists 45, (c :: s). split; [done|]. split; [done|]. cbn. by rewrite Nat.add_1_r. }
  assert (Hfin : forall b n, 2 <= b <= 36 -> Forall (is_digit b) cs -> ~ is_digit b stop ->
    ('(any, acc, n) ← strtoul_loop b NoConv 0 c0 (cs' ++ stop :: rest) n;
     Ok match any with Overflow => (ULONG_MAX, n, ERANGE) | NoConv => (acc, O, EINVAL)
        | Conv => (if (neg : bool) then u64 (- acc) else acc, n, ENone) end) =
      Ok (strtoul_result neg b cs (n + length cs))).
  { intros b n Hb Hd Hs. destruct (strtoul_loop_ok b stop rest cs Hb n NoConv 0 c0 (cs' ++ stop :: rest)) as (a & -> & Hv);
      [done..|unfold ULONG_MAX; lia|].
    cbn [mbind res_mbind]. unfold strtoul_result. destruct (Z.ltb_spec ULONG_MAX (numeral b 0 cs)); [done|].
    cbn [cs]. by rewrite Hv. }
  split.
  - intros Hb H16 Hd Hs. assert (Hc0 := Hd). apply Forall_cons in Hc0 as [Hc0 _].
    destruct (digit_not_space _ _ Hc0) as (Hns & H45 & H43).
    destruct (Hsgn c0 (cs' ++ stop :: rest) Hns H45 H43) as (c1 & s1 & E & Hc1 & Hstep).
    unfold strtoul. cbn [cs app]. rewrite E, skip_space_ok by done. cbn [mbind res_mbind]. rewrite Nat.add_0_l, Hstep.
    cbn [mbind res_mbind]. rewrite (proj2 (Z.eqb_neq base 0)), (proj2 (Z.eqb_neq base 16)) by lia. cbn [orb andb mbind res_mbind].
    rewrite (proj2 (Z.eqb_neq base 0)), (proj2 (Z.ltb_ge base 2)), (proj2 (Z.ltb_ge 36 base)) by lia. cbn [orb].
    by apply Hfin.
  - intros Hb Hd Hs. destruct (Hsgn 48 (120 :: cs ++ stop :: rest)) as (c1 & s1 & E & Hc1 & Hstep); [done..|].
    assert (Hx : is_xdigit c0 = true).
    { apply Forall_cons in Hd as [(d & Hd & Hlt) _]. unfold digit_value, is_xdigit in *.
      destruct ((48 <=? c0) && (c0 <=? 57)); [done|].
      destruct ((65 <=? c0) && (c0 <=? 90)) eqn:E2.
      - injection Hd as <-. apply andb_prop in E2 as [-> _]. rewrite (proj2 (Z.leb_le c0 70)) by lia. done.
      - destruct ((97 <=? c0) && (c0 <=? 122)) eqn:E3; [|done]. injection Hd as <-. apply andb_prop in E3 as [-> _].
        rewrite (proj2 (Z.leb_le c0 102)) by lia. by rewrite orb_true_r. }
    unfold strtoul. rewrite E, skip_space_ok by done. cbn [mbind res_mbind]. rewrite Nat.add_0_l, Hstep. cbn [mbind res_mbind].
    replace ((base =? 0) || (base =? 16))%bool with true by (destruct Hb as [->| ->]; done). cbn [andb Z.eqb].
    change (48 =? 48) with true. cbn [rd lookup list_lookup oob mbind res_mbind cs app]. change (120 =? 120) with true. cbn [orb].
    rewrite Hx. cbn [mbind res_mbind drop]. rewrite drop_0. change (16 =? 0) with false. cbn [orb Z.ltb Z.compare].
    change ((16 <? 2) || (36 <? 16))%bool with false. cbn iota. etransitivity; [apply (Hfin 16); (done || lia)|]. do 2 f_equal. lia.
Qed.

(** [strtoul] reads numerals.  Behind white space and an optional sign, a non-empty
    digit string in an explicit base from 2 to 36 (other than 16), ended by a character that
    is no digit of the base, gives its value (negated modulo 2^64 behind a minus sign),
    the offset behind the last digit and no error, or, exactly when the value exceeds
    [ULONG_MAX], [ULONG_MAX] and ERANGE.  The same holds for [0x] numerals in base 0 or 16. *)
Theorem strtoul_correct sp sign cs stop rest base :
  Forall (fun x => isspace x = true) sp -> sign = [] \/ sign = [43] \/ sign = [45] -> cs <> [] ->
  let neg := bool_decide (sign = [45]) in
  (2 <= base <= 36 -> base <> 16 -> Forall (is_digit base) cs -> ~ is_digit base stop ->
   strtoul (sp ++ sign ++ cs ++ stop :: rest) base =
     Ok (strtoul_result neg base cs (length sp + length sign + length cs))) /\
  (base = 0 \/ base = 16 -> Forall (is_digit 16) cs -> ~ is_digit 16 stop ->
   strtoul (sp ++ sign ++ 48 :: 120 :: cs ++ stop :: rest) base =
     Ok (strtoul_result neg 16 cs (length sp + length sign + 2 + length cs))).
Proof. apply strtoul_numeral. Qed.

Lemma strtoul_correct_witness :
  strtoul [32; 45; 49; 50; 0] 10 = Ok (2 ^ 64 - 12, 4%nat, ENone).
Proof.
  refine (proj1 (strtoul_correct [32] [45] [49; 50] 0 [] 10 _ _ _) _ _ _ _).
  - repeat constructor.
  - right. right. reflexivity.
  - discriminate.
  - lia.
  - lia.
  - repeat constructor; eexists; (split; [reflexivity|lia]).
  - intros (d & Hd & _). discriminate.
Defined.

(** [s] is the string stored at [p]. *)
Definition string_at (m : mem) (p : nat) (s : list Z) : Prop :=
  nz s /\ forall i, (i <= length s)%nat -> m !! (p + i)%nat = (s ++ [0]) !! i.

Lemma copy_up_S m d p n : copy_up m d p (S n) = (b ← rd m p; m ← wr m d b; copy_up m (S d) (S p) n).
Proof. done. Qed.

Lemma strcpy_loop_copy s : forall fuel m d p,
  string_at m p s -> (d + length s < length m)%nat -> (d <= p \/ p + length s < d)%nat -> (length s < fuel)%nat ->
  strcpy_loop fuel m d p = copy_up m d p (S (length s)).
Proof.
  induction s as [|c s IH]; intros fuel m d p [Hnz Hs] Hd Hov Hf; (destruct fuel as [|fuel]; [lia|]); cbn [length] in *.
  - specialize (Hs 0%nat ltac:(lia)). rewrite Nat.add_0_r in Hs. cbn in *. unfold rd. rewrite Hs. cbn. by rewrite wr_ok by lia.
  - apply Forall_cons in Hnz as [Hc Hnz]. pose proof (Hs 0%nat ltac:(lia)) as H0. rewrite Nat.add_0_r in H0. cbn in H0.
    rewrite copy_up_S. cbn [strcpy_loop]. unfold rd. rewrite H0. cbn [oob mbind res_mbind]. rewrite wr_ok by lia. cbn [mbind res_mbind].
    rewrite eqb0 by done. apply IH; [|rewrite length_insert; lia|lia|lia]. split; [done|].
    intros i Hi. rewrite list_lookup_insert_ne by lia.
    replace (S p + i)%nat with (p + S i)%nat by lia. by apply (Hs (S i) ltac:(lia)).
Qed.

(** [strcpy] copies a string and its terminator, byte for byte, when the destination
    does not start inside it, and nothing else; [memset] fills exactly its block with the
    low byte of its argument. *)
Theorem strcpy_memset_correct m dest src s c n :
  string_at m src s -> (dest + length s < length m)%nat -> (src + length s < length m)%nat ->
  (dest <= src \/ src + length s < dest)%nat -> (dest + n <= length m)%nat ->
  (exists m', strcpy m dest src = Ok m' /\ moved m m' dest src (S (length s))) /\
  memset m dest c n = Ok (take dest m ++ replicate n (u8 c) ++ drop (dest + n) m).
Proof.
  intros Hs Hd Hsr Hov Hn. split.
  - unfold strcpy. rewrite (strcpy_loop_copy s) by (done || lia). apply copy_up_moved; lia.
  - clear Hs Hd Hsr Hov. revert m dest Hn. induction n as [|n IH]; intros m d Hn; cbn [memset replicate app].
    + by rewrite Nat.add_0_r, take_drop.
    + rewrite wr_ok by lia. cbn [mbind res_mbind]. rewrite IH by (rewrite length_insert; lia). f_equal.
      rewrite drop_insert_lt by lia. rewrite <- Nat.add_succ_comm. rewrite (take_S_r _ d (u8 c)) by (apply list_lookup_insert_eq; lia).
      rewrite take_insert_ge, <- app_assoc by lia. done.
Qed.

Lemma strcpy_memset_correct_witness :
  exists m', strcpy [104; 105; 0; 9; 9; 9] 3 0 = Ok m' /\ moved [104; 105; 0; 9; 9; 9] m' 3 0 3.
Proof.
  refine (proj1 (strcpy_memset_correct [104; 105; 0; 9; 9; 9] 3 0 [104; 105] 0 0 _ _ _ _ _)).
  - split; [repeat constructor; lia|]. intros [|[|[|i]]] Hi; [reflexivity..|]. cbn in Hi. lia.
  - cbn. lia.
  - cbn. lia.
  - cbn. lia.
  - cbn. lia.
Defined.
