(* ===== verification/Crc.v ===== *)
(** * Crc: cyclic redundancy checks

    lib/crc16_ccitt.c: the 16-bit register the smart-card T=1 protocol runs over its blocks,
    one bit at a time.  lib/crc32_table.c with [crc32_le_byte] (target/crc32_table.h) and
    [efi_crc32] (kernel/uefi/uefi_dxe.c): the table-driven CRC-32. *)
From S2P Require Import Prelude.
From stdpp Require Import list.
Local Open Scope Z_scope.
Local Open Scope c_scope.

(** ** CRC-16-CCITT *)
Definition CRC_CCITT_POLY_LSB : Z := 0x8408.
Definition CRC_CCITT_POLY_MSB : Z := 0x1021.
Definition crc_ccitt_poly (msb : bool) : Z := if msb then CRC_CCITT_POLY_MSB else CRC_CCITT_POLY_LSB.
Definition crc_ccitt_init : Z := 0xFFFF.

(** One turn of the loop with the data bit [b]. *)
Definition crc_step (poly reg : Z) (b : bool) : Z :=
  let odd := xorb (Z.testbit reg 0) b in
  if odd then (reg >>> 1) ^^^ poly else reg >>> 1.
Definition byte_bits (byte : Z) : list bool := map (fun j => Z.testbit byte (Z.of_nat j)) (seq 0 8).
Definition crc_ccitt_update (reg byte : Z) (msb : bool) : Z :=
  foldl (crc_step (crc_ccitt_poly msb)) reg (byte_bits byte).
Definition crc_ccitt_final (reg : Z) : Z := u16 (Z.lnot reg).

(** The CRC of a block, as its users compute it. *)
Definition crc_ccitt (msb : bool) (l : list Z) : Z :=
  crc_ccitt_final (foldl (fun r b => crc_ccitt_update r b msb) crc_ccitt_init l).

(** ** CRC-32 *)
Definition crc32_le_table : list Z := [
  0x00000000; 0x77073096; 0xee0e612c; 0x990951ba; 0x076dc419; 0x706af48f;
  0xe963a535; 0x9e6495a3; 0x0edb8832; 0x79dcb8a4; 0xe0d5e91e; 0x97d2d988;
  0x09b64c2b; 0x7eb17cbd; 0xe7b82d07; 0x90bf1d91; 0x1db71064; 0x6ab020f2;
  0xf3b97148; 0x84be41de; 0x1adad47d; 0x6ddde4eb; 0xf4d4b551; 0x83d385c7;
  0x136c9856; 0x646ba8c0; 0xfd62f97a; 0x8a65c9ec; 0x14015c4f; 0x63066cd9;
  0xfa0f3d63; 0x8d080df5; 0x3b6e20c8; 0x4c69105e; 0xd56041e4; 0xa2677172;
  0x3c03e4d1; 0x4b04d447; 0xd20d85fd; 0xa50ab56b; 0x35b5a8fa; 0x42b2986c;
  0xdbbbc9d6; 0xacbcf940; 0x32d86ce3; 0x45df5c75; 0xdcd60dcf; 0xabd13d59;
  0x26d930ac; 0x51de003a; 0xc8d75180; 0xbfd06116; 0x21b4f4b5; 0x56b3c423;
  0xcfba9599; 0xb8bda50f; 0x2802b89e; 0x5f058808; 0xc60cd9b2; 0xb10be924;
  0x2f6f7c87; 0x58684c11; 0xc1611dab; 0xb6662d3d; 0x76dc4190; 0x01db7106;
  0x98d220bc; 0xefd5102a; 0x71b18589; 0x06b6b51f; 0x9fbfe4a5; 0xe8b8d433;
  0x7807c9a2; 0x0f00f934; 0x9609a88e; 0xe10e9818; 0x7f6a0dbb; 0x086d3d2d;
  0x91646c97; 0xe6635c01; 0x6b6b51f4; 0x1c6c6162; 0x856530d8; 0xf262004e;
  0x6c0695ed; 0x1b01a57b; 0x8208f4c1; 0xf50fc457; 0x65b0d9c6; 0x12b7e950;
  0x8bbeb8ea; 0xfcb9887c; 0x62dd1ddf; 0x15da2d49; 0x8cd37cf3; 0xfbd44c65;
  0x4db26158; 0x3ab551ce; 0xa3bc0074; 0xd4bb30e2; 0x4adfa541; 0x3dd895d7;
  0xa4d1c46d; 0xd3d6f4fb; 0x4369e96a; 0x346ed9fc; 0xad678846; 0xda60b8d0;
  0x44042d73; 0x33031de5; 0xaa0a4c5f; 0xdd0d7cc9; 0x5005713c; 0x270241aa;
  0xbe0b1010; 0xc90c2086; 0x5768b525; 0x206f85b3; 0xb966d409; 0xce61e49f;
  0x5edef90e; 0x29d9c998; 0xb0d09822; 0xc7d7a8b4; 0x59b33d17; 0x2eb40d81;
  0xb7bd5c3b; 0xc0ba6cad; 0xedb88320; 0x9abfb3b6; 0x03b6e20c; 0x74b1d29a;
  0xead54739; 0x9dd277af; 0x04db2615; 0x73dc1683; 0xe3630b12; 0x94643b84;
  0x0d6d6a3e; 0x7a6a5aa8; 0xe40ecf0b; 0x9309ff9d; 0x0a00ae27; 0x7d079eb1;
  0xf00f9344; 0x8708a3d2; 0x1e01f268; 0x6906c2fe; 0xf762575d; 0x806567cb;
  0x196c3671; 0x6e6b06e7; 0xfed41b76; 0x89d32be0; 0x10da7a5a; 0x67dd4acc;
  0xf9b9df6f; 0x8ebeeff9; 0x17b7be43; 0x60b08ed5; 0xd6d6a3e8; 0xa1d1937e;
  0x38d8c2c4; 0x4fdff252; 0xd1bb67f1; 0xa6bc5767; 0x3fb506dd; 0x48b2364b;
  0xd80d2bda; 0xaf0a1b4c; 0x36034af6; 0x41047a60; 0xdf60efc3; 0xa867df55;
  0x316e8eef; 0x4669be79; 0xcb61b38c; 0xbc66831a; 0x256fd2a0; 0x5268e236;
  0xcc0c7795; 0xbb0b4703; 0x220216b9; 0x5505262f; 0xc5ba3bbe; 0xb2bd0b28;
  0x2bb45a92; 0x5cb36a04; 0xc2d7ffa7; 0xb5d0cf31; 0x2cd99e8b; 0x5bdeae1d;
  0x9b64c2b0; 0xec63f226; 0x756aa39c; 0x026d930a; 0x9c0906a9; 0xeb0e363f;
  0x72076785; 0x05005713; 0x95bf4a82; 0xe2b87a14; 0x7bb12bae; 0x0cb61b38;
  0x92d28e9b; 0xe5d5be0d; 0x7cdcefb7; 0x0bdbdf21; 0x86d3d2d4; 0xf1d4e242;
  0x68ddb3f8; 0x1fda836e; 0x81be16cd; 0xf6b9265b; 0x6fb077e1; 0x18b74777;
  0x88085ae6; 0xff0f6a70; 0x66063bca; 0x11010b5c; 0x8f659eff; 0xf862ae69;
  0x616bffd3; 0x166ccf45; 0xa00ae278; 0xd70dd2ee; 0x4e048354; 0x3903b3c2;
  0xa7672661; 0xd06016f7; 0x4969474d; 0x3e6e77db; 0xaed16a4a; 0xd9d65adc;
  0x40df0b66; 0x37d83bf0; 0xa9bcae53; 0xdebb9ec5; 0x47b2cf7f; 0x30b5ffe9;
  0xbdbdf21c; 0xcabac28a; 0x53b39330; 0x24b4a3a6; 0xbad03605; 0xcdd70693;
  0x54de5729; 0x23d967bf; 0xb3667a2e; 0xc4614ab8; 0x5d681b02; 0x2a6f2b94;
  0xb40bbe37; 0xc30c8ea1; 0x5a05df1b; 0x2d02ef8d
].

Definition crc32_le_byte (accum delta : Z) : res Z :=
  t ← oob (crc32_le_table !! Z.to_nat ((accum ^^^ delta) &&& 0xff)); Ok (t ^^^ (accum >>> 8)).
Fixpoint efi_crc32_loop (buf : list Z) (crc : Z) : res Z :=
  match buf with
  | [] => Ok (u32 (Z.lnot crc))
  | b :: buf =>
      t ← oob (crc32_le_table !! Z.to_nat ((crc ^^^ b) &&& 0xFF));
      efi_crc32_loop buf ((crc >>> 8) ^^^ t)
  end.
Definition efi_crc32 (buf : list Z) : res Z := efi_crc32_loop buf 0xFFFFFFFF.

(** ** Error detection of the CRC-16 *)
(** The bits of a block in the order the register sees them. *)
Definition block_bits (l : list Z) : list bool := concat (map byte_bits l).

Lemma crc_ccitt_bits msb l : forall r,
  foldl (fun r b => crc_ccitt_update r b msb) r l = foldl (crc_step (crc_ccitt_poly msb)) r (block_bits l).
Proof.
  induction l as [|b l IH]; intros r; [done|]. cbn [foldl block_bits map concat].
  rewrite foldl_app. apply IH.
Qed.

Lemma crc_step_range poly r b : in_u 16 poly -> in_u 16 r -> in_u 16 (crc_step poly r b).
Proof.
  intros Hp Hr. unfold crc_step. assert (in_u 16 (r >>> 1)) by (apply shiftr_in_u; [lia|done]).
  destruct (xorb _ _); [by apply lxor_in_u|done].
Qed.

Lemma crc_run_range poly bs : in_u 16 poly -> forall r, in_u 16 r -> in_u 16 (foldl (crc_step poly) r bs).
Proof. intros Hp. induction bs as [|b bs IH]; intros r Hr; [done|]. cbn. apply IH. by apply crc_step_range. Qed.

(** Two registers differ at bit [j] or above. *)
Definition differ (j r s : Z) : Prop := exists i, j <= i < 16 /\ Z.testbit r i <> Z.testbit s i.

Lemma crc_step_testbit poly r b i : 0 <= i ->
  Z.testbit (crc_step poly r b) i = xorb (Z.testbit r (i + 1)) (xorb (Z.testbit r 0) b && Z.testbit poly i).
Proof.
  intros Hi. unfold crc_step. destruct (xorb (Z.testbit r 0) b); cbn [andb].
  - by rewrite Z.lxor_spec, Z.shiftr_spec.
  - rewrite Z.shiftr_spec by done. by rewrite xorb_false_r.
Qed.

(** A difference moves down one bit, or is renewed at the top through the polynomial's
    highest term. *)
Lemma crc_step_differ poly r s b c j : in_u 16 r -> in_u 16 s -> Z.testbit poly 15 = true -> 0 <= j <= 15 ->
  (differ (j + 1) r s \/ xorb (Z.testbit r 0) b <> xorb (Z.testbit s 0) c) ->
  differ j (crc_step poly r b) (crc_step poly s c).
Proof.
  intros Hr Hs Hp Hj Hd.
  destruct (decide (xorb (Z.testbit r 0) b = xorb (Z.testbit s 0) c)) as [E|E].
  - destruct Hd as [(i & Hi & Hne)|]; [|done]. exists (i - 1). split; [lia|].
    rewrite !crc_step_testbit by lia. replace (i - 1 + 1) with i by lia. rewrite E.
    intros H. apply Hne. by destruct (Z.testbit r i), (Z.testbit s i), (_ && _)%bool.
  - exists 15. split; [lia|]. rewrite !crc_step_testbit by lia. rewrite Hp, !andb_true_r.
    rewrite (testbit_high 16 r), (testbit_high 16 s) by (done || lia). rewrite !xorb_false_l. exact E.
Qed.

Lemma differ_ne r s : differ 0 r s -> r <> s.
Proof. by intros (i & _ & H) ->. Qed.

Lemma ne_differ r s : in_u 16 r -> in_u 16 s -> r <> s -> differ 0 r s.
Proof.
  intros Hr Hs Hne. destruct (Z.eq_dec (r ^^^ s) 0) as [E|E]; [by apply Z.lxor_eq in E|].
  assert (Hu : in_u 16 (r ^^^ s)) by (by apply lxor_in_u).
  destruct (testbit_nonzero (r ^^^ s)) as (i & Hi & Hb); [lia|].
  exists i. split.
  - split; [done|]. destruct (Z.lt_ge_cases i 16); [done|]. by rewrite (testbit_high 16) in Hb.
  - rewrite Z.lxor_spec in Hb. by destruct (Z.testbit r i), (Z.testbit s i).
Qed.

(** Equal data keeps different registers different. *)
Lemma crc_same_bits poly bs : in_u 16 poly -> Z.testbit poly 15 = true -> forall r s, in_u 16 r -> in_u 16 s ->
  r <> s -> foldl (crc_step poly) r bs <> foldl (crc_step poly) s bs.
Proof.
  intros Hpu Hp. induction bs as [|b bs IH]; intros r s Hr Hs Hne; [done|]. cbn.
  apply IH; [by apply crc_step_range..|]. apply differ_ne, crc_step_differ; [done..|lia|].
  destruct (ne_differ r s Hr Hs Hne) as (i & Hi & Hb).
  destruct (decide (i = 0)) as [->|].
  - right. by destruct (Z.testbit r 0), (Z.testbit s 0), b.
  - left. exists i. split; [lia|done].
Qed.

(** Up to 16 bits of different data from the same register give different registers. *)
Lemma crc_burst poly bs : in_u 16 poly -> Z.testbit poly 15 = true -> forall cs r s j,
  length bs = length cs -> in_u 16 r -> in_u 16 s -> Z.of_nat (length bs) <= j <= 16 ->
  (r = s /\ bs <> cs \/ differ j r s) ->
  foldl (crc_step poly) r bs <> foldl (crc_step poly) s cs.
Proof.
  intros Hpu Hp. induction bs as [|b bs IH]; intros [|c cs] r s j Hlen Hr Hs Hj Hd; try done.
  - destruct Hd as [[_ ?]|(i & Hi & Hb)]; [done|]. apply differ_ne. exists i. cbn in Hj. split; [lia|done].
  - cbn in Hlen, Hj. injection Hlen as Hlen. cbn [foldl].
    assert (Hr' := crc_step_range poly r b Hpu Hr). assert (Hs' := crc_step_range poly s c Hpu Hs).
    destruct Hd as [[-> Hne]|Hd].
    + destruct (decide (b = c)) as [->|Hbc].
      * apply (IH cs _ _ j); [done..|lia|]. left. split; [done|]. by intros ->.
      * apply (IH cs _ _ 15); [done..|lia|]. right. apply crc_step_differ; [done..|lia|].
        right. intros E. apply Hbc. by destruct (Z.testbit s 0), b, c.
    + apply (IH cs _ _ (j - 1)); [done..|lia|]. right. apply crc_step_differ; [done..|lia|].
      left. by replace (j - 1 + 1) with j by lia.
Qed.

Lemma byte_bits_inj a b : in_u 8 a -> in_u 8 b -> byte_bits a = byte_bits b -> a = b.
Proof.
  intros Ha Hb [= H0 H1 H2 H3 H4 H5 H6 H7]. apply Z.bits_inj'. intros i Hi.
  destruct (Z.lt_ge_cases i 8); [|by rewrite !(testbit_high 8)].
  assert (i = 0 \/ i = 1 \/ i = 2 \/ i = 3 \/ i = 4 \/ i = 5 \/ i = 6 \/ i = 7)
    as [->|[->|[->|[->|[->|[->|[->| ->]]]]]]] by lia; done.
Qed.

Lemma final_inj r s : in_u 16 r -> in_u 16 s -> crc_ccitt_final r = crc_ccitt_final s -> r = s.
Proof.
  intros Hr Hs H. unfold crc_ccitt_final in H. apply Z.bits_inj'. intros i Hi.
  destruct (Z.lt_ge_cases i 16) as [Hlt|]; [|by rewrite !(testbit_high 16)].
  assert (E : Z.testbit (u16 (Z.lnot r)) i = Z.testbit (u16 (Z.lnot s)) i) by (by rewrite H).
  rewrite !wrap_testbit, !Z.lnot_spec, !bool_decide_true in E by lia. cbn in E.
  by destruct (Z.testbit r i), (Z.testbit s i).
Qed.

Lemma init_range : in_u 16 crc_ccitt_init.
Proof. unfold crc_ccitt_init. lia. Qed.

Lemma crc_ccitt_burst pre post a1 a2 b1 b2 :
  in_u 8 a1 -> in_u 8 a2 -> in_u 8 b1 -> in_u 8 b2 -> (a1, a2) <> (b1, b2) ->
  crc_ccitt false (pre ++ a1 :: a2 :: post) <> crc_ccitt false (pre ++ b1 :: b2 :: post).
Proof.
  intros Ha1 Ha2 Hb1 Hb2 Hne.
  assert (Hpu : in_u 16 (crc_ccitt_poly false)) by (cbn; unfold CRC_CCITT_POLY_LSB; lia).
  assert (Hp : Z.testbit (crc_ccitt_poly false) 15 = true) by done.
  unfold crc_ccitt. rewrite !crc_ccitt_bits. unfold block_bits. rewrite !map_app, !concat_app, !foldl_app.
  cbn [map concat]. rewrite !foldl_app.
  set (r := foldl _ crc_ccitt_init _). assert (Hr : in_u 16 r) by (apply crc_run_range; [done|apply init_range]).
  intros H. apply final_inj in H; [|(repeat (apply crc_run_range; [done|]); done)..]. revert H.
  apply crc_same_bits; [done|done|(repeat (apply crc_run_range; [done|]); done)..|].
  rewrite <- !foldl_app. apply (crc_burst _ _ Hpu Hp _ _ _ 16); [done..|cbn; lia|]. left. split; [done|].
  intros H. apply app_inj_1 in H as [H1 H2]; [|done]. apply Hne. f_equal; by apply byte_bits_inj.
Qed.

(** The CRC of the direct convention detects every error burst of up to two bytes: two
    blocks that differ only in two adjacent bytes have different CRCs, whatever comes before
    and after.  The variant selected for the inverse convention does not: its register
    shifts right but uses the polynomial of a left-shifting register, and [00 00] and [0C 81]
    get the same CRC. *)
Theorem crc_ccitt_detects pre post a1 a2 b1 b2 :
  in_u 8 a1 -> in_u 8 a2 -> in_u 8 b1 -> in_u 8 b2 -> (a1, a2) <> (b1, b2) ->
  crc_ccitt false (pre ++ a1 :: a2 :: post) <> crc_ccitt false (pre ++ b1 :: b2 :: post) /\
  crc_ccitt true [0; 0] = crc_ccitt true [12; 129].
Proof. intros. split; [by apply crc_ccitt_burst|vm_compute; reflexivity]. Qed.

Lemma crc_ccitt_detects_witness :
  crc_ccitt false ([1; 2] ++ 3 :: 4 :: [5]) <> crc_ccitt false ([1; 2] ++ 4 :: 3 :: [5]).
Proof.
  refine (proj1 (crc_ccitt_detects [1; 2] [5] 3 4 4 3 _ _ _ _ _)).
  - lia.
  - lia.
  - lia.
  - lia.
  - congruence.
Defined.

(** ** The table *)
(** The same register one bit at a time, for the reflected polynomial 0xEDB88320. *)
Definition crc32_bit (c : Z) : Z := if Z.testbit c 0 then (c >>> 1) ^^^ 0xEDB88320 else c >>> 1.
Fixpoint crc32_bits (n : nat) (c : Z) : Z := match n with O => c | S n => crc32_bit (crc32_bits n c) end.
Definition crc32_byte_ref (c : Z) : Z := crc32_bits 8 c.

Lemma crc32_table_ref : crc32_le_table = map (fun i => crc32_byte_ref (Z.of_nat i)) (seq 0 256).
Proof. vm_compute. reflexivity. Qed.

Lemma crc32_table_lookup i : in_u 8 i -> crc32_le_table !! Z.to_nat i = Some (crc32_byte_ref i).
Proof.
  intros Hi. rewrite crc32_table_ref, list_lookup_fmap, lookup_seq_lt by lia. cbn [fmap option_fmap option_map]. by rewrite Nat.add_0_l, Z2Nat.id by lia.
Qed.

Lemma crc32_bit_lxor a b : crc32_bit (a ^^^ b) = crc32_bit a ^^^ crc32_bit b.
Proof.
  unfold crc32_bit. rewrite Z.lxor_spec, Z.shiftr_lxor.
  apply Z.bits_inj'. intros i Hi.
  destruct (Z.testbit a 0), (Z.testbit b 0); cbn; rewrite ?Z.lxor_spec;
    destruct (Z.testbit (a >>> 1) i), (Z.testbit (b >>> 1) i), (Z.testbit 0xEDB88320 i); done.
Qed.

Lemma crc32_iter_lxor n a b : crc32_bits n (a ^^^ b) = crc32_bits n a ^^^ crc32_bits n b.
Proof. induction n as [|n IH]; [done|]. cbn [crc32_bits]. by rewrite IH, crc32_bit_lxor. Qed.

(** A register whose low [k] bits are clear only shifts. *)
Lemma crc32_iter_shift n : forall c, (forall i, 0 <= i < Z.of_nat n -> Z.testbit c i = false) ->
  crc32_bits n c = c >>> Z.of_nat n.
Proof.
  induction n as [|n IH]; intros c Hc; [by rewrite Z.shiftr_0_r|].
  cbn [crc32_bits]. rewrite IH by (intros; apply Hc; lia).
  unfold crc32_bit. rewrite Z.shiftr_spec, Z.add_0_l, Hc by lia. rewrite Z.shiftr_shiftr by lia. f_equal. lia.
Qed.

Lemma crc32_step_ref c d : 0 <= c -> in_u 8 d ->
  crc32_byte_ref ((c ^^^ d) &&& 0xff) ^^^ (c >>> 8) = crc32_byte_ref (c ^^^ d).
Proof.
  intros Hc Hd. set (x := c ^^^ d).
  assert (Hx : x = (x &&& 0xff) ^^^ (x &&& Z.lnot 0xff)).
  { apply Z.bits_inj'. intros i Hi. rewrite Z.lxor_spec, !Z.land_spec, Z.lnot_spec by done.
    by destruct (Z.testbit x i), (Z.testbit 0xff i). }
  rewrite Hx at 2. unfold crc32_byte_ref. rewrite crc32_iter_lxor. f_equal.
  assert (Hm : forall i, 0 <= i -> Z.testbit 0xff i = bool_decide (i < 8)).
  { intros i Hi. change 0xff with (Z.ones 8). case_bool_decide; [apply Z.ones_spec_low; lia|apply Z.ones_spec_high; lia]. }
  rewrite crc32_iter_shift.
  - apply Z.bits_inj'. intros i Hi. change (Z.of_nat 8) with 8. rewrite !Z.shiftr_spec by done.
    unfold x. rewrite Z.land_spec, Z.lnot_spec, Hm, Z.lxor_spec by lia. rewrite bool_decide_false by lia. cbn.
    rewrite (testbit_high 8 d) by lia. by rewrite xorb_false_r, andb_true_r.
  - intros i Hi. rewrite Z.land_spec, Z.lnot_spec, Hm by lia. rewrite bool_decide_true by lia. apply andb_false_r.
Qed.

Lemma land_ff_range x : in_u 8 (x &&& 0xff).
Proof. change 0xff with (Z.ones 8). rewrite Z.land_ones by lia. apply Z.mod_pos_bound. lia. Qed.

(** The table-driven CRC-32 is the bit-serial one: each of the 256 table entries is the
    register after eight single-bit steps with the polynomial 0xEDB88320, a byte step through
    the table equals eight bit steps, and [efi_crc32] never reads outside the table and
    returns the complement of the bit-serial register. *)
Theorem crc32_table_correct buf :
  Forall (fun b => in_u 8 b) buf ->
  crc32_le_table = map (fun i => crc32_byte_ref (Z.of_nat i)) (seq 0 256) /\
  efi_crc32 buf = Ok (u32 (Z.lnot (foldl (fun c b => crc32_byte_ref (c ^^^ b)) 0xFFFFFFFF buf))).
Proof.
  intros Hb. split; [apply crc32_table_ref|]. unfold efi_crc32.
  assert (Hc : 0 <= 0xFFFFFFFF) by lia. revert Hc. generalize 0xFFFFFFFF.
  induction Hb as [|b buf Hb Hbs IH]; intros c Hc; cbn [efi_crc32_loop foldl]; [done|].
  rewrite crc32_table_lookup by apply land_ff_range. cbn [oob mbind res_mbind].
  rewrite Z.lxor_comm, crc32_step_ref by done. apply IH.
  unfold crc32_byte_ref. generalize 8%nat. intros n.
  assert (0 <= c ^^^ b) by (apply Z.lxor_nonneg; lia).
  induction n as [|n IHn]; [done|]. cbn [crc32_bits].
  unfold crc32_bit at 1. assert (0 <= crc32_bits n (c ^^^ b) >>> 1) by (by apply Z.shiftr_nonneg).
  destruct (Z.testbit _ 0); [apply Z.lxor_nonneg; lia|done].
Qed.

Lemma crc32_table_correct_witness : efi_crc32 [49; 50; 51; 52; 53; 54; 55; 56; 57] = Ok 0xCBF43926.
Proof.
  rewrite (proj2 (crc32_table_correct [49; 50; 51; 52; 53; 54; 55; 56; 57] ltac:(repeat constructor; lia))).
  vm_compute. reflexivity.
Defined.
