(* ===== verification/T1.v ===== *)
(** * T1: the ISO/IEC 7816-3 T=1 block protocol

    kernel/scs/ifd_t1.c in the build that runs the protocol in the firmware
    (CONFIG_IFD_XCHG_APDU) with both checksums.  [t1] is the protocol's state:
    [ifd_t1_conf] (the fields [t1_tccks] to [t1_conf_ifsd]), [ifd_t1_xchg], the exchange
    buffer [ifd_xchg_buff], the exchange error and a log [t1_out] of the calls to the
    transfer layer.  [scs_off_t] and [scs_size_t] are 16 bits wide. *)
From S2P Require Import Prelude CString Crc.
From stdpp Require Import list relations.
Local Open Scope Z_scope.
Local Open Scope c_scope.

Definition IFD_T1_PROLOGUE_SIZE : Z := 3.
Definition IFD_T1_SAFE_IFSD : Z := 1.
Definition IFD_T1_IFS_IMPLICIT : Z := 0x20.
Definition IFD_T1_WI_IMPLICIT : Z := 0xD4.
Definition IFD_T1_RETRY_RETRNS : Z := 3.
Definition IFD_T1_RETRY_RESYNC : Z := 2.
Definition IFD_T1_RETRY_WRESET : Z := 1.
Definition IFD_T1_MAX_RETRY : Z := 3.
Definition IFD_T1_I_BLOCK : Z := 0x00.
Definition IFD_T1_R_BLOCK : Z := 0x80.
Definition IFD_T1_S_BLOCK : Z := 0xC0.
Definition IFD_T1_I_N_SHIFT : Z := 6.
Definition IFD_T1_I_M_SHIFT : Z := 5.
Definition IFD_T1_R_N_SHIFT : Z := 4.
Definition IFD_T1_S_R_BIT : Z := 0x20.
Definition IFD_T1_S_RESYNC : Z := 0.
Definition IFD_T1_S_IFS : Z := 1.
Definition IFD_T1_S_ABORT : Z := 2.
Definition IFD_T1_S_WTX : Z := 3.
Definition SCS_ERR_SUCCESS : Z := 0x00.
Definition SCS_ERR_HW_ERROR : Z := 0x01.
Definition SCS_ERR_PROGRESS : Z := 0x0A.

(** Calls to the transfer layer (kernel/scs/ifd.c). *)
Inductive t1_stop : Type := XFR_CMPL | XFR_OVER.
Inductive t1_event : Type :=
  | OBegin (tx nc rx ne nr_valid : Z)   (* ifd_xchg_begin *)
  | ORun                                (* ifd_xchg_run *)
  | OBlock (tx nc rx ne nr_valid : Z)   (* ifd_xfr_block *)
  | OEnd (nr : Z)                       (* ifd_xchg_end *)
  | OStop (event : t1_stop).            (* ifd_xchg_stop *)

Record t1 : Type := MkT1 {
  t1_tccks : Z;
  t1_wi : Z;
  t1_conf_ifsc : Z;
  t1_nad : Z;
  t1_conf_ifsd : Z;
  t1_cmpl : bool;
  t1_saved_buf : list Z;
  t1_saved_len : Z;
  t1_ns : Z;
  t1_nr : Z;
  t1_tx_cmpl : bool;
  t1_rx_cmpl : bool;
  t1_pcb : Z;
  t1_ack_type : Z;
  t1_ack_info : Z;
  t1_wtx : Z;
  t1_resync_level : Z;
  t1_resync_retry : Z;
  t1_tx : Z;
  t1_rx : Z;
  t1_nc : Z;
  t1_tx_blk : Z;
  t1_rx_blk : Z;
  t1_rx_len : Z;
  t1_ifsc : Z;
  t1_ifsd : Z;
  t1_ack_ifsc : Z;
  t1_nr_valid : Z;
  t1_buff : list Z;
  t1_error : Z;
  t1_out : list t1_event }.

Definition set_tccks (v : Z) (s : t1) : t1 := MkT1 v (t1_wi s) (t1_conf_ifsc s) (t1_nad s) (t1_conf_ifsd s) (t1_cmpl s) (t1_saved_buf s) (t1_saved_len s) (t1_ns s) (t1_nr s) (t1_tx_cmpl s) (t1_rx_cmpl s) (t1_pcb s) (t1_ack_type s) (t1_ack_info s) (t1_wtx s) (t1_resync_level s) (t1_resync_retry s) (t1_tx s) (t1_rx s) (t1_nc s) (t1_tx_blk s) (t1_rx_blk s) (t1_rx_len s) (t1_ifsc s) (t1_ifsd s) (t1_ack_ifsc s) (t1_nr_valid s) (t1_buff s) (t1_error s) (t1_out s).
Definition set_wi (v : Z) (s : t1) : t1 := MkT1 (t1_tccks s) v (t1_conf_ifsc s) (t1_nad s) (t1_conf_ifsd s) (t1_cmpl s) (t1_saved_buf s) (t1_saved_len s) (t1_ns s) (t1_nr s) (t1_tx_cmpl s) (t1_rx_cmpl s) (t1_pcb s) (t1_ack_type s) (t1_ack_info s) (t1_wtx s) (t1_resync_level s) (t1_resync_retry s) (t1_tx s) (t1_rx s) (t1_nc s) (t1_tx_blk s) (t1_rx_blk s) (t1_rx_len s) (t1_ifsc s) (t1_ifsd s) (t1_ack_ifsc s) (t1_nr_valid s) (t1_buff s) (t1_error s) (t1_out s).
Definition set_conf_ifsc (v : Z) (s : t1) : t1 := MkT1 (t1_tccks s) (t1_wi s) v (t1_nad s) (t1_conf_ifsd s) (t1_cmpl s) (t1_saved_buf s) (t1_saved_len s) (t1_ns s) (t1_nr s) (t1_tx_cmpl s) (t1_rx_cmpl s) (t1_pcb s) (t1_ack_type s) (t1_ack_info s) (t1_wtx s) (t1_resync_level s) (t1_resync_retry s) (t1_tx s) (t1_rx s) (t1_nc s) (t1_tx_blk s) (t1_rx_blk s) (t1_rx_len s) (t1_ifsc s) (t1_ifsd s) (t1_ack_ifsc s) (t1_nr_valid s) (t1_buff s) (t1_error s) (t1_out s).
Definition set_nad (v : Z) (s : t1) : t1 := MkT1 (t1_tccks s) (t1_wi s) (t1_conf_ifsc s) v (t1_conf_ifsd s) (t1_cmpl s) (t1_saved_buf s) (t1_saved_len s) (t1_ns s) (t1_nr s) (t1_tx_cmpl s) (t1_rx_cmpl s) (t1_pcb s) (t1_ack_type s) (t1_ack_info s) (t1_wtx s) (t1_resync_level s) (t1_resync_retry s) (t1_tx s) (t1_rx s) (t1_nc s) (t1_tx_blk s) (t1_rx_blk s) (t1_rx_len s) (t1_ifsc s) (t1_ifsd s) (t1_ack_ifsc s) (t1_nr_valid s) (t1_buff s) (t1_error s) (t1_out s).
Definition set_conf_ifsd (v : Z) (s : t1) : t1 := MkT1 (t1_tccks s) (t1_wi s) (t1_conf_ifsc s) (t1_nad s) v (t1_cmpl s) (t1_saved_buf s) (t1_saved_len s) (t1_ns s) (t1_nr s) (t1_tx_cmpl s) (t1_rx_cmpl s) (t1_pcb s) (t1_ack_type s) (t1_ack_info s) (t1_wtx s) (t1_resync_level s) (t1_resync_retry s) (t1_tx s) (t1_rx s) (t1_nc s) (t1_tx_blk s) (t1_rx_blk s) (t1_rx_len s) (t1_ifsc s) (t1_ifsd s) (t1_ack_ifsc s) (t1_nr_valid s) (t1_buff s) (t1_error s) (t1_out s).
Definition set_cmpl (v : bool) (s : t1) : t1 := MkT1 (t1_tccks s) (t1_wi s) (t1_conf_ifsc s) (t1_nad s) (t1_conf_ifsd s) v (t1_saved_buf s) (t1_saved_len s) (t1_ns s) (t1_nr s) (t1_tx_cmpl s) (t1_rx_cmpl s) (t1_pcb s) (t1_ack_type s) (t1_ack_info s) (t1_wtx s) (t1_resync_level s) (t1_resync_retry s) (t1_tx s) (t1_rx s) (t1_nc s) (t1_tx_blk s) (t1_rx_blk s) (t1_rx_len s) (t1_ifsc s) (t1_ifsd s) (t1_ack_ifsc s) (t1_nr_valid s) (t1_buff s) (t1_error s) (t1_out s).
Definition set_saved_buf (v : list Z) (s : t1) : t1 := MkT1 (t1_tccks s) (t1_wi s) (t1_conf_ifsc s) (t1_nad s) (t1_conf_ifsd s) (t1_cmpl s) v (t1_saved_len s) (t1_ns s) (t1_nr s) (t1_tx_cmpl s) (t1_rx_cmpl s) (t1_pcb s) (t1_ack_type s) (t1_ack_info s) (t1_wtx s) (t1_resync_level s) (t1_resync_retry s) (t1_tx s) (t1_rx s) (t1_nc s) (t1_tx_blk s) (t1_rx_blk s) (t1_rx_len s) (t1_ifsc s) (t1_ifsd s) (t1_ack_ifsc s) (t1_nr_valid s) (t1_buff s) (t1_error s) (t1_out s).
Definition set_saved_len (v : Z) (s : t1) : t1 := MkT1 (t1_tccks s) (t1_wi s) (t1_conf_ifsc s) (t1_nad s) (t1_conf_ifsd s) (t1_cmpl s) (t1_saved_buf s) v (t1_ns s) (t1_nr s) (t1_tx_cmpl s) (t1_rx_cmpl s) (t1_pcb s) (t1_ack_type s) (t1_ack_info s) (t1_wtx s) (t1_resync_level s) (t1_resync_retry s) (t1_tx s) (t1_rx s) (t1_nc s) (t1_tx_blk s) (t1_rx_blk s) (t1_rx_len s) (t1_ifsc s) (t1_ifsd s) (t1_ack_ifsc s) (t1_nr_valid s) (t1_buff s) (t1_error s) (t1_out s).
Definition set_ns (v : Z) (s : t1) : t1 := MkT1 (t1_tccks s) (t1_wi s) (t1_conf_ifsc s) (t1_nad s) (t1_conf_ifsd s) (t1_cmpl s) (t1_saved_buf s) (t1_saved_len s) v (t1_nr s) (t1_tx_cmpl s) (t1_rx_cmpl s) (t1_pcb s) (t1_ack_type s) (t1_ack_info s) (t1_wtx s) (t1_resync_level s) (t1_resync_retry s) (t1_tx s) (t1_rx s) (t1_nc s) (t1_tx_blk s) (t1_rx_blk s) (t1_rx_len s) (t1_ifsc s) (t1_ifsd s) (t1_ack_ifsc s) (t1_nr_valid s) (t1_buff s) (t1_error s) (t1_out s).
Definition set_nr (v : Z) (s : t1) : t1 := MkT1 (t1_tccks s) (t1_wi s) (t1_conf_ifsc s) (t1_nad s) (t1_conf_ifsd s) (t1_cmpl s) (t1_saved_buf s) (t1_saved_len s) (t1_ns s) v (t1_tx_cmpl s) (t1_rx_cmpl s) (t1_pcb s) (t1_ack_type s) (t1_ack_info s) (t1_wtx s) (t1_resync_level s) (t1_resync_retry s) (t1_tx s) (t1_rx s) (t1_nc s) (t1_tx_blk s) (t1_rx_blk s) (t1_rx_len s) (t1_ifsc s) (t1_ifsd s) (t1_ack_ifsc s) (t1_nr_valid s) (t1_buff s) (t1_error s) (t1_out s).
Definition set_tx_cmpl (v : bool) (s : t1) : t1 := MkT1 (t1_tccks s) (t1_wi s) (t1_conf_ifsc s) (t1_nad s) (t1_conf_ifsd s) (t1_cmpl s) (t1_saved_buf s) (t1_saved_len s) (t1_ns s) (t1_nr s) v (t1_rx_cmpl s) (t1_pcb s) (t1_ack_type s) (t1_ack_info s) (t1_wtx s) (t1_resync_level s) (t1_resync_retry s) (t1_tx s) (t1_rx s) (t1_nc s) (t1_tx_blk s) (t1_rx_blk s) (t1_rx_len s) (t1_ifsc s) (t1_ifsd s) (t1_ack_ifsc s) (t1_nr_valid s) (t1_buff s) (t1_error s) (t1_out s).
Definition set_rx_cmpl (v : bool) (s : t1) : t1 := MkT1 (t1_tccks s) (t1_wi s) (t1_conf_ifsc s) (t1_nad s) (t1_conf_ifsd s) (t1_cmpl s) (t1_saved_buf s) (t1_saved_len s) (t1_ns s) (t1_nr s) (t1_tx_cmpl s) v (t1_pcb s) (t1_ack_type s) (t1_ack_info s) (t1_wtx s) (t1_resync_level s) (t1_resync_retry s) (t1_tx s) (t1_rx s) (t1_nc s) (t1_tx_blk s) (t1_rx_blk s) (t1_rx_len s) (t1_ifsc s) (t1_ifsd s) (t1_ack_ifsc s) (t1_nr_valid s) (t1_buff s) (t1_error s) (t1_out s).
Definition set_pcb (v : Z) (s : t1) : t1 := MkT1 (t1_tccks s) (t1_wi s) (t1_conf_ifsc s) (t1_nad s) (t1_conf_ifsd s) (t1_cmpl s) (t1_saved_buf s) (t1_saved_len s) (t1_ns s) (t1_nr s) (t1_tx_cmpl s) (t1_rx_cmpl s) v (t1_ack_type s) (t1_ack_info s) (t1_wtx s) (t1_resync_level s) (t1_resync_retry s) (t1_tx s) (t1_rx s) (t1_nc s) (t1_tx_blk s) (t1_rx_blk s) (t1_rx_len s) (t1_ifsc s) (t1_ifsd s) (t1_ack_ifsc s) (t1_nr_valid s) (t1_buff s) (t1_error s) (t1_out s).
Definition set_ack_type (v : Z) (s : t1) : t1 := MkT1 (t1_tccks s) (t1_wi s) (t1_conf_ifsc s) (t1_nad s) (t1_conf_ifsd s) (t1_cmpl s) (t1_saved_buf s) (t1_saved_len s) (t1_ns s) (t1_nr s) (t1_tx_cmpl s) (t1_rx_cmpl s) (t1_pcb s) v (t1_ack_info s) (t1_wtx s) (t1_resync_level s) (t1_resync_retry s) (t1_tx s) (t1_rx s) (t1_nc s) (t1_tx_blk s) (t1_rx_blk s) (t1_rx_len s) (t1_ifsc s) (t1_ifsd s) (t1_ack_ifsc s) (t1_nr_valid s) (t1_buff s) (t1_error s) (t1_out s).
Definition set_ack_info (v : Z) (s : t1) : t1 := MkT1 (t1_tccks s) (t1_wi s) (t1_conf_ifsc s) (t1_nad s) (t1_conf_ifsd s) (t1_cmpl s) (t1_saved_buf s) (t1_saved_len s) (t1_ns s) (t1_nr s) (t1_tx_cmpl s) (t1_rx_cmpl s) (t1_pcb s) (t1_ack_type s) v (t1_wtx s) (t1_resync_level s) (t1_resync_retry s) (t1_tx s) (t1_rx s) (t1_nc s) (t1_tx_blk s) (t1_rx_blk s) (t1_rx_len s) (t1_ifsc s) (t1_ifsd s) (t1_ack_ifsc s) (t1_nr_valid s) (t1_buff s) (t1_error s) (t1_out s).
Definition set_wtx (v : Z) (s : t1) : t1 := MkT1 (t1_tccks s) (t1_wi s) (t1_conf_ifsc s) (t1_nad s) (t1_conf_ifsd s) (t1_cmpl s) (t1_saved_buf s) (t1_saved_len s) (t1_ns s) (t1_nr s) (t1_tx_cmpl s) (t1_rx_cmpl s) (t1_pcb s) (t1_ack_type s) (t1_ack_info s) v (t1_resync_level s) (t1_resync_retry s) (t1_tx s) (t1_rx s) (t1_nc s) (t1_tx_blk s) (t1_rx_blk s) (t1_rx_len s) (t1_ifsc s) (t1_ifsd s) (t1_ack_ifsc s) (t1_nr_valid s) (t1_buff s) (t1_error s) (t1_out s).
Definition set_resync_level (v : Z) (s : t1) : t1 := MkT1 (t1_tccks s) (t1_wi s) (t1_conf_ifsc s) (t1_nad s) (t1_conf_ifsd s) (t1_cmpl s) (t1_saved_buf s) (t1_saved_len s) (t1_ns s) (t1_nr s) (t1_tx_cmpl s) (t1_rx_cmpl s) (t1_pcb s) (t1_ack_type s) (t1_ack_info s) (t1_wtx s) v (t1_resync_retry s) (t1_tx s) (t1_rx s) (t1_nc s) (t1_tx_blk s) (t1_rx_blk s) (t1_rx_len s) (t1_ifsc s) (t1_ifsd s) (t1_ack_ifsc s) (t1_nr_valid s) (t1_buff s) (t1_error s) (t1_out s).
Definition set_resync_retry (v : Z) (s : t1) : t1 := MkT1 (t1_tccks s) (t1_wi s) (t1_conf_ifsc s) (t1_nad s) (t1_conf_ifsd s) (t1_cmpl s) (t1_saved_buf s) (t1_saved_len s) (t1_ns s) (t1_nr s) (t1_tx_cmpl s) (t1_rx_cmpl s) (t1_pcb s) (t1_ack_type s) (t1_ack_info s) (t1_wtx s) (t1_resync_level s) v (t1_tx s) (t1_rx s) (t1_nc s) (t1_tx_blk s) (t1_rx_blk s) (t1_rx_len s) (t1_ifsc s) (t1_ifsd s) (t1_ack_ifsc s) (t1_nr_valid s) (t1_buff s) (t1_error s) (t1_out s).
Definition set_tx (v : Z) (s : t1) : t1 := MkT1 (t1_tccks s) (t1_wi s) (t1_conf_ifsc s) (t1_nad s) (t1_conf_ifsd s) (t1_cmpl s) (t1_saved_buf s) (t1_saved_len s) (t1_ns s) (t1_nr s) (t1_tx_cmpl s) (t1_rx_cmpl s) (t1_pcb s) (t1_ack_type s) (t1_ack_info s) (t1_wtx s) (t1_resync_level s) (t1_resync_retry s) v (t1_rx s) (t1_nc s) (t1_tx_blk s) (t1_rx_blk s) (t1_rx_len s) (t1_ifsc s) (t1_ifsd s) (t1_ack_ifsc s) (t1_nr_valid s) (t1_buff s) (t1_error s) (t1_out s).
Definition set_rx (v : Z) (s : t1) : t1 := MkT1 (t1_tccks s) (t1_wi s) (t1_conf_ifsc s) (t1_nad s) (t1_conf_ifsd s) (t1_cmpl s) (t1_saved_buf s) (t1_saved_len s) (t1_ns s) (t1_nr s) (t1_tx_cmpl s) (t1_rx_cmpl s) (t1_pcb s) (t1_ack_type s) (t1_ack_info s) (t1_wtx s) (t1_resync_level s) (t1_resync_retry s) (t1_tx s) v (t1_nc s) (t1_tx_blk s) (t1_rx_blk s) (t1_rx_len s) (t1_ifsc s) (t1_ifsd s) (t1_ack_ifsc s) (t1_nr_valid s) (t1_buff s) (t1_error s) (t1_out s).
Definition set_nc (v : Z) (s : t1) : t1 := MkT1 (t1_tccks s) (t1_wi s) (t1_conf_ifsc s) (t1_nad s) (t1_conf_ifsd s) (t1_cmpl s) (t1_saved_buf s) (t1_saved_len s) (t1_ns s) (t1_nr s) (t1_tx_cmpl s) (t1_rx_cmpl s) (t1_pcb s) (t1_ack_type s) (t1_ack_info s) (t1_wtx s) (t1_resync_level s) (t1_resync_retry s) (t1_tx s) (t1_rx s) v (t1_tx_blk s) (t1_rx_blk s) (t1_rx_len s) (t1_ifsc s) (t1_ifsd s) (t1_ack_ifsc s) (t1_nr_valid s) (t1_buff s) (t1_error s) (t1_out s).
Definition set_tx_blk (v : Z) (s : t1) : t1 := MkT1 (t1_tccks s) (t1_wi s) (t1_conf_ifsc s) (t1_nad s) (t1_conf_ifsd s) (t1_cmpl s) (t1_saved_buf s) (t1_saved_len s) (t1_ns s) (t1_nr s) (t1_tx_cmpl s) (t1_rx_cmpl s) (t1_pcb s) (t1_ack_type s) (t1_ack_info s) (t1_wtx s) (t1_resync_level s) (t1_resync_retry s) (t1_tx s) (t1_rx s) (t1_nc s) v (t1_rx_blk s) (t1_rx_len s) (t1_ifsc s) (t1_ifsd s) (t1_ack_ifsc s) (t1_nr_valid s) (t1_buff s) (t1_error s) (t1_out s).
Definition set_rx_blk (v : Z) (s : t1) : t1 := MkT1 (t1_tccks s) (t1_wi s) (t1_conf_ifsc s) (t1_nad s) (t1_conf_ifsd s) (t1_cmpl s) (t1_saved_buf s) (t1_saved_len s) (t1_ns s) (t1_nr s) (t1_tx_cmpl s) (t1_rx_cmpl s) (t1_pcb s) (t1_ack_type s) (t1_ack_info s) (t1_wtx s) (t1_resync_level s) (t1_resync_retry s) (t1_tx s) (t1_rx s) (t1_nc s) (t1_tx_blk s) v (t1_rx_len s) (t1_ifsc s) (t1_ifsd s) (t1_ack_ifsc s) (t1_nr_valid s) (t1_buff s) (t1_error s) (t1_out s).
Definition set_rx_len (v : Z) (s : t1) : t1 := MkT1 (t1_tccks s) (t1_wi s) (t1_conf_ifsc s) (t1_nad s) (t1_conf_ifsd s) (t1_cmpl s) (t1_saved_buf s) (t1_saved_len s) (t1_ns s) (t1_nr s) (t1_tx_cmpl s) (t1_rx_cmpl s) (t1_pcb s) (t1_ack_type s) (t1_ack_info s) (t1_wtx s) (t1_resync_level s) (t1_resync_retry s) (t1_tx s) (t1_rx s) (t1_nc s) (t1_tx_blk s) (t1_rx_blk s) v (t1_ifsc s) (t1_ifsd s) (t1_ack_ifsc s) (t1_nr_valid s) (t1_buff s) (t1_error s) (t1_out s).
Definition set_ifsc (v : Z) (s : t1) : t1 := MkT1 (t1_tccks s) (t1_wi s) (t1_conf_ifsc s) (t1_nad s) (t1_conf_ifsd s) (t1_cmpl s) (t1_saved_buf s) (t1_saved_len s) (t1_ns s) (t1_nr s) (t1_tx_cmpl s) (t1_rx_cmpl s) (t1_pcb s) (t1_ack_type s) (t1_ack_info s) (t1_wtx s) (t1_resync_level s) (t1_resync_retry s) (t1_tx s) (t1_rx s) (t1_nc s) (t1_tx_blk s) (t1_rx_blk s) (t1_rx_len s) v (t1_ifsd s) (t1_ack_ifsc s) (t1_nr_valid s) (t1_buff s) (t1_error s) (t1_out s).
Definition set_ifsd (v : Z) (s : t1) : t1 := MkT1 (t1_tccks s) (t1_wi s) (t1_conf_ifsc s) (t1_nad s) (t1_conf_ifsd s) (t1_cmpl s) (t1_saved_buf s) (t1_saved_len s) (t1_ns s) (t1_nr s) (t1_tx_cmpl s) (t1_rx_cmpl s) (t1_pcb s) (t1_ack_type s) (t1_ack_info s) (t1_wtx s) (t1_resync_level s) (t1_resync_retry s) (t1_tx s) (t1_rx s) (t1_nc s) (t1_tx_blk s) (t1_rx_blk s) (t1_rx_len s) (t1_ifsc s) v (t1_ack_ifsc s) (t1_nr_valid s) (t1_buff s) (t1_error s) (t1_out s).
Definition set_ack_ifsc (v : Z) (s : t1) : t1 := MkT1 (t1_tccks s) (t1_wi s) (t1_conf_ifsc s) (t1_nad s) (t1_conf_ifsd s) (t1_cmpl s) (t1_saved_buf s) (t1_saved_len s) (t1_ns s) (t1_nr s) (t1_tx_cmpl s) (t1_rx_cmpl s) (t1_pcb s) (t1_ack_type s) (t1_ack_info s) (t1_wtx s) (t1_resync_level s) (t1_resync_retry s) (t1_tx s) (t1_rx s) (t1_nc s) (t1_tx_blk s) (t1_rx_blk s) (t1_rx_len s) (t1_ifsc s) (t1_ifsd s) v (t1_nr_valid s) (t1_buff s) (t1_error s) (t1_out s).
Definition set_nr_valid (v : Z) (s : t1) : t1 := MkT1 (t1_tccks s) (t1_wi s) (t1_conf_ifsc s) (t1_nad s) (t1_conf_ifsd s) (t1_cmpl s) (t1_saved_buf s) (t1_saved_len s) (t1_ns s) (t1_nr s) (t1_tx_cmpl s) (t1_rx_cmpl s) (t1_pcb s) (t1_ack_type s) (t1_ack_info s) (t1_wtx s) (t1_resync_level s) (t1_resync_retry s) (t1_tx s) (t1_rx s) (t1_nc s) (t1_tx_blk s) (t1_rx_blk s) (t1_rx_len s) (t1_ifsc s) (t1_ifsd s) (t1_ack_ifsc s) v (t1_buff s) (t1_error s) (t1_out s).
Definition set_buff (v : list Z) (s : t1) : t1 := MkT1 (t1_tccks s) (t1_wi s) (t1_conf_ifsc s) (t1_nad s) (t1_conf_ifsd s) (t1_cmpl s) (t1_saved_buf s) (t1_saved_len s) (t1_ns s) (t1_nr s) (t1_tx_cmpl s) (t1_rx_cmpl s) (t1_pcb s) (t1_ack_type s) (t1_ack_info s) (t1_wtx s) (t1_resync_level s) (t1_resync_retry s) (t1_tx s) (t1_rx s) (t1_nc s) (t1_tx_blk s) (t1_rx_blk s) (t1_rx_len s) (t1_ifsc s) (t1_ifsd s) (t1_ack_ifsc s) (t1_nr_valid s) v (t1_error s) (t1_out s).
Definition set_error (v : Z) (s : t1) : t1 := MkT1 (t1_tccks s) (t1_wi s) (t1_conf_ifsc s) (t1_nad s) (t1_conf_ifsd s) (t1_cmpl s) (t1_saved_buf s) (t1_saved_len s) (t1_ns s) (t1_nr s) (t1_tx_cmpl s) (t1_rx_cmpl s) (t1_pcb s) (t1_ack_type s) (t1_ack_info s) (t1_wtx s) (t1_resync_level s) (t1_resync_retry s) (t1_tx s) (t1_rx s) (t1_nc s) (t1_tx_blk s) (t1_rx_blk s) (t1_rx_len s) (t1_ifsc s) (t1_ifsd s) (t1_ack_ifsc s) (t1_nr_valid s) (t1_buff s) v (t1_out s).
Definition set_out (v : list t1_event) (s : t1) : t1 := MkT1 (t1_tccks s) (t1_wi s) (t1_conf_ifsc s) (t1_nad s) (t1_conf_ifsd s) (t1_cmpl s) (t1_saved_buf s) (t1_saved_len s) (t1_ns s) (t1_nr s) (t1_tx_cmpl s) (t1_rx_cmpl s) (t1_pcb s) (t1_ack_type s) (t1_ack_info s) (t1_wtx s) (t1_resync_level s) (t1_resync_retry s) (t1_tx s) (t1_rx s) (t1_nc s) (t1_tx_blk s) (t1_rx_blk s) (t1_rx_len s) (t1_ifsc s) (t1_ifsd s) (t1_ack_ifsc s) (t1_nr_valid s) (t1_buff s) (t1_error s) v.

Definition emit (e : t1_event) (s : t1) : t1 := set_out (t1_out s ++ [e]) s.

Section T1.
(** The size of the exchange buffer, the largest receive size the build allows, and
    whether the card uses the inverse convention. *)
Context (IFD_BUF_SIZE IFD_T1_MAX_IFSD : Z) (msb : bool).

(** ** The exchange buffer *)
Definition ifd_xchg_read (index : Z) (s : t1) : res Z := rd (t1_buff s) (Z.to_nat index).
Definition ifd_xchg_write (index byte : Z) (s : t1) : res t1 :=
  _ ← bug_on (IFD_BUF_SIZE <=? index);
  b ← wr (t1_buff s) (Z.to_nat index) (u8 byte); Ok (set_buff b s).
Definition ifd_xchg_move (to from cnt : Z) (s : t1) : res t1 :=
  let t := Z.to_nat to in let f := Z.to_nat from in let n := Z.to_nat cnt in
  b ← (if to <? from then copy_up (t1_buff s) t f n else copy_down (t1_buff s) (t + n) (f + n) n);
  Ok (set_buff b s).
Definition ifd_xchg_set_error (e : Z) (s : t1) : t1 := set_error e s.

(** ** Parameters *)
Definition ifd_t1_apply_wi (wi : Z) (s : t1) : t1 := set_wi wi s.
Definition ifd_t1_apply_ifsc (ifsc : Z) (s : t1) : t1 := set_conf_ifsc ifsc s.
Definition ifd_t1_reset_param (s : t1) : t1 :=
  set_nad 0 (ifd_t1_apply_ifsc IFD_T1_IFS_IMPLICIT (ifd_t1_apply_wi IFD_T1_WI_IMPLICIT s)).
(** [y] says which of TA, TB and TC the ATR has. *)
Definition ifd_t1_atr_parse (ta tb tc : option Z) (s : t1) : t1 :=
  let s := ifd_t1_apply_ifsc (default IFD_T1_IFS_IMPLICIT ta) s in
  let s := ifd_t1_apply_wi (default IFD_T1_WI_IMPLICIT tb) s in
  match tc with
  | Some tci => set_tccks (t1_tccks s ||| (tci &&& 1)) s
  | None => set_tccks (t1_tccks s &&& u8 (Z.lnot 1)) s
  end.
Definition __ifd_t1_xfr_resync (s : t1) : t1 :=
  set_nr 0 (set_ns 0 (set_conf_ifsd IFD_T1_IFS_IMPLICIT s)).
Definition __ifd_t1_xfr_reset (s : t1) : t1 := set_rx_cmpl true (set_tx_cmpl true s).

(** ** Block fields *)
Definition ifd_t1_epilogue_size (s : t1) : Z := 1 + (t1_tccks s &&& 1).
Definition ifd_t1_t (pcb : Z) : Z :=
  if (pcb &&& 0xC0) =? IFD_T1_R_BLOCK then IFD_T1_R_BLOCK
  else if (pcb &&& 0xC0) =? IFD_T1_S_BLOCK then IFD_T1_S_BLOCK
  else IFD_T1_I_BLOCK.
Definition is_t (pcb type : Z) : bool := ifd_t1_t pcb =? type.
Definition ifd_t1_r (pcb : Z) : res bool :=
  _ ← bug_on (negb (is_t pcb IFD_T1_S_BLOCK)); Ok (Z.testbit pcb 5).
Definition ifd_t1_s (pcb : Z) : res Z :=
  _ ← bug_on (negb (is_t pcb IFD_T1_S_BLOCK)); Ok (pcb &&& 0x0F).
Definition ifd_t1_m (pcb : Z) : res bool :=
  _ ← bug_on (negb (is_t pcb IFD_T1_I_BLOCK)); Ok (Z.testbit pcb 5).
Definition ifd_t1_n (pcb : Z) : res Z :=
  if is_t pcb IFD_T1_R_BLOCK then Ok ((pcb &&& 0x10) >>> IFD_T1_R_N_SHIFT)
  else _ ← bug_on (negb (is_t pcb IFD_T1_I_BLOCK)); Ok ((pcb &&& 0x40) >>> IFD_T1_I_N_SHIFT).
Definition ifd_t1_xfr_nr (s : t1) : Z := t1_nr s &&& 1.
Definition ifd_t1_xfr_ns (s : t1) : Z := t1_ns s &&& 1.
Definition ifd_t1_xfr_m (s : t1) : Z := if t1_tx s + t1_ack_ifsc s <? t1_nc s then 1 else 0.

(** ** Saving what a block overwrites *)
Fixpoint t1_read_n (n : nat) (index : Z) (s : t1) : res (list Z) :=
  match n with
  | O => Ok []
  | S n => b ← ifd_xchg_read (u16 index) s; l ← t1_read_n n (index + 1) s; Ok (b :: l)
  end.
Fixpoint t1_write_l (l : list Z) (index : Z) (s : t1) : res t1 :=
  match l with
  | [] => Ok s
  | b :: l => s ← ifd_xchg_write (u16 index) b s; t1_write_l l (index + 1) s
  end.
(** [saved_buf] has 8 bytes; the bytes behind [length] keep their value. *)
Definition ifd_t1_save (index length_ : Z) (s : t1) : res t1 :=
  let s := set_saved_len length_ s in
  _ ← bug_on (8 <? t1_saved_len s);
  l ← t1_read_n (Z.to_nat length_) index s;
  Ok (set_saved_buf (l ++ drop (length l) (t1_saved_buf s)) s).
Definition ifd_t1_restore (index : Z) (s : t1) : res t1 :=
  _ ← bug_on (8 <? t1_saved_len s);
  s ← t1_write_l (take (Z.to_nat (t1_saved_len s)) (t1_saved_buf s)) index s;
  Ok (set_saved_len 0 s).

Definition ifd_t1_safe_size (s : t1) : Z := u8 (IFD_T1_PROLOGUE_SIZE + ifd_t1_epilogue_size s + t1_ifsd s).

Definition t1_save_end (safe : Z) (s : t1) : Z :=
  let save_end := u16 (safe + t1_ifsc s + ifd_t1_epilogue_size s) in
  if t1_nc s <? save_end then t1_nc s else save_end.

Definition ifd_t1_restore_buffer (tx rx : Z) (s : t1) : res t1 :=
  let safe := ifd_t1_safe_size s in
  s ← (if (tx <? t1_nc s) && (t1_tx s <? t1_nc s) then
         let save_end := t1_save_end safe s in
         _ ← bug_on (IFD_BUF_SIZE <? save_end);
         s ← ifd_xchg_move tx safe (t1_ifsc s) s;
         if tx + t1_ifsc s <? save_end then ifd_t1_restore (u16 (tx + t1_ifsc s)) s else Ok s
       else Ok s);
  if t1_tx s =? t1_nc s then
    if IFD_BUF_SIZE - rx <? safe then ifd_t1_restore (u16 (rx - u8 (safe - (IFD_BUF_SIZE - rx)))) s else Ok s
  else Ok s.

Definition ifd_t1_save_buffer (s : t1) : res t1 :=
  let safe := ifd_t1_safe_size s in
  if t1_tx s <? t1_nc s then
    let s := set_rx_blk (t1_rx s) s in
    let s := set_tx_blk (if is_t (t1_pcb s) IFD_T1_I_BLOCK then u16 (safe - IFD_T1_PROLOGUE_SIZE) else t1_rx_blk s) s in
    _ ← bug_on (IFD_BUF_SIZE <? t1_tx_blk s + t1_ifsd s + IFD_T1_PROLOGUE_SIZE + ifd_t1_epilogue_size s);
    let save_end := t1_save_end safe s in
    _ ← bug_on (IFD_BUF_SIZE <? save_end);
    s ← (if t1_tx s + t1_ifsc s <? save_end then
           ifd_t1_save (u16 (t1_tx s + t1_ifsc s)) (u8 (save_end - (t1_tx s + t1_ifsc s))) s
         else Ok s);
    ifd_xchg_move safe (t1_tx s) (t1_ifsc s) s
  else
    '(saved, s) ←
      (if IFD_BUF_SIZE - t1_rx s <? safe then
         let saved := u8 (safe - (IFD_BUF_SIZE - t1_rx s)) in
         s ← ifd_t1_save (u16 (t1_rx s - saved)) saved s; Ok (saved, s)
       else Ok (0, s));
    let s := set_rx_blk (u16 (t1_rx s - saved)) s in
    Ok (set_tx_blk (t1_rx_blk s) s).

(** ** Checksums: [n] bytes of the buffer from [index] on *)
Fixpoint lrc_loop (n : nat) (index : Z) (s : t1) (lrc : Z) : res Z :=
  match n with
  | O => Ok lrc
  | S n => b ← ifd_xchg_read (u16 index) s; lrc_loop n (index + 1) s (lrc ^^^ b)
  end.
Fixpoint crc_loop (n : nat) (index : Z) (s : t1) (reg : Z) : res Z :=
  match n with
  | O => Ok (crc_ccitt_final reg)
  | S n => b ← ifd_xchg_read (u16 index) s; crc_loop n (index + 1) s (crc_ccitt_update reg b msb)
  end.
Definition ifd_t1_csum_lrc (s : t1) : res Z :=
  lrc_loop (Z.to_nat (t1_ifsc s + IFD_T1_PROLOGUE_SIZE)) (t1_tx_blk s) s 0.
Definition ifd_t1_verify_lrc (s : t1) : res bool :=
  lrc ← lrc_loop (Z.to_nat (t1_rx_len s + IFD_T1_PROLOGUE_SIZE)) (t1_rx_blk s) s 0;
  b ← ifd_xchg_read (u16 (t1_rx_blk s + t1_rx_len s + IFD_T1_PROLOGUE_SIZE)) s;
  Ok (lrc =? b).
Definition ifd_t1_csum_crc (s : t1) : res Z :=
  crc_loop (Z.to_nat (t1_ifsc s + IFD_T1_PROLOGUE_SIZE)) (t1_tx_blk s) s crc_ccitt_init.
Definition ifd_t1_verify_crc (s : t1) : res bool :=
  crc ← crc_loop (Z.to_nat (t1_rx_len s + IFD_T1_PROLOGUE_SIZE)) (t1_rx_blk s) s crc_ccitt_init;
  b ← ifd_xchg_read (u16 (t1_rx_blk s + t1_rx_len s + IFD_T1_PROLOGUE_SIZE)) s;
  if crc >>> 8 =? b then
    b ← ifd_xchg_read (u16 (t1_rx_blk s + t1_rx_len s + IFD_T1_PROLOGUE_SIZE + 1)) s;
    Ok (b =? crc &&& 0xFF)
  else Ok false.
Definition ifd_t1_compute_checksum (s : t1) : res t1 :=
  let index := t1_ifsc s + IFD_T1_PROLOGUE_SIZE in
  if Z.testbit (t1_tccks s) 0 then
    crc ← ifd_t1_csum_crc s;
    s ← ifd_xchg_write (u16 (t1_tx_blk s + index)) (crc >>> 8) s;
    ifd_xchg_write (u16 (t1_tx_blk s + index + 1)) (crc &&& 0xFF) s
  else
    lrc ← ifd_t1_csum_lrc s;
    ifd_xchg_write (u16 (t1_tx_blk s + index)) lrc s.
Definition ifd_t1_verify_checksum (s : t1) : res bool :=
  if Z.testbit (t1_tccks s) 0 then ifd_t1_verify_crc s else ifd_t1_verify_lrc s.

(** ** Building blocks *)
Definition ifd_t1_write_prologue (s : t1) : res t1 :=
  s ← ifd_xchg_write (u16 (t1_tx_blk s)) (t1_nad s) s;
  s ← ifd_xchg_write (u16 (t1_tx_blk s + 1)) (t1_pcb s) s;
  ifd_xchg_write (u16 (t1_tx_blk s + 2)) (t1_ifsc s) s.

Definition ifd_t1_build_sblock (type inf : Z) (resp : bool) (s : t1) : res t1 :=
  _ ← bug_on ((type =? IFD_T1_S_IFS) && (inf <? IFD_T1_SAFE_IFSD));
  let s := set_ifsc (if (type =? IFD_T1_S_IFS) || (type =? IFD_T1_S_WTX) then 1 else 0) s in
  let s := set_ifsd IFD_T1_SAFE_IFSD s in
  let s := set_pcb (u8 (IFD_T1_S_BLOCK ||| type)) s in
  let s := if resp then set_pcb (t1_pcb s ||| IFD_T1_S_R_BIT) s else s in
  s ← ifd_t1_save_buffer s;
  s ← ifd_t1_write_prologue s;
  s ← (if t1_ifsc s =? 1 then ifd_xchg_write (u16 (t1_tx_blk s + 3)) inf s else Ok s);
  ifd_t1_compute_checksum s.

Definition ifd_t1_build_iblock (ifsc : Z) (s : t1) : res t1 :=
  let s := set_ifsd (t1_conf_ifsd s) (set_ifsc ifsc (set_ack_ifsc ifsc s)) in
  let s := set_pcb (IFD_T1_I_BLOCK ||| (ifd_t1_xfr_ns s <<< IFD_T1_I_N_SHIFT) ||| (ifd_t1_xfr_m s <<< IFD_T1_I_M_SHIFT)) s in
  s ← ifd_t1_save_buffer s;
  s ← ifd_t1_write_prologue s;
  ifd_t1_compute_checksum s.

Definition ifd_t1_build_rblock (s : t1) : res t1 :=
  let s := set_ifsd (t1_conf_ifsd s) (set_ifsc 0 s) in
  let s := set_pcb (IFD_T1_R_BLOCK ||| (ifd_t1_xfr_nr s <<< IFD_T1_R_N_SHIFT)) s in
  s ← ifd_t1_save_buffer s;
  s ← ifd_t1_write_prologue s;
  ifd_t1_compute_checksum s.

Definition ifd_t1_xfr_block (s : t1) : t1 :=
  let nc := u16 (t1_ifsc s + IFD_T1_PROLOGUE_SIZE + ifd_t1_epilogue_size s) in
  let s := emit (OBegin (t1_tx_blk s) nc (t1_rx_blk s) IFD_T1_PROLOGUE_SIZE (t1_nr_valid s)) s in
  emit ORun (set_cmpl false s).

(** ** Progress of the exchange *)
Definition ifd_t1_ack_iblock (cmpl : bool) (s : t1) : res t1 :=
  let s := set_nr (u8 (t1_nr s + 1)) s in
  s ← ifd_xchg_move (t1_rx s) (u16 (t1_rx_blk s + 3)) (t1_rx_len s) s;
  let s := set_rx (u16 (t1_rx s + t1_rx_len s)) s in
  Ok (if cmpl then emit (OEnd (t1_rx s)) (set_rx_cmpl true s) else s).

Definition ifd_t1_acked_iblock (s : t1) : res t1 :=
  if t1_tx_cmpl s then Ok s
  else
    let s := set_tx (u16 (t1_tx s + t1_ack_ifsc s)) (set_ns (u8 (t1_ns s + 1)) s) in
    _ ← bug_on (t1_nc s <? t1_tx s);
    Ok (if t1_tx s =? t1_nc s then set_tx_cmpl true s else s).

Definition ifd_t1_resync_reset (s : t1) : t1 :=
  set_resync_retry IFD_T1_MAX_RETRY (set_resync_level IFD_T1_RETRY_RETRNS s).

Definition ifd_t1_xfr_reset (s : t1) : t1 :=
  let s := set_rx_blk 0 (set_tx_blk 0 s) in
  let s := set_rx 0 (set_tx 0 s) in
  let s := set_ifsd 0 (set_ifsc 0 s) in
  let s := set_rx_cmpl false (set_tx_cmpl false (set_wtx 0 s)) in
  ifd_t1_resync_reset (set_saved_len 0 s).

Definition ifd_t1_xchg_init (nc : Z) (s : t1) : t1 :=
  let s := set_nc nc (ifd_t1_xfr_reset s) in
  set_pcb 0 (set_nr_valid (u16 (IFD_T1_PROLOGUE_SIZE + t1_nc s + ifd_t1_epilogue_size s)) s).

Definition ifd_t1_xchg_aval (s : t1) : res t1 :=
  s ← (if is_t (t1_pcb s) IFD_T1_I_BLOCK then
         let ifsd_rx := u16 (t1_rx s + IFD_T1_PROLOGUE_SIZE + ifd_t1_epilogue_size s) in
         let ifsc := u16 (Z.min (t1_conf_ifsc s) (t1_nc s - t1_tx s)) in
         if t1_tx s <? t1_nc s then
           let safe := ifd_t1_safe_size s in
           let ifsc := if IFD_BUF_SIZE <=? ifsc + safe + ifd_t1_epilogue_size s
                       then u16 (IFD_BUF_SIZE - safe - ifd_t1_epilogue_size s) else ifsc in
           let ifsd := u16 (Z.max (t1_tx s - ifsd_rx) IFD_T1_SAFE_IFSD) in
           if ifsd <? t1_conf_ifsd s then
             ifd_t1_build_sblock IFD_T1_S_IFS (u8 ifsd) false (set_conf_ifsd (u8 ifsd) s)
           else ifd_t1_build_iblock (u8 ifsc) s
         else
           let ifsd := u16 (Z.min IFD_T1_MAX_IFSD (IFD_BUF_SIZE - t1_rx s)) in
           if negb (ifsd =? t1_conf_ifsd s) then
             ifd_t1_build_sblock IFD_T1_S_IFS (u8 ifsd) false (set_conf_ifsd (u8 ifsd) s)
           else ifd_t1_build_rblock s
       else if is_t (t1_pcb s) IFD_T1_S_BLOCK then
         ifd_t1_build_sblock (t1_ack_type s) (t1_ack_info s) true s
       else ifd_t1_build_rblock s);
  Ok (ifd_t1_xfr_block s).

(** ** Receiving *)
Definition ifd_t1_xfr_read (idx : Z) (s : t1) : res Z := ifd_xchg_read (u16 (t1_rx_blk s + idx)) s.

(** The checks on an S-block [pcb] of length [len]. *)
Definition sblock_valid (pcb len : Z) (s : t1) : res bool :=
  code ← ifd_t1_s pcb;
  r ← ifd_t1_r pcb;
  let len_ok := if (code =? IFD_T1_S_RESYNC) || (code =? IFD_T1_S_ABORT) then len =? 0
                else if (code =? IFD_T1_S_IFS) || (code =? IFD_T1_S_WTX) then len =? 1
                else false in
  if negb len_ok then Ok false
  else
    unexpected ←
      (if (r : bool) then
         if negb (is_t (t1_pcb s) IFD_T1_S_BLOCK) then Ok true
         else c ← ifd_t1_s (t1_pcb s);
              if negb (code =? c) then Ok true else ifd_t1_r (t1_pcb s)
       else Ok false);
    if (unexpected : bool) then Ok false
    else if code =? IFD_T1_S_RESYNC then Ok (r : bool)
    else if code =? IFD_T1_S_IFS then
      if (r : bool) then i ← ifd_t1_xfr_read 3 s; Ok (i =? t1_conf_ifsd s) else Ok true
    else if code =? IFD_T1_S_WTX then Ok (negb (r : bool))
    else Ok true.

(** The block sent is an S-block request: only its response is accepted. *)
Definition response_expected (pcb : Z) (s : t1) : res bool :=
  if is_t (t1_pcb s) IFD_T1_S_BLOCK then
    r ← ifd_t1_r (t1_pcb s);
    if negb (r : bool) then
      if negb (is_t pcb IFD_T1_S_BLOCK) then Ok false
      else a ← ifd_t1_s pcb; b ← ifd_t1_s (t1_pcb s);
           if negb (a =? b) then Ok false else ifd_t1_r pcb
    else Ok true
  else Ok true.

Definition ifd_t1_block_valid (s : t1) : res bool :=
  ok ← ifd_t1_verify_checksum s;
  if negb (ok : bool) then Ok false
  else
    pcb ← ifd_t1_xfr_read 1 s;
    len ← ifd_t1_xfr_read 2 s;
    _ ← ifd_t1_xfr_read 3 s;
    exp ← response_expected pcb s;
    if negb (exp : bool) then Ok false
    else if is_t pcb IFD_T1_R_BLOCK then
      if negb (len =? 0) || Z.testbit pcb 6 then Ok false
      else
        n ← ifd_t1_n pcb;
        if (ifd_t1_xfr_m s =? 1) && (n =? ifd_t1_xfr_ns s) then Ok false
        else Ok (negb (t1_tx_cmpl s))
    else if is_t pcb IFD_T1_I_BLOCK then
      if is_t (t1_pcb s) IFD_T1_I_BLOCK then
        m ← ifd_t1_m (t1_pcb s); n ← ifd_t1_n pcb;
        if (m : bool) || negb (n =? ifd_t1_xfr_nr s) then Ok false
        else _ ← bug_on ((m : bool) && negb (t1_tx_cmpl s)); Ok true
      else Ok true
    else sblock_valid pcb len s.

(** [ifd_xchg_set_error] at the end of both handlers. *)
Definition t1_set_result (s : t1) : t1 :=
  ifd_xchg_set_error (if t1_rx_cmpl s then SCS_ERR_SUCCESS else SCS_ERR_PROGRESS) s.

(** ISO/IEC 7816-3 11.6.2 *)
Definition ifd_t1_error_free_operation (s : t1) : res t1 :=
  let old_tx := t1_tx s in
  let old_rx := t1_rx s in
  let s := ifd_t1_resync_reset s in
  pcb ← ifd_t1_xfr_read 1 s;
  info ← ifd_t1_xfr_read 3 s;
  '(next_pcb, s) ←
    (if is_t pcb IFD_T1_R_BLOCK then
       n ← ifd_t1_n pcb;
       s ← (if negb (ifd_t1_xfr_ns s =? n) then ifd_t1_acked_iblock s else Ok s); Ok (0, s)
     else if is_t pcb IFD_T1_I_BLOCK then
       s ← ifd_t1_acked_iblock s;
       m ← ifd_t1_m pcb;
       s ← ifd_t1_ack_iblock (negb m) s; Ok (0, s)
     else
       r ← ifd_t1_r pcb;
       c ← ifd_t1_s pcb;
       if negb (r : bool) then
         let s := set_ack_info info (set_ack_type c s) in
         let s := if c =? IFD_T1_S_WTX then set_wtx info s
                  else if c =? IFD_T1_S_IFS then set_conf_ifsc info s else s in
         Ok (pcb, s)
       else Ok (0, if c =? IFD_T1_S_RESYNC then __ifd_t1_xfr_resync s else s));
  s ← ifd_t1_restore_buffer old_tx old_rx s;
  Ok (t1_set_result (set_pcb next_pcb s)).

(** ISO/IEC 7816-3 11.6.3 *)
Definition ifd_t1_error_handling (s : t1) : res t1 :=
  if t1_resync_level s =? IFD_T1_RETRY_WRESET then Ok (ifd_xchg_set_error SCS_ERR_HW_ERROR s)
  else
    let next_pcb := if t1_resync_level s =? IFD_T1_RETRY_RETRNS then IFD_T1_R_BLOCK
                    else if t1_resync_level s =? IFD_T1_RETRY_RESYNC then IFD_T1_S_BLOCK ||| IFD_T1_S_RESYNC
                    else 0 in
    let s := if t1_resync_retry s =? 0
             then set_resync_level (u8 (t1_resync_level s - 1)) (set_resync_retry IFD_T1_MAX_RETRY s)
             else set_resync_retry (u8 (t1_resync_retry s - 1)) s in
    s ← ifd_t1_restore_buffer (t1_tx s) (t1_rx s) s;
    Ok (t1_set_result (set_pcb next_pcb s)).

Definition ifd_t1_xchg_cmpl (s : t1) : res t1 :=
  if t1_rx_cmpl s && t1_rx_cmpl s then Ok s
  else if negb (t1_error s =? SCS_ERR_SUCCESS) then ifd_t1_error_handling s
  else
    v ← ifd_t1_block_valid s;
    if negb (v : bool) then ifd_t1_error_handling s else ifd_t1_error_free_operation s.

(** The prologue, then the rest of a block was received at [rx_start]. *)
Definition ifd_t1_ne_expire (rx_start : Z) (s : t1) : res t1 :=
  if negb (t1_cmpl s) then
    len ← ifd_xchg_read (u16 (rx_start + 2)) s;
    let s := set_rx_len len s in
    if t1_ifsd s <? t1_rx_len s then Ok (emit (OStop XFR_OVER) s)
    else
      let s := emit (OBlock 0 0 (u16 (t1_rx_blk s + IFD_T1_PROLOGUE_SIZE))
                       (u16 (t1_rx_len s + ifd_t1_epilogue_size s)) (t1_nr_valid s)) s in
      Ok (set_cmpl true s)
  else Ok (emit (OStop XFR_CMPL) s).

(** ** Blocks in the buffer *)
Definition slice (p n : nat) (b : list Z) : list Z := take n (drop p b).
Definition buff_ok (s : t1) : Prop :=
  Z.of_nat (length (t1_buff s)) = IFD_BUF_SIZE /\ IFD_BUF_SIZE < 2 ^ 16 /\ Forall (fun b => in_u 8 b) (t1_buff s).

Lemma xread_ok s i : buff_ok s -> 0 <= i < IFD_BUF_SIZE ->
  exists b, t1_buff s !! Z.to_nat i = Some b /\ ifd_xchg_read (u16 i) s = Ok b /\ in_u 8 b.
Proof.
  intros (Hl & Hb & Hu) Hi. rewrite (wrap_id 16) by lia.
  destruct (rd_ok (t1_buff s) (Z.to_nat i)) as (b & E & Hr); [lia|]. exists b. split; [done|]. split; [done|].
  rewrite Forall_lookup in Hu. by apply (Hu _ _ E).
Qed.

Lemma slice_S p n b x : b !! p = Some x -> slice p (S n) b = x :: slice (S p) n b.
Proof. intros H. unfold slice. by rewrite (drop_S _ _ _ H). Qed.

Lemma lrc_loop_ok s n : buff_ok s -> forall i acc, 0 <= i -> i + Z.of_nat n <= IFD_BUF_SIZE ->
  lrc_loop n i s acc = Ok (foldl Z.lxor acc (slice (Z.to_nat i) n (t1_buff s))).
Proof.
  intros Hs. induction n as [|n IH]; intros i acc Hi Hn; [done|]. cbn [lrc_loop].
  destruct (xread_ok s i Hs ltac:(lia)) as (b & E & -> & _). cbn [mbind res_mbind].
  rewrite IH by lia. rewrite (slice_S _ _ _ _ E). cbn. do 2 f_equal. f_equal. lia.
Qed.

Lemma crc_loop_ok s n : buff_ok s -> forall i acc, 0 <= i -> i + Z.of_nat n <= IFD_BUF_SIZE ->
  crc_loop n i s acc =
    Ok (crc_ccitt_final (foldl (fun r b => crc_ccitt_update r b msb) acc (slice (Z.to_nat i) n (t1_buff s)))).
Proof.
  intros Hs. induction n as [|n IH]; intros i acc Hi Hn; [done|]. cbn [crc_loop].
  destruct (xread_ok s i Hs ltac:(lia)) as (b & E & -> & _). cbn [mbind res_mbind].
  rewrite IH by lia. rewrite (slice_S _ _ _ _ E). cbn. do 3 f_equal. f_equal. lia.
Qed.

(** The checksum of a list of bytes, as the bytes of the epilogue field. *)
Definition lrc (l : list Z) : Z := foldl Z.lxor 0 l.
Definition epilogue (s : t1) (l : list Z) : list Z :=
  if Z.testbit (t1_tccks s) 0 then [crc_ccitt msb l >>> 8; crc_ccitt msb l &&& 0xFF] else [lrc l].

Lemma lrc_range l acc : in_u 8 acc -> Forall (fun b => in_u 8 b) l -> in_u 8 (foldl Z.lxor acc l).
Proof. intros Ha Hl. revert acc Ha. induction Hl; intros acc Ha; [done|]. cbn. apply IHHl. by apply lxor_in_u. Qed.

Lemma crc_range l : in_u 16 (crc_ccitt msb l).
Proof. unfold crc_ccitt, crc_ccitt_final. apply wrap_range. lia. Qed.

(** Verification compares the epilogue byte by byte. *)
Lemma verify_ok s : buff_ok s -> 0 <= t1_rx_len s -> 0 <= t1_rx_blk s ->
  t1_rx_blk s + t1_rx_len s + 3 + ifd_t1_epilogue_size s <= IFD_BUF_SIZE ->
  let p := Z.to_nat (t1_rx_blk s) in let n := Z.to_nat (t1_rx_len s + 3) in
  ifd_t1_verify_checksum s =
    Ok (bool_decide (slice (p + n) (Z.to_nat (ifd_t1_epilogue_size s)) (t1_buff s) = epilogue s (slice p n (t1_buff s)))).
Proof.
  intros Hs Hl Hp Hlen p n. unfold ifd_t1_verify_checksum, epilogue, ifd_t1_epilogue_size in *.
  assert (Hb : (t1_tccks s &&& 1) = Z.b2z (Z.testbit (t1_tccks s) 0)).
  { change 1 with (Z.ones 1). rewrite Z.land_ones, Z.bit0_odd by lia. change (2 ^ 1) with 2. apply Zmod_odd. }
  rewrite Hb in *. destruct (Z.testbit (t1_tccks s) 0); cbn [Z.b2z] in *.
  - unfold ifd_t1_verify_crc, IFD_T1_PROLOGUE_SIZE in *. rewrite crc_loop_ok by (done || lia). cbn [mbind res_mbind].
    set (c := crc_ccitt msb (slice p n (t1_buff s))).
    match goal with |- context [crc_ccitt_final ?x] => change (crc_ccitt_final x) with c end.
    destruct (xread_ok s (t1_rx_blk s + t1_rx_len s + 3) Hs ltac:(lia)) as (b1 & E1 & -> & _). cbn [mbind res_mbind].
    destruct (xread_ok s (t1_rx_blk s + t1_rx_len s + 3 + 1) Hs ltac:(lia)) as (b2 & E2 & Hr2 & _).
    replace (Z.to_nat (t1_rx_blk s + t1_rx_len s + 3)) with (p + n)%nat in E1 by lia.
    replace (Z.to_nat (t1_rx_blk s + t1_rx_len s + 3 + 1)) with (S (p + n))%nat in E2 by lia.
    replace (Z.to_nat (1 + 1)) with 2%nat by lia. rewrite (slice_S _ _ _ _ E1), (slice_S _ _ _ _ E2).
    change (slice (S (S (p + n))) 0 (t1_buff s)) with (@nil Z).
    destruct (Z.eqb_spec (c >>> 8) b1) as [<-|Hne].
    + rewrite Hr2. cbn [mbind res_mbind]. f_equal. destruct (Z.eqb_spec b2 (c &&& 0xFF)) as [->|Hne].
      * by rewrite bool_decide_true.
      * rewrite bool_decide_false; [done|]. by intros [= ->].
    + rewrite bool_decide_false; [done|]. by intros [= -> ->].
  - unfold ifd_t1_verify_lrc, IFD_T1_PROLOGUE_SIZE in *. rewrite lrc_loop_ok by (done || lia). cbn [mbind res_mbind].
    destruct (xread_ok s (t1_rx_blk s + t1_rx_len s + 3) Hs ltac:(lia)) as (b1 & E1 & -> & _). cbn [mbind res_mbind].
    replace (Z.to_nat (t1_rx_blk s + t1_rx_len s + 3)) with (p + n)%nat in E1 by lia.
    replace (Z.to_nat (1 + 0)) with 1%nat by lia. rewrite (slice_S _ _ _ _ E1).
    change (slice (S (p + n)) 0 (t1_buff s)) with (@nil Z). fold p n. unfold lrc. f_equal.
    destruct (Z.eqb_spec (foldl Z.lxor 0 (slice p n (t1_buff s))) b1) as [->|Hne].
    + by rewrite bool_decide_true.
    + rewrite bool_decide_false; [done|]. by intros [= ->].
Qed.

Lemma xwrite_ok s i b : buff_ok s -> 0 <= i < IFD_BUF_SIZE ->
  ifd_xchg_write (u16 i) b s = Ok (set_buff (<[Z.to_nat i := u8 b]> (t1_buff s)) s).
Proof.
  intros (Hl & Hb & Hu) Hi. rewrite (wrap_id 16) by lia. unfold ifd_xchg_write.
  rewrite (proj2 (Z.leb_gt IFD_BUF_SIZE i)) by lia. cbn [bug_on mbind res_mbind]. by rewrite wr_ok by lia.
Qed.

Lemma buff_ok_insert s i v : buff_ok s -> in_u 8 v -> buff_ok (set_buff (<[i := v]> (t1_buff s)) s).
Proof.
  intros (Hl & Hb & Hu) Hv. split; [cbn; by rewrite length_insert|]. split; [done|]. cbn. by apply Forall_insert.
Qed.

Lemma slice_insert_out p n b i v : (i < p \/ p + n <= i)%nat -> slice p n (<[i := v]> b) = slice p n b.
Proof.
  intros Hi. unfold slice. destruct (decide (i < p)%nat).
  - by rewrite drop_insert_lt.
  - rewrite drop_insert_ge, take_insert_ge by lia. done.
Qed.

Lemma slice_insert_in p n b i v : (p <= i < p + n)%nat -> slice p n (<[i := v]> b) = <[(i - p)%nat := v]> (slice p n b).
Proof. intros Hi. unfold slice. rewrite drop_insert_ge, take_insert_lt by lia. done. Qed.

Lemma slice_length p n b : (p + n <= length b)%nat -> length (slice p n b) = n.
Proof. intros. unfold slice. rewrite length_take, length_drop. lia. Qed.

Lemma slice_Forall (P : Z -> Prop) p n b : Forall P b -> Forall P (slice p n b).
Proof. intros. by apply Forall_take, Forall_drop. Qed.

(** Two bytes carry the CRC. *)
Lemma crc_bytes c : in_u 16 c -> in_u 8 (c >>> 8) /\ in_u 8 (c &&& 0xFF) /\ c = 2 ^ 8 * (c >>> 8) + (c &&& 0xFF).
Proof.
  intros Hc. rewrite Z.shiftr_div_pow2 by lia. change 0xFF with (Z.ones 8). rewrite Z.land_ones by lia.
  pose proof (Z.mod_pos_bound c (2 ^ 8) ltac:(lia)). split; [|split; [done|apply Z.div_mod; lia]].
  split; [apply Z.div_pos; lia|apply Z.div_lt_upper_bound; lia].
Qed.

Lemma epilogue_bit s : (t1_tccks s &&& 1) = Z.b2z (Z.testbit (t1_tccks s) 0).
Proof. change 1 with (Z.ones 1). rewrite Z.land_ones, Z.bit0_odd by lia. change (2 ^ 1) with 2. apply Zmod_odd. Qed.

Lemma compute_ok s : buff_ok s -> 0 <= t1_ifsc s -> 0 <= t1_tx_blk s ->
  t1_tx_blk s + t1_ifsc s + 3 + ifd_t1_epilogue_size s <= IFD_BUF_SIZE ->
  let p := Z.to_nat (t1_tx_blk s) in let n := Z.to_nat (t1_ifsc s + 3) in
  exists b, ifd_t1_compute_checksum s = Ok (set_buff b s) /\ buff_ok (set_buff b s) /\
    slice p n b = slice p n (t1_buff s) /\
    slice (p + n) (Z.to_nat (ifd_t1_epilogue_size s)) b = epilogue s (slice p n (t1_buff s)).
Proof.
  intros Hs Hl Hp Hlen p n. unfold ifd_t1_compute_checksum, epilogue, ifd_t1_epilogue_size in *.
  pose proof Hs as (Hlb & _ & Hu). rewrite epilogue_bit in *. destruct (Z.testbit (t1_tccks s) 0); cbn [Z.b2z] in *.
  - unfold ifd_t1_csum_crc, IFD_T1_PROLOGUE_SIZE in *. rewrite crc_loop_ok by (done || lia). cbn [mbind res_mbind].
    set (c := crc_ccitt msb (slice p n (t1_buff s))).
    repeat match goal with |- context [crc_ccitt_final ?x] => change (crc_ccitt_final x) with c end.
    destruct (crc_bytes c (crc_range _)) as (Hh & Hlo & _).
    rewrite xwrite_ok by (done || lia). cbn [mbind res_mbind]. rewrite (wrap_id 8 (c >>> 8)) by done.
    assert (Hs1 : buff_ok (set_buff (<[Z.to_nat (t1_tx_blk s + (t1_ifsc s + 3)) := c >>> 8]> (t1_buff s)) s)) by (by apply buff_ok_insert).
    cbn [t1_tx_blk set_buff]. rewrite xwrite_ok by (done || lia). cbn [t1_buff set_buff]. rewrite (wrap_id 8 (c &&& 0xFF)) by done.
    eexists. split; [reflexivity|]. split; [by apply (buff_ok_insert _ _ _ Hs1)|].
    replace (Z.to_nat (t1_tx_blk s + (t1_ifsc s + 3))) with (p + n)%nat by lia.
    replace (Z.to_nat (t1_tx_blk s + (t1_ifsc s + 3) + 1)) with (S (p + n))%nat by lia.
    split; [by rewrite !slice_insert_out by lia|].
    replace (Z.to_nat (1 + 1)) with 2%nat by lia. erewrite slice_S; [f_equal; erewrite slice_S; [reflexivity|]|].
    + apply list_lookup_insert_eq. rewrite length_insert. lia.
    + rewrite list_lookup_insert_ne by lia. apply list_lookup_insert_eq. lia.
  - unfold ifd_t1_csum_lrc, IFD_T1_PROLOGUE_SIZE in *. rewrite lrc_loop_ok by (done || lia). cbn [mbind res_mbind].
    fold p n. set (x := foldl Z.lxor 0 (slice p n (t1_buff s))).
    assert (Hx : in_u 8 x) by (apply lrc_range; [lia|by apply slice_Forall]).
    rewrite xwrite_ok by (done || lia). rewrite (wrap_id 8 x) by done.
    eexists. split; [reflexivity|]. split; [by apply buff_ok_insert|].
    replace (Z.to_nat (t1_tx_blk s + (t1_ifsc s + 3))) with (p + n)%nat by lia.
    split; [by rewrite slice_insert_out by lia|]. replace (Z.to_nat (1 + 0)) with 1%nat by lia.
    erewrite slice_S; [reflexivity|]. apply list_lookup_insert_eq. lia.
Qed.

(** Changing one byte changes the LRC, and the CRC of the direct convention. *)
Lemma lrc_insert l : forall acc j v old, l !! j = Some old ->
  foldl Z.lxor acc (<[j := v]> l) = foldl Z.lxor acc l ^^^ (old ^^^ v).
Proof.
  assert (Hacc : forall m a x, foldl Z.lxor (a ^^^ x) m = foldl Z.lxor a m ^^^ x).
  { induction m as [|y m IH]; intros a x; [done|]. cbn. rewrite <- IH. f_equal.
    rewrite !Z.lxor_assoc. f_equal. apply Z.lxor_comm. }
  induction l as [|y l IH]; intros acc [|j] v old Hj; [done..| |].
  - injection Hj as ->. cbn. rewrite <- Hacc. f_equal. rewrite Z.lxor_assoc. f_equal.
    by rewrite <- Z.lxor_assoc, Z.lxor_nilpotent, Z.lxor_0_l.
  - cbn. by apply IH.
Qed.

Lemma crc_insert l j v old : msb = false -> (2 <= length l)%nat -> Forall (fun b => in_u 8 b) l -> in_u 8 v ->
  l !! j = Some old -> old <> v -> crc_ccitt msb (<[j := v]> l) <> crc_ccitt msb l.
Proof.
  intros -> Hlen Hu Hv Hj Hne. pose proof (lookup_lt_Some _ _ _ Hj) as Hlt.
  rewrite Forall_lookup in Hu. pose proof (Hu _ _ Hj) as Hold.
  destruct (l !! S j) as [x|] eqn:Hx.
  - pose proof (Hu _ _ Hx) as Hxu.
    rewrite insert_take_drop by done. rewrite <- (take_drop_middle l j old Hj) at 3. rewrite (drop_S _ _ _ Hx).
    apply crc_ccitt_burst; [done..|]. by intros [= ->].
  - destruct j as [|j]; [apply lookup_ge_None in Hx; lia|].
    destruct (lookup_lt_is_Some_2 l j ltac:(lia)) as (y & Hy). pose proof (Hu _ _ Hy) as Hyu.
    assert (Hd : drop (S (S j)) l = []) by (apply drop_ge; by apply lookup_ge_None in Hx).
    rewrite insert_take_drop by done. rewrite Hd, (take_S_r _ _ _ Hy), <- app_assoc. cbn [app].
    rewrite <- (take_drop_middle l j y Hy) at 2. rewrite (drop_S _ _ _ Hj), Hd.
    apply crc_ccitt_burst; [done..|]. by intros [= ->].
Qed.
(** The block [compute_checksum] leaves at [tx_blk], as a received block. *)
Definition as_received (s : t1) : t1 := set_rx_len (t1_ifsc s) (set_rx_blk (t1_tx_blk s) s).

(** One byte of a block differs: its epilogue no longer matches. *)
Lemma epilogue_detects s b p n i v :
  Forall (fun b => in_u 8 b) b -> (3 <= n)%nat -> Z.testbit (t1_tccks s) 0 = false \/ msb = false ->
  let m := Z.to_nat (ifd_t1_epilogue_size s) in
  (p + n + m <= length b)%nat -> (p <= i < p + n + m)%nat -> in_u 8 v -> b !! i <> Some v ->
  slice (p + n) m b = epilogue s (slice p n b) ->
  slice (p + n) m (<[i := v]> b) <> epilogue s (slice p n (<[i := v]> b)).
Proof.
  intros Hu Hn Hc m Hlen Hi Hv Hne E. destruct (lookup_lt_is_Some_2 b i ltac:(lia)) as (old & Hold).
  assert (Hov : old <> v) by congruence. pose proof Hu as Hu'. rewrite Forall_lookup in Hu. pose proof (Hu _ _ Hold) as Hou.
  destruct (decide (i < p + n)%nat) as [Hin|Hout].
  - rewrite (slice_insert_out (p + n)), (slice_insert_in p n) by lia. rewrite E.
    assert (Hl : slice p n b !! (i - p)%nat = Some old).
    { unfold slice. rewrite lookup_take_lt, lookup_drop by lia. rewrite <- Hold. f_equal. lia. }
    unfold epilogue. destruct (Z.testbit (t1_tccks s) 0).
    + destruct Hc as [Hc|Hc]; [done|].
      pose proof (crc_insert (slice p n b) (i - p) v old Hc ltac:(rewrite slice_length; lia)
        (slice_Forall _ p n b Hu') Hv Hl Hov) as Hd.
      destruct (crc_bytes _ (crc_range (slice p n b))) as (_ & _ & E1).
      destruct (crc_bytes _ (crc_range (<[(i - p)%nat:=v]> (slice p n b)))) as (_ & _ & E2).
      intros [= Eh El]. apply Hd. rewrite E1, E2, Eh, El. done.
    + unfold lrc. rewrite (lrc_insert _ _ _ _ _ Hl). intros [= Eq]. apply Hov.
      apply Z.lxor_eq. apply (f_equal (Z.lxor (foldl Z.lxor 0 (slice p n b)))) in Eq.
      by rewrite <- Z.lxor_assoc, Z.lxor_nilpotent, Z.lxor_0_l in Eq.
  - rewrite (slice_insert_out p n), (slice_insert_in (p + n) m), <- E by lia. intros Eq.
    assert (Hl : slice (p + n) m b !! (i - (p + n))%nat = Some old).
    { unfold slice. rewrite lookup_take_lt, lookup_drop by lia. rewrite <- Hold. f_equal. lia. }
    rewrite <- Eq, list_lookup_insert_eq in Hl by (rewrite slice_length; lia). congruence.
Qed.

(** C38: the checksum of a T=1 block.  In a buffer that holds the block,
    [ifd_t1_compute_checksum] appends an epilogue with which [ifd_t1_verify_checksum]
    accepts the block, and with the LRC, or the CRC in the LSB-first convention, it
    rejects the block once any one byte of prologue, information or epilogue field has
    changed. *)
Theorem t1_checksum_detects s :
  buff_ok s -> in_u 8 (t1_ifsc s) -> in_u 16 (t1_tx_blk s) ->
  t1_tx_blk s + t1_ifsc s + 3 + ifd_t1_epilogue_size s <= IFD_BUF_SIZE ->
  exists s', ifd_t1_compute_checksum s = Ok s' /\
    ifd_t1_verify_checksum (as_received s') = Ok true /\
    (Z.testbit (t1_tccks s) 0 = false \/ msb = false -> forall i v,
       t1_tx_blk s <= Z.of_nat i < t1_tx_blk s + t1_ifsc s + 3 + ifd_t1_epilogue_size s ->
       in_u 8 v -> t1_buff s' !! i <> Some v ->
       ifd_t1_verify_checksum (set_buff (<[i := v]> (t1_buff s')) (as_received s')) = Ok false).
Proof.
  intros Hs Hc Hp Hlen.
  destruct (compute_ok s Hs ltac:(lia) ltac:(lia) Hlen) as (b & E & Hb & Ep & Ee).
  assert (He : 0 <= ifd_t1_epilogue_size s) by (unfold ifd_t1_epilogue_size; rewrite epilogue_bit; destruct (Z.testbit _ _); cbn; lia).
  rewrite <- Ep in Ee. exists (set_buff b s). split; [done|]. split.
  - rewrite verify_ok by (done || cbn; lia). f_equal. apply bool_decide_true, Ee.
  - intros Hd i v Hi Hv Hne. pose proof Hb as (Hl & _ & Hu). cbn in Hl, Hu.
    rewrite verify_ok by (try apply (buff_ok_insert (as_received (set_buff b s))); done || cbn; lia).
    f_equal. apply bool_decide_false. refine (epilogue_detects s b _ _ i v Hu _ Hd _ _ Hv Hne Ee); lia.
Qed.
(** ** Error recovery *)

(** What building and sending a block leaves alone. *)
Definition ctl (s : t1) : Z * Z * bool * Z * Z :=
  (t1_resync_level s, t1_resync_retry s, t1_rx_cmpl s, t1_nr s, t1_ns s).

Ltac t1_frame :=
  cbv zeta in *; repeat (res_inv; match goal with
  | H : (if ?b then _ else _) = Ok _ |- _ => destruct b eqn:?
  | H : (let '(_, _) := ?p in _) = Ok _ |- _ => destruct p
  end); res_inv.

Lemma ctl_xwrite i b s s' : ifd_xchg_write i b s = Ok s' -> ctl s' = ctl s /\ t1_pcb s' = t1_pcb s.
Proof. unfold ifd_xchg_write. intros. t1_frame. done. Qed.
Lemma ctl_move a b n s s' : ifd_xchg_move a b n s = Ok s' -> ctl s' = ctl s /\ t1_pcb s' = t1_pcb s.
Proof. unfold ifd_xchg_move. intros. t1_frame; done. Qed.
Lemma ctl_write_l l : forall i s s', t1_write_l l i s = Ok s' -> ctl s' = ctl s /\ t1_pcb s' = t1_pcb s.
Proof.
  induction l as [|b l IH]; intros i s s' H; cbn [t1_write_l] in H; res_inv; [done|].
  destruct (IH _ _ _ H) as [-> ->]. by eapply ctl_xwrite.
Qed.
Lemma ctl_save a n s s' : ifd_t1_save a n s = Ok s' -> ctl s' = ctl s /\ t1_pcb s' = t1_pcb s.
Proof. unfold ifd_t1_save. intros. t1_frame. done. Qed.
Lemma ctl_restore a s s' : ifd_t1_restore a s = Ok s' -> ctl s' = ctl s /\ t1_pcb s' = t1_pcb s.
Proof. unfold ifd_t1_restore. intros. t1_frame. by match goal with H : t1_write_l _ _ _ = _ |- _ => apply ctl_write_l in H end. Qed.

Ltac t1_ctl :=
  repeat match goal with
  | H : ifd_xchg_write _ _ _ = Ok _ |- _ => apply ctl_xwrite in H; destruct H
  | H : ifd_xchg_move _ _ _ _ = Ok _ |- _ => apply ctl_move in H; destruct H
  | H : ifd_t1_save _ _ _ = Ok _ |- _ => apply ctl_save in H; destruct H
  | H : ifd_t1_restore _ _ = Ok _ |- _ => apply ctl_restore in H; destruct H
  end; unfold ctl in *; cbn in *; naive_solver congruence.

Lemma ctl_restore_buffer a b s s' : ifd_t1_restore_buffer a b s = Ok s' -> ctl s' = ctl s /\ t1_pcb s' = t1_pcb s.
Proof. unfold ifd_t1_restore_buffer. intros. t1_frame; t1_ctl. Qed.
Lemma ctl_save_buffer s s' : ifd_t1_save_buffer s = Ok s' -> ctl s' = ctl s /\ t1_pcb s' = t1_pcb s.
Proof. unfold ifd_t1_save_buffer. intros. t1_frame; t1_ctl. Qed.
Lemma ctl_prologue s s' : ifd_t1_write_prologue s = Ok s' -> ctl s' = ctl s /\ t1_pcb s' = t1_pcb s.
Proof. unfold ifd_t1_write_prologue. intros. t1_frame; t1_ctl. Qed.
Lemma ctl_checksum s s' : ifd_t1_compute_checksum s = Ok s' -> ctl s' = ctl s /\ t1_pcb s' = t1_pcb s.
Proof. unfold ifd_t1_compute_checksum. intros. t1_frame; t1_ctl. Qed.

(** The part common to the three kinds of blocks. *)
Ltac t1_build :=
  repeat match goal with
  | H : ifd_t1_save_buffer _ = Ok _ |- _ => apply ctl_save_buffer in H; destruct H
  | H : ifd_t1_write_prologue _ = Ok _ |- _ => apply ctl_prologue in H; destruct H
  | H : ifd_t1_compute_checksum _ = Ok _ |- _ => apply ctl_checksum in H; destruct H
  end.

Lemma ctl_build_sblock t inf r s s' : ifd_t1_build_sblock t inf r s = Ok s' ->
  ctl s' = ctl s /\ t1_pcb s' = (if r then u8 (IFD_T1_S_BLOCK ||| t) ||| IFD_T1_S_R_BIT else u8 (IFD_T1_S_BLOCK ||| t)).
Proof. unfold ifd_t1_build_sblock. intros. destruct r; t1_frame; t1_build; t1_ctl. Qed.
Ltac chain := repeat (etransitivity; [eassumption|]); reflexivity.

Lemma ctl_build_iblock n s s' : ifd_t1_build_iblock n s = Ok s' ->
  ctl s' = ctl s /\
  t1_pcb s' = IFD_T1_I_BLOCK ||| (ifd_t1_xfr_ns s <<< IFD_T1_I_N_SHIFT)
                ||| ((if t1_tx s + n <? t1_nc s then 1 else 0) <<< IFD_T1_I_M_SHIFT).
Proof. unfold ifd_t1_build_iblock. intros. t1_frame; t1_build. split; chain. Qed.
Lemma ctl_build_rblock s s' : ifd_t1_build_rblock s = Ok s' ->
  ctl s' = ctl s /\ t1_pcb s' = IFD_T1_R_BLOCK ||| (ifd_t1_xfr_nr s <<< IFD_T1_R_N_SHIFT).
Proof. unfold ifd_t1_build_rblock. intros. t1_frame; t1_build. split; chain. Qed.

(** The PCBs that are sent: I- and R-blocks, S(IFS) requests and S-block responses. *)
Definition sendable (s : t1) (pcb : Z) : Prop :=
  (exists n (m : bool), pcb = IFD_T1_I_BLOCK ||| ((n &&& 1) <<< IFD_T1_I_N_SHIFT) ||| ((if m then 1 else 0) <<< IFD_T1_I_M_SHIFT)) \/
  (exists n, pcb = IFD_T1_R_BLOCK ||| ((n &&& 1) <<< IFD_T1_R_N_SHIFT)) \/
  pcb = u8 (IFD_T1_S_BLOCK ||| IFD_T1_S_IFS) \/
  is_t (t1_pcb s) IFD_T1_S_BLOCK = true /\ pcb = u8 (IFD_T1_S_BLOCK ||| t1_ack_type s) ||| IFD_T1_S_R_BIT.

Lemma xchg_aval_pcb s s' : ifd_t1_xchg_aval s = Ok s' -> ctl s' = ctl s /\ sendable s (t1_pcb s').
Proof.
  unfold ifd_t1_xchg_aval. intros H. apply res_bind_Ok in H as (r & H & E). injection E as <-.
  change (ctl r = ctl s /\ sendable s (t1_pcb r)). unfold sendable. t1_frame;
    match goal with
    | H : ifd_t1_build_sblock _ _ _ _ = Ok _ |- _ => apply ctl_build_sblock in H as [-> ->]
    | H : ifd_t1_build_iblock _ _ = Ok _ |- _ => apply ctl_build_iblock in H as [-> ->]
    | H : ifd_t1_build_rblock _ = Ok _ |- _ => apply ctl_build_rblock in H as [-> ->]
    end; (split; [done|]); eauto 7.
Qed.
(** ** The shared exchange buffer *)
Lemma xmove_ok s d f n : Z.of_nat (length (t1_buff s)) = IFD_BUF_SIZE -> 0 <= d -> 0 <= f -> 0 <= n ->
  d + n <= IFD_BUF_SIZE -> f + n <= IFD_BUF_SIZE ->
  exists b, ifd_xchg_move d f n s = Ok (set_buff b s) /\ moved (t1_buff s) b (Z.to_nat d) (Z.to_nat f) (Z.to_nat n).
Proof.
  intros Hl Hd Hf Hn Hdn Hfn. unfold ifd_xchg_move. destruct (Z.ltb_spec d f).
  - destruct (copy_up_moved (Z.to_nat n) (t1_buff s) (Z.to_nat d) (Z.to_nat f)) as (b & -> & Hm); [lia..|]. by exists b.
  - destruct (copy_down_moved (Z.to_nat n) (t1_buff s) (Z.to_nat d) (Z.to_nat f)) as (b & -> & Hm); [lia..|]. by exists b.
Qed.

Lemma read_n_ok s n : buff_ok s -> forall i, 0 <= i -> i + Z.of_nat n <= IFD_BUF_SIZE ->
  t1_read_n n i s = Ok (slice (Z.to_nat i) n (t1_buff s)).
Proof.
  intros Hs. induction n as [|n IH]; intros i Hi Hn; [done|]. cbn [t1_read_n].
  destruct (xread_ok s i Hs ltac:(lia)) as (b & E & -> & _). cbn [mbind res_mbind].
  rewrite IH by lia. cbn [mbind res_mbind]. rewrite (slice_S _ _ _ _ E). do 3 f_equal. lia.
Qed.

(** Writing the bytes [l] at [i]. *)
Lemma write_l_ok l : forall s i, buff_ok s -> Forall (fun b => in_u 8 b) l -> 0 <= i ->
  i + Z.of_nat (length l) <= IFD_BUF_SIZE ->
  exists b, t1_write_l l i s = Ok (set_buff b s) /\ forall j, b !! j =
    if decide (Z.to_nat i <= j < Z.to_nat i + length l)%nat then l !! (j - Z.to_nat i)%nat else t1_buff s !! j.
Proof.
  induction l as [|v l IH]; intros s i Hs Hl Hi Hn; cbn [t1_write_l length] in *.
  - exists (t1_buff s). split; [by destruct s|]. intros j. by rewrite decide_False by lia.
  - apply Forall_cons in Hl as [Hv Hl]. rewrite xwrite_ok by (done || lia). cbn [mbind res_mbind]. rewrite (wrap_id 8 v) by done.
    destruct (IH _ (i + 1) (buff_ok_insert s (Z.to_nat i) v Hs Hv) Hl ltac:(lia) ltac:(lia)) as (b & -> & Hb).
    exists b. split; [done|]. intros j. rewrite Hb. destruct Hs as (Hlen & _ & _).
    cbn [t1_buff set_buff]. destruct (decide (j = Z.to_nat i)) as [->|Hne].
    + rewrite decide_False, decide_True by lia. rewrite list_lookup_insert_eq by lia. by rewrite Nat.sub_diag.
    + rewrite list_lookup_insert_ne by lia. repeat case_decide; try lia; [|done].
      replace (j - Z.to_nat i)%nat with (S (j - Z.to_nat (i + 1))) by lia. done.
Qed.

(** [ifd_t1_save], then [ifd_t1_restore] of a state that kept what was saved. *)
Lemma save_ok s i n : buff_ok s -> 0 <= n <= 8 -> 0 <= i -> i + n <= IFD_BUF_SIZE ->
  ifd_t1_save i n s = Ok (set_saved_buf (slice (Z.to_nat i) (Z.to_nat n) (t1_buff s) ++
    drop (Z.to_nat n) (t1_saved_buf s)) (set_saved_len n s)).
Proof.
  intros Hs Hn Hi Hin. unfold ifd_t1_save. cbn [t1_saved_len set_saved_len].
  rewrite (proj2 (Z.ltb_ge 8 n)) by lia. cbn [bug_on mbind res_mbind].
  rewrite read_n_ok by (done || lia). cbn [mbind res_mbind t1_buff set_saved_len t1_saved_buf].
  rewrite slice_length by (destruct Hs as (? & _); lia). done.
Qed.

Lemma restore_ok s i l rest : buff_ok s -> Forall (fun b => in_u 8 b) l -> (length l <= 8)%nat ->
  t1_saved_len s = Z.of_nat (length l) -> t1_saved_buf s = l ++ rest -> 0 <= i -> i + Z.of_nat (length l) <= IFD_BUF_SIZE ->
  exists b, ifd_t1_restore i s = Ok (set_saved_len 0 (set_buff b s)) /\ forall j, b !! j =
    if decide (Z.to_nat i <= j < Z.to_nat i + length l)%nat then l !! (j - Z.to_nat i)%nat else t1_buff s !! j.
Proof.
  intros Hs Hl H8 Hlen Hbuf Hi Hin. unfold ifd_t1_restore. rewrite Hlen, Hbuf, (proj2 (Z.ltb_ge _ _)) by lia.
  cbn [bug_on mbind res_mbind]. rewrite Nat2Z.id, take_app_length.
  destruct (write_l_ok l s i Hs Hl Hi Hin) as (b & -> & Hb). by exists b.
Qed.

Lemma moved_Forall (P : Z -> Prop) m m' d f n : moved m m' d f n -> Forall P m -> Forall P m'.
Proof.
  intros [_ Hm] Hall. rewrite Forall_lookup in *. intros i x Hx. rewrite Hm in Hx. case_decide; by eapply Hall.
Qed.
(** A command that is being sent, with room for the block and for the answer, and at most
    8 bytes to put aside. *)
Definition shareable (s : t1) : Prop :=
  let eps := ifd_t1_epilogue_size s in let safe := 3 + eps + t1_ifsd s in
  buff_ok s /\ 0 <= t1_tx s < t1_nc s /\ t1_nc s <= IFD_BUF_SIZE /\
  in_u 8 (t1_ifsc s) /\ t1_tx s + t1_ifsc s <= t1_nc s /\ 0 <= t1_ifsd s /\ safe < 2 ^ 8 /\
  safe + t1_ifsc s + eps <= IFD_BUF_SIZE /\ 2 * safe <= IFD_BUF_SIZE + 3 /\ 0 <= t1_rx s <= IFD_BUF_SIZE - safe /\
  (safe + eps <= t1_tx s + 8 \/ t1_nc s <= t1_tx s + t1_ifsc s + 8).

Lemma epilogue_size_range s : 1 <= ifd_t1_epilogue_size s <= 2.
Proof. unfold ifd_t1_epilogue_size. rewrite epilogue_bit. destruct (Z.testbit _ _); cbn; lia. Qed.

(** What [ifd_t1_save_buffer] does with a command: the next part moves behind the answer. *)
Lemma save_buffer_ok s : shareable s ->
  let eps := ifd_t1_epilogue_size s in let safe := 3 + eps + t1_ifsd s in
  let save_end := Z.min (t1_nc s) (safe + t1_ifsc s + eps) in let p := t1_tx s + t1_ifsc s in
  exists b, moved (t1_buff s) b (Z.to_nat safe) (Z.to_nat (t1_tx s)) (Z.to_nat (t1_ifsc s)) /\
    let s1 := set_tx_blk (if is_t (t1_pcb s) IFD_T1_I_BLOCK then safe - 3 else t1_rx s) (set_rx_blk (t1_rx s) s) in
    ifd_t1_save_buffer s = Ok (set_buff b
      (if p <? save_end then
         set_saved_buf (slice (Z.to_nat p) (Z.to_nat (save_end - p)) (t1_buff s) ++
           drop (Z.to_nat (save_end - p)) (t1_saved_buf s)) (set_saved_len (save_end - p) s1)
       else s1)).
Proof.
  intros (Hs & Htx & Hnc & Hc & Htc & Hd & Hsafe & Hend & H2 & Hrx & Hsv) eps safe save_end p.
  pose proof (epilogue_size_range s) as Heps. fold eps in Heps, Hsafe, Hend, H2, Hrx, Hsv. fold safe in Hsafe, Hend, H2, Hrx, Hsv.
  pose proof Hs as (Hlen & H16 & _). assert (Dsafe : safe = 3 + eps + t1_ifsd s) by done.
  assert (Dend : save_end = Z.min (t1_nc s) (safe + t1_ifsc s + eps)) by done. assert (Dp : p = t1_tx s + t1_ifsc s) by done.
  destruct (xmove_ok s safe (t1_tx s) (t1_ifsc s)) as (b & Hb & Hm); [done|lia..|]. exists b. split; [done|]. cbv zeta.
  unfold ifd_t1_save_buffer. rewrite (proj2 (Z.ltb_lt (t1_tx s) (t1_nc s))) by lia.
  assert (Es : ifd_t1_safe_size s = safe).
  { unfold ifd_t1_safe_size, IFD_T1_PROLOGUE_SIZE. rewrite wrap_id by (fold eps; lia). done. }
  rewrite Es. cbv zeta. unfold IFD_T1_PROLOGUE_SIZE. rewrite (wrap_id 16 (safe - 3)) by lia.
  cbn [t1_pcb set_rx_blk t1_rx_blk].
  set (s1 := set_tx_blk _ (set_rx_blk _ s)).
  change (t1_ifsd s1) with (t1_ifsd s). change (ifd_t1_epilogue_size s1) with eps.
  change (t1_tx s1) with (t1_tx s). change (t1_ifsc s1) with (t1_ifsc s). fold p.
  rewrite (proj2 (Z.ltb_ge _ (t1_tx_blk s1 + _ + _ + _))) by (cbn; destruct (is_t _ _); lia). cbn [bug_on mbind res_mbind].
  assert (Ee : t1_save_end safe s1 = save_end).
  { unfold t1_save_end. change (ifd_t1_epilogue_size s1) with eps. cbn [t1_ifsc t1_nc s1 set_tx_blk set_rx_blk].
    rewrite wrap_id by lia. destruct (Z.ltb_spec (t1_nc s) (safe + t1_ifsc s + eps)); lia. }
  rewrite Ee, (proj2 (Z.ltb_ge IFD_BUF_SIZE save_end)) by lia. cbn [bug_on mbind res_mbind].
  destruct (Z.ltb_spec p save_end).
  - rewrite (wrap_id 16 p), (wrap_id 8) by lia.
    rewrite save_ok by (done || lia). cbn [mbind res_mbind].
    unfold ifd_xchg_move in *. cbn [t1_tx t1_ifsc t1_buff set_saved_buf set_saved_len s1 set_tx_blk set_rx_blk].
    destruct (if safe <? t1_tx s then _ else _); [|done]. cbn in Hb |- *. by injection Hb as ->.
  - cbn [mbind res_mbind]. unfold ifd_xchg_move in *. cbn [t1_tx t1_ifsc t1_buff s1 set_tx_blk set_rx_blk].
    destruct (if safe <? t1_tx s then _ else _); [|done]. cbn in Hb |- *. by injection Hb as ->.
Qed.
Lemma restore_buffer_ok s tx rx L rest :
  let eps := ifd_t1_epilogue_size s in let safe := 3 + eps + t1_ifsd s in
  let se := Z.min (t1_nc s) (safe + t1_ifsc s + eps) in let p := tx + t1_ifsc s in
  buff_ok s -> 0 <= tx < t1_nc s -> t1_nc s <= IFD_BUF_SIZE -> t1_tx s < t1_nc s -> in_u 8 (t1_ifsc s) ->
  p <= t1_nc s -> 0 <= t1_ifsd s -> safe < 2 ^ 8 -> safe + t1_ifsc s + eps <= IFD_BUF_SIZE ->
  Z.of_nat (length L) = Z.max 0 (se - p) -> (length L <= 8)%nat -> Forall (fun b => in_u 8 b) L ->
  (p < se -> t1_saved_len s = Z.of_nat (length L) /\ t1_saved_buf s = L ++ rest) ->
  exists s', ifd_t1_restore_buffer tx rx s = Ok s' /\ forall i, t1_buff s' !! i =
    if decide (p <= Z.of_nat i < se) then L !! (i - Z.to_nat p)%nat
    else if decide (tx <= Z.of_nat i < p) then t1_buff s !! (Z.to_nat safe + (i - Z.to_nat tx))%nat else t1_buff s !! i.
Proof.
  intros eps safe se p Hs Htx Hnc Htx' Hc Hp Hd Hsafe Hend HL H8 HLu Hsv. pose proof (epilogue_size_range s) as Heps.
  change (ifd_t1_epilogue_size s) with eps in Heps. assert (Dsafe : safe = 3 + eps + t1_ifsd s) by done.
  assert (Dend : se = Z.min (t1_nc s) (safe + t1_ifsc s + eps)) by done. assert (Dp : p = tx + t1_ifsc s) by done.
  unfold ifd_t1_restore_buffer.
  assert (Es : ifd_t1_safe_size s = safe).
  { unfold ifd_t1_safe_size, IFD_T1_PROLOGUE_SIZE. rewrite wrap_id by (change (ifd_t1_epilogue_size s) with eps; lia). done. }
  pose proof Hs as (Hlen & H16 & Hu).
  assert (Ee : t1_save_end safe s = se).
  { unfold t1_save_end. change (ifd_t1_epilogue_size s) with eps. rewrite wrap_id by lia.
    destruct (Z.ltb_spec (t1_nc s) (safe + t1_ifsc s + eps)); lia. }
  rewrite Es, Ee. cbv zeta. rewrite (proj2 (Z.ltb_lt tx _)), (proj2 (Z.ltb_lt (t1_tx s) _)) by lia. cbn [andb].
  rewrite (proj2 (Z.ltb_ge IFD_BUF_SIZE se)) by lia. cbn [bug_on mbind res_mbind].
  destruct (xmove_ok s tx safe (t1_ifsc s)) as (b & -> & Hm); [done|lia..|]. cbn [mbind res_mbind].
  change (t1_ifsc (set_buff b s)) with (t1_ifsc s). fold p.
  assert (Hb : buff_ok (set_buff b s)) by (split; [by rewrite <- Hlen; destruct Hm as [<- _]|split; [done|by eapply moved_Forall]]).
  assert (Hlook : forall i, b !! i = if decide (tx <= Z.of_nat i < p) then t1_buff s !! (Z.to_nat safe + (i - Z.to_nat tx))%nat else t1_buff s !! i).
  { intros i. destruct Hm as [_ ->]. repeat case_decide; try lia; done. }
  destruct (Z.ltb_spec p se) as [Hlt|Hge].
  - rewrite (wrap_id 16 p) by lia. destruct (Hsv Hlt) as [Hsl Hsb].
    destruct (restore_ok (set_buff b s) p L rest Hb HLu H8 Hsl Hsb) as (b' & -> & Hb'); [lia..|]. cbn [mbind res_mbind].
    cbn [t1_tx t1_nc set_saved_len set_buff]. rewrite (proj2 (Z.eqb_neq _ _)) by lia.
    eexists. split; [done|]. intros i. cbn [t1_buff set_saved_len set_buff] in *. rewrite Hb', Hlook. repeat case_decide; try lia; done.
  - cbn [mbind res_mbind t1_tx t1_nc set_buff]. rewrite (proj2 (Z.eqb_neq _ _)) by lia.
    eexists. split; [done|]. intros i. cbn [t1_buff set_buff]. rewrite Hlook. repeat case_decide; try lia; done.
Qed.

(** C27: the command and the answer share one buffer.  [ifd_t1_save_buffer] moves the next
    [ifsc] bytes of the command behind the area the answer is received in and puts aside
    the up to 8 command bytes the move and the epilogue overwrite; whatever then happens to
    the receive area, to the prologue and to the epilogue, [ifd_t1_restore_buffer] brings
    every byte of the command from the old position on back, whether the block was
    acknowledged ([tx'] moved on) or has to be repeated. *)
Theorem t1_buffer_roundtrip s : shareable s ->
  let eps := ifd_t1_epilogue_size s in let safe := 3 + eps + t1_ifsd s in
  exists s1, ifd_t1_save_buffer s = Ok s1 /\
    (forall k, (k < Z.to_nat (t1_ifsc s))%nat ->
       t1_buff s1 !! (Z.to_nat safe + k)%nat = t1_buff s !! (Z.to_nat (t1_tx s) + k)%nat) /\
    forall b2 tx', length b2 = length (t1_buff s) -> Forall (fun b => in_u 8 b) b2 -> tx' < t1_nc s ->
      (forall i, safe <= Z.of_nat i < safe + t1_ifsc s \/ safe + t1_ifsc s + eps <= Z.of_nat i ->
         b2 !! i = t1_buff s1 !! i) ->
      exists s3, ifd_t1_restore_buffer (t1_tx s) (t1_rx s) (set_tx tx' (set_buff b2 s1)) = Ok s3 /\
        forall i, t1_tx s <= Z.of_nat i < t1_nc s -> t1_buff s3 !! i = t1_buff s !! i.
Proof.
  intros Hsh eps safe. destruct (save_buffer_ok s Hsh) as (b & Hm & Hsb).
  destruct Hsh as (Hs & Htx & Hnc & Hc & Htc & Hd & Hsafe & Hend & H2 & Hrx & Hsv).
  pose proof (epilogue_size_range s) as Heps. pose proof Hs as (Hlen & H16 & Hu).
  change (ifd_t1_epilogue_size s) with eps in Heps, Hsafe, Hend, H2, Hrx, Hsv, Hm, Hsb.
  change (3 + eps + t1_ifsd s) with safe in Hsafe, Hend, H2, Hrx, Hsv, Hm, Hsb. cbv zeta in Hsb.
  set (se := Z.min (t1_nc s) (safe + t1_ifsc s + eps)) in Hsb. set (p := t1_tx s + t1_ifsc s) in Hsb.
  assert (Dsafe : safe = 3 + eps + t1_ifsd s) by done.
  assert (Dse : se = Z.min (t1_nc s) (safe + t1_ifsc s + eps)) by done. assert (Dp : p = t1_tx s + t1_ifsc s) by done.
  eexists. split; [exact Hsb|]. clear Hsb. cbn [t1_buff set_buff]. split.
  { intros k Hk. destruct Hm as [_ ->]. rewrite decide_True by lia. f_equal. lia. }
  intros b2 tx' Hl2 Hu2 Htx' Hb2. set (L := slice (Z.to_nat p) (Z.to_nat (se - p)) (t1_buff s)).
  assert (HL : length L = Z.to_nat (se - p)) by (apply slice_length; lia).
  assert (HLu : Forall (fun b => in_u 8 b) L) by (by apply slice_Forall).
  match goal with |- exists _, ifd_t1_restore_buffer _ _ ?s2 = _ /\ _ => set (s2' := s2) end.
  assert (F : t1_ifsc s2' = t1_ifsc s /\ t1_ifsd s2' = t1_ifsd s /\ t1_nc s2' = t1_nc s /\ t1_tx s2' = tx' /\
    t1_buff s2' = b2 /\ ifd_t1_epilogue_size s2' = eps /\
    (p < se -> t1_saved_len s2' = se - p /\ t1_saved_buf s2' = L ++ drop (Z.to_nat (se - p)) (t1_saved_buf s))).
  { subst s2'. destruct (Z.ltb_spec p se); repeat split; try done; intros; lia. }
  destruct F as (F1 & F2 & F3 & F4 & F5 & F6 & F7). clearbody s2'.
  destruct (restore_buffer_ok s2' (t1_tx s) (t1_rx s) L (drop (Z.to_nat (se - p)) (t1_saved_buf s))) as (s3 & E & Hs3);
    rewrite ?F1, ?F2, ?F3, ?F4, ?F6 in *; fold safe; fold se; fold p; try (done || lia).
  { split; [by rewrite F5, Hl2|split; [done|by rewrite F5]]. }
  { intros Hlt. destruct (F7 Hlt) as [-> ->]. split; [lia|done]. }
  exists s3. split; [done|]. intros i Hi. rewrite Hs3, F5. fold safe; fold se; fold p.
  destruct Hm as [_ Hm]. repeat case_decide.
  - unfold L, slice. rewrite lookup_take_lt, lookup_drop by lia. f_equal. lia.
  - rewrite Hb2, Hm, decide_True by lia. f_equal. lia.
  - rewrite Hb2, Hm, decide_False by lia. done.
Qed.
(** ** Giving up *)

(** One exchange of blocks that fails: a block is sent, anything is received (the receive
    path writes the buffer, the length, the error and its own log), and the answer is
    missing or not valid. *)
Inductive fail_round : t1 -> t1 -> Prop :=
  | FailRound s s1 b len e c o s' :
      ifd_t1_xchg_aval s = Ok s1 ->
      let s2 := set_buff b (set_rx_len len (set_error e (set_cmpl c (set_out o s1)))) in
      e <> SCS_ERR_SUCCESS \/ ifd_t1_block_valid s2 = Ok false ->
      ifd_t1_xchg_cmpl s2 = Ok s' ->
      fail_round s s'.

(** Errors that are still tolerated. *)
Definition t1_budget (s : t1) : Z := (t1_resync_level s - 1) * 4 - (IFD_T1_MAX_RETRY - t1_resync_retry s).
Definition budget_ok (s : t1) : Prop :=
  t1_rx_cmpl s = false /\ 0 <= t1_resync_retry s <= 3 /\
  (t1_resync_level s = 1 /\ t1_resync_retry s = 3 \/ 2 <= t1_resync_level s <= 3).

Lemma budget_ctl s s' : ctl s' = ctl s -> budget_ok s -> budget_ok s' /\ t1_budget s' = t1_budget s.
Proof. unfold budget_ok, t1_budget. intros [= -> -> -> _ _]. done. Qed.

Lemma error_handling_budget s s' : budget_ok s -> ifd_t1_error_handling s = Ok s' ->
  budget_ok s' /\ t1_budget s' = Z.max 0 (t1_budget s - 1) /\
  t1_error s' = if t1_budget s =? 0 then SCS_ERR_HW_ERROR else SCS_ERR_PROGRESS.
Proof.
  intros (Hc & Hr & Hl) H. unfold ifd_t1_error_handling in H. unfold t1_budget, IFD_T1_MAX_RETRY.
  destruct (Z.eqb_spec (t1_resync_level s) IFD_T1_RETRY_WRESET) as [E|E]; unfold IFD_T1_RETRY_WRESET in E.
  - res_inv. cbn. unfold budget_ok. cbn. rewrite E. replace (t1_resync_retry s) with 3 by lia. cbn. naive_solver lia.
  - cbv zeta in H. res_inv. match goal with H : ifd_t1_restore_buffer _ _ _ = Ok ?x |- _ => apply ctl_restore_buffer in H as [Hk _]; rename x into r end.
    unfold t1_set_result, budget_ok. cbn. injection Hk as K1 K2 K3 _ _.
    rewrite K1, K2, K3, (proj2 (Z.eqb_neq (_ - _) 0)) by lia.
    destruct (Z.eqb_spec (t1_resync_retry s) 0); cbn; rewrite Hc, wrap_id by lia; split; unfold IFD_T1_MAX_RETRY in *; naive_solver lia.
Qed.

Lemma fail_round_budget s s' : budget_ok s -> fail_round s s' ->
  budget_ok s' /\ t1_budget s' = Z.max 0 (t1_budget s - 1) /\
  t1_error s' = if t1_budget s =? 0 then SCS_ERR_HW_ERROR else SCS_ERR_PROGRESS.
Proof.
  intros Hb Hr. destruct Hr as [s s1 b len e c o s' Ha s2 Hbad Hc].
  apply xchg_aval_pcb in Ha as [Ha _]. destruct (budget_ctl s s2 Ha Hb) as [Hb2 <-].
  apply error_handling_budget; [done|]. unfold ifd_t1_xchg_cmpl in Hc. destruct Hb2 as (Hcm & _). rewrite Hcm in Hc.
  cbn [andb] in Hc. change (t1_error s2) with e in Hc.
  destruct (Z.eqb_spec e SCS_ERR_SUCCESS); [|done]. destruct Hbad as [|Hv]; [done|]. by rewrite Hv in Hc.
Qed.

Lemma ack_resync c s s' : ifd_t1_ack_iblock c s = Ok s' ->
  t1_resync_level s' = t1_resync_level s /\ t1_resync_retry s' = t1_resync_retry s.
Proof.
  unfold ifd_t1_ack_iblock. intros. t1_frame.
  match goal with H : ifd_xchg_move _ _ _ _ = _ |- _ => apply ctl_move in H as [[= K1 K2 _ _ _] _] end. destruct c; done.
Qed.
Lemma acked_resync s s' : ifd_t1_acked_iblock s = Ok s' ->
  t1_resync_level s' = t1_resync_level s /\ t1_resync_retry s' = t1_resync_retry s.
Proof. unfold ifd_t1_acked_iblock. intros. t1_frame; [done|]. by destruct (_ =? _). Qed.

Lemma error_free_resets s s' : ifd_t1_error_free_operation s = Ok s' ->
  t1_resync_level s' = IFD_T1_RETRY_RETRNS /\ t1_resync_retry s' = IFD_T1_MAX_RETRY.
Proof.
  intros H. unfold ifd_t1_error_free_operation in H. t1_frame;
  match goal with H : ifd_t1_restore_buffer _ _ _ = Ok _ |- _ => apply ctl_restore_buffer in H as [[= K1 K2 K3 _ _] _] end;
  cbn [t1_set_result ifd_xchg_set_error set_pcb set_error t1_resync_level t1_resync_retry]; rewrite K1, K2;
  repeat match goal with
  | H : ifd_t1_acked_iblock _ = Ok _ |- _ => apply acked_resync in H as [? ?]
  | H : ifd_t1_ack_iblock _ _ = Ok _ |- _ => apply ack_resync in H as [? ?]
  end; cbn in *; try (split; congruence);
  repeat case_match; done.
Qed.

(** C37: error recovery ends.  When an exchange fails round after round, the first 8
    failures are answered with another attempt and from the 9th on the exchange is given
    up with SCS_ERR_HW_ERROR, whatever the card sends; one error free round starts the
    count anew. *)
Theorem t1_error_budget n s s' :
  t1_rx_cmpl s = false -> t1_resync_level s = IFD_T1_RETRY_RETRNS -> t1_resync_retry s = IFD_T1_MAX_RETRY ->
  nsteps fail_round (S n) s s' ->
  t1_error s' = (if (n <? 8)%nat then SCS_ERR_PROGRESS else SCS_ERR_HW_ERROR) /\
  forall s0 s1, ifd_t1_error_free_operation s0 = Ok s1 ->
    t1_resync_level s1 = IFD_T1_RETRY_RETRNS /\ t1_resync_retry s1 = IFD_T1_MAX_RETRY.
Proof.
  intros Hc Hl Hr Hn. split.
  - enough (G : forall n s s', budget_ok s -> nsteps fail_round (S n) s s' ->
        t1_error s' = if t1_budget s - Z.of_nat n <=? 0 then SCS_ERR_HW_ERROR else SCS_ERR_PROGRESS).
    { rewrite (G n s s'); [|unfold budget_ok; rewrite Hl, Hr, Hc; unfold IFD_T1_RETRY_RETRNS, IFD_T1_MAX_RETRY; lia|done].
      unfold t1_budget. rewrite Hl, Hr. unfold IFD_T1_RETRY_RETRNS, IFD_T1_MAX_RETRY.
      destruct (Nat.ltb_spec n 8), (Z.leb_spec ((3 - 1) * 4 - (3 - 3) - Z.of_nat n) 0); (done || lia). }
    clear. induction n as [|n IH]; intros s s' Hb Hn.
    + apply nsteps_once_inv in Hn. destruct (fail_round_budget s s' Hb Hn) as (Hb' & _ & ->).
      assert (0 <= t1_budget s) by (unfold t1_budget, IFD_T1_MAX_RETRY; destruct Hb; lia).
      destruct (Z.eqb_spec (t1_budget s) 0), (Z.leb_spec (t1_budget s - Z.of_nat 0) 0); (done || lia).
    + inversion Hn as [|? ? s1 ? Hs1 Hn']; subst. destruct (fail_round_budget s s1 Hb Hs1) as (Hb' & E & _).
      rewrite (IH s1 s' Hb' Hn'), E. destruct (Z.leb_spec (Z.max 0 (t1_budget s - 1) - Z.of_nat n) 0),
        (Z.leb_spec (t1_budget s - Z.of_nat (S n)) 0); (done || lia).
  - clear. intros s0 s1 H. by apply error_free_resets in H.
Qed.
(** The resynchronisation that is not requested.  After a failure at the second
    recovery level [ifd_t1_error_handling] selects S(RESYNC, request) (0xC0) as the next
    block, but [ifd_t1_xchg_aval] always builds an S-block as the response to the last
    request of the card: no state makes it send S(RESYNC, request). *)
Theorem t1_resync_not_requested s s1 s2 :
  t1_resync_level s = IFD_T1_RETRY_RESYNC ->
  ifd_t1_error_handling s = Ok s1 -> ifd_t1_xchg_aval s1 = Ok s2 ->
  t1_pcb s1 = IFD_T1_S_BLOCK ||| IFD_T1_S_RESYNC /\
  t1_pcb s2 = u8 (IFD_T1_S_BLOCK ||| t1_ack_type s1) ||| IFD_T1_S_R_BIT /\
  forall s s', ifd_t1_xchg_aval s = Ok s' -> t1_pcb s' <> IFD_T1_S_BLOCK ||| IFD_T1_S_RESYNC.
Proof.
  intros Hl He Ha.
  assert (E1 : t1_pcb s1 = IFD_T1_S_BLOCK ||| IFD_T1_S_RESYNC).
  { unfold ifd_t1_error_handling in He. rewrite Hl in He. cbn in He. res_inv. done. }
  split; [done|]. split.
  - unfold ifd_t1_xchg_aval in Ha. rewrite E1 in Ha. cbn [is_t] in Ha.
    change (is_t (IFD_T1_S_BLOCK ||| IFD_T1_S_RESYNC) IFD_T1_I_BLOCK) with false in Ha.
    change (is_t (IFD_T1_S_BLOCK ||| IFD_T1_S_RESYNC) IFD_T1_S_BLOCK) with true in Ha. cbn iota in Ha. res_inv.
    match goal with H : ifd_t1_build_sblock _ _ _ _ = _ |- _ => apply ctl_build_sblock in H as [_ H]; exact H end.
  - clear. intros s s' Ha. apply xchg_aval_pcb in Ha as [_ [(n & m & ->)|[(n & ->)|[->|[_ ->]]]]].
    + change 1 with (Z.ones 1) at 1. rewrite Z.land_ones by lia. change (2 ^ 1) with 2.
      destruct (Z.mod_pos_bound n 2 ltac:(lia)). assert (n mod 2 = 0 \/ n mod 2 = 1) as [-> | ->] by lia; by destruct m.
    + change 1 with (Z.ones 1). rewrite Z.land_ones by lia. change (2 ^ 1) with 2.
      destruct (Z.mod_pos_bound n 2 ltac:(lia)). assert (n mod 2 = 0 \/ n mod 2 = 1) as [-> | ->] by lia; done.
    + done.
    + intros E. apply (f_equal (fun x => Z.testbit x 5)) in E. rewrite Z.lor_spec, orb_true_r in E. done.
Qed.

(** ** Accepting blocks *)
Definition s_request (pcb : Z) : bool := is_t pcb IFD_T1_S_BLOCK && negb (Z.testbit pcb 5).
Definition s_response (pcb : Z) : bool := is_t pcb IFD_T1_S_BLOCK && Z.testbit pcb 5.

Lemma is_t_cases pcb :
  is_t pcb IFD_T1_R_BLOCK = true /\ is_t pcb IFD_T1_I_BLOCK = false /\ is_t pcb IFD_T1_S_BLOCK = false \/
  is_t pcb IFD_T1_R_BLOCK = false /\ is_t pcb IFD_T1_I_BLOCK = true /\ is_t pcb IFD_T1_S_BLOCK = false \/
  is_t pcb IFD_T1_R_BLOCK = false /\ is_t pcb IFD_T1_I_BLOCK = false /\ is_t pcb IFD_T1_S_BLOCK = true.
Proof. unfold is_t, ifd_t1_t. repeat case_match; auto. Qed.

Ltac t1_type p :=
  let H1 := fresh "Hp" in let H2 := fresh "Hp" in let H3 := fresh "Hp" in
  destruct (is_t_cases p) as [(H1 & H2 & H3)|[(H1 & H2 & H3)|(H1 & H2 & H3)]].

(** Requests and responses pair.  A block that [ifd_t1_block_valid] accepts is an
    S-block response if and only if the block sent last is an S-block request, and then
    their codes are the same; an accepted S-block is a RESYNC response, an IFS or ABORT
    block or a WTX request. *)
Theorem t1_sblock_pairing s pcb :
  ifd_t1_block_valid s = Ok true -> ifd_t1_xfr_read 1 s = Ok pcb ->
  s_request (t1_pcb s) = s_response pcb /\
  (s_response pcb = true -> (pcb &&& 0x0F) = (t1_pcb s &&& 0x0F)) /\
  (is_t pcb IFD_T1_S_BLOCK = true ->
     ((pcb &&& 0x0F) = IFD_T1_S_RESYNC /\ s_response pcb = true) \/ (pcb &&& 0x0F) = IFD_T1_S_IFS \/
     (pcb &&& 0x0F) = IFD_T1_S_ABORT \/ ((pcb &&& 0x0F) = IFD_T1_S_WTX /\ s_request pcb = true)).
Proof.
  intros H Hr. unfold ifd_t1_block_valid in H. rewrite Hr in H.
  destruct (ifd_t1_verify_checksum s) as [[]|]; [|done..]. cbn [mbind res_mbind negb] in H.
  destruct (ifd_t1_xfr_read 2 s) as [len|]; [|done]. destruct (ifd_t1_xfr_read 3 s) as [info|] eqn:Hi; [|done]. cbn [mbind res_mbind] in H.
  unfold response_expected, sblock_valid, ifd_t1_r, ifd_t1_s, s_request, s_response in *. rewrite Hi in H.
  t1_type (t1_pcb s); t1_type pcb; repeat match goal with E : is_t _ _ = _ |- _ => rewrite ?E in H; rewrite ?E; clear E end;
  destruct (Z.testbit pcb 5), (Z.testbit (t1_pcb s) 5); cbn [negb andb orb bug_on mbind res_mbind] in H |- *; try done;
  destruct (Z.eqb_spec (pcb &&& 0x0F) IFD_T1_S_RESYNC), (Z.eqb_spec (pcb &&& 0x0F) IFD_T1_S_ABORT),
    (Z.eqb_spec (pcb &&& 0x0F) IFD_T1_S_IFS), (Z.eqb_spec (pcb &&& 0x0F) IFD_T1_S_WTX),
    (Z.eqb_spec (pcb &&& 0x0F) (t1_pcb s &&& 0x0F)); cbn [negb andb orb bug_on mbind res_mbind] in H; try done;
  repeat case_match; naive_solver.
Qed.
Lemma next_seq n : in_u 8 n -> (u8 (n + 1) &&& 1) = 1 - (n &&& 1).
Proof.
  intros Hn. change 1 with (Z.ones 1) at 2 4. rewrite !Z.land_ones by lia. unfold wrap. change (2 ^ 1) with 2.
  rewrite Z.mod_mod_divide by (exists (2 ^ 7); lia). pose proof (Z.mod_pos_bound n 2 ltac:(lia)).
  pose proof (Z.div_mod n 2 ltac:(lia)). symmetry. apply (Z.mod_unique _ _ (n / 2 + n mod 2)); lia.
Qed.

Lemma ack_seq c s s' : ifd_t1_ack_iblock c s = Ok s' -> t1_nr s' = u8 (t1_nr s + 1) /\ t1_ns s' = t1_ns s.
Proof.
  unfold ifd_t1_ack_iblock. intros. t1_frame.
  match goal with H : ifd_xchg_move _ _ _ _ = _ |- _ => apply ctl_move in H as [[= _ _ _ K1 K2] _] end. destruct c; done.
Qed.
Lemma acked_seq s s' : ifd_t1_acked_iblock s = Ok s' ->
  t1_nr s' = t1_nr s /\ t1_ns s' = if t1_tx_cmpl s then t1_ns s else u8 (t1_ns s + 1).
Proof. unfold ifd_t1_acked_iblock. intros. t1_frame; [done|]. by destruct (_ =? _). Qed.

(** Sequence numbers of received I-blocks.  An intact I-block that arrives after an
    I-block was sent is valid exactly if the block sent was the last of its chain and N(S)
    is the expected number; after an R-block every N(S) is valid, after an S-block the
    I-block is valid if the S-block was a response.  Processing the block flips the number
    expected next, so the same block is not expected again, and the own number if the
    block just sent was not acknowledged before. *)
Theorem t1_iblock_sequence s pcb len info :
  in_u 8 (t1_nr s) -> in_u 8 (t1_ns s) ->
  ifd_t1_verify_checksum s = Ok true -> ifd_t1_xfr_read 1 s = Ok pcb -> ifd_t1_xfr_read 2 s = Ok len ->
  ifd_t1_xfr_read 3 s = Ok info -> is_t pcb IFD_T1_I_BLOCK = true ->
  ifd_t1_block_valid s = Ok
    (if is_t (t1_pcb s) IFD_T1_I_BLOCK
     then negb (Z.testbit (t1_pcb s) 5) && (((pcb &&& 0x40) >>> 6) =? ifd_t1_xfr_nr s)
     else negb (s_request (t1_pcb s))) /\
  forall s', ifd_t1_error_free_operation s = Ok s' ->
    ifd_t1_xfr_nr s' = 1 - ifd_t1_xfr_nr s /\
    ifd_t1_xfr_ns s' = if t1_tx_cmpl s then ifd_t1_xfr_ns s else 1 - ifd_t1_xfr_ns s.
Proof.
  intros Hnr Hns Hv H1 H2 H3 Ht. assert (Hr : is_t pcb IFD_T1_R_BLOCK = false) by (t1_type pcb; congruence).
  assert (Hs : is_t pcb IFD_T1_S_BLOCK = false) by (t1_type pcb; congruence). split.
  - unfold ifd_t1_block_valid. rewrite Hv, H1, H2, H3. cbn [mbind res_mbind negb].
    unfold response_expected, ifd_t1_r, ifd_t1_s, ifd_t1_m, ifd_t1_n, s_request. rewrite Hr, Ht, Hs.
    t1_type (t1_pcb s); rewrite ?Hp, ?Hp0, ?Hp1; destruct (Z.testbit (t1_pcb s) 5); cbn [mbind res_mbind negb bug_on andb orb]; try done.
    by destruct (_ =? _).
  - intros s' H. unfold ifd_t1_error_free_operation in H.
    change (ifd_t1_xfr_read 1 (ifd_t1_resync_reset s)) with (ifd_t1_xfr_read 1 s) in H.
    change (ifd_t1_xfr_read 3 (ifd_t1_resync_reset s)) with (ifd_t1_xfr_read 3 s) in H.
    rewrite H1, H3 in H. cbn [mbind res_mbind] in H. rewrite Hr, Ht in H.
    t1_frame. match goal with H : ifd_t1_restore_buffer _ _ _ = Ok _ |- _ => apply ctl_restore_buffer in H as [[= _ _ _ K1 K2] _] end.
    match goal with H : ifd_t1_acked_iblock _ = Ok _ |- _ => apply acked_seq in H as [A1 A2] end.
    match goal with H : ifd_t1_ack_iblock _ _ = Ok _ |- _ => apply ack_seq in H as [B1 B2] end.
    unfold ifd_t1_xfr_nr, ifd_t1_xfr_ns. cbn in *. rewrite K1, K2, B1, B2, A1, A2.
    split; [by apply next_seq|]. destruct (t1_tx_cmpl s); [done|by apply next_seq].
Qed.
Definition in_buffer (e : t1_event) : Prop :=
  match e with OBlock _ _ p n _ => p + n <= IFD_BUF_SIZE | _ => True end.

(** While the answer is received (the command is sent) the receive block is placed where a
    block of [ifsd] bytes fits. *)
Lemma save_buffer_answer s : let eps := ifd_t1_epilogue_size s in let safe := 3 + eps + t1_ifsd s in
  buff_ok s -> t1_tx s = t1_nc s -> 0 <= t1_ifsd s -> safe < 2 ^ 8 -> safe <= IFD_BUF_SIZE ->
  0 <= t1_rx s <= IFD_BUF_SIZE -> safe - (IFD_BUF_SIZE - t1_rx s) <= 8 ->
  exists s1, ifd_t1_save_buffer s = Ok s1 /\ t1_out s1 = t1_out s /\ ifd_t1_epilogue_size s1 = eps /\ t1_ifsd s1 = t1_ifsd s /\
    t1_rx_blk s1 = Z.min (t1_rx s) (IFD_BUF_SIZE - safe) /\ t1_tx_blk s1 = t1_rx_blk s1.
Proof.
  intros eps safe Hs Htx Hd Hsafe Hfit Hrx H8. pose proof Hs as (Hlen & H16 & _).
  assert (Dsafe : safe = 3 + eps + t1_ifsd s) by done.
  assert (1 <= eps) by apply epilogue_size_range.
  assert (Es : ifd_t1_safe_size s = safe).
  { unfold ifd_t1_safe_size, IFD_T1_PROLOGUE_SIZE. rewrite wrap_id by (change (ifd_t1_epilogue_size s) with eps; lia). done. }
  unfold ifd_t1_save_buffer. rewrite Es, (proj2 (Z.ltb_ge (t1_tx s) (t1_nc s))) by lia. cbv zeta.
  destruct (Z.ltb_spec (IFD_BUF_SIZE - t1_rx s) safe).
  - rewrite (wrap_id 8), (wrap_id 16) by lia. rewrite save_ok by (done || lia). cbn [mbind res_mbind].
    eexists. split; [reflexivity|]. cbn. rewrite wrap_id by lia. repeat split; lia.
  - cbn [mbind res_mbind]. eexists. split; [reflexivity|]. cbn. rewrite wrap_id by lia. repeat split; lia.
Qed.

Lemma ne_expire_fits s start s' : Forall (fun b => in_u 8 b) (t1_buff s) -> in_u 16 (t1_rx_blk s) ->
  t1_rx_blk s + 3 + ifd_t1_epilogue_size s + t1_ifsd s <= IFD_BUF_SIZE -> IFD_BUF_SIZE < 2 ^ 16 ->
  ifd_t1_ne_expire start s = Ok s' -> forall e, e ∈ t1_out s' -> e ∈ t1_out s \/ in_buffer e.
Proof.
  intros Hu Hr Hfit H16 H e He. unfold ifd_t1_ne_expire, IFD_T1_PROLOGUE_SIZE in H. cbv zeta in H.
  pose proof (epilogue_size_range s) as Heps. destruct (negb (t1_cmpl s)); res_inv.
  - match goal with H : ifd_xchg_read _ _ = Ok ?x |- _ => assert (Hx : in_u 8 x); [|clear H; rename x into r] end.
    { unfold ifd_xchg_read, rd in *. res_inv. rewrite Forall_lookup in Hu. by eapply Hu. }
    change (t1_ifsd (set_rx_len r s)) with (t1_ifsd s) in H. change (t1_rx_len (set_rx_len r s)) with r in H.
    destruct (Z.ltb_spec (t1_ifsd s) r) as [|Hle]; res_inv; cbn [t1_out emit set_cmpl set_out set_rx_len] in He;
      apply elem_of_app in He as [He|He%list_elem_of_singleton]; [by left|by right; subst|by left|].
    right. subst. cbn [in_buffer t1_rx_blk set_rx_len]. change (ifd_t1_epilogue_size (set_rx_len r s)) with (ifd_t1_epilogue_size s).
    rewrite !wrap_id by lia. lia.
  - cbn [t1_out emit set_out] in He. apply elem_of_app in He as [He|He%list_elem_of_singleton]; [by left|by right; subst].
Qed.
End T1.

(** ** Concrete states *)
Definition t1_sample (buff : list Z) (tx nc rx conf_ifsd : Z) : t1 :=
  MkT1 0 IFD_T1_WI_IMPLICIT 32 0 conf_ifsd false (replicate 8 0) 0 0 0 (tx =? nc) false 0 0 0 0 3 3
    tx rx nc 0 0 0 0 conf_ifsd 0 0 buff 0 [].

(** C39: where the answer is received.  Once the command is sent, [ifd_t1_save_buffer]
    places the receive block such that the receptions [ifd_t1_ne_expire] starts stay inside
    the exchange buffer, if the size of the largest block is below 256 and it reaches at most
    8 bytes into what has been received; but that size is kept in 8 bits, and with [ifsd] 254 (the largest legal value) and a 261 byte buffer the
    reception of the rest of a block extends to byte 262. *)
Theorem t1_answer_fits IFD_BUF_SIZE s : let eps := ifd_t1_epilogue_size s in let safe := 3 + eps + t1_ifsd s in
  buff_ok IFD_BUF_SIZE s -> t1_tx s = t1_nc s -> 0 <= t1_ifsd s -> safe < 2 ^ 8 -> safe <= IFD_BUF_SIZE ->
  0 <= t1_rx s <= IFD_BUF_SIZE -> safe - (IFD_BUF_SIZE - t1_rx s) <= 8 ->
  (exists s1, ifd_t1_save_buffer IFD_BUF_SIZE s = Ok s1 /\
    forall b c start s2, Forall (fun b => in_u 8 b) b -> ifd_t1_ne_expire start (set_cmpl c (set_buff b s1)) = Ok s2 ->
      forall e, e ∈ t1_out s2 -> e ∈ t1_out s \/ in_buffer IFD_BUF_SIZE e) /\
  (exists s1 s2, ifd_t1_xchg_aval 261 254 false (t1_sample (replicate 261 0) 5 5 4 254) = Ok s1 /\
    ifd_t1_ne_expire 4 (set_buff (<[6%nat := 254]> (t1_buff s1)) s1) = Ok s2 /\
    last (t1_out s2) = Some (OBlock 0 0 7 255 0)).
Proof.
  intros eps safe Hs Htx Hd Hsafe Hfit Hrx H8. split.
  - destruct (save_buffer_answer IFD_BUF_SIZE s Hs Htx Hd Hsafe Hfit Hrx H8) as (s1 & E & Ho & Ee & Ed & Eb & _).
    exists s1. split; [done|]. intros b c start s2 Hb H e He. rewrite <- Ho. pose proof Hs as (_ & H16 & _).
    fold eps safe in Eb. assert (1 <= eps <= 2) by apply epilogue_size_range. assert (Dsafe : safe = 3 + eps + t1_ifsd s) by done.
    assert (Hx : t1_rx_blk s1 + 3 + ifd_t1_epilogue_size s1 + t1_ifsd s1 <= IFD_BUF_SIZE) by (rewrite Eb, Ee, Ed; lia).
    refine (ne_expire_fits IFD_BUF_SIZE (set_cmpl c (set_buff b s1)) start s2 Hb _ Hx H16 H e He).
    cbn [t1_rx_blk set_cmpl set_buff]. lia.
  - eexists. eexists. split; [vm_compute; reflexivity|]. split; [vm_compute; reflexivity|]. vm_compute. reflexivity.
Qed.

Lemma sample_ok n tx nc rx ifsd : Z.of_nat n < 2 ^ 16 -> buff_ok (Z.of_nat n) (t1_sample (replicate n 0) tx nc rx ifsd).
Proof. intros. split; [cbn; by rewrite length_replicate|]. split; [lia|]. apply Forall_replicate. lia. Qed.

Ltac t1_eval := first [by vm_compute | by left; vm_compute | cbn; lia].

Lemma t1_answer_fits_witness :
  exists s1, ifd_t1_save_buffer 261 (t1_sample (replicate 261 0) 5 5 231 32) = Ok s1.
Proof.
  destruct (proj1 (t1_answer_fits 261 (t1_sample (replicate 261 0) 5 5 231 32) (sample_ok 261 5 5 231 32 ltac:(lia))
    eq_refl ltac:(t1_eval) ltac:(t1_eval) ltac:(t1_eval) ltac:(t1_eval) ltac:(t1_eval))) as (s1 & E & _).
  exists s1. exact E.
Defined.

Lemma t1_checksum_detects_witness :
  exists s', ifd_t1_compute_checksum 261 false (t1_sample (replicate 261 0) 0 5 0 1) = Ok s'.
Proof.
  destruct (t1_checksum_detects 261 false (t1_sample (replicate 261 0) 0 5 0 1) (sample_ok 261 0 5 0 1 ltac:(lia))
    ltac:(t1_eval) ltac:(t1_eval) ltac:(t1_eval)) as (s' & E & _).
  exists s'. exact E.
Defined.

Lemma t1_buffer_roundtrip_witness :
  exists s1, ifd_t1_save_buffer 261 (set_ifsc 5 (t1_sample (replicate 261 0) 0 20 0 1)) = Ok s1.
Proof.
  destruct (t1_buffer_roundtrip 261 (set_ifsc 5 (t1_sample (replicate 261 0) 0 20 0 1))) as (s1 & E & _).
  - split; [exact (sample_ok 261 0 20 0 1 ltac:(lia))|]. repeat split; t1_eval.
  - exists s1. exact E.
Defined.

(** Rounds in which nothing is received. *)
Fixpoint mute_rounds (n : nat) (s : t1) : res t1 :=
  match n with
  | O => Ok s
  | S n => s1 ← ifd_t1_xchg_aval 261 254 false s;
           s ← ifd_t1_xchg_cmpl 261 false (set_error SCS_ERR_HW_ERROR s1); mute_rounds n s
  end.
Lemma mute_rounds_fail n : forall s s', mute_rounds n s = Ok s' -> nsteps (fail_round 261 254 false) n s s'.
Proof.
  induction n as [|n IH]; intros s s' H; cbn [mute_rounds] in H; res_inv; [constructor|].
  econstructor; [|by apply IH]. match goal with H : ifd_t1_xchg_aval _ _ _ _ = Ok ?x |- _ =>
    apply (FailRound _ _ _ _ x (t1_buff x) (t1_rx_len x) SCS_ERR_HW_ERROR (t1_cmpl x) (t1_out x)); [exact H|by left|] end.
  match goal with H : ifd_t1_xchg_cmpl _ _ _ = _ |- _ => exact H end.
Qed.

Lemma t1_error_budget_witness :
  exists s', nsteps (fail_round 261 254 false) 9 (t1_sample (replicate 261 0) 0 20 0 1) s' /\ t1_error s' = SCS_ERR_HW_ERROR.
Proof.
  assert (E : exists s', mute_rounds 9 (t1_sample (replicate 261 0) 0 20 0 1) = Ok s').
  { eexists. vm_compute. reflexivity. }
  destruct E as (s' & E). exists s'. split; [by apply mute_rounds_fail|].
  refine (proj1 (t1_error_budget 261 254 false 8 _ s' _ _ _ (mute_rounds_fail 9 _ s' E))); reflexivity.
Defined.

Lemma t1_resync_not_requested_witness : exists s1 s2,
  ifd_t1_error_handling 261 (set_resync_level 2 (t1_sample (replicate 261 0) 0 20 0 1)) = Ok s1 /\
  ifd_t1_xchg_aval 261 254 false s1 = Ok s2 /\ t1_pcb s2 = 0xE0.
Proof.
  assert (E : exists s1, ifd_t1_error_handling 261 (set_resync_level 2 (t1_sample (replicate 261 0) 0 20 0 1)) = Ok s1 /\
    t1_ack_type s1 = 0 /\ exists s2, ifd_t1_xchg_aval 261 254 false s1 = Ok s2).
  { eexists. split; [vm_compute; reflexivity|]. split; [reflexivity|]. eexists. vm_compute. reflexivity. }
  destruct E as (s1 & E1 & Ea & s2 & E2). exists s1, s2. split; [done|]. split; [done|].
  destruct (t1_resync_not_requested 261 254 false (set_resync_level 2 (t1_sample (replicate 261 0) 0 20 0 1)) s1 s2 eq_refl E1 E2) as (_ & -> & _). by rewrite Ea.
Defined.

(** A sent block of type [pcb], and the block [block] with [len] bytes that was received. *)
Definition t1_received (pcb len : Z) (block : list Z) : t1 :=
  set_rx_len len (set_pcb pcb (t1_sample (block ++ replicate (261 - length block) 0) 0 20 0 1)).

Lemma t1_sblock_pairing_witness : s_request 0xC1 = s_response 0xE1 /\ s_response 0xE1 = true.
Proof.
  split; [|reflexivity].
  refine (proj1 (t1_sblock_pairing false (t1_received 0xC1 1 [0; 0xE1; 1; 1; 0xE1]) 0xE1 _ _)); vm_compute; reflexivity.
Defined.

Lemma t1_iblock_sequence_witness : ifd_t1_block_valid false (t1_received 0 1 [0; 0; 1; 7; 6]) = Ok true.
Proof.
  refine (proj1 (t1_iblock_sequence 261 false (t1_received 0 1 [0; 0; 1; 7; 6]) 0 1 7 _ _ _ _ _ _ _));
    t1_eval.
Defined.
