(* ===== verification/Bh.v ===== *)
(** * Bh: bottom halves and interrupt dispatch

    kernel/bh.c and the dispatch part of kernel/irq.c (one CPU, no MSI).  [bh_state] holds
    the bitmap of awake bottom halves, the table of their handlers, the pollers, and
    [bh_runs], the bottom halves that were run with their event (what [bh_run] reports with
    [idle_debug]).  Handlers are numbered; [call] is what they do to the state. *)
From S2P Require Import Prelude Bitops Bitmap.
From stdpp Require Import list sorting.
Local Open Scope Z_scope.
Local Open Scope c_scope.

Definition BH_WAKEUP : Z := 0.
Definition BH_POLLIRQ : Z := 1.

Record bh_state : Type := MkBh {
  bh_awakes : list Z;
  bh_entries : list (option nat);
  bh_nr_regs : Z;
  irq_poll_regs : list Z;
  irq_is_polling : bool;
  bh_runs : list (Z * Z) }.

Definition set_awakes (v : list Z) (s : bh_state) : bh_state :=
  MkBh v (bh_entries s) (bh_nr_regs s) (irq_poll_regs s) (irq_is_polling s) (bh_runs s).
Definition set_entries (v : list (option nat)) (s : bh_state) : bh_state :=
  MkBh (bh_awakes s) v (bh_nr_regs s) (irq_poll_regs s) (irq_is_polling s) (bh_runs s).
Definition set_nr_regs (v : Z) (s : bh_state) : bh_state :=
  MkBh (bh_awakes s) (bh_entries s) v (irq_poll_regs s) (irq_is_polling s) (bh_runs s).
Definition set_poll (v : list Z) (s : bh_state) : bh_state :=
  MkBh (bh_awakes s) (bh_entries s) (bh_nr_regs s) v true (bh_runs s).
Definition idle_debug (bh event : Z) (s : bh_state) : bh_state :=
  MkBh (bh_awakes s) (bh_entries s) (bh_nr_regs s) (irq_poll_regs s) (irq_is_polling s) (bh_runs s ++ [(bh, event)]).

Section Bh.
(** CONFIG_MAX_BHS, the console's bottom half and the registered handlers. *)
Context (NR_BHS console_bh : Z) (call : nat -> Z -> bh_state -> res bh_state).
Context {U : BitUnit}.

Definition INVALID_BH : Z := NR_BHS.

(** A handler that was not registered is a null pointer. *)
Definition bh_run (bh event : Z) (s : bh_state) : res bh_state :=
  let s := idle_debug bh event s in
  entry ← oob (bh_entries s !! Z.to_nat bh);
  handler ← oob entry;
  call handler event s.

Definition bh_suspend (bh : Z) (s : bh_state) : res bh_state :=
  a ← __clear_bit bh (bh_awakes s); Ok (set_awakes a s).
Definition bh_resume (bh : Z) (s : bh_state) : res bh_state :=
  a ← __set_bit bh (bh_awakes s); Ok (set_awakes a s).

Definition bh_resumed (last_bh : Z) (recursive : bool) (s : bh_state) : res Z :=
  bh ← find_next_set_bit (bh_awakes s) NR_BHS last_bh;
  if (last_bh =? 0) || negb (bh =? INVALID_BH) || negb recursive then Ok bh
  else find_next_set_bit (bh_awakes s) NR_BHS 0.

Definition bh_run_once (bh : Z) (recursive : bool) (s : bh_state) : res (Z * bh_state) :=
  next_bh ← bh_resumed bh recursive s;
  if next_bh =? INVALID_BH then Ok (next_bh, s)
  else
    s ← bh_suspend next_bh s;
    s ← bh_run next_bh BH_WAKEUP s;
    let next_bh := u8 (next_bh + 1) in
    Ok (if recursive && (next_bh =? INVALID_BH) then 0 else next_bh, s).

(** [smp_initialized] holds after boot. *)
Definition bh_register_handler (handler : nat) (s : bh_state) : res (Z * bh_state) :=
  let bh := bh_nr_regs s in
  _ ← bug_on (bh =? NR_BHS);
  _ ← oob (bh_entries s !! Z.to_nat bh);
  Ok (bh, set_nr_regs (u8 (bh + 1)) (set_entries (<[Z.to_nat bh := Some handler]> (bh_entries s)) s)).

Fixpoint sync_loop (fuel : nat) (recursive : bool) (bh : Z) (s : bh_state) : res bh_state :=
  if bh =? INVALID_BH then Ok s
  else match fuel with
  | O => Fault FHang
  | S fuel =>
      if negb recursive || negb (bh =? console_bh) then
        '(bh, s) ← bh_run_once bh recursive s; sync_loop fuel recursive bh s
      else sync_loop fuel recursive (u8 (bh + 1)) s
  end.
Definition __bh_sync (fuel : nat) (recursive : bool) (s : bh_state) : res bh_state := sync_loop fuel recursive 0 s.

(** ** kernel/irq.c: polling *)
Fixpoint poll_loop (sync : bool) (n : nat) (bh : Z) (s : bh_state) : res bh_state :=
  match n with
  | O => Ok s
  | S n =>
      b ← test_bit bh (irq_poll_regs s);
      s ← (if (b : bool) && (negb sync || negb (bh =? console_bh)) then bh_run bh BH_POLLIRQ s else Ok s);
      poll_loop sync n (bh + 1) s
  end.
Definition irq_poll_bh (sync : bool) (s : bh_state) : res (bool * bh_state) :=
  if negb (irq_is_polling s) then Ok (false, s)
  else s ← poll_loop sync (Z.to_nat NR_BHS) 0 s; Ok (true, s).
Definition irq_register_poller (bh : Z) (s : bh_state) : res bh_state :=
  p ← __set_bit bh (irq_poll_regs s); Ok (set_poll p s).

(** One iteration of [bh_loop], and [bh_sync]; interrupts that arrive meanwhile are not
    modelled. *)
Definition bh_loop_body (fuel : nat) (s : bh_state) : res bh_state :=
  s ← __bh_sync fuel false s; '(_, s) ← irq_poll_bh false s; Ok s.
Definition bh_sync (fuel : nat) (s : bh_state) : res bh_state :=
  s ← __bh_sync fuel true s; '(_, s) ← irq_poll_bh true s; Ok s.

(** ** Well-formed states and handlers *)
Definition awake (s : bh_state) (b : Z) : bool := bm_bit (bh_awakes s) b.
Definition bitmap_ok (m : list Z) : Prop := bm_wf m /\ bm_room m NR_BHS.
Definition bh_wf (s : bh_state) : Prop :=
  bitmap_ok (bh_awakes s) /\ bitmap_ok (irq_poll_regs s) /\
  (forall b, 0 <= b < NR_BHS -> awake s b = true \/ bm_bit (irq_poll_regs s) b = true ->
     exists h, bh_entries s !! Z.to_nat b = Some (Some h)).

(** Handlers return, may wake bottom halves, and leave the rest alone. *)
Definition handlers_ok : Prop := forall h event s, bh_wf s ->
  exists s', call h event s = Ok s' /\ bh_wf s' /\ bh_runs s' = bh_runs s /\
    irq_poll_regs s' = irq_poll_regs s /\ forall b, 0 <= b < NR_BHS -> awake s b = true -> awake s' b = true.

Context (Hnr : 0 < NR_BHS < 2 ^ 8) (Hcall : handlers_ok).

Lemma nr_unit b : 0 <= b <= NR_BHS -> in_u BITS_PER_UNIT b.
Proof using Hnr.
  clear Hcall. intros. pose proof W_pos. assert (2 ^ 8 <= 2 ^ BITS_PER_UNIT) by (apply Z.pow_le_mono_r; lia). lia.
Qed.

(** A bottom half that is awake or polls can be suspended and run. *)
Lemma suspend_ok s b : bh_wf s -> 0 <= b < NR_BHS -> awake s b = true -> exists s',
  bh_suspend b s = Ok s' /\ bh_wf s' /\ bh_runs s' = bh_runs s /\ bh_entries s' = bh_entries s /\
  irq_poll_regs s' = irq_poll_regs s /\
  forall i, 0 <= i -> awake s' i = if bool_decide (i = b) then false else awake s i.
Proof using Hnr.
  clear Hcall call. intros ((Hwf & Hroom) & Hp & He) Hb Ha.
  destruct (update_word_clear b (bh_awakes s)) as (w & a & E & (Hwf' & Hl & Hbits) & _);
    [apply nr_unit; lia|unfold bm_room in Hroom; lia|done|].
  exists (set_awakes a s). unfold bh_suspend, __clear_bit. rewrite E. split; [done|].
  split; [|done]. split; [split; [done|unfold bm_room in *; cbn; by rewrite Hl]|]. split; [done|].
  intros i Hi Hai. apply He; [done|]. destruct Hai as [Hai|]; [|by right]. unfold awake in Hai. cbn in Hai.
  rewrite Hbits in Hai by lia. case_bool_decide; [done|by left].
Qed.
Lemma run_ok s b event : bh_wf s -> 0 <= b < NR_BHS ->
  (exists h, bh_entries s !! Z.to_nat b = Some (Some h)) -> exists s',
  bh_run b event s = Ok s' /\ bh_wf s' /\ bh_runs s' = bh_runs s ++ [(b, event)] /\
  irq_poll_regs s' = irq_poll_regs s /\ forall i, 0 <= i < NR_BHS -> awake s i = true -> awake s' i = true.
Proof using Hcall.
  intros Hwf Hb (h & He). destruct (Hcall h event (idle_debug b event s)) as (s' & E & Hs'); [by destruct Hwf as (? & ? & ?)|].
  exists s'. unfold bh_run. cbn [idle_debug bh_entries]. rewrite He. cbn [oob mbind res_mbind]. split; [exact E|].
  destruct Hs' as (? & -> & -> & ?). done.
Qed.

(** The next awake bottom half at or after [bh]. *)
Lemma next_awake s bh : bh_wf s -> 0 <= bh < NR_BHS -> exists r,
  find_next_set_bit (bh_awakes s) NR_BHS bh = Ok r /\ is_next (awake s) NR_BHS bh r.
Proof using Hnr.
  clear Hcall call. intros ((Hwf & Hroom) & _) Hb.
  destruct (find_next_set_bit_spec (bh_awakes s) NR_BHS bh) as (r & E & Hr); [done..|apply nr_unit; lia|apply nr_unit; lia|].
  rewrite bool_decide_false in Hr by lia. by exists r.
Qed.

(** [bh_run_once] of the main loop: nothing from [bh] on is awake, or the first one is run. *)
Lemma run_once_ok s bh : bh_wf s -> 0 <= bh < NR_BHS ->
  (bh_run_once bh false s = Ok (INVALID_BH, s) /\ forall b, bh <= b < NR_BHS -> awake s b = false) \/
  exists r s', bh_run_once bh false s = Ok (r + 1, s') /\ bh <= r < NR_BHS /\ bh_wf s' /\
    bh_runs s' = bh_runs s ++ [(r, BH_WAKEUP)] /\ irq_poll_regs s' = irq_poll_regs s /\
    (forall b, bh <= b < r -> awake s b = false) /\
    forall i, 0 <= i < NR_BHS -> i <> r -> awake s i = true -> awake s' i = true.
Proof using Hcall Hnr.
  intros Hwf Hb. unfold bh_run_once, bh_resumed, INVALID_BH. destruct (next_awake s bh Hwf Hb) as (r & -> & Hr & Hno & Hyes).
  cbn [mbind res_mbind negb]. rewrite orb_true_r. cbn [mbind res_mbind].
  destruct (Z.eqb_spec r NR_BHS) as [->|Hne]; [by left|]. right. specialize (Hyes ltac:(lia)).
  destruct (suspend_ok s r Hwf ltac:(lia) Hyes) as (s1 & -> & Hwf1 & Hr1 & He1 & Hp1 & Ha1). cbn [mbind res_mbind].
  destruct (run_ok s1 r BH_WAKEUP Hwf1 ltac:(lia)) as (s2 & -> & Hwf2 & Hr2 & Hp2 & Ha2).
  { rewrite He1. destruct Hwf as (_ & _ & He). apply He; [lia|by left]. }
  cbn [mbind res_mbind andb]. rewrite wrap_id by lia. exists r, s2. split; [done|]. split; [lia|]. split; [done|].
  split; [by rewrite Hr2, Hr1|]. split; [by rewrite Hp2|]. split; [done|]. intros i Hi Hne' Hai. apply Ha2; [done|].
  rewrite Ha1, bool_decide_false by lia. done.
Qed.

Definition woken (l : list Z) : list (Z * Z) := map (fun b => (b, BH_WAKEUP)) l.

Lemma sync_pass fuel : forall bh s, bh_wf s -> 0 <= bh <= NR_BHS -> NR_BHS - bh <= Z.of_nat fuel ->
  exists s' l, sync_loop fuel false bh s = Ok s' /\ bh_wf s' /\ bh_runs s' = bh_runs s ++ woken l /\
    irq_poll_regs s' = irq_poll_regs s /\
    StronglySorted Z.lt l /\ Forall (fun b => bh <= b < NR_BHS) l /\
    forall b, bh <= b < NR_BHS -> awake s b = true -> b ∈ l.
Proof using Hcall Hnr.
  induction fuel as [|fuel IH]; intros bh s Hwf Hb Hf; cbn [sync_loop]; unfold INVALID_BH at 1.
  - rewrite (proj2 (Z.eqb_eq bh NR_BHS)) by lia. exists s, []. rewrite app_nil_r. repeat split; try apply Hwf; try constructor. lia.
  - destruct (Z.eqb_spec bh NR_BHS) as [->|Hne].
    { exists s, []. rewrite app_nil_r. repeat split; try apply Hwf; try constructor. lia. }
    cbn [negb orb]. destruct (run_once_ok s bh Hwf ltac:(lia)) as [[-> Hno]|(r & s1 & -> & Hr & Hwf1 & Hr1 & Hp1 & Hno & Ha)].
    + cbn [mbind res_mbind]. exists s, []. rewrite app_nil_r. split.
      { destruct fuel; cbn [sync_loop]; by rewrite Z.eqb_refl. }
      repeat split; try apply Hwf; try constructor. intros b Hb' E. rewrite Hno in E; done.
    + cbn [mbind res_mbind]. destruct (IH (r + 1) s1 Hwf1 ltac:(lia) ltac:(lia)) as (s' & l & -> & Hwf' & Hr' & Hp' & Hs & Hl & Hall).
      exists s', (r :: l). split; [done|]. split; [done|]. split; [by rewrite Hr', Hr1, <- app_assoc|]. split; [by rewrite Hp'|].
      split; [|split].
      * constructor; [done|]. eapply Forall_impl; [exact Hl|]. cbn. lia.
      * constructor; [lia|]. eapply Forall_impl; [exact Hl|]. cbn. lia.
      * intros b Hb' E. destruct (decide (b = r)) as [->|]; [left|]. right. apply Hall; [|apply Ha; [lia|done..]].
        destruct (decide (b < r)); [rewrite Hno in E by lia; done|lia].
Qed.
(** The pollers from [bh] on, with the console's left out if [sync]. *)
Definition pollers (sync : bool) (s : bh_state) (bh : Z) (n : nat) : list Z :=
  filter (fun b => bm_bit (irq_poll_regs s) b && (negb sync || negb (b =? console_bh)) = true) (seqZ bh (Z.of_nat n)).
Definition polled (l : list Z) : list (Z * Z) := map (fun b => (b, BH_POLLIRQ)) l.

Lemma poll_pass sync n : forall bh s, bh_wf s -> 0 <= bh -> bh + Z.of_nat n = NR_BHS ->
  exists s', poll_loop sync n bh s = Ok s' /\ bh_wf s' /\ bh_runs s' = bh_runs s ++ polled (pollers sync s bh n).
Proof using Hcall Hnr.
  induction n as [|n IH]; intros bh s Hwf Hb Hn; cbn [poll_loop].
  - exists s. unfold pollers, polled. cbn. by rewrite app_nil_r.
  - pose proof Hwf as (_ & (Hpw & Hpr) & He). unfold bm_room in Hpr.
    rewrite test_bit_spec by (done || (apply nr_unit; lia) || lia). cbn [mbind res_mbind].
    unfold pollers. rewrite seqZ_cons by lia. replace (Z.pred (Z.of_nat (S n))) with (Z.of_nat n) by lia.
    rewrite filter_cons. replace (Z.succ bh) with (bh + 1) by lia.
    destruct (bm_bit (irq_poll_regs s) bh && (negb sync || negb (bh =? console_bh))) eqn:E.
    + rewrite decide_True by done. apply andb_true_iff in E as [E _].
      destruct (run_ok s bh BH_POLLIRQ Hwf ltac:(lia)) as (s1 & -> & Hwf1 & Hr1 & Hp1 & _); [apply He; [lia|by right]|].
      cbn [mbind res_mbind]. destruct (IH (bh + 1) s1 Hwf1 ltac:(lia) ltac:(lia)) as (s' & -> & Hwf' & Hr').
      exists s'. split; [done|]. split; [done|]. rewrite Hr', Hr1, <- app_assoc. unfold pollers. by rewrite Hp1.
    + rewrite decide_False by done. cbn [mbind res_mbind]. apply (IH (bh + 1) s); [done|lia..].
Qed.

(** C40: one turn of the main loop.  With handlers that return and do not put other bottom
    halves to sleep, [bh_loop] runs bottom halves one after the other in the order of their
    numbers, each at most once and every one that is awake among them, and then, if
    [irq_is_polling] is set (registering a poller sets it), polls every poller registered
    when the turn began (handlers do not register or remove any), in order; NR_BHS steps of fuel are enough for it. *)
Theorem bh_loop_correct s : bh_wf s -> exists s' l,
  bh_loop_body (Z.to_nat NR_BHS) s = Ok s' /\ bh_wf s' /\
  StronglySorted Z.lt l /\ Forall (fun b => 0 <= b < NR_BHS) l /\
  (forall b, 0 <= b < NR_BHS -> awake s b = true -> b ∈ l) /\
  exists s1, __bh_sync (Z.to_nat NR_BHS) false s = Ok s1 /\
    bh_runs s' = bh_runs s ++ woken l ++
      (if irq_is_polling s1 then polled (pollers false s 0 (Z.to_nat NR_BHS)) else []).
Proof using Hcall Hnr.
  intros Hwf. destruct (sync_pass (Z.to_nat NR_BHS) 0 s Hwf ltac:(lia) ltac:(lia)) as (s1 & l & E & Hwf1 & Hr1 & Hp1 & Hs & Hl & Hall).
  unfold bh_loop_body, __bh_sync in *. rewrite E. cbn [mbind res_mbind]. unfold irq_poll_bh.
  destruct (irq_is_polling s1) eqn:Ep; cbn [negb mbind res_mbind].
  - destruct (poll_pass false (Z.to_nat NR_BHS) 0 s1 Hwf1 ltac:(lia) ltac:(lia)) as (s' & -> & Hwf' & Hr').
    cbn [mbind res_mbind]. exists s', l. repeat (split; [done|]). exists s1. split; [done|].
    rewrite Hr', Hr1, <- app_assoc, Ep. unfold pollers. by rewrite Hp1.
  - exists s1, l. repeat (split; [done|]). exists s1. split; [done|]. by rewrite Ep, app_nil_r.
Qed.

(** The console's bottom half is not kept out of [bh_sync].  [__bh_sync] skips the
    console only as the position a search starts at; if it is the first one that is awake,
    the search that starts at 0 finds it and its handler runs, although the call is made
    with [recursive] to prevent that. *)
Theorem bh_sync_runs_console fuel s : bh_wf s -> 0 < console_bh < NR_BHS -> awake s console_bh = true ->
  (forall b, 0 <= b < console_bh -> awake s b = false) ->
  exists s1 s2, bh_suspend console_bh s = Ok s1 /\ bh_run console_bh BH_WAKEUP s1 = Ok s2 /\
    bh_runs s2 = bh_runs s ++ [(console_bh, BH_WAKEUP)] /\
    __bh_sync (S fuel) true s =
      sync_loop fuel true (if console_bh + 1 =? NR_BHS then 0 else console_bh + 1) s2.
Proof using Hcall Hnr.
  intros Hwf Hc Ha Hno. destruct (suspend_ok s console_bh Hwf ltac:(lia) Ha) as (s1 & Es & Hwf1 & Hr1 & He1 & _).
  destruct (run_ok s1 console_bh BH_WAKEUP Hwf1 ltac:(lia)) as (s2 & Er & _ & Hr2 & _).
  { rewrite He1. destruct Hwf as (_ & _ & He). apply He; [lia|by left]. }
  exists s1, s2. split; [done|]. split; [done|]. split; [by rewrite Hr2, Hr1|].
  unfold __bh_sync. cbn [sync_loop]. unfold INVALID_BH at 1. rewrite (proj2 (Z.eqb_neq 0 NR_BHS)) by lia.
  cbn [negb orb]. rewrite (proj2 (Z.eqb_neq 0 console_bh)) by lia. cbn [negb].
  destruct (next_awake s 0 Hwf ltac:(lia)) as (r & E & Hr & Hnone & Hyes).
  assert (r = console_bh) as ->.
  { destruct (Z.lt_trichotomy r console_bh) as [Hlt|[?|Hgt]]; [|done|].
    - rewrite Hno in Hyes by lia. by specialize (Hyes ltac:(lia)).
    - rewrite Hnone in Ha by lia. done. }
  unfold bh_run_once, bh_resumed, INVALID_BH. rewrite E. cbn [mbind res_mbind Z.eqb orb].
  rewrite (proj2 (Z.eqb_neq console_bh NR_BHS)), Es by lia. cbn [mbind res_mbind]. rewrite Er. cbn [mbind res_mbind andb].
  by rewrite wrap_id by lia.
Qed.
End Bh.

(** ** kernel/irq.c: vectors *)
Record irq_state : Type := MkIrq { irq_nr_table : list Z; irq_handlers : list nat; irq_nr_regs : Z }.

Section Irq.
(** NR_IRQS and CONFIG_MAX_VECTORS, and what the handlers do to the rest of the system. *)
Context {World : Type} (NR_IRQS MAX_VECTORS : Z) (handle : nat -> Z -> World -> res World).

Definition irq_register_vector (irq : Z) (h : nat) (s : irq_state) : res irq_state :=
  let curr := irq_nr_regs s in
  _ ← bug_on ((irq <=? 0) || (NR_IRQS <=? irq));
  _ ← bug_on (curr =? MAX_VECTORS);
  _ ← oob (irq_nr_table s !! Z.to_nat curr);
  _ ← oob (irq_handlers s !! Z.to_nat curr);
  Ok (MkIrq (<[Z.to_nat curr := irq]> (irq_nr_table s)) (<[Z.to_nat curr := h]> (irq_handlers s)) (u8 (curr + 1))).

Fixpoint irq_scan (n : nat) (curr : Z) (irq : Z) (s : irq_state) (w : World) : res (bool * World) :=
  match n with
  | O => Ok (false, w)
  | S n =>
      i ← oob (irq_nr_table s !! Z.to_nat curr);
      if irq =? i then
        h ← oob (irq_handlers s !! Z.to_nat curr);
        w ← handle h irq w; Ok (true, w)
      else irq_scan n (curr + 1) irq s w
  end.
Definition do_IRQ (irq : Z) (s : irq_state) (w : World) : res (bool * World) :=
  _ ← bug_on ((NR_IRQS <=? irq) || (irq <=? 0));
  irq_scan (Z.to_nat (irq_nr_regs s)) 0 irq s w.

Definition __bad_interrupt : nat := 0.
Definition irq_vectors_init (s : irq_state) : irq_state :=
  MkIrq (irq_nr_table s) (replicate (Z.to_nat MAX_VECTORS) __bad_interrupt) (irq_nr_regs s).

(** The registrations, oldest first, and the one that serves an interrupt. *)
Definition registered (s : irq_state) : list (Z * nat) :=
  take (Z.to_nat (irq_nr_regs s)) (zip (irq_nr_table s) (irq_handlers s)).
Fixpoint handler_of (irq : Z) (l : list (Z * nat)) : option nat :=
  match l with [] => None | (i, h) :: l => if irq =? i then Some h else handler_of irq l end.
Definition irq_wf (s : irq_state) : Prop :=
  Z.of_nat (length (irq_nr_table s)) = MAX_VECTORS /\ Z.of_nat (length (irq_handlers s)) = MAX_VECTORS /\
  MAX_VECTORS < 2 ^ 8 /\ 0 <= irq_nr_regs s <= MAX_VECTORS.

Lemma irq_scan_ok irq s w : forall n curr, length (irq_nr_table s) = length (irq_handlers s) ->
  0 <= curr -> (Z.to_nat curr + n <= length (irq_nr_table s))%nat ->
  irq_scan n curr irq s w =
    match handler_of irq (take n (drop (Z.to_nat curr) (zip (irq_nr_table s) (irq_handlers s)))) with
    | Some h => w' ← handle h irq w; Ok (true, w')
    | None => Ok (false, w)
    end.
Proof.
  intros n. induction n as [|n IH]; intros curr Hl Hc Hn; [done|]. cbn [irq_scan].
  destruct (lookup_lt_is_Some_2 (irq_nr_table s) (Z.to_nat curr) ltac:(lia)) as (i & Ei).
  destruct (lookup_lt_is_Some_2 (irq_handlers s) (Z.to_nat curr) ltac:(lia)) as (h & Eh).
  assert (Ez : zip (irq_nr_table s) (irq_handlers s) !! Z.to_nat curr = Some (i, h)).
  { apply lookup_zip_with_Some. by exists i, h. }
  rewrite Ei, (drop_S _ _ _ Ez). cbn [oob mbind res_mbind take handler_of].
  destruct (irq =? i); [by rewrite Eh|]. rewrite IH by lia.
  replace (Z.to_nat (curr + 1)) with (S (Z.to_nat curr)) by lia. done.
Qed.

Lemma handler_of_app irq l1 l2 :
  handler_of irq (l1 ++ l2) = match handler_of irq l1 with Some h => Some h | None => handler_of irq l2 end.
Proof. induction l1 as [|[i h] l1 IH]; [done|]. cbn. by destruct (irq =? i). Qed.

(** Interrupt dispatch.  [do_IRQ] runs the handler registered first for the interrupt
    and reports whether there is one.  Registering a handler adds it behind the others: it
    serves its interrupt if that had no handler, a second registration for the same
    interrupt has no effect, and no other interrupt is concerned. *)
Theorem irq_dispatch_correct s irq h : irq_wf s -> irq_nr_regs s < MAX_VECTORS -> 0 < irq < NR_IRQS ->
  (forall i w, 0 < i < NR_IRQS -> do_IRQ i s w =
     match handler_of i (registered s) with
     | Some h => w' ← handle h i w; Ok (true, w')
     | None => Ok (false, w)
     end) /\
  exists s', irq_register_vector irq h s = Ok s' /\ irq_wf s' /\ registered s' = registered s ++ [(irq, h)] /\
    forall i w, 0 < i < NR_IRQS -> do_IRQ i s' w =
      if (i =? irq) && bool_decide (handler_of i (registered s) = None) then w' ← handle h i w; Ok (true, w')
      else do_IRQ i s w.
Proof.
  intros (Ht & Hh & H8 & Hr) Hroom Hirq.
  assert (Hdo : forall s, irq_wf s -> forall i w, 0 < i < NR_IRQS -> do_IRQ i s w =
     match handler_of i (registered s) with Some h => w' ← handle h i w; Ok (true, w') | None => Ok (false, w) end).
  { clear. intros s (Ht & Hh & H8 & Hr) i w Hi. unfold do_IRQ.
    rewrite (proj2 (Z.leb_gt NR_IRQS i)), (proj2 (Z.leb_gt i 0)) by lia. cbn [orb bug_on mbind res_mbind].
    rewrite irq_scan_ok by lia. done. }
  assert (Hwf : irq_wf s) by done. split; [by apply Hdo|].
  destruct (lookup_lt_is_Some_2 (irq_nr_table s) (Z.to_nat (irq_nr_regs s)) ltac:(lia)) as (i0 & Ei).
  destruct (lookup_lt_is_Some_2 (irq_handlers s) (Z.to_nat (irq_nr_regs s)) ltac:(lia)) as (h0 & Eh).
  eexists. unfold irq_register_vector. rewrite (proj2 (Z.leb_gt irq 0)), (proj2 (Z.leb_gt NR_IRQS irq)) by lia.
  cbn [orb bug_on mbind res_mbind]. rewrite (proj2 (Z.eqb_neq _ _)) by lia. rewrite Ei, Eh. cbn [bug_on oob mbind res_mbind].
  split; [reflexivity|]. match goal with |- irq_wf ?x /\ _ => set (s' := x) end.
  assert (Hwf' : irq_wf s').
  { unfold s', irq_wf. cbn. rewrite !length_insert, wrap_id by lia. repeat split; lia. }
  assert (Hreg : registered s' = registered s ++ [(irq, h)]).
  { unfold registered, s'. cbn. rewrite wrap_id by lia. replace (Z.to_nat (irq_nr_regs s + 1)) with (S (Z.to_nat (irq_nr_regs s))) by lia.
    erewrite take_S_r.
    - f_equal. apply list_eq. intros j. rewrite !lookup_take. case_decide; [|done].
      rewrite !lookup_zip_with. rewrite !list_lookup_insert_ne by lia. done.
    - rewrite lookup_zip_with, !list_lookup_insert_eq by lia. done. }
  split; [done|]. split; [done|]. intros i w Hi. rewrite !Hdo by done. rewrite Hreg, handler_of_app.
  destruct (handler_of i (registered s)) as [h1|]; cbn [handler_of].
  - rewrite bool_decide_false, andb_false_r by done. done.
  - rewrite bool_decide_true, andb_true_r by done. by destruct (i =? irq).
Qed.
End Irq.

(** ** Concrete systems *)
Definition idle_handler (h : nat) (event : Z) (s : bh_state) : res bh_state := Ok s.
Definition bh_example : bh_state := MkBh [0x0C] [Some 0; Some 1; Some 2; Some 3]%nat 4 [0x01] true [].

Lemma idle_handlers_ok : handlers_ok (U := unit8) 4 idle_handler.
Proof. intros h e s Hs. exists s. done. Qed.

Lemma bh_example_wf : bh_wf (U := unit8) 4 bh_example.
Proof.
  split; [|split].
  - split; [repeat constructor; cbn; lia|cbn; unfold bm_room; cbn; lia].
  - split; [repeat constructor; cbn; lia|cbn; unfold bm_room; cbn; lia].
  - intros b Hb _. assert (b = 0 \/ b = 1 \/ b = 2 \/ b = 3) as [->|[->|[->| ->]]] by lia; by eexists.
Qed.

Lemma bh_loop_correct_witness :
  exists s', bh_loop_body (U := unit8) 4 2 idle_handler 4 bh_example = Ok s' /\ bh_runs s' = [(2, 0); (3, 0); (0, 1)].
Proof.
  destruct (bh_loop_correct (U := unit8) 4 2 idle_handler ltac:(lia) idle_handlers_ok bh_example bh_example_wf)
    as (s' & l & E & _). exists s'. split; [exact E|]. revert E. vm_compute. by intros [= <-].
Defined.

Lemma bh_sync_runs_console_witness :
  exists s2, bh_runs s2 = [(2, 0)] /\ __bh_sync (U := unit8) 4 2 idle_handler 5 true bh_example =
    sync_loop (U := unit8) 4 2 idle_handler 4 true 3 s2.
Proof.
  destruct (bh_sync_runs_console (U := unit8) 4 2 idle_handler ltac:(lia) idle_handlers_ok 4 bh_example bh_example_wf)
    as (s1 & s2 & _ & _ & Hr & E); [lia|reflexivity| |exists s2; split; [exact Hr|exact E]].
  intros b Hb. assert (b = 0 \/ b = 1) as [-> | ->] by lia; reflexivity.
Defined.

Lemma irq_dispatch_correct_witness :
  exists s', irq_register_vector 16 4 9 5%nat (MkIrq [7; 0; 0; 0] [3; 0; 0; 0]%nat 1) = Ok s' /\
    registered s' = [(7, 3%nat); (9, 5%nat)].
Proof.
  destruct (irq_dispatch_correct (World := Z) 16 4 (fun h i w => Ok (w + Z.of_nat h))
    (MkIrq [7; 0; 0; 0] [3; 0; 0; 0]%nat 1) 9 5%nat) as (_ & s' & E & _ & Hr & _); [|cbn; lia|lia|].
  - repeat split; cbn; lia.
  - exists s'. split; [exact E|exact Hr].
Defined.
