(* ===== verification/ByteList.v ===== *)
(** * ByteList: a bounded list of bytes with a scan position

    lib/byte_list.c.  [store] is the caller's array behind the pointer [bl->store]; an
    access outside of it is [FOob].  The counters are 8 bits wide. *)
From S2P Require Import Prelude.
From stdpp Require Import list.
Local Open Scope Z_scope.
Local Open Scope c_scope.

Definition EINVAL_ : Z := 22.
Definition ERANGE_ : Z := 34.

Record byte_list_t : Type := MkBl {
  store : list Z;
  max_entries : Z;
  num_entries : Z;
  currt_entry : Z;
  scan_complete : bool }.

Fixpoint bl_zero (n : nat) (i : nat) (a : list Z) : res (list Z) :=
  match n with
  | O => Ok a
  | S n => _ ← oob (a !! i); bl_zero n (S i) (<[i := 0]> a)
  end.
Definition bl_init_list (src_array : list Z) (max : Z) : res (Z * option byte_list_t) :=
  if (max =? 0) || (0xFF <=? max) then Ok (- EINVAL_, None)
  else a ← bl_zero (Z.to_nat max) 0 src_array; Ok (0, Some (MkBl a (u8 max) 0 0 true)).

Definition bl_init_list_empty (bl : byte_list_t) : byte_list_t := MkBl (store bl) (max_entries bl) 0 0 true.

Definition bl_add_to_list (bl : byte_list_t) (entry : Z) : res (Z * byte_list_t) :=
  if max_entries bl <=? num_entries bl then Ok (- ERANGE_, bl)
  else
    let entry_num := Z.to_nat (num_entries bl) in
    _ ← oob (store bl !! entry_num);
    Ok (0, MkBl (<[entry_num := entry]> (store bl)) (max_entries bl) (u8 (num_entries bl + 1)) (currt_entry bl) false).

Fixpoint bl_copy (n : nat) (i : nat) (src dst : list Z) : res (list Z) :=
  match n with
  | O => Ok dst
  | S n => b ← oob (src !! i); _ ← oob (dst !! i); bl_copy n (S i) src (<[i := b]> dst)
  end.
(** The new [dst]; [src] and [dst] are different lists. *)
Definition bl_copy_list (src dst : byte_list_t) : res byte_list_t :=
  a ← bl_copy (Z.to_nat (num_entries src)) 0 (store src) (store dst);
  Ok (MkBl a (max_entries dst) (num_entries src) (currt_entry src) (scan_complete src)).

Definition bl_get_next_entry (bl : byte_list_t) : res (Z * byte_list_t) :=
  if num_entries bl <=? currt_entry bl
  then Ok (0, MkBl (store bl) (max_entries bl) (num_entries bl) (currt_entry bl) true)
  else
    entry ← oob (store bl !! Z.to_nat (currt_entry bl));
    Ok (entry, MkBl (store bl) (max_entries bl) (num_entries bl) (u8 (currt_entry bl + 1)) (scan_complete bl)).

Definition bl_scan_complete (bl : byte_list_t) : bool :=
  if negb (num_entries bl =? 0) then scan_complete bl else true.
Definition bl_get_num_entries (bl : byte_list_t) : Z := num_entries bl.
Definition bl_scan_reset (bl : byte_list_t) : byte_list_t :=
  if negb (num_entries bl =? 0) then MkBl (store bl) (max_entries bl) (num_entries bl) 0 false else bl.

(** ** The abstract list *)
Definition bl_wf (bl : byte_list_t) : Prop :=
  0 <= currt_entry bl <= num_entries bl /\ num_entries bl <= max_entries bl /\ max_entries bl < 0xFF /\
  max_entries bl <= Z.of_nat (length (store bl)).
Definition bl_entries (bl : byte_list_t) : list Z := take (Z.to_nat (num_entries bl)) (store bl).

Lemma bl_zero_ok n : forall i a, (i + n <= length a)%nat -> exists a', bl_zero n i a = Ok a' /\ length a' = length a.
Proof.
  induction n as [|n IH]; intros i a Hl; cbn [bl_zero]; [by exists a|].
  destruct (lookup_lt_is_Some_2 a i ltac:(lia)) as (x & ->). cbn [oob mbind res_mbind].
  destruct (IH (S i) (<[i := 0]> a)) as (a' & -> & E); [rewrite length_insert; lia|].
  exists a'. by rewrite length_insert in E.
Qed.

Lemma bl_copy_ok n : forall i src dst, (i + n <= length src)%nat -> (i + n <= length dst)%nat ->
  exists a, bl_copy n i src dst = Ok a /\ length a = length dst /\
    forall j, a !! j = if decide (i <= j < i + n)%nat then src !! j else dst !! j.
Proof.
  induction n as [|n IH]; intros i src dst Hs Hd; cbn [bl_copy].
  - exists dst. repeat split; try done. intros j. by rewrite decide_False by lia.
  - destruct (lookup_lt_is_Some_2 src i ltac:(lia)) as (b & Eb). destruct (lookup_lt_is_Some_2 dst i ltac:(lia)) as (c & Ec).
    rewrite Eb, Ec. cbn [oob mbind res_mbind].
    destruct (IH (S i) src (<[i := b]> dst)) as (a & -> & Hl & Ha); [lia|rewrite length_insert; lia|].
    exists a. rewrite length_insert in Hl. repeat split; [done|]. intros j. rewrite Ha.
    destruct (decide (j = i)) as [->|]; repeat case_decide; try lia; try done.
    + by rewrite list_lookup_insert_eq by lia.
    + by rewrite list_lookup_insert_ne by lia.
Qed.

(** A byte list is a bounded list.  [bl_init_list] gives an empty list of the given
    capacity (1 to 254, any other one is refused); [bl_add_to_list] appends, or returns
    -ERANGE and changes nothing when the list is full; [bl_copy_list] copies entries and
    scan position if the target's array is large enough (it does not look at the target's
    [max_entries]). *)
Theorem byte_list_correct :
  (forall a max, 0 <= max <= Z.of_nat (length a) ->
     if decide (0 < max < 0xFF) then
       exists bl, bl_init_list a max = Ok (0, Some bl) /\ bl_wf bl /\ bl_entries bl = [] /\ max_entries bl = max
     else bl_init_list a max = Ok (- EINVAL_, None)) /\
  (forall bl e, bl_wf bl ->
     if decide (num_entries bl < max_entries bl) then
       exists bl', bl_add_to_list bl e = Ok (0, bl') /\ bl_wf bl' /\ bl_entries bl' = bl_entries bl ++ [e] /\
         currt_entry bl' = currt_entry bl /\ bl_scan_complete bl' = false
     else bl_add_to_list bl e = Ok (- ERANGE_, bl)) /\
  (forall src dst, bl_wf src -> num_entries src <= Z.of_nat (length (store dst)) ->
     exists dst', bl_copy_list src dst = Ok dst' /\ bl_entries dst' = bl_entries src /\
       currt_entry dst' = currt_entry src /\ bl_scan_complete dst' = bl_scan_complete src).
Proof.
  split; [|split].
  - intros a max Hm. unfold bl_init_list. case_decide.
    + rewrite (proj2 (Z.eqb_neq max 0)), (proj2 (Z.leb_gt 0xFF max)) by lia. cbn [orb].
      destruct (bl_zero_ok (Z.to_nat max) 0 a ltac:(lia)) as (a' & -> & Hl). cbn [mbind res_mbind].
      eexists. split; [done|]. unfold bl_wf. cbn. rewrite wrap_id by lia. repeat split; lia.
    + assert (max = 0 \/ 0xFF <= max) as [->|E] by lia; [done|]. rewrite (proj2 (Z.leb_le 0xFF max)) by lia. by rewrite orb_true_r.
  - intros bl e (Hc & Hn & Hm & Hs). unfold bl_add_to_list. case_decide.
    + rewrite (proj2 (Z.leb_gt _ _)) by lia.
      destruct (lookup_lt_is_Some_2 (store bl) (Z.to_nat (num_entries bl)) ltac:(lia)) as (x & ->). cbn [oob mbind res_mbind].
      eexists. split; [done|]. unfold bl_wf, bl_entries, bl_scan_complete. cbn. rewrite wrap_id by lia. rewrite length_insert.
      rewrite (proj2 (Z.eqb_neq _ 0)) by lia. repeat split; try lia.
      replace (Z.to_nat (num_entries bl + 1)) with (S (Z.to_nat (num_entries bl))) by lia.
      rewrite (take_S_r _ _ e) by (apply list_lookup_insert_eq; lia). by rewrite take_insert_ge by lia.
    + by rewrite (proj2 (Z.leb_le _ _)) by lia.
  - intros src dst (Hc & Hn & Hm & Hs) Hd. unfold bl_copy_list.
    destruct (bl_copy_ok (Z.to_nat (num_entries src)) 0 (store src) (store dst)) as (a & -> & Hl & Ha); [lia..|].
    cbn [mbind res_mbind]. eexists. split; [done|]. unfold bl_entries. cbn. repeat split.
    apply list_eq. intros j. rewrite !lookup_take. case_decide; [|done]. by rewrite Ha, decide_True by lia.
Qed.

(** [n] calls of [bl_get_next_entry]. *)
Fixpoint bl_get (n : nat) (bl : byte_list_t) : res (list Z * byte_list_t) :=
  match n with
  | O => Ok ([], bl)
  | S n => '(e, bl) ← bl_get_next_entry bl; '(l, bl) ← bl_get n bl; Ok (e :: l, bl)
  end.

Lemma bl_get_S n bl : bl_get (S n) bl = '(e, bl) ← bl_get_next_entry bl; '(l, bl) ← bl_get n bl; Ok (e :: l, bl).
Proof. done. Qed.

Lemma bl_get_ok n : forall bl, bl_wf bl -> currt_entry bl + Z.of_nat n <= num_entries bl ->
  bl_get n bl = Ok (take n (drop (Z.to_nat (currt_entry bl)) (bl_entries bl)),
    MkBl (store bl) (max_entries bl) (num_entries bl) (currt_entry bl + Z.of_nat n) (scan_complete bl)).
Proof.
  induction n as [|n IH]; intros bl Hwf Hn; cbn [bl_get].
  - rewrite Z.add_0_r. by destruct bl.
  - pose proof Hwf as (Hc & Hne & Hm & Hs). unfold bl_get_next_entry. rewrite (proj2 (Z.leb_gt _ _)) by lia.
    destruct (lookup_lt_is_Some_2 (store bl) (Z.to_nat (currt_entry bl)) ltac:(lia)) as (x & E). rewrite E. cbn [oob mbind res_mbind].
    rewrite wrap_id by lia. rewrite IH; [|unfold bl_wf; cbn; lia|cbn; lia]. cbn [mbind res_mbind currt_entry num_entries store max_entries scan_complete].
    assert (Ex : bl_entries bl !! Z.to_nat (currt_entry bl) = Some x) by (unfold bl_entries; rewrite lookup_take_lt by lia; done).
    rewrite (drop_S _ _ _ Ex). cbn [take]. replace (Z.to_nat (currt_entry bl + 1)) with (S (Z.to_nat (currt_entry bl))) by lia.
    do 3 f_equal. lia.
Qed.

(** A scan of a list that is not empty.  After [bl_scan_reset], [n] calls of
    [bl_get_next_entry] return the first [n] entries in order and the scan is not complete,
    also when [n] is the length of the list; the call behind the last entry returns 0 and
    completes the scan.  The entries stay as they are. *)
Theorem byte_list_scan_correct bl n : bl_wf bl -> 0 < num_entries bl -> Z.of_nat n <= num_entries bl ->
  (exists bl', bl_get n (bl_scan_reset bl) = Ok (take n (bl_entries bl), bl') /\
     bl_scan_complete bl' = false /\ bl_entries bl' = bl_entries bl) /\
  exists bl', bl_get (S (Z.to_nat (num_entries bl))) (bl_scan_reset bl) = Ok (bl_entries bl ++ [0], bl') /\
    bl_scan_complete bl' = true /\ bl_entries bl' = bl_entries bl.
Proof.
  intros Hwf Hpos Hn. pose proof Hwf as (Hc & Hne & Hm & Hs). unfold bl_scan_reset.
  rewrite (proj2 (Z.eqb_neq (num_entries bl) 0)) by lia. cbn [negb].
  set (b0 := MkBl (store bl) (max_entries bl) (num_entries bl) 0 false).
  assert (Hwf0 : bl_wf b0) by (unfold bl_wf; cbn; lia). split.
  - rewrite bl_get_ok by (done || cbn; lia). eexists. split; [done|].
    unfold bl_scan_complete. cbn. by rewrite (proj2 (Z.eqb_neq (num_entries bl) 0)) by lia.
  - assert (Happ : forall k b, bl_get (S k) b = '(l, b) ← bl_get k b; '(e, b) ← bl_get_next_entry b; Ok (l ++ [e], b)).
    { clear. induction k as [|k IH]; intros b; [cbn; by destruct (bl_get_next_entry b) as [[]|]|].
      rewrite (bl_get_S (S k)), (bl_get_S k b). destruct (bl_get_next_entry b) as [[e b1]|]; [|done]. cbn [mbind res_mbind].
      rewrite IH. destruct (bl_get k b1) as [[l b2]|]; [|done]. cbn [mbind res_mbind].
      by destruct (bl_get_next_entry b2) as [[e' b3]|]. }
    rewrite Happ, bl_get_ok by (done || cbn; lia). cbn [mbind res_mbind]. unfold bl_get_next_entry. cbn [currt_entry num_entries].
    rewrite (proj2 (Z.leb_le _ _)) by (cbn; lia). cbn [mbind res_mbind]. eexists. split; [|].
    { do 3 f_equal. change (bl_entries b0) with (bl_entries bl). change (Z.to_nat (currt_entry b0)) with 0%nat.
      rewrite drop_0, take_ge; [done|]. unfold bl_entries. rewrite length_take. lia. }
    unfold bl_scan_complete, bl_entries. cbn. by destruct (negb _).
Qed.

Definition bl_example : byte_list_t := MkBl [5; 6; 7; 8] 4 3 1 false.
Lemma byte_list_scan_correct_witness : exists bl', bl_get 4 (bl_scan_reset bl_example) = Ok ([5; 6; 7; 0], bl').
Proof.
  destruct (byte_list_scan_correct bl_example 2) as (_ & bl' & E & _); [unfold bl_wf; cbn; lia|cbn; lia|cbn; lia|].
  exists bl'. exact E.
Defined.
