(* ===== verification/Clk.v ===== *)
(** * Clk: the clock tree

    kernel/clk.c.  A category of clocks is served by a registered driver, a record of
    optional callbacks; what the callbacks do to the hardware is their effect on [World].
    Strings are byte lists with their terminating zero, as in [CString].  The output of the
    shell commands is not modelled. *)
From S2P Require Import Prelude MulDiv CString.
From stdpp Require Import list.
Local Open Scope Z_scope.
Local Open Scope c_scope.

Definition EBUSY : Z := 16.
Definition ENODEV : Z := 19.
Definition CEINVAL : Z := 22.
Definition INVALID_FREQ : Z := 0.

(** target/clk.h: a clock is its category and its number there. *)
Definition MAKEWORD (a b : Z) : Z := u16 (u16 a ||| (u16 b <<< 8)).
Definition clkid (cat clk : Z) : Z := MAKEWORD clk cat.
Definition invalid_clk : Z := clkid 0xFF 0xFF.
Definition clk_clk (id : Z) : Z := LOBYTE id.
Definition clk_cat (id : Z) : Z := HIBYTE id.

Section Clk.
Context {World : Type} (MAX_CLK_DRIVERS : Z).

Record clk_driver : Type := MkClkd {
  max_clocks : Z;
  enable : option (Z -> World -> Z * World);
  disable : option (Z -> World -> World);
  get_freq : option (Z -> World -> Z);
  set_freq : option (Z -> Z -> World -> Z * World);
  select : option (Z -> Z -> World -> World);
  get_name : option (Z -> option mem) }.

Local Abbreviation drivers := (list (option clk_driver)).
Implicit Types (ds : drivers) (w : World).

Definition clk_get_frequency ds (clk : Z) w : res Z :=
  let cat := clk_cat clk in
  if MAX_CLK_DRIVERS <=? cat then Ok INVALID_FREQ
  else d ← oob (ds !! Z.to_nat cat);
    match d with
    | None => Ok INVALID_FREQ
    | Some clkd => match get_freq clkd with None => Fault FBug | Some f => Ok (f (clk_clk clk) w) end
    end.

Definition clk_enable ds (clk : Z) w : res (Z * World) :=
  let cat := clk_cat clk in
  if MAX_CLK_DRIVERS <=? cat then Ok (- ENODEV, w)
  else d ← oob (ds !! Z.to_nat cat);
    match d with
    | None => Ok (- ENODEV, w)
    | Some clkd => Ok (match enable clkd with Some f => f (clk_clk clk) w | None => (0, w) end)
    end.

Definition clk_set_frequency ds (clk freq : Z) w : res (Z * World) :=
  let cat := clk_cat clk in
  if MAX_CLK_DRIVERS <=? cat then Ok (- CEINVAL, w)
  else d ← oob (ds !! Z.to_nat cat);
    Ok (match clkd ← d; set_freq clkd with Some f => f (clk_clk clk) freq w | None => (- CEINVAL, w) end).

Definition clk_disable ds (clk : Z) w : res World :=
  let cat := clk_cat clk in
  if MAX_CLK_DRIVERS <=? cat then Ok w
  else d ← oob (ds !! Z.to_nat cat);
    Ok (match clkd ← d; disable clkd with Some f => f (clk_clk clk) w | None => w end).

Definition clk_select_source ds (clk src : Z) w : res World :=
  let cat := clk_cat clk in
  if MAX_CLK_DRIVERS <=? cat then Ok w
  else d ← oob (ds !! Z.to_nat cat);
    Ok (match clkd ← d; select clkd with Some f => f (clk_clk clk) src w | None => w end).

Definition clk_get_mnemonic ds (clk : Z) : res (option mem) :=
  let cat := clk_cat clk in
  if MAX_CLK_DRIVERS <=? cat then Ok None
  else d ← oob (ds !! Z.to_nat cat);
    Ok (clkd ← d; f ← get_name clkd; f (clk_clk clk)).

Definition clk_register_driver ds (category : Z) (clkd : clk_driver) : res (Z * drivers) :=
  if MAX_CLK_DRIVERS <=? category then Ok (- CEINVAL, ds)
  else d ← oob (ds !! Z.to_nat category);
    match d with
    | Some _ => Ok (- EBUSY, ds)
    | None => Ok (0, <[Z.to_nat category := Some clkd]> ds)
    end.

(** The inner and the outer loop of [clk_search_mnemonic]. *)
Fixpoint search_clocks ds (mnem : mem) (cat : Z) (n : nat) (clk : Z) : res (option Z) :=
  match n with
  | O => Ok None
  | S n =>
      name ← clk_get_mnemonic ds (clkid cat clk);
      found ← (match name with None => Ok false | Some name => c ← strcmp name mnem; Ok (c =? 0) end);
      if (found : bool) then Ok (Some (clkid cat clk)) else search_clocks ds mnem cat n (clk + 1)
  end.
Fixpoint search_cats ds (mnem : mem) (n : nat) (cat : Z) : res Z :=
  match n with
  | O => Ok invalid_clk
  | S n =>
      d ← oob (ds !! Z.to_nat cat);
      r ← (match d with None => Ok None | Some clkd => search_clocks ds mnem cat (Z.to_nat (max_clocks clkd)) 0 end);
      match r with Some c => Ok c | None => search_cats ds mnem n (cat + 1) end
  end.
Definition clk_search_mnemonic ds (mnem : mem) : res Z := search_cats ds mnem (Z.to_nat MAX_CLK_DRIVERS) 0.

(** ** The shell command; [argv] without the command name *)
Definition with_clk ds (name : mem) w (k : Z -> res (Z * World)) : res (Z * World) :=
  id ← clk_search_mnemonic ds name;
  if id =? invalid_clk then Ok (- CEINVAL, w) else k id.

Definition do_clk_select ds (argv : list mem) w : res (Z * World) :=
  match argv with
  | _ :: a2 :: a3 :: _ =>
      with_clk ds a2 w (fun id => with_clk ds a3 w (fun src => w ← clk_select_source ds id src w; Ok (0, w)))
  | _ => Ok (- CEINVAL, w)
  end.
Definition do_clk_enable ds (argv : list mem) w : res (Z * World) :=
  match argv with
  | _ :: a2 :: _ => with_clk ds a2 w (fun id => '(ret, w) ← clk_enable ds id w; Ok (if ret =? 0 then 0 else - CEINVAL, w))
  | _ => Ok (- CEINVAL, w)
  end.
Definition do_clk_disable ds (argv : list mem) w : res (Z * World) :=
  match argv with
  | _ :: a2 :: _ => with_clk ds a2 w (fun id => w ← clk_disable ds id w; Ok (0, w))
  | _ => Ok (- CEINVAL, w)
  end.
Definition do_clk_freq ds (argv : list mem) w : res (Z * World) :=
  match argv with
  | _ :: a2 :: rest => with_clk ds a2 w (fun id =>
      match rest with
      | a3 :: _ => '(v, _, _) ← strtoul a3 0; clk_set_frequency ds id (u32 v) w
      | [] => freq ← clk_get_frequency ds id w; Ok (if freq =? INVALID_FREQ then - CEINVAL else 0, w)
      end)
  | _ => Ok (- CEINVAL, w)
  end.

(** [do_clk_dump]: the frequency of every named clock is read and printed. *)
Fixpoint dump_clocks ds (cat : Z) (n : nat) (clk : Z) w : res unit :=
  match n with
  | O => Ok tt
  | S n =>
      name ← clk_get_mnemonic ds (clkid cat clk);
      _ ← (match name with None => Ok 0 | Some _ => clk_get_frequency ds (clkid cat clk) w end);
      dump_clocks ds cat n (clk + 1) w
  end.
Fixpoint dump_cats ds (n : nat) (cat : Z) w : res unit :=
  match n with
  | O => Ok tt
  | S n =>
      d ← oob (ds !! Z.to_nat cat);
      _ ← (match d with None => Ok tt | Some clkd => dump_clocks ds cat (Z.to_nat (max_clocks clkd)) 0 w end);
      dump_cats ds n (cat + 1) w
  end.
Definition do_clk_dump ds w : res (Z * World) := _ ← dump_cats ds (Z.to_nat MAX_CLK_DRIVERS) 0 w; Ok (0, w).

Definition str_dump : mem := [100; 117; 109; 112; 0].
Definition str_select : mem := [115; 101; 108; 101; 99; 116; 0].
Definition str_enable : mem := [101; 110; 97; 98; 108; 101; 0].
Definition str_disable : mem := [100; 105; 115; 97; 98; 108; 101; 0].
Definition str_freq : mem := [102; 114; 101; 113; 0].
Definition do_clk ds (argv : list mem) w : res (Z * World) :=
  match argv with
  | [] => Ok (- CEINVAL, w)
  | a1 :: _ =>
      c ← strcmp a1 str_dump; if c =? 0 then do_clk_dump ds w else
      c ← strcmp a1 str_select; if c =? 0 then do_clk_select ds argv w else
      c ← strcmp a1 str_enable; if c =? 0 then do_clk_enable ds argv w else
      c ← strcmp a1 str_disable; if c =? 0 then do_clk_disable ds argv w else
      c ← strcmp a1 str_freq; if c =? 0 then do_clk_freq ds argv w else
      Ok (- ENODEV, w)
  end.

(** ** Properties *)
Lemma clkid_parts cat clk : in_u 8 cat -> in_u 8 clk ->
  clk_cat (clkid cat clk) = cat /\ clk_clk (clkid cat clk) = clk /\ clkid cat clk = clk + 2 ^ 8 * cat.
Proof.
  intros Hc Hk. unfold clk_cat, clk_clk, clkid, MAKEWORD, HIBYTE, LOBYTE. rewrite (wrap_id 16 clk), (wrap_id 16 cat) by lia.
  rewrite lor_shiftl, (wrap_id 16) by lia. rewrite Z.shiftr_div_pow2, (Z.mul_comm (2 ^ 8)), Z.div_add, Z.div_small by lia.
  unfold wrap. rewrite Z_mod_plus_full, !Z.mod_small by lia. lia.
Qed.

(** The registry of clock drivers.  A driver can be registered for a category below
    MAX_CLK_DRIVERS that is free (a second one gets -EBUSY, a category out of range
    -EINVAL, neither with an effect); from then on every operation on a clock of that
    category is the driver's callback on the number of the clock, or the documented default
    if it has none, and the clocks of other categories are served as before. *)
Theorem clk_registry_correct ds category d :
  Z.of_nat (length ds) = MAX_CLK_DRIVERS -> MAX_CLK_DRIVERS <= 2 ^ 8 -> in_u 8 category ->
  (MAX_CLK_DRIVERS <= category -> clk_register_driver ds category d = Ok (- CEINVAL, ds)) /\
  (forall d0, ds !! Z.to_nat category = Some (Some d0) -> clk_register_driver ds category d = Ok (- EBUSY, ds)) /\
  (ds !! Z.to_nat category = Some None -> exists ds', clk_register_driver ds category d = Ok (0, ds') /\
     Z.of_nat (length ds') = MAX_CLK_DRIVERS /\ forall clk w, in_u 8 clk ->
     let id := clkid category clk in
     clk_get_frequency ds' id w = match get_freq d with Some f => Ok (f clk w) | None => Fault FBug end /\
     clk_enable ds' id w = Ok (match enable d with Some f => f clk w | None => (0, w) end) /\
     clk_disable ds' id w = Ok (match disable d with Some f => f clk w | None => w end) /\
     (forall freq, clk_set_frequency ds' id freq w = Ok (match set_freq d with Some f => f clk freq w | None => (- CEINVAL, w) end)) /\
     (forall src, clk_select_source ds' id src w = Ok (match select d with Some f => f clk src w | None => w end)) /\
     clk_get_mnemonic ds' id = Ok (f ← get_name d; f clk) /\
     forall cat, in_u 8 cat -> cat <> category -> let other := clkid cat clk in
       clk_get_frequency ds' other w = clk_get_frequency ds other w /\ clk_enable ds' other w = clk_enable ds other w /\
       clk_disable ds' other w = clk_disable ds other w /\ clk_get_mnemonic ds' other = clk_get_mnemonic ds other).
Proof.
  intros Hlen Hmax Hc. unfold clk_register_driver. split; [|split].
  - intros H. by rewrite (proj2 (Z.leb_le _ _)) by lia.
  - intros d0 H. pose proof (lookup_lt_Some _ _ _ H). rewrite (proj2 (Z.leb_gt _ _)) by lia. by rewrite H.
  - intros H. pose proof (lookup_lt_Some _ _ _ H). rewrite (proj2 (Z.leb_gt MAX_CLK_DRIVERS category)) by lia. rewrite H.
    eexists. split; [done|]. split; [by rewrite length_insert|]. intros clk w Hk.
    destruct (clkid_parts category clk Hc Hk) as (E1 & E2 & _).
    unfold clk_get_frequency, clk_enable, clk_disable, clk_set_frequency, clk_select_source, clk_get_mnemonic.
    rewrite E1, E2, (proj2 (Z.leb_gt MAX_CLK_DRIVERS category)), list_lookup_insert_eq by lia.
    cbn [oob mbind res_mbind option_bind]. do 6 (split; [done|]). intros cat Hcat Hne.
    destruct (clkid_parts cat clk Hcat Hk) as (F1 & F2 & _). rewrite F1, list_lookup_insert_ne by lia. done.
Qed.

(** *** Searching by name *)
Definition c_string (s : list Z) : Prop := nz s /\ Forall (fun c => 0 <= c) s.
Definition clock ds (cat clk : Z) : Prop :=
  exists d, 0 <= cat /\ ds !! Z.to_nat cat = Some (Some d) /\ 0 <= clk < max_clocks d.
Definition name_of ds (cat clk : Z) : option mem :=
  d ← ds !! Z.to_nat cat; clkd ← d; f ← get_name clkd; f clk.
Definition named ds (t : list Z) (cat clk : Z) : Prop := exists r, name_of ds cat clk = Some (t ++ 0 :: r).
Definition drivers_ok ds : Prop :=
  Z.of_nat (length ds) = MAX_CLK_DRIVERS /\ MAX_CLK_DRIVERS <= 2 ^ 8 /\
  (forall cat d, ds !! cat = Some (Some d) -> in_u 8 (max_clocks d)) /\
  forall cat clk m, name_of ds cat clk = Some m -> exists s r, m = s ++ 0 :: r /\ c_string s.

Lemma string_unique s t r1 r2 : nz s -> nz t -> s ++ 0 :: r1 = t ++ 0 :: r2 -> s = t.
Proof.
  revert t. induction s as [|a s IH]; intros [|b t] Hs Ht E; [done|..]; cbn in E; injection E as E1 E2.
  - apply Forall_cons in Ht as [Hb _]. congruence.
  - apply Forall_cons in Hs as [Ha _]. congruence.
  - apply Forall_cons in Hs as [_ Hs], Ht as [_ Ht]. f_equal; [done|]. by apply IH.
Qed.

Lemma search_clocks_ok ds t r cat : drivers_ok ds -> c_string t -> 0 <= cat < MAX_CLK_DRIVERS ->
  forall n clk, 0 <= clk -> clk + Z.of_nat n < 2 ^ 8 ->
  (search_clocks ds (t ++ 0 :: r) cat n clk = Ok None /\
     forall k, clk <= k < clk + Z.of_nat n -> ~ named ds t cat k) \/
  exists k, search_clocks ds (t ++ 0 :: r) cat n clk = Ok (Some (clkid cat k)) /\ clk <= k < clk + Z.of_nat n /\
    named ds t cat k /\ forall j, clk <= j < k -> ~ named ds t cat j.
Proof.
  intros (Hlen & Hmax & _ & Hnames) [Ht Ht0] Hcat n. induction n as [|n IH]; intros clk Hc Hn; [left; split; [done|lia]|].
  cbn [search_clocks]. destruct (clkid_parts cat clk ltac:(lia) ltac:(lia)) as (E1 & E2 & _).
  assert (Em : clk_get_mnemonic ds (clkid cat clk) = Ok (name_of ds cat clk)).
  { unfold clk_get_mnemonic, name_of. rewrite E1, E2, (proj2 (Z.leb_gt _ _)) by lia.
    destruct (lookup_lt_is_Some_2 ds (Z.to_nat cat) ltac:(lia)) as (d & ->). done. }
  rewrite Em. cbn [mbind res_mbind].
  assert (Hf : exists b, match name_of ds cat clk with None => Ok false | Some name => c ← strcmp name (t ++ 0 :: r); Ok (c =? 0) end = Ok b /\
    (b = true <-> named ds t cat clk)).
  { unfold named. destruct (name_of ds cat clk) as [m|] eqn:En.
    - destruct (Hnames _ _ _ En) as (s & r' & -> & Hs & Hs0). rewrite strcmp_lex by done. cbn [mbind res_mbind].
      eexists. split; [done|]. rewrite Z.eqb_eq, lex_zero. split; [intros ->; by exists r'|].
      intros (r2 & [= E]). by apply string_unique in E.
    - exists false. split; [done|]. split; [done|]. by intros (? & ?). }
  destruct Hf as (b & -> & Hb). cbn [mbind res_mbind]. destruct b.
  - right. exists clk. split; [done|]. split; [lia|]. split; [by apply Hb|]. intros j Hj. lia.
  - assert (Hno : ~ named ds t cat clk) by (rewrite <- Hb; done).
    destruct (IH (clk + 1) ltac:(lia) ltac:(lia)) as [[-> Hall]|(k & -> & Hk & Hkn & Hall)].
    + left. split; [done|]. intros k Hk. destruct (decide (k = clk)) as [->|]; [done|]. apply Hall. lia.
    + right. exists k. split; [done|]. split; [lia|]. split; [done|]. intros j Hj.
      destruct (decide (j = clk)) as [->|]; [done|]. apply Hall. lia.
Qed.

(** The first clock with the name [t] in the order of the search, or none. *)
Definition search_result ds (t : list Z) (cat0 : Z) (r : Z) : Prop :=
  (r = invalid_clk /\ forall cat clk, cat0 <= cat -> clock ds cat clk -> ~ named ds t cat clk) \/
  exists cat clk, r = clkid cat clk /\ r <> invalid_clk /\ cat0 <= cat /\ clock ds cat clk /\ named ds t cat clk /\
    forall cat' clk', clock ds cat' clk' -> cat0 <= cat' < cat \/ cat' = cat /\ clk' < clk -> ~ named ds t cat' clk'.

Lemma search_cats_ok ds t r : drivers_ok ds -> c_string t -> forall n cat, 0 <= cat -> cat + Z.of_nat n = MAX_CLK_DRIVERS ->
  exists c, search_cats ds (t ++ 0 :: r) n cat = Ok c /\ search_result ds t cat c.
Proof.
  intros Hds Ht n. pose proof Hds as (Hlen & Hmax & Hclk & _). induction n as [|n IH]; intros cat Hc Hn; cbn [search_cats].
  - exists invalid_clk. split; [done|]. left. split; [done|]. intros c k Hck (d & Hc0 & E & _) _. apply lookup_lt_Some in E. lia.
  - destruct (lookup_lt_is_Some_2 ds (Z.to_nat cat) ltac:(lia)) as (d & Ed). rewrite Ed. cbn [oob mbind res_mbind].
    destruct (IH (cat + 1) ltac:(lia) ltac:(lia)) as (c & Ec & Hres).
    assert (Hstep : (forall k, clock ds cat k -> ~ named ds t cat k) -> search_result ds t cat c).
    { intros Hno. destruct Hres as [[-> Hall]|(cat1 & k1 & -> & Hi & Hge & Hck & Hnm & Hall)].
      - left. split; [done|]. intros c' k' Hge' Hck. destruct (decide (c' = cat)) as [->|]; [by apply Hno|]. apply Hall; [lia|done].
      - right. exists cat1, k1. repeat (split; [done || lia|]). intros c' k' Hck' Hlt.
        destruct (decide (c' = cat)) as [->|]; [by apply Hno|]. apply Hall; [done|]. destruct Hlt; [left; lia|by right]. }
    destruct d as [clkd|]; cbn [mbind res_mbind].
    2: { exists c. split; [done|]. apply Hstep. intros k (d & _ & E & _). congruence. }
    pose proof (Hclk _ _ Ed) as Hm.
    destruct (search_clocks_ok ds t r cat Hds Ht ltac:(lia) (Z.to_nat (max_clocks clkd)) 0 ltac:(lia) ltac:(lia))
      as [[-> Hno]|(k & -> & Hk & Hnm & Hno)]; cbn [mbind res_mbind].
    + exists c. split; [done|]. apply Hstep. intros k (d & _ & E & Hk). rewrite Ed in E. injection E as <-. apply Hno. lia.
    + exists (clkid cat k). split; [done|]. right. exists cat, k. split; [done|]. split.
      { unfold invalid_clk. destruct (clkid_parts cat k ltac:(lia) ltac:(lia)) as (_ & E & _).
        intros F. rewrite F in E. destruct (clkid_parts 0xFF 0xFF ltac:(lia) ltac:(lia)) as (_ & G & _). lia. }
      split; [lia|]. split; [exists clkd; repeat split; (done || lia)|]. split; [done|].
      intros c' k' (d & _ & E & Hk') [Hlt|[-> Hlt]]; [lia|]. apply Hno. lia.
Qed.

(** Searching a clock by name.  With zero-terminated names, [clk_search_mnemonic]
    returns the first clock (by category, then by number) that has the name, and
    [invalid_clk] exactly if there is none. *)
Theorem clk_search_correct ds t r : drivers_ok ds -> c_string t ->
  exists c, clk_search_mnemonic ds (t ++ 0 :: r) = Ok c /\ search_result ds t 0 c /\
    (c = invalid_clk <-> forall cat clk, clock ds cat clk -> ~ named ds t cat clk).
Proof.
  intros Hds Ht. pose proof Hds as (Hlen & _).
  destruct (search_cats_ok ds t r Hds Ht (Z.to_nat MAX_CLK_DRIVERS) 0 ltac:(lia) ltac:(lia)) as (c & E & Hr).
  exists c. split; [exact E|]. split; [done|]. destruct Hr as [[-> Hall]|(cat & k & -> & Hi & _ & Hck & Hnm & _)].
  - split; [|done]. intros _ cat k Hck. apply Hall; [|done]. by destruct Hck as (? & ? & _).
  - split; [done|]. intros Hno. by destruct (Hno cat k Hck).
Qed.
End Clk.
Arguments clk_driver : clear implicits.

(** ** A concrete clock tree: one driver with two named clocks *)
Definition pll : clk_driver Z :=
  MkClkd 2 (Some (fun clk w => (0, w + clk))) None (Some (fun clk w => w)) None None
    (Some (fun clk => if clk =? 0 then Some [97; 0] else if clk =? 1 then Some [98; 0] else None)).

Lemma clk_registry_correct_witness : exists ds',
  clk_register_driver 2 [None; None] 1 pll = Ok (0, ds') /\ clk_enable 2 ds' (clkid 1 5) 10 = Ok (0, 15).
Proof.
  destruct (clk_registry_correct 2 [None; None] 1 pll eq_refl ltac:(lia) ltac:(lia)) as (_ & _ & H).
  destruct (H eq_refl) as (ds' & E & _ & Hops). exists ds'. split; [exact E|].
  destruct (Hops 5 10 ltac:(lia)) as (_ & He & _). exact He.
Defined.

Lemma pll_ok : drivers_ok 2 [None; Some pll].
Proof.
  split; [done|]. split; [lia|]. split.
  - intros [|[|cat]] d E; cbn in E; try done. injection E as <-. cbn. lia.
  - intros cat clk m. unfold name_of. destruct (Z.to_nat cat) as [|[|n]]; cbn; [done| |done].
    destruct (clk =? 0); [intros [= <-]; exists [97], []|destruct (clk =? 1); [intros [= <-]; exists [98], []|done]];
      (split; [done|]); split; repeat constructor; lia.
Qed.

Lemma clk_search_correct_witness : clk_search_mnemonic 2 [None; Some pll] [98; 0] = Ok (clkid 1 1).
Proof.
  destruct (clk_search_correct 2 [None; Some pll] [98] [] pll_ok) as (c & E & _); [split; repeat constructor; lia|].
  transitivity (Ok c); [exact E|]. rewrite <- E. vm_compute. reflexivity.
Defined.
