(* ===== verification/T0.v ===== *)
(** * T0: the ISO/IEC 7816-3 T=0 character protocol

    kernel/scs/ifd_t0.c (CONFIG_IFD_XCHG_APDU, without the optional handling of 61XX and
    6CXX) together with the transfer loop [ifd_xchg_sync] of kernel/scs/ifd.c that drives
    it.  [t0] is the protocol's state [ifd_t0_xchg], the transfer state [ifd_xfr_ctrl], the
    exchange buffer, the bytes put on the line and the end of the exchange.  The card is
    the list of bytes it sends; a card that sends no more lets the loop wait ([FHang]: the
    waiting time counter is not modelled).  [scs_off_t] and [scs_size_t] are 16 bits wide;
    the bytes of the receive area are written without a check, as the code does. *)
From S2P Require Import Prelude CString.
From stdpp Require Import list.
Local Open Scope Z_scope.
Local Open Scope c_scope.

Definition T0_ERR_SUCCESS : Z := 0x00.
Definition T0_ERR_OVERRUN : Z := 0x06.
Definition T0_ERR_PROGRESS : Z := 0x0A.
Definition IFD_T0_WI_IMPLICIT : Z := 10.

Record t0 : Type := MkT0 {
  cmpl : bool; ins : Z; lc : Z; le : Z; nc : Z; ne : Z; tx : Z; rx : Z;
  tx_start : Z; rx_start : Z; xnc : Z; xne : Z; xtx : Z; xrx : Z;
  buff : list Z; sent : list Z; ended : option Z; raised : bool }.

Definition set_cmpl (v : bool) (s : t0) : t0 :=
  MkT0 v (ins s) (lc s) (le s) (nc s) (ne s) (tx s) (rx s) (tx_start s) (rx_start s) (xnc s) (xne s) (xtx s) (xrx s) (buff s) (sent s) (ended s) (raised s).
Definition set_command (i c e n m : Z) (s : t0) : t0 :=
  MkT0 (cmpl s) i c e n m (tx s) (rx s) (tx_start s) (rx_start s) (xnc s) (xne s) (xtx s) (xrx s) (buff s) (sent s) (ended s) (raised s).
Definition set_pos (t r : Z) (s : t0) : t0 :=
  MkT0 (cmpl s) (ins s) (lc s) (le s) (nc s) (ne s) t r (tx_start s) (rx_start s) (xnc s) (xne s) (xtx s) (xrx s) (buff s) (sent s) (ended s) (raised s).
Definition set_xfr (ts n rs m t r : Z) (s : t0) : t0 :=
  MkT0 (cmpl s) (ins s) (lc s) (le s) (nc s) (ne s) (tx s) (rx s) ts rs n m t r (buff s) (sent s) (ended s) (raised s).
Definition set_buff (b : list Z) (s : t0) : t0 :=
  MkT0 (cmpl s) (ins s) (lc s) (le s) (nc s) (ne s) (tx s) (rx s) (tx_start s) (rx_start s) (xnc s) (xne s) (xtx s) (xrx s) b (sent s) (ended s) (raised s).
Definition set_sent (b : list Z) (s : t0) : t0 :=
  MkT0 (cmpl s) (ins s) (lc s) (le s) (nc s) (ne s) (tx s) (rx s) (tx_start s) (rx_start s) (xnc s) (xne s) (xtx s) (xrx s) (buff s) b (ended s) (raised s).
Definition set_end (nr : option Z) (r : bool) (s : t0) : t0 :=
  MkT0 (cmpl s) (ins s) (lc s) (le s) (nc s) (ne s) (tx s) (rx s) (tx_start s) (rx_start s) (xnc s) (xne s) (xtx s) (xrx s) (buff s) (sent s) nr r.

Definition xread (i : Z) (s : t0) : res Z := rd (buff s) (Z.to_nat i).

(** [ifd_xfr_block]; the delays are not modelled. *)
Definition ifd_xfr_block (ts n rs m : Z) (s : t0) : t0 := set_xfr ts n rs m 0 0 s.
Definition ifd_xfr_read (idx : Z) (s : t0) : res Z := xread (rx_start s + idx) s.
Definition ifd_xfr_read_last (s : t0) : res Z := ifd_xfr_read (u16 (xne s - 1)) s.

Definition ifd_t0_xfr_block (n m : Z) (s : t0) : t0 :=
  let s := ifd_xfr_block (tx s) n (rx s) m s in set_pos (u16 (tx s + n)) (u16 (rx s + m)) s.

(** The waiting integer of the ATR; [tc] is TC(2) if the card has one. *)
Definition ifd_t0_atr_parse (tc : option Z) : Z :=
  match tc with Some tci => if tci =? 0 then IFD_T0_WI_IMPLICIT else tci | None => IFD_T0_WI_IMPLICIT end.

(** Parsing the command of [n] bytes in the buffer. *)
Definition le_of (b : Z) : Z := if b =? 0 then 256 else b.
Definition ifd_t0_xfr_parse (n : Z) (s : t0) : res (Z * t0) :=
  if n <? 4 then Ok (T0_ERR_OVERRUN, set_command (ins s) 0 0 (nc s) (ne s) s)
  else
    i ← xread 1 s;
    if n =? 4 then
      b ← wr (buff s) 4 0; Ok (T0_ERR_SUCCESS, set_buff b (set_command i 0 0 5 2 s))
    else
      p3 ← xread 4 s;
      if n =? 5 then Ok (T0_ERR_SUCCESS, set_command i 0 (le_of p3) 5 (le_of p3 + 2) s)
      else
        let offset := u16 (6 + p3) in
        if offset <? n then Ok (T0_ERR_OVERRUN, set_command i p3 0 (nc s) (ne s) s)
        else if n =? offset then
          b ← xread (n - 1) s; Ok (T0_ERR_SUCCESS, set_command i p3 (le_of b) (p3 + 5) (le_of b + 2) s)
        else Ok (T0_ERR_SUCCESS, set_command i p3 0 (p3 + 5) 2 s).
(** The build without CONFIG_IFD_XCHG_APDU: [n] bytes are a TPDU. *)
Definition ifd_t0_xfr_parse_tpdu (n : Z) (s : t0) : res (Z * t0) :=
  if n <? 5 then Ok (T0_ERR_OVERRUN, s)
  else
    i ← xread 1 s; p3 ← xread 4 s;
    if n =? 5 then Ok (T0_ERR_SUCCESS, set_command i 0 (le_of p3) 5 (le_of p3 + 2) s)
    else if negb (n =? p3 + 5) then Ok (T0_ERR_OVERRUN, set_command i p3 (le s) (nc s) (ne s) s)
    else Ok (T0_ERR_SUCCESS, set_command i p3 0 (p3 + 5) 2 s).

Definition ifd_t0_xchg_init (n : Z) (s : t0) : res (Z * t0) :=
  '(err, s) ← ifd_t0_xfr_parse n s;
  if negb (err =? T0_ERR_SUCCESS) then Ok (err, s) else Ok (T0_ERR_PROGRESS, set_pos 0 0 s).

(** Sends the header and expects a procedure byte ([ifd_xchg_begin] keeps the block for
    [ifd_xchg_start]). *)
Definition ifd_t0_xchg_aval (s : t0) : t0 :=
  let s := ifd_xfr_block (tx s) 5 (rx s) 1 s in
  set_cmpl false (set_pos (u16 (tx s + 5)) (u16 (rx s + 1)) s).

Definition SW1_6X (byte : Z) : bool := (byte &&& 0xF0) =? 0x60.
Definition SW1_9X (byte : Z) : bool := (byte &&& 0xF0) =? 0x90.

Definition __ifd_t0_ne_expire_proc (s : t0) : res t0 :=
  sw1 ← ifd_xfr_read_last s;
  if SW1_6X sw1 || SW1_9X sw1 then
    if sw1 =? 0x60 then Ok (ifd_t0_xfr_block 0 1 (set_pos (tx s) (u16 (rx s - 1)) s))
    else Ok (set_cmpl true (ifd_t0_xfr_block 0 1 s))
  else
    let s := set_pos (tx s) (u16 (rx s - 1)) s in
    let sending := tx s <? nc s in
    Ok (if negb ((sw1 ^^^ ins s) =? 0) then
          if sending then ifd_t0_xfr_block 1 1 s else ifd_t0_xfr_block 0 2 s
        else
          if sending then ifd_t0_xfr_block (u16 (nc s - tx s)) 1 s
          else ifd_t0_xfr_block 0 (u16 ((ne s - 1) - rx s)) s).
Definition __ifd_t0_ne_expire_cmpl (s : t0) : t0 := set_end (Some (rx s)) true s.
Definition ifd_t0_ne_expire (s : t0) : res t0 :=
  if negb (cmpl s) then __ifd_t0_ne_expire_proc s else Ok (__ifd_t0_ne_expire_cmpl s).

(** ** The transfer loop of [ifd_xchg_sync] *)
Fixpoint xfr_send (n : nat) (s : t0) : res t0 :=
  match n with
  | O => Ok s
  | S n =>
      b ← xread (tx_start s + xtx s) s;
      xfr_send n (set_xfr (tx_start s) (xnc s) (rx_start s) (xne s) (xtx s + 1) (xrx s) (set_sent (sent s ++ [b]) s))
  end.
Fixpoint xfr_recv (n : nat) (card : list Z) (s : t0) : res (list Z * t0) :=
  match n with
  | O => Ok (card, s)
  | S n =>
      match card with
      | [] => Fault FHang
      | b :: card =>
          m ← wr (buff s) (Z.to_nat (rx_start s + xrx s)) b;
          let s := set_xfr (tx_start s) (xnc s) (rx_start s) (xne s) (xtx s) (xrx s + 1) (set_buff m s) in
          if xrx s =? xne s then s ← ifd_t0_ne_expire s; Ok (card, s)
          else xfr_recv n card s
      end
  end.
Fixpoint ifd_xchg_sync (fuel : nat) (card : list Z) (s : t0) : res (list Z * t0) :=
  if raised s then Ok (card, s)
  else match fuel with
  | O => Fault FHang
  | S fuel =>
      s ← xfr_send (Z.to_nat (xnc s - xtx s)) s;
      '(card, s) ← xfr_recv (Z.to_nat (xne s - xrx s)) card s;
      ifd_xchg_sync fuel card s
  end.

(** A whole exchange: the command of [n] bytes in [b] against [card]. *)
Definition t0_idle (b : list Z) : t0 := MkT0 false 0 0 0 0 0 0 0 0 0 0 0 0 0 b [] None false.
Definition t0_exchange (fuel : nat) (b : list Z) (n : Z) (card : list Z) : res (list Z * t0) :=
  '(_, s) ← ifd_t0_xchg_init n (t0_idle b); ifd_xchg_sync fuel card (ifd_t0_xchg_aval s).

(** ** Blocks on the line *)
Definition is_sw1 (b : Z) : bool := (SW1_6X b || SW1_9X b) && negb (b =? 0x60).
Definition is_null (b : Z) : bool := b =? 0x60.

(** The buffer with [l] written at [p]. *)
Definition overwrite (b : list Z) (p : nat) (l : list Z) : list Z := take p b ++ l ++ drop (p + length l) b.

(** Waiting: [n] bytes at [t] are to be sent, then [m] bytes to be received at [r]. *)
Definition W (i c e N M : Z) (b snt : list Z) (t n r m : nat) : t0 :=
  MkT0 false i c e N M (Z.of_nat (t + n)) (Z.of_nat (r + m)) (Z.of_nat t) (Z.of_nat r) (Z.of_nat n) (Z.of_nat m) 0 0 b snt None false.
(** Waiting for SW2 behind [r] bytes of data. *)
Definition C (i c e N M : Z) (b snt : list Z) (t r : nat) : t0 :=
  MkT0 true i c e N M (Z.of_nat t) (Z.of_nat (r + 2)) (Z.of_nat t) (Z.of_nat (S r)) 0 1 0 0 b snt None false.

Lemma xfr_send_ok n : forall s, 0 <= tx_start s -> 0 <= xtx s ->
  (Z.to_nat (tx_start s + xtx s) + n <= length (buff s))%nat ->
  xfr_send n s = Ok (set_xfr (tx_start s) (xnc s) (rx_start s) (xne s) (xtx s + Z.of_nat n) (xrx s)
    (set_sent (sent s ++ take n (drop (Z.to_nat (tx_start s + xtx s)) (buff s))) s)).
Proof.
  induction n as [|n IH]; intros s Ht Hx Hl; cbn [xfr_send].
  - cbn [take]. rewrite app_nil_r, Z.add_0_r. by destruct s.
  - destruct (rd_ok (buff s) (Z.to_nat (tx_start s + xtx s)) ltac:(lia)) as (b & Eb & Er). unfold xread. rewrite Er. cbn [mbind res_mbind].
    rewrite IH; [|cbn; lia|cbn; lia|cbn; lia]. cbn [tx_start xnc rx_start xne xtx xrx sent buff set_xfr set_sent].
    rewrite (drop_S _ _ _ Eb). cbn [take]. rewrite <- app_assoc. cbn [app].
    replace (Z.to_nat (tx_start s + (xtx s + 1))) with (S (Z.to_nat (tx_start s + xtx s))) by lia.
    unfold set_xfr, set_sent. cbn. do 2 f_equal. lia.
Qed.

Lemma overwrite_nil b p : overwrite b p [] = b.
Proof. unfold overwrite. cbn. by rewrite Nat.add_0_r, take_drop. Qed.
Lemma overwrite_cons b p x l : (p < length b)%nat -> overwrite (<[p := x]> b) (S p) l = overwrite b p (x :: l).
Proof.
  intros Hp. unfold overwrite. rewrite (take_S_r _ _ x) by (by apply list_lookup_insert_eq).
  rewrite take_insert_ge, <- app_assoc, drop_insert_lt by lia. cbn [app length].
  by replace (p + S (length l))%nat with (S p + length l)%nat by lia.
Qed.
Lemma overwrite_length b p l : (p + length l <= length b)%nat -> length (overwrite b p l) = length b.
Proof. intros. unfold overwrite. rewrite !length_app, length_take, length_drop. lia. Qed.

Lemma xfr_recv_S n b card s : xfr_recv (S n) (b :: card) s =
  (m ← wr (buff s) (Z.to_nat (rx_start s + xrx s)) b;
   let s := set_xfr (tx_start s) (xnc s) (rx_start s) (xne s) (xtx s) (xrx s + 1) (set_buff m s) in
   if xrx s =? xne s then s ← ifd_t0_ne_expire s; Ok (card, s) else xfr_recv n card s).
Proof. done. Qed.

(** Receiving the [m] bytes that are missing: the last one is handled by [ifd_t0_ne_expire]. *)
Lemma xfr_recv_ok xs : forall s p card, 0 <= rx_start s -> 0 <= xrx s -> xne s = xrx s + Z.of_nat (S (length xs)) ->
  (Z.to_nat (rx_start s + xrx s) + S (length xs) <= length (buff s))%nat ->
  xfr_recv (S (length xs)) (xs ++ p :: card) s =
    (s' ← ifd_t0_ne_expire (set_xfr (tx_start s) (xnc s) (rx_start s) (xne s) (xtx s) (xne s)
            (set_buff (overwrite (buff s) (Z.to_nat (rx_start s + xrx s)) (xs ++ [p])) s)); Ok (card, s')).
Proof.
  induction xs as [|x xs IH]; intros s p card Hr Hx Hm Hl; cbn [app length] in *;
    rewrite xfr_recv_S, wr_ok by lia; cbn [mbind res_mbind xrx xne set_xfr set_buff].
  - rewrite (proj2 (Z.eqb_eq _ _)) by lia. replace (xrx s + 1) with (xne s) by lia.
    by rewrite <- overwrite_cons, overwrite_nil by lia.
  - rewrite (proj2 (Z.eqb_neq _ _)) by lia. rewrite IH; cbn; [|lia|lia|lia|rewrite length_insert; lia].
    replace (Z.to_nat (rx_start s + (xrx s + 1))) with (S (Z.to_nat (rx_start s + xrx s))) by lia.
    by rewrite overwrite_cons by lia.
Qed.

Lemma overwrite_last b p xs x : (p + S (length xs) <= length b)%nat -> overwrite b p (xs ++ [x]) !! (p + length xs)%nat = Some x.
Proof.
  intros. unfold overwrite. rewrite lookup_app_r, length_take by (rewrite length_take; lia).
  rewrite <- app_assoc, lookup_app_r by lia. replace (p + length xs - (p `min` length b) - length xs)%nat with 0%nat by lia. done.
Qed.

Lemma t0_eq s s' : cmpl s = cmpl s' -> ins s = ins s' -> lc s = lc s' -> le s = le s' -> nc s = nc s' -> ne s = ne s' ->
  tx s = tx s' -> rx s = rx s' -> tx_start s = tx_start s' -> rx_start s = rx_start s' -> xnc s = xnc s' -> xne s = xne s' ->
  xtx s = xtx s' -> xrx s = xrx s' -> buff s = buff s' -> sent s = sent s' -> ended s = ended s' -> raised s = raised s' -> s = s'.
Proof. destruct s, s'. cbn. intros; subst; done. Qed.

(** Equality of states field by field. *)
Ltac t0_ext := apply t0_eq; cbn; rewrite ?(wrap_id 16) by lia; first [done | lia | idtac].

(** One round of the transfer loop up to the procedure byte [p]. *)
Lemma sync_step fuel i c e N M b snt t n r xs p card :
  (t + n <= length b)%nat -> (r + S (length xs) <= length b)%nat -> Z.of_nat (length b) < 2 ^ 16 - 2 ->
  N <= Z.of_nat (length b) ->
  let b' := overwrite b r (xs ++ [p]) in let snt' := snt ++ take n (drop t b) in let T := (t + n)%nat in let r' := (r + length xs)%nat in
  ifd_xchg_sync (S fuel) (xs ++ p :: card) (W i c e N M b snt t n r (S (length xs))) =
    ifd_xchg_sync fuel card
      (if is_sw1 p then C i c e N M b' snt' T r'
       else if is_null p then W i c e N M b' snt' T 0 r' 1
       else if negb ((p ^^^ i) =? 0) then
         if Z.of_nat T <? N then W i c e N M b' snt' T 1 r' 1 else W i c e N M b' snt' T 0 r' 2
       else if Z.of_nat T <? N then W i c e N M b' snt' T (Z.to_nat (N - Z.of_nat T)) r' 1
            else ifd_t0_xfr_block 0 (u16 (M - 1 - Z.of_nat r')) (set_pos (Z.of_nat T) (Z.of_nat r') (W i c e N M b' snt' T 0 r' 0))).
Proof.
  intros Ht Hr Hb HN b' snt' T r'. cbn [ifd_xchg_sync]. change (raised (W _ _ _ _ _ _ _ _ _ _ _)) with false. cbn iota.
  rewrite xfr_send_ok by (cbn; lia). cbn [mbind res_mbind xnc xtx xne xrx W set_xfr set_sent buff].
  rewrite !Z.sub_0_r, !Nat2Z.id. rewrite xfr_recv_ok by (cbn; lia). cbn [mbind res_mbind].
  unfold ifd_t0_ne_expire. cbn [cmpl set_xfr set_buff set_sent W negb]. unfold __ifd_t0_ne_expire_proc, ifd_xfr_read_last, ifd_xfr_read, xread.
  cbn [rx_start xne buff set_xfr set_buff set_sent W tx_start xtx sent xrx]. rewrite !Z.add_0_r, !Nat2Z.id.
  rewrite (wrap_id 16 (Z.of_nat (S (length xs)) - 1)) by lia. replace (Z.to_nat (Z.of_nat r + (Z.of_nat (S (length xs)) - 1))) with (r + length xs)%nat by lia.
  unfold rd. rewrite overwrite_last by lia. cbn [oob mbind res_mbind]. fold b'.
  assert (Er0 : u16 (Z.of_nat (r + S (length xs)) - 1) = Z.of_nat r') by (rewrite wrap_id; lia).
  unfold is_sw1, is_null. destruct (Z.eqb_spec p 0x60) as [->|H60]; cbn [negb].
  - change (SW1_6X 0x60 || SW1_9X 0x60) with true. cbn [andb mbind res_mbind]. f_equal. t0_ext; rewrite Er0, wrap_id by lia; lia.
  - rewrite andb_true_r. destruct (SW1_6X p || SW1_9X p); cbn [mbind res_mbind]; f_equal.
    + t0_ext.
    + match goal with |- context [set_pos ?x ?y ?z] => set (s1 := set_pos x y z) end.
      change (ins s1) with i. change (tx s1) with (Z.of_nat T). change (nc s1) with N. change (ne s1) with M.
      assert (Er : rx s1 = Z.of_nat r') by exact Er0.
      destruct (negb _), (Z.ltb_spec (Z.of_nat T) N); rewrite ?Er; t0_ext; rewrite ?Er0; first [done | rewrite ?(wrap_id 16 (N - _)), ?(wrap_id 16) by lia; lia].
Qed.

Lemma sync_done fuel i c e N M b snt t r sw2 card : (S r < length b)%nat ->
  ifd_xchg_sync (S fuel) (sw2 :: card) (C i c e N M b snt t r) =
    Ok (card, set_end (Some (Z.of_nat (r + 2))) true (set_xfr (Z.of_nat t) 0 (Z.of_nat (S r)) 1 0 1
      (set_buff (<[S r := sw2]> b) (C i c e N M b snt t r)))).
Proof.
  intros Hr. cbn [ifd_xchg_sync]. change (raised (C _ _ _ _ _ _ _ _ _)) with false. cbn iota.
  cbn [xnc xtx C]. change (Z.to_nat (0 - 0)) with 0%nat. cbn [xfr_send mbind res_mbind xne xrx C].
  change (Z.to_nat (1 - 0)) with 1%nat. rewrite xfr_recv_S. cbn [buff rx_start xrx C]. rewrite Z.add_0_r, Nat2Z.id, wr_ok by lia.
  cbn. destruct fuel; done.
Qed.

(** ** The card's part of an exchange *)

(** [sends i k ps k']: with [k] bytes of the command outstanding the procedure bytes [ps]
    ask for [k - k'] of them (NULL for none, INS for all, another byte for one). *)
Inductive sends (i : Z) : nat -> list Z -> nat -> Prop :=
  | SendsNil k : sends i k [] k
  | SendsNull k ps k' : sends i k ps k' -> sends i k (0x60 :: ps) k'
  | SendsAll k ps k' : is_sw1 i = false -> is_null i = false -> sends i 0 ps k' -> sends i (S k) (i :: ps) k'
  | SendsOne k p ps k' : is_sw1 p = false -> is_null p = false -> p <> i -> sends i k ps k' -> sends i (S k) (p :: ps) k'.

Lemma lxor_neq a b : a <> b -> ((a ^^^ b) =? 0) = false.
Proof. intros H. apply Z.eqb_neq. intros E. apply H. by apply Z.lxor_eq. Qed.

Lemma sends_le i k ps k' : sends i k ps k' -> (k' <= k)%nat.
Proof. induction 1; lia. Qed.

Lemma overwrite_0 b p : b <> [] -> overwrite b 0 [p] = <[0%nat := p]> b.
Proof. by destruct b. Qed.

Lemma take_more (l : list Z) t n m : take n (drop t l) ++ take m (drop (t + n) l) = take (n + m) (drop t l).
Proof. by rewrite <- drop_drop, take_take_drop. Qed.

(** [sync_step] for a single procedure byte while nothing was received yet. *)
Lemma sync_proc fuel i c e N M b snt t n p card :
  b <> [] -> (t + n <= length b)%nat -> Z.of_nat (length b) < 2 ^ 16 - 2 -> N <= Z.of_nat (length b) ->
  let b' := <[0%nat := p]> b in let snt' := snt ++ take n (drop t b) in let T := (t + n)%nat in
  ifd_xchg_sync (S fuel) (p :: card) (W i c e N M b snt t n 0 1) =
    ifd_xchg_sync fuel card
      (if is_sw1 p then C i c e N M b' snt' T 0
       else if is_null p then W i c e N M b' snt' T 0 0 1
       else if negb ((p ^^^ i) =? 0) then
         if Z.of_nat T <? N then W i c e N M b' snt' T 1 0 1 else W i c e N M b' snt' T 0 0 2
       else if Z.of_nat T <? N then W i c e N M b' snt' T (Z.to_nat (N - Z.of_nat T)) 0 1
            else ifd_t0_xfr_block 0 (u16 (M - 1 - 0)) (set_pos (Z.of_nat T) 0 (W i c e N M b' snt' T 0 0 0))).
Proof.
  intros Hnil Ht Hb HN. cbv zeta. rewrite <- (overwrite_0 b p Hnil).
  exact (sync_step fuel i c e N M b snt t n 0 [] p card Ht ltac:(destruct b; [done|cbn; lia]) Hb HN).
Qed.

(** The sending phase; the bytes up to [t + n] are on their way, [k] more follow. *)
Lemma send_phase i ps k k' : sends i k ps k' -> forall c e M b snt t n fuel card,
  (1 <= t + n)%nat -> (t + n + k <= length b)%nat -> Z.of_nat (length b) < 2 ^ 16 - 2 ->
  let N := Z.of_nat (t + n + k) in
  exists b1 snt1 t1 n1,
    ifd_xchg_sync (length ps + fuel) (ps ++ card) (W i c e N M b snt t n 0 1) =
      ifd_xchg_sync fuel card (W i c e N M b1 snt1 t1 n1 0 1) /\
    (b1 = b \/ exists q, b1 = <[0%nat := q]> b) /\ (t1 + n1 = t + n + (k - k'))%nat /\
    snt1 ++ take n1 (drop t1 b1) = snt ++ take (n + (k - k')) (drop t b).
Proof.
  induction 1 as [k|k ps k' Hs IH|k ps k' Hsw Hnull Hs IH|k p ps k' Hsw Hnull Hne Hs IH];
    intros c e M b snt t n fuel card Htn Hk Hb N.
  { exists b, snt, t, n. rewrite Nat.sub_diag, !Nat.add_0_r. cbn. auto. }
  all: cbn [length app Nat.add]; assert (Hnil : b <> []) by (intros ->; cbn in Hk; lia).
  all: rewrite sync_proc by (done || lia); pose proof (sends_le _ _ _ _ Hs) as Hle.
  - (* NULL *)
    change (is_sw1 0x60) with false. change (is_null 0x60) with true. cbn iota.
    edestruct (IH c e M (<[0%nat := 0x60]> b) (snt ++ take n (drop t b)) (t + n)%nat 0%nat fuel card) as (b1 & snt1 & t1 & n1 & E & Hb1 & Ht1 & Hs1);
      [lia|rewrite length_insert; lia|by rewrite length_insert|].
    exists b1, snt1, t1, n1. rewrite Nat.add_0_r in E. split; [exact E|]. split; [|split; [lia|]].
    + right. destruct Hb1 as [->|[q ->]]; [by eexists|]. exists q. by rewrite list_insert_insert_eq.
    + rewrite Hs1, drop_insert_lt by lia. cbn [Nat.add]. by rewrite <- app_assoc, take_more.
  - (* all *)
    rewrite Hsw, Hnull, Z.lxor_nilpotent. cbn [Z.eqb negb]. rewrite (proj2 (Z.ltb_lt _ _)) by lia.
    replace (Z.to_nat (N - Z.of_nat (t + n))) with (S k) by lia.
    edestruct (IH c e M (<[0%nat := i]> b) (snt ++ take n (drop t b)) (t + n)%nat (S k) fuel card) as (b1 & snt1 & t1 & n1 & E & Hb1 & Ht1 & Hs1);
      [lia|rewrite length_insert; lia|by rewrite length_insert|].
    exists b1, snt1, t1, n1. rewrite Nat.add_0_r in E. split; [exact E|]. split; [|split; [lia|]].
    + right. destruct Hb1 as [->|[q ->]]; [by eexists|]. exists q. by rewrite list_insert_insert_eq.
    + rewrite Hs1, drop_insert_lt by lia. rewrite <- app_assoc, take_more. do 2 f_equal. lia.
  - (* one *)
    rewrite Hsw, Hnull, lxor_neq by done. cbn [negb]. rewrite (proj2 (Z.ltb_lt _ _)) by lia.
    edestruct (IH c e M (<[0%nat := p]> b) (snt ++ take n (drop t b)) (t + n)%nat 1%nat fuel card) as (b1 & snt1 & t1 & n1 & E & Hb1 & Ht1 & Hs1);
      [lia|rewrite length_insert; lia|by rewrite length_insert|].
    exists b1, snt1, t1, n1. replace (t + n + 1 + k)%nat with (t + n + S k)%nat in E by lia.
    split; [exact E|]. split; [|split; [lia|]].
    + right. destruct Hb1 as [->|[q ->]]; [by eexists|]. exists q. by rewrite list_insert_insert_eq.
    + rewrite Hs1, drop_insert_lt by lia. rewrite <- app_assoc, take_more. do 2 f_equal. lia.
Qed.

(** The header and the data of a command without Le. *)
Definition command (b : list Z) (i : Z) (k : nat) : Prop :=
  b !! 1%nat = Some i /\ b !! 4%nat = Some (Z.of_nat k) /\ (k < 256)%nat /\ (5 + k <= length b)%nat /\
  Z.of_nat (length b) < 2 ^ 16 - 2.

Lemma exchange_start b i k fuel card : command b i k -> (0 < k)%nat ->
  t0_exchange fuel b (Z.of_nat (5 + k)) card =
    ifd_xchg_sync fuel card (W i (Z.of_nat k) 0 (Z.of_nat (5 + k)) 2 b [] 0 5 0 1).
Proof.
  intros (H1 & H4 & Hk & Hl & Hb) Hpos. unfold t0_exchange, ifd_t0_xchg_init, ifd_t0_xfr_parse.
  rewrite (proj2 (Z.ltb_ge _ 4)) by lia. unfold xread, rd. change (buff (t0_idle b)) with b.
  change (Z.to_nat 1) with 1%nat. change (Z.to_nat 4) with 4%nat. rewrite H1. cbn [oob mbind res_mbind].
  rewrite (proj2 (Z.eqb_neq _ 4)), H4 by lia. cbn [oob mbind res_mbind]. rewrite (proj2 (Z.eqb_neq _ 5)), (wrap_id 16) by lia.
  rewrite (proj2 (Z.ltb_ge _ _)), (proj2 (Z.eqb_neq _ _)) by lia. cbn [mbind res_mbind]. rewrite Z.eqb_refl. cbn [negb mbind res_mbind].
  f_equal. apply t0_eq; cbn; (done || lia).
Qed.

(** C36: sending a command over T=0.  When the card answers the header of a command with
    [lc] data bytes with any mix of procedure bytes (NULL, INS for all that is left,
    another byte for one) and then a status SW1 SW2, exactly the header and the data bytes
    the procedure bytes ask for were sent, in order, the exchange ends with the two status
    bytes as the answer, and it ends after one round per byte of the card. *)
Theorem t0_command_correct b i k ps k' sw1 sw2 card :
  command b i k -> (0 < k)%nat -> sends i k ps k' -> is_sw1 sw1 = true ->
  exists s, t0_exchange (length ps + 2) b (Z.of_nat (5 + k)) (ps ++ sw1 :: sw2 :: card) = Ok (card, s) /\
    sent s = take (5 + (k - k')) b /\ ended s = Some 2 /\ take 2 (buff s) = [sw1; sw2].
Proof.
  intros Hc Hpos Hs Hsw. pose proof Hc as (_ & _ & _ & Hl & Hb). rewrite (exchange_start b i k _ _ Hc Hpos).
  destruct (send_phase i ps k k' Hs (Z.of_nat k) 0 2 b [] 0 5 2 (sw1 :: sw2 :: card)) as (b1 & snt1 & t1 & n1 & E & Hb1 & Ht1 & Hs1);
    [lia|lia|done|]. change (0 + 5 + k)%nat with (5 + k)%nat in E. rewrite E.
  assert (Hlb : length b1 = length b) by (destruct Hb1 as [->|[q ->]]; [done|by rewrite length_insert]).
  assert (Hnil : b1 <> []) by (intros ->; cbn in Hlb; lia). pose proof (sends_le _ _ _ _ Hs).
  rewrite sync_proc by (done || lia). rewrite Hsw. rewrite sync_done by (rewrite length_insert; lia).
  eexists. split; [done|]. cbn [sent ended set_end set_xfr set_buff C buff]. split; [by rewrite Hs1|]. split; [done|].
  destruct b1 as [|x [|y b1]]; [done|cbn in Hlb; lia|done].
Qed.

(** [gets i k ps d k']: with [k] bytes of the answer outstanding the card sends the stream
    [ps] of procedure bytes and data [d] (NULL, one data byte behind a byte other than
    INS, all the data behind INS), and [k'] bytes stay outstanding. *)
Inductive gets (i : Z) : nat -> list Z -> list Z -> nat -> Prop :=
  | GetsNil k : gets i k [] [] k
  | GetsNull k ps d k' : gets i k ps d k' -> gets i k (0x60 :: ps) d k'
  | GetsOne k p x ps d k' : is_sw1 p = false -> is_null p = false -> p <> i ->
      gets i k ps d k' -> gets i (S k) (p :: x :: ps) (x :: d) k'
  | GetsAll d ps k' : is_sw1 i = false -> is_null i = false ->
      gets i 0 ps [] k' -> gets i (length d) (i :: d ++ ps) d k'.

Lemma overwrite_take b r xs p : (r + S (length xs) <= length b)%nat ->
  take (r + length xs) (overwrite b r (xs ++ [p])) = take r b ++ xs.
Proof.
  intros Hl. unfold overwrite. rewrite app_assoc, take_app_le by (rewrite !length_app, length_take; cbn; lia).
  rewrite app_assoc, take_app_le by (rewrite length_app, length_take; lia). apply take_ge. rewrite length_app, length_take. lia.
Qed.

(** The receiving phase: [r] bytes are in the buffer, [xs] are on the line before the next
    procedure byte. *)
Lemma recv_phase i k ps d k' : gets i k ps d k' -> forall c e b snt t n r xs card,
  (t + n <= length b)%nat -> (r + length xs + k + 2 <= length b)%nat -> Z.of_nat (length b) < 2 ^ 16 - 2 ->
  let N := Z.of_nat (t + n) in let M := Z.of_nat (r + length xs + k + 2) in
  exists m b1 snt1 t1 n1 r1 xs1, (m <= length ps)%nat /\
    (forall fuel, ifd_xchg_sync (m + fuel) (xs ++ ps ++ card) (W i c e N M b snt t n r (S (length xs))) =
      ifd_xchg_sync fuel (xs1 ++ card) (W i c e N M b1 snt1 t1 n1 r1 (S (length xs1)))) /\
    (r1 + length xs1 = r + length xs + length d)%nat /\ take r1 b1 ++ xs1 = (take r b ++ xs) ++ d /\
    (t1 + n1 = t + n)%nat /\ snt1 ++ take n1 (drop t1 b1) = snt ++ take n (drop t b) /\ length b1 = length b /\
    (length d <= k)%nat.
Proof.
  induction 1 as [k|k ps d k' Hs IH|k p x ps d k' Hsw Hnull Hne Hs IH|d ps k' Hsw Hnull Hs IH];
    intros c e b snt t n r xs card Htn Hk Hb N M.
  { exists 0%nat, b, snt, t, n, r, xs. rewrite app_nil_r, Nat.add_0_r. cbn. repeat split; lia. }
  - (* NULL *)
    set (b' := overwrite b r (xs ++ [0x60])).
    assert (Hl : length b' = length b) by (apply overwrite_length; rewrite length_app; cbn; lia).
    edestruct (IH c e b' (snt ++ take n (drop t b)) (t + n)%nat 0%nat (r + length xs)%nat [] card)
      as (m & b1 & snt1 & t1 & n1 & r1 & xs1 & Hm & E & Hr & Hd & Ht & Hsn & Hlen & Hdk); [lia|cbn; lia|by rewrite Hl|].
    exists (S m), b1, snt1, t1, n1, r1, xs1. split; [cbn; lia|]. split.
    { intros fuel. cbn [Nat.add app]. rewrite sync_step by lia. change (is_sw1 0x60) with false. change (is_null 0x60) with true. cbn iota.
      cbn [app length] in E. rewrite !Nat.add_0_r in E. exact (E fuel). }
    cbn [length] in Hr. split; [lia|]. split.
    { rewrite Hd. unfold b'. rewrite overwrite_take, app_nil_r by lia. done. }
    split; [lia|]. split; [rewrite Hsn; cbn; by rewrite app_nil_r|]. split; [by rewrite Hlen|done].
  - (* one *)
    set (b' := overwrite b r (xs ++ [p])).
    assert (Hl : length b' = length b) by (apply overwrite_length; rewrite length_app; cbn; lia).
    edestruct (IH c e b' (snt ++ take n (drop t b)) (t + n)%nat 0%nat (r + length xs)%nat [x] card)
      as (m & b1 & snt1 & t1 & n1 & r1 & xs1 & Hm & E & Hr & Hd & Ht & Hsn & Hlen & Hdk); [lia|cbn; lia|by rewrite Hl|].
    exists (S m), b1, snt1, t1, n1, r1, xs1. split; [cbn; lia|]. split.
    { intros fuel. cbn [Nat.add app]. rewrite sync_step by lia. rewrite Hsw, Hnull, lxor_neq by done. cbn [negb].
      rewrite (proj2 (Z.ltb_ge _ _)) by lia. cbn [app length] in E. rewrite !Nat.add_0_r in E.
      replace (r + length xs + 1 + k + 2)%nat with (r + length xs + S k + 2)%nat in E by lia. exact (E fuel). }
    cbn [length] in Hr |- *. split; [lia|]. split.
    { rewrite Hd. unfold b'. rewrite overwrite_take, <- !app_assoc by lia. done. }
    split; [lia|]. split; [rewrite Hsn; cbn; by rewrite app_nil_r|]. split; [by rewrite Hlen|lia].
  - (* all *)
    set (b' := overwrite b r (xs ++ [i])).
    assert (Hl : length b' = length b) by (apply overwrite_length; rewrite length_app; cbn; lia).
    edestruct (IH c e b' (snt ++ take n (drop t b)) (t + n)%nat 0%nat (r + length xs)%nat d card)
      as (m & b1 & snt1 & t1 & n1 & r1 & xs1 & Hm & E & Hr & Hd & Ht & Hsn & Hlen & Hdk); [lia|lia|by rewrite Hl|].
    exists (S m), b1, snt1, t1, n1, r1, xs1. split; [cbn; rewrite length_app; lia|]. split.
    { intros fuel. cbn [Nat.add app]. rewrite sync_step by lia. rewrite Hsw, Hnull, Z.lxor_nilpotent. cbn [Z.eqb negb].
      rewrite (proj2 (Z.ltb_ge _ _)) by lia. rewrite !Nat.add_0_r in E. rewrite <- app_assoc.
      etransitivity; [|exact (E fuel)]. f_equal. fold b'.
      t0_ext; unfold M; rewrite ?(wrap_id 16 (Z.of_nat _ - 1 - _)), ?(wrap_id 16) by lia; lia. }
    split; [cbn in Hr; lia|]. split.
    { rewrite Hd. unfold b'. rewrite overwrite_take, app_nil_r by lia. done. }
    split; [lia|]. split; [rewrite Hsn; cbn; by rewrite app_nil_r|]. split; [by rewrite Hlen|lia].
Qed.

(** Receiving an answer over T=0.  When the card answers the header of a command that
    expects [k] bytes (Le, 0 meaning 256) with a stream of NULL bytes and data in either
    mode and then a status SW1 SW2, the exchange ends, exactly the header was sent, and the
    answer in the buffer is the data followed by the status; a buffer of [k + 2] bytes is
    enough. *)
Theorem t0_answer_correct b i p3 k ps d k' sw1 sw2 card :
  b !! 1%nat = Some i -> b !! 4%nat = Some p3 -> in_u 8 p3 -> Z.of_nat k = le_of p3 ->
  (k + 2 <= length b)%nat -> (5 <= length b)%nat -> Z.of_nat (length b) < 2 ^ 16 - 2 ->
  gets i k ps d k' -> is_sw1 sw1 = true ->
  exists fuel s, t0_exchange fuel b 5 (ps ++ sw1 :: sw2 :: card) = Ok (card, s) /\ (fuel <= length ps + 2)%nat /\
    sent s = take 5 b /\ take (length d + 2) (buff s) = d ++ [sw1; sw2] /\ ended s = Some (Z.of_nat (length d + 2)).
Proof.
  intros H1 H4 H8 Hk Hl H5 Hb Hg Hsw.
  assert (E0 : forall fuel c, t0_exchange fuel b 5 c =
    ifd_xchg_sync fuel c (W i 0 (Z.of_nat k) (Z.of_nat (0 + 5)) (Z.of_nat (0 + length (@nil Z) + k + 2)) b [] 0 5 0 (S (length (@nil Z))))).
  { intros fuel c. unfold t0_exchange, ifd_t0_xchg_init, ifd_t0_xfr_parse. cbn [Z.ltb Z.eqb]. cbn -[ifd_xchg_sync W le_of ifd_t0_xchg_aval].
    unfold xread, rd. change (buff (t0_idle b)) with b. change (Z.to_nat 1) with 1%nat. change (Z.to_nat 4) with 4%nat.
    rewrite H1, H4. cbn [oob mbind res_mbind]. rewrite Z.eqb_refl. cbn [negb mbind res_mbind]. f_equal.
    apply t0_eq; cbn -[le_of]; rewrite <- ?Hk; (done || lia). }
  destruct (recv_phase i k ps d k' Hg 0 (Z.of_nat k) b [] 0 5 0 [] (sw1 :: sw2 :: card))
    as (m & b1 & snt1 & t1 & n1 & r1 & xs1 & Hm & E & Hr & Hd & Ht & Hsn & Hlen & Hdk); [lia|cbn; lia|done|].
  exists (m + 2)%nat. setoid_rewrite E0. cbn [app] in E. cbn [length] in Hr. rewrite (E 2%nat).
  rewrite sync_step by lia. rewrite Hsw. rewrite sync_done by (rewrite overwrite_length by (rewrite length_app; cbn; lia); lia).
  eexists. split; [done|]. split; [lia|]. cbn [sent ended set_end set_xfr set_buff C buff].
  split; [rewrite Hsn; done|]. assert (Er : (r1 + length xs1 = length d)%nat) by lia. rewrite Er. split; [|done].
  change ((take 0 b ++ []) ++ d) with d in Hd. transitivity ((take r1 b1 ++ xs1) ++ [sw1; sw2]); [|by rewrite Hd].
  replace (length d + 2)%nat with (S (S (length d))) by lia.
  rewrite (take_S_r _ _ sw2); [|apply list_lookup_insert_eq; rewrite overwrite_length by (rewrite length_app; cbn; lia); lia].
  rewrite take_insert_ge by lia. rewrite (take_S_r _ _ sw1) by (rewrite <- Er; apply overwrite_last; lia).
  rewrite <- Er, overwrite_take by lia. by rewrite <- app_assoc.
Qed.

(** A command without data and without Le in a buffer of 261 bytes. *)
Definition short_command : list Z := [0; 0xB0; 0; 0] ++ replicate 257 0.

(** A card can write behind the exchange buffer.  Bytes that are neither a status nor
    INS make [__ifd_t0_ne_expire_proc] receive one more data byte whatever Le is, and INS
    behind more bytes than Le allows makes the length of the next block, [(ne-1)-rx], wrap
    around in 16 bits; for a command that expects no data the receive position grows with
    every such byte, and the bytes are stored without a check: 262 data bytes, or three of
    them and INS, leave the buffer of 261 bytes. *)
Theorem t0_card_overflows_buffer :
  t0_exchange 600 short_command 4 (concat (replicate 262 [0x4F; 7])) = Fault FOob /\
  t0_exchange 10 short_command 4 ([0x4F; 7; 0x4F; 8; 0x4F; 9; 0xB0] ++ replicate 300 1) = Fault FOob.
Proof. split; vm_compute; reflexivity. Qed.

Lemma t0_command_correct_witness :
  exists s, t0_exchange 5 ([0; 0xA4; 0; 0; 3; 1; 2; 3] ++ replicate 253 0) 8 [0x5B; 0x60; 0xA4; 0x90; 0] = Ok ([], s) /\
    sent s = [0; 0xA4; 0; 0; 3; 1; 2; 3].
Proof.
  destruct (t0_command_correct ([0; 0xA4; 0; 0; 3; 1; 2; 3] ++ replicate 253 0) 0xA4 3 [0x5B; 0x60; 0xA4] 0 0x90 0 [])
    as (s & E & Hs & _).
  - unfold command. cbn. repeat split; lia.
  - lia.
  - apply SendsOne; [done|done|lia|]. apply SendsNull. apply SendsAll; [done|done|]. apply SendsNil.
  - reflexivity.
  - exists s. split; [exact E|exact Hs].
Defined.

Lemma t0_answer_correct_witness :
  exists fuel s, t0_exchange fuel ([0; 0xB0; 0; 0; 3] ++ replicate 256 0) 5 ([0x60; 0x4F; 7; 0xB0; 8; 9] ++ 0x90 :: 0 :: []) = Ok ([], s) /\
    take 5 (buff s) = [7; 8; 9; 0x90; 0].
Proof.
  destruct (t0_answer_correct ([0; 0xB0; 0; 0; 3] ++ replicate 256 0) 0xB0 3 3 [0x60; 0x4F; 7; 0xB0; 8; 9] [7; 8; 9] 0 0x90 0 [])
    as (fuel & s & E & _ & _ & Hd & _); [reflexivity|reflexivity|lia|reflexivity|cbn; lia|cbn; lia|cbn; lia| |reflexivity|].
  - apply GetsNull. apply GetsOne; [done|done|lia|]. apply (GetsAll 0xB0 [8; 9] []); [done|done|]. apply GetsNil.
  - exists fuel, s. split; [exact E|exact Hd].
Defined.
