(* ===== verification/Ifd.v ===== *)
(** * Ifd: slots of the smart card reader

    kernel/scs/ifd.c, the ISO/IEC 7816-3 interface device, in the build of the CCID reader
    (arch/avr/configs/ccid_defconfig): one slot, CONFIG_IFD_XCHG_APDU, the automatic
    sequence with class selection, activation, reset and information exchange
    (CONFIG_IFD_CLASS_SELECT_DESCEND, CONFIG_IFD_AUTO_PPS_BASE).  Here are the state and
    the operations: the slot state machine with its events, the exchange state machine,
    the command sequences, reception and parsing of the answer to reset (ATR), the PPS
    exchange, and the functions the upper layer calls.

    The state [ifd] holds the file's variables: [i_slot] is [ifd_slot_ctrl], [i_state],
    [i_error] and [i_nr] are [ifd_xchg_ctrl], [i_seq] is [ifd_user_ctrl.seq], [i_sev] and
    [i_xev] are the event words, [i_buff] the exchange buffer.  The members of the union
    [ifd_tmps] are fields of their own: no use of one member follows a use of another without
    its fields being written first, but for the bytes of [pps_req] that a request leaves out,
    which are any bytes.  [i_wake] is the wake-up flag of the bottom half, [i_done] the errors the completion callback was
    called with, [i_sent] the bytes on the line.  Hardware and card are parameters: the
    outcome of activation, the level of I/O after power-on and what arrives on the line
    after a reset.  A line with nothing more on it lets the waiting time expire.  Switching
    the card's supply off has no other effect in the model than the event it raises.  The
    protocols are parameters too, as records of their callbacks ([ifd_proto_t]); delays and
    debug output are left out. *)
From S2P Require Import Prelude Bitops MulDiv CString.
From stdpp Require Import list.
Local Open Scope Z_scope.
Local Open Scope c_scope.

Definition SCS_ERR_SANITY : Z := 0x20.
Definition SCS_ERR_PROGRESS : Z := 0x0A.
Definition SCS_ERR_UNSUPPORT : Z := 0x09.
Definition SCS_ERR_BAD_POWER : Z := 0x08.
Definition SCS_ERR_PARITY_ERR : Z := 0x07.
Definition SCS_ERR_OVERRUN : Z := 0x06.
Definition SCS_ERR_BUSY_SLOT : Z := 0x05.
Definition SCS_ERR_BUSY_AUTO : Z := 0x04.
Definition SCS_ERR_TIMEOUT : Z := 0x03.
Definition SCS_ERR_NOTPRESENT : Z := 0x02.
Definition SCS_ERR_HW_ERROR : Z := 0x01.
Definition SCS_ERR_SUCCESS : Z := 0x00.
Definition IFD_ERR_BAD_PCK : Z := SCS_ERR_SANITY ||| 8.
Definition IFD_ERR_BAD_PPSR : Z := SCS_ERR_SANITY ||| 7.
Definition IFD_ERR_BAD_PPSS : Z := SCS_ERR_SANITY ||| 6.
Definition IFD_ERR_BAD_FD : Z := SCS_ERR_SANITY ||| 5.
Definition IFD_ERR_BAD_PROTO : Z := SCS_ERR_SANITY ||| 4.
Definition IFD_ERR_BAD_TCK : Z := SCS_ERR_SANITY ||| 3.
Definition IFD_ERR_BAD_TS : Z := SCS_ERR_SANITY ||| 2.
Definition IFD_ERR_BAD_CLASS : Z := SCS_ERR_SANITY ||| 1.

Definition IFD_BUF_SIZE : Z := 261.
Definition NR_IFD_PROTOS : Z := 2.
Definition NR_IFD_FIS : Z := 14.
Definition NR_IFD_DIS : Z := 10.
Definition IFD_WT_PPS : Z := 9600.
Definition IFD_CLASS_AUTO : Z := 0x00.
Definition IFD_CLASS_A : Z := 0x01.
Definition IFD_CLASS_B : Z := 0x02.
Definition IFD_CLASS_C : Z := 0x03.
Definition IFD_CLASS_NONE : Z := 0xFF.
Definition IFD_CLASS_INIT : Z := IFD_CLASS_A.
Definition IFD_FD_IMPLICIT : Z := 0x11.
Definition IFD_N_IMPLICIT : Z := 0x00.
Definition SCS_PROTO_T0 : Z := 0x00.
Definition IFD_PROTO_DEF : Z := SCS_PROTO_T0.
Definition IFD_GLOBAL_T15 : Z := 0x0F.
Definition IFD_PROTO_INVALID : Z := 0xFF.
Definition IFD_CONV_DIRECT : Z := 0x3B.
Definition IFD_CONV_INVERSE : Z := 0x3F.
Definition IFD_HW_FREQ_DEF : Z := 4000.

Definition IFD_SLOT_STATE_NOTPRESENT : Z := 0x00.
Definition IFD_SLOT_STATE_PRESENT : Z := 0x01.
Definition IFD_SLOT_STATE_HWERROR : Z := 0x02.
Definition IFD_SLOT_STATE_ATR_READY : Z := 0x03.
Definition IFD_SLOT_STATE_PPS_READY : Z := 0x04.
Definition IFD_SLOT_STATE_SELECTED : Z := 0x05.
Definition IFD_SLOT_STATE_ACTIVATED : Z := 0x06.

Definition IFD_SLOT_EVENT_ICC_IN : Z := 0x01.
Definition IFD_SLOT_EVENT_ICC_OUT : Z := 0x02.
Definition IFD_SLOT_EVENT_CLS_CHG : Z := 0x04.
Definition IFD_SLOT_EVENT_HW_ERR : Z := 0x08.
Definition IFD_SLOT_EVENT_PWR_OFF : Z := 0x10.
Definition IFD_SLOT_EVENT_PWR_OK : Z := 0x20.
Definition IFD_SLOT_EVENT_ATR_OK : Z := 0x40.
Definition IFD_SLOT_EVENT_PPS_OK : Z := 0x80.
Definition IFD_SLOT_EVENT_WARM_RST : Z := 0x100.
Definition IFD_SLOT_EVENT_XFR_SYNC : Z := 0x8000.

Definition IFD_XCHG_EVENT_WT_EXPIRE : Z := 0x01.
Definition IFD_XCHG_EVENT_XFR_CMPL : Z := 0x02.
Definition IFD_XCHG_EVENT_ICC_OUT : Z := 0x04.
Definition IFD_XCHG_EVENT_PARITY_ERR : Z := 0x08.
Definition IFD_XCHG_EVENT_POWER_ERR : Z := 0x10.
Definition IFD_XCHG_EVENT_CONV_ERR : Z := 0x20.
Definition IFD_XCHG_EVENT_XFR_OVER : Z := 0x40.

Definition IFD_XCHG_STATE_IDLE : Z := 0x00.
Definition IFD_XCHG_STATE_BUSY : Z := 0x01.
Definition IFD_XCHG_STATE_ERROR : Z := 0x02.

Definition IFD_SEQ_AUTO_SEQ : Z := 0x00.
Definition IFD_SEQ_POWER_ON : Z := 0x01.
Definition IFD_SEQ_POWER_OFF : Z := 0x02.
Definition IFD_SEQ_SET_PARAM : Z := 0x03.
Definition IFD_SEQ_INTERCHANGE : Z := 0x05.
Definition IFD_SEQ_IDLE : Z := 0xFF.

Definition IFD_INFO_XCHG_SPECIFIC : Z := 0x00.
Definition IFD_INFO_XCHG_NEGO_PPS : Z := 0x01.
Definition IFD_INFO_XCHG_NEGO_1ST : Z := 0x02.
Definition IFD_FLAG_GT_USE_IND_FD : Z := 0x01.
Definition IFD_FLAG_SPEC_CAP_CHANGE : Z := 0x02.
Definition IFD_CLASS_MASK : Z := 0x07.
Definition IFD_CLOCK_STOP_MASK : Z := 0xC0.

Definition TA_EXISTS : Z := 0x10.
Definition TB_EXISTS : Z := 0x20.
Definition TC_EXISTS : Z := 0x40.
Definition TD_EXISTS : Z := 0x80.
Definition TD_Y (td : Z) : Z := td &&& 0xF0.
Definition TD_T (td : Z) : Z := td &&& 0x0F.
Definition T0_K (td : Z) : Z := td &&& 0x0F.
Definition IFD_ATR_TS : Z := 0x00.
Definition IFD_ATR_TD : Z := 0x02.
Definition IFD_ATR_TK : Z := 0x03.
Definition IFD_ATR_TCK : Z := 0x04.
Definition IFD_PPS_PPSS : Z := 0xFF.
Definition IFD_PPS_EXISTS (n : Z) : Z := 1 <<< (4 + n).
Definition IFD_PPS_PROTO (pps0 : Z) : Z := pps0 &&& 0x0F.
Definition HIHALF (b : Z) : Z := b >>> 4.
Definition LOHALF (b : Z) : Z := b &&& 0x0F.
(** [if (flags & bit)] *)
Definition has (flags bit : Z) : bool := negb ((flags &&& bit) =? 0).

Definition ifd_fi_supps : list Z :=
  [372; 372; 558; 744; 1116; 1488; 1860; 0; 0; 512; 768; 1024; 1536; 2048].
Definition ifd_di_supps : list Z := [0; 1; 2; 4; 8; 16; 32; 0; 12; 20].
Definition ifd_fmax_supps : list Z :=
  [4000; 5000; 6000; 8000; 12000; 16000; 20000; 0; 0; 5000; 7500; 10000; 15000; 20000].

(** [struct ifd_slot] (include/target/ifd.h); [sl_cmpl] tells whether the completion
    callback is set. *)
Record ifd_slot : Type := MkSlot {
  sl_status : Z; sl_clazz : Z; sl_fd : Z; sl_n : Z; sl_proto : Z; sl_conv : Z; sl_ind_fd : Z; sl_first_proto : Z; sl_ind_protos : Z; sl_info_xchg : Z; sl_flags : Z; sl_spec_fd : Z; sl_spec_proto : Z; sl_ind_cls : Z; sl_clk_stop : Z; sl_nego_clazz : Z; sl_nego_fd : Z; sl_nego_proto : Z; sl_tx : Z; sl_rx : Z; sl_nc : Z; sl_ne : Z; sl_cmpl : bool; sl_freq : Z; sl_cgt : Z; sl_bgt : Z; sl_cwt : Z; sl_bwt : Z }.
Definition set_sl_status (v : Z) (r : ifd_slot) : ifd_slot :=
  MkSlot v (sl_clazz r) (sl_fd r) (sl_n r) (sl_proto r) (sl_conv r) (sl_ind_fd r) (sl_first_proto r) (sl_ind_protos r) (sl_info_xchg r) (sl_flags r) (sl_spec_fd r) (sl_spec_proto r) (sl_ind_cls r) (sl_clk_stop r) (sl_nego_clazz r) (sl_nego_fd r) (sl_nego_proto r) (sl_tx r) (sl_rx r) (sl_nc r) (sl_ne r) (sl_cmpl r) (sl_freq r) (sl_cgt r) (sl_bgt r) (sl_cwt r) (sl_bwt r).
Definition set_sl_clazz (v : Z) (r : ifd_slot) : ifd_slot :=
  MkSlot (sl_status r) v (sl_fd r) (sl_n r) (sl_proto r) (sl_conv r) (sl_ind_fd r) (sl_first_proto r) (sl_ind_protos r) (sl_info_xchg r) (sl_flags r) (sl_spec_fd r) (sl_spec_proto r) (sl_ind_cls r) (sl_clk_stop r) (sl_nego_clazz r) (sl_nego_fd r) (sl_nego_proto r) (sl_tx r) (sl_rx r) (sl_nc r) (sl_ne r) (sl_cmpl r) (sl_freq r) (sl_cgt r) (sl_bgt r) (sl_cwt r) (sl_bwt r).
Definition set_sl_fd (v : Z) (r : ifd_slot) : ifd_slot :=
  MkSlot (sl_status r) (sl_clazz r) v (sl_n r) (sl_proto r) (sl_conv r) (sl_ind_fd r) (sl_first_proto r) (sl_ind_protos r) (sl_info_xchg r) (sl_flags r) (sl_spec_fd r) (sl_spec_proto r) (sl_ind_cls r) (sl_clk_stop r) (sl_nego_clazz r) (sl_nego_fd r) (sl_nego_proto r) (sl_tx r) (sl_rx r) (sl_nc r) (sl_ne r) (sl_cmpl r) (sl_freq r) (sl_cgt r) (sl_bgt r) (sl_cwt r) (sl_bwt r).
Definition set_sl_n (v : Z) (r : ifd_slot) : ifd_slot :=
  MkSlot (sl_status r) (sl_clazz r) (sl_fd r) v (sl_proto r) (sl_conv r) (sl_ind_fd r) (sl_first_proto r) (sl_ind_protos r) (sl_info_xchg r) (sl_flags r) (sl_spec_fd r) (sl_spec_proto r) (sl_ind_cls r) (sl_clk_stop r) (sl_nego_clazz r) (sl_nego_fd r) (sl_nego_proto r) (sl_tx r) (sl_rx r) (sl_nc r) (sl_ne r) (sl_cmpl r) (sl_freq r) (sl_cgt r) (sl_bgt r) (sl_cwt r) (sl_bwt r).
Definition set_sl_proto (v : Z) (r : ifd_slot) : ifd_slot :=
  MkSlot (sl_status r) (sl_clazz r) (sl_fd r) (sl_n r) v (sl_conv r) (sl_ind_fd r) (sl_first_proto r) (sl_ind_protos r) (sl_info_xchg r) (sl_flags r) (sl_spec_fd r) (sl_spec_proto r) (sl_ind_cls r) (sl_clk_stop r) (sl_nego_clazz r) (sl_nego_fd r) (sl_nego_proto r) (sl_tx r) (sl_rx r) (sl_nc r) (sl_ne r) (sl_cmpl r) (sl_freq r) (sl_cgt r) (sl_bgt r) (sl_cwt r) (sl_bwt r).
Definition set_sl_conv (v : Z) (r : ifd_slot) : ifd_slot :=
  MkSlot (sl_status r) (sl_clazz r) (sl_fd r) (sl_n r) (sl_proto r) v (sl_ind_fd r) (sl_first_proto r) (sl_ind_protos r) (sl_info_xchg r) (sl_flags r) (sl_spec_fd r) (sl_spec_proto r) (sl_ind_cls r) (sl_clk_stop r) (sl_nego_clazz r) (sl_nego_fd r) (sl_nego_proto r) (sl_tx r) (sl_rx r) (sl_nc r) (sl_ne r) (sl_cmpl r) (sl_freq r) (sl_cgt r) (sl_bgt r) (sl_cwt r) (sl_bwt r).
Definition set_sl_ind_fd (v : Z) (r : ifd_slot) : ifd_slot :=
  MkSlot (sl_status r) (sl_clazz r) (sl_fd r) (sl_n r) (sl_proto r) (sl_conv r) v (sl_first_proto r) (sl_ind_protos r) (sl_info_xchg r) (sl_flags r) (sl_spec_fd r) (sl_spec_proto r) (sl_ind_cls r) (sl_clk_stop r) (sl_nego_clazz r) (sl_nego_fd r) (sl_nego_proto r) (sl_tx r) (sl_rx r) (sl_nc r) (sl_ne r) (sl_cmpl r) (sl_freq r) (sl_cgt r) (sl_bgt r) (sl_cwt r) (sl_bwt r).
Definition set_sl_first_proto (v : Z) (r : ifd_slot) : ifd_slot :=
  MkSlot (sl_status r) (sl_clazz r) (sl_fd r) (sl_n r) (sl_proto r) (sl_conv r) (sl_ind_fd r) v (sl_ind_protos r) (sl_info_xchg r) (sl_flags r) (sl_spec_fd r) (sl_spec_proto r) (sl_ind_cls r) (sl_clk_stop r) (sl_nego_clazz r) (sl_nego_fd r) (sl_nego_proto r) (sl_tx r) (sl_rx r) (sl_nc r) (sl_ne r) (sl_cmpl r) (sl_freq r) (sl_cgt r) (sl_bgt r) (sl_cwt r) (sl_bwt r).
Definition set_sl_ind_protos (v : Z) (r : ifd_slot) : ifd_slot :=
  MkSlot (sl_status r) (sl_clazz r) (sl_fd r) (sl_n r) (sl_proto r) (sl_conv r) (sl_ind_fd r) (sl_first_proto r) v (sl_info_xchg r) (sl_flags r) (sl_spec_fd r) (sl_spec_proto r) (sl_ind_cls r) (sl_clk_stop r) (sl_nego_clazz r) (sl_nego_fd r) (sl_nego_proto r) (sl_tx r) (sl_rx r) (sl_nc r) (sl_ne r) (sl_cmpl r) (sl_freq r) (sl_cgt r) (sl_bgt r) (sl_cwt r) (sl_bwt r).
Definition set_sl_info_xchg (v : Z) (r : ifd_slot) : ifd_slot :=
  MkSlot (sl_status r) (sl_clazz r) (sl_fd r) (sl_n r) (sl_proto r) (sl_conv r) (sl_ind_fd r) (sl_first_proto r) (sl_ind_protos r) v (sl_flags r) (sl_spec_fd r) (sl_spec_proto r) (sl_ind_cls r) (sl_clk_stop r) (sl_nego_clazz r) (sl_nego_fd r) (sl_nego_proto r) (sl_tx r) (sl_rx r) (sl_nc r) (sl_ne r) (sl_cmpl r) (sl_freq r) (sl_cgt r) (sl_bgt r) (sl_cwt r) (sl_bwt r).
Definition set_sl_flags (v : Z) (r : ifd_slot) : ifd_slot :=
  MkSlot (sl_status r) (sl_clazz r) (sl_fd r) (sl_n r) (sl_proto r) (sl_conv r) (sl_ind_fd r) (sl_first_proto r) (sl_ind_protos r) (sl_info_xchg r) v (sl_spec_fd r) (sl_spec_proto r) (sl_ind_cls r) (sl_clk_stop r) (sl_nego_clazz r) (sl_nego_fd r) (sl_nego_proto r) (sl_tx r) (sl_rx r) (sl_nc r) (sl_ne r) (sl_cmpl r) (sl_freq r) (sl_cgt r) (sl_bgt r) (sl_cwt r) (sl_bwt r).
Definition set_sl_spec_fd (v : Z) (r : ifd_slot) : ifd_slot :=
  MkSlot (sl_status r) (sl_clazz r) (sl_fd r) (sl_n r) (sl_proto r) (sl_conv r) (sl_ind_fd r) (sl_first_proto r) (sl_ind_protos r) (sl_info_xchg r) (sl_flags r) v (sl_spec_proto r) (sl_ind_cls r) (sl_clk_stop r) (sl_nego_clazz r) (sl_nego_fd r) (sl_nego_proto r) (sl_tx r) (sl_rx r) (sl_nc r) (sl_ne r) (sl_cmpl r) (sl_freq r) (sl_cgt r) (sl_bgt r) (sl_cwt r) (sl_bwt r).
Definition set_sl_spec_proto (v : Z) (r : ifd_slot) : ifd_slot :=
  MkSlot (sl_status r) (sl_clazz r) (sl_fd r) (sl_n r) (sl_proto r) (sl_conv r) (sl_ind_fd r) (sl_first_proto r) (sl_ind_protos r) (sl_info_xchg r) (sl_flags r) (sl_spec_fd r) v (sl_ind_cls r) (sl_clk_stop r) (sl_nego_clazz r) (sl_nego_fd r) (sl_nego_proto r) (sl_tx r) (sl_rx r) (sl_nc r) (sl_ne r) (sl_cmpl r) (sl_freq r) (sl_cgt r) (sl_bgt r) (sl_cwt r) (sl_bwt r).
Definition set_sl_ind_cls (v : Z) (r : ifd_slot) : ifd_slot :=
  MkSlot (sl_status r) (sl_clazz r) (sl_fd r) (sl_n r) (sl_proto r) (sl_conv r) (sl_ind_fd r) (sl_first_proto r) (sl_ind_protos r) (sl_info_xchg r) (sl_flags r) (sl_spec_fd r) (sl_spec_proto r) v (sl_clk_stop r) (sl_nego_clazz r) (sl_nego_fd r) (sl_nego_proto r) (sl_tx r) (sl_rx r) (sl_nc r) (sl_ne r) (sl_cmpl r) (sl_freq r) (sl_cgt r) (sl_bgt r) (sl_cwt r) (sl_bwt r).
Definition set_sl_clk_stop (v : Z) (r : ifd_slot) : ifd_slot :=
  MkSlot (sl_status r) (sl_clazz r) (sl_fd r) (sl_n r) (sl_proto r) (sl_conv r) (sl_ind_fd r) (sl_first_proto r) (sl_ind_protos r) (sl_info_xchg r) (sl_flags r) (sl_spec_fd r) (sl_spec_proto r) (sl_ind_cls r) v (sl_nego_clazz r) (sl_nego_fd r) (sl_nego_proto r) (sl_tx r) (sl_rx r) (sl_nc r) (sl_ne r) (sl_cmpl r) (sl_freq r) (sl_cgt r) (sl_bgt r) (sl_cwt r) (sl_bwt r).
Definition set_sl_nego_clazz (v : Z) (r : ifd_slot) : ifd_slot :=
  MkSlot (sl_status r) (sl_clazz r) (sl_fd r) (sl_n r) (sl_proto r) (sl_conv r) (sl_ind_fd r) (sl_first_proto r) (sl_ind_protos r) (sl_info_xchg r) (sl_flags r) (sl_spec_fd r) (sl_spec_proto r) (sl_ind_cls r) (sl_clk_stop r) v (sl_nego_fd r) (sl_nego_proto r) (sl_tx r) (sl_rx r) (sl_nc r) (sl_ne r) (sl_cmpl r) (sl_freq r) (sl_cgt r) (sl_bgt r) (sl_cwt r) (sl_bwt r).
Definition set_sl_nego_fd (v : Z) (r : ifd_slot) : ifd_slot :=
  MkSlot (sl_status r) (sl_clazz r) (sl_fd r) (sl_n r) (sl_proto r) (sl_conv r) (sl_ind_fd r) (sl_first_proto r) (sl_ind_protos r) (sl_info_xchg r) (sl_flags r) (sl_spec_fd r) (sl_spec_proto r) (sl_ind_cls r) (sl_clk_stop r) (sl_nego_clazz r) v (sl_nego_proto r) (sl_tx r) (sl_rx r) (sl_nc r) (sl_ne r) (sl_cmpl r) (sl_freq r) (sl_cgt r) (sl_bgt r) (sl_cwt r) (sl_bwt r).
Definition set_sl_nego_proto (v : Z) (r : ifd_slot) : ifd_slot :=
  MkSlot (sl_status r) (sl_clazz r) (sl_fd r) (sl_n r) (sl_proto r) (sl_conv r) (sl_ind_fd r) (sl_first_proto r) (sl_ind_protos r) (sl_info_xchg r) (sl_flags r) (sl_spec_fd r) (sl_spec_proto r) (sl_ind_cls r) (sl_clk_stop r) (sl_nego_clazz r) (sl_nego_fd r) v (sl_tx r) (sl_rx r) (sl_nc r) (sl_ne r) (sl_cmpl r) (sl_freq r) (sl_cgt r) (sl_bgt r) (sl_cwt r) (sl_bwt r).
Definition set_sl_tx (v : Z) (r : ifd_slot) : ifd_slot :=
  MkSlot (sl_status r) (sl_clazz r) (sl_fd r) (sl_n r) (sl_proto r) (sl_conv r) (sl_ind_fd r) (sl_first_proto r) (sl_ind_protos r) (sl_info_xchg r) (sl_flags r) (sl_spec_fd r) (sl_spec_proto r) (sl_ind_cls r) (sl_clk_stop r) (sl_nego_clazz r) (sl_nego_fd r) (sl_nego_proto r) v (sl_rx r) (sl_nc r) (sl_ne r) (sl_cmpl r) (sl_freq r) (sl_cgt r) (sl_bgt r) (sl_cwt r) (sl_bwt r).
Definition set_sl_rx (v : Z) (r : ifd_slot) : ifd_slot :=
  MkSlot (sl_status r) (sl_clazz r) (sl_fd r) (sl_n r) (sl_proto r) (sl_conv r) (sl_ind_fd r) (sl_first_proto r) (sl_ind_protos r) (sl_info_xchg r) (sl_flags r) (sl_spec_fd r) (sl_spec_proto r) (sl_ind_cls r) (sl_clk_stop r) (sl_nego_clazz r) (sl_nego_fd r) (sl_nego_proto r) (sl_tx r) v (sl_nc r) (sl_ne r) (sl_cmpl r) (sl_freq r) (sl_cgt r) (sl_bgt r) (sl_cwt r) (sl_bwt r).
Definition set_sl_nc (v : Z) (r : ifd_slot) : ifd_slot :=
  MkSlot (sl_status r) (sl_clazz r) (sl_fd r) (sl_n r) (sl_proto r) (sl_conv r) (sl_ind_fd r) (sl_first_proto r) (sl_ind_protos r) (sl_info_xchg r) (sl_flags r) (sl_spec_fd r) (sl_spec_proto r) (sl_ind_cls r) (sl_clk_stop r) (sl_nego_clazz r) (sl_nego_fd r) (sl_nego_proto r) (sl_tx r) (sl_rx r) v (sl_ne r) (sl_cmpl r) (sl_freq r) (sl_cgt r) (sl_bgt r) (sl_cwt r) (sl_bwt r).
Definition set_sl_ne (v : Z) (r : ifd_slot) : ifd_slot :=
  MkSlot (sl_status r) (sl_clazz r) (sl_fd r) (sl_n r) (sl_proto r) (sl_conv r) (sl_ind_fd r) (sl_first_proto r) (sl_ind_protos r) (sl_info_xchg r) (sl_flags r) (sl_spec_fd r) (sl_spec_proto r) (sl_ind_cls r) (sl_clk_stop r) (sl_nego_clazz r) (sl_nego_fd r) (sl_nego_proto r) (sl_tx r) (sl_rx r) (sl_nc r) v (sl_cmpl r) (sl_freq r) (sl_cgt r) (sl_bgt r) (sl_cwt r) (sl_bwt r).
Definition set_sl_cmpl (v : bool) (r : ifd_slot) : ifd_slot :=
  MkSlot (sl_status r) (sl_clazz r) (sl_fd r) (sl_n r) (sl_proto r) (sl_conv r) (sl_ind_fd r) (sl_first_proto r) (sl_ind_protos r) (sl_info_xchg r) (sl_flags r) (sl_spec_fd r) (sl_spec_proto r) (sl_ind_cls r) (sl_clk_stop r) (sl_nego_clazz r) (sl_nego_fd r) (sl_nego_proto r) (sl_tx r) (sl_rx r) (sl_nc r) (sl_ne r) v (sl_freq r) (sl_cgt r) (sl_bgt r) (sl_cwt r) (sl_bwt r).
Definition set_sl_freq (v : Z) (r : ifd_slot) : ifd_slot :=
  MkSlot (sl_status r) (sl_clazz r) (sl_fd r) (sl_n r) (sl_proto r) (sl_conv r) (sl_ind_fd r) (sl_first_proto r) (sl_ind_protos r) (sl_info_xchg r) (sl_flags r) (sl_spec_fd r) (sl_spec_proto r) (sl_ind_cls r) (sl_clk_stop r) (sl_nego_clazz r) (sl_nego_fd r) (sl_nego_proto r) (sl_tx r) (sl_rx r) (sl_nc r) (sl_ne r) (sl_cmpl r) v (sl_cgt r) (sl_bgt r) (sl_cwt r) (sl_bwt r).
Definition set_sl_cgt (v : Z) (r : ifd_slot) : ifd_slot :=
  MkSlot (sl_status r) (sl_clazz r) (sl_fd r) (sl_n r) (sl_proto r) (sl_conv r) (sl_ind_fd r) (sl_first_proto r) (sl_ind_protos r) (sl_info_xchg r) (sl_flags r) (sl_spec_fd r) (sl_spec_proto r) (sl_ind_cls r) (sl_clk_stop r) (sl_nego_clazz r) (sl_nego_fd r) (sl_nego_proto r) (sl_tx r) (sl_rx r) (sl_nc r) (sl_ne r) (sl_cmpl r) (sl_freq r) v (sl_bgt r) (sl_cwt r) (sl_bwt r).
Definition set_sl_bgt (v : Z) (r : ifd_slot) : ifd_slot :=
  MkSlot (sl_status r) (sl_clazz r) (sl_fd r) (sl_n r) (sl_proto r) (sl_conv r) (sl_ind_fd r) (sl_first_proto r) (sl_ind_protos r) (sl_info_xchg r) (sl_flags r) (sl_spec_fd r) (sl_spec_proto r) (sl_ind_cls r) (sl_clk_stop r) (sl_nego_clazz r) (sl_nego_fd r) (sl_nego_proto r) (sl_tx r) (sl_rx r) (sl_nc r) (sl_ne r) (sl_cmpl r) (sl_freq r) (sl_cgt r) v (sl_cwt r) (sl_bwt r).
Definition set_sl_cwt (v : Z) (r : ifd_slot) : ifd_slot :=
  MkSlot (sl_status r) (sl_clazz r) (sl_fd r) (sl_n r) (sl_proto r) (sl_conv r) (sl_ind_fd r) (sl_first_proto r) (sl_ind_protos r) (sl_info_xchg r) (sl_flags r) (sl_spec_fd r) (sl_spec_proto r) (sl_ind_cls r) (sl_clk_stop r) (sl_nego_clazz r) (sl_nego_fd r) (sl_nego_proto r) (sl_tx r) (sl_rx r) (sl_nc r) (sl_ne r) (sl_cmpl r) (sl_freq r) (sl_cgt r) (sl_bgt r) v (sl_bwt r).
Definition set_sl_bwt (v : Z) (r : ifd_slot) : ifd_slot :=
  MkSlot (sl_status r) (sl_clazz r) (sl_fd r) (sl_n r) (sl_proto r) (sl_conv r) (sl_ind_fd r) (sl_first_proto r) (sl_ind_protos r) (sl_info_xchg r) (sl_flags r) (sl_spec_fd r) (sl_spec_proto r) (sl_ind_cls r) (sl_clk_stop r) (sl_nego_clazz r) (sl_nego_fd r) (sl_nego_proto r) (sl_tx r) (sl_rx r) (sl_nc r) (sl_ne r) (sl_cmpl r) (sl_freq r) (sl_cgt r) (sl_bgt r) (sl_cwt r) v.
(** [struct ifd_atr_parser], [struct ifd_xchg_atr], [struct ifd_xchg_pps] and
    [struct ifd_xfr]. *)
Record ifd_atr_parser : Type := MkAp {
  ap_ta : Z; ap_tb : Z; ap_tc : Z; ap_td : Z; ap_td_last : Z; ap_len : Z; ap_csum : Z; ap_tck_exists : bool }.
Definition set_ap_ta (v : Z) (r : ifd_atr_parser) : ifd_atr_parser :=
  MkAp v (ap_tb r) (ap_tc r) (ap_td r) (ap_td_last r) (ap_len r) (ap_csum r) (ap_tck_exists r).
Definition set_ap_tb (v : Z) (r : ifd_atr_parser) : ifd_atr_parser :=
  MkAp (ap_ta r) v (ap_tc r) (ap_td r) (ap_td_last r) (ap_len r) (ap_csum r) (ap_tck_exists r).
Definition set_ap_tc (v : Z) (r : ifd_atr_parser) : ifd_atr_parser :=
  MkAp (ap_ta r) (ap_tb r) v (ap_td r) (ap_td_last r) (ap_len r) (ap_csum r) (ap_tck_exists r).
Definition set_ap_td (v : Z) (r : ifd_atr_parser) : ifd_atr_parser :=
  MkAp (ap_ta r) (ap_tb r) (ap_tc r) v (ap_td_last r) (ap_len r) (ap_csum r) (ap_tck_exists r).
Definition set_ap_td_last (v : Z) (r : ifd_atr_parser) : ifd_atr_parser :=
  MkAp (ap_ta r) (ap_tb r) (ap_tc r) (ap_td r) v (ap_len r) (ap_csum r) (ap_tck_exists r).
Definition set_ap_len (v : Z) (r : ifd_atr_parser) : ifd_atr_parser :=
  MkAp (ap_ta r) (ap_tb r) (ap_tc r) (ap_td r) (ap_td_last r) v (ap_csum r) (ap_tck_exists r).
Definition set_ap_csum (v : Z) (r : ifd_atr_parser) : ifd_atr_parser :=
  MkAp (ap_ta r) (ap_tb r) (ap_tc r) (ap_td r) (ap_td_last r) (ap_len r) v (ap_tck_exists r).
Definition set_ap_tck_exists (v : bool) (r : ifd_atr_parser) : ifd_atr_parser :=
  MkAp (ap_ta r) (ap_tb r) (ap_tc r) (ap_td r) (ap_td_last r) (ap_len r) (ap_csum r) v.
Record ifd_xchg_atr : Type := MkAx {
  ax_state : Z; ax_tck : bool; ax_k : Z; ax_y : Z; ax_td_last : Z; ax_rx : Z }.
Definition set_ax_state (v : Z) (r : ifd_xchg_atr) : ifd_xchg_atr :=
  MkAx v (ax_tck r) (ax_k r) (ax_y r) (ax_td_last r) (ax_rx r).
Definition set_ax_tck (v : bool) (r : ifd_xchg_atr) : ifd_xchg_atr :=
  MkAx (ax_state r) v (ax_k r) (ax_y r) (ax_td_last r) (ax_rx r).
Definition set_ax_k (v : Z) (r : ifd_xchg_atr) : ifd_xchg_atr :=
  MkAx (ax_state r) (ax_tck r) v (ax_y r) (ax_td_last r) (ax_rx r).
Definition set_ax_y (v : Z) (r : ifd_xchg_atr) : ifd_xchg_atr :=
  MkAx (ax_state r) (ax_tck r) (ax_k r) v (ax_td_last r) (ax_rx r).
Definition set_ax_td_last (v : Z) (r : ifd_xchg_atr) : ifd_xchg_atr :=
  MkAx (ax_state r) (ax_tck r) (ax_k r) (ax_y r) v (ax_rx r).
Definition set_ax_rx (v : Z) (r : ifd_xchg_atr) : ifd_xchg_atr :=
  MkAx (ax_state r) (ax_tck r) (ax_k r) (ax_y r) (ax_td_last r) v.
Record ifd_xchg_pps : Type := MkPx {
  px_req : list Z; px_size : Z; px_ppsr_size : Z; px_cmpl : bool }.
Definition set_px_req (v : list Z) (r : ifd_xchg_pps) : ifd_xchg_pps :=
  MkPx v (px_size r) (px_ppsr_size r) (px_cmpl r).
Definition set_px_size (v : Z) (r : ifd_xchg_pps) : ifd_xchg_pps :=
  MkPx (px_req r) v (px_ppsr_size r) (px_cmpl r).
Definition set_px_ppsr_size (v : Z) (r : ifd_xchg_pps) : ifd_xchg_pps :=
  MkPx (px_req r) (px_size r) v (px_cmpl r).
Definition set_px_cmpl (v : bool) (r : ifd_xchg_pps) : ifd_xchg_pps :=
  MkPx (px_req r) (px_size r) (px_ppsr_size r) v.
Record ifd_xfr : Type := MkXfr {
  xf_tx_start : Z; xf_rx_start : Z; xf_nc : Z; xf_ne : Z; xf_tx : Z; xf_rx : Z }.
Definition set_xf_tx_start (v : Z) (r : ifd_xfr) : ifd_xfr :=
  MkXfr v (xf_rx_start r) (xf_nc r) (xf_ne r) (xf_tx r) (xf_rx r).
Definition set_xf_rx_start (v : Z) (r : ifd_xfr) : ifd_xfr :=
  MkXfr (xf_tx_start r) v (xf_nc r) (xf_ne r) (xf_tx r) (xf_rx r).
Definition set_xf_nc (v : Z) (r : ifd_xfr) : ifd_xfr :=
  MkXfr (xf_tx_start r) (xf_rx_start r) v (xf_ne r) (xf_tx r) (xf_rx r).
Definition set_xf_ne (v : Z) (r : ifd_xfr) : ifd_xfr :=
  MkXfr (xf_tx_start r) (xf_rx_start r) (xf_nc r) v (xf_tx r) (xf_rx r).
Definition set_xf_tx (v : Z) (r : ifd_xfr) : ifd_xfr :=
  MkXfr (xf_tx_start r) (xf_rx_start r) (xf_nc r) (xf_ne r) v (xf_rx r).
Definition set_xf_rx (v : Z) (r : ifd_xfr) : ifd_xfr :=
  MkXfr (xf_tx_start r) (xf_rx_start r) (xf_nc r) (xf_ne r) (xf_tx r) v.
(** What the hardware layer is configured to. *)
Record hw : Type := MkHw {
  hw_clazz : Z; hw_conv : Z }.
Definition set_hw_clazz (v : Z) (r : hw) : hw :=
  MkHw v (hw_conv r).
Definition set_hw_conv (v : Z) (r : hw) : hw :=
  MkHw (hw_clazz r) v.
(** What happens on the line: a byte arrives, or the hardware layer reports an event while it
    waits for one (with the byte left in its data register) or, [TxEvent], at the next access,
    be it a read or a write. *)
Inductive hw_event : Type := HwIccOut | HwWtExpire | HwParityErr.
Inductive line : Type := Byte (b : Z) | Event (e : hw_event) (b : Z) | TxEvent (e : hw_event).
(** The function [ifd_xfr_ne_expire] points to. *)
Inductive expire : Type := ExNull | ExAtr | ExPps | ExProto (pid : nat).
(** The state of ifd.c for one slot; [P] is the state of the protocols. *)
Record ifd (P : Type) : Type := MkIfd {
  i_slot : ifd_slot; i_state : Z; i_error : Z; i_nr : Z; i_seq : Z; i_sev : Z; i_xev : Z; i_xfr : ifd_xfr; i_expire : expire; i_buff : list Z; i_ap : ifd_atr_parser; i_ax : ifd_xchg_atr; i_px : ifd_xchg_pps; i_hw : hw; i_line : list line; i_sent : list Z; i_wake : bool; i_done : list Z; i_p : P }.
Arguments MkIfd {P} _ _ _ _ _ _ _ _ _ _ _ _ _ _ _ _ _ _ _.
Arguments i_slot {P} _.
Arguments i_state {P} _.
Arguments i_error {P} _.
Arguments i_nr {P} _.
Arguments i_seq {P} _.
Arguments i_sev {P} _.
Arguments i_xev {P} _.
Arguments i_xfr {P} _.
Arguments i_expire {P} _.
Arguments i_buff {P} _.
Arguments i_ap {P} _.
Arguments i_ax {P} _.
Arguments i_px {P} _.
Arguments i_hw {P} _.
Arguments i_line {P} _.
Arguments i_sent {P} _.
Arguments i_wake {P} _.
Arguments i_done {P} _.
Arguments i_p {P} _.
Definition set_i_slot {P : Type} (v : ifd_slot) (r : ifd P) : ifd P :=
  MkIfd v (i_state r) (i_error r) (i_nr r) (i_seq r) (i_sev r) (i_xev r) (i_xfr r) (i_expire r) (i_buff r) (i_ap r) (i_ax r) (i_px r) (i_hw r) (i_line r) (i_sent r) (i_wake r) (i_done r) (i_p r).
Definition set_i_state {P : Type} (v : Z) (r : ifd P) : ifd P :=
  MkIfd (i_slot r) v (i_error r) (i_nr r) (i_seq r) (i_sev r) (i_xev r) (i_xfr r) (i_expire r) (i_buff r) (i_ap r) (i_ax r) (i_px r) (i_hw r) (i_line r) (i_sent r) (i_wake r) (i_done r) (i_p r).
Definition set_i_error {P : Type} (v : Z) (r : ifd P) : ifd P :=
  MkIfd (i_slot r) (i_state r) v (i_nr r) (i_seq r) (i_sev r) (i_xev r) (i_xfr r) (i_expire r) (i_buff r) (i_ap r) (i_ax r) (i_px r) (i_hw r) (i_line r) (i_sent r) (i_wake r) (i_done r) (i_p r).
Definition set_i_nr {P : Type} (v : Z) (r : ifd P) : ifd P :=
  MkIfd (i_slot r) (i_state r) (i_error r) v (i_seq r) (i_sev r) (i_xev r) (i_xfr r) (i_expire r) (i_buff r) (i_ap r) (i_ax r) (i_px r) (i_hw r) (i_line r) (i_sent r) (i_wake r) (i_done r) (i_p r).
Definition set_i_seq {P : Type} (v : Z) (r : ifd P) : ifd P :=
  MkIfd (i_slot r) (i_state r) (i_error r) (i_nr r) v (i_sev r) (i_xev r) (i_xfr r) (i_expire r) (i_buff r) (i_ap r) (i_ax r) (i_px r) (i_hw r) (i_line r) (i_sent r) (i_wake r) (i_done r) (i_p r).
Definition set_i_sev {P : Type} (v : Z) (r : ifd P) : ifd P :=
  MkIfd (i_slot r) (i_state r) (i_error r) (i_nr r) (i_seq r) v (i_xev r) (i_xfr r) (i_expire r) (i_buff r) (i_ap r) (i_ax r) (i_px r) (i_hw r) (i_line r) (i_sent r) (i_wake r) (i_done r) (i_p r).
Definition set_i_xev {P : Type} (v : Z) (r : ifd P) : ifd P :=
  MkIfd (i_slot r) (i_state r) (i_error r) (i_nr r) (i_seq r) (i_sev r) v (i_xfr r) (i_expire r) (i_buff r) (i_ap r) (i_ax r) (i_px r) (i_hw r) (i_line r) (i_sent r) (i_wake r) (i_done r) (i_p r).
Definition set_i_xfr {P : Type} (v : ifd_xfr) (r : ifd P) : ifd P :=
  MkIfd (i_slot r) (i_state r) (i_error r) (i_nr r) (i_seq r) (i_sev r) (i_xev r) v (i_expire r) (i_buff r) (i_ap r) (i_ax r) (i_px r) (i_hw r) (i_line r) (i_sent r) (i_wake r) (i_done r) (i_p r).
Definition set_i_expire {P : Type} (v : expire) (r : ifd P) : ifd P :=
  MkIfd (i_slot r) (i_state r) (i_error r) (i_nr r) (i_seq r) (i_sev r) (i_xev r) (i_xfr r) v (i_buff r) (i_ap r) (i_ax r) (i_px r) (i_hw r) (i_line r) (i_sent r) (i_wake r) (i_done r) (i_p r).
Definition set_i_buff {P : Type} (v : list Z) (r : ifd P) : ifd P :=
  MkIfd (i_slot r) (i_state r) (i_error r) (i_nr r) (i_seq r) (i_sev r) (i_xev r) (i_xfr r) (i_expire r) v (i_ap r) (i_ax r) (i_px r) (i_hw r) (i_line r) (i_sent r) (i_wake r) (i_done r) (i_p r).
Definition set_i_ap {P : Type} (v : ifd_atr_parser) (r : ifd P) : ifd P :=
  MkIfd (i_slot r) (i_state r) (i_error r) (i_nr r) (i_seq r) (i_sev r) (i_xev r) (i_xfr r) (i_expire r) (i_buff r) v (i_ax r) (i_px r) (i_hw r) (i_line r) (i_sent r) (i_wake r) (i_done r) (i_p r).
Definition set_i_ax {P : Type} (v : ifd_xchg_atr) (r : ifd P) : ifd P :=
  MkIfd (i_slot r) (i_state r) (i_error r) (i_nr r) (i_seq r) (i_sev r) (i_xev r) (i_xfr r) (i_expire r) (i_buff r) (i_ap r) v (i_px r) (i_hw r) (i_line r) (i_sent r) (i_wake r) (i_done r) (i_p r).
Definition set_i_px {P : Type} (v : ifd_xchg_pps) (r : ifd P) : ifd P :=
  MkIfd (i_slot r) (i_state r) (i_error r) (i_nr r) (i_seq r) (i_sev r) (i_xev r) (i_xfr r) (i_expire r) (i_buff r) (i_ap r) (i_ax r) v (i_hw r) (i_line r) (i_sent r) (i_wake r) (i_done r) (i_p r).
Definition set_i_hw {P : Type} (v : hw) (r : ifd P) : ifd P :=
  MkIfd (i_slot r) (i_state r) (i_error r) (i_nr r) (i_seq r) (i_sev r) (i_xev r) (i_xfr r) (i_expire r) (i_buff r) (i_ap r) (i_ax r) (i_px r) v (i_line r) (i_sent r) (i_wake r) (i_done r) (i_p r).
Definition set_i_line {P : Type} (v : list line) (r : ifd P) : ifd P :=
  MkIfd (i_slot r) (i_state r) (i_error r) (i_nr r) (i_seq r) (i_sev r) (i_xev r) (i_xfr r) (i_expire r) (i_buff r) (i_ap r) (i_ax r) (i_px r) (i_hw r) v (i_sent r) (i_wake r) (i_done r) (i_p r).
Definition set_i_sent {P : Type} (v : list Z) (r : ifd P) : ifd P :=
  MkIfd (i_slot r) (i_state r) (i_error r) (i_nr r) (i_seq r) (i_sev r) (i_xev r) (i_xfr r) (i_expire r) (i_buff r) (i_ap r) (i_ax r) (i_px r) (i_hw r) (i_line r) v (i_wake r) (i_done r) (i_p r).
Definition set_i_wake {P : Type} (v : bool) (r : ifd P) : ifd P :=
  MkIfd (i_slot r) (i_state r) (i_error r) (i_nr r) (i_seq r) (i_sev r) (i_xev r) (i_xfr r) (i_expire r) (i_buff r) (i_ap r) (i_ax r) (i_px r) (i_hw r) (i_line r) (i_sent r) v (i_done r) (i_p r).
Definition set_i_done {P : Type} (v : list Z) (r : ifd P) : ifd P :=
  MkIfd (i_slot r) (i_state r) (i_error r) (i_nr r) (i_seq r) (i_sev r) (i_xev r) (i_xfr r) (i_expire r) (i_buff r) (i_ap r) (i_ax r) (i_px r) (i_hw r) (i_line r) (i_sent r) (i_wake r) v (i_p r).
Definition set_i_p {P : Type} (v : P) (r : ifd P) : ifd P :=
  MkIfd (i_slot r) (i_state r) (i_error r) (i_nr r) (i_seq r) (i_sev r) (i_xev r) (i_xfr r) (i_expire r) (i_buff r) (i_ap r) (i_ax r) (i_px r) (i_hw r) (i_line r) (i_sent r) (i_wake r) (i_done r) v.

(** [ifd_proto_t], a protocol as its callbacks; the two protocols of the source set all of
    them.  [pr_atr_parse] gets the interface bytes TA, TB and TC that the callbacks read with
    [ifd_atr_get_ta] and its siblings. *)
Record ifd_proto (P : Type) : Type := MkProto {
  pr_id : Z;
  pr_atr_parse : Z -> Z -> Z -> Z -> P -> P;
  pr_xchg_init : Z -> Z -> ifd P -> res (Z * ifd P);
  pr_xchg_aval : ifd P -> res (ifd P);
  pr_xchg_cmpl : ifd P -> res (ifd P);
  pr_ne_expire : ifd P -> res (ifd P);
  pr_reset_param : P -> P;
  pr_conf_param : ifd P -> res (ifd P);
  pr_nego_pps : P -> P }.
Arguments MkProto {P} _ _ _ _ _ _ _ _ _.
Arguments pr_id {P} _.
Arguments pr_atr_parse {P} _ _ _ _ _ _.
Arguments pr_xchg_init {P} _ _ _ _.
Arguments pr_xchg_aval {P} _ _.
Arguments pr_xchg_cmpl {P} _ _.
Arguments pr_ne_expire {P} _ _.
Arguments pr_reset_param {P} _ _.
Arguments pr_conf_param {P} _ _.
Arguments pr_nego_pps {P} _ _.

(** Hardware layer and card: [ifd_hw_activate], the level of I/O 200 clocks after it, what
    follows a reset, and the byte the data register gives when nothing has arrived. *)
Record card : Type := MkCard {
  c_activate : hw -> bool; c_io : hw -> bool; c_atr : hw -> list line; c_idle : Z }.

Definition rdb (b : list Z) (i : Z) : res Z := if i <? 0 then Fault FOob else rd b (Z.to_nat i).
Definition ifd_get_F (fi : Z) : res Z := rdb ifd_fi_supps fi.
Definition ifd_get_D (di : Z) : res Z := rdb ifd_di_supps di.

Section Ifd.
Context {P : Type} (C : card) (ifd_protos : list (ifd_proto P)) (IFD_HW_FREQ_MAX : Z).
Implicit Types (s : ifd P).

Definition upd_slot (f : ifd_slot -> ifd_slot) s : ifd P := set_i_slot (f (i_slot s)) s.
Definition upd_xfr (f : ifd_xfr -> ifd_xfr) s : ifd P := set_i_xfr (f (i_xfr s)) s.
Definition upd_ap (f : ifd_atr_parser -> ifd_atr_parser) s : ifd P := set_i_ap (f (i_ap s)) s.
Definition upd_ax (f : ifd_xchg_atr -> ifd_xchg_atr) s : ifd P := set_i_ax (f (i_ax s)) s.
Definition upd_px (f : ifd_xchg_pps -> ifd_xchg_pps) s : ifd P := set_i_px (f (i_px s)) s.
Definition upd_hw (f : hw -> hw) s : ifd P := set_i_hw (f (i_hw s)) s.
Definition status s : Z := sl_status (i_slot s).

(** ** Errors, events, exchange buffer *)
Definition ifd_xchg_set_error (e : Z) s : ifd P := set_i_error e s.
Definition ifd_slot_raise (e : Z) s : ifd P := set_i_wake true (set_i_sev (i_sev s ||| e) s).
Definition ifd_event_save s : Z * ifd P := (i_sev s, set_i_sev 0 s).
Definition ifd_event_restore (e : Z) s : ifd P := set_i_sev (i_sev s ||| e) s.
Definition unraise_bits (i bits : Z) : Z := Z.ldiff i bits.

Definition ifd_xchg_raise (e : Z) s : ifd P := set_i_wake true (set_i_xev (i_xev s ||| e) s).
Definition ifd_xchg_raised_any s : bool := negb (i_xev s =? 0).
Definition ifd_xchg_save s : Z * ifd P := (i_xev s, set_i_xev 0 s).

Definition ifd_xchg_read (index : Z) s : res Z := rdb (i_buff s) index.
Definition ifd_xchg_write (index byte : Z) s : res (ifd P) :=
  _ ← bug_on (IFD_BUF_SIZE <=? index);
  b ← wr (i_buff s) (Z.to_nat index) byte; Ok (set_i_buff b s).
Definition ifd_xchg_end (nr : Z) s : ifd P := set_i_nr nr s.

(** ** Transfers *)
Definition ifd_xfr_reset_nx s : ifd P := upd_xfr (fun x => set_xf_rx 0 (set_xf_tx 0 x)) s.
Definition __ifd_xfr_reset s : ifd P :=
  ifd_xfr_reset_nx (upd_xfr (fun x => set_xf_ne 0 (set_xf_nc 0 x)) s).
Definition __ifd_xfr_block (tx nc rx ne : Z) s : ifd P := set_i_xfr (MkXfr tx rx nc ne 0 0) s.
Definition ifd_xchg_begin (tx nc rx ne : Z) s : ifd P :=
  upd_slot (fun l => set_sl_ne ne (set_sl_nc nc (set_sl_rx rx (set_sl_tx tx l)))) s.
(** [ifd_hw_reset] lets the card answer the reset. *)
Definition ifd_hw_reset s : ifd P := set_i_line (c_atr C (i_hw s)) s.
Definition ifd_xchg_start s : ifd P :=
  let s := if sl_nc (i_slot s) =? 0 then ifd_hw_reset s else s in
  let l := i_slot s in __ifd_xfr_block (sl_tx l) (sl_nc l) (sl_rx l) (sl_ne l) s.
Definition ifd_xchg_run s : ifd P := ifd_slot_raise IFD_SLOT_EVENT_XFR_SYNC s.
Definition ifd_xchg_stop (event : Z) s : ifd P :=
  let s := if ifd_xchg_raised_any s then s else ifd_xchg_raise event s in __ifd_xfr_reset s.
Definition ifd_xfr_read (idx : Z) s : res Z := rdb (i_buff s) (xf_rx_start (i_xfr s) + idx).
Definition ifd_null_expire s : ifd P := ifd_xchg_stop IFD_XCHG_EVENT_XFR_CMPL s.

Definition ifd_xfr_reset s : ifd P := set_i_nr 0 (__ifd_xfr_reset s).
Definition ifd_xchg_reset s : ifd P :=
  ifd_xfr_reset (snd (ifd_xchg_save (set_i_expire ExNull s))).
Definition ifd_xchg_set_state (v : Z) s : ifd P := set_i_state v s.
Definition ifd_xchg_busy s : ifd P :=
  let s := ifd_xchg_set_error SCS_ERR_SUCCESS s in
  let s := snd (ifd_xchg_save (ifd_xfr_reset s)) in
  ifd_xchg_set_state IFD_XCHG_STATE_BUSY s.

(** ** Command sequences *)
Definition ifd_seq_set (v : Z) s : ifd P := set_i_seq v s.
Definition ifd_seq_onoff (on : bool) s : ifd P := upd_slot (set_sl_cmpl on) s.
Definition ifd_seq_start (v : Z) s : Z * ifd P :=
  (SCS_ERR_PROGRESS, ifd_seq_onoff true (ifd_seq_set v s)).
Definition ifd_seq_complete (err : Z) s : ifd P :=
  let s := if (err =? SCS_ERR_SUCCESS) || (i_error s =? SCS_ERR_SUCCESS)
           then ifd_xchg_set_error err s else s in
  let s := if sl_cmpl (i_slot s) then set_i_done (i_done s ++ [i_error s]) s else s in
  ifd_seq_onoff false (ifd_seq_set IFD_SEQ_IDLE s).
Definition ifd_seq_reset s : ifd P := ifd_seq_onoff false (ifd_seq_set IFD_SEQ_IDLE s).

Definition ifd_slot_exist s : Z :=
  if i_seq s =? IFD_SEQ_AUTO_SEQ then SCS_ERR_BUSY_AUTO
  else if negb (i_seq s =? IFD_SEQ_IDLE) then SCS_ERR_BUSY_SLOT
  else if status s =? IFD_SLOT_STATE_NOTPRESENT then SCS_ERR_NOTPRESENT
  else SCS_ERR_SUCCESS.
Definition ifd_slot_active s : Z :=
  let err := ifd_slot_exist s in
  if negb (err =? SCS_ERR_SUCCESS) then err
  else if negb (status s =? IFD_SLOT_STATE_ATR_READY) && negb (status s =? IFD_SLOT_STATE_PPS_READY)
  then SCS_ERR_BUSY_AUTO else SCS_ERR_SUCCESS.

(** ** Protocols and parameters *)
Fixpoint proto_index (proto : Z) (l : list (ifd_proto P)) (i : nat) : option (nat * ifd_proto P) :=
  match l with
  | [] => None
  | p :: l => if proto =? pr_id p then Some (i, p) else proto_index proto l (S i)
  end.
(** [ifd_proto_pid]: NR_IFD_PROTOS if there is none; registration keeps at most
    NR_IFD_PROTOS of them. *)
Definition ifd_proto_pid (proto : Z) : Z :=
  match proto_index proto ifd_protos 0 with Some (i, _) => Z.of_nat i | None => NR_IFD_PROTOS end.
Definition ifd_nr_protos : Z := Z.of_nat (length ifd_protos).
Definition __ifd_get_protocol (proto : Z) : option (nat * ifd_proto P) := proto_index proto ifd_protos 0.
Definition ifd_get_protocol s : option (nat * ifd_proto P) := __ifd_get_protocol (sl_proto (i_slot s)).

Definition ifd_set_freq (freq : Z) s : res (ifd P) :=
  _ ← bug_on (IFD_HW_FREQ_MAX <? freq); Ok (upd_slot (set_sl_freq freq) s).
Definition __ifd_slot_reset s : res (ifd P) := ifd_set_freq IFD_HW_FREQ_DEF s.
Definition ifd_apply_n (n : Z) s : ifd P := upd_slot (set_sl_n n) s.
Definition ifd_apply_cgt (v : Z) s : ifd P := upd_slot (set_sl_cgt v) s.
Definition ifd_apply_bgt (v : Z) s : ifd P := upd_slot (set_sl_bgt v) s.
Definition ifd_apply_cwt (v : Z) s : ifd P := upd_slot (set_sl_cwt v) s.
Definition ifd_apply_bwt (v : Z) s : ifd P := upd_slot (set_sl_bwt v) s.
Definition ifd_config_t s : ifd P := upd_slot (fun l => set_sl_proto (sl_nego_proto l) l) s.
Definition ifd_config_fd s : res (ifd P) :=
  let s := upd_slot (fun l => set_sl_fd (sl_nego_fd l) l) s in
  let fd := sl_fd (i_slot s) in
  _ ← bug_on ((NR_IFD_FIS <? HIHALF fd) || (NR_IFD_DIS <? LOHALF fd));
  F ← ifd_get_F (HIHALF fd);
  _ ← bug_on (F =? 0);
  D ← ifd_get_D (LOHALF fd);
  _ ← bug_on (D =? 0);
  Ok s.
Definition ifd_conf_param s : res (ifd P) :=
  s ← ifd_config_fd s;
  let s := ifd_config_t s in
  '(_, p) ← oob (ifd_get_protocol s); pr_conf_param p s.
Definition ifd_config_def s : res (ifd P) :=
  let s := upd_slot (fun l => set_sl_ind_protos 0 (set_sl_ind_fd IFD_FD_IMPLICIT l)) s in
  let s := ifd_apply_n IFD_N_IMPLICIT s in
  let s := ifd_apply_bgt (IFD_N_IMPLICIT + 12) (ifd_apply_cgt 12 s) in
  let s := ifd_apply_bwt (IFD_WT_PPS + 12) (ifd_apply_cwt IFD_WT_PPS s) in
  let s := upd_slot (fun l => set_sl_nego_fd IFD_FD_IMPLICIT (set_sl_nego_proto IFD_PROTO_DEF l)) s in
  ifd_conf_param (set_i_p (foldl (fun q p => pr_reset_param p q) (i_p s) ifd_protos) s).
Definition ifd_config_cls s : ifd P :=
  upd_hw (fun h => set_hw_conv (sl_conv (i_slot s)) (set_hw_clazz (sl_clazz (i_slot s)) h)) s.
Definition ifd_valid_fd (fd : Z) : res Z :=
  if (NR_IFD_FIS <? HIHALF fd) || (NR_IFD_DIS <? LOHALF fd) then Ok IFD_ERR_BAD_FD
  else
    F ← ifd_get_F (HIHALF fd);
    if F =? 0 then Ok IFD_ERR_BAD_FD
    else D ← ifd_get_D (LOHALF fd); Ok (if D =? 0 then IFD_ERR_BAD_FD else SCS_ERR_SUCCESS).

(** ** Receiving the answer to reset *)
Definition ifd_atr_bytes (y : Z) : Z := hweight8 (TD_Y y).
Definition ifd_atr_xfr_block (ne : Z) s : ifd P :=
  let s := __ifd_xfr_block 0 0 (ax_rx (i_ax s)) ne s in
  upd_ax (fun a => set_ax_rx (u16 (ax_rx a + ne)) a) s.
Definition __ifd_atr_expire s : ifd P :=
  let a := i_ax s in
  if negb (ax_y a =? 0) then ifd_atr_xfr_block (ax_y a) (upd_ax (set_ax_state IFD_ATR_TD) s)
  else if negb (ax_k a =? 0) then
    upd_ax (set_ax_k 0) (ifd_atr_xfr_block (ax_k a) (upd_ax (set_ax_state IFD_ATR_TK) s))
  else if ax_tck a then
    upd_ax (set_ax_tck false) (ifd_atr_xfr_block 1 (upd_ax (set_ax_state IFD_ATR_TCK) s))
  else ifd_xchg_stop IFD_XCHG_EVENT_XFR_CMPL (ifd_xchg_end (ax_rx a) s).
Definition ifd_atr_expire s : res (ifd P) :=
  if ax_state (i_ax s) =? IFD_ATR_TS then
    ts ← ifd_xfr_read 0 s;
    if negb (ts =? sl_conv (i_slot s)) then Ok (ifd_xchg_stop IFD_XCHG_EVENT_CONV_ERR s)
    else
      td ← ifd_xfr_read 1 s;
      Ok (__ifd_atr_expire (upd_ax (fun a =>
        set_ax_y (ifd_atr_bytes td) (set_ax_td_last td (set_ax_tck false (set_ax_k (T0_K td) a)))) s))
  else if ax_state (i_ax s) =? IFD_ATR_TD then
    td ← (if has (ax_td_last (i_ax s)) TD_EXISTS then ifd_xfr_read (ax_y (i_ax s) - 1) s else Ok 0);
    Ok (__ifd_atr_expire (upd_ax (fun a =>
      set_ax_y (ifd_atr_bytes td) (set_ax_td_last td
        (set_ax_tck (ax_tck a || negb (TD_T td =? SCS_PROTO_T0)) a))) s))
  else Ok (__ifd_atr_expire s).
Definition ifd_reset s : ifd P :=
  let s := set_i_expire ExAtr (ifd_xchg_reset s) in
  let s := upd_ax (fun a => set_ax_rx 0 (set_ax_state IFD_ATR_TS a)) s in
  let s := ifd_xchg_begin 0 0 0 2 (ifd_xchg_busy s) in
  ifd_xchg_run (upd_ax (fun a => set_ax_rx (u16 (ax_rx a + 2)) a) s).

(** ** Parsing the answer to reset *)
Definition ifd_atr_read s : res (Z * ifd P) :=
  b ← ifd_xchg_read (ap_len (i_ap s)) s;
  Ok (b, upd_ap (fun a => set_ap_csum (ap_csum a ^^^ b) (set_ap_len (u8 (ap_len a + 1)) a)) s).
Definition atr_read_if (c : bool) s : res (Z * ifd P) := if c then ifd_atr_read s else Ok (0, s).
Definition ifd_atr_read_ibyte s : res (Z * ifd P) :=
  let s := upd_ap (fun a => set_ap_td_last (ap_td a) a) s in
  let y := TD_Y (ap_td_last (i_ap s)) in
  if y =? 0 then Ok (y, s)
  else
    '(b, s) ← atr_read_if (has y TA_EXISTS) s; let s := upd_ap (set_ap_ta b) s in
    '(b, s) ← atr_read_if (has y TB_EXISTS) s; let s := upd_ap (set_ap_tb b) s in
    '(b, s) ← atr_read_if (has y TC_EXISTS) s; let s := upd_ap (set_ap_tc b) s in
    '(b, s) ← atr_read_if (has y TD_EXISTS) s; Ok (y, upd_ap (set_ap_td b) s).
Definition scs_atr_start s : ifd P :=
  let s := upd_ap (fun a => set_ap_csum 0 (set_ap_tck_exists false (set_ap_len 0 a))) s in
  upd_slot (fun l => set_sl_ind_protos 0 (set_sl_spec_fd IFD_FD_IMPLICIT (set_sl_spec_proto IFD_PROTO_INVALID
    (set_sl_first_proto SCS_PROTO_T0 (set_sl_ind_fd IFD_FD_IMPLICIT (set_sl_flags 0
    (set_sl_info_xchg IFD_INFO_XCHG_NEGO_1ST l))))))) s.
Definition ifd_atr_parse_ts s : res (Z * ifd P) :=
  b ← ifd_xchg_read 0 s;
  let s := upd_ap (fun a => set_ap_len (u8 (ap_len a + 1)) a) s in
  Ok (if (b =? IFD_CONV_DIRECT) || (b =? IFD_CONV_INVERSE) then SCS_ERR_SUCCESS else IFD_ERR_BAD_TS, s).
Definition ifd_atr_parse_gbyte1 (y : Z) s : ifd P :=
  let s := if has y TA_EXISTS then upd_slot (set_sl_ind_fd (ap_ta (i_ap s))) s else s in
  let s := if has y TC_EXISTS then ifd_apply_n (ap_tc (i_ap s)) s else s in
  if has y TD_EXISTS then upd_slot (set_sl_first_proto (TD_T (ap_td (i_ap s)))) s else s.
Definition ifd_atr_parse_gbyte2 (y : Z) s : ifd P :=
  if has y TA_EXISTS then
    let ta := ap_ta (i_ap s) in
    let s := upd_slot (set_sl_info_xchg IFD_INFO_XCHG_SPECIFIC) s in
    let s := if has ta 0x10 then s else upd_slot (fun l => set_sl_spec_fd (sl_ind_fd l) l) s in
    let s := if has ta 0x80 then s
             else upd_slot (fun l => set_sl_flags (sl_flags l ||| IFD_FLAG_SPEC_CAP_CHANGE) l) s in
    upd_slot (set_sl_spec_proto (TD_T ta)) s
  else s.
Definition ifd_atr_parse_gbyte15 (y : Z) s : ifd P :=
  let s := upd_slot (fun l => set_sl_flags (sl_flags l ||| IFD_FLAG_GT_USE_IND_FD) l) s in
  if has y TA_EXISTS then
    let ta := ap_ta (i_ap s) in
    upd_slot (fun l => set_sl_ind_cls (ta &&& IFD_CLASS_MASK) (set_sl_clk_stop (ta &&& IFD_CLOCK_STOP_MASK) l)) s
  else s.
Definition ifd_atr_parse_t s : ifd P :=
  let y := TD_Y (ap_td_last (i_ap s)) in
  let t := TD_T (ap_td_last (i_ap s)) in
  if t =? IFD_GLOBAL_T15 then ifd_atr_parse_gbyte15 y s
  else
    let s := if ap_tck_exists (i_ap s) then s
             else upd_ap (set_ap_tck_exists (negb (t =? SCS_PROTO_T0))) s in
    match proto_index t ifd_protos 0 with
    | Some (_, p) =>
        let s := upd_slot (fun l => set_sl_ind_protos (sl_ind_protos l ||| (1 <<< t)) l) s in
        let a := i_ap s in set_i_p (pr_atr_parse p y (ap_ta a) (ap_tb a) (ap_tc a) (i_p s)) s
    | None => s
    end.
Fixpoint atr_parse_loop (fuel : nat) (y : Z) s : res (ifd P) :=
  if y =? 0 then Ok s
  else match fuel with
  | O => Fault FHang
  | S fuel => '(y, s) ← ifd_atr_read_ibyte (ifd_atr_parse_t s); atr_parse_loop fuel y s
  end.
Fixpoint atr_skip (k : nat) s : res (ifd P) :=
  match k with O => Ok s | S k => '(_, s) ← ifd_atr_read s; atr_skip k s end.
Definition atr_check_tck s : res (bool * ifd P) :=
  if ap_tck_exists (i_ap s)
  then '(_, s) ← ifd_atr_read s; Ok (negb (ap_csum (i_ap s) =? 0), s) else Ok (false, s).
Definition ifd_atr_parse s : res (Z * ifd P) :=
  let s := scs_atr_start s in
  '(err, s) ← ifd_atr_parse_ts s;
  if negb (err =? SCS_ERR_SUCCESS) then Ok (err, s)
  else
    '(td, s) ← ifd_atr_read s;
    let s := upd_ap (set_ap_td td) s in
    let k := T0_K td in
    '(y, s) ← ifd_atr_read_ibyte s;
    let s := ifd_atr_parse_gbyte1 y s in
    s ← (if y =? 0 then Ok s
         else '(y, s) ← ifd_atr_read_ibyte s; atr_parse_loop 256 y (ifd_atr_parse_gbyte2 y s));
    s ← atr_skip (Z.to_nat k) s;
    '(bad, s) ← atr_check_tck s;
    Ok (if (bad : bool) then IFD_ERR_BAD_TCK
        else if negb (i_nr s =? ap_len (i_ap s)) then SCS_ERR_OVERRUN else SCS_ERR_SUCCESS, s).
Definition ifd_atr_cmpl s : res (ifd P) :=
  if negb (i_error s =? SCS_ERR_SUCCESS) then Ok s
  else
    '(err, s) ← ifd_atr_parse s;
    Ok (if err =? SCS_ERR_SUCCESS then ifd_slot_raise IFD_SLOT_EVENT_ATR_OK s else ifd_xchg_set_error err s).

(** ** Protocol and parameter selection *)
Definition ifd_pps_bytes (pps0 : Z) : Z :=
  (if has pps0 (IFD_PPS_EXISTS 0) then 1 else 0) + (if has pps0 (IFD_PPS_EXISTS 1) then 1 else 0) +
  (if has pps0 (IFD_PPS_EXISTS 2) then 1 else 0).
Definition ifd_pps_expire s : res (ifd P) :=
  if negb (px_cmpl (i_px s)) then
    pps0 ← ifd_xfr_read 1 s;
    let size := ifd_pps_bytes pps0 + 1 in
    let s := __ifd_xfr_block 0 0 2 size (upd_px (set_px_ppsr_size (size + 2)) s) in
    Ok (upd_px (set_px_cmpl true) s)
  else Ok (ifd_xchg_stop IFD_XCHG_EVENT_XFR_CMPL (ifd_xchg_end (px_ppsr_size (i_px s)) s)).
Fixpoint ppsr_loop (n : nat) (nppsr pps0 pck fd : Z) s : res (option (Z * Z * Z)) :=
  match n with
  | O => Ok (Some (nppsr, pck, fd))
  | S n =>
      if has pps0 (IFD_PPS_EXISTS (nppsr - 2)) then
        byte ← ifd_xchg_read nppsr s;
        r ← rdb (px_req (i_px s)) (nppsr - 1);
        if negb (byte =? r) then Ok None
        else ppsr_loop n (nppsr + 1) pps0 (pck ^^^ byte) (if nppsr =? 2 then byte else fd) s
      else ppsr_loop n nppsr pps0 pck fd s
  end.
Definition ifd_ppsr_parse s : res (Z * ifd P) :=
  b ← ifd_xchg_read 0 s;
  if negb (b =? IFD_PPS_PPSS) then Ok (IFD_ERR_BAD_PPSS, s)
  else
    pps0 ← ifd_xchg_read 1 s;
    r0 ← rdb (px_req (i_px s)) 0;
    if negb (IFD_PPS_PROTO pps0 =? IFD_PPS_PROTO r0) then Ok (IFD_ERR_BAD_PPSR, s)
    else
      r ← ppsr_loop 3 2 pps0 (IFD_PPS_PPSS ^^^ pps0) (sl_fd (i_slot s)) s;
      match r with
      | None => Ok (IFD_ERR_BAD_PPSR, s)
      | Some (nppsr, pck, fd) =>
          b ← ifd_xchg_read nppsr s;
          if negb ((pck ^^^ b) =? 0) then Ok (IFD_ERR_BAD_PCK, s)
          else Ok (SCS_ERR_SUCCESS, upd_slot (set_sl_fd fd) s)
      end.
Definition ifd_pps_cmpl s : res (ifd P) :=
  if negb (i_error s =? SCS_ERR_SUCCESS) then Ok s
  else
    '(err, s) ← ifd_ppsr_parse s;
    Ok (if err =? SCS_ERR_SUCCESS then ifd_slot_raise IFD_SLOT_EVENT_PPS_OK s else ifd_xchg_set_error err s).
Definition pps_save_byte (c : bool) (slot i : Z) s : res (Z * ifd P) :=
  if c then
    b ← ifd_xchg_read i s;
    r ← wr (px_req (i_px s)) (Z.to_nat slot) b; Ok (i + 1, upd_px (set_px_req r) s)
  else Ok (i, s).
Definition ifd_pps_save s : res (ifd P) :=
  pps0 ← ifd_xchg_read 1 s;
  r ← wr (px_req (i_px s)) 0 pps0;
  let s := upd_px (set_px_req r) s in
  '(i, s) ← pps_save_byte (has pps0 (IFD_PPS_EXISTS 0)) 1 2 s;
  '(i, s) ← pps_save_byte (has pps0 (IFD_PPS_EXISTS 1)) 2 i s;
  '(_, s) ← pps_save_byte (has pps0 (IFD_PPS_EXISTS 2)) 3 i s; Ok s.
Definition __ifd_pps_build s : res (ifd P) :=
  let l := i_slot s in
  let pps0 := sl_nego_proto l in
  let differ := negb (sl_nego_fd l =? sl_fd l) in
  let pps1 := if differ then sl_nego_fd l else sl_fd l in
  let pck := if differ then IFD_PPS_PPSS ^^^ pps1 else IFD_PPS_PPSS in
  let pps0 := if differ then pps0 ||| IFD_PPS_EXISTS 0 else pps0 in
  let pck := pck ^^^ pps0 in
  s ← ifd_xchg_write 0 IFD_PPS_PPSS s;
  s ← ifd_xchg_write 1 pps0 s;
  s ← (if has pps0 (IFD_PPS_EXISTS 0) then ifd_xchg_write 2 pps1 s else Ok s);
  s ← ifd_xchg_write (if has pps0 (IFD_PPS_EXISTS 0) then 3 else 2) pck s;
  ifd_pps_save s.
Definition ifd_nego_pps s : res (ifd P) :=
  s ← __ifd_pps_build s;
  pps0 ← ifd_xchg_read 1 s;
  let s := upd_px (fun x => set_px_size (ifd_pps_bytes pps0 + 3) (set_px_cmpl false x)) s in
  let s := ifd_xchg_busy (set_i_expire ExPps s) in
  let s := ifd_xchg_begin 0 (px_size (i_px s)) 0 2 s in
  Ok (ifd_xchg_run s).
Definition ifd_nego_proto s : res (ifd P) :=
  match __ifd_get_protocol (sl_nego_proto (i_slot s)) with
  | None => Fault FBug
  | Some (_, p) => Ok (set_i_p (pr_nego_pps p (i_p s)) s)
  end.
Definition ifd_info_xchg_fail (err : Z) s : ifd P :=
  ifd_slot_raise IFD_SLOT_EVENT_HW_ERR (ifd_xchg_set_error err s).
Definition ifd_spec_mode s : res (ifd P) :=
  let s := ifd_xchg_set_error SCS_ERR_SUCCESS s in
  if ifd_nr_protos <=? ifd_proto_pid (sl_spec_proto (i_slot s)) then Ok (ifd_info_xchg_fail IFD_ERR_BAD_PROTO s)
  else
    let s := upd_slot (fun l => set_sl_nego_fd (sl_spec_fd l) (set_sl_nego_proto (sl_spec_proto l) l)) s in
    s ← ifd_nego_proto s; Ok (ifd_slot_raise IFD_SLOT_EVENT_PPS_OK s).
Definition ifd_nego_1st s : res (ifd P) :=
  let s := ifd_xchg_set_error SCS_ERR_SUCCESS s in
  let s := upd_slot (fun l => set_sl_nego_proto (sl_first_proto l) l) s in
  s ← ifd_nego_proto s; Ok (ifd_slot_raise IFD_SLOT_EVENT_PPS_OK s).
Definition ifd_info_xchg s : res (ifd P) :=
  let l := i_slot s in
  let s := if sl_info_xchg l =? IFD_INFO_XCHG_SPECIFIC then s
           else if (1 <? hweight16 (sl_ind_protos l)) || negb (sl_ind_fd l =? IFD_FD_IMPLICIT)
           then upd_slot (set_sl_info_xchg IFD_INFO_XCHG_NEGO_PPS) s
           else upd_slot (set_sl_info_xchg IFD_INFO_XCHG_NEGO_1ST) s in
  let x := sl_info_xchg (i_slot s) in
  if x =? IFD_INFO_XCHG_SPECIFIC then ifd_spec_mode s
  else if x =? IFD_INFO_XCHG_NEGO_1ST then ifd_nego_1st s
  else if x =? IFD_INFO_XCHG_NEGO_PPS then ifd_nego_pps s
  else Fault FBug.

(** ** Activation *)
Definition ifd_deactivate s : ifd P := ifd_slot_raise IFD_SLOT_EVENT_PWR_OFF (ifd_xchg_set_error SCS_ERR_SUCCESS s).
Definition ifd_detect_icc_power s : bool := c_io C (i_hw s).
Definition ifd_activate s : res (ifd P) :=
  let s := ifd_config_cls (ifd_xchg_set_error SCS_ERR_SUCCESS s) in
  s ← ifd_config_def s;
  Ok (if c_activate C (i_hw s) && ifd_detect_icc_power s then ifd_slot_raise IFD_SLOT_EVENT_PWR_OK s
      else ifd_slot_raise IFD_SLOT_EVENT_HW_ERR (ifd_xchg_set_error SCS_ERR_BAD_POWER s)).
Definition __ifd_class_init (clazz : Z) s : ifd P :=
  upd_slot (fun l => set_sl_conv IFD_CONV_DIRECT (set_sl_clazz IFD_CLASS_NONE (set_sl_nego_clazz clazz l))) s.
Definition ifd_cls_select s : Z * ifd P :=
  let s := ifd_xchg_set_error SCS_ERR_SUCCESS s in
  let c := sl_nego_clazz (i_slot s) in
  if (c =? IFD_CLASS_A) || (c =? IFD_CLASS_B) || (c =? IFD_CLASS_C)
  then (SCS_ERR_SUCCESS, ifd_slot_raise IFD_SLOT_EVENT_CLS_CHG (upd_slot (set_sl_clazz c) s))
  else (IFD_ERR_BAD_CLASS, s).
Definition ifd_cls_select_next s : ifd P :=
  if sl_conv (i_slot s) =? IFD_CONV_DIRECT then upd_slot (set_sl_conv IFD_CONV_INVERSE) s
  else upd_slot (fun l => set_sl_conv IFD_CONV_DIRECT (set_sl_nego_clazz (u8 (sl_nego_clazz l + 1)) l)) s.
Definition ifd_cls_select_auto s : bool * ifd P :=
  let s := if sl_nego_clazz (i_slot s) =? IFD_CLASS_AUTO then __ifd_class_init IFD_CLASS_INIT s
           else ifd_cls_select_next s in
  let '(err, s) := ifd_cls_select s in (err =? SCS_ERR_SUCCESS, s).
Definition ifd_power_on_next s : bool * ifd P :=
  if sl_conv (i_slot s) =? IFD_CONV_DIRECT then
    let s := if sl_clazz (i_slot s) =? sl_nego_clazz (i_slot s)
             then upd_slot (set_sl_conv IFD_CONV_INVERSE) s else s in
    let '(err, s) := ifd_cls_select s in (err =? SCS_ERR_SUCCESS, s)
  else (false, s).

(** ** The end of an exchange *)
Definition ifd_proto_cmpl s : res (ifd P) := '(_, p) ← oob (ifd_get_protocol s); pr_xchg_cmpl p s.
Definition scs_proto_aval s : res (ifd P) := '(_, p) ← oob (ifd_get_protocol s); pr_xchg_aval p s.
Definition ifd_handle_interchange_xchg s : res (ifd P) :=
  _ ← bug_on (negb (i_state s =? IFD_XCHG_STATE_IDLE)); Ok (ifd_seq_complete (i_error s) s).
Definition ifd_handle_xchg_seq s : res (ifd P) :=
  let seq := i_seq s in
  let s := ifd_xchg_set_state IFD_XCHG_STATE_IDLE s in
  if seq =? IFD_SEQ_INTERCHANGE then ifd_handle_interchange_xchg s else Ok s.
Definition ifd_xchg_idle s : res (ifd P) :=
  if i_state s =? IFD_XCHG_STATE_ERROR then ifd_handle_xchg_seq s
  else
    s ← (if status s =? IFD_SLOT_STATE_ACTIVATED then ifd_atr_cmpl s
         else if status s =? IFD_SLOT_STATE_ATR_READY then ifd_pps_cmpl s
         else if status s =? IFD_SLOT_STATE_PPS_READY then ifd_proto_cmpl s
         else Ok s);
    let err := i_error s in
    if err =? SCS_ERR_PROGRESS then scs_proto_aval (ifd_xchg_busy (ifd_xchg_set_error SCS_ERR_SUCCESS s))
    else if negb (err =? SCS_ERR_SUCCESS) then
      if i_seq s =? IFD_SEQ_INTERCHANGE then
        if negb (err =? SCS_ERR_TIMEOUT) && negb (err =? SCS_ERR_PARITY_ERR) && negb (err =? SCS_ERR_OVERRUN)
        then Ok (ifd_xchg_set_state IFD_XCHG_STATE_ERROR (ifd_slot_raise IFD_SLOT_EVENT_HW_ERR s))
        else ifd_handle_xchg_seq s
      else ifd_handle_xchg_seq (ifd_slot_raise IFD_SLOT_EVENT_HW_ERR s)
    else ifd_handle_xchg_seq s.
Definition ifd_handle_xchg_state s : res (ifd P) :=
  let '(flags, s) := ifd_xchg_save s in
  if i_state s =? IFD_XCHG_STATE_BUSY then
    if has flags IFD_XCHG_EVENT_POWER_ERR then ifd_xchg_idle (ifd_xchg_set_error SCS_ERR_HW_ERROR s)
    else if has flags IFD_XCHG_EVENT_CONV_ERR then ifd_xchg_idle (ifd_xchg_set_error IFD_ERR_BAD_TS s)
    else if has flags IFD_XCHG_EVENT_PARITY_ERR then ifd_xchg_idle (ifd_xchg_set_error SCS_ERR_PARITY_ERR s)
    else if has flags IFD_XCHG_EVENT_XFR_OVER then ifd_xchg_idle (ifd_xchg_set_error SCS_ERR_OVERRUN s)
    else if has flags IFD_XCHG_EVENT_WT_EXPIRE then ifd_xchg_idle (ifd_xchg_set_error SCS_ERR_TIMEOUT s)
    else if has flags IFD_XCHG_EVENT_ICC_OUT then ifd_xchg_idle (ifd_xchg_set_error SCS_ERR_NOTPRESENT s)
    else if has flags IFD_XCHG_EVENT_XFR_CMPL then ifd_xchg_idle s
    else Ok s
  else Ok s.

(** ** Sequences driven by the slot's state
    ([ifd_info_xchg_auto] completes the sequence and [ifd_atr_build_auto] does nothing in
    the build without CONFIG_IFD_AUTO_PPS_PROP). *)
Definition ifd_handle_auto_seq s : res (ifd P) :=
  let state := status s in
  if state =? IFD_SLOT_STATE_PRESENT then
    let '(ok, s) := ifd_cls_select_auto s in
    Ok (if ok then s else ifd_seq_complete SCS_ERR_HW_ERROR s)
  else if state =? IFD_SLOT_STATE_SELECTED then ifd_activate s
  else if state =? IFD_SLOT_STATE_ACTIVATED then Ok (ifd_reset s)
  else if state =? IFD_SLOT_STATE_ATR_READY then Ok (ifd_seq_complete SCS_ERR_SUCCESS s)
  else if state =? IFD_SLOT_STATE_PPS_READY then Ok (ifd_seq_complete SCS_ERR_SUCCESS s)
  else if state =? IFD_SLOT_STATE_HWERROR then Ok s
  else Ok (ifd_seq_complete SCS_ERR_HW_ERROR s).
Definition ifd_handle_power_on s : res (ifd P) :=
  let state := status s in
  if state =? IFD_SLOT_STATE_PRESENT then
    let '(ok, s) := ifd_power_on_next s in
    Ok (if ok then s else ifd_seq_complete SCS_ERR_HW_ERROR s)
  else if state =? IFD_SLOT_STATE_SELECTED then ifd_activate s
  else if state =? IFD_SLOT_STATE_ACTIVATED then Ok (ifd_reset s)
  else if state =? IFD_SLOT_STATE_ATR_READY then Ok (ifd_seq_complete SCS_ERR_SUCCESS s)
  else if state =? IFD_SLOT_STATE_PPS_READY then Ok (ifd_seq_complete SCS_ERR_SUCCESS s)
  else if state =? IFD_SLOT_STATE_HWERROR then Ok s
  else if state =? IFD_SLOT_STATE_NOTPRESENT then Ok (ifd_seq_complete SCS_ERR_HW_ERROR s)
  else Ok s.
Definition ifd_handle_power_off s : ifd P :=
  if (status s =? IFD_SLOT_STATE_PRESENT) || (status s =? IFD_SLOT_STATE_NOTPRESENT)
  then ifd_seq_complete SCS_ERR_SUCCESS s else s.
Definition ifd_handle_set_param s : ifd P :=
  if status s =? IFD_SLOT_STATE_PPS_READY then ifd_seq_complete SCS_ERR_SUCCESS s
  else if (status s =? IFD_SLOT_STATE_PRESENT) || (status s =? IFD_SLOT_STATE_NOTPRESENT)
  then ifd_seq_complete SCS_ERR_HW_ERROR s else s.
Definition ifd_handle_interchange_slot s : res (ifd P) :=
  if negb (i_state s =? IFD_XCHG_STATE_ERROR) then Ok s
  else if (status s =? IFD_SLOT_STATE_PRESENT) || (status s =? IFD_SLOT_STATE_NOTPRESENT)
  then ifd_xchg_idle s else Ok s.
Definition ifd_handle_slot_seq s : res (ifd P) :=
  let seq := i_seq s in
  if seq =? IFD_SEQ_AUTO_SEQ then ifd_handle_auto_seq s
  else if seq =? IFD_SEQ_POWER_ON then ifd_handle_power_on s
  else if seq =? IFD_SEQ_POWER_OFF then Ok (ifd_handle_power_off s)
  else if seq =? IFD_SEQ_SET_PARAM then Ok (ifd_handle_set_param s)
  else if seq =? IFD_SEQ_INTERCHANGE then ifd_handle_interchange_slot s
  else Ok s.
Definition ifd_slot_set_state (v : Z) s : res (ifd P) := ifd_handle_slot_seq (upd_slot (set_sl_status v) s).

(** ** The transfer loop *)
Definition hw_event_code (e : hw_event) : Z :=
  match e with
  | HwIccOut => IFD_XCHG_EVENT_ICC_OUT
  | HwWtExpire => IFD_XCHG_EVENT_WT_EXPIRE
  | HwParityErr => IFD_XCHG_EVENT_PARITY_ERR
  end.
Definition ifd_hw_read_byte s : Z * ifd P :=
  match i_line s with
  | Byte b :: l => (b, set_i_line l s)
  | Event e b :: l => (b, set_i_line l (ifd_xchg_stop (hw_event_code e) s))
  | TxEvent e :: l => (c_idle C, set_i_line l (ifd_xchg_stop (hw_event_code e) s))
  | [] => (c_idle C, ifd_xchg_stop IFD_XCHG_EVENT_WT_EXPIRE s)
  end.
(** The byte is put into the data register whether or not waiting for its room has raised an
    event. *)
Definition ifd_hw_write_byte (b : Z) s : ifd P :=
  let s := match i_line s with
           | TxEvent e :: l => set_i_line l (ifd_xchg_stop (hw_event_code e) s)
           | _ => s
           end in
  set_i_sent (i_sent s ++ [b]) s.
Definition ifd_xfr_ne_expire s : res (ifd P) :=
  match i_expire s with
  | ExNull => Ok (ifd_null_expire s)
  | ExAtr => ifd_atr_expire s
  | ExPps => ifd_pps_expire s
  | ExProto pid => p ← oob (ifd_protos !! pid); pr_ne_expire p s
  end.
Fixpoint xfr_send (n : nat) s : res (ifd P) :=
  if ifd_xchg_raised_any s then Ok s
  else match n with
  | O => Ok s
  | S n =>
      b ← rdb (i_buff s) (xf_tx_start (i_xfr s) + xf_tx (i_xfr s));
      xfr_send n (upd_xfr (fun x => set_xf_tx (u16 (xf_tx x + 1)) x) (ifd_hw_write_byte b s))
  end.
Fixpoint xfr_recv (n : nat) s : res (ifd P) :=
  if ifd_xchg_raised_any s then Ok s
  else match n with
  | O => Ok s
  | S n =>
      let '(b, s) := ifd_hw_read_byte s in
      m ← wr (i_buff s) (Z.to_nat (xf_rx_start (i_xfr s) + xf_rx (i_xfr s))) b;
      let s := upd_xfr (fun x => set_xf_rx (u16 (xf_rx x + 1)) x) (set_i_buff m s) in
      if xf_rx (i_xfr s) =? xf_ne (i_xfr s) then ifd_xfr_ne_expire s else xfr_recv n s
  end.
Fixpoint sync_loop (fuel : nat) s : res (ifd P) :=
  if ifd_xchg_raised_any s then Ok s
  else match fuel with
  | O => Fault FHang
  | S fuel =>
      s ← xfr_send (Z.to_nat (xf_nc (i_xfr s) - xf_tx (i_xfr s))) s;
      s ← xfr_recv (Z.to_nat (xf_ne (i_xfr s) - xf_rx (i_xfr s))) s;
      sync_loop fuel s
  end.
(** Every turn of the outer loop takes something from the line or raises an event. *)
Definition ifd_xchg_sync s : res (ifd P) :=
  let s := ifd_xchg_start s in sync_loop (S (S (length (i_line s)))) s.

(** ** The slot state machine *)
Definition ifd_slot_reset s : res (ifd P) :=
  let s := ifd_xchg_set_state IFD_XCHG_STATE_IDLE (ifd_xchg_set_error SCS_ERR_SUCCESS s) in
  let s := ifd_seq_complete SCS_ERR_NOTPRESENT (ifd_xchg_reset s) in
  let s := snd (ifd_event_save s) in
  s ← __ifd_slot_reset s;
  ifd_slot_set_state IFD_SLOT_STATE_NOTPRESENT (__ifd_class_init IFD_CLASS_NONE s).
Definition scs_auto_seq (cmpl : bool) s : Z * ifd P :=
  let err := ifd_slot_exist s in
  if negb (err =? SCS_ERR_SUCCESS) then (err, s)
  else
    let s := ifd_seq_set IFD_SEQ_AUTO_SEQ (ifd_deactivate (__ifd_class_init IFD_CLASS_AUTO s)) in
    (SCS_ERR_PROGRESS, if cmpl then ifd_seq_onoff true s else s).
Definition ifd_handle_icc_out s : res (ifd P) := ifd_slot_reset s.
Definition ifd_handle_icc_in s : ifd P := snd (scs_auto_seq false s).
Definition ifd_detect_icc_out s : ifd P :=
  if negb (status s =? IFD_SLOT_STATE_NOTPRESENT) then ifd_slot_raise IFD_SLOT_EVENT_ICC_OUT s else s.
Definition ifd_detect_icc_in s : ifd P :=
  if status s =? IFD_SLOT_STATE_NOTPRESENT then ifd_slot_raise IFD_SLOT_EVENT_ICC_IN s else s.

(** One event of [ifd_handle_slot_state]: if its bit is set in [flags], [act] runs and the
    bit is cleared. *)
Definition on_event (bit : Z) (act : ifd P -> res (ifd P)) (fs : Z * ifd P) : res (Z * ifd P) :=
  let '(flags, s) := fs in
  if has flags bit then s ← act s; Ok (unraise_bits flags bit, s) else Ok (flags, s).
Definition ifd_handle_slot_state s : res (ifd P) :=
  let fs := ifd_event_save s in
  let state := status s in
  fs ← on_event IFD_SLOT_EVENT_XFR_SYNC ifd_xchg_sync fs;
  fs ← on_event IFD_SLOT_EVENT_WARM_RST (fun s =>
         if IFD_SLOT_STATE_ATR_READY <=? state then ifd_slot_set_state IFD_SLOT_STATE_ACTIVATED s else Ok s) fs;
  fs ← on_event IFD_SLOT_EVENT_HW_ERR (fun s =>
         _ ← bug_on (i_error s =? SCS_ERR_SUCCESS);
         if IFD_SLOT_STATE_SELECTED <=? state then
           s ← ifd_slot_set_state IFD_SLOT_STATE_HWERROR s; Ok (ifd_deactivate s)
         else Ok s) fs;
  fs ← on_event IFD_SLOT_EVENT_PWR_OFF (fun s =>
         if IFD_SLOT_STATE_PRESENT <=? state then
           s ← __ifd_slot_reset s; ifd_slot_set_state IFD_SLOT_STATE_PRESENT s
         else Ok s) fs;
  fs ← on_event IFD_SLOT_EVENT_ICC_OUT (fun s =>
         s ← ifd_handle_icc_out s; ifd_slot_set_state IFD_SLOT_STATE_NOTPRESENT s) fs;
  fs ← (if state =? IFD_SLOT_STATE_NOTPRESENT then
          on_event IFD_SLOT_EVENT_ICC_IN (fun s => ifd_slot_set_state IFD_SLOT_STATE_PRESENT (ifd_handle_icc_in s)) fs
        else if state =? IFD_SLOT_STATE_PRESENT then
          on_event IFD_SLOT_EVENT_CLS_CHG (ifd_slot_set_state IFD_SLOT_STATE_SELECTED) fs
        else if state =? IFD_SLOT_STATE_SELECTED then
          on_event IFD_SLOT_EVENT_PWR_OK (ifd_slot_set_state IFD_SLOT_STATE_ACTIVATED) fs
        else if state =? IFD_SLOT_STATE_ACTIVATED then
          on_event IFD_SLOT_EVENT_ATR_OK (ifd_slot_set_state IFD_SLOT_STATE_ATR_READY) fs
        else if state =? IFD_SLOT_STATE_ATR_READY then
          fs ← on_event IFD_SLOT_EVENT_ATR_OK (ifd_slot_set_state IFD_SLOT_STATE_ATR_READY) fs;
          on_event IFD_SLOT_EVENT_PPS_OK (fun s =>
            s ← ifd_conf_param s; ifd_slot_set_state IFD_SLOT_STATE_PPS_READY s) fs
        else if state =? IFD_SLOT_STATE_PPS_READY then
          on_event IFD_SLOT_EVENT_PPS_OK (ifd_slot_set_state IFD_SLOT_STATE_PPS_READY) fs
        else Ok fs);
  Ok (ifd_event_restore (fst fs) (snd fs)).

(** The bottom half, run by the main loop while it is awake. *)
Definition ifd_bh_handler s : res (ifd P) := s ← ifd_handle_slot_state s; ifd_handle_xchg_state s.
Definition ifd_bh_run s : res (ifd P) := if i_wake s then ifd_bh_handler (set_i_wake false s) else Ok s.
Fixpoint ifd_run (n : nat) s : res (ifd P) :=
  match n with O => Ok s | S n => s ← ifd_bh_run s; ifd_run n s end.
Definition ifd_pres_handler (present : bool) s : ifd P :=
  if present then ifd_detect_icc_in s else ifd_detect_icc_out s.
Definition ifd_init s : res (ifd P) := ifd_slot_reset (ifd_seq_reset s).

(** ** What the upper layer calls *)
Definition ifd_power_on (clazz : Z) s : Z * ifd P :=
  if (clazz =? IFD_CLASS_AUTO) && (i_seq s =? IFD_SEQ_AUTO_SEQ) then (SCS_ERR_PROGRESS, ifd_seq_onoff true s)
  else
    let err := ifd_slot_exist s in
    if negb (err =? SCS_ERR_SUCCESS) then (err, s)
    else if clazz =? IFD_CLASS_AUTO then scs_auto_seq true s
    else ifd_seq_start IFD_SEQ_POWER_ON (ifd_deactivate (__ifd_class_init clazz s)).
Definition ifd_power_off s : Z * ifd P :=
  let err := ifd_slot_exist s in
  if negb (err =? SCS_ERR_SUCCESS) then (err, s) else ifd_seq_start IFD_SEQ_POWER_OFF (ifd_deactivate s).
Definition ifd_set_param s : res (Z * ifd P) :=
  let err := ifd_slot_active s in
  if negb (err =? SCS_ERR_SUCCESS) then Ok (err, s)
  else s ← ifd_info_xchg s; Ok (ifd_seq_start IFD_SEQ_SET_PARAM s).
Definition ifd_reset_param s : res (Z * ifd P) :=
  let err := ifd_slot_active s in
  if negb (err =? SCS_ERR_SUCCESS) then Ok (err, s)
  else s ← ifd_config_def s; Ok (SCS_ERR_SUCCESS, s).
Definition ifd_xchg_block (nc ne : Z) s : res (Z * ifd P) :=
  let state := status s in
  let err := ifd_slot_active s in
  if negb (err =? SCS_ERR_SUCCESS) then Ok (err, s)
  else if state =? IFD_SLOT_STATE_ATR_READY then Ok (SCS_ERR_BUSY_AUTO, s)
  else
    _ ← bug_on (negb (state =? IFD_SLOT_STATE_PPS_READY));
    let s := ifd_xchg_reset s in
    '(pid, p) ← oob (ifd_get_protocol s);
    '(err, s) ← pr_xchg_init p nc ne (set_i_expire (ExProto pid) s);
    if negb (err =? SCS_ERR_PROGRESS) then Ok (err, s)
    else s ← scs_proto_aval (ifd_xchg_busy s); Ok (ifd_seq_start IFD_SEQ_INTERCHANGE s).
Definition ifd_read_byte (index : Z) s : res Z :=
  _ ← bug_on (IFD_BUF_SIZE <=? index); ifd_xchg_read index s.
Definition ifd_write_byte (index byte : Z) s : res (Z * ifd P) :=
  let err := ifd_slot_active s in
  if negb (err =? SCS_ERR_SUCCESS) then Ok (err, s)
  else if IFD_BUF_SIZE <=? index then Ok (SCS_ERR_OVERRUN, s)
  else s ← ifd_xchg_write index byte s; Ok (SCS_ERR_SUCCESS, s).
Definition ifd_write_byte_mask (index byte mask : Z) s : res (Z * ifd P) :=
  let err := ifd_slot_active s in
  if negb (err =? SCS_ERR_SUCCESS) then Ok (err, s)
  else if IFD_BUF_SIZE <=? index then Ok (SCS_ERR_OVERRUN, s)
  else
    b ← ifd_xchg_read index s;
    m ← wr (i_buff s) (Z.to_nat index) (Z.ldiff b mask ||| (byte &&& mask));
    Ok (SCS_ERR_SUCCESS, set_i_buff m s).

End Ifd.
