(* ===== verification/Atr.v ===== *)
(** * Atr: the answer to reset

    What an answer to reset looks like (ISO/IEC 7816-3, 8.2), and what reception
    ([ifd_reset], [ifd_atr_expire], [ifd_xchg_sync]) and the parser ([ifd_atr_parse]) of
    kernel/scs/ifd.c make of the bytes a card sends. *)
From S2P Require Import Prelude Bitops CString Ifd.
From stdpp Require Import list.
Local Open Scope Z_scope.
Local Open Scope c_scope.

(** ** The format

    A group of interface bytes TA, TB, TC with the low half of the byte that announces it:
    the number of historical bytes for the first group (announced by T0), the protocol T
    for the groups announced by a TD. *)
Record iface : Type := MkIface { ia : option Z; ib : option Z; ic : option Z; it : Z }.
Record atr : Type := MkAtr {
  a_ts : Z; a_first : iface; a_rest : list iface; a_hist : list Z; a_tck : list Z }.

Definition opt_bytes (o : option Z) : list Z := match o with Some b => [b] | None => [] end.
Definition flag {A} (o : option A) (bit : Z) : Z := match o with Some _ => bit | None => 0 end.
(** The byte that announces group [g] with the groups [rest] behind it. *)
Definition td_byte (g : iface) (rest : list iface) : Z :=
  flag (ia g) TA_EXISTS + flag (ib g) TB_EXISTS + flag (ic g) TC_EXISTS +
  flag (head rest) TD_EXISTS + it g.
Definition own_bytes (g : iface) : list Z := opt_bytes (ia g) ++ opt_bytes (ib g) ++ opt_bytes (ic g).
Fixpoint body (g : iface) (rest : list iface) : list Z :=
  own_bytes g ++ match rest with [] => [] | h :: rest => td_byte h rest :: body h rest end.
Definition atr_bytes (a : atr) : list Z :=
  a_ts a :: td_byte (a_first a) (a_rest a) :: body (a_first a) (a_rest a) ++ a_hist a ++ a_tck a.

(** The check byte TCK is there if a protocol other than T=0 is announced. *)
Definition iso_tck (rest : list iface) : bool := existsb (fun g => negb (it g =? 0)) rest.
Definition byte_ok (b : Z) : Prop := in_u 8 b.
Definition iface_ok (g : iface) : Prop := 0 <= it g < 16 /\ Forall byte_ok (own_bytes g).
Definition atr_ok (a : atr) : Prop :=
  iface_ok (a_first a) /\ Forall iface_ok (a_rest a) /\ Forall byte_ok (a_hist a) /\ Forall byte_ok (a_tck a) /\
  byte_ok (a_ts a) /\ Z.of_nat (length (a_hist a)) = it (a_first a) /\
  length (a_tck a) = (if iso_tck (a_rest a) then 1 else 0)%nat.

(** ** Reading the format from a line *)
Fixpoint line_take (n : nat) (l : list line) : option (list Z * list line) :=
  match n with
  | O => Some ([], l)
  | S n => match l with
           | Byte b :: l => '(bs, l) ← line_take n l; Some (b :: bs, l)
           | _ => None
           end
  end.
Definition take_if (c : bool) (l : list Z) : option Z * list Z :=
  match c, l with true, b :: l => (Some b, l) | _, _ => (None, l) end.
Definition count_y (td : Z) : nat :=
  (Nat.b2n (has td TA_EXISTS) + Nat.b2n (has td TB_EXISTS) + Nat.b2n (has td TC_EXISTS) + Nat.b2n (has td TD_EXISTS))%nat.
Definition split_own (td : Z) (bs : list Z) : iface * list Z :=
  let '(a, bs) := take_if (has td TA_EXISTS) bs in
  let '(b, bs) := take_if (has td TB_EXISTS) bs in
  let '(c, bs) := take_if (has td TC_EXISTS) bs in (MkIface a b c (TD_T td), bs).
Fixpoint split_groups (fuel : nat) (td : Z) (l : list line) : option (iface * list iface * list line) :=
  '(bs, l) ← line_take (count_y td) l;
  let '(g, bs) := split_own td bs in
  match fuel, bs with
  | S fuel, td' :: _ => '(h, rest, l) ← split_groups fuel td' l; Some (g, h :: rest, l)
  | _, _ => Some (g, [], l)
  end.
Definition split_atr (conv : Z) (l : list line) : option (atr * list line) :=
  '(bs, l) ← line_take 2 l;
  match bs with
  | [ts; t0] =>
      if ts =? conv then
        '(g, rest, l) ← split_groups (length l) t0 l;
        '(hist, l) ← line_take (Z.to_nat (it g)) l;
        '(tck, l) ← line_take (if iso_tck rest then 1 else 0)%nat l;
        Some (MkAtr ts g rest hist tck, l)
      else None
  | _ => None
  end.

(** ** Bytes of a line *)
Lemma line_take_bytes bs l : line_take (length bs) (map Byte bs ++ l) = Some (bs, l).
Proof. induction bs as [|b bs IH]; [done|]. cbn. by rewrite IH. Qed.
Lemma line_take_inv n l bs l' : line_take n l = Some (bs, l') -> l = map Byte bs ++ l' /\ length bs = n.
Proof.
  revert l bs. induction n as [|n IH]; intros l bs H; cbn in H; [by simplify_eq|].
  destruct l as [|[b|e b|e] l]; [done| |done|done]. destruct (line_take n l) as [[cs k]|] eqn:E; cbn in H; [|done].
  simplify_eq. destruct (IH _ _ E) as [-> <-]. done.
Qed.

(** Properties of bytes that are checked value by value. *)
Lemma byte_all (f : Z -> bool) : forallb f (seqZ 0 256) = true -> forall b, in_u 8 b -> f b = true.
Proof.
  intros H b Hb. rewrite forallb_forall in H. apply H. apply list_elem_of_In, elem_of_seqZ. lia.
Qed.
Ltac by_byte td :=
  match goal with
  | H : in_u 8 td |- ?P => revert td H; apply byte_all; vm_compute; reflexivity
  | H : byte_ok td |- ?P => revert td H; apply byte_all; vm_compute; reflexivity
  end.

Definition td_check (td : Z) : bool :=
  (ifd_atr_bytes td =? Z.of_nat (count_y td)) && (0 <=? TD_T td) && (TD_T td <? 16) && (T0_K td =? TD_T td) &&
  (td =? (if has td TA_EXISTS then TA_EXISTS else 0) + (if has td TB_EXISTS then TB_EXISTS else 0) +
         (if has td TC_EXISTS then TC_EXISTS else 0) + (if has td TD_EXISTS then TD_EXISTS else 0) + TD_T td) &&
  Bool.eqb (TD_Y td =? 0) (Nat.eqb (count_y td) 0) && Bool.eqb (has (TD_Y td) TA_EXISTS) (has td TA_EXISTS) &&
  Bool.eqb (has (TD_Y td) TB_EXISTS) (has td TB_EXISTS) && Bool.eqb (has (TD_Y td) TC_EXISTS) (has td TC_EXISTS) &&
  Bool.eqb (has (TD_Y td) TD_EXISTS) (has td TD_EXISTS).
Lemma td_facts td : byte_ok td ->
  ifd_atr_bytes td = Z.of_nat (count_y td) /\ 0 <= TD_T td < 16 /\ T0_K td = TD_T td /\
  td = (if has td TA_EXISTS then TA_EXISTS else 0) + (if has td TB_EXISTS then TB_EXISTS else 0) +
       (if has td TC_EXISTS then TC_EXISTS else 0) + (if has td TD_EXISTS then TD_EXISTS else 0) + TD_T td /\
  (TD_Y td =? 0) = Nat.eqb (count_y td) 0 /\
  has (TD_Y td) TA_EXISTS = has td TA_EXISTS /\ has (TD_Y td) TB_EXISTS = has td TB_EXISTS /\
  has (TD_Y td) TC_EXISTS = has td TC_EXISTS /\ has (TD_Y td) TD_EXISTS = has td TD_EXISTS.
Proof.
  intros H. assert (Hc : td_check td = true) by by_byte td. unfold td_check in Hc.
  rewrite !andb_true_iff, !Bool.eqb_true_iff, !Z.eqb_eq, Z.leb_le, Z.ltb_lt in Hc. intuition.
Qed.

Definition is_some {A} (o : option A) : bool := match o with Some _ => true | None => false end.
Definition half_check (y t : Z) : bool :=
  (0 <=? y + t) && (y + t <? 256) && (TD_T (y + t) =? t) &&
  Bool.eqb (has (y + t) TA_EXISTS) (has y TA_EXISTS) && Bool.eqb (has (y + t) TB_EXISTS) (has y TB_EXISTS) &&
  Bool.eqb (has (y + t) TC_EXISTS) (has y TC_EXISTS) && Bool.eqb (has (y + t) TD_EXISTS) (has y TD_EXISTS).
Lemma half_ok y t : forallb (half_check y) (seqZ 0 16) = true -> 0 <= t < 16 -> half_check y t = true.
Proof. intros H Ht. rewrite forallb_forall in H. apply H. apply list_elem_of_In, elem_of_seqZ. lia. Qed.
Lemma td_byte_facts g rest : 0 <= it g < 16 ->
  byte_ok (td_byte g rest) /\ TD_T (td_byte g rest) = it g /\
  has (td_byte g rest) TA_EXISTS = is_some (ia g) /\ has (td_byte g rest) TB_EXISTS = is_some (ib g) /\
  has (td_byte g rest) TC_EXISTS = is_some (ic g) /\ has (td_byte g rest) TD_EXISTS = is_some (head rest).
Proof.
  intros Ht. unfold td_byte.
  assert (H : half_check (flag (ia g) TA_EXISTS + flag (ib g) TB_EXISTS + flag (ic g) TC_EXISTS +
    flag (head rest) TD_EXISTS) (it g) = true).
  { apply half_ok; [|done]. by destruct (ia g), (ib g), (ic g), (head rest); vm_compute. }
  unfold half_check in H. rewrite !andb_true_iff, !Bool.eqb_true_iff, !Z.eqb_eq, Z.leb_le, Z.ltb_lt in H.
  destruct H as ((((((? & ?) & ?) & ->) & ->) & ->) & ->). split; [split; [lia|done]|]. split; [done|].
  by destruct (ia g), (ib g), (ic g), (head rest).
Qed.

(** ** The format is read back *)
Lemma split_own_bytes g rest bs : 0 <= it g < 16 ->
  split_own (td_byte g rest) (own_bytes g ++ bs) = (g, bs).
Proof.
  intros Ht. destruct (td_byte_facts g rest Ht) as (_ & HT & HA & HB & HC & _). unfold split_own.
  rewrite HA, HB, HC, HT. by destruct g as [[?|] [?|] [?|] ?].
Qed.
Lemma count_y_bytes g rest : 0 <= it g < 16 ->
  count_y (td_byte g rest) = (length (own_bytes g) + Nat.b2n (is_some (head rest)))%nat.
Proof.
  intros Ht. destruct (td_byte_facts g rest Ht) as (_ & _ & HA & HB & HC & HD). unfold count_y.
  rewrite HA, HB, HC, HD. by destruct g as [[?|] [?|] [?|] ?], rest.
Qed.

Lemma split_groups_enc rest : forall fuel g l, (length rest <= fuel)%nat -> iface_ok g -> Forall iface_ok rest ->
  split_groups fuel (td_byte g rest) (map Byte (body g rest) ++ l) = Some (g, rest, l).
Proof.
  induction rest as [|h rest IH]; intros fuel g l Hf [Ht _] Hr.
  - cbn [body]. rewrite app_nil_r. assert (E : count_y (td_byte g []) = length (own_bytes g)).
    { rewrite count_y_bytes by done. cbn. lia. }
    destruct fuel; cbn [split_groups]; rewrite E, line_take_bytes; cbn [mbind option_bind];
      by rewrite <- (app_nil_r (own_bytes g)), split_own_bytes by done.
  - destruct fuel as [|fuel]; [cbn in Hf; lia|]. cbn [body split_groups]. apply Forall_cons in Hr as [Hh Hr].
    assert (E : count_y (td_byte g (h :: rest)) = length (own_bytes g ++ [td_byte h rest])).
    { rewrite count_y_bytes, length_app by done. done. }
    rewrite E. replace (own_bytes g ++ td_byte h rest :: body h rest) with ((own_bytes g ++ [td_byte h rest]) ++ body h rest)
      by (by rewrite <- app_assoc).
    rewrite map_app, <- app_assoc, line_take_bytes. cbn [mbind option_bind].
    rewrite split_own_bytes by done. by rewrite IH by (done || (cbn in Hf; lia)).
Qed.

Lemma split_atr_enc a l : atr_ok a -> split_atr (a_ts a) (map Byte (atr_bytes a) ++ l) = Some (a, l).
Proof.
  intros (Hg & Hr & _ & _ & _ & Hk & Hc). destruct a as [ts g rest hist tck].
  cbn [a_ts a_first a_rest a_hist a_tck] in *. unfold split_atr, atr_bytes.
  cbn [a_ts a_first a_rest a_hist a_tck line_take mbind option_bind map app]. rewrite Z.eqb_refl. rewrite !map_app, <- !app_assoc. rewrite split_groups_enc; [|..|done|done].
  2:{ rewrite length_app, length_map. clear. revert g. induction rest as [|h rest IH]; intros g; cbn; [lia|].
      rewrite length_app. cbn. specialize (IH h). lia. }
  cbn [mbind option_bind]. rewrite <- Hk, Nat2Z.id, line_take_bytes. cbn [mbind option_bind].
  by rewrite <- Hc, line_take_bytes.
Qed.

Lemma take_if_inv c bs a bs' : take_if c bs = (a, bs') -> (c = true -> bs <> []) ->
  bs = opt_bytes a ++ bs' /\ is_some a = c.
Proof. intros H Hn. destruct c, bs; cbn in H; simplify_eq; try done. by destruct Hn. Qed.
Lemma split_own_inv td bs g bs' : byte_ok td -> split_own td bs = (g, bs') -> length bs = count_y td ->
  bs = own_bytes g ++ bs' /\ it g = TD_T td /\ is_some (ia g) = has td TA_EXISTS /\
  is_some (ib g) = has td TB_EXISTS /\ is_some (ic g) = has td TC_EXISTS /\ length bs' = Nat.b2n (has td TD_EXISTS).
Proof.
  intros Htd H Hl. unfold split_own in H. unfold count_y in Hl.
  destruct (take_if _ bs) as [a b1] eqn:E1. destruct (take_if _ b1) as [b b2] eqn:E2.
  destruct (take_if _ b2) as [c b3] eqn:E3. simplify_eq. cbn.
  apply take_if_inv in E1 as [-> HA]; [|intros E; rewrite E in Hl; by destruct bs].
  rewrite <- HA, length_app in Hl. assert (length (opt_bytes a) = Nat.b2n (is_some a)) by (by destruct a).
  apply take_if_inv in E2 as [-> HB]; [|intros E; rewrite E in Hl; destruct b1; cbn in Hl; [lia|done]].
  rewrite <- HB, length_app in Hl. assert (length (opt_bytes b) = Nat.b2n (is_some b)) by (by destruct b).
  apply take_if_inv in E3 as [-> HC]; [|intros E; rewrite E in Hl; destruct b2; cbn in Hl; [lia|done]].
  rewrite <- HC, length_app in Hl. assert (length (opt_bytes c) = Nat.b2n (is_some c)) by (by destruct c).
  repeat split; try done; [by unfold own_bytes; cbn; rewrite <- !app_assoc|lia].
Qed.

Definition line_ok (l : list line) : Prop := Forall (fun x => match x with Byte b => byte_ok b | _ => True end) l.
Lemma line_ok_app bs l : line_ok (map Byte bs ++ l) <-> Forall byte_ok bs /\ line_ok l.
Proof. unfold line_ok. by rewrite Forall_app, Forall_map. Qed.

Lemma td_byte_of g rest td : byte_ok td -> it g = TD_T td -> is_some (ia g) = has td TA_EXISTS ->
  is_some (ib g) = has td TB_EXISTS -> is_some (ic g) = has td TC_EXISTS ->
  is_some (head rest) = has td TD_EXISTS -> td_byte g rest = td.
Proof.
  intros Htd Ht HA HB HC HD. destruct (td_facts td Htd) as (_ & _ & _ & Hs & _). rewrite Hs. unfold td_byte.
  rewrite Ht, <- HA, <- HB, <- HC, <- HD. by destruct (ia g), (ib g), (ic g), (head rest).
Qed.

Lemma split_groups_inv fuel : forall td l g rest l', byte_ok td -> line_ok l -> (length l <= fuel)%nat ->
  split_groups fuel td l = Some (g, rest, l') ->
  l = map Byte (body g rest) ++ l' /\ td_byte g rest = td /\ iface_ok g /\ Forall iface_ok rest.
Proof.
  induction fuel as [|fuel IH]; intros td l g rest l' Htd Hl Hf H; cbn [split_groups] in H;
    apply bind_Some in H as ([bs l1] & E & H); apply line_take_inv in E as [-> Hb];
    apply line_ok_app in Hl as [Hbs Hl]; destruct (split_own td bs) as [g1 bs'] eqn:E1;
    apply split_own_inv in E1 as (-> & Ht & HA & HB & HC & HD); try done;
    pose proof (td_facts td Htd) as (_ & Hr & _); apply Forall_app in Hbs as [Hown Htl];
    assert (Hg : iface_ok g1) by (by split; [lia|]).
  - rewrite !length_app, length_map, length_app in Hf. destruct bs'; [|cbn in Hf; lia]. simplify_eq. cbn [body].
    rewrite !app_nil_r. repeat split; try done; try lia.
    apply td_byte_of; try done. cbn. by destruct (has td TD_EXISTS).
  - destruct bs' as [|td' bs'].
    + simplify_eq. cbn [body]. rewrite !app_nil_r. split; [done|]. split; [|done].
      apply td_byte_of; try done. cbn. by destruct (has td TD_EXISTS).
    + assert (bs' = []) as -> by (destruct bs', (has td TD_EXISTS); done).
      apply bind_Some in H as ([[h r] l2] & E & H). simplify_eq.
      apply IH in E as (-> & Htd' & Hh & Hrest); [|by apply Forall_cons in Htl as [? _]|done|].
      * cbn [body]. rewrite !map_app, <- !app_assoc, Htd'. split; [done|]. split; [|by split; [|constructor]].
        apply td_byte_of; try done. cbn. by destruct (has td TD_EXISTS).
      * rewrite length_app, length_map, length_app in Hf. cbn in Hf. lia.
Qed.

Lemma split_atr_inv conv l a l' : line_ok l -> split_atr conv l = Some (a, l') ->
  l = map Byte (atr_bytes a) ++ l' /\ a_ts a = conv /\ atr_ok a.
Proof.
  intros Hl H. unfold split_atr in H. apply bind_Some in H as ([bs l1] & E & H).
  apply line_take_inv in E as [-> Hb]. apply line_ok_app in Hl as [Hbs Hl].
  destruct bs as [|ts [|t0 [|]]]; try done. apply Forall_cons in Hbs as [Hts Hbs]. apply Forall_cons in Hbs as [Ht0 _].
  destruct (Z.eqb_spec ts conv) as [->|]; [|done].
  apply bind_Some in H as ([[g rest] l2] & E & H). apply split_groups_inv in E as (-> & Htd & Hg & Hr); try done.
  apply line_ok_app in Hl as [_ Hl].
  apply bind_Some in H as ([hist l3] & E & H). apply line_take_inv in E as [-> Hh]. apply line_ok_app in Hl as [Hhist Hl].
  apply bind_Some in H as ([tck l4] & E & H). apply line_take_inv in E as [-> Hc]. apply line_ok_app in Hl as [Htck Hl].
  simplify_eq. unfold atr_bytes. cbn [a_ts a_first a_rest a_hist a_tck map app].
  rewrite !map_app, <- !app_assoc. split; [done|]. split; [done|]. destruct Hg as [Hg ?].
  repeat (split; [first [done | by split | cbn [a_hist a_first]; lia]|]). done.
Qed.

(** ** Reception *)
Section Reception.
Context {P : Type} (C : card) (ifd_protos : list (ifd_proto P)).
Implicit Types (s : ifd P).

(** A buffer whose first bytes are [pre]. *)
Definition filled (pre b : list Z) : list Z := pre ++ drop (length pre) b.
Lemma filled_length pre b : (length pre <= length b)%nat -> length (filled pre b) = length b.
Proof. intros. unfold filled. rewrite length_app, length_drop. lia. Qed.
Lemma filled_lookup pre b i : (i < length pre)%nat -> filled pre b !! i = pre !! i.
Proof. intros. unfold filled. by rewrite lookup_app_l. Qed.
Lemma wr_filled pre b x : (length pre < length b)%nat -> wr (filled pre b) (length pre) x = Ok (filled (pre ++ [x]) b).
Proof.
  intros H. unfold wr. rewrite decide_True by (rewrite filled_length; lia). f_equal. unfold filled.
  rewrite insert_app_r_alt, Nat.sub_diag, <- app_assoc, length_app by lia. f_equal.
  destruct (lookup_lt_is_Some_2 b (length pre) H) as [y Hy]. rewrite (drop_S _ y _ Hy). cbn.
  by rewrite Nat.add_1_r.
Qed.

(** [s] with the parts of the state that reception changes. *)
Definition At (b : list Z) (a : ifd_xchg_atr) (x : ifd_xfr) (l : list line) s : ifd P :=
  set_i_buff b (set_i_ax a (set_i_xfr x (set_i_line l s))).
(** Reception stopped by an event other than the end of the transfer. *)
Definition error_event (e : Z) : Prop :=
  e = IFD_XCHG_EVENT_CONV_ERR \/ exists h, e = hw_event_code h.
Definition failed s (r : res (ifd P)) : Prop :=
  exists e b a x l, error_event e /\ length b = length (i_buff s) /\
    r = Ok (set_i_wake true (set_i_xev e (At b a x l s))).

Lemma no_event s : i_xev s = 0 -> exists s', s = set_i_xev 0 s'.
Proof. intros H. exists s. destruct s. cbn in *. by subst. Qed.
Lemma xfr_send_raised n s : ifd_xchg_raised_any s = true -> xfr_send n s = Ok s.
Proof. intros H. destruct n; cbn [xfr_send]; by rewrite H. Qed.
Lemma xfr_send_none s : xfr_send 0 s = Ok s.
Proof. cbn [xfr_send]. by destruct (ifd_xchg_raised_any s). Qed.
Lemma xfr_recv_raised n s : ifd_xchg_raised_any s = true -> xfr_recv C ifd_protos n s = Ok s.
Proof. intros H. destruct n; cbn [xfr_recv]; by rewrite H. Qed.
Lemma stop_At e b a x l s :
  ifd_xchg_stop e (At b a x l (set_i_xev 0 s)) =
  set_i_wake true (set_i_xev e (At b a (MkXfr (xf_tx_start x) (xf_rx_start x) 0 0 0 0) l (set_i_xev 0 s))).
Proof. reflexivity. Qed.
(** The byte that is stored after the hardware layer has raised an event. *)
Lemma recv_event n e c b a ts pos l s : e <> 0 -> (pos < length b)%nat ->
  (m ← wr (i_buff (set_i_wake true (set_i_xev e (At b a (MkXfr ts (Z.of_nat pos) 0 0 0 0) l s))))
        (Z.to_nat (Z.of_nat pos + 0)) c;
   let s := upd_xfr (fun x => set_xf_rx (u16 (xf_rx x + 1)) x)
     (set_i_buff m (set_i_wake true (set_i_xev e (At b a (MkXfr ts (Z.of_nat pos) 0 0 0 0) l s)))) in
   if xf_rx (i_xfr s) =? xf_ne (i_xfr s) then ifd_xfr_ne_expire ifd_protos s else xfr_recv C ifd_protos n s) =
  Ok (set_i_wake true (set_i_xev e (At (<[pos := c]> b) a (MkXfr ts (Z.of_nat pos) 0 0 0 1) l s))).
Proof.
  intros He Hp. rewrite Z.add_0_r, Nat2Z.id. cbn [i_buff At set_i_wake set_i_xev set_i_buff]. unfold wr.
  rewrite decide_True by done. cbn [mbind res_mbind]. unfold upd_xfr.
  cbn [i_xfr set_i_buff set_i_wake set_i_xev At set_i_xfr xf_rx set_xf_rx xf_ne]. change (u16 (0 + 1)) with 1. cbn [Z.eqb].
  apply xfr_recv_raised. unfold ifd_xchg_raised_any. cbn [i_xev set_i_xfr set_i_buff set_i_wake set_i_xev].
  by rewrite (proj2 (Z.eqb_neq _ _)).
Qed.
Lemma recv_spec s a b0 pos ne ts nc tx : i_xev s = 0 -> length b0 = length (i_buff s) -> Z.of_nat ne < 2 ^ 16 ->
  forall n pre l r, (0 < n)%nat -> (r + n = ne)%nat -> length pre = (pos + r)%nat ->
  (length pre + length l < length b0)%nat ->
  let st := At (filled pre b0) a (MkXfr ts (Z.of_nat pos) nc (Z.of_nat ne) tx (Z.of_nat r)) l s in
  match line_take n l with
  | Some (bs, l') => xfr_recv C ifd_protos n st =
      ifd_xfr_ne_expire ifd_protos (At (filled (pre ++ bs) b0) a (MkXfr ts (Z.of_nat pos) nc (Z.of_nat ne) tx (Z.of_nat ne)) l' s)
  | None => failed s (xfr_recv C ifd_protos n st)
  end.
Proof.
  intros Hx Hb Hne n. apply no_event in Hx as [s' ->].
  induction n as [|n IH]; intros pre l r Hn Hr Hpre Hpos st; [lia|]. cbn [xfr_recv].
  change (ifd_xchg_raised_any st) with false. cbn [negb].
  assert (Hfail : forall h c l', let t := ifd_xchg_stop (hw_event_code h) (At (filled pre b0) a
      (MkXfr ts (Z.of_nat pos) nc (Z.of_nat ne) tx (Z.of_nat r)) l' (set_i_xev 0 s')) in failed (set_i_xev 0 s')
    (m ← wr (i_buff t) (Z.to_nat (xf_rx_start (i_xfr t) + xf_rx (i_xfr t))) c;
     let s := upd_xfr (fun x => set_xf_rx (u16 (xf_rx x + 1)) x) (set_i_buff m t) in
     if xf_rx (i_xfr s) =? xf_ne (i_xfr s) then ifd_xfr_ne_expire ifd_protos s else xfr_recv C ifd_protos n s)).
  { intros h c l' t. subst t. rewrite stop_At.
    cbn [i_xfr set_i_wake set_i_xev At set_i_buff set_i_ax set_i_xfr xf_rx_start xf_rx xf_tx_start]. fold (At).
    rewrite recv_event; [|by destruct h|rewrite filled_length; lia].
    eexists _, _, _, _, _. split; [right; by exists h|]. split; [|done]. by rewrite length_insert, filled_length by lia. }
  destruct l as [|[c|h c|h] l].
  - exact (Hfail HwWtExpire (c_idle C) []).
  - cbn [line_take]. unfold ifd_hw_read_byte, st. cbn [At i_line set_i_buff set_i_ax set_i_xfr set_i_line].
    cbn. replace (Z.to_nat (Z.of_nat pos + Z.of_nat r)) with (length pre) by lia.
    cbn [length] in Hpos. rewrite wr_filled by lia. cbn [mbind res_mbind].
    match goal with |- context [upd_xfr ?f ?t] =>
      assert (Es : upd_xfr f t = At (filled (pre ++ [c]) b0) a
        (MkXfr ts (Z.of_nat pos) nc (Z.of_nat ne) tx (Z.of_nat (S r))) l (set_i_xev 0 s')) end.
    { unfold upd_xfr. cbn. rewrite wrap_id by lia. by rewrite Z.add_1_r, <- Nat2Z.inj_succ. }
    rewrite Es, wrap_id, Z.add_1_r, <- Nat2Z.inj_succ by lia.
    destruct (Z.eqb_spec (Z.of_nat (S r)) (Z.of_nat ne)) as [Ee|Ee].
    + assert (n = 0)%nat as -> by lia. cbn [line_take mbind option_bind]. by rewrite Ee.
    + specialize (IH (pre ++ [c]) l (S r) ltac:(lia) ltac:(lia)). rewrite length_app in IH.
      specialize (IH ltac:(cbn; lia) ltac:(cbn; lia)). destruct (line_take n l) as [[bs l']|]; cbn [mbind option_bind]; [|exact IH].
      by rewrite <- app_assoc in IH.
  - exact (Hfail h c l).
  - exact (Hfail h (c_idle C) l).
Qed.

Lemma sync_raised fuel s : ifd_xchg_raised_any s = true -> sync_loop C ifd_protos fuel s = Ok s.
Proof. intros H. destruct fuel; cbn [sync_loop]; by rewrite H. Qed.
Lemma failed_sync fuel s r : failed s r -> failed s (r ≫= sync_loop C ifd_protos fuel).
Proof.
  intros (e & b & a & x & l & He & Hb & ->). cbn [mbind res_mbind]. exists e, b, a, x, l. split; [done|]. split; [done|].
  apply sync_raised. destruct He as [->|[[] ->]]; reflexivity.
Qed.

(** One turn of the transfer loop that receives a block of [ne] bytes. *)
Lemma block_spec fuel s a b0 pre ne l : i_xev s = 0 -> length b0 = length (i_buff s) -> Z.of_nat ne < 2 ^ 16 ->
  (length pre + length l < length b0)%nat -> (0 < ne)%nat ->
  let st := At (filled pre b0) a (MkXfr 0 (Z.of_nat (length pre)) 0 (Z.of_nat ne) 0 0) l s in
  match line_take ne l with
  | Some (bs, l') => sync_loop C ifd_protos (S fuel) st =
      (ifd_xfr_ne_expire ifd_protos (At (filled (pre ++ bs) b0) a
         (MkXfr 0 (Z.of_nat (length pre)) 0 (Z.of_nat ne) 0 (Z.of_nat ne)) l' s) ≫= sync_loop C ifd_protos fuel)
  | None => failed s (sync_loop C ifd_protos (S fuel) st)
  end.
Proof.
  intros Hx Hb Hne Hpos Hn st.
  assert (E : sync_loop C ifd_protos (S fuel) st = (xfr_recv C ifd_protos ne st ≫= sync_loop C ifd_protos fuel)).
  { cbn [sync_loop]. replace (ifd_xchg_raised_any st) with false by (unfold ifd_xchg_raised_any; cbn; by rewrite Hx).
    subst st. cbn [i_xfr At set_i_buff set_i_ax set_i_xfr xf_ne xf_rx xf_nc xf_tx]. change (Z.to_nat (0 - 0)) with 0%nat. rewrite xfr_send_none. cbn [mbind res_mbind].
    cbn [i_xfr At set_i_buff set_i_ax set_i_xfr xf_ne xf_rx]. replace (Z.to_nat (Z.of_nat ne - 0)) with ne by lia. done. }
  rewrite E. pose proof (recv_spec s a b0 (length pre) ne 0 0 0 Hx Hb Hne ne pre l 0 Hn eq_refl ltac:(lia) Hpos) as H.
  cbv zeta in H. change (Z.of_nat 0) with 0 in H. fold st in H.
  destruct (line_take ne l) as [[bs l']|]; [by rewrite H|by apply failed_sync].
Qed.

(** About to receive what is still announced: [y] interface bytes, [k] historical bytes, TCK. *)
Definition W (pre b0 : list Z) (st : Z) (tck : bool) (k y td : Z) (x : ifd_xfr) (l : list line) s : ifd P :=
  __ifd_atr_expire (At (filled pre b0) (MkAx st tck k y td (Z.of_nat (length pre))) x l s).
Lemma W_block pre b0 st tck k y td x l s n : y = Z.of_nat n -> (0 < n)%nat ->
  Z.of_nat (length pre + n) < 2 ^ 16 ->
  W pre b0 st tck k y td x l s =
  At (filled pre b0) (MkAx IFD_ATR_TD tck k y td (Z.of_nat (length pre + n)))
    (MkXfr 0 (Z.of_nat (length pre)) 0 (Z.of_nat n) 0 0) l s.
Proof.
  intros -> Hn Hl. unfold W, __ifd_atr_expire. cbn [i_ax At set_i_buff set_i_ax ax_y].
  rewrite (proj2 (Z.eqb_neq _ 0)) by lia. cbn [negb]. unfold ifd_atr_xfr_block, upd_ax, __ifd_xfr_block. cbn.
  rewrite wrap_id by lia. by rewrite Nat2Z.inj_add.
Qed.
Lemma expire_TD pre bs b0 tck k td l x s : i_expire s = ExAtr -> (0 < length bs)%nat ->
  xf_rx_start x = Z.of_nat (length pre) ->
  let td' := if has td TD_EXISTS then List.last bs 0 else 0 in
  ifd_xfr_ne_expire ifd_protos (At (filled (pre ++ bs) b0)
    (MkAx IFD_ATR_TD tck k (Z.of_nat (length bs)) td (Z.of_nat (length pre + length bs))) x l s) =
  Ok (W (pre ++ bs) b0 IFD_ATR_TD (tck || negb (TD_T td' =? SCS_PROTO_T0)) k (ifd_atr_bytes td') td' x l s).
Proof.
  intros He Hn Hx td'. unfold ifd_xfr_ne_expire. replace (i_expire _) with ExAtr by (by cbn).
  unfold ifd_atr_expire. cbn [i_ax At set_i_buff set_i_ax ax_state ax_td_last ax_y].
  change (IFD_ATR_TD =? IFD_ATR_TS) with false. change (IFD_ATR_TD =? IFD_ATR_TD) with true.
  assert (Hr : ifd_xfr_read (Z.of_nat (length bs) - 1) (At (filled (pre ++ bs) b0)
    (MkAx IFD_ATR_TD tck k (Z.of_nat (length bs)) td (Z.of_nat (length pre + length bs))) x l s) = Ok (List.last bs 0)).
  { unfold ifd_xfr_read, rdb. cbn [i_buff i_xfr At set_i_buff set_i_ax set_i_xfr]. rewrite Hx.
    rewrite (proj2 (Z.ltb_ge _ _)) by lia. unfold rd. rewrite filled_lookup by (rewrite length_app; lia).
    rewrite lookup_app_r by lia. apply oob_Ok.
    replace (_ - length pre)%nat with (length bs - 1)%nat by lia. destruct bs as [|b bs _] using rev_ind; [cbn in Hn; lia|].
    rewrite List.last_last, length_app, lookup_app_r by (cbn; lia). cbn. by replace (length bs + 1 - 1 - length bs)%nat with 0%nat by lia. }
  change (set_i_buff (filled (pre ++ bs) b0) _) with (At (filled (pre ++ bs) b0)
    (MkAx IFD_ATR_TD tck k (Z.of_nat (length bs)) td (Z.of_nat (length pre + length bs))) x l s).
  unfold W. rewrite length_app. subst td'. destruct (has td TD_EXISTS); [rewrite Hr|]; reflexivity.
Qed.

Lemma count_y_max td : (count_y td <= 4)%nat.
Proof. unfold count_y. destruct (has td TA_EXISTS), (has td TB_EXISTS), (has td TC_EXISTS), (has td TD_EXISTS); cbn; lia. Qed.
Lemma split_groups_nil fuel td l : count_y td = 0%nat ->
  split_groups fuel td l = Some (MkIface None None None (TD_T td), [], l).
Proof.
  intros H. assert (Hs : split_own td [] = (MkIface None None None (TD_T td), [])).
  { unfold split_own. by destruct (has td TA_EXISTS), (has td TB_EXISTS), (has td TC_EXISTS). }
  destruct fuel; cbn [split_groups]; rewrite H; cbn [line_take mbind option_bind]; by rewrite Hs.
Qed.

Lemma groups_spec s b0 k : i_xev s = 0 -> i_expire s = ExAtr -> length b0 = length (i_buff s) ->
  Z.of_nat (length b0) < 2 ^ 15 -> forall fuelg td pre tck st x l fuel, byte_ok td -> line_ok l ->
  (length l <= fuelg)%nat -> (length pre + length l < length b0)%nat -> (length l < fuel)%nat ->
  let r := sync_loop C ifd_protos fuel (W pre b0 st tck k (ifd_atr_bytes td) td x l s) in
  match split_groups fuelg td l with
  | Some (g, rest, l') => exists st' x' td' fuel', (length l' < fuel')%nat /\
      r = sync_loop C ifd_protos fuel' (W (pre ++ body g rest) b0 st' (tck || iso_tck rest) k 0 td' x' l' s)
  | None => failed s r
  end.
Proof.
  intros Hx He Hb Hlb fuelg. induction fuelg as [|fuelg IH]; intros td pre tck st x l fuel Htd Hl Hlg Hpl Hf r.
  all: destruct (td_facts td Htd) as (Hy & _); subst r; pose proof (count_y_max td) as Hmax;
    destruct (decide (count_y td = 0)%nat) as [Ey|Ey].
  1,3: rewrite split_groups_nil by done; exists st, x, td, fuel; split; [done|]; rewrite Hy, Ey; cbn [body own_bytes];
    cbn; by rewrite app_nil_r, orb_false_r.
  all: destruct fuel as [|fuel]; [lia|]; rewrite (W_block _ _ _ _ _ _ _ _ _ _ (count_y td)) by (done || lia);
    pose proof (block_spec fuel s (MkAx IFD_ATR_TD tck k (ifd_atr_bytes td) td (Z.of_nat (length pre + count_y td)))
      b0 pre (count_y td) l Hx Hb ltac:(lia) Hpl ltac:(lia)) as Hbl; cbv zeta in Hbl; cbn [split_groups].
  - destruct l; [|cbn in Hlg; lia]. destruct (count_y td) as [|n] eqn:En; [done|]. exact Hbl.
  - destruct (line_take (count_y td) l) as [[bs l1]|] eqn:El; cbn [mbind option_bind]; [|exact Hbl].
    rewrite Hbl. apply line_take_inv in El as [-> Hbs]. apply line_ok_app in Hl as [Hbok Hl].
    rewrite Hy, <- Hbs. rewrite expire_TD by (done || lia). cbn [mbind res_mbind].
    destruct (split_own td bs) as [g bs'] eqn:Eo. apply split_own_inv in Eo as (-> & Ht & HA & HB & HC & HD); try done.
    rewrite ?length_app, ?length_map, ?length_app in *. destruct bs' as [|td' bs']; cbn [length] in *.
    + assert (has td TD_EXISTS = false) as -> by (by destruct (has td TD_EXISTS)).
      exists IFD_ATR_TD. eexists _, 0, fuel. split; [lia|]. cbn [body]. rewrite !app_nil_r. reflexivity.
    + assert (has td TD_EXISTS = true) as Hd by (by destruct (has td TD_EXISTS)). rewrite Hd in *.
      destruct bs'; [|done]. rewrite List.last_last. apply Forall_app in Hbok as [_ Hbok]. apply Forall_cons in Hbok as [Hb' _].
      match goal with |- context [W (pre ++ _) _ _ _ _ _ _ ?x _ _] =>
        specialize (IH td' (pre ++ own_bytes g ++ [td']) (tck || negb (TD_T td' =? SCS_PROTO_T0)) IFD_ATR_TD x
          l1 fuel Hb' Hl ltac:(lia) ltac:(rewrite ?length_app; cbn; lia) ltac:(lia)) end. cbv zeta in IH.
      destruct (split_groups fuelg td' l1) as [[[h rest] l2]|] eqn:Es; cbn [mbind option_bind]; [|exact IH].
      destruct IH as (st' & x' & td2 & fuel' & Hf' & ->). exists st', x', td2, fuel'. split; [done|]. f_equal.
      apply split_groups_inv in Es as (_ & Hh & Hig & _); [|done|done|lia]. cbn [body]. unfold iso_tck. cbn [existsb].
      rewrite Hh, <- Hh, (proj1 (proj2 (td_byte_facts h rest (proj1 Hig)))), Hh, <- orb_assoc. by rewrite <- !app_assoc.
Qed.

(** Reception complete: [bytes] are in the buffer, [l] is left on the line. *)
Definition received (bytes : list Z) (l : list line) s (r : res (ifd P)) : Prop :=
  exists a x, r = Ok (set_i_wake true (set_i_xev IFD_XCHG_EVENT_XFR_CMPL
    (set_i_nr (Z.of_nat (length bytes)) (At (filled bytes (i_buff s)) a x l s)))).

Lemma expire_other pre bs b0 st tck td x l s : i_expire s = ExAtr -> st = IFD_ATR_TK \/ st = IFD_ATR_TCK ->
  ifd_xfr_ne_expire ifd_protos (At (filled (pre ++ bs) b0)
    (MkAx st tck 0 0 td (Z.of_nat (length pre + length bs))) x l s) =
  Ok (W (pre ++ bs) b0 st tck 0 0 td x l s).
Proof.
  intros He Hst. unfold ifd_xfr_ne_expire. replace (i_expire _) with ExAtr by (by cbn). unfold W. rewrite length_app.
  unfold ifd_atr_expire. by destruct Hst as [-> | ->].
Qed.
Lemma W_end pre b0 st td x l s : i_xev s = 0 -> b0 = i_buff s -> forall fuel,
  received pre l s (sync_loop C ifd_protos fuel (W pre b0 st false 0 0 td x l s)).
Proof.
  intros Hx -> fuel. apply no_event in Hx as [s' ->]. rewrite sync_raised by reflexivity.
  exists (MkAx st false 0 0 td (Z.of_nat (length pre))), (MkXfr (xf_tx_start x) (xf_rx_start x) 0 0 0 0). reflexivity.
Qed.

Lemma tck_spec pre b0 st tck td x l s fuel : i_xev s = 0 -> i_expire s = ExAtr -> b0 = i_buff s ->
  Z.of_nat (length b0) < 2 ^ 15 -> (length pre + length l < length b0)%nat -> (length l < fuel)%nat ->
  let r := sync_loop C ifd_protos fuel (W pre b0 st tck 0 0 td x l s) in
  match line_take (if tck then 1 else 0)%nat l with
  | Some (bs, l') => received (pre ++ bs) l' s r
  | None => failed s r
  end.
Proof.
  intros Hx He Hb0 Hlb Hpl Hf r. subst r. destruct tck.
  2:{ cbn [line_take]. rewrite app_nil_r. by apply W_end. }
  destruct fuel as [|fuel]; [lia|].
  assert (E : W pre b0 st true 0 0 td x l s = At (filled pre b0) (MkAx IFD_ATR_TCK false 0 0 td (Z.of_nat (length pre + 1)))
    (MkXfr 0 (Z.of_nat (length pre)) 0 (Z.of_nat 1) 0 0) l s).
  { unfold W, __ifd_atr_expire. cbn [i_ax At set_i_buff set_i_ax ax_y ax_k ax_tck Z.eqb negb].
    unfold ifd_atr_xfr_block, upd_ax, __ifd_xfr_block. cbn. rewrite wrap_id by lia. by rewrite Nat2Z.inj_add. }
  rewrite E. pose proof (block_spec fuel s (MkAx IFD_ATR_TCK false 0 0 td (Z.of_nat (length pre + 1))) b0 pre 1 l Hx
    ltac:(by rewrite Hb0) ltac:(lia) Hpl ltac:(lia)) as Hbl. cbv zeta in Hbl.
  destruct (line_take 1 l) as [[bs l']|] eqn:El; [|exact Hbl]. rewrite Hbl. apply line_take_inv in El as [_ Hbs].
  rewrite <- Hbs at 1. rewrite expire_other by (auto; done). cbn [mbind res_mbind]. by apply W_end.
Qed.
Lemma hist_spec pre b0 st tck kn td x l s fuel : i_xev s = 0 -> i_expire s = ExAtr -> b0 = i_buff s ->
  Z.of_nat (length b0) < 2 ^ 15 -> (kn < 16)%nat -> (length pre + length l < length b0)%nat -> (length l < fuel)%nat ->
  let r := sync_loop C ifd_protos fuel (W pre b0 st tck (Z.of_nat kn) 0 td x l s) in
  match line_take kn l with
  | Some (bs, l') => exists st' x' fuel', (length l' < fuel')%nat /\
      r = sync_loop C ifd_protos fuel' (W (pre ++ bs) b0 st' tck 0 0 td x' l' s)
  | None => failed s r
  end.
Proof.
  intros Hx He Hb0 Hlb Hk Hpl Hf r. subst r. destruct (decide (kn = 0)%nat) as [->|Hk0].
  { cbn [line_take]. exists st, x, fuel. by rewrite app_nil_r. }
  destruct fuel as [|fuel]; [lia|].
  assert (E : W pre b0 st tck (Z.of_nat kn) 0 td x l s = At (filled pre b0) (MkAx IFD_ATR_TK tck 0 0 td (Z.of_nat (length pre + kn)))
    (MkXfr 0 (Z.of_nat (length pre)) 0 (Z.of_nat kn) 0 0) l s).
  { unfold W, __ifd_atr_expire. cbn [i_ax At set_i_buff set_i_ax ax_y ax_k Z.eqb negb].
    rewrite (proj2 (Z.eqb_neq _ 0)) by lia. cbn [negb].
    unfold ifd_atr_xfr_block, upd_ax, __ifd_xfr_block. cbn. rewrite wrap_id by lia. by rewrite Nat2Z.inj_add. }
  rewrite E. pose proof (block_spec fuel s (MkAx IFD_ATR_TK tck 0 0 td (Z.of_nat (length pre + kn))) b0 pre kn l Hx
    ltac:(by rewrite Hb0) ltac:(lia) Hpl ltac:(lia)) as Hbl. cbv zeta in Hbl.
  destruct (line_take kn l) as [[bs l']|] eqn:El; [|exact Hbl]. rewrite Hbl. apply line_take_inv in El as [-> Hbs].
  subst kn. rewrite expire_other by (auto; done). cbn [mbind res_mbind].
  eexists _, _, fuel. split; [|done]. rewrite length_app, length_map in Hf. lia.
Qed.

(** A reader that has started the reception of an answer to reset. *)
Definition atr_pending s : Prop :=
  i_xev s = 0 /\ i_expire s = ExAtr /\ ax_state (i_ax s) = IFD_ATR_TS /\ ax_rx (i_ax s) = 2 /\
  sl_tx (i_slot s) = 0 /\ sl_nc (i_slot s) = 0 /\ sl_rx (i_slot s) = 0 /\ sl_ne (i_slot s) = 2 /\
  Z.of_nat (length (i_buff s)) = IFD_BUF_SIZE.
Lemma reset_pending s : Z.of_nat (length (i_buff s)) = IFD_BUF_SIZE -> atr_pending (ifd_reset s).
Proof. intros H. by repeat split. Qed.

Lemma expire_TS ts td b0 a x l s : i_expire s = ExAtr -> ax_state a = IFD_ATR_TS -> ax_rx a = 2 -> xf_rx_start x = 0 ->
  ifd_xfr_ne_expire ifd_protos (At (filled [ts; td] b0) a x l s) =
  Ok (if ts =? sl_conv (i_slot s) then W [ts; td] b0 IFD_ATR_TS false (T0_K td) (ifd_atr_bytes td) td x l s
      else ifd_xchg_stop IFD_XCHG_EVENT_CONV_ERR (At (filled [ts; td] b0) a x l s)).
Proof.
  intros He Ha Hr Hx. unfold ifd_xfr_ne_expire. replace (i_expire _) with ExAtr by (by cbn). unfold ifd_atr_expire.
  cbn [i_ax At set_i_buff set_i_ax]. rewrite Ha. unfold ifd_xfr_read, W.
  cbn [i_xfr i_slot set_i_buff set_i_ax set_i_xfr set_i_line At]. rewrite Hx. cbn.
  change (rdb (ts :: td :: drop 2 b0) (0 + 0)) with (Ok ts). change (rdb (ts :: td :: drop 2 b0) (0 + 1)) with (Ok td).
  cbn [mbind res_mbind]. destruct (ts =? _); [|reflexivity]. cbn [negb]. do 2 f_equal. unfold upd_ax. cbn.
  destruct a; cbn in *. by subst.
Qed.

(** Reception takes from the line exactly the bytes of an answer to reset that begins with
    the convention the slot is set to, or ends with an event. *)
Lemma receive_spec s : atr_pending s -> let l := c_atr C (i_hw s) in line_ok l ->
  (length l < 256)%nat ->
  match split_atr (sl_conv (i_slot s)) l with
  | Some (a, l') => received (atr_bytes a) l' s (ifd_xchg_sync C ifd_protos s)
  | None => failed s (ifd_xchg_sync C ifd_protos s)
  end.
Proof.
  intros (Hx & He & Ha & Hr & Htx & Hnc & Hrx & Hne & Hb) l Hl Hlen. unfold ifd_xchg_sync.
  assert (E : ifd_xchg_start C s = At (filled [] (i_buff s)) (i_ax s) (MkXfr 0 0 0 2 0 0) l s).
  { unfold ifd_xchg_start. rewrite Hnc. cbn. by rewrite Htx, Hnc, Hrx, Hne. }
  rewrite E. change (i_line _) with l. unfold IFD_BUF_SIZE in Hb. set (b0 := i_buff s).
  assert (Hlb : Z.of_nat (length b0) < 2 ^ 15) by (unfold b0; lia).
  pose proof (block_spec (S (length l)) s (i_ax s) b0 [] 2 l Hx eq_refl ltac:(lia) ltac:(cbn; unfold b0; lia) ltac:(lia)) as Hbl.
  cbv zeta in Hbl. change (MkXfr 0 (Z.of_nat (length [])) 0 (Z.of_nat 2) 0 0) with (MkXfr 0 0 0 2 0 0) in Hbl.
  unfold split_atr. destruct (line_take 2 l) as [[bs l1]|] eqn:El; cbn [mbind option_bind]; [|exact Hbl].
  rewrite Hbl. apply line_take_inv in El as [Ell Hbs]. rewrite Ell in Hl, Hlen. rewrite Ell. clear Hbl Ell l E.
  destruct bs as [|ts [|td [|]]]; try done. cbn [app]. rewrite expire_TS by done. cbn [mbind res_mbind].
  apply line_ok_app in Hl as [Hbok Hl]. rewrite length_app in *. cbn [map length] in *.
  apply Forall_cons in Hbok as [_ Hbok]. apply Forall_cons in Hbok as [Htd _].
  destruct (Z.eqb_spec ts (sl_conv (i_slot s))) as [->|Hts].
  2:{ apply no_event in Hx as [s' ->]. rewrite stop_At, sync_raised by done. exists IFD_XCHG_EVENT_CONV_ERR.
      eexists _, _, _, _. split; [by left|]. split; [|done]. apply filled_length. cbn. unfold b0 in Hlb. cbn in *. lia. }
  match goal with |- context [W ?pre b0 ?st ?tck ?k ?y td ?x l1 s] =>
    pose proof (groups_spec s b0 k Hx He eq_refl Hlb (length l1) td pre tck st x l1 (S (2 + length l1)) Htd Hl
      ltac:(lia) ltac:(cbn; unfold b0; lia) ltac:(lia)) as Hg end. cbv zeta in Hg.
  destruct (split_groups (length l1) td l1) as [[[g rest] l2]|] eqn:Es; cbn [mbind option_bind]; [|exact Hg].
  destruct Hg as (st' & x' & td' & fuel' & Hf & ->). apply split_groups_inv in Es as (-> & Htdb & Hig & Hrest); [|done..].
  destruct (td_facts td Htd) as (_ & Hr16 & HK & _). pose proof (td_byte_facts g rest (proj1 Hig)) as (_ & HT & _).
  rewrite length_app, length_map in Hlen.
  assert (EK : T0_K td = Z.of_nat (Z.to_nat (it g))) by (rewrite HK, <- Htdb, HT; destruct Hig; lia). rewrite EK.
  cbn [orb]. match goal with |- context [W ?pre b0 ?st ?tck _ 0 ?t ?x l2 s] =>
    pose proof (hist_spec pre b0 st tck (Z.to_nat (it g)) t x l2 s fuel' Hx He eq_refl Hlb
      ltac:(destruct Hig; lia) ltac:(rewrite ?length_app; cbn; unfold b0; lia) Hf) as Hh end. cbv zeta in Hh.
  destruct (line_take (Z.to_nat (it g)) l2) as [[hist l3]|] eqn:E3; cbn [mbind option_bind]; [|exact Hh].
  destruct Hh as (st2 & x2 & f2 & Hf2 & ->). apply line_take_inv in E3 as [-> Hh]. rewrite length_app, length_map in Hlen.
  match goal with |- context [W ?pre b0 ?st ?tck 0 0 ?t ?x l3 s] =>
    pose proof (tck_spec pre b0 st tck t x l3 s f2 Hx He eq_refl Hlb
      ltac:(rewrite ?length_app; cbn; unfold b0; lia) Hf2) as Ht end. cbv zeta in Ht.
  destruct (line_take _ l3) as [[tck l4]|]; cbn [mbind option_bind]; [|exact Ht].
  unfold atr_bytes. cbn [a_ts a_first a_rest a_hist a_tck]. rewrite Htdb. cbn [app] in Ht. by rewrite <- app_assoc in Ht.
Qed.
End Reception.

(** ** Parsing *)
Section Parsing.
Context {P : Type} (ifd_protos : list (ifd_proto P)).
Implicit Types (s : ifd P).

(** The groups the parser looks at: a last TD that announces no bytes is not seen. *)
Fixpoint used (rest : list iface) : list iface :=
  match rest with
  | [] => []
  | g :: rest => if Nat.eqb (count_y (td_byte g rest)) 0 then [] else g :: used rest
  end.
(** The parser's idea of the presence of TCK. *)
Definition code_tck (rest : list iface) : bool :=
  existsb (fun g => negb (it g =? IFD_GLOBAL_T15) && negb (it g =? SCS_PROTO_T0)) (used rest).
Definition supported (t : Z) : bool := match proto_index t ifd_protos 0 with Some _ => true | None => false end.

(** What [ifd_atr_parse_t] makes of a group. *)
Definition slot_t (l : ifd_slot) (g : iface) : ifd_slot :=
  if it g =? IFD_GLOBAL_T15 then
    let l := set_sl_flags (sl_flags l ||| IFD_FLAG_GT_USE_IND_FD) l in
    match ia g with
    | Some ta => set_sl_ind_cls (ta &&& IFD_CLASS_MASK) (set_sl_clk_stop (ta &&& IFD_CLOCK_STOP_MASK) l)
    | None => l
    end
  else if supported (it g) then set_sl_ind_protos (sl_ind_protos l ||| (1 <<< it g)) l else l.
(** What the first two groups say. *)
Definition slot_1 (g : iface) (rest : list iface) (l : ifd_slot) : ifd_slot :=
  let l := match ia g with Some ta => set_sl_ind_fd ta l | None => l end in
  let l := match ic g with Some tc => set_sl_n tc l | None => l end in
  match rest with h :: _ => set_sl_first_proto (it h) l | [] => l end.
Definition slot_2 (rest : list iface) (l : ifd_slot) : ifd_slot :=
  match rest with
  | h :: _ =>
      match ia h with
      | Some ta =>
          let l := set_sl_info_xchg IFD_INFO_XCHG_SPECIFIC l in
          let l := if has ta 0x10 then l else set_sl_spec_fd (sl_ind_fd l) l in
          let l := if has ta 0x80 then l else set_sl_flags (sl_flags l ||| IFD_FLAG_SPEC_CAP_CHANGE) l in
          set_sl_spec_proto (TD_T ta) l
      | None => l
      end
  | [] => l
  end.
Definition slot_0 (l : ifd_slot) : ifd_slot :=
  set_sl_ind_protos 0 (set_sl_spec_fd IFD_FD_IMPLICIT (set_sl_spec_proto IFD_PROTO_INVALID
    (set_sl_first_proto SCS_PROTO_T0 (set_sl_ind_fd IFD_FD_IMPLICIT (set_sl_flags 0
    (set_sl_info_xchg IFD_INFO_XCHG_NEGO_1ST l)))))).
Definition atr_slot (a : atr) (l : ifd_slot) : ifd_slot :=
  foldl slot_t (slot_2 (a_rest a) (slot_1 (a_first a) (a_rest a) (slot_0 l))) (used (a_rest a)).
Definition xor_bytes (c : Z) (bs : list Z) : Z := foldl Z.lxor c bs.
Definition atr_result (a : atr) : Z :=
  if code_tck (a_rest a)
  then if xor_bytes 0 (tail (atr_bytes a)) =? 0 then SCS_ERR_SUCCESS else IFD_ERR_BAD_TCK
  else if iso_tck (a_rest a) then SCS_ERR_OVERRUN else SCS_ERR_SUCCESS.

(** [s] with the parts of the state that the parser changes. *)
Definition Pa (ap : ifd_atr_parser) (l : ifd_slot) (q : P) s : ifd P := set_i_ap ap (set_i_slot l (set_i_p q s)).
Definition holds (bytes : list Z) s : Prop := exists more, i_buff s = bytes ++ more.

Lemma upd_ap_Pa f a l q s : upd_ap f (Pa a l q s) = Pa (f a) l q s.
Proof. reflexivity. Qed.
Lemma i_ap_Pa a l q s : i_ap (Pa a l q s) = a.
Proof. reflexivity. Qed.
Lemma i_slot_Pa a l q s : i_slot (Pa a l q s) = l.
Proof. reflexivity. Qed.
Lemma read_opt bytes s pre o post ta tb tc td tl c k l q : holds bytes s -> bytes = pre ++ opt_bytes o ++ post ->
  (length bytes <= 255)%nat ->
  atr_read_if (is_some o) (Pa (MkAp ta tb tc td tl (Z.of_nat (length pre)) c k) l q s) =
  Ok (default 0 o, Pa (MkAp ta tb tc td tl (Z.of_nat (length (pre ++ opt_bytes o))) (xor_bytes c (opt_bytes o)) k) l q s).
Proof.
  intros [more Hb] -> Hl. destruct o as [b|]; cbn [is_some opt_bytes atr_read_if]; [|by rewrite app_nil_r].
  rewrite !length_app in Hl. cbn in Hl. unfold ifd_atr_read, ifd_xchg_read, rdb.
  cbn [ap_len i_ap i_buff Pa set_i_ap set_i_slot set_i_p]. rewrite (proj2 (Z.ltb_ge _ 0)) by lia.
  unfold rd. cbn [opt_bytes app] in Hb. rewrite Hb, Nat2Z.id. cbn [app]. rewrite <- !app_assoc. cbn [app]. rewrite list_lookup_middle by done. cbn.
  unfold upd_ap. cbn. rewrite wrap_id, length_app by lia. cbn. by rewrite Nat2Z.inj_add.
Qed.

Definition next (rest : list iface) : option Z := match rest with h :: rest => Some (td_byte h rest) | [] => None end.
Lemma body_next g rest : body g rest = own_bytes g ++ opt_bytes (next rest) ++ match rest with [] => [] | h :: r => body h r end.
Proof. by destruct rest; cbn [body next opt_bytes app]; rewrite ?app_nil_r. Qed.
Definition ap_after (g : iface) (rest : list iface) (a : ifd_atr_parser) (pre : list Z) : ifd_atr_parser :=
  let td := td_byte g rest in
  if Nat.eqb (count_y td) 0 then set_ap_td_last td a
  else MkAp (default 0 (ia g)) (default 0 (ib g)) (default 0 (ic g)) (default 0 (next rest)) td
    (Z.of_nat (length (pre ++ own_bytes g ++ opt_bytes (next rest))))
    (xor_bytes (ap_csum a) (own_bytes g ++ opt_bytes (next rest))) (ap_tck_exists a).

Lemma ibyte_spec bytes s g rest pre post a l q : holds bytes s -> (length bytes <= 255)%nat -> 0 <= it g < 16 ->
  bytes = pre ++ own_bytes g ++ opt_bytes (next rest) ++ post -> ap_td a = td_byte g rest ->
  ap_len a = Z.of_nat (length pre) ->
  ifd_atr_read_ibyte (Pa a l q s) = Ok (TD_Y (td_byte g rest), Pa (ap_after g rest a pre) l q s).
Proof.
  intros Hh Hl Ht -> Htd Hlen. destruct (td_byte_facts g rest Ht) as (Hok & HT & HA & HB & HC & HD).
  destruct (td_facts _ Hok) as (_ & _ & _ & _ & Hy0 & YA & YB & YC & YD). destruct a as [ta tb tc td tl len c k].
  cbn in Htd, Hlen. subst td len. unfold ifd_atr_read_ibyte, ap_after. rewrite upd_ap_Pa, i_ap_Pa.
  cbn [set_ap_td_last ap_td ap_td_last ap_len ap_csum ap_tck_exists ap_ta ap_tb ap_tc]. rewrite Hy0.
  destruct (Nat.eqb_spec (count_y (td_byte g rest)) 0) as [E|E].
  { done. }
  rewrite YA, YB, YC, YD, HA, HB, HC, HD. unfold own_bytes in *. rewrite <- !app_assoc in *.
  assert (Hnx : is_some (head rest) = is_some (next rest)) by (by destruct rest). rewrite Hnx.
  set (B := pre ++ _) in Hh, Hl.
  unfold set_ap_td_last. cbn [ap_ta ap_tb ap_tc ap_td ap_len ap_csum ap_tck_exists].
  rewrite (read_opt B s pre (ia g) _ _ _ _ _ _ _ _ _ _ Hh eq_refl Hl). cbn [mbind res_mbind]. rewrite upd_ap_Pa. unfold set_ap_ta. cbn [ap_ta ap_tb ap_tc ap_td ap_td_last ap_len ap_csum ap_tck_exists].
  rewrite (read_opt B s (pre ++ opt_bytes (ia g)) (ib g) (opt_bytes (ic g) ++ opt_bytes (next rest) ++ post) _ _ _ _ _ _ _ _ _ Hh
    ltac:(by rewrite <- !app_assoc) Hl). cbn [mbind res_mbind]. rewrite upd_ap_Pa. unfold set_ap_tb. cbn [ap_ta ap_tb ap_tc ap_td ap_td_last ap_len ap_csum ap_tck_exists].
  rewrite (read_opt B s ((pre ++ opt_bytes (ia g)) ++ opt_bytes (ib g)) (ic g) (opt_bytes (next rest) ++ post) _ _ _ _ _ _ _ _ _ Hh
    ltac:(by rewrite <- !app_assoc) Hl). cbn [mbind res_mbind]. rewrite upd_ap_Pa. unfold set_ap_tc. cbn [ap_ta ap_tb ap_tc ap_td ap_td_last ap_len ap_csum ap_tck_exists].
  rewrite (read_opt B s (((pre ++ opt_bytes (ia g)) ++ opt_bytes (ib g)) ++ opt_bytes (ic g)) (next rest) post _ _ _ _ _ _ _ _ _ Hh
    ltac:(by rewrite <- !app_assoc) Hl). cbn [mbind res_mbind]. rewrite upd_ap_Pa.
  unfold set_ap_td, xor_bytes. cbn [ap_ta ap_tb ap_tc ap_td_last ap_len ap_csum ap_tck_exists]. by rewrite <- !app_assoc, !foldl_app.
Qed.

Definition group_tck (g : iface) : bool := negb (it g =? IFD_GLOBAL_T15) && negb (it g =? SCS_PROTO_T0).
Lemma parse_t_spec a l q s g rest : 0 <= it g < 16 -> ap_td_last a = td_byte g rest -> ap_ta a = default 0 (ia g) ->
  exists q', ifd_atr_parse_t ifd_protos (Pa a l q s) =
    Pa (set_ap_tck_exists (ap_tck_exists a || group_tck g) a) (slot_t l g) q' s.
Proof.
  intros Ht Htd Hta. destruct (td_byte_facts g rest Ht) as (Hok & HT & HA & _).
  destruct (td_facts _ Hok) as (_ & _ & _ & _ & _ & YA & _). unfold ifd_atr_parse_t. rewrite i_ap_Pa, Htd, HT.
  unfold slot_t, group_tck, supported. destruct (it g =? IFD_GLOBAL_T15).
  - exists q. unfold ifd_atr_parse_gbyte15. rewrite YA, HA. cbn [negb andb]. rewrite orb_false_r.
    unfold upd_slot. cbn [i_slot Pa set_i_ap set_i_slot i_ap]. rewrite Hta.
    destruct (ia g); cbn [is_some default]; destruct a; reflexivity.
  - cbn [negb andb]. assert (E : (if ap_tck_exists (i_ap (Pa a l q s)) then Pa a l q s
      else upd_ap (set_ap_tck_exists (negb (it g =? SCS_PROTO_T0))) (Pa a l q s)) =
      Pa (set_ap_tck_exists (ap_tck_exists a || negb (it g =? SCS_PROTO_T0)) a) l q s).
    { rewrite i_ap_Pa. destruct a as [? ? ? ? ? ? ? []]; reflexivity. }
    rewrite i_ap_Pa in E. rewrite E. destruct (proto_index (it g) ifd_protos 0) as [[i pr]|]; eexists; reflexivity.
Qed.

Lemma td_byte_zero : td_byte (MkIface None None None 0) [] = 0.
Proof. reflexivity. Qed.
(** After the last group the parser finds no more bytes announced. *)
Lemma ibyte_end bytes s pre post a l q : holds bytes s -> (length bytes <= 255)%nat -> bytes = pre ++ post ->
  ap_td a = 0 -> ap_len a = Z.of_nat (length pre) ->
  ifd_atr_read_ibyte (Pa a l q s) = Ok (0, Pa (set_ap_td_last 0 a) l q s).
Proof. intros. by rewrite (ibyte_spec bytes s (MkIface None None None 0) [] pre post) by done. Qed.

Lemma body_length g rest : (length rest <= length (body g rest))%nat.
Proof. revert g. induction rest as [|h r IH]; intros g; cbn; [lia|]. rewrite length_app. cbn. specialize (IH h). lia. Qed.
Definition behind (rest : list iface) : list Z := match rest with [] => [] | h :: r => body h r end.
Lemma empty_group g rest : 0 <= it g < 16 -> count_y (td_byte g rest) = 0%nat -> own_bytes g = [] /\ rest = [].
Proof. intros Ht H. rewrite count_y_bytes in H by done. destruct rest, (own_bytes g); cbn in H; done || lia. Qed.

Lemma loop_spec bytes s post : holds bytes s -> (length bytes <= 255)%nat -> forall rest g fuel pre a l q,
  iface_ok g -> Forall iface_ok rest -> bytes = pre ++ behind rest ++ post -> (length rest < fuel)%nat ->
  ap_td_last a = td_byte g rest -> ap_ta a = default 0 (ia g) -> ap_td a = default 0 (next rest) ->
  ap_len a = Z.of_nat (length pre) -> count_y (td_byte g rest) <> 0%nat ->
  exists a' q', atr_parse_loop ifd_protos fuel (TD_Y (td_byte g rest)) (Pa a l q s) =
      Ok (Pa a' (foldl slot_t l (g :: used rest)) q' s) /\
    ap_len a' = Z.of_nat (length (pre ++ behind rest)) /\ ap_csum a' = xor_bytes (ap_csum a) (behind rest) /\
    ap_tck_exists a' = (ap_tck_exists a || existsb group_tck (g :: used rest)).
Proof.
  intros Hh Hl rest. induction rest as [|h r IH]; intros g fuel pre a l q Hg Hr Hb Hf Hlast Hta Htd Hlen Hc;
    (destruct fuel as [|fuel]; [cbn in Hf; lia|]);
    match type of Hlast with _ = td_byte g ?r => destruct (td_byte_facts g r (proj1 Hg)) as (Hok & _) end;
    destruct (td_facts _ Hok) as (_ & _ & _ & _ & Hy & _); cbn [atr_parse_loop]; rewrite Hy, (proj2 (Nat.eqb_neq _ 0)) by exact Hc;
    destruct (parse_t_spec a l q s g _ (proj1 Hg) Hlast Hta) as [q1 ->]; set (a1 := set_ap_tck_exists _ a).
  - rewrite (ibyte_end bytes s pre post) by done. cbn [mbind res_mbind]. eexists _, q1.
    split; [destruct fuel; reflexivity|]. cbn [behind]. rewrite app_nil_r. cbn. by rewrite orb_false_r.
  - apply Forall_cons in Hr as [Hih Hr]. cbn [behind] in *. rewrite body_next, <- !app_assoc in Hb.
    rewrite (ibyte_spec bytes s h r pre (behind r ++ post)) by (try done; destruct Hih; done). cbn [mbind res_mbind].
    cbn [used]. unfold ap_after. destruct (Nat.eqb_spec (count_y (td_byte h r)) 0) as [E|E].
    + destruct (empty_group h r (proj1 Hih) E) as [Ho ->].
      destruct (td_byte_facts h [] (proj1 Hih)) as (Hokh & _). destruct (td_facts _ Hokh) as (_ & _ & _ & _ & Hyh & _).
      rewrite E in Hyh. apply Z.eqb_eq in Hyh. rewrite Hyh. eexists _, q1. split; [destruct fuel; reflexivity|].
      rewrite body_next, Ho. cbn. by rewrite app_nil_r, orb_false_r.
    + match goal with |- context [Pa ?b _ _ _] => edestruct (IH h fuel (pre ++ own_bytes h ++ opt_bytes (next r)) b (slot_t l g) q1)
        as (a' & q' & -> & Hlen' & Hcs & Htk) end; try done.
      { by rewrite <- !app_assoc. } { cbn in Hf. lia. }
      exists a', q'. split; [done|]. rewrite Hlen', Hcs, Htk, body_next. unfold xor_bytes. cbn [ap_csum ap_tck_exists].
      rewrite <- !app_assoc, !foldl_app. split; [done|]. split; [done|]. subst a1. cbn. by rewrite !orb_assoc.
Qed.

Lemma gbyte1_spec a l q s g rest : iface_ok g -> Forall iface_ok rest -> ap_ta a = default 0 (ia g) ->
  ap_tc a = default 0 (ic g) -> ap_td a = default 0 (next rest) ->
  ifd_atr_parse_gbyte1 (TD_Y (td_byte g rest)) (Pa a l q s) = Pa a (slot_1 g rest l) q s.
Proof.
  intros Hg Hr Hta Htc Htd. destruct (td_byte_facts g rest (proj1 Hg)) as (Hok & _ & HA & _ & HC & HD).
  destruct (td_facts _ Hok) as (_ & _ & _ & _ & _ & YA & _ & YC & YD). unfold ifd_atr_parse_gbyte1, slot_1.
  rewrite YA, YC, YD, HA, HC, HD. destruct a as [ta tb tc td tl len c k]. cbn in Hta, Htc, Htd. subst.
  assert (HT : forall h r, rest = h :: r -> TD_T (td_byte h r) = it h).
  { intros h r ->. apply Forall_cons in Hr as [[Hh _] _]. by destruct (td_byte_facts h r Hh) as (_ & ? & _). }
  destruct (ia g), (ic g), rest as [|h r]; cbn [is_some head default next]; try reflexivity.
  all: rewrite <- (HT h r eq_refl); reflexivity.
Qed.
Lemma gbyte2_spec a l q s h r : iface_ok h -> ap_ta a = default 0 (ia h) ->
  ifd_atr_parse_gbyte2 (TD_Y (td_byte h r)) (Pa a l q s) = Pa a (slot_2 (h :: r) l) q s.
Proof.
  intros Hg Hta. destruct (td_byte_facts h r (proj1 Hg)) as (Hok & _ & HA & _).
  destruct (td_facts _ Hok) as (_ & _ & _ & _ & _ & YA & _). unfold ifd_atr_parse_gbyte2, slot_2. rewrite YA, HA, i_ap_Pa, Hta.
  destruct (ia h) as [ta|]; cbn [is_some default]; [|done]. change (id ta) with ta. destruct (has ta 0x10), (has ta 0x80); reflexivity.
Qed.

Lemma skip_spec bytes s l q post hist : holds bytes s -> (length bytes <= 255)%nat -> forall pre a,
  bytes = pre ++ hist ++ post -> ap_len a = Z.of_nat (length pre) ->
  exists a', atr_skip (length hist) (Pa a l q s) = Ok (Pa a' l q s) /\ ap_len a' = Z.of_nat (length (pre ++ hist)) /\
    ap_csum a' = xor_bytes (ap_csum a) hist /\ ap_tck_exists a' = ap_tck_exists a.
Proof.
  intros Hh Hl. induction hist as [|b hist IH]; intros pre a Hb Hlen; cbn [atr_skip length].
  { exists a. by rewrite app_nil_r. }
  destruct a as [ta tb tc td tl len c k]. cbn in Hlen. subst len.
  pose proof (read_opt bytes s pre (Some b) (hist ++ post) ta tb tc td tl c k l q Hh Hb Hl) as Hrd. cbn [atr_read_if is_some] in Hrd.
  rewrite Hrd. cbn [mbind res_mbind]. cbn [opt_bytes].
  destruct (IH (pre ++ [b]) (MkAp ta tb tc td tl (Z.of_nat (length (pre ++ [b]))) (xor_bytes c [b]) k)
    ltac:(by rewrite <- app_assoc) eq_refl) as (a' & -> & ? & Hc & ?).
  exists a'. cbn in *. rewrite <- app_assoc in *. done.
Qed.

Lemma code_tck_iso rest : code_tck rest = true -> iso_tck rest = true.
Proof.
  unfold code_tck, iso_tck. rewrite !existsb_exists. intros (g & Hin & Hg). apply andb_true_iff in Hg as [_ Hg].
  exists g. split; [|done]. clear Hg. induction rest as [|h r IH]; cbn in Hin |- *; [done|].
  destruct (Nat.eqb _ 0); [done|]. destruct Hin as [->|Hin]; auto.
Qed.
Lemma existsb_used rest : existsb group_tck (used rest) = code_tck rest.
Proof. done. Qed.

(** The interface bytes: behind them the parser stands at the historical bytes. *)
Lemma ifaces_spec bytes s pre post g rest a l q : holds bytes s -> (length bytes <= 255)%nat ->
  iface_ok g -> Forall iface_ok rest -> bytes = pre ++ body g rest ++ post ->
  ap_td a = td_byte g rest -> ap_len a = Z.of_nat (length pre) -> ap_tck_exists a = false ->
  exists a' q', ('(y, s) ← ifd_atr_read_ibyte (Pa a l q s);
      let s := ifd_atr_parse_gbyte1 y s in
      if y =? 0 then Ok s
      else '(y, s) ← ifd_atr_read_ibyte s; atr_parse_loop ifd_protos 256 y (ifd_atr_parse_gbyte2 y s)) =
    Ok (Pa a' (foldl slot_t (slot_2 rest (slot_1 g rest l)) (used rest)) q' s) /\
    ap_len a' = Z.of_nat (length (pre ++ body g rest)) /\ ap_csum a' = xor_bytes (ap_csum a) (body g rest) /\
    ap_tck_exists a' = code_tck rest.
Proof.
  intros Hh Hl Hg Hr Hb Htd Hlen Htk. rewrite body_next in Hb |- *. fold (behind rest) in Hb |- *. rewrite <- !app_assoc in Hb.
  rewrite (ibyte_spec bytes s g rest pre (behind rest ++ post)) by (try done; destruct Hg; done). cbn [mbind res_mbind].
  destruct (td_byte_facts g rest (proj1 Hg)) as (Hok & _). destruct (td_facts _ Hok) as (_ & _ & _ & _ & Hy & _).
  unfold ap_after. rewrite Hy. destruct (Nat.eqb_spec (count_y (td_byte g rest)) 0) as [E|E].
  { destruct (empty_group g rest (proj1 Hg) E) as [Ho ->]. apply Z.eqb_eq in Hy. rewrite Hy. rewrite Ho. exists (set_ap_td_last (td_byte g []) a), q.
    cbn [behind opt_bytes next app]. rewrite !app_nil_r. split; [|done].
    assert (ia g = None /\ ic g = None) as [Ha Hc] by (unfold own_bytes in Ho; by destruct (ia g), (ib g), (ic g)).
    unfold slot_1. by rewrite Ha, Hc. }
  rewrite gbyte1_spec by done. destruct rest as [|h r].
  - rewrite (ibyte_end bytes s (pre ++ own_bytes g) post) by (try done; cbn in *; by rewrite ?app_nil_r, <- ?app_assoc).
    cbn [mbind res_mbind behind next opt_bytes app used foldl slot_2]. eexists _, q. rewrite !app_nil_r. done.
  - apply Forall_cons in Hr as [Hih Hr]. cbn [behind next opt_bytes] in *. rewrite body_next in Hb |- *. fold (behind r) in Hb |- *.
    match goal with |- context [ifd_atr_read_ibyte (Pa ?b _ _ _)] => set (a1 := b) end.
    rewrite (ibyte_spec bytes s h r (pre ++ own_bytes g ++ [td_byte h r]) (behind r ++ post))
      by (try done; try (destruct Hih; done); by rewrite <- !app_assoc in *). cbn [mbind res_mbind].
    destruct (td_byte_facts h r (proj1 Hih)) as (Hokh & _). destruct (td_facts _ Hokh) as (_ & _ & _ & _ & Hyh & _).
    unfold ap_after. cbn [used]. destruct (Nat.eqb_spec (count_y (td_byte h r)) 0) as [Eh|Eh].
    + destruct (empty_group h r (proj1 Hih) Eh) as [Ho ->].
      assert (ia h = None) as Ha by (unfold own_bytes in Ho; by destruct (ia h), (ib h), (ic h)).
      assert (slot_2 [h] (slot_1 g [h] l) = slot_1 g [h] l) as Hs2 by (unfold slot_2; by rewrite Ha). rewrite Hs2.
      apply Z.eqb_eq in Hyh. rewrite Hyh. exists (set_ap_td_last (td_byte h []) a1), q. split; [reflexivity|].
      rewrite Ho. subst a1. cbn. rewrite ?app_nil_r. unfold code_tck. cbn [used]. by rewrite Eh.
    + rewrite gbyte2_spec by done.
      match goal with |- context [atr_parse_loop _ _ _ (Pa ?b ?l1 _ _)] =>
        edestruct (loop_spec bytes s post Hh Hl r h 256 ((pre ++ own_bytes g ++ [td_byte h r]) ++ own_bytes h ++ opt_bytes (next r))
          b l1 q) as (a' & q' & Hlp & Hlen' & Hcs & Htk'); try done end.
      { by rewrite <- !app_assoc in *. }
      { rewrite Hb, !length_app in Hl. cbn in Hl. pose proof (body_length h r). rewrite body_next, !length_app in H. fold (behind r) in H. lia. }
      exists a', q'. split; [exact Hlp|]. rewrite Hlen', Hcs, Htk'. subst a1. unfold xor_bytes. cbn [ap_csum ap_tck_exists].
      rewrite <- !app_assoc, !foldl_app. cbn [app]. unfold code_tck. cbn [used]. rewrite (proj2 (Nat.eqb_neq _ 0)) by exact Eh.
      rewrite Htk. done.
Qed.

Lemma check_tck_spec bytes s pre tck a l q : holds bytes s -> (length bytes <= 255)%nat -> bytes = pre ++ tck ->
  ap_len a = Z.of_nat (length pre) -> (length tck <= 1)%nat -> (ap_tck_exists a = true -> length tck = 1%nat) ->
  i_nr s = Z.of_nat (length bytes) ->
  exists a', ('(bad, s) ← atr_check_tck (Pa a l q s);
      Ok (if (bad : bool) then IFD_ERR_BAD_TCK
          else if negb (i_nr s =? ap_len (i_ap s)) then SCS_ERR_OVERRUN else SCS_ERR_SUCCESS, s)) =
    Ok (if ap_tck_exists a then if xor_bytes (ap_csum a) tck =? 0 then SCS_ERR_SUCCESS else IFD_ERR_BAD_TCK
        else match tck with [] => SCS_ERR_SUCCESS | _ => SCS_ERR_OVERRUN end, Pa a' l q s).
Proof.
  intros Hh Hl Hb Hlen H1 Hk Hnr. destruct a as [ta tb tc td tl len c k]. cbn in Hlen, Hk. subst len.
  unfold atr_check_tck. rewrite i_ap_Pa. cbn [ap_tck_exists ap_csum]. destruct k.
  - destruct tck as [|b [|]]; try (cbn in *; lia || by specialize (Hk eq_refl)).
    pose proof (read_opt bytes s pre (Some b) [] ta tb tc td tl c true l q Hh Hb Hl) as Hrd. cbn [atr_read_if is_some] in Hrd.
    rewrite Hrd. cbn [mbind res_mbind]. rewrite !i_ap_Pa. cbn [opt_bytes ap_csum ap_len].
    eexists. change (i_nr (Pa _ _ _ s)) with (i_nr s). rewrite Hnr, Hb, Z.eqb_refl. by destruct (xor_bytes c [b] =? 0).
  - cbn [mbind res_mbind]. rewrite i_ap_Pa. cbn [ap_len]. change (i_nr (Pa _ _ _ s)) with (i_nr s). rewrite Hnr, Hb, length_app.
    eexists. destruct tck as [|b tck]; cbn [length].
    + by rewrite Nat.add_0_r, Z.eqb_refl.
    + by rewrite (proj2 (Z.eqb_neq _ _)) by lia.
Qed.

Lemma fold_slot_t u : forall l, let l' := foldl slot_t l u in
  sl_ind_fd l' = sl_ind_fd l /\ sl_n l' = sl_n l /\ sl_first_proto l' = sl_first_proto l /\ sl_info_xchg l' = sl_info_xchg l /\
  sl_spec_proto l' = sl_spec_proto l /\
  (Forall iface_ok u -> forall t, 0 <= t < 16 -> Z.testbit (sl_ind_protos l') t =
     (Z.testbit (sl_ind_protos l) t || existsb (fun g => negb (it g =? IFD_GLOBAL_T15) && supported (it g) && (it g =? t)) u)).
Proof.
  induction u as [|g u IH]; intros l; cbn [foldl existsb]; [by repeat split; intros; rewrite ?orb_false_r|].
  destruct (IH (slot_t l g)) as (-> & -> & -> & -> & -> & Hp). unfold slot_t in *.
  destruct (it g =? IFD_GLOBAL_T15); [destruct (ia g); repeat split; intros Hu t Ht; apply Forall_cons in Hu as [_ Hu]; by rewrite Hp|].
  destruct (supported (it g)); cbn [negb andb].
  - repeat split. intros Hu t Ht. apply Forall_cons in Hu as [[Hg _] Hu]. rewrite Hp by done. cbn [sl_ind_protos set_sl_ind_protos].
    rewrite Z.lor_spec, <- orb_assoc. f_equal. f_equal. rewrite Z.shiftl_1_l.
    destruct (Z.eqb_spec (it g) t) as [->|]; [by rewrite Z.pow2_bits_true by lia|by rewrite Z.pow2_bits_false].
  - repeat split. intros Hu t Ht. apply Forall_cons in Hu as [_ Hu]. by rewrite Hp.
Qed.

Lemma used_ok rest : Forall iface_ok rest -> Forall iface_ok (used rest).
Proof. induction 1 as [|g r ? ? IH]; cbn [used]; [done|]. destruct (Nat.eqb _ 0); [done|by constructor]. Qed.
Lemma slot_12 g rest l : let l' := slot_2 rest (slot_1 g rest (slot_0 l)) in
  sl_ind_fd l' = default IFD_FD_IMPLICIT (ia g) /\ sl_n l' = default (sl_n l) (ic g) /\
  sl_first_proto l' = default SCS_PROTO_T0 (it <$> head rest) /\
  sl_info_xchg l' = match head rest ≫= ia with Some _ => IFD_INFO_XCHG_SPECIFIC | None => IFD_INFO_XCHG_NEGO_1ST end /\
  sl_spec_proto l' = default IFD_PROTO_INVALID (TD_T <$> (head rest ≫= ia)) /\ sl_ind_protos l' = 0.
Proof.
  unfold slot_1, slot_2. destruct g as [[?|] ? [?|] ?], rest as [|[[ta|] ? ? ?] ?]; try (by repeat split);
    cbn [ia ic it]; cbv zeta; destruct (has ta 0x10), (has ta 0x80); by repeat split.
Qed.
(** The parser on a buffer that holds an answer to reset. *)
Lemma parse_spec s a : holds (atr_bytes a) s -> atr_ok a -> a_ts a = IFD_CONV_DIRECT \/ a_ts a = IFD_CONV_INVERSE ->
  (length (atr_bytes a) <= 255)%nat -> i_nr s = Z.of_nat (length (atr_bytes a)) ->
  exists ap q, ifd_atr_parse ifd_protos s = Ok (atr_result a, Pa ap (atr_slot a (i_slot s)) q s).
Proof.
  intros Hh (Hg & Hr & _ & _ & _ & Hk & Hc) Hts Hl Hnr. destruct a as [ts g rest hist tck].
  unfold atr_slot, atr_result. cbn [a_ts a_first a_rest a_hist a_tck] in *. pose proof Hh as [more Hbuf].
  set (bytes := atr_bytes _) in *. assert (Eb : bytes = [ts] ++ [td_byte g rest] ++ body g rest ++ hist ++ tck) by done.
  unfold ifd_atr_parse. set (s0 := scs_atr_start s). destruct (i_ap s) as [ta tb tc td tl len c k] eqn:Eap.
  assert (E0 : s0 = Pa (MkAp ta tb tc td tl 0 0 false) (slot_0 (i_slot s)) (i_p s) s).
  { subst s0. unfold scs_atr_start, upd_ap, upd_slot, slot_0. rewrite Eap. by destruct s. }
  unfold ifd_atr_parse_ts. change (ifd_xchg_read 0 s0) with (oob (i_buff s0 !! 0%nat)). assert (i_buff s0 !! 0%nat = Some ts) as Hlk by (by rewrite E0; cbn; rewrite Hbuf).
  rewrite Hlk. cbn [oob mbind res_mbind]. clear Hlk.
  assert ((ts =? IFD_CONV_DIRECT) || (ts =? IFD_CONV_INVERSE) = true) as -> by (by destruct Hts as [-> | ->]). cbn [negb Z.eqb].
  rewrite E0, upd_ap_Pa. change (set_ap_len _ _) with (MkAp ta tb tc td tl (Z.of_nat (length [ts])) 0 false).
  pose proof (read_opt bytes s [ts] (Some (td_byte g rest)) (body g rest ++ hist ++ tck) ta tb tc td tl 0 false
    (slot_0 (i_slot s)) (i_p s) Hh Eb Hl) as Hrd. cbn [atr_read_if is_some] in Hrd.
  rewrite Hrd. cbn [mbind res_mbind opt_bytes default]. change (id (td_byte g rest)) with (td_byte g rest). rewrite upd_ap_Pa.
  match goal with |- context [ifd_atr_read_ibyte (Pa ?a _ _ _)] => destruct (ifaces_spec bytes s [ts; td_byte g rest] (hist ++ tck)
    g rest a (slot_0 (i_slot s)) (i_p s) Hh Hl Hg Hr Eb eq_refl eq_refl eq_refl) as (a1 & q1 & Hif & Hlen1 & Hcs1 & Htk1) end.
  destruct (ifd_atr_read_ibyte _) as [[y s1]|]; [|done]. cbn [mbind res_mbind] in Hif |- *. rewrite Hif. cbn [mbind res_mbind].
  assert (EK : Z.to_nat (T0_K (td_byte g rest)) = length hist).
  { destruct (td_byte_facts g rest (proj1 Hg)) as (Hok & HT & _). destruct (td_facts _ Hok) as (_ & _ & -> & _).
    rewrite HT, <- Hk. lia. }
  rewrite EK. match goal with |- context [Pa a1 ?l _ _] => destruct (skip_spec bytes s l q1 tck hist Hh Hl
    ([ts; td_byte g rest] ++ body g rest) a1 ltac:(by rewrite <- app_assoc) Hlen1) as (a2 & -> & Hlen2 & Hcs2 & Htk2) end.
  cbn [mbind res_mbind]. match goal with |- context [Pa a2 ?l _ _] => destruct (check_tck_spec bytes s
    (([ts; td_byte g rest] ++ body g rest) ++ hist) tck a2 l q1 Hh Hl ltac:(by rewrite <- !app_assoc) Hlen2) as (a3 & Hck) end.
  { rewrite Hc. destruct (iso_tck rest); lia. }
  { rewrite Htk2, Htk1, Hc. intros Hct. by rewrite (code_tck_iso _ Hct). }
  { done. }
  exists a3, q1. rewrite Hck. do 2 f_equal. rewrite Htk2, Htk1, Hcs2, Hcs1.
  cbn [ap_csum set_ap_td]. unfold xor_bytes. rewrite <- !foldl_app. change (tail bytes) with ([td_byte g rest] ++ body g rest ++ hist ++ tck).
  rewrite ?foldl_app. cbn [foldl app]. destruct (code_tck rest); [done|]. by destruct tck as [|? [|]], (iso_tck rest).
Qed.
End Parsing.

(** ** What reception and parsing amount to *)

(** A slot at rest with an empty buffer, and two protocols without state, for examples. *)
Definition slot_init : ifd_slot := MkSlot 0 0 0 0 0 IFD_CONV_DIRECT 0 0 0 0 0 0 0 0 0 0 0 0 0 0 0 0 false 0 0 0 0 0.
Definition ifd_example : ifd unit :=
  MkIfd slot_init 0 0 0 IFD_SEQ_IDLE 0 0 (MkXfr 0 0 0 0 0 0) ExNull (replicate 261 0) (MkAp 0 0 0 0 0 0 0 false)
    (MkAx 0 false 0 0 0 0) (MkPx [0; 0; 0; 0] 0 0 false) (MkHw 0 0) [] [] false [] tt.
Definition proto_example (id : Z) : ifd_proto unit :=
  MkProto id (fun _ _ _ _ q => q) (fun _ _ s => Ok (SCS_ERR_PROGRESS, s)) Ok Ok Ok (fun q => q) Ok (fun q => q).
Definition protos_example : list (ifd_proto unit) := [proto_example 0; proto_example 1].
Definition card_example (l : list line) : card := MkCard (fun _ => true) (fun _ => true) (fun _ => l) 0.

(** C33: Reception of an answer to reset.  The reader does not know how long the answer is; it
    follows T0 and the TD bytes and asks for the next block each time one is complete.  If
    the line begins with an answer in the convention the slot is set to, exactly its bytes
    are taken from the line and stored, their number is recorded and the transfer is
    complete.  If the line does not, whatever is on it, the transfer ends with one of the
    four error events.  (The line has fewer than 256 entries, so the buffer is not left.) *)
Theorem atr_reception_correct {P} C (protos : list (ifd_proto P)) s :
  Z.of_nat (length (i_buff s)) = IFD_BUF_SIZE ->
  let l := c_atr C (i_hw s) in let conv := sl_conv (i_slot s) in line_ok l -> (length l < 256)%nat ->
  (forall a more, atr_ok a -> a_ts a = conv -> l = map Byte (atr_bytes a) ++ more ->
     exists s', ifd_xchg_sync C protos (ifd_reset s) = Ok s' /\ i_xev s' = IFD_XCHG_EVENT_XFR_CMPL /\
       i_nr s' = Z.of_nat (length (atr_bytes a)) /\ take (length (atr_bytes a)) (i_buff s') = atr_bytes a /\
       i_line s' = more) /\
  ((forall a more, atr_ok a -> a_ts a = conv -> l <> map Byte (atr_bytes a) ++ more) ->
     exists s', ifd_xchg_sync C protos (ifd_reset s) = Ok s' /\ error_event (i_xev s')).
Proof.
  intros Hb l conv Hl Hlen. pose proof (receive_spec C protos (ifd_reset s) (reset_pending s Hb)) as H.
  cbv zeta in H. change (c_atr C (i_hw (ifd_reset s))) with l in H. change (sl_conv (i_slot (ifd_reset s))) with conv in H.
  specialize (H Hl Hlen). split.
  - intros a more Ha Hts El. rewrite El, <- Hts, split_atr_enc in H by done. destruct H as (ax & x & ->).
    eexists. split; [reflexivity|]. split; [done|]. split; [done|]. split; [|done]. unfold filled. cbn.
    by rewrite take_app_length.
  - intros Hno. destruct (split_atr conv l) as [[a more]|] eqn:E.
    + destruct (split_atr_inv _ _ _ _ Hl E) as (El & Hts & Ha). by destruct (Hno a more Ha Hts El).
    + destruct H as (e & b & a & x & l' & He & _ & ->). by eexists.
Qed.

(** An answer with TA1, TD1 (T=1), TA2 and two historical bytes; the check byte closes it. *)
Definition atr_example : atr :=
  MkAtr IFD_CONV_DIRECT (MkIface (Some 0x95) None None 2) [MkIface (Some 0x81) None None 1] [0x65; 0x66] [0x94].
Lemma atr_example_ok : atr_ok atr_example.
Proof.
  unfold atr_ok, iface_ok, byte_ok. cbn.
  repeat match goal with |- _ /\ _ => split | |- Forall _ _ => constructor end; try lia; done.
Qed.
Lemma atr_reception_correct_witness :
  exists s', ifd_xchg_sync (card_example (map Byte (atr_bytes atr_example) ++ [Byte 7])) protos_example (ifd_reset ifd_example) = Ok s' /\
    i_nr s' = 8 /\ i_line s' = [Byte 7].
Proof.
  destruct (proj1 (atr_reception_correct (card_example (map Byte (atr_bytes atr_example) ++ [Byte 7])) protos_example ifd_example
    eq_refl ltac:(unfold line_ok; cbn; repeat (apply Forall_cons_2; [vm_compute; split; [discriminate|reflexivity]|]); apply Forall_nil_2) ltac:(cbn; lia))
    atr_example [Byte 7] atr_example_ok eq_refl eq_refl) as (s' & E & _ & Hn & _ & Hl).
  exists s'. split; [exact E|]. split; [by rewrite Hn|done].
Defined.

(** C34: Parsing an answer to reset of up to 255 bytes.  The parser returns, never reads outside
    the buffer, and leaves in the slot what the interface bytes say: TA1 as the offered
    Fi/Di, TC1 as the guard time, the first offered protocol, specific mode with the
    protocol of TA2, and the set of supported protocols that were offered with interface
    bytes.  When its rule for the presence of TCK is that of ISO/IEC 7816-3 it accepts the
    answer if and only if there is no TCK or the bytes from T0 on cancel out. *)
Theorem atr_parse_correct {P} (protos : list (ifd_proto P)) s a :
  holds (atr_bytes a) s -> atr_ok a -> a_ts a = IFD_CONV_DIRECT \/ a_ts a = IFD_CONV_INVERSE ->
  (length (atr_bytes a) <= 255)%nat -> i_nr s = Z.of_nat (length (atr_bytes a)) ->
  exists err s', ifd_atr_parse protos s = Ok (err, s') /\
    (code_tck (a_rest a) = iso_tck (a_rest a) ->
       err = if iso_tck (a_rest a) && negb (xor_bytes 0 (tail (atr_bytes a)) =? 0)
             then IFD_ERR_BAD_TCK else SCS_ERR_SUCCESS) /\
    let l := i_slot s' in
    sl_ind_fd l = default IFD_FD_IMPLICIT (ia (a_first a)) /\ sl_n l = default (sl_n (i_slot s)) (ic (a_first a)) /\
    sl_first_proto l = default SCS_PROTO_T0 (it <$> head (a_rest a)) /\
    sl_info_xchg l = match head (a_rest a) ≫= ia with Some _ => IFD_INFO_XCHG_SPECIFIC | None => IFD_INFO_XCHG_NEGO_1ST end /\
    sl_spec_proto l = default IFD_PROTO_INVALID (TD_T <$> (head (a_rest a) ≫= ia)) /\
    (forall t, 0 <= t < 16 -> Z.testbit (sl_ind_protos l) t =
       existsb (fun g => negb (it g =? IFD_GLOBAL_T15) && supported protos (it g) && (it g =? t)) (used (a_rest a))).
Proof.
  intros Hh Ha Hts Hl Hnr. destruct (parse_spec protos s a Hh Ha Hts Hl Hnr) as (ap & q & E).
  exists (atr_result a), (Pa ap (atr_slot protos a (i_slot s)) q s). split; [exact E|]. clear E. split.
  { intros Hc. unfold atr_result. rewrite Hc. by destruct (iso_tck (a_rest a)), (xor_bytes 0 _ =? 0). }
  rewrite i_slot_Pa. unfold atr_slot. destruct (slot_12 (a_first a) (a_rest a) (i_slot s)) as (H1 & H2 & H3 & H4 & H5 & H6).
  set (l0 := slot_2 (a_rest a) _) in *. destruct (fold_slot_t protos (used (a_rest a)) l0) as (-> & -> & -> & -> & -> & Hp).
  do 5 (split; [done|]). intros t Ht. rewrite Hp, H6, Z.bits_0; [done| |done].
  destruct Ha as (_ & Hr & _). by apply used_ok.
Qed.
(** The state after the bytes of [a] have been received. *)
Definition received_example (a : atr) : ifd unit :=
  set_i_nr (Z.of_nat (length (atr_bytes a))) (set_i_buff (filled (atr_bytes a) (replicate 261 0)) ifd_example).
Lemma atr_parse_correct_witness :
  exists err s', ifd_atr_parse protos_example (received_example atr_example) = Ok (err, s') /\ err = SCS_ERR_SUCCESS /\
    sl_ind_fd (i_slot s') = 0x95 /\ sl_spec_proto (i_slot s') = 1 /\ Z.testbit (sl_ind_protos (i_slot s')) 1 = true.
Proof.
  destruct (atr_parse_correct protos_example (received_example atr_example) atr_example) as (err & s' & E & He & Hs).
  - eexists. reflexivity.
  - exact atr_example_ok.
  - by left.
  - cbn. lia.
  - reflexivity.
  - exists err, s'. destruct Hs as (H1 & _ & _ & _ & H5 & H6). split; [exact E|]. split; [by rewrite He by reflexivity|].
    split; [by rewrite H1|]. split; [by rewrite H5|]. by rewrite H6 by lia.
Defined.

(** Valid answers that are refused.  TCK has to be there when any protocol other than T=0
    is announced, and reception counts it in.  The parser does not look at a last TD that
    announces no interface bytes, nor at T=15, when it decides whether there is a TCK: an
    answer whose other protocols are all T=0 is refused with SCS_ERR_OVERRUN, TCK correct
    or not. *)
Theorem atr_valid_refused {P} (protos : list (ifd_proto P)) s a :
  holds (atr_bytes a) s -> atr_ok a -> a_ts a = IFD_CONV_DIRECT \/ a_ts a = IFD_CONV_INVERSE ->
  (length (atr_bytes a) <= 255)%nat -> i_nr s = Z.of_nat (length (atr_bytes a)) ->
  iso_tck (a_rest a) = true ->
  (forall g, In g (used (a_rest a)) -> it g = SCS_PROTO_T0 \/ it g = IFD_GLOBAL_T15) ->
  exists s', ifd_atr_parse protos s = Ok (SCS_ERR_OVERRUN, s').
Proof.
  intros Hh Ha Hts Hl Hnr Hiso Hu. destruct (parse_spec protos s a Hh Ha Hts Hl Hnr) as (ap & q & E).
  assert (Hc : code_tck (a_rest a) = false).
  { apply not_true_is_false. intros Hc. unfold code_tck in Hc. apply existsb_exists in Hc as (g & Hin & Hg).
    destruct (Hu g Hin) as [Ht|Ht]; rewrite Ht in Hg; discriminate. }
  eexists. rewrite E. unfold atr_result. by rewrite Hc, Hiso.
Qed.
(** 3B 80 80 01 01, the answer every contactless card shows through a PC/SC reader. *)
Definition atr_contactless : atr :=
  MkAtr IFD_CONV_DIRECT (MkIface None None None 0) [MkIface None None None 0; MkIface None None None 1] [] [1].
Lemma atr_valid_refused_witness :
  atr_bytes atr_contactless = [0x3B; 0x80; 0x80; 0x01; 0x01] /\ xor_bytes 0 (tail (atr_bytes atr_contactless)) = 0 /\
  exists s', ifd_atr_parse protos_example (received_example atr_contactless) = Ok (SCS_ERR_OVERRUN, s').
Proof.
  split; [reflexivity|]. split; [reflexivity|]. apply (atr_valid_refused _ _ atr_contactless).
  - eexists. reflexivity.
  - unfold atr_ok, iface_ok, byte_ok. cbn. repeat match goal with |- _ /\ _ => split | |- Forall _ _ => constructor end; try lia; done.
  - by left.
  - cbn. lia.
  - reflexivity.
  - reflexivity.
  - intros g [<-|[]]. by left.
Defined.

(** A card that goes on announcing interface bytes writes behind the exchange buffer. *)
Lemma atr_overflows_buffer :
  ifd_xchg_sync (card_example (map Byte (0x3B :: replicate 270 0xF0))) protos_example (ifd_reset ifd_example) = Fault FOob.
Proof. vm_compute. reflexivity. Qed.
