(* ===== verification/Slot.v ===== *)
(** * Slot: the life of a slot

    Theorems on the state machines of kernel/scs/ifd.c ([Ifd]): power-on with automatic
    class selection, the sequences that never complete, the PPS exchange. *)
From S2P Require Import Prelude Bitops MulDiv CString Ifd Atr.
From stdpp Require Import list.
Local Open Scope Z_scope.
Local Open Scope c_scope.

(** What the slot machine relies on in the protocols: T=0 is registered, and configuring a
    protocol for a valid Fi/Di returns, changing the waiting and guard times and the
    protocol's own state only. *)
Definition fd_ok (fd : Z) : Prop :=
  HIHALF fd <= NR_IFD_FIS /\ LOHALF fd <= NR_IFD_DIS /\
  (exists F, ifd_get_F (HIHALF fd) = Ok F /\ F <> 0) /\ (exists D, ifd_get_D (LOHALF fd) = Ok D /\ D <> 0).
Definition with_times {P} (q : P) (cg bg cw bw : Z) (s : ifd P) : ifd P :=
  set_i_p q (ifd_apply_bwt bw (ifd_apply_cwt cw (ifd_apply_bgt bg (ifd_apply_cgt cg s)))).
Class ProtosOk {P} (protos : list (ifd_proto P)) : Prop := {
  protos_t0 : exists i p, proto_index SCS_PROTO_T0 protos 0 = Some (i, p);
  protos_conf : forall t i p s, proto_index t protos 0 = Some (i, p) -> fd_ok (sl_fd (i_slot s)) ->
    exists q cg bg cw bw, pr_conf_param p s = Ok (with_times q cg bg cw bw s) }.

(** Comparisons of constants. *)
Ltac eqb_eval := repeat match goal with |- context [?a =? ?b] =>
  let v := eval vm_compute in (a =? b) in (match v with true => idtac | false => idtac end); change (a =? b) with v end; cbv iota.
Ltac eqb_eval_in H := repeat match type of H with context [?a =? ?b] =>
  let v := eval vm_compute in (a =? b) in (match v with true => idtac | false => idtac end); change (a =? b) with v in H end; cbv iota in H.

Section Slot.
Context {P : Type} (C : card) (protos : list (ifd_proto P)) {Hprotos : ProtosOk protos} (FMAX : Z).
Context (Hfmax : IFD_HW_FREQ_DEF <= FMAX).
Context (Hline : forall h, line_ok (c_atr C h)) (Hlen : forall h, (length (c_atr C h) < 256)%nat).
Implicit Types (s : ifd P) (l : ifd_slot).

(** ** Parameters *)
Definition keeps l l' : Prop :=
  sl_status l' = sl_status l /\ sl_clazz l' = sl_clazz l /\ sl_conv l' = sl_conv l /\
  sl_nego_clazz l' = sl_nego_clazz l /\ sl_cmpl l' = sl_cmpl l.
Lemma fd_implicit_ok : fd_ok IFD_FD_IMPLICIT.
Proof. split; [done|]. split; [done|]. split; eexists; (split; [reflexivity|done]). Qed.
Lemma config_fd_ok s : fd_ok (sl_nego_fd (i_slot s)) ->
  ifd_config_fd s = Ok (upd_slot (fun l => set_sl_fd (sl_nego_fd l) l) s).
Proof.
  intros (H1 & H2 & (F & HF & HF0) & (D & HD & HD0)). unfold ifd_config_fd.
  cbn [upd_slot i_slot set_i_slot sl_fd set_sl_fd].
  rewrite (proj2 (Z.ltb_ge _ _) H1), (proj2 (Z.ltb_ge _ _) H2). cbn [orb bug_on mbind res_mbind].
  rewrite HF. cbn [mbind res_mbind]. rewrite (proj2 (Z.eqb_neq _ _) HF0). cbn [bug_on mbind res_mbind].
  rewrite HD. cbn [mbind res_mbind]. by rewrite (proj2 (Z.eqb_neq _ _) HD0).
Qed.
Lemma conf_param_ok s t i p : fd_ok (sl_nego_fd (i_slot s)) -> sl_nego_proto (i_slot s) = t ->
  proto_index t protos 0 = Some (i, p) ->
  exists l q, ifd_conf_param protos s = Ok (set_i_slot l (set_i_p q s)) /\ keeps (i_slot s) l /\
    sl_fd l = sl_nego_fd (i_slot s) /\ sl_proto l = t.
Proof.
  intros Hfd <- Hp. unfold ifd_conf_param. rewrite config_fd_ok by done. cbn [mbind res_mbind].
  set (s1 := ifd_config_t _). assert (Hg : ifd_get_protocol protos s1 = Some (i, p)) by done. rewrite Hg. cbn [oob mbind res_mbind].
  destruct (protos_conf _ i p s1 Hp Hfd) as (q & cg & bg & cw & bw & ->). eexists _, q. split; [reflexivity|].
  by destruct s as [[] ? ? ? ? ? ? ? ? ? ? ? ? ? ? ? ? ? ?].
Qed.
Lemma config_def_ok s :
  exists l q, ifd_config_def protos s = Ok (set_i_slot l (set_i_p q s)) /\ keeps (i_slot s) l.
Proof.
  destruct protos_t0 as (i & p & Hp). unfold ifd_config_def.
  match goal with |- context [ifd_conf_param _ ?s1] => destruct (conf_param_ok s1 SCS_PROTO_T0 i p) as (l & q & -> & Hk & _);
    [exact fd_implicit_ok|reflexivity|done|] end.
  exists l, q. split; [reflexivity|]. exact Hk.
Qed.

(** ** Handling one event *)
Lemma on_event_off bit act f s : has f bit = false -> on_event bit act (f, s) = Ok (f, s).
Proof. intros H. unfold on_event. by rewrite H. Qed.
Lemma on_event_on bit act f s : has f bit = true ->
  on_event bit act (f, s) = (s ← act s; Ok (unraise_bits f bit, s)).
Proof. intros H. unfold on_event. by rewrite H. Qed.
Ltac off := rewrite on_event_off by reflexivity; cbn [mbind res_mbind].
Ltac on := rewrite on_event_on by reflexivity.
Ltac start H := unfold ifd_handle_slot_state, ifd_event_save; cbv zeta; rewrite H.
(** The last part of the handler when no bit is left. *)
Ltac finish := repeat match goal with |- context [if ?c then _ else _] => destruct c end; repeat off; reflexivity.

Lemma handle_pwr_off s : i_sev s = IFD_SLOT_EVENT_PWR_OFF -> 1 <= status s ->
  ifd_handle_slot_state C protos FMAX s =
  (s ← (s ← __ifd_slot_reset FMAX (set_i_sev 0 s); ifd_slot_set_state C protos IFD_SLOT_STATE_PRESENT s);
   Ok (ifd_event_restore 0 s)).
Proof.
  intros H Hs. start H. off. off. off. on. rewrite (proj2 (Z.leb_le IFD_SLOT_STATE_PRESENT (status s)) Hs).
  destruct (__ifd_slot_reset _ _) as [s1|]; [|reflexivity]. cbn [mbind res_mbind].
  destruct (ifd_slot_set_state _ _ _ s1) as [s2|]; [|reflexivity]. cbn [mbind res_mbind].
  change (unraise_bits _ _) with 0. off. finish.
Qed.
Lemma handle_hw_err s : i_sev s = IFD_SLOT_EVENT_HW_ERR -> i_error s <> SCS_ERR_SUCCESS -> 5 <= status s ->
  ifd_handle_slot_state C protos FMAX s =
  (s ← ifd_slot_set_state C protos IFD_SLOT_STATE_HWERROR (set_i_sev 0 s); Ok (ifd_event_restore 0 (ifd_deactivate s))).
Proof.
  intros H He Hs. start H. off. off. on. change (i_error (set_i_sev 0 s)) with (i_error s).
  rewrite (proj2 (Z.eqb_neq _ _) He), (proj2 (Z.leb_le IFD_SLOT_STATE_SELECTED (status s)) Hs). cbn [bug_on mbind res_mbind].
  destruct (ifd_slot_set_state _ _ _ _) as [s2|]; [|reflexivity]. cbn [mbind res_mbind].
  change (unraise_bits _ _) with 0. off. off. finish.
Qed.
Lemma handle_last s bit next st : i_sev s = bit -> status s = st ->
  (bit, st, next) = (IFD_SLOT_EVENT_CLS_CHG, IFD_SLOT_STATE_PRESENT, IFD_SLOT_STATE_SELECTED) \/
  (bit, st, next) = (IFD_SLOT_EVENT_PWR_OK, IFD_SLOT_STATE_SELECTED, IFD_SLOT_STATE_ACTIVATED) \/
  (bit, st, next) = (IFD_SLOT_EVENT_ATR_OK, IFD_SLOT_STATE_ACTIVATED, IFD_SLOT_STATE_ATR_READY) ->
  ifd_handle_slot_state C protos FMAX s =
  (s ← ifd_slot_set_state C protos next (set_i_sev 0 s); Ok (ifd_event_restore 0 s)).
Proof.
  intros H Hs [E|[E|E]]; injection E as -> -> ->; start H; rewrite Hs; do 5 off; eqb_eval; on;
    (destruct (ifd_slot_set_state _ _ _ _) as [s2|]; [|reflexivity]); reflexivity.
Qed.
Lemma handle_sync s : i_sev s = IFD_SLOT_EVENT_XFR_SYNC ->
  ifd_handle_slot_state C protos FMAX s =
  (s ← ifd_xchg_sync C protos (set_i_sev 0 s); Ok (ifd_event_restore 0 s)).
Proof.
  intros H. start H. on. destruct (ifd_xchg_sync _ _ _) as [s1|]; [|reflexivity]. cbn [mbind res_mbind].
  change (unraise_bits _ _) with 0. do 4 off. finish.
Qed.
(** In a slot that is ready a hardware error is forgotten. *)
Lemma handle_hw_err_ready s : i_sev s = IFD_SLOT_EVENT_HW_ERR -> i_error s <> SCS_ERR_SUCCESS -> status s < 5 ->
  ifd_handle_slot_state C protos FMAX s = Ok (ifd_event_restore 0 (set_i_sev 0 s)).
Proof.
  intros H He Hs. start H. off. off. on. change (i_error (set_i_sev 0 s)) with (i_error s).
  rewrite (proj2 (Z.eqb_neq _ _) He), (proj2 (Z.leb_gt IFD_SLOT_STATE_SELECTED (status s)) Hs). cbn [bug_on mbind res_mbind].
  change (unraise_bits _ _) with 0. off. off. finish.
Qed.
Lemma handle_pps_ok s : i_sev s = IFD_SLOT_EVENT_PPS_OK -> status s = IFD_SLOT_STATE_ATR_READY ->
  ifd_handle_slot_state C protos FMAX s =
  (s ← (s ← ifd_conf_param protos (set_i_sev 0 s); ifd_slot_set_state C protos IFD_SLOT_STATE_PPS_READY s);
   Ok (ifd_event_restore 0 s)).
Proof.
  intros H Hs. start H. rewrite Hs. do 5 off. eqb_eval. off. on.
  destruct (ifd_conf_param _ _) as [s1|]; [|reflexivity]. cbn [mbind res_mbind].
  destruct (ifd_slot_set_state _ _ _ s1) as [s2|]; reflexivity.
Qed.

(** ** Automatic power-on *)
Record Auto (d : list Z) (sev xs st c v n : Z) s : Prop := MkAuto {
  au_seq : i_seq s = IFD_SEQ_AUTO_SEQ; au_cmpl : sl_cmpl (i_slot s) = true; au_sev : i_sev s = sev;
  au_state : i_state s = xs; au_wake : i_wake s = true; au_done : i_done s = d;
  au_buff : Z.of_nat (length (i_buff s)) = IFD_BUF_SIZE; au_st : status s = st; au_c : sl_clazz (i_slot s) = c;
  au_v : sl_conv (i_slot s) = v; au_n : sl_nego_clazz (i_slot s) = n }.
(** The sequence is over: the callback has been called with [e], nothing is pending. *)
Record Finished (d : list Z) (e st : Z) s : Prop := MkFin {
  fi_seq : i_seq s = IFD_SEQ_IDLE; fi_cmpl : sl_cmpl (i_slot s) = false; fi_sev : i_sev s = 0;
  fi_wake : i_wake s = false; fi_done : i_done s = d ++ [e]; fi_error : i_error s = e; fi_st : status s = st }.
Definition next_try (n v : Z) : Z * Z :=
  if n =? IFD_CLASS_AUTO then (IFD_CLASS_A, IFD_CONV_DIRECT)
  else if v =? IFD_CONV_DIRECT then (n, IFD_CONV_INVERSE) else (u8 (n + 1), IFD_CONV_DIRECT).
Definition a_class (c : Z) : bool := (c =? IFD_CLASS_A) || (c =? IFD_CLASS_B) || (c =? IFD_CLASS_C).

Lemma not_busy s : i_state s <> IFD_XCHG_STATE_BUSY -> ifd_handle_xchg_state protos s = Ok (set_i_xev 0 s).
Proof.
  intros H. unfold ifd_handle_xchg_state, ifd_xchg_save. change (i_state (set_i_xev 0 s)) with (i_state s).
  by rewrite (proj2 (Z.eqb_neq _ _) H).
Qed.
Lemma bh_run s : i_wake s = true ->
  ifd_bh_run C protos FMAX s =
  (s ← ifd_handle_slot_state C protos FMAX (set_i_wake false s); ifd_handle_xchg_state protos s).
Proof. intros H. unfold ifd_bh_run. by rewrite H. Qed.

Lemma quiet_run s s1 : i_wake s = true -> ifd_handle_slot_state C protos FMAX (set_i_wake false s) = Ok s1 ->
  i_state s1 <> IFD_XCHG_STATE_BUSY -> ifd_bh_run C protos FMAX s = Ok (set_i_xev 0 s1).
Proof. intros Hw H Hb. rewrite bh_run, H by done. by apply not_busy. Qed.
(** [set_i_xev] and the restoring of no event do not matter. *)
Lemma Auto_xev d sev xs st c v n s : Auto d sev xs st c v n s -> Auto d sev xs st c v n (set_i_xev 0 (ifd_event_restore 0 s)).
Proof. intros []. split; try done. cbn. by rewrite Z.lor_0_r. Qed.
Lemma Finished_xev d e st s : Finished d e st s -> Finished d e st (set_i_xev 0 (ifd_event_restore 0 s)).
Proof. intros []. split; try done. cbn. by rewrite Z.lor_0_r. Qed.

Lemma seq_auto s v : i_seq s = IFD_SEQ_AUTO_SEQ ->
  ifd_slot_set_state C protos v s = ifd_handle_auto_seq C protos (upd_slot (set_sl_status v) s).
Proof. intros H. unfold ifd_slot_set_state, ifd_handle_slot_seq. change (i_seq (upd_slot _ s)) with (i_seq s). by rewrite H. Qed.

Lemma select_next d st c v n s : Auto d 0 IFD_XCHG_STATE_IDLE st c v n (set_i_wake true s) -> i_wake s = false ->
  exists c0 s1, ifd_cls_select_auto s = (let '(err, s) := ifd_cls_select s1 in (err =? SCS_ERR_SUCCESS, s)) /\ i_wake s1 = false /\
    Auto d 0 IFD_XCHG_STATE_IDLE st c0 (snd (next_try n v)) (fst (next_try n v)) (set_i_wake true s1).
Proof.
  intros [Hseq Hcm Hsev Hst _ Hd Hb Hs Hc Hv Hn] Hw. cbn in Hv, Hn. unfold ifd_cls_select_auto, next_try. rewrite Hn.
  destruct (n =? IFD_CLASS_AUTO); [|unfold ifd_cls_select_next; rewrite Hv; destruct (v =? IFD_CONV_DIRECT)];
    eexists _, _; (split; [reflexivity|]); (split; [exact Hw|]); split; try assumption; try reflexivity.
  cbn. by rewrite Hn.
Qed.
Lemma complete_spec e s : sl_cmpl (i_slot s) = true -> i_error s = SCS_ERR_SUCCESS \/ e = SCS_ERR_SUCCESS ->
  ifd_seq_complete e s =
  upd_slot (set_sl_cmpl false) (set_i_seq IFD_SEQ_IDLE (set_i_done (i_done s ++ [e]) (set_i_error e s))).
Proof.
  intros Hc He. unfold ifd_seq_complete. assert ((e =? SCS_ERR_SUCCESS) || (i_error s =? SCS_ERR_SUCCESS) = true) as ->.
  { apply orb_true_iff. rewrite !Z.eqb_eq. tauto. }
  change (sl_cmpl _) with (sl_cmpl (i_slot s)). by rewrite Hc.
Qed.
Lemma auto_present d st c v n s : Auto d 0 IFD_XCHG_STATE_IDLE st c v n (set_i_wake true s) -> i_wake s = false ->
  let c' := fst (next_try n v) in
  exists s', ifd_slot_set_state C protos IFD_SLOT_STATE_PRESENT s = Ok s' /\
    if a_class c' then Auto d IFD_SLOT_EVENT_CLS_CHG IFD_XCHG_STATE_IDLE IFD_SLOT_STATE_PRESENT c' (snd (next_try n v)) c' s'
    else Finished d SCS_ERR_HW_ERROR IFD_SLOT_STATE_PRESENT s' /\ i_state s' = IFD_XCHG_STATE_IDLE.
Proof.
  intros Ha Hw c'. rewrite seq_auto by exact (au_seq _ _ _ _ _ _ _ _ Ha). unfold ifd_handle_auto_seq.
  set (s0 := upd_slot _ s). change (status s0 =? IFD_SLOT_STATE_PRESENT) with true. cbv iota.
  destruct (select_next d IFD_SLOT_STATE_PRESENT c v n s0) as (c0 & s1 & -> & Hw1 & []); [|exact Hw|].
  { destruct Ha. split; assumption || reflexivity. }
  fold c' in au_n0. unfold ifd_cls_select. change (sl_nego_clazz _) with (sl_nego_clazz (i_slot (set_i_wake true s1))).
  rewrite au_n0. fold (a_class c'). destruct (a_class c'); eexists; (split; [reflexivity|]).
  - split; try assumption; try reflexivity. cbn in au_sev0 |- *. by rewrite au_sev0.
  - change (IFD_ERR_BAD_CLASS =? SCS_ERR_SUCCESS) with false. cbv iota.
    rewrite complete_spec by (done || by left). split; [|exact au_state0].
    split; try assumption; try reflexivity. change (i_done (upd_slot _ _)) with (i_done (set_i_wake true s1) ++ [SCS_ERR_HW_ERROR]). by rewrite au_done0.
Qed.

Lemma step_off d st c v n s : Auto d IFD_SLOT_EVENT_PWR_OFF IFD_XCHG_STATE_IDLE st c v n s -> 1 <= st ->
  let c' := fst (next_try n v) in
  exists s', ifd_bh_run C protos FMAX s = Ok s' /\
    if a_class c' then Auto d IFD_SLOT_EVENT_CLS_CHG IFD_XCHG_STATE_IDLE IFD_SLOT_STATE_PRESENT c' (snd (next_try n v)) c' s'
    else Finished d SCS_ERR_HW_ERROR IFD_SLOT_STATE_PRESENT s'.
Proof.
  intros H H1 c'. pose proof H as [Hseq Hcm Hsev Hst Hw Hd Hb Hs Hc Hv Hn].
  pose proof (handle_pwr_off (set_i_wake false s) Hsev) as Hh. unfold __ifd_slot_reset, ifd_set_freq in Hh.
  rewrite (proj2 (Z.ltb_ge _ _) Hfmax) in Hh. cbn [bug_on mbind res_mbind] in Hh. specialize (Hh ltac:(rewrite <- Hs in H1; exact H1)).
  set (s0 := upd_slot _ _) in Hh. destruct (auto_present d st c v n s0) as (s1 & E & Hr).
  { subst s0. split; assumption || reflexivity. } { reflexivity. }
  fold c' in Hr. rewrite E in Hh. cbn [mbind res_mbind] in Hh. eexists. split.
  - apply quiet_run; [exact Hw|exact Hh|]. destruct (a_class c').
    + destruct Hr. change (i_state _) with (i_state s1). by rewrite au_state0.
    + destruct Hr as [_ Hi]. change (i_state _) with (i_state s1). by rewrite Hi.
  - destruct (a_class c'); [by apply Auto_xev|apply Finished_xev, Hr].
Qed.

Lemma no_xevent s : i_xev s = 0 -> ifd_handle_xchg_state protos s = Ok (set_i_xev 0 s).
Proof.
  intros H. unfold ifd_handle_xchg_state, ifd_xchg_save. rewrite H. cbv zeta. by destruct (i_state _ =? _).
Qed.
Lemma step_hw_err d st c v n s : Auto d IFD_SLOT_EVENT_HW_ERR IFD_XCHG_STATE_IDLE st c v n s -> 5 <= st ->
  i_error s <> SCS_ERR_SUCCESS ->
  exists s', ifd_bh_run C protos FMAX s = Ok s' /\
    Auto d IFD_SLOT_EVENT_PWR_OFF IFD_XCHG_STATE_IDLE IFD_SLOT_STATE_HWERROR c v n s'.
Proof.
  intros [Hseq Hcm Hsev Hst Hw Hd Hb Hs Hc Hv Hn] H5 He.
  assert (Hh := handle_hw_err (set_i_wake false s) Hsev He ltac:(rewrite <- Hs in H5; exact H5)).
  rewrite seq_auto in Hh by exact Hseq. unfold ifd_handle_auto_seq in Hh.
  change (status (upd_slot _ _)) with IFD_SLOT_STATE_HWERROR in Hh. cbn [Z.eqb] in Hh. eqb_eval_in Hh. cbn [mbind res_mbind] in Hh.
  eexists. split.
  - apply quiet_run; [exact Hw|exact Hh|]. change (i_state _) with (i_state s). by rewrite Hst.
  - apply Auto_xev. split; try assumption; reflexivity.
Qed.

Definition powers (c v : Z) : bool := c_activate C (MkHw c v) && c_io C (MkHw c v).
Lemma activate_spec c v s : sl_clazz (i_slot s) = c -> sl_conv (i_slot s) = v ->
  exists l q, keeps (i_slot s) l /\
    let s1 := set_i_slot l (set_i_p q (set_i_hw (MkHw c v) (set_i_error SCS_ERR_SUCCESS s))) in
    ifd_activate C protos s = Ok (
      if powers c v then ifd_slot_raise IFD_SLOT_EVENT_PWR_OK s1
      else ifd_slot_raise IFD_SLOT_EVENT_HW_ERR (ifd_xchg_set_error SCS_ERR_BAD_POWER s1)).
Proof.
  intros <- <-. unfold ifd_activate. set (s0 := ifd_config_cls _). destruct (config_def_ok s0) as (l & q & -> & Hk).
  exists l, q. split; [exact Hk|reflexivity].
Qed.
Lemma step_select d c v s : Auto d IFD_SLOT_EVENT_CLS_CHG IFD_XCHG_STATE_IDLE IFD_SLOT_STATE_PRESENT c v c s ->
  exists s', ifd_bh_run C protos FMAX s = Ok s' /\
    Auto d (if powers c v then IFD_SLOT_EVENT_PWR_OK else IFD_SLOT_EVENT_HW_ERR) IFD_XCHG_STATE_IDLE
      IFD_SLOT_STATE_SELECTED c v c s' /\
    if powers c v then i_hw s' = MkHw c v else i_error s' <> SCS_ERR_SUCCESS.
Proof.
  intros [Hseq Hcm Hsev Hst Hw Hd Hb Hs Hc Hv Hn].
  assert (Hh := handle_last (set_i_wake false s) _ IFD_SLOT_STATE_SELECTED _ Hsev Hs (or_introl eq_refl)).
  rewrite seq_auto in Hh by exact Hseq. unfold ifd_handle_auto_seq in Hh. set (s0 := upd_slot _ _) in Hh.
  change (status s0) with IFD_SLOT_STATE_SELECTED in Hh. eqb_eval_in Hh.
  destruct (activate_spec c v s0 Hc Hv) as (l & q & (K1 & K2 & K3 & K4 & K5) & Ha). cbv zeta in Ha. rewrite Ha in Hh. clear Ha.
  cbn [mbind res_mbind] in Hh.
  destruct (powers c v); (eexists; split; [apply quiet_run; [exact Hw|exact Hh|change (i_state _) with (i_state s); by rewrite Hst]|]).
  all: split; [apply Auto_xev|done]; split; try assumption; try reflexivity.
  all: try (rewrite <- Hc; exact K2); try (rewrite <- Hcm; exact K5); try (rewrite <- Hv; exact K3); try (rewrite <- Hn; exact K4); exact K1.
Qed.
Lemma reset_Auto d st c v n s : Auto d 0 IFD_XCHG_STATE_IDLE st c v n (set_i_wake true s) ->
  Auto d IFD_SLOT_EVENT_XFR_SYNC IFD_XCHG_STATE_BUSY st c v n (ifd_reset s) /\ atr_pending (ifd_reset s) /\ i_hw (ifd_reset s) = i_hw s /\
  i_error (ifd_reset s) = SCS_ERR_SUCCESS.
Proof.
  intros [Hseq Hcm Hsev Hst Hw Hd Hb Hs Hc Hv Hn]. split; [|split; [by apply reset_pending|by split]].
  split; try assumption; try reflexivity. change (i_sev (ifd_reset s)) with (i_sev (set_i_wake true s) ||| IFD_SLOT_EVENT_XFR_SYNC). by rewrite Hsev.
Qed.
Lemma pending_xev s : atr_pending s -> atr_pending (set_i_xev 0 (ifd_event_restore 0 s)).
Proof. intros (_ & H). by split. Qed.
Lemma hw_xev s : i_hw (set_i_xev 0 (ifd_event_restore 0 s)) = i_hw s.
Proof. reflexivity. Qed.
Lemma error_xev s : i_error (set_i_xev 0 (ifd_event_restore 0 s)) = i_error s.
Proof. reflexivity. Qed.
Lemma step_pwr_ok d c v s : Auto d IFD_SLOT_EVENT_PWR_OK IFD_XCHG_STATE_IDLE IFD_SLOT_STATE_SELECTED c v c s ->
  exists s', ifd_bh_run C protos FMAX s = Ok s' /\
    Auto d IFD_SLOT_EVENT_XFR_SYNC IFD_XCHG_STATE_BUSY IFD_SLOT_STATE_ACTIVATED c v c s' /\ atr_pending s' /\ i_hw s' = i_hw s /\
    i_error s' = SCS_ERR_SUCCESS.
Proof.
  intros [Hseq Hcm Hsev Hst Hw Hd Hb Hs Hc Hv Hn].
  assert (Hh := handle_last (set_i_wake false s) _ IFD_SLOT_STATE_ACTIVATED _ Hsev Hs ltac:(by right; left)).
  rewrite seq_auto in Hh by exact Hseq. unfold ifd_handle_auto_seq in Hh. set (s0 := upd_slot _ _) in Hh.
  change (status s0) with IFD_SLOT_STATE_ACTIVATED in Hh. eqb_eval_in Hh. cbn [mbind res_mbind] in Hh.
  destruct (reset_Auto d IFD_SLOT_STATE_ACTIVATED c v c s0) as (Ha & Hp & Hi & He). { split; try assumption; reflexivity. }
  exists (set_i_xev 0 (ifd_event_restore 0 (ifd_reset s0))). split; [|split; [by apply Auto_xev|split; [by apply pending_xev|rewrite hw_xev, error_xev, Hi; split; [reflexivity|exact He]]]].
  rewrite bh_run by exact Hw. rewrite Hh. by apply no_xevent.
Qed.

(** The end of the reception, in a slot that is being activated by the automatic sequence. *)
Definition ended (e : Z) s : ifd P :=
  set_i_state IFD_XCHG_STATE_IDLE (if e =? SCS_ERR_SUCCESS then ifd_slot_raise IFD_SLOT_EVENT_ATR_OK s
    else ifd_slot_raise IFD_SLOT_EVENT_HW_ERR (ifd_xchg_set_error e s)).
Definition activating s : Prop :=
  status s = IFD_SLOT_STATE_ACTIVATED /\ i_state s = IFD_XCHG_STATE_BUSY /\ i_seq s = IFD_SEQ_AUTO_SEQ.
Lemma idle_error s e : activating s -> e <> SCS_ERR_SUCCESS -> e <> SCS_ERR_PROGRESS ->
  ifd_xchg_idle protos (ifd_xchg_set_error e s) = Ok (ended e s).
Proof.
  intros (Hs & Hb & Hq) He Hp. unfold ifd_xchg_idle, ifd_atr_cmpl, ended.
  change (status (ifd_xchg_set_error e s)) with (status s). change (i_state (ifd_xchg_set_error e s)) with (i_state s).
  change (i_error (ifd_xchg_set_error e s)) with e.
  rewrite Hs, Hb, (proj2 (Z.eqb_neq _ _) He). eqb_eval. cbn [negb mbind res_mbind].
  change (i_error (ifd_xchg_set_error e s)) with e. change (i_seq (ifd_xchg_set_error e s)) with (i_seq s).
  rewrite (proj2 (Z.eqb_neq _ _) Hp), (proj2 (Z.eqb_neq _ _) He), Hq. eqb_eval. cbn [negb].
  unfold ifd_handle_xchg_seq. change (i_seq (ifd_slot_raise _ (ifd_xchg_set_error e s))) with (i_seq s). by rewrite Hq.
Qed.
Lemma idle_parse s e ap l q : activating s -> i_error s = SCS_ERR_SUCCESS -> e <> SCS_ERR_PROGRESS ->
  ifd_atr_parse protos s = Ok (e, Pa ap l q s) -> ifd_xchg_idle protos s = Ok (ended e (Pa ap l q s)).
Proof.
  intros (Hs & Hb & Hq) He Hp Hr. unfold ifd_xchg_idle, ifd_atr_cmpl, ended. rewrite Hs, Hb, He, Hr. eqb_eval. cbn [negb mbind res_mbind].
  set (s1 := Pa ap l q s). assert (Hq1 : i_seq s1 = IFD_SEQ_AUTO_SEQ) by exact Hq. assert (He1 : i_error s1 = SCS_ERR_SUCCESS) by exact He.
  clearbody s1. unfold ifd_handle_xchg_seq. destruct (Z.eqb_spec e SCS_ERR_SUCCESS) as [->|Hn].
  - change (i_error (ifd_slot_raise _ s1)) with (i_error s1). rewrite He1. eqb_eval. cbn [negb].
    change (i_seq (ifd_slot_raise _ s1)) with (i_seq s1). by rewrite Hq1.
  - change (i_error (ifd_xchg_set_error e s1)) with e. rewrite (proj2 (Z.eqb_neq _ _) Hp), (proj2 (Z.eqb_neq _ _) Hn). cbn [negb].
    change (i_seq (ifd_xchg_set_error e s1)) with (i_seq s1). rewrite Hq1. eqb_eval.
    change (i_seq (ifd_slot_raise _ _)) with (i_seq s1). by rewrite Hq1.
Qed.

Lemma keeps_trans l1 l2 l3 : keeps l1 l2 -> keeps l2 l3 -> keeps l1 l3.
Proof. unfold keeps. intuition congruence. Qed.
Lemma slot_t_keeps l g : keeps l (slot_t protos l g).
Proof. unfold slot_t. destruct (it g =? _); [by destruct (ia g)|by destruct (supported _ _)]. Qed.
Lemma atr_slot_keeps a l : keeps l (atr_slot protos a l).
Proof.
  unfold atr_slot. apply (keeps_trans _ (slot_2 (a_rest a) (slot_1 (a_first a) (a_rest a) (slot_0 l)))).
  - unfold slot_1, slot_2. destruct (a_first a) as [[x1|] x2 [x3|] x4], (a_rest a) as [|[[ta|] x5 x6 x7] r]; try done;
      cbn [ia ic it]; cbv zeta; by destruct (has ta 0x10), (has ta 0x80).
  - generalize (slot_2 (a_rest a) (slot_1 (a_first a) (a_rest a) (slot_0 l))). induction (used (a_rest a)) as [|g u IH]; intros l1; [done|].
    apply (keeps_trans _ (slot_t protos l1 g)), IH. apply slot_t_keeps.
Qed.
Lemma ended_Auto d st c v n e s xs : Auto d 0 xs st c v n s ->
  Auto d (if e =? SCS_ERR_SUCCESS then IFD_SLOT_EVENT_ATR_OK else IFD_SLOT_EVENT_HW_ERR) IFD_XCHG_STATE_IDLE st c v n (ended e s).
Proof.
  intros [Hseq Hcm Hsev Hst Hw Hd Hb Hs Hc Hv Hn]. unfold ended. destruct (e =? SCS_ERR_SUCCESS); split; try assumption; try reflexivity.
  all: unfold ifd_slot_raise, ifd_xchg_set_error; cbn; by rewrite Hsev.
Qed.
Lemma xchg_error s e : i_state s = IFD_XCHG_STATE_BUSY -> i_xev s = e -> error_event e ->
  exists x, x <> SCS_ERR_SUCCESS /\ x <> SCS_ERR_PROGRESS /\
    ifd_handle_xchg_state protos s = ifd_xchg_idle protos (ifd_xchg_set_error x (set_i_xev 0 s)).
Proof.
  intros Hb He Hev. unfold ifd_handle_xchg_state, ifd_xchg_save. change (i_state (set_i_xev 0 s)) with (i_state s).
  rewrite Hb, He. eqb_eval. destruct Hev as [->|[[] ->]]; eexists; (split; [|split; [|reflexivity]]); done.
Qed.
Lemma xchg_complete s : i_state s = IFD_XCHG_STATE_BUSY -> i_xev s = IFD_XCHG_EVENT_XFR_CMPL ->
  ifd_handle_xchg_state protos s = ifd_xchg_idle protos (set_i_xev 0 s).
Proof.
  intros Hb He. unfold ifd_handle_xchg_state, ifd_xchg_save. change (i_state (set_i_xev 0 s)) with (i_state s).
  rewrite Hb, He. eqb_eval. reflexivity.
Qed.

Definition atr_answer (c v : Z) : option atr :=
  '(a, _) ← split_atr v (c_atr C (MkHw c v)); if atr_result a =? SCS_ERR_SUCCESS then Some a else None.
Definition conv_ok (v : Z) : Prop := v = IFD_CONV_DIRECT \/ v = IFD_CONV_INVERSE.
Lemma pending_sync s : atr_pending s -> atr_pending (set_i_sev 0 (set_i_wake false s)).
Proof. done. Qed.
Lemma atr_result_cases a : atr_result a <> SCS_ERR_PROGRESS.
Proof. unfold atr_result. by repeat case_match. Qed.
Lemma holds_filled bytes b s : i_buff s = filled bytes b -> holds bytes s.
Proof. intros H. exists (drop (length bytes) b). by rewrite H. Qed.
(** The state in which reception leaves the slot, with nothing pending but the end of the exchange. *)
Lemma sync_Auto d c v s e b a x (l : list line) : Auto d 0 IFD_XCHG_STATE_BUSY IFD_SLOT_STATE_ACTIVATED c v c (set_i_wake true s) ->
  length b = length (i_buff s) ->
  let s1 := set_i_xev 0 (ifd_event_restore 0 (set_i_wake true (set_i_xev e (At b a x l s)))) in
  Auto d 0 IFD_XCHG_STATE_BUSY IFD_SLOT_STATE_ACTIVATED c v c s1 /\ activating s1.
Proof.
  intros [Hseq Hcm Hsev Hst Hw Hd Hb Hs Hc Hv Hn] Hl. split; [|by split].
  split; try assumption; try reflexivity.
  - cbn in Hsev |- *. by rewrite Hsev.
  - change (Z.of_nat (length (i_buff s)) = IFD_BUF_SIZE) in Hb. rewrite <- Hl in Hb. exact Hb.
Qed.
Lemma Auto_slot d xs st c v n s ap l q : Auto d 0 xs st c v n s -> keeps (i_slot s) l -> Auto d 0 xs st c v n (Pa ap l q s).
Proof.
  intros [Hseq Hcm Hsev Hst Hw Hd Hb Hs Hc Hv Hn] (K1 & K2 & K3 & K4 & K5). split; try assumption.
  all: unfold status in *; rewrite ?i_slot_Pa; congruence.
Qed.
Lemma step_sync d c v s : Auto d IFD_SLOT_EVENT_XFR_SYNC IFD_XCHG_STATE_BUSY IFD_SLOT_STATE_ACTIVATED c v c s ->
  atr_pending s -> i_hw s = MkHw c v -> i_error s = SCS_ERR_SUCCESS -> conv_ok v ->
  exists s', ifd_bh_run C protos FMAX s = Ok s' /\
    match atr_answer c v with
    | Some a => Auto d IFD_SLOT_EVENT_ATR_OK IFD_XCHG_STATE_IDLE IFD_SLOT_STATE_ACTIVATED c v c s' /\
        holds (atr_bytes a) s' /\ i_nr s' = Z.of_nat (length (atr_bytes a))
    | None => Auto d IFD_SLOT_EVENT_HW_ERR IFD_XCHG_STATE_IDLE IFD_SLOT_STATE_ACTIVATED c v c s' /\ i_error s' <> SCS_ERR_SUCCESS
    end.
Proof.
  intros Ha Hp Hh He Hv. pose proof Ha as [_ _ Hsev _ Hw _ Hb Hs _ Hcv _]. rewrite bh_run by exact Hw.
  rewrite (handle_sync (set_i_wake false s) Hsev). set (s0 := set_i_sev 0 (set_i_wake false s)).
  assert (H0 : Auto d 0 IFD_XCHG_STATE_BUSY IFD_SLOT_STATE_ACTIVATED c v c (set_i_wake true s0)).
  { destruct Ha. split; assumption || reflexivity. }
  pose proof (receive_spec C protos s0 (pending_sync s Hp)) as Hr. cbv zeta in Hr.
  change (i_hw s0) with (i_hw s) in Hr. change (sl_conv (i_slot s0)) with (sl_conv (i_slot s)) in Hr. rewrite Hh, Hcv in Hr.
  specialize (Hr (Hline _) (Hlen _)). unfold atr_answer. assert (He0 : i_error s0 = SCS_ERR_SUCCESS) by exact He.
  assert (Hb0 : length (i_buff s0) = 261%nat) by (unfold IFD_BUF_SIZE in Hb; change (i_buff s0) with (i_buff s); lia). clearbody s0.
  destruct (split_atr v (c_atr C (MkHw c v))) as [[a more]|] eqn:Es; cbn [mbind option_bind].
  - destruct (split_atr_inv _ _ _ _ (Hline _) Es) as (El & Hts & Hok). pose proof (Hlen (MkHw c v)) as Hlen1.
    rewrite El, length_app, length_map in Hlen1. destruct Hr as (ax & x & ->). cbn [mbind res_mbind].
    assert (Hfl : length (filled (atr_bytes a) (i_buff s0)) = length (i_buff s0)) by (apply filled_length; rewrite Hb0; lia).
    destruct (sync_Auto d c v (set_i_nr (Z.of_nat (length (atr_bytes a))) s0) IFD_XCHG_EVENT_XFR_CMPL (filled (atr_bytes a) (i_buff s0)) ax x more)
      as [Hs1 Hact]; [destruct H0; split; assumption|exact Hfl|].
    rewrite xchg_complete; [|exact (au_state _ _ _ _ _ _ _ _ Hs1)|reflexivity].
    set (s1 := set_i_xev 0 _) in Hs1, Hact.
    destruct (parse_spec protos s1 a) as (ap & q & Hps); [by eapply holds_filled|done|by rewrite Hts|lia|reflexivity|].
    eexists. split; [apply (idle_parse s1 (atr_result a) ap _ q Hact He0 (atr_result_cases a) Hps)|].
    pose proof (ended_Auto d _ c v c (atr_result a) _ _ (Auto_slot _ _ _ _ _ _ _ ap (atr_slot protos a (i_slot s1)) q Hs1 (atr_slot_keeps a _))) as Hend.
    unfold ended in *. destruct (Z.eqb_spec (atr_result a) SCS_ERR_SUCCESS) as [E|E].
    + split; [exact Hend|]. split; [by eapply holds_filled|reflexivity].
    + split; [exact Hend|exact E].
  - destruct Hr as (e & b & ax & x & l & Hev & Hbl & ->). cbn [mbind res_mbind].
    destruct (sync_Auto d c v s0 e b ax x l H0 Hbl) as [Hs1 Hact].
    destruct (xchg_error (ifd_event_restore 0 (set_i_wake true (set_i_xev e (At b ax x l s0)))) e) as (y & Hy0 & Hyp & ->);
      [exact (au_state _ _ _ _ _ _ _ _ Hs1)|reflexivity|done|].
    eexists. split; [by apply idle_error|]. pose proof (ended_Auto d _ c v c y _ _ Hs1) as Hend.
    unfold ended in *. rewrite (proj2 (Z.eqb_neq _ _) Hy0) in *. by split.
Qed.

(** Activation has succeeded with the answer [a]. *)
Record Ready (d : list Z) (c v : Z) (a : atr) s : Prop := MkReady {
  re_fin : Finished d SCS_ERR_SUCCESS IFD_SLOT_STATE_ATR_READY s; re_c : sl_clazz (i_slot s) = c; re_v : sl_conv (i_slot s) = v;
  re_buff : holds (atr_bytes a) s; re_nr : i_nr s = Z.of_nat (length (atr_bytes a)) }.
Lemma step_atr_ok d c v a s : Auto d IFD_SLOT_EVENT_ATR_OK IFD_XCHG_STATE_IDLE IFD_SLOT_STATE_ACTIVATED c v c s ->
  holds (atr_bytes a) s -> i_nr s = Z.of_nat (length (atr_bytes a)) ->
  exists s', ifd_bh_run C protos FMAX s = Ok s' /\ Ready d c v a s'.
Proof.
  intros [Hseq Hcm Hsev Hst Hw Hd Hb Hs Hc Hv Hn] Hh Hnr.
  assert (Hx := handle_last (set_i_wake false s) _ IFD_SLOT_STATE_ATR_READY _ Hsev Hs ltac:(by right; right)).
  rewrite seq_auto in Hx by exact Hseq. unfold ifd_handle_auto_seq in Hx. set (s0 := upd_slot _ _) in Hx.
  change (status s0) with IFD_SLOT_STATE_ATR_READY in Hx. eqb_eval_in Hx. cbn [mbind res_mbind] in Hx.
  rewrite complete_spec in Hx by (exact Hcm || by right). eexists.
  split; [apply quiet_run; [exact Hw|exact Hx|change (i_state _) with (i_state s); by rewrite Hst]|].
  split; try assumption. apply Finished_xev. split; try assumption; try reflexivity.
  change (i_done (upd_slot _ _)) with (i_done s ++ [SCS_ERR_SUCCESS]). by rewrite Hd.
Qed.

(** ** The whole power-on *)
Lemma run_app a b s s' : ifd_run C protos FMAX a s = Ok s' -> ifd_run C protos FMAX (a + b) s = ifd_run C protos FMAX b s'.
Proof.
  revert s. induction a as [|a IH]; intros s H; cbn [ifd_run Nat.add] in *; [by simplify_eq|].
  destruct (ifd_bh_run C protos FMAX s) as [s1|]; [|done]. cbn [mbind res_mbind] in *. by apply IH.
Qed.
Lemma run_trans a b s s1 s2 : ifd_run C protos FMAX a s = Ok s1 -> ifd_run C protos FMAX b s1 = Ok s2 ->
  ifd_run C protos FMAX (a + b) s = Ok s2.
Proof. intros H1 H2. by rewrite (run_app a b s s1). Qed.
Lemma run_1 s s' : ifd_bh_run C protos FMAX s = Ok s' -> ifd_run C protos FMAX 1 s = Ok s'.
Proof. intros H. cbn [ifd_run]. by rewrite H. Qed.
Lemma run_asleep n s : i_wake s = false -> ifd_run C protos FMAX n s = Ok s.
Proof. intros H. induction n as [|n IH]; [done|]. cbn [ifd_run]. unfold ifd_bh_run. by rewrite H. Qed.
(** The card answers in class [c] with convention [v]. *)
Definition answers (c v : Z) : option atr := if powers c v then atr_answer c v else None.
Lemma attempt d c v s : Auto d IFD_SLOT_EVENT_CLS_CHG IFD_XCHG_STATE_IDLE IFD_SLOT_STATE_PRESENT c v c s -> conv_ok v ->
  exists k s', (k <= 4)%nat /\ ifd_run C protos FMAX k s = Ok s' /\
    match answers c v with
    | Some a => Ready d c v a s'
    | None => Auto d IFD_SLOT_EVENT_PWR_OFF IFD_XCHG_STATE_IDLE IFD_SLOT_STATE_HWERROR c v c s'
    end.
Proof.
  intros H Hv. destruct (step_select d c v s H) as (s1 & E1 & H1 & Hh). unfold answers. destruct (powers c v).
  2:{ destruct (step_hw_err _ _ _ _ _ _ H1 ltac:(done) Hh) as (s2 & E2 & H2). exists 2%nat, s2. split; [lia|]. split; [|done].
      apply (run_trans 1 1 s s1); by apply run_1. }
  destruct (step_pwr_ok d c v s1 H1) as (s2 & E2 & H2 & Hp & Hi & He). rewrite Hh in Hi.
  destruct (step_sync d c v s2 H2 Hp Hi He Hv) as (s3 & E3 & H3).
  assert (R3 : ifd_run C protos FMAX 3 s = Ok s3).
  { apply (run_trans 1 2 s s1); [by apply run_1|]. apply (run_trans 1 1 s1 s2); by apply run_1. }
  destruct (atr_answer c v) as [a|].
  - destruct H3 as (H3 & Hb & Hn). destruct (step_atr_ok d c v a s3 H3 Hb Hn) as (s4 & E4 & H4). exists 4%nat, s4.
    split; [lia|]. split; [|done]. apply (run_trans 3 1 s s3); [done|by apply run_1].
  - destruct H3 as (H3 & He3). destruct (step_hw_err _ _ _ _ _ _ H3 ltac:(done) He3) as (s4 & E4 & H4). exists 4%nat, s4.
    split; [lia|]. split; [|done]. apply (run_trans 3 1 s s3); [done|by apply run_1].
Qed.

Fixpoint first_answer (tries : list (Z * Z)) : option (Z * Z * atr) :=
  match tries with
  | [] => None
  | (c, v) :: tries => match answers c v with Some a => Some (c, v, a) | None => first_answer tries end
  end.
Fixpoint follows (n v : Z) (tries : list (Z * Z)) : Prop :=
  match tries with
  | [] => a_class (fst (next_try n v)) = false
  | (c, w) :: tries => next_try n v = (c, w) /\ a_class c = true /\ conv_ok w /\ follows c w tries
  end.
Lemma all_tries tries : forall d st c v n s, Auto d IFD_SLOT_EVENT_PWR_OFF IFD_XCHG_STATE_IDLE st c v n s -> 1 <= st ->
  follows n v tries -> exists k s', (k <= 1 + 5 * length tries)%nat /\ ifd_run C protos FMAX k s = Ok s' /\
    match first_answer tries with
    | Some (c, v, a) => Ready d c v a s'
    | None => Finished d SCS_ERR_HW_ERROR IFD_SLOT_STATE_PRESENT s'
    end.
Proof.
  induction tries as [|[c' w] tries IH]; intros d st c v n s H Hst Hf; cbn [follows first_answer length] in *;
    destruct (step_off d st c v n s H Hst) as (s1 & E1 & H1); cbv zeta in H1.
  - rewrite Hf in H1. exists 1%nat, s1. split; [lia|]. split; [by apply run_1|done].
  - destruct Hf as (Hn & Ha & Hw & Hf). rewrite Hn in H1. cbn [fst snd] in H1. rewrite Ha in H1.
    destruct (attempt d c' w s1 H1 Hw) as (k & s2 & Hk & E2 & H2).
    destruct (answers c' w) as [a|].
    + exists (1 + k)%nat, s2. split; [lia|]. split; [|done]. apply (run_trans 1 k s s1); [by apply run_1|done].
    + destruct (IH d _ c' w c' s2 H2 ltac:(done) Hf) as (k2 & s3 & Hk2 & E3 & H3). exists (1 + k + k2)%nat, s3.
      split; [lia|]. split; [|done]. apply (run_trans (1 + k) k2 s s2); [|done]. apply (run_trans 1 k s s1); [by apply run_1|done].
Qed.
End Slot.

(** The combinations of class and convention, in the order in which they are tried. *)
Definition tries : list (Z * Z) :=
  [(IFD_CLASS_A, IFD_CONV_DIRECT); (IFD_CLASS_A, IFD_CONV_INVERSE); (IFD_CLASS_B, IFD_CONV_DIRECT);
   (IFD_CLASS_B, IFD_CONV_INVERSE); (IFD_CLASS_C, IFD_CONV_DIRECT); (IFD_CLASS_C, IFD_CONV_INVERSE)].

(** Power-on with automatic class selection, for protocols with [ProtosOk]. *)
Lemma power_on_completes {P} C (protos : list (ifd_proto P)) {Hp : ProtosOk protos} FMAX s :
  IFD_HW_FREQ_DEF <= FMAX -> (forall h, line_ok (c_atr C h)) -> (forall h, (length (c_atr C h) < 256)%nat) ->
  i_seq s = IFD_SEQ_IDLE -> IFD_SLOT_STATE_PRESENT <= status s -> i_sev s = 0 -> i_state s = IFD_XCHG_STATE_IDLE ->
  Z.of_nat (length (i_buff s)) = IFD_BUF_SIZE ->
  exists s1 s2, ifd_power_on IFD_CLASS_AUTO s = (SCS_ERR_PROGRESS, s1) /\
    (forall n, (31 <= n)%nat -> ifd_run C protos FMAX n s1 = Ok s2) /\
    i_seq s2 = IFD_SEQ_IDLE /\ i_sev s2 = 0 /\ i_wake s2 = false /\
    match first_answer C tries with
    | Some (c, v, a) => i_done s2 = i_done s ++ [SCS_ERR_SUCCESS] /\ status s2 = IFD_SLOT_STATE_ATR_READY /\
        sl_clazz (i_slot s2) = c /\ sl_conv (i_slot s2) = v /\
        take (length (atr_bytes a)) (i_buff s2) = atr_bytes a /\ i_nr s2 = Z.of_nat (length (atr_bytes a))
    | None => i_done s2 = i_done s ++ [SCS_ERR_HW_ERROR] /\ status s2 = IFD_SLOT_STATE_PRESENT
    end.
Proof.
  intros Hf Hl Hlen Hseq Hst Hsev Hx Hb. unfold ifd_power_on, scs_auto_seq, ifd_slot_exist. rewrite Hseq.
  rewrite (proj2 (Z.eqb_neq (status s) IFD_SLOT_STATE_NOTPRESENT)) by (unfold IFD_SLOT_STATE_PRESENT in Hst; unfold IFD_SLOT_STATE_NOTPRESENT; lia).
  set (s1 := ifd_seq_onoff true (ifd_seq_set IFD_SEQ_AUTO_SEQ (ifd_deactivate (__ifd_class_init IFD_CLASS_AUTO s)))).
  assert (Ha : Auto (i_done s) IFD_SLOT_EVENT_PWR_OFF IFD_XCHG_STATE_IDLE (status s) IFD_CLASS_NONE IFD_CONV_DIRECT IFD_CLASS_AUTO s1).
  { split; try assumption; try reflexivity. cbn. by rewrite Hsev. }
  destruct (all_tries C protos FMAX Hf Hl Hlen tries _ _ _ _ _ _ Ha Hst) as (k & s2 & Hk & E & H).
  { cbn [follows tries]. unfold conv_ok. repeat match goal with |- _ /\ _ => split end; auto. }
  exists s1, s2. split; [reflexivity|].
  assert (Hfin : exists e st, Finished (i_done s) e st s2) by (destruct (first_answer C tries) as [[[c v] a]|]; [destruct H|]; eauto).
  destruct Hfin as (e & st & [F1 F2 F3 F4 F5 F6 F7]). split.
  { intros n Hn. replace n with (k + (n - k))%nat by (cbn in Hk; lia). apply (run_trans _ _ _ _ _ _ s2); [exact E|by apply run_asleep]. }
  split; [done|]. split; [done|]. split; [done|]. destruct (first_answer C tries) as [[[c v] a]|].
  - destruct H as [[] ? ? [m Hm] ?]. rewrite Hm, take_app_length. done.
  - by destruct H.
Qed.

#[export] Instance protos_example_ok : ProtosOk protos_example.
Proof.
  split; [by eexists _, _|]. intros t i p s Hi _. unfold protos_example in Hi. cbn [proto_index] in Hi.
  exists (i_p s), (sl_cgt (i_slot s)), (sl_bgt (i_slot s)), (sl_cwt (i_slot s)), (sl_bwt (i_slot s)).
  assert (pr_conf_param p = Ok) as -> by (repeat case_match; by simplify_eq). by destruct s as [[]].
Qed.
(** A card that needs class B and the inverse convention. *)
Definition atr_inverse : atr := MkAtr IFD_CONV_INVERSE (MkIface None None None 0) [] [] [].
Definition card_b : card :=
  MkCard (fun h => hw_clazz h =? IFD_CLASS_B) (fun _ => true) (fun _ => map Byte (atr_bytes atr_inverse)) 0xFF.
Lemma card_b_line h : line_ok (c_atr card_b h).
Proof.
  unfold line_ok. cbn. repeat (apply Forall_cons_2; [vm_compute; split; [discriminate|reflexivity]|]). apply Forall_nil_2.
Qed.

(** An inserted card is not activated.  CONFIG_IFD_AUTO_ACTIVATE is there to power a card
    when it is inserted, but the automatic sequence is requested while the slot is still in
    the state NOTPRESENT, where it is refused: the slot becomes PRESENT, no sequence is
    started and the bottom half sleeps. *)
Theorem insertion_not_activated {P} C (protos : list (ifd_proto P)) FMAX s :
  status s = IFD_SLOT_STATE_NOTPRESENT -> i_seq s = IFD_SEQ_IDLE -> i_sev s = 0 -> i_state s = IFD_XCHG_STATE_IDLE ->
  exists s', (forall n, (1 <= n)%nat -> ifd_run C protos FMAX n (ifd_pres_handler true s) = Ok s') /\
    status s' = IFD_SLOT_STATE_PRESENT /\ i_seq s' = IFD_SEQ_IDLE /\ i_wake s' = false /\ i_hw s' = i_hw s.
Proof.
  intros Hs Hq Hv Hx. unfold ifd_pres_handler, ifd_detect_icc_in. rewrite Hs. eqb_eval.
  set (s1 := ifd_slot_raise _ s).
  assert (E : ifd_handle_slot_state C protos FMAX (set_i_wake false s1) =
    Ok (ifd_event_restore 0 (upd_slot (set_sl_status IFD_SLOT_STATE_PRESENT) (set_i_sev 0 (set_i_wake false s1))))).
  { unfold ifd_handle_slot_state, ifd_event_save. cbv zeta. change (i_sev (set_i_wake false s1)) with (i_sev s ||| IFD_SLOT_EVENT_ICC_IN).
    rewrite Hv. change (0 ||| IFD_SLOT_EVENT_ICC_IN) with IFD_SLOT_EVENT_ICC_IN. set (s2 := set_i_sev 0 _).
    do 5 (rewrite on_event_off by reflexivity; cbn [mbind res_mbind]). change (status (set_i_wake false s1)) with (status s). rewrite Hs. eqb_eval.
    rewrite on_event_on by reflexivity. unfold ifd_handle_icc_in, scs_auto_seq, ifd_slot_exist.
    change (i_seq s2) with (i_seq s). change (status s2) with (status s). rewrite Hq, Hs. eqb_eval. cbn [negb]. eqb_eval. cbn [negb snd].
    unfold ifd_slot_set_state, ifd_handle_slot_seq. change (i_seq (upd_slot _ s2)) with (i_seq s). rewrite Hq. eqb_eval. reflexivity. }
  eexists. split; [|split; [|split; [|split]]].
  - intros n Hn. destruct n as [|n]; [lia|]. cbn [ifd_run].
    rewrite (quiet_run C protos FMAX s1 _ eq_refl E); [|change (i_state _) with (i_state s); by rewrite Hx]. cbn [mbind res_mbind].
    apply run_asleep. reflexivity.
  - reflexivity.
  - exact Hq.
  - reflexivity.
  - reflexivity.
Qed.
Lemma insertion_not_activated_witness :
  exists s', ifd_run card_b protos_example 5000 100 (ifd_pres_handler true ifd_example) = Ok s' /\
    status s' = IFD_SLOT_STATE_PRESENT /\ i_seq s' = IFD_SEQ_IDLE.
Proof.
  destruct (insertion_not_activated card_b protos_example 5000 ifd_example eq_refl eq_refl eq_refl eq_refl) as (s' & E & H1 & H2 & _).
  exists s'. split; [apply E; lia|done].
Defined.

(** A command that fails for good is never reported.  When the protocol gives up with an
    error that is not a timeout, a parity error or an overrun (T=1 does after nine
    failures), the slot is meant to be reset; the event raised for that is ignored in the
    state PPS_READY.  The callback is not called, the exchange stays in its error state,
    and every further request is refused with SCS_ERR_BUSY_SLOT. *)
Theorem exchange_error_hangs {P} C (protos : list (ifd_proto P)) FMAX s i p e q :
  status s = IFD_SLOT_STATE_PPS_READY -> i_seq s = IFD_SEQ_INTERCHANGE -> i_state s = IFD_XCHG_STATE_BUSY -> i_sev s = 0 ->
  i_xev s = IFD_XCHG_EVENT_XFR_CMPL -> i_wake s = true -> ifd_get_protocol protos s = Some (i, p) ->
  (forall s1, pr_xchg_cmpl p s1 = Ok (set_i_p (q (i_p s1)) (set_i_error e s1))) ->
  ~ In e [SCS_ERR_SUCCESS; SCS_ERR_PROGRESS; SCS_ERR_TIMEOUT; SCS_ERR_PARITY_ERR; SCS_ERR_OVERRUN] ->
  exists s', (forall n, (2 <= n)%nat -> ifd_run C protos FMAX n s = Ok s') /\ i_wake s' = false /\ i_done s' = i_done s /\
    i_error s' = e /\ i_seq s' = IFD_SEQ_INTERCHANGE /\ ifd_power_off s' = (SCS_ERR_BUSY_SLOT, s') /\
    (forall nc ne, ifd_xchg_block protos nc ne s' = Ok (SCS_ERR_BUSY_SLOT, s')).
Proof.
  intros Hs Hq Hx Hv He Hw Hg Hp Hn. cbn [In] in Hn.
  assert (E1 : ifd_handle_slot_state C protos FMAX (set_i_wake false s) = Ok (set_i_sev 0 (set_i_wake false s))).
  { unfold ifd_handle_slot_state, ifd_event_save. cbv zeta. change (i_sev (set_i_wake false s)) with (i_sev s). rewrite Hv.
    do 5 (rewrite on_event_off by reflexivity; cbn [mbind res_mbind]). change (status (set_i_wake false s)) with (status s). rewrite Hs. eqb_eval.
    rewrite on_event_off by reflexivity. reflexivity. }
  set (s1 := set_i_sev 0 (set_i_wake false s)) in E1.
  set (s2 := set_i_p (q (i_p s1)) (set_i_error e (set_i_xev 0 s1))).
  assert (E2 : ifd_bh_run C protos FMAX s = Ok (set_i_state IFD_XCHG_STATE_ERROR (ifd_slot_raise IFD_SLOT_EVENT_HW_ERR s2))).
  { rewrite bh_run, E1 by done. cbn [mbind res_mbind]. rewrite xchg_complete; [|exact Hx|exact He].
    unfold ifd_xchg_idle, ifd_proto_cmpl. change (i_state (set_i_xev 0 s1)) with (i_state s). change (status (set_i_xev 0 s1)) with (status s).
    rewrite Hx, Hs. eqb_eval. change (ifd_get_protocol protos (set_i_xev 0 s1)) with (ifd_get_protocol protos s). rewrite Hg.
    cbn [oob mbind res_mbind]. rewrite Hp. cbn [mbind res_mbind].
    change (set_i_p (q (i_p (set_i_xev 0 s1))) (set_i_error e (set_i_xev 0 s1))) with s2. change (i_error s2) with e. change (i_seq s2) with (i_seq s).
    rewrite Hq. rewrite !(proj2 (Z.eqb_neq e _)) by (unfold not in *; intros ->; tauto). reflexivity. }
  set (s3 := set_i_state _ _) in E2.
  assert (E3 : ifd_bh_run C protos FMAX s3 = Ok (set_i_xev 0 (ifd_event_restore 0 (set_i_sev 0 (set_i_wake false s3))))).
  { apply quiet_run; [reflexivity| |done]. apply handle_hw_err_ready; [reflexivity| |].
    - change (i_error _) with e. intros ->. tauto.
    - change (status _) with (status s). by rewrite Hs. }
  set (s4 := set_i_xev 0 _) in E3. exists s4.
  assert (Hx4 : ifd_slot_exist s4 = SCS_ERR_BUSY_SLOT).
  { unfold ifd_slot_exist. change (i_seq s4) with (i_seq s). by rewrite Hq. }
  split; [|split; [reflexivity|split; [reflexivity|split; [reflexivity|split; [exact Hq|]]]]].
  - intros n Hle. destruct n as [|[|n]]; [lia|lia|]. cbn [ifd_run]. rewrite E2. cbn [mbind res_mbind]. rewrite E3. cbn [mbind res_mbind].
    apply run_asleep. reflexivity.
  - split; [unfold ifd_power_off; by rewrite Hx4|]. intros nc ne. unfold ifd_xchg_block, ifd_slot_active. by rewrite Hx4.
Qed.
(** A protocol that gives up with SCS_ERR_HW_ERROR. *)
Definition proto_fails : ifd_proto unit :=
  MkProto 0 (fun _ _ _ _ q => q) (fun _ _ s => Ok (SCS_ERR_PROGRESS, s)) Ok (fun s => Ok (set_i_p (i_p s) (set_i_error SCS_ERR_HW_ERROR s)))
    Ok (fun q => q) Ok (fun q => q).
Definition busy_example : ifd unit :=
  set_i_wake true (set_i_xev IFD_XCHG_EVENT_XFR_CMPL (set_i_state IFD_XCHG_STATE_BUSY (set_i_seq IFD_SEQ_INTERCHANGE
    (upd_slot (set_sl_status IFD_SLOT_STATE_PPS_READY) ifd_example)))).
Lemma exchange_error_hangs_witness :
  exists s', ifd_run card_b [proto_fails] 5000 1000 busy_example = Ok s' /\ i_done s' = [] /\ ifd_power_off s' = (SCS_ERR_BUSY_SLOT, s').
Proof.
  destruct (exchange_error_hangs card_b [proto_fails] 5000 busy_example 0 proto_fails SCS_ERR_HW_ERROR (fun x => x)
    eq_refl eq_refl eq_refl eq_refl eq_refl eq_refl eq_refl ltac:(reflexivity) ltac:(cbn; intuition discriminate))
    as (s' & E & _ & Hd & _ & _ & Ho & _).
  exists s'. split; [apply E; lia|done].
Defined.
