(* ===== verification/Pps.v ===== *)
(** * Pps: parameters of the protocols, and their selection

    The parameter functions of kernel/scs/ifd_t0.c and ifd_t1.c as callbacks of the slot
    machine ([Ifd]), the interface [ProtosOk] discharged for them, and theorems on the PPS
    exchange that [ifd_set_t0_param] and [ifd_set_t1_param] start: what a card has to answer,
    and what becomes of the slot when it does not.  The exchange callbacks, which run on the
    states of [T0] and [T1], are parameters here; [Reader] supplies them.  IFD_WT_RATIO is a number from 1 to 10
    (Kconfig); the character repetition that is switched with [ifd_config_crep] is hardware. *)
From S2P Require Import Prelude Bitops MulDiv CString T0 T1 Ifd Atr Slot.
From stdpp Require Import list.
Local Open Scope Z_scope.
Local Open Scope c_scope.

Definition IFD_N_MINIMUM : Z := 0xFF.
Definition SCS_PROTO_T1 : Z := 0x01.
Definition IFD_T0_WWT_FACTOR : Z := 960.
Definition IFD_T1_WWT_FACTOR : Z := 960.

(** The state of both protocols: [ifd_t0_conf.wi], the state of T=1, the exchange of T=0. *)
Record proto_conf : Type := MkConf { c_wi : Z; c_t1 : t1; c_t0 : t0 }.
Definition rd_state : Type := ifd proto_conf.

Section Protocols.
Context (IFD_WT_RATIO : Z).
Implicit Types (s : rd_state).
Definition upd_t1 (f : t1 -> t1) s : rd_state := set_i_p (MkConf (c_wi (i_p s)) (f (c_t1 (i_p s))) (c_t0 (i_p s))) s.

(** ** T=0 *)
Definition ifd_t0_apply_wi (wi : Z) (q : proto_conf) : proto_conf := MkConf wi (c_t1 q) (c_t0 q).
Definition ifd_t0_reset_param (q : proto_conf) : proto_conf := ifd_t0_apply_wi IFD_T0_WI_IMPLICIT q.
Definition ifd_t0_nego_pps (q : proto_conf) : proto_conf := q.
Definition ifd_t0_conf_param s : res rd_state :=
  let n := sl_n (i_slot s) in
  let s := if n =? IFD_N_MINIMUM then ifd_apply_bgt 12 (ifd_apply_cgt 12 s)
           else ifd_apply_bgt (u16 (n + 12)) (ifd_apply_cgt (u16 (n + 12)) s) in
  D ← ifd_get_D (LOHALF (sl_fd (i_slot s)));
  let wwt := mul16u (u16 (c_wi (i_p s) * D)) (u16 (mul16u IFD_WT_RATIO IFD_T0_WWT_FACTOR)) in
  Ok (ifd_apply_bwt wwt (ifd_apply_cwt wwt s)).

(** ** T=1 *)
Definition ifd_t1_nego_pps (q : proto_conf) : proto_conf := q.
Definition ifd_t1_conf_param s : res rd_state :=
  let s := ifd_apply_bgt 22 s in
  let n := sl_n (i_slot s) in
  let s := if n =? IFD_N_MINIMUM then ifd_apply_cgt 11 s else ifd_apply_cgt (u16 (n + 12)) s in
  let wi := t1_wi (c_t1 (i_p s)) in
  let cwt := u32 (u32 (1 <<< LOHALF wi) + 11) in
  D ← ifd_get_D (LOHALF (sl_fd (i_slot s)));
  let bwt := u32 (mul16u (u16 (mul16u (u16 (1 <<< HIHALF wi)) IFD_T1_WWT_FACTOR)) D + 11) in
  let s := ifd_apply_bwt bwt (ifd_apply_cwt cwt s) in
  Ok (upd_t1 (fun q => __ifd_t1_xfr_resync (__ifd_t1_xfr_reset q)) s).

(** ** Registration, with the exchange callbacks [x0] and [x1] *)
Definition opt (b : bool) (v : Z) : option Z := if b then Some v else None.
Context (x0 x1 : ifd_proto proto_conf).
Definition ifd_t0 : ifd_proto proto_conf :=
  MkProto SCS_PROTO_T0 (fun y ta tb tc q => ifd_t0_apply_wi (ifd_t0_atr_parse (opt (has y TC_EXISTS) tc)) q)
    (pr_xchg_init x0) (pr_xchg_aval x0) (pr_xchg_cmpl x0) (pr_ne_expire x0)
    ifd_t0_reset_param ifd_t0_conf_param ifd_t0_nego_pps.
Definition ifd_t1 : ifd_proto proto_conf :=
  MkProto SCS_PROTO_T1 (fun y ta tb tc q => MkConf (c_wi q)
      (ifd_t1_atr_parse (opt (has y TA_EXISTS) ta) (opt (has y TB_EXISTS) tb) (opt (has y TC_EXISTS) tc) (c_t1 q)) (c_t0 q))
    (pr_xchg_init x1) (pr_xchg_aval x1) (pr_xchg_cmpl x1) (pr_ne_expire x1)
    (fun q => MkConf (c_wi q) (ifd_t1_reset_param (c_t1 q)) (c_t0 q)) ifd_t1_conf_param ifd_t1_nego_pps.
Definition ifd_protos : list (ifd_proto proto_conf) := [ifd_t0; ifd_t1].
Definition ifd_set_t0_param (fd gi wi : Z) s : res (Z * rd_state) :=
  err ← ifd_valid_fd fd;
  if negb (err =? SCS_ERR_SUCCESS) then Ok (err, s)
  else
    let s := upd_slot (fun l => set_sl_nego_proto SCS_PROTO_T0 (set_sl_nego_fd fd l)) s in
    let s := ifd_apply_n gi s in
    ifd_set_param ifd_protos (set_i_p (ifd_t0_apply_wi wi (i_p s)) s).
Definition ifd_set_t1_param (fd gi wi ifsc nad : Z) s : res (Z * rd_state) :=
  err ← ifd_valid_fd fd;
  if negb (err =? SCS_ERR_SUCCESS) then Ok (err, s)
  else
    let s := upd_slot (fun l => set_sl_nego_proto SCS_PROTO_T1 (set_sl_nego_fd fd l)) s in
    let s := ifd_apply_n gi s in
    let s := upd_t1 (fun q => set_nad nad (ifd_t1_apply_ifsc ifsc (ifd_t1_apply_wi wi q))) s in
    ifd_set_param ifd_protos s.

#[export] Instance ifd_protos_ok : ProtosOk ifd_protos.
Proof.
  split; [by eexists _, _|]. intros t i p s Hi (_ & _ & _ & D & HD & _).
  assert (Hp : p = ifd_t0 \/ p = ifd_t1) by (cbn [ifd_protos proto_index] in Hi; repeat case_match; simplify_eq; auto).
  destruct Hp as [-> | ->]; cbn [pr_conf_param ifd_t0 ifd_t1].
  - exists (i_p s). unfold ifd_t0_conf_param.
    set (g := if sl_n (i_slot s) =? IFD_N_MINIMUM then 12 else u16 (sl_n (i_slot s) + 12)).
    set (w := mul16u (u16 (c_wi (i_p s) * D)) (u16 (mul16u IFD_WT_RATIO IFD_T0_WWT_FACTOR))).
    exists g, g, w, w.
    subst g. destruct (sl_n (i_slot s) =? IFD_N_MINIMUM).
    all: match goal with |- context [ifd_get_D (LOHALF ?f)] => change f with (sl_fd (i_slot s)) end; rewrite HD; cbn [mbind res_mbind].
    all: match goal with |- context [u16 (c_wi ?f * ?d)] => change f with (i_p s) end; fold w; clearbody w.
    all: destruct s as [[]]; reflexivity.
  - set (q := c_t1 (i_p s)). exists (MkConf (c_wi (i_p s)) (__ifd_t1_xfr_resync (__ifd_t1_xfr_reset q)) (c_t0 (i_p s))). unfold ifd_t1_conf_param.
    exists (if sl_n (i_slot s) =? IFD_N_MINIMUM then 11 else u16 (sl_n (i_slot s) + 12)), 22, (u32 (u32 (1 <<< LOHALF (t1_wi q)) + 11)),
      (u32 (mul16u (u16 (mul16u (u16 (1 <<< HIHALF (t1_wi q))) IFD_T1_WWT_FACTOR)) D + 11)).
    change (sl_n (i_slot (ifd_apply_bgt 22 s))) with (sl_n (i_slot s)). destruct (sl_n (i_slot s) =? IFD_N_MINIMUM).
    all: match goal with |- context [ifd_get_D (LOHALF ?f)] => change f with (sl_fd (i_slot s)) end; rewrite HD; cbn [mbind res_mbind].
    all: match goal with |- context [LOHALF (t1_wi ?f)] => change f with q end.
    all: generalize (u32 (mul16u (u16 (mul16u (u16 (1 <<< HIHALF (t1_wi q))) IFD_T1_WWT_FACTOR)) D + 11)) (u32 (u32 (1 <<< LOHALF (t1_wi q)) + 11)).
    all: intros bwt cwt; subst q; destruct s as [[]]; reflexivity.
Qed.
End Protocols.

(** ** The request and the reply *)
Section Exchange.
Context {P : Type} (C : card) (protos : list (ifd_proto P)) {Hprotos : ProtosOk protos} (FMAX : Z).
Implicit Types (s : ifd P) (l : ifd_slot) (b : list Z).

Definition differ l : bool := negb (sl_nego_fd l =? sl_fd l).
Definition pps0 l : Z := if differ l then sl_nego_proto l ||| IFD_PPS_EXISTS 0 else sl_nego_proto l.
(** PPSS, PPS0, PPS1 if another Fi/Di is wanted, PCK. *)
Definition pps_request l : list Z :=
  [IFD_PPS_PPSS; pps0 l] ++ (if differ l then [sl_nego_fd l] else []) ++
  [if differ l then (IFD_PPS_PPSS ^^^ sl_nego_fd l) ^^^ pps0 l else IFD_PPS_PPSS ^^^ pps0 l].
(** The reply as the card may send it: PPSS, PPS0, the bytes PPS0 announces, PCK. *)
Definition pps_reply (l : list line) : option (list Z * list line) :=
  '(h, l) ← line_take 2 l;
  match h with
  | [ss; p0] => '(bs, l) ← line_take (Z.to_nat (ifd_pps_bytes p0 + 1)) l; Some (ss :: p0 :: bs, l)
  | _ => None
  end.
(** How many of PPS1, PPS2, PPS3 come without a gap. *)
Fixpoint runs (n : nat) (j p0 : Z) : nat :=
  match n with O => 0 | S n => if has p0 (IFD_PPS_EXISTS j) then S (runs n (j + 1) p0) else 0 end.
Definition lead (p0 : Z) : nat := runs 3 0 p0.
(** The reply the parser accepts when it keeps the request [req]. *)
Definition ppsr_ok (req resp : list Z) : bool :=
  match resp with
  | ss :: p0 :: bs =>
      (ss =? IFD_PPS_PPSS) && (IFD_PPS_PROTO p0 =? IFD_PPS_PROTO (nth 0 req 0)) &&
      bool_decide (take (lead p0) bs = take (lead p0) (tail req)) &&
      (xor_bytes (ss ^^^ p0) (take (S (lead p0)) bs) =? 0)
  | _ => false
  end.

Lemma xchg_write_filled pre b x s : i_buff s = filled pre b -> length b = 261%nat -> (length pre < 261)%nat ->
  ifd_xchg_write (Z.of_nat (length pre)) x s = Ok (set_i_buff (filled (pre ++ [x]) b) s).
Proof.
  intros Hb Hl Hp. unfold ifd_xchg_write, IFD_BUF_SIZE. rewrite (proj2 (Z.leb_gt _ _)) by lia. cbn [bug_on mbind res_mbind].
  by rewrite Hb, Nat2Z.id, wr_filled by lia.
Qed.
Lemma xchg_read_filled pre b i x s : i_buff s = filled pre b -> pre !! i = Some x ->
  ifd_xchg_read (Z.of_nat i) s = Ok x.
Proof.
  intros Hb Hx. unfold ifd_xchg_read, rdb. rewrite (proj2 (Z.ltb_ge _ 0)) by lia. unfold rd.
  rewrite Hb, Nat2Z.id, filled_lookup by (by eapply lookup_lt_Some). by rewrite Hx.
Qed.
Definition proto_check (t : Z) : bool :=
  negb (has t 0x10) && negb (has t 0x20) && negb (has t 0x40) && has (t ||| 0x10) 0x10 && negb (has (t ||| 0x10) 0x20) &&
  negb (has (t ||| 0x10) 0x40) && (IFD_PPS_PROTO t =? t) && (IFD_PPS_PROTO (t ||| 0x10) =? t).
Lemma proto_half_check t : 0 <= t < 16 -> has t 0x10 = false /\ has t 0x20 = false /\ has t 0x40 = false /\
  has (t ||| 0x10) 0x10 = true /\ has (t ||| 0x10) 0x20 = false /\ has (t ||| 0x10) 0x40 = false /\
  IFD_PPS_PROTO t = t /\ IFD_PPS_PROTO (t ||| 0x10) = t.
Proof.
  intros Ht. assert (H : forallb proto_check (seqZ 0 16) = true) by reflexivity.
  rewrite forallb_forall in H. specialize (H t ltac:(apply list_elem_of_In, elem_of_seqZ; lia)).
  unfold proto_check in H. rewrite !andb_true_iff, !negb_true_iff, !Z.eqb_eq in H. tauto.
Qed.
(** The request as [ifd_pps_save] keeps it. *)
Definition kept l (req : list Z) : list Z := pps0 l :: (if differ l then sl_nego_fd l else nth 1 req 0) :: drop 2 req.

Lemma save_spec req b p r0 r1 r2 r3 s : px_req (i_px s) = [r0; r1; r2; r3] -> has p 0x20 = false -> has p 0x40 = false ->
  i_buff s = filled req b -> req !! 1%nat = Some p -> (has p 0x10 = true -> exists x, req !! 2%nat = Some x) ->
  ifd_pps_save s = Ok (set_i_px (set_px_req [p; if has p 0x10 then nth 2 req 0 else r1; r2; r3] (i_px s)) s).
Proof.
  intros Hq H2 H3 Hb Hp Hx. unfold ifd_pps_save. rewrite (xchg_read_filled req b 1 p) by done. cbn [mbind res_mbind]. rewrite Hq.
  change (wr [r0; r1; r2; r3] 0 ?x) with (Ok [x; r1; r2; r3]). cbn [mbind res_mbind].
  unfold pps_save_byte. change (IFD_PPS_EXISTS 0) with 0x10. change (IFD_PPS_EXISTS 1) with 0x20. change (IFD_PPS_EXISTS 2) with 0x40.
  rewrite H2, H3. destruct (has p 0x10); [|reflexivity]. destruct (Hx eq_refl) as [x Ex].
  rewrite (xchg_read_filled req b 2 x) by done. cbn [mbind res_mbind]. rewrite (nth_lookup_Some req 2 0 x Ex). reflexivity.
Qed.
Lemma build_spec s : length (i_buff s) = 261%nat -> length (px_req (i_px s)) = 4%nat ->
  0 <= sl_nego_proto (i_slot s) < 16 ->
  __ifd_pps_build s = Ok (set_i_px (set_px_req (kept (i_slot s) (px_req (i_px s))) (i_px s))
    (set_i_buff (filled (pps_request (i_slot s)) (i_buff s)) s)).
Proof.
  intros Hb Hq Ht. destruct (proto_half_check _ Ht) as (H1 & H2 & H3 & H4 & H5 & H6 & _). unfold __ifd_pps_build, pps_request, kept, pps0.
  destruct (px_req (i_px s)) as [|r0 [|r1 [|r2 [|r3 [|]]]]] eqn:Eq; try done.
  fold (differ (i_slot s)). change (IFD_PPS_EXISTS 0) with 0x10.
  destruct (differ (i_slot s)); rewrite ?H1, ?H4;
    rewrite (xchg_write_filled [] (i_buff s)) by (done || (cbn; lia)); cbn [mbind res_mbind app];
    rewrite (xchg_write_filled [IFD_PPS_PPSS] (i_buff s)) by (done || (cbn; lia)); cbn [mbind res_mbind app];
    rewrite (xchg_write_filled [_; _] (i_buff s)) by (done || (cbn; lia)); cbn [mbind res_mbind app];
    [rewrite (xchg_write_filled [_; _; _] (i_buff s)) by (done || (cbn; lia)); cbn [mbind res_mbind app]|].
  - rewrite (save_spec [_; _; _; _] (i_buff s) (sl_nego_proto (i_slot s) ||| 0x10) r0 r1 r2 r3) by (done || by eexists).
    by rewrite H4.
  - rewrite (save_spec [_; _; _] (i_buff s) (sl_nego_proto (i_slot s)) r0 r1 r2 r3) by (done || by rewrite H1). by rewrite H1.
Qed.

(** ** Sending and receiving *)
Definition tx_event (l : list line) : option hw_event := match l with TxEvent e :: _ => Some e | _ => None end.
Lemma send_spec a rs nc ne (l : list line) s post req : tx_event l = None -> i_xev s = 0 ->
  forall pre snt, Z.of_nat (length (pre ++ req)) < 2 ^ 16 ->
  let b := pre ++ req ++ post in
  xfr_send (length req) (At b a (MkXfr 0 rs nc ne (Z.of_nat (length pre)) 0) l (set_i_sent snt s)) =
  Ok (At b a (MkXfr 0 rs nc ne (Z.of_nat (length (pre ++ req))) 0) l (set_i_sent (snt ++ req) s)).
Proof.
  intros Hq Hx. induction req as [|x req IH]; intros pre snt Hl b; [by rewrite !app_nil_r, xfr_send_none|]. cbn [length xfr_send].
  replace (ifd_xchg_raised_any _) with false by (unfold ifd_xchg_raised_any; cbn; by rewrite Hx).
  unfold rdb. cbn [i_buff i_xfr At set_i_buff set_i_ax set_i_xfr xf_tx_start xf_tx]. rewrite Z.add_0_l, (proj2 (Z.ltb_ge _ 0)) by lia.
  unfold rd. assert (Hb : b !! length pre = Some x) by (by apply list_lookup_middle). rewrite Nat2Z.id, Hb. cbn [oob mbind res_mbind].
  rewrite length_app in Hl. cbn [length] in Hl.
  specialize (IH (pre ++ [x]) (snt ++ [x])). rewrite <- !app_assoc in IH. cbn [app] in IH. specialize (IH ltac:(by rewrite length_app; cbn; lia)).
  cbv zeta in IH. change (pre ++ x :: req ++ post) with b in IH. rewrite <- IH. f_equal.
  assert (Ew : forall s1, i_line s1 = l -> ifd_hw_write_byte x s1 = set_i_sent (i_sent s1 ++ [x]) s1).
  { intros s1 E1. unfold ifd_hw_write_byte. rewrite E1. by destruct l as [|[]]. }
  rewrite Ew by reflexivity. unfold upd_xfr, At. cbn.
  rewrite wrap_id, length_app by lia. cbn. by rewrite Nat2Z.inj_add.
Qed.
(** A PPS request [req] is about to be sent. *)
Definition pps_pending (req : list Z) s : Prop :=
  i_xev s = 0 /\ i_expire s = ExPps /\ px_cmpl (i_px s) = false /\ sl_tx (i_slot s) = 0 /\ sl_nc (i_slot s) = Z.of_nat (length req) /\
  sl_rx (i_slot s) = 0 /\ sl_ne (i_slot s) = 2 /\ (exists b, i_buff s = filled req b /\ length b = 261%nat) /\
  (0 < length req < 261)%nat.
Definition pps_done (px : ifd_xchg_pps) (req : list Z) s : ifd P := set_i_px px (set_i_sent (i_sent s ++ req) s).

Lemma expire_pps ss p0 b a x (l : list line) s : i_expire s = ExPps -> px_cmpl (i_px s) = false -> xf_rx_start x = 0 ->
  let size := ifd_pps_bytes p0 + 1 in
  ifd_xfr_ne_expire protos (At (filled [ss; p0] b) a x l s) =
  Ok (At (filled [ss; p0] b) a (MkXfr 0 2 0 size 0 0) l (set_i_px (MkPx (px_req (i_px s)) (px_size (i_px s)) (size + 2) true) s)).
Proof.
  intros He Hc Hx size. unfold ifd_xfr_ne_expire. replace (i_expire _) with ExPps by (by cbn). unfold ifd_pps_expire.
  change (i_px (At _ _ _ _ s)) with (i_px s). rewrite Hc. cbn [negb]. unfold ifd_xfr_read. cbn [i_xfr At set_i_buff set_i_ax set_i_xfr i_buff].
  rewrite Hx. cbn. change (rdb _ (0 + 1)) with (Ok p0). reflexivity.
Qed.
Lemma pps_bytes_range p0 : 0 <= ifd_pps_bytes p0 <= 3.
Proof. unfold ifd_pps_bytes. by destruct (has p0 _), (has p0 _), (has p0 _). Qed.

(** An event at the first write ends the exchange. *)
Lemma write_event x b a xf h (l : list line) s : i_xev s = 0 ->
  ifd_hw_write_byte x (At b a xf (TxEvent h :: l) s) =
  set_i_wake true (set_i_xev (hw_event_code h) (At b a (MkXfr (xf_tx_start xf) (xf_rx_start xf) 0 0 0 0) l (set_i_sent (i_sent s ++ [x]) s))).
Proof. intros Hx. apply no_event in Hx as [s' ->]. by destruct s'. Qed.
Lemma send_fails fuel req s h (l : list line) : pps_pending req s -> i_line s = TxEvent h :: l ->
  failed (pps_done (i_px s) (take 1 req) s)
    (sync_loop C protos (S fuel) (At (i_buff s) (i_ax s) (MkXfr 0 0 (Z.of_nat (length req)) 2 0 0) (i_line s) s)).
Proof.
  intros (Hx & _ & _ & _ & _ & _ & _ & (b & Hb & Hlb) & Hl1) El. destruct req as [|x req]; [cbn in Hl1; lia|]. cbn [sync_loop].
  set (st := At _ _ _ _ s). assert (Hr : ifd_xchg_raised_any st = false) by (unfold ifd_xchg_raised_any; cbn; by rewrite Hx). rewrite Hr.
  set (e := hw_event_code h). assert (He : (e =? 0) = false) by (by destruct h).
  set (s2 := set_i_wake true (set_i_xev e (At (i_buff s) (i_ax s) (MkXfr 0 0 0 0 1 0) l (set_i_sent (i_sent s ++ [x]) s)))).
  assert (Hr2 : ifd_xchg_raised_any s2 = true) by (unfold ifd_xchg_raised_any; cbn [i_xev s2 set_i_wake set_i_xev]; by rewrite He).
  assert (E : xfr_send (Z.to_nat (xf_nc (i_xfr st) - xf_tx (i_xfr st))) st = Ok s2).
  { change (xf_nc (i_xfr st)) with (Z.of_nat (S (length req))). change (xf_tx (i_xfr st)) with 0. rewrite Z.sub_0_r, Nat2Z.id. cbn [xfr_send].
    rewrite Hr. change (xf_tx_start (i_xfr st) + xf_tx (i_xfr st)) with 0. change (i_buff st) with (i_buff s).
    assert (Hb0 : rdb (i_buff s) 0 = Ok x) by (by rewrite Hb). rewrite Hb0. cbn [mbind res_mbind].
    subst st. rewrite El, write_event by done. rewrite xfr_send_raised; [reflexivity|]. exact Hr2. }
  rewrite E. cbn [mbind res_mbind]. rewrite xfr_recv_raised by done. cbn [mbind res_mbind]. rewrite sync_raised by done.
  exists e, (i_buff s), (i_ax s), (MkXfr 0 0 0 0 1 0), l. split; [right; by exists h|]. split; [done|]. subst s2. unfold pps_done.
  cbn [take]. by replace (set_i_px (i_px s) (set_i_sent (i_sent s ++ [x]) s)) with (set_i_sent (i_sent s ++ [x]) s) by (by destruct s).
Qed.
Lemma pps_sync_spec s req : pps_pending req s -> (length (i_line s) < 256)%nat ->
  match pps_reply (i_line s) with
  | Some (resp, l') => exists px a x, px_req px = px_req (i_px s) /\
      ifd_xchg_sync C protos s = Ok (set_i_wake true (set_i_xev IFD_XCHG_EVENT_XFR_CMPL (set_i_nr (Z.of_nat (length resp))
        (At (filled resp (i_buff s)) a x l' (pps_done px req s)))))
  | None => exists px snt, failed (pps_done px snt s) (ifd_xchg_sync C protos s)
  end.
Proof.
  intros Hpend Hll. pose proof Hpend as (Hx & He & Hc & Htx & Hnc & Hrx & Hne & (b & Hb & Hlb) & Hl1). unfold ifd_xchg_sync.
  assert (E : ifd_xchg_start C s = At (i_buff s) (i_ax s) (MkXfr 0 0 (Z.of_nat (length req)) 2 0 0) (i_line s) s).
  { unfold ifd_xchg_start. rewrite Hnc, (proj2 (Z.eqb_neq _ 0)) by lia. rewrite Htx, Hnc, Hrx, Hne. by destruct s. }
  rewrite E. clear E. change (i_line (At _ _ _ ?l _)) with l. set (s1 := set_i_sent (i_sent s ++ req) s).
  assert (Hx1 : i_xev s1 = 0) by done. assert (Hb1 : length (i_buff s) = length (i_buff s1)) by done.
  assert (Hlen : length (i_buff s) = 261%nat) by (rewrite Hb, filled_length; lia).
  destruct (tx_event (i_line s)) as [e|] eqn:Etx.
  { destruct (i_line s) as [|[c|h c|h] l0] eqn:El; try done. change (pps_reply (TxEvent h :: l0)) with (@None (list Z * list line)). cbv iota.
    exists (i_px s), (take 1 req). rewrite <- El. by apply (send_fails _ _ _ h l0). }
  assert (Hstep : forall fuel, sync_loop C protos (S fuel) (At (i_buff s) (i_ax s) (MkXfr 0 0 (Z.of_nat (length req)) 2 0 0) (i_line s) s) =
    (xfr_recv C protos 2 (At (filled [] (i_buff s)) (i_ax s) (MkXfr 0 (Z.of_nat 0) (Z.of_nat (length req)) (Z.of_nat 2) (Z.of_nat (length req)) (Z.of_nat 0)) (i_line s) s1)
       ≫= sync_loop C protos fuel)).
  { intros fuel. cbn [sync_loop]. replace (ifd_xchg_raised_any _) with false by (unfold ifd_xchg_raised_any; cbn; by rewrite Hx).
    change (xf_nc (i_xfr (At _ _ ?x _ _))) with (xf_nc x). change (xf_tx (i_xfr (At _ _ ?x _ _))) with (xf_tx x). cbn [xf_nc xf_tx].
    replace (Z.to_nat (Z.of_nat (length req) - 0)) with (length req) by lia.
    pose proof (send_spec (i_ax s) 0 (Z.of_nat (length req)) 2 (i_line s) s (drop (length req) b) req Etx Hx [] (i_sent s)) as Hs.
    cbn [app length] in Hs. specialize (Hs ltac:(lia)). cbv zeta in Hs. fold (filled req b) in Hs. rewrite <- Hb in Hs. change (Z.of_nat 0) with 0 in Hs.
    replace (set_i_sent (i_sent s) s) with s in Hs by (by destruct s). rewrite Hs. reflexivity. }
  rewrite Hstep. unfold pps_reply.
  pose proof (recv_spec C protos s1 (i_ax s) (i_buff s) 0 2 0 (Z.of_nat (length req)) (Z.of_nat (length req)) Hx1 Hb1 ltac:(lia) 2 [] (i_line s) 0
    ltac:(lia) eq_refl eq_refl ltac:(cbn; lia)) as Hr. cbv zeta in Hr. cbn [app] in Hr.
  assert (Hpx : set_i_px (i_px s) s1 = s1) by (subst s1; by destruct s).
  destruct (line_take 2 (i_line s)) as [[h l1]|] eqn:E1; cbn [mbind option_bind].
  2:{ exists (i_px s), req. apply failed_sync. unfold pps_done. fold s1. by rewrite Hpx. }
  rewrite Hr. clear Hr Hstep. apply line_take_inv in E1 as [El Hh]. destruct h as [|ss [|p0 [|]]]; try done.
  rewrite expire_pps by done. cbn [mbind res_mbind]. set (px := MkPx _ _ _ _). pose proof (pps_bytes_range p0) as Hp0.
  pose proof (block_spec C protos (length (i_line s)) (set_i_px px s1) (i_ax s) (i_buff s) [ss; p0] (Z.to_nat (ifd_pps_bytes p0 + 1)) l1) as Hbl.
  cbv zeta in Hbl. rewrite El, length_app in Hll. cbn [map length] in Hll.
  specialize (Hbl Hx1 Hb1 ltac:(lia) ltac:(cbn; lia) ltac:(lia)). rewrite Z2Nat.id in Hbl by lia. cbn [length] in Hbl. change (Z.of_nat 2) with 2 in Hbl.
  destruct (line_take _ l1) as [[bs l2]|] eqn:E2; cbn [mbind option_bind]; [|by exists px, req].
  apply line_take_inv in E2 as [_ Hbs]. rewrite Hbl. clear Hbl. exists px, (i_ax s), (MkXfr 0 2 0 0 0 0). split; [done|].
  unfold ifd_xfr_ne_expire. change (i_expire (At _ _ _ _ (set_i_px px s1))) with (i_expire s). rewrite He. unfold ifd_pps_expire.
  change (px_cmpl (i_px (At _ _ _ _ (set_i_px px s1)))) with true. cbn [negb].
  change (px_ppsr_size (i_px (At _ _ _ _ (set_i_px px s1)))) with (ifd_pps_bytes p0 + 1 + 2). cbn [mbind res_mbind app].
  replace (Z.of_nat (length (ss :: p0 :: bs))) with (ifd_pps_bytes p0 + 1 + 2) by (cbn [length]; lia).
  unfold ifd_xchg_stop. change (ifd_xchg_raised_any (ifd_xchg_end _ (At _ _ _ _ (set_i_px px s1)))) with (negb (i_xev s =? 0)).
  rewrite Hx. cbn [Z.eqb negb]. rewrite sync_raised; [|unfold ifd_xchg_raised_any; cbn; by rewrite Hx].
  unfold ifd_xchg_raise, ifd_xchg_end. change (i_xev (set_i_nr _ (At _ _ _ _ (set_i_px px s1)))) with (i_xev s). rewrite Hx. reflexivity.
Qed.

(** ** Checking the reply *)
Lemma ppsr_gap n nppsr p0 c fd s : has p0 (IFD_PPS_EXISTS (nppsr - 2)) = false ->
  ppsr_loop n nppsr p0 c fd s = Ok (Some (nppsr, c, fd)).
Proof. intros H. induction n as [|n IH]; cbn [ppsr_loop]; [done|]. by rewrite H. Qed.
Lemma ppsr_loop_spec p0 s n : forall j bs rs c fd,
  (forall i x, bs !! i = Some x -> ifd_xchg_read (2 + j + Z.of_nat i) s = Ok x) ->
  (forall i r, rs !! i = Some r -> rdb (px_req (i_px s)) (j + 1 + Z.of_nat i) = Ok r) ->
  length rs = n -> (runs n j p0 <= length bs)%nat ->
  let k := runs n j p0 in
  exists fd', ppsr_loop n (2 + j) p0 c fd s =
    Ok (if bool_decide (take k bs = take k rs) then Some (2 + j + Z.of_nat k, xor_bytes c (take k bs), fd') else None).
Proof.
  induction n as [|n IH]; intros j bs rs c fd Hb Hq Hr Hl k; subst k; cbn [runs] in *.
  { exists fd. cbn. do 3 f_equal. f_equal. lia. }
  destruct (has p0 (IFD_PPS_EXISTS j)) eqn:Ej.
  2:{ exists fd. rewrite ppsr_gap by (by replace (2 + j - 2) with j by lia). cbn. do 3 f_equal. f_equal. lia. }
  destruct bs as [|x bs]; [cbn in Hl; lia|]. destruct rs as [|r rs]; [done|].
  destruct (IH (j + 1) bs rs (c ^^^ x) (if 2 + j =? 2 then x else fd)) as [fd' Hfd].
  { intros i y Hy. rewrite <- (Hb (S i) y Hy). f_equal. lia. }
  { intros i y Hy. rewrite <- (Hq (S i) y Hy). f_equal. lia. }
  { cbn in Hr. lia. } { cbn in Hl. lia. }
  exists fd'. cbn [ppsr_loop]. replace (2 + j - 2) with j by lia. rewrite Ej.
  pose proof (Hb 0%nat x eq_refl) as R. rewrite Z.add_0_r in R. rewrite R. cbn [mbind res_mbind].
  pose proof (Hq 0%nat r eq_refl) as Q. rewrite Z.add_0_r in Q. replace (2 + j - 1) with (j + 1) by lia. rewrite Q. cbn [mbind res_mbind].
  cbn [take]. destruct (Z.eqb_spec x r) as [->|N]; cbn [negb].
  - replace (2 + j + 1) with (2 + (j + 1)) by lia. rewrite Hfd.
    rewrite (bool_decide_ext (r :: take (runs n (j + 1) p0) bs = r :: take (runs n (j + 1) p0) rs) (take (runs n (j + 1) p0) bs = take (runs n (j + 1) p0) rs))
      by (split; congruence).
    case_bool_decide; [|done]. do 3 f_equal. f_equal. lia.
  - by rewrite bool_decide_false by congruence.
Qed.
Lemma lead_bytes p0 : Z.of_nat (lead p0) <= ifd_pps_bytes p0.
Proof.
  unfold lead, ifd_pps_bytes, runs. change (0 + 1) with 1. change (1 + 1) with 2.
  destruct (has p0 (IFD_PPS_EXISTS 0)), (has p0 (IFD_PPS_EXISTS 1)), (has p0 (IFD_PPS_EXISTS 2)); lia.
Qed.
Lemma xor_bytes_app c b1 b2 : xor_bytes c (b1 ++ b2) = xor_bytes (xor_bytes c b1) b2.
Proof. unfold xor_bytes. apply foldl_app. Qed.
Lemma ppsr_spec req ss p0 bs b s : px_req (i_px s) = req -> length req = 4%nat -> i_buff s = filled (ss :: p0 :: bs) b ->
  Z.of_nat (length bs) = ifd_pps_bytes p0 + 1 ->
  exists err fd, ifd_ppsr_parse s = Ok (err, if err =? SCS_ERR_SUCCESS then upd_slot (set_sl_fd fd) s else s) /\
    err <> SCS_ERR_PROGRESS /\ (err = SCS_ERR_SUCCESS <-> ppsr_ok req (ss :: p0 :: bs) = true).
Proof.
  intros Hq Hq4 Hb Hl. destruct req as [|r0 [|r1 [|r2 [|r3 [|]]]]]; try done.
  assert (Hrd : forall i x, (ss :: p0 :: bs) !! i = Some x -> ifd_xchg_read (Z.of_nat i) s = Ok x) by (intros; by eapply xchg_read_filled).
  unfold ifd_ppsr_parse, ppsr_ok. rewrite (Hrd 0%nat ss eq_refl : ifd_xchg_read 0 s = Ok ss). cbn [mbind res_mbind].
  destruct (Z.eqb_spec ss IFD_PPS_PPSS) as [->|N]; cbn [negb andb].
  2:{ exists IFD_ERR_BAD_PPSS, 0. split; [done|]. by split. }
  rewrite (Hrd 1%nat p0 eq_refl : ifd_xchg_read 1 s = Ok p0), Hq. change (rdb [r0; r1; r2; r3] 0) with (Ok r0). cbn [mbind res_mbind].
  change (nth 0 [r0; r1; r2; r3] 0) with r0. cbn [tail].
  destruct (IFD_PPS_PROTO p0 =? IFD_PPS_PROTO r0); cbn [negb andb]; [|exists IFD_ERR_BAD_PPSR, 0; split; [done|]; by split].
  pose proof (lead_bytes p0) as Hlb.
  destruct (ppsr_loop_spec p0 s 3 0 bs [r1; r2; r3] (IFD_PPS_PPSS ^^^ p0) (sl_fd (i_slot s))) as [fd Hfd].
  { intros i x Hx. rewrite <- (Hrd (S (S i)) x Hx). f_equal. lia. }
  { intros i x Hx. rewrite Hq. destruct i as [|[|[|]]]; cbn in Hx; simplify_eq; done. }
  { done. } { fold (lead p0). lia. }
  change (2 + 0) with 2 in Hfd. rewrite Hfd. cbn [mbind res_mbind]. fold (lead p0).
  destruct (bool_decide (take (lead p0) bs = take (lead p0) [r1; r2; r3])); cbn [andb].
  2:{ exists IFD_ERR_BAD_PPSR, 0. split; [done|]. by split. }
  destruct (lookup_lt_is_Some_2 bs (lead p0) ltac:(lia)) as [x Hx].
  replace (2 + Z.of_nat (lead p0)) with (Z.of_nat (S (S (lead p0)))) by lia. rewrite (Hrd (S (S (lead p0))) x Hx). cbn [mbind res_mbind].
  rewrite (take_S_r _ _ _ Hx), xor_bytes_app. cbn [xor_bytes foldl].
  change (foldl Z.lxor ?c [x]) with (c ^^^ x). destruct (_ =? 0) eqn:E; cbn [negb].
  - exists SCS_ERR_SUCCESS, fd. split; [done|]. by split.
  - exists IFD_ERR_BAD_PCK, 0. split; [done|]. by split.
Qed.

(** ** The exchange *)
(** A slot after power-on, at rest, whose ATR leaves something to be negotiated. *)
Record negotiable s : Prop := {
  ng_st : status s = IFD_SLOT_STATE_ATR_READY; ng_seq : i_seq s = IFD_SEQ_IDLE; ng_sev : i_sev s = 0;
  ng_buff : length (i_buff s) = 261%nat; ng_req : length (px_req (i_px s)) = 4%nat;
  ng_proto : 0 <= sl_nego_proto (i_slot s) < 16; ng_info : sl_info_xchg (i_slot s) <> IFD_INFO_XCHG_SPECIFIC;
  ng_offer : 1 < hweight16 (sl_ind_protos (i_slot s)) \/ sl_ind_fd (i_slot s) <> IFD_FD_IMPLICIT }.
(** While the parameters of [s0] are being negotiated. *)
Record Par (sev xs : Z) s0 s : Prop := MkPar {
  pa_seq : i_seq s = IFD_SEQ_SET_PARAM; pa_cmpl : sl_cmpl (i_slot s) = true; pa_sev : i_sev s = sev; pa_state : i_state s = xs;
  pa_wake : i_wake s = true; pa_done : i_done s = i_done s0; pa_st : status s = IFD_SLOT_STATE_ATR_READY;
  pa_fd : sl_nego_fd (i_slot s) = sl_nego_fd (i_slot s0); pa_proto : sl_nego_proto (i_slot s) = sl_nego_proto (i_slot s0) }.

Lemma active_ready s : i_seq s = IFD_SEQ_IDLE -> status s = IFD_SLOT_STATE_ATR_READY -> ifd_slot_active s = SCS_ERR_SUCCESS.
Proof. intros Hq Hs. unfold ifd_slot_active, ifd_slot_exist. by rewrite Hq, Hs. Qed.
Lemma info_xchg_pps s : negotiable s -> ifd_info_xchg protos s = ifd_nego_pps (upd_slot (set_sl_info_xchg IFD_INFO_XCHG_NEGO_PPS) s).
Proof.
  intros [_ _ _ _ _ _ Hi Ho]. unfold ifd_info_xchg. rewrite (proj2 (Z.eqb_neq _ _) Hi).
  assert ((1 <? hweight16 (sl_ind_protos (i_slot s))) || negb (sl_ind_fd (i_slot s) =? IFD_FD_IMPLICIT) = true) as ->.
  { apply orb_true_iff. rewrite Z.ltb_lt, negb_true_iff, Z.eqb_neq. exact Ho. }
  reflexivity.
Qed.
Lemma request_length l : 0 <= sl_nego_proto l < 16 -> Z.of_nat (length (pps_request l)) = ifd_pps_bytes (pps0 l) + 3 /\
  pps_request l !! 1%nat = Some (pps0 l) /\ (0 < length (pps_request l) < 261)%nat.
Proof.
  intros Ht. destruct (proto_half_check _ Ht) as (H1 & H2 & H3 & H4 & H5 & H6 & _). unfold pps_request, ifd_pps_bytes, pps0.
  change (IFD_PPS_EXISTS 0) with 0x10. change (IFD_PPS_EXISTS 1) with 0x20. change (IFD_PPS_EXISTS 2) with 0x40.
  destruct (differ l); rewrite ?H1, ?H2, ?H3, ?H4, ?H5, ?H6; cbn; lia || (split; [done|]; split; [done|lia]).
Qed.
Lemma nego_pps_spec s : length (i_buff s) = 261%nat -> length (px_req (i_px s)) = 4%nat -> 0 <= sl_nego_proto (i_slot s) < 16 ->
  exists s1, ifd_nego_pps s = Ok (ifd_xchg_run s1) /\ pps_pending (pps_request (i_slot s)) s1 /\
    i_state s1 = IFD_XCHG_STATE_BUSY /\ i_sev s1 = i_sev s /\ i_done s1 = i_done s /\ status s1 = status s /\
    sl_nego_fd (i_slot s1) = sl_nego_fd (i_slot s) /\ sl_nego_proto (i_slot s1) = sl_nego_proto (i_slot s) /\
    i_line s1 = i_line s /\ i_sent s1 = i_sent s /\ i_error s1 = SCS_ERR_SUCCESS /\ px_req (i_px s1) = kept (i_slot s) (px_req (i_px s)).
Proof.
  intros Hb Hq Ht. destruct (request_length _ Ht) as (Hl & H1 & Hr). unfold ifd_nego_pps. rewrite (build_spec s Hb Hq Ht). cbn [mbind res_mbind].
  set (s0 := set_i_px _ _). assert (Hb0 : i_buff s0 = filled (pps_request (i_slot s)) (i_buff s)) by reflexivity.
  rewrite (xchg_read_filled _ (i_buff s) 1 (pps0 (i_slot s)) s0 Hb0 H1 : ifd_xchg_read 1 s0 = Ok _). cbn [mbind res_mbind].
  eexists. split; [reflexivity|]. split.
  - split; [reflexivity|]. split; [reflexivity|]. split; [reflexivity|]. split; [reflexivity|]. split; [by rewrite Hl|].
    split; [reflexivity|]. split; [reflexivity|]. split; [|exact Hr]. exists (i_buff s). by split.
  - repeat (split; [reflexivity|]). reflexivity.
Qed.
Lemma set_param_spec s : negotiable s -> let req := pps_request (i_slot s) in
  exists s1, ifd_set_param protos s = Ok (SCS_ERR_PROGRESS, s1) /\ Par IFD_SLOT_EVENT_XFR_SYNC IFD_XCHG_STATE_BUSY s s1 /\
    pps_pending req s1 /\ i_line s1 = i_line s /\ i_sent s1 = i_sent s /\ i_error s1 = SCS_ERR_SUCCESS /\
    px_req (i_px s1) = kept (i_slot s) (px_req (i_px s)).
Proof.
  intros Hn req. pose proof Hn as [Hst Hseq Hsev Hb Hq Ht _ _]. unfold ifd_set_param. rewrite active_ready by done.
  change (negb (SCS_ERR_SUCCESS =? SCS_ERR_SUCCESS)) with false. rewrite (info_xchg_pps s Hn). set (s0 := upd_slot _ s).
  destruct (nego_pps_spec s0 Hb Hq Ht) as (s1 & -> & Hp & H1 & H2 & H3 & H4 & H5 & H6 & H7 & H8 & H9 & H10). cbn [mbind res_mbind].
  eexists. split; [reflexivity|]. split; [|split; [exact Hp|]].
  - split; try assumption; try reflexivity; [|by rewrite <- Hst].
    change (i_sev _) with (i_sev s1 ||| IFD_SLOT_EVENT_XFR_SYNC). rewrite H2. change (i_sev s0) with (i_sev s). by rewrite Hsev.
  - done.
Qed.

Definition negotiating s : Prop :=
  status s = IFD_SLOT_STATE_ATR_READY /\ i_state s = IFD_XCHG_STATE_BUSY /\ i_seq s = IFD_SEQ_SET_PARAM.
(** The end of the exchange with outcome [e]. *)
Definition pps_ended (e : Z) s : ifd P :=
  set_i_state IFD_XCHG_STATE_IDLE (if e =? SCS_ERR_SUCCESS then ifd_slot_raise IFD_SLOT_EVENT_PPS_OK s
    else ifd_slot_raise IFD_SLOT_EVENT_HW_ERR (ifd_xchg_set_error e s)).
Lemma idle_pps_error s e : negotiating s -> e <> SCS_ERR_SUCCESS -> e <> SCS_ERR_PROGRESS ->
  ifd_xchg_idle protos (ifd_xchg_set_error e s) = Ok (pps_ended e s).
Proof.
  intros (Hs & Hb & Hq) He Hp. unfold ifd_xchg_idle, ifd_pps_cmpl, pps_ended.
  change (status (ifd_xchg_set_error e s)) with (status s). change (i_state (ifd_xchg_set_error e s)) with (i_state s).
  change (i_error (ifd_xchg_set_error e s)) with e. rewrite Hs, Hb, (proj2 (Z.eqb_neq _ _) He). eqb_eval. cbn [negb mbind res_mbind].
  change (i_error (ifd_xchg_set_error e s)) with e. change (i_seq (ifd_xchg_set_error e s)) with (i_seq s).
  rewrite (proj2 (Z.eqb_neq _ _) Hp), (proj2 (Z.eqb_neq _ _) He), Hq. eqb_eval. cbn [negb].
  unfold ifd_handle_xchg_seq. change (i_seq (ifd_slot_raise _ (ifd_xchg_set_error e s))) with (i_seq s). by rewrite Hq.
Qed.
Lemma idle_ppsr s e fd : negotiating s -> i_error s = SCS_ERR_SUCCESS -> e <> SCS_ERR_PROGRESS ->
  let s1 := if e =? SCS_ERR_SUCCESS then upd_slot (set_sl_fd fd) s else s in
  ifd_ppsr_parse s = Ok (e, s1) -> ifd_xchg_idle protos s = Ok (pps_ended e s1).
Proof.
  intros (Hs & Hb & Hq) He Hp s1 Hr. unfold ifd_xchg_idle, ifd_pps_cmpl, pps_ended. rewrite Hs, Hb, He, Hr.
  eqb_eval. cbn [negb mbind res_mbind].
  assert (Hq1 : i_seq s1 = IFD_SEQ_SET_PARAM) by (subst s1; by destruct (e =? SCS_ERR_SUCCESS)).
  assert (He1 : i_error s1 = SCS_ERR_SUCCESS) by (subst s1; by destruct (e =? SCS_ERR_SUCCESS)).
  clearbody s1. unfold ifd_handle_xchg_seq. destruct (Z.eqb_spec e SCS_ERR_SUCCESS) as [->|Hn].
  - change (i_error (ifd_slot_raise _ s1)) with (i_error s1). rewrite He1. change (i_seq (ifd_slot_raise _ s1)) with (i_seq s1). by rewrite Hq1.
  - change (i_error (ifd_xchg_set_error e s1)) with e. rewrite (proj2 (Z.eqb_neq _ _) Hp), (proj2 (Z.eqb_neq _ _) Hn). cbn [negb].
    change (i_seq (ifd_xchg_set_error e s1)) with (i_seq s1). rewrite Hq1.
    change (i_seq (ifd_slot_raise _ _)) with (i_seq s1). by rewrite Hq1.
Qed.
Lemma ended_Par e s0 s xs : Par 0 xs s0 s ->
  Par (if e =? SCS_ERR_SUCCESS then IFD_SLOT_EVENT_PPS_OK else IFD_SLOT_EVENT_HW_ERR) IFD_XCHG_STATE_IDLE s0 (pps_ended e s).
Proof.
  intros []. unfold pps_ended. destruct (e =? SCS_ERR_SUCCESS); split; try assumption; try reflexivity.
  all: unfold ifd_slot_raise, ifd_xchg_set_error; cbn; by rewrite pa_sev0.
Qed.
Lemma pps_reply_inv (l l' : list line) resp : pps_reply l = Some (resp, l') ->
  exists ss p0 bs, resp = ss :: p0 :: bs /\ Z.of_nat (length bs) = ifd_pps_bytes p0 + 1 /\ l = map Byte resp ++ l'.
Proof.
  unfold pps_reply. intros H. apply bind_Some in H as ([h l1] & E & H). apply line_take_inv in E as [-> Hh].
  destruct h as [|ss [|p0 [|]]]; try done. apply bind_Some in H as ([bs l2] & E & H). apply line_take_inv in E as [-> Hb].
  simplify_eq. exists ss, p0, bs. pose proof (pps_bytes_range p0). split; [done|]. split; [lia|done].
Qed.
(** What the transfer loop leaves of the negotiation. *)
Lemma sync_Par s0 s e b a x (l : list line) px req : Par 0 IFD_XCHG_STATE_BUSY s0 (set_i_wake true s) ->
  let s1 := set_i_xev 0 (ifd_event_restore 0 (set_i_wake true (set_i_xev e (At b a x l (pps_done px req s))))) in
  Par 0 IFD_XCHG_STATE_BUSY s0 s1 /\ negotiating s1.
Proof.
  intros [] s1. split; [|by split]. split; try assumption; try reflexivity.
  change (i_sev s1) with (i_sev (set_i_wake true s) ||| 0). by rewrite pa_sev0.
Qed.
Lemma Par_fd sev xs s0 s fd : Par sev xs s0 s -> Par sev xs s0 (upd_slot (set_sl_fd fd) s).
Proof. intros []. split; assumption. Qed.
Lemma line_ended e s : i_line (pps_ended e s) = i_line s /\ i_sent (pps_ended e s) = i_sent s.
Proof. unfold pps_ended. by destruct (e =? _). Qed.
Lemma error_ended e s : e <> SCS_ERR_SUCCESS -> i_error (pps_ended e s) = e.
Proof. intros H. unfold pps_ended. by rewrite (proj2 (Z.eqb_neq _ _) H). Qed.
Lemma pps_step1 s0 s req kreq : Par IFD_SLOT_EVENT_XFR_SYNC IFD_XCHG_STATE_BUSY s0 s -> pps_pending req s ->
  i_error s = SCS_ERR_SUCCESS -> (length (i_line s) < 256)%nat -> px_req (i_px s) = kreq -> length kreq = 4%nat ->
  exists s', ifd_bh_run C protos FMAX s = Ok s' /\
    match pps_reply (i_line s) with
    | Some (resp, l') => i_line s' = l' /\ i_sent s' = i_sent s ++ req /\
        if ppsr_ok kreq resp then Par IFD_SLOT_EVENT_PPS_OK IFD_XCHG_STATE_IDLE s0 s'
        else Par IFD_SLOT_EVENT_HW_ERR IFD_XCHG_STATE_IDLE s0 s' /\ i_error s' <> SCS_ERR_SUCCESS
    | None => Par IFD_SLOT_EVENT_HW_ERR IFD_XCHG_STATE_IDLE s0 s' /\ i_error s' <> SCS_ERR_SUCCESS
    end.
Proof.
  intros Ha Hp He Hl Hk Hk4. pose proof Ha as [_ _ Hsev _ Hw _ _ _ _]. rewrite bh_run by exact Hw.
  rewrite (handle_sync C protos FMAX (set_i_wake false s) Hsev). set (s1 := set_i_sev 0 (set_i_wake false s)).
  assert (H1 : Par 0 IFD_XCHG_STATE_BUSY s0 (set_i_wake true s1)) by (destruct Ha; split; assumption || reflexivity).
  pose proof (pps_sync_spec s1 req Hp Hl) as Hs. change (i_line s1) with (i_line s) in Hs.
  destruct (pps_reply (i_line s)) as [[resp l']|] eqn:Er.
  - destruct Hs as (px & a & x & Hpx & ->). cbn [mbind res_mbind]. apply pps_reply_inv in Er as (ss & p0 & bs & -> & Hbs & _).
    destruct (sync_Par s0 (set_i_nr (Z.of_nat (length (ss :: p0 :: bs))) s1) IFD_XCHG_EVENT_XFR_CMPL (filled (ss :: p0 :: bs) (i_buff s)) a x l' px req)
      as [Hs2 Hn]; [destruct H1; split; assumption|]. rewrite xchg_complete; [|exact (pa_state _ _ _ _ Hs2)|reflexivity].
    set (s2 := set_i_xev 0 _) in Hs2, Hn. change (i_px s1) with (i_px s) in Hpx. rewrite Hk in Hpx.
    destruct (ppsr_spec kreq ss p0 bs (i_buff s) s2 Hpx Hk4 eq_refl Hbs) as (e & fd & Hps & Hpr & Hok).
    assert (He2 : i_error s2 = SCS_ERR_SUCCESS) by exact He.
    eexists. split; [exact (idle_ppsr s2 e fd Hn He2 Hpr Hps)|].
    assert (Hs3 : Par 0 IFD_XCHG_STATE_BUSY s0 (if e =? SCS_ERR_SUCCESS then upd_slot (set_sl_fd fd) s2 else s2)).
    { destruct (e =? SCS_ERR_SUCCESS); [by apply Par_fd|exact Hs2]. }
    assert (Hls : i_line (if e =? SCS_ERR_SUCCESS then upd_slot (set_sl_fd fd) s2 else s2) = l' /\
      i_sent (if e =? SCS_ERR_SUCCESS then upd_slot (set_sl_fd fd) s2 else s2) = i_sent s ++ req) by (by destruct (e =? _)).
    apply (ended_Par e) in Hs3. rewrite (proj1 (line_ended _ _)), (proj2 (line_ended _ _)).
    split; [apply Hls|]. split; [apply Hls|]. destruct (Z.eqb_spec e SCS_ERR_SUCCESS) as [E|E].
    + by rewrite (proj1 Hok E).
    + destruct (ppsr_ok kreq (ss :: p0 :: bs)); [by destruct E; apply Hok|]. split; [exact Hs3|]. by rewrite error_ended.
  - destruct Hs as (px & snt & e & b & a & x & l & Hev & _ & ->). cbn [mbind res_mbind].
    destruct (sync_Par s0 s1 e b a x l px snt H1) as [Hs2 Hn].
    destruct (xchg_error protos (ifd_event_restore 0 (set_i_wake true (set_i_xev e (At b a x l (pps_done px snt s1))))) e) as (y & Hy0 & Hyp & ->);
      [exact (pa_state _ _ _ _ Hs2)|reflexivity|done|].
    eexists. split; [by apply idle_pps_error|]. apply (ended_Par y) in Hs2. rewrite (proj2 (Z.eqb_neq _ _) Hy0) in Hs2.
    split; [exact Hs2|]. by rewrite error_ended.
Qed.

(** The sequence is over, with the parameters of [s0] in force. *)
Record Negotiated s0 s : Prop := MkNeg {
  ne_seq : i_seq s = IFD_SEQ_IDLE; ne_sev : i_sev s = 0; ne_wake : i_wake s = false; ne_st : status s = IFD_SLOT_STATE_PPS_READY;
  ne_done : i_done s = i_done s0 ++ [SCS_ERR_SUCCESS]; ne_fd : sl_fd (i_slot s) = sl_nego_fd (i_slot s0);
  ne_proto : sl_proto (i_slot s) = sl_nego_proto (i_slot s0) }.
(** The sequence is not over and nothing is left that could end it. *)
Record Stuck s0 s : Prop := MkStuck {
  st_seq : i_seq s = IFD_SEQ_SET_PARAM; st_sev : i_sev s = 0; st_wake : i_wake s = false; st_st : status s = IFD_SLOT_STATE_ATR_READY;
  st_done : i_done s = i_done s0; st_cmpl : sl_cmpl (i_slot s) = true }.
Lemma xev_Neg s0 s : Negotiated s0 s -> Negotiated s0 (set_i_xev 0 (ifd_event_restore 0 s)).
Proof. intros []. split; try assumption. cbn. by rewrite ne_sev0. Qed.
Lemma pps_step_ok s0 s i p : Par IFD_SLOT_EVENT_PPS_OK IFD_XCHG_STATE_IDLE s0 s -> fd_ok (sl_nego_fd (i_slot s0)) ->
  proto_index (sl_nego_proto (i_slot s0)) protos 0 = Some (i, p) ->
  exists s', ifd_bh_run C protos FMAX s = Ok s' /\ Negotiated s0 s' /\ i_line s' = i_line s /\ i_sent s' = i_sent s.
Proof.
  intros [Hseq Hcm Hsev Hst Hw Hd Hs Hfd Hpr] Hok Hp.
  pose proof (handle_pps_ok C protos FMAX (set_i_wake false s) Hsev Hs) as Hh. set (s1 := set_i_sev 0 _) in Hh.
  destruct (conf_param_ok protos s1 (sl_nego_proto (i_slot s0)) i p) as (l & q & Hc & (K1 & K2 & K3 & K4 & K5) & Hf & Ht);
    [by change (sl_nego_fd (i_slot s1)) with (sl_nego_fd (i_slot s)); rewrite Hfd|exact Hpr|done|].
  rewrite Hc in Hh. cbn [mbind res_mbind] in Hh. set (s2 := set_i_slot l (set_i_p q s1)) in Hh.
  assert (E : ifd_slot_set_state C protos IFD_SLOT_STATE_PPS_READY s2 =
    Ok (ifd_seq_complete SCS_ERR_SUCCESS (upd_slot (set_sl_status IFD_SLOT_STATE_PPS_READY) s2))).
  { unfold ifd_slot_set_state, ifd_handle_slot_seq. change (i_seq _) with (i_seq s). rewrite Hseq. reflexivity. }
  rewrite E, complete_spec in Hh; [|by rewrite <- Hcm|by right]. cbn [mbind res_mbind] in Hh. eexists. split.
  { apply quiet_run; [exact Hw|exact Hh|]. change (i_state _) with (i_state s). by rewrite Hst. }
  split; [|split; reflexivity]. apply xev_Neg. split; try assumption; try reflexivity.
  - rewrite <- Hd. reflexivity.
  - by rewrite <- Hfd.
Qed.
Lemma pps_step_err s0 s : Par IFD_SLOT_EVENT_HW_ERR IFD_XCHG_STATE_IDLE s0 s -> i_error s <> SCS_ERR_SUCCESS ->
  exists s', ifd_bh_run C protos FMAX s = Ok s' /\ Stuck s0 s'.
Proof.
  intros [Hseq Hcm Hsev Hst Hw Hd Hs Hfd Hpr] He.
  pose proof (handle_hw_err_ready C protos FMAX (set_i_wake false s) Hsev He ltac:(unfold status in *; cbn in *; rewrite Hs; done)) as Hh.
  eexists. split; [apply quiet_run; [exact Hw|exact Hh|change (i_state _) with (i_state s); by rewrite Hst]|].
  split; assumption || reflexivity.
Qed.
(** The whole exchange. *)
Definition accepted s : bool :=
  match pps_reply (i_line s) with
  | Some (resp, _) => ppsr_ok (kept (i_slot s) (px_req (i_px s))) resp
  | None => false
  end.
Lemma pps_spec s : negotiable s -> (length (i_line s) < 256)%nat -> fd_ok (sl_nego_fd (i_slot s)) ->
  is_Some (proto_index (sl_nego_proto (i_slot s)) protos 0) ->
  exists s1 s2, ifd_set_param protos s = Ok (SCS_ERR_PROGRESS, s1) /\ (forall n, (2 <= n)%nat -> ifd_run C protos FMAX n s1 = Ok s2) /\
    if accepted s then Negotiated s s2 /\ i_sent s2 = i_sent s ++ pps_request (i_slot s) /\
      option_map snd (pps_reply (i_line s)) = Some (i_line s2)
    else Stuck s s2.
Proof.
  intros Hn Hl Hf [[i p] Hp]. destruct (set_param_spec s Hn) as (s1 & Es & Hpar & Hpen & Hli & Hse & He & Hk).
  pose proof (ng_req s Hn) as Hq4. assert (Hk4 : length (kept (i_slot s) (px_req (i_px s))) = 4%nat).
  { unfold kept. destruct (px_req (i_px s)) as [|? [|? [|? [|? [|]]]]]; done. }
  destruct (pps_step1 s s1 _ _ Hpar Hpen He ltac:(by rewrite Hli) Hk Hk4) as (s2 & E2 & H2). rewrite Hli, Hse in H2.
  assert (Hrun : forall s3, ifd_bh_run C protos FMAX s2 = Ok s3 -> i_wake s3 = false ->
    forall n, (2 <= n)%nat -> ifd_run C protos FMAX n s1 = Ok s3).
  { intros s3 E3 Hw n Hle. destruct n as [|[|n]]; [lia|lia|]. cbn [ifd_run]. rewrite E2. cbn [mbind res_mbind]. rewrite E3.
    cbn [mbind res_mbind]. by apply run_asleep. }
  unfold accepted. destruct (pps_reply (i_line s)) as [[resp l']|]; [destruct H2 as (Hl2 & Hs2 & H2); destruct (ppsr_ok _ resp)|].
  - destruct (pps_step_ok s s2 i p H2 Hf Hp) as (s3 & E3 & H3 & Hl3 & Hs3). exists s1, s3. split; [done|].
    split; [apply Hrun; [done|by destruct H3]|]. split; [done|]. split; [by rewrite Hs3|]. cbn. by rewrite Hl3, Hl2.
  - destruct H2 as [H2 H2e]. destruct (pps_step_err s s2 H2 H2e) as (s3 & E3 & H3). exists s1, s3. split; [done|].
    split; [apply Hrun; [done|by destruct H3]|done].
  - destruct H2 as [H2 H2e]. destruct (pps_step_err s s2 H2 H2e) as (s3 & E3 & H3). exists s1, s3. split; [done|].
    split; [apply Hrun; [done|by destruct H3]|done].
Qed.
End Exchange.

(** ** What the exchange amounts to *)
Lemma pps_reply_bytes ss p0 bs (more : list line) : Z.of_nat (length bs) = ifd_pps_bytes p0 + 1 ->
  pps_reply (map Byte (ss :: p0 :: bs) ++ more) = Some (ss :: p0 :: bs, more).
Proof.
  intros H. unfold pps_reply. cbn [map app line_take mbind option_bind]. replace (Z.to_nat (ifd_pps_bytes p0 + 1)) with (length bs) by lia.
  by rewrite line_take_bytes.
Qed.
Lemma echo_ok l req : length req = 4%nat -> 0 <= sl_nego_proto l < 16 -> ppsr_ok (kept l req) (pps_request l) = true.
Proof.
  intros Hq Ht. destruct (proto_half_check _ Ht) as (H1 & H2 & H3 & H4 & H5 & H6 & _). destruct req as [|r0 [|r1 [|r2 [|r3 [|]]]]]; try done.
  unfold ppsr_ok, pps_request, kept, pps0, lead, runs. change (0 + 1) with 1. change (IFD_PPS_EXISTS 0) with 0x10. change (IFD_PPS_EXISTS 1) with 0x20.
  destruct (differ l); cbn [app nth tail drop]; rewrite ?H1, ?H4, ?H5; rewrite !Z.eqb_refl, bool_decide_true by done; cbn [andb take xor_bytes foldl].
  - unfold xor_bytes. cbn [foldl]. set (p := sl_nego_proto l ||| 16). apply Z.eqb_eq.
    replace ((IFD_PPS_PPSS ^^^ sl_nego_fd l) ^^^ p) with ((IFD_PPS_PPSS ^^^ p) ^^^ sl_nego_fd l)
      by (rewrite !Z.lxor_assoc; f_equal; apply Z.lxor_comm).
    apply Z.lxor_nilpotent.
  - unfold xor_bytes. cbn [foldl]. apply Z.eqb_eq, Z.lxor_nilpotent.
Qed.

(** C35: A PPS exchange that succeeds.  After power-on with an ATR that leaves the rate or the
    protocol open, [ifd_set_param] sends PPSS, PPS0, PPS1 if another rate is asked for, and
    PCK; if the card echoes the request, then after two runs of the bottom half the
    callback has been called once with success, rate and protocol are the requested ones,
    the reader accepts commands, and exactly the reply has been taken from the line. *)
Theorem pps_echo_accepted {P} C (protos : list (ifd_proto P)) {Hp : ProtosOk protos} FMAX s more :
  negotiable s -> fd_ok (sl_nego_fd (i_slot s)) -> is_Some (proto_index (sl_nego_proto (i_slot s)) protos 0) ->
  i_line s = map Byte (pps_request (i_slot s)) ++ more -> (length (i_line s) < 256)%nat ->
  exists s1 s2, ifd_set_param protos s = Ok (SCS_ERR_PROGRESS, s1) /\
    (forall n, (2 <= n)%nat -> ifd_run C protos FMAX n s1 = Ok s2) /\
    i_sent s2 = i_sent s ++ pps_request (i_slot s) /\ i_line s2 = more /\ i_done s2 = i_done s ++ [SCS_ERR_SUCCESS] /\
    ifd_slot_active s2 = SCS_ERR_SUCCESS /\ status s2 = IFD_SLOT_STATE_PPS_READY /\
    sl_fd (i_slot s2) = sl_nego_fd (i_slot s) /\ sl_proto (i_slot s2) = sl_nego_proto (i_slot s).
Proof.
  intros Hn Hf Hi El Hl. destruct (pps_spec C protos FMAX s Hn Hl Hf Hi) as (s1 & s2 & E1 & E2 & H).
  assert (Er : pps_reply (i_line s) = Some (pps_request (i_slot s), more)).
  { rewrite El. destruct (request_length _ (ng_proto s Hn)) as (Hlen & H1 & _). unfold pps_request in *.
    destruct (differ (i_slot s)); cbn [app] in *; apply pps_reply_bytes; cbn [length] in *; lia. }
  unfold accepted in H. rewrite Er, echo_ok in H by apply Hn. destruct H as ([F1 F2 F3 F4 F5 F6 F7] & Hs & Hm).
  exists s1, s2. split; [done|]. split; [done|]. split; [done|]. split; [by cbn in Hm; simplify_eq|]. split; [done|].
  split; [unfold ifd_slot_active, ifd_slot_exist; by rewrite F1, F4|done].
Qed.

(** A slot after power-on: rate 0x95 offered, rate 0x95 and T=1 asked for. *)
Definition slot_example : ifd_slot :=
  set_sl_nego_fd 0x95 (set_sl_nego_proto 1 (set_sl_fd IFD_FD_IMPLICIT (set_sl_ind_fd 0x95
    (set_sl_info_xchg IFD_INFO_XCHG_NEGO_1ST (set_sl_status IFD_SLOT_STATE_ATR_READY slot_init))))).
Definition ready_example (l : list line) : ifd unit := set_i_line l (set_i_slot slot_example ifd_example).
Lemma ready_example_ok l : negotiable (ready_example l).
Proof. split; try done. by right. Qed.
Lemma fd_95_ok : fd_ok 0x95.
Proof. split; [done|]. split; [done|]. split; eexists; (split; [reflexivity|done]). Qed.
Lemma pps_echo_accepted_witness :
  pps_request slot_example = [0xFF; 0x11; 0x95; 0x7B] /\
  exists s1 s2, ifd_set_param protos_example (ready_example (map Byte [0xFF; 0x11; 0x95; 0x7B])) = Ok (SCS_ERR_PROGRESS, s1) /\
    ifd_run (card_example []) protos_example 5000 2 s1 = Ok s2 /\ i_done s2 = [SCS_ERR_SUCCESS] /\ sl_fd (i_slot s2) = 0x95.
Proof.
  split; [reflexivity|].
  destruct (pps_echo_accepted (card_example []) protos_example 5000 (ready_example (map Byte [0xFF; 0x11; 0x95; 0x7B])) []
    (ready_example_ok _) fd_95_ok ltac:(by eexists) eq_refl ltac:(cbn; lia)) as (s1 & s2 & E1 & E2 & _ & _ & H3 & _ & _ & H6 & _).
  exists s1, s2. split; [exact E1|]. split; [by apply E2|]. split; [by rewrite H3|by rewrite H6].
Defined.

(** A PPS exchange that fails is never reported.  If the card does not answer, answers with
    an error on the line, with another protocol, another rate, or a wrong check byte, the
    error event is raised in the state ATR_READY, where the slot machine ignores it: the
    bottom half goes back to sleep, the callback is not called however long one waits, and
    every further request, power-off included, is refused with SCS_ERR_BUSY_SLOT. *)
Theorem pps_failure_hangs {P} C (protos : list (ifd_proto P)) {Hp : ProtosOk protos} FMAX s :
  negotiable s -> fd_ok (sl_nego_fd (i_slot s)) -> is_Some (proto_index (sl_nego_proto (i_slot s)) protos 0) ->
  (length (i_line s) < 256)%nat -> accepted s = false ->
  exists s1 s2, ifd_set_param protos s = Ok (SCS_ERR_PROGRESS, s1) /\
    (forall n, (2 <= n)%nat -> ifd_run C protos FMAX n s1 = Ok s2) /\
    i_wake s2 = false /\ i_done s2 = i_done s /\ i_seq s2 = IFD_SEQ_SET_PARAM /\
    ifd_set_param protos s2 = Ok (SCS_ERR_BUSY_SLOT, s2) /\ ifd_power_off s2 = (SCS_ERR_BUSY_SLOT, s2) /\
    (forall c, ifd_power_on c s2 = (SCS_ERR_BUSY_SLOT, s2)).
Proof.
  intros Hn Hf Hi Hl Ha. destruct (pps_spec C protos FMAX s Hn Hl Hf Hi) as (s1 & s2 & E1 & E2 & H). rewrite Ha in H.
  destruct H as [F1 F2 F3 F4 F5 F6]. exists s1, s2. do 5 (split; [done|]).
  assert (Hx : ifd_slot_exist s2 = SCS_ERR_BUSY_SLOT) by (unfold ifd_slot_exist; by rewrite F1).
  split; [unfold ifd_set_param, ifd_slot_active; by rewrite Hx|]. split; [unfold ifd_power_off; by rewrite Hx|].
  intros c. unfold ifd_power_on. rewrite Hx, F1. by rewrite andb_false_r.
Qed.
Lemma pps_failure_hangs_witness :
  exists s1 s2, ifd_set_param protos_example (ready_example []) = Ok (SCS_ERR_PROGRESS, s1) /\
    ifd_run (card_example []) protos_example 5000 1000 s1 = Ok s2 /\ i_done s2 = [] /\ ifd_power_off s2 = (SCS_ERR_BUSY_SLOT, s2).
Proof.
  destruct (pps_failure_hangs (card_example []) protos_example 5000 (ready_example []) (ready_example_ok _) fd_95_ok
    ltac:(by eexists) ltac:(cbn; lia) eq_refl) as (s1 & s2 & E1 & E2 & _ & Hd & _ & _ & Ho & _).
  exists s1, s2. split; [exact E1|]. split; [apply E2; lia|]. split; [exact Hd|exact Ho].
Defined.

(** A card that refuses the rate.  A card that accepts the protocol but not the rate leaves
    PPS1 out of its reply (ISO/IEC 7816-3, 9.3) and goes on with the default rate.  The
    reply is accepted, but the requested rate is put in force all the same, so that reader
    and card talk at different rates. *)
Theorem pps_refused_rate_applied {P} C (protos : list (ifd_proto P)) {Hp : ProtosOk protos} FMAX s more :
  negotiable s -> fd_ok (sl_nego_fd (i_slot s)) -> is_Some (proto_index (sl_nego_proto (i_slot s)) protos 0) ->
  differ (i_slot s) = true -> let t := sl_nego_proto (i_slot s) in
  i_line s = map Byte [IFD_PPS_PPSS; t; IFD_PPS_PPSS ^^^ t] ++ more -> (length (i_line s) < 256)%nat ->
  exists s1 s2, ifd_set_param protos s = Ok (SCS_ERR_PROGRESS, s1) /\
    (forall n, (2 <= n)%nat -> ifd_run C protos FMAX n s1 = Ok s2) /\
    i_done s2 = i_done s ++ [SCS_ERR_SUCCESS] /\ sl_fd (i_slot s2) = sl_nego_fd (i_slot s) /\ sl_fd (i_slot s2) <> sl_fd (i_slot s).
Proof.
  intros Hn Hf Hi Hd t El Hl. destruct (pps_spec C protos FMAX s Hn Hl Hf Hi) as (s1 & s2 & E1 & E2 & H).
  destruct (proto_half_check _ (ng_proto s Hn)) as (H1 & H2 & H3 & H4 & H5 & H6 & H7 & H8). fold t in H1, H2, H3, H4, H7, H8.
  assert (Er : pps_reply (i_line s) = Some ([IFD_PPS_PPSS; t; IFD_PPS_PPSS ^^^ t], more)).
  { rewrite El. apply pps_reply_bytes. unfold ifd_pps_bytes. change (IFD_PPS_EXISTS 0) with 0x10. change (IFD_PPS_EXISTS 1) with 0x20.
    change (IFD_PPS_EXISTS 2) with 0x40. by rewrite H1, H2, H3. }
  assert (Ha : accepted s = true).
  { unfold accepted. rewrite Er. unfold ppsr_ok, kept, pps0, lead, runs. rewrite Hd. change (IFD_PPS_EXISTS 0) with 0x10. cbn [nth tail].
    rewrite H1. fold t. rewrite H7, H8, !Z.eqb_refl. cbn [take]. rewrite bool_decide_true by done. cbn [andb]. unfold xor_bytes. cbn [foldl].
    by rewrite Z.lxor_nilpotent. }
  rewrite Ha in H. destruct H as ([F1 F2 F3 F4 F5 F6 F7] & _). exists s1, s2. do 3 (split; [done|]). split; [done|].
  rewrite F6. unfold differ in Hd. apply negb_true_iff, Z.eqb_neq in Hd. done.
Qed.
Lemma pps_refused_rate_applied_witness :
  exists s1 s2, ifd_set_param protos_example (ready_example (map Byte [0xFF; 0x01; 0xFE])) = Ok (SCS_ERR_PROGRESS, s1) /\
    ifd_run (card_example []) protos_example 5000 2 s1 = Ok s2 /\ i_done s2 = [SCS_ERR_SUCCESS] /\ sl_fd (i_slot s2) = 0x95.
Proof.
  destruct (pps_refused_rate_applied (card_example []) protos_example 5000 (ready_example (map Byte [0xFF; 0x01; 0xFE])) []
    (ready_example_ok _) fd_95_ok ltac:(by eexists) eq_refl eq_refl ltac:(cbn; lia)) as (s1 & s2 & E1 & E2 & H3 & H4 & _).
  exists s1, s2. split; [exact E1|]. split; [by apply E2|]. split; [by rewrite H3|by rewrite H4].
Defined.

(** ** Waiting times *)
Lemma get_D_range i D : ifd_get_D i = Ok D -> 0 <= D <= 32.
Proof.
  unfold ifd_get_D, rdb. destruct (i <? 0); [done|]. unfold rd. intros H. apply oob_Ok, list_elem_of_lookup_2 in H.
  assert (Hall : Forall (fun d => 0 <= d <= 32) ifd_di_supps) by (unfold ifd_di_supps; repeat constructor; lia).
  rewrite Forall_forall in Hall. by apply Hall.
Qed.
(** The truncated factor of the block waiting time, for every BWI. *)
Definition bwt_check (b : Z) : bool :=
  let f := u16 (mul16u (u16 (1 <<< b)) IFD_T1_WWT_FACTOR) in
  if b <=? 6 then f =? 2 ^ b * 960 else (f <? 2 ^ b * 960) && (0 <=? f).
Lemma bwt_factor b : 0 <= b < 16 -> let f := u16 (mul16u (u16 (1 <<< b)) IFD_T1_WWT_FACTOR) in
  (b <= 6 -> f = 2 ^ b * 960) /\ (6 < b -> 0 <= f < 2 ^ b * 960) /\ in_u 16 f.
Proof.
  intros Hb f. assert (H : forallb bwt_check (seqZ 0 16) = true) by (vm_compute; reflexivity).
  rewrite forallb_forall in H. specialize (H b ltac:(apply list_elem_of_In, elem_of_seqZ; lia)). unfold bwt_check in H. fold f in H.
  split; [|split; [|apply wrap_range; lia]].
  - intros Hle. rewrite (proj2 (Z.leb_le _ _) Hle) in H. by apply Z.eqb_eq in H.
  - intros Hlt. rewrite (proj2 (Z.leb_gt _ _) Hlt) in H. apply andb_true_iff in H. rewrite Z.ltb_lt, Z.leb_le in H. lia.
Qed.
Lemma halves wi : in_u 8 wi -> 0 <= HIHALF wi < 16 /\ 0 <= LOHALF wi < 16.
Proof.
  intros H. unfold HIHALF, LOHALF. rewrite Z.shiftr_div_pow2 by lia. change 0x0F with (Z.ones 4). rewrite Z.land_ones by lia.
  split; [|apply Z.mod_pos_bound; lia]. split; [apply Z.div_pos; lia|apply Z.div_lt_upper_bound; lia].
Qed.

(** The waiting times of T=1.  The comment in the code gives the character waiting time as
    2^CWI + 11 and the block waiting time as 2^BWI * 960 * D + 11.  The first is what
    [ifd_t1_conf_param] applies; the second is, if and only if BWI is at most 6, because
    2^BWI * 960 passes through 16 bits: for larger BWI (the standard allows up to 9) the
    reader gives up too early.  The implicit value of the waiting integer, 0xD4, has the
    halves of the standard's default (BWI = 4, CWI = 13) exchanged; with it the block
    waiting time is 11 elementary time units. *)
Theorem t1_waiting_times s D : in_u 8 (t1_wi (c_t1 (i_p s))) -> ifd_get_D (LOHALF (sl_fd (i_slot s))) = Ok D -> D <> 0 ->
  let wi := t1_wi (c_t1 (i_p s)) in
  exists s', ifd_t1_conf_param s = Ok s' /\ sl_cwt (i_slot s') = 2 ^ LOHALF wi + 11 /\
    (sl_bwt (i_slot s') = 2 ^ HIHALF wi * 960 * D + 11 <-> HIHALF wi <= 6) /\
    (wi = IFD_T1_WI_IMPLICIT -> sl_bwt (i_slot s') = 11).
Proof.
  intros Hwi HD HD0 wi. destruct (halves wi Hwi) as [Hh Hl]. pose proof (get_D_range _ _ HD) as Hr.
  assert (HD1 : in_u 16 D) by lia. destruct (bwt_factor _ Hh) as (Hb1 & Hb2 & Hb3).
  assert (E : exists s', ifd_t1_conf_param s = Ok s' /\ sl_cwt (i_slot s') = u32 (u32 (1 <<< LOHALF wi) + 11) /\
    sl_bwt (i_slot s') = u32 (mul16u (u16 (mul16u (u16 (1 <<< HIHALF wi)) IFD_T1_WWT_FACTOR)) D + 11)).
  { unfold ifd_t1_conf_param. match goal with |- context [ifd_get_D (LOHALF ?f)] => replace f with (sl_fd (i_slot s)) by (by destruct (_ =? _)) end.
    rewrite HD. cbn [mbind res_mbind]. eexists. split; [reflexivity|].
    match goal with |- context [t1_wi (c_t1 (i_p (if ?c then _ else _)))] => destruct c end; split; reflexivity. }
  destruct E as (s' & E & Hc & Hbw). exists s'. split; [done|]. split.
  { rewrite Hc, Z.shiftl_1_l. assert (2 ^ LOHALF wi <= 2 ^ 15) by (apply Z.pow_le_mono_r; lia).
    assert (0 < 2 ^ LOHALF wi) by (apply Z.pow_pos_nonneg; lia). rewrite (wrap_id 32 (2 ^ LOHALF wi)), wrap_id; lia. }
  set (f := u16 (mul16u (u16 (1 <<< HIHALF wi)) IFD_T1_WWT_FACTOR)) in *. rewrite mul16u_correct in Hbw by done.
  assert (Hm : 0 <= f * D <= 65535 * 32) by nia. rewrite wrap_id in Hbw by lia. rewrite Hbw. split.
  - split; [|intros Hle; by rewrite Hb1]. intros H. destruct (Z.leb_spec (HIHALF wi) 6); [done|]. specialize (Hb2 ltac:(lia)). nia.
  - intros Hi. assert (f = 0) as -> by (subst f; rewrite Hi; reflexivity). lia.
Qed.
Definition t1_example (wi : Z) : t1 := MkT1 0 wi 0x20 0 0x20 false [] 0 0 0 true true 0 0 0 0 0 0 0 0 0 0 0 0 0 0 0 0 [] 0 [].
Definition conf_example (wi : Z) : rd_state :=
  MkIfd slot_example 0 0 0 IFD_SEQ_IDLE 0 0 (MkXfr 0 0 0 0 0 0) ExNull (replicate 261 0) (MkAp 0 0 0 0 0 0 0 false)
    (MkAx 0 false 0 0 0 0) (MkPx [0; 0; 0; 0] 0 0 false) (MkHw 0 0) [] [] false [] (MkConf 10 (t1_example wi) (t0_idle [])).
Lemma t1_waiting_times_witness :
  exists s', ifd_t1_conf_param (conf_example IFD_T1_WI_IMPLICIT) = Ok s' /\ sl_bwt (i_slot s') = 11.
Proof.
  destruct (t1_waiting_times (conf_example IFD_T1_WI_IMPLICIT) 1 ltac:(done) eq_refl ltac:(done)) as (s' & E & _ & _ & H).
  exists s'. split; [exact E|by apply H].
Defined.
