(* ===== verification/SlotInv.v ===== *)
(** * SlotInv: an invariant of the slot machine

    Whatever the upper layer asks for and in whatever order cards come, go and answer, the
    state of kernel/scs/ifd.c ([Ifd]) stays well formed, and the completion callback is
    never called more often than requests have been accepted.  The steps are the calls of
    the upper layer, the presence interrupt and the runs of the bottom half, in any order.
    What is needed of the protocols is the interface [ProtosFrame], and of the requests that
    they keep to [asked]; [Reader] discharges both for the protocols and requests of the code. *)
From S2P Require Import Prelude Bitops MulDiv CString Ifd Atr Slot.
From stdpp Require Import list.
Local Open Scope Z_scope.
Local Open Scope c_scope.

(** What holds of the result of a computation that returns. *)
Definition post {A} (r : res A) (Q : A -> Prop) : Prop := match r with Ok a => Q a | Fault _ => True end.
Lemma post_bind {A B} (r : res A) (k : A -> res B) Q : post r (fun a => post (k a) Q) -> post (r ≫= k) Q.
Proof. by destruct r. Qed.
Lemma post_impl {A} (r : res A) (Q Q' : A -> Prop) : post r Q -> (forall a, Q a -> Q' a) -> post r Q'.
Proof. destruct r; cbn; auto. Qed.

(** ** The part of the state that controls sequences *)
Section Inv.
Context {P : Type}.
Implicit Types (s : ifd P).
(** [s'] differs from [s] in nothing that controls sequences. *)
Definition frame s s' : Prop :=
  i_seq s' = i_seq s /\ i_done s' = i_done s /\ i_state s' = i_state s /\ length (i_buff s') = length (i_buff s) /\
  sl_cmpl (i_slot s') = sl_cmpl (i_slot s) /\ sl_status (i_slot s') = sl_status (i_slot s).
#[export] Instance frame_preorder : PreOrder frame.
Proof. split; [by repeat split|]. intros s1 s2 s3 (?&?&?&?&?&?) (?&?&?&?&?&?). repeat split; congruence. Qed.

Record wf s : Prop := {
  wf_status : 0 <= status s <= 6;
  wf_state : 0 <= i_state s <= 2;
  wf_seq : In (i_seq s) [IFD_SEQ_AUTO_SEQ; IFD_SEQ_POWER_ON; IFD_SEQ_POWER_OFF; IFD_SEQ_SET_PARAM; IFD_SEQ_INTERCHANGE; IFD_SEQ_IDLE];
  wf_buff : Z.of_nat (length (i_buff s)) = IFD_BUF_SIZE;
  wf_cmpl : sl_cmpl (i_slot s) = true -> i_seq s <> IFD_SEQ_IDLE }.
(** Callbacks that have been made or are due. *)
Definition due s : nat := length (i_done s) + Nat.b2n (sl_cmpl (i_slot s)).
(** A step that accepts nothing. *)
Definition quiet s s' : Prop :=
  (wf s -> wf s') /\ (due s' <= due s)%nat /\ exists more, i_done s' = i_done s ++ more.
#[export] Instance quiet_preorder : PreOrder quiet.
Proof.
  split; [intros s; split; [done|]; split; [lia|]; exists []; by rewrite app_nil_r|].
  intros s1 s2 s3 (H1 & H2 & m1 & E1) (H3 & H4 & m2 & E2). split; [auto|]. split; [lia|]. exists (m1 ++ m2). by rewrite E2, E1, app_assoc.
Qed.
Lemma frame_quiet s s' : frame s s' -> quiet s s'.
Proof.
  intros (H1 & H2 & H3 & H4 & H5 & H6). split; [|split].
  - intros []. unfold status in *. split; unfold status; rewrite ?H1, ?H3, ?H4, ?H5, ?H6; assumption.
  - unfold due. by rewrite H2, H5.
  - exists []. by rewrite app_nil_r.
Qed.
Lemma set_state_quiet v s : 0 <= v <= 2 -> quiet s (set_i_state v s).
Proof. intros Hv. split; [|split; [done|by exists []; rewrite app_nil_r]]. intros []. by split. Qed.
Lemma set_status_quiet v s : 0 <= v <= 6 -> quiet s (upd_slot (set_sl_status v) s).
Proof. intros Hv. split; [|split; [done|by exists []; rewrite app_nil_r]]. intros []. by split. Qed.
Lemma complete_quiet e s : quiet s (ifd_seq_complete e s).
Proof.
  unfold ifd_seq_complete. match goal with |- context [if ?c then ifd_xchg_set_error e s else s] => set (s1 := if c then ifd_xchg_set_error e s else s) end.
  assert (F : frame s s1) by (subst s1; by destruct (_ || _)).
  transitivity s1; [by apply frame_quiet|]. clearbody s1. clear F. split; [|split].
  - intros []. destruct (sl_cmpl (i_slot s1)); (split; [done|done|by cbn; tauto|done|done]).
  - unfold due. destruct (sl_cmpl (i_slot s1)) eqn:E; cbn; [rewrite length_app; cbn|]; lia.
  - destruct (sl_cmpl (i_slot s1)); [by eexists|exists []; by rewrite app_nil_r].
Qed.
End Inv.

(** What the slot machine relies on in the protocols here: their callbacks leave alone what
    controls sequences. *)
Class ProtosFrame {P} (protos : list (ifd_proto P)) : Prop := {
  fr_init : forall p nc ne s, In p protos -> post (pr_xchg_init p nc ne s) (fun r => frame s (snd r));
  fr_aval : forall p s, In p protos -> post (pr_xchg_aval p s) (frame s);
  fr_cmpl : forall p s, In p protos -> post (pr_xchg_cmpl p s) (frame s);
  fr_expire : forall p s, In p protos -> post (pr_ne_expire p s) (frame s);
  fr_conf : forall p s, In p protos -> post (pr_conf_param p s) (frame s) }.

Section Frames.
Context {P : Type} (C : card) (protos : list (ifd_proto P)) {Hframe : ProtosFrame protos} (FMAX : Z).
Implicit Types (s : ifd P).

Lemma frame_bind s (r : res (ifd P)) (k : ifd P -> res (ifd P)) :
  post r (frame s) -> (forall s1, post (k s1) (frame s1)) -> post (r ≫= k) (frame s).
Proof.
  intros Hr Hk. apply post_bind. apply (post_impl _ _ _ Hr). intros s1 H1. apply (post_impl _ _ _ (Hk s1)). intros s2 H2. by transitivity s1.
Qed.
Lemma frame_pair {A B} s (r : res (A * ifd P)) (k : A * ifd P -> res (B * ifd P)) :
  post r (fun x => frame s (snd x)) -> (forall a s1, post (k (a, s1)) (fun x => frame s1 (snd x))) -> post (r ≫= k) (fun x => frame s (snd x)).
Proof.
  intros Hr Hk. apply post_bind. apply (post_impl _ _ _ Hr). intros [a s1] H1. apply (post_impl _ _ _ (Hk a s1)). intros [b s2] H2.
  cbn in *. by transitivity s1.
Qed.
Lemma frame_pair_st {A} s (r : res (A * ifd P)) (k : A * ifd P -> res (ifd P)) :
  post r (fun x => frame s (snd x)) -> (forall a s1, post (k (a, s1)) (frame s1)) -> post (r ≫= k) (frame s).
Proof.
  intros Hr Hk. apply post_bind. apply (post_impl _ _ _ Hr). intros [a s1] H1. apply (post_impl _ _ _ (Hk a s1)). intros s2 H2.
  cbn in *. by transitivity s1.
Qed.
(** Values that are read on the way. *)
Lemma post_read {A B} (r : res A) (k : A -> res B) Q : (forall a, post (k a) Q) -> post (r ≫= k) Q.
Proof. intros H. destruct r; cbn; auto. Qed.
Lemma wr_length (b : list Z) i x m : wr b i x = Ok m -> length m = length b.
Proof. unfold wr. destruct (decide _); intros H; simplify_eq. apply length_insert. Qed.
Lemma frame_wr {B} s i x (k : list Z -> res B) Q : (forall m, length m = length (i_buff s) -> post (k m) Q) -> post (wr (i_buff s) i x ≫= k) Q.
Proof. intros H. destruct (wr (i_buff s) i x) eqn:E; cbn; [|done]. by apply H, (wr_length _ i x). Qed.
Ltac rd := apply post_read; intros ?.

Lemma frame_stop e s : frame s (ifd_xchg_stop e s).
Proof. unfold ifd_xchg_stop. by destruct (ifd_xchg_raised_any s). Qed.
Lemma frame_hw_read s : frame s (snd (ifd_hw_read_byte C s)).
Proof.
  unfold ifd_hw_read_byte. destruct (i_line s) as [|[b|e b|e] l]; [apply frame_stop|done| |]; cbn [snd];
    (transitivity (ifd_xchg_stop (hw_event_code e) s); [apply frame_stop|done]).
Qed.
Lemma frame_hw_write b s : frame s (ifd_hw_write_byte b s).
Proof.
  unfold ifd_hw_write_byte. destruct (i_line s) as [|[c|e c|e] l]; try done.
  transitivity (ifd_xchg_stop (hw_event_code e) s); [apply frame_stop|done].
Qed.
Lemma frame_write i x s : post (ifd_xchg_write i x s) (frame s).
Proof. unfold ifd_xchg_write. rd. apply frame_wr. intros m Hm. by repeat split. Qed.
Lemma frame_atr_expire s : post (ifd_atr_expire s) (frame s).
Proof.
  assert (H : forall s, frame s (__ifd_atr_expire s)).
  { intros s1. unfold __ifd_atr_expire. repeat case_match; try done. transitivity (ifd_xchg_end (ax_rx (i_ax s1)) s1); [done|apply frame_stop]. }
  unfold ifd_atr_expire. destruct (ax_state _ =? IFD_ATR_TS); [|destruct (ax_state _ =? IFD_ATR_TD)].
  - rd. case_match; [apply frame_stop|]. rd. cbn [post]. eapply transitivity; [|apply H]. done.
  - rd. cbn [post]. eapply transitivity; [|apply H]. done.
  - apply H.
Qed.
Lemma frame_pps_expire s : post (ifd_pps_expire s) (frame s).
Proof.
  unfold ifd_pps_expire. case_match; [rd; done|]. cbn [post]. transitivity (ifd_xchg_end (px_ppsr_size (i_px s)) s); [done|apply frame_stop].
Qed.
Lemma frame_expire s : post (ifd_xfr_ne_expire protos s) (frame s).
Proof.
  unfold ifd_xfr_ne_expire. destruct (i_expire s) as [| | |pid].
  - apply frame_stop.
  - apply frame_atr_expire.
  - apply frame_pps_expire.
  - destruct (protos !! pid) as [p|] eqn:E; [|done]. cbn. apply fr_expire. by apply list_elem_of_In, list_elem_of_lookup_2 with pid.
Qed.
Lemma frame_send n : forall s, post (xfr_send n s) (frame s).
Proof.
  induction n as [|n IH]; intros s; cbn [xfr_send]; (case_match; [done|]); [done|]. rd. eapply post_impl; [apply IH|]. intros s2 F.
  transitivity (ifd_hw_write_byte a s); [apply frame_hw_write|]. eapply transitivity; [|exact F]. done.
Qed.
Lemma frame_recv n : forall s, post (xfr_recv C protos n s) (frame s).
Proof.
  induction n as [|n IH]; intros s; cbn [xfr_recv]; (case_match; [done|]); [done|].
  pose proof (frame_hw_read s) as Hh. destruct (ifd_hw_read_byte C s) as [b s1]. cbn [snd] in Hh. apply frame_wr. intros m Hm.
  cbv zeta. set (s2 := upd_xfr _ _). assert (F : frame s s2) by (transitivity s1; [done|by repeat split]).
  case_match; (eapply post_impl; [apply frame_expire || apply IH|]); intros s3 H3; by transitivity s2.
Qed.
Lemma frame_sync fuel : forall s, post (sync_loop C protos fuel s) (frame s).
Proof.
  induction fuel as [|fuel IH]; intros s; cbn [sync_loop]; (case_match; [done|]); [done|].
  apply frame_bind; [apply frame_send|]. intros s1. apply frame_bind; [apply frame_recv|]. exact IH.
Qed.
Lemma frame_xchg_sync s : post (ifd_xchg_sync C protos s) (frame s).
Proof.
  unfold ifd_xchg_sync. eapply post_impl; [apply frame_sync|]. intros s1 H. eapply transitivity; [|exact H].
  unfold ifd_xchg_start. by destruct (sl_nc (i_slot s) =? 0).
Qed.

(** ** The parsers *)
Lemma frame_atr_read s : post (ifd_atr_read s) (fun x => frame s (snd x)).
Proof. unfold ifd_atr_read. by rd. Qed.
Lemma frame_read_if c s : post (atr_read_if c s) (fun x => frame s (snd x)).
Proof. destruct c; [apply frame_atr_read|done]. Qed.
Lemma frame_upd_ap s1 f s (r : res (Z * ifd P)) : s1 = upd_ap f s -> post r (fun x => frame s1 (snd x)) -> post r (fun x => frame s (snd x)).
Proof. intros -> H. apply (post_impl _ _ _ H). intros x Hx. eapply transitivity; [|exact Hx]. done. Qed.
Lemma frame_ibyte s : post (ifd_atr_read_ibyte s) (fun x => frame s (snd x)).
Proof.
  unfold ifd_atr_read_ibyte. set (s1 := upd_ap _ s). eapply (frame_upd_ap s1); [reflexivity|]. cbv zeta. case_match; [done|].
  do 3 (apply frame_pair; [apply frame_read_if|intros ? ?]; eapply frame_upd_ap; [reflexivity|]).
  apply frame_pair; [apply frame_read_if|]. by intros ? ?.
Qed.
Lemma frame_parse_t s : frame s (ifd_atr_parse_t protos s).
Proof. unfold ifd_atr_parse_t, ifd_atr_parse_gbyte15. repeat case_match; done. Qed.
Lemma frame_parse_loop fuel : forall y s, post (atr_parse_loop protos fuel y s) (frame s).
Proof.
  induction fuel as [|fuel IH]; intros y s; cbn [atr_parse_loop]; (case_match; [done|]); [done|].
  apply (post_impl _ (frame (ifd_atr_parse_t protos s))); [|intros s1 F; transitivity (ifd_atr_parse_t protos s); [apply frame_parse_t|done]].
  apply frame_pair_st; [apply frame_ibyte|]. intros y1 s1. apply IH.
Qed.
Lemma frame_skip k : forall s, post (atr_skip k s) (frame s).
Proof.
  induction k as [|k IH]; intros s; cbn [atr_skip]; [done|]. apply frame_pair_st; [apply frame_atr_read|]. intros _ s1. apply IH.
Qed.
Lemma frame_gbyte1 y s : frame s (ifd_atr_parse_gbyte1 y s).
Proof. unfold ifd_atr_parse_gbyte1. repeat case_match; done. Qed.
Lemma frame_gbyte2 y s : frame s (ifd_atr_parse_gbyte2 y s).
Proof. unfold ifd_atr_parse_gbyte2. repeat case_match; done. Qed.
Lemma frame_via {A} s1 s (r : res (A * ifd P)) : frame s s1 -> post r (fun x => frame s1 (snd x)) -> post r (fun x => frame s (snd x)).
Proof. intros F H. apply (post_impl _ _ _ H). intros x Hx. by transitivity s1. Qed.
Lemma frame_st_pair {B} s (r : res (ifd P)) (k : ifd P -> res (B * ifd P)) :
  post r (frame s) -> (forall s1, post (k s1) (fun x => frame s1 (snd x))) -> post (r ≫= k) (fun x => frame s (snd x)).
Proof.
  intros Hr Hk. apply post_bind. apply (post_impl _ _ _ Hr). intros s1 H1. apply (post_impl _ _ _ (Hk s1)). intros [b s2] H2.
  cbn in *. by transitivity s1.
Qed.
Lemma frame_atr_parse s : post (ifd_atr_parse protos s) (fun x => frame s (snd x)).
Proof.
  unfold ifd_atr_parse. apply (frame_via (scs_atr_start s)); [done|]. apply frame_pair; [unfold ifd_atr_parse_ts; by rd|].
  intros e s1. case_match; [done|]. apply frame_pair; [apply frame_atr_read|]. intros td s2. eapply frame_upd_ap; [reflexivity|].
  apply frame_pair; [apply frame_ibyte|]. intros y s3. eapply frame_via; [apply (frame_gbyte1 y)|]. apply frame_st_pair.
  { case_match; [done|]. apply frame_pair_st; [apply frame_ibyte|]. intros y1 s4. eapply post_impl; [apply frame_parse_loop|].
    intros s5 H5. eapply transitivity; [apply (frame_gbyte2 y1)|exact H5]. }
  intros s4. apply frame_st_pair; [apply frame_skip|]. intros s5. apply frame_pair; [|by intros ? ?].
  unfold atr_check_tck. case_match; [|done]. apply frame_pair; [apply frame_atr_read|by intros ? ?].
Qed.
Lemma frame_atr_cmpl s : post (ifd_atr_cmpl protos s) (frame s).
Proof.
  unfold ifd_atr_cmpl. case_match; [done|]. apply frame_pair_st; [apply frame_atr_parse|]. intros e s1. cbn [post]. by case_match.
Qed.
Lemma frame_pps_cmpl s : post (ifd_pps_cmpl s) (frame s).
Proof.
  unfold ifd_pps_cmpl. case_match; [done|]. apply frame_pair_st; [|intros e s1; cbn [post]; by case_match].
  unfold ifd_ppsr_parse. rd. case_match; [done|]. rd. rd. case_match; [done|]. rd. destruct a2 as [[[nppsr pck] fd]|]; [|done].
  rd. by case_match.
Qed.

(** ** Parameters and activation *)
Lemma proto_index_In t (l : list (ifd_proto P)) : forall n i p, proto_index t l n = Some (i, p) -> In p l.
Proof. induction l as [|p1 l IH]; intros n i p H; [done|]. cbn in H. case_match; simplify_eq; [by left|right]. by eapply IH. Qed.
Lemma frame_conf_param s : post (ifd_conf_param protos s) (frame s).
Proof.
  unfold ifd_conf_param. apply frame_bind.
  { unfold ifd_config_fd. cbv zeta. do 5 rd. done. }
  intros s1. destruct (ifd_get_protocol protos (ifd_config_t s1)) as [[i p]|] eqn:E; [|done]. cbn [oob mbind res_mbind].
  eapply post_impl; [apply fr_conf; by eapply proto_index_In|]. intros s2 H. eapply transitivity; [|exact H]. done.
Qed.
Lemma frame_config_def s : post (ifd_config_def protos s) (frame s).
Proof. unfold ifd_config_def. eapply post_impl; [apply frame_conf_param|]. intros s2 H. eapply transitivity; [|exact H]. done. Qed.
Lemma frame_activate s : post (ifd_activate C protos s) (frame s).
Proof.
  unfold ifd_activate. apply (post_impl _ (frame (ifd_config_cls (ifd_xchg_set_error SCS_ERR_SUCCESS s)))).
  - apply frame_bind; [apply frame_config_def|]. intros s1. cbn [post]. by case_match.
  - intros s1 H. eapply transitivity; [|exact H]. done.
Qed.
Lemma frame_cls_select s : frame s (snd (ifd_cls_select s)).
Proof. unfold ifd_cls_select. by case_match. Qed.
Lemma snd_let s (r : Z * ifd P) : frame s (snd r) -> frame s (snd (let '(err, s) := r in (err =? SCS_ERR_SUCCESS, s))).
Proof. by destruct r. Qed.
Lemma frame_select_auto s : frame s (snd (ifd_cls_select_auto s)).
Proof.
  unfold ifd_cls_select_auto. apply snd_let. eapply transitivity; [|apply frame_cls_select].
  unfold ifd_cls_select_next. repeat case_match; done.
Qed.
Lemma frame_power_on_next s : frame s (snd (ifd_power_on_next s)).
Proof.
  unfold ifd_power_on_next. case_match; [|done]. apply snd_let. eapply transitivity; [|apply frame_cls_select]. by case_match.
Qed.

(** ** Sequences *)
Lemma quiet_bind s (r : res (ifd P)) (k : ifd P -> res (ifd P)) :
  post r (quiet s) -> (forall s1, post (k s1) (quiet s1)) -> post (r ≫= k) (quiet s).
Proof.
  intros Hr Hk. apply post_bind. apply (post_impl _ _ _ Hr). intros s1 H1. apply (post_impl _ _ _ (Hk s1)). intros s2 H2. by transitivity s1.
Qed.
Lemma post_frame s (r : res (ifd P)) : post r (frame s) -> post r (quiet s).
Proof. intros H. apply (post_impl _ _ _ H). intros s1. apply frame_quiet. Qed.
Lemma quiet_via s1 s (r : res (ifd P)) : quiet s s1 -> post r (quiet s1) -> post r (quiet s).
Proof. intros F H. apply (post_impl _ _ _ H). intros s2 H2. by transitivity s1. Qed.
Ltac fr := apply frame_quiet; split_and!; reflexivity.
Lemma busy_quiet s : quiet s (ifd_xchg_busy s).
Proof. unfold ifd_xchg_busy. transitivity (set_i_state IFD_XCHG_STATE_BUSY s); [by apply set_state_quiet|fr]. Qed.
Lemma reset_quiet s : quiet s (ifd_reset s).
Proof.
  unfold ifd_reset. cbv zeta. set (s1 := upd_ax _ (set_i_expire ExAtr _)). assert (F : quiet s s1) by fr. clearbody s1.
  transitivity s1; [done|]. transitivity (ifd_xchg_busy s1); [apply busy_quiet|]. generalize (ifd_xchg_busy s1). intros s2. fr.
Qed.
Lemma quiet_ret s : post (Ok s) (quiet s).
Proof. cbn [post]. reflexivity. Qed.
Lemma xchg_seq_quiet s : post (ifd_handle_xchg_seq s) (quiet s).
Proof.
  unfold ifd_handle_xchg_seq, ifd_handle_interchange_xchg. set (s1 := ifd_xchg_set_state _ s). apply (quiet_via s1); [by apply set_state_quiet|].
  case_match; [|by apply quiet_ret]. rd. cbn [post]. apply complete_quiet.
Qed.
Lemma proto_cmpl_frame s : post (ifd_proto_cmpl protos s) (frame s).
Proof.
  unfold ifd_proto_cmpl. destruct (ifd_get_protocol protos s) as [[i p]|] eqn:E; [|done]. cbn [oob mbind res_mbind].
  apply fr_cmpl. by eapply proto_index_In.
Qed.
Lemma proto_aval_frame s : post (scs_proto_aval protos s) (frame s).
Proof.
  unfold scs_proto_aval. destruct (ifd_get_protocol protos s) as [[i p]|] eqn:E; [|done]. cbn [oob mbind res_mbind].
  apply fr_aval. by eapply proto_index_In.
Qed.
Lemma xchg_idle_quiet s : post (ifd_xchg_idle protos s) (quiet s).
Proof.
  unfold ifd_xchg_idle. case_match; [apply xchg_seq_quiet|]. apply quiet_bind.
  { repeat case_match; try apply quiet_ret; apply post_frame; [apply frame_atr_cmpl|apply frame_pps_cmpl|apply proto_cmpl_frame]. }
  intros s1. cbv zeta. case_match.
  { eapply quiet_via; [|apply post_frame, proto_aval_frame]. transitivity (ifd_xchg_set_error SCS_ERR_SUCCESS s1); [fr|apply busy_quiet]. }
  case_match; [|apply xchg_seq_quiet]. case_match.
  - case_match; [|apply xchg_seq_quiet]. cbn [post]. transitivity (ifd_slot_raise IFD_SLOT_EVENT_HW_ERR s1); [fr|by apply set_state_quiet].
  - eapply quiet_via; [|apply xchg_seq_quiet]. fr.
Qed.
Lemma xchg_state_quiet s : post (ifd_handle_xchg_state protos s) (quiet s).
Proof.
  unfold ifd_handle_xchg_state, ifd_xchg_save. set (s1 := set_i_xev 0 s). assert (F : quiet s s1) by fr.
  repeat case_match; try (by cbn [post]); (eapply quiet_via; [exact F|]); clearbody s1; first [apply xchg_idle_quiet | eapply quiet_via; [|apply xchg_idle_quiet]; fr].
Qed.

Lemma select_quiet s (r : bool * ifd P) e : quiet s (snd r) -> post (let '(ok, s) := r in Ok (if ok then s else ifd_seq_complete e s)) (quiet s).
Proof. destruct r as [[] s1]; cbn; [done|]. intros H. transitivity s1; [done|apply complete_quiet]. Qed.
Lemma auto_seq_quiet s : post (ifd_handle_auto_seq C protos s) (quiet s).
Proof.
  unfold ifd_handle_auto_seq. cbv zeta. case_match; [apply select_quiet, frame_quiet, frame_select_auto|].
  case_match; [apply post_frame, frame_activate|]. case_match; [apply reset_quiet|]. repeat case_match; cbn [post]; (apply complete_quiet || reflexivity).
Qed.
Lemma power_on_quiet s : post (ifd_handle_power_on C protos s) (quiet s).
Proof.
  unfold ifd_handle_power_on. cbv zeta. case_match; [apply select_quiet, frame_quiet, frame_power_on_next|].
  case_match; [apply post_frame, frame_activate|]. case_match; [apply reset_quiet|]. repeat case_match; cbn [post]; (apply complete_quiet || reflexivity).
Qed.
Lemma slot_seq_quiet s : post (ifd_handle_slot_seq C protos s) (quiet s).
Proof.
  unfold ifd_handle_slot_seq. cbv zeta. case_match; [apply auto_seq_quiet|]. case_match; [apply power_on_quiet|].
  case_match. { unfold ifd_handle_power_off. cbn [post]. case_match; [apply complete_quiet|reflexivity]. }
  case_match. { unfold ifd_handle_set_param. cbn [post]. repeat case_match; (apply complete_quiet || reflexivity). }
  case_match; [|apply quiet_ret]. unfold ifd_handle_interchange_slot. repeat case_match; (apply xchg_idle_quiet || apply quiet_ret).
Qed.
Lemma set_state_slot_quiet v s : 0 <= v <= 6 -> post (ifd_slot_set_state C protos v s) (quiet s).
Proof. intros Hv. unfold ifd_slot_set_state. eapply quiet_via; [by apply (set_status_quiet v)|]. apply slot_seq_quiet. Qed.
Lemma slot_reset_freq s : post (__ifd_slot_reset FMAX s) (quiet s).
Proof. unfold __ifd_slot_reset, ifd_set_freq. rd. cbn [post]. fr. Qed.
Lemma slot_reset_quiet s : post (ifd_slot_reset C protos FMAX s) (quiet s).
Proof.
  unfold ifd_slot_reset. cbv zeta. set (s1 := ifd_xchg_set_state _ _). assert (H1 : quiet s s1).
  { subst s1. transitivity (ifd_xchg_set_error SCS_ERR_SUCCESS s); [fr|by apply set_state_quiet]. }
  clearbody s1. apply (quiet_via s1); [done|]. apply (quiet_via (ifd_xchg_reset s1)); [fr|].
  generalize (ifd_xchg_reset s1). intros s2. eapply quiet_via; [apply (complete_quiet SCS_ERR_NOTPRESENT)|].
  generalize (ifd_seq_complete SCS_ERR_NOTPRESENT s2). intros s3. eapply (quiet_via (snd (ifd_event_save s3))); [fr|].
  apply quiet_bind; [apply slot_reset_freq|]. intros s4. eapply (quiet_via (__ifd_class_init IFD_CLASS_NONE s4)); [fr|]. by apply set_state_slot_quiet.
Qed.

(** ** Events *)
Lemma on_event_quiet bit act s (fs : Z * ifd P) : (forall s1, post (act s1) (quiet s1)) -> quiet s (snd fs) ->
  post (on_event bit act fs) (fun x => quiet s (snd x)).
Proof.
  intros Ha Hf. destruct fs as [f s1]. unfold on_event. case_match; [|done]. apply post_bind. eapply post_impl; [apply Ha|].
  intros s2 H2. cbn. by transitivity s1.
Qed.
Lemma event_bind s (r : res (Z * ifd P)) (k : Z * ifd P -> res (Z * ifd P)) :
  post r (fun x => quiet s (snd x)) -> (forall fs, quiet s (snd fs) -> post (k fs) (fun x => quiet s (snd x))) ->
  post (r ≫= k) (fun x => quiet s (snd x)).
Proof. intros Hr Hk. apply post_bind. apply (post_impl _ _ _ Hr). intros fs Hf. by apply Hk. Qed.
Lemma seq_set_quiet v s : In v [IFD_SEQ_AUTO_SEQ; IFD_SEQ_POWER_ON; IFD_SEQ_POWER_OFF; IFD_SEQ_SET_PARAM; IFD_SEQ_INTERCHANGE] ->
  quiet s (ifd_seq_set v s).
Proof.
  intros Hv. split; [|split; [done|by exists []; rewrite app_nil_r]]. intros []. split; try assumption.
  - cbn in *. tauto.
  - intros _. change (v <> IFD_SEQ_IDLE). intros ->. cbn in Hv. destruct Hv as [H|[H|[H|[H|[H|[]]]]]]; discriminate H.
Qed.
Lemma icc_in_quiet s : quiet s (ifd_handle_icc_in s).
Proof.
  unfold ifd_handle_icc_in, scs_auto_seq. cbv zeta. case_match; cbn [snd]; [reflexivity|].
  set (s1 := ifd_deactivate _). transitivity s1; [fr|]. apply seq_set_quiet. by left.
Qed.
Lemma slot_state_quiet s : post (ifd_handle_slot_state C protos FMAX s) (quiet s).
Proof.
  unfold ifd_handle_slot_state. cbv zeta. assert (H0 : quiet s (snd (ifd_event_save s))) by fr.
  set (st := status s). set (fs0 := ifd_event_save s) in *. clearbody fs0.
  apply post_bind. apply (post_impl _ (fun x => quiet s (snd x))).
  { apply on_event_quiet; [|done]. intros s1. apply post_frame, frame_xchg_sync. }
  intros fs1 H1. apply post_bind. apply (post_impl _ (fun x => quiet s (snd x))).
  { apply on_event_quiet; [|done]. intros s1. case_match; [by apply set_state_slot_quiet|apply quiet_ret]. }
  intros fs2 H2. apply post_bind. apply (post_impl _ (fun x => quiet s (snd x))).
  { apply on_event_quiet; [|done]. intros s1. rd. case_match; [|apply quiet_ret]. apply quiet_bind; [by apply set_state_slot_quiet|].
    intros s2. cbn [post]. fr. }
  intros fs3 H3. apply post_bind. apply (post_impl _ (fun x => quiet s (snd x))).
  { apply on_event_quiet; [|done]. intros s1. case_match; [|apply quiet_ret]. apply quiet_bind; [apply slot_reset_freq|].
    intros s2. by apply set_state_slot_quiet. }
  intros fs4 H4. apply post_bind. apply (post_impl _ (fun x => quiet s (snd x))).
  { apply on_event_quiet; [|done]. intros s1. apply quiet_bind; [apply slot_reset_quiet|]. intros s2. by apply set_state_slot_quiet. }
  intros fs5 H5. apply post_bind. apply (post_impl _ (fun x => quiet s (snd x))).
  { repeat case_match; try done.
    - apply on_event_quiet; [|done]. intros s1. eapply quiet_via; [apply icc_in_quiet|by apply set_state_slot_quiet].
    - apply on_event_quiet; [|done]. intros s1. by apply set_state_slot_quiet.
    - apply on_event_quiet; [|done]. intros s1. by apply set_state_slot_quiet.
    - apply on_event_quiet; [|done]. intros s1. by apply set_state_slot_quiet.
    - apply event_bind; [apply on_event_quiet; [|done]; intros s1; by apply set_state_slot_quiet|]. intros fs6 Q6.
      apply on_event_quiet; [|done]. intros s1. apply quiet_bind; [apply post_frame, frame_conf_param|]. intros s2. by apply set_state_slot_quiet.
    - apply on_event_quiet; [|done]. intros s1. by apply set_state_slot_quiet. }
  intros [f s6] H6. cbn [post fst snd] in *. transitivity s6; [done|fr].
Qed.
Lemma bh_run_quiet s : post (ifd_bh_run C protos FMAX s) (quiet s).
Proof.
  unfold ifd_bh_run, ifd_bh_handler. case_match; [|apply quiet_ret]. eapply (quiet_via (set_i_wake false s)); [fr|].
  apply quiet_bind; [apply slot_state_quiet|]. intros s1. apply xchg_state_quiet.
Qed.

(** ** Requests *)
Lemma start_due v s : In v [IFD_SEQ_AUTO_SEQ; IFD_SEQ_POWER_ON; IFD_SEQ_POWER_OFF; IFD_SEQ_SET_PARAM; IFD_SEQ_INTERCHANGE] ->
  let s' := ifd_seq_onoff true (ifd_seq_set v s) in (wf s -> wf s') /\ (due s' <= due s + 1)%nat.
Proof.
  intros Hv s'. pose proof (seq_set_quiet v s Hv) as (Hw & _ & _). split.
  - intros H. specialize (Hw H). destruct Hw. split; try assumption. intros _. change (v <> IFD_SEQ_IDLE). intros ->. cbn in Hv.
    destruct Hv as [E|[E|[E|[E|[E|[]]]]]]; discriminate E.
  - unfold due. cbn. lia.
Qed.
Definition accepts (e : Z) : nat := if e =? SCS_ERR_PROGRESS then 1 else 0.
(** A request that returns [e]: well-formedness is kept, and one callback more is due at
    most if it was accepted. *)
Definition asked s (r : Z * ifd P) : Prop := (wf s -> wf (snd r)) /\ (due (snd r) <= due s + accepts (fst r))%nat.
Lemma asked_quiet s e s' : quiet s s' -> asked s (e, s').
Proof. intros (H1 & H2 & _). split; [done|]. cbn. lia. Qed.
Lemma asked_start s s1 v : quiet s s1 -> In v [IFD_SEQ_AUTO_SEQ; IFD_SEQ_POWER_ON; IFD_SEQ_POWER_OFF; IFD_SEQ_SET_PARAM; IFD_SEQ_INTERCHANGE] ->
  asked s (ifd_seq_start v s1).
Proof. intros (H1 & H2 & _) Hv. destruct (start_due v s1 Hv) as [H3 H4]. split; [auto|]. cbn [fst snd ifd_seq_start accepts]. cbn in *. lia. Qed.
Lemma power_on_asked c s : asked s (ifd_power_on c s).
Proof.
  unfold ifd_power_on, scs_auto_seq. case_match.
  { apply andb_true_iff in H as [_ H]. apply Z.eqb_eq in H. split.
    - intros []. split; try assumption. intros _. change (i_seq s <> IFD_SEQ_IDLE). by rewrite H.
    - unfold due. cbn. lia. }
  cbv zeta. case_match; [by apply asked_quiet|]. case_match.
  - set (s1 := ifd_deactivate _). change (asked s (ifd_seq_start IFD_SEQ_AUTO_SEQ s1)). apply asked_start; [fr|by left].
  - apply asked_start; [fr|by right; left].
Qed.
Lemma power_off_asked s : asked s (ifd_power_off s).
Proof. unfold ifd_power_off. cbv zeta. case_match; [by apply asked_quiet|]. apply asked_start; [fr|cbn; tauto]. Qed.
Lemma pps_build_frame s : post (__ifd_pps_build s) (frame s).
Proof.
  unfold __ifd_pps_build. cbv zeta. apply frame_bind; [apply frame_write|]. intros s1. apply frame_bind; [apply frame_write|]. intros s2.
  apply frame_bind; [case_match; [apply frame_write|done]|]. intros s3. apply frame_bind; [apply frame_write|]. intros s4.
  assert (Hb : forall c slot i s, post (pps_save_byte c slot i s) (fun x => frame s (snd x))).
  { intros c slot i s5. unfold pps_save_byte. case_match; [|done]. rd. by rd. }
  unfold ifd_pps_save. rd. rd. eapply (post_impl _ (frame (upd_px (set_px_req a0) s4))); [|intros s5 F; eapply transitivity; [|exact F]; done].
  do 3 (apply frame_pair_st; [apply Hb|intros ? ?]). done.
Qed.
Lemma info_xchg_quiet s : post (ifd_info_xchg protos s) (quiet s).
Proof.
  assert (Hn : forall s, post (ifd_nego_proto protos s) (frame s)) by (intros s1; unfold ifd_nego_proto; case_match; [by case_match|done]).
  unfold ifd_info_xchg. cbv zeta.
  match goal with |- context [if sl_info_xchg (i_slot s) =? IFD_INFO_XCHG_SPECIFIC then s else ?t] =>
    set (s1 := if sl_info_xchg (i_slot s) =? IFD_INFO_XCHG_SPECIFIC then s else t) end.
  assert (F : quiet s s1) by (subst s1; repeat case_match; fr). clearbody s1. apply (quiet_via s1); [done|].
  case_match; [|case_match; [|case_match; [|done]]].
  - unfold ifd_spec_mode. cbv zeta. case_match; [cbn [post]; fr|]. eapply quiet_via; [|apply quiet_bind; [apply post_frame, Hn|intros s2; cbn [post]; fr]]. fr.
  - unfold ifd_nego_1st. cbv zeta. eapply quiet_via; [|apply quiet_bind; [apply post_frame, Hn|intros s2; cbn [post]; fr]]. fr.
  - unfold ifd_nego_pps. apply quiet_bind; [apply post_frame, pps_build_frame|]. intros s2. rd. cbv zeta. cbn [post].
    set (s3 := set_i_expire ExPps _). transitivity s3; [fr|]. clearbody s3. transitivity (ifd_xchg_busy s3); [apply busy_quiet|].
    generalize (ifd_xchg_busy s3). intros s4. fr.
Qed.
Lemma set_param_asked s : post (ifd_set_param protos s) (asked s).
Proof.
  unfold ifd_set_param. cbv zeta. case_match; [by apply asked_quiet|]. apply post_bind. eapply post_impl; [apply info_xchg_quiet|].
  intros s1 H1. cbn [post]. apply asked_start; [done|cbn; tauto].
Qed.
Lemma reset_param_asked s : post (ifd_reset_param protos s) (asked s).
Proof.
  unfold ifd_reset_param. cbv zeta. case_match; [by apply asked_quiet|]. apply post_bind. eapply post_impl; [apply post_frame, frame_config_def|].
  intros s1 H1. by apply asked_quiet.
Qed.
Lemma xchg_block_asked nc ne s : post (ifd_xchg_block protos nc ne s) (asked s).
Proof.
  unfold ifd_xchg_block. cbv zeta. case_match; [by apply asked_quiet|]. case_match; [by apply asked_quiet|]. rd.
  set (s1 := ifd_xchg_reset s). assert (F1 : quiet s s1) by fr. clearbody s1.
  destruct (ifd_get_protocol protos s1) as [[pid p]|] eqn:E; [|done]. cbn [oob mbind res_mbind]. apply proto_index_In in E.
  apply post_bind. eapply post_impl; [by apply fr_init|]. intros [e s2] H2. cbn [snd] in H2.
  assert (F2 : quiet s s2) by (transitivity s1; [done|]; transitivity (set_i_expire (ExProto pid) s1); [fr|by apply frame_quiet]).
  case_match; [by apply asked_quiet|]. apply post_bind. eapply post_impl; [apply post_frame, proto_aval_frame|]. intros s3 H3. cbn [post].
  apply asked_start; [|cbn; tauto]. transitivity s2; [done|]. transitivity (ifd_xchg_busy s2); [apply busy_quiet|done].
Qed.
Lemma write_byte_asked i b s : post (ifd_write_byte i b s) (asked s).
Proof.
  unfold ifd_write_byte. cbv zeta. case_match; [by apply asked_quiet|]. case_match; [by apply asked_quiet|].
  apply post_bind. eapply post_impl; [apply post_frame, frame_write|]. intros s1 H1. by apply asked_quiet.
Qed.
Lemma write_byte_mask_asked i b m s : post (ifd_write_byte_mask i b m s) (asked s).
Proof.
  unfold ifd_write_byte_mask. cbv zeta. case_match; [by apply asked_quiet|]. case_match; [by apply asked_quiet|].
  rd. apply frame_wr. intros b1 Hb. cbn [post]. apply asked_quiet, frame_quiet. by repeat split.
Qed.
Lemma asked_via s1 s (r : res (Z * ifd P)) : frame s s1 -> post r (asked s1) -> post r (asked s).
Proof.
  intros F H. apply (post_impl _ _ _ H). intros x [Hw Hd]. destruct (frame_quiet s s1 F) as (H1 & H2 & _). split; [auto|lia].
Qed.
End Frames.

(** ** Everything that can happen, with [call] for the requests of the upper layer *)
Section Reachable.
Context {P : Type} (C : card) (protos : list (ifd_proto P)) (FMAX : Z) {R : Type} (call : R -> ifd P -> res (Z * ifd P)).
Implicit Types (s : ifd P).
(** [reachable n s]: the reader can be in state [s] after [n] requests have been accepted.
    It starts from the zeroed memory of the boot and [ifd_init].  Between two steps the state
    of the parser, of the reception, of the PPS exchange and of the protocols may take any
    value, so that nothing depends on these sharing the memory of the union [ifd_tmp]. *)
Inductive reachable : nat -> ifd P -> Prop :=
  | R_init s0 s : wf s0 -> due s0 = 0%nat -> ifd_init C protos FMAX s0 = Ok s -> reachable 0 s
  | R_bh n s s' : reachable n s -> ifd_bh_run C protos FMAX s = Ok s' -> reachable n s'
  | R_pres n s present : reachable n s -> reachable n (ifd_pres_handler present s)
  | R_call n s r e s' : reachable n s -> call r s = Ok (e, s') -> reachable (n + accepts e) s'
  | R_tmp n s ap ax px q : reachable n s -> reachable n (set_i_ap ap (set_i_ax ax (set_i_px px (set_i_p q s)))).
End Reachable.

Lemma init_quiet {P} C (protos : list (ifd_proto P)) {Hf : ProtosFrame protos} FMAX s : post (ifd_init C protos FMAX s) (quiet s).
Proof.
  unfold ifd_init. apply (quiet_via (ifd_seq_reset s)); [|by apply slot_reset_quiet]. split; [|split].
  - intros []. split; try assumption; [cbn; tauto|done].
  - unfold due. cbn. lia.
  - exists []. by rewrite app_nil_r.
Qed.

(** The invariant of the reader, for protocols with [ProtosFrame]. *)
Lemma reader_wf {P R} C (protos : list (ifd_proto P)) {Hf : ProtosFrame protos} FMAX (call : R -> ifd P -> res (Z * ifd P)) n s :
  (forall r s, post (call r s) (asked s)) -> reachable C protos FMAX call n s -> wf s /\ (length (i_done s) + Nat.b2n (sl_cmpl (i_slot s)) <= n)%nat.
Proof.
  fold (due s). intros Hcall H.
  induction H as [s0 s Hw Hd E|n s s' H [Hw Hd] E|n s b H [Hw Hd]|n s r e s' H [Hw Hd] E|n s ap ax px q H [Hw Hd]].
  - pose proof (init_quiet C protos FMAX s0) as Hq. rewrite E in Hq. destruct Hq as (H1 & H2 & _). split; [auto|lia].
  - pose proof (bh_run_quiet C protos FMAX s) as Hq. rewrite E in Hq. destruct Hq as (H1 & H2 & _). split; [auto|lia].
  - assert (Hq : quiet s (ifd_pres_handler b s)).
    { apply frame_quiet. unfold ifd_pres_handler, ifd_detect_icc_in, ifd_detect_icc_out. repeat case_match; done. }
    destruct Hq as (H1 & H2 & _). split; [auto|lia].
  - pose proof (Hcall r s) as Hq. rewrite E in Hq. destruct Hq as (H1 & H2). cbn [fst snd] in *. split; [auto|lia].
  - split; [by destruct Hw|exact Hd].
Qed.
Lemma run_reachable {P R} C (protos : list (ifd_proto P)) FMAX (call : R -> ifd P -> res (Z * ifd P)) k :
  forall n s s', reachable C protos FMAX call n s -> ifd_run C protos FMAX k s = Ok s' -> reachable C protos FMAX call n s'.
Proof.
  induction k as [|k IH]; intros n s s' H E; cbn [ifd_run] in E; [by simplify_eq|].
  destruct (ifd_bh_run C protos FMAX s) as [s1|] eqn:E1; [|done]. cbn [mbind res_mbind] in E. by apply (IH n s1), E; eapply R_bh.
Qed.
