(* ===== verification/Reader.v ===== *)
(** * Reader: the slot machine with the protocols of the code

    The slot machine of kernel/scs/ifd.c ([Ifd]) with T=0 (kernel/scs/ifd_t0.c) and T=1
    (kernel/scs/ifd_t1.c) registered: their exchange callbacks, modelled in [T0] and [T1] on
    states of their own, as callbacks on the state of the reader.  A callback takes exchange
    buffer, transfer state and error from the reader, runs, and puts them back; the calls it
    makes into the transfer layer ([ifd_xchg_begin], [ifd_xchg_run], [ifd_xfr_block],
    [ifd_xchg_end], [ifd_xchg_stop]) are then made on the reader in their order.  The
    interfaces [ProtosOk] and [ProtosFrame] of [Slot] and [SlotInv] hold for these protocols,
    so that the theorems here are about the reader as it is registered by [ifd_t0_init] and
    [ifd_t1_init].  IFD_WT_RATIO and IFD_T1_MAX_IFSD are numbers of the build (Kconfig). *)
From S2P Require Import Prelude Bitops MulDiv CString T0 T1 Ifd Atr Slot Pps SlotInv.
From stdpp Require Import list.
Local Open Scope Z_scope.
Local Open Scope c_scope.

Section Protocols.
Context (IFD_WT_RATIO IFD_T1_MAX_IFSD : Z).
Implicit Types (s : rd_state).

(** ** T=0 *)
Definition upd_t0 (f : t0 -> t0) s : rd_state := set_i_p (MkConf (c_wi (i_p s)) (c_t1 (i_p s)) (f (c_t0 (i_p s)))) s.
Definition t0_load s : t0 :=
  let x := i_xfr s in
  T0.set_end None false (T0.set_sent [] (T0.set_buff (i_buff s)
    (T0.set_xfr (xf_tx_start x) (xf_nc x) (xf_rx_start x) (xf_ne x) (xf_tx x) (xf_rx x) (c_t0 (i_p s))))).
Definition t0_store (q : t0) s : rd_state :=
  let s := upd_t0 (fun _ => q) (set_i_xfr (MkXfr (T0.tx_start q) (T0.rx_start q) (T0.xnc q) (T0.xne q) (T0.xtx q) (T0.xrx q)) (set_i_buff (T0.buff q) s)) in
  let s := match T0.ended q with Some nr => ifd_xchg_end nr s | None => s end in
  if T0.raised q then ifd_xchg_stop IFD_XCHG_EVENT_XFR_CMPL s else s.
Definition t0_xchg_init (nc ne : Z) s : res (Z * rd_state) :=
  '(err, q) ← ifd_t0_xchg_init nc (t0_load s); Ok (err, t0_store q s).
Definition t0_xchg_aval s : res rd_state :=
  let q := c_t0 (i_p s) in
  let s := ifd_xchg_begin (T0.tx q) 5 (T0.rx q) 1 s in
  let s := upd_t0 (fun q => T0.set_cmpl false (T0.set_pos (u16 (T0.tx q + 5)) (u16 (T0.rx q + 1)) q)) s in
  Ok (ifd_xchg_run s).
Definition t0_xchg_cmpl s : res rd_state := Ok s.
Definition t0_ne_expire s : res rd_state := q ← ifd_t0_ne_expire (t0_load s); Ok (t0_store q s).

(** ** T=1 *)
Definition msb s : bool := sl_conv (i_slot s) =? IFD_CONV_INVERSE.
Definition t1_load s : t1 := set_out [] (set_error (i_error s) (T1.set_buff (i_buff s) (c_t1 (i_p s)))).
Definition t1_call s (e : t1_event) : rd_state :=
  match e with
  | OBegin tx nc rx ne _ => ifd_xchg_begin tx nc rx ne s
  | ORun => ifd_xchg_run s
  | OBlock tx nc rx ne _ => __ifd_xfr_block tx nc rx ne s
  | OEnd nr => ifd_xchg_end nr s
  | OStop XFR_CMPL => ifd_xchg_stop IFD_XCHG_EVENT_XFR_CMPL s
  | OStop XFR_OVER => ifd_xchg_stop IFD_XCHG_EVENT_XFR_OVER s
  end.
Definition t1_store (q : t1) s : rd_state :=
  foldl t1_call (upd_t1 (fun _ => q) (ifd_xchg_set_error (t1_error q) (set_i_buff (t1_buff q) s))) (t1_out q).
Definition t1_xchg_init (nc ne : Z) s : res (Z * rd_state) :=
  Ok (SCS_ERR_PROGRESS, t1_store (ifd_t1_xchg_init nc (t1_load s)) s).
Definition t1_xchg_aval s : res rd_state :=
  q ← ifd_t1_xchg_aval IFD_BUF_SIZE IFD_T1_MAX_IFSD (msb s) (t1_load s); Ok (t1_store q s).
Definition t1_xchg_cmpl s : res rd_state :=
  q ← ifd_t1_xchg_cmpl IFD_BUF_SIZE (msb s) (t1_load s); Ok (t1_store q s).
Definition t1_ne_expire s : res rd_state :=
  q ← ifd_t1_ne_expire (xf_rx_start (i_xfr s)) (t1_load s); Ok (t1_store q s).

(** ** Registration: the parameter functions are those of [Pps] *)
Definition t0_exchange_cb : ifd_proto proto_conf :=
  MkProto SCS_PROTO_T0 (fun _ _ _ _ q => q) t0_xchg_init t0_xchg_aval t0_xchg_cmpl t0_ne_expire (fun q => q) Ok (fun q => q).
Definition t1_exchange_cb : ifd_proto proto_conf :=
  MkProto SCS_PROTO_T1 (fun _ _ _ _ q => q) t1_xchg_init t1_xchg_aval t1_xchg_cmpl t1_ne_expire (fun q => q) Ok (fun q => q).
Definition reader_protos : list (ifd_proto proto_conf) := ifd_protos IFD_WT_RATIO t0_exchange_cb t1_exchange_cb.
#[export] Instance reader_protos_ok : ProtosOk reader_protos.
Proof. apply ifd_protos_ok. Qed.

(** ** The protocols keep the size of the exchange buffer *)
Definition t1_same (q q' : t1) : Prop := length (t1_buff q') = length (t1_buff q).
Lemma same_bind q (r : res t1) (k : t1 -> res t1) :
  post r (t1_same q) -> (forall q1, post (k q1) (t1_same q1)) -> post (r ≫= k) (t1_same q).
Proof.
  intros Hr Hk. apply post_bind, (post_impl _ _ _ Hr). intros q1 H1. apply (post_impl _ _ _ (Hk q1)). unfold t1_same. congruence.
Qed.
Lemma same_via q1 q (r : res t1) : t1_same q q1 -> post r (t1_same q1) -> post r (t1_same q).
Proof. intros H1 H. apply (post_impl _ _ _ H). unfold t1_same in *. congruence. Qed.
Lemma same_wr q i x : post (wr (t1_buff q) i x) (fun b => length b = length (t1_buff q)).
Proof. destruct (wr (t1_buff q) i x) eqn:E; [|done]. by apply (wr_length _ i x). Qed.
Lemma copy_up_length n : forall m t f, post (copy_up m t f n) (fun b => length b = length m).
Proof.
  induction n as [|n IH]; intros m t f; cbn [copy_up]; [done|]. apply post_read. intros x.
  destruct (wr m t x) eqn:E; [|done]. cbn [mbind res_mbind]. rewrite <- (wr_length _ _ _ _ E). apply IH.
Qed.
Lemma copy_down_length n : forall m t f, post (copy_down m t f n) (fun b => length b = length m).
Proof.
  induction n as [|n IH]; intros m t f; cbn [copy_down]; [done|]. apply post_read. intros x.
  destruct (wr m (t - 1) x) eqn:E; [|done]. cbn [mbind res_mbind]. rewrite <- (wr_length _ _ _ _ E). apply IH.
Qed.
Lemma write_same B i x q : post (T1.ifd_xchg_write B i x q) (t1_same q).
Proof. unfold T1.ifd_xchg_write. apply post_read. intros _. apply post_bind. apply (post_impl _ _ _ (same_wr _ _ _)). by intros b Hb. Qed.
Lemma move_same to from n q : post (ifd_xchg_move to from n q) (t1_same q).
Proof.
  unfold ifd_xchg_move. apply post_bind. apply (post_impl _ (fun b => length b = length (t1_buff q))); [|by intros b Hb].
  case_match; [apply copy_up_length|apply copy_down_length].
Qed.
Lemma write_l_same B l : forall i q, post (t1_write_l B l i q) (t1_same q).
Proof. induction l as [|x l IH]; intros i q; cbn [t1_write_l]; [done|]. apply same_bind; [apply write_same|]. intros q1. apply IH. Qed.
Lemma save_same i n q : post (ifd_t1_save i n q) (t1_same q).
Proof. unfold ifd_t1_save. apply post_read. intros _. by apply post_read. Qed.
Lemma restore_same B i q : post (ifd_t1_restore B i q) (t1_same q).
Proof. unfold ifd_t1_restore. apply post_read. intros _. apply same_bind; [apply write_l_same|done]. Qed.

Create HintDb reader.
#[local] Hint Resolve write_same move_same save_same restore_same : reader.
(** Assignments leave the buffer alone; reads are skipped; a step of the protocol is looked up. *)
Ltac same_set := solve [unfold t1_same; reflexivity | unfold t1_same; repeat case_match; reflexivity].
Ltac same := cbv zeta; repeat first
  [ done
  | eapply same_via; [|solve [eauto with reader nocore]]; same_set
  | case_match
  | apply same_bind; [|intros ?]
  | apply post_read; intros ? ].
Lemma restore_buffer_same B tx rx q : post (ifd_t1_restore_buffer B tx rx q) (t1_same q).
Proof. unfold ifd_t1_restore_buffer. same. Qed.
Lemma same_pair {A} q (r : res (A * t1)) (k : A * t1 -> res t1) :
  post r (fun x => t1_same q (snd x)) -> (forall a q1, post (k (a, q1)) (t1_same q1)) -> post (r ≫= k) (t1_same q).
Proof.
  intros Hr Hk. apply post_bind, (post_impl _ _ _ Hr). intros [a q1] H1. apply (post_impl _ _ _ (Hk a q1)). unfold t1_same in *. cbn in H1. congruence.
Qed.
Lemma same_ret {A} q (r : res t1) (a : A) : post r (t1_same q) -> post (r ≫= fun q1 => Ok (a, q1)) (fun x => t1_same q (snd x)).
Proof. intros H. by apply post_bind, (post_impl _ _ _ H). Qed.
Lemma save_buffer_same B q : post (ifd_t1_save_buffer B q) (t1_same q).
Proof.
  unfold ifd_t1_save_buffer. cbv zeta. case_match.
  - apply post_read. intros _. apply post_read. intros _. apply (same_bind q); [same|intros q1; same].
  - apply same_pair; [|done]. case_match; [|done]. apply same_ret. same.
Qed.
#[local] Hint Resolve restore_buffer_same save_buffer_same : reader.
Lemma checksum_same B m q : post (ifd_t1_compute_checksum B m q) (t1_same q).
Proof. unfold ifd_t1_compute_checksum. same. Qed.
Lemma prologue_same B q : post (ifd_t1_write_prologue B q) (t1_same q).
Proof. unfold ifd_t1_write_prologue. same. Qed.
#[local] Hint Resolve checksum_same prologue_same : reader.
Lemma sblock_same B m type inf resp q : post (ifd_t1_build_sblock B m type inf resp q) (t1_same q).
Proof. unfold ifd_t1_build_sblock. same. Qed.
Lemma iblock_same B m ifsc q : post (ifd_t1_build_iblock B m ifsc q) (t1_same q).
Proof. unfold ifd_t1_build_iblock. same. Qed.
Lemma rblock_same B m q : post (ifd_t1_build_rblock B m q) (t1_same q).
Proof. unfold ifd_t1_build_rblock. same. Qed.
#[local] Hint Resolve sblock_same iblock_same rblock_same : reader.
Lemma aval_same B M m q : post (ifd_t1_xchg_aval B M m q) (t1_same q).
Proof. unfold ifd_t1_xchg_aval. same. Qed.
Lemma ack_same c q : post (ifd_t1_ack_iblock c q) (t1_same q).
Proof. unfold ifd_t1_ack_iblock. same. Qed.
Lemma acked_same q : post (ifd_t1_acked_iblock q) (t1_same q).
Proof. unfold ifd_t1_acked_iblock. same. Qed.
#[local] Hint Resolve ack_same acked_same : reader.
Lemma error_handling_same B q : post (ifd_t1_error_handling B q) (t1_same q).
Proof. unfold ifd_t1_error_handling. same. Qed.
Lemma error_free_same B q : post (ifd_t1_error_free_operation B q) (t1_same q).
Proof.
  unfold ifd_t1_error_free_operation. cbv zeta. apply (same_via (ifd_t1_resync_reset q)); [done|]. generalize (ifd_t1_resync_reset q). intros q1.
  apply post_read. intros pcb. apply post_read. intros info. apply same_pair; [|intros next q2; same].
  case_match; [apply post_read; intros n; apply same_ret; same|]. case_match.
  - apply post_bind. eapply post_impl; [apply acked_same|]. intros q2 H2. apply post_read. intros m. apply same_ret. apply (same_via q2 q1); [done|]. apply ack_same.
  - apply post_read. intros r. apply post_read. intros c. cbn [post]. repeat case_match; reflexivity.
Qed.
#[local] Hint Resolve error_handling_same error_free_same : reader.
Lemma cmpl_same B m q : post (ifd_t1_xchg_cmpl B m q) (t1_same q).
Proof. unfold ifd_t1_xchg_cmpl. same. Qed.
Lemma expire_same i q : post (ifd_t1_ne_expire i q) (t1_same q).
Proof. unfold ifd_t1_ne_expire. same. Qed.
Lemma t0_init_same n q : post (ifd_t0_xchg_init n q) (fun x => length (T0.buff (snd x)) = length (T0.buff q)).
Proof.
  unfold ifd_t0_xchg_init. apply post_bind. apply (post_impl _ (fun x => length (T0.buff (snd x)) = length (T0.buff q))).
  - unfold ifd_t0_xfr_parse. case_match; [done|]. apply post_read. intros i. case_match.
    + destruct (wr (T0.buff q) 4 0) eqn:E; [|done]. by apply (wr_length _ 4 0).
    + apply post_read. intros p3. repeat case_match; try done. by apply post_read.
  - intros [e q1] H. cbn in *. by case_match.
Qed.
Lemma t0_expire_same q : post (ifd_t0_ne_expire q) (fun q' => length (T0.buff q') = length (T0.buff q)).
Proof.
  unfold ifd_t0_ne_expire, __ifd_t0_ne_expire_proc. case_match; [|done]. apply post_read. intros sw1. repeat case_match; done.
Qed.

(** ** and leave alone what controls sequences *)
Lemma t0_store_frame q s : length (T0.buff q) = length (i_buff s) -> frame s (t0_store q s).
Proof.
  intros H. unfold t0_store. set (s1 := upd_t0 _ _). assert (F : frame s s1) by (by repeat split). clearbody s1.
  transitivity s1; [done|]. clear F. set (s2 := match T0.ended q with Some nr => _ | None => _ end).
  assert (F : frame s1 s2) by (subst s2; by case_match). clearbody s2. transitivity s2; [done|]. case_match; [apply frame_stop|done].
Qed.
Lemma t1_call_frame e s : frame s (t1_call s e).
Proof. destruct e as [| | | |[]]; cbn [t1_call]; first [apply frame_stop|done]. Qed.
Lemma t1_store_frame q s : length (t1_buff q) = length (i_buff s) -> frame s (t1_store q s).
Proof.
  intros H. unfold t1_store. set (s1 := upd_t1 _ _). assert (F : frame s s1) by (by repeat split). clearbody s1. revert s1 F.
  induction (t1_out q) as [|e l IH]; intros s1 F; cbn [foldl]; [done|]. apply IH. transitivity s1; [done|apply t1_call_frame].
Qed.
Lemma t1_run_frame (r : res t1) s : post r (t1_same (t1_load s)) -> post (q ← r; Ok (t1_store q s)) (frame s).
Proof. intros H. apply post_bind, (post_impl _ _ _ H). intros q Hq. cbn [post]. by apply t1_store_frame. Qed.
#[export] Instance reader_protos_frame : ProtosFrame reader_protos.
Proof.
  split; intros p; [intros nc ne|..]; intros s Hp; destruct Hp as [<-|[<-|[]]]; cbn [pr_xchg_init pr_xchg_aval
    pr_xchg_cmpl pr_ne_expire pr_conf_param ifd_t0 ifd_t1 t0_exchange_cb t1_exchange_cb].
  - unfold t0_xchg_init. apply post_bind. eapply post_impl; [apply t0_init_same|]. intros [e q] H. cbn [snd post]. by apply t0_store_frame.
  - cbn [post snd t1_xchg_init]. by apply t1_store_frame.
  - done.
  - apply t1_run_frame, aval_same.
  - done.
  - apply t1_run_frame, cmpl_same.
  - unfold t0_ne_expire. apply post_bind. eapply post_impl; [apply t0_expire_same|]. intros q H. cbn [post]. by apply t0_store_frame.
  - apply t1_run_frame, expire_same.
  - unfold ifd_t0_conf_param. cbv zeta. apply post_read. intros D. cbn [post]. by case_match.
  - unfold ifd_t1_conf_param. cbv zeta. apply post_read. intros D. cbn [post]. by case_match.
Qed.
End Protocols.

(** ** What the upper layer asks for *)
Inductive request : Type :=
  | PowerOn (clazz : Z) | PowerOff | SetT0Param (fd gi wi : Z) | SetT1Param (fd gi wi ifsc nad : Z) | ResetParam
  | XchgBlock (nc ne : Z) | WriteByte (index byte : Z) | WriteByteMask (index byte mask : Z).
Section Requests.
Context (C : card) (FMAX IFD_WT_RATIO IFD_T1_MAX_IFSD : Z).
Implicit Types (s : rd_state).
Definition protos := reader_protos IFD_WT_RATIO IFD_T1_MAX_IFSD.
Definition call (r : request) s : res (Z * rd_state) :=
  match r with
  | PowerOn c => Ok (ifd_power_on c s)
  | PowerOff => Ok (ifd_power_off s)
  | SetT0Param fd gi wi => ifd_set_t0_param IFD_WT_RATIO t0_exchange_cb (t1_exchange_cb IFD_T1_MAX_IFSD) fd gi wi s
  | SetT1Param fd gi wi ifsc nad => ifd_set_t1_param IFD_WT_RATIO t0_exchange_cb (t1_exchange_cb IFD_T1_MAX_IFSD) fd gi wi ifsc nad s
  | ResetParam => ifd_reset_param protos s
  | XchgBlock nc ne => ifd_xchg_block protos nc ne s
  | WriteByte i b => ifd_write_byte i b s
  | WriteByteMask i b m => ifd_write_byte_mask i b m s
  end.
(** The states the reader can be in after [n] requests have been accepted. *)
Definition reader_reachable : nat -> rd_state -> Prop := reachable C protos FMAX call.

Lemma set_t0_param_asked fd gi wi s : post (call (SetT0Param fd gi wi) s) (asked s).
Proof.
  cbn [call]. unfold ifd_set_t0_param. apply post_read. intros err. case_match; [by apply asked_quiet|]. cbv zeta.
  eapply asked_via; [|apply set_param_asked]. done.
Qed.
Lemma set_t1_param_asked fd gi wi ifsc nad s : post (call (SetT1Param fd gi wi ifsc nad) s) (asked s).
Proof.
  cbn [call]. unfold ifd_set_t1_param. apply post_read. intros err. case_match; [by apply asked_quiet|]. cbv zeta.
  eapply asked_via; [|apply set_param_asked]. done.
Qed.
Lemma call_asked r s : post (call r s) (asked s).
Proof.
  destruct r; [apply power_on_asked|apply power_off_asked|apply set_t0_param_asked|apply set_t1_param_asked|apply reset_param_asked, _|
    apply xchg_block_asked, _|apply write_byte_asked|apply write_byte_mask_asked].
Qed.

(** ** Sessions: runs of the bottom half, presence interrupts and requests in sequence *)
Inductive step : Type := Run (k : nat) | Presence (b : bool) | Request (r : request).
Fixpoint play (l : list step) (n : nat) s : res (nat * rd_state) :=
  match l with
  | [] => Ok (n, s)
  | Run k :: l => s ← ifd_run C protos FMAX k s; play l n s
  | Presence b :: l => play l n (ifd_pres_handler b s)
  | Request r :: l => '(e, s) ← call r s; play l (n + accepts e) s
  end.
Lemma play_reachable l : forall n s n' s', reader_reachable n s -> play l n s = Ok (n', s') -> reader_reachable n' s'.
Proof.
  induction l as [|[k|b|r] l IH]; intros n s n' s' H E; cbn [play] in E.
  - by simplify_eq.
  - destruct (ifd_run C protos FMAX k s) as [s1|] eqn:E1; [|done]. eapply IH, E. by eapply run_reachable.
  - eapply IH, E. by apply R_pres.
  - destruct (call r s) as [[e s1]|] eqn:E1; [|done]. eapply IH, E. by eapply R_call.
Qed.
End Requests.

(** C3: The invariant of the reader.  The reader has T=0 and T=1 registered with the callbacks
    of the code.  In every state that can be reached after boot, by whatever requests of the
    upper layer, insertions, removals and runs of the bottom half, with whatever card (errors
    on the line, while sending as well as while receiving, included): slot state, exchange
    state and command sequence are among their constants, the exchange buffer has its size, a
    callback is only due while a sequence is in progress, and the callbacks made so far
    together with the one that is due are never more than the requests that were accepted. *)
Theorem reader_invariant C FMAX IFD_WT_RATIO IFD_T1_MAX_IFSD n s :
  reader_reachable C FMAX IFD_WT_RATIO IFD_T1_MAX_IFSD n s ->
  wf s /\ (length (i_done s) + Nat.b2n (sl_cmpl (i_slot s)) <= n)%nat.
Proof. apply (reader_wf C _ FMAX), call_asked. Qed.

(** C4: Power-on with automatic class selection completes.  For every card that answers a reset
    with bytes and line errors, fewer than 256 in all (a longer answer runs over the exchange
    buffer), in a build whose maximal clock is not below the default one: a slot with a card
    and nothing in progress accepts the request and, after at most 31 runs of the bottom half,
    is at rest again with the callback called exactly once.  The reader has then settled on
    the first combination of class (A, B, C) and convention (direct, inverse) in which the
    card accepts the supply and answers with an ATR that the parser accepts, with that ATR in
    the exchange buffer; if there is none, the callback gets SCS_ERR_HW_ERROR and the slot is
    back in the state PRESENT. *)
Theorem power_on_auto_completes C FMAX IFD_WT_RATIO IFD_T1_MAX_IFSD (s : rd_state) :
  IFD_HW_FREQ_DEF <= FMAX -> (forall h, line_ok (c_atr C h)) -> (forall h, (length (c_atr C h) < 256)%nat) ->
  i_seq s = IFD_SEQ_IDLE -> IFD_SLOT_STATE_PRESENT <= status s -> i_sev s = 0 -> i_state s = IFD_XCHG_STATE_IDLE ->
  Z.of_nat (length (i_buff s)) = IFD_BUF_SIZE ->
  exists s1 s2, ifd_power_on IFD_CLASS_AUTO s = (SCS_ERR_PROGRESS, s1) /\
    (forall n, (31 <= n)%nat -> ifd_run C (protos IFD_WT_RATIO IFD_T1_MAX_IFSD) FMAX n s1 = Ok s2) /\
    i_seq s2 = IFD_SEQ_IDLE /\ i_sev s2 = 0 /\ i_wake s2 = false /\
    match first_answer C tries with
    | Some (c, v, a) => i_done s2 = i_done s ++ [SCS_ERR_SUCCESS] /\ status s2 = IFD_SLOT_STATE_ATR_READY /\
        sl_clazz (i_slot s2) = c /\ sl_conv (i_slot s2) = v /\
        take (length (atr_bytes a)) (i_buff s2) = atr_bytes a /\ i_nr s2 = Z.of_nat (length (atr_bytes a))
    | None => i_done s2 = i_done s ++ [SCS_ERR_HW_ERROR] /\ status s2 = IFD_SLOT_STATE_PRESENT
    end.
Proof. apply power_on_completes, reader_protos_ok. Qed.

(** ** A session *)
(** A card of class B and the inverse convention that, after its ATR, answers one command. *)
Definition card_sw : card :=
  MkCard (fun h => hw_clazz h =? IFD_CLASS_B) (fun _ => true) (fun _ => map Byte (atr_bytes atr_inverse ++ [0x90; 0x00])) 0xFF.
Definition reader_boot : rd_state := set_i_slot slot_init (conf_example IFD_T1_WI_IMPLICIT).
Definition session : list step :=
  [Presence true; Run 1; Request (PowerOn IFD_CLASS_AUTO); Run 31; Request (SetT0Param 0x11 0 10); Run 2;
   Request (WriteByte 0 0x00); Request (WriteByte 1 0xA4); Request (XchgBlock 4 0); Run 4].
Definition session_end : res (nat * rd_state) :=
  s ← ifd_init card_sw (protos 1 254) 5000 reader_boot; play card_sw 5000 1 254 session 0 s.
Lemma reader_boot_wf : wf reader_boot.
Proof. split; try (vm_compute; intuition congruence). Qed.
(** Insertion, power-on, selection of T=0 and a command that the card answers with 9000. *)
Lemma reader_invariant_witness :
  exists s, session_end = Ok (3%nat, s) /\ i_done s = [SCS_ERR_SUCCESS; SCS_ERR_SUCCESS; SCS_ERR_SUCCESS] /\
    i_sent s = [0x00; 0xA4; 0x00; 0x00; 0x00] /\ take 2 (i_buff s) = [0x90; 0x00] /\ wf s /\
    (length (i_done s) + Nat.b2n (sl_cmpl (i_slot s)) <= 3)%nat.
Proof.
  assert (E : exists s0 s, ifd_init card_sw (protos 1 254) 5000 reader_boot = Ok s0 /\ play card_sw 5000 1 254 session 0 s0 = Ok (3%nat, s) /\
    i_done s = [SCS_ERR_SUCCESS; SCS_ERR_SUCCESS; SCS_ERR_SUCCESS] /\ i_sent s = [0x00; 0xA4; 0x00; 0x00; 0x00] /\ take 2 (i_buff s) = [0x90; 0x00]).
  { eexists _, _. split; [vm_compute; reflexivity|]. split; [vm_compute; reflexivity|]. vm_compute. split; [reflexivity|]. by split. }
  destruct E as (s0 & s & E0 & E1 & Hd & Hs & Hb). exists s. split; [unfold session_end; by rewrite E0|].
  split; [exact Hd|]. split; [exact Hs|]. split; [exact Hb|].
  refine (reader_invariant card_sw 5000 1 254 3 s (play_reachable card_sw 5000 1 254 session 0 s0 3 s _ E1)).
  exact (R_init _ _ _ _ reader_boot s0 reader_boot_wf eq_refl E0).
Defined.
Definition reader_present : rd_state := upd_slot (set_sl_status IFD_SLOT_STATE_PRESENT) reader_boot.
Lemma power_on_auto_completes_witness :
  first_answer card_b tries = Some (IFD_CLASS_B, IFD_CONV_INVERSE, atr_inverse) /\
  exists s2, ifd_run card_b (protos 1 254) 5000 31 (snd (ifd_power_on IFD_CLASS_AUTO reader_present)) = Ok s2 /\
    i_done s2 = [SCS_ERR_SUCCESS] /\ status s2 = IFD_SLOT_STATE_ATR_READY /\ sl_clazz (i_slot s2) = IFD_CLASS_B.
Proof.
  split; [reflexivity|].
  destruct (power_on_auto_completes card_b 5000 1 254 reader_present ltac:(done) card_b_line ltac:(intros h; cbn; lia)
    ltac:(done) ltac:(done) ltac:(done) ltac:(done) ltac:(done)) as (s1 & s2 & E & Hr & _ & _ & _ & H).
  change (first_answer card_b tries) with (Some (IFD_CLASS_B, IFD_CONV_INVERSE, atr_inverse)) in H.
  destruct H as (H1 & H2 & H3 & _). exists s2. rewrite E. cbn [snd]. rewrite (Hr 31%nat) by lia. done.
Defined.
