(* ===== verification/Readline.v ===== *)
(** * Readline: the line editor of the console

    kernel/readline.c.  The console's bottom half calls [readline_async] for every character
    that arrives; the characters edit a line in [readline_buffer], the history keeps the
    lines entered, and on return the registered handler gets the line.  [rl] holds the
    file's variables, what has been printed ([r_out]) and the calls of the handler with
    buffer and length ([r_calls]; what the handler does to the buffer does not matter, it
    is cleared behind the call).  Characters are bytes; [char] may be signed or not. *)
From S2P Require Import Prelude CString.
From stdpp Require Import list.
Local Open Scope Z_scope.
Local Open Scope c_scope.

Definition READLINE_BUFFER_SIZE : Z := 128.
Definition HIST_MAX : Z := 20.
Definition CTL_CH (c : Z) : Z := c - 97 + 1.
Definition CTL_BACKSPACE : Z := 8.
Definition DEL : Z := 255.
Definition DEL7 : Z := 127.
Definition CREAD_HIST_CHAR : Z := 33.
Definition EINTR : Z := 4.

Record rl : Type := MkRl {
  r_buf : list Z; r_len : Z; r_eol : Z; r_esc : Z; r_save : list Z;
  h_max : Z; h_add : Z; h_cur : Z; h_num : Z; h_list : list (list Z);
  r_handler : bool; r_out : list Z; r_calls : list (list Z * Z) }.
Definition set_line (b : list Z) (l e : Z) (s : rl) : rl :=
  MkRl b l e (r_esc s) (r_save s) (h_max s) (h_add s) (h_cur s) (h_num s) (h_list s) (r_handler s) (r_out s) (r_calls s).
Definition set_esc (n : Z) (sv : list Z) (s : rl) : rl :=
  MkRl (r_buf s) (r_len s) (r_eol s) n sv (h_max s) (h_add s) (h_cur s) (h_num s) (h_list s) (r_handler s) (r_out s) (r_calls s).
Definition set_hist (m a c n : Z) (l : list (list Z)) (s : rl) : rl :=
  MkRl (r_buf s) (r_len s) (r_eol s) (r_esc s) (r_save s) m a c n l (r_handler s) (r_out s) (r_calls s).
Definition set_cur (c : Z) (s : rl) : rl := set_hist (h_max s) (h_add s) c (h_num s) (h_list s) s.
Definition set_calls (l : list (list Z * Z)) (s : rl) : rl :=
  MkRl (r_buf s) (r_len s) (r_eol s) (r_esc s) (r_save s) (h_max s) (h_add s) (h_cur s) (h_num s) (h_list s) (r_handler s) (r_out s) l.
Definition puts (cs : list Z) (s : rl) : rl :=
  MkRl (r_buf s) (r_len s) (r_eol s) (r_esc s) (r_save s) (h_max s) (h_add s) (h_cur s) (h_num s) (h_list s) (r_handler s) (r_out s ++ cs) (r_calls s).

(** ** Output *)
Definition putch (c : Z) (s : rl) : rl := puts [c] s.
Definition cbeep (s : rl) : rl := putch 7 s.
(** The string a pointer points to: what is in front of the first zero byte. *)
Fixpoint cstr (b : list Z) : list Z := match b with [] => [] | c :: b => if c =? 0 then [] else c :: cstr b end.
(** [printf("%.*s", n, readline_buffer + pos)] *)
Definition putnstr (pos n : Z) (s : rl) : rl := puts (cstr (take (Z.to_nat n) (drop (Z.to_nat pos) (r_buf s)))) s.

(** ** History *)
(** [strcpy] to another array. *)
Fixpoint str_copy (dst : list Z) (d : nat) (src : list Z) : res (list Z) :=
  match src with
  | [] => Fault FOob
  | c :: src => m ← wr dst d c; if c =? 0 then Ok m else str_copy m (S d) src
  end.
Definition hist_init (s : rl) : rl :=
  set_hist 0 0 (-1) 0 (map (fun l => match l with [] => [] | _ :: l => 0 :: l end) (h_list s)) s.
Definition cread_add_to_hist (line : list Z) (s : rl) : res rl :=
  dst ← oob (h_list s !! Z.to_nat (h_add s));
  l ← str_copy dst 0 line;
  let add := if HIST_MAX <=? h_add s + 1 then 0 else h_add s + 1 in
  let max := if h_max s <? add then add else h_max s in
  Ok (set_hist max add (h_cur s) (u32 (h_num s + 1)) (<[Z.to_nat (h_add s) := l]> (h_list s)) s).
Definition hist_prev (s : rl) : res (option (list Z) * rl) :=
  if h_cur s <? 0 then Ok (None, s)
  else
    let cur := if h_cur s - 1 <? 0 then h_max s else h_cur s - 1 in
    if cur =? h_add s then Ok (None, s)
    else l ← oob (h_list s !! Z.to_nat cur); Ok (Some l, set_cur cur s).
Definition hist_next (s : rl) : res (option (list Z) * rl) :=
  if h_cur s <? 0 then Ok (None, s)
  else if h_cur s =? h_add s then Ok (None, s)
  else
    let cur := if h_max s <? h_cur s + 1 then 0 else h_cur s + 1 in
    if cur =? h_add s then Ok (Some [0], set_cur cur s)
    else l ← oob (h_list s !! Z.to_nat cur); Ok (Some l, set_cur cur s).

(** ** Editing *)
Definition BEGINNING_OF_LINE (s : rl) : rl :=
  set_line (r_buf s) 0 (r_eol s) (puts (replicate (Z.to_nat (r_len s)) CTL_BACKSPACE) s).
Definition ERASE_TO_EOL (s : rl) : rl :=
  if r_len s <? r_eol s then
    let wlen := Z.to_nat (r_eol s - r_len s) in
    set_line (r_buf s) (r_len s) (r_len s) (puts (replicate wlen 32 ++ replicate wlen CTL_BACKSPACE) s)
  else s.
Definition REFRESH_TO_EOL (s : rl) : rl :=
  if r_len s <? r_eol s then
    set_line (r_buf s) (r_eol s) (r_eol s) (putnstr (r_len s) (r_eol s - r_len s) s)
  else s.
Definition buf_move (d p n : Z) (s : rl) : res rl :=
  b ← memmove (r_buf s) (Z.to_nat d) (Z.to_nat p) (Z.to_nat n); Ok (set_line b (r_len s) (r_eol s) s).
Definition buf_put (p c : Z) (s : rl) : res rl :=
  b ← wr (r_buf s) (Z.to_nat p) c; Ok (set_line b (r_len s) (r_eol s) s).

Definition cread_add_char (ichar : Z) (insert : bool) (s : rl) : res rl :=
  let grow := insert || (r_len s =? r_eol s) in
  if grow && (READLINE_BUFFER_SIZE - 1 <? r_eol s) then Ok (cbeep s)
  else
    let s := if grow then set_line (r_buf s) (r_len s) (r_eol s + 1) s else s in
    if insert then
      let wlen := r_eol s - r_len s in
      s ← (if 1 <? wlen then buf_move (r_len s + 1) (r_len s) (wlen - 1) s else Ok s);
      s ← buf_put (r_len s) ichar s;
      let s := putnstr (r_len s) wlen s in
      let s := set_line (r_buf s) (r_len s + 1) (r_eol s) s in
      Ok (puts (replicate (Z.to_nat (wlen - 1)) CTL_BACKSPACE) s)
    else
      s ← buf_put (r_len s) ichar s;
      let s := putnstr (r_len s) 1 s in
      Ok (set_line (r_buf s) (r_len s + 1) (r_eol s) s).
Fixpoint cread_add_str (str : list Z) (insert : bool) (s : rl) : res rl :=
  match str with [] => Ok s | c :: str => s ← cread_add_char c insert s; cread_add_str str insert s end.
Definition readline_reset_buffer (s : rl) : res rl :=
  b ← memset (r_buf s) 0 0 (Z.to_nat READLINE_BUFFER_SIZE); Ok (set_esc 0 (r_save s) (set_line b 0 0 s)).

(** ** Escape sequences *)
Inductive esc_act : Type := ESC_REJECT | ESC_SAVE | ESC_CONVERTED (c : Z).
Definition esc_decode (s : rl) (ichar : Z) : res esc_act :=
  if r_esc s =? 1 then Ok (if (ichar =? 91) || (ichar =? 79) then ESC_SAVE else ESC_REJECT)
  else if r_esc s =? 2 then
    if ichar =? 68 then Ok (ESC_CONVERTED (CTL_CH 98))
    else if ichar =? 67 then Ok (ESC_CONVERTED (CTL_CH 102))
    else if ichar =? 72 then Ok (ESC_CONVERTED (CTL_CH 97))
    else if ichar =? 70 then Ok (ESC_CONVERTED (CTL_CH 101))
    else if ichar =? 65 then Ok (ESC_CONVERTED (CTL_CH 112))
    else if ichar =? 66 then Ok (ESC_CONVERTED (CTL_CH 110))
    else if (ichar =? 49) || (ichar =? 51) || (ichar =? 52) || (ichar =? 55) || (ichar =? 56) then
      c ← rd (r_save s) 1; Ok (if c =? 91 then ESC_SAVE else ESC_REJECT)
    else Ok ESC_REJECT
  else if r_esc s =? 3 then
    if ichar =? 126 then
      c ← rd (r_save s) 2;
      Ok (if c =? 51 then ESC_CONVERTED (CTL_CH 100)
          else if (c =? 49) || (c =? 55) then ESC_CONVERTED (CTL_CH 97)
          else if (c =? 52) || (c =? 56) then ESC_CONVERTED (CTL_CH 101)
          else ESC_REJECT)
    else Ok ESC_REJECT
  else Ok ESC_REJECT.

(** ** One character *)
Definition delete_char (s : rl) : res rl :=
  if r_len s <? r_eol s then
    let wlen := r_eol s - r_len s - 1 in
    s ← (if negb (wlen =? 0) then s ← buf_move (r_len s) (r_len s + 1) wlen s; Ok (putnstr (r_len s) wlen s) else Ok s);
    let s := puts (32 :: replicate (Z.to_nat (wlen + 1)) CTL_BACKSPACE) s in
    Ok (set_line (r_buf s) (r_len s) (r_eol s - 1) s)
  else Ok s.
Definition back_space (s : rl) : res rl :=
  if negb (r_len s =? 0) then
    let wlen := r_eol s - r_len s in
    let s := set_line (r_buf s) (r_len s - 1) (r_eol s) s in
    s ← buf_move (r_len s) (r_len s + 1) wlen s;
    let s := putnstr (r_len s) wlen (putch CTL_BACKSPACE s) in
    let s := puts (32 :: replicate (Z.to_nat (wlen + 1)) CTL_BACKSPACE) s in
    Ok (set_line (r_buf s) (r_len s) (r_eol s - 1) s)
  else Ok s.
Definition recall (h : res (option (list Z) * rl)) : res rl :=
  '(hline, s) ← h;
  match hline with
  | None => Ok (cbeep s)
  | Some hline =>
      let s := ERASE_TO_EOL (BEGINNING_OF_LINE s) in
      b ← str_copy (r_buf s) 0 hline;
      n ← strlen b;
      Ok (REFRESH_TO_EOL (set_line b (r_len s) n s))
  end.
Definition end_line (s : rl) : res (Z * rl) :=
  s ← buf_put (r_eol s) 0 s;
  c ← rd (r_buf s) 0;
  s ← (if negb (c =? 0) && negb (c =? CREAD_HIST_CHAR) then cread_add_to_hist (r_buf s) s else Ok s);
  let s := set_cur (h_add s) s in
  s ← (if r_handler s then readline_reset_buffer (set_calls (r_calls s ++ [(r_buf s, r_eol s)]) s) else Ok s);
  Ok (r_eol s, s).
(** ["impossible condition #876\n"] *)
Definition impossible_condition : list Z :=
  [105; 109; 112; 111; 115; 115; 105; 98; 108; 101; 32; 99; 111; 110; 100; 105; 116; 105; 111; 110; 32; 35; 56; 55; 54; 10].
Definition handle_char (ichar : Z) (insert : bool) (s : rl) : res (Z * rl) :=
  let continue (r : res rl) := s ← r; Ok (- EINTR, s) in
  if ichar =? 27 then
    if r_esc s =? 0 then continue (sv ← wr (r_save s) 0 ichar; Ok (set_esc 1 sv s))
    else continue (Ok (set_esc 0 (r_save s) (puts impossible_condition s)))
  else if ichar =? CTL_CH 97 then continue (Ok (BEGINNING_OF_LINE s))
  else if ichar =? CTL_CH 99 then s ← buf_put 0 0 s; Ok (-1, s)
  else if ichar =? CTL_CH 102 then
    continue (if r_len s <? r_eol s then
        c ← rd (r_buf s) (Z.to_nat (r_len s)); Ok (set_line (r_buf s) (r_len s + 1) (r_eol s) (putch c s))
      else Ok s)
  else if ichar =? CTL_CH 98 then
    continue (Ok (if negb (r_len s =? 0) then set_line (r_buf s) (r_len s - 1) (r_eol s) (putch CTL_BACKSPACE s) else s))
  else if ichar =? CTL_CH 100 then continue (delete_char s)
  else if ichar =? CTL_CH 107 then continue (Ok (ERASE_TO_EOL s))
  else if ichar =? CTL_CH 101 then continue (Ok (REFRESH_TO_EOL s))
  else if ichar =? CTL_CH 111 then continue (Ok s)
  else if (ichar =? CTL_CH 120) || (ichar =? CTL_CH 117) then continue (Ok (ERASE_TO_EOL (BEGINNING_OF_LINE s)))
  else if (ichar =? DEL) || (ichar =? DEL7) || (ichar =? 8) then continue (back_space s)
  else if ichar =? CTL_CH 112 then continue (recall (hist_prev (set_esc 0 (r_save s) s)))
  else if ichar =? CTL_CH 110 then continue (recall (hist_next (set_esc 0 (r_save s) s)))
  else continue (cread_add_char ichar insert s).
(** [insert] is a local variable that every call sets to 1. *)
Definition readline_async (ichar : Z) (s : rl) : res (Z * rl) :=
  if (ichar =? 10) || (ichar =? 13) then end_line (puts [13; 10] s)
  else if negb (r_esc s =? 0) then
    act ← esc_decode s ichar;
    match act with
    | ESC_SAVE => sv ← wr (r_save s) (Z.to_nat (r_esc s)) ichar; Ok (- EINTR, set_esc (r_esc s + 1) sv s)
    | ESC_REJECT =>
        sv ← wr (r_save s) (Z.to_nat (r_esc s)) ichar;
        s ← cread_add_str (take (Z.to_nat (r_esc s + 1)) sv) true (set_esc (r_esc s + 1) sv s);
        Ok (- EINTR, set_esc 0 (r_save s) s)
    | ESC_CONVERTED c => handle_char c true (set_esc 0 (r_save s) s)
    end
  else handle_char ichar true s.
Definition readline_register_handler (s : rl) : Z * rl :=
  if r_handler s then (-16, s)
  else (0, MkRl (r_buf s) (r_len s) (r_eol s) (r_esc s) (r_save s) (h_max s) (h_add s) (h_cur s) (h_num s) (h_list s) true (r_out s) (r_calls s)).
Definition readline_init (s : rl) : res rl := s ← readline_reset_buffer s; Ok (hist_init s).
(** The characters that arrive, one call of [readline_async] each. *)
Fixpoint feed (cs : list Z) (s : rl) : res rl :=
  match cs with [] => Ok s | c :: cs => '(_, s) ← readline_async c s; feed cs s end.

(** ** Lemmas on memory *)
Lemma moved_eq m m' d p n : (d + n <= length m)%nat -> (p + n <= length m)%nat -> moved m m' d p n ->
  m' = take d m ++ take n (drop p m) ++ drop (d + n) m.
Proof.
  intros Hd Hp [Hl Hm]. apply list_eq. intros i. rewrite Hm. destruct (decide (d <= i < d + n)%nat).
  - rewrite lookup_app_r, lookup_app_l by (rewrite ?length_take, ?length_drop; lia).
    rewrite length_take_le, lookup_take_lt, lookup_drop by lia. done.
  - destruct (decide (i < d)%nat).
    + by rewrite lookup_app_l, lookup_take_lt by (rewrite ?length_take; lia).
    + rewrite !lookup_app_r by (rewrite ?length_take, ?length_drop; lia).
      rewrite length_take_le, length_take_le, lookup_drop by (rewrite ?length_drop; lia). f_equal. lia.
Qed.

Lemma memmove_eq m d p n : (d + n <= length m)%nat -> (p + n <= length m)%nat ->
  memmove m d p n = Ok (take d m ++ take n (drop p m) ++ drop (d + n) m).
Proof.
  intros Hd Hp. assert (exists m', memmove m d p n = Ok m' /\ moved m m' d p n) as (m' & -> & Hm).
  { unfold memmove. destruct (Nat.leb_spec d p); [apply copy_up_moved; lia|apply copy_down_moved; lia]. }
  f_equal. by apply moved_eq.
Qed.

(** ** The line in the buffer

    The buffer holds [l], the cursor, [r], then anything, and ends with a zero byte. *)
Definition holds (b l r : list Z) : Prop := exists rest, b = l ++ r ++ rest ++ [0] /\ length b = 129%nat.

Lemma holds_bound b l r : holds b l r -> (length l + length r <= 128)%nat.
Proof. intros (rest & -> & H). rewrite !length_app in H. cbn in H. lia. Qed.

(** Moving the cursor does not change the buffer. *)
Lemma holds_shift b l r1 r2 : holds b l (r1 ++ r2) <-> holds b (l ++ r1) r2.
Proof. split; intros (rest & -> & H); exists rest; by rewrite <- !app_assoc in *. Qed.

Lemma holds_all b l r : holds b l r <-> holds b (l ++ r) [].
Proof. rewrite <- holds_shift. by rewrite app_nil_r. Qed.

Lemma holds_prefix b l r1 r2 : holds b l (r1 ++ r2) -> holds b l r1.
Proof. intros (rest & -> & H). exists (r2 ++ rest). by rewrite <- !app_assoc in *. Qed.

(** ** State updates

    An operation on the line changes the buffer, the lengths and the output. *)
Definition upd (b : list Z) (n e : nat) (o : list Z) (s : rl) : rl := set_line b (Z.of_nat n) (Z.of_nat e) (puts o s).
Definition sized (s : rl) (n e : nat) : Prop := r_len s = Z.of_nat n /\ r_eol s = Z.of_nat e.

Lemma puts_nil s : puts [] s = s.
Proof. destruct s. unfold puts. cbn. by rewrite app_nil_r. Qed.

Lemma puts_puts o1 o2 s : puts o2 (puts o1 s) = puts (o1 ++ o2) s.
Proof. unfold puts. cbn. by rewrite app_assoc. Qed.

Lemma insert_char c b l r : holds b l r -> (length l + length r < 128)%nat ->
  exists b1 b2,
    (if decide (0 < length r)%nat then memmove b (S (length l)) (length l) (length r) = Ok b1 else b = b1) /\
    wr b1 (length l) c = Ok b2 /\ holds b2 (l ++ [c]) r.
Proof.
  intros (rest & -> & Hb) Hl. destruct rest as [|x rest]; [len|].
  destruct r as [|y r].
  - exists (l ++ x :: rest ++ [0]), (l ++ c :: rest ++ [0]). rewrite decide_False by (cbn; lia).
    split; [done|]. split; [apply wr_app|]. exists rest. split; [by rewrite <- app_assoc|len].
  - exists (l ++ y :: (y :: r) ++ rest ++ [0]), (l ++ c :: (y :: r) ++ rest ++ [0]).
    rewrite decide_True by (cbn; lia). split; [|split; [apply wr_app|]].
    + rewrite memmove_eq by (len). f_equal.
      rewrite drop_app_length. change (S (length l)) with (1 + length l)%nat.
      rewrite (take_app_length (y :: r)).
      replace (l ++ (y :: r) ++ (x :: rest) ++ [0]) with ((l ++ [y]) ++ (r ++ [x]) ++ rest ++ [0]) by (by rewrite <- !app_assoc).
      rewrite take_app_length' by (len).
      rewrite (drop_app_ge (l ++ [y])) by (len).
      rewrite drop_app_length' by (len). by rewrite <- app_assoc.
    + exists rest. split; [by rewrite <- app_assoc|len].
Qed.

Lemma delete_next b l x r : holds b l (x :: r) ->
  exists b', memmove b (length l) (S (length l)) (length r) = Ok b' /\ holds b' l r.
Proof.
  intros (rest & -> & Hb). eexists. rewrite memmove_eq by (len).
  split; [done|]. rewrite take_app_length.
  replace (l ++ (x :: r) ++ rest ++ [0]) with ((l ++ [x]) ++ r ++ rest ++ [0]) by (by rewrite <- app_assoc).
  rewrite drop_app_length' by (len). rewrite take_app_length.
  exists (drop (length l + length r) ((l ++ [x]) ++ r) ++ rest).
  replace ((l ++ [x]) ++ r ++ rest ++ [0]) with (((l ++ [x]) ++ r) ++ rest ++ [0]) by (by rewrite <- !app_assoc).
  rewrite (drop_app_le _ (rest ++ [0])) by (len). rewrite <- !app_assoc. split; [done|len].
Qed.

Lemma holds_read b l r : holds b l r -> take (length r) (drop (length l) b) = r.
Proof. intros (rest & -> & _). by rewrite drop_app_length, take_app_length. Qed.

Lemma putnstr_holds s l r n m : holds (r_buf s) l r -> n = Z.of_nat (length l) -> m = Z.of_nat (length r) ->
  putnstr n m s = puts (cstr r) s.
Proof. intros H -> ->. unfold putnstr. by rewrite !Nat2Z.id, (holds_read _ _ _ H). Qed.

Lemma puts_set_line o b n e s : puts o (set_line b n e s) = set_line b n e (puts o s).
Proof. done. Qed.

Lemma set_line_set_line b n e b' n' e' s : set_line b n e (set_line b' n' e' s) = set_line b n e s.
Proof. done. Qed.

(** Successive updates of line and output as one. *)
Ltac rl_norm := unfold putch, cbeep, upd; rewrite ?puts_set_line, ?set_line_set_line, ?puts_puts.

Lemma upd_eq b n e n' e' o o' s : n = Z.of_nat n' -> e = Z.of_nat e' -> o = o' -> set_line b n e (puts o s) = upd b n' e' o' s.
Proof. by intros -> -> ->. Qed.

(** ** The operations on a line *)
Ltac rl_cbn :=
  cbn [mbind res_mbind set_line set_esc set_hist set_cur set_calls puts orb andb negb
       r_buf r_len r_eol r_esc r_save h_max h_add h_cur h_num h_list r_handler r_out r_calls].

(** [s] has the line [l], [r] with the cursor in between. *)
Record line_at (s : rl) (l r : list Z) : Prop := LineAt {
  la_holds : holds (r_buf s) l r;
  la_len : r_len s = Z.of_nat (length l);
  la_eol : r_eol s = Z.of_nat (length l + length r) }.

Lemma begin_op s l r : line_at s l r ->
  BEGINNING_OF_LINE s = upd (r_buf s) 0 (length l + length r) (replicate (length l) CTL_BACKSPACE) s.
Proof. intros [_ E1 E2]. unfold BEGINNING_OF_LINE. rewrite E1, E2, Nat2Z.id. done. Qed.

Lemma upd_same s l r : line_at s l r -> upd (r_buf s) (length l) (length l + length r) [] s = s.
Proof. intros [_ E1 E2]. unfold upd. rewrite puts_nil, <- E1, <- E2. by destruct s. Qed.

Lemma erase_op s l r : line_at s l r ->
  ERASE_TO_EOL s = upd (r_buf s) (length l) (length l) (replicate (length r) 32 ++ replicate (length r) CTL_BACKSPACE) s.
Proof.
  intros H. destruct (H) as [_ E1 E2]. unfold ERASE_TO_EOL. rewrite E1, E2. destruct (Z.ltb_spec (Z.of_nat (length l)) (Z.of_nat (length l + length r))).
  - by replace (Z.to_nat _) with (length r) by lia.
  - destruct r; [|cbn [length] in *; lia]. rewrite <- (upd_same s l []) at 1 by done. by rewrite Nat.add_0_r.
Qed.

Lemma refresh_op s l r : line_at s l r ->
  REFRESH_TO_EOL s = upd (r_buf s) (length l + length r) (length l + length r) (cstr r) s.
Proof.
  intros H. destruct (H) as [Hh E1 E2]. unfold REFRESH_TO_EOL. rewrite E1, E2. destruct (Z.ltb_spec (Z.of_nat (length l)) (Z.of_nat (length l + length r))).
  - rewrite (putnstr_holds s l r) by (done || lia). by apply upd_eq.
  - destruct r; [|cbn [length] in *; lia]. rewrite <- (upd_same s l []) at 1 by done. by rewrite Nat.add_0_r.
Qed.

Lemma add_char_full s l r c : line_at s l r -> (length l + length r = 128)%nat -> cread_add_char c true s = Ok (cbeep s).
Proof.
  intros [_ E1 E2] E. unfold cread_add_char. cbn [orb andb]. rewrite (proj2 (Z.ltb_lt _ _)); [done|].
  unfold READLINE_BUFFER_SIZE. lia.
Qed.

Lemma add_char_room s l r c : line_at s l r -> (length l + length r < 128)%nat ->
  exists b, cread_add_char c true s =
    Ok (upd b (S (length l)) (S (length l + length r)) (cstr (c :: r) ++ replicate (length r) CTL_BACKSPACE) s) /\
    holds b (l ++ [c]) r.
Proof.
  destruct s as [b0 n e]. intros [Hh E1 E2] Hr. cbn in Hh, E1, E2. subst.
  destruct (insert_char c _ l r Hh Hr) as (b1 & b2 & Hm & Hw & H2). exists b2. split; [|done].
  unfold cread_add_char, READLINE_BUFFER_SIZE, buf_move, buf_put. rl_cbn. rewrite (proj2 (Z.ltb_ge _ _)) by lia. rl_cbn.
  replace (Z.to_nat (Z.of_nat (length l) + 1)) with (S (length l)) by lia. rewrite Nat2Z.id.
  replace (Z.of_nat (length l + length r) + 1 - Z.of_nat (length l)) with (Z.of_nat (length (c :: r))) by len.
  replace (Z.to_nat (Z.of_nat (length (c :: r)) - 1)) with (length r) by len.
  assert (forall A (k : rl -> res A) f g, (f b1 = g) ->
    ((if 1 <? Z.of_nat (length (c :: r)) then b ← memmove b0 (S (length l)) (length l) (length r); Ok (f b) else Ok (f b0)) ≫= k) = k g) as Em.
  { intros A k f g <-. destruct (decide (0 < length r)%nat).
    - rewrite (proj2 (Z.ltb_lt _ _)), Hm by len. done.
    - rewrite (proj2 (Z.ltb_ge _ _)) by len. by rewrite Hm. }
  erewrite Em; [|reflexivity]. rl_cbn. rewrite Nat2Z.id, Hw. rl_cbn.
  rewrite (putnstr_holds _ l (c :: r)); [|by apply (holds_shift b2 l [c] r)|done..]. rl_cbn.
  rl_norm. f_equal. apply upd_eq; [lia..|done].
Qed.

Lemma delete_op s l x r : line_at s l (x :: r) ->
  exists b, delete_char s = Ok (upd b (length l) (length l + length r) (cstr r ++ 32 :: replicate (S (length r)) CTL_BACKSPACE) s) /\
    holds b l r.
Proof.
  intros [Hh E1 E2]. destruct (delete_next _ _ _ _ Hh) as (b & Hm & Hb).
  unfold delete_char, buf_move. rewrite E1, E2. rewrite (proj2 (Z.ltb_lt _ _)) by len.
  replace (Z.of_nat (length l + length (x :: r)) - Z.of_nat (length l) - 1) with (Z.of_nat (length r)) by len.
  replace (Z.to_nat (Z.of_nat (length r) + 1)) with (S (length r)) by lia.
  destruct r as [|y r].
  - exists (r_buf s). split; [|by apply (holds_prefix _ l [] [x])].
    change (negb (Z.of_nat (length (@nil Z)) =? 0)) with false. cbv beta iota. rl_cbn. rl_norm. f_equal. apply upd_eq; [|len|done]. rl_cbn. lia.
  - exists b. split; [|done]. rewrite (proj2 (Z.eqb_neq _ _)) by len. rl_cbn.
    replace (Z.to_nat (Z.of_nat (length l) + 1)) with (S (length l)) by lia. rewrite !Nat2Z.id, Hm. rl_cbn.
    rewrite (putnstr_holds _ l (y :: r)) by (rl_cbn; done). rl_norm. f_equal. apply upd_eq; [..|done]; rl_cbn; len.
Qed.

Lemma back_op s l x r : line_at s (l ++ [x]) r ->
  exists b, back_space s =
    Ok (upd b (length l) (length l + length r) (CTL_BACKSPACE :: cstr r ++ 32 :: replicate (S (length r)) CTL_BACKSPACE) s) /\
    holds b l r.
Proof.
  intros [Hh E1 E2]. apply holds_shift in Hh. destruct (delete_next _ _ _ _ Hh) as (b & Hm & Hb). exists b. split; [|done].
  unfold back_space, buf_move. rewrite E1, E2. rewrite (proj2 (Z.eqb_neq _ _)) by len. rl_cbn.
  replace (Z.of_nat (length (l ++ [x]) + length r) - Z.of_nat (length (l ++ [x]))) with (Z.of_nat (length r)) by len.
  replace (Z.of_nat (length (l ++ [x])) - 1) with (Z.of_nat (length l)) by len.
  replace (Z.to_nat (Z.of_nat (length l) + 1)) with (S (length l)) by lia.
  replace (Z.to_nat (Z.of_nat (length r) + 1)) with (S (length r)) by lia. rewrite !Nat2Z.id, Hm. rl_cbn.
  rewrite (putnstr_holds _ l r) by (rl_cbn; done). rl_norm. f_equal. apply upd_eq; [..|done]; rl_cbn; len.
Qed.

(** ** Strings in the history *)
Lemma cstr_nz h rest : nz h -> cstr (h ++ 0 :: rest) = h.
Proof. induction 1 as [|c h Hc _ IH]; [done|]. cbn. by rewrite eqb0, IH. Qed.

Lemma cstr_id h : nz h -> cstr h = h.
Proof. induction 1 as [|c h Hc _ IH]; [done|]. cbn. by rewrite eqb0, IH. Qed.

Lemma cstr_split b : 0 ∈ b -> nz (cstr b) /\ exists rest, b = cstr b ++ 0 :: rest.
Proof.
  induction b as [|c b IH]; intros H; [by apply elem_of_nil in H|]. cbn. destruct (Z.eqb_spec c 0) as [->|Hc].
  - split; [constructor|]. by exists b.
  - apply elem_of_cons in H as [H|H]; [done|]. destruct (IH H) as (H1 & rest & E). split; [by constructor|].
    exists rest. cbn. by rewrite <- E.
Qed.

Lemma holds_zero b l r : holds b l r -> 0 ∈ b.
Proof. intros (rest & -> & _). rewrite !elem_of_app. right; right; right. by constructor. Qed.

Lemma holds_nil b l r : holds b l r -> holds b [] [].
Proof. intros (rest & -> & H). exists (l ++ r ++ rest). by rewrite <- !app_assoc in *. Qed.

Lemma str_copy_ok h rest : nz h -> forall a m, (length h < length m)%nat ->
  str_copy (a ++ m) (length a) (h ++ 0 :: rest) = Ok (a ++ h ++ 0 :: drop (S (length h)) m).
Proof.
  induction 1 as [|c h Hc _ IH]; intros a [|x m] Hm; cbn [length] in Hm; [lia| |lia|]; cbn [app str_copy].
  - rewrite wr_app. cbn. by rewrite drop_0.
  - rewrite wr_app. cbn [mbind res_mbind]. rewrite eqb0 by done. rewrite (cons_middle c a m), (assoc_L (++)).
    replace (S (length a)) with (length (a ++ [c])) by len. rewrite IH by lia. by rewrite <- !app_assoc.
Qed.

(** A line of the history as a C string. *)
Definition hstr (line h : list Z) : Prop := holds line [] [] /\ nz h /\ exists rest, line = h ++ 0 :: rest.

Lemma hstr_cstr b l r : holds b l r -> hstr b (cstr b).
Proof. intros H. split; [by eapply holds_nil|]. by eapply cstr_split, holds_zero. Qed.

(** A C string that fits. *)
Definition fits (line h : list Z) : Prop := (length h <= 128)%nat /\ nz h /\ exists rest, line = h ++ 0 :: rest.

Lemma hstr_fits line h : hstr line h -> fits line h.
Proof. intros ((rs & Es & Hs) & Hh & rest & ->). split; [len|]. split; [done|]. by exists rest. Qed.

Lemma hstr_copy dst src h : holds dst [] [] -> fits src h ->
  exists b, str_copy dst 0 src = Ok b /\ hstr b h /\ holds b h [].
Proof.
  intros (rd & -> & Hd) (Hl & Hh & rest & ->). cbn [app] in *.
  pose proof (str_copy_ok h rest Hh [] (rd ++ [0]) ltac:(len)) as Ec. cbn [app length] in Ec. rewrite Ec. eexists. split; [done|].
  assert (exists z, 0 :: drop (S (length h)) (rd ++ [0]) = z ++ [0] /\ (length h + length z = 128)%nat) as (z & Ez & Hz).
  { destruct (decide (length h = 128%nat)) as [E|].
    - exists []. rewrite drop_ge by len. split; [done|len].
    - exists (0 :: drop (S (length h)) rd). rewrite drop_app_le by len. split; [done|len]. }
  rewrite Ez. split; [split; [|split; [done|]]|].
  - exists (h ++ z). split; [by rewrite <- app_assoc|len].
  - exists (drop (S (length h)) (rd ++ [0])). by rewrite <- Ez.
  - exists z. split; [done|len].
Qed.

Lemma strlen_hstr b h : hstr b h -> strlen b = Ok (Z.of_nat (length h)).
Proof.
  intros (_ & Hh & rest & ->). induction Hh as [|c h Hc _ IH]; [done|]. cbn [app strlen]. rewrite eqb0, IH by done. cbn. f_equal. lia.
Qed.

Lemma recall_op s l r line h : line_at s l r -> fits line h ->
  let n := (length l + length r)%nat in
  exists b, recall (Ok (Some line, s)) =
    Ok (upd b (length h) (length h)
          (replicate (length l) CTL_BACKSPACE ++ (replicate n 32 ++ replicate n CTL_BACKSPACE) ++ h) s) /\
    holds b h [].
Proof.
  intros Hl Hs n. destruct (hstr_copy (r_buf s) line h) as (b & Hc & Hb & Hh); [by eapply holds_nil, la_holds|done|].
  exists b. split; [|done]. unfold recall. cbn [mbind res_mbind]. rewrite (begin_op _ _ _ Hl).
  rewrite (erase_op _ [] (l ++ r)).
  2: { split; [by apply (holds_shift _ [] l r); cbn; destruct Hl|done|by rewrite length_app]. }
  rewrite length_app. fold n. cbn [length]. rl_norm. cbv zeta. rl_cbn. rewrite Hc. cbn [mbind res_mbind].
  rewrite (strlen_hstr _ _ Hb). cbn [mbind res_mbind]. f_equal. rewrite (refresh_op _ [] h).
  2: { split; [rl_cbn; by apply holds_all|done|done]. }
  cbn [length plus]. rewrite cstr_id by apply Hb. rl_norm. rl_cbn. apply upd_eq; [done..|]. by rewrite <- app_assoc.
Qed.

(** ** The history

    [hs] are the lines the arrow keys reach, the latest first; [pos] says how many of them
    lie between the latest and the line recalled last.  Before the first line is entered
    [hist_cur] is -1. *)
Definition slot (s : rl) (i : Z) : nat := Z.to_nat ((h_add s - 1 - i) mod (h_max s + 1)).

Record hist_at (s : rl) (hs : list (list Z)) (pos : nat) : Prop := HistAt {
  ha_list : length (h_list s) = 20%nat;
  ha_lines : Forall (fun line => holds line [] []) (h_list s);
  ha_max : h_max s = Z.of_nat (length hs);
  ha_bound : (length hs <= 19)%nat;
  ha_add : 0 <= h_add s <= h_max s;
  ha_fill : h_max s < 19 -> h_add s = h_max s;
  ha_slot : forall i h, hs !! i = Some h -> exists line, h_list s !! slot s (Z.of_nat i) = Some line /\ hstr line h;
  ha_pos : (pos <= length hs)%nat;
  ha_cur : h_cur s = (h_add s - Z.of_nat pos) mod (h_max s + 1) \/ (h_cur s = -1 /\ hs = []) }.

(** A comparison in the goal, decided. *)
Ltac on_ltb := match goal with |- context [?a <? ?b] => destruct (Z.ltb_spec a b) end.

Lemma mod_near a m : 0 < m -> - m <= a < m -> a mod m = if a <? 0 then a + m else a.
Proof.
  intros Hm Ha. destruct (Z.ltb_spec a 0); [|apply Z.mod_small; lia].
  rewrite <- (Z_mod_plus_full a 1 m), Z.mul_1_l. apply Z.mod_small. lia.
Qed.

(** Only these fields of the state matter to the history. *)
Lemma hist_at_frame s s' hs pos :
  h_max s' = h_max s -> h_add s' = h_add s -> h_cur s' = h_cur s -> h_list s' = h_list s ->
  hist_at s hs pos -> hist_at s' hs pos.
Proof. intros E1 E2 E3 E4 []. split; unfold slot in *; rewrite ?E1, ?E2, ?E3, ?E4; done. Qed.

Lemma hist_prev_op s hs pos : hist_at s hs pos ->
  match hs !! pos with
  | Some h => exists line cur, hist_prev s = Ok (Some line, set_cur cur s) /\ hstr line h /\ hist_at (set_cur cur s) hs (S pos)
  | None => hist_prev s = Ok (None, s)
  end.
Proof.
  intros [Hl Hf Hm Hb Ha Hfi Hs Hp Hc]. unfold hist_prev. destruct Hc as [Hc|[Hc ->]].
  2: { rewrite Hc. by destruct pos. }
  pose proof (Z.mod_pos_bound (h_add s - Z.of_nat pos) (h_max s + 1) ltac:(lia)) as Hr.
  rewrite (proj2 (Z.ltb_ge _ _)) by lia.
  assert ((if h_cur s - 1 <? 0 then h_max s else h_cur s - 1) = (h_add s - 1 - Z.of_nat pos) mod (h_max s + 1)) as ->.
  { rewrite Hc, !mod_near by lia. destruct (Z.ltb_spec (h_add s - Z.of_nat pos) 0), (Z.ltb_spec (h_add s - 1 - Z.of_nat pos) 0);
      on_ltb; lia. }
  assert (((h_add s - 1 - Z.of_nat pos) mod (h_max s + 1) =? h_add s) = negb (bool_decide (pos < length hs)%nat)) as ->.
  { rewrite mod_near by lia. case_bool_decide; cbn [negb]; on_ltb; [apply Z.eqb_neq; lia..|apply Z.eqb_eq; lia|].
    apply Z.eqb_eq. lia. }
  destruct (hs !! pos) as [h|] eqn:E.
  - pose proof (lookup_lt_Some _ _ _ E). rewrite bool_decide_true by lia. cbn [negb].
    destruct (Hs _ _ E) as (line & El & Hh). unfold slot in El. rewrite El. exists line. eexists. split; [done|]. split; [done|].
    split; try done; cbn; try lia; left; f_equal; lia.
  - apply lookup_ge_None in E. by rewrite bool_decide_false by lia.
Qed.

Lemma hist_next_op s hs pos : hist_at s hs pos ->
  match pos with
  | O => hist_next s = Ok (None, s)
  | 1%nat => exists cur, hist_next s = Ok (Some [0], set_cur cur s) /\ hist_at (set_cur cur s) hs 0
  | S (S p) => exists h line cur, hs !! p = Some h /\ hist_next s = Ok (Some line, set_cur cur s) /\ hstr line h /\
      hist_at (set_cur cur s) hs (S p)
  end.
Proof.
  intros [Hl Hf Hm Hb Ha Hfi Hs Hp Hc]. unfold hist_next. destruct Hc as [Hc|[Hc ->]].
  2: { rewrite Hc. destruct pos as [|[|pos]]; cbn in Hp; [done|lia..]. }
  pose proof (Z.mod_pos_bound (h_add s - Z.of_nat pos) (h_max s + 1) ltac:(lia)) as Hr.
  rewrite (proj2 (Z.ltb_ge _ _)) by lia.
  assert ((h_cur s =? h_add s) = (Z.of_nat pos =? 0)) as ->.
  { rewrite Hc, mod_near by lia. on_ltb; destruct (Z.eqb_spec (Z.of_nat pos) 0); (apply Z.eqb_eq || apply Z.eqb_neq); lia. }
  destruct pos as [|pos]; [done|]. rewrite (proj2 (Z.eqb_neq _ _)) by lia.
  assert ((if h_max s <? h_cur s + 1 then 0 else h_cur s + 1) = (h_add s - Z.of_nat pos) mod (h_max s + 1)) as ->.
  { rewrite Hc, !mod_near by lia. destruct (Z.ltb_spec (h_add s - Z.of_nat (S pos)) 0), (Z.ltb_spec (h_add s - Z.of_nat pos) 0);
      on_ltb; lia. }
  assert (((h_add s - Z.of_nat pos) mod (h_max s + 1) =? h_add s) = (Z.of_nat pos =? 0)) as ->.
  { rewrite mod_near by lia. on_ltb; destruct (Z.eqb_spec (Z.of_nat pos) 0); (apply Z.eqb_eq || apply Z.eqb_neq); lia. }
  destruct pos as [|p].
  - cbn [Z.of_nat Z.eqb]. eexists. split; [done|]. split; try done; cbn; lia.
  - rewrite (proj2 (Z.eqb_neq _ _)) by lia. destruct (lookup_lt_is_Some_2 hs p) as [h Eh]; [lia|].
    destruct (Hs _ _ Eh) as (line & El & Hh). unfold slot in El.
    replace (h_add s - 1 - Z.of_nat p) with (h_add s - Z.of_nat (S p)) in El by lia. rewrite El.
    exists h, line. eexists. split; [done|]. split; [done|]. split; [done|]. split; try done; cbn; lia.
Qed.

Lemma hist_add_op s hs pos line h : hist_at s hs pos -> hstr line h ->
  exists s', cread_add_to_hist line s = Ok s' /\ hist_at (set_cur (h_add s') s') (take 19 (h :: hs)) 0 /\
    exists m a n ls, s' = set_hist m a (h_cur s) n ls s.
Proof.
  intros [Hl Hf Hm Hb Ha Hfi Hs Hp _] Hh. unfold cread_add_to_hist.
  destruct (lookup_lt_is_Some_2 (h_list s) (Z.to_nat (h_add s))) as [dst Ed]; [lia|]. rewrite Ed. cbn [oob mbind res_mbind].
  assert (holds dst [] []) as Hd by (by eapply Forall_lookup_1 in Ed; [|exact Hf]).
  destruct (hstr_copy dst line h Hd (hstr_fits _ _ Hh)) as (l & -> & Hlh & _). cbn [mbind res_mbind].
  eexists. split; [done|]. split; [|by repeat eexists]. unfold set_cur, HIST_MAX.
  assert (length (take 19 (h :: hs)) = Nat.min 19 (S (length hs))) as El by (by rewrite length_take).
  set (add := if 20 <=? h_add s + 1 then 0 else h_add s + 1).
  assert (add = (if 20 <=? h_add s + 1 then 0 else h_add s + 1)) as Eadd by done. clearbody add.
  set (max := if h_max s <? add then add else h_max s).
  assert (max = (if h_max s <? add then add else h_max s)) as Emax by done. clearbody max.
  assert (max = Z.of_nat (Nat.min 19 (S (length hs))) /\ 0 <= add <= max /\ (max < 19 -> add = max) /\
    (add - 1) mod (max + 1) = h_add s) as (E1 & E2 & E3 & E4).
  { rewrite Emax, Eadd. destruct (Z.leb_spec 20 (h_add s + 1)); on_ltb; rewrite ?mod_near by lia; try on_ltb; lia. }
  split; cbn [set_hist h_list h_max h_add h_cur].
  - by rewrite length_insert.
  - apply Forall_insert; [done|apply Hlh].
  - by rewrite El.
  - rewrite El. lia.
  - done.
  - done.
  - intros i h' Hi. unfold slot. cbn [h_add h_max set_hist]. apply lookup_take_Some in Hi as [Hi Hi19]. destruct i as [|i].
    + injection Hi as <-. exists l. rewrite Z.sub_0_r, E4. rewrite list_lookup_insert_eq by lia. done.
    + destruct (Hs _ _ Hi) as (line' & El' & Hh'). exists line'. split; [|done]. rewrite <- El'. pose proof (lookup_lt_Some _ _ _ Hi) as Hlt. cbn in Hlt.
      unfold slot. rewrite list_lookup_insert_ne.
      * do 2 f_equal. rewrite Emax, Eadd. destruct (Z.leb_spec 20 (h_add s + 1)); on_ltb; rewrite ?mod_near by lia; repeat on_ltb; lia.
      * rewrite mod_near by lia. revert E4. rewrite mod_near by lia. repeat on_ltb; lia.
  - lia.
  - left. rewrite Z.sub_0_r, Z.mod_small; lia.
Qed.

(** ** The end of a line *)
Lemma memset_ok c n : forall a m, (n <= length m)%nat ->
  memset (a ++ m) (length a) c n = Ok (a ++ replicate n (u8 c) ++ drop n m).
Proof.
  induction n as [|n IH]; intros a [|x m] Hn; cbn [length] in Hn; try lia; cbn [memset]; [by rewrite drop_0..|].
  rewrite wr_app. cbn [mbind res_mbind]. rewrite (cons_middle (u8 c) a m), (assoc_L (++)).
  replace (S (length a)) with (length (a ++ [u8 c])) by len. rewrite IH by lia. by rewrite <- !app_assoc.
Qed.

Lemma reset_op s l r : holds (r_buf s) l r ->
  exists b, readline_reset_buffer s = Ok (set_esc 0 (r_save s) (set_line b 0 0 s)) /\ holds b [] [].
Proof.
  intros H. apply holds_nil in H as (rest & E & Hb). cbn [app] in E. rewrite E in Hb. exists (replicate 128 0 ++ [0]).
  unfold readline_reset_buffer. rewrite E. pose proof (memset_ok 0 128 [] (rest ++ [0]) ltac:(len)) as Em.
  cbn [app length] in Em. change (Z.to_nat READLINE_BUFFER_SIZE) with 128%nat. rewrite Em.
  rewrite drop_app_length' by len. split; [done|]. by exists (replicate 128 0).
Qed.

(** The history behind a line that is entered: empty lines and those that begin with an
    exclamation mark are not kept. *)
Definition remember (h : list Z) (hs : list (list Z)) : list (list Z) :=
  match h with [] => hs | c :: _ => if c =? CREAD_HIST_CHAR then hs else take 19 (h :: hs) end.

Lemma terminate s l r : line_at s l r ->
  exists b rest, wr (r_buf s) (Z.to_nat (r_eol s)) 0 = Ok b /\ b = (l ++ r) ++ 0 :: rest /\ holds b l r.
Proof.
  intros [(rest & E & Hb) _ E2]. rewrite E2, Nat2Z.id, E. rewrite (assoc_L (++)). rewrite <- length_app.
  rewrite E in Hb. destruct rest as [|x rest]; cbn [app].
  - exists ((l ++ r) ++ [0]), []. rewrite wr_app. split; [done|]. split; [done|]. exists []. split; [by rewrite <- app_assoc|len].
  - exists ((l ++ r) ++ 0 :: rest ++ [0]), (rest ++ [0]). rewrite wr_app. split; [done|]. split; [done|].
    exists (0 :: rest). split; [by rewrite <- app_assoc|len].
Qed.

Lemma cstr_hd b c : b !! 0%nat = Some c -> cstr b = if c =? 0 then [] else c :: cstr (drop 1 b).
Proof. destruct b; [done|]. intros [= ->]. cbn. by rewrite drop_0. Qed.

Lemma keep_op s l r hs pos c : line_at s l r -> hist_at s hs pos -> rd (r_buf s) 0 = Ok c ->
  exists s' m a n ls,
    (if negb (c =? 0) && negb (c =? CREAD_HIST_CHAR) then cread_add_to_hist (r_buf s) s else Ok s) = Ok s' /\
    s' = set_hist m a (h_cur s) n ls s /\ hist_at (set_cur (h_add s') s') (remember (cstr (r_buf s)) hs) 0.
Proof.
  intros Hl Hh Hc. unfold rd in Hc. apply oob_Ok in Hc. pose proof (cstr_hd _ _ Hc) as Ec.
  destruct (negb (c =? 0) && negb (c =? CREAD_HIST_CHAR)) eqn:E.
  - destruct (hist_add_op s hs pos (r_buf s) (cstr (r_buf s))) as (s' & -> & H & m & a & n & ls & ->);
      [done|by eapply hstr_cstr, la_holds|].
    eexists _, m, a, n, ls. split; [done|]. split; [done|]. apply andb_prop in E as [E1 E2].
    destruct (c =? 0); [done|]. rewrite Ec in H |- *. unfold remember. by destruct (c =? CREAD_HIST_CHAR).
  - exists s, (h_max s), (h_add s), (h_num s), (h_list s). split; [done|]. split; [by destruct s|].
    assert (remember (cstr (r_buf s)) hs = hs) as ->.
    { rewrite Ec. destruct (c =? 0); [done|]. cbn [negb andb] in E. unfold remember. by destruct (c =? CREAD_HIST_CHAR). }
    destruct Hh. split; try done; cbn [set_cur set_hist h_max h_add h_cur]; [lia|]. left. rewrite Z.sub_0_r, Z.mod_small; lia.
Qed.

Record entered (s s' : rl) (l r : list Z) (hs : list (list Z)) : Prop := Entered {
  en_line : line_at s' [] [];
  en_esc : r_esc s' = 0;
  en_save : r_save s' = r_save s;
  en_handler : r_handler s' = true;
  en_out : r_out s' = r_out s;
  en_call : exists b rest, b = (l ++ r) ++ 0 :: rest /\ hist_at s' (remember (cstr b) hs) 0 /\
    r_calls s' = r_calls s ++ [(b, Z.of_nat (length (l ++ r)))] }.

Lemma end_op s l r hs pos : line_at s l r -> hist_at s hs pos -> r_handler s = true ->
  exists s', end_line s = Ok (0, s') /\ entered s s' l r hs.
Proof.
  intros Hl Hh Hr. destruct (terminate s l r Hl) as (b & rest & Hw & Eb & Hb).
  unfold end_line, buf_put. rewrite Hw. cbn [mbind res_mbind].
  set (s1 := set_line b (r_len s) (r_eol s) s). assert (line_at s1 l r) as Hl1 by (destruct Hl; by split).
  assert (hist_at s1 hs pos) as Hh1 by (by eapply hist_at_frame, Hh).
  destruct (rd_ok (r_buf s1) 0) as (c & _ & Hc); [destruct Hb as (? & _ & Hb); cbn; lia|].
  rewrite Hc. cbn [mbind res_mbind].
  destruct (keep_op s1 l r hs pos c Hl1 Hh1 Hc) as (s2 & m & a & n & ls & -> & E2 & H2). cbn [mbind res_mbind].
  assert (r_handler (set_cur (h_add s2) s2) = true) as -> by (by rewrite E2).
  set (s3 := set_calls _ _). destruct (reset_op s3 l r) as (b' & -> & Hb'); [unfold s3; by rewrite E2|]. cbn [mbind res_mbind].
  eexists. split; [done|]. unfold s3. split.
  - by split.
  - done.
  - by rewrite E2.
  - by rewrite E2.
  - by rewrite E2.
  - exists b, rest. split; [done|]. split; [by eapply hist_at_frame, H2|]. rewrite E2. cbn. do 2 f_equal. f_equal.
    destruct Hl as [_ _ ->]. by rewrite length_app.
Qed.
