(* ===== verification/Editor.v ===== *)
(** * Editor: what the console's line editor promises

    The abstract editor: a line with a cursor, the lines entered before and the lines handed
    to the command interpreter.  Readline (kernel/readline.c) implements it, whatever bytes a
    terminal sends for a key, and its output keeps the terminal's row equal to the line.
    The theorems: no input breaks the editor's state, the editor refines the abstract one,
    the display is right, and what [^C] does. *)
From S2P Require Import Prelude CString Readline.
From stdpp Require Import list.
Local Open Scope Z_scope.

(** ** The abstract editor *)
Inductive key : Type :=
  | KChar (c : Z) | KLeft | KRight | KHome | KEnd | KDelete | KBack | KKill | KClear | KUp | KDown | KEnter.

Record ed : Type := Ed { e_l : list Z; e_r : list Z; e_hist : list (list Z); e_pos : nat; e_lines : list (list Z) }.
Definition put_line (l r : list Z) (e : ed) : ed := Ed l r (e_hist e) (e_pos e) (e_lines e).
Definition put_recall (h : list Z) (pos : nat) (e : ed) : ed := Ed h [] (e_hist e) pos (e_lines e).

Definition ed_key (e : ed) (k : key) : ed :=
  match k with
  | KChar c => if decide (length (e_l e) + length (e_r e) < 128)%nat then put_line (e_l e ++ [c]) (e_r e) e else e
  | KLeft => match last (e_l e) with Some c => put_line (removelast (e_l e)) (c :: e_r e) e | None => e end
  | KRight => match e_r e with c :: r => put_line (e_l e ++ [c]) r e | [] => e end
  | KHome => put_line [] (e_l e ++ e_r e) e
  | KEnd => put_line (e_l e ++ e_r e) [] e
  | KDelete => match e_r e with _ :: r => put_line (e_l e) r e | [] => e end
  | KBack => put_line (removelast (e_l e)) (e_r e) e
  | KKill => put_line (e_l e) [] e
  | KClear => put_line [] [] e
  | KUp => match e_hist e !! e_pos e with Some h => put_recall h (S (e_pos e)) e | None => e end
  | KDown =>
      match e_pos e with
      | O => e
      | 1%nat => put_recall [] 0 e
      | S (S p) => put_recall (default [] (e_hist e !! p)) (S p) e
      end
  | KEnter => Ed [] [] (remember (e_l e ++ e_r e) (e_hist e)) 0 (e_lines e ++ [e_l e ++ e_r e])
  end.

(** The bytes a terminal sends for a key: control characters and xterm's sequences. *)
Definition typed (c : Z) : bool := (32 <=? c) && (c <=? 254) && negb (c =? 127).
Definition controls (k : key) : list Z :=
  match k with
  | KLeft => [2] | KRight => [6] | KHome => [1] | KEnd => [5] | KDelete => [4] | KBack => [8; 127; 255]
  | KKill => [11] | KClear => [21; 24] | KUp => [16] | KDown => [14] | KChar _ | KEnter => []
  end.
Definition sequences (k : key) : list (list Z) :=
  match k with
  | KLeft => [[27; 91; 68]; [27; 79; 68]]
  | KRight => [[27; 91; 67]; [27; 79; 67]]
  | KHome => [[27; 91; 72]; [27; 79; 72]; [27; 91; 49; 126]; [27; 91; 55; 126]]
  | KEnd => [[27; 91; 70]; [27; 79; 70]; [27; 91; 52; 126]; [27; 91; 56; 126]]
  | KDelete => [[27; 91; 51; 126]]
  | KUp => [[27; 91; 65]; [27; 79; 65]]
  | KDown => [[27; 91; 66]; [27; 79; 66]]
  | _ => []
  end.
Definition encodings (k : key) : list (list Z) :=
  match k with
  | KChar c => if typed c then [[c]] else []
  | KEnter => [[10]; [13]]
  | _ => map (fun c => [c]) (controls k) ++ sequences k
  end.

(** ** The terminal

    One row of cells, those in front of the cursor in reverse order.  Writing replaces the
    cell under the cursor and moves on; the row has no right margin. *)
Definition term : Type := (list Z * list Z)%type.
Definition term_put (t : term) (c : Z) : term :=
  let '(a, b) := t in
  if c =? 7 then t
  else if c =? 8 then match a with x :: a => (a, x :: b) | [] => t end
  else if c =? 13 then ([], rev a ++ b)
  else if c =? 10 then (replicate (length a) 32, [])
  else (c :: a, tail b).
Definition term_puts (o : list Z) (t : term) : term := foldl term_put t o.
(** The row shows the prompt and the line, nothing behind it, the cursor is where the
    editor has it. *)
Definition shows (p : list Z) (e : ed) (t : term) : Prop :=
  t.1 = rev (p ++ e_l e) /\ exists n, t.2 = e_r e ++ replicate n 32.

(** ** The relation between editor and code *)
Definition all_typed (l : list Z) : Prop := Forall (fun c => typed c = true) l.
Definition call_of (call : list Z * Z) (line : list Z) : Prop :=
  call.2 = Z.of_nat (length line) /\ exists rest, call.1 = line ++ 0 :: rest.
Record ed_rel (e : ed) (s : rl) : Prop := EdRel {
  er_line : line_at s (e_l e) (e_r e);
  er_typed : all_typed (e_l e ++ e_r e);
  er_hist : hist_at s (e_hist e) (e_pos e);
  er_hist_typed : Forall all_typed (e_hist e);
  er_esc : r_esc s = 0;
  er_save : length (r_save s) = 8%nat;
  er_handler : r_handler s = true;
  er_calls : Forall2 call_of (r_calls s) (e_lines e) }.

Lemma typed_bounds c : typed c = true -> 32 <= c <= 254 /\ c <> 127.
Proof. unfold typed. intros H. destruct (Z.leb_spec 32 c), (Z.leb_spec c 254), (Z.eqb_spec c 127); (done || lia). Qed.

Lemma typed_nz l : all_typed l -> nz l.
Proof. intros H. eapply Forall_impl; [exact H|]. cbn. intros c Hc%typed_bounds. lia. Qed.

(** ** Terminal lemmas *)
Lemma term_puts_app o1 o2 t : term_puts (o1 ++ o2) t = term_puts o2 (term_puts o1 t).
Proof. apply foldl_app. Qed.

Lemma term_back a : forall x y, term_puts (replicate (length a) CTL_BACKSPACE) (a ++ x, y) = (x, rev a ++ y).
Proof. induction a as [|c a IH]; intros x y; [done|]. cbn [length replicate app]. cbn [term_puts foldl]. unfold term_put at 2. cbn. rewrite <- app_assoc. apply IH. Qed.

Lemma term_print w : all_typed w -> forall x y, term_puts w (x, y) = (rev w ++ x, drop (length w) y).
Proof.
  induction 1 as [|c w Hc _ IH]; intros x y; [by rewrite drop_0|]. apply typed_bounds in Hc. cbn [term_puts foldl].
  assert (term_put (x, y) c = (c :: x, tail y)) as ->.
  { unfold term_put. rewrite !(proj2 (Z.eqb_neq _ _)) by lia. done. }
  fold (term_puts w (c :: x, tail y)). rewrite IH. cbn [rev length]. rewrite <- app_assoc. f_equal. destruct y; cbn; by rewrite ?drop_nil.
Qed.

(** Text printed and the cursor moved back in front of it. *)
Lemma term_redraw w x y : all_typed w ->
  term_puts (w ++ replicate (length w) CTL_BACKSPACE) (x, y) = (x, w ++ drop (length w) y).
Proof.
  intros Hw. rewrite term_puts_app, term_print by done. rewrite <- (length_rev w) at 1. rewrite term_back, rev_involutive. done.
Qed.

(** ** One key *)
(** What the code does for a key: the state is related to the new state of the abstract
    editor, and what is printed brings the row up to date. *)
Definition simulates (e e' : ed) (s s' : rl) : Prop :=
  ed_rel e' s' /\ exists o, r_out s' = r_out s ++ o /\ forall p t, shows p e t -> shows p e' (term_puts o t).

Lemma upd_rel e s b l r o : ed_rel e s -> holds b l r -> all_typed (l ++ r) ->
  ed_rel (put_line l r e) (upd b (length l) (length l + length r) o s).
Proof. intros [H1 H2 H3 H4 H5 H6 H7 H8] Hb Ht. split; try done. by eapply hist_at_frame, H3. Qed.

Lemma simulates_upd e s b l r o : ed_rel e s -> holds b l r -> all_typed (l ++ r) ->
  (forall p t, shows p e t -> shows p (put_line l r e) (term_puts o t)) ->
  simulates e (put_line l r e) s (upd b (length l) (length l + length r) o s).
Proof. intros He Hb Ht Hs. split; [by apply upd_rel|]. by exists o. Qed.

Lemma simulates_beep e s : ed_rel e s -> simulates e e s (cbeep s).
Proof.
  intros [[] H2 H3 H4 H5 H6 H7 H8]. split; [split; try done; by eapply hist_at_frame, H3|]. exists [7]. split; [done|]. by intros p [].
Qed.

Lemma simulates_same e s : ed_rel e s -> simulates e e s s.
Proof. intros H. split; [done|]. exists []. by rewrite app_nil_r. Qed.

Lemma put_line_same e : put_line (e_l e) (e_r e) e = e.
Proof. by destruct e. Qed.

Ltac typed_split H := unfold all_typed in *; repeat (rewrite Forall_app in H || rewrite Forall_cons in H).

Lemma replicate_typed n : all_typed (replicate n 32).
Proof. apply Forall_replicate. done. Qed.

Lemma sim_char e s c : ed_rel e s -> typed c = true ->
  exists s', cread_add_char c true s = Ok s' /\ simulates e (ed_key e (KChar c)) s s'.
Proof.
  intros He Hc. pose proof (er_line _ _ He) as Hl. pose proof (er_typed _ _ He) as Ht. cbn [ed_key]. case_decide as Hr.
  - destruct (add_char_room s _ _ c Hl Hr) as (b & -> & Hb). eexists. split; [done|].
    pose proof Ht as Ht'. apply Forall_app in Ht' as [Htl Htr].
    replace (S (length (e_l e))) with (length (e_l e ++ [c])) by len.
    replace (S (length (e_l e) + length (e_r e))) with (length (e_l e ++ [c]) + length (e_r e))%nat by len.
    apply simulates_upd; [done..| |].
    { unfold all_typed. rewrite !Forall_app. repeat split; [done| |done]. by constructor. }
    rewrite cstr_id by (apply typed_nz; by constructor). intros p [x y] [E1 [n E2]]. cbn in E1, E2. subst x y.
    change ((c :: e_r e) ++ replicate (length (e_r e)) CTL_BACKSPACE) with ([c] ++ e_r e ++ replicate (length (e_r e)) CTL_BACKSPACE).
    rewrite term_puts_app, (term_print [c]), term_redraw by (done || by constructor). split; cbn [put_line e_l e_r fst snd].
    + rewrite !rev_app_distr. by rewrite <- ?app_assoc.
    + exists (n - 1)%nat. f_equal. rewrite drop_drop. destruct n; cbn [length].
      * rewrite app_nil_r, drop_ge by len. done.
      * rewrite drop_app_ge by lia. replace (1 + _ - _)%nat with 1%nat by lia. cbn. rewrite drop_0. f_equal. lia.
  - eexists. rewrite (add_char_full s _ _ c Hl); [|apply la_holds, holds_bound in Hl; lia]. split; [done|]. by apply simulates_beep.
Qed.

(** What the handler of a control character does. *)
Definition key_result (k : key) (e : ed) (s : rl) (r : res (Z * rl)) : Prop :=
  exists s', r = Ok (- EINTR, s') /\ simulates e (ed_key e k) s s'.

Lemma sim_home e s : ed_rel e s -> key_result KHome e s (handle_char 1 true s).
Proof.
  intros He. eexists. split; [reflexivity|]. rewrite (begin_op _ _ _ (er_line _ _ He)).
  replace (length (e_l e) + length (e_r e))%nat with (length (@nil Z) + length (e_l e ++ e_r e))%nat by len.
  apply (simulates_upd e s _ []); [done|apply (holds_shift _ [] (e_l e)); by destruct (er_line _ _ He)|by apply er_typed in He|].
  intros p [x y] [E1 [n E2]]. cbn in E1, E2. subst x y. rewrite rev_app_distr, <- (length_rev (e_l e)), term_back, rev_involutive.
  split; cbn; [by rewrite app_nil_r|]. exists n. by rewrite <- app_assoc.
Qed.

Lemma sim_end e s : ed_rel e s -> key_result KEnd e s (handle_char 5 true s).
Proof.
  intros He. pose proof (er_typed _ _ He) as Ht. apply Forall_app in Ht as [Htl Htr].
  eexists. split; [reflexivity|]. rewrite (refresh_op _ _ _ (er_line _ _ He)), cstr_id by (by apply typed_nz).
  replace (length (e_l e) + length (e_r e))%nat with (length (e_l e ++ e_r e) + length (@nil Z))%nat at 2 by len.
  rewrite <- length_app.
  apply (simulates_upd e s); [done|apply (proj1 (holds_all _ _ _)), la_holds, er_line, He|rewrite app_nil_r; by apply er_typed in He|].
  intros p [x y] [E1 [n E2]]. cbn in E1, E2. subst x y. rewrite term_print by done.
  split; cbn; [by rewrite !rev_app_distr, <- app_assoc|]. exists n. by rewrite drop_app_length.
Qed.

(** The cells behind the cursor, erased. *)
Lemma term_erase r n x : term_puts (replicate (length r) 32 ++ replicate (length r) CTL_BACKSPACE) (x, r ++ replicate n 32) =
  (x, replicate (length r + n) 32).
Proof.
  pose proof (term_redraw (replicate (length r) 32) x (r ++ replicate n 32) (replicate_typed _)) as E.
  rewrite !length_replicate in E. rewrite E, drop_app_length. by rewrite replicate_add.
Qed.

Lemma sim_kill e s : ed_rel e s -> key_result KKill e s (handle_char 11 true s).
Proof.
  intros He. pose proof (er_typed _ _ He) as Ht. apply Forall_app in Ht as [Htl Htr].
  eexists. split; [reflexivity|]. rewrite (erase_op _ _ _ (er_line _ _ He)).
  rewrite <- (Nat.add_0_r (length (e_l e))) at 2. change 0%nat with (length (@nil Z)).
  apply (simulates_upd e s); [done|apply (holds_prefix _ _ [] (e_r e)), la_holds, er_line, He|by rewrite app_nil_r|].
  intros p [x y] [E1 [n E2]]. cbn in E1, E2. subst x y. rewrite term_erase. split; cbn; [done|]. by eexists.
Qed.

Lemma sim_clear e s c : ed_rel e s -> c ∈ controls KClear -> key_result KClear e s (handle_char c true s).
Proof.
  intros He Hc. assert (handle_char c true s = Ok (- EINTR, ERASE_TO_EOL (BEGINNING_OF_LINE s))) as ->.
  { repeat (apply elem_of_cons in Hc as [->|Hc]; [done|]). by apply elem_of_nil in Hc. }
  pose proof (er_line _ _ He) as Hl. eexists. split; [reflexivity|]. rewrite (begin_op _ _ _ Hl).
  rewrite (erase_op _ [] (e_l e ++ e_r e)).
  2: { split; [cbn; apply (holds_shift _ [] (e_l e)), la_holds, Hl|done|by rewrite length_app]. }
  rl_norm. cbn [length]. apply (simulates_upd e s _ [] []); [done|cbn; eapply holds_nil, la_holds, Hl|constructor|].
  intros p [x y] [E1 [n E2]]. cbn in E1, E2. subst x y.
  rewrite term_puts_app, rev_app_distr. rewrite <- (length_rev (e_l e)), term_back, rev_involutive, (assoc_L (++)), term_erase.
  split; cbn; [by rewrite app_nil_r|]. by eexists.
Qed.

Lemma sim_left e s : ed_rel e s -> key_result KLeft e s (handle_char 2 true s).
Proof.
  intros He. pose proof (er_typed _ _ He) as Ht. pose proof (er_line _ _ He) as Hl.
  assert (handle_char 2 true s = Ok (- EINTR, if negb (r_len s =? 0) then set_line (r_buf s) (r_len s - 1) (r_eol s) (putch CTL_BACKSPACE s) else s)) as -> by done.
  eexists. split; [reflexivity|]. cbn [ed_key]. destruct (Hl) as [Hh E1 E2]. rewrite E1, E2.
  destruct (e_l e) as [|c l _] eqn:El using rev_ind; [by apply simulates_same|].
  rewrite last_snoc, removelast_last. rewrite (proj2 (Z.eqb_neq _ _)) by len. cbn [negb]. unfold putch.
  rewrite (upd_eq _ _ _ (length l) (length l + length (c :: e_r e)) _ [CTL_BACKSPACE]) by (done || len).
  apply (simulates_upd e s); [done|by apply (holds_shift _ l [c])|by rewrite (cons_middle c), (assoc_L (++))|].
  intros p [x y] [E3 [n E4]]. cbn in E3, E4. subst x y. rewrite El, (assoc_L (++)), rev_app_distr. split; cbn; [done|]. by exists n.
Qed.

Lemma sim_right e s : ed_rel e s -> key_result KRight e s (handle_char 6 true s).
Proof.
  intros He. pose proof (er_typed _ _ He) as Ht. pose proof (er_line _ _ He) as Hl.
  assert (handle_char 6 true s = (s ← (if r_len s <? r_eol s then
        c ← rd (r_buf s) (Z.to_nat (r_len s)); Ok (set_line (r_buf s) (r_len s + 1) (r_eol s) (putch c s))
      else Ok s); Ok (- EINTR, s))) as -> by done.
  unfold key_result. cbn [ed_key]. destruct (Hl) as [Hh E1 E2]. rewrite E1, E2. destruct (e_r e) as [|c r] eqn:Er.
  - rewrite (proj2 (Z.ltb_ge _ _)) by len. eexists. split; [done|]. by apply simulates_same.
  - rewrite (proj2 (Z.ltb_lt _ _)) by len. rewrite Nat2Z.id.
    assert (rd (r_buf s) (length (e_l e)) = Ok c) as ->.
    { destruct Hh as (rest & -> & _). unfold rd. rewrite lookup_app_r, Nat.sub_diag by lia. done. }
    eexists. split; [done|]. unfold putch.
    rewrite (upd_eq _ _ _ (length (e_l e ++ [c])) (length (e_l e ++ [c]) + length r) _ [c]) by (done || len).
    apply (simulates_upd e s); [done|by apply (holds_shift _ _ [c])|by rewrite <- app_assoc|].
    intros p [x y] [E3 [n E4]]. cbn in E3, E4. subst x y. rewrite Er. apply Forall_app in Ht as [_ [Hc _]%Forall_cons].
    rewrite (term_print [c]) by (by constructor). cbn [app length drop]. rewrite drop_0. split; cbn.
    + by rewrite (assoc_L (++)), (rev_app_distr _ [c]).
    + by exists n.
Qed.

Lemma term_delete x r n c : all_typed r ->
  term_puts (r ++ 32 :: replicate (S (length r)) CTL_BACKSPACE) (x, (c :: r) ++ replicate n 32) = (x, r ++ replicate (S n) 32).
Proof.
  intros Hr. pose proof (term_redraw (r ++ [32]) x ((c :: r) ++ replicate n 32)) as E.
  rewrite <- !app_assoc, length_app, Nat.add_comm in E. cbn [length plus] in E.
  change (S (length r)) with (length (c :: r)) in E at 2. rewrite drop_app_length in E. apply E.
  apply Forall_app. split; [done|]. by constructor.
Qed.

Lemma sim_delete e s : ed_rel e s -> key_result KDelete e s (handle_char 4 true s).
Proof.
  intros He. pose proof (er_typed _ _ He) as Ht. pose proof (er_line _ _ He) as Hl.
  assert (handle_char 4 true s = (s ← delete_char s; Ok (- EINTR, s))) as -> by done.
  unfold key_result. cbn [ed_key]. destruct (e_r e) as [|c r] eqn:Er.
  - unfold delete_char. destruct (Hl) as [_ -> ->]. rewrite (proj2 (Z.ltb_ge _ _)) by len. eexists. split; [done|]. by apply simulates_same.
  - destruct (delete_op _ _ _ _ Hl) as (b & -> & Hb). eexists. split; [done|]. apply Forall_app in Ht as [Htl [Hc Htr]%Forall_cons].
    rewrite cstr_id by (by apply typed_nz). apply (simulates_upd e s); [done..|by apply Forall_app|].
    intros p [x y] [E1 [n E2]]. cbn in E1, E2. rewrite Er in E2. subst x y. rewrite term_delete by done. split; [done|]. by exists (S n).
Qed.

Lemma sim_back e s c : ed_rel e s -> c ∈ controls KBack -> key_result KBack e s (handle_char c true s).
Proof.
  intros He Hc. pose proof (er_typed _ _ He) as Ht. pose proof (er_line _ _ He) as Hl.
  assert (handle_char c true s = (s ← back_space s; Ok (- EINTR, s))) as ->.
  { repeat (apply elem_of_cons in Hc as [->|Hc]; [done|]). by apply elem_of_nil in Hc. }
  unfold key_result. cbn [ed_key]. destruct (e_l e) as [|x l _] eqn:El using rev_ind.
  - unfold back_space. destruct (Hl) as [_ -> _]. cbn. eexists. split; [done|]. rewrite <- El, put_line_same. by apply simulates_same.
  - rewrite removelast_last. destruct (back_op _ _ _ _ Hl) as (b & -> & Hb). eexists. split; [done|].
    rewrite <- app_assoc in Ht. apply Forall_app in Ht as [Htl [Hx Htr]%Forall_app]. rewrite cstr_id by (by apply typed_nz).
    apply (simulates_upd e s); [done..|by apply Forall_app|].
    intros p [a y] [E1 [n E2]]. cbn in E1, E2. rewrite El, (assoc_L (++)), rev_app_distr in E1. subst a y.
    change (CTL_BACKSPACE :: ?o) with ([CTL_BACKSPACE] ++ o). rewrite term_puts_app. cbn [app].
    change (term_puts [CTL_BACKSPACE] (rev [x] ++ rev (p ++ l), e_r e ++ replicate n 32)) with (rev (p ++ l), (x :: e_r e) ++ replicate n 32).
    rewrite term_delete by done. split; [done|]. by exists (S n).
Qed.

Lemma term_recall p l r n h : all_typed h ->
  term_puts (replicate (length l) CTL_BACKSPACE ++
      (replicate (length l + length r) 32 ++ replicate (length l + length r) CTL_BACKSPACE) ++ h)
    (rev (p ++ l), r ++ replicate n 32) = (rev (p ++ h), replicate (length l + length r + n - length h) 32).
Proof.
  intros Hh. rewrite term_puts_app, (term_puts_app (_ ++ _) h), rev_app_distr. 
  replace (replicate (length l) CTL_BACKSPACE) with (replicate (length (rev l)) CTL_BACKSPACE) by (by rewrite length_rev).
  rewrite term_back, rev_involutive, (assoc_L (++) l), <- length_app, term_erase, term_print, <- rev_app_distr by done.
  by rewrite drop_replicate.
Qed.

(** A line of the history replaces the line. *)
Lemma sim_recall e s c line h pos cur (k : key) :
  ed_rel e s -> fits line h -> all_typed h -> hist_at (set_cur cur s) (e_hist e) pos ->
  handle_char c true s = (s ← recall (Ok (Some line, set_cur cur s)); Ok (- EINTR, s)) ->
  ed_key e k = put_recall h pos e -> key_result k e s (handle_char c true s).
Proof.
  intros He Hs Ht Hh -> Ek. destruct (He) as [[L1 L2 L3] H2 H3 H4 H5 H6 H7 H8].
  destruct (recall_op (set_cur cur s) (e_l e) (e_r e) line h) as (b & -> & Hb); [by split|done|].
  eexists. split; [reflexivity|]. rewrite Ek. split.
  - split; try done; cbn [put_recall e_l e_r e_hist].
    + split; [done|done|by rewrite Nat.add_0_r].
    + by rewrite app_nil_r.
    + by eapply hist_at_frame, Hh.
  - eexists. split; [done|]. intros p [x y] [E1 [n E2]]. cbn in E1, E2. subst x y. rewrite term_recall by done.
    split; [done|]. by eexists.
Qed.

Lemma sim_up e s : ed_rel e s -> key_result KUp e s (handle_char 16 true s).
Proof.
  intros He. pose proof (hist_prev_op _ _ _ (er_hist _ _ He)) as H.
  assert (handle_char 16 true s = (s ← recall (hist_prev s); Ok (- EINTR, s))) as E.
  { change (handle_char 16 true s) with (s ← recall (hist_prev (set_esc 0 (r_save s) s)); Ok (- EINTR, s)).
    destruct He as [_ _ _ _ He _ _ _]. rewrite <- He at 1. by destruct s. }
  destruct (e_hist e !! e_pos e) as [h|] eqn:Eh.
  - destruct H as (line & cur & Ep & Hs & Hh). rewrite Ep in E. eapply sim_recall; [done|by apply hstr_fits| |exact Hh|exact E|].
    + by eapply Forall_lookup_1 in Eh; [|apply er_hist_typed in He; exact He].
    + cbn. by rewrite Eh.
  - rewrite E, H. eexists. split; [reflexivity|]. cbn [ed_key]. rewrite Eh. by apply simulates_beep.
Qed.

Lemma sim_down e s : ed_rel e s -> key_result KDown e s (handle_char 14 true s).
Proof.
  intros He. pose proof (hist_next_op _ _ _ (er_hist _ _ He)) as H.
  assert (handle_char 14 true s = (s ← recall (hist_next s); Ok (- EINTR, s))) as E.
  { change (handle_char 14 true s) with (s ← recall (hist_next (set_esc 0 (r_save s) s)); Ok (- EINTR, s)).
    destruct He as [_ _ _ _ He _ _ _]. rewrite <- He at 1. by destruct s. }
  destruct (e_pos e) as [|[|p]] eqn:Ep.
  - rewrite E, H. eexists. split; [reflexivity|]. cbn [ed_key]. rewrite Ep. by apply simulates_beep.
  - destruct H as (cur & Hn & Hh). rewrite Hn in E. eapply (sim_recall _ _ _ _ []); [done| |constructor|exact Hh|exact E|by cbn; rewrite Ep].
    split; [cbn; lia|]. split; [constructor|]. by exists [].
  - destruct H as (h & line & cur & Eh & Hn & Hs & Hh). rewrite Hn in E. eapply sim_recall; [done|by apply hstr_fits| |exact Hh|exact E|].
    + by eapply Forall_lookup_1 in Eh; [|apply er_hist_typed in He; exact He].
    + cbn. by rewrite Ep, Eh.
Qed.

Lemma sim_control k c e s : ed_rel e s -> c ∈ controls k -> key_result k e s (handle_char c true s).
Proof.
  intros He Hc. destruct k; cbn [controls] in Hc; try (by apply elem_of_nil in Hc);
    try (by apply sim_back || by apply sim_clear); apply list_elem_of_singleton in Hc as ->.
  - by apply sim_left.
  - by apply sim_right.
  - by apply sim_home.
  - by apply sim_end.
  - by apply sim_delete.
  - by apply sim_kill.
  - by apply sim_up.
  - by apply sim_down.
Qed.

(** ** The bytes of a key *)
Ltac each_elem H := repeat (apply elem_of_cons in H as [->|H]); try (by apply elem_of_nil in H).

Lemma feed_control k c s : r_esc s = 0 -> c ∈ controls k ->
  feed [c] s = ('(_, s) ← handle_char c true s; Ok s).
Proof.
  intros Hs Hc. cbn [feed]. f_equal. unfold readline_async. rewrite Hs. destruct k; cbn [controls] in Hc; each_elem Hc; done.
Qed.

Lemma feed_sequence k bs s : r_esc s = 0 -> length (r_save s) = 8%nat -> bs ∈ sequences k ->
  exists c sv, c ∈ controls k /\ length sv = 8%nat /\ feed bs s = ('(_, s) ← handle_char c true (set_esc 0 sv s); Ok s).
Proof.
  destruct s as [b l e esc sv]. cbn. intros -> Hl Hb. do 8 (destruct sv as [|? sv]; [done|]). destruct sv; [|done]. clear Hl.
  destruct k; cbn [sequences] in Hb; each_elem Hb; eexists _, _; (split; [by constructor|]); (split; [|reflexivity]); done.
Qed.

Lemma feed_char c s : typed c = true -> r_esc s = 0 -> feed [c] s = (s ← cread_add_char c true s; Ok s).
Proof.
  intros Hc%typed_bounds Hs. cbn [feed]. unfold readline_async. rewrite Hs, !(proj2 (Z.eqb_neq c _)) by lia. cbn [orb].
  unfold handle_char, CTL_CH, DEL, DEL7. rewrite !(proj2 (Z.eqb_neq c _)) by lia. cbn [orb Z.eqb negb]. by destruct (cread_add_char c true s).
Qed.

Lemma ed_rel_esc e s sv : ed_rel e s -> length sv = 8%nat -> ed_rel e (set_esc 0 sv s).
Proof. intros [[] H2 H3 H4 H5 H6 H7 H8] Hv. split; try done. by eapply hist_at_frame, H3. Qed.

Lemma remember_typed h hs : all_typed h -> Forall all_typed hs -> Forall all_typed (remember h hs).
Proof.
  intros Hh Hs. unfold remember. destruct h as [|c h]; [done|]. destruct (c =? CREAD_HIST_CHAR); [done|]. apply Forall_take. by constructor.
Qed.

Lemma sim_enter e s c : ed_rel e s -> c ∈ [10; 13] ->
  exists s', feed [c] s = Ok s' /\ ed_rel (ed_key e KEnter) s'.
Proof.
  intros [H1 H2 H3 H4 H5 H6 H7 H8] Hc.
  assert (feed [c] s = ('(_, s) ← end_line (puts [13; 10] s); Ok s)) as -> by (each_elem Hc; done).
  destruct (end_op (puts [13; 10] s) (e_l e) (e_r e) (e_hist e) (e_pos e)) as (s' & -> & [E1 E2 E3 E4 E5 E6]).
  { by destruct H1. }
  { by eapply hist_at_frame, H3. }
  { done. }
  destruct E6 as (b & rest & -> & Hh & Hcl). eexists. split; [done|]. rewrite cstr_nz in Hh by (by apply typed_nz).
  split; cbn [ed_key e_l e_r e_hist e_pos e_lines]; try done.
  - constructor.
  - by apply remember_typed.
  - by rewrite E3.
  - rewrite Hcl. apply Forall2_app; [done|]. constructor; [|constructor]. split; [done|]. by exists rest.
Qed.

(** One key, whatever bytes the terminal sends for it. *)
Lemma key_step e s k bs : ed_rel e s -> bs ∈ encodings k ->
  exists s', feed bs s = Ok s' /\ ed_rel (ed_key e k) s' /\ (k <> KEnter -> simulates e (ed_key e k) s s').
Proof.
  intros He Hb.
  assert ((exists c, k = KChar c) \/ k = KEnter \/ encodings k = map (fun c => [c]) (controls k) ++ sequences k)
    as [[c ->]|[->|E]] by (destruct k; eauto).
  - cbn [encodings] in Hb. destruct (typed c) eqn:Hc; [|by apply elem_of_nil in Hb]. apply list_elem_of_singleton in Hb as ->.
    destruct (sim_char e s c He Hc) as (s' & Es & Hs). rewrite feed_char, Es by (done || apply He). exists s'. split; [done|].
    split; [apply Hs|done].
  - assert (exists c, bs = [c] /\ c ∈ [10; 13]) as (c & -> & Hc) by (each_elem Hb; eexists; (split; [done|]); by repeat constructor).
    destruct (sim_enter e s c He Hc) as (s' & Es & Hs). exists s'. done.
  - rewrite E in Hb. apply elem_of_app in Hb as [Hb|Hb].
    + apply list_elem_of_In, in_map_iff in Hb as (c & <- & Hc%list_elem_of_In). rewrite (feed_control k) by (done || apply He).
      destruct (sim_control k c e s He Hc) as (s' & -> & Hs). exists s'. split; [done|]. split; [apply Hs|done].
    + destruct (feed_sequence k bs s) as (c & sv & Hc & Hv & ->); [apply He..|done|].
      destruct (sim_control k c e _ (ed_rel_esc e s sv He Hv) Hc) as (s' & -> & Hs). exists s'. split; [done|]. split; [apply Hs|done].
Qed.

Lemma feed_app a b s : feed (a ++ b) s = (s ← feed a s; feed b s).
Proof.
  revert s. induction a as [|c a IH]; intros s; [done|]. cbn [app feed]. destruct (readline_async c s) as [[r s']|]; [|done]. apply IH.
Qed.

(** The arrays have their sizes, and the last bytes of the lines are zero, as in memory that is
    cleared at start. *)
Definition clean (s : rl) : Prop :=
  length (r_buf s) = 129%nat /\ r_buf s !! 128%nat = Some 0 /\ length (r_save s) = 8%nat /\
  length (h_list s) = 20%nat /\ Forall (fun l => length l = 129%nat /\ l !! 128%nat = Some 0) (h_list s).
(** The console's handler is registered, and no line has been entered. *)
Definition fresh_console (s : rl) : Prop := clean s /\ r_handler s = true /\ r_calls s = [].

Lemma holds_of_length b : length b = 129%nat -> b !! 128%nat = Some 0 -> holds b [] [].
Proof.
  intros Hl Hz. exists (take 128 b). cbn [app]. split; [|done]. rewrite <- (take_drop 128 b) at 1. f_equal.
  apply list_eq. intros [|i]; rewrite lookup_drop; [done|]. cbn. rewrite lookup_ge_None_2 by lia. by destruct i.
Qed.

Lemma init_ok s : clean s ->
  exists s', readline_init s = Ok s' /\ line_at s' [] [] /\ hist_at s' [] 0 /\ r_esc s' = 0 /\ r_save s' = r_save s /\
    r_handler s' = r_handler s /\ r_calls s' = r_calls s.
Proof.
  intros (H1 & H2 & H3 & H4 & H5). unfold readline_init.
  destruct (reset_op s [] [] (holds_of_length _ H1 H2)) as (b & -> & Hb). eexists. split; [reflexivity|].
  split; [done|]. split; [|done]. split; cbn; try (done || lia).
  - by rewrite length_map.
  - apply Forall_map. eapply Forall_impl; [exact H5|]. intros [|x l] [Hl Hz]; [done|]. cbn in Hl, Hz. apply holds_of_length; [done|]. by destruct l.
  - by right.
Qed.

Lemma init_rel s : fresh_console s -> exists s', readline_init s = Ok s' /\ ed_rel (Ed [] [] [] 0 []) s'.
Proof.
  intros (Hc & Hh & Hn). destruct (init_ok s Hc) as (s' & -> & H1 & H2 & H3 & H4 & H5 & H6). exists s'. split; [done|].
  split; cbn [e_l e_r e_hist e_pos e_lines app]; [done|by apply Forall_nil|done|by apply Forall_nil|done| |by rewrite H5|by rewrite H6, Hn].
  rewrite H4. apply Hc.
Qed.

Lemma run_keys ks : forall bss e s, ed_rel e s -> Forall2 (fun k bs => bs ∈ encodings k) ks bss ->
  exists s', feed (concat bss) s = Ok s' /\ ed_rel (foldl ed_key e ks) s'.
Proof.
  induction ks as [|k ks IH]; intros bss e s He Hk; inversion Hk as [|? bs ? bss' Hb Hks]; subst; [by exists s|].
  cbn [concat foldl]. rewrite feed_app. destruct (key_step e s k bs He Hb) as (s1 & -> & H1 & _). cbn [mbind res_mbind]. by apply IH.
Qed.

(** C18: The line editor refines the abstract editor.  From the state [readline_init] leaves,
    with the console's handler registered, feed [readline_async] the bytes a terminal
    sends for any sequence of keys (in any of their encodings): no access leaves the
    buffers, and the code's state is the abstract editor's state after these keys (the line,
    the cursor, the history and the place in it), the handler having been called with
    exactly the lines that were entered, zero-terminated and with their lengths. *)
Theorem editor_refines s ks bss :
  fresh_console s -> Forall2 (fun k bs => bs ∈ encodings k) ks bss ->
  exists s0 s', readline_init s = Ok s0 /\ feed (concat bss) s0 = Ok s' /\
    let e := foldl ed_key (Ed [] [] [] 0 []) ks in
    ed_rel e s' /\ Forall2 call_of (r_calls s') (e_lines e).
Proof.
  intros Hs Hk. destruct (init_rel s Hs) as (s0 & E0 & H0). destruct (run_keys ks bss _ s0 H0 Hk) as (s' & E & H).
  exists s0, s'. split; [done|]. split; [done|]. split; [done|]. by apply er_calls in H.
Qed.

(** A state as [fresh_console] demands it. *)
Definition blank_state : rl :=
  MkRl (replicate 129 0) 0 0 0 (replicate 8 0) 0 0 (-1) 0 (replicate 20 (replicate 129 0)) true [] [].

Lemma fresh_blank_state : fresh_console blank_state.
Proof. unfold fresh_console, clean. split_and!; try reflexivity. by apply Forall_replicate. Qed.

(** "ab", left, delete, enter. *)
Lemma editor_refines_witness : exists s0 s', readline_init blank_state = Ok s0 /\
  feed (concat [[97]; [98]; [27; 91; 68]; [27; 91; 51; 126]; [13]]) s0 = Ok s' /\
  let e := foldl ed_key (Ed [] [] [] 0 []) [KChar 97; KChar 98; KLeft; KDelete; KEnter] in
  ed_rel e s' /\ Forall2 call_of (r_calls s') (e_lines e).
Proof.
  apply (editor_refines blank_state [KChar 97; KChar 98; KLeft; KDelete; KEnter]); [exact fresh_blank_state|].
  repeat constructor.
Defined.

(** C21: The row of the terminal shows the line.  When it shows the prompt and the line with
    nothing behind it and the cursor in its place, it does so again after any sequence of
    keys other than return: everything the code prints on inserting, deleting, moving,
    erasing and recalling lines brings the row up to date. *)
Theorem display_correct e s ks bss p t :
  ed_rel e s -> shows p e t -> KEnter ∉ ks -> Forall2 (fun k bs => bs ∈ encodings k) ks bss ->
  exists s' o, feed (concat bss) s = Ok s' /\ r_out s' = r_out s ++ o /\ shows p (foldl ed_key e ks) (term_puts o t).
Proof.
  revert bss e s t. induction ks as [|k ks IH]; intros bss e s t He Ht Hn Hk; inversion Hk as [|? bs ? bss' Hb Hks]; subst.
  - exists s, []. by rewrite app_nil_r.
  - cbn [concat foldl]. rewrite feed_app. apply not_elem_of_cons in Hn as [Hn1 Hn2].
    destruct (key_step e s k bs He Hb) as (s1 & -> & H1 & Hs). cbn [mbind res_mbind].
    destruct (Hs ltac:(done)) as (_ & o1 & E1 & T1). destruct (IH bss' _ s1 (term_puts o1 t) H1 (T1 _ _ Ht) Hn2 Hks) as (s' & o & E & Eo & T).
    exists s', (o1 ++ o). split; [done|]. rewrite Eo, E1, term_puts_app, app_assoc. done.
Qed.

(** "ab", left, "c" behind the prompt "> ". *)
Lemma display_correct_witness : exists s0, readline_init blank_state = Ok s0 /\
  exists s' o, feed (concat [[97]; [98]; [2]; [99]]) s0 = Ok s' /\ r_out s' = r_out s0 ++ o /\
    shows [62; 32] (foldl ed_key (Ed [] [] [] 0 []) [KChar 97; KChar 98; KLeft; KChar 99]) (term_puts o ([32; 62], [])).
Proof.
  destruct (init_rel blank_state fresh_blank_state) as (s0 & E0 & H0). exists s0. split; [exact E0|].
  apply (display_correct _ s0 [KChar 97; KChar 98; KLeft; KChar 99] _ _ _ H0).
  - split; [reflexivity|]. by exists 0%nat.
  - intros H. repeat (apply elem_of_cons in H as [H|H]; [discriminate H|]). by apply elem_of_nil in H.
  - repeat constructor.
Defined.

(** ** Recalling lines *)
Definition enter_line (line : list Z) : list key := map KChar line ++ [KEnter].
Definition line_ok (line : list Z) : Prop :=
  all_typed line /\ (0 < length line <= 128)%nat /\ hd 0 line <> CREAD_HIST_CHAR.

Lemma type_line w : forall e, (length (e_l e) + length w + length (e_r e) <= 128)%nat ->
  foldl ed_key e (map KChar w) = put_line (e_l e ++ w) (e_r e) e.
Proof.
  induction w as [|c w IH]; intros e Hl; cbn [map foldl].
  - by rewrite app_nil_r, put_line_same.
  - cbn [ed_key]. rewrite decide_True by (cbn in Hl; lia). rewrite IH by (cbn in *; len). cbn. by rewrite <- app_assoc.
Qed.

Lemma enter_lines lines : forall hs out, Forall line_ok lines ->
  foldl ed_key (Ed [] [] hs 0 out) (concat (map enter_line lines)) =
    Ed [] [] (foldl (fun hs l => take 19 (l :: hs)) hs lines) 0 (out ++ lines).
Proof.
  induction lines as [|l lines IH]; intros hs out Hl; cbn [map concat foldl]; [by rewrite app_nil_r|].
  apply Forall_cons in Hl as [(Ht & Hn & Hh) Hl]. unfold enter_line at 1. rewrite !foldl_app, type_line by (cbn; lia).
  cbn [foldl ed_key put_line e_l e_r e_hist e_pos e_lines app]. rewrite app_nil_r, IH by done. rewrite <- app_assoc. f_equal. f_equal.
  unfold remember. destruct l as [|c l]; [cbn in Hn; lia|]. by rewrite (proj2 (Z.eqb_neq _ _)).
Qed.

Lemma kept_lines lines : forall hs : list (list Z),
  foldl (fun hs l => take 19 (l :: hs)) (take 19 hs) lines = take 19 (rev lines ++ hs).
Proof.
  induction lines as [|l lines IH]; intros hs; [done|]. cbn [foldl rev]. rewrite <- app_assoc. cbn [app].
  rewrite <- IH. f_equal. cbn [take]. f_equal. rewrite take_take. done.
Qed.

Lemma ups n : forall e, (e_pos e + n <= length (e_hist e))%nat -> (0 < n)%nat ->
  foldl ed_key e (replicate n KUp) = put_recall (default [] (e_hist e !! (e_pos e + n - 1)%nat)) (e_pos e + n) e.
Proof.
  induction n as [|n IH]; intros e Hp Hn; [lia|]. cbn [replicate foldl]. cbn [ed_key].
  destruct (lookup_lt_is_Some_2 (e_hist e) (e_pos e)) as [h Eh]; [lia|]. rewrite Eh. destruct n as [|n].
  - cbn [replicate foldl]. replace (e_pos e + 1 - 1)%nat with (e_pos e) by lia. rewrite Eh. cbn. f_equal. lia.
  - rewrite IH by (cbn; lia). cbn [e_hist e_pos put_recall]. unfold put_recall. cbn. do 2 f_equal; [|lia]. f_equal. lia.
Qed.

(** The history.  Enter any number of lines (not empty, not beginning with [!], at most 128
    characters), then press the up arrow [i] times, with [i] at most 19 and at most
    the number of lines: the line edited is the [i]-th last line entered, the cursor at its
    end; the handler has been called with all the lines in their order. *)
Theorem history_recall s lines i :
  fresh_console s -> Forall line_ok lines -> (0 < i <= Nat.min 19 (length lines))%nat ->
  exists s0 s' line, readline_init s = Ok s0 /\
    feed (concat (map (fun l => l ++ [13]) lines) ++ concat (replicate i [27; 91; 65])) s0 = Ok s' /\
    lines !! (length lines - i)%nat = Some line /\ line_at s' line [] /\ Forall2 call_of (r_calls s') lines.
Proof.
  intros Hs Hl Hi. destruct (init_rel s Hs) as (s0 & E0 & H0).
  destruct (run_keys (concat (map enter_line lines)) (concat (map (fun l => map (fun c => [c]) l ++ [[13]]) lines)) _ s0 H0)
    as (s1 & F1 & H1).
  { clear -Hl. induction Hl as [|l lines (Ht & _) _ IH]; [constructor|]. cbn [map concat]. apply Forall2_app; [|done].
    apply Forall2_app; [|by repeat constructor]. induction Ht as [|c l Hc _ IHl]; constructor; [|done]. cbn. rewrite Hc. by constructor. }
  destruct (run_keys (replicate i KUp) (replicate i [27; 91; 65]) _ s1 H1) as (s' & F2 & H2).
  { apply Forall2_replicate. by repeat constructor. }
  rewrite enter_lines in H2 by done. pose proof (kept_lines lines []) as Ek. change (take 19 []) with (@nil (list Z)) in Ek. rewrite app_nil_r in Ek. rewrite Ek in H2. clear Ek.
  rewrite ups in H2 by (cbn [e_pos e_hist]; rewrite ?length_take, ?length_rev; lia). cbn [e_hist e_pos] in H2.
  destruct (lookup_lt_is_Some_2 lines (length lines - i)) as [line El]; [lia|].
  assert (take 19 (rev lines) !! (0 + i - 1)%nat = Some line) as Er.
  { rewrite lookup_take_lt by lia. rewrite <- El, rev_alt. change (rev_append lines []) with (reverse lines). rewrite reverse_lookup by lia. f_equal. lia. }
  rewrite Er in H2. exists s0, s', line. split; [done|]. split; [|split; [done|split; [apply H2|apply H2]]].
  rewrite feed_app. assert (concat (concat (map (fun l => map (fun c => [c]) l ++ [[13]]) lines)) = concat (map (fun l => l ++ [13]) lines)) as <-; [|by rewrite F1].
  clear. induction lines as [|l lines IH]; [done|]. cbn [map concat]. rewrite !concat_app, IH. f_equal. cbn. f_equal.
  induction l as [|c l IHl]; [done|]. cbn. by rewrite IHl.
Qed.

Lemma history_recall_witness : exists s0 s' line, readline_init blank_state = Ok s0 /\
  feed (concat (map (fun l => l ++ [13]) [[97; 98]; [99]; [100]]) ++ concat (replicate 2 [27; 91; 65])) s0 = Ok s' /\
  [[97; 98]; [99]; [100]] !! (3 - 2)%nat = Some line /\ line_at s' line [] /\ Forall2 call_of (r_calls s') [[97; 98]; [99]; [100]].
Proof.
  apply (history_recall blank_state [[97; 98]; [99]; [100]] 2); [exact fresh_blank_state| |cbn; lia].
  repeat constructor; cbn; (lia || discriminate).
Defined.

(** ** Any input *)
(** The state between two characters has [m = 3]; while a rejected sequence is inserted it is 4. *)
Record rl_inv (m : Z) (s : rl) : Prop := RlInv {
  ri_line : exists l r, line_at s l r;
  ri_hist : exists hs pos, hist_at s hs pos;
  ri_esc : 0 <= r_esc s <= m;
  ri_save : length (r_save s) = 8%nat }.

Lemma inv_upd m s b l r o : rl_inv m s -> holds b l r -> rl_inv m (upd b (length l) (length l + length r) o s).
Proof.
  intros [_ (hs & pos & H2) H3 H4] Hb. split; [by exists l, r| |done|done]. exists hs, pos. by eapply hist_at_frame, H2.
Qed.

Lemma inv_upd_end m s b l o : rl_inv m s -> holds b l [] -> rl_inv m (upd b (length l) (length l) o s).
Proof. intros. rewrite <- (Nat.add_0_r (length l)) at 2. by apply (inv_upd m s b l []). Qed.

Lemma inv_esc m m' s n sv : rl_inv m s -> 0 <= n <= m' -> length sv = 8%nat -> rl_inv m' (set_esc n sv s).
Proof.
  intros [(l & r & []) (hs & pos & H2) _ _] Hn Hs. split; [by exists l, r| |done|done]. exists hs, pos. by eapply hist_at_frame, H2.
Qed.

Lemma inv_puts m s o : rl_inv m s -> rl_inv m (puts o s).
Proof.
  intros [(l & r & []) (hs & pos & H2) H3 H4]. split; [by exists l, r| |done|done]. exists hs, pos. by eapply hist_at_frame, H2.
Qed.

(** A step that succeeds and keeps the invariant. *)
Definition keeps (m : Z) (r : res rl) : Prop := exists s', r = Ok s' /\ rl_inv m s'.
Definition keeps2 (r : res (Z * rl)) : Prop := exists n s', r = Ok (n, s') /\ rl_inv 3 s'.

Lemma keeps_then r n : keeps 3 r -> keeps2 (s ← r; Ok (n, s)).
Proof. intros (s' & -> & H). by exists n, s'. Qed.

Lemma inv_add_char m s c : rl_inv m s -> keeps m (cread_add_char c true s).
Proof.
  intros H. destruct (ri_line _ _ H) as (l & r & Hl). pose proof (holds_bound _ _ _ (la_holds _ _ _ Hl)).
  destruct (decide (length l + length r < 128)%nat).
  - destruct (add_char_room s l r c) as (b & -> & Hb); [done..|]. eexists. split; [done|].
    replace (S (length l)) with (length (l ++ [c])) by len.
    replace (S (length l + length r)) with (length (l ++ [c]) + length r)%nat by len. by apply inv_upd.
  - rewrite (add_char_full s l r) by (done || lia). eexists. split; [done|]. by apply inv_puts.
Qed.

Lemma inv_add_str m str : forall s, rl_inv m s -> keeps m (cread_add_str str true s).
Proof.
  induction str as [|c str IH]; intros s H; [by exists s|]. cbn. destruct (inv_add_char m s c H) as (s' & -> & H'). by apply IH.
Qed.

Lemma inv_delete m s : rl_inv m s -> keeps m (delete_char s).
Proof.
  intros H. destruct (ri_line _ _ H) as (l & [|x r] & Hl).
  - unfold delete_char. destruct (Hl) as [_ -> ->]. rewrite (proj2 (Z.ltb_ge _ _)) by len. by exists s.
  - destruct (delete_op _ _ _ _ Hl) as (b & -> & Hb). eexists. split; [done|]. by apply inv_upd.
Qed.

Lemma inv_back m s : rl_inv m s -> keeps m (back_space s).
Proof.
  intros H. destruct (ri_line _ _ H) as (l & r & Hl). destruct l as [|x l _] using rev_ind.
  - unfold back_space. destruct (Hl) as [_ -> _]. by exists s.
  - destruct (back_op _ _ _ _ Hl) as (b & -> & Hb). eexists. split; [done|]. by apply inv_upd.
Qed.

Lemma inv_begin m s : rl_inv m s -> rl_inv m (BEGINNING_OF_LINE s).
Proof.
  intros H. destruct (ri_line _ _ H) as (l & r & Hl). rewrite (begin_op _ _ _ Hl), <- length_app.
  apply (inv_upd m s _ [] (l ++ r)); [done|]. apply (holds_shift _ [] l), Hl.
Qed.

Lemma inv_erase m s : rl_inv m s -> rl_inv m (ERASE_TO_EOL s).
Proof.
  intros H. destruct (ri_line _ _ H) as (l & r & Hl). rewrite (erase_op _ _ _ Hl). apply inv_upd_end; [done|].
  apply (holds_prefix _ _ [] r), Hl.
Qed.

Lemma inv_refresh m s : rl_inv m s -> rl_inv m (REFRESH_TO_EOL s).
Proof.
  intros H. destruct (ri_line _ _ H) as (l & r & Hl). rewrite (refresh_op _ _ _ Hl), <- length_app. apply inv_upd_end; [done|].
  apply (proj1 (holds_all _ _ _)), Hl.
Qed.

(** The invariant of a state whose history position has moved. *)
Lemma inv_recall m s hl cur hs pos : rl_inv m s -> (exists h, fits hl h) -> hist_at (set_cur cur s) hs pos ->
  keeps m (recall (Ok (Some hl, set_cur cur s))).
Proof.
  intros [(l & r & [L1 L2 L3]) _ H3 H4] (h & Hh) Hp.
  destruct (recall_op (set_cur cur s) l r hl h) as (b & -> & Hb); [by split|done|]. eexists. split; [done|].
  apply inv_upd_end; [|done]. split; [exists l, r; by split|by exists hs, pos|done|done].
Qed.

Lemma inv_beep m s : rl_inv m s -> keeps m (recall (Ok (None, s))).
Proof. intros H. eexists. split; [done|]. by apply inv_puts. Qed.

Lemma inv_prev m s : rl_inv m s -> keeps m (recall (hist_prev s)).
Proof.
  intros H. destruct (ri_hist _ _ H) as (hs & pos & Hh). pose proof (hist_prev_op _ _ _ Hh) as Hp. destruct (hs !! pos) as [h|].
  - destruct Hp as (line & cur & -> & Hs & Hh'). eapply inv_recall; [done| |done]. exists h. by apply hstr_fits.
  - rewrite Hp. by apply inv_beep.
Qed.

Lemma inv_next m s : rl_inv m s -> keeps m (recall (hist_next s)).
Proof.
  intros H. destruct (ri_hist _ _ H) as (hs & pos & Hh). pose proof (hist_next_op _ _ _ Hh) as Hp. destruct pos as [|[|p]].
  - rewrite Hp. by apply inv_beep.
  - destruct Hp as (cur & -> & Hh'). eapply inv_recall; [done| |done]. exists []. split; [cbn; lia|]. split; [constructor|]. by exists [].
  - destruct Hp as (h & line & cur & _ & -> & Hs & Hh'). eapply inv_recall; [done| |done]. exists h. by apply hstr_fits.
Qed.

Definition zero_hd (l : list Z) : list Z := match l with [] => [] | _ :: l => 0 :: l end.

Lemma zero_hd_length l : length (zero_hd l) = length l.
Proof. by destruct l. Qed.

(** [*readline_buffer = '\0'] *)
Lemma break_op s l r : line_at s l r ->
  exists b, buf_put 0 0 s = Ok (set_line b (r_len s) (r_eol s) s) /\ b !! 0%nat = Some 0 /\
    exists l' r', holds b l' r' /\ length l' = length l /\ length r' = length r /\ l' = zero_hd l.
Proof.
  intros [(rest & E & Hb) _ _]. unfold buf_put. change (Z.to_nat 0) with 0%nat. rewrite wr_ok by lia. cbn [mbind res_mbind].
  exists (<[0%nat := 0]> (r_buf s)). split; [done|]. split; [apply list_lookup_insert_eq; lia|].
  exists (zero_hd l), (match l with [] => zero_hd r | _ => r end). split; [|by destruct l; rewrite ?zero_hd_length].
  unfold holds. rewrite length_insert. exists (match l, r with [], [] => zero_hd rest | _, _ => rest end). split; [|done].
  rewrite E. by destruct l, r, rest.
Qed.

Lemma inv_break m s : rl_inv m s -> keeps m (buf_put 0 0 s).
Proof.
  intros H. destruct (ri_line _ _ H) as (l & r & Hl). destruct (break_op s l r Hl) as (b & -> & _ & l' & r' & Hb & E1 & E2 & _).
  eexists. split; [done|]. destruct Hl as [_ -> ->]. rewrite <- E1, <- E2, <- (puts_nil s). by apply inv_upd.
Qed.

Lemma inv_right m s : rl_inv m s -> keeps m (if r_len s <? r_eol s then
  c ← rd (r_buf s) (Z.to_nat (r_len s)); Ok (set_line (r_buf s) (r_len s + 1) (r_eol s) (putch c s)) else Ok s).
Proof.
  intros H. destruct (ri_line _ _ H) as (l & r & [Hh E1 E2]). rewrite E1, E2. destruct r as [|c r].
  - rewrite (proj2 (Z.ltb_ge _ _)) by len. by exists s.
  - rewrite (proj2 (Z.ltb_lt _ _)) by len. destruct (rd_ok (r_buf s) (Z.to_nat (Z.of_nat (length l)))) as (x & _ & ->).
    { destruct Hh as (? & -> & Hb). len. }
    eexists. split; [done|]. unfold putch.
    rewrite (upd_eq _ _ _ (length (l ++ [c])) (length (l ++ [c]) + length r) _ [x]) by (done || len).
    apply inv_upd; [done|]. by apply (holds_shift _ _ [c]).
Qed.

Lemma inv_left m s : rl_inv m s ->
  rl_inv m (if negb (r_len s =? 0) then set_line (r_buf s) (r_len s - 1) (r_eol s) (putch CTL_BACKSPACE s) else s).
Proof.
  intros H. destruct (ri_line _ _ H) as (l & r & [Hh E1 E2]). rewrite E1, E2. destruct l as [|c l _] using rev_ind; [done|].
  rewrite (proj2 (Z.eqb_neq _ _)) by len. cbn [negb]. unfold putch.
  rewrite (upd_eq _ _ _ (length l) (length l + length (c :: r)) _ [CTL_BACKSPACE]) by (done || len).
  apply inv_upd; [done|]. by apply (holds_shift _ l [c]).
Qed.

Lemma inv_handle_char c s : rl_inv 3 s -> keeps2 (handle_char c true s).
Proof.
  intros H. assert (rl_inv 3 (set_esc 0 (r_save s) s)) as H0 by (eapply inv_esc; [done|lia|apply H]).
  assert (forall r, rl_inv 3 r -> keeps 3 (Ok r)) as K by (intros r Hr; by exists r).
  unfold handle_char. cbv zeta. destruct (c =? 27).
  { destruct (r_esc s =? 0); apply keeps_then.
    - rewrite wr_ok by (rewrite (ri_save _ _ H); lia). eapply K, inv_esc; [done|lia|]. by rewrite length_insert, (ri_save _ _ H).
    - eapply K, inv_esc; [by apply inv_puts|lia|apply H]. }
  destruct (c =? CTL_CH 97); [by apply keeps_then, K, inv_begin|].
  destruct (c =? CTL_CH 99); [destruct (inv_break 3 s H) as (s' & -> & H'); by exists (-1), s'|].
  destruct (c =? CTL_CH 102); [by apply keeps_then, inv_right|].
  destruct (c =? CTL_CH 98); [by apply keeps_then, K, inv_left|].
  destruct (c =? CTL_CH 100); [by apply keeps_then, inv_delete|].
  destruct (c =? CTL_CH 107); [by apply keeps_then, K, inv_erase|].
  destruct (c =? CTL_CH 101); [by apply keeps_then, K, inv_refresh|].
  destruct (c =? CTL_CH 111); [by apply keeps_then, K|].
  destruct ((c =? CTL_CH 120) || (c =? CTL_CH 117)); [by apply keeps_then, K, inv_erase, inv_begin|].
  destruct ((c =? DEL) || (c =? DEL7) || (c =? 8)); [by apply keeps_then, inv_back|].
  destruct (c =? CTL_CH 112); [by apply keeps_then, inv_prev|].
  destruct (c =? CTL_CH 110); [by apply keeps_then, inv_next|]. by apply keeps_then, inv_add_char.
Qed.

Lemma inv_end_line s : rl_inv 3 s -> keeps2 (end_line s).
Proof.
  intros [(l & r & Hl) (hs & pos & Hh) H3 H4]. destruct (r_handler s) eqn:Er.
  - destruct (end_op s l r hs pos Hl Hh Er) as (s' & -> & [E1 E2 E3 E4 E5 (b & rest & _ & Hh' & _)]). exists 0, s'. split; [done|].
    split; [by exists [], []|by eexists _, _|lia|by rewrite E3].
  - destruct (terminate s l r Hl) as (b & rest & Hw & _ & Hb). unfold end_line, buf_put. rewrite Hw. cbn [mbind res_mbind].
    set (s1 := set_line b (r_len s) (r_eol s) s). assert (line_at s1 l r) as Hl1 by (destruct Hl; by split).
    assert (hist_at s1 hs pos) as Hh1 by (by eapply hist_at_frame, Hh).
    destruct (rd_ok (r_buf s1) 0) as (c & _ & Hc); [destruct Hb as (? & _ & Hb); cbn; lia|].
    rewrite Hc. cbn [mbind res_mbind].
    destruct (keep_op s1 l r hs pos c Hl1 Hh1 Hc) as (s2 & m & a & n & ls & -> & E2 & H2). cbn [mbind res_mbind].
    assert (r_handler (set_cur (h_add s2) s2) = false) as -> by (by rewrite E2). cbn [mbind res_mbind].
    eexists _, _. split; [done|]. split; [exists l, r|by eexists _, _|by rewrite E2|by rewrite E2].
    rewrite E2. destruct Hl1. by split.
Qed.

Lemma rd_any m p : (p < length m)%nat -> exists b, rd m p = Ok b.
Proof. intros (b & _ & H)%rd_ok. by exists b. Qed.

(** The decoder of escape sequences never fails, and saves only while there is room. *)
Lemma esc_decode_ok s c : rl_inv 3 s -> r_esc s <> 0 ->
  exists act, esc_decode s c = Ok act /\ (act = ESC_SAVE -> r_esc s <= 2).
Proof.
  intros H Hn. pose proof (ri_esc _ _ H). pose proof (ri_save _ _ H) as Hs. unfold esc_decode.
  destruct (Z.eqb_spec (r_esc s) 1); [eexists; split; [done|]; lia|].
  destruct (Z.eqb_spec (r_esc s) 2).
  - repeat (match goal with |- context [if ?b then Ok _ else _] => destruct b; [eexists; split; [done|]; lia|] end).
    case_match; [|eexists; split; [done|]; lia]. destruct (rd_any (r_save s) 1) as (x & ->); [lia|]. eexists. split; [done|]. lia.
  - destruct (r_esc s =? 3); [|eexists; split; [done|]; done]. destruct (c =? 126); [|eexists; split; [done|]; done].
    destruct (rd_any (r_save s) 2) as (x & ->); [lia|]. eexists. split; [done|]. repeat case_match; done.
Qed.

Lemma inv_async c s : rl_inv 3 s -> keeps2 (readline_async c s).
Proof.
  intros H. unfold readline_async. destruct ((c =? 10) || (c =? 13)); [by apply inv_end_line, inv_puts|].
  destruct (Z.eqb_spec (r_esc s) 0) as [|Hn]; cbn [negb]; [by apply inv_handle_char|].
  destruct (esc_decode_ok s c H Hn) as (act & -> & Ha). cbn [mbind res_mbind]. pose proof (ri_esc _ _ H). pose proof (ri_save _ _ H) as Hs.
  destruct act as [| |c'].
  - rewrite wr_ok by lia. cbn [mbind res_mbind].
    set (sv := <[Z.to_nat (r_esc s) := c]> (r_save s)). assert (length sv = 8%nat) as Hv by (unfold sv; by rewrite length_insert).
    destruct (inv_add_str 4 (take (Z.to_nat (r_esc s + 1)) sv) (set_esc (r_esc s + 1) sv s)) as (s' & -> & H'); [eapply inv_esc; [done|lia|done]|].
    eexists _, _. split; [done|]. eapply inv_esc; [done|lia|apply H'].
  - rewrite wr_ok by lia. eexists _, _. split; [done|]. eapply inv_esc; [done|specialize (Ha eq_refl); lia|by rewrite length_insert].
  - eapply inv_handle_char, inv_esc; [done|lia|done].
Qed.

(** C20: No input breaks the editor.  Whatever bytes arrive (control characters, zero bytes,
    broken escape sequences and break included), with a handler registered or without,
    every call of [readline_async] returns without leaving an array, the lengths stay in
    order and within the buffer, and the buffer keeps its final zero byte. *)
Theorem any_input_safe s cs :
  clean s -> exists s0 s', readline_init s = Ok s0 /\ feed cs s0 = Ok s' /\
    0 <= r_len s' <= r_eol s' /\ r_eol s' <= READLINE_BUFFER_SIZE /\ 0 <= r_esc s' <= 3 /\
    length (r_buf s') = 129%nat /\ r_buf s' !! 128%nat = Some 0.
Proof.
  intros Hc. destruct (init_ok s Hc) as (s0 & E0 & H1 & H2 & H3 & H4 & _). exists s0.
  assert (rl_inv 3 s0) as Hi by (split; [by eexists _, _|by eexists _, _|lia|rewrite H4; apply Hc]).
  assert (forall cs s, rl_inv 3 s -> exists s', feed cs s = Ok s' /\ rl_inv 3 s') as F.
  { clear. induction cs as [|c cs IH]; intros s H; [by exists s|]. cbn [feed]. destruct (inv_async c s H) as (n & s' & -> & H').
    cbn [mbind res_mbind]. by apply IH. }
  destruct (F cs s0 Hi) as (s' & E & [(l & r & [Hh L1 L2]) _ He _]). exists s'. split; [done|]. split; [done|].
  pose proof (holds_bound _ _ _ Hh). unfold READLINE_BUFFER_SIZE. destruct Hh as (rest & Eb & Hb).
  split_and!; [lia..|done|]. rewrite Eb in Hb |- *. rewrite !(assoc_L (++)) in Hb |- *. rewrite lookup_app_r by len.
  by replace (_ - _)%nat with 0%nat by len.
Qed.

Lemma any_input_safe_witness : exists s0 s', readline_init blank_state = Ok s0 /\ feed [27; 0; 3; 200; 10; 16; 27; 91; 57] s0 = Ok s' /\
  0 <= r_len s' <= r_eol s' /\ r_eol s' <= READLINE_BUFFER_SIZE /\ 0 <= r_esc s' <= 3 /\
  length (r_buf s') = 129%nat /\ r_buf s' !! 128%nat = Some 0.
Proof. apply (any_input_safe blank_state). exact (proj1 fresh_blank_state). Defined.

(** ** Break *)
Lemma type_raw w : forall s l r hs pos, line_at s l r -> hist_at s hs pos -> r_esc s = 0 -> r_handler s = true -> all_typed w ->
  (length l + length w + length r <= 128)%nat ->
  exists s', feed w s = Ok s' /\ line_at s' (l ++ w) r /\ hist_at s' hs pos /\ r_esc s' = 0 /\ r_handler s' = true /\ r_calls s' = r_calls s.
Proof.
  induction w as [|c w IH]; intros s l r hs pos Hl Hh He Hr Ht Hn.
  - exists s. by rewrite app_nil_r.
  - apply Forall_cons in Ht as [Hc Ht]. change (c :: w) with ([c] ++ w). rewrite feed_app, feed_char by done.
    destruct (add_char_room s l r c Hl) as (b & -> & Hb); [cbn in Hn; lia|]. cbn [mbind res_mbind].
    destruct (IH (upd b (S (length l)) (S (length l + length r)) (cstr (c :: r) ++ replicate (length r) CTL_BACKSPACE) s)
      (l ++ [c]) r hs pos) as (s' & E & H1 & H2); [split; [done|cbn; len..]|by eapply hist_at_frame, Hh|done..|cbn in Hn; len|].
    exists s'. rewrite <- app_assoc in H1. done.
Qed.

(** Break loses the next line.  [^C] writes a zero byte to the start of the buffer, "discard
    input", but leaves the lengths.  With the cursor behind some text, the text typed
    next is put behind the discarded text: on return the handler gets a buffer that begins
    with the zero byte, an empty string to the command interpreter, and the line is not in the
    history either. *)
Theorem break_loses_line e s w :
  ed_rel e s -> e_l e <> [] -> all_typed w -> (length (e_l e) + length w + length (e_r e) <= 128)%nat ->
  exists s' b, feed ([3] ++ w ++ [13]) s = Ok s' /\
    r_calls s' = r_calls s ++ [(b, Z.of_nat (length (e_l e) + length w + length (e_r e)))] /\
    cstr b = [] /\ hist_at s' (e_hist e) 0.
Proof.
  intros He Hn Ht Hl. pose proof (er_line _ _ He) as Hla. destruct (break_op s _ _ Hla) as (b0 & Eb & _ & l & r & Hb & E1 & E2 & E3).
  rewrite feed_app. assert (feed [3] s = Ok (set_line b0 (r_len s) (r_eol s) s)) as ->.
  { cbn [feed]. unfold readline_async. rewrite (er_esc _ _ He). unfold handle_char. cbn. by rewrite Eb. }
  cbn [mbind res_mbind]. rewrite feed_app.
  destruct (type_raw w (set_line b0 (r_len s) (r_eol s) s) l r (e_hist e) (e_pos e)) as (s1 & -> & L1 & H1 & S1 & R1 & C1).
  { destruct Hla. split; cbn; [done|by rewrite E1|by rewrite E1, E2]. }
  { by eapply hist_at_frame, (er_hist _ _ He). }
  { apply He. } { apply He. } { done. } { lia. }
  cbn [mbind res_mbind]. assert (feed [13] s1 = ('(_, s) ← end_line (puts [13; 10] s1); Ok s)) as -> by done.
  destruct (end_op (puts [13; 10] s1) (l ++ w) r (e_hist e) (e_pos e)) as (s' & -> & [_ _ _ _ _ (b & rest & -> & Hh & Hc)]);
    [by destruct L1|by eapply hist_at_frame, H1|done|].
  exists s', (((l ++ w) ++ r) ++ 0 :: rest). rewrite E3 in Hh |- *. destruct (e_l e) as [|x l'] eqn:El; [done|]. split; [done|].
  split; [|split; [done|by apply Hh]]. rewrite Hc. cbn [puts r_calls]. rewrite C1. cbn [set_line r_calls].
  assert (length (((l ++ w) ++ r)) = (length (x :: l') + length w + length (e_r e))%nat) as <- by (rewrite !length_app, E1, E2; lia).
  by rewrite E3.
Qed.

(** "ab", break, "c", return. *)
Lemma break_loses_line_witness : exists s0 s1, readline_init blank_state = Ok s0 /\ feed [97; 98] s0 = Ok s1 /\
  exists s' b, feed ([3] ++ [99] ++ [13]) s1 = Ok s' /\ r_calls s' = r_calls s1 ++ [(b, 3)] /\ cstr b = [] /\ hist_at s' [] 0.
Proof.
  destruct (init_rel blank_state fresh_blank_state) as (s0 & E0 & H0).
  destruct (run_keys [KChar 97; KChar 98] [[97]; [98]] _ s0 H0) as (s1 & E1 & H1); [repeat constructor|].
  exists s0, s1. split; [exact E0|]. split; [exact E1|]. change [KChar 97; KChar 98] with (map KChar [97; 98]) in H1. rewrite type_line in H1 by (cbn; lia).
  apply (break_loses_line _ s1 [99] H1).
  - discriminate.
  - apply Forall_cons_2; [reflexivity|apply Forall_nil_2].
  - cbn. lia.
Defined.
