(* ===== verification/Cmdline.v ===== *)
(** * Cmdline: the command interpreter

    kernel/cmdline.c (with CONFIG_CONSOLE_COMMAND and CONFIG_COMMAND_BATCH).  [cmd_parse]
    cuts a line into arguments in place, [find_cmd] searches the table the linker gathers
    from the DEFINE_COMMANDs, [cmd_execute] runs the command; the console's handler does so
    for every line entered, [cmd_batch] for the commands configured into the image.  A
    pointer into the line is an index into its memory; [argv] is an array of 11 cells that
    start out uninitialised.  A command is a function from its arguments and the memory they
    point into to its return value; what the interpreter does in order is the list of
    [event]s.  [cmd_help] and [cmd_dump_sect] only print and are left out. *)
From S2P Require Import Prelude CString Readline Editor.
From stdpp Require Import list.
Local Open Scope Z_scope.

Definition MAXARGS : nat := 10.
Inductive arg : Type := AUninit | ANull | APtr (p : nat).

Record cmd_tbl : Type := MkCmd { c_name : list Z; c_cmd : Z -> list arg -> mem -> Z; c_flags : Z }.
Definition CMD_FLAG_PERF : Z := 1.
Definition set_flags (f : Z) (c : cmd_tbl) : cmd_tbl := MkCmd (c_name c) (c_cmd c) f.

Inductive event : Type :=
  | EvTooMany | EvNoSuch | EvGetoptReset | EvPerfStart | EvCall (name : list Z) (argc : Z) (argv : list arg) (m : mem)
  | EvPerfStop | EvFailure (ret : Z) | EvSuccess (ret : Z) | EvInterrupt | EvPrompt.

(** ** Arguments *)
Definition isblank (c : Z) : bool := (c =? 32) || (c =? 9).
Definition set_arg (argv : list arg) (n : nat) (a : arg) : res (list arg) :=
  if decide (n < length argv)%nat then Ok (<[n := a]> argv) else Fault FOob.
(** [while (f( *line)) ++line;], one turn per byte of the memory at most. *)
Fixpoint skip_while (f : Z -> bool) (fuel : nat) (m : mem) (line : nat) : res nat :=
  match fuel with
  | O => Fault FHang
  | S fuel => c ← rd m line; if f c then skip_while f fuel m (S line) else Ok line
  end.
Definition skip (f : Z -> bool) (m : mem) (line : nat) : res nat := skip_while f (S (length m)) m line.

(** [turns] is MAXARGS - [nargs]. *)
Fixpoint cmd_parse_loop (turns : nat) (line : nat) (m : mem) (argv : list arg) (nargs : nat) : res (nat * mem * list arg * list event) :=
  match turns with
  | O => Ok (nargs, m, argv, [EvTooMany])
  | S turns =>
      line ← skip isblank m line;
      c ← rd m line;
      if c =? 0 then argv ← set_arg argv nargs ANull; Ok (nargs, m, argv, [])
      else
        argv ← set_arg argv nargs (APtr line);
        let nargs := S nargs in
        line ← skip (fun c => negb (c =? 0) && negb (isblank c)) m line;
        c ← rd m line;
        if c =? 0 then argv ← set_arg argv nargs ANull; Ok (nargs, m, argv, [])
        else m ← wr m line 0; cmd_parse_loop turns (S line) m argv nargs
  end.
Definition cmd_parse (line : nat) (m : mem) (argv : list arg) : res (nat * mem * list arg * list event) :=
  cmd_parse_loop MAXARGS line m argv 0.

(** ** The table *)
(** The index of the command; [cmd] is the memory from the pointer on. *)
Fixpoint find_cmd (tbl : list cmd_tbl) (cmd : mem) : res (option nat) :=
  match tbl with
  | [] => Ok None
  | cmdp :: tbl =>
      r ← strcmp (c_name cmdp ++ [0]) cmd;
      if negb (r =? 0) then n ← find_cmd tbl cmd; Ok (option_map S n) else Ok (Some O)
  end.
Definition cmd_set_flags (tbl : list cmd_tbl) (cmd : mem) (flags : Z) : res (bool * list cmd_tbl) :=
  n ← find_cmd tbl cmd;
  match n with
  | None => Ok (false, tbl)
  | Some n => Ok (true, alter (fun c => set_flags (Z.lor (c_flags c) flags) c) n tbl)
  end.
Definition cmd_clear_flags (tbl : list cmd_tbl) (cmd : mem) (flags : Z) : res (bool * list cmd_tbl) :=
  n ← find_cmd tbl cmd;
  match n with
  | None => Ok (false, tbl)
  | Some n => Ok (true, alter (fun c => set_flags (u8 (Z.land (c_flags c) (Z.lnot flags))) c) n tbl)
  end.
Definition cmd_clear_all_flags (tbl : list cmd_tbl) (flags : Z) : list cmd_tbl :=
  map (fun c => set_flags (u8 (Z.land (c_flags c) (Z.lnot flags))) c) tbl.

(** [argv[i]], read as a string. *)
Definition arg_mem (argv : list arg) (i : nat) (m : mem) : res mem :=
  a ← oob (argv !! i); match a with APtr p => Ok (drop p m) | _ => Fault FOob end.
Definition cmd_execute (tbl : list cmd_tbl) (argc : Z) (argv : list arg) (m : mem) : res (Z * list event) :=
  cmd ← arg_mem argv 0 m;
  n ← find_cmd tbl cmd;
  match n with
  | None => Ok (-1, [EvNoSuch])
  | Some n =>
      cmdp ← oob (tbl !! n);
      let perf_started := negb (Z.land (c_flags cmdp) CMD_FLAG_PERF =? 0) in
      let ret := c_cmd cmdp argc argv m in
      Ok (ret, [EvGetoptReset] ++ (if perf_started then [EvPerfStart] else []) ++ [EvCall (c_name cmdp) argc argv m] ++
               (if perf_started then [EvPerfStop] else []) ++ [if ret <? 0 then EvFailure ret else EvSuccess ret])
  end.
(** [char *argv[MAXARGS + 1]] *)
Definition local_argv : list arg := replicate (S MAXARGS) AUninit.
Definition cmd_console_handler (tbl : list cmd_tbl) (buf : mem) (len : Z) : res (Z * list event) :=
  if len <? 0 then Ok (- EINTR, [EvInterrupt])
  else
    '(argc, buf, argv, ev) ← cmd_parse 0 buf local_argv;
    ev' ← (if (0 <? argc)%nat then '(_, ev) ← cmd_execute tbl (Z.of_nat argc) argv buf; Ok ev else Ok []);
    Ok (0, ev ++ ev' ++ [EvPrompt]).

(** ** Batches *)
Definition isbatch (c : Z) : bool := isblank c || (c =? 59).
(** The pointer returned, [None] for NULL; [args], [None] when it is not written. *)
Fixpoint parse_batch_loop (turns : nat) (line : nat) (m : mem) (argv : list arg) (nargs : nat) :
    res (option nat * option nat * mem * list arg * list event) :=
  match turns with
  | O => Ok (None, None, m, argv, [EvTooMany])
  | S turns =>
      line ← skip isbatch m line;
      c ← rd m line;
      if c =? 0 then argv ← set_arg argv nargs ANull; Ok (None, Some nargs, m, argv, [])
      else
        argv ← set_arg argv nargs (APtr line);
        let nargs := S nargs in
        line ← skip (fun c => negb (c =? 0) && negb (isbatch c)) m line;
        c ← rd m line;
        if c =? 0 then argv ← set_arg argv nargs ANull; Ok (None, Some nargs, m, argv, [])
        else if c =? 59 then
          argv ← set_arg argv nargs ANull; m ← wr m line 0; Ok (Some (S line), Some nargs, m, argv, [])
        else m ← wr m line 0; parse_batch_loop turns (S line) m argv nargs
  end.
Definition parse_batch (line : nat) (m : mem) (argv : list arg) := parse_batch_loop MAXARGS line m argv 0.
(** Every turn of [again] but the last moves [cmd_batch_cmds] on. *)
Fixpoint cmd_batch_loop (fuel : nat) (tbl : list cmd_tbl) (cmds : nat) (m : mem) (argv : list arg) : res (mem * list event) :=
  match fuel with
  | O => Fault FHang
  | S fuel =>
      '(next, args, m, argv, ev) ← parse_batch cmds m argv;
      let argc := default O args in
      ev' ← (if (0 <? argc)%nat then '(_, ev) ← cmd_execute tbl (Z.of_nat argc) argv m; Ok ev else Ok []);
      match next with
      | None => Ok (m, ev ++ ev' ++ [EvPrompt])
      | Some next => '(m, ev'') ← cmd_batch_loop fuel tbl next m argv; Ok (m, ev ++ ev' ++ ev'')
      end
  end.
Definition cmd_batch (tbl : list cmd_tbl) (cmds : nat) (m : mem) : res (mem * list event) :=
  cmd_batch_loop (S (length m)) tbl cmds m local_argv.

(** ** Words: the reference *)
Fixpoint words (sep : Z -> bool) (h : list Z) : list (list Z) :=
  match h with
  | [] => []
  | c :: t =>
      if sep c then words sep t
      else match t with
           | [] => [[c]]
           | d :: _ => if sep d then [c] :: words sep t
                       else match words sep t with w :: ws => (c :: w) :: ws | [] => [[c]] end
           end
  end.
Definition all_sep (sep : Z -> bool) (b : bool) (h : list Z) : Prop := Forall (fun c => sep c = b) h.

Lemma words_seps sep bl h : all_sep sep true bl -> words sep (bl ++ h) = words sep h.
Proof. induction 1 as [|c bl Hc _ IH]; [done|]. cbn. by rewrite Hc. Qed.

Lemma words_one sep w : all_sep sep false w -> w <> [] -> words sep w = [w].
Proof.
  induction 1 as [|c w Hc Hw IH]; [done|]. intros _. cbn. rewrite Hc. destruct Hw as [|d w Hd Hw]; [done|]. rewrite Hd, IH; done.
Qed.

Lemma words_cons sep w b h : all_sep sep false w -> w <> [] -> sep b = true -> words sep (w ++ b :: h) = w :: words sep h.
Proof.
  intros Hw Hn Hb. induction Hw as [|c w Hc Hw IH]; [done|]. cbn [app words]. rewrite Hc. destruct Hw as [|d w Hd Hw].
  - cbn [app]. rewrite Hb. cbn. by rewrite Hb.
  - cbn [app]. rewrite Hd. change (d :: w ++ b :: h) with ((d :: w) ++ b :: h). by rewrite IH.
Qed.

(** Every text is separators, a word, and the rest. *)
Lemma split_while (f : Z -> bool) h : exists a b, h = a ++ b /\ all_sep f true a /\ (b = [] \/ exists c t, b = c :: t /\ f c = false).
Proof.
  induction h as [|c h (a & b & -> & Ha & Hb)].
  - exists [], []. repeat split; [constructor|by left].
  - destruct (f c) eqn:E.
    + exists (c :: a), b. repeat split; [by constructor|done].
    + exists [], (c :: a ++ b). repeat split; [constructor|]. right. by eexists _, _.
Qed.

(** ** Scanning *)
Lemma skip_ok f pre a x rest : all_sep f true a -> f x = false ->
  skip f (pre ++ a ++ x :: rest) (length pre) = Ok (length (pre ++ a)).
Proof.
  intros Ha Hx. unfold skip. assert (length a < S (length (pre ++ a ++ x :: rest)))%nat as Hf by len.
  revert Hf. generalize (S (length (pre ++ a ++ x :: rest))) as fuel. revert pre.
  induction Ha as [|c a Hc _ IH]; intros pre [|fuel] Hf; try lia; cbn [skip_while].
  - unfold rd. rewrite lookup_app_r, Nat.sub_diag by lia. cbn. rewrite Hx. by rewrite app_nil_r.
  - unfold rd. rewrite lookup_app_r, Nat.sub_diag by lia. cbn [lookup list_lookup app oob mbind res_mbind]. rewrite Hc.
    specialize (IH (pre ++ [c]) fuel). rewrite <- !app_assoc in IH. cbn [app] in IH.
    replace (S (length pre)) with (length (pre ++ [c])) by len. apply IH. cbn in Hf. lia.
Qed.

Lemma rd_at pre x rest : rd (pre ++ x :: rest) (length pre) = Ok x.
Proof. unfold rd. by rewrite lookup_app_r, Nat.sub_diag by lia. Qed.

Lemma set_arg_ok argv n a : (n < length argv)%nat -> set_arg argv n a = Ok (<[n := a]> argv).
Proof. intros. unfold set_arg. by rewrite decide_True. Qed.

(** [w] is the string at [p]. *)
Definition str_in (m : mem) (p : nat) (w : list Z) : Prop := nz w /\ exists rest, drop p m = w ++ 0 :: rest.

Lemma str_in_app pre w rest : nz w -> str_in (pre ++ w ++ 0 :: rest) (length pre) w.
Proof. intros Hw. split; [done|]. exists rest. by rewrite drop_app_length. Qed.

(** The text ends behind a separator. *)
Definition ends_sep (sep : Z -> bool) (h : list Z) : bool := match last h with Some c => sep c | None => true end.
Definition too_many (turns : nat) (h : list Z) : bool :=
  (turns <? length (words isblank h))%nat || ((turns =? length (words isblank h))%nat && ends_sep isblank h).

Lemma ends_sep_app sep a b h : sep b = true -> ends_sep sep (a ++ b :: h) = ends_sep sep h.
Proof.
  intros Hb. unfold ends_sep. destruct h as [|c h _] using rev_ind; [by rewrite last_snoc|].
  change (a ++ b :: h ++ [c]) with (a ++ (b :: h) ++ [c]). by rewrite (assoc_L (++)), !last_snoc.
Qed.

Lemma all_sep_in sep b a c : all_sep sep b a -> c ∈ a -> sep c = b.
Proof. intros Ha. by apply (proj1 (Forall_forall _ _) Ha). Qed.

Lemma ends_all_sep sep a : all_sep sep true a -> ends_sep sep a = true.
Proof. intros Ha. unfold ends_sep. destruct (last a) as [c|] eqn:E; [|done]. apply last_Some_elem_of in E. by apply (all_sep_in _ _ _ _ Ha). Qed.

Lemma too_many_0 h : too_many 0 h = true.
Proof.
  unfold too_many. destruct (words isblank h) as [|w ws] eqn:E; [|done]. cbn.
  destruct (split_while isblank h) as (a & b & -> & Ha & [->|(c & t & -> & Hc)]); [rewrite app_nil_r; by apply ends_all_sep|].
  rewrite words_seps in E by done. cbn in E. rewrite Hc in E. destruct t as [|d t]; [done|]. destruct (isblank d); [done|]. by destruct (words isblank (d :: t)).
Qed.

(** What the loop leaves in [argv]: the cells below [nargs] as they were, then pointers to the words. *)
Record parsed (m : mem) (argv argv' : list arg) (nargs : nat) (ws : list (list Z)) : Prop := Parsed {
  pa_length : length argv' = length argv;
  pa_before : forall i, (i < nargs)%nat -> argv' !! i = argv !! i;
  pa_words : exists ps, Forall2 (str_in m) ps ws /\ forall i p, ps !! i = Some p -> argv' !! (nargs + i)%nat = Some (APtr p) }.

Lemma parsed_end m argv nargs : (nargs < length argv)%nat -> parsed m argv (<[nargs := ANull]> argv) nargs [].
Proof.
  intros Hn. split; [by rewrite length_insert|intros; by rewrite list_lookup_insert_ne by lia|].
  exists []. split; [constructor|done].
Qed.

Lemma parsed_cons m argv argv' nargs w ws p : str_in m p w -> (nargs < length argv)%nat ->
  parsed m (<[nargs := APtr p]> argv) argv' (S nargs) ws -> parsed m argv argv' nargs (w :: ws).
Proof.
  intros Hw Hn [H1 H2 (ps & H3 & H4)]. rewrite length_insert in H1. split; [done| |].
  - intros i Hi. rewrite H2, list_lookup_insert_ne by lia. done.
  - exists (p :: ps). split; [by constructor|]. intros [|i] q Hq.
    + injection Hq as <-. rewrite Nat.add_0_r, H2 by lia. apply list_lookup_insert_eq. done.
    + rewrite <- Nat.add_succ_comm. by apply H4.
Qed.

Lemma too_many_S t w b h : all_sep isblank false w -> w <> [] -> isblank b = true -> too_many (S t) (w ++ b :: h) = too_many t h.
Proof. intros Hw Hn Hb. unfold too_many. by rewrite words_cons, ends_sep_app by done. Qed.

Lemma too_many_seps t a h : all_sep isblank true a -> too_many t (a ++ h) = too_many t h.
Proof.
  intros Ha. unfold too_many. rewrite words_seps by done. do 2 f_equal. destruct a as [|b a _] using rev_ind; [done|].
  rewrite <- app_assoc. apply ends_sep_app. apply Forall_app in Ha as [_ Ha]. by inversion Ha.
Qed.

(** A text is blank, or begins with a word behind blanks. *)
Lemma next_word sep h : all_sep sep true h \/
  exists a w t, h = a ++ w ++ t /\ all_sep sep true a /\ all_sep sep false w /\ w <> [] /\ (t = [] \/ exists b t', t = b :: t' /\ sep b = true).
Proof.
  destruct (split_while sep h) as (a & b & -> & Ha & [->|(c & t & -> & Hc)]); [left; by rewrite app_nil_r|]. right.
  destruct (split_while (fun c => negb (sep c)) (c :: t)) as (w & t' & E & Hw & Ht). exists a, w, t'. split; [by rewrite E|].
  split; [done|]. split.
  { eapply Forall_impl; [exact Hw|]. cbn. intros x Hx. by destruct (sep x). }
  split.
  - intros ->. cbn in E. destruct Ht as [->|(x & y & -> & Hx)]; [done|]. injection E as -> ->. by rewrite Hc in Hx.
  - destruct Ht as [->|(x & y & -> & Hx)]; [by left|]. right. exists x, y. split; [done|]. by destruct (sep x).
Qed.

Lemma cmd_parse_loop_ok turns : forall pre h rest argv nargs, nz h -> (nargs + turns < length argv)%nat ->
  exists m' argv', cmd_parse_loop turns (length pre) (pre ++ h ++ 0 :: rest) argv nargs =
      Ok ((nargs + length (take turns (words isblank h)))%nat, pre ++ m', argv', if too_many turns h then [EvTooMany] else []) /\
    parsed (pre ++ m') argv argv' nargs (take turns (words isblank h)) /\
    argv' !! (nargs + length (take turns (words isblank h)))%nat =
      if too_many turns h then argv !! (nargs + turns)%nat else Some ANull.
Proof.
  induction turns as [|turns IH]; intros pre h rest argv nargs Hz Hn; cbn [cmd_parse_loop].
  { exists (h ++ 0 :: rest), argv. rewrite too_many_0. cbn [take length]. rewrite !Nat.add_0_r. split; [done|]. split; [|done].
    split; [done|done|]. exists []. split; [constructor|done]. }
  destruct (next_word isblank h) as [Hb|(a & w & t & -> & Ha & Hw & Hwn & Ht)].
  - rewrite (skip_ok isblank pre h 0 rest) by done. cbn [mbind res_mbind]. rewrite (assoc_L (++)), rd_at. cbn [mbind res_mbind Z.eqb].
    rewrite set_arg_ok by lia. cbn [mbind res_mbind]. assert (words isblank h = []) as E by (by rewrite <- (app_nil_r h), words_seps).
    unfold too_many. rewrite E. cbn. rewrite Nat.add_0_r. exists (h ++ 0 :: rest), (<[nargs := ANull]> argv).
    split; [by rewrite (assoc_L (++))|]. split; [apply parsed_end; lia|]. apply list_lookup_insert_eq. lia.
  - rewrite too_many_seps, words_seps by done. apply Forall_app in Hz as [_ Hz]. apply Forall_app in Hz as [Hzw Hzt].
    destruct w as [|c w]; [done|]. pose proof Hw as Hw'. apply Forall_cons in Hw' as [Hc _]. pose proof Hzw as Hzw'. apply Forall_cons in Hzw' as [Hc0 _].
    rewrite <- !app_assoc. cbn [app]. rewrite (skip_ok isblank pre a c) by done. cbn [mbind res_mbind].
    rewrite (assoc_L (++) pre a), rd_at. cbn [mbind res_mbind]. rewrite eqb0 by done. rewrite set_arg_ok by lia. cbn [mbind res_mbind].
    change (c :: w ++ t ++ 0 :: rest) with ((c :: w) ++ t ++ 0 :: rest).
    assert (all_sep (fun c => negb (c =? 0) && negb (isblank c)) true (c :: w)) as Hs.
    { apply Forall_forall. intros x Hx. rewrite (all_sep_in _ _ _ _ Hw Hx), eqb0; [done|]. by apply (proj1 (Forall_forall _ _) Hzw). }
    destruct Ht as [->|(b & t' & -> & Hb)].
    + change ([] ++ 0 :: rest) with (0 :: rest). rewrite (skip_ok _ (pre ++ a) (c :: w) 0 rest) by done. cbn [mbind res_mbind]. rewrite (assoc_L (++)), rd_at. cbn [mbind res_mbind Z.eqb].
      rewrite set_arg_ok by (rewrite length_insert; lia). cbn [mbind res_mbind]. rewrite app_nil_r, words_one by done.
      assert (too_many (S turns) (c :: w) = false) as ->.
      { unfold too_many. rewrite words_one by done. cbn [length]. unfold ends_sep. destruct (last (c :: w)) as [x|] eqn:E; [|by apply last_None in E].
        apply last_Some_elem_of in E. rewrite (all_sep_in _ _ _ _ Hw E), andb_false_r. done. }
      rewrite firstn_cons, firstn_nil. cbn [length]. rewrite Nat.add_1_r. exists (a ++ (c :: w) ++ 0 :: rest), (<[S nargs := ANull]> (<[nargs := APtr (length (pre ++ a))]> argv)).
      split; [by rewrite <- !app_assoc|]. split; [|apply list_lookup_insert_eq; rewrite length_insert; lia].
      eapply parsed_cons; [|lia|apply parsed_end; rewrite length_insert; lia]. rewrite (assoc_L (++) pre). by apply str_in_app.
    + change ((b :: t') ++ 0 :: rest) with (b :: t' ++ 0 :: rest). rewrite (skip_ok _ (pre ++ a) (c :: w) b (t' ++ 0 :: rest)); [|done|by rewrite Hb, andb_false_r]. cbn [mbind res_mbind].
      rewrite (assoc_L (++) (pre ++ a)), rd_at. cbn [mbind res_mbind]. apply Forall_cons in Hzt as [Hb0 Hzt]. rewrite eqb0 by done. rewrite wr_app. cbn [mbind res_mbind].
      destruct (IH (((pre ++ a) ++ c :: w) ++ [0]) t' rest (<[nargs := APtr (length (pre ++ a))]> argv) (S nargs)) as (m' & argv' & E & Hp & Hl);
        [done|rewrite length_insert; lia|].
      replace (length (((pre ++ a) ++ c :: w) ++ [0])) with (S (length ((pre ++ a) ++ c :: w))) in E by len.
      rewrite <- !(app_assoc ((pre ++ a) ++ c :: w) [0]) in E. cbn [app] in E.
      rewrite E. change (c :: w ++ b :: t') with ((c :: w) ++ b :: t'). rewrite words_cons, too_many_S by done. rewrite firstn_cons. cbn [length]. rewrite <- Nat.add_succ_comm.
      exists (a ++ (c :: w) ++ 0 :: m'), argv'. assert (((pre ++ a) ++ c :: w) ++ 0 :: m' = pre ++ a ++ (c :: w) ++ 0 :: m') as Em by (by rewrite <- !app_assoc).
      rewrite <- app_assoc in Hp. cbn [app] in Hp. rewrite Em in Hp.
      rewrite Em. split; [done|]. split.
      * eapply parsed_cons; [|lia|exact Hp]. rewrite (assoc_L (++) pre). by apply str_in_app.
      * rewrite Hl. destruct (too_many turns t'); [|done]. rewrite <- Nat.add_succ_comm. apply list_lookup_insert_ne. lia.
Qed.

(** [cmd_parse] cuts a line into its words.  For every zero-terminated line it returns the
    number of its words (separated by blanks and tabs), at most 10, [argv] points to the
    words, each zero-terminated in place, and the cell behind the last one is NULL.  With
    more than ten words, or a blank behind the tenth, it reports "too many args", the
    first ten words are the arguments, and [argv[10]] is never written. *)
Theorem cmd_parse_correct h rest :
  nz h ->
  exists m argv, let ws := take MAXARGS (words isblank h) in
    cmd_parse 0 (h ++ 0 :: rest) local_argv = Ok (length ws, m, argv, if too_many MAXARGS h then [EvTooMany] else []) /\
    length argv = S MAXARGS /\
    (exists ps, Forall2 (str_in m) ps ws /\ forall i p, ps !! i = Some p -> argv !! i = Some (APtr p)) /\
    argv !! length ws = Some (if too_many MAXARGS h then AUninit else ANull).
Proof.
  intros Hh. destruct (cmd_parse_loop_ok MAXARGS [] h rest local_argv 0 Hh) as (m & argv & E & [H1 _ H3] & H4); [vm_compute; lia|].
  exists m, argv. split; [exact E|]. split; [exact H1|]. split; [exact H3|]. cbn [plus] in H4. rewrite H4. by destruct (too_many MAXARGS h).
Qed.

(** "ls  -l" *)
Lemma cmd_parse_correct_witness : exists m argv, let ws := [[108; 115]; [45; 108]] in
  cmd_parse 0 ([108; 115; 32; 32; 45; 108] ++ [0]) local_argv = Ok (2%nat, m, argv, []) /\
  length argv = S MAXARGS /\
  (exists ps, Forall2 (str_in m) ps ws /\ forall i p, ps !! i = Some p -> argv !! i = Some (APtr p)) /\
  argv !! 2%nat = Some ANull.
Proof. apply (cmd_parse_correct [108; 115; 32; 32; 45; 108] []). repeat constructor; discriminate. Defined.

(** ** Execution *)
Definition bytes_ok (w : list Z) : Prop := nz w /\ Forall (fun c => 0 <= c) w.
Definition tbl_ok (tbl : list cmd_tbl) : Prop := Forall (fun c => bytes_ok (c_name c)) tbl.

Lemma find_cmd_ok tbl w rest : tbl_ok tbl -> bytes_ok w ->
  find_cmd tbl (w ++ 0 :: rest) = Ok (fst <$> list_find (fun c => c_name c = w) tbl).
Proof.
  intros Ht [Hw Hw0]. induction Ht as [|c tbl [Hc Hc0] _ IH]; [done|]. cbn [find_cmd]. rewrite strcmp_lex by done. cbn [mbind res_mbind list_find].
  case_decide as Hd.
  - by rewrite (proj2 (lex_zero _ _) Hd).
  - rewrite (proj2 (Z.eqb_neq _ _)) by (by rewrite lex_zero). cbn [negb]. rewrite IH. cbn. by destruct (list_find _ tbl) as [[]|].
Qed.

(** What running the command of the words [ws] does: the first command of the table with
    the first word as its name is called with all the words, between the starting and
    stopping of the counters when it has been marked. *)
Definition args_are (m : mem) (argv : list arg) (ws : list (list Z)) : Prop :=
  (exists ps, Forall2 (str_in m) ps ws /\ forall i p, ps !! i = Some p -> argv !! i = Some (APtr p)) /\
  argv !! length ws = Some ANull.
Definition call_events (c : cmd_tbl) (argc : Z) (argv : list arg) (m : mem) : list event :=
  let marked := negb (Z.land (c_flags c) CMD_FLAG_PERF =? 0) in
  let ret := c_cmd c argc argv m in
  [EvGetoptReset] ++ (if marked then [EvPerfStart] else []) ++ [EvCall (c_name c) argc argv m] ++
  (if marked then [EvPerfStop] else []) ++ [if ret <? 0 then EvFailure ret else EvSuccess ret].
Definition runs (tbl : list cmd_tbl) (ws : list (list Z)) (ev : list event) : Prop :=
  match snd <$> list_find (fun c => c_name c = hd [] ws) tbl with
  | Some c => exists argv m, args_are m argv ws /\ ev = call_events c (Z.of_nat (length ws)) argv m
  | None => ev = [EvNoSuch]
  end.

Lemma cmd_execute_ok tbl argc m argv w ws : tbl_ok tbl -> bytes_ok w -> args_are m argv (w :: ws) -> argc = Z.of_nat (length (w :: ws)) ->
  exists ret ev, cmd_execute tbl argc argv m = Ok (ret, ev) /\ runs tbl (w :: ws) ev.
Proof.
  intros Ht Hw Ha ->. destruct (Ha) as [(ps & Hp & Hi) _]. inversion Hp as [|p ? ps' ? [_ (rest & Hd)] _]; subst.
  unfold cmd_execute, arg_mem, runs. rewrite (Hi 0%nat p) by done. cbn [oob mbind res_mbind]. rewrite Hd, find_cmd_ok by done.
  cbn [mbind res_mbind hd]. destruct (list_find _ tbl) as [[n c]|] eqn:E; cbn [fmap option_fmap option_map fst snd].
  - apply list_find_Some in E as (E & _). rewrite E. cbn [oob mbind res_mbind]. eexists _, _. split; [done|]. by exists argv, m.
  - by eexists _, _.
Qed.

Lemma words_typed line : all_typed line -> Forall bytes_ok (words isblank line).
Proof.
  assert (forall c, typed c = true -> c <> 0 /\ 0 <= c) as T by (intros c Hc%typed_bounds; lia).
  assert (forall c w, typed c = true -> bytes_ok w -> bytes_ok (c :: w)) as C.
  { intros c w Hc [H1 H2]. split; (constructor; [by apply T|done]). }
  assert (forall c, typed c = true -> bytes_ok [c]) as S by (intros; apply C; [done|split; constructor]).
  induction 1 as [|c l Hc Hl IH]; [constructor|]. cbn [words]. destruct (isblank c); [done|]. destruct l as [|d l]; [by constructor; [apply S|]|].
  destruct (isblank d); [by constructor; [apply S|]|]. destruct (words isblank (d :: l)) as [|w ws]; [by constructor; [apply S|]|].
  apply Forall_cons in IH as [Hw Hws]. constructor; [by apply C|done].
Qed.

(** Typing a line into the fresh editor. *)
Lemma typed_line_entered s line : fresh_console s -> all_typed line -> (length line <= 128)%nat ->
  exists s0 s' rest, readline_init s = Ok s0 /\ feed (line ++ [13]) s0 = Ok s' /\
    r_calls s' = [(line ++ 0 :: rest, Z.of_nat (length line))].
Proof.
  intros Hs Hl Hn. destruct (init_rel s Hs) as (s0 & E0 & H0).
  destruct (run_keys (enter_line line) (map (fun c => [c]) line ++ [[13]]) _ s0 H0) as (s' & F & H).
  { apply Forall2_app; [|by repeat constructor]. clear -Hl. induction Hl as [|c l Hc _ IHl]; constructor; [|done]. cbn. rewrite Hc. by constructor. }
  unfold enter_line in H. rewrite foldl_app, type_line in H by (cbn; lia). cbn [foldl ed_key put_line e_l e_r e_hist e_pos e_lines app] in H.
  rewrite app_nil_r in H. pose proof (er_calls _ _ H) as Hc. cbn [e_lines] in Hc.
  apply Forall2_cons_inv_r in Hc as ([b n] & ? & [En (rest & Eb)] & Hc & Ec). apply Forall2_nil_inv_r in Hc as ->. cbn in En, Eb. subst n b.
  exists s0, s', rest. split; [done|]. split; [|done].
  rewrite <- F. f_equal. rewrite concat_app. f_equal. clear. induction line as [|c l IHl]; [done|]. cbn. by rewrite <- IHl.
Qed.

Lemma handler_ok tbl line rest n : tbl_ok tbl -> all_typed line -> (0 < length (words isblank line) < MAXARGS)%nat -> 0 <= n ->
  exists ev, cmd_console_handler tbl (line ++ 0 :: rest) n = Ok (0, ev ++ [EvPrompt]) /\ runs tbl (words isblank line) ev.
Proof.
  intros Ht Hl Hw Hn.
  destruct (cmd_parse_loop_ok MAXARGS [] line rest local_argv 0 (typed_nz _ Hl)) as (m & argv & E & [_ _ Hp] & Hnull); [vm_compute; lia|].
  assert (too_many MAXARGS line = false) as Em.
  { unfold too_many. rewrite (proj2 (Nat.ltb_ge _ _)), (proj2 (Nat.eqb_neq _ _)) by lia. done. }
  pose proof (words_typed line Hl) as Hb. rewrite Em in E, Hnull. rewrite take_ge in E, Hp, Hnull by lia. cbn [plus app length] in E, Hnull, Hp.
  destruct (words isblank line) as [|w ws] eqn:Ew; [cbn in Hw; lia|]. apply Forall_cons in Hb as [Hb _].
  destruct (cmd_execute_ok tbl (Z.of_nat (length (w :: ws))) m argv w ws) as (ret & ev & Ex & Hr); [done|done|by split|done|].
  exists ev. split; [|done]. unfold cmd_console_handler. rewrite (proj2 (Z.ltb_ge _ _)) by lia. unfold cmd_parse. rewrite E.
  cbn [mbind res_mbind length Nat.ltb Nat.leb]. cbn [length] in Ex. by rewrite Ex.
Qed.

(** C19: From the keyboard to the command.  Type any line of printable characters (at most 128,
    at least one and fewer than ten words) and return: the editor calls the console's
    handler with that line, and the handler runs the command that the first word
    names with the words of the line as its arguments, NULL-terminated, or reports that there
    is none; then it prompts. *)
Theorem console_runs_line s line tbl :
  fresh_console s -> tbl_ok tbl -> all_typed line -> (length line <= 128)%nat -> (0 < length (words isblank line) < MAXARGS)%nat ->
  exists s0 s' b ev, readline_init s = Ok s0 /\ feed (line ++ [13]) s0 = Ok s' /\
    r_calls s' = [(b, Z.of_nat (length line))] /\
    cmd_console_handler tbl b (Z.of_nat (length line)) = Ok (0, ev ++ [EvPrompt]) /\
    runs tbl (words isblank line) ev.
Proof.
  intros Hs Ht Hl Hn Hw. destruct (typed_line_entered s line Hs Hl Hn) as (s0 & s' & rest & E0 & E1 & E2).
  destruct (handler_ok tbl line rest (Z.of_nat (length line)) Ht Hl Hw) as (ev & E3 & Hr); [lia|].
  exists s0, s', (line ++ 0 :: rest), ev. done.
Qed.

(** "go x" with the table of the commands "go" and "ls", "go" being marked. *)
Definition two_commands : list cmd_tbl := [MkCmd [103; 111] (fun argc _ _ => argc) 1; MkCmd [108; 115] (fun _ _ _ => -1) 0].

Lemma console_runs_line_witness : exists s0 s' b ev, readline_init blank_state = Ok s0 /\ feed ([103; 111; 32; 120] ++ [13]) s0 = Ok s' /\
  r_calls s' = [(b, 4)] /\ cmd_console_handler two_commands b 4 = Ok (0, ev ++ [EvPrompt]) /\ runs two_commands [[103; 111]; [120]] ev.
Proof.
  apply (console_runs_line blank_state [103; 111; 32; 120] two_commands).
  - exact fresh_blank_state.
  - repeat constructor; discriminate.
  - repeat constructor.
  - cbn. lia.
  - vm_compute. lia.
Defined.

(** ** Batches *)
Definition word_ok (w : list Z) : Prop := w <> [] /\ all_sep isbatch false w /\ bytes_ok w.
(** A command as it is written in a batch: its words with a blank in between. *)
Fixpoint unwords (ws : list (list Z)) : list Z :=
  match ws with [] => [] | [w] => w | w :: ws => w ++ 32 :: unwords ws end.
(** The commands with semicolons in between. *)
Fixpoint unbatch (cmds : list (list (list Z))) : list Z :=
  match cmds with [] => [] | [c] => unwords c | c :: cmds => unwords c ++ 59 :: unbatch cmds end.

Lemma batch_scan pre w x rest : word_ok w -> x = 0 \/ isbatch x = true ->
  skip isbatch (pre ++ w ++ x :: rest) (length pre) = Ok (length pre) /\
  (exists c, rd (pre ++ w ++ x :: rest) (length pre) = Ok c /\ (c =? 0) = false) /\
  skip (fun c => negb (c =? 0) && negb (isbatch c)) (pre ++ w ++ x :: rest) (length pre) = Ok (length (pre ++ w)).
Proof.
  intros (Hn & Hs & Hz & _) Hx. destruct w as [|c w]; [done|]. pose proof Hs as Hs'. apply Forall_cons in Hs' as [Hc _].
  pose proof Hz as Hz'. apply Forall_cons in Hz' as [Hc0 _]. split; [|split].
  - pose proof (skip_ok isbatch pre [] c (w ++ x :: rest)) as E. cbn [app] in *. rewrite E, app_nil_r; [done|constructor|done].
  - exists c. split; [apply rd_at|by apply eqb0].
  - apply skip_ok.
    + apply Forall_forall. intros y Hy. rewrite (all_sep_in _ _ _ _ Hs Hy), eqb0; [done|]. by apply (proj1 (Forall_forall _ _) Hz).
    + destruct Hx as [->| ->]; [done|]. by rewrite andb_false_r.
Qed.

(** One command: [x] is the semicolon or the zero byte behind it. *)
Lemma parse_batch_loop_ok x text ws : x = 0 \/ x = 59 -> forall turns pre argv nargs, ws <> [] -> Forall word_ok ws ->
  (length ws <= turns)%nat -> (nargs + length ws < length argv)%nat ->
  exists m' argv', parse_batch_loop turns (length pre) (pre ++ unwords ws ++ x :: text) argv nargs =
      Ok (if x =? 0 then None else Some (length ((pre ++ m') ++ [0])), Some (nargs + length ws)%nat, (pre ++ m') ++ 0 :: text, argv', []) /\
    parsed ((pre ++ m') ++ 0 :: text) argv argv' nargs ws /\ argv' !! (nargs + length ws)%nat = Some ANull.
Proof.
  intros Hx. induction ws as [|w ws IH]; intros turns pre argv nargs Hne Hw Ht Hn; [done|]. apply Forall_cons in Hw as [Hw Hws].
  destruct turns as [|turns]; [cbn in Ht; lia|]. cbn [parse_batch_loop]. destruct ws as [|w2 ws].
  - cbn [unwords length] in *. destruct (batch_scan pre w x text Hw) as (E1 & (c & E2 & Hc) & Hs); [by destruct Hx as [->| ->]; [left|right]|].
    rewrite E1. cbn [mbind res_mbind]. rewrite E2. cbn [mbind res_mbind]. rewrite Hc. rewrite set_arg_ok by lia. cbn [mbind res_mbind]. rewrite Hs. cbn [mbind res_mbind].
    rewrite (assoc_L (++)), rd_at. cbn [mbind res_mbind]. rewrite set_arg_ok by (rewrite length_insert; lia). cbn [mbind res_mbind].
    exists w, (<[S nargs := ANull]> (<[nargs := APtr (length pre)]> argv)). rewrite Nat.add_1_r. split; [|split].
    + destruct Hx as [->| ->]; cbn [Z.eqb]; [done|]. rewrite wr_app. cbn [mbind res_mbind].
      replace (length ((pre ++ w) ++ [0])) with (S (length (pre ++ w))) by len. done.
    + eapply parsed_cons; [rewrite <- app_assoc; apply str_in_app, Hw|lia|apply parsed_end; rewrite length_insert; lia].
    + apply list_lookup_insert_eq. rewrite length_insert. lia.
  - change (unwords (w :: w2 :: ws)) with (w ++ 32 :: unwords (w2 :: ws)). rewrite <- app_assoc. cbn [app].
    destruct (batch_scan pre w 32 (unwords (w2 :: ws) ++ x :: text) Hw) as (E1 & (c & E2 & Hc) & Hs); [by right|].
    rewrite E1. cbn [mbind res_mbind]. rewrite E2. cbn [mbind res_mbind]. rewrite Hc. rewrite set_arg_ok by lia. cbn [mbind res_mbind]. rewrite Hs. cbn [mbind res_mbind].
    rewrite (assoc_L (++)), rd_at. cbn [mbind res_mbind Z.eqb Pos.eqb]. rewrite wr_app. cbn [mbind res_mbind].
    destruct (IH turns ((pre ++ w) ++ [0]) (<[nargs := APtr (length pre)]> argv) (S nargs)) as (m' & argv' & E & Hp & Hl);
      [done|done|cbn in *; lia|rewrite length_insert; cbn in *; lia|].
    replace (length ((pre ++ w) ++ [0])) with (S (length (pre ++ w))) in E by len. rewrite <- (app_assoc (pre ++ w) [0] (unwords _ ++ _)) in E. cbn [app] in E.
    assert (((pre ++ w) ++ [0]) ++ m' = pre ++ w ++ 0 :: m') as Em by (by rewrite <- !app_assoc). rewrite Em in E, Hp.
    exists (w ++ 0 :: m'), argv'. cbn [length] in *. rewrite <- Nat.add_succ_comm. split; [exact E|]. split; [|done].
    eapply parsed_cons; [|lia|exact Hp]. rewrite <- !app_assoc. cbn [app]. apply str_in_app, Hw.
Qed.

Lemma cmd_batch_loop_ok tbl cmds : tbl_ok tbl -> cmds <> [] ->
  Forall (fun ws => ws <> [] /\ (length ws <= MAXARGS)%nat /\ Forall word_ok ws) cmds -> forall fuel pre rest argv,
  length argv = S MAXARGS -> (length cmds <= fuel)%nat ->
  exists m' evs, cmd_batch_loop fuel tbl (length pre) (pre ++ unbatch cmds ++ 0 :: rest) argv = Ok (m', concat evs ++ [EvPrompt]) /\
    Forall2 (runs tbl) cmds evs.
Proof.
  intros Ht Hne Hc. induction Hc as [|ws cmds (Hn & Hm & Hw) Hc IH]; [done|]. intros fuel pre rest argv Ha Hf.
  destruct fuel as [|fuel]; [cbn in Hf; lia|]. cbn [cmd_batch_loop]. unfold parse_batch.
  assert (exists x text, (pre ++ unbatch (ws :: cmds) ++ 0 :: rest = pre ++ unwords ws ++ x :: text) /\
     ((x = 0 /\ cmds = []) \/ (x = 59 /\ cmds <> [] /\ text = unbatch cmds ++ 0 :: rest))) as (x & text & Et & Hx).
  { destruct cmds as [|c2 cmds]; [exists 0, rest; split; [done|by left]|]. exists 59, (unbatch (c2 :: cmds) ++ 0 :: rest).
    change (unbatch (ws :: c2 :: cmds)) with (unwords ws ++ 59 :: unbatch (c2 :: cmds)). rewrite <- !app_assoc. split; [done|by right]. }
  rewrite Et. destruct (parse_batch_loop_ok x text ws) with (turns := MAXARGS) (pre := pre) (argv := argv) (nargs := 0%nat)
    as (m' & argv' & E & Hp & Hl); [naive_solver|done|done|done|rewrite Ha; lia|].
  rewrite E. cbn [mbind res_mbind default plus]. destruct ws as [|w ws]; [done|]. cbn [length Nat.ltb Nat.leb].
  pose proof (pa_words _ _ _ _ _ Hp) as Hps. pose proof (pa_length _ _ _ _ _ Hp) as Hlen. cbn [plus] in Hps, Hl.
  destruct (cmd_execute_ok tbl (Z.of_nat (S (length ws))) ((pre ++ m') ++ 0 :: text) argv' w ws) as (ret & ev & Ex & Hr);
    [done|by apply Forall_cons in Hw as [(_ & _ & Hw) _]|by split|done|].
  unfold id. rewrite Ex. cbn [mbind res_mbind]. destruct Hx as [[-> ->]|(-> & Hne' & ->)]; cbn [Z.eqb].
  - exists ((pre ++ m') ++ 0 :: text), [ev]. cbn. rewrite app_nil_r. split; [done|]. by constructor.
  - destruct (IH Hne' fuel ((pre ++ m') ++ [0]) rest argv') as (m'' & evs & E' & Hev); [by rewrite Hlen|cbn in Hf; lia|].
    rewrite <- (app_assoc (pre ++ m') [0]) in E'. cbn [app] in E'. rewrite E'. exists m'', (ev :: evs). cbn. rewrite <- app_assoc. split; [done|]. by constructor.
Qed.

(** [cmd_batch] runs the configured commands.  For commands of at most ten words each (no
    blank, semicolon or zero byte in a word), written with a blank between words and a
    semicolon directly behind each command but the last, it ends, runs the commands in
    their order, each with exactly its own words as arguments, and prompts. *)
Theorem cmd_batch_correct tbl cmds rest :
  tbl_ok tbl -> cmds <> [] -> Forall (fun ws => ws <> [] /\ (length ws <= MAXARGS)%nat /\ Forall word_ok ws) cmds ->
  exists m evs, cmd_batch tbl 0 (unbatch cmds ++ 0 :: rest) = Ok (m, concat evs ++ [EvPrompt]) /\ Forall2 (runs tbl) cmds evs.
Proof.
  intros Ht Hn Hc. apply (cmd_batch_loop_ok tbl cmds Ht Hn Hc _ [] rest local_argv); [done|].
  rewrite length_app. clear -Hc. cbn [length]. enough (length cmds <= S (length (unbatch cmds)))%nat by lia.
  induction Hc as [|ws [|c2 cmds] _ Hc IH]; [cbn; lia..|].
  change (unbatch (ws :: c2 :: cmds)) with (unwords ws ++ 59 :: unbatch (c2 :: cmds)). rewrite length_app. cbn [length] in *. lia.
Qed.

(** "go a;ls" *)
Lemma cmd_batch_correct_witness : exists m evs,
  cmd_batch two_commands 0 (unbatch [[[103; 111]; [97]]; [[108; 115]]] ++ [0]) = Ok (m, concat evs ++ [EvPrompt]) /\
  Forall2 (runs two_commands) [[[103; 111]; [97]]; [[108; 115]]] evs.
Proof.
  apply (cmd_batch_correct two_commands [[[103; 111]; [97]]; [[108; 115]]] []).
  - repeat constructor; discriminate.
  - discriminate.
  - repeat constructor; discriminate || (vm_compute; lia).
Defined.

Lemma parse_batch_seps turns pre seps w x rest argv nargs : all_sep isbatch true seps -> word_ok w ->
  parse_batch_loop turns (length pre) (pre ++ seps ++ w ++ x :: rest) argv nargs =
  parse_batch_loop turns (length (pre ++ seps)) ((pre ++ seps) ++ w ++ x :: rest) argv nargs.
Proof.
  intros Hs (Hn & Hw & _). rewrite (app_assoc pre seps (w ++ x :: rest)). destruct turns as [|turns]; [done|]. cbn [parse_batch_loop]. destruct w as [|c w]; [done|].
  apply Forall_cons in Hw as [Hc _]. pose proof (skip_ok isbatch pre seps c (w ++ x :: rest) Hs Hc) as E1.
  pose proof (skip_ok isbatch (pre ++ seps) [] c (w ++ x :: rest) ltac:(constructor) Hc) as E2. cbn [app] in E1, E2 |- *.
  rewrite (app_assoc pre seps) in E1. rewrite app_nil_r in E2. by rewrite E1, E2.
Qed.

(** A blank in front of the semicolon joins the commands.  Of the batch [a ; b] the code
    runs one command, [a] with the argument [b]: once [a] has ended at the blank, the
    semicolon is skipped like white space in front of the next argument. *)
Theorem batch_blank_joins tbl a b :
  tbl_ok tbl -> word_ok a -> word_ok b ->
  exists m ev, cmd_batch tbl 0 (a ++ [32; 59; 32] ++ b ++ [0]) = Ok (m, ev ++ [EvPrompt]) /\ runs tbl [a; b] ev.
Proof.
  intros Ht Ha Hb. unfold cmd_batch. cbn [cmd_batch_loop]. unfold parse_batch. pose (t := 9%nat). change MAXARGS with (S t). cbn [parse_batch_loop].
  destruct (batch_scan [] a 32 ([59; 32] ++ b ++ [0]) Ha) as (E1 & (c & E2 & Hc) & E3); [by right|]. cbn [app length] in E1, E2, E3 |- *.
  rewrite E1. cbn [mbind res_mbind]. rewrite E2. cbn [mbind res_mbind]. rewrite Hc. rewrite set_arg_ok by (vm_compute; lia). cbn [mbind res_mbind].
  rewrite E3. cbn [mbind res_mbind]. rewrite rd_at. cbn [mbind res_mbind Z.eqb Pos.eqb]. rewrite wr_app. cbn [mbind res_mbind].
  assert (S (length a) = length (a ++ [0])) as -> by len.
  assert (a ++ 0 :: 59 :: 32 :: b ++ [0] = (a ++ [0]) ++ [59; 32] ++ b ++ [0]) as -> by (by rewrite <- app_assoc).
  rewrite parse_batch_seps by (done || by repeat constructor).
  destruct (parse_batch_loop_ok 0 [] [b]) with (turns := t) (pre := (a ++ [0]) ++ [59; 32]) (argv := <[0%nat := APtr 0]> local_argv)
    (nargs := 1%nat) as (m' & argv' & E & Hp & Hl); [by left|done|by constructor|cbn; lia|vm_compute; lia|].
  cbn [unwords] in E. rewrite E. cbn [Z.eqb mbind res_mbind default plus length]. unfold id. cbn [Nat.ltb Nat.leb].
  set (m := (((a ++ [0]) ++ [59; 32]) ++ m') ++ [0]) in *.
  assert (args_are m argv' [a; b]) as Har.
  { eapply (parsed_cons m local_argv argv' 0 a [b] 0) in Hp; [split; [apply Hp|done]| |vm_compute; lia].
    pose proof (str_in_app [] a (([59; 32] ++ m') ++ [0])) as Hs. unfold m. rewrite <- !app_assoc in Hs. rewrite <- !app_assoc. apply Hs, Ha. }
  destruct (cmd_execute_ok tbl (Z.of_nat 2) m argv' a [b] Ht) as (ret & ev & Ex & Hr); [apply Ha|done|done|].
  rewrite Ex. cbn [mbind res_mbind]. by exists m, ev.
Qed.

Lemma batch_blank_joins_witness : exists m ev,
  cmd_batch two_commands 0 ([103; 111] ++ [32; 59; 32] ++ [108; 115] ++ [0]) = Ok (m, ev ++ [EvPrompt]) /\ runs two_commands [[103; 111]; [108; 115]] ev.
Proof. apply (batch_blank_joins two_commands [103; 111] [108; 115]); repeat constructor; discriminate. Defined.

(** ** Flags *)
Lemma find_cmd_names m tbl : forall tbl', map c_name tbl' = map c_name tbl -> find_cmd tbl' m = find_cmd tbl m.
Proof.
  induction tbl as [|c tbl IH]; intros [|c' tbl'] H; [done..|]. injection H as Hc H. cbn. rewrite Hc. by rewrite (IH tbl' H).
Qed.

Lemma alter_names f n (tbl : list cmd_tbl) : map c_name (alter (fun c => set_flags (f c) c) n tbl) = map c_name tbl.
Proof. revert n. induction tbl as [|c tbl IH]; intros [|n]; cbn; [done..|]. f_equal. apply IH. Qed.

(** Marking commands.  [cmd_set_flags] with the name of a command of the table sets the
    flags of the first command of that name and of no other, [cmd_clear_flags] behind it
    clears exactly these flags; with another name both say so and change nothing. *)
Theorem cmd_flags_correct tbl w rest flags :
  tbl_ok tbl -> bytes_ok w -> in_u 8 flags ->
  match list_find (fun c => c_name c = w) tbl with
  | None => cmd_set_flags tbl (w ++ 0 :: rest) flags = Ok (false, tbl) /\ cmd_clear_flags tbl (w ++ 0 :: rest) flags = Ok (false, tbl)
  | Some (n, c) =>
      exists t1 t2, cmd_set_flags tbl (w ++ 0 :: rest) flags = Ok (true, t1) /\ cmd_clear_flags t1 (w ++ 0 :: rest) flags = Ok (true, t2) /\
        (forall i, i <> n -> t1 !! i = tbl !! i /\ t2 !! i = tbl !! i) /\
        t1 !! n = Some (set_flags (Z.lor (c_flags c) flags) c) /\
        t2 !! n = Some (set_flags (u8 (Z.land (c_flags c) (Z.lnot flags))) c)
  end.
Proof.
  intros Ht Hw Hf. pose proof (find_cmd_ok tbl w rest Ht Hw) as E. unfold cmd_set_flags, cmd_clear_flags.
  destruct (list_find _ tbl) as [[n c]|] eqn:El; cbn [fmap option_fmap option_map fst] in E; rewrite E; cbn [mbind res_mbind]; [|done].
  apply list_find_Some in El as (El & _). eexists _, _. split; [done|].
  rewrite (find_cmd_names _ tbl), E by apply alter_names. cbn [mbind res_mbind]. split; [done|]. split.
  { intros i Hi. by rewrite !list_lookup_alter_ne by done. }
  rewrite !list_lookup_alter_eq, El. split; [done|]. cbn. unfold set_flags. cbn. do 3 f_equal. apply Z.bits_inj'. intros i Hi.
  rewrite !Z.land_spec, Z.lor_spec, Z.lnot_spec by done. by destruct (Z.testbit (c_flags c) i), (Z.testbit flags i).
Qed.
