(* ===== verification/Printf.v ===== *)
(** * Printf: formatted output

    lib/vsnprintf.c without CONFIG_PRINT_FP: [vsnprintf], which writes to a buffer of a given
    size, and [vtxprintf], which hands every character to a callback.  A format is the
    memory from a pointer on; the variable arguments are a list, and [va_arg] converts an
    integer to the type it is asked for.  [pr] is the buffer and the offset [pos - string].
    Widths and precisions are [int]s: every operation on them is checked by [i32], a result
    that is no [int] being undefined in C, and so is the negation of a 64-bit number. *)
From S2P Require Import Prelude MulDiv CString.
From stdpp Require Import list.
Local Open Scope Z_scope.
Local Open Scope c_scope.

Definition SIGN : Z := 1.
Definition SIGN_PLUS : Z := 2.
Definition SIGN_PLUS_SPACE : Z := 4.
Definition ZEROPAD : Z := 8.
Definition LEFT : Z := 16.
Definition LARGE : Z := 32.
Definition PREFIX : Z := 64.
Definition on (type f : Z) : bool := negb ((type &&& f) =? 0).

(** ** Signed arithmetic *)
Definition signed (w z : Z) : res Z :=
  if (- 2 ^ (w - 1) <=? z) && (z <? 2 ^ (w - 1)) then Ok z else Fault FOverflow.
Abbreviation i32 := (signed 32).
Abbreviation i64 := (signed 64).
(** The counter behind [while (--w >= 0)] and behind [while (w-- > 0)], which run [w] times. *)
Definition counted (w : Z) : res Z := i32 (Z.min w 0 - 1).

(** ** Variable arguments *)
Inductive varg : Type := VInt (z : Z) | VStr (s : option mem).
Definition va_arg_int (args : list varg) : res (Z * list varg) :=
  match args with VInt z :: args => Ok (z, args) | _ => Fault FOob end.
Definition va_arg_str (args : list varg) : res (option mem * list varg) :=
  match args with VStr s :: args => Ok (s, args) | _ => Fault FOob end.
(** ["<NULL>"] *)
Definition null_text : mem := [60; 78; 85; 76; 76; 62; 0].

(** ** Output *)
Record pr : Type := MkPr { p_buf : mem; p_pos : Z }.
Definition bound_string_output (size c : Z) (s : pr) : res pr :=
  b ← (if p_pos s <? size then wr (p_buf s) (Z.to_nat (p_pos s)) c else Ok (p_buf s)); Ok (MkPr b (p_pos s + 1)).
Fixpoint output_list (size : Z) (cs : list Z) (s : pr) : res pr :=
  match cs with [] => Ok s | c :: cs => s ← bound_string_output size c s; output_list size cs s end.
(** A loop that outputs [c] while a counter is positive. *)
Definition output_n (size n c : Z) (s : pr) : res pr := output_list size (replicate (Z.to_nat n) c) s.
Fixpoint bound_string_length (string : mem) (count : Z) : res Z :=
  match string with
  | [] => Fault FOob
  | c :: string => if (c =? 0) || (count =? 0) then Ok 0 else n ← bound_string_length string (count - 1); Ok (u32 (n + 1))
  end.

(** ** Numbers *)
Definition lower_hex_digits : list Z := map Z.of_nat (seq 48 10 ++ seq 97 26).
Definition upper_hex_digits : list Z := map Z.of_nat (seq 48 10 ++ seq 65 26).
(** [digits] behind [pos] in [reversed_string], which has 66 bytes; a 64-bit number has at most 64 digits. *)
Fixpoint put_number_loop (fuel : nat) (number base : Z) (digits pos : list Z) : res (list Z) :=
  if number =? 0 then Ok pos
  else match fuel with
  | O => Fault FHang
  | S fuel =>
      digit_index ← mod64u number base;
      c ← oob (digits !! Z.to_nat digit_index);
      if (length pos <? 66)%nat then put_number_loop fuel (div64u number base) base digits (pos ++ [c]) else Fault FOob
  end.
Definition put_number (number base : Z) (upper : bool) : res (list Z) :=
  let digits := if upper then upper_hex_digits else lower_hex_digits in
  if number =? 0 then Ok [48] else put_number_loop 64 number base digits [].
Definition isdigit (c : Z) : bool := (48 <=? c) && (c <=? 57).
Fixpoint scan_number_loop (w : Z) (string : mem) (number : Z) : res (mem * Z) :=
  match string with
  | [] => Fault FOob
  | c :: t => if isdigit c then scan_number_loop w t (wrap w (wrap w (number * 10) + (c - 48))) else Ok (string, number)
  end.
Definition scan_number (string : mem) : res (mem * Z) := scan_number_loop 64 string 0.

(** [None] is the NULL returned for a base out of range. *)
Definition format_number (size number base width precision type : Z) (s : pr) : res (option pr) :=
  if (base <? 2) || (16 <? base) then Ok None
  else
    let type := if on type LEFT then type &&& u8 (Z.lnot ZEROPAD) else type in
    let need_prefix := on type PREFIX && negb (base =? 10) in
    let upper := on type LARGE in
    let zero := if on type ZEROPAD then 48 else 32 in
    '(sign, number, width) ←
      (if on type SIGN then
         if swrap 64 number <? 0 then n ← i64 (- swrap 64 number); w ← i32 (width - 1); Ok (45, u64 n, w)
         else if on type SIGN_PLUS then w ← i32 (width - 1); Ok (43, number, w)
         else if on type SIGN_PLUS_SPACE then w ← i32 (width - 1); Ok (32, number, w)
         else Ok (0, number, width)
       else Ok (0, number, width));
    width ← (if need_prefix then w ← i32 (width - 1); if base =? 16 then i32 (w - 1) else Ok w else Ok width);
    reversed ← put_number number base upper;
    let i := Z.of_nat (length reversed) in
    let precision := if precision <? i then i else precision in
    width ← i32 (width - precision);
    let pad_left := negb (on type (ZEROPAD ||| LEFT)) in
    s ← (if pad_left then output_n size width 32 s else Ok s);
    width ← (if pad_left then counted width else Ok width);
    s ← (if negb (sign =? 0) then bound_string_output size sign s else Ok s);
    s ← (if need_prefix then
           s ← bound_string_output size 48 s;
           if base =? 16 then bound_string_output size (if upper then 88 else 120) s else Ok s
         else Ok s);
    s ← (if negb (on type LEFT) then output_n size width zero s else Ok s);
    width ← (if negb (on type LEFT) then counted width else Ok width);
    s ← output_n size (precision - i) 48 s;
    s ← output_list size (rev reversed) s;
    s ← output_n size width 32 s;
    _ ← counted width;
    Ok (Some s).

(** ** Directives *)
Fixpoint scan_flags (format : mem) (type : Z) : res (Z * mem) :=
  match format with
  | [] => Fault FOob
  | c :: t =>
      if c =? 35 then scan_flags t (type ||| PREFIX)
      else if c =? 48 then scan_flags t (type ||| ZEROPAD)
      else if c =? 43 then scan_flags t (type ||| SIGN_PLUS)
      else if c =? 32 then scan_flags t (type ||| SIGN_PLUS_SPACE)
      else if c =? 45 then scan_flags t (type ||| LEFT)
      else Ok (type, format)
  end.
(** [scan] is [scan_number] or [skip_atoi]. *)
Definition scan_width (scan : mem -> res (mem * Z)) (format : mem) (type : Z) (args : list varg) : res (Z * Z * mem * list varg) :=
  c ← rd format 0;
  if isdigit c then '(format, number) ← scan format; Ok (s32 number, type, format, args)
  else if c =? 42 then
    '(z, args) ← va_arg_int args;
    let width := s32 z in
    if width <? 0 then w ← i32 (- width); Ok (w, type ||| LEFT, drop 1 format, args)
    else Ok (width, type, drop 1 format, args)
  else Ok (-1, type, format, args).
Definition scan_precision (scan : mem -> res (mem * Z)) (format : mem) (args : list varg) : res (Z * mem * list varg) :=
  c ← rd format 0;
  if c =? 46 then
    let format := drop 1 format in
    c ← rd format 0;
    '(precision, format, args) ←
      (if isdigit c then '(format, number) ← scan format; Ok (s32 number, format, args)
       else if c =? 42 then '(z, args) ← va_arg_int args; Ok (s32 z, drop 1 format, args)
       else Ok (-1, format, args));
    Ok (if precision <? 0 then 0 else precision, format, args)
  else Ok (-1, format, args).
Definition scan_qualifier (format : mem) : res (Z * mem) :=
  c ← rd format 0;
  if (c =? 104) || (c =? 108) || (c =? 76) then
    d ← rd format 1;
    if (c =? 108) && (d =? 108) then Ok (76, drop 2 format) else Ok (c, drop 1 format)
  else Ok (-1, format).
(** Flags, width, precision and qualifier of a directive, behind its percent sign. *)
Definition scan_spec (scan : mem -> res (mem * Z)) (qualifier : mem -> res (Z * mem)) (format : mem) (args : list varg) :
    res (Z * Z * Z * Z * mem * list varg) :=
  '(type, format) ← scan_flags format 0;
  '(width, type, format, args) ← scan_width scan format type args;
  '(precision, format, args) ← scan_precision scan format args;
  '(q, format) ← qualifier format;
  Ok (type, width, precision, q, format, args).
(** The argument of an integer conversion. *)
Definition number_arg (qualifier type z : Z) : Z :=
  if qualifier =? 76 then u64 z
  else if qualifier =? 108 then if on type SIGN then u64 (s32 (u64 z)) else u64 z
  else if qualifier =? 104 then if on type SIGN then u64 (swrap 16 (u16 z)) else u16 z
  else if on type SIGN then u64 (s32 (u32 z)) else u32 z.
Definition format_string (size width precision type : Z) (str : option mem) (s : pr) : res pr :=
  let str := default null_text str in
  length ← bound_string_length str (u64 precision);
  let length := s32 length in
  s ← (if negb (on type LEFT) then output_n size (width - length) 32 s else Ok s);
  width ← (if negb (on type LEFT) then i32 (Z.min width length - 1) else Ok width);
  s ← output_list size (take (Z.to_nat length) str) s;
  s ← output_n size (width - length) 32 s;
  _ ← i32 (Z.min width length - 1);
  Ok s.
Definition format_char (size width type z : Z) (s : pr) : res pr :=
  s ← (if negb (on type LEFT) then output_n size (width - 1) 32 s else Ok s);
  width ← (if negb (on type LEFT) then i32 (Z.min (width - 1) 0) else Ok width);
  s ← bound_string_output size (u8 z) s;
  s ← output_n size (width - 1) 32 s;
  _ ← i32 (Z.min (width - 1) 0);
  Ok s.

(** One turn of the loop consumes a character of the format at least. *)
Fixpoint vsnprintf_loop (fuel : nat) (size : Z) (format : mem) (args : list varg) (s : pr) : res pr :=
  match fuel with
  | O => Fault FHang
  | S fuel =>
      c ← rd format 0;
      if c =? 0 then Ok s
      else if negb (c =? 37) then
        s ← bound_string_output size c s; vsnprintf_loop fuel size (drop 1 format) args s
      else
        '(type, width, precision, qualifier, format, args) ← scan_spec scan_number scan_qualifier (drop 1 format) args;
        c ← rd format 0;
        let next := drop 1 format in
        let number (base type : Z) : res pr :=
          '(z, args) ← va_arg_int args;
          r ← format_number size (number_arg qualifier type z) base width precision type s;
          s ← oob r; vsnprintf_loop fuel size next args s in
        if c =? 37 then s ← bound_string_output size 37 s; vsnprintf_loop fuel size next args s
        else if c =? 99 then
          '(z, args) ← va_arg_int args; s ← format_char size width type z s; vsnprintf_loop fuel size next args s
        else if c =? 115 then
          '(str, args) ← va_arg_str args; s ← format_string size width precision type str s; vsnprintf_loop fuel size next args s
        else if c =? 111 then number 8 type
        else if c =? 88 then number 16 (type ||| LARGE)
        else if c =? 120 then number 16 type
        else if (c =? 100) || (c =? 105) then number 10 (type ||| SIGN)
        else if c =? 117 then number 10 type
        else if c =? 112 then
          let '(width, type) := if width =? -1 then (16, type ||| ZEROPAD) else (width, type) in
          '(z, args) ← va_arg_int args;
          r ← format_number size (u64 z) 16 width precision type s;
          s ← oob r; vsnprintf_loop fuel size next args s
        else
          s ← bound_string_output size 37 s;
          if negb (c =? 0) then s ← bound_string_output size c s; vsnprintf_loop fuel size next args s
          else vsnprintf_loop fuel size format args s
  end.
(** The result: the value returned and the buffer. *)
Definition vsnprintf (string : mem) (size : Z) (format : mem) (args : list varg) : res (Z * mem) :=
  s ← vsnprintf_loop (S (length format)) size format args (MkPr string 0);
  b ← (if 0 <? size then
         if p_pos s <? size then wr (p_buf s) (Z.to_nat (p_pos s)) 0 else wr (p_buf s) (Z.to_nat (size - 1)) 0
       else Ok (p_buf s));
  Ok (s32 (p_pos s), b).

(** ** [vtxprintf]

    Every [call_tx] is followed by [count++]: [count] is the length of what was sent, an
    [int] as well. *)
Definition skip_atoi (ptr : mem) : res (mem * Z) := scan_number_loop 32 ptr 0.
Definition tx_digits (type : Z) : list Z := take 16 (if on type LARGE then upper_hex_digits else lower_hex_digits).
Fixpoint number_digits (fuel : nat) (num base : Z) (digits tmp : list Z) : res (list Z) :=
  if num =? 0 then Ok tmp
  else match fuel with
  | O => Fault FHang
  | S fuel =>
      c ← oob (digits !! Z.to_nat (num mod base));
      if (length tmp <? 66)%nat then number_digits fuel (num / base) base digits (tmp ++ [c]) else Fault FOob
  end.
Definition number (inum base size precision type : Z) : res (list Z) :=
  let digits := tx_digits type in
  let type := if on type LEFT then type &&& Z.lnot ZEROPAD else type in
  let c := if on type ZEROPAD then 48 else 32 in
  '(sign, num, size) ←
    (if on type SIGN then
       if swrap 64 inum <? 0 then n ← i64 (- swrap 64 inum); w ← i32 (size - 1); Ok (45, u64 n, w)
       else if on type SIGN_PLUS then w ← i32 (size - 1); Ok (43, inum, w)
       else if on type SIGN_PLUS_SPACE then w ← i32 (size - 1); Ok (32, inum, w)
       else Ok (0, inum, size)
     else Ok (0, inum, size));
  size ← (if on type PREFIX then
            if base =? 16 then i32 (size - 2) else if base =? 8 then i32 (size - 1) else Ok size
          else Ok size);
  tmp ← (if num =? 0 then Ok [48] else number_digits 64 num base digits []);
  let i := Z.of_nat (length tmp) in
  let precision := if precision <? i then i else precision in
  size ← i32 (size - precision);
  let pad_left := negb (on type (ZEROPAD ||| LEFT)) in
  let o1 := if pad_left then replicate (Z.to_nat size) 32 else [] in
  size ← (if pad_left then counted size else Ok size);
  let o2 := if negb (sign =? 0) then [sign] else [] in
  let o3 := if on type PREFIX then
              (if base =? 8 then [48] else if base =? 16 then [48; if on type LARGE then 88 else 120] else [])
            else [] in
  let o4 := if negb (on type LEFT) then replicate (Z.to_nat size) c else [] in
  size ← (if negb (on type LEFT) then counted size else Ok size);
  let o5 := replicate (Z.to_nat (precision - i)) 48 in
  _ ← counted size;
  Ok (o1 ++ o2 ++ o3 ++ o4 ++ o5 ++ rev tmp ++ replicate (Z.to_nat size) 32).
Definition tx_qualifier (fmt : mem) : res (Z * mem) :=
  c ← rd fmt 0;
  if (c =? 104) || (c =? 108) || (c =? 76) || (c =? 122) || (c =? 106) then
    let fmt := drop 1 fmt in
    d ← rd fmt 0;
    let '(q, fmt) := if d =? 108 then (76, drop 1 fmt) else (c, fmt) in
    d ← rd fmt 0;
    if d =? 104 then Ok (72, drop 1 fmt) else Ok (q, fmt)
  else Ok (-1, fmt).
Definition tx_number_arg (qualifier flags z : Z) : Z :=
  if (qualifier =? 76) || (qualifier =? 108) || (qualifier =? 122) || (qualifier =? 106) then u64 z
  else if qualifier =? 104 then if on flags SIGN then u64 (swrap 16 (u16 z)) else u16 z
  else if qualifier =? 72 then if on flags SIGN then u64 (swrap 8 (u8 z)) else u8 z
  else if on flags SIGN then u64 (s32 z) else u32 z.
Definition tx_string (field_width precision flags : Z) (str : option mem) : res (list Z) :=
  let str := default null_text str in
  len ← strnlen str (Z.to_nat (Z.min (u64 precision) (Z.of_nat (S (length str)))));
  let len := s32 len in
  let o1 := if negb (on flags LEFT) then replicate (Z.to_nat (field_width - len)) 32 else [] in
  field_width ← (if negb (on flags LEFT) then i32 (Z.min field_width len - 1) else Ok field_width);
  _ ← i32 (Z.min field_width len - 1);
  Ok (o1 ++ take (Z.to_nat len) str ++ replicate (Z.to_nat (field_width - len)) 32).
Definition tx_char (field_width flags z : Z) : res (list Z) :=
  let o1 := if negb (on flags LEFT) then replicate (Z.to_nat (field_width - 1)) 32 else [] in
  field_width ← (if negb (on flags LEFT) then i32 (Z.min (field_width - 1) 0) else Ok field_width);
  _ ← i32 (Z.min (field_width - 1) 0);
  Ok (o1 ++ [u8 z] ++ replicate (Z.to_nat (field_width - 1)) 32).
(** What is sent, and the stores of [%n]: the pointer and the count. *)
Fixpoint vtxprintf_loop (fuel : nat) (fmt : mem) (args : list varg) (out : list Z) (stores : list (Z * Z)) : res (list Z * list (Z * Z)) :=
  match fuel with
  | O => Fault FHang
  | S fuel =>
      c ← rd fmt 0;
      if c =? 0 then Ok (out, stores)
      else if negb (c =? 37) then vtxprintf_loop fuel (drop 1 fmt) args (out ++ [c]) stores
      else
        '(flags, field_width, precision, qualifier, fmt, args) ← scan_spec skip_atoi tx_qualifier (drop 1 fmt) args;
        c ← rd fmt 0;
        let next := drop 1 fmt in
        let conv (base flags : Z) :=
          '(z, args) ← va_arg_int args;
          o ← number (tx_number_arg qualifier flags z) base field_width precision flags;
          vtxprintf_loop fuel next args (out ++ o) stores in
        if c =? 99 then
          '(z, args) ← va_arg_int args; o ← tx_char field_width flags z; vtxprintf_loop fuel next args (out ++ o) stores
        else if c =? 115 then
          '(str, args) ← va_arg_str args; o ← tx_string field_width precision flags str; vtxprintf_loop fuel next args (out ++ o) stores
        else if c =? 112 then
          let precision := if (field_width =? -1) && (precision =? -1) then 8 else precision in
          '(z, args) ← va_arg_int args;
          o ← number (u64 z) 16 field_width precision (flags ||| PREFIX);
          vtxprintf_loop fuel next args (out ++ o) stores
        else if c =? 110 then
          '(p, args) ← va_arg_int args; vtxprintf_loop fuel next args out (stores ++ [(p, Z.of_nat (length out))])
        else if c =? 37 then vtxprintf_loop fuel next args (out ++ [37]) stores
        else if c =? 111 then conv 8 flags
        else if c =? 88 then conv 16 (flags ||| LARGE)
        else if c =? 120 then conv 16 flags
        else if (c =? 100) || (c =? 105) then conv 10 (flags ||| SIGN)
        else if c =? 117 then conv 10 flags
        else if negb (c =? 0) then vtxprintf_loop fuel next args (out ++ [37; c]) stores
        else vtxprintf_loop fuel fmt args (out ++ [37]) stores
  end.
Definition vtxprintf (fmt : mem) (args : list varg) : res (Z * list Z * list (Z * Z)) :=
  '(out, stores) ← vtxprintf_loop (S (length fmt)) fmt args [] [];
  count ← i32 (Z.of_nat (length out));
  Ok (count, out, stores).

(** ** Output to the buffer

    What the buffer holds when the text [o] has been output to it: as much of the text as
    fits, then what was there before. *)
Definition st (size : Z) (buf o : list Z) : pr :=
  MkPr (take (Z.to_nat size) o ++ drop (length (take (Z.to_nat size) o)) buf) (Z.of_nat (length o)).

Lemma output_ok size buf o c : 0 <= size <= Z.of_nat (length buf) ->
  bound_string_output size c (st size buf o) = Ok (st size buf (o ++ [c])).
Proof.
  intros Hs. unfold bound_string_output, st. cbn [p_pos p_buf]. rewrite length_app. cbn [length].
  destruct (Z.ltb_spec (Z.of_nat (length o)) size).
  - rewrite !take_ge by len. rewrite Nat2Z.id.
    destruct (drop (length o) buf) as [|x rest] eqn:E; [apply (f_equal length) in E; len|].
    rewrite wr_app. cbn [mbind res_mbind]. rewrite <- app_assoc, length_app. cbn [length app].
    rewrite <- drop_drop, E. cbn [drop]. rewrite drop_0. do 2 f_equal. lia.
  - rewrite take_app_le by lia. cbn [mbind res_mbind]. do 2 f_equal. lia.
Qed.

Lemma output_list_ok size buf : 0 <= size <= Z.of_nat (length buf) -> forall cs o,
  output_list size cs (st size buf o) = Ok (st size buf (o ++ cs)).
Proof.
  intros Hs. induction cs as [|c cs IH]; intros o; cbn [output_list]; [by rewrite app_nil_r|].
  rewrite output_ok by done. cbn [mbind res_mbind]. by rewrite IH, <- app_assoc.
Qed.

(** ** Digits *)
Definition digit_char (upper : bool) (d : Z) : Z := if d <? 10 then 48 + d else (if upper then 55 else 87) + d.
Fixpoint digits (fuel : nat) (base : Z) (upper : bool) (n : Z) : list Z :=
  match fuel with
  | O => []
  | S fuel => if n <? base then [digit_char upper n] else digits fuel base upper (n / base) ++ [digit_char upper (n mod base)]
  end.
(** The numeral of [n], the most significant digit first. *)
Definition num_text (base : Z) (upper : bool) (n : Z) : list Z := digits 64 base upper n.

Lemma digit_lookup (upper : bool) d : 0 <= d < 36 -> (if upper then upper_hex_digits else lower_hex_digits) !! Z.to_nat d = Some (digit_char upper d).
Proof.
  intros Hd. assert (d = Z.of_nat (Z.to_nat d)) as E by lia. rewrite E. rewrite Nat2Z.id. assert (Z.to_nat d < 36)%nat as Hn by lia.
  revert Hn. generalize (Z.to_nat d). clear. intros n Hn. do 36 (destruct n as [|n]; [by destruct upper|]). lia.
Qed.

Lemma digit_char_value upper d : 0 <= d < 36 -> digit_value (digit_char upper d) = Some d.
Proof.
  intros Hd. unfold digit_value, digit_char. destruct (Z.ltb_spec d 10).
  - rewrite !(proj2 (Z.leb_le _ _)) by lia. cbn. f_equal. lia.
  - destruct upper; rewrite ?(proj2 (Z.leb_gt _ 57)), ?(proj2 (Z.leb_gt _ 90)), !(proj2 (Z.leb_le _ _)) by lia;
      rewrite ?andb_false_r; cbn; f_equal; lia.
Qed.

Lemma number_digits_ok base (upper : bool) : 2 <= base <= 16 -> forall fuel n tmp, 0 < n < base ^ Z.of_nat fuel -> (length tmp + fuel <= 66)%nat ->
  number_digits fuel n base (take 16 (if upper then upper_hex_digits else lower_hex_digits)) tmp = Ok (tmp ++ rev (digits fuel base upper n)).
Proof.
  intros Hb. induction fuel as [|fuel IH]; intros n tmp Hn Hl; [cbn in Hn; lia|]. cbn [number_digits digits].
  rewrite (proj2 (Z.eqb_neq n 0)) by lia. pose proof (Z.mod_pos_bound n base ltac:(lia)).
  rewrite lookup_take_lt, digit_lookup by lia. cbn [oob mbind res_mbind]. rewrite (proj2 (Nat.ltb_lt _ _)) by lia.
  destruct (Z.ltb_spec n base).
  - rewrite Z.div_small, Z.mod_small by lia. by destruct fuel.
  - rewrite IH.
    + rewrite rev_app_distr. cbn [rev app]. by rewrite <- app_assoc.
    + rewrite Nat2Z.inj_succ, Z.pow_succ_r in Hn by lia. split; [apply Z.div_str_pos; lia|apply Z.div_lt_upper_bound; lia].
    + len.
Qed.

Lemma put_loop_eq base (upper : bool) : 2 <= base <= 16 -> forall fuel n pos, in_u 64 n ->
  let table := if upper then upper_hex_digits else lower_hex_digits in
  put_number_loop fuel n base table pos = number_digits fuel n base (take 16 table) pos.
Proof.
  intros Hb. induction fuel as [|fuel IH]; intros n pos Hn table; cbn [put_number_loop number_digits]; [done|].
  destruct (n =? 0); [done|]. unfold mod64u, div64u. rewrite modu_correct, div_loop_correct by lia. cbn [mbind res_mbind fst].
  pose proof (Z.mod_pos_bound n base ltac:(lia)). rewrite lookup_take_lt by lia. unfold table. rewrite !digit_lookup by lia.
  cbn [oob mbind res_mbind]. destruct (length pos <? 66)%nat; [|done]. apply IH. split; [apply Z.div_pos; lia|].
  apply Z.div_lt_upper_bound; nia.
Qed.

Lemma digits_positive base n : 2 <= base <= 16 -> 0 < n < 2 ^ 64 -> 0 < n < base ^ Z.of_nat 64.
Proof. intros Hb Hn. split; [lia|]. apply Z.lt_le_trans with (2 ^ 64); [lia|]. apply Z.pow_le_mono_l. lia. Qed.

(** The digits both functions collect, in reverse order. *)
Lemma put_number_ok n base (upper : bool) : 2 <= base <= 16 -> in_u 64 n ->
  put_number n base upper = Ok (rev (num_text base upper n)) /\
  (if n =? 0 then Ok [48] else number_digits 64 n base (take 16 (if upper then upper_hex_digits else lower_hex_digits)) []) =
    Ok (rev (num_text base upper n)).
Proof.
  intros Hb Hn. unfold put_number, num_text. destruct (Z.eqb_spec n 0) as [->|Hne].
  - change (digits 64 base upper 0) with (if 0 <? base then [digit_char upper 0] else digits 63 base upper (0 / base) ++ [digit_char upper (0 mod base)]).
    rewrite (proj2 (Z.ltb_lt 0 base)) by lia. done.
  - rewrite put_loop_eq by done. rewrite number_digits_ok; [done|done|apply digits_positive; lia|cbn; lia].
Qed.

(** What the numeral says: digits of the base that denote the number, at most 64, with no zero in front. *)
Lemma digits_spec base (upper : bool) : 2 <= base <= 16 -> forall fuel n, 0 <= n < base ^ Z.of_nat fuel -> (0 < fuel)%nat ->
  Forall (is_digit base) (digits fuel base upper n) /\ numeral base 0 (digits fuel base upper n) = n /\
  (0 < length (digits fuel base upper n) <= fuel)%nat /\ (0 < n -> hd 0 (digits fuel base upper n) <> 48).
Proof.
  intros Hb. assert (forall d, 0 <= d < base -> is_digit base (digit_char upper d) /\ dv (digit_char upper d) = d) as D.
  { intros d Hd. pose proof (digit_char_value upper d ltac:(lia)) as E. split; [exists d; split; [done|lia]|]. unfold dv. by rewrite E. }
  induction fuel as [|fuel IH]; intros n Hn Hf; [lia|]. cbn [digits]. destruct (Z.ltb_spec n base) as [Hlt|Hge].
  - destruct (D n ltac:(lia)) as [D1 D2]. split; [by repeat constructor|]. split; [unfold numeral; cbn; lia|]. split; [cbn; lia|].
    intros Hp. cbn. unfold digit_char. destruct (n <? 10); [lia|]. destruct upper; lia.
  - destruct fuel as [|fuel]; [cbn in Hn; lia|]. rewrite Nat2Z.inj_succ, Z.pow_succ_r in Hn by lia.
    pose proof (Z.mod_pos_bound n base ltac:(lia)) as Hm. destruct (D _ Hm) as [D1 D2].
    assert (0 < n / base) by (apply Z.div_str_pos; lia).
    destruct (IH (n / base)) as (I1 & I2 & I3 & I4); [split; [lia|apply Z.div_lt_upper_bound; lia]|lia|].
    split; [apply Forall_app; split; [done|by repeat constructor]|]. split; [|split].
    + unfold numeral in *. rewrite foldl_app. cbn [foldl]. rewrite I2, D2. rewrite (Z.div_mod n base) at 3 by lia. lia.
    + len.
    + intros _. destruct (digits (S fuel) base upper (n / base)); [cbn in I3; lia|]. apply I4. lia.
Qed.

Lemma num_text_spec base (upper : bool) n : 2 <= base <= 16 -> in_u 64 n ->
  Forall (is_digit base) (num_text base upper n) /\ numeral base 0 (num_text base upper n) = n /\
  (0 < length (num_text base upper n) <= 64)%nat /\ (0 < n -> hd 0 (num_text base upper n) <> 48).
Proof.
  intros Hb Hn. apply digits_spec; [done| |lia]. split; [lia|]. apply Z.lt_le_trans with (2 ^ 64); [lia|]. apply Z.pow_le_mono_l. lia.
Qed.

(** ** The text of a number

    Sign, prefix and digits (as many as the precision asks for) in a field of at least
    [width] characters: padded with spaces on the left, on the right with the flag [-], or
    with zeros behind sign and prefix with the flag [0]. *)
Definition sign_text (number type : Z) : list Z :=
  if on type SIGN then
    if 2 ^ 63 <=? number then [45] else if on type SIGN_PLUS then [43] else if on type SIGN_PLUS_SPACE then [32] else []
  else [].
Definition prefix_text (base type : Z) : list Z :=
  if on type PREFIX then
    if base =? 16 then [48; if on type LARGE then 88 else 120] else if base =? 8 then [48] else []
  else [].
Definition magnitude (number type : Z) : Z := if on type SIGN && (2 ^ 63 <=? number) then 2 ^ 64 - number else number.
Definition body_text (number base precision type : Z) : list Z :=
  let ds := num_text base (on type LARGE) (magnitude number type) in
  replicate (Z.to_nat (precision - Z.of_nat (length ds))) 48 ++ ds.
Definition number_text (number base width precision type : Z) : list Z :=
  let front := sign_text number type ++ prefix_text base type in
  let body := body_text number base precision type in
  let pad := Z.to_nat (width - Z.of_nat (length (front ++ body))) in
  if on type LEFT then front ++ body ++ replicate pad 32
  else if on type ZEROPAD then front ++ replicate pad 48 ++ body
  else replicate pad 32 ++ front ++ body.

Lemma on_land t m f : on (t &&& m) f = on t (m &&& f).
Proof. unfold on. by rewrite Z.land_assoc. Qed.

Lemma on_0 t : on t 0 = false.
Proof. unfold on. by rewrite Z.land_0_r. Qed.

Lemma on_lor_r t a b : on t (a ||| b) = on t a || on t b.
Proof.
  unfold on. rewrite Z.land_lor_distr_r. destruct (Z.eqb_spec (t &&& a) 0) as [->|Ha]; [by rewrite Z.lor_0_l|].
  cbn [negb orb]. apply negb_true_iff, Z.eqb_neq. intros E. apply Z.lor_eq_0_iff in E as [E _]. done.
Qed.

Lemma on_lor_l t a f : on (t ||| a) f = on t f || on a f.
Proof. unfold on. rewrite !(Z.land_comm _ f). apply (on_lor_r f t a). Qed.

Lemma magnitude_bounds n type : in_u 64 n -> in_u 64 (magnitude n type).
Proof. intros Hn. unfold magnitude. destruct (on type SIGN); cbn [andb]; [|done]. destruct (Z.leb_spec (2 ^ 63) n); lia. Qed.

Lemma swrap64_sign n : in_u 64 n -> (swrap 64 n <? 0) = (2 ^ 63 <=? n) /\ (2 ^ 63 <= n -> u64 (- swrap 64 n) = 2 ^ 64 - n) /\
  (2 ^ 63 <= n -> n <> 2 ^ 63 -> - 2 ^ (64 - 1) <= - swrap 64 n < 2 ^ (64 - 1)).
Proof.
  intros Hn. unfold swrap. change (2 ^ (64 - 1)) with (2 ^ 63). destruct (Z.leb_spec (2 ^ 63) n).
  - assert ((n + 2 ^ 63) mod 2 ^ 64 = n - 2 ^ 63) as E.
    { rewrite <- (Z_mod_plus_full _ (-1)). rewrite Z.mod_small by lia. lia. }
    rewrite E. split; [apply Z.ltb_lt; lia|]. split; [|lia]. intros _. rewrite wrap_id by lia. lia.
  - rewrite Z.mod_small by lia. split; [apply Z.ltb_ge; lia|lia].
Qed.

Lemma output_n_ok size buf n c o : 0 <= size <= Z.of_nat (length buf) ->
  output_n size n c (st size buf o) = Ok (st size buf (o ++ replicate (Z.to_nat n) c)).
Proof. intros. by apply output_list_ok. Qed.

(** The flag [-] overrides the flag [0]. *)
Definition left_type (m type : Z) : Z := if on type LEFT then type &&& m else type.

Lemma left_type_on m type : m = u8 (Z.lnot ZEROPAD) \/ m = Z.lnot ZEROPAD ->
  on (left_type m type) SIGN = on type SIGN /\ on (left_type m type) SIGN_PLUS = on type SIGN_PLUS /\
  on (left_type m type) SIGN_PLUS_SPACE = on type SIGN_PLUS_SPACE /\ on (left_type m type) LEFT = on type LEFT /\
  on (left_type m type) LARGE = on type LARGE /\ on (left_type m type) PREFIX = on type PREFIX /\
  on (left_type m type) ZEROPAD = on type ZEROPAD && negb (on type LEFT).
Proof.
  intros Hm. unfold left_type. destruct (on type LEFT) eqn:E; cbn [negb]; [|by rewrite andb_true_r].
  rewrite !on_land, andb_false_r. destruct Hm as [->| ->]; split_and!; (reflexivity || exact E || apply on_0).
Qed.

Lemma signed_ok w z : - 2 ^ (w - 1) <= z < 2 ^ (w - 1) -> signed w z = Ok z.
Proof. intros Hz. unfold signed. by rewrite (proj2 (Z.leb_le _ _)), (proj2 (Z.ltb_lt _ _)) by lia. Qed.

Lemma i32_ok z : - 2 ^ 31 <= z < 2 ^ 31 -> i32 z = Ok z.
Proof. intros. by apply signed_ok. Qed.

Lemma i32_if (b : bool) w z : - 2 ^ 31 <= z < 2 ^ 31 -> (if b then i32 z else Ok w) = Ok (if b then z else w).
Proof. intros. destruct b; [by rewrite i32_ok|done]. Qed.

Lemma counted_if (b : bool) w : - 2 ^ 31 < w < 2 ^ 31 -> (if b then counted w else Ok w) = Ok (if b then Z.min w 0 - 1 else w).
Proof. intros. unfold counted. apply i32_if. lia. Qed.

Lemma counted_range (b : bool) lo w : lo <= 0 -> lo <= w < 2 ^ 31 -> lo - 1 <= (if b then Z.min w 0 - 1 else w) < 2 ^ 31.
Proof. destruct b; lia. Qed.

Lemma range_weaken (lo lo' w hi : Z) : lo < lo' -> lo' <= w < hi -> lo < w < hi.
Proof. lia. Qed.

(** A signed argument other than the least 64-bit number. *)
Definition negatable (number type : Z) : Prop := on type SIGN = true -> number <> 2 ^ 63.

Lemma sign_step number width type : in_u 64 number -> negatable number type -> - 2 ^ 31 < width < 2 ^ 31 ->
  (if on type SIGN then
     if swrap 64 number <? 0 then n ← i64 (- swrap 64 number); w ← i32 (width - 1); Ok (45, u64 n, w)
     else if on type SIGN_PLUS then w ← i32 (width - 1); Ok (43, number, w)
     else if on type SIGN_PLUS_SPACE then w ← i32 (width - 1); Ok (32, number, w)
     else Ok (0, number, width)
   else Ok (0, number, width)) =
  Ok (hd 0 (sign_text number type), magnitude number type, width - Z.of_nat (length (sign_text number type))).
Proof.
  intros Hn Hm Hw. destruct (swrap64_sign number Hn) as (Es & Em & Ei). unfold sign_text, magnitude, negatable in *. rewrite Es.
  destruct (on type SIGN); cbn [andb]; [|cbn; do 2 f_equal; lia]. rewrite !(i32_ok (width - 1)) by lia. destruct (Z.leb_spec (2 ^ 63) number).
  - rewrite signed_ok by (apply Ei; [done|by apply Hm]). cbn [mbind res_mbind]. rewrite Em by done. done.
  - destruct (on type SIGN_PLUS); [done|]. destruct (on type SIGN_PLUS_SPACE); cbn; [done|]. do 2 f_equal. lia.
Qed.

Lemma sign_output (number type : Z) : (if negb (hd 0 (sign_text number type) =? 0) then [hd 0 (sign_text number type)] else []) = sign_text number type.
Proof. unfold sign_text. by repeat case_match. Qed.

(** The order of the parts, as both functions put them out. *)
Lemma number_layout number base width precision type : 2 <= base <= 16 -> in_u 64 number ->
  let ds := num_text base (on type LARGE) (magnitude number type) in
  let i := Z.of_nat (length ds) in
  let w := width - Z.of_nat (length (sign_text number type)) - Z.of_nat (length (prefix_text base type)) in
  let precision' := if precision <? i then i else precision in
  let left := on type LEFT in let zero := on type ZEROPAD && negb left in
  let w1 := w - precision' in
  let w2 := if negb (zero || left) then Z.min w1 0 - 1 else w1 in
  let w3 := if negb left then Z.min w2 0 - 1 else w2 in
  (if negb (zero || left) then replicate (Z.to_nat w1) 32 else []) ++ sign_text number type ++ prefix_text base type ++
  (if negb left then replicate (Z.to_nat w2) (if zero then 48 else 32) else []) ++
  replicate (Z.to_nat (precision' - i)) 48 ++ ds ++ replicate (Z.to_nat w3) 32 =
  number_text number base width precision type.
Proof.
  intros Hb Hn ds i w precision' left zero w1 w2 w3. unfold number_text, body_text. fold ds i.
  set (front := sign_text number type ++ prefix_text base type).
  assert (Z.to_nat (precision' - i) = Z.to_nat (precision - i)) as Ep by (unfold precision'; destruct (Z.ltb_spec precision i); lia).
  assert (w1 = width - Z.of_nat (length (front ++ replicate (Z.to_nat (precision - i)) 48 ++ ds))) as Ew.
  { unfold w1, w, front, precision', i in *. destruct (Z.ltb_spec precision (Z.of_nat (length ds))); len. }
  rewrite Ep, <- Ew. clear Ep Ew. subst w3 w2 zero left. assert (forall x, Z.to_nat (Z.min x 0 - 1) = 0%nat) as H0 by lia.
  unfold front. destruct (on type LEFT), (on type ZEROPAD); cbn [negb andb orb app]; rewrite ?H0; cbn [replicate app];
    rewrite ?app_nil_r, <- ?app_assoc; done.
Qed.

(** [sign_text] and the like depend on the flags other than [0] only. *)
Lemma texts_left m type number base : m = u8 (Z.lnot ZEROPAD) \/ m = Z.lnot ZEROPAD ->
  sign_text number (left_type m type) = sign_text number type /\ magnitude number (left_type m type) = magnitude number type /\
  prefix_text base (left_type m type) = prefix_text base type.
Proof.
  intros Hm. destruct (left_type_on m type Hm) as (E1 & E2 & E3 & E4 & E5 & E6 & E7).
  unfold sign_text, magnitude, prefix_text. by rewrite E1, E2, E3, E5, E6.
Qed.

Lemma prefix_width base width type : base = 8 \/ base = 10 \/ base = 16 -> - 2 ^ 31 + 2 <= width < 2 ^ 31 ->
  (if on type PREFIX && negb (base =? 10) then w ← i32 (width - 1); if base =? 16 then i32 (w - 1) else Ok w else Ok width) =
    Ok (width - Z.of_nat (length (prefix_text base type))) /\
  (if on type PREFIX then if base =? 16 then i32 (width - 2) else if base =? 8 then i32 (width - 1) else Ok width else Ok width) =
    Ok (width - Z.of_nat (length (prefix_text base type))).
Proof.
  intros Hb Hw. unfold prefix_text. rewrite (i32_ok (width - 1)), (i32_ok (width - 2)) by lia. cbn [mbind res_mbind].
  rewrite (i32_ok (width - 1 - 1)) by lia.
  destruct (on type PREFIX), Hb as [->|[->| ->]]; cbn [andb negb Z.eqb Pos.eqb length Z.of_nat]; split; f_equal; lia.
Qed.

(** No step of the computation of a width leaves [int] when the precision is not within six of its end. *)
Definition width_ok (width precision : Z) : Prop := -1 <= width < 2 ^ 31 /\ precision <= 2 ^ 31 - 7.

Lemma width_bounds number base width precision type : 2 <= base <= 16 -> in_u 64 number -> width_ok width precision ->
  let i := Z.of_nat (length (num_text base (on type LARGE) (magnitude number type))) in
  let w := width - Z.of_nat (length (sign_text number type)) in
  - 2 ^ 31 + 2 <= w < 2 ^ 31 /\
  - 2 ^ 31 + 3 <= w - Z.of_nat (length (prefix_text base type)) - (if precision <? i then i else precision) < 2 ^ 31.
Proof.
  intros Hb Hn [Hw Hp] i w.
  destruct (num_text_spec base (on type LARGE) (magnitude number type)) as (_ & _ & Hi & _); [done|by apply magnitude_bounds|].
  fold i in Hi. assert (length (sign_text number type) <= 1)%nat by (unfold sign_text; repeat case_match; cbn; lia).
  assert (length (prefix_text base type) <= 2)%nat by (unfold prefix_text; repeat case_match; cbn; lia).
  unfold w, i in *. destruct (Z.ltb_spec precision (Z.of_nat (length (num_text base (on type LARGE) (magnitude number type))))); lia.
Qed.

Lemma format_number_ok size buf o number base width precision type :
  0 <= size <= Z.of_nat (length buf) -> base = 8 \/ base = 10 \/ base = 16 -> in_u 64 number ->
  negatable number type -> width_ok width precision ->
  format_number size number base width precision type (st size buf o) =
    Ok (Some (st size buf (o ++ number_text number base width precision type))).
Proof.
  intros Hs Hb Hn Hg Hw. assert (2 <= base <= 16) as Hb' by lia. unfold format_number.
  rewrite (proj2 (Z.ltb_ge base 2)), (proj2 (Z.ltb_ge 16 base)) by lia. cbn [orb]. fold (left_type (u8 (Z.lnot ZEROPAD)) type).
  destruct (left_type_on (u8 (Z.lnot ZEROPAD)) type) as (E1 & E2 & E3 & E4 & E5 & E6 & E7); [by left|].
  destruct (texts_left (u8 (Z.lnot ZEROPAD)) type number base) as (T1 & T2 & T3); [by left|].
  destruct (width_bounds number base width precision type Hb' Hn Hw) as [W1 W2]. pose proof Hw as [Hw' _].
  set (T := left_type (u8 (Z.lnot ZEROPAD)) type) in *.
  rewrite sign_step by (done || lia || (unfold negatable; by rewrite E1)). rewrite T1, T2, E4, E5, E6, on_lor_r, E7, E4.
  cbn [mbind res_mbind]. rewrite (proj1 (prefix_width base _ type Hb W1)). cbn [mbind res_mbind].
  destruct (put_number_ok (magnitude number type) base (on type LARGE)) as [-> _]; [done|by apply magnitude_bounds|].
  cbn [mbind res_mbind]. rewrite length_rev, rev_involutive.
  rewrite i32_ok by lia. cbn [mbind res_mbind].
  rewrite <- (number_layout number base width precision type Hb' Hn). cbv zeta.
  set (ds := num_text base (on type LARGE) (magnitude number type)).
  set (i := Z.of_nat (length ds)). set (p := if precision <? i then i else precision).
  cbv zeta in W2. fold ds in W2. fold i in W2. fold p in W2. set (w1 := _ - _ - _ - p) in *. set (left := on type LEFT). set (zero := on type ZEROPAD && negb left).
  set (w2 := if negb (zero || left) then Z.min w1 0 - 1 else w1). set (w3 := if negb left then Z.min w2 0 - 1 else w2).
  assert (forall (b : bool) n c o', (if b then output_n size n c (st size buf o') else Ok (st size buf o')) =
    Ok (st size buf (o' ++ if b then replicate (Z.to_nat n) c else []))) as On.
  { intros [] n c o'; [by apply output_n_ok|by rewrite app_nil_r]. }
  pose proof (counted_range (negb (zero || left)) (- 2 ^ 31 + 3) w1 ltac:(done) W2) as W2'. fold w2 in W2'.
  pose proof (counted_range (negb left) (- 2 ^ 31 + 3 - 1) w2 ltac:(done) W2') as W3. fold w3 in W3.
  rewrite On. cbn [mbind res_mbind]. rewrite counted_if by lia. cbn [mbind res_mbind]. fold w2.
  assert (forall o', (if negb (hd 0 (sign_text number type) =? 0) then bound_string_output size (hd 0 (sign_text number type)) (st size buf o')
    else Ok (st size buf o')) = Ok (st size buf (o' ++ sign_text number type))) as Os.
  { intros o'. rewrite <- (sign_output number type) at 3. destruct (hd 0 (sign_text number type) =? 0); [by rewrite app_nil_r|by apply output_ok]. }
  rewrite Os. cbn [mbind res_mbind].
  assert (forall o', (if on type PREFIX && negb (base =? 10) then s ← bound_string_output size 48 (st size buf o');
      if base =? 16 then bound_string_output size (if on type LARGE then 88 else 120) s else Ok s else Ok (st size buf o')) =
    Ok (st size buf (o' ++ prefix_text base type))) as Op.
  { intros o'. unfold prefix_text. destruct (on type PREFIX), Hb as [->|[->| ->]]; cbn [andb negb Z.eqb Pos.eqb]; rewrite ?app_nil_r, ?output_ok by done; try done.
    cbn [mbind res_mbind]. rewrite output_ok by done. by rewrite <- app_assoc. }
  rewrite Op. cbn [mbind res_mbind]. rewrite On. cbn [mbind res_mbind]. rewrite counted_if by lia. cbn [mbind res_mbind]. fold w3.
  rewrite output_n_ok by done. cbn [mbind res_mbind].
  rewrite output_list_ok by done. cbn [mbind res_mbind]. rewrite output_n_ok by done. cbn [mbind res_mbind].
  rewrite (counted_if true) by lia. cbn [mbind res_mbind].
  by rewrite <- !app_assoc.
Qed.

Lemma number_ok number' base width precision type : base = 8 \/ base = 10 \/ base = 16 -> in_u 64 number' ->
  negatable number' type -> width_ok width precision ->
  number number' base width precision type = Ok (number_text number' base width precision type).
Proof.
  intros Hb Hn Hg Hw. assert (2 <= base <= 16) as Hb' by lia. unfold number, tx_digits. fold (left_type (Z.lnot ZEROPAD) type).
  destruct (left_type_on (Z.lnot ZEROPAD) type) as (E1 & E2 & E3 & E4 & E5 & E6 & E7); [by right|].
  destruct (texts_left (Z.lnot ZEROPAD) type number' base) as (T1 & T2 & T3); [by right|].
  destruct (width_bounds number' base width precision type Hb' Hn Hw) as [W1 W2]. pose proof Hw as [Hw' _].
  set (T := left_type (Z.lnot ZEROPAD) type) in *.
  rewrite sign_step by (done || lia || (unfold negatable; by rewrite E1)). rewrite T1, T2, E4, E5, E6, on_lor_r, E7, E4.
  cbn [mbind res_mbind]. rewrite (proj2 (prefix_width base _ type Hb W1)). cbn [mbind res_mbind].
  destruct (put_number_ok (magnitude number' type) base (on type LARGE)) as [_ ->]; [done|by apply magnitude_bounds|].
  cbn [mbind res_mbind]. rewrite length_rev, rev_involutive. rewrite i32_ok by lia. cbn [mbind res_mbind].
  pose proof (fun b => counted_range b (- 2 ^ 31 + 3) _ ltac:(done) W2) as W2'.
  rewrite counted_if by lia. cbn [mbind res_mbind]. rewrite counted_if by (eapply range_weaken; [..|apply W2']; lia). cbn [mbind res_mbind].
  rewrite (counted_if true) by (eapply range_weaken; [|apply (counted_range _ (- 2 ^ 31 + 3 - 1)); [|apply W2']]; lia). cbn [mbind res_mbind].
  rewrite <- (number_layout number' base width precision type Hb' Hn), sign_output. cbv zeta. do 3 f_equal.
  assert ((if on type PREFIX then if base =? 8 then [48] else if base =? 16 then [48; if on type LARGE then 88 else 120] else [] else []) =
    prefix_text base type) as ->; [|done].
  unfold prefix_text. destruct (on type PREFIX), Hb as [->|[->| ->]]; done.
Qed.
