(* ===== verification/Format.v ===== *)
(** * Format: what formatted output prints

    The directives of a format as data: how each is written in a format string (flags,
    width, precision, qualifier, conversion), which arguments it takes and which text it
    stands for.  [vsnprintf] and [vtxprintf] (lib/vsnprintf.c, modelled in Printf) read
    every format written from directives and put out their texts. *)
From S2P Require Import Prelude MulDiv CString Printf.
From stdpp Require Import list.
Local Open Scope Z_scope.
Local Open Scope c_scope.

Definition INT_MAX : Z := 2 ^ 31 - 1.

(** ** Directives *)
Inductive wid : Type := WNone | WNum (n : Z) | WStar (z : Z).
Inductive prec : Type := PNone | PDot | PNum (n : Z) | PStar (z : Z).
Inductive qual : Type := QNone | Qh | Ql | Qll | QL.
Inductive iconv : Type := Cd | Ci | Cu | Co | Cx | CX.
Record spec : Type := Spec { sp_flags : list Z; sp_wid : wid; sp_prec : prec; sp_qual : qual }.
Inductive dir : Type :=
  | DLit (c : Z) | DPercent | DInt (sp : spec) (k : iconv) (z : Z) | DChar (sp : spec) (z : Z)
  | DStr (sp : spec) (s : list Z) | DPtr (sp : spec) (z : Z).

Definition is_flag (c : Z) : bool := (c =? 35) || (c =? 48) || (c =? 43) || (c =? 32) || (c =? 45).
Definition flag_type (c : Z) : Z :=
  if c =? 35 then PREFIX else if c =? 48 then ZEROPAD else if c =? 43 then SIGN_PLUS else if c =? 32 then SIGN_PLUS_SPACE else LEFT.

(** How a directive is written. *)
Definition wid_syntax (w : wid) : list Z := match w with WNone => [] | WNum n => num_text 10 false n | WStar _ => [42] end.
Definition prec_syntax (p : prec) : list Z :=
  match p with PNone => [] | PDot => [46] | PNum n => 46 :: num_text 10 false n | PStar _ => [46; 42] end.
Definition qual_syntax (q : qual) : list Z := match q with QNone => [] | Qh => [104] | Ql => [108] | Qll => [108; 108] | QL => [76] end.
Definition iconv_char (k : iconv) : Z := match k with Cd => 100 | Ci => 105 | Cu => 117 | Co => 111 | Cx => 120 | CX => 88 end.
Definition spec_syntax (sp : spec) : list Z :=
  sp_flags sp ++ wid_syntax (sp_wid sp) ++ prec_syntax (sp_prec sp) ++ qual_syntax (sp_qual sp).
Definition dir_syntax (d : dir) : list Z :=
  match d with
  | DLit c => [c] | DPercent => [37; 37]
  | DInt sp k _ => 37 :: spec_syntax sp ++ [iconv_char k] | DChar sp _ => 37 :: spec_syntax sp ++ [99]
  | DStr sp _ => 37 :: spec_syntax sp ++ [115] | DPtr sp _ => 37 :: spec_syntax sp ++ [112]
  end.
(** Its arguments. *)
Definition spec_args (sp : spec) : list varg :=
  match sp_wid sp with WStar z => [VInt z] | _ => [] end ++ match sp_prec sp with PStar z => [VInt z] | _ => [] end.
Definition dir_args (d : dir) : list varg :=
  match d with
  | DLit _ | DPercent => []
  | DInt sp _ z | DChar sp z | DPtr sp z => spec_args sp ++ [VInt z]
  | DStr sp s => spec_args sp ++ [VStr (Some (s ++ [0]))]
  end.
Definition spec_ok (sp : spec) : Prop :=
  Forall (fun c => is_flag c = true) (sp_flags sp) /\
  match sp_wid sp with WNum n => 0 < n < 2 ^ 31 | WStar z => - 2 ^ 31 < z < 2 ^ 31 | WNone => True end /\
  match sp_prec sp with PNum n => 0 <= n < 2 ^ 31 | PStar z => - 2 ^ 31 <= z < 2 ^ 31 | _ => True end.

(** ** Texts *)
Definition spec_type (sp : spec) : Z :=
  let t := foldl (fun t c => t ||| flag_type c) 0 (sp_flags sp) in
  match sp_wid sp with WStar z => if z <? 0 then t ||| LEFT else t | _ => t end.
Definition spec_width (sp : spec) : Z := match sp_wid sp with WNone => -1 | WNum n => n | WStar z => Z.abs z end.
Definition spec_prec (sp : spec) : Z := match sp_prec sp with PNone => -1 | PDot => 0 | PNum n => n | PStar z => Z.max 0 z end.
Definition iconv_base (k : iconv) : Z := match k with Co => 8 | Cx | CX => 16 | _ => 10 end.
Definition iconv_signed (k : iconv) : bool := match k with Cd | Ci => true | _ => false end.
Definition iconv_type (k : iconv) (t : Z) : Z := match k with Cd | Ci => t ||| SIGN | CX => t ||| LARGE | _ => t end.
(** The argument as a 64-bit number: all of it with [L] or [ll], 16 bits with [h], 32 bits
    without a qualifier; with [l] all of it, but 32 bits when it is signed. *)
Definition arg_value (q : qual) (signed : bool) (z : Z) : Z :=
  match q with
  | QL | Qll => u64 z
  | Ql => if signed then u64 (s32 z) else u64 z
  | Qh => if signed then u64 (swrap 16 z) else u16 z
  | QNone => if signed then u64 (s32 z) else u32 z
  end.
(** The directives whose output C defines: for a number the precision leaves room for the
    width to be counted down in an [int], and a signed number is not the least one, which
    has no negative. *)
Definition dir_ok (d : dir) : Prop :=
  match d with
  | DLit c => c <> 0 /\ c <> 37
  | DPercent => True
  | DInt sp k z =>
      spec_ok sp /\ spec_prec sp <= INT_MAX - 6 /\
      (iconv_signed k = true -> arg_value (sp_qual sp) true z <> 2 ^ 63)
  | DChar sp _ => spec_ok sp
  | DStr sp s => spec_ok sp /\ nz s /\ (Z.of_nat (length s) < 2 ^ 31)
  | DPtr sp _ => spec_ok sp /\ spec_prec sp <= INT_MAX - 6
  end.
(** [t] in a field of [width] characters. *)
Definition field (left : bool) (width : Z) (t : list Z) : list Z :=
  let pad := replicate (Z.to_nat (width - Z.of_nat (length t))) 32 in if left then t ++ pad else pad ++ t.
Definition dir_text (d : dir) : list Z :=
  match d with
  | DLit c => [c]
  | DPercent => [37]
  | DInt sp k z =>
      number_text (arg_value (sp_qual sp) (iconv_signed k) z) (iconv_base k) (spec_width sp) (spec_prec sp) (iconv_type k (spec_type sp))
  | DChar sp z => field (on (spec_type sp) LEFT) (spec_width sp) [u8 z]
  | DStr sp s => field (on (spec_type sp) LEFT) (spec_width sp) (if spec_prec sp <? 0 then s else take (Z.to_nat (spec_prec sp)) s)
  | DPtr sp z =>
      let '(w, t) := if spec_width sp =? -1 then (16, spec_type sp ||| ZEROPAD) else (spec_width sp, spec_type sp) in
      number_text (u64 z) 16 w (spec_prec sp) t
  end.

Definition syntax (ds : list dir) : list Z := concat (map dir_syntax ds).
Definition arguments (ds : list dir) : list varg := concat (map dir_args ds).
Definition text (ds : list dir) : list Z := concat (map dir_text ds).

(** ** Reading a directive *)
Lemma scan_flags_ok fl : forall c t ty, Forall (fun c => is_flag c = true) fl -> is_flag c = false ->
  scan_flags (fl ++ c :: t) ty = Ok (foldl (fun t c => t ||| flag_type c) ty fl, c :: t).
Proof.
  induction fl as [|f fl IH]; intros c t ty Hf Hc; cbn [app scan_flags foldl].
  - unfold is_flag in Hc. by repeat (destruct (c =? _); [done|]).
  - apply Forall_cons in Hf as [Hf Hfl]. unfold is_flag in Hf. unfold flag_type at 2.
    repeat (destruct (f =? _); [by rewrite IH|]). done.
Qed.

Lemma digit_isdigit c : is_digit 10 c -> isdigit c = true /\ dv c = c - 48.
Proof.
  intros (d & Hd & Hlt). unfold isdigit, dv. rewrite Hd. unfold digit_value in Hd. destruct ((48 <=? c) && (c <=? 57)); [by injection Hd as <-|].
  destruct ((65 <=? c) && (c <=? 90)) eqn:E; [injection Hd as <-; lia|]. destruct ((97 <=? c) && (c <=? 122)) eqn:E'; [injection Hd as <-; lia|done].
Qed.

Lemma scan_number_loop_ok w c t ds : 0 < w -> isdigit c = false -> forall acc, 0 <= acc -> Forall (is_digit 10) ds -> numeral 10 acc ds < 2 ^ w ->
  scan_number_loop w (ds ++ c :: t) acc = Ok (c :: t, numeral 10 acc ds).
Proof.
  intros Hw Hc. induction ds as [|d ds IH]; intros acc Ha Hd Hn; cbn [app scan_number_loop]; [by rewrite Hc|].
  apply Forall_cons in Hd as [Hd Hds]. destruct (digit_isdigit _ Hd) as [-> Ev].
  assert (numeral 10 acc (d :: ds) = numeral 10 (acc * 10 + (d - 48)) ds) as E by (unfold numeral; cbn; by rewrite Ev). rewrite E in *.
  assert (0 <= d - 48) as H0. { destruct Hd as (x & Hx & _). rewrite <- Ev. unfold dv. rewrite Hx. cbn. apply digit_value_bounds in Hx as [? _]. lia. }
  pose proof (numeral_mono 10 ds (acc * 10 + (d - 48)) ltac:(lia) ltac:(lia) Hds).
  rewrite (wrap_id w (acc * 10)) by lia. rewrite wrap_id by lia. apply IH; [lia|done|done].
Qed.

(** What a scanner of numbers does. *)
Definition scans (scan : mem -> res (mem * Z)) : Prop :=
  forall n c t, 0 <= n < 2 ^ 31 -> isdigit c = false -> scan (num_text 10 false n ++ c :: t) = Ok (c :: t, n).

Lemma scans_both : scans scan_number /\ scans skip_atoi.
Proof.
  assert (forall w n c t, 31 <= w -> 0 <= n < 2 ^ 31 -> isdigit c = false ->
    scan_number_loop w (num_text 10 false n ++ c :: t) 0 = Ok (c :: t, n)) as H; [|by split; intros n c t Hn Hc; apply H].
  intros w n c t Hw Hn Hc. assert (2 ^ 31 <= 2 ^ w) by (apply Z.pow_le_mono_r; lia).
  destruct (num_text_spec 10 false n) as (D1 & D2 & _); [lia..|]. rewrite <- D2 at 2. apply scan_number_loop_ok; (done || lia).
Qed.

(** A character that ends a specification. *)
Definition stops (c : Z) : Prop := c ∈ [100; 105; 117; 111; 120; 88; 99; 115; 112; 37].
Definition qual_code (q : qual) : Z := match q with QNone => -1 | Qh => 104 | Ql => 108 | Qll | QL => 76 end.
Definition qualifies (scan : mem -> res (Z * mem)) : Prop :=
  forall q c t, stops c -> scan (qual_syntax q ++ c :: t) = Ok (qual_code q, c :: t).

Ltac each_elem H := repeat (apply elem_of_cons in H as [->|H]); try (by apply elem_of_nil in H).

Lemma qualifies_both : qualifies scan_qualifier /\ qualifies tx_qualifier.
Proof. split; intros q c t Hc; unfold stops in Hc; each_elem Hc; destruct q; reflexivity. Qed.

Lemma num_text_cons n : 0 <= n < 2 ^ 31 -> exists d ds, num_text 10 false n = d :: ds /\ isdigit d = true /\ (0 < n -> is_flag d = false).
Proof.
  intros Hn. destruct (num_text_spec 10 false n) as (D1 & D2 & D3 & D4); [lia..|]. destruct (num_text 10 false n) as [|d ds]; [cbn in D3; lia|].
  apply Forall_cons in D1 as [D1 _]. destruct (digit_isdigit _ D1) as [E _]. exists d, ds. split; [done|]. split; [done|]. intros H%D4. cbn in H.
  unfold isdigit in E. unfold is_flag. rewrite !(proj2 (Z.eqb_neq d _)) by lia. done.
Qed.

Lemma s32_small z : - 2 ^ 31 <= z < 2 ^ 31 -> s32 z = z.
Proof. intros. by apply swrap_id. Qed.

Lemma scan_width_ok scan w x rest ty a : scans scan -> isdigit x = false -> x <> 42 ->
  match w with WNum n => 0 < n < 2 ^ 31 | WStar z => - 2 ^ 31 < z < 2 ^ 31 | WNone => True end ->
  scan_width scan (wid_syntax w ++ x :: rest) ty (match w with WStar z => [VInt z] | _ => [] end ++ a) =
    Ok (match w with WNone => -1 | WNum n => n | WStar z => Z.abs z end,
        match w with WStar z => if z <? 0 then ty ||| LEFT else ty | _ => ty end, x :: rest, a).
Proof.
  intros Hs Hx H42 Hw. unfold scan_width. destruct w as [|n|z]; cbn [wid_syntax app].
  - cbn. rewrite Hx. by rewrite (proj2 (Z.eqb_neq x 42)).
  - destruct (num_text_cons n) as (d & ds & E & Hd & _); [lia|]. assert (rd (num_text 10 false n ++ x :: rest) 0 = Ok d) as -> by (by rewrite E).
    cbn [mbind res_mbind]. rewrite Hd, Hs by (done || lia). cbn. by rewrite s32_small by lia.
  - cbn. rewrite s32_small by lia. rewrite ?drop_0. destruct (Z.ltb_spec z 0).
    + rewrite i32_ok by lia. cbn. do 4 f_equal. lia.
    + do 4 f_equal. lia.
Qed.

Lemma scan_precision_ok scan p x rest a : scans scan -> isdigit x = false -> x <> 42 -> x <> 46 ->
  match p with PNum n => 0 <= n < 2 ^ 31 | PStar z => - 2 ^ 31 <= z < 2 ^ 31 | _ => True end ->
  scan_precision scan (prec_syntax p ++ x :: rest) (match p with PStar z => [VInt z] | _ => [] end ++ a) =
    Ok (match p with PNone => -1 | PDot => 0 | PNum n => n | PStar z => Z.max 0 z end, x :: rest, a).
Proof.
  intros Hs Hx H42 H46 Hp. unfold scan_precision. destruct p as [| |n|z]; cbn [prec_syntax app].
  - cbn. by rewrite (proj2 (Z.eqb_neq x 46)).
  - cbn. by rewrite Hx, (proj2 (Z.eqb_neq x 42)).
  - cbn [rd lookup list_lookup oob mbind res_mbind]. change (46 =? 46) with true. cbn [drop]. rewrite ?drop_0.
    destruct (num_text_cons n) as (d & ds & E & Hd & _); [lia|]. assert (rd (num_text 10 false n ++ x :: rest) 0 = Ok d) as -> by (by rewrite E).
    cbn [mbind res_mbind]. rewrite Hd, Hs by (done || lia). cbn [mbind res_mbind]. rewrite s32_small, (proj2 (Z.ltb_ge n 0)) by lia. done.
  - cbn. rewrite s32_small, ?drop_0 by lia. destruct (Z.ltb_spec z 0); do 3 f_equal; lia.
Qed.

Lemma scan_spec_ok scan qualifier sp c t a : scans scan -> qualifies qualifier -> spec_ok sp -> stops c ->
  scan_spec scan qualifier (spec_syntax sp ++ c :: t) (spec_args sp ++ a) =
    Ok (spec_type sp, spec_width sp, spec_prec sp, qual_code (sp_qual sp), c :: t, a).
Proof.
  intros Hs Hq (Hf & Hw & Hp) Hc. destruct sp as [fl w p q]. cbn [sp_flags sp_wid sp_prec sp_qual] in *.
  unfold scan_spec, spec_syntax, spec_args, spec_type, spec_width, spec_prec. cbn [sp_flags sp_wid sp_prec sp_qual]. rewrite <- !app_assoc.
  assert (exists x xs, qual_syntax q ++ c :: t = x :: xs /\ is_flag x = false /\ isdigit x = false /\ x <> 42 /\ x <> 46) as (x & xs & Ex & X1 & X2 & X3 & X4).
  { destruct q; cbn [qual_syntax app]; eexists _, _; (split; [done|]); try done. unfold stops in Hc. each_elem Hc; done. }
  assert (exists y ys, prec_syntax p ++ x :: xs = y :: ys /\ is_flag y = false /\ isdigit y = false /\ y <> 42) as (y & ys & Ey & Y1 & Y2 & Y3).
  { destruct p; cbn [prec_syntax app]; eexists _, _; (split; [done|]); done. }
  assert (exists v vs, wid_syntax w ++ y :: ys = v :: vs /\ is_flag v = false) as (v & vs & Ev & V1).
  { destruct w as [|n|z]; cbn [wid_syntax app]; [by eexists _, _| |by eexists _, _].
    destruct (num_text_cons n) as (d & ds & -> & _ & Hd); [lia|]. eexists _, _. split; [done|]. apply Hd. lia. }
  rewrite Ex, Ey, Ev, scan_flags_ok by done. cbn [mbind res_mbind]. rewrite <- Ev, scan_width_ok by done. cbn [mbind res_mbind].
  rewrite <- Ey, scan_precision_ok by done. cbn [mbind res_mbind]. rewrite <- Ex, Hq by done. done.
Qed.

(** ** The conversions *)
Lemma swrap_wrap w v z : 0 < w <= v -> swrap w (wrap v z) = swrap w z.
Proof.
  intros Hw. unfold swrap, wrap. f_equal. rewrite Zplus_mod, (Zplus_mod z). f_equal. f_equal.
  apply Z.mod_mod_divide. exists (2 ^ (v - w)). rewrite <- Z.pow_add_r by lia. f_equal. lia.
Qed.

Lemma number_arg_ok q k t z : on t SIGN = false -> number_arg (qual_code q) (iconv_type k t) z = arg_value q (iconv_signed k) z.
Proof.
  intros Ht. assert (on (iconv_type k t) SIGN = iconv_signed k) as E.
  { destruct k; cbn [iconv_type iconv_signed]; rewrite ?on_lor_l, Ht; reflexivity. }
  unfold number_arg, arg_value. rewrite E. destruct q; cbn [qual_code Z.eqb Pos.eqb]; destruct (iconv_signed k); rewrite ?swrap_wrap by lia; reflexivity.
Qed.

Lemma arg_value_bounds q b z : in_u 64 (arg_value q b z).
Proof.
  unfold arg_value. pose proof (wrap_range 64 z). pose proof (wrap_range 32 z). pose proof (wrap_range 16 z).
  destruct q, b; try (apply wrap_range; lia); lia.
Qed.

(** No flag means "signed" or upper case. *)
Lemma spec_type_flags sp f : spec_ok sp -> f = SIGN \/ f = LARGE -> on (spec_type sp) f = false.
Proof.
  intros (Hf & _) Hg. assert (on (foldl (fun t c => t ||| flag_type c) 0 (sp_flags sp)) f = false) as E.
  { assert (forall fl t, Forall (fun c => is_flag c = true) fl -> on t f = false -> on (foldl (fun t c => t ||| flag_type c) t fl) f = false) as G.
    { induction fl as [|c fl IH]; intros t H Ht; [done|]. apply Forall_cons in H as [_ H]. apply IH; [done|]. rewrite on_lor_l, Ht.
      unfold flag_type. repeat case_match; destruct Hg as [->| ->]; reflexivity. }
    apply G; [done|]. by destruct Hg as [->| ->]. }
  unfold spec_type. destruct (sp_wid sp) as [| |z]; [done..|]. destruct (z <? 0); [|done]. rewrite on_lor_l, E. destruct Hg as [->| ->]; reflexivity.
Qed.

Lemma bound_string_length_ok s : nz s -> Z.of_nat (length s) < 2 ^ 31 -> forall count, 0 <= count ->
  bound_string_length (s ++ [0]) count = Ok (Z.min (Z.of_nat (length s)) count).
Proof.
  induction 1 as [|c s Hc _ IH]; intros Hl count Hn; cbn [app bound_string_length length] in *; [f_equal; lia|].
  rewrite eqb0 by done. cbn [orb]. destruct (Z.eqb_spec count 0) as [->|]; [f_equal; lia|].
  rewrite IH by lia. cbn [mbind res_mbind]. rewrite wrap_id by lia. f_equal. lia.
Qed.

Lemma strnlen_ok s : nz s -> forall count, strnlen (s ++ [0]) count = Ok (Z.of_nat (Nat.min count (length s))).
Proof.
  induction 1 as [|c s Hc _ IH]; intros [|count]; cbn [app strnlen length]; [done..|]. rewrite eqb0, IH by done. cbn. f_equal. lia.
Qed.

(** The part of a string that a precision leaves. *)
Definition clip (p : Z) (s : list Z) : list Z := if p <? 0 then s else take (Z.to_nat p) s.

Lemma clip_length p s : -1 <= p < 2 ^ 31 -> Z.of_nat (length s) < 2 ^ 31 ->
  Z.min (Z.of_nat (length s)) (u64 p) = Z.of_nat (length (clip p s)) /\ take (length (clip p s)) (s ++ [0]) = clip p s.
Proof.
  intros Hp Hs. unfold clip. destruct (Z.ltb_spec p 0).
  - assert (p = -1) as -> by lia. change (u64 (-1)) with (2 ^ 64 - 1). split; [lia|]. by rewrite take_app_length.
  - rewrite wrap_id by lia. rewrite length_take. split; [lia|]. rewrite take_app_le by lia.
    destruct (decide (Z.to_nat p <= length s)%nat); [by rewrite Nat.min_l|]. by rewrite Nat.min_r, !take_ge by lia.
Qed.

Lemma field_layout (left : bool) width t :
  (if negb left then replicate (Z.to_nat (width - Z.of_nat (length t))) 32 else []) ++ t ++
  replicate (Z.to_nat ((if negb left then Z.min width (Z.of_nat (length t)) - 1 else width) - Z.of_nat (length t))) 32 = field left width t.
Proof.
  unfold field. destruct left; cbn [negb app]; [done|]. replace (Z.to_nat (Z.min _ _ - 1 - _)) with 0%nat by lia. cbn. by rewrite app_nil_r.
Qed.

Lemma spec_prec_bounds sp : spec_ok sp -> -1 <= spec_prec sp < 2 ^ 31.
Proof. intros (_ & _ & H). unfold spec_prec. destruct (sp_prec sp); lia. Qed.

Lemma spec_width_bounds sp : spec_ok sp -> -1 <= spec_width sp < 2 ^ 31.
Proof. intros (_ & H & _). unfold spec_width. destruct (sp_wid sp); lia. Qed.

Lemma negatable_unsigned n t : on t SIGN = false -> negatable n t.
Proof. unfold negatable. by intros ->. Qed.

(** What [format_number] and [number] need of the directive for an integer. *)
Lemma int_dir_ok sp k z : dir_ok (DInt sp k z) ->
  negatable (arg_value (sp_qual sp) (iconv_signed k) z) (iconv_type k (spec_type sp)) /\ width_ok (spec_width sp) (spec_prec sp).
Proof.
  cbn [dir_ok]. intros (Hs & Hp & Hk). pose proof (spec_type_flags sp SIGN Hs (or_introl eq_refl)) as E. split.
  - destruct (iconv_signed k) eqn:Ek; [by intros _; apply Hk|]. apply negatable_unsigned.
    destruct k; cbn [iconv_signed iconv_type] in *; rewrite ?on_lor_l, ?E; done.
  - unfold INT_MAX in Hp. pose proof (spec_width_bounds sp Hs). unfold width_ok. lia.
Qed.

Section output.
  Context (size : Z) (buf : mem) (Hs : 0 <= size <= Z.of_nat (length buf)).

Lemma format_char_ok width t z o : -1 <= width < 2 ^ 31 -> format_char size width t z (st size buf o) = Ok (st size buf (o ++ field (on t LEFT) width [u8 z])).
Proof using Hs.
  intros Hw. unfold format_char. rewrite i32_if by lia. rewrite <- field_layout. cbn [length]. change (Z.of_nat 1) with 1.
  replace (Z.min (width - 1) 0) with (Z.min width 1 - 1) by lia.
  destruct (on t LEFT); cbn [negb app]; rewrite ?output_n_ok by done; cbn [mbind res_mbind]; rewrite output_ok by done; cbn [mbind res_mbind];
    rewrite output_n_ok by done; cbn [mbind res_mbind]; rewrite i32_ok by lia; cbn [mbind res_mbind]; by rewrite <- ?app_assoc.
Qed.

Lemma format_string_ok width p t s o : nz s -> Z.of_nat (length s) < 2 ^ 31 -> -1 <= p < 2 ^ 31 -> -1 <= width < 2 ^ 31 ->
  format_string size width p t (Some (s ++ [0])) (st size buf o) = Ok (st size buf (o ++ field (on t LEFT) width (clip p s))).
Proof using Hs.
  intros Hz Hl Hp Hw. unfold format_string. cbn [default id]. pose proof (wrap_range 64 p ltac:(lia)).
  rewrite bound_string_length_ok by (done || lia). cbn [mbind res_mbind]. destruct (clip_length p s Hp Hl) as [E1 E2].
  rewrite E1, s32_small by lia. rewrite i32_if by lia. rewrite Nat2Z.id, E2, <- field_layout.
  destruct (on t LEFT); cbn [negb app]; rewrite ?output_n_ok by done; cbn [mbind res_mbind]; rewrite output_list_ok by done; cbn [mbind res_mbind];
    rewrite output_n_ok by done; cbn [mbind res_mbind]; rewrite i32_ok by lia; cbn [mbind res_mbind]; by rewrite <- ?app_assoc.
Qed.

(** One directive is one turn of the loop. *)
Lemma vsnprintf_step fuel d f a o : dir_ok d ->
  vsnprintf_loop (S fuel) size (dir_syntax d ++ f) (dir_args d ++ a) (st size buf o) =
  vsnprintf_loop fuel size f a (st size buf (o ++ dir_text d)).
Proof using Hs.
  intros Hd. destruct scans_both as [Hsc _]. destruct qualifies_both as [Hq _].
  destruct d as [c| |sp k z|sp z|sp s|sp z]; cbn [dir_syntax dir_args dir_ok dir_text] in *.
  - cbn [vsnprintf_loop app rd lookup list_lookup oob mbind res_mbind drop]. destruct Hd as [H0 H37].
    rewrite eqb0, (proj2 (Z.eqb_neq c 37)), output_ok by done. cbn [negb mbind res_mbind]. by rewrite ?drop_0.
  - pose proof (scan_spec_ok scan_number scan_qualifier (Spec [] WNone PNone QNone) 37 f a Hsc Hq) as E.
    cbn [vsnprintf_loop app rd lookup list_lookup oob mbind res_mbind drop Z.eqb Pos.eqb negb]. rewrite ?drop_0.
    unfold spec_syntax, spec_args in E. cbn [sp_flags sp_wid sp_prec sp_qual wid_syntax prec_syntax qual_syntax app] in E.
    rewrite E by (by repeat constructor). cbn [mbind res_mbind rd lookup list_lookup oob Z.eqb Pos.eqb]. rewrite output_ok by done. cbn. by rewrite ?drop_0.
  - cbn [vsnprintf_loop app]. rewrite <- !app_assoc. cbn [rd lookup list_lookup oob mbind res_mbind drop Z.eqb Pos.eqb negb app]. rewrite ?drop_0.
    destruct (int_dir_ok sp k z Hd) as [Hg Hw]. destruct Hd as (Hd & _).
    rewrite scan_spec_ok; [|done..|destruct k; by repeat constructor]. cbn [mbind res_mbind rd lookup list_lookup oob drop]. rewrite ?drop_0.
    pose proof (number_arg_ok (sp_qual sp) k (spec_type sp) z (spec_type_flags sp SIGN Hd (or_introl eq_refl))) as En.
    pose proof (arg_value_bounds (sp_qual sp) (iconv_signed k) z) as Hv. rewrite <- En in Hv, Hg |- *.
    destruct k; cbn [iconv_char iconv_base iconv_type Z.eqb Pos.eqb orb va_arg_int mbind res_mbind] in *; rewrite format_number_ok by (done || auto); done.
  - cbn [vsnprintf_loop app]. rewrite <- !app_assoc. cbn [rd lookup list_lookup oob mbind res_mbind drop Z.eqb Pos.eqb negb app]. rewrite ?drop_0.
    rewrite scan_spec_ok; [|done..|by repeat constructor]. cbn [mbind res_mbind rd lookup list_lookup oob drop Z.eqb Pos.eqb va_arg_int]. rewrite ?drop_0.
    by rewrite format_char_ok by (by apply spec_width_bounds).
  - cbn [vsnprintf_loop app]. rewrite <- !app_assoc. cbn [rd lookup list_lookup oob mbind res_mbind drop Z.eqb Pos.eqb negb app]. rewrite ?drop_0.
    destruct Hd as (Hd & Hz & Hl).
    rewrite scan_spec_ok; [|done..|by repeat constructor]. cbn [mbind res_mbind rd lookup list_lookup oob drop Z.eqb Pos.eqb va_arg_str]. rewrite ?drop_0.
    by rewrite format_string_ok by (done || by apply spec_prec_bounds || by apply spec_width_bounds).
  - cbn [vsnprintf_loop app]. rewrite <- !app_assoc. cbn [rd lookup list_lookup oob mbind res_mbind drop Z.eqb Pos.eqb negb app]. rewrite ?drop_0.
    destruct Hd as (Hd & Hp). unfold INT_MAX in Hp. pose proof (spec_width_bounds sp Hd).
    pose proof (spec_type_flags sp SIGN Hd (or_introl eq_refl)) as Et.
    rewrite scan_spec_ok; [|done..|by repeat constructor]. cbn [mbind res_mbind rd lookup list_lookup oob drop Z.eqb Pos.eqb orb va_arg_int]. rewrite ?drop_0.
    destruct (spec_width sp =? -1); cbn [mbind res_mbind]; (rewrite format_number_ok; [done|done|auto|apply wrap_range; lia| |unfold width_ok; lia]);
      apply negatable_unsigned; rewrite ?on_lor_l, ?Et; done.
Qed.
End output.

Lemma tx_number_arg_ok q k t z : on t SIGN = false -> q <> Ql \/ iconv_signed k = false ->
  tx_number_arg (qual_code q) (iconv_type k t) z = arg_value q (iconv_signed k) z.
Proof.
  intros Ht Hq. assert (on (iconv_type k t) SIGN = iconv_signed k) as E.
  { destruct k; cbn [iconv_type iconv_signed]; rewrite ?on_lor_l, Ht; reflexivity. }
  unfold tx_number_arg, arg_value. rewrite E. destruct q; cbn [qual_code Z.eqb Pos.eqb orb]; destruct (iconv_signed k); rewrite ?swrap_wrap by lia;
    try reflexivity. by destruct Hq.
Qed.

Lemma tx_char_ok width t z : -1 <= width < 2 ^ 31 -> tx_char width t z = Ok (field (on t LEFT) width [u8 z]).
Proof.
  intros Hw. unfold tx_char. rewrite i32_if by lia. cbn [mbind res_mbind]. rewrite i32_ok by (destruct (negb _); lia). cbn [mbind res_mbind].
  rewrite <- field_layout. cbn [length]. change (Z.of_nat 1) with 1.
  by replace (Z.min (width - 1) 0) with (Z.min width 1 - 1) by lia.
Qed.

Lemma tx_string_ok width p t s : nz s -> Z.of_nat (length s) < 2 ^ 31 -> -1 <= p < 2 ^ 31 -> -1 <= width < 2 ^ 31 ->
  tx_string width p t (Some (s ++ [0])) = Ok (field (on t LEFT) width (clip p s)).
Proof.
  intros Hz Hl Hp Hw. unfold tx_string. cbn [default id]. pose proof (wrap_range 64 p ltac:(lia)). destruct (clip_length p s Hp Hl) as [E1 E2].
  rewrite strnlen_ok by done. cbn [mbind res_mbind].
  replace (Z.of_nat (Nat.min _ (length s))) with (Z.of_nat (length (clip p s))) by len.
  rewrite s32_small by lia. rewrite i32_if by lia. cbn [mbind res_mbind]. rewrite i32_ok by (destruct (negb _); lia). cbn [mbind res_mbind].
  rewrite Nat2Z.id, E2, <- field_layout. done.
Qed.

(** The directives on which the two functions agree. *)
Definition common (d : dir) : Prop :=
  match d with DInt sp k _ => sp_qual sp <> Ql \/ iconv_signed k = false | DPtr _ _ => False | _ => True end.

Lemma vtxprintf_step fuel d f a o st0 : dir_ok d -> common d ->
  vtxprintf_loop (S fuel) (dir_syntax d ++ f) (dir_args d ++ a) o st0 = vtxprintf_loop fuel f a (o ++ dir_text d) st0.
Proof.
  intros Hd Hc. destruct scans_both as [_ Hsc]. destruct qualifies_both as [_ Hq].
  destruct d as [c| |sp k z|sp z|sp s|sp z]; cbn [dir_syntax dir_args dir_ok dir_text common] in *.
  - cbn [vtxprintf_loop app rd lookup list_lookup oob mbind res_mbind drop]. destruct Hd as [H0 H37].
    rewrite eqb0, (proj2 (Z.eqb_neq c 37)) by done. cbn [negb mbind res_mbind]. by rewrite ?drop_0.
  - pose proof (scan_spec_ok skip_atoi tx_qualifier (Spec [] WNone PNone QNone) 37 f a Hsc Hq) as E.
    cbn [vtxprintf_loop app rd lookup list_lookup oob mbind res_mbind drop Z.eqb Pos.eqb negb]. rewrite ?drop_0.
    unfold spec_syntax, spec_args in E. cbn [sp_flags sp_wid sp_prec sp_qual wid_syntax prec_syntax qual_syntax app] in E.
    rewrite E by (by repeat constructor). cbn [mbind res_mbind rd lookup list_lookup oob Z.eqb Pos.eqb drop]. by rewrite ?drop_0.
  - cbn [vtxprintf_loop app]. rewrite <- !app_assoc. cbn [rd lookup list_lookup oob mbind res_mbind drop Z.eqb Pos.eqb negb app]. rewrite ?drop_0.
    destruct (int_dir_ok sp k z Hd) as [Hg Hw]. destruct Hd as (Hd & _).
    rewrite scan_spec_ok; [|done..|destruct k; by repeat constructor]. cbn [mbind res_mbind rd lookup list_lookup oob drop]. rewrite ?drop_0.
    pose proof (tx_number_arg_ok (sp_qual sp) k (spec_type sp) z (spec_type_flags sp SIGN Hd (or_introl eq_refl)) Hc) as En.
    pose proof (arg_value_bounds (sp_qual sp) (iconv_signed k) z) as Hv. rewrite <- En in Hv, Hg |- *.
    destruct k; cbn [iconv_char iconv_base iconv_type Z.eqb Pos.eqb orb va_arg_int mbind res_mbind] in *; rewrite number_ok by (done || auto); done.
  - cbn [vtxprintf_loop app]. rewrite <- !app_assoc. cbn [rd lookup list_lookup oob mbind res_mbind drop Z.eqb Pos.eqb negb app]. rewrite ?drop_0.
    rewrite scan_spec_ok; [|done..|by repeat constructor]. cbn [mbind res_mbind rd lookup list_lookup oob drop Z.eqb Pos.eqb va_arg_int]. rewrite ?drop_0.
    by rewrite tx_char_ok by (by apply spec_width_bounds).
  - cbn [vtxprintf_loop app]. rewrite <- !app_assoc. cbn [rd lookup list_lookup oob mbind res_mbind drop Z.eqb Pos.eqb negb app]. rewrite ?drop_0.
    destruct Hd as (Hd & Hz & Hl).
    rewrite scan_spec_ok; [|done..|by repeat constructor]. cbn [mbind res_mbind rd lookup list_lookup oob drop Z.eqb Pos.eqb va_arg_str]. rewrite ?drop_0.
    by rewrite tx_string_ok by (done || by apply spec_prec_bounds || by apply spec_width_bounds).
  - done.
Qed.

(** ** Whole formats *)
Lemma syntax_length ds : (length ds <= length (syntax ds))%nat.
Proof. induction ds as [|d ds IH]; [done|]. unfold syntax in *. cbn [map concat length]. rewrite length_app. destruct d; cbn; lia. Qed.

Lemma vsnprintf_loop_ok size buf rest : 0 <= size <= Z.of_nat (length buf) -> forall ds fuel o, Forall dir_ok ds -> (length ds < fuel)%nat ->
  vsnprintf_loop fuel size (syntax ds ++ 0 :: rest) (arguments ds) (st size buf o) = Ok (st size buf (o ++ text ds)).
Proof.
  intros Hs. induction ds as [|d ds IH]; intros fuel o Hd Hf; (destruct fuel as [|fuel]; [cbn in Hf; lia|]).
  - cbn. by rewrite app_nil_r.
  - apply Forall_cons in Hd as [Hd Hds]. unfold syntax, arguments, text in *. cbn [map concat]. rewrite <- app_assoc, vsnprintf_step by done.
    rewrite IH by (done || cbn in Hf; lia). by rewrite <- app_assoc.
Qed.

Lemma vtxprintf_loop_ok rest stores : forall ds fuel o, Forall dir_ok ds -> Forall common ds -> (length ds < fuel)%nat ->
  vtxprintf_loop fuel (syntax ds ++ 0 :: rest) (arguments ds) o stores = Ok (o ++ text ds, stores).
Proof.
  induction ds as [|d ds IH]; intros fuel o Hd Hc Hf; (destruct fuel as [|fuel]; [cbn in Hf; lia|]).
  - cbn. by rewrite app_nil_r.
  - apply Forall_cons in Hd as [Hd Hds]. apply Forall_cons in Hc as [Hc Hcs]. unfold syntax, arguments, text in *. cbn [map concat].
    rewrite <- app_assoc, vtxprintf_step by done. rewrite IH by (done || cbn in Hf; lia). by rewrite <- app_assoc.
Qed.

(** What a buffer of [size] bytes holds behind the call: as much of the text as leaves room
    for the zero byte, the zero byte, and what was there before. *)
Definition printed (size : Z) (buf o : list Z) : list Z :=
  if 0 <? size then let t := take (Z.to_nat (size - 1)) o in t ++ 0 :: drop (S (length t)) buf else buf.

Lemma terminate_ok size buf o : 0 <= size <= Z.of_nat (length buf) ->
  (if 0 <? size then
     if p_pos (st size buf o) <? size then wr (p_buf (st size buf o)) (Z.to_nat (p_pos (st size buf o))) 0
     else wr (p_buf (st size buf o)) (Z.to_nat (size - 1)) 0
   else Ok (p_buf (st size buf o))) = Ok (printed size buf o).
Proof.
  intros Hs. unfold printed, st. cbn [p_pos p_buf]. destruct (Z.ltb_spec 0 size) as [Hp|Hp].
  - destruct (Z.ltb_spec (Z.of_nat (length o)) size).
    + rewrite !take_ge by lia. rewrite Nat2Z.id. destruct (drop (length o) buf) as [|x xs] eqn:E; [apply (f_equal length) in E; len|].
      rewrite wr_app. do 3 f_equal. apply (f_equal (drop 1)) in E. rewrite drop_drop in E. cbn in E. rewrite drop_0 in E. rewrite <- E. f_equal. lia.
    + assert (Z.to_nat size = S (Z.to_nat (size - 1))) as En by lia. rewrite En.
      destruct (lookup_lt_is_Some_2 o (Z.to_nat (size - 1))) as [x Ex]; [lia|]. rewrite (take_S_r _ _ _ Ex), <- app_assoc. cbn [app].
      assert (Z.to_nat (size - 1) = length (take (Z.to_nat (size - 1)) o)) as El by len. pose proof (wr_app (take (Z.to_nat (size - 1)) o) x 0) as W. rewrite <- El in W. rewrite W.
      do 4 f_equal. len.
  - assert (size = 0) as -> by lia. done.
Qed.

Lemma vsnprintf_whole buf size ds rest :
  Forall dir_ok ds -> 0 <= size <= Z.of_nat (length buf) -> Z.of_nat (length (text ds)) < 2 ^ 31 ->
  vsnprintf buf size (syntax ds ++ 0 :: rest) (arguments ds) = Ok (Z.of_nat (length (text ds)), printed size buf (text ds)).
Proof.
  intros Hd Hs Hl. unfold vsnprintf. assert (MkPr buf 0 = st size buf []) as -> by (unfold st; by rewrite take_nil).
  rewrite vsnprintf_loop_ok; [|done|done|pose proof (syntax_length ds); len]. cbn [mbind res_mbind app].
  rewrite terminate_ok by done. cbn [mbind res_mbind p_pos st]. by rewrite s32_small by lia.
Qed.

(** C24: Formatted output.  For every format written from directives (literal characters,
    integers in base 8, 10 and 16, characters, strings, pointers, with flags, width,
    precision and qualifier in any combination, numbers given in the format or by
    arguments, all below 2^31; the precision of a number at most INT_MAX - 6 and a signed
    64-bit number not -2^63, where the code's arithmetic overflows) and every buffer, [vsnprintf] ends, returns the length of the text the
    directives stand for (less than 2^31 characters), leaves in the buffer as much of it as fits with a terminating
    zero, and writes no byte behind the given size; a size of zero writes nothing. *)
Theorem vsnprintf_correct buf size ds rest :
  Forall dir_ok ds -> 0 <= size <= Z.of_nat (length buf) -> Z.of_nat (length (text ds)) < 2 ^ 31 ->
  vsnprintf buf size (syntax ds ++ 0 :: rest) (arguments ds) = Ok (Z.of_nat (length (text ds)), printed size buf (text ds)).
Proof. apply vsnprintf_whole. Qed.

(** "%-4x|%s" to a buffer of six bytes *)
Lemma vsnprintf_correct_witness :
  vsnprintf (replicate 8 9) 6 [37; 45; 52; 120; 124; 37; 115; 0] [VInt 255; VStr (Some [97; 98; 99; 0])] =
    Ok (8, [102; 102; 32; 32; 124; 0; 9; 9]).
Proof.
  apply (vsnprintf_correct (replicate 8 9) 6
    [DInt (Spec [45] (WNum 4) PNone QNone) Cx 255; DLit 124; DStr (Spec [] WNone PNone QNone) [97; 98; 99]] []); [|cbn; lia|reflexivity].
  repeat constructor; cbn; (lia || discriminate).
Defined.

Lemma vsnprintf_fits buf size ds rest :
  Forall dir_ok ds -> Z.of_nat (length (text ds)) < size -> size <= Z.of_nat (length buf) -> Z.of_nat (length (text ds)) < 2 ^ 31 ->
  vsnprintf buf size (syntax ds ++ 0 :: rest) (arguments ds) =
    Ok (Z.of_nat (length (text ds)), text ds ++ 0 :: drop (S (length (text ds))) buf).
Proof.
  intros Hd Hl Hs Hm. rewrite vsnprintf_whole by (done || lia). unfold printed. by rewrite (proj2 (Z.ltb_lt 0 size)), take_ge by lia.
Qed.

(** C25: The two implementations agree.  [vtxprintf] sends to its callback exactly the text
    that [vsnprintf] puts into a buffer that is large enough, and returns the same length,
    for all directives but pointers and signed integers with [l], within the same bounds on
    precisions and signed numbers, behind which the arithmetic of both overflows. *)
Theorem vtxprintf_agrees buf size ds rest :
  Forall dir_ok ds -> Forall common ds -> Z.of_nat (length (text ds)) < size -> size <= Z.of_nat (length buf) -> size <= 2 ^ 31 ->
  exists n o, vtxprintf (syntax ds ++ 0 :: rest) (arguments ds) = Ok (n, o, []) /\
    vsnprintf buf size (syntax ds ++ 0 :: rest) (arguments ds) = Ok (n, o ++ 0 :: drop (S (length o)) buf).
Proof.
  intros Hd Hc Hl Hs Hm. exists (Z.of_nat (length (text ds))), (text ds). split.
  - unfold vtxprintf. rewrite vtxprintf_loop_ok; [|done..|pose proof (syntax_length ds); len]. cbn [mbind res_mbind app]. by rewrite i32_ok by lia.
  - apply vsnprintf_fits; (done || lia).
Qed.

Lemma vtxprintf_agrees_witness : exists n o,
  vtxprintf [37; 43; 100; 37; 99; 0] [VInt (-5); VInt 33] = Ok (n, o, []) /\
  vsnprintf (replicate 8 9) 8 [37; 43; 100; 37; 99; 0] [VInt (-5); VInt 33] = Ok (n, o ++ 0 :: drop (S (length o)) (replicate 8 9)).
Proof.
  apply (vtxprintf_agrees (replicate 8 9) 8 [DInt (Spec [43] WNone PNone QNone) Cd (-5); DChar (Spec [] WNone PNone QNone) 33] []).
  - repeat constructor; vm_compute; discriminate.
  - repeat constructor; discriminate.
  - reflexivity.
  - cbn. lia.
  - lia.
Defined.

(** What is not among these directives.  A precision within reach of the largest [int] takes
    the width below the least one where the padding loops count it down ([width] in
    [vsnprintf], [size] in [vtxprintf]), and the least 64-bit number is negated: "%.2147483647d"
    of 5 and "%lld" of -2^63. *)
Theorem printf_overflows buf size :
  let precision := [37; 46; 50; 49; 52; 55; 52; 56; 51; 54; 52; 55; 100; 0] in
  vsnprintf buf size precision [VInt 5] = Fault FOverflow /\ vtxprintf precision [VInt 5] = Fault FOverflow /\
  vsnprintf buf size [37; 108; 108; 100; 0] [VInt (- 2 ^ 63)] = Fault FOverflow /\
  vtxprintf [37; 108; 108; 100; 0] [VInt (- 2 ^ 63)] = Fault FOverflow.
Proof. repeat split; vm_compute; reflexivity. Qed.

(** ** Reading back *)
Lemma bare_text k n : on (iconv_type k 0) SIGN = false -> number_text n (iconv_base k) (-1) (-1) (iconv_type k 0) = num_text (iconv_base k) (on (iconv_type k 0) LARGE) n.
Proof.
  intros Hk. unfold number_text, sign_text, prefix_text, body_text, magnitude. rewrite Hk. cbn [andb].
  replace (on (iconv_type k 0) PREFIX) with false by (by destruct k). replace (on (iconv_type k 0) LEFT) with false by (by destruct k).
  replace (on (iconv_type k 0) ZEROPAD) with false by (by destruct k). cbn [app].
  rewrite !(Z2Nat.nonpos (-1 - _)) by lia. cbn [replicate app]. rewrite ?(Z2Nat.nonpos (-1 - _)) by lia. done.
Qed.

Lemma zero_not_digit base : ~ is_digit base 0.
Proof. intros (d & Hd & _). discriminate. Qed.

Lemma digits_length base (upper : bool) : 2 <= base -> forall fuel n k, 0 <= n < base ^ Z.of_nat k -> (1 <= k)%nat ->
  (length (digits fuel base upper n) <= k)%nat.
Proof.
  intros Hb. induction fuel as [|fuel IH]; intros n k Hn Hk; cbn [digits]; [cbn; lia|]. destruct (Z.ltb_spec n base); [cbn; lia|].
  destruct k as [|[|k]]; [lia|cbn in Hn; lia|]. rewrite Nat2Z.inj_succ, Z.pow_succ_r in Hn by lia. rewrite length_app. cbn [length].
  specialize (IH (n / base) (S k)). assert (length (digits fuel base upper (n / base)) <= S k)%nat; [|lia].
  apply IH; [|lia]. split; [apply Z.div_pos; lia|apply Z.div_lt_upper_bound; lia].
Qed.

(** The digits of a 64-bit number, and how [strtoul] reads them. *)
Lemma num_text_read n base k rest : in_u 64 n -> base = 8 \/ base = 10 \/ base = 16 -> 2 ^ 64 <= base ^ Z.of_nat k -> (1 <= k)%nat ->
  let ds := num_text base false n in
  (length ds <= k)%nat /\
  (base <> 16 -> strtoul (ds ++ 0 :: rest) base = Ok (n, length ds, ENone)) /\
  (base = 16 -> strtoul (48 :: 120 :: ds ++ 0 :: rest) base = Ok (n, (2 + length ds)%nat, ENone)).
Proof.
  intros Hn Hb Hk Hk1 ds. destruct (num_text_spec base false n) as (D1 & D2 & D3 & _); [lia|done|]. fold ds in D1, D2, D3.
  split; [apply digits_length; lia|]. assert (ds <> []) as Hne by (intros E; rewrite E in D3; cbn in D3; lia).
  destruct (strtoul_numeral [] [] ds 0 rest base) as [S1 S2]; [constructor|by left|done|].
  assert (forall b m, numeral b 0 ds = n -> strtoul_result (bool_decide (@nil Z = [45])) b ds m = (n, m, ENone)) as R.
  { intros b m E. unfold strtoul_result. rewrite E, (proj2 (Z.ltb_ge _ _)) by (unfold ULONG_MAX; lia). done. }
  split; intros H16.
  - rewrite <- (R base (length ds) D2). apply S1; [lia|done|done|apply zero_not_digit].
  - subst base. rewrite <- (R 16 (2 + length ds)%nat D2). apply S2; [by right|done|apply zero_not_digit].
Qed.

Lemma prefix_hex_text n : number_text n 16 (-1) (-1) PREFIX = 48 :: 120 :: num_text 16 false n.
Proof.
  unfold number_text, sign_text, prefix_text, body_text, magnitude.
  change (on PREFIX SIGN) with false. change (on PREFIX PREFIX) with true. change (on PREFIX LEFT) with false.
  change (on PREFIX ZEROPAD) with false. change (on PREFIX LARGE) with false. cbn [andb app Z.eqb Pos.eqb].
  rewrite !(Z2Nat.nonpos (-1 - _)) by lia. cbn [replicate app]. rewrite ?(Z2Nat.nonpos (-1 - _)) by lia. done.
Qed.

(** C26: Numbers survive printing and reading.  For every 64-bit number and every buffer of at
    least 23 bytes, printing it with [%llu] (or [%#llx], or [%llo]) and reading the buffer
    with [strtoul] in base 10 (16, 8) gives back the number, with all characters read
    and no error. *)
Theorem print_scan_roundtrip n buf :
  in_u 64 n -> (23 <= length buf)%nat ->
  (exists len b, vsnprintf buf (Z.of_nat (length buf)) [37; 108; 108; 117; 0] [VInt n] = Ok (Z.of_nat len, b) /\ strtoul b 10 = Ok (n, len, ENone)) /\
  (exists len b, vsnprintf buf (Z.of_nat (length buf)) [37; 35; 108; 108; 120; 0] [VInt n] = Ok (Z.of_nat len, b) /\ strtoul b 16 = Ok (n, len, ENone)) /\
  (exists len b, vsnprintf buf (Z.of_nat (length buf)) [37; 108; 108; 111; 0] [VInt n] = Ok (Z.of_nat len, b) /\ strtoul b 8 = Ok (n, len, ENone)).
Proof.
  intros Hn Hl.
  assert (forall d, dir_ok d -> (length (dir_text d) < length buf)%nat -> (length (dir_text d) < 23)%nat -> forall f a, dir_syntax d ++ [0] = f -> dir_args d = a ->
    vsnprintf buf (Z.of_nat (length buf)) f a = Ok (Z.of_nat (length (dir_text d)), dir_text d ++ 0 :: drop (S (length (dir_text d))) buf)) as V.
  { intros d Hd Hd1 Hd2 f a <- <-. pose proof (vsnprintf_fits buf (Z.of_nat (length buf)) [d] []) as E. unfold syntax, arguments, text in E.
    cbn [map concat] in E. rewrite !app_nil_r in E. apply E; [by constructor|lia..]. }
  assert (arg_value Qll false n = n) as Ev by (by apply wrap_id).
  split; [|split].
  - destruct (num_text_read n 10 20 (drop (S (length (num_text 10 false n))) buf)) as (L & R & _); [done|auto|by apply Z.leb_le|lia|].
    assert (dir_text (DInt (Spec [] WNone PNone Qll) Cu n) = num_text 10 false n) as Et by (cbn [dir_text sp_qual iconv_signed]; rewrite Ev; apply (bare_text Cu n eq_refl)).
    exists (length (num_text 10 false n)). eexists. split; [rewrite <- Et; eapply V; [done|rewrite Et; lia..|done|done]|]. rewrite Et. by apply R.
  - destruct (num_text_read n 16 16 (drop (S (length (48 :: 120 :: num_text 16 false n))) buf)) as (L & _ & R); [done|auto|by apply Z.leb_le|lia|].
    assert (dir_text (DInt (Spec [35] WNone PNone Qll) Cx n) = 48 :: 120 :: num_text 16 false n) as Et by (cbn [dir_text sp_qual iconv_signed]; rewrite Ev; apply prefix_hex_text).
    exists (length (48 :: 120 :: num_text 16 false n)). eexists. split; [rewrite <- Et; eapply V; [|rewrite Et; cbn [length]; lia..|done|done]; by repeat constructor|]. rewrite Et. by apply R.
  - destruct (num_text_read n 8 22 (drop (S (length (num_text 8 false n))) buf)) as (L & R & _); [done|auto|by apply Z.leb_le|lia|].
    assert (dir_text (DInt (Spec [] WNone PNone Qll) Co n) = num_text 8 false n) as Et by (cbn [dir_text sp_qual iconv_signed]; rewrite Ev; apply (bare_text Co n eq_refl)).
    exists (length (num_text 8 false n)). eexists. split; [rewrite <- Et; eapply V; [done|rewrite Et; lia..|done|done]|]. rewrite Et. by apply R.
Qed.

Lemma print_scan_roundtrip_witness :
  exists len b, vsnprintf (replicate 23 9) 23 [37; 108; 108; 117; 0] [VInt 18446744073709551615] = Ok (Z.of_nat len, b) /\
    strtoul b 10 = Ok (18446744073709551615, len, ENone).
Proof. apply (print_scan_roundtrip 18446744073709551615 (replicate 23 9)); [lia|cbn; lia]. Defined.

Lemma bare_signed_length n : in_u 64 n -> (length (number_text n 10 (-1) (-1) (iconv_type Cd 0)) <= 65)%nat.
Proof.
  intros Hn. unfold number_text, body_text. change (on (iconv_type Cd 0) LEFT) with false. change (on (iconv_type Cd 0) ZEROPAD) with false.
  destruct (num_text_spec 10 (on (iconv_type Cd 0) LARGE) (magnitude n (iconv_type Cd 0))) as (_ & _ & L & _); [lia|by apply magnitude_bounds|].
  rewrite !(Z2Nat.nonpos (-1 - _)) by lia. cbn [replicate app]. rewrite !length_app.
  assert (length (sign_text n (iconv_type Cd 0)) <= 1)%nat by (unfold sign_text; repeat case_match; cbn; lia).
  change (length (prefix_text 10 (iconv_type Cd 0))) with 0%nat. lia.
Qed.

Lemma sext_not_least z : u64 (s32 z) <> 2 ^ 63.
Proof.
  pose proof (swrap_range 32 z ltac:(done)) as Hr. generalize dependent (s32 z). intros x Hr. cbn in Hr. unfold wrap.
  destruct (Z.le_gt_cases 0 x).
  - rewrite Z.mod_small by lia. lia.
  - rewrite <- (Z_mod_plus_full _ 1), Z.mod_small by lia. lia.
Qed.

(** [%ld] prints 32 bits.  Where [long] has 64 bits, [vsnprintf] prints a signed [long] as
    if it had been an [int]: the output for [%ld] is that for [%d], for every value, for
    example "5" for 2^32 + 5. *)
Theorem ld_truncates buf size z :
  0 <= size <= Z.of_nat (length buf) ->
  vsnprintf buf size [37; 108; 100; 0] [VInt z] = vsnprintf buf size [37; 100; 0] [VInt z].
Proof.
  intros Hs.
  assert (forall q, arg_value q true z = u64 (s32 z) -> Forall dir_ok [DInt (Spec [] WNone PNone q) Cd z]) as Hok.
  { intros q E. constructor; [|constructor]. split; [by split|]. split; [done|]. intros _. cbn [sp_qual]. rewrite E. apply sext_not_least. }
  pose proof (bare_signed_length (u64 (s32 z)) ltac:(apply wrap_range; lia)) as L.
  pose proof (vsnprintf_whole buf size [DInt (Spec [] WNone PNone Ql) Cd z] []) as E1.
  pose proof (vsnprintf_whole buf size [DInt (Spec [] WNone PNone QNone) Cd z] []) as E2.
  unfold text, syntax, arguments in E1, E2. cbn [map concat dir_text dir_syntax dir_args sp_qual arg_value iconv_signed] in E1, E2.
  rewrite app_nil_r in E1, E2. rewrite app_nil_r in E1, E2.
  transitivity (Ok (Z.of_nat (length (number_text (u64 (s32 z)) 10 (-1) (-1) (iconv_type Cd 0))), printed size buf (number_text (u64 (s32 z)) 10 (-1) (-1) (iconv_type Cd 0)))).
  - apply E1; [by apply Hok|done|cbn [spec_width spec_prec spec_type sp_wid sp_prec sp_flags foldl iconv_base]; lia].
  - symmetry. apply E2; [by apply Hok|done|cbn [spec_width spec_prec spec_type sp_wid sp_prec sp_flags foldl iconv_base]; lia].
Qed.

Lemma ld_truncates_witness : vsnprintf (replicate 8 9) 8 [37; 108; 100; 0] [VInt (2 ^ 32 + 5)] = Ok (1, [53; 0; 9; 9; 9; 9; 9; 9]).
Proof. rewrite (ld_truncates (replicate 8 9) 8 (2 ^ 32 + 5)); [reflexivity|cbn; lia]. Defined.
