(* ===== verification/QSpin.v ===== *)
(** * Queued spinlock

    src/kernel/spinlock.c over src/include/asm-generic/spinlock.h, the lock of the arm64 port
    and of the RISC-V configurations with RISCV_SPINLOCK_GENERIC, for fewer than 16384 CPUs
    (eight pending bits).

    Several locks are used by the contexts of several CPUs.  A CPU has a stack of contexts, a
    task and the interrupts that came in above it, of which the topmost runs.  A program point
    [loc] is an access to shared memory that a context makes next; one step makes the access
    and runs to the next one.  Steps of different CPUs interleave in any order (sequential
    consistency), and an interrupt may come between any two steps.  [q] is the width of
    qspin_quater_t, 8 where atomic_t has 32 bits and 16 where it has 64. *)
From stdpp Require Import functions relations.
From S2P Require Import Prelude.

(** ** Layout of the lock word *)
Definition _Q_LOCKED_OFFSET : Z := 0.
Definition _Q_LOCKED_BITS : Z := 8.
Definition _Q_PENDING_OFFSET : Z := _Q_LOCKED_OFFSET + _Q_LOCKED_BITS.
Definition _Q_PENDING_BITS : Z := 8.
Definition _Q_TAIL_IDX_OFFSET : Z := _Q_PENDING_OFFSET + _Q_PENDING_BITS.
Definition _Q_TAIL_IDX_BITS : Z := 2.
Definition _Q_TAIL_CPU_OFFSET : Z := _Q_TAIL_IDX_OFFSET + _Q_TAIL_IDX_BITS.
Definition _Q_TAIL_CPU_BITS : Z := 32 - _Q_TAIL_CPU_OFFSET.
Definition _Q_TAIL_OFFSET : Z := _Q_TAIL_IDX_OFFSET.
Definition _Q_SET_MASK (bits offset : Z) : Z := u32 (Z.shiftl (Z.shiftl 1 bits - 1) offset).
Definition _Q_LOCKED_MASK : Z := _Q_SET_MASK _Q_LOCKED_BITS _Q_LOCKED_OFFSET.
Definition _Q_PENDING_MASK : Z := _Q_SET_MASK _Q_PENDING_BITS _Q_PENDING_OFFSET.
Definition _Q_TAIL_IDX_MASK : Z := _Q_SET_MASK _Q_TAIL_IDX_BITS _Q_TAIL_IDX_OFFSET.
Definition _Q_TAIL_CPU_MASK : Z := _Q_SET_MASK _Q_TAIL_CPU_BITS _Q_TAIL_CPU_OFFSET.
Definition _Q_TAIL_MASK : Z := Z.lor _Q_TAIL_IDX_MASK _Q_TAIL_CPU_MASK.
Definition _Q_LOCKED_VAL : Z := Z.shiftl 1 _Q_LOCKED_OFFSET.
Definition _Q_PENDING_VAL : Z := Z.shiftl 1 _Q_PENDING_OFFSET.
Definition _Q_LOCKED_PENDING_MASK : Z := Z.lor _Q_LOCKED_MASK _Q_PENDING_MASK.
Definition _Q_PENDING_LOOPS : Z := 1.
Definition MAX_NODES : Z := 4.

(** A queue node is named by its CPU and its place in qnodes[] of that CPU. *)
Definition node : Type := Z * Z.
(** A context: its CPU and its place on the stack of that CPU. *)
Definition tid : Type := Z * nat.

Definition encode_tail (cpu idx : Z) : Z :=
  let tail := u32 (Z.shiftl (cpu + 1) _Q_TAIL_CPU_OFFSET) in
  Z.lor tail (Z.shiftl idx _Q_TAIL_IDX_OFFSET).
Definition decode_tail (tail : Z) : node :=
  let cpu := Z.shiftr tail _Q_TAIL_CPU_OFFSET - 1 in
  let idx := Z.shiftr (Z.land tail _Q_TAIL_IDX_MASK) _Q_TAIL_IDX_OFFSET in (cpu, idx).

(** A store to the [width] bits at [off] of a little-endian word. *)
Definition put (off width x word : Z) : Z :=
  Z.lor (Z.ldiff word (Z.shiftl (Z.ones width) off)) (Z.shiftl (x mod 2 ^ width) off).
(** The members [u.locked], [u.pending], [u.locked_pending] and [tail] of struct spinlock. *)
Definition put_locked (q : Z) := put 0 q.
Definition put_pending (q : Z) := put q q.
Definition put_locked_pending (q : Z) := put 0 (2 * q).
Definition put_tail (q : Z) := put (2 * q) (2 * q).
Definition get_tail (q word : Z) : Z := Z.shiftr word (2 * q) mod 2 ^ (2 * q).

Definition clear_pending (q word : Z) : Z := put_pending q 0 word.
Definition clear_pending_set_locked (q word : Z) : Z := put_locked_pending q _Q_LOCKED_VAL word.
Definition xchg_tail (q tail word : Z) : Z * Z :=
  (u32 (Z.shiftl (u32 (get_tail q word)) _Q_TAIL_OFFSET), put_tail q (Z.shiftr tail _Q_TAIL_OFFSET) word).
Definition queued_fetch_set_pending_acquire (word : Z) : Z * Z := (word, Z.lor word _Q_PENDING_VAL).
Definition set_locked (q word : Z) : Z := put_locked q _Q_LOCKED_VAL word.
Definition qspin_unlock (q word : Z) : Z := put_locked q 0 word.

(** ** Program points *)
Inductive loc : Type :=
  | LFast                                                  (* qspin_lock: cmpxchg *)
  | LSpin (cnt : nat)                                       (* wait for a hand-over *)
  | LSetPending | LClearPending | LWaitOwner | LTake       (* pending *)
  | LCountR | LCountW (n : Z)                              (* idx = node->count++ *)
  | LFall1 (i : Z) | LFall2 (i : Z)                        (* no node left: qspin_trylock *)
  | LInitLocked (i : Z) | LInitNext (i : Z)
  | LTry1 (i : Z) | LTry2 (i : Z)                          (* qspin_trylock *)
  | LXchg (i : Z)
  | LLink (i : Z) (prev : node) | LWaitNode (i : Z) | LReadNext (i : Z)
  | LWaitHead (i : Z) (next : option node)
  | LClaim (i val : Z) (next : option node)
  | LSetLocked (i : Z) (next : option node)
  | LWaitNext (i : Z) | LPass (i : Z) (next : node)
  | LRelR (i : Z) | LRelW (i n : Z)                        (* count-- *)
  | LUser1 | LUser2.                                       (* qspin_trylock called by a user *)

(** [Idle]: the context is outside of the functions of the lock. *)
Inductive pc : Type := Idle | At (l : nat) (p : loc).

Record st : Type := St {
  word : nat -> Z;                 (* lock->val *)
  mcs_next : node -> option node;
  mcs_locked : node -> Z;
  count : Z -> Z;                  (* qnodes[0].mcs.count of a CPU *)
  depth : Z -> nat;                (* number of contexts of a CPU *)
  pcs : tid -> pc;
  held : tid -> list nat           (* locks a context has acquired and not released *)
}.
Definition set_word l w s := St (<[l := w]> (word s)) (mcs_next s) (mcs_locked s) (count s) (depth s) (pcs s) (held s).
Definition set_next n x s := St (word s) (<[n := x]> (mcs_next s)) (mcs_locked s) (count s) (depth s) (pcs s) (held s).
Definition set_mlocked n x s := St (word s) (mcs_next s) (<[n := x]> (mcs_locked s)) (count s) (depth s) (pcs s) (held s).
Definition set_count c x s := St (word s) (mcs_next s) (mcs_locked s) (<[c := x]> (count s)) (depth s) (pcs s) (held s).
Definition set_depth c x s := St (word s) (mcs_next s) (mcs_locked s) (count s) (<[c := x]> (depth s)) (pcs s) (held s).
Definition goto t x s := St (word s) (mcs_next s) (mcs_locked s) (count s) (depth s) (<[t := x]> (pcs s)) (held s).
Definition set_held t x s := St (word s) (mcs_next s) (mcs_locked s) (count s) (depth s) (pcs s) (<[t := x]> (held s)).
Definition acquired t l s := set_held t (l :: held s t) s.

Definition init : st := St (fun _ => 0) (fun _ => None) (fun _ => 0) (fun _ => 0) (fun _ => 1%nat) (fun _ => Idle) (fun _ => []).

Section steps.
Variable q : Z.

(** ** One access of a context [t] that works on the lock [l] *)

(** The tests behind the fast path and behind the bounded wait. *)
Definition check_contention (val : Z) : loc :=
  if negb (Z.land val (u32 (Z.lnot _Q_LOCKED_MASK)) =? 0) then LCountR else LSetPending.
Definition slowpath_entry (val : Z) : loc :=
  if val =? _Q_PENDING_VAL then LSpin (Z.to_nat _Q_PENDING_LOOPS) else check_contention val.

Definition try_cmpxchg (l : nat) (old new : Z) (s : st) : bool * st :=
  if word s l =? old then (true, set_word l new s) else (false, s).
(** The two accesses of [qspin_trylock]. *)
Definition trylock_read (l : nat) (s : st) : bool := word s l =? 0.
Definition trylock_cmpxchg (l : nat) (s : st) : bool * st := try_cmpxchg l 0 _Q_LOCKED_VAL s.
(** The only access of [qspin_lock] itself. *)
Definition qspin_lock (t : tid) (l : nat) (s : st) : st :=
  let w := word s l in
  let '(ok, s) := try_cmpxchg l 0 _Q_LOCKED_VAL s in
  if ok then goto t Idle (acquired t l s) else goto t (At l (slowpath_entry w)) s.

Definition access (t : tid) (l : nat) (p : loc) (s : st) : st :=
  let go p' s := goto t (At l p') s in
  let w := word s l in
  match p with
  | LFast => qspin_lock t l s
  | LSpin cnt =>
      if negb (w =? _Q_PENDING_VAL) || (cnt =? 0)%nat then go (check_contention w) s else go (LSpin (cnt - 1)) s
  | LSetPending =>
      let '(val, w') := queued_fetch_set_pending_acquire w in
      let s := set_word l w' s in
      if negb (Z.land val (u32 (Z.lnot _Q_LOCKED_MASK)) =? 0) then
        if Z.land val _Q_PENDING_MASK =? 0 then go LClearPending s else go LCountR s
      else if negb (Z.land val _Q_LOCKED_MASK =? 0) then go LWaitOwner s
      else go LTake s
  | LClearPending => go LCountR (set_word l (clear_pending q w) s)
  | LWaitOwner => if Z.land w _Q_LOCKED_MASK =? 0 then go LTake s else s
  | LTake => goto t Idle (acquired t l (set_word l (clear_pending_set_locked q w) s))
  | LCountR => go (LCountW (count s t.1)) s
  | LCountW n =>
      let s := set_count t.1 (n + 1) s in
      if MAX_NODES <=? n then go (LFall1 n) s else go (LInitLocked n) s
  | LFall1 i => if trylock_read l s then go (LFall2 i) s else s
  | LFall2 i =>
      let '(ok, s) := trylock_cmpxchg l s in
      if ok then go (LRelR i) (acquired t l s) else go (LFall1 i) s
  | LInitLocked i => go (LInitNext i) (set_mlocked (t.1, i) 0 s)
  | LInitNext i => go (LTry1 i) (set_next (t.1, i) None s)
  | LTry1 i => if trylock_read l s then go (LTry2 i) s else go (LXchg i) s
  | LTry2 i =>
      let '(ok, s) := trylock_cmpxchg l s in
      if ok then go (LRelR i) (acquired t l s) else go (LXchg i) s
  | LXchg i =>
      let '(old, w') := xchg_tail q (encode_tail t.1 i) w in
      let s := set_word l w' s in
      if negb (Z.land old _Q_TAIL_MASK =? 0) then go (LLink i (decode_tail old)) s else go (LWaitHead i None) s
  | LLink i prev => go (LWaitNode i) (set_next prev (Some (t.1, i)) s)
  | LWaitNode i => if mcs_locked s (t.1, i) =? 0 then s else go (LReadNext i) s
  | LReadNext i => go (LWaitHead i (mcs_next s (t.1, i))) s
  | LWaitHead i next =>
      if Z.land w _Q_LOCKED_PENDING_MASK =? 0 then
        if Z.land w _Q_TAIL_MASK =? encode_tail t.1 i then go (LClaim i w next) s else go (LSetLocked i next) s
      else s
  | LClaim i val next =>
      let '(ok, s) := try_cmpxchg l val _Q_LOCKED_VAL s in
      if ok then go (LRelR i) (acquired t l s) else go (LSetLocked i next) s
  | LSetLocked i next =>
      let s := acquired t l (set_word l (set_locked q w) s) in
      match next with None => go (LWaitNext i) s | Some n => go (LPass i n) s end
  | LWaitNext i => match mcs_next s (t.1, i) with None => s | Some n => go (LPass i n) s end
  | LPass i n => go (LRelR i) (set_mlocked n 1 s)
  | LRelR i => go (LRelW i (count s t.1)) s
  | LRelW i n => goto t Idle (set_count t.1 (n - 1) s)
  | LUser1 => if trylock_read l s then go LUser2 s else goto t Idle s
  | LUser2 =>
      let '(ok, s) := trylock_cmpxchg l s in
      if ok then goto t Idle (acquired t l s) else goto t Idle s
  end.

(** ** What a context can do next *)
Inductive act : Type :=
  | ALock (l : nat) | ATrylock (l : nat) | AUnlock (l : nat)   (* calls of a user *)
  | AStep                                                      (* go on in the function *)
  | AIrq | AIret.                                              (* an interrupt comes, or returns *)

Definition running (s : st) (t : tid) : bool := bool_decide (depth s t.1 = S t.2).

Definition exec (s : st) (t : tid) (a : act) : option st :=
  if negb (running s t) then None
  else match a, pcs s t with
  | ALock l, Idle => Some (goto t (At l LFast) s)
  | ATrylock l, Idle => Some (goto t (At l LUser1) s)
  | AUnlock l, Idle =>
      if bool_decide (l ∈ held s t)
      then Some (goto t Idle (set_held t (filter (fun k => k <> l) (held s t)) (set_word l (qspin_unlock q (word s l)) s))) else None
  | AStep, At l p => Some (access t l p s)
  | AIrq, _ => Some (set_depth t.1 (S (depth s t.1)) s)
  | AIret, Idle => if (0 <? t.2)%nat && bool_decide (held s t = []) then Some (set_depth t.1 (pred (depth s t.1)) s) else None
  | _, _ => None
  end.

Fixpoint run (tr : list (tid * act)) (s : st) : option st :=
  match tr with [] => Some s | (t, a) :: tr => s ← exec s t a; run tr s end.

Variable NR_CPUS : Z.
Inductive step : relation st :=
  | Step s s' t a : 0 <= t.1 < NR_CPUS -> exec s t a = Some s' -> step s s'.
Definition reachable (s : st) : Prop := rtc step init s.
End steps.

(** ** Words in the layout of 32-bit atomics *)

(** The word with the tail code [T], the pending bit [p] and the locked byte [k]. *)
Definition mkword (T : Z) (p k : bool) : Z := Z.b2z k + 2 ^ 8 * (Z.b2z p + 2 ^ 8 * (T / 65536)).
Definition tail_ok (T : Z) : Prop := exists x, T = 65536 * x /\ in_u 16 x.

Lemma ldiff_in_u n a c : 0 <= n -> in_u n a -> in_u n (Z.ldiff a c).
Proof.
  intros. apply in_u_testbit; [done|apply Z.ldiff_nonneg; lia|]. intros i Hi. by rewrite Z.ldiff_spec, (testbit_high n a i).
Qed.

Section split.
Variables (n a b c d : Z).
Hypotheses (Hn : 0 <= n) (Ha : in_u n a) (Hc : in_u n c).
Lemma land_split : Z.land (a + 2 ^ n * b) (c + 2 ^ n * d) = Z.land a c + 2 ^ n * Z.land b d.
Proof.
  assert (in_u n (Z.land a c)) by (apply land_in_u; [done..|apply Hc]). apply Z.bits_inj'. intros i Hi.
  rewrite Z.land_spec, !testbit_split by done. case_match; by rewrite Z.land_spec.
Qed.
Lemma lor_split : Z.lor (a + 2 ^ n * b) (c + 2 ^ n * d) = Z.lor a c + 2 ^ n * Z.lor b d.
Proof.
  assert (in_u n (Z.lor a c)) by by apply lor_in_u. apply Z.bits_inj'. intros i Hi.
  rewrite Z.lor_spec, !testbit_split by done. case_match; by rewrite Z.lor_spec.
Qed.
Lemma ldiff_split : Z.ldiff (a + 2 ^ n * b) (c + 2 ^ n * d) = Z.ldiff a c + 2 ^ n * Z.ldiff b d.
Proof.
  assert (in_u n (Z.ldiff a c)) by by apply ldiff_in_u.
  apply Z.bits_inj'. intros i Hi. rewrite Z.ldiff_spec, !testbit_split by done. case_match; by rewrite Z.ldiff_spec.
Qed.
End split.

Lemma b2z_in_u (k : bool) : in_u 8 (Z.b2z k).
Proof. by destruct k. Qed.

Section words.
Variables (T : Z) (p k : bool).
Hypothesis HT : tail_ok T.

(** A mask or an operand cut into locked byte, pending byte and tail. *)
Ltac cut m := let m' := eval vm_compute in m in let a := eval vm_compute in (m' mod 2 ^ 8) in
  let b := eval vm_compute in (m' / 2 ^ 8 mod 2 ^ 8) in let c := eval vm_compute in (m' / 2 ^ 16) in
  change m with (a + 2 ^ 8 * (b + 2 ^ 8 * c)).
Ltac word_op op m := unfold mkword; cut m; rewrite !op by (apply b2z_in_u || lia);
  destruct HT as (x & -> & Hx); rewrite (Z.mul_comm 65536), ?Z.div_mul, ?Z.div_0_l by lia.
Ltac word_fin := rewrite ?Z.land_0_r, ?Z.lor_0_r, ?Z.ldiff_0_r; destruct p, k; (reflexivity || (cbn; lia)).

Lemma ones_16 x : in_u 16 x -> Z.land x 65535 = x.
Proof. intros. change 65535 with (Z.ones 16). rewrite Z.land_ones by lia. by apply Z.mod_small. Qed.

Lemma land_contended : Z.land (mkword T p k) (u32 (Z.lnot _Q_LOCKED_MASK)) = mkword T p false.
Proof. word_op land_split (u32 (Z.lnot _Q_LOCKED_MASK)). rewrite ones_16 by done. word_fin. Qed.
Lemma land_pending : Z.land (mkword T p k) _Q_PENDING_MASK = mkword 0 p false.
Proof. word_op land_split _Q_PENDING_MASK. word_fin. Qed.
Lemma land_locked : Z.land (mkword T p k) _Q_LOCKED_MASK = mkword 0 false k.
Proof. word_op land_split _Q_LOCKED_MASK. word_fin. Qed.
Lemma land_locked_pending : Z.land (mkword T p k) _Q_LOCKED_PENDING_MASK = mkword 0 p k.
Proof. word_op land_split _Q_LOCKED_PENDING_MASK. word_fin. Qed.
Lemma land_tail : Z.land (mkword T p k) _Q_TAIL_MASK = T.
Proof. word_op land_split _Q_TAIL_MASK. rewrite ones_16 by done. word_fin. Qed.
Lemma lor_pending : Z.lor (mkword T p k) _Q_PENDING_VAL = mkword T true k.
Proof. word_op lor_split _Q_PENDING_VAL. word_fin. Qed.

Lemma ldiff_16 x : in_u 16 x -> Z.ldiff x 65535 = 0.
Proof. intros. rewrite <- (ones_16 x) by done. apply Z.bits_inj'. intros i Hi. rewrite Z.ldiff_spec, Z.land_spec, Z.bits_0. by destruct (Z.testbit x i), (Z.testbit 65535 i). Qed.

Ltac word_put m v :=
  unfold mkword; cut m; cut v; rewrite !ldiff_split by (apply b2z_in_u || lia);
  rewrite !lor_split by ((apply ldiff_in_u; [lia|apply b2z_in_u]) || lia);
  destruct HT as (x & -> & Hx); rewrite (Z.mul_comm 65536), ?Z.div_mul, ?Z.div_0_l by lia.
Lemma clear_pending_word : clear_pending 8 (mkword T p k) = mkword T false k.
Proof. unfold clear_pending, put_pending, put. word_put (Z.shiftl (Z.ones 8) 8) (Z.shiftl (0 mod 2 ^ 8) 8). word_fin. Qed.
Lemma take_word : clear_pending_set_locked 8 (mkword T p k) = mkword T false true.
Proof. unfold clear_pending_set_locked, put_locked_pending, put. word_put (Z.shiftl (Z.ones (2 * 8)) 0) (Z.shiftl (_Q_LOCKED_VAL mod 2 ^ (2 * 8)) 0). word_fin. Qed.
Lemma set_locked_word : set_locked 8 (mkword T p k) = mkword T p true.
Proof. unfold set_locked, put_locked, put. word_put (Z.shiftl (Z.ones 8) 0) (Z.shiftl (_Q_LOCKED_VAL mod 2 ^ 8) 0). word_fin. Qed.
Lemma unlock_word : qspin_unlock 8 (mkword T p k) = mkword T p false.
Proof. unfold qspin_unlock, put_locked, put. word_put (Z.shiftl (Z.ones 8) 0) (Z.shiftl (0 mod 2 ^ 8) 0). word_fin. Qed.

Lemma word_tail : Z.shiftr (mkword T p k) 16 = T / 65536.
Proof. unfold mkword. rewrite Z.shiftr_div_pow2 by lia. destruct HT as (x & -> & Hx). rewrite (Z.mul_comm 65536), Z.div_mul by lia. destruct p, k; cbn; Z.to_euclidean_division_equations; lia. Qed.
Lemma xchg_tail_word T' : tail_ok T' -> xchg_tail 8 T' (mkword T p k) = (T, mkword T' p k).
Proof.
  intros (x' & -> & Hx'). unfold xchg_tail, get_tail, put_tail, put. change (2 * 8) with 16. change _Q_TAIL_OFFSET with 16. rewrite word_tail, <- (Z.mul_comm x'), Z.shiftr_div_pow2 by lia.
  change (2 ^ 16) with 65536. rewrite Z.div_mul, (Z.mod_small x') by (done || lia).
  f_equal.
  - destruct HT as (x & -> & Hx). rewrite <- (Z.mul_comm x), Z.div_mul, Z.mod_small by (done || lia).
    rewrite (wrap_id 32 x), Z.shiftl_mul_pow2 by lia. by rewrite wrap_id by lia.
  - replace (Z.shiftl x' 16) with (0 + 2 ^ 8 * (0 + 2 ^ 8 * x')) by (rewrite Z.shiftl_mul_pow2 by lia; lia).
    unfold mkword. cut (Z.shiftl (Z.ones 16) 16). rewrite !ldiff_split by (apply b2z_in_u || lia).
    rewrite !lor_split by ((apply ldiff_in_u; [lia|apply b2z_in_u]) || lia).
    destruct HT as (x & -> & Hx). rewrite <- (Z.mul_comm x), !Z.div_mul, ldiff_16 by (done || lia). word_fin.
Qed.
End words.

Lemma mkword_inj T p k T' p' k' : tail_ok T -> tail_ok T' -> mkword T p k = mkword T' p' k' <-> T = T' /\ p = p' /\ k = k'.
Proof.
  intros (x & -> & Hx) (y & -> & Hy). unfold mkword. rewrite !(Z.mul_comm 65536), !Z.div_mul by lia.
  split; [|intros (E & -> & ->); by replace y with x by lia]. destruct p, k, p', k'; cbn; intros; split_and!; try done; lia.
Qed.

Lemma tail_ok_0 : tail_ok 0.
Proof. exists 0. lia. Qed.

(** *** Tail codes *)
Section tails.
Variables (cpu idx : Z).
Hypotheses (Hc : 0 <= cpu < 2 ^ _Q_TAIL_CPU_BITS - 1) (Hi : 0 <= idx < MAX_NODES).
Lemma encode_tail_val : encode_tail cpu idx = 65536 * (4 * (cpu + 1) + idx).
Proof.
  revert Hc Hi. unfold encode_tail, MAX_NODES, _Q_TAIL_CPU_BITS. change _Q_TAIL_CPU_OFFSET with 18. change _Q_TAIL_IDX_OFFSET with 16. cbn [Z.sub Z.opp Z.add Z.pos_sub].
  intros Hc Hi. rewrite (Z.shiftl_mul_pow2 (cpu + 1)) by lia. rewrite wrap_id by lia. rewrite <- Z.shiftl_mul_pow2 by lia.
  rewrite Z.lor_comm, lor_shiftl; [|lia|]; rewrite Z.shiftl_mul_pow2 by lia; lia.
Qed.
Lemma encode_tail_ok : tail_ok (encode_tail cpu idx).
Proof. rewrite encode_tail_val. eexists. split; [done|]. revert Hc Hi. unfold MAX_NODES, _Q_TAIL_CPU_BITS. change _Q_TAIL_CPU_OFFSET with 18. lia. Qed.
Lemma encode_tail_nonzero : encode_tail cpu idx <> 0.
Proof. rewrite encode_tail_val. unfold MAX_NODES in *. lia. Qed.
Lemma decode_encode : decode_tail (encode_tail cpu idx) = (cpu, idx).
Proof.
  rewrite encode_tail_val. unfold decode_tail. unfold MAX_NODES in Hi. change _Q_TAIL_CPU_OFFSET with 18. change _Q_TAIL_IDX_OFFSET with 16.
  rewrite !Z.shiftr_div_pow2 by lia. f_equal; [Z.to_euclidean_division_equations; lia|].
  change _Q_TAIL_IDX_MASK with (0 + 2 ^ 16 * 3). change 65536 with (2 ^ 16). rewrite <- (Z.add_0_l (2 ^ 16 * (_ + _))), land_split by lia. change 3 with (Z.ones 2). rewrite Z.land_ones by lia.
  rewrite Z.land_0_l, Z.add_0_l, (Z.mul_comm (2 ^ 16)), Z.div_mul, (Z.add_comm (4 * _)), (Z.mul_comm 4) by lia. change (2 ^ 2) with 4.
  rewrite Z_mod_plus_full. apply Z.mod_small. lia.
Qed.
End tails.
