(* ===== verification/QSpinInv.v ===== *)
(** * Queued spinlock: mutual exclusion, queue order, progress

    The invariant of the lock for 32-bit atomics ([q] = 8) and any number of CPUs, contexts
    and locks, by induction over the steps of [QSpin], the refinement of a first-come
    first-served lock, and what goes wrong for 64-bit atomics and without a node. *)
From stdpp Require Import functions relations.
From S2P Require Import Prelude QSpin.

(** ** Roles of a context *)

(** Its place in qnodes[], from the increment of the count to the decrement. *)
Definition idx_of (p : pc) : option Z :=
  match p with
  | At _ (LFall1 i | LFall2 i | LInitLocked i | LInitNext i | LTry1 i | LTry2 i | LXchg i | LLink i _ | LWaitNode i | LReadNext i
         | LWaitHead i _ | LClaim i _ _ | LSetLocked i _ | LWaitNext i | LPass i _ | LRelR i | LRelW i _) => Some i
  | _ => None
  end.
Definition nd (s : st) (t : tid) : node := (t.1, default 0 (idx_of (pcs s t))).

(** It has set the pending bit of [l], or is in the queue of [l]. *)
Definition pend_pc (l : nat) (p : pc) : bool :=
  match p with At m (LClearPending | LWaitOwner | LTake) => bool_decide (m = l) | _ => false end.
Definition que_pc (l : nat) (p : pc) : bool :=
  match p with
  | At m (LLink _ _ | LWaitNode _ | LReadNext _ | LWaitHead _ _ | LClaim _ _ _ | LSetLocked _ _ | LWaitNext _ | LPass _ _) => bool_decide (m = l)
  | _ => false
  end.

(** ** Nodes of a CPU *)
Fixpoint below (f : nat -> pc) (k : nat) : Z :=
  match k with O => 0 | S k => below f k + match idx_of (f k) with Some _ => 1 | None => 0 end end.
Definition under (s : st) (t : tid) : Z := below (fun j => pcs s (t.1, j)) t.2.

(** What a context knows of its place, with [n] contexts below it that have one. *)
Definition place_ok (n : Z) (p : pc) : Prop :=
  match p with
  | Idle => True
  | At _ p =>
      match p with
      | LCountW m => m = n
      | LFall1 i | LFall2 i | LRelR i => i = n
      | LRelW i m => i = n /\ m = n + 1
      | LInitLocked i | LInitNext i | LTry1 i | LTry2 i | LXchg i | LLink i _ | LWaitNode i | LReadNext i
      | LWaitHead i _ | LClaim i _ _ | LSetLocked i _ | LWaitNext i | LPass i _ => i = n /\ i < MAX_NODES
      | _ => True
      end
  end.

(** ** Ghost state of a lock: its owner, the context that has set the pending bit, the queue *)
Record gl : Type := GL { own : option tid; pend : option tid; que : list tid }.
Definition some {A} (o : option A) : bool := match o with Some _ => true | None => false end.
Definition tail_of (s : st) (ts : list tid) : Z :=
  match list.last ts with Some t => encode_tail (nd s t).1 (nd s t).2 | None => 0 end.

(** [b] is behind [a] in the queue of [l]: it has still to link itself, or is linked. *)
Definition linked (s : st) (l : nat) (a b : tid) : Prop :=
  (exists i, pcs s b = At l (LLink i (nd s a)) /\ mcs_next s (nd s a) = None) \/
  (exists i, pcs s b = At l (LWaitNode i) /\ mcs_next s (nd s a) = Some (nd s b)).
Fixpoint chain (s : st) (l : nat) (a : tid) (r : list tid) : Prop :=
  match r with
  | [] => mcs_next s (nd s a) = None
  | b :: r => mcs_locked s (nd s b) = 0 /\ linked s l a b /\ chain s l b r
  end.

(** Nobody owns [l], and the pending bit, if set, is about to be taken back. *)
Definition free (s : st) (g : gl) (l : nat) : Prop :=
  own g = None /\ forall u, pend g = Some u -> pcs s u = At l LClearPending.
Definition next_ok (s : st) (a : tid) (next : option node) : Prop := next <> None -> next = mcs_next s (nd s a).
(** The head of the queue. *)
Definition head_ok (s : st) (g : gl) (l : nat) (a : tid) : Prop :=
  match pcs s a with
  | Idle => False
  | At _ p =>
      match p with
      | LWaitNode _ => mcs_locked s (nd s a) <> 0
      | LReadNext _ => True
      | LWaitHead _ next => next_ok s a next
      | LClaim i val next => val = mkword (encode_tail a.1 i) false false /\ next_ok s a next /\ free s g l
      | LSetLocked _ next => next_ok s a next /\ free s g l
      | LWaitNext _ => own g = Some a
      | LPass _ n => own g = Some a /\ mcs_next s (nd s a) = Some n
      | _ => False
      end
  end.
Definition queue_ok (s : st) (g : gl) (l : nat) : Prop :=
  match que g with [] => True | a :: r => head_ok s g l a /\ chain s l a r end.

Record LInv (s : st) (g : gl) (l : nat) : Prop := {
  l_word : word s l = mkword (tail_of s (que g)) (some (pend g)) (some (own g));
  l_own t : l ∈ held s t <-> own g = Some t;
  l_pend t : pend_pc l (pcs s t) = true <-> pend g = Some t;
  l_que t : que_pc l (pcs s t) = true <-> t ∈ que g;
  l_nodup : NoDup (que g);
  l_queue : queue_ok s g l;
  l_take t : pcs s t = At l LTake -> own g = None
}.

(** A node that is prepared for the queue. *)
Definition fresh (s : st) (t : tid) : Prop :=
  match pcs s t with
  | At _ (LInitNext _) => mcs_locked s (nd s t) = 0
  | At _ (LTry1 _ | LTry2 _ | LXchg _) => mcs_locked s (nd s t) = 0 /\ mcs_next s (nd s t) = None
  | _ => True
  end.

(** ** A first-come first-served lock *)
Record alock : Type := AL { a_owner : option tid; a_queue : list tid }.
Inductive astep : relation alock :=
  | a_skip x : astep x x
  | a_join o ts t : t ∉ ts -> astep (AL o ts) (AL o (ts ++ [t]))
  | a_grab t : astep (AL None []) (AL (Some t) [])
  | a_grant t ts : astep (AL None (t :: ts)) (AL (Some t) ts)
  | a_release t ts : astep (AL (Some t) ts) (AL None ts).

(** What the ghost state stands for: the context that waits with the pending bit set comes
    first; the head of the queue leaves when it owns the lock. *)
Definition waiter (p : pc) : bool := match p with At _ (LWaitOwner | LTake) => true | _ => false end.
Definition pend_waits (s : st) (g : gl) : list tid :=
  match pend g with Some u => if waiter (pcs s u) then [u] else [] | None => [] end.
Definition granted (p : pc) : bool := match p with At _ (LWaitNext _ | LPass _ _) => true | _ => false end.
Definition que_waits (s : st) (g : gl) : list tid :=
  match que g with a :: r => if granted (pcs s a) then r else a :: r | [] => [] end.
Definition abs (s : st) (g : gl) : alock := AL (own g) (pend_waits s g ++ que_waits s g).

(** ** Steps that a lock does not notice *)
Definition same_node (s s' : st) (u : tid) : Prop :=
  mcs_next s' (nd s u) = mcs_next s (nd s u) /\ mcs_locked s' (nd s u) = mcs_locked s (nd s u).

Lemma nd_ext s s' u : pcs s' u = pcs s u -> nd s' u = nd s u.
Proof. unfold nd. by intros ->. Qed.
Lemma nd_idx s t p i : pcs s t = p -> idx_of p = Some i -> nd s t = (t.1, i).
Proof. unfold nd. by intros -> ->. Qed.

Lemma tail_of_ext s s' ts : (forall u, u ∈ ts -> pcs s' u = pcs s u) -> tail_of s' ts = tail_of s ts.
Proof.
  intros H. unfold tail_of. destruct (list.last ts) eqn:E; [|done]. rewrite (nd_ext s s'); [done|]. apply H. apply last_Some in E as [? ->]. set_solver.
Qed.

Lemma chain_ext_next s s' l a r :
  (forall u, u ∈ r -> pcs s' u = pcs s u) -> nd s' a = nd s a -> mcs_next s' (nd s a) = mcs_next s (nd s a) -> (forall u, u ∈ r -> same_node s s' u) ->
  chain s l a r -> chain s' l a r.
Proof.
  revert a. induction r as [|b r IH]; cbn [chain]; intros a Hp Ha Na Hn.
  - by rewrite Ha, Na.
  - intros (Hl & Hk & Hc). pose proof (nd_ext s s' b ltac:(apply Hp; left)) as Eb. destruct (Hn b ltac:(left)) as [Nb Lb]. split_and!.
    + by rewrite Eb, Lb.
    + unfold linked. by rewrite Eb, Ha, Na, Hp by left.
    + apply IH; [intros; apply Hp; by right|done..|intros; apply Hn; by right|done].
Qed.
Lemma chain_ext s s' l a r :
  (forall u, u ∈ r -> pcs s' u = pcs s u) -> nd s' a = nd s a -> (forall u, u ∈ a :: r -> same_node s s' u) -> chain s l a r -> chain s' l a r.
Proof. intros Hp Ha Hn. apply chain_ext_next; [done..|apply Hn; left|intros; apply Hn; by right]. Qed.

Section frame.
Variables (s s' : st) (g : gl) (l : nat).
Hypothesis Hw : word s' l = word s l.
Hypothesis Hh : forall u, l ∈ held s' u <-> l ∈ held s u.
Hypothesis Hp : forall u, pend_pc l (pcs s u) || que_pc l (pcs s u) || pend_pc l (pcs s' u) || que_pc l (pcs s' u) = true -> pcs s' u = pcs s u.
Hypothesis Hn : forall u, que_pc l (pcs s u) = true -> same_node s s' u.
Hypothesis L : LInv s g l.

Lemma que_same u : u ∈ que g -> pcs s' u = pcs s u.
Proof. intros H%(l_que s g l L). apply Hp. rewrite H. by rewrite !orb_true_r. Qed.
Lemma pend_same u : pend g = Some u -> pcs s' u = pcs s u.
Proof. intros H%(l_pend s g l L). apply Hp. by rewrite H. Qed.

Lemma free_frame : free s g l -> free s' g l.
Proof. intros [Ho H]. split; [done|]. intros u Hu. rewrite (pend_same u Hu). auto. Qed.

Lemma queue_frame : queue_ok s g l -> queue_ok s' g l.
Proof.
  unfold queue_ok. destruct (que g) as [|a r] eqn:E; [done|]. intros [H C].
  pose proof que_same as Q. rewrite E in Q.
  assert (forall u, u ∈ a :: r -> same_node s s' u) as N by (intros u Hu; apply Hn, (l_que s g l L); by rewrite E).
  pose proof (Q a ltac:(left)) as Ea. pose proof (nd_ext s s' a Ea) as Da. destruct (N a ltac:(left)) as [N1 N2]. pose proof free_frame as F. split.
  - revert H. unfold head_ok, next_ok. rewrite Ea. destruct (pcs s a) as [|m p]; [done|]. destruct p; try done; rewrite Da, ?N1, ?N2; tauto.
  - apply (chain_ext s); [intros; apply Q; by right|done..].
Qed.

Lemma LInv_frame : LInv s' g l.
Proof.
  split.
  - rewrite Hw, (l_word s g l L). by rewrite (tail_of_ext s s') by apply que_same.
  - intros t. rewrite Hh. apply L.
  - intros t. rewrite <- (l_pend s g l L t). destruct (pend_pc l (pcs s t)) eqn:E1.
    + rewrite Hp; [done|by rewrite E1].
    + destruct (pend_pc l (pcs s' t)) eqn:E2; [|done]. rewrite <- E2, <- E1, Hp; [done|by rewrite E2, !orb_true_r].
  - intros t. rewrite <- (l_que s g l L t). destruct (que_pc l (pcs s t)) eqn:E1.
    + rewrite Hp; [done|by rewrite E1, !orb_true_r].
    + destruct (que_pc l (pcs s' t)) eqn:E2; [|done]. rewrite <- E2, <- E1, Hp; [done|by rewrite E2, !orb_true_r].
  - apply L.
  - apply queue_frame, L.
  - intros t Ht. apply (l_take s g l L t). rewrite <- Hp; [done|]. rewrite Ht. cbn. by rewrite bool_decide_eq_true_2, !orb_true_r.
Qed.

Lemma abs_frame : abs s' g = abs s g.
Proof.
  unfold abs. f_equal. f_equal.
  - unfold pend_waits. destruct (pend g) as [u|] eqn:E; [|done]. by rewrite (pend_same u E).
  - unfold que_waits. pose proof que_same as Q. destruct (que g) as [|a r]; [done|]. by rewrite Q by left.
Qed.
End frame.

Lemma nodup_cons {A} (x : A) r : NoDup (x :: r) -> (x ∉ r) /\ NoDup r.
Proof. by inversion 1. Qed.

Lemma free_ext s s' g g' l t p :
  pcs s' = <[t := p]> (pcs s) -> own g' = own g -> pend g' = pend g -> pend g <> Some t -> free s g l -> free s' g' l.
Proof. intros Hp Eo Ep Ht [H1 H2]. split; [congruence|]. rewrite Ep. intros u Hu. rewrite Hp, fn_lookup_insert_ne; [auto|]. intros ->. done. Qed.

(** Contexts behind the head are linking themselves or wait on their node. *)
Lemma chain_pc s l a r b : chain s l a r -> b ∈ r ->
  mcs_locked s (nd s b) = 0 /\ ((exists i x, pcs s b = At l (LLink i x)) \/ exists i, pcs s b = At l (LWaitNode i)).
Proof.
  revert a. induction r as [|c r IH]; intros a; [set_solver|]. cbn [chain]. intros (H1 & H2 & H3) [->|Hb]%elem_of_cons; [|by eapply IH].
  split; [done|]. destruct H2 as [(i & E & _)|(i & E & _)]; eauto.
Qed.

Lemma que_head s g l t :
  LInv s g l -> que_pc l (pcs s t) = true ->
  match pcs s t with At _ (LLink _ _) => False | At _ (LWaitNode _) => mcs_locked s (nd s t) <> 0 | _ => True end ->
  exists r, que g = t :: r /\ head_ok s g l t /\ chain s l t r.
Proof.
  intros L Hq Hm. apply (l_que s g l L) in Hq. pose proof (l_queue s g l L) as Q. unfold queue_ok in Q. destruct (que g) as [|a r]; [set_solver|].
  apply elem_of_cons in Hq as [->|Hr]; [by exists r|]. destruct Q as [_ Ch]. destruct (chain_pc s l a r t Ch Hr) as [H1 [(i & x & E)|(i & E)]]; by rewrite E in Hm.
Qed.

Section inv.
Variable NR_CPUS : Z.

Record CInv (s : st) : Prop := {
  c_count c : count s c = below (fun j => pcs s (c, j)) (depth s c);
  c_place t : place_ok (under s t) (pcs s t);
  c_live t : pcs s t <> Idle \/ held s t <> [] -> (t.2 < depth s t.1)%nat /\ 0 <= t.1 < NR_CPUS
}.

Lemma below_ext f g k : (forall j, (j < k)%nat -> f j = g j) -> below f k = below g k.
Proof. induction k as [|k IH]; intros E; cbn; [done|]. rewrite IH by (intros; apply E; lia). by rewrite (E k) by lia. Qed.
Lemma below_S f k : below f (S k) = below f k + match idx_of (f k) with Some _ => 1 | None => 0 end.
Proof. done. Qed.
Lemma below_nonneg f k : 0 <= below f k.
Proof. induction k; cbn; [done|]. case_match; lia. Qed.
Lemma below_lt f i j : (i < j)%nat -> is_Some (idx_of (f i)) -> below f i < below f j.
Proof.
  intros Hij Hi. induction j as [|j IH]; [lia|]. cbn. destruct (decide (i = j)) as [->|].
  - destruct Hi as [? ->]. lia.
  - specialize (IH ltac:(lia)). case_match; lia.
Qed.
Lemma under_nonneg s t : 0 <= under s t.
Proof. apply below_nonneg. Qed.

Lemma place_idx n p i : place_ok n p -> idx_of p = Some i -> i = n.
Proof. destruct p as [|? []]; cbn; intros; simplify_eq; tauto. Qed.

(** Two contexts never use the same node. *)
Lemma nd_inj s t u : CInv s -> is_Some (idx_of (pcs s t)) -> is_Some (idx_of (pcs s u)) -> nd s t = nd s u -> t = u.
Proof.
  intros C [i Hi] [j Hj]. destruct t as [c k], u as [d m]. unfold nd. rewrite Hi, Hj. cbn. intros [= -> ->].
  pose proof (place_idx _ _ _ (c_place s C _) Hi) as E1. pose proof (place_idx _ _ _ (c_place s C _) Hj) as E2. unfold under in *. cbn in *.
  destruct (decide (k = m)) as [->|]; [done|]. destruct (decide (k < m)%nat).
  - pose proof (below_lt (fun j => pcs s (d, j)) k m ltac:(lia) ltac:(by eexists)). lia.
  - pose proof (below_lt (fun j => pcs s (d, j)) m k ltac:(lia) ltac:(by eexists)). lia.
Qed.

Lemma running_top s t : running s t = true <-> depth s t.1 = S t.2.
Proof. unfold running. by rewrite bool_decide_eq_true. Qed.

(** A step of the context [t] to [p]. *)
Lemma CInv_goto s s' t p :
  CInv s -> running s t = true -> 0 <= t.1 < NR_CPUS ->
  pcs s' = <[t := p]> (pcs s) -> depth s' = depth s -> (forall u, u <> t -> held s' u = held s u) ->
  (forall c, c <> t.1 -> count s' c = count s c) ->
  count s' t.1 = under s t + match idx_of p with Some _ => 1 | None => 0 end ->
  place_ok (under s t) p -> CInv s'.
Proof.
  intros C R%running_top Hc Hp Hd Hh Hn Hm Hl.
  assert (forall u k, u <> t.1 \/ (k <= t.2)%nat -> below (fun j => pcs s' (u, j)) k = below (fun j => pcs s (u, j)) k) as B.
  { intros u k Hu. apply below_ext. intros j Hj. rewrite Hp, fn_lookup_insert_ne; [done|]. intros ->. cbn in Hu. destruct Hu; [done|lia]. }
  assert (forall u, u <> t -> pcs s' u = pcs s u) as Pu by (intros; by rewrite Hp, fn_lookup_insert_ne).
  split.
  - intros c. rewrite Hd. destruct (decide (c = t.1)) as [->|].
    + rewrite Hm, R, below_S, B by (right; lia). rewrite Hp, <- surjective_pairing, fn_lookup_insert. done.
    + rewrite Hn, B by auto. apply C.
  - intros u. unfold under. destruct (decide (u = t)) as [->|Hu].
    + rewrite B by (right; lia). by rewrite Hp, fn_lookup_insert.
    + rewrite (Pu u) by done. destruct (decide (u.1 = t.1)) as [E|].
      * destruct (decide (u.2 <= t.2)%nat); [rewrite B by auto; apply C|].
        destruct (pcs s u) eqn:Eu; [done|]. destruct (c_live s C u) as [H _]; [left; by rewrite Eu|]. rewrite E in H. lia.
      * rewrite B by auto. apply C.
  - intros u. rewrite Hd. destruct (decide (u = t)) as [->|Hu]; [intros _; lia|].
    rewrite Pu, Hh by done. apply C.
Qed.

(** The count of a CPU seen from its running context. *)
Lemma count_running s t : CInv s -> running s t = true ->
  count s t.1 = under s t + match idx_of (pcs s t) with Some _ => 1 | None => 0 end.
Proof. intros C R%running_top. rewrite (c_count s C), R, below_S, <- surjective_pairing. done. Qed.

Ltac other := intros; cbn; rewrite ?fn_lookup_insert_ne by done; reflexivity.
Lemma CInv_access q s t l p : CInv s -> running s t = true -> 0 <= t.1 < NR_CPUS -> pcs s t = At l p -> CInv (access q t l p s).
Proof.
  intros C R Hc E. pose proof (count_running s t C R) as N. pose proof (c_place s C t) as P. pose proof (under_nonneg s t) as U. rewrite E in N, P.
  unfold access, qspin_lock, trylock_read, trylock_cmpxchg, try_cmpxchg, queued_fetch_set_pending_acquire, xchg_tail, slowpath_entry, check_contention.
  destruct p; repeat case_match; simplify_eq; try exact C;
    (match goal with C : CInv ?x |- _ => eapply (CInv_goto x _ t); [exact C|exact R|exact Hc| |..] end; [reflexivity|reflexivity|other|other|..]);
    cbn [count set_count goto set_word set_next set_mlocked acquired set_held idx_of place_ok] in *; rewrite ?fn_lookup_insert; try (lia || done).
Qed.

(** Interrupts and releases leave the places as they are. *)
Lemma CInv_frame s s' :
  CInv s -> pcs s' = pcs s -> count s' = count s -> (forall u, held s' u <> [] -> held s u <> []) ->
  (forall c, below (fun j => pcs s (c, j)) (depth s' c) = below (fun j => pcs s (c, j)) (depth s c)) ->
  (forall u, pcs s u <> Idle \/ held s' u <> [] -> (u.2 < depth s u.1)%nat -> (u.2 < depth s' u.1)%nat) -> CInv s'.
Proof.
  intros C Hp Hn Hh Hb Hd. split.
  - intros c. rewrite Hn, Hp, Hb. apply C.
  - intros u. unfold under. rewrite Hp. apply C.
  - intros u. rewrite Hp. intros H. destruct (c_live s C u) as [H1 H2]; [destruct H; auto|]. auto.
Qed.

Lemma top_idle s c : CInv s -> pcs s (c, depth s c) = Idle.
Proof. intros C. destruct (pcs s (c, depth s c)) eqn:E; [done|]. destruct (c_live s C (c, depth s c)) as [H _]; [left; by rewrite E|]. cbn in H. lia. Qed.

Lemma CInv_irq s c : CInv s -> CInv (set_depth c (S (depth s c)) s).
Proof.
  intros C. apply (CInv_frame s); [done..| |]; cbn.
  - intros d. destruct (decide (d = c)) as [->|]; [|by rewrite fn_lookup_insert_ne]. rewrite fn_lookup_insert, below_S. cbn beta. rewrite top_idle by done. cbn. lia.
  - intros u _. destruct (decide (u.1 = c)) as [->|]; [rewrite fn_lookup_insert; lia|by rewrite fn_lookup_insert_ne].
Qed.

Lemma CInv_iret s t : CInv s -> running s t = true -> pcs s t = Idle -> held s t = [] -> CInv (set_depth t.1 (pred (depth s t.1)) s).
Proof.
  intros C R%running_top E Eh. apply (CInv_frame s); [done..| |]; cbn; rewrite R; cbn.
  - intros d. destruct (decide (d = t.1)) as [->|]; [|by rewrite fn_lookup_insert_ne]. rewrite fn_lookup_insert, R, below_S, <- surjective_pairing, E. cbn. lia.
  - intros u Hu Hl. destruct (decide (u.1 = t.1)) as [Eu|]; [rewrite Eu, fn_lookup_insert; rewrite Eu, R in Hl|by rewrite fn_lookup_insert_ne].
    destruct (decide (u.2 = t.2)) as [E2|]; [|lia]. assert (u = t) as -> by (destruct u, t; cbn in *; congruence). rewrite E, Eh in Hu. naive_solver.
Qed.

Lemma CInv_exec q s t a s' : CInv s -> 0 <= t.1 < NR_CPUS -> exec q s t a = Some s' -> CInv s'.
Proof.
  intros C Hc. unfold exec. destruct (running s t) eqn:R; [|done]. cbn [negb]. pose proof (count_running s t C R) as N. pose proof (under_nonneg s t) as U.
  destruct a, (pcs s t) as [|l' p] eqn:E; try done; intros Es; repeat case_match; simplify_eq;
    try (eapply (CInv_goto s _ t); [exact C|exact R|exact Hc|reflexivity|reflexivity|other|other|..]; cbn; lia || done);
    try (by apply CInv_irq); try by apply CInv_access.
  - apply CInv_iret; [done..|]. match goal with H : _ && _ = true |- _ => apply andb_prop in H as [_ H]; by apply bool_decide_eq_true in H end.
Qed.

(** ** The invariant *)
Record Inv (s : st) (g : nat -> gl) : Prop := {
  v_cpu : CInv s;
  v_lock l : LInv s (g l) l;
  v_fresh t : fresh s t
}.

(** A context outside of all functions, or in one of the lock [l]. *)
Definition on (l : nat) (p : pc) : Prop := p = Idle \/ exists x, p = At l x.
Lemma on_other l m p : on l p -> m <> l -> pend_pc m p = false /\ que_pc m p = false.
Proof. intros [->|[[] ->]] H; cbn; rewrite ?bool_decide_eq_false_2 by done; done. Qed.
Lemma que_idx l p : que_pc l p = true -> is_Some (idx_of p).
Proof. destruct p as [|? []]; cbn; done. Qed.
Lemma que_on l p : que_pc l p = true -> on l p.
Proof. destruct p as [|? []]; cbn; rewrite ?bool_decide_eq_true; try done; intros ->; right; by eexists. Qed.

Section step.
Variables (s s' : st) (g : nat -> gl) (l : nat) (t v : tid) (p : pc) (g' : gl).
Hypothesis I : Inv s g.
Hypothesis C' : CInv s'.
Hypothesis Hp : pcs s' = <[t := p]> (pcs s).
Hypothesis Ht : on l (pcs s t).
Hypothesis Hp' : on l p.
Hypothesis Hw : forall m, m <> l -> word s' m = word s m.
Hypothesis Hh : forall m u, m <> l -> m ∈ held s' u <-> m ∈ held s u.
(** Only the node of [v] is written, which works on the same lock. *)
Hypothesis Hn : forall u, u <> v -> is_Some (idx_of (pcs s u)) -> same_node s s' u.
Hypothesis Hv : v = t \/ que_pc l (pcs s v) = true.

Lemma pcs_other u : u <> t -> pcs s' u = pcs s u.
Proof. intros. by rewrite Hp, fn_lookup_insert_ne. Qed.
Lemma pcs_self : pcs s' t = p.
Proof. by rewrite Hp, fn_lookup_insert. Qed.

Lemma other_lock m : m <> l -> LInv s' (g m) m /\ abs s' (g m) = abs s (g m).
Proof.
  intros Hm. destruct (on_other l m _ Ht Hm) as [P1 Q1], (on_other l m _ Hp' Hm) as [P2 Q2].
  assert (forall u, pend_pc m (pcs s u) || que_pc m (pcs s u) || pend_pc m (pcs s' u) || que_pc m (pcs s' u) = true -> pcs s' u = pcs s u) as F.
  { intros u. destruct (decide (u = t)) as [->|]; [|intros; by apply pcs_other]. by rewrite pcs_self, P1, P2, Q1, Q2. }
  split; [|by apply (abs_frame s s' (g m) m); [|apply I]].
  apply (LInv_frame s); [by apply Hw|by intros; apply Hh|done| |apply I].
  intros u Hu. apply Hn; [|by eapply que_idx]. intros ->. destruct Hv as [->|Qv]; [congruence|].
  apply que_on in Qv. destruct (on_other l m _ Qv Hm). congruence.
Qed.

Lemma fresh_other u : u <> t -> fresh s' u.
Proof.
  intros Hu. pose proof (v_fresh s g I u) as F. unfold fresh in *. rewrite (nd_ext s s'), pcs_other by (done || by apply pcs_other).
  destruct (decide (u = v)) as [->|Huv].
  - destruct Hv as [->|Qv]; [done|]. by destruct (pcs s v) as [|? []].
  - destruct (pcs s u) as [|m x] eqn:E; [done|]. destruct x; try done; destruct (Hn u Huv ltac:(rewrite E; by eexists)) as [N1 N2]; by rewrite ?N1, ?N2.
Qed.

Lemma Inv_step :
  fresh s' t -> LInv s' g' l -> astep (abs s (g l)) (abs s' g') ->
  exists g2, Inv s' g2 /\ forall m, astep (abs s (g m)) (abs s' (g2 m)).
Proof.
  intros F L A. exists (<[l := g']> g). split.
  - split; [done| |].
    + intros m. destruct (decide (m = l)) as [->|]; [by rewrite fn_lookup_insert|]. rewrite fn_lookup_insert_ne by done. by apply other_lock.
    + intros u. destruct (decide (u = t)) as [->|]; [done|by apply fresh_other].
  - intros m. destruct (decide (m = l)) as [->|]; [by rewrite fn_lookup_insert|]. rewrite fn_lookup_insert_ne by done.
    destruct (other_lock m) as [_ ->]; [done|constructor].
Qed.

(** Steps outside of the queue that leave the lock as it is. *)
Lemma Inv_silent :
  v = t -> fresh s' t -> word s' l = word s l -> (forall u, l ∈ held s' u <-> l ∈ held s u) ->
  pend_pc l (pcs s t) || que_pc l (pcs s t) || pend_pc l p || que_pc l p = false ->
  exists g2, Inv s' g2 /\ forall m, astep (abs s (g m)) (abs s' (g2 m)).
Proof.
  intros Ev F W H Z. exists g.
  assert (forall u, pend_pc l (pcs s u) || que_pc l (pcs s u) || pend_pc l (pcs s' u) || que_pc l (pcs s' u) = true -> pcs s' u = pcs s u) as Fr.
  { intros u. destruct (decide (u = t)) as [->|]; [|intros; by apply pcs_other]. rewrite pcs_self. by rewrite Z. }
  assert (LInv s' (g l) l /\ abs s' (g l) = abs s (g l)) as [L A].
  { split; [|by apply (abs_frame s s' (g l) l); [|apply I]]. apply (LInv_frame s); [done..| |apply I].
    intros u Hu. apply Hn; [|by eapply que_idx]. intros Eu. rewrite Eu, Ev in Hu. by rewrite Hu, !orb_true_r in Z. }
  split.
  - split; [done| |].
    + intros m. destruct (decide (m = l)) as [->|]; [done|by apply other_lock].
    + intros u. destruct (decide (u = t)) as [->|]; [done|by apply fresh_other].
  - intros m. destruct (decide (m = l)) as [->|Hm]; [rewrite A; constructor|]. destruct (other_lock m Hm) as [_ ->]. constructor.
Qed.
End step.

Hypothesis HNR : NR_CPUS < 2 ^ _Q_TAIL_CPU_BITS.

(** Contexts that have a node, before and in the queue. *)
Definition node_pc (p : pc) : bool :=
  match p with At _ (LFall1 _ | LFall2 _ | LRelR _ | LRelW _ _) => false | _ => some (idx_of p) end.
Lemma que_node l p : que_pc l p = true -> node_pc p = true.
Proof. by destruct p as [|? []]. Qed.
Lemma node_idx p : node_pc p = true -> is_Some (idx_of p).
Proof. destruct p as [|? []]; cbn; done. Qed.
Lemma node_range s u : CInv s -> node_pc (pcs s u) = true -> 0 <= u.1 < 2 ^ _Q_TAIL_CPU_BITS - 1 /\ 0 <= (nd s u).2 < MAX_NODES.
Proof.
  intros C Hu. pose proof (c_place s C u) as P. pose proof (under_nonneg s u) as N. destruct (c_live s C u) as [_ H].
  { left. intros E. by rewrite E in Hu. }
  split; [lia|]. unfold nd. destruct (pcs s u) as [|? []]; try done; cbn in *; lia.
Qed.

Section lock.
Variables (s : st) (g : gl) (l : nat).
Hypothesis C : CInv s.
Hypothesis L : LInv s g l.

Lemma last_que u : list.last (que g) = Some u -> que_pc l (pcs s u) = true.
Proof. intros E. apply (l_que s g l L). apply last_Some in E as [? ->]. set_solver. Qed.
Lemma tail_of_ok : tail_ok (tail_of s (que g)).
Proof.
  unfold tail_of. destruct (list.last (que g)) as [u|] eqn:E; [|apply tail_ok_0].
  destruct (node_range s u C) as [H1 H2]; [by eapply que_node, last_que|]. by apply encode_tail_ok.
Qed.
Lemma tail_of_0 : tail_of s (que g) = 0 <-> que g = [].
Proof.
  unfold tail_of. destruct (list.last (que g)) as [u|] eqn:E.
  - destruct (node_range s u C) as [H1 H2]; [by eapply que_node, last_que|]. split; [by intros ?%encode_tail_nonzero|]. intros H. by rewrite H in E.
  - apply last_None in E. by rewrite E.
Qed.
(** The tail code names its context. *)
Lemma tail_of_self u : node_pc (pcs s u) = true -> tail_of s (que g) = encode_tail (nd s u).1 (nd s u).2 -> list.last (que g) = Some u.
Proof.
  intros Hu. destruct (node_range s u C Hu) as [H1 H2]. unfold tail_of. destruct (list.last (que g)) as [x|] eqn:E.
  - pose proof (last_que x E) as Qx. destruct (node_range s x C) as [H3 H4]; [by eapply que_node|]. intros Et. f_equal.
    apply (nd_inj s); [done|by eapply que_idx|by eapply node_idx|]. apply (f_equal decode_tail) in Et. by rewrite !decode_encode in Et.
  - intros Et. symmetry in Et. by apply encode_tail_nonzero in Et.
Qed.

Lemma word_zero : word s l = 0 <-> que g = [] /\ pend g = None /\ own g = None.
Proof.
  rewrite (l_word s g l L). change 0 with (mkword 0 false false). rewrite mkword_inj by (apply tail_of_ok || apply tail_ok_0). rewrite tail_of_0.
  by destruct (pend g), (own g); cbn; split; intros (? & ? & ?).
Qed.
Lemma contended : Z.land (word s l) (u32 (Z.lnot _Q_LOCKED_MASK)) = 0 <-> que g = [] /\ pend g = None.
Proof.
  rewrite (l_word s g l L), land_contended by apply tail_of_ok. change 0 with (mkword 0 false false) at 1. rewrite mkword_inj by (apply tail_of_ok || apply tail_ok_0). rewrite tail_of_0.
  destruct (pend g); cbn; naive_solver.
Qed.
Lemma locked_free : Z.land (word s l) _Q_LOCKED_MASK = 0 <-> own g = None.
Proof. rewrite (l_word s g l L), land_locked by apply tail_of_ok. by destruct (own g). Qed.
Lemma pending_free : Z.land (word s l) _Q_PENDING_MASK = 0 <-> pend g = None.
Proof. rewrite (l_word s g l L), land_pending by apply tail_of_ok. by destruct (pend g). Qed.
Lemma locked_pending_free : Z.land (word s l) _Q_LOCKED_PENDING_MASK = 0 <-> pend g = None /\ own g = None.
Proof. rewrite (l_word s g l L), land_locked_pending by apply tail_of_ok. destruct (pend g), (own g); cbn; naive_solver. Qed.
End lock.

(** ** Steps of a context [t] on its lock, to [p] and the ghost state [g'] *)
Section build.
Variables (s s' : st) (g g' : gl) (l : nat) (t : tid) (p : pc).
Hypothesis L : LInv s g l.
Hypothesis Hp : pcs s' = <[t := p]> (pcs s).

Lemma LInv_mk :
  word s' l = mkword (tail_of s' (que g')) (some (pend g')) (some (own g')) ->
  (forall u, l ∈ held s' u <-> own g' = Some u) ->
  (pend_pc l p = true <-> pend g' = Some t) -> (forall u, u <> t -> pend g' = Some u <-> pend g = Some u) ->
  (que_pc l p = true <-> t ∈ que g') -> (forall u, u <> t -> u ∈ que g' <-> u ∈ que g) ->
  NoDup (que g') -> queue_ok s' g' l -> (forall u, pend g' = Some u -> pcs s' u = At l LTake -> own g' = None) -> LInv s' g' l.
Proof.
  intros Hw Hh Pt Pu Qt Qu Nd Qo Tk.
  assert (forall u, pend_pc l (pcs s' u) = true <-> pend g' = Some u) as HP.
  { intros u. destruct (decide (u = t)) as [->|]; [by rewrite Hp, fn_lookup_insert|].
    rewrite Hp, fn_lookup_insert_ne, Pu by done. apply L. }
  split; [done..| |done|done|].
  - intros u. destruct (decide (u = t)) as [->|]; [by rewrite Hp, fn_lookup_insert|].
    rewrite Hp, fn_lookup_insert_ne, Qu by done. apply L.
  - intros u Hu. apply (Tk u); [|done]. apply HP. rewrite Hu. cbn. by apply bool_decide_eq_true_2.
Qed.

(** The waiting context of the pending bit. *)
Lemma pend_waits_ext : (forall u, pend g = Some u -> u <> t) -> pend g' = pend g -> pend_waits s' g' = pend_waits s g.
Proof. intros H. unfold pend_waits. intros ->. destruct (pend g) as [u|]; [|done]. by rewrite Hp, fn_lookup_insert_ne by (symmetry; by apply H). Qed.
Lemma que_waits_ext : t ∉ que g -> que g' = que g -> que_waits s' g' = que_waits s g.
Proof. intros H E. unfold que_waits. rewrite E. destruct (que g) as [|a r]; [done|]. rewrite Hp, fn_lookup_insert_ne; [done|]. intros ->. apply H. left. Qed.
End build.

Lemma held_acquired s s' g l t :
  LInv s g l -> own g = None -> (forall u, l ∈ held s' u <-> l ∈ <[t := l :: held s t]> (held s) u) -> forall u, l ∈ held s' u <-> Some t = Some u.
Proof.
  intros L Ho Hh u. rewrite Hh. destruct (decide (u = t)) as [->|].
  - rewrite fn_lookup_insert. split; [done|left].
  - rewrite fn_lookup_insert_ne, (l_own s g l L), Ho by done. split; congruence.
Qed.

(** Taking a free lock with one compare-and-exchange. *)
Lemma LInv_grab s s' g l t p :
  CInv s -> LInv s g l -> word s l = 0 -> pcs s' = <[t := p]> (pcs s) -> word s' l = _Q_LOCKED_VAL ->
  (forall u, l ∈ held s' u <-> l ∈ <[t := l :: held s t]> (held s) u) -> pend_pc l p = false -> que_pc l p = false ->
  LInv s' (GL (Some t) None []) l /\ astep (abs s g) (abs s' (GL (Some t) None [])).
Proof.
  intros C L Hz Hp Hw Hh P Q. apply (word_zero s g l C L) in Hz as (Eq & Ep & Eo). split.
  - eapply (LInv_mk s); cbn; [done..|by eapply held_acquired| | | | |constructor|done|done]; rewrite ?P, ?Q, ?Ep, ?Eq; set_solver.
  - unfold abs, pend_waits, que_waits. rewrite Eq, Ep, Eo. cbn. constructor.
Qed.

(** *** The queue when [t] is not in it *)
Section queue.
Variables (s s' : st) (g g' : gl) (l : nat) (t : tid) (p : pc).
Hypothesis L : LInv s g l.
Hypothesis Hp : pcs s' = <[t := p]> (pcs s).

Lemma tail_of_other ts : t ∉ ts -> tail_of s' ts = tail_of s ts.
Proof. intros H. apply tail_of_ext. intros u Hu. rewrite Hp, fn_lookup_insert_ne; [done|]. by intros ->. Qed.

Lemma queue_other :
  t ∉ que g -> que g' = que g -> (forall a, a ∈ que g -> own g = Some a -> own g' = Some a) -> (free s g l -> free s' g' l) ->
  (forall u, u ∈ que g -> same_node s s' u) -> queue_ok s' g' l.
Proof.
  intros Ht Eq Ho Hf Hn. pose proof (l_queue s g l L) as Q. unfold queue_ok in *. rewrite Eq.
  destruct (que g) as [|a r]; [done|]. destruct Q as [H Ch].
  assert (forall u, u ∈ a :: r -> pcs s' u = pcs s u) as F by (intros u Hu; rewrite Hp, fn_lookup_insert_ne; [done|by intros ->]).
  pose proof (F a ltac:(left)) as Ea. pose proof (nd_ext s s' a Ea) as Da. destruct (Hn a ltac:(left)) as [N1 N2].
  specialize (Ho a ltac:(left)). split.
  - revert H. unfold head_ok, next_ok. rewrite Ea. destruct (pcs s a) as [|m x]; [done|]. destruct x; try done; rewrite Da, ?N1, ?N2; tauto.
  - apply (chain_ext s); [intros; apply F; by right|done..].
Qed.

(** A step of the head. *)
Lemma queue_head r :
  que g = t :: r -> que g' = t :: r -> head_ok s' g' l t -> nd s' t = nd s t -> (forall u, u ∈ t :: r -> same_node s s' u) -> queue_ok s' g' l.
Proof.
  intros Eq Eq' H Ht Hn. pose proof (l_queue s g l L) as Q. pose proof (l_nodup s g l L) as Nd. unfold queue_ok in *. rewrite Eq in Q, Nd. rewrite Eq'.
  split; [done|]. apply (chain_ext s); [|done..|apply Q]. intros u Hu. rewrite Hp, fn_lookup_insert_ne; [done|]. intros ->. by apply nodup_cons in Nd as [].
Qed.
End queue.

(** *** The steps on a lock, case by case *)
Section cases.
Variables (s s' : st) (g : gl) (l : nat) (t : tid) (p : pc).
Hypothesis C : CInv s.
Hypothesis L : LInv s g l.
Hypothesis Hp : pcs s' = <[t := p]> (pcs s).

Lemma not_pend : pend_pc l (pcs s t) = false -> pend g <> Some t.
Proof. intros H E. apply (l_pend s g l L) in E. congruence. Qed.
Lemma not_que : que_pc l (pcs s t) = false -> t ∉ que g.
Proof. intros H E. apply (l_que s g l L) in E. congruence. Qed.
Lemma word_l T k b : word s l = mkword T k b -> tail_ok T -> T = tail_of s (que g) /\ k = some (pend g) /\ b = some (own g).
Proof. rewrite (l_word s g l L). intros E HT. apply mkword_inj in E; [naive_solver|by eapply tail_of_ok|done]. Qed.

Section nodes.
Hypothesis Hh : forall u, l ∈ held s' u <-> l ∈ held s u.
Hypothesis Hn : forall u, same_node s s' u.

Lemma LInv_set_pending :
  pcs s t = At l LSetPending -> word s' l = Z.lor (word s l) _Q_PENDING_VAL -> pend g = None ->
  p = At l (if negb (bool_decide (que g = [])) then LClearPending else if some (own g) then LWaitOwner else LTake) ->
  LInv s' (GL (own g) (Some t) (que g)) l /\ astep (abs s g) (abs s' (GL (own g) (Some t) (que g))).
Proof.
  intros E Hw Ep Ep'. pose proof (not_que ltac:(by rewrite E)) as Nq. split.
  - eapply (LInv_mk s s' g); [done..| |intros u; rewrite Hh; apply L| | | | |apply L| |]; cbn.
    + rewrite Hw, (l_word s g l L), lor_pending by by eapply tail_of_ok. f_equal. symmetry. by eapply tail_of_other.
    + rewrite Ep'. repeat case_match; cbn; by rewrite bool_decide_eq_true_2.
    + intros u Hu. rewrite Ep. split; congruence.
    + rewrite Ep'. repeat case_match; cbn; split; done.
    + done.
    + destruct (que g) as [|a r] eqn:Eq; [done|]. rewrite <- Eq in *. eapply (queue_other s s' g); try done. intros [Ho _]. split; [done|]. cbn. intros u [= <-].
      rewrite Hp, fn_lookup_insert, Ep', bool_decide_eq_false_2 by (rewrite Eq; done). done.
    + intros u [= <-]. rewrite Hp, fn_lookup_insert, Ep'. repeat case_match; try done. by destruct (own g).
  - unfold abs. rewrite (que_waits_ext s s' g _ t p) by done. unfold pend_waits. cbn. rewrite Ep, Hp, fn_lookup_insert, Ep'. case_bool_decide as Eq; cbn.
    + unfold que_waits. rewrite Eq. destruct (some (own g)); cbn; apply (a_join (own g) [] t); set_solver.
    + constructor.
Qed.

Lemma LInv_clear_pending :
  pcs s t = At l LClearPending -> word s' l = clear_pending 8 (word s l) -> p = At l LCountR ->
  LInv s' (GL (own g) None (que g)) l /\ astep (abs s g) (abs s' (GL (own g) None (que g))).
Proof.
  intros E Hw ->. pose proof (not_que ltac:(by rewrite E)) as Nq.
  assert (pend g = Some t) as Ep by (apply (l_pend s g l L); rewrite E; cbn; by rewrite bool_decide_eq_true_2). split.
  - eapply (LInv_mk s s' g); [done..| |intros u; rewrite Hh; apply L| | | | |apply L| |]; cbn; try done.
    + rewrite Hw, (l_word s g l L), clear_pending_word by by eapply tail_of_ok. f_equal. symmetry. by eapply tail_of_other.
    + intros u Hu. rewrite Ep. split; congruence.
    + eapply (queue_other s s' g); try done. intros [Ho _]. by split.
  - unfold abs. rewrite (que_waits_ext s s' g _ t _ Hp) by done. unfold pend_waits. cbn. rewrite Ep, E. cbn. constructor.
Qed.

Lemma LInv_owner_gone :
  pcs s t = At l LWaitOwner -> word s' l = word s l -> Z.land (word s l) _Q_LOCKED_MASK = 0 -> p = At l LTake ->
  LInv s' g l /\ astep (abs s g) (abs s' g).
Proof.
  intros E Hw Hl ->. pose proof (not_que ltac:(by rewrite E)) as Nq. apply (locked_free s g l C L) in Hl.
  assert (pend g = Some t) as Ep by (apply (l_pend s g l L); rewrite E; cbn; by rewrite bool_decide_eq_true_2). split.
  - eapply (LInv_mk s s' g); [done..| |intros u; rewrite Hh; apply L| | | | |apply L| |]; cbn; try done.
    + rewrite Hw, (l_word s g l L). f_equal. symmetry. by eapply tail_of_other.
    + by rewrite bool_decide_eq_true_2.
    + eapply (queue_other s s' g); try done. intros [_ H]. specialize (H t Ep). congruence.
  - unfold abs. rewrite (que_waits_ext s s' g _ t _ Hp) by done. unfold pend_waits. rewrite Ep, E, Hp, fn_lookup_insert. constructor.
Qed.

(** A step of the head of the queue that only moves it on. *)
Lemma LInv_head r :
  que g = t :: r -> word s' l = word s l -> nd s' t = nd s t -> que_pc l p = true -> pend_pc l p = false -> pend_pc l (pcs s t) = false ->
  granted p = granted (pcs s t) -> head_ok s' g l t -> LInv s' g l /\ astep (abs s g) (abs s' g).
Proof.
  intros Eq Hw Hd Q P P0 G H. pose proof (not_pend P0) as Np. split.
  - eapply (LInv_mk s s' g); [done..| |intros u; rewrite Hh; apply L| | | | |apply L| |]; try done.
    + rewrite Hw, (l_word s g l L). f_equal. unfold tail_of. destruct (list.last (que g)) as [x|]; [|done].
      assert (nd s' x = nd s x) as ->; [|done]. destruct (decide (x = t)) as [->|]; [done|]. apply nd_ext. by rewrite Hp, fn_lookup_insert_ne.
    + by rewrite P.
    + rewrite Q, Eq. split; [intros _; left|done].
    + by eapply (queue_head s s' g).
    + intros u Hu. rewrite Hp, fn_lookup_insert_ne by congruence. apply L.
  - unfold abs. rewrite (pend_waits_ext s s' g g t p); [|done|congruence|done]. unfold que_waits. rewrite Eq, Hp, fn_lookup_insert, G. constructor.
Qed.
End nodes.

Section takes.
Hypothesis Hh : forall u, l ∈ held s' u <-> l ∈ <[t := l :: held s t]> (held s) u.
Hypothesis Hn : forall u, same_node s s' u.

Lemma LInv_take :
  pcs s t = At l LTake -> word s' l = clear_pending_set_locked 8 (word s l) -> p = Idle ->
  LInv s' (GL (Some t) None (que g)) l /\ astep (abs s g) (abs s' (GL (Some t) None (que g))).
Proof.
  intros E Hw ->. pose proof (not_que ltac:(by rewrite E)) as Nq. pose proof (l_take s g l L t E) as Eo.
  assert (pend g = Some t) as Ep by (apply (l_pend s g l L); rewrite E; cbn; by rewrite bool_decide_eq_true_2). split.
  - eapply (LInv_mk s s' g); [done..| |by eapply held_acquired| | | | |apply L| |]; cbn; try done.
    + rewrite Hw, (l_word s g l L), take_word by by eapply tail_of_ok. f_equal. symmetry. by eapply tail_of_other.
    + intros u Hu. rewrite Ep. split; congruence.
    + eapply (queue_other s s' g); try done; [congruence|]. intros [_ H]. specialize (H t Ep). congruence.
  - unfold abs. rewrite (que_waits_ext s s' g _ t _ Hp) by done. unfold pend_waits. cbn. rewrite Ep, E, Eo. constructor.
Qed.

Lemma LInv_claim i val next :
  pcs s t = At l (LClaim i val next) -> word s l = val -> word s' l = _Q_LOCKED_VAL -> p = At l (LRelR i) ->
  LInv s' (GL (Some t) None []) l /\ astep (abs s g) (abs s' (GL (Some t) None [])).
Proof.
  intros E Hv Hw ->. destruct (que_head s g l t L) as (r & Eq & H & Ch); [rewrite E; cbn; by rewrite bool_decide_eq_true_2|by rewrite E|].
  unfold head_ok in H. rewrite E in H. destruct H as (-> & _ & Ho & _).
  assert (node_pc (pcs s t) = true) as Nt by by rewrite E. destruct (node_range s t C Nt) as [R1 R2]. rewrite (nd_idx s t _ i E) in R2 by done.
  apply word_l in Hv as (Ht & Ep & _); [|by apply encode_tail_ok]. assert (pend g = None) as Ep' by by destruct (pend g).
  assert (r = []) as ->.
  { assert (list.last (que g) = Some t) as El by (apply (tail_of_self s g l C L); [done|]; by rewrite (nd_idx s t _ i E)).
    rewrite Eq in El. pose proof (l_nodup s g l L) as Nd. rewrite Eq in Nd. apply nodup_cons in Nd as [Nd _].
    destruct r as [|b r]; [done|]. change (list.last (b :: r) = Some t) in El. apply last_Some in El as [x El]. rewrite El in Nd. set_solver. }
  split.
  - eapply (LInv_mk s s' g); [done..| |by eapply held_acquired| | | | |constructor| |]; cbn; try done; rewrite ?Ep', ?Eq; set_solver.
  - unfold abs, pend_waits, que_waits. cbn. rewrite Ep', Eq, Ho, E. cbn. constructor.
Qed.

Lemma LInv_set_locked i next :
  pcs s t = At l (LSetLocked i next) -> word s' l = set_locked 8 (word s l) -> p = At l match next with None => LWaitNext i | Some n => LPass i n end ->
  LInv s' (GL (Some t) (pend g) (que g)) l /\ astep (abs s g) (abs s' (GL (Some t) (pend g) (que g))).
Proof.
  intros E Hw ->. destruct (que_head s g l t L) as (r & Eq & H & Ch); [rewrite E; cbn; by rewrite bool_decide_eq_true_2|by rewrite E|].
  unfold head_ok in H. rewrite E in H. destruct H as (Hx & Ho & Hf). pose proof (not_pend ltac:(by rewrite E)) as Np.
  assert (nd s' t = nd s t) as Dt by (rewrite (nd_idx s t _ i E) by done; destruct next; by eapply nd_idx; [rewrite Hp, fn_lookup_insert|]). split.
  - eapply (LInv_mk s s' g); [done..| |by eapply held_acquired| | | | |apply L| |]; cbn; try done.
    + rewrite Hw, (l_word s g l L), set_locked_word by by eapply tail_of_ok. f_equal. unfold tail_of. destruct (list.last (que g)) as [x|]; [|done].
      assert (nd s' x = nd s x) as ->; [|done]. destruct (decide (x = t)) as [->|]; [done|]. apply nd_ext. by rewrite Hp, fn_lookup_insert_ne.
    + by destruct next.
    + rewrite Eq. split; [intros _; left|intros _]. destruct next; cbn; by rewrite bool_decide_eq_true_2.
    + eapply (queue_head s s' g); try done. unfold head_ok. rewrite Hp, fn_lookup_insert. destruct next as [n|]; cbn; [|done]. split; [done|].
      rewrite Dt. destruct (Hn t) as [-> _]. by rewrite <- Hx.
    + intros u Hu. rewrite Hp, fn_lookup_insert_ne by congruence. intros Hk. by rewrite (Hf u Hu) in Hk.
  - unfold abs, que_waits. rewrite (pend_waits_ext s s' g (GL (Some t) (pend g) (que g)) t _ Hp); [|congruence|done]. cbn. rewrite Eq, Ho, E, Hp, fn_lookup_insert.
    assert (granted (At l match next with Some n => LPass i n | None => LWaitNext i end) = true) as -> by by destruct next. cbn [granted]. unfold pend_waits. destruct (pend g) as [u|] eqn:Ep; [|constructor]. rewrite (Hf u eq_refl). constructor.
Qed.
End takes.

Lemma LInv_unlock :
  pcs s t = Idle -> p = Idle -> own g = Some t -> word s' l = qspin_unlock 8 (word s l) -> (forall u, same_node s s' u) ->
  (forall u, l ∈ held s' u <-> u <> t /\ l ∈ held s u) ->
  LInv s' (GL None (pend g) (que g)) l /\ astep (abs s g) (abs s' (GL None (pend g) (que g))).
Proof.
  intros E -> Eo Hw Hn Hh. pose proof (not_que ltac:(by rewrite E)) as Nq. pose proof (not_pend ltac:(by rewrite E)) as Np. split.
  - eapply (LInv_mk s s' g); [done..| | | | | | |apply L| |]; cbn; try done.
    + rewrite Hw, (l_word s g l L), unlock_word by by eapply tail_of_ok. f_equal. symmetry. by eapply tail_of_other.
    + intros u. rewrite Hh, (l_own s g l L), Eo. split; [intros [? ?]; congruence|done].
    + eapply (queue_other s s' g); try done; [intros; congruence|]. intros [H _]. congruence.
  - unfold abs. rewrite (que_waits_ext s s' g _ t _ Hp), (pend_waits_ext s s' g (GL None (pend g) (que g)) t _ Hp), Eo by (done || congruence). constructor.
Qed.

(** *** Joining the queue *)
Lemma chain_snoc a r x i :
  chain s l a r -> t ∉ a :: r -> list.last (a :: r) = Some x -> p = At l (LLink i (nd s x)) ->
  mcs_locked s (nd s' t) = 0 -> mcs_next s (nd s' t) = None -> (forall u, mcs_next s' u = mcs_next s u /\ mcs_locked s' u = mcs_locked s u) -> chain s' l a (r ++ [t]).
Proof.
  intros Ch Ht Hx Ep Hl Hn He. assert (forall u, u <> t -> pcs s' u = pcs s u) as F by (intros; by rewrite Hp, fn_lookup_insert_ne).
  revert a Ch Ht Hx. induction r as [|b r IH]; intros a; cbn [chain app].
  - intros Na Ht [= ->]. assert (nd s' x = nd s x) as Ex by (apply nd_ext, F; set_solver). split_and!.
    + by rewrite (proj2 (He _)).
    + left. exists i. rewrite Hp, fn_lookup_insert, Ex, (proj1 (He _)). done.
    + by rewrite (proj1 (He _)).
  - intros (H1 & H2 & H3) Ht Hx. assert (nd s' a = nd s a) as Ea by (apply nd_ext, F; set_solver). assert (nd s' b = nd s b) as Eb by (apply nd_ext, F; set_solver). split_and!.
    + by rewrite (proj2 (He _)), Eb.
    + unfold linked. rewrite Ea, Eb, (proj1 (He _)), F by set_solver. done.
    + apply IH; [done|set_solver|done].
Qed.

Lemma LInv_xchg i :
  pcs s t = At l (LXchg i) -> fresh s t -> word s' l = (xchg_tail 8 (encode_tail t.1 i) (word s l)).2 ->
  p = At l match list.last (que g) with Some x => LLink i (nd s x) | None => LWaitHead i None end ->
  (forall u, l ∈ held s' u <-> l ∈ held s u) -> (forall u, mcs_next s' u = mcs_next s u /\ mcs_locked s' u = mcs_locked s u) ->
  LInv s' (GL (own g) (pend g) (que g ++ [t])) l /\ astep (abs s g) (abs s' (GL (own g) (pend g) (que g ++ [t]))).
Proof.
  intros E Fr Hw Ep Hh He. pose proof (not_que ltac:(by rewrite E)) as Nq. pose proof (not_pend ltac:(by rewrite E)) as Np.
  assert (nd s t = (t.1, i)) as Dt by by eapply nd_idx. assert (nd s' t = (t.1, i)) as Dt'.
  { unfold nd. rewrite Hp, fn_lookup_insert, Ep. by destruct (list.last (que g)). }
  destruct (node_range s t C ltac:(by rewrite E)) as [R1 R2]. rewrite Dt in R2. unfold fresh in Fr. rewrite E, Dt in Fr. destruct Fr as [Fl Fn].
  assert (que_pc l p = true /\ pend_pc l p = false /\ granted p = false) as (Q & P & G).
  { rewrite Ep. destruct (list.last (que g)); cbn; by rewrite bool_decide_eq_true_2. }
  split.
  - eapply (LInv_mk s s' g); [done..| |intros u; rewrite Hh; apply L| | | | | | |]; cbn; try done.
    + rewrite Hw, (l_word s g l L), xchg_tail_word by (by eapply tail_of_ok || by apply encode_tail_ok). cbn. f_equal. unfold tail_of. by rewrite last_snoc, Dt'.
    + by rewrite P.
    + rewrite Q. set_solver.
    + set_solver.
    + apply list.NoDup_app. split_and!; [apply L|set_solver|apply NoDup_singleton].
    + pose proof (l_queue s g l L) as Qo. unfold queue_ok in *. cbn. destruct (que g) as [|a r] eqn:Eq; cbn [app].
      * unfold head_ok. rewrite Hp, fn_lookup_insert, Ep. cbn. split; [by intros []|]. by rewrite Dt', (proj1 (He _)).
      * destruct Qo as [H Ch]. destruct (list.last (a :: r)) as [x|] eqn:El; [|by apply last_None in El].
        assert (pcs s' a = pcs s a) as Ea by (rewrite Hp, fn_lookup_insert_ne by set_solver; done). split.
        -- revert H. unfold head_ok, next_ok. rewrite Ea, (nd_ext s s' a Ea). destruct (pcs s a) as [|m y]; [done|].
           assert (free s g l -> free s' (GL (own g) (pend g) (a :: r ++ [t])) l) by by eapply free_ext.
           destruct y; try done; rewrite ?(proj1 (He _)), ?(proj2 (He _)); tauto.
        -- eapply chain_snoc; try done; by rewrite Dt'.
    + intros u Hu. rewrite Hp, fn_lookup_insert_ne by congruence. apply L.
  - unfold abs. rewrite (pend_waits_ext s s' g (GL (own g) (pend g) (que g ++ [t])) t _ Hp); [|congruence|done].
    assert (que_waits s' (GL (own g) (pend g) (que g ++ [t])) = que_waits s g ++ [t]) as ->.
    { unfold que_waits. cbn. destruct (que g) as [|a r]; cbn; [by rewrite Hp, fn_lookup_insert, G|]. rewrite Hp, fn_lookup_insert_ne by set_solver. by destruct (granted (pcs s a)). }
    rewrite (assoc_L (++)). cbn. constructor. unfold pend_waits, que_waits. rewrite elem_of_app. intros [H|H].
    + destruct (pend g) as [u|]; [|set_solver]. destruct (waiter (pcs s u)); set_solver.
    + destruct (que g) as [|a r]; [set_solver|]. case_match; set_solver.
Qed.

(** *** Linking a node behind its predecessor *)
Lemma que_idx_of u : u ∈ que g -> is_Some (idx_of (pcs s u)).
Proof. intros H%(l_que s g l L). by eapply que_idx. Qed.

Section link.
Variables (i : Z) (prev : node).
Hypothesis E : pcs s t = At l (LLink i prev).
Hypothesis Ep : p = At l (LWaitNode i).
Hypothesis Hn : mcs_next s' = <[prev := Some (t.1, i)]> (mcs_next s).
Hypothesis Hl : mcs_locked s' = mcs_locked s.

Lemma link_nd u : nd s' u = nd s u.
Proof.
  destruct (decide (u = t)) as [->|]; [|apply nd_ext; by rewrite Hp, fn_lookup_insert_ne].
  unfold nd. by rewrite Hp, fn_lookup_insert, E, Ep.
Qed.
Lemma link_other x u : prev = nd s x -> x ∈ que g -> u ∈ que g -> u <> x -> same_node s s' u.
Proof.
  intros -> Hx Hu Hux. split; [|by rewrite Hl]. rewrite Hn, fn_lookup_insert_ne; [done|]. intros Ed. apply Hux.
  symmetry. apply (nd_inj s); [done|by apply que_idx_of..|done].
Qed.

Lemma chain_link a r :
  (forall u, u ∈ a :: r -> u ∈ que g) -> NoDup (a :: r) -> t ∈ r -> chain s l a r ->
  exists x, x ∈ a :: r /\ prev = nd s x /\ mcs_next s (nd s x) = None /\ chain s' l a r.
Proof.
  revert a. induction r as [|b r IH]; intros a Hq Nd Ht; [set_solver|]. apply nodup_cons in Nd as [Na Nd]. cbn [chain]. intros (H1 & H2 & H3).
  destruct (decide (b = t)) as [->|Hb].
  - destruct H2 as [(j & E2 & N2)|(j & E2 & _)]; [|congruence]. assert (prev = nd s a) as Pa by congruence.
    exists a. split_and!; [left|done|done|..].
    + by rewrite link_nd, Hl.
    + right. exists i. rewrite !link_nd, Hp, fn_lookup_insert, Ep, Hn, <- Pa, fn_lookup_insert. split; [done|]. by rewrite (nd_idx s t _ i E).
    + apply nodup_cons in Nd as [Nt _]. apply (chain_ext s); [|apply link_nd| |done].
      * intros u Hu. rewrite Hp, fn_lookup_insert_ne; [done|]. by intros ->.
      * intros u Hu. apply (link_other a); [done|apply Hq; left|apply Hq; by right|]. by intros ->.
  - destruct (IH b) as (x & Hx & Px & Nx & Ch); [intros u Hu; apply Hq; by right|done|set_solver|done|].
    exists x. split_and!; [by right|done|done|by rewrite link_nd, Hl| |done].
    assert (same_node s s' a) as [Sa _] by (apply (link_other x); [done|apply Hq; by right|apply Hq; left|by intros ->]).
    unfold linked. rewrite !link_nd, Sa. replace (pcs s' b) with (pcs s b); [done|]. by rewrite Hp, fn_lookup_insert_ne.
Qed.

Lemma LInv_link :
  word s' l = word s l -> (forall u, l ∈ held s' u <-> l ∈ held s u) ->
  exists x, que_pc l (pcs s x) = true /\ prev = nd s x /\ LInv s' g l /\ astep (abs s g) (abs s' g).
Proof.
  intros Hw Hh. assert (que_pc l (pcs s t) = true) as Qt by (rewrite E; cbn; by rewrite bool_decide_eq_true_2). pose proof (not_pend ltac:(by rewrite E)) as Np.
  pose proof (proj1 (l_que s g l L t) Qt) as Mt. pose proof (l_queue s g l L) as Qo. pose proof (l_nodup s g l L) as Nd. unfold queue_ok in Qo.
  destruct (que g) as [|a r] eqn:Eq; [set_solver|]. destruct Qo as [H Ch].
  assert (a <> t) as Hat by (intros ->; unfold head_ok in H; by rewrite E in H).
  destruct (chain_link a r) as (x & Hx & Px & Nx & Ch'); [by rewrite Eq|done|set_solver|done|].
  exists x. split_and!; [by apply (l_que s g l L); rewrite Eq|done| |].
  - eapply (LInv_mk s s' g); [done..| |intros u; rewrite Hh; apply L| | | | |apply L| |]; try done.
    + rewrite Hw, (l_word s g l L). f_equal. unfold tail_of. destruct (list.last (que g)) as [y|]; [|done]. by rewrite link_nd.
    + by rewrite Ep.
    + rewrite Ep, Eq. cbn. by rewrite bool_decide_eq_true_2.
    + unfold queue_ok. rewrite Eq. split; [|done]. revert H. unfold head_ok, next_ok. rewrite Hp, fn_lookup_insert_ne, link_nd, Hl by done.
      assert (free s g l -> free s' g l) by by eapply free_ext. destruct (decide (a = x)) as [->|].
      * rewrite Nx. destruct (pcs s x) as [|m []]; try done; naive_solver.
      * assert (same_node s s' a) as [Sa _] by (apply (link_other x); rewrite ?Eq; [done..|left|done]). rewrite Sa. destruct (pcs s a) as [|m []]; try done; tauto.
    + intros u Hu. rewrite Hp, fn_lookup_insert_ne by congruence. apply L.
  - unfold abs. rewrite (pend_waits_ext s s' g g t p); [|done|congruence|done]. unfold que_waits. rewrite Eq, Hp, fn_lookup_insert_ne by done. constructor.
Qed.
End link.

(** *** Handing the queue on *)
Lemma LInv_pass i n :
  pcs s t = At l (LPass i n) -> p = At l (LRelR i) -> mcs_next s' = mcs_next s -> mcs_locked s' = <[n := 1]> (mcs_locked s) ->
  word s' l = word s l -> (forall u, l ∈ held s' u <-> l ∈ held s u) ->
  exists b, que_pc l (pcs s b) = true /\ n = nd s b /\ LInv s' (GL (own g) (pend g) (tail (que g))) l /\ abs s' (GL (own g) (pend g) (tail (que g))) = abs s g.
Proof.
  intros E Ep Hn Hl Hw Hh. pose proof (not_pend ltac:(by rewrite E)) as Np.
  destruct (que_head s g l t L) as (r & Eq & H & Ch); [rewrite E; cbn; by rewrite bool_decide_eq_true_2|by rewrite E|].
  unfold head_ok in H. rewrite E in H. destruct H as [Eo En].
  destruct r as [|b r]; cbn [chain] in Ch; [congruence|]. destruct Ch as (Lb & [(j & _ & N0)|(j & Eb & Nb)] & Ch); [congruence|]. assert (n = nd s b) as -> by congruence.
  pose proof (l_nodup s g l L) as Nd. rewrite Eq in Nd. apply nodup_cons in Nd as [Nt Nd]. pose proof (nodup_cons b r Nd) as [Nb' _].
  assert (b <> t) as Hbt by set_solver. assert (pcs s' b = pcs s b) as Pb by by rewrite Hp, fn_lookup_insert_ne.
  pose proof que_idx_of as Qi. rewrite Eq in Qi.
  exists b. split_and!; [rewrite Eb; cbn; by rewrite bool_decide_eq_true_2|done| |].
  - eapply (LInv_mk s s' g); [done..| |intros u; rewrite Hh; apply L| | | | | | |]; cbn; rewrite ?Eq; cbn [tail]; try done.
    + rewrite Hw, (l_word s g l L), Eq. f_equal. unfold tail_of. change (list.last (t :: b :: r)) with (list.last (b :: r)).
      destruct (list.last (b :: r)) as [x|] eqn:Ex; [|done]. assert (x ∈ b :: r) by (apply last_Some in Ex as [? ->]; set_solver).
      rewrite (nd_ext s s' x); [done|]. rewrite Hp, fn_lookup_insert_ne; [done|]. by intros ->.
    + by rewrite Ep.
    + rewrite Ep. cbn. set_solver.
    + set_solver.
    + unfold queue_ok. cbn. unfold head_ok. rewrite Pb, Eb, (nd_ext s s' b Pb), Hl, fn_lookup_insert. split; [done|]. apply (chain_ext_next s); [|by apply nd_ext|by rewrite Hn| |done].
      * intros u Hu. rewrite Hp, fn_lookup_insert_ne; [done|]. intros ->. set_solver.
      * intros u Hu. split; [by rewrite Hn|]. rewrite Hl, fn_lookup_insert_ne; [done|]. intros Ed. assert (b = u) as <- by (apply (nd_inj s); [done|apply Qi; set_solver..|done]). done.
    + intros u Hu. rewrite Hp, fn_lookup_insert_ne by congruence. apply L.
  - unfold abs. rewrite (pend_waits_ext s s' g (GL (own g) (pend g) (tail (que g))) t p); [|done|congruence|done]. f_equal. f_equal.
    unfold que_waits. cbn [que]. rewrite Eq. cbn [tail]. by rewrite E, Pb, Eb.
Qed.
End cases.

(** ** Every step keeps the invariant and is a step of the first-come first-served lock *)
Definition simulated (s s' : st) (g : nat -> gl) : Prop := exists g', Inv s' g' /\ forall m, astep (abs s (g m)) (abs s' (g' m)).

Lemma simulated_refl s g : Inv s g -> simulated s s g.
Proof. exists g. split; [done|constructor]. Qed.

Lemma held_acq l t m u (h : tid -> list nat) : m <> l -> m ∈ <[t := l :: h t]> h u <-> m ∈ h u.
Proof. intros Hm. destruct (decide (u = t)) as [->|]; [rewrite fn_lookup_insert; set_solver|by rewrite fn_lookup_insert_ne]. Qed.
Lemma word_oth (f : nat -> Z) l m w : m <> l -> <[l := w]> f m = f m.
Proof. intros. by rewrite fn_lookup_insert_ne. Qed.
Lemma all_same s s' : mcs_next s' = mcs_next s -> mcs_locked s' = mcs_locked s -> forall u, same_node s s' u.
Proof. intros Hn Hk u. by split; rewrite ?Hn, ?Hk. Qed.

Section accesses.
Variables (s : st) (g : nat -> gl) (l : nat) (t : tid) (x : loc).
Hypothesis I : Inv s g.
Hypothesis E : pcs s t = At l x.

Lemma on_here y : on l (At l y).
Proof. right. by eexists. Qed.
Lemma on_t : on l (pcs s t).
Proof. rewrite E. apply on_here. Qed.

(** A step that moves [t] on and neither touches the lock nor its roles. *)
Lemma sim_move s' p :
  CInv s' -> pcs s' = <[t := p]> (pcs s) -> on l p -> word s' = word s -> held s' = held s -> mcs_next s' = mcs_next s -> mcs_locked s' = mcs_locked s ->
  fresh s' t -> pend_pc l (At l x) || que_pc l (At l x) || pend_pc l p || que_pc l p = false -> simulated s s' g.
Proof.
  intros C' Hp Hl Hw Hh Hn Hk F R. apply (Inv_silent s s' g l t t p); try done; rewrite ?E; try done; try (apply on_here); intros; rewrite ?Hw, ?Hh; try done; [|by left].
  by split; rewrite ?Hn, ?Hk.
Qed.

(** A step that changes the lock but no node. *)
Lemma sim_lock s' p g' :
  CInv s' -> pcs s' = <[t := p]> (pcs s) -> on l p -> (forall m, m <> l -> word s' m = word s m) -> (forall m u, m <> l -> m ∈ held s' u <-> m ∈ held s u) ->
  mcs_next s' = mcs_next s -> mcs_locked s' = mcs_locked s -> fresh s' t -> LInv s' g' l /\ astep (abs s (g l)) (abs s' g') -> simulated s s' g.
Proof.
  intros C' Hp Hl Hw Hh Hn Hk F [L A]. apply (Inv_step s s' g l t t p g'); try done; [apply on_t| |by left]. intros. by split; rewrite ?Hn, ?Hk.
Qed.
End accesses.

Ltac on_l := first [apply on_here | by left].
Ltac fresh_t := unfold fresh; cbn; rewrite fn_lookup_insert; done.
Ltac go_on := eapply sim_move; [eassumption|eassumption|eassumption|reflexivity|on_l|reflexivity..|try fresh_t|try reflexivity].
(** The step is [s'], with the case distinctions of the code made. *)
Ltac start s' Es := intros I E R Ht;
  match goal with |- simulated _ (access _ ?t ?l ?x ?s) ?g =>
    pose proof (CInv_access 8 s t l x (v_cpu s g I) R Ht E) as C'; remember (access 8 t l x s) as s' eqn:Es; unfold access, qspin_lock, trylock_read, trylock_cmpxchg, try_cmpxchg in Es end.
Ltac split_if H := match type of H with context [if ?b then _ else _] => destruct b eqn:?Hb end.
Abbreviation sim s g l t x := (Inv s g -> pcs s t = At l x -> running s t = true -> 0 <= t.1 < NR_CPUS -> simulated s (access 8 t l x s) g).

Lemma sim_count_r s g l t : sim s g l t LCountR.
Proof. start s' Es. subst s'. go_on. Qed.
Lemma sim_count_w s g l t n : sim s g l t (LCountW n).
Proof. start s' Es. split_if Es; subst s'; go_on. Qed.
Lemma sim_spin s g l t n : sim s g l t (LSpin n).
Proof. start s' Es. split_if Es; subst s'; [|go_on]. unfold check_contention in *. match goal with |- context [if ?b then LCountR else _] => destruct b end; go_on. Qed.
Lemma sim_rel_r s g l t i : sim s g l t (LRelR i).
Proof. start s' Es. subst s'. go_on. Qed.
Lemma sim_rel_w s g l t i n : sim s g l t (LRelW i n).
Proof. start s' Es. subst s'. go_on. Qed.

(** Steps that change the lock. *)
Ltac at_lock := eapply sim_lock; [eassumption|eassumption|eassumption|reflexivity|on_l|intros; cbn; by apply word_oth|try (intros; cbn; by apply held_acq); try done|reflexivity|reflexivity|try fresh_t|].
Ltac grabs := at_lock; eapply LInv_grab; [by eapply v_cpu|by eapply v_lock|by apply Z.eqb_eq|reflexivity|cbn; apply fn_lookup_insert|done|reflexivity|reflexivity].

Lemma sim_fast s g l t : sim s g l t LFast.
Proof.
  start s' Es. split_if Es; subst s'; [grabs|]. unfold slowpath_entry, check_contention in *.
  repeat match goal with |- context [if ?b then _ else _] => destruct b end; go_on.
Qed.
Lemma sim_try1 s g l t i : sim s g l t (LTry1 i).
Proof.
  start s' Es. pose proof (v_fresh s g I t) as F. unfold fresh in F. rewrite E, (nd_idx s t _ i E) in F by done.
  split_if Es; subst s'; go_on; unfold fresh, nd; cbn; rewrite fn_lookup_insert; done.
Qed.
Lemma sim_try2 s g l t i : sim s g l t (LTry2 i).
Proof.
  start s' Es. pose proof (v_fresh s g I t) as F. unfold fresh in F. rewrite E, (nd_idx s t _ i E) in F by done.
  split_if Es; subst s'; [grabs|]. go_on. unfold fresh, nd; cbn; rewrite fn_lookup_insert; done.
Qed.
Lemma sim_fall1 s g l t i : sim s g l t (LFall1 i).
Proof. start s' Es. split_if Es; subst s'; [go_on|by apply simulated_refl]. Qed.
Lemma sim_fall2 s g l t i : sim s g l t (LFall2 i).
Proof. start s' Es. split_if Es; subst s'; [grabs|go_on]. Qed.
Lemma sim_user1 s g l t : sim s g l t LUser1.
Proof. start s' Es. split_if Es; subst s'; go_on. Qed.
Lemma sim_user2 s g l t : sim s g l t LUser2.
Proof. start s' Es. split_if Es; subst s'; [grabs|go_on]. Qed.

(** Preparing the node. *)
Lemma own_node s t u i p : CInv s -> pcs s t = p -> idx_of p = Some i -> u <> t -> is_Some (idx_of (pcs s u)) -> nd s u <> (t.1, i).
Proof.
  intros C Et Ei Hu Hi Ed. apply Hu. apply (nd_inj s); [done|done|by rewrite Et, Ei|]. by rewrite Ed, (nd_idx s t p i).
Qed.
Lemma sim_init_locked s g l t i : sim s g l t (LInitLocked i).
Proof.
  start s' Es. subst s'. eapply (Inv_silent s _ g l t t); try eassumption; try reflexivity; try on_l; try done; try (by rewrite E; on_l).
  - intros u Hu Hi. split; cbn; [done|]. rewrite fn_lookup_insert_ne; [done|]. intros Ed. symmetry in Ed. revert Ed. by eapply own_node; [eapply v_cpu|..].
  - unfold fresh, nd; cbn. rewrite fn_lookup_insert. cbn. by rewrite fn_lookup_insert.
  - by rewrite E.
Qed.
Lemma sim_init_next s g l t i : sim s g l t (LInitNext i).
Proof.
  start s' Es. pose proof (v_fresh s g I t) as F. unfold fresh in F. rewrite E, (nd_idx s t _ i E) in F by done.
  subst s'. eapply (Inv_silent s _ g l t t); try eassumption; try reflexivity; try on_l; try done; try (by rewrite E; on_l).
  - intros u Hu Hi. split; cbn; [|done]. rewrite fn_lookup_insert_ne; [done|]. intros Ed. symmetry in Ed. revert Ed. by eapply own_node; [eapply v_cpu|..].
  - unfold fresh, nd; cbn. rewrite fn_lookup_insert. cbn. by rewrite fn_lookup_insert.
  - by rewrite E.
Qed.

(** The pending bit. *)
Lemma sim_set_pending s g l t : sim s g l t LSetPending.
Proof.
  start s' Es. pose proof (v_cpu s g I) as C. pose proof (v_lock s g I l) as L. cbn [queued_fetch_set_pending_acquire] in Es.
  destruct (pend (g l)) as [u|] eqn:Ep.
  - assert (Z.lor (word s l) _Q_PENDING_VAL = word s l) as Ew.
    { rewrite (l_word s (g l) l L), lor_pending by (by eapply tail_of_ok). by rewrite Ep. }
    rewrite Ew in Es. assert (Z.land (word s l) (u32 (Z.lnot _Q_LOCKED_MASK)) <> 0) as H1 by (rewrite (contended s (g l) l C L), Ep; naive_solver).
    assert (Z.land (word s l) _Q_PENDING_MASK <> 0) as H2 by (by rewrite (pending_free s (g l) l C L), Ep).
    apply Z.eqb_neq in H1, H2. rewrite H1, H2 in Es. cbn [negb] in Es. subst s'.
    eapply (Inv_silent s _ g l t t); try eassumption; try reflexivity; try on_l; try done; try (by rewrite E; on_l).
    + intros m Hm. cbn. by apply word_oth.
    + fresh_t.
    + cbn. by rewrite fn_lookup_insert.
    + by rewrite E.
  - assert (s' = goto t (At l (if negb (bool_decide (que (g l) = [])) then LClearPending else if some (own (g l)) then LWaitOwner else LTake)) (set_word l (Z.lor (word s l) _Q_PENDING_VAL) s)) as ->.
    { rewrite Es. pose proof (contended s (g l) l C L) as H1. pose proof (pending_free s (g l) l C L) as H2. pose proof (locked_free s (g l) l C L) as H3.
      rewrite Ep in H1, H2. rewrite (proj2 H2) by done. case_bool_decide as Eq; cbn [negb].
      - rewrite (proj2 H1) by done. cbn [negb Z.eqb]. destruct (own (g l)) eqn:Eo; cbn [some].
        + assert (Z.land (word s l) _Q_LOCKED_MASK <> 0) as N by (by rewrite H3). apply Z.eqb_neq in N. by rewrite N.
        + by rewrite (proj2 H3).
      - assert (Z.land (word s l) (u32 (Z.lnot _Q_LOCKED_MASK)) <> 0) as N by naive_solver. apply Z.eqb_neq in N. by rewrite N. }
    clear Es. at_lock.
    { unfold fresh. cbn. rewrite fn_lookup_insert. by destruct (negb (bool_decide (que (g l) = []))), (some (own (g l))). }
    eapply LInv_set_pending; try done. cbn. by rewrite fn_lookup_insert.
Qed.
Lemma sim_clear_pending s g l t : sim s g l t LClearPending.
Proof. start s' Es. subst s'. at_lock. eapply LInv_clear_pending; try done; [by eapply v_cpu|by eapply v_lock|]. cbn. by rewrite fn_lookup_insert. Qed.
Lemma sim_wait_owner s g l t : sim s g l t LWaitOwner.
Proof.
  start s' Es. split_if Es; subst s'; [|by apply simulated_refl]. apply Z.eqb_eq in Hb.
  eapply sim_lock; [eassumption|eassumption|eassumption|reflexivity|on_l|done..|fresh_t|]. eapply LInv_owner_gone; try done; [by eapply v_cpu|by eapply v_lock].
Qed.
Lemma sim_take s g l t : sim s g l t LTake.
Proof. start s' Es. subst s'. at_lock. eapply LInv_take; try done; [by eapply v_cpu|by eapply v_lock|]. cbn. by rewrite fn_lookup_insert. Qed.

(** The queue. *)
Lemma sim_xchg s g l t i : sim s g l t (LXchg i).
Proof.
  start s' Es. pose proof (v_cpu s g I) as C. pose proof (v_lock s g I l) as L.
  assert (s' = goto t (At l match list.last (que (g l)) with Some x => LLink i (nd s x) | None => LWaitHead i None end)
    (set_word l (xchg_tail 8 (encode_tail t.1 i) (word s l)).2 s)) as ->.
  { rewrite Es. destruct (node_range s t C ltac:(by rewrite E)) as [R1 R2]. rewrite (nd_idx s t _ i E) in R2 by done.
    rewrite (l_word s (g l) l L), xchg_tail_word by (by eapply tail_of_ok || by apply encode_tail_ok). cbn [snd].
    pose proof (tail_of_ok s (g l) l C L) as To.
    assert (Z.land (tail_of s (que (g l))) _Q_TAIL_MASK = tail_of s (que (g l))) as ->.
    { pose proof (land_tail (tail_of s (que (g l))) false false To) as H. replace (mkword (tail_of s (que (g l))) false false) with (tail_of s (que (g l))) in H; [done|].
      unfold mkword. destruct To as (y & -> & _). rewrite (Z.mul_comm 65536), Z.div_mul by lia. cbn. lia. }
    unfold tail_of. destruct (list.last (que (g l))) as [y|] eqn:Ey; [|done].
    destruct (node_range s y C) as [R3 R4]; [by eapply que_node, last_que|]. rewrite decode_encode by done. rewrite <- surjective_pairing.
    pose proof (encode_tail_nonzero (nd s y).1 (nd s y).2 R3 R4) as N. apply Z.eqb_neq in N. by rewrite N. }
  clear Es. at_lock.
  { unfold fresh. cbn. rewrite fn_lookup_insert. by destruct (list.last (que (g l))). }
  eapply LInv_xchg; try done; [by eapply v_fresh|]. cbn. by rewrite fn_lookup_insert.
Qed.

Lemma sim_link s g l t i prev : sim s g l t (LLink i prev).
Proof.
  start s' Es. subst s'. destruct (LInv_link s (goto t (At l (LWaitNode i)) (set_next prev (Some (t.1, i)) s)) (g l) l t _ (v_cpu s g I) (v_lock s g I l) eq_refl i prev E eq_refl eq_refl eq_refl eq_refl)
    as (x & Qx & Px & L & A); [done|].
  eapply (Inv_step s _ g l t x _ (g l)); try eassumption; try reflexivity; try on_l; try done; try (by rewrite E; on_l); [| |fresh_t].
  - intros u Hu Hi. split; [|done]. cbn. rewrite fn_lookup_insert_ne; [done|]. rewrite Px. intros Ed. apply Hu. symmetry.
    apply (nd_inj s); [by eapply v_cpu|by eapply que_idx|done..].
  - by right.
Qed.

(** Steps of the head of the queue. *)
Ltac to_head L r Er H Ch :=
  lazymatch goal with E : pcs ?s ?t = At ?l _ |- simulated ?s _ ?g =>
    pose proof (v_lock s g ltac:(eassumption) l) as L;
    destruct (que_head s (g l) l t L) as (r & Er & H & Ch); [rewrite E; cbn; by rewrite bool_decide_eq_true_2|rewrite E; try done|unfold head_ok in H; rewrite E in H] end.
Ltac head_step :=
  match goal with E : pcs _ _ = At _ _ |- _ =>
    eapply sim_lock; [eassumption|eassumption|eassumption|reflexivity|on_l|done..|fresh_t|]; eapply LInv_head;
      first [done | by eapply v_lock | (unfold nd; cbn; rewrite fn_lookup_insert; by rewrite E) | (cbn; by rewrite bool_decide_eq_true_2)
            | (by rewrite E) | (unfold head_ok, next_ok; cbn; rewrite fn_lookup_insert)] end.
Lemma goto_nd s t l x y i : pcs s t = At l x -> idx_of (At l x) = Some i -> idx_of (At l y) = Some i -> nd (goto t (At l y) s) t = (t.1, i).
Proof. intros E H1 H2. eapply nd_idx; [cbn; by rewrite fn_lookup_insert|done]. Qed.

Lemma sim_wait_node s g l t i : sim s g l t (LWaitNode i).
Proof.
  start s' Es. split_if Es; subst s'; [by apply simulated_refl|]. apply Z.eqb_neq in Hb. to_head L r Er H Ch; [by rewrite (nd_idx s t _ i E)|]. head_step. done.
Qed.
Lemma sim_read_next s g l t i : sim s g l t (LReadNext i).
Proof. start s' Es. subst s'. to_head L r Er H Ch. head_step. by erewrite goto_nd. Qed.
Lemma sim_wait_head s g l t i next : sim s g l t (LWaitHead i next).
Proof.
  start s' Es. split_if Es; [|subst s'; by apply simulated_refl]. apply Z.eqb_eq in Hb. to_head L r Er H Ch.
  apply (locked_pending_free s (g l) l (v_cpu s g I) L) in Hb as [Hp Ho].
  assert (forall y, free (goto t (At l y) s) (g l) l) as F by (split; [done|]; rewrite Hp; done).
  unfold next_ok in H. rewrite (nd_idx s t _ i E) in H by done.
  split_if Es; subst s'; head_step; split_and!; try done; try (by erewrite goto_nd).
  apply Z.eqb_eq in Hb. rewrite (l_word s (g l) l L), Hp, Ho in *. rewrite land_tail in Hb by (eapply tail_of_ok; [by eapply v_cpu|done]). by rewrite Hb.
Qed.
Lemma sim_claim s g l t i val next : sim s g l t (LClaim i val next).
Proof.
  start s' Es. to_head L r Er H Ch. split_if Es; subst s'.
  - apply Z.eqb_eq in Hb. at_lock. eapply LInv_claim; try done; [by eapply v_cpu|]. cbn. by rewrite fn_lookup_insert.
  - destruct H as (_ & H & F). head_step. split.
    + by erewrite goto_nd, <- (nd_idx s t _ i E).
    + destruct F as [F1 F2]. split; [done|]. intros u Hu. cbn. rewrite fn_lookup_insert_ne; [auto|]. intros ->. specialize (F2 u Hu). congruence.
Qed.
Lemma sim_set_locked s g l t i next : sim s g l t (LSetLocked i next).
Proof.
  start s' Es. assert (s' = goto t (At l match next with None => LWaitNext i | Some n => LPass i n end) (acquired t l (set_word l (set_locked 8 (word s l)) s))) as -> by (rewrite Es; by destruct next).
  at_lock; [unfold fresh; cbn; rewrite fn_lookup_insert; by destruct next|]. eapply LInv_set_locked; try done; [by eapply v_cpu|by eapply v_lock|]. cbn. by rewrite fn_lookup_insert.
Qed.
Lemma sim_wait_next s g l t i : sim s g l t (LWaitNext i).
Proof.
  start s' Es. destruct (mcs_next s (t.1, i)) as [n|] eqn:En; subst s'; [|by apply simulated_refl]. to_head L r Er H Ch. head_step. by erewrite goto_nd.
Qed.
Lemma sim_pass s g l t i n : sim s g l t (LPass i n).
Proof.
  start s' Es. subst s'. destruct (LInv_pass s (goto t (At l (LRelR i)) (set_mlocked n 1 s)) (g l) l t _ (v_cpu s g I) (v_lock s g I l) eq_refl i n E eq_refl eq_refl eq_refl eq_refl)
    as (b & Qb & -> & L & A); [done|].
  eapply (Inv_step s _ g l t b _ _); try exact L; try eassumption; try reflexivity; try on_l; try done; try (by rewrite E; on_l); [| |fresh_t|rewrite A; constructor].
  - intros u Hu Hi. split; [done|]. cbn. rewrite fn_lookup_insert_ne; [done|]. intros Ed. apply Hu. symmetry.
    apply (nd_inj s); [by eapply v_cpu|by eapply que_idx|done..].
  - by right.
Qed.

Lemma sim_access s g l t x : sim s g l t x.
Proof.
  destruct x; auto using sim_fast, sim_spin, sim_set_pending, sim_clear_pending, sim_wait_owner, sim_take, sim_count_r, sim_count_w, sim_fall1, sim_fall2,
    sim_init_locked, sim_init_next, sim_try1, sim_try2, sim_xchg, sim_link, sim_wait_node, sim_read_next, sim_wait_head, sim_claim, sim_set_locked,
    sim_wait_next, sim_pass, sim_rel_r, sim_rel_w, sim_user1, sim_user2.
Qed.

(** Interrupts do not concern the locks. *)
Lemma sim_depth s g c d : Inv s g -> CInv (set_depth c d s) -> simulated s (set_depth c d s) g.
Proof. intros I C'. exists g. split; [|constructor]. split; [done| |apply I]. intros l. by apply (LInv_frame s); [..|apply I]. Qed.

Lemma sim_call s g t l x : Inv s g -> CInv (goto t (At l x) s) -> pcs s t = Idle -> fresh (goto t (At l x) s) t -> pend_pc l (At l x) || que_pc l (At l x) = false ->
  simulated s (goto t (At l x) s) g.
Proof.
  intros I C' E F H. eapply (Inv_silent s _ g l t t); try eassumption; try reflexivity; try on_l; try done; try (by rewrite E; left). rewrite E. by apply orb_false_iff in H as [-> ->].
Qed.

Lemma sim_unlock s g t l s' :
  Inv s g -> CInv s' -> pcs s t = Idle -> l ∈ held s t ->
  s' = goto t Idle (set_held t (filter (fun k => k <> l) (held s t)) (set_word l (qspin_unlock 8 (word s l)) s)) -> simulated s s' g.
Proof.
  intros I C' E Hl ->. pose proof (v_lock s g I l) as L. apply (l_own s (g l) l L) in Hl as Ho.
  assert (forall m u, m ∈ <[t := filter (fun k => k <> l) (held s t)]> (held s) u <-> (m = l -> u <> t) /\ m ∈ held s u) as H.
  { intros m u. destruct (decide (u = t)) as [->|]; [rewrite fn_lookup_insert, list_elem_of_filter; naive_solver|rewrite fn_lookup_insert_ne by done; naive_solver]. }
  match goal with |- simulated _ ?x _ =>
    assert (LInv x (GL None (pend (g l)) (que (g l))) l /\ astep (abs s (g l)) (abs x (GL None (pend (g l)) (que (g l))))) as [L' A] end.
  { apply (LInv_unlock s _ (g l) l t Idle); try done; [by eapply v_cpu|cbn; by rewrite fn_lookup_insert|]. intros u. cbn. rewrite H. naive_solver. }
  eapply (Inv_step s _ g l t t Idle (GL None (pend (g l)) (que (g l)))); try eassumption; try reflexivity; try on_l; try done.
  - intros m Hm. cbn. by apply word_oth.
  - intros m u Hm. cbn. rewrite H. naive_solver.
  - fresh_t.
Qed.

Lemma sim_exec s g t a s' : Inv s g -> 0 <= t.1 < NR_CPUS -> exec 8 s t a = Some s' -> simulated s s' g.
Proof.
  intros I Ht He. pose proof (CInv_exec 8 s t a s' (v_cpu s g I) Ht He) as C'. revert He. unfold exec. destruct (running s t) eqn:R; [|done]. cbn [negb].
  destruct a, (pcs s t) as [|l' x] eqn:E; try done; intros Es; repeat case_match; simplify_eq.
  - apply sim_call; try done. fresh_t.
  - apply sim_call; try done. fresh_t.
  - eapply sim_unlock; try done. by eapply bool_decide_eq_true_1.
  - by apply sim_access.
  - by apply sim_depth.
  - by apply sim_depth.
  - by apply sim_depth.
Qed.

Definition ghost0 : nat -> gl := fun _ => GL None None [].
Lemma Inv_init : Inv init ghost0.
Proof.
  split; [|intros l|intros t; done].
  - split; cbn; [done|done|]. intros t []; done.
  - split; cbn; try done; try (intros t; set_solver). constructor.
Qed.
End inv.
