(* ===== verification/QSpinThm.v ===== *)
(** * Queued spinlock: what it guarantees

    The theorems on the lock of [QSpin], from the invariant of [QSpinInv]: mutual exclusion,
    refinement of a first-come first-served lock, absence of deadlock; and the two cases in
    which the lock does not do its work: atomics of 64 bits, and contexts without a node. *)
From stdpp Require Import functions relations.
From S2P Require Import Prelude QSpin QSpinInv.

(** An execution: a state and the states behind it. *)
Inductive path {A} (R : relation A) : A -> list A -> Prop :=
  | path_nil x : path R x []
  | path_cons x y ys : R x y -> path R y ys -> path R x (y :: ys).

(** A context waits for [l] and has its place in the order of service. *)
Definition waits (s : st) (l : nat) (t : tid) : bool :=
  match pcs s t with
  | At m (LWaitOwner | LTake | LLink _ _ | LWaitNode _ | LReadNext _ | LWaitHead _ _ | LClaim _ _ _ | LSetLocked _ _) => bool_decide (m = l)
  | _ => false
  end.

(** The state of the locks [A] describes [s]. *)
Definition agrees (s : st) (A : nat -> alock) : Prop :=
  forall l t, (l ∈ held s t <-> a_owner (A l) = Some t) /\ (waits s l t = true <-> t ∈ a_queue (A l)).

Section theorems.
Variable NR_CPUS : Z.
Hypothesis HNR : NR_CPUS < 2 ^ _Q_TAIL_CPU_BITS.

Lemma Inv_reachable s : reachable 8 NR_CPUS s -> exists g, Inv NR_CPUS s g.
Proof.
  intros H. refine (rtc_ind_r (fun s => exists g, Inv NR_CPUS s g) init _ _ s H); [exists ghost0; by apply Inv_init|].
  intros y z _ [] [g I]. edestruct sim_exec as (g' & I' & _); eauto.
Qed.

Lemma agrees_abs s g : Inv NR_CPUS s g -> agrees s (fun l => abs s (g l)).
Proof.
  intros I l t. pose proof (v_lock _ s g I l) as L. split; [apply (l_own s (g l) l L)|]. cbn. rewrite elem_of_app.
  assert (t ∈ pend_waits s (g l) <-> pend_pc l (pcs s t) && waiter (pcs s t) = true) as ->.
  { unfold pend_waits. pose proof (l_pend s (g l) l L) as H. destruct (pend (g l)) as [u|] eqn:Ep.
    - destruct (decide (t = u)) as [->|Ht].
      + rewrite (proj2 (H u) eq_refl). cbn. destruct (waiter (pcs s u)); set_solver.
      + destruct (pend_pc l (pcs s t)) eqn:E; [apply H in E; congruence|]. cbn. destruct (waiter (pcs s u)); set_solver.
    - destruct (pend_pc l (pcs s t)) eqn:E; [by apply H in E|]. set_solver. }
  assert (t ∈ que_waits s (g l) <-> que_pc l (pcs s t) && negb (granted (pcs s t)) = true) as ->.
  { unfold que_waits. rewrite andb_true_iff, (l_que s (g l) l L). pose proof (l_nodup s (g l) l L) as Nd. pose proof (l_queue s (g l) l L) as Q. unfold queue_ok in Q.
    destruct (que (g l)) as [|a r]; [set_solver|]. destruct Q as [_ Ch]. apply nodup_cons in Nd as [Na _].
    assert (forall b, b ∈ r -> granted (pcs s b) = false) as Hr.
    { intros b Hb. destruct (chain_pc s l a r b Ch Hb) as [_ [(? & ? & ->)|(? & ->)]]; done. }
    destruct (granted (pcs s a)) eqn:G; rewrite elem_of_cons.
    - split; [intros Hb; rewrite (Hr t Hb); tauto|]. intros [[->|?] Hg]; [by rewrite G in Hg|done].
    - split; [intros [->|Hb]; [rewrite G|rewrite (Hr t Hb)]; tauto|tauto]. }
  unfold waits. destruct (pcs s t) as [|m []]; cbn; rewrite ?andb_true_r, ?andb_false_r; naive_solver.
Qed.

Lemma path_sim ss s g : Inv NR_CPUS s g -> path (step 8 NR_CPUS) s ss ->
  exists As, path (fun A B => forall l, astep (A l) (B l)) (fun l => abs s (g l)) As /\ Forall2 agrees ss As.
Proof.
  revert s g. induction ss as [|s' ss IH]; intros s g I H.
  - exists []. split; constructor.
  - inversion H as [|? ? ? S P]; subst. destruct S as [s s' t a Ht He]. destruct (sim_exec NR_CPUS HNR s g t a s' I Ht He) as (g' & I' & A).
    destruct (IH s' g' I' P) as (As & PA & F). exists ((fun l => abs s' (g' l)) :: As). split; [by constructor|]. constructor; [|done]. by apply agrees_abs.
Qed.
End theorems.

(** ** Concrete executions *)
Definition after (q : Z) (tr : list (tid * act)) : st := default init (run q tr init).
Fixpoint states (q : Z) (tr : list (tid * act)) (s : st) : list st :=
  match tr with [] => [] | (t, a) :: tr => match exec q s t a with Some s' => s' :: states q tr s' | None => [] end end.
Definition cpus_ok (NR_CPUS : Z) (tr : list (tid * act)) : bool := forallb (fun x => (0 <=? x.1.1) && (x.1.1 <? NR_CPUS)) tr.

Lemma states_path q NR_CPUS tr s : cpus_ok NR_CPUS tr = true -> path (step q NR_CPUS) s (states q tr s).
Proof.
  revert s. induction tr as [|[t a] tr IH]; intros s; cbn; [constructor|]. intros [Ht H]%andb_prop. destruct (exec q s t a) as [s'|] eqn:E; [|constructor].
  constructor; [|by apply IH]. apply (Step _ _ s s' t a); [lia|done].
Qed.
Lemma run_rtc q NR_CPUS tr s s' : cpus_ok NR_CPUS tr = true -> run q tr s = Some s' -> rtc (step q NR_CPUS) s s'.
Proof.
  revert s. induction tr as [|[t a] tr IH]; intros s; cbn; [intros _ [= ->]; constructor|]. intros [Ht H]%andb_prop. destruct (exec q s t a) as [s1|] eqn:E; [|done].
  cbn. intros Hr. apply rtc_l with s1; [|by apply IH]. apply (Step _ _ s s1 t a); [lia|done].
Qed.
Lemma after_reachable q NR_CPUS tr : cpus_ok NR_CPUS tr = true -> some (run q tr init) = true -> reachable q NR_CPUS (after q tr).
Proof. intros H Hr. unfold after. destruct (run q tr init) as [s|] eqn:E; [|done]. by apply (run_rtc q NR_CPUS tr). Qed.

(** Contexts that do not occur in an execution stay as they are. *)
Lemma exec_other q s t a s' u : exec q s t a = Some s' -> u <> t -> pcs s' u = pcs s u /\ held s' u = held s u.
Proof.
  unfold exec. intros H Hu. destruct (negb _); [done|]. destruct a, (pcs s t) as [|l' x]; try done; repeat case_match; simplify_eq; cbn; rewrite ?fn_lookup_insert_ne by done; try done.
  unfold access, qspin_lock, trylock_read, trylock_cmpxchg, try_cmpxchg, queued_fetch_set_pending_acquire, xchg_tail. destruct x; repeat case_match; simplify_eq; cbn; rewrite ?fn_lookup_insert_ne by done; done.
Qed.
Lemma run_other q tr s s' u : run q tr s = Some s' -> u ∉ map fst tr -> pcs s' u = pcs s u /\ held s' u = held s u.
Proof.
  revert s. induction tr as [|[t a] tr IH]; intros s; cbn; [by intros [= ->]|]. destruct (exec q s t a) as [s1|] eqn:E; [|done]. cbn. intros H Hu.
  apply not_elem_of_cons in Hu as [H1 H2]. destruct (IH s1 H H2) as [-> ->]. by apply (exec_other q s t a).
Qed.
Lemma after_all q tr (P : pc -> list nat -> bool) :
  P Idle [] = true -> forallb (fun x => P (pcs (after q tr) x.1) (held (after q tr) x.1)) tr = true -> forall u, P (pcs (after q tr) u) (held (after q tr) u) = true.
Proof.
  intros H0 H u. destruct (decide (u ∈ map fst tr)) as [Hu|Hu].
  - apply list_elem_of_fmap in Hu as (x & -> & Hx). rewrite forallb_forall in H. apply H. by apply list_elem_of_In.
  - unfold after. destruct (run q tr init) as [s'|] eqn:E; [|done]. cbn. destruct (run_other q tr init s' u E Hu) as [-> ->]. done.
Qed.

(** One CPU takes the lock, a second one waits with the pending bit, a third one in the
    queue; the first two release it again. *)
Definition steps (t : tid) (n : nat) : list (tid * act) := replicate n (t, AStep).
Definition three_cpus : list (tid * act) :=
  (((0, 0%nat), ALock 0) :: steps (0, 0%nat) 1) ++ (((1, 0%nat), ALock 0) :: steps (1, 0%nat) 2) ++ (((2, 0%nat), ALock 0) :: steps (2, 0%nat) 8) ++
  [((0, 0%nat), AUnlock 0)] ++ steps (1, 0%nat) 2 ++ [((1, 0%nat), AUnlock 0)] ++ steps (2, 0%nat) 2.

(** C5: Mutual exclusion.  For any number of CPUs that the check at the start of the slow path
    allows, any number of locks, contexts and nested interrupts and any interleaving of
    their accesses, two contexts never hold the same lock. *)
Theorem qspin_mutex NR_CPUS s l t u :
  NR_CPUS < 2 ^ _Q_TAIL_CPU_BITS -> reachable 8 NR_CPUS s -> l ∈ held s t -> l ∈ held s u -> t = u.
Proof.
  intros HNR H Ht Hu. destruct (Inv_reachable NR_CPUS HNR s H) as [g I]. pose proof (l_own s (g l) l (v_lock _ s g I l)) as O.
  apply O in Ht, Hu. congruence.
Qed.

Lemma qspin_mutex_witness :
  reachable 8 3 (after 8 three_cpus) /\ 0%nat ∈ held (after 8 three_cpus) (2, 0%nat) /\
  (0%nat ∈ held (after 8 three_cpus) (1, 0%nat) -> (1, 0%nat) = (2, 0%nat) :> tid).
Proof.
  assert (reachable 8 3 (after 8 three_cpus)) as H by (apply after_reachable; vm_compute; reflexivity).
  assert (0%nat ∈ held (after 8 three_cpus) (2, 0%nat)) as H2 by (apply list_elem_of_In; vm_compute; tauto).
  split; [exact H|split; [exact H2|]]. intros H1. apply (qspin_mutex 3 (after 8 three_cpus) 0); [vm_compute; reflexivity|exact H|exact H1|exact H2].
Defined.

(** C6: First come, first served.  Every execution of the lock is one of an abstract lock with
    an owner and a queue: contexts join the queue at its end, the lock is granted to the first
    of the queue or, when nobody waits, to whoever asks, and the owner and the waiting
    contexts of both agree in every state. *)
Theorem qspin_refines NR_CPUS ss :
  NR_CPUS < 2 ^ _Q_TAIL_CPU_BITS -> path (step 8 NR_CPUS) init ss ->
  exists As, path (fun A B => forall l, astep (A l) (B l)) (fun _ => AL None []) As /\ Forall2 agrees ss As.
Proof. intros HNR H. apply (path_sim NR_CPUS HNR ss init ghost0); [by apply Inv_init|done]. Qed.

Lemma qspin_refines_witness :
  exists As, path (fun A B => forall l, astep (A l) (B l)) (fun _ => AL None []) As /\ Forall2 agrees (states 8 three_cpus init) As.
Proof. apply (qspin_refines 3 (states 8 three_cpus init)); [vm_compute; reflexivity|apply states_path; vm_compute; reflexivity]. Defined.

(** ** No deadlock *)

(** A context that has seen others at [l] and goes to the queue, or found no node. *)
Definition comes (l : nat) (p : pc) : bool :=
  match p with
  | At m (LClearPending | LCountR | LCountW _ | LFall1 _ | LFall2 _ | LInitLocked _ | LInitNext _ | LTry1 _ | LTry2 _ | LXchg _) => bool_decide (m = l)
  | _ => false
  end.
Definition falls (l : nat) (p : pc) : bool := match p with At m (LFall1 _ | LFall2 _) => bool_decide (m = l) | _ => false end.
(** It owns [l] and waits, or will wait, for its successor. *)
Definition wants_next (l : nat) (p : pc) : bool :=
  match p with At m (LSetLocked _ None | LWaitNext _) => bool_decide (m = l) | _ => false end.
(** The head of the queue that failed to leave alone has, or will have, a successor. *)
Definition NInv (s : st) : Prop :=
  forall l a, wants_next l (pcs s a) = true -> exists u, u <> a /\ (que_pc l (pcs s u) || comes l (pcs s u)) = true.

Lemma access_other q s t l x u : u <> t -> pcs (access q t l x s) u = pcs s u.
Proof.
  intros Hu. unfold access, qspin_lock, trylock_read, trylock_cmpxchg, try_cmpxchg, queued_fetch_set_pending_acquire, xchg_tail.
  destruct x; repeat case_match; simplify_eq; cbn; rewrite ?fn_lookup_insert_ne by done; done.
Qed.

Section progress.
Variable NR_CPUS : Z.
Hypothesis HNR : NR_CPUS < 2 ^ _Q_TAIL_CPU_BITS.
Variables (s : st) (g : nat -> gl).
Hypothesis I : Inv NR_CPUS s g.

Lemma wants_que l a : wants_next l (pcs s a) = true -> que_pc l (pcs s a) = true.
Proof. destruct (pcs s a) as [|m []]; try done; cbn; by repeat case_match. Qed.
Lemma at_head l t : que_pc l (pcs s t) = true ->
  match pcs s t with At _ (LLink _ _) => False | At _ (LWaitNode _) => mcs_locked s (nd s t) <> 0 | _ => True end ->
  exists r, que (g l) = t :: r /\ head_ok s (g l) l t /\ chain s l t r.
Proof. apply que_head, I. Qed.
Lemma wants_head l a : wants_next l (pcs s a) = true -> exists r, que (g l) = a :: r.
Proof.
  intros W. destruct (at_head l a) as (r & E & _); [by apply wants_que| |by exists r]. destruct (pcs s a) as [|m []]; done.
Qed.

(** A context behind the head stays on its way while the queue is not empty. *)
Lemma busy_step l a t x :
  wants_next l (pcs s a) = true -> t <> a -> pcs s t = At l x -> que_pc l (At l x) || comes l (At l x) = true ->
  que_pc l (pcs (access 8 t l x s) t) || comes l (pcs (access 8 t l x s) t) = true.
Proof.
  intros W Hta E B. destruct (wants_head l a W) as (r & Eq). pose proof (v_cpu _ s g I) as C. pose proof (v_lock _ s g I l) as L.
  assert (word s l <> 0) as Hw by (rewrite (word_zero NR_CPUS HNR s (g l) l C L), Eq; naive_solver). apply Z.eqb_neq in Hw.
  assert (forall P : Prop, que_pc l (pcs s t) = true -> (match pcs s t with At _ (LLink _ _) => False | At _ (LWaitNode _) => mcs_locked s (nd s t) <> 0 | _ => True end) -> P) as Nh.
  { intros P Q M. destruct (at_head l t Q M) as (r' & E' & _). congruence. }
  unfold access, qspin_lock, trylock_read, trylock_cmpxchg, try_cmpxchg. rewrite ?Hw. rewrite E in Nh.
  destruct x; try done; try (apply Nh; [cbn; by rewrite bool_decide_eq_true_2|exact Logic.I]); cbn; rewrite ?fn_lookup_insert; cbn; rewrite ?bool_decide_eq_true_2 by done; try done.
  - case_match; cbn; rewrite fn_lookup_insert; cbn; by rewrite ?bool_decide_eq_true_2, ?orb_true_r.
  - rewrite E. cbn. by rewrite bool_decide_eq_true_2.
  - case_match; cbn; rewrite fn_lookup_insert; cbn; by rewrite ?bool_decide_eq_true_2, ?orb_true_r.
  - case_match; cbn; rewrite ?fn_lookup_insert, ?E; cbn; by rewrite bool_decide_eq_true_2.
Qed.

Lemma last_other l t r i : que (g l) = t :: r -> nd s t = (t.1, i) -> tail_of s (que (g l)) <> encode_tail t.1 i -> exists y, y <> t /\ que_pc l (pcs s y) = true.
Proof.
  intros Eq Dt. unfold tail_of. destruct (list.last (que (g l))) as [y|] eqn:Ey.
  - intros H. exists y. split; [|by apply (last_que NR_CPUS HNR s (g l) l (v_cpu _ s g I) (v_lock _ s g I l))]. intros ->. by rewrite Dt in H.
  - apply last_None in Ey. congruence.
Qed.

(** The steps that make a context wait for its successor. *)
Lemma wants_step t l x m :
  NInv s -> pcs s t = At l x -> wants_next m (pcs (access 8 t l x s) t) = true -> exists u, u <> t /\ que_pc m (pcs s u) || comes m (pcs s u) = true.
Proof.
  intros N E W. pose proof (v_cpu _ s g I) as C. pose proof (v_lock _ s g I l) as L.
  assert (wants_next m (pcs s t) = true -> exists u, u <> t /\ que_pc m (pcs s u) || comes m (pcs s u) = true) as Old by apply N.
  revert W. unfold access, qspin_lock, trylock_read, trylock_cmpxchg, try_cmpxchg, slowpath_entry, check_contention, queued_fetch_set_pending_acquire, xchg_tail.
  destruct x; repeat match goal with |- context [if ?b then _ else _] => destruct b eqn:?Hb end; repeat case_match;
    cbn; rewrite ?fn_lookup_insert; try done; rewrite ?E; try done; intros W; try (apply Old; by rewrite E).
  - destruct next; [done|]. cbn in W. apply bool_decide_eq_true in W as <-. destruct (at_head l t) as (r & Eq & _); [rewrite E; cbn; by rewrite bool_decide_eq_true_2|by rewrite E|].
    destruct (last_other l t r i Eq) as (y & Hy & Qy); [by eapply nd_idx| |exists y; by rewrite Qy].
    apply Z.eqb_neq in Hb0. rewrite (l_word s (g l) l L), land_tail in Hb0 by (by eapply tail_of_ok). done.
  - destruct next; [done|]. cbn in W. apply bool_decide_eq_true in W as <-.
    destruct (at_head l t) as (r & Eq & H & _); [rewrite E; cbn; by rewrite bool_decide_eq_true_2|by rewrite E|].
    unfold head_ok in H. rewrite E in H. destruct H as (-> & _ & Ho & Hf). apply Z.eqb_neq in Hb.
    destruct (pend (g l)) as [u|] eqn:Ep.
    + exists u. rewrite (Hf u eq_refl). cbn. rewrite bool_decide_eq_true_2 by done. split; [|done]. intros ->. specialize (Hf t eq_refl). congruence.
    + destruct (last_other l t r i Eq) as (y & Hy & Qy); [by eapply nd_idx| |exists y; by rewrite Qy].
      intros Ht. apply Hb. by rewrite (l_word s (g l) l L), Ht, Ep, Ho.
Qed.

Lemma NInv_access t l x : NInv s -> pcs s t = At l x -> NInv (access 8 t l x s).
Proof.
  intros N E m a W. destruct (decide (a = t)) as [->|Ha].
  - destruct (wants_step t l x m N E W) as (u & Hu & B). exists u. split; [done|]. by rewrite access_other.
  - rewrite access_other in W by done. destruct (N m a W) as (u & Hu & B). exists u. split; [done|]. destruct (decide (u = t)) as [->|]; [|by rewrite access_other].
    assert (m = l) as ->; [|by apply (busy_step l a); [done..|by rewrite <- E]].
    rewrite E in B. destruct x; cbn in B; rewrite ?orb_false_r in B; try done; by apply bool_decide_eq_true in B.
Qed.

(** States that differ in contexts outside of the locks, or that begin a call. *)
Lemma NInv_ext s' t : NInv s -> (forall u, u <> t -> pcs s' u = pcs s u) -> (forall l, que_pc l (pcs s t) || comes l (pcs s t) = false) ->
  (forall l, wants_next l (pcs s' t) = false) -> NInv s'.
Proof.
  intros N Hp B W m a Wa. destruct (decide (a = t)) as [->|Ha]; [by rewrite W in Wa|]. rewrite Hp in Wa by done. destruct (N m a Wa) as (u & Hu & Bu).
  exists u. split; [done|]. destruct (decide (u = t)) as [->|]; [by rewrite B in Bu|by rewrite Hp].
Qed.

Lemma NInv_exec t a s' : NInv s -> exec 8 s t a = Some s' -> NInv s'.
Proof.
  intros N. unfold exec. destruct (negb _); [done|]. destruct a, (pcs s t) as [|l' x] eqn:E; try done; repeat case_match; intros [= <-]; try done;
    try (apply (NInv_ext _ t); try done; rewrite ?E; try done; intros; cbn; rewrite ?fn_lookup_insert; try done; by rewrite fn_lookup_insert_ne).
  by apply NInv_access.
Qed.
End progress.

Lemma NInv_reachable NR_CPUS s : NR_CPUS < 2 ^ _Q_TAIL_CPU_BITS -> reachable 8 NR_CPUS s -> exists g, Inv NR_CPUS s g /\ NInv s.
Proof.
  intros HNR H. refine (rtc_ind_r (fun s => exists g, Inv NR_CPUS s g /\ NInv s) init _ _ s H); [exists ghost0; split; [by apply Inv_init|by intros l a W]|].
  intros y z _ [y' z' t a Ht He] (g & I & N). destruct (sim_exec NR_CPUS HNR y' g t a z' I Ht He) as (g' & I' & _). exists g'. split; [done|]. by apply (NInv_exec NR_CPUS HNR y' g I t a).
Qed.

(** The context [u] is moved on by its next access. *)
Definition moves (s : st) (l : nat) (u : tid) : Prop := exists x, pcs s u = At l x /\ pcs (access 8 u l x s) u <> At l x.
(** It has acquired [l] in the call it is still in. *)
Definition leaving (l : nat) (p : pc) : bool := match p with At m (LWaitNext _ | LPass _ _ | LRelR _ | LRelW _ _) => bool_decide (m = l) | _ => false end.
(** The accesses that may have to be repeated. *)
Definition spins (x : loc) : bool := match x with LWaitOwner | LFall1 _ | LWaitNode _ | LWaitHead _ _ | LWaitNext _ => true | _ => false end.

Lemma no_spin s l u x : pcs s u = At l x -> spins x = false -> moves s l u.
Proof.
  intros E H. exists x. split; [done|]. unfold access, qspin_lock, trylock_read, trylock_cmpxchg, try_cmpxchg, slowpath_entry, check_contention, queued_fetch_set_pending_acquire, xchg_tail.
  destruct x; try done; repeat match goal with |- context [if ?b then _ else _] => destruct b eqn:?Hb end; repeat case_match; cbn; rewrite fn_lookup_insert; try done.
  intros [= Hc]. apply orb_false_iff in Hb as [_ Hb]. apply Nat.eqb_neq in Hb. lia.
Qed.

(** How far a context is from the end of its call. *)
Definition rank (x : loc) : nat :=
  match x with
  | LFast => 30 | LSpin n => 26 + n | LSetPending => 25 | LClearPending | LWaitOwner => 24 | LTake => 23 | LCountR => 22 | LCountW _ => 21
  | LFall1 _ | LFall2 _ => 20 | LInitLocked _ => 19 | LInitNext _ => 18 | LTry1 _ => 17 | LTry2 _ => 16 | LXchg _ => 15 | LLink _ _ => 14 | LWaitNode _ => 13
  | LReadNext _ => 12 | LWaitHead _ _ => 11 | LClaim _ _ _ => 10 | LSetLocked _ _ => 9 | LWaitNext _ => 8 | LPass _ _ => 7 | LRelR _ => 6 | LRelW _ _ => 5
  | LUser1 => 2 | LUser2 => 1
  end.
Lemma access_rank s l u x y :
  pcs s u = At l x -> falls l (At l x) = false -> pcs (access 8 u l x s) u = At l y -> y = x \/ (rank y < rank x)%nat.
Proof.
  intros E F. unfold access, qspin_lock, trylock_read, trylock_cmpxchg, try_cmpxchg, slowpath_entry, check_contention, queued_fetch_set_pending_acquire, xchg_tail.
  destruct x; repeat match goal with |- context [if ?b then _ else _] => destruct b eqn:?Hb end; repeat case_match; cbn; rewrite ?fn_lookup_insert, ?E; intros [= <-]; cbn; auto; try lia;
    try (cbn in F; by rewrite bool_decide_eq_true_2 in F).
  apply orb_false_iff in Hb as [_ Hb]. apply Nat.eqb_neq in Hb. lia.
Qed.

Section deadlock.
Variables (NR_CPUS : Z) (s : st) (g : nat -> gl) (l : nat).
Hypothesis HNR : NR_CPUS < 2 ^ _Q_TAIL_CPU_BITS.
Hypothesis I : Inv NR_CPUS s g.
Hypothesis N : NInv s.
Hypothesis Hf : forall u, falls l (pcs s u) = false.

Lemma comes_moves u : comes l (pcs s u) = true -> moves s l u.
Proof.
  specialize (Hf u). destruct (pcs s u) as [|m x] eqn:E; [done|]. intros H. assert (m = l) as -> by (destruct x; cbn in H; try done; by apply bool_decide_eq_true in H).
  eapply no_spin; [done|]. destruct x; cbn in *; congruence.
Qed.

(** The owner on its way out. *)
Lemma leaving_moves o : leaving l (pcs s o) = true -> exists u, moves s l u.
Proof.
  intros H. destruct (pcs s o) as [|m x] eqn:E; [done|]. assert (m = l) as -> by (destruct x; cbn in H; try done; by apply bool_decide_eq_true in H).
  destruct (spins x) eqn:S; [|exists o; by eapply no_spin]. destruct x; try done.
  destruct (at_head NR_CPUS s g I l o) as (r & Eq & _ & Ch); [by rewrite E; cbn; rewrite bool_decide_eq_true_2|by rewrite E|].
  destruct (mcs_next s (o.1, i)) as [n|] eqn:En.
  { exists o, (LWaitNext i). split; [done|]. cbn. rewrite En. cbn. by rewrite fn_lookup_insert. }
  destruct r as [|b r].
  - destruct (N l o) as (u & Hu & B); [rewrite E; cbn; by rewrite bool_decide_eq_true_2|]. apply orb_true_iff in B as [B|B]; [|exists u; by apply comes_moves].
    apply (l_que s (g l) l (v_lock _ s g I l)) in B. rewrite Eq in B. set_solver.
  - destruct Ch as (_ & [(j & Eb & _)|(j & _ & Nb)] & _); [exists b; by eapply no_spin|]. rewrite (nd_idx s o _ i E) in Nb by done. congruence.
Qed.

(** The head of the queue when nobody holds the lock or has set the pending bit. *)
Lemma head_moves a r : own (g l) = None -> pend (g l) = None -> que (g l) = a :: r -> moves s l a.
Proof.
  intros Eo Ep Eq. pose proof (v_lock _ s g I l) as L. pose proof (l_queue s (g l) l L) as Q. unfold queue_ok in Q. rewrite Eq in Q. destruct Q as [H _].
  assert (que_pc l (pcs s a) = true) as Qa by (apply (l_que s (g l) l L); rewrite Eq; left). unfold head_ok in H. destruct (pcs s a) as [|m x] eqn:E; [done|].
  assert (m = l) as -> by (destruct x; cbn in Qa; try done; by apply bool_decide_eq_true in Qa).
  destruct (spins x) eqn:S; [|by eapply no_spin]. destruct x; try done; [| |congruence].
  - eexists. split; [done|]. cbn. rewrite (nd_idx s a _ i E) in H by done. apply Z.eqb_neq in H. rewrite H. cbn. by rewrite fn_lookup_insert.
  - eexists. split; [done|]. cbn. rewrite (proj2 (locked_pending_free NR_CPUS HNR s (g l) l (v_cpu _ s g I) L)) by done. cbn. case_match; cbn; by rewrite fn_lookup_insert.
Qed.

Lemma pend_moves u : own (g l) = None -> pend (g l) = Some u -> moves s l u.
Proof.
  intros Eo Ep. pose proof (v_lock _ s g I l) as L. apply (l_pend s (g l) l L) in Ep. destruct (pcs s u) as [|m x] eqn:E; [done|].
  assert (m = l) as -> by (destruct x; cbn in Ep; try done; by apply bool_decide_eq_true in Ep).
  destruct (spins x) eqn:S; [|by eapply no_spin]. destruct x; try done.
  eexists. split; [done|]. cbn. rewrite (proj2 (locked_free NR_CPUS HNR s (g l) l (v_cpu _ s g I) L)) by done. cbn. by rewrite fn_lookup_insert.
Qed.
End deadlock.

(** C7: No deadlock.  As long as no context had to do without a node, a lock that nobody is
    using (whoever holds it has not yet returned from [qspin_lock]) never leaves all
    contexts that work on it spinning: one of them is moved on by its next access.  And
    every access that moves a context brings it closer to the end of its call, at most 30
    times. *)
Theorem qspin_progress NR_CPUS s l :
  NR_CPUS < 2 ^ _Q_TAIL_CPU_BITS -> reachable 8 NR_CPUS s ->
  (forall u, falls l (pcs s u) = false) -> (forall u, l ∈ held s u -> leaving l (pcs s u) = true) -> (exists t x, pcs s t = At l x) ->
  (exists u, moves s l u) /\
  (forall u x y, pcs s u = At l x -> pcs (access 8 u l x s) u = At l y -> y = x \/ (rank y < rank x)%nat) /\ (rank LFast <= 30)%nat.
Proof.
  intros HNR H Hf Hl (t & x & E). destruct (NInv_reachable NR_CPUS s HNR H) as (g & I & N). pose proof (v_lock _ s g I l) as L.
  split; [|split; [|cbn; lia]; intros u x' y Eu; apply access_rank; [done|by rewrite <- Eu]].
  destruct (own (g l)) as [o|] eqn:Eo.
  - apply (l_own s (g l) l L) in Eo. by apply (leaving_moves NR_CPUS s g l HNR I N Hf o), Hl.
  - destruct (pend (g l)) as [u|] eqn:Ep; [exists u; by apply (pend_moves NR_CPUS s g l HNR I)|].
    destruct (que (g l)) as [|a r] eqn:Eq; [|exists a; by apply (head_moves NR_CPUS s g l HNR I a r)].
    exists t. apply (no_spin s l t x E). pose proof (l_pend s (g l) l L t) as Hp. pose proof (l_que s (g l) l L t) as Hq. specialize (Hf t). rewrite E, ?Ep, ?Eq in *.
    destruct x; try done; cbn in *; rewrite bool_decide_eq_true_2 in * by done; set_solver.
Qed.

(** The lock is free, one context waits with the pending bit, one in the queue. *)
Lemma qspin_progress_witness : exists u, moves (after 8 (take 15 three_cpus)) 0 u.
Proof.
  apply (qspin_progress 3 (after 8 (take 15 three_cpus)) 0); [vm_compute; reflexivity|apply after_reachable; vm_compute; reflexivity| | |].
  - intros u. apply negb_true_iff. apply (after_all 8 (take 15 three_cpus) (fun p _ => negb (falls 0 p))); vm_compute; reflexivity.
  - intros u Hu. pose proof (after_all 8 (take 15 three_cpus) (fun _ h => match h with [] => true | _ => false end) ltac:(reflexivity) ltac:(vm_compute; reflexivity) u) as H.
    destruct (held (after 8 (take 15 three_cpus)) u); [by apply list.elem_of_nil in Hu|done].
  - exists (1, 0%nat), LWaitOwner. vm_compute. reflexivity.
Defined.

(** C8: Atomics of 64 bits.  Where atomic_t has 64 bits the members of struct spinlock are twice
    as wide (qspin_quater_t has 16 bits) but the masks still use 8: releasing the lock
    clears the pending bit, and two CPUs can hold the lock at once. *)
Theorem qspin_64_broken : exists s, reachable 16 2 s /\ 0%nat ∈ held s (0, 0%nat) /\ 0%nat ∈ held s (1, 0%nat).
Proof.
  set (tr := [((0, 0%nat), ALock 0); ((0, 0%nat), AStep); ((1, 0%nat), ALock 0); ((1, 0%nat), AStep); ((1, 0%nat), AStep); ((0, 0%nat), AUnlock 0);
              ((1, 0%nat), AStep); ((0, 0%nat), ALock 0); ((0, 0%nat), AStep); ((1, 0%nat), AStep)]).
  exists (after 16 tr). split_and!; [apply after_reachable; vm_compute; reflexivity|..]; apply list_elem_of_In; vm_compute; tauto.
Qed.

(** ** Contexts without a node *)

(** The fifth nested context of CPU 0 asks for the lock 0 while CPU 3 takes it from the queue. *)
Definition nested (c : Z) (n : nat) : list (tid * act) :=
  concat (map (fun j => ((c, j), ALock (S j)) :: steps (c, j) n ++ [((c, j), AIrq)]) (seq 0 4)).
Definition five_deep : list (tid * act) :=
  concat (map (fun l => [((1, 0%nat), ALock l); ((1, 0%nat), AStep)]) (seq 0 5)) ++ nested 2 2 ++ nested 0 8 ++
  (((0, 4%nat), ALock 0) :: steps (0, 4%nat) 1) ++ (((2, 4%nat), ALock 0) :: steps (2, 4%nat) 2) ++ (((3, 0%nat), ALock 0) :: steps (3, 0%nat) 8) ++
  [((1, 0%nat), AUnlock 0)] ++ steps (2, 4%nat) 2 ++ [((2, 4%nat), AUnlock 0)] ++ steps (3, 0%nat) 1 ++ steps (0, 4%nat) 1 ++ steps (3, 0%nat) 2 ++ steps (0, 4%nat) 3.

(** A step that is no new call for the lock [l]. *)
Definition quiet (NR_CPUS : Z) (l : nat) (s s' : st) : Prop :=
  exists t a, 0 <= t.1 < NR_CPUS /\ exec 8 s t a = Some s' /\ a <> ALock l /\ a <> ATrylock l.
(** The owner [h] waits for a successor, and all others at the lock have no node. *)
Definition stuck (l : nat) (h v : tid) (s : st) : Prop :=
  (exists i, pcs s h = At l (LWaitNext i)) /\ v <> h /\ (exists i, pcs s v = At l (LFall1 i)) /\ forall u x, u <> h -> pcs s u = At l x -> exists i, x = LFall1 i.

Lemma stuck_ext l h v s s' t :
  (forall u, u <> t -> pcs s' u = pcs s u) -> pcs s' t = pcs s t \/ (forall x, pcs s t <> At l x) /\ (forall x, pcs s' t <> At l x) -> stuck l h v s -> stuck l h v s'.
Proof.
  intros Hp Ht ([i Eh] & Hvh & [j Ev] & Hu).
  assert (forall u x, pcs s u = At l x -> pcs s' u = At l x) as F.
  { intros u x E. destruct (decide (u = t)) as [->|]; [|by rewrite Hp]. destruct Ht as [->|[H _]]; [done|]. by destruct (H x). }
  split_and!; [exists i; auto|done|exists j; auto|]. intros u x Huh E. apply (Hu u x Huh). destruct (decide (u = t)) as [->|]; [|by rewrite <- Hp].
  destruct Ht as [<-|[_ H]]; [done|]. by destruct (H x).
Qed.
Lemma access_on q t l x s : pcs s t = At l x -> on l (pcs (access q t l x s) t).
Proof.
  intros E. unfold access, qspin_lock, trylock_read, trylock_cmpxchg, try_cmpxchg, queued_fetch_set_pending_acquire, xchg_tail.
  destruct x; repeat case_match; simplify_eq; cbn; rewrite ?fn_lookup_insert, ?E; first [apply on_here | by left].
Qed.

Lemma stuck_step NR_CPUS l h v s g s' :
  NR_CPUS < 2 ^ _Q_TAIL_CPU_BITS -> Inv NR_CPUS s g -> stuck l h v s -> quiet NR_CPUS l s s' -> stuck l h v s'.
Proof.
  intros HNR I S (t & a & Ht & He & Ha1 & Ha2). pose proof S as ([i Eh] & _ & _ & Hu). pose proof (v_lock _ s g I l) as L.
  assert (que_pc l (pcs s h) = true) as Qh by (rewrite Eh; cbn; by rewrite bool_decide_eq_true_2).
  destruct (at_head NR_CPUS s g I l h Qh) as (r & Eq & _ & Ch); [by rewrite Eh|].
  assert (r = []) as ->.
  { destruct r as [|b r]; [done|]. destruct Ch as (_ & Lk & _). assert (b <> h) as Hb.
    { pose proof (l_nodup s (g l) l L) as Nd. rewrite Eq in Nd. apply nodup_cons in Nd as [Nd _]. set_solver. }
    destruct Lk as [(k & Eb & _)|(k & Eb & _)]; by destruct (Hu b _ Hb Eb). }
  cbn in Ch. rewrite (nd_idx s h _ i Eh) in Ch by done.
  assert ((word s l =? 0) = false) as Hw by (apply Z.eqb_neq; rewrite (word_zero NR_CPUS HNR s (g l) l (v_cpu _ s g I) L), Eq; naive_solver).
  revert He. unfold exec. destruct (negb _); [done|]. destruct a as [m|m|m| | |], (pcs s t) as [|m' x] eqn:E; try done; repeat case_match; intros [= <-]; try done.
  - apply (stuck_ext l h v s _ t); [intros; cbn; by rewrite fn_lookup_insert_ne| |done]. right. cbn. rewrite fn_lookup_insert. split; congruence.
  - apply (stuck_ext l h v s _ t); [intros; cbn; by rewrite fn_lookup_insert_ne| |done]. right. cbn. rewrite fn_lookup_insert. split; congruence.
  - apply (stuck_ext l h v s _ t); [intros; cbn; by rewrite fn_lookup_insert_ne| |done]. left. cbn. by rewrite fn_lookup_insert.
  - destruct (decide (m' = l)) as [->|Hm].
    + destruct (decide (t = h)) as [->|Hth].
      * assert (x = LWaitNext i) as -> by congruence. cbn. by rewrite Ch.
      * destruct (Hu t x Hth E) as [j ->]. cbn. unfold trylock_read. by rewrite Hw.
    + apply (stuck_ext l h v s _ t); [intros; by apply access_other| |done]. right. split; [congruence|].
      destruct (access_on 8 t m' x s E) as [->|[y ->]]; congruence.
Qed.

(** Only contexts without a node and one that waits for its successor are at the lock 0. *)
Definition no_others (p : pc) : bool := match p with At 0 (LFall1 _ | LWaitNext _) => true | At 0 _ => false | _ => true end.
Lemma stuck_start NR_CPUS s g h v i j :
  Inv NR_CPUS s g -> pcs s h = At 0 (LWaitNext i) -> pcs s v = At 0 (LFall1 j) -> (forall u, no_others (pcs s u) = true) -> stuck 0 h v s.
Proof.
  intros I Eh Ev A. split_and!; [by eexists|congruence|by eexists|]. intros u x Hu E. specialize (A u). rewrite E in A. destruct x; try done; [by eexists|]. exfalso. apply Hu.
  destruct (at_head NR_CPUS s g I 0 u) as (r1 & E1 & _); [by rewrite E..|]. destruct (at_head NR_CPUS s g I 0 h) as (r2 & E2 & _); [by rewrite Eh..|]. congruence.
Qed.
Lemma stuck_rtc NR_CPUS l h v s s' : NR_CPUS < 2 ^ _Q_TAIL_CPU_BITS -> (exists g, Inv NR_CPUS s g) -> stuck l h v s -> rtc (quiet NR_CPUS l) s s' -> stuck l h v s'.
Proof.
  intros HNR I S H. revert I S. induction H as [|x y z Q H IH]; [done|]. intros [g I] S. apply IH; [|by eapply stuck_step].
  destruct Q as (t & a & Ht & He & _). destruct (sim_exec NR_CPUS HNR x g t a y I Ht He) as (g' & I' & _). by exists g'.
Qed.

(** Contexts without a node.  A fifth nested context finds all four nodes of its CPU in use and
    tries the lock without joining the queue.  If it had set the pending bit just before, the
    head of the queue has missed the chance to leave alone and waits for a successor; unless
    another context asks for the lock, that successor never comes: the head holds the
    lock, never returns from [qspin_lock], and the other one spins for ever. *)
Theorem qspin_fallback_deadlock :
  exists s, reachable 8 4 s /\ 0%nat ∈ held s (3, 0%nat) /\
    forall s', rtc (quiet 4 0) s s' -> (exists i, pcs s' (3, 0%nat) = At 0 (LWaitNext i)) /\ (exists i, pcs s' (0, 4%nat) = At 0 (LFall1 i)).
Proof.
  assert (4 < 2 ^ _Q_TAIL_CPU_BITS) as HNR by (vm_compute; reflexivity).
  assert (reachable 8 4 (after 8 five_deep)) as R by (apply after_reachable; vm_compute; reflexivity).
  assert (pcs (after 8 five_deep) (3, 0%nat) = At 0 (LWaitNext 0)) as Eh by (vm_compute; reflexivity).
  assert (pcs (after 8 five_deep) (0, 4%nat) = At 0 (LFall1 4)) as Ev by (vm_compute; reflexivity).
  assert (held (after 8 five_deep) (3, 0%nat) = [0%nat]) as Hh by (vm_compute; reflexivity).
  assert (forall u, no_others (pcs (after 8 five_deep) u) = true) as A by (apply (after_all 8 five_deep (fun p _ => no_others p)); vm_compute; reflexivity).
  revert R Eh Ev Hh A. generalize (after 8 five_deep). intros s R Eh Ev Hh A. exists s. split; [exact R|]. split; [rewrite Hh; left|]. intros s' H.
  destruct (Inv_reachable 4 HNR s R) as [g I]. pose proof (stuck_start 4 s g _ _ 0 4 I Eh Ev A) as S.
  destruct (stuck_rtc 4 0 _ _ s s' HNR (ex_intro _ g I) S H) as (S1 & _ & S2 & _). split; [exact S1|exact S2].
Qed.
