(* ===== verification/Paging.v ===== *)
(** * Page tables

    src/kernel/paging.c: the construction of the kernel's page tables, with the descriptor
    format of src/arch/arm64/include/asm/mmu.h, 4K pages and four levels (VMSA_VA_256TB), where
    sections and contiguous ranges may be used (ARCH_HAS_MMU_HUGE, ARCH_HAS_MMU_CONT) and
    the fixmap slots are cleared behind each use (no ARCH_HAS_MMU_BARRIER).

    Memory is a function from physical addresses to the words at them.  Tables are reached
    through the slots of the fixmap only: a pointer is a slot and a physical address, and
    an access faults unless the slot maps the page of that address.  [mem_alloc] is
    represented by the list of page frames it will return; it returns 0 when there is none. *)
From stdpp Require Import functions.
From S2P Require Import Prelude MemBlock MemAlloc.

(** ** Constants *)
Definition PAGE_SHIFT : Z := 12.
Definition PAGE_SIZE : Z := Z.shiftl 1 PAGE_SHIFT.
Definition PAGE_MASK : Z := u64 (Z.lnot (PAGE_SIZE - 1)).
Definition PAGE_PXD_BITS : Z := PAGE_SHIFT - 3.
Definition PAGE_MAX_TABLE_ENTRIES : Z := Z.shiftl 1 PAGE_PXD_BITS.
Definition PMD_SHIFT : Z := PAGE_PXD_BITS + PAGE_SHIFT.
Definition PMD_SIZE : Z := Z.shiftl 1 PMD_SHIFT.
Definition PMD_MASK : Z := u64 (Z.lnot (PMD_SIZE - 1)).
Definition PUD_SHIFT : Z := PAGE_PXD_BITS * 2 + PAGE_SHIFT.
Definition PUD_SIZE : Z := Z.shiftl 1 PUD_SHIFT.
Definition PUD_MASK : Z := u64 (Z.lnot (PUD_SIZE - 1)).
Definition PGDIR_SHIFT : Z := PAGE_PXD_BITS * (4 - 1) + PAGE_SHIFT.
Definition PGDIR_SIZE : Z := Z.shiftl 1 PGDIR_SHIFT.
Definition PGDIR_MASK : Z := u64 (Z.lnot (PGDIR_SIZE - 1)).
Definition CONT_PTE_SIZE : Z := Z.shiftl 1 4 * PAGE_SIZE.
Definition CONT_PTE_MASK : Z := u64 (Z.lnot (CONT_PTE_SIZE - 1)).
Definition CONT_PMD_SIZE : Z := Z.shiftl 1 4 * PMD_SIZE.
Definition CONT_PMD_MASK : Z := u64 (Z.lnot (CONT_PMD_SIZE - 1)).
Definition NO_BLOCK_MAPPINGS : Z := 1.
Definition NO_CONT_MAPPINGS : Z := 2.
Definition PHYS_MASK : Z := Z.shiftl 1 48 - 1.
Definition TYPE_MASK : Z := 3.
Definition TYPE_TABLE : Z := 3.
Definition TYPE_SECT : Z := 1.
Definition TABLE_BIT : Z := 2.
Definition PTE_RDONLY : Z := Z.shiftl 1 7.
Definition PTE_NG : Z := Z.shiftl 1 11.
Definition PTE_CONT : Z := Z.shiftl 1 52.
Definition PTE_PXN : Z := Z.shiftl 1 53.
Definition PTE_WRITE : Z := Z.shiftl 1 57.

(** ** Descriptors: the formats of the four levels are the same *)
Definition phys_to_pfn (phys : Z) : Z := Z.shiftr phys PAGE_SHIFT.
Definition pfn_to_phys (pfn : Z) : Z := u64 (Z.shiftl pfn PAGE_SHIFT).
Definition pfn_pte (pfn prot : Z) : Z := Z.lor (u64 (Z.shiftl pfn PAGE_SHIFT)) prot.
Definition pmd_pfn (pmd : Z) : Z := Z.shiftr (Z.land pmd PHYS_MASK) PAGE_SHIFT.
Definition pmd_page_paddr (pmd : Z) : Z := pfn_to_phys (pmd_pfn pmd).
Definition pmd_none (pmd : Z) : bool := pmd =? 0.
Definition pmd_bad (pmd : Z) : bool := Z.land pmd 2 =? 0.
Definition pmd_sect (pmd : Z) : bool := Z.land pmd TYPE_MASK =? TYPE_SECT.
Definition mk_sect_prot (prot : Z) : Z := Z.lor (Z.ldiff prot TABLE_BIT) TYPE_SECT.
Definition mmu_hw_pgattr_safe (old new : Z) : bool :=
  let mask := Z.lor (Z.lor (Z.lor PTE_PXN PTE_RDONLY) PTE_WRITE) PTE_NG in
  if (old =? 0) || (new =? 0) then true
  else if negb (Z.land (Z.lor old new) PTE_CONT =? 0) then false
  else if negb (Z.land (Z.ldiff old new) PTE_NG =? 0) then false
  else Z.ldiff (Z.lxor old new) mask =? 0.

Definition pte_index (addr : Z) : Z := Z.land (Z.shiftr addr PAGE_SHIFT) (PAGE_MAX_TABLE_ENTRIES - 1).
Definition pmd_index (addr : Z) : Z := Z.land (Z.shiftr addr PMD_SHIFT) (PAGE_MAX_TABLE_ENTRIES - 1).
Definition pud_index (addr : Z) : Z := Z.land (Z.shiftr addr PUD_SHIFT) (PAGE_MAX_TABLE_ENTRIES - 1).
Definition pgd_index (addr : Z) : Z := Z.land (Z.shiftr addr PGDIR_SHIFT) (PAGE_MAX_TABLE_ENTRIES - 1).

(** The next boundary, or the end of the range if that comes earlier. *)
Definition addr_end (size mask addr end_ : Z) : Z :=
  let boundary := Z.land (u64 (addr + size)) mask in
  if u64 (boundary - 1) <? u64 (end_ - 1) then boundary else end_.
Definition pte_cont_addr_end := addr_end CONT_PTE_SIZE CONT_PTE_MASK.
Definition pmd_addr_end := addr_end PMD_SIZE PMD_MASK.
Definition pmd_cont_addr_end := addr_end CONT_PMD_SIZE CONT_PMD_MASK.
Definition pud_addr_end := addr_end PUD_SIZE PUD_MASK.
Definition pgd_addr_end := addr_end PGDIR_SIZE PGDIR_MASK.

Definition cont_prot (mask addr next phys prot flags : Z) : Z :=
  if (Z.ldiff (Z.lor (Z.lor addr next) phys) mask =? 0) && (Z.land flags NO_CONT_MAPPINGS =? 0) then Z.lor prot PTE_CONT else prot.
Definition pud_cont_prot := cont_prot CONT_PMD_MASK.
Definition pmd_cont_prot := cont_prot CONT_PTE_MASK.
Definition use_huge (mask addr next phys : Z) : bool := Z.ldiff (Z.lor (Z.lor addr next) phys) mask =? 0.
Definition pud_use_huge := use_huge PUD_MASK.
Definition pmd_use_huge := use_huge PMD_MASK.

(** ** Memory, fixmap, page frames *)
Inductive slot : Type := FIX_PTE | FIX_PMD | FIX_PUD | FIX_PGD.
#[export] Instance slot_eq : EqDecision slot.
Proof. solve_decision. Defined.
Record pg : Type := Pg { p_mem : Z -> Z; p_fix : slot -> option Z; p_free : list Z }.
Definition ptr : Type := slot * Z.
Definition page_of (a : Z) : Z := Z.land a PAGE_MASK.

Definition get (p : ptr) (s : pg) : res Z :=
  if bool_decide (p_fix s p.1 = Some (page_of p.2)) then Ok (p_mem s p.2) else Fault FOob.
Definition set (p : ptr) (e : Z) (s : pg) : res pg :=
  if bool_decide (p_fix s p.1 = Some (page_of p.2)) then Ok (Pg (<[p.2 := e]> (p_mem s)) (p_fix s) (p_free s)) else Fault FOob.
Definition next_entry (p : ptr) : ptr := (p.1, p.2 + 8).
Definition set_fixmap_offset (sl : slot) (phys : Z) (s : pg) : ptr * pg :=
  ((sl, phys), Pg (p_mem s) (<[sl := Some (page_of phys)]> (p_fix s)) (p_free s)).
Definition clear_fixmap (sl : slot) (s : pg) : pg := Pg (p_mem s) (<[sl := None]> (p_fix s)) (p_free s).
Definition zero_page (page : Z) (m : Z -> Z) : Z -> Z := fun a => if (page <=? a) && (a <? page + PAGE_SIZE) then 0 else m a.

Definition early_pgtable_alloc (s : pg) : res (Z * pg) :=
  let phys := hd 0 (p_free s) in
  let s := Pg (p_mem s) (p_fix s) (tl (p_free s)) in
  bug_on (phys =? 0);;
  let '(p, s) := set_fixmap_offset FIX_PTE phys s in
  let s := Pg (zero_page phys (p_mem s)) (p_fix s) (p_free s) in
  Ok (phys, clear_fixmap FIX_PTE s).

(** The next table, entered into [p] if there is none. *)
Definition table_at (p : ptr) (s : pg) : res pg :=
  e ← get p s;
  s ← (if pmd_none e then '(phys, s) ← early_pgtable_alloc s; set p (pfn_pte (phys_to_pfn phys) TYPE_TABLE) s else Ok s);
  e ← get p s;
  bug_on (pmd_bad e);; Ok s.

(** ** Level by level *)
Fixpoint init_pte_loop (fuel : nat) (ptep : ptr) (addr end_ phys prot : Z) (s : pg) : res pg :=
  match fuel with
  | O => Fault FHang
  | S fuel =>
      old ← get ptep s;
      s ← set ptep (pfn_pte (phys_to_pfn phys) prot) s;
      new ← get ptep s;
      bug_on (negb (mmu_hw_pgattr_safe old new));;
      let addr := u64 (addr + PAGE_SIZE) in
      if addr =? end_ then Ok s else init_pte_loop fuel (next_entry ptep) addr end_ (u64 (phys + PAGE_SIZE)) prot s
  end.
Definition init_pte (pmdp : ptr) (addr end_ phys prot : Z) (s : pg) : res pg :=
  pmd ← get pmdp s;
  let '(ptep, s) := set_fixmap_offset FIX_PTE (pmd_page_paddr pmd + pte_index addr * 8) s in
  s ← init_pte_loop 512 ptep addr end_ phys prot s; Ok (clear_fixmap FIX_PTE s).

Fixpoint cont_pte_loop (fuel : nat) (pmdp : ptr) (addr end_ phys prot flags : Z) (s : pg) : res pg :=
  match fuel with
  | O => Fault FHang
  | S fuel =>
      let next := pte_cont_addr_end addr end_ in
      s ← init_pte pmdp addr next phys (pmd_cont_prot addr next phys prot flags) s;
      if next =? end_ then Ok s else cont_pte_loop fuel pmdp next end_ (u64 (phys + (next - addr))) prot flags s
  end.
Definition alloc_init_cont_pte (pmdp : ptr) (addr end_ phys prot flags : Z) (s : pg) : res pg :=
  pmd ← get pmdp s;
  bug_on (pmd_sect pmd);;
  s ← table_at pmdp s; cont_pte_loop 512 pmdp addr end_ phys prot flags s.

(** A section, with the attributes of [pmd_set_huge]. *)
Definition set_huge (p : ptr) (mask phys prot : Z) (s : pg) : res pg :=
  let new := pfn_pte (phys_to_pfn phys) (mk_sect_prot prot) in
  old ← get p s;
  if negb (mmu_hw_pgattr_safe old new) then Ok s
  else bug_on (negb (Z.ldiff phys mask =? 0));; set p new s.
Definition huge_map (p : ptr) (mask addr next phys prot flags : Z) (s : pg) : res (bool * pg) :=
  old ← get p s;
  if negb (Z.land flags NO_BLOCK_MAPPINGS =? 0) then Ok (false, s)
  else if negb (use_huge mask addr next phys) then Ok (false, s)
  else
    s ← set_huge p mask phys prot s;
    new ← get p s;
    bug_on (negb (mmu_hw_pgattr_safe old new));; Ok (true, s).
Definition pmd_huge_map (p : ptr) := huge_map p PMD_MASK.
Definition pud_huge_map (p : ptr) := huge_map p PUD_MASK.

(** The entry of a level above the last: a section if possible, else the level below, which
    must leave the entry as it was unless it was empty. *)
Definition map_entry (huge : Z -> Z -> Z -> Z -> Z -> pg -> res (bool * pg)) (below : ptr -> Z -> Z -> Z -> Z -> Z -> pg -> res pg)
    (p : ptr) (addr next phys prot flags : Z) (s : pg) : res pg :=
  '(done, s) ← huge addr next phys prot flags s;
  if (done : bool) then Ok s
  else
    old ← get p s;
    s ← below p addr next phys prot flags s;
    new ← get p s;
    bug_on (negb (old =? 0) && negb (old =? new));; Ok s.

Fixpoint init_pmd_loop (fuel : nat) (pmdp : ptr) (addr end_ phys prot flags : Z) (s : pg) : res pg :=
  match fuel with
  | O => Fault FHang
  | S fuel =>
      let next := pmd_addr_end addr end_ in
      s ← map_entry (pmd_huge_map pmdp) alloc_init_cont_pte pmdp addr next phys prot flags s;
      if next =? end_ then Ok s else init_pmd_loop fuel (next_entry pmdp) next end_ (u64 (phys + (next - addr))) prot flags s
  end.
Definition init_pmd (pudp : ptr) (addr end_ phys prot flags : Z) (s : pg) : res pg :=
  pud ← get pudp s;
  let '(pmdp, s) := set_fixmap_offset FIX_PMD (pmd_page_paddr pud + pmd_index addr * 8) s in
  s ← init_pmd_loop 512 pmdp addr end_ phys prot flags s; Ok (clear_fixmap FIX_PMD s).

Fixpoint cont_pmd_loop (fuel : nat) (pudp : ptr) (addr end_ phys prot flags : Z) (s : pg) : res pg :=
  match fuel with
  | O => Fault FHang
  | S fuel =>
      let next := pmd_cont_addr_end addr end_ in
      s ← init_pmd pudp addr next phys (pud_cont_prot addr next phys prot flags) flags s;
      if next =? end_ then Ok s else cont_pmd_loop fuel pudp next end_ (u64 (phys + (next - addr))) prot flags s
  end.
Definition alloc_init_cont_pmd (pudp : ptr) (addr end_ phys prot flags : Z) (s : pg) : res pg :=
  pud ← get pudp s;
  bug_on (pmd_sect pud);;
  s ← table_at pudp s; cont_pmd_loop 512 pudp addr end_ phys prot flags s.

Fixpoint init_pud_loop (fuel : nat) (pudp : ptr) (addr end_ phys prot flags : Z) (s : pg) : res pg :=
  match fuel with
  | O => Fault FHang
  | S fuel =>
      let next := pud_addr_end addr end_ in
      s ← map_entry (pud_huge_map pudp) alloc_init_cont_pmd pudp addr next phys prot flags s;
      if next =? end_ then Ok s else init_pud_loop fuel (next_entry pudp) next end_ (u64 (phys + (next - addr))) prot flags s
  end.
Definition alloc_init_pud (pgdp : ptr) (addr end_ phys prot flags : Z) (s : pg) : res pg :=
  s ← table_at pgdp s;
  pgd ← get pgdp s;
  let '(pudp, s) := set_fixmap_offset FIX_PUD (pmd_page_paddr pgd + pud_index addr * 8) s in
  s ← init_pud_loop 512 pudp addr end_ phys prot flags s; Ok (clear_fixmap FIX_PUD s).

Fixpoint pgd_loop (fuel : nat) (pgdp : ptr) (addr end_ phys prot flags : Z) (s : pg) : res pg :=
  match fuel with
  | O => Fault FHang
  | S fuel =>
      let next := pgd_addr_end addr end_ in
      s ← alloc_init_pud pgdp addr next phys prot flags s;
      if next =? end_ then Ok s else pgd_loop fuel (next_entry pgdp) next end_ (u64 (phys + (next - addr))) prot flags s
  end.
Definition PAGE_ALIGN (a : Z) : Z := Z.land (u64 (a + (PAGE_SIZE - 1))) PAGE_MASK.
Definition __create_pgd_mapping (pgdir : ptr) (phys virt size prot flags : Z) (s : pg) : res pg :=
  let pgdp := (pgdir.1, pgdir.2 + pgd_index virt * 8) in
  bug_on (negb (Z.ldiff (Z.lxor phys virt) PAGE_MASK =? 0));;
  let phys := Z.land phys PAGE_MASK in
  let addr := Z.land virt PAGE_MASK in
  let length := PAGE_ALIGN (u64 (size + Z.ldiff virt PAGE_MASK)) in
  pgd_loop 512 pgdp addr (u64 (addr + length)) phys prot flags s.
Definition create_pgd_mapping (pgdir : ptr) (phys virt size prot : Z) (page_mapping_only : bool) (s : pg) : res pg :=
  let flags := if page_mapping_only then Z.lor NO_BLOCK_MAPPINGS NO_CONT_MAPPINGS else 0 in
  __create_pgd_mapping pgdir phys virt size prot flags s.

Definition map_kernel_segment (pa : Z -> Z) (pgdp : ptr) (va_start va_end prot flags : Z) (s : pg) : res pg :=
  let size := u64 (va_end - va_start) in
  let va_start := round_down va_start PAGE_SIZE in
  let pa_start := round_down (pa va_start) PAGE_SIZE in
  let size := round_up size PAGE_SIZE in
  __create_pgd_mapping pgdp pa_start va_start size prot flags s.

(** Memory outside of the image, which is mapped page by page already. *)
Definition __map_mem_region (va : Z -> Z) (kernel_start kernel_end : Z) (pgdp : ptr) (start end_ prot flags : Z) (s : pg) : res pg :=
  if (end_ <? kernel_start) || (kernel_end <=? start) then __create_pgd_mapping pgdp start (va start) (u64 (end_ - start)) prot flags s
  else
    s ← (if start <? kernel_start then __create_pgd_mapping pgdp start (va start) (u64 (kernel_start - start)) prot flags s else Ok s);
    if kernel_end <? end_ then __create_pgd_mapping pgdp kernel_end (va kernel_end) (u64 (end_ - kernel_end)) prot flags s else Ok s.

(** The call-back of [mem_walk_memory]: a region that is empty or reaches the last address
    ends the walk. *)
Definition PAGE_KERNEL : Z := (* PROT_DEFAULT with SMP, MT_NORMAL *)
  3 + 2 ^ 10 + 3 * 2 ^ 8 + 4 * 2 ^ 2 + PTE_PXN + 2 ^ 54 + 2 ^ 55 + PTE_WRITE.
Definition __map_mem (va : Z -> Z) (kernel_start kernel_end : Z) (pgdp : ptr) (rgn : mem_region) (d : res pg) : bool * res pg :=
  let start := rbase rgn in
  let end_ := u64 (start + rsize rgn) in
  match d with
  | Fault f => (false, Fault f)
  | Ok s =>
      if end_ <=? start then (false, Ok s)
      else match __map_mem_region va kernel_start kernel_end pgdp start end_ PAGE_KERNEL 0 s with
           | Ok s => (true, Ok s)
           | Fault f => (false, Fault f)
           end
  end.
Definition map_mem (va : Z -> Z) (kernel_start kernel_end : Z) (m : mem_state) (pgdp : ptr) (s : pg) : res pg :=
  mem_walk_memory m (__map_mem va kernel_start kernel_end pgdp) (Ok s).
