(* ===== verification/PageTab.v ===== *)
(** * What page tables mean

    The translation that the hardware derives from the tables of [Paging], the shape of
    well-formed tables, and the effect on the translation of the two ways in which the code
    changes tables: a leaf is written, or an empty table is linked. *)
From stdpp Require Import functions.
From S2P Require Import Prelude Paging.

(** ** Levels: a table of level [k] has 512 entries that cover [span k] bytes each *)
Definition span (k : nat) : Z := 2 ^ (12 + 9 * Z.of_nat k).
Definition idx (k : nat) (va : Z) : Z := va / span k mod 512.

Definition ADDR_MASK : Z := 2 ^ 48 - 2 ^ 12.
Definition NOATTR_MASK : Z := Z.lor (Z.lor ADDR_MASK TYPE_MASK) PTE_CONT.
(** What an entry says of a page, its address and the shape of the mapping left aside. *)
Definition attr (e : Z) : Z := Z.ldiff e NOATTR_MASK.
Definition entry_addr (e : Z) : Z := Z.land e ADDR_MASK.
Definition leaf_pa (k : nat) (e va : Z) : Z := entry_addr e / span k * span k + va mod span k.
Definition is_leaf (k : nat) (e : Z) : bool :=
  match k with O => Z.land e TYPE_MASK =? 3 | S (S (S _)) => false | _ => Z.land e TYPE_MASK =? 1 end.

(** The walk of the hardware: physical address and attributes. *)
Fixpoint walk (k : nat) (m : Z -> Z) (f va : Z) : option (Z * Z) :=
  let e := m (f + 8 * idx k va) in
  if is_leaf k e then Some (leaf_pa k e va, attr e)
  else match k with
       | O => None
       | S k' => if Z.land e TYPE_MASK =? 3 then walk k' m (entry_addr e) va else None
       end.

Lemma aligned_lt d a b : 0 < d -> a mod d = 0 -> b mod d = 0 -> a < b + d -> a <= b.
Proof. intros ? [q ->]%Z.mod_divide [r ->]%Z.mod_divide H; [|lia..]. assert (q <= r) by nia. nia. Qed.

Section span.
Implicit Types (k : nat) (b va : Z).

Lemma span_pos k : 0 < span k.
Proof. apply Z.pow_pos_nonneg; lia. Qed.
Lemma span_S k : span (S k) = 512 * span k.
Proof. unfold span. rewrite Nat2Z.inj_succ. replace (12 + 9 * Z.succ (Z.of_nat k)) with (9 + (12 + 9 * Z.of_nat k)) by lia. by rewrite Z.pow_add_r by lia. Qed.
Lemma span_mod k x : x mod span (S k) = 0 -> x mod span k = 0.
Proof.
  rewrite span_S. pose proof (span_pos k). intros H0.
  apply Z.mod_divide in H0 as [q ->]; [|lia]. apply Z.mod_divide; [lia|]. exists (512 * q). ring.
Qed.
Lemma span_page k : span k mod 4096 = 0.
Proof. induction k as [|k IH]; [done|]. rewrite span_S, Z.mul_comm. apply Z.mod_divide in IH as [q ->]; [|lia]. apply Z.mod_divide; [lia|]. exists (q * 512). ring. Qed.
Lemma span_le k : (k <= 3)%nat -> 4096 <= span k /\ span (S k) <= 2 ^ 48.
Proof. intros. do 4 (destruct k as [|k]; [by vm_compute|]). lia. Qed.

Lemma idx_range k va : 0 <= idx k va < 512.
Proof. apply Z.mod_pos_bound. lia. Qed.
(** The entry of a table based at [b] that covers [va]. *)
Lemma idx_in k b va : b mod span (S k) = 0 -> b <= va < b + span (S k) -> b + idx k va * span k <= va < b + idx k va * span k + span k.
Proof.
  rewrite span_S. pose proof (span_pos k). intros Hb Hv. apply Z.mod_divide in Hb as [q ->]; [|lia].
  unfold idx. pose proof (Z.div_mod va (span k)). pose proof (Z.mod_pos_bound va (span k)).
  set (d := va / span k) in *. assert (d / 512 = q). { symmetry. apply Z.div_unique with (d - 512 * q); [|lia]. left. split; nia. }
  pose proof (Z.div_mod d 512). nia.
Qed.
Lemma idx_eq k b va i : b mod span (S k) = 0 -> 0 <= i < 512 -> b + i * span k <= va < b + i * span k + span k -> idx k va = i.
Proof.
  intros Hb Hi Hv. pose proof (span_pos k). pose proof (span_S k).
  pose proof (idx_in k b va Hb ltac:(nia)). pose proof (idx_range k va). nia.
Qed.
Lemma idx_base k b va : b mod span (S k) = 0 -> b <= va < b + span (S k) -> b + idx k va * span k = va / span k * span k.
Proof.
  intros Hb Hv. pose proof (idx_in k b va Hb Hv) as Hi. apply span_mod in Hb. pose proof (span_pos k).
  apply Z.mod_divide in Hb as [q ->]; [|lia]. rewrite <- (Z.div_unique va (span k) (q + idx k va) (va - (q + idx k va) * span k)); lia.
Qed.
Lemma idx_aligned k b va : b mod span (S k) = 0 -> b <= va < b + span (S k) -> va mod span k = 0 -> b + idx k va * span k = va.
Proof. intros Hb Hv Hm. rewrite idx_base by done. pose proof (span_pos k). pose proof (Z.div_mod va (span k)). lia. Qed.
End span.

(** ** Well-formed tables

    [own f = Some (k, b)]: frame [f] holds the table of level [k] for the addresses from [b]. *)
Abbreviation owner := (Z -> option (nat * Z)).
Definition entry_ok (own : owner) (k : nat) (base e : Z) : Prop :=
  e = 0 \/ is_leaf k e = true \/ exists k' c, k = S k' /\ own c = Some (k', base) /\ e = Z.lor c 3.
Record wf (root base : Z) (own : owner) (m : Z -> Z) : Prop := Wf {
  wf_root : own root = Some (3%nat, base);
  wf_own f k b : own f = Some (k, b) ->
    (k <= 3)%nat /\ f mod 4096 = 0 /\ 0 <= f < 2 ^ 48 /\ b mod span (S k) = 0 /\ 0 <= b /\ b + span (S k) <= 2 ^ 64;
  wf_inj f f' x : own f = Some x -> own f' = Some x -> f = f';
  wf_entry f k b i : own f = Some (k, b) -> 0 <= i < 512 -> entry_ok own k (b + i * span k) (m (f + 8 * i));
  wf_parent c k b : own c = Some (k, b) -> (k < 3)%nat -> exists f b', own f = Some (S k, b') /\ b' <= b < b' + span (S (S k)) /\ m (f + 8 * idx (S k) b) = Z.lor c 3;
  wf_top f b : own f = Some (3%nat, b) -> f = root
}.

(** ** Entries *)
Definition paddr (c : Z) : Prop := c mod 4096 = 0 /\ 0 <= c < 2 ^ 48.
Definition prot_ok (p : Z) : Prop := in_u 64 p /\ Z.land p ADDR_MASK = 0.

Lemma addr_mask_bit i : 0 <= i -> Z.testbit ADDR_MASK i = bool_decide (12 <= i < 48).
Proof.
  intros. change ADDR_MASK with (Z.shiftl (Z.ones 36) 12). rewrite Z.shiftl_spec by lia.
  case_bool_decide.
  - rewrite Z.ones_spec_low; [done|lia].
  - destruct (decide (i < 12)); [by rewrite Z.testbit_neg_r by lia|]. rewrite Z.ones_spec_high; [done|lia].
Qed.
Lemma paddr_bit c i : paddr c -> 0 <= i -> ~ (12 <= i < 48) -> Z.testbit c i = false.
Proof.
  intros [Ha Hr] Hi Hn. destruct (decide (i < 12)).
  - apply Z.mod_divide in Ha as [q ->]; [|lia]. change 4096 with (2 ^ 12). apply Z.mul_pow2_bits_low. lia.
  - apply (testbit_high 48); lia.
Qed.
Lemma prot_bit p i : prot_ok p -> 12 <= i < 48 -> Z.testbit p i = false.
Proof.
  intros [_ Hp] Hi. assert (Hb : Z.testbit (Z.land p ADDR_MASK) i = false) by (rewrite Hp; apply Z.bits_0).
  rewrite Z.land_spec, addr_mask_bit, bool_decide_true, andb_true_r in Hb by lia. done.
Qed.

(** An entry made of an address and attributes says both. *)
Section entry.
Context (c p : Z) (Hc : paddr c) (Hp : prot_ok p).
Lemma lor_addr : entry_addr (Z.lor c p) = c.
Proof using Hc Hp.
  apply Z.bits_inj'. intros i Hi. unfold entry_addr. rewrite Z.land_spec, Z.lor_spec, addr_mask_bit by done. case_bool_decide.
  - rewrite (prot_bit p) by done. by rewrite orb_false_r, andb_true_r.
  - rewrite andb_false_r. symmetry. by apply paddr_bit.
Qed.
Lemma lor_type : Z.land (Z.lor c p) TYPE_MASK = Z.land p TYPE_MASK.
Proof using Hc.
  clear Hp. rewrite Z.land_lor_distr_l. assert (Z.land c TYPE_MASK = 0) as ->; [|done].
  apply Z.bits_inj'. intros i Hi. rewrite Z.land_spec, Z.bits_0. change TYPE_MASK with (Z.ones 2).
  destruct (decide (i < 2)); [rewrite paddr_bit by (done || lia); done|]. by rewrite Z.ones_spec_high, andb_false_r by lia.
Qed.
Lemma lor_attr : attr (Z.lor c p) = attr p.
Proof using Hc.
  clear Hp. apply Z.bits_inj'. intros i Hi. unfold attr, NOATTR_MASK. rewrite !Z.ldiff_spec, !Z.lor_spec, addr_mask_bit by done.
  case_bool_decide; [by rewrite !andb_false_r|]. by rewrite (paddr_bit c) by done.
Qed.
End entry.
Lemma prot_3 : prot_ok 3.
Proof. by vm_compute. Qed.
Lemma table_addr c : paddr c -> entry_addr (Z.lor c 3) = c.
Proof. intros. apply lor_addr; [done|apply prot_3]. Qed.
Lemma table_type c : paddr c -> Z.land (Z.lor c 3) TYPE_MASK = 3.
Proof. intros. by rewrite lor_type. Qed.
Lemma table_no_leaf k c : paddr c -> is_leaf (S k) (Z.lor c 3) = false.
Proof. intros. by destruct k as [|[|k]]; cbn; rewrite ?table_type. Qed.
Lemma table_nonzero c : paddr c -> Z.lor c 3 <> 0.
Proof. intros [_ ?] H0. apply Z.lor_eq_0_iff in H0. lia. Qed.

(** ** Walks *)
Section walk.
Context (root base : Z) (own : owner).
Implicit Types m : Z -> Z.

Lemma walk_table m k f va c : paddr c -> m (f + 8 * idx (S k) va) = Z.lor c 3 -> walk (S k) m f va = walk k m c va.
Proof. intros Hc He. cbn [walk]. rewrite He, table_no_leaf, table_type, table_addr by done. by rewrite Z.eqb_refl. Qed.
Lemma walk_leaf m k f va e : m (f + 8 * idx k va) = e -> is_leaf k e = true -> walk k m f va = Some (leaf_pa k e va, attr e).
Proof. intros He Hl. destruct k; cbn [walk]; by rewrite He, Hl. Qed.
Lemma walk_zero m k f va : m (f + 8 * idx k va) = 0 -> walk k m f va = None.
Proof. intros He. destruct k as [|[|[|k]]]; cbn -[idx]; by rewrite He. Qed.

Context (m : Z -> Z) (W : wf root base own m).

Lemma own_paddr f x : own f = Some x -> paddr f.
Proof using W. destruct x. intros H. apply (wf_own _ _ _ _ W) in H. unfold paddr. tauto. Qed.

(** The entries of a table lie in its frame. *)
Lemma wf_disjoint f f' x x' i j : own f = Some x -> own f' = Some x' -> 0 <= i < 512 -> 0 <= j < 512 -> f + 8 * i = f' + 8 * j -> f = f' /\ i = j.
Proof using W.
  intros H H' Hi Hj E. apply own_paddr in H as [[q ->]%Z.mod_divide _]; [|lia]. apply own_paddr in H' as [[q' ->]%Z.mod_divide _]; [|lia]. assert (q = q') by lia. subst. lia.
Qed.

Lemma parent_entry c k b f b' : own c = Some (k, b) -> own f = Some (S k, b') -> b' <= b < b' + span (S (S k)) ->
  b = b' + idx (S k) b * span (S k) /\ m (f + 8 * idx (S k) b) = Z.lor c 3.
Proof using W.
  intros Hc Hf Hb. destruct (wf_own _ _ _ _ W _ _ _ Hc) as (_ & _ & _ & Hm & _). destruct (wf_own _ _ _ _ W _ _ _ Hf) as (? & _ & _ & Hm' & _).
  destruct (wf_parent _ _ _ _ W _ _ _ Hc ltac:(lia)) as (g & d & Hg & Hd & He).
  destruct (wf_own _ _ _ _ W _ _ _ Hg) as (_ & _ & _ & Hmd & _). pose proof (span_pos (S k)). pose proof (span_pos (S (S k))).
  assert (d = b') as ->.
  { apply Z.mod_divide in Hmd as [q ->]; [|lia]. apply Z.mod_divide in Hm' as [q' ->]; [|lia]. assert (q = q') by nia. by subst. }
  rewrite <- (wf_inj _ _ _ _ W _ _ _ Hg Hf). split; [|done].
  symmetry. by apply idx_aligned.
Qed.

(** Below a table, the translation is that of the table. *)
Lemma walk_at f k b va : own f = Some (k, b) -> b <= va < b + span (S k) -> walk 3 m root va = walk k m f va.
Proof using W.
  intros Hf Hv. remember (3 - k)%nat as n eqn:En. destruct (wf_own _ _ _ _ W _ _ _ Hf) as (Hk & _).
  revert f k b Hf Hv En Hk. induction n as [|n IH]; intros.
  - assert (k = 3%nat) as -> by lia. by rewrite (wf_top _ _ _ _ W _ _ Hf).
  - destruct (wf_parent _ _ _ _ W _ _ _ Hf ltac:(lia)) as (g & d & Hg & Hd & He).
    destruct (parent_entry _ _ _ _ _ Hf Hg Hd) as [Hb _]. destruct (wf_own _ _ _ _ W _ _ _ Hg) as (? & _ & _ & Hmd & _).
    pose proof (idx_range (S k) b). pose proof (span_S (S k)).
    rewrite (IH g (S k) d) by (done || lia || nia). apply walk_table; [by apply own_paddr in Hf|].
    rewrite <- He. do 3 f_equal. apply (idx_eq (S k) d); [done|done|nia].
Qed.
End walk.

(** A walk depends on the entries for its address only. *)
Lemma walk_ext root base own m m' k f b va : wf root base own m -> own f = Some (k, b) -> b <= va < b + span (S k) ->
  (forall f' k' b', own f' = Some (k', b') -> b' <= va < b' + span (S k') -> m' (f' + 8 * idx k' va) = m (f' + 8 * idx k' va)) ->
  walk k m' f va = walk k m f va.
Proof.
  intros W. revert f b. induction k as [|k IH]; intros f b Hf Hv Hm; cbn [walk]; rewrite (Hm _ _ _ Hf Hv); [done|].
  destruct (wf_own _ _ _ _ W _ _ _ Hf) as (? & _ & _ & Hb & _). pose proof (idx_in _ _ _ Hb Hv).
  destruct (wf_entry _ _ _ _ W _ _ _ (idx (S k) va) Hf (idx_range _ _)) as [->|[->|(k' & c & [= <-] & Hc & ->)]]; [by destruct k as [|[|?]]|done|].
  rewrite table_addr by (by eapply own_paddr). case_match; [done|]. case_match; [|done]. by apply (IH c (b + idx (S k) va * span (S k))).
Qed.

(** ** A leaf is written into an empty entry *)
Section leaf.
Context (root base : Z) (own : owner) (m : Z -> Z) (W : wf root base own m).
Context (f : Z) (k : nat) (b i e : Z) (Hf : own f = Some (k, b)) (Hi : 0 <= i < 512) (H0 : m (f + 8 * i) = 0).
Context (Hl : is_leaf k e = true).
Let m' := <[f + 8 * i := e]> m.

Lemma leaf_other f' x j : own f' = Some x -> 0 <= j < 512 -> (f' = f -> j <> i) -> m' (f' + 8 * j) = m (f' + 8 * j).
Proof using W Hf Hi. intros Hf' Hj Hn. apply fn_lookup_insert_ne. intros E. destruct (wf_disjoint _ _ _ _ W _ _ _ _ _ _ Hf Hf' Hi Hj E) as [E1 E2]. exact (Hn (eq_sym E1) (eq_sym E2)). Qed.

Lemma leaf_wf : wf root base own m'.
Proof using W Hf Hi H0 Hl.
  split; try apply W.
  - intros f' k' b' j Hf' Hj. destruct (decide (f' = f /\ j = i)) as [[-> ->]|Hn].
    + unfold m'. rewrite fn_lookup_insert. right. left. by assert (k' = k) as -> by congruence.
    + rewrite (leaf_other f' (k', b')) by naive_solver. by apply (wf_entry _ _ _ _ W).
  - intros c kc bc Hc Hk. destruct (wf_parent _ _ _ _ W _ _ _ Hc Hk) as (g & d & Hg & Hd & He). exists g, d. split; [done|]. split; [done|].
    rewrite (leaf_other g (S kc, d)); [done|done|apply idx_range|]. intros -> E. rewrite E, H0 in He. symmetry in He.
    by apply table_nonzero in He; [|by eapply own_paddr].
Qed.

Lemma leaf_walk va : base <= va < base + 2 ^ 48 ->
  walk 3 m' root va = if bool_decide (b + i * span k <= va < b + i * span k + span k) then Some (leaf_pa k e va, attr e) else walk 3 m root va.
Proof using W Hf Hi H0 Hl.
  intros Hv. destruct (wf_own _ _ _ _ W _ _ _ Hf) as (? & _ & _ & Hb & _). pose proof (span_S k). case_bool_decide as Hin.
  - rewrite (walk_at _ _ _ _ leaf_wf f k b) by (done || nia). apply walk_leaf; [|done].
    rewrite (idx_eq k b va i) by done. apply fn_lookup_insert.
  - apply (walk_ext _ _ _ _ _ _ _ base va W); [apply W|by change (span 4) with (2 ^ 48)|]. intros f' k' b' Hf' Hv'. apply (leaf_other f' (k', b')); [done|apply idx_range|].
    intros -> E. rewrite Hf' in Hf. injection Hf as -> ->. pose proof (idx_in _ _ _ Hb Hv'). rewrite E in *. lia.
Qed.
End leaf.

(** ** A zeroed page is linked into an empty entry *)
Section link.
Context (root base : Z) (own : owner) (m : Z -> Z) (W : wf root base own m).
Context (f : Z) (k : nat) (b i c : Z) (Hf : own f = Some (S k, b)) (Hi : 0 <= i < 512) (H0 : m (f + 8 * i) = 0).
Context (Hc : paddr c) (Hfree : own c = None).
Let own' : owner := <[c := Some (k, b + i * span (S k))]> own.
Let m' := <[f + 8 * i := Z.lor c 3]> (zero_page c m).

Lemma own_ne f' x : own f' = Some x -> f' <> c.
Proof using Hfree. congruence. Qed.
Lemma own_old f' x : own f' = Some x -> own' f' = Some x.
Proof using Hfree. intros H. etrans; [|exact H]. apply fn_lookup_insert_ne. by apply not_eq_sym, (own_ne _ x). Qed.
Lemma own_inv f' x : own' f' = Some x -> own f' = Some x \/ f' = c /\ x = (k, b + i * span (S k)).
Proof using.
  destruct (decide (f' = c)) as [->|Hn]; intros H; [right|left].
  - unfold own' in H. rewrite fn_lookup_insert in H. by injection H as <-.
  - rewrite <- H. symmetry. by apply fn_lookup_insert_ne, not_eq_sym.
Qed.

Lemma link_page f' j : own f' <> None -> 0 <= j < 512 -> zero_page c m (f' + 8 * j) = m (f' + 8 * j).
Proof using W Hc Hfree.
  clear m' own' H0 Hi Hf. intros Hf' Hj. unfold zero_page. destruct (own f') as [x|] eqn:E; [|done]. pose proof (own_ne _ _ E). apply (own_paddr _ _ _ _ W) in E as [E _].
  destruct Hc as [Hc' _]. apply Z.mod_divide in E as [q ->]; [|lia]. apply Z.mod_divide in Hc' as [q' ->]; [|lia]. change PAGE_SIZE with 4096.
  replace ((q' * 4096 <=? q * 4096 + 8 * j) && (q * 4096 + 8 * j <? q' * 4096 + 4096)) with false; [done|]. lia.
Qed.
Lemma link_kept f' x j : own f' = Some x -> 0 <= j < 512 -> (f' = f -> j <> i) -> m' (f' + 8 * j) = m (f' + 8 * j).
Proof using W Hf Hi Hc Hfree.
  intros Hf' Hj Hn. unfold m'. rewrite fn_lookup_insert_ne; [apply link_page; congruence|].
  intros E. destruct (wf_disjoint _ _ _ _ W _ _ _ _ _ _ Hf Hf' Hi Hj E) as [E1 E2]. exact (Hn (eq_sym E1) (eq_sym E2)).
Qed.
Lemma link_new j : 0 <= j < 512 -> m' (c + 8 * j) = 0.
Proof using W Hf Hi Hc Hfree.
  intros Hj. unfold m'. rewrite fn_lookup_insert_ne.
  - unfold zero_page. change PAGE_SIZE with 4096. by replace ((c <=? c + 8 * j) && (c + 8 * j <? c + 4096)) with true by lia.
  - pose proof (own_ne _ _ Hf). apply (own_paddr _ _ _ _ W) in Hf as [E _]. destruct Hc as [Hc' _].
    apply Z.mod_divide in E as [q E]; [|lia]. apply Z.mod_divide in Hc' as [q' Hc']; [|lia]. lia.
Qed.
Lemma link_range : (S k <= 3)%nat /\ b mod span (S (S k)) = 0 /\ span (S (S k)) = 512 * span (S k) /\ 0 < span (S k).
Proof using W Hf. destruct (wf_own _ _ _ _ W _ _ _ Hf) as (? & _ & _ & Hb & _). split_and!; [done|done|apply span_S|apply span_pos]. Qed.
Lemma link_unused g : own g <> Some (k, b + i * span (S k)).
Proof using W Hf Hi H0.
  intros Hg. destruct link_range as (? & Hb & ? & ?). destruct (parent_entry _ _ _ _ W _ _ _ _ _ Hg Hf ltac:(nia)) as [_ He].
  rewrite (idx_eq (S k) b _ i) in He by (done || lia). rewrite H0 in He. symmetry in He. by apply table_nonzero in He; [|by eapply own_paddr].
Qed.
Lemma link_own : wf root base own m -> forall f' k' b', own' f' = Some (k', b') ->
  (k' <= 3)%nat /\ f' mod 4096 = 0 /\ 0 <= f' < 2 ^ 48 /\ b' mod span (S k') = 0 /\ 0 <= b' /\ b' + span (S k') <= 2 ^ 64.
Proof using W Hf Hi Hc.
  intros _ f' k' b' [H|[-> [= -> ->]]]%own_inv; [by apply (wf_own _ _ _ _ W)|]. destruct link_range as (? & Hb & ? & ?).
  destruct (wf_own _ _ _ _ W _ _ _ Hf) as (_ & _ & _ & _ & ? & ?). destruct Hc. split_and!; [lia|done|lia|lia| |nia|nia].
  apply span_mod in Hb. by rewrite Z.add_mod, Hb, Z_mod_mult, Z.add_0_r by lia.
Qed.

Lemma link_wf : wf root base own' m'.
Proof using W Hf Hi H0 Hc Hfree.
  split.
  - apply own_old, W.
  - by apply link_own.
  - intros g g' x [Hg|[-> Ex]]%own_inv [Hg'|[-> Ex']]%own_inv; subst; [by eapply (wf_inj _ _ _ _ W)| | |done]; by apply link_unused in Hg || apply link_unused in Hg'.
  - intros g kg bg j [Hg|[-> [= -> ->]]]%own_inv Hj; [|left; by apply link_new]. destruct (decide (g = f /\ j = i)) as [[-> ->]|Hn].
    + rewrite Hf in Hg. injection Hg as <- <-. right. right. exists k, c. split; [done|]. unfold own', m'. by rewrite !fn_lookup_insert.
    + rewrite (link_kept g (kg, bg)) by naive_solver. destruct (wf_entry _ _ _ _ W _ _ _ j Hg Hj) as [He|[He|(k' & c' & ? & ? & ?)]]; [by left|by right; left|].
      right. right. exists k', c'. split_and!; [done|by apply own_old|done].
  - intros g kg bg [Hg|[-> [= -> ->]]]%own_inv Hk.
    + destruct (wf_parent _ _ _ _ W _ _ _ Hg Hk) as (h & d & Hh & Hd & He). exists h, d. split; [by apply own_old|]. split; [done|].
      rewrite (link_kept h (S kg, d)); [done|done|apply idx_range|]. intros -> E. rewrite E, H0 in He. symmetry in He.
      by apply table_nonzero in He; [|by eapply own_paddr].
    + destruct link_range as (? & ? & ? & ?). exists f, b. split; [by apply own_old|]. split; [nia|]. rewrite (idx_eq (S k) b _ i) by (done || lia). apply fn_lookup_insert.
  - intros g bg [Hg|[-> [= E _]]]%own_inv; [by eapply (wf_top _ _ _ _ W)|]. destruct link_range. lia.
Qed.

Lemma link_walk va : base <= va < base + 2 ^ 48 -> walk 3 m' root va = walk 3 m root va.
Proof using W Hf Hi H0 Hc Hfree.
  intros Hv. destruct link_range as (? & Hb & ? & ?). destruct (decide (b + i * span (S k) <= va < b + i * span (S k) + span (S k))) as [Hin|Hn].
  - rewrite (walk_at _ _ _ _ link_wf c k (b + i * span (S k))); [|unfold own'; apply fn_lookup_insert|done]. rewrite walk_zero by (apply link_new, idx_range).
    rewrite (walk_at _ _ _ _ W f (S k) b) by (done || nia). symmetry. apply walk_zero. by rewrite (idx_eq (S k) b va i).
  - apply (walk_ext _ _ _ _ _ _ _ base va W); [apply W|by change (span 4) with (2 ^ 48)|]. intros f' k' b' Hf' Hv'. apply (link_kept f' (k', b')); [done|apply idx_range|].
    intros -> E. rewrite Hf' in Hf. injection Hf as -> ->. pose proof (idx_in _ _ _ Hb Hv'). rewrite E in *. lia.
Qed.
End link.
