(* ===== verification/PageMap.v ===== *)
(** * Mapping a range

    The functions of [Paging], level by level, against one contract: from a state in which
    the range is not translated they return, and change the translation in the range only.
    A relation [ext] says what else a step may change: tables are added but never moved,
    each new table meets the range, slots of upper levels and memory that is not a table
    stay as they were. *)
From stdpp Require Import functions.
From S2P Require Import Prelude Paging PageTab.

Definition fixslot (k : nat) : slot :=
  match k with O => FIX_PTE | 1%nat => FIX_PMD | 2%nat => FIX_PUD | _ => FIX_PGD end.
(** Blocks of level [k] that a range meets, and the tables that mapping it may take. *)
Definition blocks (sz lo hi : Z) : Z := (hi - 1) / sz - lo / sz + 1.
Fixpoint need (k : nat) (lo hi : Z) : Z := match k with O => 0 | S k' => blocks (span k) lo hi + need k' lo hi end.

Lemma fixslot_inj j k : (j <= 3)%nat -> (k <= 3)%nat -> fixslot j = fixslot k -> j = k.
Proof. intros. do 4 (destruct j as [|j]; [do 4 (destruct k as [|k]; [done|]); lia|]). lia. Qed.

(** ** Masks and boundaries *)
Lemma page_of_eq a : in_u 64 a -> page_of a = a / 4096 * 4096.
Proof. apply (land_mask 12). lia. Qed.
Lemma page_of_entry f i : paddr f -> 0 <= i < 512 -> page_of (f + 8 * i) = f.
Proof.
  intros [[q ->]%Z.mod_divide ?] ?; [|lia]. rewrite page_of_eq by lia. f_equal. symmetry. apply Z.div_unique with (8 * i); [lia|ring].
Qed.
Lemma addr_end_eq n lo hi : 0 <= n <= 48 -> 0 <= lo -> lo < hi -> hi < 2 ^ 64 ->
  addr_end (2 ^ n) (u64 (Z.lnot (2 ^ n - 1))) lo hi = Z.min ((lo / 2 ^ n + 1) * 2 ^ n) hi.
Proof.
  intros Hn ? ? ?. unfold addr_end. rewrite land_mask by (lia || apply wrap_range; lia).
  assert (0 < 2 ^ n) by lia. assert (Hd : 2 ^ 64 = 2 ^ (64 - n) * 2 ^ n) by (rewrite <- Z.pow_add_r by lia; f_equal; lia).
  pose proof (Z.div_mod lo (2 ^ n)). pose proof (Z.mod_pos_bound lo (2 ^ n)). set (q := lo / 2 ^ n) in *.
  destruct (decide (lo + 2 ^ n < 2 ^ 64)).
  - rewrite (wrap_id 64 (lo + _)) by lia. rewrite <- (Z.div_unique (lo + 2 ^ n) (2 ^ n) (q + 1) (lo mod 2 ^ n)) by lia.
    rewrite !wrap_id by nia. case_match; lia.
  - assert (2 ^ n <= 2 ^ 48) by (apply Z.pow_le_mono_r; lia).
    assert (u64 (lo + 2 ^ n) = lo + 2 ^ n - 2 ^ 64) as -> by (unfold wrap; symmetry; apply Z.mod_unique with 1; lia).
    rewrite Z.div_small by lia. change (u64 (0 * 2 ^ n - 1)) with (2 ^ 64 - 1). rewrite wrap_id by lia.
    assert (2 ^ (64 - n) <= q + 1) by nia. assert (2 ^ 64 <= (q + 1) * 2 ^ n) by nia. case_match; lia.
Qed.
Lemma index_eq k va : 0 <= va -> Z.land (Z.shiftr va (12 + 9 * Z.of_nat k)) (PAGE_MAX_TABLE_ENTRIES - 1) = idx k va.
Proof. intros. rewrite Z.shiftr_div_pow2 by lia. change (PAGE_MAX_TABLE_ENTRIES - 1) with (Z.ones 9). by rewrite Z.land_ones by lia. Qed.
Lemma pte_index_eq va : 0 <= va -> pte_index va = idx 0 va.
Proof. intros. unfold pte_index. change PAGE_SHIFT with (12 + 9 * Z.of_nat 0). by rewrite index_eq. Qed.
Lemma pmd_index_eq va : 0 <= va -> pmd_index va = idx 1 va.
Proof. intros. unfold pmd_index. change PMD_SHIFT with (12 + 9 * Z.of_nat 1). by rewrite index_eq. Qed.
Lemma pud_index_eq va : 0 <= va -> pud_index va = idx 2 va.
Proof. intros. unfold pud_index. change PUD_SHIFT with (12 + 9 * Z.of_nat 2). by rewrite index_eq. Qed.
Lemma pgd_index_eq va : 0 <= va -> pgd_index va = idx 3 va.
Proof. intros. unfold pgd_index. change PGDIR_SHIFT with (12 + 9 * Z.of_nat 3). by rewrite index_eq. Qed.
Lemma pfn_pte_eq phys p : paddr phys -> pfn_pte (phys_to_pfn phys) p = Z.lor phys p.
Proof.
  intros [[q ->]%Z.mod_divide ?]; [|lia]. unfold pfn_pte, phys_to_pfn, PAGE_SHIFT. f_equal. rewrite Z.shiftr_div_pow2, Z.shiftl_mul_pow2 by lia.
  change (2 ^ 12) with 4096. rewrite Z.div_mul by lia. apply wrap_id. lia.
Qed.
Lemma table_paddr c : paddr c -> pmd_page_paddr (Z.lor c 3) = c.
Proof.
  intros Hc. unfold pmd_page_paddr, pfn_to_phys, pmd_pfn, PAGE_SHIFT. change PHYS_MASK with (Z.ones 48). rewrite Z.land_ones by lia.
  pose proof Hc as [[q ->]%Z.mod_divide ?]; [|lia].
  assert (Z.lor (q * 4096) 3 = q * 4096 + 3) as ->.
  { assert (q * 4096 = Z.shiftl q 12) as -> by (by rewrite Z.shiftl_mul_pow2). rewrite Z.lor_comm, lor_shiftl, Z.shiftl_mul_pow2 by lia. lia. }
  rewrite Z.mod_small by lia. rewrite Z.shiftr_div_pow2, Z.shiftl_mul_pow2 by lia. change (2 ^ 12) with 4096.
  rewrite Z.div_add_l, Z.add_0_r by lia. apply wrap_id. lia.
Qed.
Lemma table_none c : paddr c -> pmd_none (Z.lor c 3) = false.
Proof. intros. by apply Z.eqb_neq, table_nonzero. Qed.
Lemma table_bad c : paddr c -> pmd_bad (Z.lor c 3) = false.
Proof. intros Hc. unfold pmd_bad. change 2 with (Z.land TYPE_MASK 2). by rewrite Z.land_assoc, table_type. Qed.
Lemma table_sect c : paddr c -> pmd_sect (Z.lor c 3) = false.
Proof. intros. unfold pmd_sect. by rewrite table_type. Qed.

Section map.
Context (root base : Z).
Implicit Types (own : owner) (s : pg) (k j : nat) (lo hi va phys av : Z).

Definition view s va : option (Z * Z) := walk 3 (p_mem s) root va.
Record good own s : Prop := Good {
  good_wf : wf root base own (p_mem s);
  good_free : Forall (fun c => paddr c /\ c <> 0 /\ own c = None) (p_free s);
  good_nodup : List.NoDup (p_free s)
}.
Definition notab k own lo hi : Prop := forall f k' b', own f = Some (k', b') -> (k' < k)%nat -> ~ (lo <= b' /\ b' + span (S k') <= hi).
Record pre k own lo hi s : Prop := Pre {
  pre_good : good own s;
  pre_lt : lo < hi;
  pre_lo : lo mod 4096 = 0;
  pre_hi : hi mod 4096 = 0;
  pre_base : 0 <= base <= lo /\ hi <= base + 2 ^ 48 /\ hi < 2 ^ 64;
  pre_none va : lo <= va < hi -> view s va = None;
  pre_notab : notab k own lo hi;
  pre_need : need k lo hi <= Z.of_nat (length (p_free s))
}.
(** [n] frames at most are taken, for tables below level [k]; slots from level [j] up are kept. *)
Record ext k j (n : Z) own own' lo hi s s' : Prop := Ext {
  ext_good : good own' s';
  ext_own f x : own f = Some x -> own' f = Some x;
  ext_new f k' b' : own' f = Some (k', b') -> own f = Some (k', b') \/ (k' < k)%nat /\ b' < hi /\ lo < b' + span (S k');
  ext_fix i : (j <= i <= 3)%nat -> p_fix s' (fixslot i) = p_fix s (fixslot i);
  ext_free : exists used, p_free s = used ++ p_free s' /\ Z.of_nat (length used) <= n;
  ext_mem a : own' (page_of a) = None -> p_mem s' a = p_mem s a
}.
Definition mapped lo hi phys av s s' : Prop :=
  forall va, base <= va < base + 2 ^ 48 -> view s' va = if bool_decide (lo <= va < hi) then Some (phys + (va - lo), av) else view s va.
Definition post k j own own' lo hi phys av s s' : Prop := ext k j (need k lo hi) own own' lo hi s s' /\ mapped lo hi phys av s s'.

Lemma ext_mono k j n own own' lo hi s s' k' j' n' lo' hi' : ext k j n own own' lo hi s s' ->
  (k <= k')%nat -> (j <= j')%nat -> n <= n' -> lo' <= lo -> hi <= hi' -> ext k' j' n' own own' lo' hi' s s'.
Proof.
  intros E ? ? ? ? ?. split; try apply E.
  - intros f x b' Hn. destruct (ext_new _ _ _ _ _ _ _ _ _ E _ _ _ Hn) as [?|?]; [by left|right; lia].
  - intros i Hi. apply (ext_fix _ _ _ _ _ _ _ _ _ E). lia.
  - destruct (ext_free _ _ _ _ _ _ _ _ _ E) as (u & ? & ?). exists u. split; [done|lia].
Qed.
Lemma ext_trans k j n n' own own1 own2 lo hi s s1 s2 :
  ext k j n own own1 lo hi s s1 -> ext k j n' own1 own2 lo hi s1 s2 -> ext k j (n + n') own own2 lo hi s s2.
Proof.
  intros E1 E2. split; try apply E2.
  - intros f x H. by apply E2, E1.
  - intros f k' b' H. destruct (ext_new _ _ _ _ _ _ _ _ _ E2 _ _ _ H) as [H'|?]; [|by right]. by apply (ext_new _ _ _ _ _ _ _ _ _ E1).
  - intros i Hi. rewrite (ext_fix _ _ _ _ _ _ _ _ _ E2) by done. by apply (ext_fix _ _ _ _ _ _ _ _ _ E1).
  - destruct (ext_free _ _ _ _ _ _ _ _ _ E1) as (u & -> & ?). destruct (ext_free _ _ _ _ _ _ _ _ _ E2) as (v & -> & ?).
    exists (u ++ v). rewrite app_assoc. split; [done|]. len.
  - intros a Ha. rewrite (ext_mem _ _ _ _ _ _ _ _ _ E2) by done. apply (ext_mem _ _ _ _ _ _ _ _ _ E1).
    destruct (own1 (page_of a)) eqn:E; [|done]. apply (ext_own _ _ _ _ _ _ _ _ _ E2) in E. congruence.
Qed.
Lemma ext_refl k j own lo hi s : good own s -> ext k j 0 own own lo hi s s.
Proof. intros G. split; [done|done|by left|done|by exists []|done]. Qed.

(** ** The range split in two *)
Lemma blocks_split k lo mid hi : 0 <= lo -> lo < mid -> mid < hi -> mid mod span k = 0 -> blocks (span k) lo hi = blocks (span k) lo mid + blocks (span k) mid hi.
Proof.
  intros ? ? ? Hm. pose proof (span_pos k). apply Z.mod_divide in Hm as [q ->]; [|lia]. unfold blocks. rewrite (Z.div_mul q) by lia.
  rewrite <- (Z.div_unique (q * span k - 1) (span k) (q - 1) (span k - 1)); [lia|lia|ring].
Qed.
Lemma need_split k lo mid hi : 0 <= lo -> lo < mid -> mid < hi -> mid mod span k = 0 -> need k lo hi = need k lo mid + need k mid hi.
Proof. intros ? ? ?. induction k as [|k IH]; intros Hm; [done|]. cbn [need]. rewrite (blocks_split (S k) lo mid hi), IH by (done || by apply span_mod). lia. Qed.
Lemma blocks_pos sz lo hi : 0 < sz -> lo < hi -> 1 <= blocks sz lo hi.
Proof. intros. unfold blocks. pose proof (Z.div_le_mono lo (hi - 1) sz). lia. Qed.
Lemma need_pos k lo hi : lo < hi -> 0 <= need k lo hi.
Proof. intros. induction k as [|k IH]; cbn [need]; [lia|]. pose proof (blocks_pos (span (S k)) lo hi (span_pos _)). lia. Qed.

Lemma pre_left k own lo mid hi s : pre k own lo hi s -> lo < mid <= hi -> mid mod 4096 = 0 -> (mid < hi -> mid mod span k = 0) -> pre k own lo mid s.
Proof.
  intros [G ? ? ? ? Hv Ht Hn] ? ? Hm. destruct (decide (mid = hi)) as [->|]; [done|]. split; try done || lia.
  - intros va ?. apply Hv. lia.
  - intros f k' b' Ho Hk Hin. apply (Ht f k' b' Ho Hk). lia.
  - rewrite (need_split k lo mid hi) in Hn by (lia || apply Hm; lia). pose proof (need_pos k mid hi). lia.
Qed.
Lemma pre_right k j own own' lo mid hi phys av s s' : pre k own lo hi s -> post k j own own' lo mid phys av s s' ->
  lo < mid < hi -> mid mod 4096 = 0 -> mid mod span k = 0 -> pre k own' mid hi s'.
Proof.
  intros [G ? ? ? ? Hv Ht Hn] [E M] ? ? Hm. split; try done || lia.
  - apply E.
  - intros va ?. rewrite M by lia. rewrite bool_decide_false by lia. apply Hv. lia.
  - intros f k' b' Ho Hk Hin. destruct (ext_new _ _ _ _ _ _ _ _ _ E _ _ _ Ho) as [H'|?]; [|lia]. apply (Ht f k' b' H' Hk). lia.
  - rewrite (need_split k lo mid hi) in Hn by (lia || apply Hm; lia). destruct (ext_free _ _ _ _ _ _ _ _ _ E) as (u & Hu & ?). rewrite Hu in Hn. len.
Qed.
Lemma post_seq k j own own1 own2 lo mid hi phys av s s1 s2 : 0 <= lo -> lo < mid < hi -> mid mod span k = 0 -> base <= lo -> hi <= base + 2 ^ 48 ->
  post k j own own1 lo mid phys av s s1 -> post k j own1 own2 mid hi (phys + (mid - lo)) av s1 s2 -> post k j own own2 lo hi phys av s s2.
Proof.
  intros ? ? ? ? ? [E1 M1] [E2 M2]. split.
  - rewrite (need_split k lo mid hi) by (done || lia). eapply ext_trans; (eapply ext_mono; [done|..]; lia).
  - intros va Hv. rewrite M2, M1 by done. repeat case_bool_decide; try lia; [do 2 f_equal; lia|done..].
Qed.
(** ** One entry *)
Definition on_table k own s f b lo hi : Prop := own f = Some (k, b) /\ p_fix s (fixslot k) = Some f /\ b <= lo /\ hi <= b + span (S k).
Definition entry k f va : ptr := (fixslot k, f + 8 * idx k va).

Lemma get_ok s f sl i : paddr f -> 0 <= i < 512 -> p_fix s sl = Some f -> get (sl, f + 8 * i) s = Ok (p_mem s (f + 8 * i)).
Proof. intros Hf Hi Hs. unfold get. cbn [fst snd]. rewrite page_of_entry by done. by rewrite bool_decide_true. Qed.
Lemma set_ok s f sl i e : paddr f -> 0 <= i < 512 -> p_fix s sl = Some f ->
  set (sl, f + 8 * i) e s = Ok (Pg (<[f + 8 * i := e]> (p_mem s)) (p_fix s) (p_free s)).
Proof. intros Hf Hi Hs. unfold set. cbn [fst snd]. rewrite page_of_entry by done. by rewrite bool_decide_true. Qed.

Section one.
Context k own lo hi s f b (P : pre k own lo hi s) (T : on_table k own s f b lo hi).
Let W := good_wf _ _ (pre_good _ _ _ _ _ P).

Lemma one_range : (k <= 3)%nat /\ b mod span (S k) = 0 /\ 0 <= b <= lo /\ lo < hi <= b + span (S k) /\ paddr f /\ base <= lo /\ hi <= base + 2 ^ 48.
Proof using P T.
  pose proof T as (Hf & _ & ? & ?). pose proof P as [? ? ? ? ? _ _ _]. pose proof (own_paddr _ _ _ _ W _ _ Hf).
  destruct (wf_own _ _ _ _ W _ _ _ Hf) as (? & _ & _ & ? & ? & ?). split_and!; done || lia.
Qed.
Lemma one_entry : p_mem s (f + 8 * idx k lo) = 0 \/
  exists k' c, k = S k' /\ own c = Some (k', b + idx k lo * span k) /\ p_mem s (f + 8 * idx k lo) = Z.lor c 3.
Proof using P T.
  destruct one_range as (? & ? & ? & ? & _). pose proof T as (Hf & _).
  destruct (wf_entry _ _ _ _ W _ _ _ (idx k lo) Hf (idx_range _ _)) as [?|[Hl|?]]; [by left| |by right].
  pose proof (pre_none _ _ _ _ _ P lo ltac:(lia)) as Hn. unfold view in Hn. rewrite (walk_at _ _ _ _ W f k b) in Hn by (done || lia).
  by rewrite (walk_leaf _ _ _ _ _ eq_refl Hl) in Hn.
Qed.
Lemma one_empty : lo mod span k = 0 -> hi = lo + span k -> p_mem s (f + 8 * idx k lo) = 0.
Proof using P T.
  intros Hm Hh. destruct one_entry as [?|(k' & c & Ek & Hc & _)]; [done|]. exfalso. destruct one_range as (? & Hb & ? & ? & _).
  rewrite (idx_aligned k b lo) in Hc by (done || lia). apply (pre_notab _ _ _ _ _ P _ _ _ Hc); [lia|]. rewrite <- Ek. lia.
Qed.

(** A leaf for the whole entry. *)
Lemma one_leaf phys p : lo mod span k = 0 -> hi = lo + span k -> paddr phys -> phys mod span k = 0 -> prot_ok p -> is_leaf k p = true ->
  post k k own own lo hi phys (attr p) s (Pg (<[f + 8 * idx k lo := Z.lor phys p]> (p_mem s)) (p_fix s) (p_free s)).
Proof using P T.
  intros Hm Hh Hp Hpm Hpr Hl. pose proof (one_empty Hm Hh) as H0. destruct one_range as (Hk & Hb & ? & ? & Hfa & _). pose proof T as (Hf & _).
  assert (Hl' : is_leaf k (Z.lor phys p) = true) by (destruct k as [|[|[|?]]]; cbn in *; try rewrite lor_type by done; done).
  pose proof (idx_range k lo) as Hi. pose proof (need_pos k lo hi ltac:(lia)) as Hn. split; [split; cbn|].
  - split; try apply P. by apply (leaf_wf _ _ _ _ W f k b).
  - done.
  - by left.
  - done.
  - exists []. split; [done|]. cbn. lia.
  - intros a Ha. apply fn_lookup_insert_ne. intros <-. rewrite page_of_entry in Ha by done. congruence.
  - intros va Hv. unfold view. cbn [p_mem]. rewrite (leaf_walk _ _ _ _ W f k b) by done. rewrite lor_attr by done.
    rewrite (idx_aligned k b lo) by (done || lia).
    rewrite <- Hh. case_bool_decide as Hin; [|done]. do 2 f_equal. unfold leaf_pa. rewrite lor_addr by done.
    apply Z.mod_divide in Hm as [q Hq]; [|pose proof (span_pos k); lia]. apply Z.mod_divide in Hpm as [r Hr]; [|pose proof (span_pos k); lia].
    rewrite Hr at 1. rewrite Z.div_mul by (pose proof (span_pos k); lia). rewrite <- Hr. f_equal. symmetry. apply Z.mod_unique with q; lia.
Qed.
End one.

(** ** The table below an entry *)
Lemma pre_down k own own' lo hi s s' : pre (S k) own lo hi s -> good own' s' -> (forall va, lo <= va < hi -> view s' va = view s va) ->
  (forall f k' b', own' f = Some (k', b') -> (k' < k)%nat -> own f = Some (k', b')) -> need k lo hi <= Z.of_nat (length (p_free s')) -> pre k own' lo hi s'.
Proof.
  intros [G ? ? ? ? Hv Ht Hn] G' V Ho Hn'. split; try done.
  - intros va Hva. rewrite V by done. by apply Hv.
  - intros f k' b' Hf Hk. apply (Ht f k' b'); [by apply Ho|lia].
Qed.
Lemma need_S k lo hi : 0 <= lo < hi -> hi <= (lo / span (S k) + 1) * span (S k) -> need (S k) lo hi = 1 + need k lo hi.
Proof.
  intros ? Hin. cbn [need]. unfold blocks. pose proof (span_pos (S k)). pose proof (Z.div_mod lo (span (S k))). pose proof (Z.mod_pos_bound lo (span (S k))).
  rewrite <- (Z.div_unique (hi - 1) (span (S k)) (lo / span (S k)) (hi - 1 - lo / span (S k) * span (S k))); lia.
Qed.

Lemma early_ok s c free : p_free s = c :: free -> c <> 0 ->
  exists fx, (forall sl, sl <> FIX_PTE -> fx sl = p_fix s sl) /\ early_pgtable_alloc s = Ok (c, Pg (zero_page c (p_mem s)) fx free).
Proof.
  intros Hf Hc. unfold early_pgtable_alloc. rewrite Hf. cbn [hd tl]. rewrite (proj2 (Z.eqb_neq c 0) Hc). cbn [mbind res_mbind bug_on set_fixmap_offset clear_fixmap p_mem p_fix p_free]. eexists. split; [|done].
  intros sl Hsl. rewrite fn_lookup_insert_ne by congruence. cbn [p_fix]. by rewrite fn_lookup_insert_ne by congruence.
Qed.

Section table.
Context k own lo hi s f b (P : pre (S k) own lo hi s) (T : on_table (S k) own s f b lo hi).
Context (Hin : hi <= (lo / span (S k) + 1) * span (S k)).
Let G := pre_good _ _ _ _ _ P.
Let W := good_wf _ _ G.
Let bc := lo / span (S k) * span (S k).

Lemma table_base : b + idx (S k) lo * span (S k) = bc.
Proof using P T. destruct (one_range _ _ _ _ _ _ _ P T) as (_ & ? & ? & ? & _). apply idx_base; [done|lia]. Qed.
Lemma table_range : bc <= lo < bc + span (S k) /\ hi <= bc + span (S k).
Proof using Hin. pose proof (span_pos (S k)). pose proof (Z.div_mod lo (span (S k))). pose proof (Z.mod_pos_bound lo (span (S k))). lia. Qed.

(** A frame is taken and linked. *)
Section new.
Context (c : Z) (free : list Z) (Hfree : p_free s = c :: free) (H0 : p_mem s (f + 8 * idx (S k) lo) = 0) (fix_ : slot -> option Z).
Context (Hfix : forall sl, sl <> FIX_PTE -> fix_ sl = p_fix s sl).
Let own1 : owner := <[c := Some (k, bc)]> own.
Let s1 := Pg (<[f + 8 * idx (S k) lo := Z.lor c 3]> (zero_page c (p_mem s))) fix_ free.

Lemma new_frame : paddr c /\ c <> 0 /\ own c = None /\ (c ∉ free) /\ List.NoDup free /\ Forall (fun c => paddr c /\ c <> 0 /\ own c = None) free.
Proof using P Hfree.
  pose proof G as [_ Gf Gn]. rewrite Hfree in Gf, Gn. apply Forall_cons_1 in Gf as [(? & ? & ?) ?]. apply List.NoDup_cons_iff in Gn as [Hc ?].
  split_and!; try done. by rewrite list_elem_of_In.
Qed.
Lemma new_wf : wf root base own1 (p_mem s1).
Proof using P T Hfree H0.
  destruct new_frame as (? & _ & ? & _). pose proof T as (? & _). unfold own1. rewrite <- table_base. apply link_wf; try done. apply idx_range.
Qed.
Lemma new_good : good own1 s1.
Proof using P T Hfree H0.
  split; [apply new_wf|..]; destruct new_frame as (_ & _ & _ & Hc & Hd & Hf); [|exact Hd]. cbn. apply Forall_forall. intros x Hx.
  destruct (proj1 (Forall_forall _ _) Hf x Hx) as (? & ? & Hox). split_and!; [done|done|]. rewrite <- Hox. apply fn_lookup_insert_ne. intros E. apply Hc. rewrite E. by apply list_elem_of_In.
Qed.
Lemma new_view va : base <= va < base + 2 ^ 48 -> view s1 va = view s va.
Proof using P T Hfree H0.
  intros. destruct new_frame as (? & _ & ? & _). pose proof T as (? & _). apply (link_walk _ _ own _ W f k b); try done. apply idx_range.
Qed.
Lemma new_ext : ext (S k) (S k) 1 own own1 lo hi s s1.
Proof using P T Hin Hfree H0 Hfix.
  destruct new_frame as (Hp & _ & Hc & _), table_range. pose proof T as (Hf & _). destruct (one_range _ _ _ _ _ _ _ P T) as (_ & _ & _ & _ & Hfp & _). split.
  - apply new_good.
  - intros g x Hg. unfold own1. rewrite fn_lookup_insert_ne by congruence. done.
  - intros g k' b'. unfold own1. destruct (decide (g = c)) as [->|]; [rewrite fn_lookup_insert|rewrite fn_lookup_insert_ne by done; by left].
    intros [= <- <-]. right. pose proof (pre_lt _ _ _ _ _ P). lia.
  - intros i Hi. apply Hfix. destruct i as [|[|[|?]]]; [lia|done..].
  - exists [c]. by rewrite Hfree.
  - intros a. unfold own1. destruct (decide (page_of a = c)) as [->|Hn]; [by rewrite fn_lookup_insert|]. rewrite fn_lookup_insert_ne by done. intros Ha.
    cbn. rewrite fn_lookup_insert_ne by (intros <-; rewrite page_of_entry in Ha by (done || apply idx_range); congruence).
    unfold zero_page. change PAGE_SIZE with 4096. case_match; [|done]. exfalso. apply Hn. destruct Hp as [[q ->]%Z.mod_divide ?]; [|lia].
    rewrite page_of_eq by lia. f_equal. symmetry. apply Z.div_unique with (a - q * 4096); lia.
Qed.
Lemma new_pre : pre k own1 lo hi s1.
Proof using P T Hin Hfree H0 Hfix.
  pose proof (pre_need _ _ _ _ _ P) as Hn. destruct (one_range _ _ _ _ _ _ _ P T) as (_ & _ & ? & ? & _ & ? & ?).
  rewrite need_S, Hfree in Hn by (done || lia). apply (pre_down k own own1 lo hi s s1 P).
  - apply new_good.
  - intros va ?. apply new_view. lia.
  - intros g k' b'. unfold own1. destruct (decide (g = c)) as [->|]; [rewrite fn_lookup_insert|by rewrite fn_lookup_insert_ne]. intros [= <- <-]. lia.
  - cbn in *. lia.
Qed.
End new.
Lemma table_at_ok : exists s1 own1 c, table_at (entry (S k) f lo) s = Ok s1 /\ ext (S k) (S k) 1 own own1 lo hi s s1 /\
  (forall va, base <= va < base + 2 ^ 48 -> view s1 va = view s va) /\ own1 c = Some (k, bc) /\ pre k own1 lo hi s1.
Proof using P T Hin.
  destruct (one_range _ _ _ _ _ _ _ P T) as (Hk & _ & ? & ? & Hfp & _). pose proof T as (Hf & Hs & _). pose proof (idx_range (S k) lo) as Hi. unfold table_at, entry.
  rewrite get_ok by done. cbn [mbind res_mbind]. destruct (one_entry _ _ _ _ _ _ _ P T) as [Hz|(k' & c & [= <-] & Hc & He)].
  - assert (exists c free, p_free s = c :: free) as (c & free & Hfree).
    { pose proof (pre_need _ _ _ _ _ P) as Hn. rewrite need_S in Hn by (done || lia). pose proof (need_pos k lo hi). destruct (p_free s); [cbn in Hn; lia|by eauto]. }
    destruct (new_frame c free Hfree) as (Hp & Hc0 & _). destruct (early_ok s c free Hfree Hc0) as (fx & Hfx & He).
    rewrite Hz. change (pmd_none 0) with true. cbn [mbind res_mbind]. rewrite He. cbn [mbind res_mbind]. rewrite pfn_pte_eq by done.
    rewrite set_ok by (done || (cbn [p_fix]; rewrite Hfx; [done|by destruct k as [|[|?]]])). cbn [mbind res_mbind].
    rewrite get_ok by (done || (cbn [p_fix]; rewrite Hfx; [done|by destruct k as [|[|?]]])). cbn [mbind res_mbind p_mem]. rewrite fn_lookup_insert. rewrite table_bad by done. cbn [mbind res_mbind bug_on].
    eexists _, _, c. split; [done|]. split; [by apply new_ext|]. split; [by apply new_view|]. split; [apply fn_lookup_insert|by apply new_pre].
  - assert (Hp : paddr c) by by eapply (own_paddr _ _ _ _ W). rewrite He, table_none by done. cbn [mbind res_mbind].
    rewrite get_ok by done. cbn [mbind res_mbind]. rewrite He, table_bad by done. cbn [mbind res_mbind bug_on]. exists s, own, c. split; [done|]. rewrite table_base in Hc.
    split; [apply (ext_mono (S k) (S k) 0 own own lo hi); [by apply ext_refl|lia..]|]. split; [done|]. split; [done|].
    apply (pre_down k own own lo hi s s P); try done. pose proof (pre_need _ _ _ _ _ P) as Hn. rewrite need_S in Hn by (done || lia). lia.
Qed.
Lemma below_post own1 own2 s1 s2 phys av : ext (S k) (S k) 1 own own1 lo hi s s1 -> (forall va, base <= va < base + 2 ^ 48 -> view s1 va = view s va) ->
  post k (S k) own1 own2 lo hi phys av s1 s2 -> post (S k) (S k) own own2 lo hi phys av s s2.
Proof using P T Hin.
  intros E V [E2 M]. destruct (one_range _ _ _ _ _ _ _ P T) as (_ & _ & ? & ? & _). split.
  - rewrite need_S by (done || lia). eapply ext_trans; [done|]. eapply ext_mono; [done|lia..].
  - intros va Hv. rewrite M by done. case_bool_decide; [done|by apply V].
Qed.
End table.

(** ** Functions on an entry, and on the table below an entry *)
Definition phys_ok phys lo hi : Prop := phys mod 4096 = 0 /\ 0 <= phys /\ phys + (hi - lo) <= 2 ^ 48.
Definition entry_fun k lo hi phys av (body : ptr -> pg -> res pg) : Prop := forall own s f b,
  pre k own lo hi s -> on_table k own s f b lo hi -> exists s' own', body (entry k f lo) s = Ok s' /\ post k k own own' lo hi phys av s s'.
Definition below_fun k lo hi phys av (body : ptr -> pg -> res pg) : Prop := forall own s f b c bc,
  pre k own lo hi s -> own c = Some (k, bc) -> bc <= lo -> hi <= bc + span (S k) -> on_table (S k) own s f b lo hi ->
  exists s' own', body (entry (S k) f lo) s = Ok s' /\ post k (S k) own own' lo hi phys av s s'.

Lemma below_entry own s k lo hi f b c bc : pre k own lo hi s -> own c = Some (k, bc) -> bc <= lo -> hi <= bc + span (S k) -> on_table (S k) own s f b lo hi ->
  (k < 3)%nat /\ paddr c /\ get (entry (S k) f lo) s = Ok (Z.lor c 3).
Proof.
  intros P Hc ? ? (Hf & Hs & ? & ?). pose proof (good_wf _ _ (pre_good _ _ _ _ _ P)) as W. pose proof (pre_lt _ _ _ _ _ P).
  destruct (wf_own _ _ _ _ W _ _ _ Hf) as (? & _ & _ & Hb & _). destruct (wf_own _ _ _ _ W _ _ _ Hc) as (_ & _ & _ & Hbc & _). pose proof (span_pos (S k)).
  assert (b <= bc) by (apply (aligned_lt (span (S k))); [done|by apply span_mod|done|lia]).
  pose proof (span_S (S k)). destruct (parent_entry _ _ _ _ W _ _ _ _ _ Hc Hf ltac:(lia)) as [Eb He].
  split; [lia|]. split; [by eapply own_paddr|]. unfold entry. rewrite get_ok; [|by eapply own_paddr|apply idx_range|done].
  rewrite <- He. do 4 f_equal. apply (idx_eq (S k) b); [done|apply idx_range|]. lia.
Qed.

Definition opened k (i : Z) (body : ptr -> pg -> res pg) (p : ptr) s : res pg :=
  e ← get p s;
  let '(q, s) := set_fixmap_offset (fixslot k) (pmd_page_paddr e + i * 8) s in
  s ← body q s; Ok (clear_fixmap (fixslot k) s).
Lemma opened_ok k lo hi phys av body : entry_fun k lo hi phys av body -> below_fun k lo hi phys av (opened k (idx k lo) body).
Proof.
  intros B own s f b c bc P Hc ? ? T. destruct (below_entry _ _ _ _ _ _ _ _ _ P Hc ltac:(done) ltac:(done) T) as (Hk & Hp & He).
  unfold opened. rewrite He. cbn [mbind res_mbind set_fixmap_offset]. rewrite table_paddr, (Z.mul_comm _ 8) by done. pose proof (idx_range k lo). rewrite page_of_entry by done.
  set (s1 := Pg _ _ _). assert (P1 : pre k own lo hi s1) by (destruct P as [[]]; done).
  destruct (B own s1 c bc P1) as (s2 & own2 & Hb & [E M]). { split_and!; try done. cbn. by rewrite fn_lookup_insert. }
  unfold entry in Hb. rewrite Hb. cbn [mbind res_mbind]. eexists _, own2. split; [done|]. split; [|exact M]. destruct E as [[] ? ? Hfx ? ?]. split; try done. intros i Hi. cbn.
  assert (fixslot i <> fixslot k) by (intros ?%fixslot_inj; lia). rewrite fn_lookup_insert_ne, Hfx by (done || lia). cbn. by rewrite fn_lookup_insert_ne.
Qed.

(** ** Loops over the chunks of a range: [aend] is where a chunk ends, [nextp] the next entry *)
Fixpoint chunks (fuel : nat) (aend : Z -> Z -> Z) (nextp : ptr -> ptr) (body : ptr -> Z -> Z -> Z -> pg -> res pg) (p : ptr) (addr end_ phys : Z) (s : pg) : res pg :=
  match fuel with
  | O => Fault FHang
  | S fuel =>
      let next := aend addr end_ in
      s ← body p addr next phys s;
      if next =? end_ then Ok s else chunks fuel aend nextp body (nextp p) next end_ (u64 (phys + (next - addr))) s
  end.

Section chunks.
Context k j (sz : Z) (hi av : Z) (aend : Z -> Z -> Z) (nextp : ptr -> ptr) (body : ptr -> Z -> Z -> Z -> pg -> res pg) (Q : owner -> pg -> Z -> ptr -> Prop).
Context (Hsz : 0 < sz) (Hsk : sz mod span k = 0).
Context (Haend : forall lo, 0 <= lo -> lo < hi -> lo mod 4096 = 0 -> hi mod 4096 = 0 -> hi < 2 ^ 64 -> aend lo hi = Z.min ((lo / sz + 1) * sz) hi).
Context (Hbody : forall own s lo mid phys p, pre k own lo mid s -> mid <= hi -> mid <= (lo / sz + 1) * sz -> phys_ok phys lo mid -> Q own s lo p ->
  exists s' own', body p lo mid phys s = Ok s' /\ post k j own own' lo mid phys av s s').
Context (Hnext : forall own own' s s' lo mid n p, 0 <= lo -> Q own s lo p -> ext k j n own own' lo mid s s' -> mid = (lo / sz + 1) * sz -> mid < hi -> Q own' s' mid (nextp p)).

Lemma chunks_ok fuel own s lo phys p : pre k own lo hi s -> Q own s lo p -> phys_ok phys lo hi -> blocks sz lo hi <= Z.of_nat fuel ->
  exists s' own', chunks fuel aend nextp body p lo hi phys s = Ok s' /\ post k j own own' lo hi phys av s s'.
Proof using Hsz Hsk Haend Hbody Hnext.
  revert own s lo phys p. induction fuel as [|fuel IH]; intros own s lo phys p P HQ Hp Hf.
  { pose proof (blocks_pos sz lo hi Hsz (pre_lt _ _ _ _ _ P)). lia. }
  pose proof P as [_ Hlt Hlo Hhi Hb _ _ _]. destruct Hp as (Hpa & Hp0 & Hp1). cbn [chunks]. rewrite Haend by (done || lia).
  pose proof (Z.div_mod lo sz). pose proof (Z.mod_pos_bound lo sz Hsz). set (mid := (lo / sz + 1) * sz) in *.
  assert (Hms : mid mod span k = 0) by (unfold mid; apply Z.mod_divide in Hsk as [r ->]; [|pose proof (span_pos k); lia]; rewrite Z.mul_assoc; apply Z_mod_mult).
  assert (Hmp : mid mod 4096 = 0) by (pose proof (span_page k) as Hq; apply Z.mod_divide in Hms as [r ->]; [|pose proof (span_pos k); lia]; apply Z.mod_divide in Hq as [r' ->]; [|lia]; rewrite Z.mul_assoc; apply Z_mod_mult).
  destruct (Z.min_spec mid hi) as [[Hm ->]|[Hm ->]].
  - destruct (Hbody own s lo mid phys p) as (s1 & own1 & -> & Hpost); [apply (pre_left _ _ _ _ _ _ P); done || lia|lia|lia|split_and!; done || lia|done|].
    cbn [mbind res_mbind]. rewrite (proj2 (Z.eqb_neq mid hi)) by lia. rewrite wrap_id by lia.
    destruct (IH own1 s1 mid (phys + (mid - lo)) (nextp p)) as (s2 & own2 & -> & Hpost2).
    + eapply pre_right; try done. lia.
    + eapply (Hnext own own1 s s1 lo mid); [lia|done|apply Hpost|done|done].
    + split_and!; [|lia|lia]. rewrite Z.add_mod, Hpa, Z.add_0_l, Zmod_mod, Zminus_mod, Hmp, Hlo by lia. done.
    + unfold blocks in *. unfold mid at 1. rewrite Z.div_mul by lia. lia.
    + exists s2, own2. split; [done|]. eapply (post_seq k j own own1 own2 lo mid hi); try done || lia.
  - destruct (Hbody own s lo hi phys p) as (s1 & own1 & -> & Hpost); [done|lia|lia|done|done|].
    cbn [mbind res_mbind]. rewrite Z.eqb_refl. by exists s1, own1.
Qed.
End chunks.

(** Chunks that are the entries of a table. *)
Lemma entries_ok k fuel hi av aend body own s f b lo phys : pre k own lo hi s -> on_table k own s f b lo hi -> phys_ok phys lo hi -> (512 <= fuel)%nat ->
  (forall lo, 0 <= lo -> lo < hi -> lo mod 4096 = 0 -> hi mod 4096 = 0 -> hi < 2 ^ 64 -> aend lo hi = Z.min ((lo / span k + 1) * span k) hi) ->
  (forall lo mid phys, mid <= (lo / span k + 1) * span k -> phys_ok phys lo mid -> entry_fun k lo mid phys av (fun p => body p lo mid phys)) ->
  exists s' own', chunks fuel aend next_entry body (entry k f lo) lo hi phys s = Ok s' /\ post k k own own' lo hi phys av s s'.
Proof.
  intros P T Hp Hf Ha Hb. destruct (one_range _ _ _ _ _ _ _ P T) as (Hk & Hbm & ? & ? & _). pose proof (span_pos k) as Hs.
  apply (chunks_ok k k (span k) hi av aend next_entry body (fun own s lo p => on_table k own s f b lo hi /\ p = entry k f lo)); try done.
  - apply Z_mod_same_full.
  - intros own1 s1 lo1 mid phys1 p P1 Hm Hin Hp1 [(? & ? & ? & ?) ->]. apply (Hb lo1 mid phys1 Hin Hp1 own1 s1 f b P1). split_and!; done || lia.
  - intros own1 own2 s1 s2 lo1 mid n p ? [(Ho & Hfx & ? & ?) ->] E -> Hm. split; [split_and!|].
    + by apply E.
    + rewrite (ext_fix _ _ _ _ _ _ _ _ _ E) by lia. done.
    + pose proof (Z.div_mod lo1 (span k)). pose proof (Z.mod_pos_bound lo1 (span k)). lia.
    + done.
    + unfold entry, next_entry. cbn. f_equal. rewrite <- Z.add_assoc. f_equal. pose proof (Z.div_mod lo1 (span k)). pose proof (Z.mod_pos_bound lo1 (span k)).
      pose proof (idx_base k b lo1 Hbm ltac:(lia)) as E1. pose proof (idx_base k b ((lo1 / span k + 1) * span k) Hbm ltac:(lia)) as E2. rewrite Z.div_mul in E2 by lia. nia.
  - unfold blocks. pose proof (span_S k). assert ((hi - 1) / span k <= lo / span k + 511); [|lia]. pose proof (idx_base k b lo Hbm ltac:(lia)). pose proof (idx_range k lo).
    pose proof (Z.div_mod (hi - 1) (span k)). pose proof (Z.mod_pos_bound (hi - 1) (span k)). set (u := (hi - 1) / span k) in *. set (v := lo / span k) in *.
    assert (span k * u < (v + 512) * span k) by nia. nia.
Qed.
(** Chunks that are runs of entries of the table below an entry. *)
Lemma runs_ok k fuel hi av sz aend body own s f b c bc lo phys : pre k own lo hi s -> own c = Some (k, bc) -> bc <= lo -> hi <= bc + span (S k) ->
  on_table (S k) own s f b lo hi -> phys_ok phys lo hi -> (512 <= fuel)%nat -> 2 * span k <= sz -> sz mod span k = 0 ->
  (forall lo, 0 <= lo -> lo < hi -> lo mod 4096 = 0 -> hi mod 4096 = 0 -> hi < 2 ^ 64 -> aend lo hi = Z.min ((lo / sz + 1) * sz) hi) ->
  (forall lo mid phys, phys_ok phys lo mid -> below_fun k lo mid phys av (fun p => body p lo mid phys)) ->
  exists s' own', chunks fuel aend id body (entry (S k) f lo) lo hi phys s = Ok s' /\ post k (S k) own own' lo hi phys av s s'.
Proof.
  intros P Hc Hbc Hhi T Hp Hf Hsz Hsk Ha Hb. destruct (below_entry _ _ _ _ _ _ _ _ _ P Hc Hbc Hhi T) as (Hk & _).
  pose proof (good_wf _ _ (pre_good _ _ _ _ _ P)) as W. destruct (wf_own _ _ _ _ W _ _ _ Hc) as (_ & _ & _ & Hm & _ & _). pose proof (span_pos k) as Hs. pose proof (pre_lt _ _ _ _ _ P). assert (0 < sz) as Hsz' by lia.
  assert (Hidx : forall va, bc <= va < bc + span (S k) -> idx (S k) va = idx (S k) bc).
  { intros va Hv. unfold idx. f_equal. pose proof (span_pos (S k)). apply Z.mod_divide in Hm as [q ->]; [|lia]. rewrite Z.div_mul by lia. symmetry. apply Z.div_unique with (va - q * span (S k)); lia. }
  apply (chunks_ok k (S k) sz hi av aend id body (fun own s lo p => own c = Some (k, bc) /\ bc <= lo /\ on_table (S k) own s f b lo hi /\ p = entry (S k) f lo)); try done.
  - intros own1 s1 lo1 mid phys1 p P1 Hmid Hin Hp1 (Hc1 & ? & (? & ? & ? & ?) & ->). apply (Hb lo1 mid phys1 Hp1 own1 s1 f b c bc); try done || lia. split_and!; done || lia.
  - intros own1 own2 s1 s2 lo1 mid n p ? (Hc1 & ? & (Ho & Hfx & ? & ?) & ->) E -> Hmid. pose proof (Z.div_mod lo1 sz). pose proof (Z.mod_pos_bound lo1 sz Hsz').
    split_and!; [by apply E|lia|split_and!|].
    + by apply E.
    + rewrite (ext_fix _ _ _ _ _ _ _ _ _ E) by lia. done.
    + lia.
    + done.
    + unfold entry, id. by rewrite (Hidx lo1), (Hidx ((lo1 / sz + 1) * sz)) by lia.
  - unfold blocks. apply Z.mod_divide in Hsk as [r ->]; [|lia]. assert (2 <= r) by nia. pose proof (span_S k).
    pose proof (Z.div_mod (hi - 1) (r * span k)). pose proof (Z.mod_pos_bound (hi - 1) (r * span k)). pose proof (Z.div_mod lo (r * span k)). pose proof (Z.mod_pos_bound lo (r * span k)).
    set (u := (hi - 1) / (r * span k)) in *. set (v := lo / (r * span k)) in *. assert (r * span k * (u - v) < 512 * span k + r * span k) by lia. nia.
Qed.
End map.
