(* ===== verification/PageThm.v ===== *)
(** * Theorems on mapping

    The functions of [Paging] against the contract of [PageMap], from the last level up, and
    the theorems on [create_pgd_mapping]. *)
From Stdlib Require Import FinFun.
From stdpp Require Import functions.
From S2P Require Import Prelude MemBlock MemAlloc Paging PageTab PageMap.

Definition page_prot (p : Z) : Prop := prot_ok p /\ Z.land p TYPE_MASK = 3.

(** ** Attributes *)
Lemma cont_prot_ok mask addr next phys prot flags : page_prot prot ->
  page_prot (cont_prot mask addr next phys prot flags) /\ attr (cont_prot mask addr next phys prot flags) = attr prot.
Proof.
  intros [[Hr Ha] Ht]. unfold cont_prot. case_match; [|done]. split; [split; [split|]|].
  - apply lor_in_u; [lia|done|by vm_compute].
  - rewrite Z.land_lor_distr_l, Ha. done.
  - rewrite Z.land_lor_distr_l, Ht. done.
  - apply Z.bits_inj'. intros i Hi. unfold attr, NOATTR_MASK. rewrite !Z.ldiff_spec, !Z.lor_spec. destruct (Z.testbit PTE_CONT i); [|by rewrite orb_false_r].
    by rewrite !orb_true_r, !andb_false_r.
Qed.
Lemma sect_prot_ok prot : page_prot prot -> prot_ok (mk_sect_prot prot) /\ Z.land (mk_sect_prot prot) TYPE_MASK = 1 /\ attr (mk_sect_prot prot) = attr prot.
Proof.
  intros [[Hr Ha] Ht]. unfold mk_sect_prot. assert (Hl : forall m, Z.land (Z.ldiff prot TABLE_BIT) m = Z.ldiff (Z.land prot m) TABLE_BIT).
  { intros m. apply Z.bits_inj'. intros i Hi. rewrite !Z.land_spec, !Z.ldiff_spec, Z.land_spec. by destruct (Z.testbit prot i), (Z.testbit m i), (Z.testbit TABLE_BIT i). }
  split; [split|split].
  - apply lor_in_u; [lia| |by vm_compute]. apply in_u_testbit; [lia|apply Z.ldiff_nonneg; lia|]. intros i Hi. by rewrite Z.ldiff_spec, (testbit_high 64 prot).
  - rewrite Z.land_lor_distr_l, Hl, Ha. done.
  - rewrite Z.land_lor_distr_l, Hl, Ht. done.
  - apply Z.bits_inj'. intros i Hi. unfold attr. rewrite !Z.ldiff_spec, Z.lor_spec, Z.ldiff_spec.
    destruct (Z.testbit NOATTR_MASK i) eqn:En; [by rewrite !andb_false_r|]. rewrite !andb_true_r.
    assert (Hb : Z.testbit TYPE_MASK i = false) by (unfold NOATTR_MASK in En; rewrite !Z.lor_spec in En; by destruct (Z.testbit ADDR_MASK i), (Z.testbit TYPE_MASK i)).
    change TYPE_MASK with (Z.lor TABLE_BIT TYPE_SECT) in Hb. rewrite Z.lor_spec in Hb. apply orb_false_iff in Hb as [-> ->]. by rewrite orb_false_r, andb_true_r.
Qed.

(** ** The loops are loops over chunks *)
Definition pte_body (prot : Z) (p : ptr) (addr next phys : Z) (s : pg) : res pg :=
  old ← get p s; s ← set p (pfn_pte (phys_to_pfn phys) prot) s; new ← get p s; bug_on (negb (mmu_hw_pgattr_safe old new));; Ok s.
Lemma u64_step phys addr d : u64 (phys + (u64 (addr + d) - addr)) = u64 (phys + d).
Proof. unfold wrap. rewrite (Z.mod_eq (addr + d)) by lia. replace (phys + _) with (phys + d + - ((addr + d) / 2 ^ 64) * 2 ^ 64) by ring. apply Z_mod_plus_full. Qed.
Lemma init_pte_chunks fuel p addr end_ phys prot s :
  init_pte_loop fuel p addr end_ phys prot s = chunks fuel (fun a _ => u64 (a + 4096)) next_entry (pte_body prot) p addr end_ phys s.
Proof.
  revert p addr phys s. induction fuel as [|fuel IH]; intros; [done|]. cbn [init_pte_loop chunks]. unfold pte_body at 2. rewrite u64_step.
  destruct (get p s) as [old|]; [|done]. cbn [mbind res_mbind]. destruct (set p _ s) as [s1|]; [|done]. cbn [mbind res_mbind].
  destruct (get p s1) as [new|]; [|done]. cbn [mbind res_mbind]. destruct (bug_on _); [|done]. cbn [mbind res_mbind]. change PAGE_SIZE with 4096. case_match; [done|]. apply IH.
Qed.
(** The others differ in names only. *)
Ltac same_loop := intros *; match goal with |- _ ?fuel ?p ?addr _ ?phys _ _ ?s = _ => revert p addr phys s; induction fuel as [|? ?]; intros; [done|] end;
  cbn -[map_entry init_pte init_pmd alloc_init_pud]; match goal with |- (?m ≫= _) = _ => destruct m; [|done] end; cbn [mbind res_mbind]; case_match; [done|]; match goal with H : forall _, _ |- _ => apply H end.
Lemma cont_pte_chunks fuel p addr end_ phys prot flags s : cont_pte_loop fuel p addr end_ phys prot flags s =
  chunks fuel pte_cont_addr_end id (fun p a n ph s => init_pte p a n ph (pmd_cont_prot a n ph prot flags) s) p addr end_ phys s.
Proof. same_loop. Qed.
Lemma init_pmd_chunks fuel p addr end_ phys prot flags s : init_pmd_loop fuel p addr end_ phys prot flags s =
  chunks fuel pmd_addr_end next_entry (fun p a n ph s => map_entry (pmd_huge_map p) alloc_init_cont_pte p a n ph prot flags s) p addr end_ phys s.
Proof. same_loop. Qed.
Lemma cont_pmd_chunks fuel p addr end_ phys prot flags s : cont_pmd_loop fuel p addr end_ phys prot flags s =
  chunks fuel pmd_cont_addr_end id (fun p a n ph s => init_pmd p a n ph (pud_cont_prot a n ph prot flags) flags s) p addr end_ phys s.
Proof. same_loop. Qed.
Lemma init_pud_chunks fuel p addr end_ phys prot flags s : init_pud_loop fuel p addr end_ phys prot flags s =
  chunks fuel pud_addr_end next_entry (fun p a n ph s => map_entry (pud_huge_map p) alloc_init_cont_pmd p a n ph prot flags s) p addr end_ phys s.
Proof. same_loop. Qed.
Lemma pgd_chunks fuel p addr end_ phys prot flags s : pgd_loop fuel p addr end_ phys prot flags s =
  chunks fuel pgd_addr_end next_entry (fun p a n ph s => alloc_init_pud p a n ph prot flags s) p addr end_ phys s.
Proof. same_loop. Qed.

Section functions.
Context (root base : Z).
Abbreviation pre := (pre root base).
Abbreviation post := (post root base).
Abbreviation ext := (ext root base).
Abbreviation entry_fun := (entry_fun root base).
Abbreviation below_fun := (below_fun root base).
Implicit Types (own : owner) (s : pg) (k : nat) (lo hi phys av prot flags : Z) (body : ptr -> pg -> res pg).

(** ** Ways to build them *)
Lemma entry_fun_ext k lo hi phys av body body' : (0 <= lo -> lo < hi -> forall p s, body' p s = body p s) -> entry_fun k lo hi phys av body -> entry_fun k lo hi phys av body'.
Proof. intros H B own s f b P T. rewrite H; [by apply (B own s f b)|pose proof (pre_base _ _ _ _ _ _ _ P); lia|apply (pre_lt _ _ _ _ _ _ _ P)]. Qed.
Lemma below_fun_ext k lo hi phys av body body' : (0 <= lo -> lo < hi -> forall p s, body' p s = body p s) -> below_fun k lo hi phys av body -> below_fun k lo hi phys av body'.
Proof. intros H B own s f b c bc P ? ? ? T. rewrite H; [by apply (B own s f b c bc)|pose proof (pre_base _ _ _ _ _ _ _ P); lia|apply (pre_lt _ _ _ _ _ _ _ P)]. Qed.

Lemma on_table_ext k n own own' lo hi s s' f b : (k <= 3)%nat -> ext k k n own own' lo hi s s' -> on_table k own s f b lo hi -> on_table k own' s' f b lo hi.
Proof. intros Hk E (? & ? & ? & ?). split_and!; [by apply E| |done|done]. rewrite (ext_fix _ _ _ _ _ _ _ _ _ _ _ E) by lia. done. Qed.
Lemma table_ok k lo hi phys av body : hi <= (lo / span (S k) + 1) * span (S k) -> below_fun k lo hi phys av body -> entry_fun (S k) lo hi phys av (fun p s => s ← table_at p s; body p s).
Proof.
  intros Hin B own s f b P T. destruct (table_at_ok _ _ _ _ _ _ _ _ _ P T Hin) as (s1 & own1 & c & -> & E & V & Hc & P1). cbn [mbind res_mbind].
  destruct (one_range _ _ _ _ _ _ _ _ _ P T) as (Hk & _ & ? & ? & _). pose proof (span_pos (S k)). pose proof (Z.div_mod lo (span (S k))). pose proof (Z.mod_pos_bound lo (span (S k))).
  destruct (B own1 s1 f b c _ P1 Hc) as (s2 & own2 & -> & Hpost); [lia|lia|by eapply on_table_ext|].
  exists s2, own2. split; [done|]. by eapply (below_post _ _ k own lo hi s f b P T Hin).
Qed.
(** The entry is empty or has a table. *)
Lemma entry_get k own lo hi s f b : pre k own lo hi s -> on_table k own s f b lo hi ->
  exists e, get (entry k f lo) s = Ok e /\ pmd_sect e = false /\ (e = 0 \/ exists k' c bc, k = S k' /\ paddr c /\ own c = Some (k', bc) /\ bc <= lo < bc + span k /\ e = Z.lor c 3).
Proof.
  intros P T. destruct (one_range _ _ _ _ _ _ _ _ _ P T) as (_ & Hb & ? & ? & Hp & _). pose proof T as (_ & Hs & _). unfold entry.
  eexists. split; [by apply get_ok; [|apply idx_range|]|]. destruct (one_entry _ _ _ _ _ _ _ _ _ P T) as [->|(k' & c & -> & Hc & ->)]; [by auto|].
  assert (paddr c) by by eapply (own_paddr _ _ _ _ (good_wf _ _ _ _ (pre_good _ _ _ _ _ _ _ P))). split; [by apply table_sect|]. right.
  exists k', c, (b + idx (S k') lo * span (S k')). pose proof (idx_in (S k') b lo Hb ltac:(lia)). done.
Qed.
Lemma sect_ok k lo hi phys av body : entry_fun k lo hi phys av body -> entry_fun k lo hi phys av (fun p s => e ← get p s; bug_on (pmd_sect e);; body p s).
Proof. intros B own s f b P T. destruct (entry_get _ _ _ _ _ _ _ P T) as (e & -> & Hs & _). cbn. rewrite Hs. cbn. by apply (B own s f b). Qed.

(** The table of an entry stays. *)
Lemma entry_kept k own own' lo hi s s' f b e phys av : pre k own lo hi s -> on_table k own s f b lo hi -> get (entry k f lo) s = Ok e -> post k k own own' lo hi phys av s s' ->
  exists e', get (entry k f lo) s' = Ok e' /\ negb (e =? 0) && negb (e =? e') = false.
Proof.
  intros P T Hg [E M]. destruct (entry_get _ _ _ _ _ _ _ P T) as (e1 & Hg1 & _ & He). assert (e1 = e) as -> by congruence. destruct (one_range _ _ _ _ _ _ _ _ _ P T) as (? & _ & ? & ? & Hfp & _).
  assert (T1 : on_table k own' s' f b lo hi) by (eapply on_table_ext; [|done|done]; lia). pose proof T1 as (Hf1 & Hs1 & ? & ?).
  unfold entry. rewrite get_ok by (done || apply idx_range). eexists. split; [done|].
  destruct He as [->|(k' & c & bc & -> & Hpc & Hc & Hbc & ->)]; [done|]. pose proof (good_wf _ _ _ _ (ext_good _ _ _ _ _ _ _ _ _ _ _ E)) as W1.
  apply (ext_own _ _ _ _ _ _ _ _ _ _ _ E) in Hc. destruct (wf_own _ _ _ _ W1 _ _ _ Hf1) as (_ & _ & _ & Hb1 & _). destruct (wf_own _ _ _ _ W1 _ _ _ Hc) as (_ & _ & _ & Hb2 & _).
  pose proof (span_S (S k')). pose proof (span_pos (S k')). assert (b <= bc) by (apply (aligned_lt (span (S k'))); [done|by apply span_mod|done|lia]).
  destruct (parent_entry _ _ _ _ W1 _ _ _ _ _ Hc Hf1 ltac:(lia)) as [Ebc Hm]. rewrite (idx_eq (S k') b lo (idx (S k') bc)), Hm by (done || apply idx_range || lia).
  by rewrite Z.eqb_refl, andb_false_r.
Qed.
Lemma use_huge_ok k lo hi phys : (k <= 3)%nat -> in_u 64 lo -> in_u 64 hi -> in_u 64 phys -> use_huge (u64 (Z.lnot (span k - 1))) lo hi phys = true ->
  lo mod span k = 0 /\ hi mod span k = 0 /\ phys mod span k = 0.
Proof.
  intros Hk ? ? ? Eh. unfold use_huge in Eh. apply Z.eqb_eq in Eh. unfold span in *. rewrite ldiff_mask in Eh by (lia || (repeat apply lor_in_u; lia)).
  rewrite <- !Z.land_ones, !Z.land_lor_distr_l, !Z.lor_eq_0_iff in * by lia. tauto.
Qed.
Lemma aligned_page k x : x mod span k = 0 -> x mod 4096 = 0.
Proof. pose proof (span_page k) as [r Hq]%Z.mod_divide; [|lia]. pose proof (span_pos k). intros [q ->]%Z.mod_divide; [|lia]. rewrite Hq, Z.mul_assoc. apply Z_mod_mult. Qed.

(** Sections are used where the chunk is a whole entry, which is empty then. *)
Lemma section_ok k lo hi phys prot own s f b : (k = 1 \/ k = 2)%nat -> page_prot prot -> phys_ok phys lo hi -> hi <= (lo / span k + 1) * span k ->
  use_huge (u64 (Z.lnot (span k - 1))) lo hi phys = true -> pre k own lo hi s -> on_table k own s f b lo hi ->
  exists s', (s ← set_huge (entry k f lo) (u64 (Z.lnot (span k - 1))) phys prot s; new ← get (entry k f lo) s; Ok (s, new)) = Ok (s', Z.lor phys (mk_sect_prot prot)) /\
    get (entry k f lo) s = Ok 0 /\ post k k own own lo hi phys (attr prot) s s'.
Proof.
  intros Hk Hpr (_ & Hp0 & Hp1) Hin Hu P T. destruct (one_range _ _ _ _ _ _ _ _ _ P T) as (_ & _ & ? & ? & Hfp & _). pose proof (pre_base _ _ _ _ _ _ _ P).
  apply use_huge_ok in Hu as (El & Eh & Ep); [|lia..]. pose proof (span_pos k).
  assert (Hh : hi = lo + span k).
  { pose proof (Z.div_mod lo (span k)). apply Z.mod_divide in El as [q ->]; [|lia]. apply Z.mod_divide in Eh as [r ->]; [|lia]. rewrite Z.div_mul in Hin by lia. assert (r = q + 1) by nia. subst. ring. }
  pose proof (one_empty _ _ _ _ _ _ _ _ _ P T El Hh) as Hz. pose proof T as (Hf & Hs & _). destruct (sect_prot_ok prot Hpr) as (Hsp & Hst & Hsa).
  assert (Hpp : paddr phys) by (split; [by eapply aligned_page|lia]). unfold set_huge, entry. pose proof (idx_range k lo).
  rewrite get_ok by done. cbn [mbind res_mbind]. rewrite Hz, pfn_pte_eq by done. change (mmu_hw_pgattr_safe 0 _) with true. cbn [negb].
  assert (Z.ldiff phys (u64 (Z.lnot (span k - 1))) = 0) as -> by (unfold span in *; rewrite ldiff_mask by lia; done). cbn [negb Z.eqb bug_on mbind res_mbind].
  rewrite set_ok by done. cbn [mbind res_mbind]. rewrite get_ok by done. cbn [mbind res_mbind p_mem]. rewrite fn_lookup_insert.
  eexists. split; [done|]. split; [done|]. rewrite <- Hsa. eapply (one_leaf _ _ k own lo hi s f b P T); try done. destruct Hk as [-> | ->]; cbn; by rewrite Hst.
Qed.
Lemma map_entry_ok k lo hi phys prot flags below : (k = 1 \/ k = 2)%nat -> page_prot prot -> phys_ok phys lo hi -> hi <= (lo / span k + 1) * span k ->
  entry_fun k lo hi phys (attr prot) (fun p => below p lo hi phys prot flags) ->
  entry_fun k lo hi phys (attr prot) (fun p => map_entry (huge_map p (u64 (Z.lnot (span k - 1)))) below p lo hi phys prot flags).
Proof.
  intros Hk Hpr Hp Hin B own s f b P T. destruct (entry_get _ _ _ _ _ _ _ P T) as (e & Hg & _). unfold map_entry, huge_map. rewrite Hg. cbn [mbind res_mbind].
  assert (exists s' own', (old ← get (entry k f lo) s; s ← below (entry k f lo) lo hi phys prot flags s; new ← get (entry k f lo) s; bug_on (negb (old =? 0) && negb (old =? new));; Ok s) = Ok s' /\
    post k k own own' lo hi phys (attr prot) s s') as Hbelow.
  { rewrite Hg. cbn [mbind res_mbind]. destruct (B own s f b P T) as (s1 & own1 & -> & Hpost). cbn [mbind res_mbind].
    destruct (entry_kept _ _ _ _ _ _ _ _ _ _ _ _ P T Hg Hpost) as (e' & -> & He). cbn [mbind res_mbind]. rewrite He. by exists s1, own1. }
  destruct (negb (Z.land flags NO_BLOCK_MAPPINGS =? 0)); [exact Hbelow|]. destruct (use_huge _ lo hi phys) eqn:Eh; cbn [negb mbind res_mbind]; [|exact Hbelow].
  destruct (section_ok k lo hi phys prot own s f b Hk Hpr Hp Hin Eh P T) as (s' & Hs & H0 & Hpost). rewrite Hg in H0. injection H0 as ->.
  apply res_bind_Ok in Hs as (s1 & -> & Hs). cbn [mbind res_mbind]. apply res_bind_Ok in Hs as (new & -> & [= -> ->]). by exists s', own.
Qed.

Lemma opened_same k sl i i' body body' q s : sl = fixslot k -> i = i' -> (forall q s, body q s = body' q s) ->
  (e ← get q s; let '(r, s) := set_fixmap_offset sl (pmd_page_paddr e + i * 8) s in s ← body r s; Ok (clear_fixmap sl s)) = opened k i' body' q s.
Proof. intros -> -> Hb. unfold opened. destruct (get q s); [|done]. cbn [mbind res_mbind set_fixmap_offset]. by rewrite Hb. Qed.

(** ** The functions *)
Section range.
Context (prot flags : Z) (Hprot : page_prot prot).

Lemma pte_body_ok lo hi phys p : page_prot p -> hi <= (lo / span 0 + 1) * span 0 -> phys_ok phys lo hi -> entry_fun 0 lo hi phys (attr p) (fun q => pte_body p q lo hi phys).
Proof using.
  intros [Hp Ht] Hin (Hpa & ? & ?) own s f b P T. destruct (one_range _ _ _ _ _ _ _ _ _ P T) as (_ & _ & ? & ? & Hfp & _). pose proof T as (Hf & Hs & _). pose proof (idx_range 0 lo).
  change (span 0) with 4096 in *. pose proof (pre_lo _ _ _ _ _ _ _ P) as Hlo. pose proof (pre_hi _ _ _ _ _ _ _ P) as Hhi.
  assert (hi = lo + 4096) as Hh by (apply Z.mod_divide in Hlo as [q ->]; [|lia]; apply Z.mod_divide in Hhi as [r ->]; [|lia]; rewrite Z.div_mul in Hin by lia; lia).
  pose proof (one_empty _ _ _ _ _ _ _ _ _ P T Hlo Hh) as Hz. assert (paddr phys) by (split; [done|lia]).
  unfold pte_body, entry. rewrite get_ok by done. cbn [mbind res_mbind]. rewrite Hz, pfn_pte_eq, set_ok by done. cbn [mbind res_mbind]. rewrite get_ok by done.
  cbn [mbind res_mbind]. change (mmu_hw_pgattr_safe 0 _) with true. cbn [negb bug_on mbind res_mbind]. eexists _, own. split; [done|].
  apply (one_leaf _ _ 0 own lo hi s f b P T); try done. cbn. by rewrite Ht.
Qed.
Lemma init_pte_ok lo hi phys p : page_prot p -> phys_ok phys lo hi -> below_fun 0 lo hi phys (attr p) (fun q => init_pte q lo hi phys p).
Proof using.
  intros Hp Hph. apply (below_fun_ext _ _ _ _ _ (opened 0 (idx 0 lo) (fun q => chunks 512 (fun a _ => u64 (a + 4096)) next_entry (pte_body p) q lo hi phys))).
  - intros Hlo _ q s. unfold init_pte. apply (opened_same 0 _ (pte_index lo) _ (fun q => init_pte_loop 512 q lo hi phys p)); [done|by apply pte_index_eq|]. intros. apply init_pte_chunks.
  - apply opened_ok. intros own s f b P T. apply (entries_ok root base 0 512 hi _ _ _ own s f b); try done.
    + intros x ? ? [q ->]%Z.mod_divide [r Hr]%Z.mod_divide ?; [|lia..]. change (span 0) with 4096. rewrite Z.div_mul, wrap_id by lia. lia.
    + intros. by apply pte_body_ok.
Qed.
Lemma alloc_init_cont_pte_ok lo hi phys p : page_prot p -> phys_ok phys lo hi -> hi <= (lo / span 1 + 1) * span 1 -> entry_fun 1 lo hi phys (attr p) (fun q => alloc_init_cont_pte q lo hi phys p flags).
Proof using.
  intros Hp Hph Hin. apply sect_ok, table_ok; [done|]. intros own s f b c bc P ? ? ? T. rewrite cont_pte_chunks.
  apply (runs_ok root base 0 512 hi _ (2 ^ 16) _ _ own s f b c bc); try done || lia.
  - intros x ? ? _ _ ?. apply (addr_end_eq 16); done || lia.
  - intros x mid ph Hx. destruct (cont_prot_ok CONT_PTE_MASK x mid ph p flags Hp) as [? <-]. by apply init_pte_ok.
Qed.
Lemma init_pmd_ok lo hi phys p : page_prot p -> phys_ok phys lo hi -> below_fun 1 lo hi phys (attr p) (fun q => init_pmd q lo hi phys p flags).
Proof using.
  intros Hp Hph. apply (below_fun_ext _ _ _ _ _ (opened 1 (idx 1 lo) (fun q => chunks 512 pmd_addr_end next_entry
    (fun q a n ph s => map_entry (pmd_huge_map q) alloc_init_cont_pte q a n ph p flags s) q lo hi phys))).
  - intros Hlo _ q s. unfold init_pmd. apply (opened_same 1 _ (pmd_index lo) _ (fun q => init_pmd_loop 512 q lo hi phys p flags)); [done|by apply pmd_index_eq|]. intros. apply init_pmd_chunks.
  - apply opened_ok. intros own s f b P T. apply (entries_ok root base 1 512 hi _ _ _ own s f b); try done.
    + intros x ? ? _ _ ?. apply (addr_end_eq 21); done || lia.
    + intros x mid ph Hx Hph'. apply (map_entry_ok 1); [by left|done|done|done|by apply alloc_init_cont_pte_ok].
Qed.
Lemma alloc_init_cont_pmd_ok lo hi phys p : page_prot p -> phys_ok phys lo hi -> hi <= (lo / span 2 + 1) * span 2 -> entry_fun 2 lo hi phys (attr p) (fun q => alloc_init_cont_pmd q lo hi phys p flags).
Proof using.
  intros Hp Hph Hin. apply sect_ok, table_ok; [done|]. intros own s f b c bc P ? ? ? T. rewrite cont_pmd_chunks.
  apply (runs_ok root base 1 512 hi _ (2 ^ 25) _ _ own s f b c bc); try done || lia.
  - intros x ? ? _ _ ?. apply (addr_end_eq 25); done || lia.
  - intros x mid ph Hx. destruct (cont_prot_ok CONT_PMD_MASK x mid ph p flags Hp) as [? <-]. by apply init_pmd_ok.
Qed.
Lemma alloc_init_pud_ok lo hi phys : phys_ok phys lo hi -> hi <= (lo / span 3 + 1) * span 3 -> entry_fun 3 lo hi phys (attr prot) (fun q => alloc_init_pud q lo hi phys prot flags).
Proof using Hprot.
  intros Hph Hin. apply table_ok; [done|]. apply (below_fun_ext _ _ _ _ _ (opened 2 (idx 2 lo) (fun q => chunks 512 pud_addr_end next_entry
    (fun q a n ph s => map_entry (pud_huge_map q) alloc_init_cont_pmd q a n ph prot flags s) q lo hi phys))).
  - intros Hlo _ q s. apply (opened_same 2 _ (pud_index lo) _ (fun q => init_pud_loop 512 q lo hi phys prot flags)); [done|by apply pud_index_eq|]. intros. apply init_pud_chunks.
  - apply opened_ok. intros own s f b P T. apply (entries_ok root base 2 512 hi _ _ _ own s f b); try done.
    + intros x ? ? _ _ ?. apply (addr_end_eq 30); done || lia.
    + intros x mid ph Hx Hph'. apply (map_entry_ok 2); [by right|done|done|done|by apply alloc_init_cont_pmd_ok].
Qed.
Lemma pgd_loop_ok lo hi phys : phys_ok phys lo hi -> entry_fun 3 lo hi phys (attr prot) (fun q => pgd_loop 512 q lo hi phys prot flags).
Proof using Hprot.
  intros Hph own s f b P T. rewrite pgd_chunks. apply (entries_ok root base 3 512 hi _ _ _ own s f b); try done.
  - intros x ? ? _ _ ?. apply (addr_end_eq 39); done || lia.
  - intros. by apply alloc_init_pud_ok.
Qed.
End range.
End functions.

(** ** The translation after [create_pgd_mapping] *)
Definition page_down (a : Z) : Z := a / 4096 * 4096.
Definition page_up (a : Z) : Z := (a + 4095) / 4096 * 4096.
(** Well-formed tables below [root] for the addresses from [base], none of which is empty. *)
Record inv (root base : Z) (own : owner) (s : pg) : Prop := Inv {
  inv_good : good root base own s;
  inv_full f k b : own f = Some (k, b) -> (k < 3)%nat -> exists va, b <= va < b + span (S k) /\ base <= va < base + 2 ^ 48 /\ view root s va <> None;
  inv_fix : p_fix s FIX_PGD = Some root
}.

Lemma page_down_le a : page_down a <= a < page_down a + 4096 /\ page_down a mod 4096 = 0.
Proof. unfold page_down. pose proof (Z.div_mod a 4096). pose proof (Z.mod_pos_bound a 4096). split; [lia|apply Z_mod_mult]. Qed.
Lemma page_up_le a : a <= page_up a < a + 4096 /\ page_up a mod 4096 = 0.
Proof. unfold page_up. pose proof (Z.div_mod (a + 4095) 4096). pose proof (Z.mod_pos_bound (a + 4095) 4096). split; [lia|apply Z_mod_mult]. Qed.
Lemma idx_page_down k a : idx k (page_down a) = idx k a.
Proof.
  unfold idx, page_down. f_equal. pose proof (span_page k) as [r Hr]%Z.mod_divide; [|lia]. pose proof (span_pos k). rewrite Hr.
  rewrite Z.div_mul_cancel_r by lia. rewrite Z.div_div by lia. f_equal. ring.
Qed.
(** The range that the function computes. *)
Lemma land_page x : in_u 64 x -> Z.land x PAGE_MASK = page_down x.
Proof. apply (land_mask 12). lia. Qed.
Lemma ldiff_page x : in_u 64 x -> Z.ldiff x PAGE_MASK = x mod 4096.
Proof. apply (ldiff_mask 12). lia. Qed.
Lemma range_eq virt size : 0 <= virt -> 0 <= size -> page_up (virt + size) < 2 ^ 64 ->
  u64 (page_down virt + PAGE_ALIGN (u64 (size + virt mod 4096))) = page_up (virt + size).
Proof.
  intros ? ? Hu. destruct (page_up_le (virt + size)) as [? Hm]. assert (page_up (virt + size) <= 2 ^ 64 - 4096) by (apply (aligned_lt 4096); [lia|done|done|lia]).
  pose proof (Z.div_mod virt 4096). pose proof (Z.mod_pos_bound virt 4096).
  unfold PAGE_ALIGN. change (PAGE_SIZE - 1) with 4095. rewrite (wrap_id 64 (size + _)) by lia. rewrite (wrap_id 64 (size + _ + _)) by lia. rewrite land_page by lia.
  assert (page_down virt + page_down (size + virt mod 4096 + 4095) = page_up (virt + size)) as ->; [|apply wrap_id; lia].
  unfold page_up, page_down. replace (virt + size + 4095) with (size + virt mod 4096 + 4095 + (virt / 4096) * 4096) by lia. rewrite Z.div_add by lia. ring.
Qed.
Lemma offsets_eq phys virt : in_u 64 phys -> in_u 64 virt -> phys mod 4096 = virt mod 4096 -> Z.ldiff (Z.lxor phys virt) PAGE_MASK = 0.
Proof.
  intros Hp Hv E. rewrite ldiff_page by (apply lxor_in_u; [lia|done..]). change 4096 with (2 ^ 12) in *. rewrite <- !Z.land_ones in * by lia.
  apply Z.bits_inj'. intros i Hi. assert (Eb : Z.testbit (Z.land phys (Z.ones 12)) i = Z.testbit (Z.land virt (Z.ones 12)) i) by by rewrite E.
  rewrite !Z.land_spec, ?Z.lxor_spec, ?Z.bits_0 in *. by destruct (Z.testbit phys i), (Z.testbit virt i), (Z.testbit (Z.ones 12) i).
Qed.
(** Ranges with the same offset in the page have the same length in pages. *)
Lemma page_len phys virt size : phys mod 4096 = virt mod 4096 -> page_up (phys + size) - page_down phys = page_up (virt + size) - page_down virt.
Proof.
  intros E. unfold page_up, page_down. pose proof (Z.div_mod virt 4096). pose proof (Z.div_mod phys 4096).
  replace (virt + size + 4095) with (size + virt mod 4096 + 4095 + (virt / 4096) * 4096) by lia. replace (phys + size + 4095) with (size + virt mod 4096 + 4095 + (phys / 4096) * 4096) by lia.
  rewrite !Z.div_add by lia. ring.
Qed.
Lemma notab_top root base own s lo hi : inv root base own s -> (forall va, lo <= va < hi -> view root s va = None) -> notab 3 own lo hi.
Proof. intros I Hn f k b Hf Hk [? ?]. destruct (inv_full _ _ _ _ I f k b Hf Hk) as (va & ? & _ & Hv). apply Hv, Hn. lia. Qed.
Lemma inv_post root base own own' lo hi phys av s s' : inv root base own s -> base <= lo -> lo < hi -> hi <= base + 2 ^ 48 -> post root base 3 3 own own' lo hi phys av s s' -> inv root base own' s'.
Proof.
  intros I ? ? ? [E M]. split; [apply E| |].
  - intros f k b Hf Hk. destruct (ext_new _ _ _ _ _ _ _ _ _ _ _ E f k b Hf) as [Ho|(_ & ? & ?)].
    + destruct (inv_full _ _ _ _ I f k b Ho Hk) as (va & ? & Hd & Hv). exists va. split; [done|]. split; [done|]. rewrite M by done. by case_bool_decide.
    + exists (Z.max lo b). pose proof (span_pos (S k)). split; [lia|]. split; [lia|]. rewrite M by lia. by rewrite bool_decide_true by lia.
  - change FIX_PGD with (fixslot 3). rewrite (ext_fix _ _ _ _ _ _ _ _ _ _ _ E) by lia. apply I.
Qed.

Section create.
Context (root base : Z) (own : owner) (s : pg) (I : inv root base own s).
Context (phys virt size prot flags : Z).
Let lo := page_down virt.
Let hi := page_up (virt + size).
Context (Hprot : page_prot prot) (Hsize : 0 < size) (Hvirt : base <= virt) (Hend : hi <= base + 2 ^ 48) (Hwrap : hi < 2 ^ 64).
Context (Hoff : phys mod 4096 = virt mod 4096) (Hphys : 0 <= phys) (Hpend : page_up (phys + size) <= 2 ^ 48).
Context (Hnone : forall va, lo <= va < hi -> view root s va = None) (Hneed : need 3 lo hi <= Z.of_nat (length (p_free s))).

Lemma base_range : 0 <= base /\ base mod 2 ^ 48 = 0.
Proof using I. destruct (wf_own _ _ _ _ (good_wf _ _ _ _ (inv_good _ _ _ _ I)) _ _ _ (wf_root _ _ _ _ (good_wf _ _ _ _ (inv_good _ _ _ _ I)))) as (_ & _ & _ & Hm & ? & _). by change (span 4) with (2 ^ 48) in Hm. Qed.
Lemma lo_base : base <= lo < hi.
Proof using I Hsize Hvirt.
  clear Hend Hwrap Hpend Hnone Hneed. destruct base_range as [? Hb]. destruct (page_down_le virt) as [? Hl], (page_up_le (virt + size)) as [? _]. subst lo hi. split; [|lia].
  apply (aligned_lt 4096); [lia| |done|lia]. apply Z.mod_divide in Hb as [q ->]; [|lia]. change (2 ^ 48) with (2 ^ 36 * 4096). rewrite Z.mul_assoc. apply Z_mod_mult.
Qed.
Lemma create_post : exists s' own', __create_pgd_mapping (FIX_PGD, root) phys virt size prot flags s = Ok s' /\
  post root base 3 3 own own' lo hi (page_down phys) (attr prot) s s'.
Proof using I Hprot Hsize Hvirt Hend Hwrap Hoff Hphys Hpend Hnone Hneed.
  pose proof base_range as [? _]. pose proof lo_base. destruct (page_up_le (virt + size)) as [Hu Hhi]. destruct (page_up_le (phys + size)) as [? Hph], (page_down_le virt) as [Hd Hlo], (page_down_le phys) as [? Hpl].
  fold hi in Hu, Hhi. fold lo in Hd, Hlo. unfold __create_pgd_mapping. rewrite offsets_eq by (done || lia). cbn [negb Z.eqb bug_on mbind res_mbind].
  rewrite !land_page, ldiff_page, range_eq by lia. cbn [fst snd]. fold lo hi.
  assert (phys_ok (page_down phys) lo hi).
  { split_and!; [done|unfold page_down; pose proof (Z.div_pos phys 4096); lia|]. pose proof (page_len phys virt size Hoff) as Hl. fold lo hi in Hl. lia. }
  pose proof (inv_good _ _ _ _ I) as G. assert (P : pre root base 3 own lo hi s) by (split; try done || lia; by eapply notab_top).
  assert (T : on_table 3 own s root base lo hi) by (split_and!; [apply G|apply I|lia|by change (span 4) with (2 ^ 48)]).
  destruct (pgd_loop_ok root base prot flags Hprot lo hi (page_down phys) ltac:(done) own s root base P T) as (s' & own' & Hr & Hpost).
  exists s', own'. split; [|done].
  assert ((FIX_PGD, root + pgd_index virt * 8) = entry 3 root lo) as -> by (unfold entry, lo; rewrite pgd_index_eq, idx_page_down, Z.mul_comm by lia; reflexivity).
  exact Hr.
Qed.
End create.

(** ** Requests and address spaces *)
Definition space : Type := Z -> option (Z * Z).
Record req : Type := Req { r_phys : Z; r_virt : Z; r_size : Z; r_prot : Z; r_pages : bool }.
Definition r_lo (r : req) : Z := page_down (r_virt r).
Definition r_hi (r : req) : Z := page_up (r_virt r + r_size r).
Definition map_req (A : space) (r : req) : space := fun va =>
  if bool_decide (r_lo r <= va < r_hi r) then Some (page_down (r_phys r) + (va - r_lo r), attr (r_prot r)) else A va.
Definition create (root : Z) (r : req) (s : pg) : res pg := create_pgd_mapping (FIX_PGD, root) (r_phys r) (r_virt r) (r_size r) (r_prot r) (r_pages r) s.
Fixpoint create_all (root : Z) (rs : list req) (s : pg) : res pg :=
  match rs with [] => Ok s | r :: rs => s ← create root r s; create_all root rs s end.
(** A request that makes sense: attributes of a page, the same offset in the page on both
    sides, inside of both address spaces. *)
Record req_ok (base : Z) (r : req) : Prop := ReqOk {
  ro_prot : page_prot (r_prot r);
  ro_size : 0 < r_size r;
  ro_virt : base <= r_virt r;
  ro_end : r_hi r <= base + 2 ^ 48;
  ro_wrap : r_hi r < 2 ^ 64;
  ro_off : r_phys r mod 4096 = r_virt r mod 4096;
  ro_phys : 0 <= r_phys r;
  ro_pend : page_up (r_phys r + r_size r) <= 2 ^ 48
}.
Definition req_need (r : req) : Z := need 3 (r_lo r) (r_hi r).
Definition disjoint (r r' : req) : Prop := r_hi r <= r_lo r' \/ r_hi r' <= r_lo r.

Lemma create_ok root base own s r : inv root base own s -> req_ok base r -> (forall va, r_lo r <= va < r_hi r -> view root s va = None) -> req_need r <= Z.of_nat (length (p_free s)) ->
  exists s' own', create root r s = Ok s' /\ inv root base own' s' /\ post root base 3 3 own own' (r_lo r) (r_hi r) (page_down (r_phys r)) (attr (r_prot r)) s s'.
Proof.
  intros I R Hn Hf. destruct R. destruct (create_post root base own s I (r_phys r) (r_virt r) (r_size r) (r_prot r) (if r_pages r then Z.lor NO_BLOCK_MAPPINGS NO_CONT_MAPPINGS else 0)) as (s' & own' & Hr & Hp); try done.
  assert (base <= r_lo r < r_hi r) by exact (lo_base root base own s I (r_virt r) (r_size r) ro_size0 ro_virt0). exists s', own'. split; [exact Hr|]. split; [|done]. by eapply (inv_post root base own own' (r_lo r) (r_hi r)); [|lia|lia| |].
Qed.

(** C9: [create_pgd_mapping] on a range that is not mapped, with enough page frames for the
    tables, returns, and the hardware's translation is as before outside of the range and
    maps the range, rounded to pages, to the physical range with the given attributes,
    whatever sections and contiguous runs were chosen; the tables stay well formed, only
    page tables are written, and the page frames come from the allocator in order. *)
Theorem create_pgd_mapping_maps root base own s r : inv root base own s -> req_ok base r ->
  (forall va, r_lo r <= va < r_hi r -> view root s va = None) -> req_need r <= Z.of_nat (length (p_free s)) ->
  exists s' own', create_pgd_mapping (FIX_PGD, root) (r_phys r) (r_virt r) (r_size r) (r_prot r) (r_pages r) s = Ok s' /\ inv root base own' s' /\
    (forall va, base <= va < base + 2 ^ 48 -> view root s' va = map_req (view root s) r va) /\
    (forall a, own' (page_of a) = None -> p_mem s' a = p_mem s a) /\
    exists used, p_free s = used ++ p_free s' /\ Z.of_nat (length used) <= req_need r.
Proof.
  intros I R Hn Hf. destruct (create_ok root base own s r I R Hn Hf) as (s' & own' & Hr & I' & [E M]). exists s', own'.
  split_and!; [done|done|exact M|apply (ext_mem _ _ _ _ _ _ _ _ _ _ _ E)|apply (ext_free _ _ _ _ _ _ _ _ _ _ _ E)].
Qed.

(** Tables that map nothing. *)
Definition no_tables (root base : Z) : owner := <[root := Some (3%nat, base)]> (fun _ => None).
Record blank (root base : Z) (s : pg) : Prop := Blank {
  bl_root : paddr root;
  bl_base : base mod 2 ^ 48 = 0 /\ 0 <= base /\ base + 2 ^ 48 <= 2 ^ 64;
  bl_zero i : 0 <= i < 512 -> p_mem s (root + 8 * i) = 0;
  bl_free : Forall (fun c => paddr c /\ c <> 0 /\ c <> root) (p_free s);
  bl_nodup : List.NoDup (p_free s);
  bl_fix : p_fix s FIX_PGD = Some root
}.
Lemma no_tables_inv root base f x : no_tables root base f = Some x -> f = root /\ x = (3%nat, base).
Proof. unfold no_tables. destruct (decide (f = root)) as [->|]; [rewrite fn_lookup_insert|rewrite fn_lookup_insert_ne by done]; [by intros [= <-]|done]. Qed.
Lemma blank_inv root base s : blank root base s -> inv root base (no_tables root base) s.
Proof.
  intros [Hr Hb Hz Hf Hd Hx]. split; [split; [split|..]|..].
  - apply fn_lookup_insert.
  - intros f k b [-> [= -> ->]]%no_tables_inv. change (span 4) with (2 ^ 48). destruct Hr. split_and!; lia.
  - intros f f' x [-> _]%no_tables_inv [-> _]%no_tables_inv. done.
  - intros f k b i [-> [= -> ->]]%no_tables_inv Hi. left. by apply Hz.
  - intros c k b [-> [= -> ->]]%no_tables_inv. lia.
  - intros f b [-> _]%no_tables_inv. done.
  - eapply Forall_impl; [|done]. intros c (? & ? & ?). split_and!; [done|done|]. unfold no_tables. by rewrite fn_lookup_insert_ne.
  - done.
  - intros f k b [-> [= -> ->]]%no_tables_inv. lia.
  - done.
Qed.
Lemma blank_view root base s va : blank root base s -> view root s va = None.
Proof. intros B. apply walk_zero. apply (bl_zero _ _ _ B), idx_range. Qed.

Lemma map_req_at A B rs va : A va = B va -> foldl map_req A rs va = foldl map_req B rs va.
Proof. revert A B. induction rs as [|r rs IH]; intros A B E; [done|]. apply IH. unfold map_req. by case_bool_decide. Qed.
Lemma create_all_ok root base rs : Forall (req_ok base) rs -> ForallOrdPairs disjoint rs -> forall own s, inv root base own s ->
  (forall r va, List.In r rs -> r_lo r <= va < r_hi r -> view root s va = None) -> foldr (fun r n => req_need r + n) 0 rs <= Z.of_nat (length (p_free s)) ->
  exists s' own', create_all root rs s = Ok s' /\ inv root base own' s' /\ forall va, base <= va < base + 2 ^ 48 -> view root s' va = foldl map_req (view root s) rs va.
Proof.
  induction rs as [|r rs IH]; intros Hr Hd own s I Hn Hf; [by exists s, own|]. apply Forall_cons_1 in Hr as [R Hr]. inversion Hd as [|? ? Hd1 Hd2]; subst. cbn [foldr] in Hf.
  assert (0 <= foldr (fun r n => req_need r + n) 0 rs).
  { clear -Hr I. induction Hr as [|q rs Hq _ IH]; [done|]. cbn [foldr]. unfold req_need at 1. pose proof (need_pos 3 (r_lo q) (r_hi q)). destruct Hq. pose proof (lo_base root base own s I (r_virt q) (r_size q) ro_size0 ro_virt0). unfold r_lo, r_hi in *. lia. }
  destruct (create_ok root base own s r I R) as (s1 & own1 & Hc & I1 & [E M]); [intros va; apply Hn; by left|lia|].
  destruct (IH Hr Hd2 own1 s1 I1) as (s2 & own2 & Hc2 & I2 & V).
  - intros q va Hq Hv. assert (R' : req_ok base q) by (by eapply List.Forall_forall in Hr). pose proof (ro_end _ _ R').
    pose proof (lo_base root base own s I (r_virt q) (r_size q) (ro_size _ _ R') (ro_virt _ _ R')) as [Hb _]. fold (r_lo q) in Hb. rewrite M by lia.
    eapply List.Forall_forall in Hd1 as [?|?]; [| |exact Hq]; (rewrite bool_decide_false by lia; apply (Hn q); [by right|done]).
  - destruct (ext_free _ _ _ _ _ _ _ _ _ _ _ E) as (u & Hu & ?). rewrite Hu in Hf. fold (req_need r) in *. len.
  - exists s2, own2. cbn [create_all foldl]. rewrite Hc. cbn [mbind res_mbind]. split; [done|]. split; [done|]. intros va Hv. rewrite V by done. apply map_req_at. by rewrite M.
Qed.

(** C10: from blank tables, any sequence of requests for disjoint ranges succeeds when there
    are page frames for the tables it may need, and the translation is the one that the
    requests describe: it maps what was asked for and nothing else. *)
Theorem create_all_refines root base s rs : blank root base s -> Forall (req_ok base) rs -> ForallOrdPairs disjoint rs ->
  foldr (fun r n => req_need r + n) 0 rs <= Z.of_nat (length (p_free s)) ->
  exists s', create_all root rs s = Ok s' /\ forall va, base <= va < base + 2 ^ 48 -> view root s' va = foldl map_req (fun _ => None) rs va.
Proof.
  intros B Hr Hd Hf. destruct (create_all_ok root base rs Hr Hd (no_tables root base) s (blank_inv _ _ _ B)) as (s' & own' & Hc & _ & V); [|done|].
  - intros. by eapply blank_view.
  - exists s'. split; [done|]. intros va Hv. rewrite V by done. apply map_req_at. by eapply blank_view.
Qed.

(** ** A section over a table *)
Lemma set_testbit_nonzero x i : Z.testbit x i = true -> x <> 0.
Proof. intros H ->. by rewrite Z.bits_0 in H. Qed.
Lemma unsafe_table c phys prot : paddr c -> paddr phys -> page_prot prot -> mmu_hw_pgattr_safe (Z.lor c 3) (Z.lor phys (mk_sect_prot prot)) = false.
Proof.
  intros Hc Hp Hpr. unfold mmu_hw_pgattr_safe. destruct (sect_prot_ok prot Hpr) as (_ & Ht & _).
  assert (Hb : Z.testbit (Z.lor phys (mk_sect_prot prot)) 0 = true /\ Z.testbit (Z.lor phys (mk_sect_prot prot)) 1 = false).
  { rewrite !Z.lor_spec, !(paddr_bit phys) by (done || lia). assert (H1 : Z.testbit (Z.land (mk_sect_prot prot) TYPE_MASK) 0 = true) by by rewrite Ht.
    assert (H2 : Z.testbit (Z.land (mk_sect_prot prot) TYPE_MASK) 1 = false) by by rewrite Ht.
    rewrite Z.land_spec in H1, H2. change (Z.testbit TYPE_MASK 0) with true in H1. change (Z.testbit TYPE_MASK 1) with true in H2. rewrite andb_true_r in H1, H2. by rewrite H1, H2. }
  destruct Hb as [Hb0 Hb1]. rewrite (proj2 (Z.eqb_neq _ _) (table_nonzero c Hc)), (proj2 (Z.eqb_neq _ _) (set_testbit_nonzero _ _ Hb0)). cbn [orb].
  do 2 (case_match; [done|]). apply Z.eqb_neq, (set_testbit_nonzero _ 1). rewrite Z.ldiff_spec, Z.lxor_spec, Hb1, Z.lor_spec. by rewrite !orb_true_r.
Qed.
Lemma safe_same c : paddr c -> mmu_hw_pgattr_safe (Z.lor c 3) (Z.lor c 3) = true.
Proof.
  intros Hc. unfold mmu_hw_pgattr_safe. rewrite (proj2 (Z.eqb_neq _ _) (table_nonzero c Hc)). cbn [orb]. rewrite Z.lor_diag, Z.lxor_nilpotent, Z.ldiff_diag.
  assert (Z.land (Z.lor c 3) PTE_CONT = 0) as ->; [|done]. rewrite Z.land_lor_distr_l. apply Z.lor_eq_0_iff. split; [|done].
  apply Z.bits_inj'. intros i Hi. rewrite Z.land_spec, Z.bits_0. change PTE_CONT with (2 ^ 52). destruct (decide (i = 52)) as [->|]; [by rewrite paddr_bit by (done || lia)|].
  by rewrite Z.pow2_bits_false, andb_false_r by lia.
Qed.
(** Where a chunk qualifies for a section but the entry has a table, [pmd_huge_map] and
    [pud_huge_map] change nothing and report success: [pmd_set_huge] refuses, its result is
    not looked at, and the request for the chunk is lost. *)
Theorem section_over_table_lost p k lo hi phys prot flags c below s : paddr phys -> page_prot prot -> paddr c ->
  get p s = Ok (Z.lor c 3) -> Z.land flags NO_BLOCK_MAPPINGS = 0 -> use_huge (u64 (Z.lnot (span k - 1))) lo hi phys = true ->
  map_entry (huge_map p (u64 (Z.lnot (span k - 1)))) below p lo hi phys prot flags s = Ok s.
Proof.
  intros Hp Hpr Hc Hg Hf Hu. unfold map_entry, huge_map, set_huge. rewrite Hg. cbn [mbind res_mbind]. rewrite Hf, Hu. cbn [negb Z.eqb].
  rewrite pfn_pte_eq, unsafe_table by done. cbn [negb mbind res_mbind]. rewrite Hg. cbn [mbind res_mbind]. by rewrite safe_same.
Qed.

(** ** Memory around the image *)
Definition region_reqs (va : Z -> Z) (ks ke start end_ prot : Z) : list req :=
  let r a e := Req a (va a) (u64 (e - a)) prot false in
  if (end_ <? ks) || (ke <=? start) then [r start end_]
  else (if start <? ks then [r start ks] else []) ++ (if ke <? end_ then [r ke end_] else []).
Lemma region_eq va ks ke root start end_ prot s : __map_mem_region va ks ke (FIX_PGD, root) start end_ prot 0 s = create_all root (region_reqs va ks ke start end_ prot) s.
Proof.
  assert (Hr : forall m : res pg, (s ← m; Ok s) = m) by by intros []. unfold __map_mem_region, region_reqs.
  destruct (_ || _); [|destruct (start <? ks), (ke <? end_)]; cbn [create_all app]; rewrite ?Hr; try reflexivity.
  unfold create, create_pgd_mapping. cbn [r_phys r_virt r_size r_prot r_pages]. destruct (__create_pgd_mapping _ start _ _ _ _ _); [|done]. cbn [mbind res_mbind]. by rewrite Hr.
Qed.
Section region.
Context (root base : Z) (own : owner) (s : pg) (off ks ke start end_ prot : Z).
Let rs := region_reqs (fun x => x + off) ks ke start end_ prot.
Let outside va := start <= va - off < end_ /\ ~ (ks <= va - off < ke).
Context (Hprot : page_prot prot) (Hal : Forall (fun x => x mod 4096 = 0) [off; ks; ke; start; end_]) (Hk : 0 <= ks < ke) (Hse : 0 <= start < end_).
Context (Hend : end_ <= 2 ^ 48) (Hb0 : base <= start + off) (Hb1 : end_ + off <= base + 2 ^ 48) (Hb2 : end_ + off < 2 ^ 64).

Lemma page_exact a : a mod 4096 = 0 -> page_up a = a /\ page_down a = a.
Proof using. intros H. destruct (page_up_le a), (page_down_le a). split; apply Z.le_antisymm; apply (aligned_lt 4096); done || lia. Qed.
Lemma region_part a e : start <= a -> a < e -> e <= end_ -> a mod 4096 = 0 -> e mod 4096 = 0 -> let r := Req a (a + off) (u64 (e - a)) prot false in
  req_ok base r /\ r_lo r = a + off /\ r_hi r = e + off /\ page_down (r_phys r) = a.
Proof using Hprot Hal Hse Hend Hb0 Hb1 Hb2.
  intros ? ? ? Ha He r. assert (Ho : off mod 4096 = 0) by by inversion Hal.
  assert (Hm : forall x, x mod 4096 = 0 -> (x + off) mod 4096 = 0) by (intros x Hx; by rewrite Z.add_mod, Hx, Ho by lia).
  unfold r, r_lo, r_hi. cbn [r_virt r_size r_phys]. rewrite wrap_id by lia. replace (a + off + (e - a)) with (e + off) by lia.
  destruct (page_exact (a + off) (Hm _ Ha)) as [_ E1], (page_exact (e + off) (Hm _ He)) as [E2 _], (page_exact a Ha) as [_ E3], (page_exact e He) as [E4 _].
  split_and!; [|done..]. split; unfold r_hi; cbn [r_prot r_virt r_size r_phys]; rewrite ?wrap_id by lia; try done || lia.
  - replace (a + off + (e - a)) with (e + off) by lia. lia.
  - replace (a + off + (e - a)) with (e + off) by lia. lia.
  - by rewrite Ha, Hm.
  - replace (a + (e - a)) with e by lia. lia.
Qed.
Lemma region_cases : exists l, rs = map (fun '(a, e) => Req a (a + off) (u64 (e - a)) prot false) l /\
  (l = [] /\ (forall va, ~ outside va) \/ (exists a e, l = [(a, e)] /\ start <= a /\ a < e /\ e <= end_ /\ a mod 4096 = 0 /\ e mod 4096 = 0 /\ forall va, outside va <-> a <= va - off < e) \/
   l = [(start, ks); (ke, end_)] /\ start < ks /\ ke < end_).
Proof using Hal Hk Hse.
  repeat match goal with H : Forall _ (_ :: _) |- _ => apply Forall_cons_1 in H as [? H] end. unfold rs, region_reqs, outside.
  destruct (end_ <? ks) eqn:E1, (ke <=? start) eqn:E2; cbn [orb]; [..|destruct (start <? ks) eqn:E3, (ke <? end_) eqn:E4];
    [exists [(start, end_)]|exists [(start, end_)]|exists [(start, end_)]|exists [(start, ks); (ke, end_)]|exists [(start, ks)]|exists [(ke, end_)]|exists []]; (split; [done|]);
    try (right; left; eexists _, _; split_and!; try done || lia; intros va; lia); [right; right; split_and!; done || lia|left; split; [done|]; intros va; lia].
Qed.
Lemma region_reqs_ok : Forall (req_ok base) rs /\ ForallOrdPairs disjoint rs /\ (forall r va, List.In r rs -> r_lo r <= va < r_hi r -> outside va) /\
  forall A va, foldl map_req A rs va = if bool_decide (outside va) then Some (va - off, attr prot) else A va.
Proof using Hprot Hal Hk Hse Hend Hb0 Hb1 Hb2.
  destruct region_cases as (l & E & Hl). rewrite E. clear E. destruct Hl as [[-> Ho]|[(a & e & -> & ? & ? & ? & ? & ? & Ho)|(-> & ? & ?)]]; cbn [map].
  - split_and!; [constructor|constructor|intros _ va []|]. intros A va. by rewrite bool_decide_false by apply Ho.
  - destruct (region_part a e) as (P & L & H' & D); try done. split_and!; [constructor; [exact P|constructor]|by repeat constructor| |].
    + intros r va [<-|[]]. rewrite L, H'. intros. apply Ho. lia.
    + intros A va. cbn [foldl]. unfold map_req. rewrite L, H', D. cbn [r_prot]. rewrite (bool_decide_ext (outside va) _ (Ho va)). repeat case_bool_decide; try lia; [do 2 f_equal; lia|done].
  - assert (Hks : ks mod 4096 = 0 /\ ke mod 4096 = 0 /\ start mod 4096 = 0 /\ end_ mod 4096 = 0) by (repeat match goal with H : Forall _ (_ :: _) |- _ => apply Forall_cons_1 in H as [? H] end; done).
    destruct Hks as (? & ? & ? & ?).
    destruct (region_part start ks) as (P & L & H' & D); try done || lia. destruct (region_part ke end_) as (P2 & L2 & H2' & D2); try done || lia. split_and!.
    + constructor; [exact P|constructor; [exact P2|constructor]].
    + constructor; [constructor; [left; rewrite H', L2; lia|constructor]|by repeat constructor].
    + intros r va [<-|[<-|[]]]; rewrite ?L, ?H', ?L2, ?H2'; unfold outside; lia.
    + intros A va. cbn [foldl]. unfold map_req. rewrite L, H', D, L2, H2', D2. cbn [r_prot]. unfold outside. repeat case_bool_decide; try lia; [do 2 f_equal; lia..|done].
Qed.
End region.

(** ** All of memory *)
Lemma page_kernel_prot : page_prot PAGE_KERNEL.
Proof. by vm_compute. Qed.
Definition mem_reqs (va : Z -> Z) (ks ke : Z) (l : list mem_region) : list req := concat (map (fun r => region_reqs va ks ke (rbase r) (re r) PAGE_KERNEL) l).
Lemma create_all_app root l l' s : create_all root (l ++ l') s = (s ← create_all root l s; create_all root l' s).
Proof. revert s. induction l as [|r l IH]; intros s; [done|]. cbn [create_all app]. destruct (create root r s) as [s1|]; [|done]. cbn [mbind res_mbind]. apply IH. Qed.
Lemma walk_eq va ks ke root k lo l s : 0 <= lo -> 0 <= k -> ord k lo l -> walk_regions (__map_mem va ks ke (FIX_PGD, root)) l (Ok s) = create_all root (mem_reqs va ks ke l) s.
Proof.
  intros Hlo Hk. revert lo Hlo s. induction l as [|r l IH]; intros lo Hlo s Ho; [done|]. destruct Ho as (? & ? & Hr & Ho). cbn [walk_regions __map_mem].
  unfold re in *. rewrite wrap_id by lia. rewrite (proj2 (Z.leb_gt (rbase r + rsize r) (rbase r))) by lia. rewrite region_eq. unfold mem_reqs. cbn [map concat]. rewrite create_all_app.
  destruct (create_all root (region_reqs _ _ _ _ _ _) s) as [s1|]; [|done]. cbn [mbind res_mbind]. apply (IH (rbase r + rsize r + k) ltac:(lia) s1 Ho).
Qed.
Lemma ord_pairs_app {A} (R : A -> A -> Prop) l l' : ForallOrdPairs R l -> ForallOrdPairs R l' -> (forall x y, List.In x l -> List.In y l' -> R x y) -> ForallOrdPairs R (l ++ l').
Proof.
  induction 1 as [|x l Hx Hl IH]; intros Hl' Hr; [done|]. cbn. constructor.
  - apply List.Forall_app. split; [done|]. apply List.Forall_forall. intros y Hy. apply Hr; [by left|done].
  - apply IH; [done|]. intros y z Hy Hz. apply Hr; [by right|done].
Qed.

(** A region that can be mapped at its linear address. *)
Definition region_ok (base off : Z) (r : mem_region) : Prop :=
  rbase r mod 4096 = 0 /\ rsize r mod 4096 = 0 /\ re r <= 2 ^ 48 /\ base <= rbase r + off /\ re r + off <= base + 2 ^ 48 /\ re r + off < 2 ^ 64.
Section memory.
Context (base off ks ke : Z) (Hal : off mod 4096 = 0 /\ ks mod 4096 = 0 /\ ke mod 4096 = 0) (Hk : 0 <= ks < ke) (Hp : page_prot PAGE_KERNEL).
Definition to_map (l : list mem_region) (va : Z) : Prop := covers l (va - off) /\ ~ (ks <= va - off < ke).
Lemma to_map_cons r l va : to_map (r :: l) va <-> rbase r <= va - off < re r /\ ~ (ks <= va - off < ke) \/ to_map l va.
Proof using. clear Hal Hk. unfold to_map, covers. rewrite List.Exists_cons. tauto. Qed.

Lemma mem_reqs_ok k lo l : 0 <= lo -> 0 <= k -> ord k lo l -> Forall (region_ok base off) l -> let rs := mem_reqs (fun x => x + off) ks ke l in
  Forall (req_ok base) rs /\ ForallOrdPairs disjoint rs /\ (forall r, List.In r rs -> lo + off <= r_lo r) /\ (forall r va, List.In r rs -> r_lo r <= va < r_hi r -> to_map l va) /\
  forall A va, (to_map l va -> foldl map_req A rs va = Some (va - off, attr PAGE_KERNEL)) /\ (~ to_map l va -> foldl map_req A rs va = A va).
Proof using Hal Hk Hp.
  intros Hlo Hk0. revert lo Hlo. induction l as [|r l IH]; intros lo Hlo Ho Hr rs.
  { split_and!; [constructor|constructor|intros _ []|intros _ va []|]. intros A va. split; [intros [[]%List.Exists_nil _]|done]. }
  destruct Ho as (? & ? & ? & Ho). apply Forall_cons_1 in Hr as [(Ha1 & Ha2 & ? & ? & ? & ?) Hr]. unfold re in *.
  destruct (IH (rbase r + rsize r + k) ltac:(lia) Ho Hr) as (IH1 & IH2 & IH3 & IH4 & IH5).
  destruct (region_reqs_ok base off ks ke (rbase r) (re r) PAGE_KERNEL) as (R & D & Hin & V); unfold re in *; try done || lia.
  { destruct Hal as (? & ? & ?). repeat constructor; try done. by rewrite Z.add_mod, Ha1, Ha2 by lia. }
  assert (Hne : forall q, List.In q (region_reqs (fun x => x + off) ks ke (rbase r) (rbase r + rsize r) PAGE_KERNEL) -> r_lo q < r_hi q).
  { intros q Hq. eapply List.Forall_forall in R; [|exact Hq]. destruct R. pose proof (page_down_le (r_virt q)). pose proof (page_up_le (r_virt q + r_size q)). unfold r_lo, r_hi. lia. }
  assert (Hb : forall q, List.In q (region_reqs (fun x => x + off) ks ke (rbase r) (rbase r + rsize r) PAGE_KERNEL) -> rbase r + off <= r_lo q /\ r_hi q <= rbase r + rsize r + off).
  { intros q Hq. pose proof (Hne q Hq). destruct (Hin q (r_lo q) Hq ltac:(lia)), (Hin q (r_hi q - 1) Hq ltac:(lia)). lia. }
  unfold rs, mem_reqs. cbn [map concat]. fold (mem_reqs (fun x => x + off) ks ke l). split_and!.
  - by apply List.Forall_app.
  - apply ord_pairs_app; [done|done|]. intros x y Hx Hy. left. destruct (Hb x Hx). specialize (IH3 y Hy). lia.
  - intros q [Hq|Hq]%List.in_app_iff; [destruct (Hb q Hq); lia|specialize (IH3 q Hq); lia].
  - intros q va [Hq|Hq]%List.in_app_iff Hv; apply to_map_cons; [left; by apply (Hin q)|right; by apply (IH4 q)].
  - intros A va. rewrite foldl_app. destruct (IH5 (foldl map_req A (region_reqs (fun x => x + off) ks ke (rbase r) (rbase r + rsize r) PAGE_KERNEL)) va) as [I1 I2].
    rewrite to_map_cons. unfold re. split.
    + intros Hm. destruct (decide (to_map l va)) as [Ht|Ht]; [by apply I1|]. rewrite I2, V by done. by rewrite bool_decide_true by tauto.
    + intros Hm. rewrite I2, V by tauto. by rewrite bool_decide_false by tauto.
Qed.
End memory.

(** C11: [map_mem] on a well-formed memory map of whole pages maps every address of memory at
    its linear address, except for the image, which stays as it was, and changes the
    translation of no other address; that holds whatever the memory map looks like, given
    the page frames for the tables. *)
Theorem map_mem_maps root base own s m off ks ke :
  inv root base own s -> mem_wf (mem_memory_regions m) -> Forall (region_ok base off) (mt_regions (mem_memory_regions m)) ->
  off mod 4096 = 0 /\ ks mod 4096 = 0 /\ ke mod 4096 = 0 -> 0 <= ks < ke ->
  (forall va, to_map off ks ke (mt_regions (mem_memory_regions m)) va -> view root s va = None) ->
  foldr (fun r n => req_need r + n) 0 (mem_reqs (fun x => x + off) ks ke (mt_regions (mem_memory_regions m))) <= Z.of_nat (length (p_free s)) ->
  exists s' own', map_mem (fun x => x + off) ks ke m (FIX_PGD, root) s = Ok s' /\ inv root base own' s' /\
    forall va, base <= va < base + 2 ^ 48 ->
      (to_map off ks ke (mt_regions (mem_memory_regions m)) va -> view root s' va = Some (va - off, attr PAGE_KERNEL)) /\
      (~ to_map off ks ke (mt_regions (mem_memory_regions m)) va -> view root s' va = view root s va).
Proof.
  intros I (_ & _ & [[Hd _]|(_ & Ho & _)]) Hr Hal Hk Hn Hf.
  { exists s, own. unfold map_mem, mem_walk_memory. rewrite Hd. split; [done|]. split; [done|]. intros va Hv. split; [|done]. intros [Hc _]. by apply covers_dummy in Hc. }
  destruct (mem_reqs_ok base off ks ke Hal Hk page_kernel_prot 1 0 _ ltac:(lia) ltac:(lia) Ho Hr) as (R & D & _ & Hin & V).
  destruct (create_all_ok root base _ R D own s I) as (s' & own' & Hs & I' & V'); [|done|].
  - intros r va Hq Hv. by apply Hn, (Hin r).
  - exists s', own'. unfold map_mem, mem_walk_memory. rewrite (walk_eq _ _ _ _ 1 0) by (done || lia). split; [done|]. split; [done|]. intros va Hv. rewrite V' by done. apply V.
Qed.

(** ** Examples *)
Definition ex_root : Z := 0x1000.
Definition ex_start : pg := Pg (fun _ => 0) (<[FIX_PGD := Some ex_root]> (fun _ => None)) (map (fun i => 0x2000 + 0x1000 * Z.of_nat i) (seq 0 12)).
(** two pages that are not aligned, and a section *)
Definition ex_small : req := Req 0x80000800 0x40000800 0x1000 PAGE_KERNEL false.
Definition ex_block : req := Req 0xC0000000 0x40200000 0x200000 PAGE_KERNEL false.

Lemma ex_blank : blank ex_root 0 ex_start.
Proof.
  split; [by vm_compute|by vm_compute|done| | |done].
  - apply List.Forall_forall. intros c (i & <- & ?%List.in_seq)%List.in_map_iff. unfold paddr, ex_root. split_and!; try lia.
    replace (0x2000 + 0x1000 * Z.of_nat i) with ((2 + Z.of_nat i) * 4096) by lia. apply Z_mod_mult.
  - apply Injective_map_NoDup; [intros i j ?; lia|apply List.seq_NoDup].
Qed.
Ltac ex_req := split; [apply page_kernel_prot|by vm_compute..].
Lemma ex_small_ok : req_ok 0 ex_small.
Proof. ex_req. Qed.
Lemma ex_block_ok : req_ok 0 ex_block.
Proof. ex_req. Qed.

Lemma create_pgd_mapping_maps_witness : exists s' own', create_pgd_mapping (FIX_PGD, ex_root) 0x80000800 0x40000800 0x1000 PAGE_KERNEL false ex_start = Ok s' /\
  inv ex_root 0 own' s' /\ view ex_root s' 0x40001234 = Some (0x80001234, attr PAGE_KERNEL) /\ view ex_root s' 0x40002000 = None.
Proof.
  destruct (create_pgd_mapping_maps ex_root 0 (no_tables ex_root 0) ex_start ex_small (blank_inv _ _ _ ex_blank) ex_small_ok) as (s' & own' & Hr & I & V & _).
  - intros va _. exact (blank_view _ _ _ _ ex_blank).
  - vm_compute. discriminate.
  - exists s', own'. split; [exact Hr|]. split; [exact I|]. split; rewrite V by lia; vm_compute; reflexivity.
Defined.

Lemma create_all_refines_witness : exists s', create_all ex_root [ex_small; ex_block] ex_start = Ok s' /\
  forall va, 0 <= va < 2 ^ 48 -> view ex_root s' va = foldl map_req (fun _ => None) [ex_small; ex_block] va.
Proof.
  apply (create_all_refines ex_root 0 ex_start [ex_small; ex_block]).
  - exact ex_blank.
  - constructor; [exact ex_small_ok|constructor; [exact ex_block_ok|constructor]].
  - constructor; [constructor; [left; vm_compute; discriminate|constructor]|constructor; constructor].
  - vm_compute. discriminate.
Defined.

(** The image in a region of memory, and a second region. *)
Definition ex_mem : mem_state := MkMem (MkType 8 0x700000 [MkRegion 0x7ff00000 0x500000; MkRegion 0xC0000000 0x200000]) (mem_type_init 8) false 0 0x80000000 0x80200000.
Lemma ex_mapped_1 : to_map 0 0x80000000 0x80200000 (mt_regions (mem_memory_regions ex_mem)) 0x7ff12345.
Proof. split; [left; by vm_compute|lia]. Qed.
Lemma ex_mapped_2 : to_map 0 0x80000000 0x80200000 (mt_regions (mem_memory_regions ex_mem)) 0xC0100000.
Proof. split; [right; left; by vm_compute|lia]. Qed.
Lemma ex_image : ~ to_map 0 0x80000000 0x80200000 (mt_regions (mem_memory_regions ex_mem)) 0x80000000.
Proof. intros [_ Hn]. lia. Qed.
Lemma map_mem_maps_witness : exists s' own', map_mem (fun x => x + 0) 0x80000000 0x80200000 ex_mem (FIX_PGD, ex_root) ex_start = Ok s' /\ inv ex_root 0 own' s' /\
  view ex_root s' 0x7ff12345 = Some (0x7ff12345, attr PAGE_KERNEL) /\ view ex_root s' 0x80000000 = None /\ view ex_root s' 0xC0100000 = Some (0xC0100000, attr PAGE_KERNEL).
Proof.
  destruct (map_mem_maps ex_root 0 (no_tables ex_root 0) ex_start ex_mem 0 0x80000000 0x80200000 (blank_inv _ _ _ ex_blank)) as (s' & own' & Hr & I & V); try lia.
  - split; [done|]. split; [done|]. right. by vm_compute.
  - repeat (constructor; [by vm_compute|]). constructor.
  - done.
  - intros va _. exact (blank_view _ _ _ _ ex_blank).
  - vm_compute. discriminate.
  - exists s', own'. split; [exact Hr|]. split; [exact I|]. clear Hr I. split; [|split].
    + rewrite (proj1 (V 0x7ff12345 ltac:(lia)) ex_mapped_1). reflexivity.
    + rewrite (proj2 (V 0x80000000 ltac:(lia)) ex_image). vm_compute. reflexivity.
    + rewrite (proj1 (V 0xC0100000 ltac:(lia)) ex_mapped_2). reflexivity.
Defined.

(** After [ex_small] there is a table for the block at [0x40000000]; a request for the whole
    block returns and changes nothing. *)
Definition ex_over : req := Req 0x80000000 0x40000000 0x200000 PAGE_KERNEL false.
Lemma section_over_table_lost_witness :
  map_entry (pmd_huge_map (FIX_PMD, 0x3000)) alloc_init_cont_pte (FIX_PMD, 0x3000) 0x40000000 0x40200000 0x80000000 PAGE_KERNEL 0
    (Pg (<[0x3000 := Z.lor 0x4000 3]> (fun _ => 0)) (<[FIX_PMD := Some 0x3000]> (fun _ => None)) []) =
    Ok (Pg (<[0x3000 := Z.lor 0x4000 3]> (fun _ => 0)) (<[FIX_PMD := Some 0x3000]> (fun _ => None)) []).
Proof.
  apply (section_over_table_lost (FIX_PMD, 0x3000) 1 0x40000000 0x40200000 0x80000000 PAGE_KERNEL 0 0x4000); [by vm_compute|apply page_kernel_prot|by vm_compute..].
Defined.
Example block_over_table_lost : match s ← create ex_root ex_small ex_start; create ex_root ex_over s with
  | Ok s => view ex_root s 0x40001000 = Some (0x80001000, attr PAGE_KERNEL) /\ view ex_root s 0x40002000 = None
  | Fault _ => False end.
Proof. by vm_compute. Qed.
(** [map_kernel_segment] takes the size before it rounds the start down: the last page is
    left out. *)
Example segment_tail_missed : match map_kernel_segment id (FIX_PGD, ex_root) 0x40000800 0x40001800 PAGE_KERNEL 0 ex_start with
  | Ok s => view ex_root s 0x40000800 = Some (0x40000800, attr PAGE_KERNEL) /\ view ex_root s 0x40001000 = None
  | Fault _ => False end.
Proof. by vm_compute. Qed.
