(* ===== verification/Bulk.v ===== *)
(** * Bulk transfers

    src/kernel/bulk_dio.c: channels that copy bytes from a reader to a writer in units that
    suit each side.

    A channel has the flush sizes of its two sides; the call-backs are recorded as a trace of
    events, [byte_in] is what the reader's [read] returns at its n-th call.  The ring buffer of
    a channel, which no function here uses, is its address only. *)
From S2P Require Import Prelude Bitops Bitmap.

(** ** Channels *)
Inductive side : Type := RD | WR.
Inductive bev : Type := Open (d : side) (iter : Z) | Close (d : side) (n : Z) | Byte (b : Z).
#[export] Instance side_eq : EqDecision side.
Proof. solve_decision. Defined.
Record bulk : Type := Bulk { bk_length : Z; bk_buffer : Z; bk_rflush : Z; bk_wflush : Z }.
Definition bulk_config (d : side) (flush : Z) (c : bulk) : bulk :=
  match d with RD => Bulk (bk_length c) (bk_buffer c) flush (bk_wflush c) | WR => Bulk (bk_length c) (bk_buffer c) (bk_rflush c) flush end.
Definition bulk_config_read_byte (flush : Z) (c : bulk) : bulk := bulk_config RD flush c.
Definition bulk_config_write_byte (flush : Z) (c : bulk) : bulk := bulk_config WR flush c.

Section transfer.
Context (byte_in : nat -> Z).
Record bst : Type := Bst { b_tr : list bev; b_pos : nat }.
Definition ev (e : bev) (s : bst) : bst := Bst (b_tr s ++ [e]) (b_pos s).
(** [write_byte(read_byte())] *)
Definition copy_byte (s : bst) : bst := Bst (b_tr s ++ [Byte (byte_in (b_pos s))]) (S (b_pos s)).
Fixpoint copy_bytes (n : nat) (s : bst) : bst := match n with O => s | S n => copy_bytes n (copy_byte s) end.
(** [n] rounds of the inner side [d]. *)
Fixpoint rounds (d : side) (n : nat) (flush size iter : Z) (s : bst) : Z * bst :=
  match n with
  | O => (iter, s)
  | S n =>
      let chunk := u16 (Z.min flush (u64 (size - iter))) in
      let s := ev (Close d chunk) (copy_bytes (Z.to_nat chunk) (ev (Open d iter) s)) in
      rounds d n flush size (u64 (iter + chunk)) s
  end.
Definition turn (c : bulk) (size iter : Z) (s : bst) : Z * bst :=
  let '(out, inn, oflush, iflush) := if bk_rflush c <? bk_wflush c then (WR, RD, bk_wflush c, bk_rflush c) else (RD, WR, bk_rflush c, bk_wflush c) in
  let chunk := u16 (Z.min oflush (u64 (size - iter))) in
  let '(iter, s) := rounds inn (Z.to_nat chunk) iflush size iter (ev (Open out iter) s) in
  (iter, ev (Close out chunk) s).
Fixpoint transfer_loop (fuel : nat) (c : bulk) (size iter : Z) (s : bst) : res bst :=
  match fuel with
  | O => Fault FHang
  | S fuel => if u64 (size - iter) =? 0 then Ok s else let '(iter, s) := turn c size iter s in transfer_loop fuel c size iter s
  end.
Definition bulk_transfer_sync (fuel : nat) (c : bulk) (size : Z) (s : bst) : res bst := transfer_loop fuel c size 0 s.

(** ** Exactly the requested bytes *)
Definition bytes (tr : list bev) : list Z := omap (fun e => match e with Byte b => Some b | _ => None end) tr.
Definition input (from n : nat) : list Z := map byte_in (seq from n).

Lemma bytes_app tr tr' : bytes (tr ++ tr') = bytes tr ++ bytes tr'.
Proof. apply omap_app. Qed.
Lemma ev_bytes e s : (forall b, e <> Byte b) -> bytes (b_tr (ev e s)) = bytes (b_tr s) /\ b_pos (ev e s) = b_pos s.
Proof. intros He. split; [|done]. cbn. rewrite bytes_app. destruct e; [by rewrite app_nil_r..|by destruct (He b)]. Qed.
Lemma copy_bytes_ok n s : b_tr (copy_bytes n s) = b_tr s ++ map Byte (input (b_pos s) n) /\ b_pos (copy_bytes n s) = (b_pos s + n)%nat.
Proof.
  revert s. induction n as [|n IH]; intros s; cbn; [by rewrite app_nil_r, Nat.add_0_r|]. destruct (IH (copy_byte s)) as [-> ->]. cbn. split; [by rewrite <- app_assoc|lia].
Qed.
Lemma bytes_map l : bytes (map Byte l) = l.
Proof. induction l as [|b l IH]; [done|]. cbn. by f_equal. Qed.
Lemma input_app from n n' : input from n ++ input (from + n) n' = input from (n + n').
Proof. unfold input. by rewrite <- map_app, <- seq_app. Qed.

Definition moved (n : Z) (s s' : bst) : Prop := bytes (b_tr s') = bytes (b_tr s) ++ input (b_pos s) (Z.to_nat n) /\ b_pos s' = (b_pos s + Z.to_nat n)%nat.
Lemma moved_seq n n' s s' s'' : 0 <= n -> 0 <= n' -> moved n s s' -> moved n' s' s'' -> moved (n + n') s s''.
Proof. intros ? ? [B P] [B' P']. split; [|lia]. rewrite B', B, P, <- app_assoc, input_app. do 2 f_equal. lia. Qed.
Lemma moved_ev e s s' n : (forall b, e <> Byte b) -> moved n s s' -> moved n s (ev e s').
Proof. intros He [B P]. destruct (ev_bytes e s' He) as [E1 E2]. split; [by rewrite E1|by rewrite E2]. Qed.
Lemma moved_pre e s s' n : (forall b, e <> Byte b) -> moved n (ev e s) s' -> moved n s s'.
Proof. intros He [B P]. destruct (ev_bytes e s He) as [E1 E2]. rewrite E1, E2 in B. rewrite E2 in P. done. Qed.
Lemma moved_copy n s : moved n s (copy_bytes (Z.to_nat n) s).
Proof. destruct (copy_bytes_ok (Z.to_nat n) s) as [E1 E2]. split; [|done]. by rewrite E1, bytes_app, bytes_map. Qed.

Lemma rounds_ok d n flush size iter s : 0 <= flush < 2 ^ 16 -> 0 <= iter <= size -> size < 2 ^ 64 ->
  exists s', rounds d n flush size iter s = (Z.min size (iter + flush * Z.of_nat n), s') /\ moved (Z.min size (iter + flush * Z.of_nat n) - iter) s s'.
Proof.
  intros Hf. revert iter s. induction n as [|n IH]; intros iter s Hi Hs; cbn [rounds].
  { exists s. rewrite Z.mul_0_r, Z.add_0_r, Z.min_r by lia. split; [done|]. rewrite Z.sub_diag. split; cbn; [by rewrite app_nil_r|lia]. }
  rewrite (wrap_id 64 (size - iter)), (wrap_id 16 _), (wrap_id 64 (iter + _)) by lia. set (chunk := Z.min flush (size - iter)).
  destruct (IH (iter + chunk) (ev (Close d chunk) (copy_bytes (Z.to_nat chunk) (ev (Open d iter) s)))) as (s' & -> & M); [lia|done|].
  assert (E : Z.min size (iter + chunk + flush * Z.of_nat n) = Z.min size (iter + flush * Z.of_nat (S n))) by nia. rewrite E in *.
  exists s'. split; [done|]. replace (Z.min size (iter + flush * Z.of_nat (S n)) - iter) with (chunk + (Z.min size (iter + flush * Z.of_nat (S n)) - (iter + chunk))) by lia.
  eapply moved_seq; [lia|nia| |exact M]. apply moved_ev; [done|]. apply (moved_pre (Open d iter)); [done|]. apply moved_copy.
Qed.
Lemma turn_ok c size iter s : 0 < bk_rflush c < 2 ^ 16 -> 0 < bk_wflush c < 2 ^ 16 -> 0 <= iter < size -> size < 2 ^ 64 ->
  exists iter' s', turn c size iter s = (iter', s') /\ iter < iter' <= size /\ moved (iter' - iter) s s'.
Proof.
  intros Hr Hw Hi Hs. unfold turn. destruct (_ <? _); cbn; rewrite (wrap_id 64 (size - iter)), (wrap_id 16 _) by lia;
    match goal with |- context [rounds ?d ?n ?fl size iter ?t] => destruct (rounds_ok d n fl size iter t) as (s' & -> & M); [lia|lia|done|] end;
    eexists _, _; (split; [done|]; split; [split; [|lia]|]; [rewrite Z2Nat.id by lia; nia|]; apply moved_ev; [done|]; eapply moved_pre; [|exact M]; done).
Qed.
Lemma transfer_loop_ok c size fuel iter s : 0 < bk_rflush c < 2 ^ 16 -> 0 < bk_wflush c < 2 ^ 16 -> 0 <= iter <= size -> size < 2 ^ 64 -> size - iter < Z.of_nat fuel ->
  exists s', transfer_loop fuel c size iter s = Ok s' /\ moved (size - iter) s s'.
Proof.
  intros Hr Hw. revert iter s. induction fuel as [|fuel IH]; intros iter s Hi Hs Hf; [lia|]. cbn [transfer_loop]. rewrite wrap_id by lia. destruct (size - iter =? 0) eqn:E.
  - apply Z.eqb_eq in E. exists s. split; [done|]. rewrite E. split; cbn; [by rewrite app_nil_r|lia].
  - apply Z.eqb_neq in E. destruct (turn_ok c size iter s Hr Hw) as (iter' & s1 & -> & Hi' & M); [lia|done|]. destruct (IH iter' s1) as (s' & -> & M'); [lia..|].
    exists s'. split; [done|]. replace (size - iter) with (iter' - iter + (size - iter')) by lia. eapply moved_seq; [lia|lia|done|done].
Qed.

(** With flush sizes that are not zero a transfer ends, after as many turns at most as it has
    bytes, and hands exactly the requested number of bytes to the writer, in the order in
    which the reader delivers them, whatever the two flush sizes are. *)
Theorem bulk_transfer_exact c size fuel : 0 < bk_rflush c < 2 ^ 16 -> 0 < bk_wflush c < 2 ^ 16 -> 0 <= size < 2 ^ 64 -> size < Z.of_nat fuel ->
  exists s', bulk_transfer_sync fuel c size (Bst [] 0) = Ok s' /\ bytes (b_tr s') = input 0 (Z.to_nat size).
Proof.
  intros Hr Hw Hs Hf. destruct (transfer_loop_ok c size fuel 0 (Bst [] 0) Hr Hw) as (s' & E & [B _]); [lia..|]. exists s'. split; [done|]. rewrite B. cbn. do 2 f_equal. lia.
Qed.

Lemma rounds_zero d n size iter s : 0 <= iter < 2 ^ 64 -> (rounds d n 0 size iter s).1 = iter.
Proof.
  intros Hi. revert s. induction n as [|n IH]; intros s; [done|]. cbn [rounds]. rewrite Z.min_l by (apply wrap_range; lia). change (u16 0) with 0. rewrite Z.add_0_r, wrap_id by lia. apply IH.
Qed.
(** With a flush size of zero, which [bulk_config_read_byte] and [bulk_config_write_byte]
    accept, a transfer of anything never ends. *)
Theorem bulk_zero_hangs c size fuel s : 0 <= bk_rflush c -> 0 <= bk_wflush c -> bk_rflush c = 0 \/ bk_wflush c = 0 -> 0 < size < 2 ^ 64 ->
  bulk_transfer_sync fuel c size s = Fault FHang.
Proof.
  intros Hr Hw Hz Hs. unfold bulk_transfer_sync. revert s. induction fuel as [|fuel IH]; intros s; [done|]. cbn [transfer_loop]. rewrite Z.sub_0_r, wrap_id by lia.
  rewrite (proj2 (Z.eqb_neq size 0)) by lia. assert (Ht : (turn c size 0 s).1 = 0).
  { unfold turn. destruct (bk_rflush c <? bk_wflush c) eqn:E; cbn.
    - assert (bk_rflush c = 0) as -> by lia. pose proof (rounds_zero RD (Z.to_nat (u16 (Z.min (bk_wflush c) (u64 (size - 0))))) size 0 (ev (Open WR 0) s) ltac:(lia)) as H. by destruct (rounds _ _ _ _ _ _).
    - assert (bk_wflush c = 0) as -> by lia. pose proof (rounds_zero WR (Z.to_nat (u16 (Z.min (bk_rflush c) (u64 (size - 0))))) size 0 (ev (Open RD 0) s) ltac:(lia)) as H. by destruct (rounds _ _ _ _ _ _). }
  destruct (turn c size 0 s) as [iter' s1]. cbn in Ht. subst iter'. apply IH.
Qed.

(** ** What one turn of the slower side carries *)
Definition other_side (d : side) (e : bev) : Prop := match e with Open d' _ | Close d' _ => d' <> d | Byte _ => True end.
Lemma rounds_trace d d' n flush size iter s : d <> d' -> exists mid, b_tr (rounds d n flush size iter s).2 = b_tr s ++ mid /\ Forall (other_side d') mid.
Proof.
  intros Hd. revert iter s. induction n as [|n IH]; intros iter s; [exists []; split; [by rewrite app_nil_r|constructor]|]. cbn [rounds].
  set (chunk := u16 _). destruct (IH (u64 (iter + chunk)) (ev (Close d chunk) (copy_bytes (Z.to_nat chunk) (ev (Open d iter) s)))) as (mid & -> & Hm).
  destruct (copy_bytes_ok (Z.to_nat chunk) (ev (Open d iter) s)) as [E _]. cbn [b_tr ev]. rewrite E. cbn [b_tr ev]. rewrite <- !app_assoc.
  eexists. split; [done|]. apply Forall_app_2; [by constructor|]. apply Forall_app_2; [apply Forall_map, List.Forall_forall; done|]. by constructor.
Qed.
Lemma transfer_prefix fuel c size iter s s' : transfer_loop fuel c size iter s = Ok s' -> exists rest, b_tr s' = b_tr s ++ rest.
Proof.
  revert iter s. induction fuel as [|fuel IH]; intros iter s; [done|]. cbn [transfer_loop]. case_match; [intros [= <-]; exists []; by rewrite app_nil_r|].
  assert (Ht : exists r, b_tr (turn c size iter s).2 = b_tr s ++ r).
  { unfold turn. destruct (bk_rflush c <? bk_wflush c); cbn;
      [destruct (rounds_trace RD WR (Z.to_nat (u16 (Z.min (bk_wflush c) (u64 (size - iter))))) (bk_rflush c) size iter (ev (Open WR iter) s)) as (mid & E & _); [done|]
      |destruct (rounds_trace WR RD (Z.to_nat (u16 (Z.min (bk_rflush c) (u64 (size - iter))))) (bk_wflush c) size iter (ev (Open RD iter) s)) as (mid & E & _); [done|]];
      destruct (rounds _ _ _ _ _ _); cbn in *; rewrite E; cbn; rewrite <- !app_assoc; by eexists. }
  destruct (turn c size iter s) as [iter' s1]. destruct Ht as [r Hr]. cbn in Hr. intros (rest & ->)%IH. exists (r ++ rest). by rewrite Hr, app_assoc.
Qed.

(** The rounds of a turn are counted, not their bytes: where the reader's unit is
    smaller than the writer's but has more than one byte, the first [open] of the writer is
    followed by more than [wflush] bytes before its [close], although [wflush] is the number
    of bytes the writer takes at a time. *)
Theorem bulk_window_overrun c size fuel : 1 < bk_rflush c -> bk_rflush c < bk_wflush c -> bk_wflush c < 2 ^ 16 -> bk_wflush c < size < 2 ^ 64 -> size < Z.of_nat fuel ->
  exists s' mid rest, bulk_transfer_sync fuel c size (Bst [] 0) = Ok s' /\ b_tr s' = [Open WR 0] ++ mid ++ [Close WR (bk_wflush c)] ++ rest /\
    Forall (other_side WR) mid /\ bk_wflush c < Z.of_nat (length (bytes mid)).
Proof.
  intros Hr Hrw Hw Hs Hf. destruct (transfer_loop_ok c size fuel 0 (Bst [] 0)) as (s' & E & _); [lia..|]. exists s'. destruct fuel as [|fuel]; [lia|].
  pose proof E as E0. cbn [transfer_loop] in E. rewrite wrap_id in E by lia. rewrite (proj2 (Z.eqb_neq (size - 0) 0)) in E by lia. unfold turn in E.
  rewrite (proj2 (Z.ltb_lt _ _) Hrw) in E. cbv beta iota zeta in E. rewrite (wrap_id 64 (size - 0)), (wrap_id 16 _) in E by lia. rewrite Z.min_l in E by lia.
  destruct (rounds_trace RD WR (Z.to_nat (bk_wflush c)) (bk_rflush c) size 0 (ev (Open WR 0) (Bst [] 0))) as (mid & Hm & Ho); [done|].
  destruct (rounds_ok RD (Z.to_nat (bk_wflush c)) (bk_rflush c) size 0 (ev (Open WR 0) (Bst [] 0))) as (s1 & Hr1 & [B _]); [lia..|].
  rewrite Hr1 in E, Hm. cbn [snd] in Hm. apply transfer_prefix in E as [rest Hrest]. exists mid, rest. split; [exact E0|]. split; [|split; [done|]].
  - rewrite Hrest. cbn [b_tr ev]. rewrite Hm. cbn [b_tr ev app]. by rewrite <- !app_assoc.
  - rewrite Hm in B. cbn [b_tr ev app b_pos] in B. change (bytes (Open WR 0 :: mid)) with (bytes mid) in B. rewrite B, length_app. unfold input. rewrite length_map, length_seq. nia.
Qed.
End transfer.

(** ** Channels are taken from a bitmap *)
Section channels.
Context `{U : BitUnit} (NR_BULK_CHANS : Z).
Record chans : Type := Chans { ch_regs : list Z; ch_ctrls : list bulk }.
Definition set_fifo (buffer length : Z) (c : bulk) : bulk := Bulk length buffer (bk_rflush c) (bk_wflush c).
Definition bulk_alloc_fifo (buffer length : Z) (s : chans) : res (Z * chans) :=
  r ← find_first_clear_bit (ch_regs s) NR_BULK_CHANS;
  let bulk := u8 r in
  bug_on (NR_BULK_CHANS <=? bulk);;
  regs ← __set_bit bulk (ch_regs s);
  _ ← oob (ch_ctrls s !! Z.to_nat bulk);
  Ok (bulk, Chans regs (alter (set_fifo buffer length) (Z.to_nat bulk) (ch_ctrls s))).
Definition bulk_free_fifo (bulk : Z) (s : chans) : res chans :=
  bug_on (NR_BULK_CHANS <=? bulk);;
  _ ← oob (ch_ctrls s !! Z.to_nat bulk);
  regs ← __clear_bit bulk (ch_regs s);
  Ok (Chans regs (alter (set_fifo 0 0) (Z.to_nat bulk) (ch_ctrls s))).

Record chans_ok (s : chans) : Prop := ChansOk {
  co_wf : bm_wf (ch_regs s);
  co_room : bm_room (ch_regs s) NR_BULK_CHANS;
  co_len : Z.of_nat (length (ch_ctrls s)) = NR_BULK_CHANS
}.
Context (Hnr : 0 < NR_BULK_CHANS < 2 ^ 8) (Hw : NR_BULK_CHANS < 2 ^ BITS_PER_UNIT).

Lemma set_bit_ok nr addr : in_u BITS_PER_UNIT nr -> nr < BITS_PER_UNIT * Z.of_nat (length addr) -> bm_wf addr -> exists s, __set_bit nr addr = Ok s /\ bm_upd addr nr true s.
Proof using. intros H1 H2 H3. destruct (update_word_set nr addr H1 H2 H3) as (w & s & E & Hs & _). exists s. unfold __set_bit. by rewrite E. Qed.
Lemma clear_bit_ok nr addr : in_u BITS_PER_UNIT nr -> nr < BITS_PER_UNIT * Z.of_nat (length addr) -> bm_wf addr -> exists s, __clear_bit nr addr = Ok s /\ bm_upd addr nr false s.
Proof using. intros H1 H2 H3. destruct (update_word_clear nr addr H1 H2 H3) as (w & s & E & Hs & _). exists s. unfold __clear_bit. by rewrite E. Qed.

(** The channel returned is the first one that is not in use, and is in use afterwards,
    the others are as before; if all are in use the system stops.  Freeing the channel makes
    the set of channels in use what it was. *)
Theorem bulk_alloc_free buffer len s : chans_ok s ->
  match bulk_alloc_fifo buffer len s with
  | Ok (c, s1) => 0 <= c < NR_BULK_CHANS /\ is_next (fun i => negb (bm_bit (ch_regs s) i)) NR_BULK_CHANS 0 c /\ chans_ok s1 /\
      bm_upd (ch_regs s) c true (ch_regs s1) /\ bk_buffer <$> ch_ctrls s1 !! Z.to_nat c = Some buffer /\
      exists s2, bulk_free_fifo c s1 = Ok s2 /\ chans_ok s2 /\ forall i, 0 <= i -> bm_bit (ch_regs s2) i = bm_bit (ch_regs s) i
  | Fault f => f = FBug /\ forall i, 0 <= i < NR_BULK_CHANS -> bm_bit (ch_regs s) i = true
  end.
Proof using Hnr Hw.
  intros [Hwf Hroom Hlen]. unfold bulk_alloc_fifo, find_first_clear_bit. pose proof W_pos.
  destruct (find_next_clear_bit_spec (ch_regs s) NR_BULK_CHANS 0) as (r & -> & Hr); [done|done|lia|lia|]. rewrite bool_decide_false in Hr by lia.
  pose proof Hr as (Hb & Hnone & Hclear). cbn [mbind res_mbind]. rewrite wrap_id by lia. destruct (NR_BULK_CHANS <=? r) eqn:E; cbn [bug_on mbind res_mbind].
  { split; [done|]. intros i Hi. apply negb_false_iff, Hnone. lia. }
  apply Z.leb_gt in E. unfold bm_room in Hroom. destruct (set_bit_ok r (ch_regs s)) as (regs & -> & U1); [lia|lia|done|]. cbn [mbind res_mbind].
  destruct (lookup_lt_is_Some_2 (ch_ctrls s) (Z.to_nat r)) as [c Hc]; [lia|]. rewrite Hc. cbn [oob mbind res_mbind]. pose proof U1 as (Hwf1 & Hl1 & Hu1).
  split; [lia|]. split; [done|]. split; [split; [done|unfold bm_room; cbn; lia|cbn; by rewrite length_alter]|]. split; [done|]. cbn [ch_ctrls].
  split; [by rewrite list_lookup_alter_eq, Hc|]. unfold bulk_free_fifo. rewrite (proj2 (Z.leb_gt _ _) E). cbn [bug_on mbind res_mbind ch_ctrls ch_regs]. rewrite list_lookup_alter_eq, Hc.
  cbn [fmap option_fmap option_map oob mbind res_mbind]. destruct (clear_bit_ok r regs) as (regs2 & -> & (Hwf2 & Hl2 & Hu2)); [lia|lia|done|]. cbn [mbind res_mbind].
  eexists. split; [done|]. split; [split; [done|unfold bm_room; cbn; lia|cbn; by rewrite !length_alter]|]. intros i Hi. cbn. rewrite Hu2, Hu1 by done.
  case_bool_decide as Ei; [|done]. subst i. symmetry. by apply negb_true_iff, Hclear.
Qed.
End channels.

(** ** Examples *)
Definition ex_dev (n : nat) : Z := Z.of_nat n.
Definition ex_chan : bulk := Bulk 0 0 2 4.
Lemma bulk_transfer_exact_witness : exists s', bulk_transfer_sync ex_dev 10 ex_chan 9 (Bst [] 0) = Ok s' /\ bytes (b_tr s') = [0; 1; 2; 3; 4; 5; 6; 7; 8].
Proof. apply (bulk_transfer_exact ex_dev ex_chan 9 10); vm_compute; intuition discriminate. Defined.
Lemma bulk_zero_hangs_witness : bulk_transfer_sync ex_dev 100 (Bulk 0 0 0 4) 9 (Bst [] 0) = Fault FHang.
Proof. apply (bulk_zero_hangs ex_dev (Bulk 0 0 0 4) 9); [vm_compute; discriminate|vm_compute; discriminate|left; reflexivity|lia]. Defined.
Lemma bulk_window_overrun_witness : exists s' mid rest, bulk_transfer_sync ex_dev 10 ex_chan 9 (Bst [] 0) = Ok s' /\ b_tr s' = [Open WR 0] ++ mid ++ [Close WR 4] ++ rest /\
  Forall (other_side WR) mid /\ 4 < Z.of_nat (length (bytes mid)).
Proof. apply (bulk_window_overrun ex_dev ex_chan 9 10); vm_compute; intuition discriminate. Defined.
Lemma bulk_alloc_free_witness : chans_ok 2 (Chans [1] [ex_chan; ex_chan]) /\ exists s1 s2, bulk_alloc_fifo 2 7 64 (Chans [1] [ex_chan; ex_chan]) = Ok (1, s1) /\
  bulk_free_fifo 2 1 s1 = Ok s2 /\ chans_ok 2 s2.
Proof.
  assert (Hok : chans_ok 2 (Chans [1] [ex_chan; ex_chan])) by (split; [by repeat constructor|by vm_compute|done]). split; [exact Hok|].
  pose proof (bulk_alloc_free 2 ltac:(lia) ltac:(by vm_compute) 7 64 _ Hok) as H. destruct (bulk_alloc_fifo 2 7 64 _) as [[c s1]|f] eqn:E; [|vm_compute in E; discriminate].
  assert (c = 1) as -> by (clear H; vm_compute in E; congruence). destruct H as (_ & _ & _ & _ & _ & s2 & H2 & H3 & _). exists s1, s2. split; [reflexivity|]. split; [exact H2|exact H3].
Defined.
