(* ===== verification/Heap.v ===== *)
(** * The heap's memory

    src/kernel/heap.c: the memory of the heap comes from the page allocator, and the heap
    allocator extends it with [heap_sbrk].  CONFIG_HEAP_SIZE and HEAP_ALIGN are parameters. *)
From S2P Require Import Prelude MemBlock MemAlloc PageAlloc.

Record heap : Type := Heap { heap_start : Z; heap_brk : Z }.
Definition INVALID_HEAP_ADDR : Z := u64 (-1).

Section heap.
Context (CONFIG_HEAP_SIZE HEAP_ALIGN : Z).
Definition heap_stop (h : heap) : Z := u64 (heap_start h + CONFIG_HEAP_SIZE).
Definition heap_sbrk (increment : Z) (h : heap) : Z * heap :=
  let old := heap_brk h in
  let new := u64 (old + increment) in
  if (new <? heap_start h) || (heap_stop h <? new) then (INVALID_HEAP_ADDR, h) else (old, Heap (heap_start h) new).
Definition heap_range_init (start_addr : Z) (h : heap) : heap := Heap (ALIGN_UP start_addr HEAP_ALIGN) (heap_brk h).
Definition heap_page_nr : Z := ALIGN_UP CONFIG_HEAP_SIZE PAGE_SIZE / PAGE_SIZE.
Definition heap_page_init (l : list page) (h : heap) : res (list page * heap) :=
  '(pg, l) ← page_alloc_pages heap_page_nr l;
  match pg with None => Fault FBug | Some a => Ok (l, heap_range_init a h) end.
(** [heap_init], without the allocator's own set-up. *)
Definition heap_init (l : list page) (h : heap) : res (list page * heap) :=
  '(l, h) ← heap_page_init l h; Ok (l, Heap (heap_start h) (heap_start h)).

Record heap_ok (h : heap) : Prop := HeapOk {
  ho_brk : 0 <= heap_start h <= heap_brk h;
  ho_stop : heap_brk h <= heap_start h + CONFIG_HEAP_SIZE;
  ho_top : heap_start h + CONFIG_HEAP_SIZE < 2 ^ 64
}.

(** Whatever the increment, wrap-around included, [heap_sbrk] either moves the break by
    exactly the increment and returns the old break, or, exactly when that would leave the
    heap, returns the error value and changes nothing; the break stays in the heap. *)
Theorem heap_sbrk_ok h incr : 0 < CONFIG_HEAP_SIZE < 2 ^ 63 -> heap_ok h -> - 2 ^ 63 <= incr < 2 ^ 63 ->
  heap_ok (heap_sbrk incr h).2 /\
  heap_sbrk incr h = if bool_decide (heap_start h <= heap_brk h + incr <= heap_start h + CONFIG_HEAP_SIZE)
                     then (heap_brk h, Heap (heap_start h) (heap_brk h + incr)) else (INVALID_HEAP_ADDR, h).
Proof.
  intros Hs [? ? ?] Hi. unfold heap_sbrk, heap_stop. rewrite (wrap_id 64 (heap_start h + _)) by lia. case_bool_decide.
  - rewrite wrap_id by lia. rewrite (proj2 (Z.ltb_ge (heap_brk h + incr) (heap_start h))), (proj2 (Z.ltb_ge (heap_start h + CONFIG_HEAP_SIZE) (heap_brk h + incr))) by lia. cbn. split; [split; cbn; lia|done].
  - assert ((u64 (heap_brk h + incr) <? heap_start h) || (heap_start h + CONFIG_HEAP_SIZE <? u64 (heap_brk h + incr)) = true) as ->; [|cbn; by split].
    destruct (decide (heap_brk h + incr < 0)).
    + assert (u64 (heap_brk h + incr) = heap_brk h + incr + 2 ^ 64) as -> by (unfold wrap; symmetry; apply Z.mod_unique with (-1); lia). lia.
    + destruct (decide (heap_brk h + incr < 2 ^ 64)); [rewrite wrap_id by lia; lia|].
      assert (u64 (heap_brk h + incr) = heap_brk h + incr - 2 ^ 64) as -> by (unfold wrap; symmetry; apply Z.mod_unique with 1; lia). lia.
Qed.

Lemma align_up_val x n : 0 <= n <= 64 -> 0 <= x -> x + 2 ^ n <= 2 ^ 64 -> ALIGN_UP x (2 ^ n) = (x + (2 ^ n - 1)) / 2 ^ n * 2 ^ n.
Proof. intros. unfold ALIGN_UP, ALIGN_MASK. rewrite wrap_id by lia. by rewrite land_mask by lia. Qed.
Lemma align_up_id x n : 0 <= n <= 12 -> 0 <= x < 2 ^ 43 -> x mod 4096 = 0 -> ALIGN_UP x (2 ^ n) = x.
Proof.
  intros Hn Hx [q ->]%Z.mod_divide; [|lia]. assert (0 < 2 ^ n <= 2 ^ 12) by (split; [lia|apply Z.pow_le_mono_r; lia]). rewrite align_up_val by lia.
  assert (4096 = 2 ^ (12 - n) * 2 ^ n) as E by (rewrite <- Z.pow_add_r by lia; replace (12 - n + n) with 12 by lia; done).
  rewrite E, Z.mul_assoc, Z.div_add_l, (Z.div_small (2 ^ n - 1)) by lia. lia.
Qed.
Lemma heap_page_nr_ok : 0 < CONFIG_HEAP_SIZE < 2 ^ 63 -> 0 < heap_page_nr /\ CONFIG_HEAP_SIZE <= heap_page_nr * PAGE_SIZE < CONFIG_HEAP_SIZE + PAGE_SIZE.
Proof.
  intros Hs. unfold heap_page_nr. change PAGE_SIZE with (2 ^ 12). rewrite align_up_val by lia. rewrite Z.div_mul by lia. change (2 ^ 12) with 4096.
  pose proof (Z.div_mod (CONFIG_HEAP_SIZE + (4096 - 1)) 4096). pose proof (Z.mod_pos_bound (CONFIG_HEAP_SIZE + (4096 - 1)) 4096). lia.
Qed.

(** [heap_init] gives the heap pages that were free and are not any more: it is well
    formed with nothing in use, lies in memory that no later page allocation returns, and the
    system stops exactly when there is no run of pages that is long enough. *)
Theorem heap_init_ok l h n : page_list_ok l -> 0 < CONFIG_HEAP_SIZE < 2 ^ 63 -> HEAP_ALIGN = 2 ^ n -> 0 <= n <= 12 ->
  match heap_init l h with
  | Ok (l', h') => page_list_ok l' /\ heap_ok h' /\ heap_brk h' = heap_start h' /\
      forall x, heap_start h' <= x < heap_start h' + CONFIG_HEAP_SIZE -> covers (runs l) x /\ ~ covers (runs l') x
  | Fault f => f = FBug /\ forall a, ~ (forall x, a <= x < a + heap_page_nr * PAGE_SIZE -> covers (runs l) x)
  end.
Proof.
  intros Hl Hs Ha Hn. destruct (heap_page_nr_ok Hs) as [Hp Hb]. destruct (alloc_pages_spec heap_page_nr l Hl Hp) as (r & l' & E & Hl' & Hr). unfold heap_init, heap_page_init. rewrite E.
  cbn [mbind res_mbind]. destruct r as [a|]; [|by destruct Hr]. destruct Hr as (? & Ham & ? & _ & Hin & Hout). cbn [mbind res_mbind]. unfold heap_range_init. rewrite Ha, (align_up_id a n) by (done || lia). cbn [mbind res_mbind heap_start heap_brk].
  split; [done|]. split; [split; cbn; lia|]. split; [done|]. intros x Hx. split; [apply Hin; lia|]. rewrite Hout. lia.
Qed.
End heap.

Lemma heap_sbrk_ok_witness : heap_sbrk 0x10000 (-0x800) (Heap 0x80000000 0x80001000) = (0x80001000, Heap 0x80000000 0x80000800).
Proof. apply (heap_sbrk_ok 0x10000 (Heap 0x80000000 0x80001000) (-0x800)); [lia|split; cbn; lia|lia]. Defined.
Lemma heap_init_ok_witness : exists l' h', heap_init 0x2800 8 free_list_example (Heap 0 0) = Ok (l', h') /\ heap_start h' = 0x80010000 /\ page_list_ok l' /\ heap_ok 0x2800 h'.
Proof.
  pose proof (heap_init_ok 0x2800 8 free_list_example (Heap 0 0) 3 free_list_example_ok ltac:(lia) eq_refl ltac:(lia)) as H.
  destruct (heap_init 0x2800 8 free_list_example (Heap 0 0)) as [[l' h']|f] eqn:E; [|vm_compute in E; discriminate]. destruct H as (Hl & Hh & _).
  exists l', h'. split; [reflexivity|]. split; [vm_compute in E; injection E as <- <-; reflexivity|]. split; [exact Hl|exact Hh].
Defined.
