(* ===== verification/Task.v ===== *)
(** * Tasks and semaphores

    src/kernel/task.c: the table of tasks and the round-robin scheduler; the set-up of a task's
    first frame ([arch_hw_init_task]) and the switch of stacks ([arch_hw_switch_to]) are
    architecture code and recorded as events, as are the calls of the timer.  src/kernel/semaphore.c: counting semaphores,
    whose wait is a delay; what other contexts do to the semaphore meanwhile is a parameter. *)
From S2P Require Import Prelude.

(** ** Tasks *)
Definition INIT_PID : Z := 0.
Record task_entry : Type := Task { t_pid : Z; t_stack_size : Z; t_stack_bottom : Z; t_kern_sp : Z }.
Inductive tev : Type := InitTask (pid call priv : Z) | SwitchTo (prev next : Z) | TimerRegister | TimerShot (timeout : Z).
Definition TASK_SLICE : Z := 10.
Record tasks : Type := Tasks { task_entries : list task_entry; task_nr_regs : Z; task_current : Z; t_log : list tev }.

Section tasks.
Context (NR_TASKS : Z).
Definition task_create_stack (call priv stack_bottom stack_size : Z) (s : tasks) : res (Z * tasks) :=
  bug_on (task_nr_regs s =? NR_TASKS);;
  let pid := task_nr_regs s in
  _ ← oob (task_entries s !! Z.to_nat pid);
  let task := Task pid stack_size stack_bottom (u64 (stack_bottom + stack_size)) in
  Ok (pid, Tasks (<[Z.to_nat pid := task]> (task_entries s)) (u8 (task_nr_regs s + 1)) (task_current s) (t_log s ++ [InitTask pid call priv])).
(** [page_alloc] is what the page allocator returns. *)
Definition task_create (page_alloc : Z) (call priv stack_size : Z) (s : tasks) : res (Z * tasks) :=
  task_create_stack call 0 page_alloc stack_size s.
Definition task_schedule (s : tasks) : tasks :=
  let prev := task_current s in
  let next := prev + 1 in
  let next := if next =? task_nr_regs s then INIT_PID else next in
  if negb (prev =? next) then Tasks (task_entries s) (task_nr_regs s) next (t_log s ++ [SwitchTo prev next]) else s.
Definition t_event (e : tev) (s : tasks) : tasks := Tasks (task_entries s) (task_nr_regs s) (task_current s) (t_log s ++ [e]).
Definition task_timer_handler (s : tasks) : tasks := task_schedule (t_event (TimerShot TASK_SLICE) s).
Definition task_init (INIT_STACK INIT_STACK_SIZE : Z) (s : tasks) : res tasks :=
  let s := t_event TimerRegister s in
  _ ← oob (task_entries s !! Z.to_nat INIT_PID);
  let task := Task INIT_PID INIT_STACK_SIZE (u64 (INIT_STACK - INIT_STACK_SIZE)) INIT_STACK in
  Ok (t_event (TimerShot TASK_SLICE) (Tasks (<[Z.to_nat INIT_PID := task]> (task_entries s)) (task_nr_regs s) (task_current s) (t_log s))).

Record tasks_ok (s : tasks) : Prop := TasksOk {
  to_len : Z.of_nat (length (task_entries s)) = NR_TASKS;
  to_regs : 0 < task_nr_regs s <= NR_TASKS;
  to_cur : 0 <= task_current s < task_nr_regs s;
  to_pids i : (0 < i)%nat -> Z.of_nat i < task_nr_regs s -> t_pid <$> task_entries s !! i = Some (Z.of_nat i)
}.

Lemma task_schedule_cur s : tasks_ok s -> task_current (task_schedule s) = (task_current s + 1) mod task_nr_regs s /\
  task_nr_regs (task_schedule s) = task_nr_regs s /\ task_entries (task_schedule s) = task_entries s.
Proof.
  intros [_ _ Hc _]. unfold task_schedule. destruct (task_current s + 1 =? task_nr_regs s) eqn:E.
  - apply Z.eqb_eq in E. rewrite E, Z_mod_same_full. destruct (task_current s =? INIT_PID) eqn:E2; cbn; [apply Z.eqb_eq in E2; by rewrite E2|done].
  - apply Z.eqb_neq in E. rewrite (proj2 (Z.eqb_neq (task_current s) (task_current s + 1))) by lia. cbn. by rewrite Z.mod_small by lia.
Qed.
Lemma task_schedule_ok s : tasks_ok s -> tasks_ok (task_schedule s).
Proof. intros H. destruct (task_schedule_cur s H) as (Hc & Hn & He). destruct H. split; rewrite ?Hn, ?He, ?Hc; try done. apply Z.mod_pos_bound. lia. Qed.
(** Registering a task takes the next free entry, whose pid is its index, keeps the
    others, and stops the system when the table is full; the table stays well formed. *)
Theorem task_create_ok call priv bottom size s : tasks_ok s -> NR_TASKS < 2 ^ 8 ->
  match task_create_stack call priv bottom size s with
  | Ok (pid, s') => tasks_ok s' /\ pid = task_nr_regs s /\ task_nr_regs s' = pid + 1 /\ task_current s' = task_current s /\
      task_entries s' !! Z.to_nat pid = Some (Task pid size bottom (u64 (bottom + size))) /\
      (forall i, i <> Z.to_nat pid -> task_entries s' !! i = task_entries s !! i)
  | Fault f => f = FBug /\ task_nr_regs s = NR_TASKS
  end.
Proof.
  intros [Hl Hr Hc Hp] Hn. unfold task_create_stack. destruct (task_nr_regs s =? NR_TASKS) eqn:E; [by apply Z.eqb_eq in E|]. apply Z.eqb_neq in E. cbn [bug_on mbind res_mbind].
  destruct (lookup_lt_is_Some_2 (task_entries s) (Z.to_nat (task_nr_regs s))) as [t Ht]; [lia|]. rewrite Ht. cbn [oob mbind res_mbind]. rewrite (wrap_id 8 (task_nr_regs s + 1)) by lia.
  split; [split|]; cbn [task_entries task_nr_regs task_current].
  - by rewrite length_insert.
  - lia.
  - lia.
  - intros i Hi Hlt. destruct (decide (i = Z.to_nat (task_nr_regs s))) as [->|Hne]; [rewrite list_lookup_insert_eq by lia; rewrite Z2Nat.id by lia; done|].
    rewrite list_lookup_insert_ne by done. apply Hp; [done|lia].
  - split_and!; [done|done|done|by apply list_lookup_insert_eq; lia|]. intros i Hi. by apply list_lookup_insert_ne.
Qed.

Fixpoint slices (n : nat) (s : tasks) : tasks := match n with O => s | S n => slices n (task_schedule s) end.
Fixpoint running (n : nat) (s : tasks) : list Z := match n with O => [] | S n => task_current s :: running n (task_schedule s) end.
Lemma running_eq n s : tasks_ok s -> running n s = map (fun i => (task_current s + Z.of_nat i) mod task_nr_regs s) (seq 0 n).
Proof.
  revert s. induction n as [|n IH]; intros s H; [done|]. destruct (task_schedule_cur s H) as (Hc & Hn & _). cbn [running seq map]. rewrite IH by by apply task_schedule_ok.
  rewrite Hc, Hn, <- seq_shift, map_map. destruct H as [_ ? ? _]. f_equal; [rewrite Z.add_0_r; symmetry; apply Z.mod_small; lia|].
  apply map_ext. intros i. rewrite Zplus_mod_idemp_l. f_equal. lia.
Qed.

(** The scheduler is fair: in any window of as many time slices as there are tasks every
    task has exactly one slice, whichever task runs first. *)
Theorem round_robin s pid : tasks_ok s -> 0 <= pid < task_nr_regs s ->
  exists i, (i < Z.to_nat (task_nr_regs s))%nat /\ running (Z.to_nat (task_nr_regs s)) s !! i = Some pid /\
    forall j, running (Z.to_nat (task_nr_regs s)) s !! j = Some pid -> j = i.
Proof.
  intros H Hp. rewrite running_eq by done. destruct H as [_ Hr Hc _]. set (n := task_nr_regs s) in *. set (c := task_current s) in *.
  assert (Hl : forall j, map (fun i => (c + Z.of_nat i) mod n) (seq 0 (Z.to_nat n)) !! j = if decide (j < Z.to_nat n)%nat then Some ((c + Z.of_nat j) mod n) else None).
  { intros j. rewrite list_lookup_fmap. destruct (decide (j < Z.to_nat n)%nat); [by rewrite lookup_seq_lt|by rewrite lookup_seq_ge by lia]. }
  pose proof (Z.div_mod (pid - c) n). pose proof (Z.mod_pos_bound (pid - c) n). exists (Z.to_nat ((pid - c) mod n)). split; [lia|]. split.
  - rewrite Hl, decide_True by lia. rewrite Z2Nat.id, Zplus_mod_idemp_r by lia. replace (c + (pid - c)) with pid by lia. f_equal. by apply Z.mod_small.
  - intros j. rewrite Hl. case_decide; [|done]. intros [= <-]. rewrite Zminus_mod_idemp_l. replace (c + Z.of_nat j - c) with (Z.of_nat j) by lia. rewrite Z.mod_small by lia. lia.
Qed.
(** What [task_create] was given for the task is not what the task gets. *)
Lemma task_create_drops_priv page call priv size s : task_create page call priv size s = task_create page call 0 size s.
Proof. done. Qed.
End tasks.

(** ** Semaphores *)
Definition EINVAL : Z := 22.
Definition ETIME : Z := 62.
Record semaphore : Type := Sem { sem_value : Z; sem_limit : Z }.
Definition sem_init (max ini : Z) : semaphore := Sem ini max.
(** [env] is what happens to the semaphore while the lock is released for the delay. *)
Definition wait_sem (env : semaphore -> semaphore) (s : semaphore) : Z * semaphore := (- ETIME, env s).
(** The loop of [sem_wait] ends after its first turn, since [wait_sem] returns no zero. *)
Definition sem_wait (env : semaphore -> semaphore) (count : Z) (s : semaphore) : Z * semaphore :=
  let '(ret, s) := if sem_value s <=? s32 (count - 1) then wait_sem env s else (0, s) in
  (ret, if negb (ret =? ETIME) then Sem (s32 (sem_value s - count)) (sem_limit s) else s).
Definition sem_signal (count : Z) (s : semaphore) : Z * semaphore :=
  if sem_limit s <? s32 (sem_value s + count) then (- EINVAL, s) else (0, Sem (s32 (sem_value s + count)) (sem_limit s)).

(** A wait for [count] units takes them when they are there.  When they are not, it
    delays, reports the time-out, and takes the units all the same: [sem_wait] compares with
    ETIME, [wait_sem] returns -ETIME.  A signal adds its units unless that exceeds the limit. *)
Theorem sem_ops env count s : 0 < count < 2 ^ 30 -> - 2 ^ 30 < sem_value s -> sem_value s <= sem_limit s < 2 ^ 30 -> - 2 ^ 30 < sem_value (env s) < 2 ^ 30 ->
  sem_wait env count s = (if bool_decide (count <= sem_value s) then (0, Sem (sem_value s - count) (sem_limit s))
                          else (- ETIME, Sem (sem_value (env s) - count) (sem_limit (env s)))) /\
  sem_signal count s = (if bool_decide (sem_value s + count <= sem_limit s) then (0, Sem (sem_value s + count) (sem_limit s)) else (- EINVAL, s)).
Proof.
  intros Hc Hv Hl He. unfold sem_wait, wait_sem, sem_signal. rewrite !(swrap_id 32 (count - 1)), (swrap_id 32 (sem_value s + count)) by lia. split; case_bool_decide.
  - rewrite (proj2 (Z.leb_gt _ _)) by lia. cbn. by rewrite swrap_id by lia.
  - rewrite (proj2 (Z.leb_le _ _)) by lia. cbn -[swrap]. by rewrite swrap_id by lia.
  - by rewrite (proj2 (Z.ltb_ge _ _)) by lia.
  - by rewrite (proj2 (Z.ltb_lt _ _)) by lia.
Qed.
(** A mutex that a context gave up waiting for is lost after the owner releases it. *)
Example sem_timeout_leaks : let s := (sem_wait id 1 (sem_init 1 1)).2 in let s := (sem_wait id 1 s).2 in let s := (sem_signal 1 s).2 in
  s = Sem 0 1 /\ (sem_wait id 1 s).1 = - ETIME.
Proof. by vm_compute. Qed.

(** ** Examples *)
Definition ex_tasks : tasks := Tasks [Task 0 0 0 0; Task 1 0 0 0; Task 2 0 0 0; Task 0 0 0 0] 3 1 [].
Lemma ex_tasks_ok : tasks_ok 4 ex_tasks.
Proof. split; [done|cbn; lia|cbn; lia|]. intros [|[|[|i]]] ? Hi; [lia|done|done|cbn in Hi; lia]. Qed.
Lemma round_robin_witness : exists i, (i < 3)%nat /\ running 3 ex_tasks !! i = Some 0 /\ forall j, running 3 ex_tasks !! j = Some 0 -> j = i.
Proof. apply (round_robin 4 ex_tasks 0 ex_tasks_ok). cbn. lia. Defined.
Lemma task_create_ok_witness : exists s', task_create_stack 4 7 9 0x1000 0x800 ex_tasks = Ok (3, s') /\ tasks_ok 4 s'.
Proof.
  pose proof (task_create_ok 4 7 9 0x1000 0x800 ex_tasks ex_tasks_ok ltac:(lia)) as H. destruct (task_create_stack _ _ _ _ _ ex_tasks) as [[pid s']|f] eqn:E; [|vm_compute in E; discriminate].
  destruct H as (Hok & Hp & _). exists s'. split; [rewrite Hp; reflexivity|exact Hok].
Defined.
Lemma sem_ops_witness : sem_wait id 2 (Sem 1 4) = (- ETIME, Sem (-1) 4) /\ sem_signal 2 (Sem 1 4) = (0, Sem 3 4).
Proof. apply (sem_ops id 2 (Sem 1 4)); cbn; lia. Defined.
