(* ===== verification/Usbd.v ===== *)
(** * USB device stack: endpoints, requests and transfers

    src/kernel/usb/usb_dev.c, the endpoint engine: an interface driver submits a request on
    an endpoint, the controller's interrupts move it packet by packet through the driver's
    handler [iocb], which is run again from its start for every packet and whose reads and
    writes skip the bytes that earlier packets have moved ([iter] against [req_cur]).

    The configuration is the one of the controllers of the tree with one buffer per endpoint
    (no CONFIG_USBD_ENDP_DUPLEX), asynchronous transfers (CONFIG_USBD_XFR_ASYNC), polling by
    the timer, 8-bit [utb_size_t] and 16-bit [urb_size_t]; CONFIG_USBD_XFR_SYNC,
    CONFIG_USBD_XFR_ASYNC_TXAVAL and CONFIG_ARCH_HAS_USBD_ENDP_CSO are fields of [UsbdCfg].  The controller (the functions
    [usbd_hw_*] of target/usb_dev.h's driver) is the class [UsbdHw]; what such a function asks
    of the stack is passed to it as a [view].  The handlers of endpoints are fields of
    [usbd_endpoint], pointers to such structures are numbers.  Debug output is left out. *)
From S2P Require Import Prelude MulDiv.

(** ** Constants (include/target/usb.h, usb_dev.h) *)
Definition USB_DIR_OUT : Z := 0.
Definition USB_DIR_IN : Z := 1.
Definition USB_EID_DEFAULT : Z := 0.
Definition USB_ADDR2EID (addr : Z) : Z := addr &&& 0x0F.
Definition USB_ADDR2DIR (addr : Z) : Z := (addr &&& 0x80) >>> 7.
Definition USB_DIR2ADDR (dir : Z) : Z := u8 (dir <<< 7).
Definition USB_ENDPADDR (dir eid : Z) : Z := u8 (USB_DIR2ADDR dir ||| eid).
Definition USB_ADDR (dir eid : Z) : Z := eid.
Definition USB_ENDP_CONTROL : Z := 0.
Definition USB_ENDP_ISOCHRONOUS : Z := 1.
Definition USB_ENDP_BULK : Z := 2.
Definition USB_ENDP_INTERRUPT : Z := 3.
Definition USB_ENDP_INVALID : Z := 4.
Definition USBD_ATTR2DIR (attrs : Z) : Z := USB_ADDR2DIR attrs.
Definition USBD_ATTR2TYPE (attrs : Z) : Z := attrs &&& 0x03.
Definition USB_STATE_ATTACHED : Z := 0.
Definition USB_STATE_SUSPENDED : Z := 2.
Definition USB_STATE_DEFAULT : Z := 3.
Definition USB_STATE_ADDRESS : Z := 4.
Definition USB_STATE_CONFIGURED : Z := 5.
Definition USBD_CTRL_STAGE_MASK : Z := 0x03.
Definition USBD_CTRL_STAGE_SETUP : Z := 0.
Definition USBD_CTRL_STAGE_DATA : Z := 1.
Definition USBD_CTRL_STAGE_STATUS : Z := 2.
Definition USBD_REQ_FLAG_MASK : Z := 0xF0.
Definition USBD_REQ_FLAG_SOFT : Z := 0x10.
Definition USBD_REQ_FLAG_HARD : Z := 0x20.
Definition USBD_REQ_FLAG_ASYNC : Z := 0x40.
Definition USBD_REQ_FLAG_SYNC : Z := 0x80.
Definition USBD_ENDP_FLAG_HALT : Z := 0x04.

(** ** Data *)
Record usb_transfer : Type := Xfr { req_all : Z; req_cur : Z; xfr_all : Z; xfr_cur : Z; iter : Z }.
Record usb_ctlsetup : Type := Setup { bmRequestType : Z; bRequest : Z; wValue : Z; wIndex : Z; wLength : Z }.
Definition USB_SETUP2DIR (req : Z) : Z := USB_ADDR2DIR req.
Definition USB_SETUP2TYPE (req : Z) : Z := req &&& 0x60.
Definition USB_SETUP2RECP (req : Z) : Z := req &&& 0x1F.

(** What a controller's driver asks of the stack: the selected endpoint, its type and
    direction, the direction of the request, the stage of the control pipe, whether the
    control pipe is in (or without a data stage just after) the SETUP stage, and whether
    the transfer is synchronous. *)
Record view : Type := View {
  v_endp : Z; v_type : Z; v_edir : Z; v_dir : Z; v_stage : Z; v_staging : bool; v_sync : bool }.

(** The controller.  [usbd_hw_transfer_open] returns the size it passes to
    [usbd_transfer_submit], if it does. *)
Class UsbdHw (hw : Type) : Type := {
  usbd_hw_endp_size : Z -> Z;
  usbd_hw_endp_caps : Z -> Z -> bool;
  usbd_hw_endp_select : Z -> hw -> hw;
  usbd_hw_endp_enable : view -> hw -> hw;
  usbd_hw_endp_halt : view -> hw -> hw;
  usbd_hw_endp_unhalt : view -> hw -> hw;
  usbd_hw_read_byte : hw -> res (Z * hw);
  usbd_hw_write_byte : Z -> hw -> res hw;
  usbd_hw_transfer_open : view -> hw -> res (option Z * hw);
  usbd_hw_transfer_close : view -> hw -> res hw;
  usbd_hw_request_open : view -> hw -> hw;
  usbd_hw_request_close : view -> hw -> hw;
  usbd_hw_request_reset : view -> hw -> hw;
  usbd_hw_set_address : Z -> hw -> hw;
  usbd_hw_set_config : Z -> hw -> hw;
  usbd_hw_pm_suspend : hw -> hw;
  usbd_hw_pm_resume : hw -> hw
}.
Class UsbdCfg : Type := {
  NR_USBD_ENDPS : Z; NR_USBD_INTFS : Z;
  cfg_sync : bool; (* CONFIG_USBD_XFR_SYNC *)
  cfg_txaval : bool; (* CONFIG_USBD_XFR_ASYNC_TXAVAL *)
  cfg_cso : bool (* CONFIG_ARCH_HAS_USBD_ENDP_CSO *)
}.

(** The state of the stack; [usb_wake] is the pending wake-up of the USB bottom half, [user]
    the static variables of the interface drivers. *)
Record usbd (hw U : Type) : Type := Usbd {
  usbd_endp : Z;
  usb_transfers : list usb_transfer;
  usbd_endp_ctrls : list Z;
  usbd_endpoints : list nat;
  usbd_endp_regs : Z;
  usbd_endp_zlps : Z;
  usbd_ctrl_setup : usb_ctlsetup;
  usbd_interfaces : list nat;
  usbd_nr_intfs : Z;
  usbd_address : Z;
  usbd_config : Z;
  usbd_state_resume : Z;
  usbd_state : Z;
  usb_wake : bool;
  hwst : hw;
  user : U
}.
Arguments Usbd {hw U}.
Arguments usbd_endp {hw U}. Arguments usb_transfers {hw U}. Arguments usbd_endp_ctrls {hw U}.
Arguments usbd_endpoints {hw U}. Arguments usbd_endp_regs {hw U}. Arguments usbd_endp_zlps {hw U}.
Arguments usbd_ctrl_setup {hw U}. Arguments usbd_interfaces {hw U}. Arguments usbd_nr_intfs {hw U}.
Arguments usbd_address {hw U}. Arguments usbd_config {hw U}. Arguments usbd_state_resume {hw U}.
Arguments usbd_state {hw U}. Arguments usb_wake {hw U}. Arguments hwst {hw U}. Arguments user {hw U}.

(** ** The monad of the stack: a state and the faults of C code *)
Section monad.
Context {S : Type}.
Definition stm (A : Type) : Type := S -> res (A * S).
Definition st_ret {A} (a : A) : stm A := fun s => Ok (a, s).
Definition st_bind {A B} (k : A -> stm B) (m : stm A) : stm B := fun s =>
  match m s with Ok (a, s') => k a s' | Fault f => Fault f end.
Definition gets {A} (f : S -> A) : stm A := fun s => Ok (f s, s).
Definition getr {A} (f : S -> res A) : stm A := fun s => match f s with Ok a => Ok (a, s) | Fault e => Fault e end.
Definition modify (f : S -> S) : stm unit := fun s => Ok (tt, f s).
Definition bugif (c : bool) : stm unit := fun s => if c then Fault FBug else Ok (tt, s).
Definition when_ (c : bool) (m : stm unit) : stm unit := if c then m else st_ret tt.
(** What a run promises: it returns and its result satisfies [Q]. *)
Definition runs {A} (m : stm A) (s : S) (Q : A -> S -> Prop) : Prop :=
  match m s with Ok (a, s') => Q a s' | Fault _ => False end.
End monad.
#[global] Arguments stm : clear implicits.
#[export] Instance stm_ret S : MRet (stm S) := @st_ret S.
#[export] Instance stm_bind S : MBind (stm S) := @st_bind S.

Section engine.
Context {hw U : Type} {Hw : UsbdHw hw} {Cfg : UsbdCfg}.
Abbreviation st := (usbd hw U).
Abbreviation usb := (stm st).

(** ** Fields of the state *)
Definition set_endp (a : Z) (s : st) : st :=
  Usbd a (usb_transfers s) (usbd_endp_ctrls s) (usbd_endpoints s) (usbd_endp_regs s) (usbd_endp_zlps s) (usbd_ctrl_setup s) (usbd_interfaces s)
    (usbd_nr_intfs s) (usbd_address s) (usbd_config s) (usbd_state_resume s) (usbd_state s) (usb_wake s) (hwst s) (user s).
Definition set_xfrs (l : list usb_transfer) (s : st) : st :=
  Usbd (usbd_endp s) l (usbd_endp_ctrls s) (usbd_endpoints s) (usbd_endp_regs s) (usbd_endp_zlps s) (usbd_ctrl_setup s) (usbd_interfaces s)
    (usbd_nr_intfs s) (usbd_address s) (usbd_config s) (usbd_state_resume s) (usbd_state s) (usb_wake s) (hwst s) (user s).
Definition set_ctrls (l : list Z) (s : st) : st :=
  Usbd (usbd_endp s) (usb_transfers s) l (usbd_endpoints s) (usbd_endp_regs s) (usbd_endp_zlps s) (usbd_ctrl_setup s) (usbd_interfaces s)
    (usbd_nr_intfs s) (usbd_address s) (usbd_config s) (usbd_state_resume s) (usbd_state s) (usb_wake s) (hwst s) (user s).
Definition set_regs (l : list nat) (r z : Z) (s : st) : st :=
  Usbd (usbd_endp s) (usb_transfers s) (usbd_endp_ctrls s) l r z (usbd_ctrl_setup s) (usbd_interfaces s)
    (usbd_nr_intfs s) (usbd_address s) (usbd_config s) (usbd_state_resume s) (usbd_state s) (usb_wake s) (hwst s) (user s).
Definition set_setup (c : usb_ctlsetup) (s : st) : st :=
  Usbd (usbd_endp s) (usb_transfers s) (usbd_endp_ctrls s) (usbd_endpoints s) (usbd_endp_regs s) (usbd_endp_zlps s) c (usbd_interfaces s)
    (usbd_nr_intfs s) (usbd_address s) (usbd_config s) (usbd_state_resume s) (usbd_state s) (usb_wake s) (hwst s) (user s).
Definition set_intfs (l : list nat) (n : Z) (s : st) : st :=
  Usbd (usbd_endp s) (usb_transfers s) (usbd_endp_ctrls s) (usbd_endpoints s) (usbd_endp_regs s) (usbd_endp_zlps s) (usbd_ctrl_setup s) l
    n (usbd_address s) (usbd_config s) (usbd_state_resume s) (usbd_state s) (usb_wake s) (hwst s) (user s).
Definition set_address (a : Z) (s : st) : st :=
  Usbd (usbd_endp s) (usb_transfers s) (usbd_endp_ctrls s) (usbd_endpoints s) (usbd_endp_regs s) (usbd_endp_zlps s) (usbd_ctrl_setup s) (usbd_interfaces s)
    (usbd_nr_intfs s) a (usbd_config s) (usbd_state_resume s) (usbd_state s) (usb_wake s) (hwst s) (user s).
Definition set_config (c : Z) (s : st) : st :=
  Usbd (usbd_endp s) (usb_transfers s) (usbd_endp_ctrls s) (usbd_endpoints s) (usbd_endp_regs s) (usbd_endp_zlps s) (usbd_ctrl_setup s) (usbd_interfaces s)
    (usbd_nr_intfs s) (usbd_address s) c (usbd_state_resume s) (usbd_state s) (usb_wake s) (hwst s) (user s).
Definition set_state (r x : Z) (s : st) : st :=
  Usbd (usbd_endp s) (usb_transfers s) (usbd_endp_ctrls s) (usbd_endpoints s) (usbd_endp_regs s) (usbd_endp_zlps s) (usbd_ctrl_setup s) (usbd_interfaces s)
    (usbd_nr_intfs s) (usbd_address s) (usbd_config s) r x (usb_wake s) (hwst s) (user s).
Definition set_wake (w : bool) (s : st) : st :=
  Usbd (usbd_endp s) (usb_transfers s) (usbd_endp_ctrls s) (usbd_endpoints s) (usbd_endp_regs s) (usbd_endp_zlps s) (usbd_ctrl_setup s) (usbd_interfaces s)
    (usbd_nr_intfs s) (usbd_address s) (usbd_config s) (usbd_state_resume s) (usbd_state s) w (hwst s) (user s).
Definition set_hw (h : hw) (s : st) : st :=
  Usbd (usbd_endp s) (usb_transfers s) (usbd_endp_ctrls s) (usbd_endpoints s) (usbd_endp_regs s) (usbd_endp_zlps s) (usbd_ctrl_setup s) (usbd_interfaces s)
    (usbd_nr_intfs s) (usbd_address s) (usbd_config s) (usbd_state_resume s) (usbd_state s) (usb_wake s) h (user s).
Definition set_user (u : U) (s : st) : st :=
  Usbd (usbd_endp s) (usb_transfers s) (usbd_endp_ctrls s) (usbd_endpoints s) (usbd_endp_regs s) (usbd_endp_zlps s) (usbd_ctrl_setup s) (usbd_interfaces s)
    (usbd_nr_intfs s) (usbd_address s) (usbd_config s) (usbd_state_resume s) (usbd_state s) (usb_wake s) (hwst s) u.

(** An endpoint as its driver declares it. *)
Record usbd_endpoint : Type := Endpoint {
  attrs : Z; interval : Z; poll : option (usb unit); iocb : option (usb unit); done_cb : option (usb unit) }.
(** A call through a pointer the code checks first. *)
Definition call_cb (o : option (usb unit)) : usb unit := match o with Some m => m | None => bugif true end.

(** The structures the pointers of [usbd_endpoints] lead to. *)
Context (ep : nat -> usbd_endpoint).

(** ** The selected endpoint *)
Definition idx_of (addr : Z) : nat := Z.to_nat (USB_ADDR2EID addr).
Definition usbd_endp_func_by_addr (addr : Z) : usb usbd_endpoint := getr (fun s => p ← oob (usbd_endpoints s !! idx_of addr); Ok (ep p)).
Definition usbd_endp_xfr_by_save : usb usb_transfer := getr (fun s => oob (usb_transfers s !! idx_of (usbd_endp s))).
Definition usbd_endp_ctrl_by_save : usb Z := getr (fun s => oob (usbd_endp_ctrls s !! idx_of (usbd_endp s))).
Definition usbd_endp_func_by_save : usb usbd_endpoint := a ← gets usbd_endp; usbd_endp_func_by_addr a.
Definition put_xfr (f : usb_transfer -> usb_transfer) : usb unit :=
  x ← usbd_endp_xfr_by_save; modify (fun s => set_xfrs (<[idx_of (usbd_endp s) := f x]> (usb_transfers s)) s).
Definition put_ctrl (f : Z -> Z) : usb unit :=
  c ← usbd_endp_ctrl_by_save; modify (fun s => set_ctrls (<[idx_of (usbd_endp s) := f c]> (usbd_endp_ctrls s)) s).
Definition raise_bits (bits i : Z) : Z := i ||| bits.
Definition unraise_bits (bits i : Z) : Z := u8 (i &&& Z.lnot bits).
Definition bits_raised (i bits : Z) : bool := (i &&& bits) =? bits.
Definition set_req_all (v : Z) (x : usb_transfer) := Xfr v (req_cur x) (xfr_all x) (xfr_cur x) (iter x).
Definition set_xfr_all (v : Z) (x : usb_transfer) := Xfr (req_all x) (req_cur x) v (xfr_cur x) (iter x).
Definition set_xfr_cur (v : Z) (x : usb_transfer) := Xfr (req_all x) (req_cur x) (xfr_all x) v (iter x).
Definition set_iter (v : Z) (x : usb_transfer) := Xfr (req_all x) (req_cur x) (xfr_all x) (xfr_cur x) v.

Definition usbd_addr_restore (addr : Z) : usb unit :=
  modify (fun s => set_hw (usbd_hw_endp_select addr (hwst s)) (set_endp addr s)).
Definition usbd_addr_save (addr : Z) : usb Z := saddr ← gets usbd_endp; usbd_addr_restore addr;; mret saddr.
Definition usbd_endpoint_claimed (addr : Z) : usb bool := gets (fun s => Z.testbit (usbd_endp_regs s) (USB_ADDR2EID addr)).
Definition usbd_endp_zlp_test : usb bool := gets (fun s => Z.testbit (usbd_endp_zlps s) (USB_ADDR2EID (usbd_endp s))).
Definition usbd_endpoint_attrs_addr (addr : Z) : usb Z := c ← usbd_endp_func_by_addr addr; mret (attrs c).
Definition usbd_endpoint_interval_addr (addr : Z) : usb Z := c ← usbd_endp_func_by_addr addr; mret (u8 (interval c)).
Definition usbd_endpoint_type_addr (addr : Z) : usb Z :=
  if USB_ADDR2EID addr <? NR_USBD_ENDPS then a ← usbd_endpoint_attrs_addr addr; mret (USBD_ATTR2TYPE a) else mret USB_ENDP_INVALID.
Definition usbd_endpoint_dir_addr (addr : Z) : usb Z :=
  if USB_ADDR2EID addr <? NR_USBD_ENDPS then a ← usbd_endpoint_attrs_addr addr; mret (USBD_ATTR2DIR a) else mret USB_DIR_OUT.
Definition usbd_endpoint_type : usb Z := a ← gets usbd_endp; usbd_endpoint_type_addr a.
Definition usbd_endpoint_dir : usb Z := a ← gets usbd_endp; usbd_endpoint_dir_addr a.
Definition usbd_endpoint_size : usb Z := gets (fun s => usbd_hw_endp_size (usbd_endp s)).

(** ** The control request *)
Definition usbd_control_setup_dir : usb Z :=
  gets (fun s => if USB_ADDR2EID (usbd_endp s) <? NR_USBD_ENDPS then USB_SETUP2DIR (bmRequestType (usbd_ctrl_setup s)) else USB_DIR_OUT).
Definition usbd_control_request_type : usb Z := gets (fun s => bRequest (usbd_ctrl_setup s)).
Definition usbd_control_request_value : usb Z := gets (fun s => wValue (usbd_ctrl_setup s)).
Definition usbd_control_request_index : usb Z := gets (fun s => wIndex (usbd_ctrl_setup s)).
Definition usbd_control_request_length : usb Z := gets (fun s => wLength (usbd_ctrl_setup s)).
Definition usbd_control_request_addr : usb Z := w ← usbd_control_request_index; mret (LOBYTE w).
Definition usbd_control_setup_type : usb Z := gets (fun s => USB_SETUP2TYPE (bmRequestType (usbd_ctrl_setup s))).
Definition usbd_control_setup_recp : usb Z := gets (fun s => USB_SETUP2RECP (bmRequestType (usbd_ctrl_setup s))).
Definition usbd_state_get : usb Z := gets usbd_state.
Definition usbd_state_set (state : Z) : usb unit := modify (fun s => set_state (usbd_state_resume s) state s).
Definition usbd_control_get_stage : usb Z := c ← usbd_endp_ctrl_by_save; mret (c &&& USBD_CTRL_STAGE_MASK).
Definition usbd_control_setup_staging : usb bool :=
  t ← usbd_endpoint_type; stage ← usbd_control_get_stage; len ← usbd_control_request_length;
  mret (bool_decide (t = USB_ENDP_CONTROL) &&
    (bool_decide (stage = USBD_CTRL_STAGE_SETUP) || (bool_decide (len = 0) && bool_decide (stage = USBD_CTRL_STAGE_DATA)))).

(** ** Progress of the request and of the packet *)
Definition usbd_request_handled : usb Z := x ← usbd_endp_xfr_by_save; mret (req_cur x).
Definition usbd_request_unhandled : usb Z := x ← usbd_endp_xfr_by_save; mret (u16 (req_all x - req_cur x)).
Definition usbd_transfer_handled : usb Z := x ← usbd_endp_xfr_by_save; mret (xfr_cur x).
Definition usbd_transfer_unhandled : usb Z := x ← usbd_endp_xfr_by_save; mret (u8 (xfr_all x - xfr_cur x)).
Definition usbd_request_dir : usb Z :=
  t ← usbd_endpoint_type;
  if t =? USB_ENDP_CONTROL then
    stage ← usbd_control_get_stage;
    if stage =? USBD_CTRL_STAGE_SETUP then mret USB_DIR_OUT
    else if stage =? USBD_CTRL_STAGE_DATA then usbd_control_setup_dir
    else if stage =? USBD_CTRL_STAGE_STATUS then
      d ← usbd_control_setup_dir; mret (if d =? USB_DIR_OUT then USB_DIR_IN else USB_DIR_OUT)
    else mret USB_DIR_OUT
  else usbd_endpoint_dir.

(** ** Flags of the endpoint

    Without CONFIG_USBD_XFR_SYNC no code raises the flag SYNC, which then reads as the
    constant [false] that [usbd_request_syncing] is in that build. *)
Definition flagged (bits : Z) : usb bool := c ← usbd_endp_ctrl_by_save; mret (bits_raised c bits).
Definition usbd_request_syncing : usb bool := flagged USBD_REQ_FLAG_SYNC.
Definition usbd_request_set_sync : usb unit := if cfg_sync then put_ctrl (raise_bits USBD_REQ_FLAG_SYNC) else mret tt.
Definition usbd_request_clear_sync : usb unit := if cfg_sync then put_ctrl (unraise_bits USBD_REQ_FLAG_SYNC) else mret tt.
Definition usbd_request_asyncing : usb bool := flagged USBD_REQ_FLAG_ASYNC.
Definition usbd_request_pending : usb bool := flagged USBD_REQ_FLAG_SOFT.
Definition usbd_request_set_soft : usb unit := put_ctrl (raise_bits USBD_REQ_FLAG_SOFT).
Definition usbd_request_clear_soft : usb unit := put_ctrl (unraise_bits USBD_REQ_FLAG_SOFT).
Definition usbd_request_running : usb bool := flagged USBD_REQ_FLAG_HARD.
Definition usbd_request_set_hard : usb unit := put_ctrl (raise_bits USBD_REQ_FLAG_HARD).
Definition usbd_request_clear_hard : usb unit := put_ctrl (unraise_bits USBD_REQ_FLAG_HARD).
Definition usbd_endpoint_halting : usb bool := flagged USBD_ENDP_FLAG_HALT.
Definition usbd_endpoint_stall : usb unit := put_ctrl (raise_bits USBD_ENDP_FLAG_HALT).
Definition usbd_request_halting : usb bool :=
  t ← usbd_endpoint_type;
  if t =? USB_ENDP_ISOCHRONOUS then mret false
  else stage ← usbd_control_get_stage;
    if (t =? USB_ENDP_CONTROL) && (stage =? USBD_CTRL_STAGE_SETUP) then mret false else usbd_endpoint_halting.

(** ** Calls of the controller *)
Definition the_view : usb view :=
  e ← gets usbd_endp; t ← usbd_endpoint_type; ed ← usbd_endpoint_dir; d ← usbd_request_dir;
  stage ← usbd_control_get_stage; sg ← usbd_control_setup_staging; sy ← usbd_request_syncing;
  mret (View e t ed d stage sg sy).
Definition hw_call (f : view -> hw -> hw) : usb unit := v ← the_view; modify (fun s => set_hw (f v (hwst s)) s).
Definition hw_transfer_close : usb unit :=
  v ← the_view; h ← getr (fun s => usbd_hw_transfer_close v (hwst s)); modify (set_hw h).
Definition usbd_transfer_submit (bytes : Z) : usb unit := put_xfr (set_xfr_all (u8 bytes)).
Definition hw_transfer_open : usb unit :=
  v ← the_view; r ← getr (fun s => usbd_hw_transfer_open v (hwst s));
  modify (set_hw r.2);; match r.1 with Some n => usbd_transfer_submit n | None => mret tt end.
Definition hw_write_byte (b : Z) : usb unit := h ← getr (fun s => usbd_hw_write_byte b (hwst s)); modify (set_hw h).
Definition hw_read_byte : usb Z := r ← getr (fun s => usbd_hw_read_byte (hwst s)); modify (set_hw r.2);; mret r.1.

(** ** Packets *)
Definition usbd_transfer_limit : usb unit :=
  d ← usbd_request_dir;
  if d =? USB_DIR_IN then
    sz ← usbd_endpoint_size; put_xfr (set_xfr_all (u8 sz));;
    x ← usbd_endp_xfr_by_save; un ← usbd_request_unhandled; h ← usbd_transfer_handled;
    if u16 (un - h) <? xfr_all x then put_xfr (set_xfr_all (u8 (un - h))) else mret tt
  else mret tt.
Definition usbd_transfer_reset : usb unit := put_xfr (set_xfr_cur 0);; usbd_transfer_limit;; hw_transfer_open.
Definition usbd_iter_reset : usb unit := put_xfr (set_iter 0).
Definition usbd_iter_accel : usb unit := put_xfr (fun x => set_iter (req_cur x) x).
Definition usbd_transfer_partial : usb bool := h ← usbd_transfer_handled; sz ← usbd_endpoint_size; mret (h <? sz).
Definition usbd_transfer_last : usb bool :=
  z ← usbd_endp_zlp_test;
  if z : bool then usbd_transfer_partial else un ← usbd_request_unhandled; mret (un =? 0).
(** A byte of the packet has been moved. *)
Definition advance (x : usb_transfer) : usb_transfer := Xfr (req_all x) (u16 (req_cur x + 1)) (xfr_all x) (u8 (xfr_cur x + 1)) (iter x).
Definition close_if_full : usb unit := h ← usbd_transfer_handled; sz ← usbd_endpoint_size; if h =? sz then hw_transfer_close else mret tt.
Definition reset_if_full : usb unit := h ← usbd_transfer_handled; sz ← usbd_endpoint_size; if h =? sz then usbd_transfer_reset else mret tt.
Definition usbd_inb_sync (byte : Z) : usb unit :=
  reset_if_full;;
  un ← usbd_request_unhandled; x ← usbd_endp_xfr_by_save;
  (if (0 <? un) && (req_cur x =? iter x) then hw_write_byte byte;; put_xfr advance;; close_if_full else mret tt);;
  put_xfr (fun x => set_iter (u16 (iter x + 1)) x).
Definition usbd_outb_sync : usb Z :=
  reset_if_full;;
  un ← usbd_request_unhandled; x ← usbd_endp_xfr_by_save;
  newval ← (if (0 <? un) && (req_cur x =? iter x) then v ← hw_read_byte; put_xfr advance;; close_if_full;; mret v else mret 0);
  put_xfr (fun x => set_iter (u16 (iter x + 1)) x);; mret newval.
Definition usbd_inb_async (byte : Z) : usb unit :=
  un ← usbd_transfer_unhandled; x ← usbd_endp_xfr_by_save;
  (if (0 <? un) && (req_cur x =? iter x) then hw_write_byte byte;; put_xfr advance;; close_if_full else mret tt);;
  put_xfr (fun x => set_iter (u16 (iter x + 1)) x).
Definition usbd_outb_async (byte : Z) : usb Z :=
  un ← usbd_transfer_unhandled; x ← usbd_endp_xfr_by_save;
  newval ← (if (0 <? un) && (req_cur x =? iter x) then v ← hw_read_byte; put_xfr advance;; close_if_full;; mret v else mret byte);
  put_xfr (fun x => set_iter (u16 (iter x + 1)) x);; mret newval.
Definition usbd_inb (byte : Z) : usb unit := s ← usbd_request_syncing; if s : bool then usbd_inb_sync byte else usbd_inb_async byte.
Definition usbd_inw (word : Z) : usb unit := usbd_inb (LOBYTE word);; usbd_inb (HIBYTE word).
Definition usbd_inl (dword : Z) : usb unit := usbd_inw (LOWORD dword);; usbd_inw (HIWORD dword).
Definition usbd_outb (byte : Z) : usb Z := s ← usbd_request_syncing; if s : bool then usbd_outb_sync else usbd_outb_async byte.
Definition usbd_outw (word : Z) : usb Z := lo ← usbd_outb (LOBYTE word); hi ← usbd_outb (HIBYTE word); mret (lo ||| (hi <<< 8)).
Definition usbd_outl (dword : Z) : usb Z := lo ← usbd_outw (LOWORD dword); hi ← usbd_outw (HIWORD dword); mret (lo ||| (hi <<< 16)).

(** The bytes of the packet the handler left unread are read and dropped.  Each turn
    advances [iter] by one, so that 2^17 turns bound the loop if it ends at all. *)
Fixpoint reap_loop (fuel : nat) (reap : Z) : usb unit :=
  match fuel with
  | O => fun _ => Fault FHang
  | S fuel => un ← usbd_transfer_unhandled; if 0 <? un then r ← usbd_outb reap; reap_loop fuel r else mret tt
  end.
Definition REAP_FUEL : nat := Z.to_nat 0x20000.
Definition usbd_request_reap : usb unit := d ← usbd_request_dir; if d =? USB_DIR_OUT then reap_loop REAP_FUEL 0 else mret tt.

(** ** Requests *)
Definition usbd_request_poll : usb unit := c ← usbd_endp_func_by_save; call_cb (poll c).
Definition usbd_request_reset : usb unit :=
  put_ctrl (unraise_bits USBD_REQ_FLAG_MASK);; put_xfr (fun x => Xfr 0 0 0 0 (iter x));; usbd_request_poll.
Definition usbd_request_limit (bytes : Z) : usb unit := put_xfr (set_req_all bytes);; usbd_transfer_limit.
Definition usbd_request_commit (length : Z) : usb unit := p ← usbd_request_pending; bugif (negb p);; usbd_request_limit length.
Definition usbd_request_set_async : usb unit :=
  put_ctrl (raise_bits USBD_REQ_FLAG_ASYNC);; hw_call usbd_hw_request_close;; modify (set_wake true).
Definition usbd_request_clear_async : usb unit := put_ctrl (unraise_bits USBD_REQ_FLAG_ASYNC);; hw_call usbd_hw_request_open.
Definition usbd_request_begin : usb unit :=
  if cfg_txaval then d ← usbd_request_dir; if d =? USB_DIR_IN then usbd_request_set_async else mret tt else mret tt.
Definition usbd_request_open : usb unit := hw_call usbd_hw_request_open;; usbd_request_begin.
Definition usbd_request_submit (addr length : Z) : usb bool :=
  saddr ← usbd_addr_save addr;
  p ← usbd_request_pending; h ← usbd_request_halting;
  result ← (if (p || h)%bool then mret false
    else
      e ← gets usbd_endp; state ← usbd_state_get;
      if negb (USB_ADDR2EID e =? USB_EID_DEFAULT) && negb (state =? USB_STATE_CONFIGURED) then mret false
      else usbd_request_limit length;; usbd_request_set_soft;; usbd_request_open;; mret true);
  usbd_addr_restore saddr;; mret result.
Definition usbd_request_discard : usb unit :=
  p ← usbd_request_pending; if p : bool then x ← usbd_endp_xfr_by_save; usbd_request_commit (req_cur x) else mret tt.
Definition usbd_request_discard_addr (addr : Z) : usb unit :=
  saddr ← usbd_addr_save addr; usbd_request_discard;; usbd_addr_restore saddr.
Definition usbd_endpoint_halt : usb unit := usbd_endpoint_stall;; hw_call usbd_hw_endp_halt.
Definition usbd_endpoint_unhalt : usb unit :=
  h ← usbd_endpoint_halting;
  if h : bool then hw_call usbd_hw_endp_unhalt;; hw_call usbd_hw_request_reset;; put_ctrl (unraise_bits USBD_ENDP_FLAG_HALT) else mret tt.

(** ** The end of a handler's run and of a request *)
Definition usbd_request_end : usb unit :=
  halt ← usbd_endpoint_halting;
  if halt : bool then usbd_request_set_async
  else
    part ← usbd_transfer_partial;
    (if part : bool then
       d ← usbd_request_dir; a ← usbd_request_asyncing;
       if ((d =? USB_DIR_IN) || negb a)%bool then hw_transfer_close else mret tt
     else
       sy ← usbd_request_syncing; z ← usbd_endp_zlp_test;
       if (sy && z)%bool then usbd_transfer_reset;; hw_transfer_close else mret tt);;
    l ← usbd_transfer_last;
    if l : bool then
      d ← usbd_request_dir; sy ← usbd_request_syncing;
      if ((d =? USB_DIR_OUT) || sy)%bool then usbd_request_set_async else mret tt
    else mret tt.
Definition usbd_request_close : usb unit :=
  r ← usbd_request_running;
  if r : bool then
    hw_call usbd_hw_request_close;; usbd_request_clear_hard;;
    p ← usbd_request_pending;
    if p : bool then c ← usbd_endp_func_by_save; call_cb (done_cb c);; usbd_request_clear_soft else mret tt
  else mret tt.
Definition __usbd_transfer_data : usb unit :=
  halt ← usbd_request_halting;
  if halt : bool then usbd_endpoint_halt
  else
    usbd_iter_reset;; usbd_transfer_reset;;
    c ← usbd_endp_func_by_save; x ← usbd_endp_xfr_by_save;
    bugif (req_all x <? req_cur x);;
    call_cb (iocb c);; usbd_request_reap;; usbd_request_end.
Definition __usbd_request_init : usb unit := usbd_request_set_hard.
Definition __usbd_request_exit : usb unit := usbd_request_close;; usbd_request_reset.
Definition usbd_transfer_iocb : usb unit :=
  r ← usbd_request_running;
  if negb r then __usbd_request_init;; __usbd_transfer_data
  else h ← usbd_endpoint_halting; l ← usbd_transfer_last;
    if (h || l)%bool then __usbd_request_exit else __usbd_transfer_data.
Definition usbd_transfer_txin : usb unit := usbd_transfer_iocb.
Definition usbd_transfer_rxout : usb unit := usbd_transfer_iocb.
Definition usbd_request_stall : usb unit := usbd_endpoint_stall;; usbd_transfer_iocb.
Definition usbd_async_iocb : usb unit := a ← usbd_request_asyncing; if a : bool then usbd_request_clear_async;; usbd_transfer_iocb else mret tt.
Definition usbd_request_interrupting (dir : Z) : usb bool :=
  e ← gets usbd_endp; c ← usbd_endpoint_claimed e; p ← usbd_request_pending; d ← usbd_request_dir; a ← usbd_request_asyncing;
  mret (c && p && (d =? dir) && negb a).
Definition usbd_request_polling (dir : Z) : usb bool :=
  e ← gets usbd_endp; c ← usbd_endpoint_claimed e; t ← usbd_endpoint_type; d ← usbd_endpoint_dir; state ← usbd_state_get;
  p ← usbd_request_pending;
  mret (c && negb (t =? USB_ENDP_CONTROL) && (d =? dir) && negb (state =? USB_STATE_CONFIGURED) && negb p).

(** ** Bus events of an endpoint

    What the interrupt handlers of the controllers do for an endpoint whose IN packet has
    gone out or whose OUT packet has arrived (for instance [usbd_hw_handle_rxout] and
    [usbd_hw_handle_txin] of mach-at90scr100/usb.c, without the SETUP and STALL cases). *)
Definition irq_txin (addr : Z) : usb unit :=
  saddr ← usbd_addr_save addr; i ← usbd_request_interrupting USB_DIR_IN;
  (if i : bool then usbd_transfer_txin else mret tt);; usbd_addr_restore saddr.
Definition irq_rxout (addr : Z) : usb unit :=
  saddr ← usbd_addr_save addr; i ← usbd_request_interrupting USB_DIR_OUT;
  (if i : bool then usbd_transfer_rxout else mret tt);; usbd_addr_restore saddr.
Definition usbd_async_iocb_addr (addr : Z) : usb unit :=
  saddr ← usbd_addr_save addr; e ← gets usbd_endp; c ← usbd_endpoint_claimed e;
  (if c : bool then usbd_async_iocb else mret tt);; usbd_addr_restore saddr.
(** The loop over the endpoints other than the default one. *)
Fixpoint for_eids (n : nat) (eid : Z) (body : Z -> usb unit) : usb unit :=
  match n with O => mret tt | S n => body eid;; for_eids n (eid + 1) body end.
Definition usbd_async_handler : usb unit :=
  usbd_async_iocb_addr (USB_ADDR USB_DIR_OUT USB_EID_DEFAULT);;
  for_eids (Z.to_nat (NR_USBD_ENDPS - 1)) 1 (fun eid => usbd_async_iocb_addr (USB_ADDR USB_DIR_OUT eid)).
Definition usbd_endpoint_poll : usb unit := p ← usbd_request_pending; if negb p then usbd_request_poll else mret tt.
Definition usbd_endpoint_poll_addr (addr : Z) : usb unit :=
  saddr ← usbd_addr_save addr; e ← gets usbd_endp; c ← usbd_endpoint_claimed e;
  (if c : bool then usbd_endpoint_poll else mret tt);; usbd_addr_restore saddr.
Definition usbd_endpoint_poll_all : usb unit :=
  state ← usbd_state_get;
  if negb (state =? USB_STATE_CONFIGURED) then mret tt
  else for_eids (Z.to_nat (NR_USBD_ENDPS - 1)) 1 (fun eid => usbd_endpoint_poll_addr (USB_ADDR USB_DIR_OUT eid)).

(** ** Claiming endpoints *)
Definition usbd_register_endpoint (addr : Z) (explicit_zlp : bool) (cendp : nat) : usb unit :=
  _ ← getr (fun s => oob (usbd_endpoints s !! idx_of addr));
  modify (fun s => set_regs (<[idx_of addr := cendp]> (usbd_endpoints s)) (Z.setbit (usbd_endp_regs s) (USB_ADDR2EID addr))
    (if explicit_zlp then Z.setbit (usbd_endp_zlps s) (USB_ADDR2EID addr) else usbd_endp_zlps s) s).
Definition usbd_register_control (eid : Z) (cendp : nat) : usb unit :=
  usbd_register_endpoint (USB_ADDR USB_DIR_OUT eid) true cendp;; usbd_register_endpoint (USB_ADDR USB_DIR_IN eid) true cendp.
Fixpoint claim_loop (n : nat) (eid : Z) (explicit_zlp : bool) (cendp : nat) (dir type : Z) : usb Z :=
  match n with
  | O => fun _ => Fault FBug
  | S n =>
      let addr := USB_ENDPADDR dir eid in
      if usbd_hw_endp_caps addr type then
        if type =? USB_ENDP_CONTROL then
          o ← usbd_endpoint_claimed (USB_ADDR USB_DIR_OUT eid); i ← usbd_endpoint_claimed (USB_ADDR USB_DIR_IN eid);
          if negb o && negb i then usbd_register_control eid cendp;; mret (USB_ADDR dir eid)
          else claim_loop n (eid + 1) explicit_zlp cendp dir type
        else
          c ← usbd_endpoint_claimed addr;
          if negb c then usbd_register_endpoint addr explicit_zlp cendp;; mret (USB_ADDR dir eid)
          else claim_loop n (eid + 1) explicit_zlp cendp dir type
      else claim_loop n (eid + 1) explicit_zlp cendp dir type
  end.
Definition usbd_claim_endpoint (explicit_zlp : bool) (cendp : nat) : usb Z :=
  claim_loop (Z.to_nat (NR_USBD_ENDPS - 1)) (USB_EID_DEFAULT + 1) explicit_zlp cendp
    (USBD_ATTR2DIR (attrs (ep cendp))) (USBD_ATTR2TYPE (attrs (ep cendp))).
End engine.
