(* ===== verification/UsbdHal.v ===== *)
(** * USB device stack: what controllers promise, and symbolic execution

    [UsbdHwOk] states what Documentation/usb/usb_dev.txt asks of a controller's driver, by
    five observations: the selected endpoint, the bytes written and not yet handed over, the
    packets handed over, the received packet of an endpoint, and the unread rest of the
    packet opened last.  [at_ep] names the state of the stack by what the engine changes at
    one endpoint; the lemmas evaluate the engine's operations on such states. *)
From S2P Require Import Prelude MulDiv Usbd.

Class UsbdObs (hw : Type) : Type := {
  hw_inv : hw -> Prop;
  hw_sel : hw -> Z;
  hw_tx : hw -> list Z;
  hw_sent : hw -> list (Z * list Z);
  hw_pkt : hw -> Z -> option (list Z);
  hw_rx : hw -> list Z
}.
(** What calls that move no data leave alone. *)
Definition kept {hw : Type} {Obs : UsbdObs hw} (h h' : hw) : Prop :=
  hw_inv h' /\ hw_sel h' = hw_sel h /\ (hw_tx h = [] -> hw_tx h' = []) /\ hw_sent h' = hw_sent h.

Class UsbdHwOk (hw : Type) {Hw : UsbdHw hw} {Obs : UsbdObs hw} {Cfg : UsbdCfg} : Prop := {
  size_ok a : USB_ADDR2EID a < NR_USBD_ENDPS -> 0 < usbd_hw_endp_size a < 2 ^ 8;
  size_eid a : usbd_hw_endp_size (USB_ADDR2EID a) = usbd_hw_endp_size a;
  select_ok a h : hw_inv h -> let h' := usbd_hw_endp_select a h in
    hw_inv h' /\ hw_sel h' = USB_ADDR2EID a /\ hw_tx h' = hw_tx h /\ hw_sent h' = hw_sent h /\ hw_pkt h' = hw_pkt h;
  select_rx a h : hw_inv h -> hw_rx (usbd_hw_endp_select a h) = hw_rx h;
  write_ok b h : hw_inv h -> Z.of_nat (length (hw_tx h)) < usbd_hw_endp_size (hw_sel h) ->
    exists h', usbd_hw_write_byte b h = Ok h' /\
    hw_inv h' /\ hw_sel h' = hw_sel h /\ hw_tx h' = hw_tx h ++ [b] /\ hw_sent h' = hw_sent h;
  open_in_ok v h : hw_inv h -> v_dir v = USB_DIR_IN -> exists h', usbd_hw_transfer_open v h = Ok (None, h') /\
    hw_inv h' /\ hw_sel h' = hw_sel h /\ hw_tx h' = hw_tx h /\ hw_sent h' = hw_sent h;
  close_in_ok v h : hw_inv h -> v_dir v = USB_DIR_IN -> USB_ADDR2EID (v_endp v) = hw_sel h -> exists h', usbd_hw_transfer_close v h = Ok h' /\
    hw_inv h' /\ hw_sel h' = hw_sel h /\ hw_tx h' = [] /\ hw_sent h' = hw_sent h ++ [(hw_sel h, hw_tx h)];
  open_out_ok v h p : hw_inv h -> v_dir v = USB_DIR_OUT -> v_sync v = false -> USB_ADDR2EID (v_endp v) = hw_sel h -> hw_pkt h (hw_sel h) = Some p ->
    (v_type v = USB_ENDP_CONTROL -> v_stage v = USBD_CTRL_STAGE_SETUP -> length p = 8%nat) ->
    (v_type v = USB_ENDP_CONTROL -> v_stage v = USBD_CTRL_STAGE_STATUS -> length p = 0%nat) ->
    exists h', usbd_hw_transfer_open v h = Ok (Some (Z.of_nat (length p)), h') /\
    hw_inv h' /\ hw_sel h' = hw_sel h /\ hw_rx h' = p /\ hw_sent h' = hw_sent h;
  read_ok b r h : hw_inv h -> hw_rx h = b :: r -> exists h', usbd_hw_read_byte h = Ok (b, h') /\
    hw_inv h' /\ hw_sel h' = hw_sel h /\ hw_rx h' = r /\ hw_sent h' = hw_sent h;
  close_out_ok v h : hw_inv h -> v_dir v = USB_DIR_OUT -> exists h', usbd_hw_transfer_close v h = Ok h' /\
    hw_inv h' /\ hw_sel h' = hw_sel h /\ hw_rx h' = hw_rx h /\ hw_sent h' = hw_sent h;
  request_open_ok v h : hw_inv h -> kept h (usbd_hw_request_open v h);
  request_open_tx v h : hw_inv h -> hw_tx (usbd_hw_request_open v h) = [];
  request_close_ok v h : hw_inv h -> kept h (usbd_hw_request_close v h)
}.

(** The address the controller answers to: [usbd_hw_set_address] gives it, and no other call
    changes it. *)
Class UsbdAddr (hw : Type) {Hw : UsbdHw hw} {Obs : UsbdObs hw} : Type := {
  hw_addr : hw -> Z;
  set_address_ok a h : hw_inv h -> kept h (usbd_hw_set_address a h);
  set_address_addr a h : hw_inv h -> hw_addr (usbd_hw_set_address a h) = a;
  select_addr a h : hw_addr (usbd_hw_endp_select a h) = hw_addr h;
  write_addr b h h' : usbd_hw_write_byte b h = Ok h' -> hw_addr h' = hw_addr h;
  read_addr b h h' : usbd_hw_read_byte h = Ok (b, h') -> hw_addr h' = hw_addr h;
  open_addr v r h h' : usbd_hw_transfer_open v h = Ok (r, h') -> hw_addr h' = hw_addr h;
  close_addr v h h' : usbd_hw_transfer_close v h = Ok h' -> hw_addr h' = hw_addr h;
  request_open_addr v h : hw_addr (usbd_hw_request_open v h) = hw_addr h;
  request_close_addr v h : hw_addr (usbd_hw_request_close v h) = hw_addr h
}.
(** So whatever the engine keeps of a controller it keeps of one that has the address [a]:
    the promises of [UsbdHwOk] hold with the address made part of the invariant. *)
Definition with_addr {hw : Type} {Hw : UsbdHw hw} {Obs : UsbdObs hw} {Addr : UsbdAddr hw} (a : Z) : UsbdObs hw := {|
  hw_inv := fun h => hw_inv h /\ hw_addr h = a;
  hw_sel := hw_sel; hw_tx := hw_tx; hw_sent := hw_sent; hw_pkt := hw_pkt; hw_rx := hw_rx
|}.
Lemma with_addr_ok {hw : Type} {Hw : UsbdHw hw} {Obs : UsbdObs hw} {Cfg : UsbdCfg} {HwOk : UsbdHwOk hw} {Addr : UsbdAddr hw} (a : Z) :
  @UsbdHwOk hw Hw (with_addr a) Cfg.
Proof.
  constructor; cbn [hw_inv hw_sel hw_tx hw_sent hw_pkt hw_rx with_addr].
  - apply size_ok.
  - apply size_eid.
  - intros e h [Hi Ha]. destruct (select_ok e h Hi) as (? & ? & ? & ? & ?). by rewrite select_addr.
  - intros e h [Hi _]. by apply select_rx.
  - intros b h [Hi Ha] Hl. destruct (write_ok b h Hi Hl) as (h' & E & Hr'). exists h'. pose proof (write_addr _ _ _ E). naive_solver congruence.
  - intros v h [Hi Ha] Hv. destruct (open_in_ok v h Hi Hv) as (h' & E & Hr'). exists h'. pose proof (open_addr _ _ _ _ E). naive_solver congruence.
  - intros v h [Hi Ha] Hv He. destruct (close_in_ok v h Hi Hv He) as (h' & E & Hr'). exists h'. pose proof (close_addr _ _ _ E). naive_solver congruence.
  - intros v h p [Hi Ha] Hv Hs He Hp H8 H0. destruct (open_out_ok v h p Hi Hv Hs He Hp H8 H0) as (h' & E & Hr').
    exists h'. pose proof (open_addr _ _ _ _ E). naive_solver congruence.
  - intros b r h [Hi Ha] Hr. destruct (read_ok b r h Hi Hr) as (h' & E & Hr'). exists h'. pose proof (read_addr _ _ _ E). naive_solver congruence.
  - intros v h [Hi Ha] Hv. destruct (close_out_ok v h Hi Hv) as (h' & E & Hr'). exists h'. pose proof (close_addr _ _ _ E). naive_solver congruence.
  - intros v h [Hi Ha]. unfold kept. cbn [hw_inv hw_sel hw_tx hw_sent with_addr]. pose proof (request_open_addr v h). pose proof (request_open_ok v h Hi) as Hk. unfold kept in Hk. naive_solver congruence.
  - intros v h [Hi _]. by apply request_open_tx.
  - intros v h [Hi Ha]. unfold kept. cbn [hw_inv hw_sel hw_tx hw_sent with_addr]. pose proof (request_close_addr v h). pose proof (request_close_ok v h Hi) as Hk. unfold kept in Hk. naive_solver congruence.
Qed.

Lemma idx_eid a b : USB_ADDR2EID a = USB_ADDR2EID b -> idx_of a = idx_of b.
Proof. unfold idx_of. by intros ->. Qed.

Section sym.
Context {hw U : Type} {Hw : UsbdHw hw} {Cfg : UsbdCfg}.
Abbreviation st := (usbd hw U).

(** The state [s] with endpoint [e] selected, its flags [c], its progress [x] and the
    controller in the state [h]. *)
Definition at_ep (e : Z) (s : st) (c : Z) (x : usb_transfer) (h : hw) : st :=
  Usbd e (<[idx_of e := x]> (usb_transfers s)) (<[idx_of e := c]> (usbd_endp_ctrls s)) (usbd_endpoints s) (usbd_endp_regs s) (usbd_endp_zlps s)
    (usbd_ctrl_setup s) (usbd_interfaces s) (usbd_nr_intfs s) (usbd_address s) (usbd_config s) (usbd_state_resume s) (usbd_state s) (usb_wake s) h (user s).

Context (ep : nat -> usbd_endpoint (hw := hw) (U := U)).

(** Endpoint [e] of the state has an entry in every table, is claimed and is driven by [d]. *)
Record ep_at (e : Z) (s : st) (d : usbd_endpoint (hw := hw) (U := U)) : Prop := EpAt {
  ea_eid : USB_ADDR2EID e < NR_USBD_ENDPS;
  ea_xfr : (idx_of e < length (usb_transfers s))%nat;
  ea_ctrl : (idx_of e < length (usbd_endp_ctrls s))%nat;
  ea_ptr : exists p, usbd_endpoints s !! idx_of e = Some p /\ ep p = d;
  ea_reg : Z.testbit (usbd_endp_regs s) (USB_ADDR2EID e) = true
}.

Section one.
Context (e : Z) (s : st) (d : usbd_endpoint (hw := hw) (U := U)) (Hs : ep_at e s d).
Implicit Types (c : Z) (x : usb_transfer) (h : hw).

Lemma sym_xfr c x h : usbd_endp_xfr_by_save (at_ep e s c x h) = Ok (x, at_ep e s c x h).
Proof using Hs. cbv [usbd_endp_xfr_by_save getr at_ep]. cbn. by rewrite list_lookup_insert_eq by apply Hs. Qed.
Lemma sym_ctrl c x h : usbd_endp_ctrl_by_save (at_ep e s c x h) = Ok (c, at_ep e s c x h).
Proof using Hs. cbv [usbd_endp_ctrl_by_save getr at_ep]. cbn. by rewrite list_lookup_insert_eq by apply Hs. Qed.
Lemma sym_put_xfr f c x h : put_xfr f (at_ep e s c x h) = Ok (tt, at_ep e s c (f x) h).
Proof using Hs.
  cbv [put_xfr mbind stm_bind st_bind]. rewrite sym_xfr. cbv [modify at_ep set_xfrs]. cbn. by rewrite list_insert_insert_eq.
Qed.
Lemma sym_put_ctrl f c x h : put_ctrl f (at_ep e s c x h) = Ok (tt, at_ep e s (f c) x h).
Proof using Hs.
  cbv [put_ctrl mbind stm_bind st_bind]. rewrite sym_ctrl. cbv [modify at_ep set_ctrls]. cbn. by rewrite list_insert_insert_eq.
Qed.
Lemma sym_func c x h : usbd_endp_func_by_addr ep e (at_ep e s c x h) = Ok (d, at_ep e s c x h).
Proof using Hs. cbv [usbd_endp_func_by_addr getr]. cbn. destruct (ea_ptr _ _ _ Hs) as (p & -> & Hp). cbn. by rewrite Hp. Qed.
Lemma sym_type c x h : usbd_endpoint_type ep (at_ep e s c x h) = Ok (USBD_ATTR2TYPE (attrs d), at_ep e s c x h).
Proof using Hs.
  cbv [usbd_endpoint_type usbd_endpoint_type_addr usbd_endpoint_attrs_addr mbind stm_bind st_bind gets]. cbn.
  rewrite (proj2 (Z.ltb_lt _ _)) by apply Hs. by rewrite sym_func.
Qed.
Lemma sym_edir c x h : usbd_endpoint_dir ep (at_ep e s c x h) = Ok (USBD_ATTR2DIR (attrs d), at_ep e s c x h).
Proof using Hs.
  cbv [usbd_endpoint_dir usbd_endpoint_dir_addr usbd_endpoint_attrs_addr mbind stm_bind st_bind gets]. cbn.
  rewrite (proj2 (Z.ltb_lt _ _)) by apply Hs. by rewrite sym_func.
Qed.
Lemma sym_flag b c x h : flagged b (at_ep e s c x h) = Ok (bits_raised c b, at_ep e s c x h).
Proof using Hs. cbv [flagged mbind stm_bind st_bind]. by rewrite sym_ctrl. Qed.
Lemma sym_stage c x h : usbd_control_get_stage (at_ep e s c x h) = Ok (c &&& USBD_CTRL_STAGE_MASK, at_ep e s c x h).
Proof using Hs. cbv [usbd_control_get_stage mbind stm_bind st_bind]. by rewrite sym_ctrl. Qed.
Lemma sym_zlp c x h : usbd_endp_zlp_test (at_ep e s c x h) = Ok (Z.testbit (usbd_endp_zlps s) (USB_ADDR2EID e), at_ep e s c x h).
Proof. done. Qed.
Lemma sym_size c x h : usbd_endpoint_size (at_ep e s c x h) = Ok (usbd_hw_endp_size e, at_ep e s c x h).
Proof. done. Qed.
Lemma sym_endp c x h : gets usbd_endp (at_ep e s c x h) = Ok (e, at_ep e s c x h).
Proof. done. Qed.
Lemma sym_set_hw h' c x h : modify (set_hw h') (at_ep e s c x h) = Ok (tt, at_ep e s c x h').
Proof. done. Qed.
Lemma sym_callback c x h : usbd_endp_func_by_save ep (at_ep e s c x h) = Ok (d, at_ep e s c x h).
Proof using Hs. cbv [usbd_endp_func_by_save mbind stm_bind st_bind gets]. by apply sym_func. Qed.
End one.
End sym.

(** Evaluation of the monad and of the engine's reads and writes at the endpoint that [Hs]
    describes. *)
Ltac monad_red := cbv [mbind stm_bind st_bind mret stm_ret st_ret]; cbn beta iota.
Ltac sym_step Hs :=
  first
  [ rewrite (sym_xfr _ _ _ _ Hs) | rewrite (sym_ctrl _ _ _ _ Hs) | rewrite (sym_put_xfr _ _ _ _ Hs) | rewrite (sym_put_ctrl _ _ _ _ Hs)
  | rewrite (sym_type _ _ _ _ Hs) | rewrite (sym_edir _ _ _ _ Hs) | rewrite (sym_flag _ _ _ _ Hs) | rewrite (sym_stage _ _ _ _ Hs)
  | rewrite (sym_callback _ _ _ _ Hs) | rewrite sym_zlp | rewrite sym_size | rewrite sym_endp | rewrite sym_set_hw ]; cbn beta iota.
Ltac sym Hs := monad_red; repeat (sym_step Hs).
Ltac xred := unfold advance, set_iter, set_xfr_cur, set_xfr_all, set_req_all; cbn [req_all req_cur xfr_all xfr_cur iter].

(** ** Endpoints and their direction

    The direction of a request: that of the endpoint, or, on the control pipe, that of the
    stage. *)
Section data.
Context {hw U : Type} {Hw : UsbdHw hw} {Cfg : UsbdCfg}.
Abbreviation st := (usbd hw U).
Context (ep : nat -> usbd_endpoint (hw := hw) (U := U)) (e : Z) (s : st) (d : usbd_endpoint (hw := hw) (U := U)) (Hs : ep_at ep e s d).
Implicit Types (c : Z) (x : usb_transfer) (h : hw).

Definition stage_dir (stage sd : Z) : Z :=
  if stage =? USBD_CTRL_STAGE_SETUP then USB_DIR_OUT else if stage =? USBD_CTRL_STAGE_DATA then sd
  else if stage =? USBD_CTRL_STAGE_STATUS then (if sd =? USB_DIR_OUT then USB_DIR_IN else USB_DIR_OUT) else USB_DIR_OUT.
Definition req_dir c : Z :=
  if USBD_ATTR2TYPE (attrs d) =? USB_ENDP_CONTROL then stage_dir (c &&& USBD_CTRL_STAGE_MASK) (USB_SETUP2DIR (bmRequestType (usbd_ctrl_setup s)))
  else USBD_ATTR2DIR (attrs d).
Definition req_staging c : bool :=
  bool_decide (USBD_ATTR2TYPE (attrs d) = USB_ENDP_CONTROL) && (bool_decide (c &&& USBD_CTRL_STAGE_MASK = USBD_CTRL_STAGE_SETUP) ||
    (bool_decide (wLength (usbd_ctrl_setup s) = 0) && bool_decide (c &&& USBD_CTRL_STAGE_MASK = USBD_CTRL_STAGE_DATA))).
Definition req_view c : view :=
  View e (USBD_ATTR2TYPE (attrs d)) (USBD_ATTR2DIR (attrs d)) (req_dir c) (c &&& USBD_CTRL_STAGE_MASK) (req_staging c) (bits_raised c USBD_REQ_FLAG_SYNC).

Lemma req_dir_stage c1 c2 : c1 &&& USBD_CTRL_STAGE_MASK = c2 &&& USBD_CTRL_STAGE_MASK -> req_dir c1 = req_dir c2.
Proof using. intros H. unfold req_dir. by rewrite H. Qed.
Lemma setup_dir_at c x h : usbd_control_setup_dir (at_ep e s c x h) = Ok (USB_SETUP2DIR (bmRequestType (usbd_ctrl_setup s)), at_ep e s c x h).
Proof using Hs. unfold usbd_control_setup_dir, gets. cbn [usbd_endp at_ep usbd_ctrl_setup]. by rewrite (proj2 (Z.ltb_lt _ _) (ea_eid _ _ _ _ Hs)). Qed.
Lemma rdir_at c x h : usbd_request_dir ep (at_ep e s c x h) = Ok (req_dir c, at_ep e s c x h).
Proof using Hs.
  unfold usbd_request_dir, req_dir, stage_dir. sym Hs. destruct (USBD_ATTR2TYPE (attrs d) =? USB_ENDP_CONTROL); [|by apply (sym_edir _ _ _ _ Hs)].
  sym Hs. destruct (_ =? USBD_CTRL_STAGE_SETUP); [done|]. destruct (_ =? USBD_CTRL_STAGE_DATA); [apply setup_dir_at|].
  destruct (_ =? USBD_CTRL_STAGE_STATUS); [|done]. by rewrite setup_dir_at.
Qed.
Lemma staging_at c x h : usbd_control_setup_staging ep (at_ep e s c x h) = Ok (req_staging c, at_ep e s c x h).
Proof using Hs. unfold usbd_control_setup_staging, usbd_control_request_length, gets. by sym Hs. Qed.
Lemma view_at c x h : the_view ep (at_ep e s c x h) = Ok (req_view c, at_ep e s c x h).
Proof using Hs. unfold the_view, usbd_request_syncing. sym Hs. rewrite rdir_at. cbn beta iota. sym Hs. rewrite staging_at. cbn beta iota. by sym Hs. Qed.
Lemma hw_call_at f c x h : hw_call ep f (at_ep e s c x h) = Ok (tt, at_ep e s c x (f (req_view c) h)).
Proof using Hs. unfold hw_call, modify. monad_red. by rewrite view_at. Qed.
Lemma halting_at c x h : bits_raised c USBD_ENDP_FLAG_HALT = false -> usbd_request_halting ep (at_ep e s c x h) = Ok (false, at_ep e s c x h).
Proof using Hs.
  intros H. unfold usbd_request_halting, usbd_endpoint_halting. sym Hs. destruct (_ =? USB_ENDP_ISOCHRONOUS); [done|]. sym Hs.
  destruct (_ && _); [done|]. sym Hs. by rewrite H.
Qed.
Lemma partial_at c x h : usbd_transfer_partial (at_ep e s c x h) = Ok (xfr_cur x <? usbd_hw_endp_size e, at_ep e s c x h).
Proof using Hs. unfold usbd_transfer_partial, usbd_transfer_handled. by sym Hs. Qed.
(** The test for the end of the transfer, on the progress [x]. *)
Definition lastb (x : usb_transfer) : bool :=
  if Z.testbit (usbd_endp_zlps s) (USB_ADDR2EID e) then xfr_cur x <? usbd_hw_endp_size e else u16 (req_all x - req_cur x) =? 0.
Lemma last_at c x h : usbd_transfer_last (at_ep e s c x h) = Ok (lastb x, at_ep e s c x h).
Proof using Hs.
  unfold usbd_transfer_last, usbd_request_unhandled, lastb. sym Hs. destruct (Z.testbit _ _); [apply partial_at|]. by sym Hs.
Qed.
Lemma pending_at c x h : usbd_request_pending (at_ep e s c x h) = Ok (bits_raised c USBD_REQ_FLAG_SOFT, at_ep e s c x h).
Proof using Hs. unfold usbd_request_pending. by sym Hs. Qed.
(** No stall, an asynchronous transfer, and the direction [dir]. *)
Definition calm (dir c : Z) : Prop := bits_raised c USBD_ENDP_FLAG_HALT = false /\ bits_raised c USBD_REQ_FLAG_SYNC = false /\ req_dir c = dir.

(** ** Runs of the engine *)
Lemma iocb_first c x h : bits_raised c USBD_REQ_FLAG_HARD = false ->
  usbd_transfer_iocb ep (at_ep e s c x h) = __usbd_transfer_data ep (at_ep e s (raise_bits USBD_REQ_FLAG_HARD c) x h).
Proof using Hs. intros H. unfold usbd_transfer_iocb, usbd_request_running, __usbd_request_init, usbd_request_set_hard. sym Hs. rewrite H. cbn [negb]. by sym Hs. Qed.
Lemma iocb_next c x h : bits_raised c USBD_REQ_FLAG_HARD = true -> bits_raised c USBD_ENDP_FLAG_HALT = false ->
  usbd_transfer_iocb ep (at_ep e s c x h) = (if lastb x then __usbd_request_exit ep else __usbd_transfer_data ep) (at_ep e s c x h).
Proof using Hs.
  intros H1 H2. unfold usbd_transfer_iocb, usbd_request_running, usbd_endpoint_halting. sym Hs. rewrite H1. cbn [negb]. sym Hs. rewrite H2, last_at. cbn beta iota.
  cbn [orb]. by destruct (lastb x).
Qed.
Lemma interrupting_at dir c x h : bits_raised c USBD_REQ_FLAG_SOFT = true -> bits_raised c USBD_REQ_FLAG_ASYNC = false -> req_dir c = dir ->
  usbd_request_interrupting ep dir (at_ep e s c x h) = Ok (true, at_ep e s c x h).
Proof using Hs.
  intros H1 H2 H3. unfold usbd_request_interrupting, usbd_endpoint_claimed, usbd_request_pending, usbd_request_asyncing. sym Hs. unfold gets. cbn beta iota.
  sym Hs. rewrite rdir_at. cbn beta iota. sym Hs. rewrite H1, H2, H3, Z.eqb_refl. cbn [at_ep usbd_endp_regs]. by rewrite (ea_reg _ _ _ _ Hs).
Qed.
(** The end of a request: [done] is called once, with the progress [x] of the request, the
    endpoint is made idle and polled for its next request. *)
Definition complete : stm st unit := call_cb (done_cb d);; usbd_request_clear_soft;; usbd_request_reset ep.
Lemma exit_at c x h : bits_raised c USBD_REQ_FLAG_HARD = true -> bits_raised (unraise_bits USBD_REQ_FLAG_HARD c) USBD_REQ_FLAG_SOFT = true ->
  __usbd_request_exit ep (at_ep e s c x h) = complete (at_ep e s (unraise_bits USBD_REQ_FLAG_HARD c) x (usbd_hw_request_close (req_view c) h)).
Proof using Hs.
  intros H1 H2. unfold __usbd_request_exit, complete, usbd_request_close, usbd_request_running, usbd_request_clear_hard, usbd_request_pending.
  sym Hs. rewrite H1. cbn beta iota. rewrite hw_call_at. cbn beta iota. sym Hs. rewrite H2. cbn beta iota. sym Hs.
  by destruct (call_cb (done_cb d) _) as [[[] ?]|].
Qed.
(** The bottom half's event on an endpoint that asks for it. *)
Lemma async_at c x h : bits_raised c USBD_REQ_FLAG_ASYNC = true ->
  usbd_async_iocb ep (at_ep e s c x h) =
  usbd_transfer_iocb ep (at_ep e s (unraise_bits USBD_REQ_FLAG_ASYNC c) x (usbd_hw_request_open (req_view (unraise_bits USBD_REQ_FLAG_ASYNC c)) h)).
Proof using Hs.
  intros H. unfold usbd_async_iocb, usbd_request_asyncing, usbd_request_clear_async. sym Hs. rewrite H. cbn beta iota. sym Hs. by rewrite hw_call_at.
Qed.

(** Between events some endpoint [a] is selected; [out_ep] is such a state. *)
Definition out_ep (a : Z) (s : st) (c : Z) (x : usb_transfer) (h : hw) : st := set_endp a (at_ep e s c x h).
Lemma save_out a s0 c x h : usbd_addr_save e (out_ep a s0 c x h) = Ok (a, at_ep e s0 c x (usbd_hw_endp_select e h)).
Proof using. done. Qed.
Lemma restore_out a s0 c x h : usbd_addr_restore a (at_ep e s0 c x h) = Ok (tt, out_ep a s0 c x (usbd_hw_endp_select a h)).
Proof using. done. Qed.
Lemma txin_out a c x h : bits_raised c USBD_REQ_FLAG_SOFT = true -> bits_raised c USBD_REQ_FLAG_ASYNC = false -> req_dir c = USB_DIR_IN ->
  irq_txin ep e (out_ep a s c x h) = (usbd_transfer_iocb ep;; usbd_addr_restore a) (at_ep e s c x (usbd_hw_endp_select e h)).
Proof using Hs. intros H1 H2 H3. unfold irq_txin, usbd_transfer_txin. monad_red. rewrite save_out. cbn beta iota. by rewrite interrupting_at. Qed.
Lemma rxout_out a c x h : bits_raised c USBD_REQ_FLAG_SOFT = true -> bits_raised c USBD_REQ_FLAG_ASYNC = false -> req_dir c = USB_DIR_OUT ->
  irq_rxout ep e (out_ep a s c x h) = (usbd_transfer_iocb ep;; usbd_addr_restore a) (at_ep e s c x (usbd_hw_endp_select e h)).
Proof using Hs. intros H1 H2 H3. unfold irq_rxout, usbd_transfer_rxout. monad_red. rewrite save_out. cbn beta iota. by rewrite interrupting_at. Qed.
Lemma async_out a c x h : bits_raised c USBD_REQ_FLAG_ASYNC = true ->
  usbd_async_iocb_addr ep e (out_ep a s c x h) = (usbd_async_iocb ep;; usbd_addr_restore a) (at_ep e s c x (usbd_hw_endp_select e h)).
Proof using Hs.
  intros H. unfold usbd_async_iocb_addr, usbd_endpoint_claimed. monad_red. rewrite save_out. cbn beta iota. sym Hs. unfold gets. cbn beta iota.
  cbn [at_ep usbd_endp_regs]. by rewrite (ea_reg _ _ _ _ Hs).
Qed.
End data.
Lemma out_ep_self {hw U} e (s : usbd hw U) c x :
  usb_transfers s !! idx_of e = Some x -> usbd_endp_ctrls s !! idx_of e = Some c -> s = out_ep e (usbd_endp s) s c x (hwst s).
Proof. intros Hx Hc. unfold out_ep, at_ep, set_endp. cbn. rewrite !list_insert_id by done. by destruct s. Qed.
Lemma set_user_id {hw U} (s : usbd hw U) : set_user (user s) s = s.
Proof. by destruct s. Qed.

(** Changes that leave the endpoints alone. *)
Section frame.
Context {hw U : Type} {Cfg : UsbdCfg} (ep : nat -> usbd_endpoint (hw := hw) (U := U)).
Lemma ep_at_user e s d u : ep_at ep e s d -> ep_at ep e (set_user u s) d.
Proof. intros []. by constructor. Qed.
Lemma ep_at_wake e s d w : ep_at ep e s d -> ep_at ep e (set_wake w s) d.
Proof. intros []. by constructor. Qed.
Lemma ep_at_setup e s d c : ep_at ep e s d -> ep_at ep e (set_setup c s) d.
Proof. intros []. by constructor. Qed.
End frame.
