(* ===== verification/UsbdIn.v ===== *)
(** * USB device stack: IN requests

    A request of [n] bytes on an IN endpoint goes out packet by packet: the handler, which
    writes all its bytes in every run, is resumed at the right byte each time. *)
From S2P Require Import Prelude MulDiv Usbd UsbdHal.

(** The packets a transfer of [data] is made of: full ones and a last one, which is short
    (possibly empty) when the endpoint asks for an explicit end. *)
Fixpoint packetize (fuel : nat) (zlp : bool) (size : nat) (data : list Z) : list (list Z) :=
  match fuel with
  | O => []
  | S fuel =>
      let pkt := take size data in
      pkt :: if (if zlp then length pkt <? size else length data <=? size)%nat then [] else packetize fuel zlp size (drop size data)
  end.
Definition packets (zlp : bool) (size : nat) (data : list Z) : list (list Z) := packetize (S (length data)) zlp size data.

Lemma packetize_concat fuel zlp size data : (0 < size)%nat -> (length data < fuel)%nat -> concat (packetize fuel zlp size data) = data.
Proof.
  intros Hs. revert data. induction fuel as [|fuel IH]; intros data Hf; [lia|]. cbn [packetize concat].
  destruct (if zlp then _ else _) eqn:E.
  - cbn. rewrite app_nil_r. apply take_ge. destruct zlp; [apply Nat.ltb_lt in E; rewrite length_take in E|apply Nat.leb_le in E]; lia.
  - rewrite IH; [apply take_drop|]. rewrite length_drop.
    destruct zlp; [apply Nat.ltb_ge in E; rewrite length_take in E|apply Nat.leb_gt in E]; lia.
Qed.
(** Every packet but the last is full, and with an explicit end the last one is short. *)
Lemma packetize_shape fuel zlp size data : (0 < size)%nat -> (length data < fuel)%nat ->
  exists ps p, packetize fuel zlp size data = ps ++ [p] /\ Forall (fun q => length q = size) ps /\ (length p <= size)%nat /\
  (zlp = true -> (length p < size)%nat) /\ (zlp = false -> p = [] -> data = []).
Proof.
  intros Hs. revert data. induction fuel as [|fuel IH]; intros data Hf; [lia|]. cbn [packetize].
  destruct (if zlp then _ else _) eqn:E.
  - exists [], (take size data). split_and!; [done|constructor|rewrite length_take; lia| |].
    + intros ->. by apply Nat.ltb_lt in E.
    + intros -> He. apply (f_equal length) in He. rewrite length_take in He. destruct data; [done|cbn in He; lia].
  - assert (Hl : (size <= length data)%nat) by (destruct zlp; [apply Nat.ltb_ge in E; rewrite length_take in E|apply Nat.leb_gt in E]; lia).
    destruct (IH (drop size data)) as (ps & p & -> & Hps & Hp & Hz & Hn); [rewrite length_drop; lia|].
    exists (take size data :: ps), p. split_and!; [done|constructor; [rewrite length_take; lia|done]|done|done|].
    intros -> He. apply Nat.leb_gt in E. specialize (Hn eq_refl He). apply (f_equal length) in Hn. rewrite length_drop in Hn. cbn in Hn. lia.
Qed.

Section inreq.
Context {hw U : Type} {Hw : UsbdHw hw} {Obs : UsbdObs hw} {Cfg : UsbdCfg} {HwOk : UsbdHwOk hw}.
Abbreviation st := (usbd hw U).
Context (ep : nat -> usbd_endpoint (hw := hw) (U := U)).

Fixpoint emit (l : list Z) : stm st unit := match l with [] => mret tt | b :: l => usbd_inb ep b;; emit l end.

Section one.
Context (e : Z) (s : st) (d : usbd_endpoint (hw := hw) (U := U)) (Hs : ep_at ep e s d).
Implicit Types (c : Z) (x : usb_transfer) (h : hw).
Abbreviation calm := (calm s d USB_DIR_IN).
Abbreviation size := (usbd_hw_endp_size e).

(** The controller has [e] selected, holds the bytes [w] and has sent [l]. *)
Definition hw_is (h : hw) (w : list Z) (l : list (Z * list Z)) : Prop :=
  hw_inv h /\ hw_sel h = USB_ADDR2EID e /\ hw_tx h = w /\ hw_sent h = l.

Lemma write_at b w l c x h : hw_is h w l -> Z.of_nat (length w) < size ->
  exists h', hw_write_byte b (at_ep e s c x h) = Ok (tt, at_ep e s c x h') /\ hw_is h' (w ++ [b]) l.
Proof using HwOk.
  intros (H0 & H1 & H2 & H3) Hw'. destruct (write_ok b h H0) as (h' & E & ? & ? & ? & ?); [rewrite H1, H2, size_eid; lia|].
  exists h'. unfold hw_write_byte, getr. monad_red. cbn [hwst at_ep]. rewrite E. split; [done|]. unfold hw_is. split_and!; (done || congruence).
Qed.
Lemma close_at w l c x h : calm c -> hw_is h w l ->
  exists h', hw_transfer_close ep (at_ep e s c x h) = Ok (tt, at_ep e s c x h') /\ hw_is h' [] (l ++ [(USB_ADDR2EID e, w)]).
Proof using HwOk Hs.
  intros Hc (H0 & H1 & H2 & H3). destruct (close_in_ok (req_view e s d c) h H0) as (h' & E & ? & ? & ? & ?); [apply Hc|done|].
  exists h'. unfold hw_transfer_close, getr. monad_red. rewrite (view_at _ _ _ _ Hs). cbn [hwst at_ep]. rewrite E.
  split; [done|]. unfold hw_is. split_and!; (done || congruence).
Qed.
Lemma open_at w l c x h : calm c -> hw_is h w l ->
  exists h', hw_transfer_open ep (at_ep e s c x h) = Ok (tt, at_ep e s c x h') /\ hw_is h' w l.
Proof using HwOk Hs.
  intros Hc (H0 & H1 & H2 & H3). destruct (open_in_ok (req_view e s d c) h H0) as (h' & E & ? & ? & ? & ?); [apply Hc|].
  exists h'. unfold hw_transfer_open, getr. monad_red. rewrite (view_at _ _ _ _ Hs). cbn [hwst at_ep]. rewrite E.
  split; [done|]. unfold hw_is. split_and!; (done || congruence).
Qed.

(** One byte of the handler: skipped, or written and, when the packet is full, closed. *)
Lemma inb_skip b c x h : calm c ->
  xfr_all x = xfr_cur x \/ req_cur x <> iter x ->
  usbd_inb ep b (at_ep e s c x h) = Ok (tt, at_ep e s c (set_iter (u16 (iter x + 1)) x) h).
Proof using Hs.
  intros Hc Hx. unfold usbd_inb, usbd_request_syncing, usbd_inb_async, usbd_transfer_unhandled. sym Hs. rewrite (proj1 (proj2 Hc)). sym Hs.
  replace ((0 <? u8 (xfr_all x - xfr_cur x)) && (req_cur x =? iter x)) with false; [by sym Hs|].
  destruct Hx as [->|Hx]; [by rewrite Z.sub_diag|]. rewrite (proj2 (Z.eqb_neq _ _) Hx). by rewrite andb_false_r.
Qed.
Definition after_write (full : bool) (w : list Z) (l : list (Z * list Z)) (h : hw) : Prop :=
  if full then hw_is h [] (l ++ [(USB_ADDR2EID e, w)]) else hw_is h w l.
Lemma inb_write b n k xa xc w l c h : calm c ->
  0 <= xc < xa -> xa <= size -> 0 <= k < 2 ^ 16 - 1 -> Z.of_nat (length w) = xc -> hw_is h w l ->
  exists h', usbd_inb ep b (at_ep e s c (Xfr n k xa xc k) h) = Ok (tt, at_ep e s c (Xfr n (k + 1) xa (xc + 1) (k + 1)) h') /\
  after_write (xc + 1 =? size) (w ++ [b]) l h'.
Proof using HwOk Hs.
  intros Hc Hxc Hxa Hk Hw' Hh. pose proof (size_ok e (ea_eid _ _ _ _ Hs)) as Hsz.
  unfold usbd_inb, usbd_request_syncing, usbd_inb_async, usbd_transfer_unhandled, close_if_full, usbd_transfer_handled. sym Hs. rewrite (proj1 (proj2 Hc)). sym Hs.
  xred. rewrite (wrap_id 8 (xa - xc)) by lia.
  rewrite (proj2 (Z.ltb_lt 0 (xa - xc))), Z.eqb_refl by lia. cbn [andb].
  destruct (write_at b w l c (Xfr n k xa xc k) h Hh) as (h1 & -> & Hh1); [lia|]. cbn beta iota. sym Hs. xred.
  rewrite (wrap_id 16 (k + 1)), (wrap_id 8 (xc + 1)) by lia. unfold after_write. destruct (xc + 1 =? size).
  - destruct (close_at (w ++ [b]) l c (Xfr n (k + 1) xa (xc + 1) k) h1 Hc Hh1) as (h2 & -> & Hh2). cbn beta iota. sym Hs.
    exists h2. split; [|done]. xred. by rewrite (wrap_id 16 (k + 1)) by lia.
  - cbn beta iota. sym Hs. exists h1. split; [|done]. xred. by rewrite (wrap_id 16 (k + 1)) by lia.
Qed.

(** When the packet has no room left the rest of the handler's bytes are skipped. *)
Lemma emit_skip data n k xa it c h : calm c -> 0 <= it -> it + Z.of_nat (length data) < 2 ^ 16 ->
  emit data (at_ep e s c (Xfr n k xa xa it) h) = Ok (tt, at_ep e s c (Xfr n k xa xa (it + Z.of_nat (length data))) h).
Proof using Hs.
  intros Hc. revert it. induction data as [|b data IH]; intros it Hit Hl; cbn [emit length] in *; [by rewrite Z.add_0_r|].
  monad_red. rewrite inb_skip by (auto; by left). xred.
  rewrite (wrap_id 16 (it + 1)) by lia. cbn beta iota. rewrite IH by lia. by replace (it + 1 + Z.of_nat (length data)) with (it + Z.of_nat (S (length data))) by lia.
Qed.
(** A run of the handler writes the bytes after those that were written before, as far as
    the packet has room. *)
Lemma emit_run data n k xa xc it w l c h : calm c -> 0 <= it <= k ->
  it + Z.of_nat (length data) < 2 ^ 16 -> 0 <= xc < xa -> xa <= size -> Z.of_nat (length w) = xc -> hw_is h w l ->
  let out := take (Z.to_nat (xa - xc)) (drop (Z.to_nat (k - it)) data) in
  let m := Z.of_nat (length out) in
  exists h', emit data (at_ep e s c (Xfr n k xa xc it) h) = Ok (tt, at_ep e s c (Xfr n (k + m) xa (xc + m) (it + Z.of_nat (length data))) h') /\
  after_write (xc + m =? size) (w ++ out) l h'.
Proof using HwOk Hs.
  intros Hc. revert k xc it w h. induction data as [|b data IH]; intros k xc it w h Hit Hl Hxc Hxa Hw' Hh; cbn [emit length] in *.
  - rewrite drop_nil, take_nil. cbn [length Z.of_nat]. rewrite !Z.add_0_r, app_nil_r. exists h. split; [done|].
    unfold after_write. by rewrite (proj2 (Z.eqb_neq xc size)) by lia.
  - monad_red. destruct (decide (it = k)) as [->|Hne].
    + rewrite Z.sub_diag. change (Z.to_nat 0) with 0%nat. cbn [skipn]. replace (Z.to_nat (xa - xc)) with (S (Z.to_nat (xa - (xc + 1)))) by lia. cbn [firstn length].
      destruct (inb_write b n k xa xc w l c h) as (h1 & -> & Hh1); [done..|lia|done|done|]. cbn beta iota.
      destruct (decide (xc + 1 = xa)) as [E|E].
      * rewrite E, Z.sub_diag. change (Z.to_nat 0) with 0%nat. cbn [firstn length Z.of_nat]. rewrite emit_skip by (done || lia). exists h1.
        replace (k + 1 + Z.of_nat (length data)) with (k + Z.of_nat (S (length data))) by lia.
        change (take 0 data) with (@nil Z). change (Z.of_nat (S (length []))) with 1. split; [by rewrite E|done].
      * rewrite (proj2 (Z.eqb_neq (xc + 1) size)) in Hh1 by lia.
        destruct (IH (k + 1) (xc + 1) (k + 1) (w ++ [b]) h1) as (h2 & E2 & Hh2); [lia..|rewrite length_app; cbn; lia|done|].
        rewrite Z.sub_diag in E2, Hh2. change (drop (Z.to_nat 0) data) with data in E2, Hh2. rewrite E2. exists h2.
        rewrite <- app_assoc in Hh2. cbn [app] in Hh2. split; [do 4 f_equal; lia|].
        replace (xc + Z.of_nat (S (length (take (Z.to_nat (xa - (xc + 1))) data)))) with (xc + 1 + Z.of_nat (length (take (Z.to_nat (xa - (xc + 1))) data))) by lia. done.
    + rewrite inb_skip by (auto; right; cbn; lia). xred.
      rewrite (wrap_id 16 (it + 1)) by lia. cbn beta iota.
      destruct (IH k xc (it + 1) w h) as (h2 & E2 & Hh2); [lia..|done|done|].
      replace (Z.to_nat (k - it)) with (S (Z.to_nat (k - (it + 1)))) by lia. cbn [skipn]. rewrite E2. exists h2.
      split; [do 4 f_equal; lia|done].
Qed.
End one.
End inreq.

Fixpoint times {S : Type} (n : nat) (m : stm S unit) : stm S unit := match n with O => mret tt | S n => m;; times n m end.

(** The flags of a pending and of a running request, with the stage [stg]. *)
Lemma stage_bits (stg : Z) : stg = 0 \/ stg = 1 \/ stg = 2 -> (0x10 ||| stg) &&& USBD_CTRL_STAGE_MASK = stg /\ (0x30 ||| stg) &&& USBD_CTRL_STAGE_MASK = stg /\ raise_bits USBD_REQ_FLAG_HARD (0x10 ||| stg) = (0x30 ||| stg) /\
  unraise_bits USBD_REQ_FLAG_HARD (0x30 ||| stg) = (0x10 ||| stg) /\ bits_raised (0x10 ||| stg) USBD_REQ_FLAG_HARD = false /\ bits_raised (0x30 ||| stg) USBD_REQ_FLAG_HARD = true /\
  (bits_raised (0x10 ||| stg) USBD_REQ_FLAG_SOFT = true /\ bits_raised (0x30 ||| stg) USBD_REQ_FLAG_SOFT = true) /\
  (bits_raised (0x10 ||| stg) USBD_REQ_FLAG_ASYNC = false /\ bits_raised (0x30 ||| stg) USBD_REQ_FLAG_ASYNC = false) /\
  (bits_raised (0x10 ||| stg) USBD_ENDP_FLAG_HALT = false /\ bits_raised (0x30 ||| stg) USBD_ENDP_FLAG_HALT = false) /\
  bits_raised (0x10 ||| stg) USBD_REQ_FLAG_SYNC = false /\ bits_raised (0x30 ||| stg) USBD_REQ_FLAG_SYNC = false.
Proof. by intros [->|[->| ->]]. Qed.

(** ** Packets of a request

    [ep] is the table of endpoints of the stack, [epi] the one the handler's own calls use
    (see [endpoints] in [UsbCtrl]); they agree on the endpoint's attributes. *)
Section inreq.
Context {hw U : Type} {Hw : UsbdHw hw} {Obs : UsbdObs hw} {Cfg : UsbdCfg} {HwOk : UsbdHwOk hw}.
Abbreviation st := (usbd hw U).
Context (ep epi : nat -> usbd_endpoint (hw := hw) (U := U)).

Section one.
Context (e : Z) (s : st) (d di : usbd_endpoint (hw := hw) (U := U)) (Hs : ep_at ep e s d) (Hsi : ep_at epi e s di) (Hat : attrs di = attrs d).
Implicit Types (c : Z) (x : usb_transfer) (h : hw).
Abbreviation calm := (calm s d USB_DIR_IN).
Abbreviation size := (usbd_hw_endp_size e).
Abbreviation zlp := (Z.testbit (usbd_endp_zlps s) (USB_ADDR2EID e)).
Abbreviation hw_is := (hw_is e).

Lemma calm_inner c : calm c -> UsbdHal.calm s di USB_DIR_IN c.
Proof using Hat. unfold UsbdHal.calm, req_dir. by rewrite Hat. Qed.
(** The size of the next packet. *)
Lemma limit_in n k xa xc it c h : calm c -> 0 <= k <= n -> n < 2 ^ 16 -> xc = 0 ->
  usbd_transfer_limit ep (at_ep e s c (Xfr n k xa xc it) h) = Ok (tt, at_ep e s c (Xfr n k (Z.min size (n - k)) 0 it) h).
Proof using Hs HwOk.
  intros (_ & _ & Hdir) Hk Hn ->. pose proof (size_ok e (ea_eid _ _ _ _ Hs)) as Hsz.
  unfold usbd_transfer_limit, usbd_request_unhandled, usbd_transfer_handled. monad_red. rewrite (rdir_at _ _ _ _ Hs), Hdir. cbn beta iota.
  change (USB_DIR_IN =? USB_DIR_IN) with true. cbn beta iota. sym Hs. xred. rewrite (wrap_id 16 (n - k)), Z.sub_0_r by lia.
  rewrite (wrap_id 16 (n - k)), (wrap_id 8 size) by lia. destruct (n - k <? size) eqn:E.
  - apply Z.ltb_lt in E. sym Hs. xred. rewrite (wrap_id 8 (n - k)) by lia. by rewrite Z.min_r by lia.
  - apply Z.ltb_ge in E. by rewrite Z.min_l by lia.
Qed.
Lemma reset_in n k xa xc it w l c h : calm c -> 0 <= k <= n -> n < 2 ^ 16 -> hw_is h w l ->
  exists h', usbd_transfer_reset ep (at_ep e s c (Xfr n k xa xc it) h) = Ok (tt, at_ep e s c (Xfr n k (Z.min size (n - k)) 0 it) h') /\ hw_is h' w l.
Proof using Hs HwOk.
  intros Hc Hk Hn Hh. unfold usbd_transfer_reset. sym Hs. xred. rewrite limit_in by done. cbn beta iota. by apply (open_at ep e s d Hs).
Qed.
Lemma end_in n k xa xc it w l c h : calm c -> 0 <= xc <= size -> after_write e (xc =? size) w l h ->
  exists h', usbd_request_end ep (at_ep e s c (Xfr n k xa xc it) h) = Ok (tt, at_ep e s c (Xfr n k xa xc it) h') /\
  hw_is h' [] (l ++ [(USB_ADDR2EID e, w)]).
Proof using Hs HwOk.
  intros Hc Hxc Hh. destruct (Hc) as (Hc1 & Hc2 & Hdir). unfold usbd_request_end, usbd_endpoint_halting, usbd_request_asyncing, usbd_request_syncing. sym Hs. rewrite Hc1. cbn beta iota.
  rewrite (partial_at _ _ _ _ Hs). cbn beta iota. xred. destruct (xc <? size) eqn:E.
  - apply Z.ltb_lt in E. rewrite (proj2 (Z.eqb_neq xc size)) in Hh by lia.
    rewrite (rdir_at _ _ _ _ Hs), Hdir. cbn beta iota. sym Hs. change (USB_DIR_IN =? USB_DIR_IN) with true. cbn [orb].
    destruct (close_at ep e s d Hs w l c (Xfr n k xa xc it) h Hc Hh) as (h' & -> & Hh'). cbn beta iota. rewrite (last_at _ _ _ _ Hs). cbn beta iota. exists h'. split; [|done].
    destruct (lastb e s _); [|done]. rewrite (rdir_at _ _ _ _ Hs), Hdir. cbn beta iota. sym Hs. by rewrite Hc2.
  - apply Z.ltb_ge in E. rewrite (proj2 (Z.eqb_eq xc size)) in Hh by lia. sym Hs. rewrite Hc2. cbn [andb]. rewrite (last_at _ _ _ _ Hs). cbn beta iota.
    exists h. split; [|done]. destruct (lastb e s _); [|done]. rewrite (rdir_at _ _ _ _ Hs), Hdir. cbn beta iota. sym Hs. by rewrite Hc2.
Qed.

(** [stg] is the stage of the control pipe, 0 on other endpoints. *)
Context (stg : Z) (m : stm st unit) (data : list Z).
Context (Hio : iocb d = Some m).
Context (Hm : forall c x h, calm c -> c &&& USBD_CTRL_STAGE_MASK = stg -> m (at_ep e s c x h) = emit epi data (at_ep e s c x h)).
Context (Hdata : Z.of_nat (length data) < 2 ^ 16).
Definition in_pkt (n k : Z) : list Z := take (Z.to_nat (Z.min size (n - k))) (drop (Z.to_nat k) data).

Lemma transfer_data_in n k xa xc it l c h : calm c -> c &&& USBD_CTRL_STAGE_MASK = stg -> 0 <= k <= n -> n < 2 ^ 16 -> hw_is h [] l ->
  let len := Z.of_nat (length (in_pkt n k)) in
  exists h', __usbd_transfer_data ep (at_ep e s c (Xfr n k xa xc it) h) =
    Ok (tt, at_ep e s c (Xfr n (k + len) (Z.min size (n - k)) len (Z.of_nat (length data))) h') /\
  hw_is h' [] (l ++ [(USB_ADDR2EID e, in_pkt n k)]).
Proof using Hs Hsi Hat HwOk Hio Hm Hdata.
  intros Hc Hst Hk Hn Hh len. pose proof (size_ok e (ea_eid _ _ _ _ Hs)) as Hsz.
  unfold __usbd_transfer_data, usbd_iter_reset. monad_red. rewrite (halting_at _ _ _ _ Hs) by apply Hc. cbn beta iota. sym Hs. xred.
  destruct (reset_in n k xa xc 0 [] l c h Hc Hk Hn Hh) as (h1 & -> & Hh1). cbn beta iota. sym Hs. xred. unfold bugif.
  rewrite (proj2 (Z.ltb_ge n k)) by lia. cbn beta iota. rewrite Hio. cbn [call_cb]. rewrite Hm by done.
  assert (Hlen : 0 <= len <= Z.min size (n - k)) by (unfold len, in_pkt; rewrite length_take; lia).
  assert (exists h2, emit epi data (at_ep e s c (Xfr n k (Z.min size (n - k)) 0 0) h1) =
    Ok (tt, at_ep e s c (Xfr n (k + len) (Z.min size (n - k)) len (Z.of_nat (length data))) h2) /\ after_write e (len =? size) (in_pkt n k) l h2) as (h2 & -> & Hh2).
  { apply calm_inner in Hc. destruct (decide (n = k)) as [->|Hne].
    - unfold len, in_pkt. rewrite Z.sub_diag, Z.min_r by lia. change (take (Z.to_nat 0) (drop (Z.to_nat k) data)) with (@nil Z). cbn [length Z.of_nat].
      rewrite (emit_skip epi e s di Hsi) by (done || lia). exists h1. rewrite Z.add_0_l, Z.add_0_r. split; [done|]. unfold after_write. by rewrite (proj2 (Z.eqb_neq 0 size)) by lia.
    - destruct (emit_run epi e s di Hsi data n k (Z.min size (n - k)) 0 0 [] l c h1) as (h2 & E & Hh2); [done|lia|lia|lia|lia|done|done|].
      exists h2. rewrite !Z.sub_0_r in E, Hh2. rewrite E. cbn [app] in Hh2. rewrite Z.add_0_l in Hh2. split; [|done]. done. }
  cbn beta iota. unfold usbd_request_reap. monad_red. rewrite (rdir_at _ _ _ _ Hs), (proj2 (proj2 Hc)). cbn beta iota.
  change (USB_DIR_IN =? USB_DIR_OUT) with false. cbn beta iota. apply end_in; [done|lia|done].
Qed.

Definition hw_free (h : hw) (l : list (Z * list Z)) : Prop := hw_inv h /\ hw_tx h = [] /\ hw_sent h = l.
Lemma select_free h l : hw_free h l -> hw_is (usbd_hw_endp_select e h) [] l.
Proof using HwOk. intros (? & ? & ?). destruct (select_ok e h) as (? & ? & ? & ? & _); [done|]. unfold UsbdIn.hw_is. split_and!; (done || congruence). Qed.
Lemma restore_free a h l : hw_is h [] l -> hw_free (usbd_hw_endp_select a h) l.
Proof using HwOk. intros (? & _ & ? & ?). destruct (select_ok a h) as (? & _ & ? & ? & _); [done|]. unfold hw_free. split_and!; (done || congruence). Qed.
Lemma kept_is h h' l : hw_is h [] l -> kept h h' -> hw_is h' [] l.
Proof using. intros (H0 & H1 & H2 & H3) (K0 & K1 & K2 & K3). unfold UsbdIn.hw_is. split_and!; [done|congruence|by apply K2|congruence]. Qed.
Lemma open_any v h l : hw_inv h /\ hw_sent h = l -> hw_is (usbd_hw_request_open v (usbd_hw_endp_select e h)) [] l.
Proof using HwOk.
  intros [H0 H1]. destruct (select_ok e h H0) as (S0 & S1 & _ & S3 & _). destruct (request_open_ok v _ S0) as (K0 & K1 & _ & K3).
  unfold UsbdIn.hw_is. split_and!; [done|congruence|by apply request_open_tx|congruence].
Qed.
Lemma open_kept v h l : hw_is h [] l -> hw_is (usbd_hw_request_open v h) [] l.
Proof using HwOk. intros Hh. eapply kept_is; [done|]. apply request_open_ok, Hh. Qed.
Lemma close_kept v h l : hw_is h [] l -> hw_is (usbd_hw_request_close v h) [] l.
Proof using HwOk. intros Hh. eapply kept_is; [done|]. apply request_close_ok, Hh. Qed.

(** ** A whole request *)
Context (n : Z) (Hn : 0 <= n < 2 ^ 16) (Hfull : zlp = true \/ n <= Z.of_nat (length data)).
Abbreviation body := (take (Z.to_nat n) data).
Abbreviation PEND := (0x10 ||| stg).
Abbreviation RUN := (0x30 ||| stg).
Context (Hstg : stg = 0 \/ stg = 1 \/ stg = 2) (Hrun : req_dir s d RUN = USB_DIR_IN).
Lemma calm_run : calm RUN.
Proof using Hstg Hrun.
  pose proof (stage_bits stg Hstg) as (_ & _ & _ & _ & _ & _ & _ & _ & [_ B9] & _ & B11). done.
Qed.
Lemma calm_pend : calm PEND.
Proof using Hstg Hrun.
  pose proof (stage_bits stg Hstg) as (B1 & B2 & _ & _ & _ & _ & _ & _ & [B9 _] & B10 & _). split; [done|]. split; [done|]. rewrite <- Hrun. unfold req_dir. by rewrite B1, B2.
Qed.
Lemma in_pkt_body k : 0 <= k <= n -> in_pkt n k = take (Z.to_nat size) (drop (Z.to_nat k) body).
Proof using Hs HwOk Hn Hdata Hfull.
  clear Hstg. intros Hk. unfold in_pkt. pose proof (size_ok e (ea_eid _ _ _ _ Hs)) as Hsz. rewrite skipn_firstn_comm, take_take. f_equal. lia.
Qed.
(** The stack's test for the last packet is the one of [packetize]. *)
Lemma lastb_packet k xa it : 0 <= k <= Z.of_nat (length body) -> let pkt := take (Z.to_nat size) (drop (Z.to_nat k) body) in
  let len := Z.of_nat (length pkt) in
  lastb e s (Xfr n (k + len) xa len it) =
  (if zlp then length pkt <? Z.to_nat size else length (drop (Z.to_nat k) body) <=? Z.to_nat size)%nat.
Proof using Hs Hfull Hn HwOk Hdata.
  clear Hstg. intros Hk pkt len. pose proof (size_ok e (ea_eid _ _ _ _ Hs)) as Hsz. unfold lastb. xred. destruct zlp.
  - destruct (Nat.ltb_spec (length pkt) (Z.to_nat size)); [apply Z.ltb_lt|apply Z.ltb_ge]; unfold len; lia.
  - destruct Hfull as [|Hf]; [done|]. subst len pkt. rewrite length_take, length_drop, length_take in *.
    rewrite wrap_id by lia. destruct (Nat.leb_spec (Z.to_nat n `min` length data - Z.to_nat k) (Z.to_nat size)); [apply Z.eqb_eq|apply Z.eqb_neq]; lia.
Qed.
(** [c] allows the next packet to be built. *)
Definition may_send (c : Z) (x : usb_transfer) : Prop := c = PEND \/ c = RUN /\ lastb e s x = false.
Lemma may_send_bits c x : may_send c x -> bits_raised c USBD_REQ_FLAG_SOFT = true /\ bits_raised c USBD_REQ_FLAG_ASYNC = false /\ req_dir s d c = USB_DIR_IN.
Proof using Hstg Hrun.
  pose proof (stage_bits stg Hstg) as (_ & _ & _ & _ & _ & _ & [B7 B7'] & [B8 B8'] & _). pose proof calm_pend as (_ & _ & Hp). by intros [->|[-> _]].
Qed.
Lemma iocb_packet c k xa xc it l h : may_send c (Xfr n k xa xc it) -> 0 <= k <= Z.of_nat (length body) -> hw_is h [] l ->
  let pkt := take (Z.to_nat size) (drop (Z.to_nat k) body) in
  let len := Z.of_nat (length pkt) in
  exists h', usbd_transfer_iocb ep (at_ep e s c (Xfr n k xa xc it) h) =
    Ok (tt, at_ep e s RUN (Xfr n (k + len) (Z.min size (n - k)) len (Z.of_nat (length data))) h') /\
  hw_is h' [] (l ++ [(USB_ADDR2EID e, pkt)]).
Proof using Hs Hsi Hat HwOk Hio Hm Hdata Hn Hfull Hstg Hrun.
  intros Hc Hk Hh pkt len. rewrite length_take in Hk. assert (Hkn : 0 <= k <= n) by lia. subst len pkt. rewrite <- in_pkt_body by done.
  destruct (stage_bits stg Hstg) as (_ & B2 & B3 & _ & B5 & B6 & _ & _ & [_ B9] & _).
  destruct (transfer_data_in n k xa xc it l RUN h) as (h' & E & Hh'); [apply calm_run|done|done|lia|done|]. exists h'. split; [|done].
  destruct Hc as [->|[-> Hc]]; [by rewrite (iocb_first _ _ _ _ Hs), B3|by rewrite (iocb_next _ _ _ _ Hs), Hc].
Qed.
Lemma run_in fuel a c k xa xc it l h : may_send c (Xfr n k xa xc it) -> 0 <= k <= Z.of_nat (length body) ->
  (length (drop (Z.to_nat k) body) < fuel)%nat -> hw_free h l ->
  let ps := packetize fuel zlp (Z.to_nat size) (drop (Z.to_nat k) body) in
  exists x' h', times (length ps) (irq_txin ep e) (out_ep e a s c (Xfr n k xa xc it) h) = Ok (tt, out_ep e a s RUN x' h') /\
  lastb e s x' = true /\ req_all x' = n /\ req_cur x' = Z.of_nat (length body) /\ hw_free h' (l ++ map (pair (USB_ADDR2EID e)) ps).
Proof using Hs Hsi Hat HwOk Hio Hm Hdata Hn Hfull Hstg Hrun.
  revert c k xa xc it l h. induction fuel as [|fuel IH]; intros c k xa xc it l h Hc Hk Hf Hh; [lia|]. pose proof (size_ok e (ea_eid _ _ _ _ Hs)) as Hsz.
  cbn [packetize]. set (pkt := take (Z.to_nat size) (drop (Z.to_nat k) body)). destruct (may_send_bits _ _ Hc) as (C1 & C2 & C3).
  destruct (iocb_packet c k xa xc it l (usbd_hw_endp_select e h) Hc Hk) as (h1 & E & Hh1); [by apply select_free|]. fold pkt in E, Hh1.
  cbn [length times map]. monad_red. rewrite (txin_out _ _ _ _ Hs) by done. monad_red. rewrite E. cbn beta iota. rewrite restore_out.
  cbn beta iota. pose proof (lastb_packet k (Z.min size (n - k)) (Z.of_nat (length data)) Hk) as Hl. cbn zeta in Hl. fold pkt in Hl.
  apply (restore_free a) in Hh1. assert (Hle : Z.of_nat (length pkt) <= Z.of_nat (length body) - k) by (unfold pkt; rewrite length_take, length_drop; lia).
  destruct (if zlp then _ else _) eqn:El.
  - cbn [length times map]. eexists _, _. split; [done|]. split_and!; [done|done| |done]. xred.
    assert ((length (drop (Z.to_nat k) body) <= Z.to_nat size)%nat) by (destruct zlp; [apply Nat.ltb_lt in El; unfold pkt in El; rewrite length_take in El; lia|by apply Nat.leb_le in El]).
    pose proof (length_drop body (Z.to_nat k)). pose proof (length_take (drop (Z.to_nat k) body) (Z.to_nat size)) as Hp. fold pkt in Hp. lia.
  - assert (Hfl : length pkt = Z.to_nat size).
    { unfold pkt. rewrite length_take. destruct zlp; [apply Nat.ltb_ge in El; unfold pkt in El; rewrite length_take in El; lia|apply Nat.leb_gt in El; lia]. }
    destruct (IH RUN (k + Z.of_nat (length pkt)) (Z.min size (n - k)) (Z.of_nat (length pkt)) (Z.of_nat (length data)) (l ++ [(USB_ADDR2EID e, pkt)]) (usbd_hw_endp_select a h1))
      as (x' & h' & E' & Hr); [by right|lia|rewrite length_drop in *; lia|done|].
    assert (Hd : drop (Z.to_nat (k + Z.of_nat (length pkt))) body = drop (Z.to_nat size) (drop (Z.to_nat k) body)) by (rewrite drop_drop; f_equal; lia).
    rewrite Hd, <- app_assoc in Hr. rewrite Hd in E'. cbn [app] in Hr. eauto.
Qed.
(** ** Submission and the first event *)
Abbreviation SUBM := ((if cfg_txaval then 0x50 else 0x10) ||| stg).
Definition woken (s : st) : st := if cfg_txaval then set_wake true s else s.
Lemma submit_in a it h l : USB_ADDR2EID e = USB_EID_DEFAULT \/ usbd_state s = USB_STATE_CONFIGURED -> hw_inv h /\ hw_sent h = l ->
  exists h', usbd_request_submit ep e n (out_ep e a s stg (Xfr 0 0 0 0 it) h) =
    Ok (true, out_ep e a (woken s) SUBM (Xfr n 0 (Z.min size n) 0 it) h') /\ hw_free h' l.
Proof using Hs HwOk Hn Hstg Hrun.
  clear Hio Hm Hdata Hfull. intros Hst Hh.
  assert (Bs : bits_raised stg USBD_REQ_FLAG_SOFT = false /\ bits_raised stg USBD_ENDP_FLAG_HALT = false /\ bits_raised stg USBD_REQ_FLAG_SYNC = false /\
    raise_bits USBD_REQ_FLAG_SOFT stg = PEND /\ raise_bits USBD_REQ_FLAG_ASYNC PEND = 0x50 ||| stg /\ stg &&& USBD_CTRL_STAGE_MASK = RUN &&& USBD_CTRL_STAGE_MASK)
    by (clear -Hstg; by destruct Hstg as [->|[->| ->]]).
  destruct Bs as (B1 & B2 & B3 & B4 & B5 & B6). assert (Hcs : calm stg) by (split; [done|]; split; [done|]; by rewrite (req_dir_stage s d stg RUN B6)).
  unfold usbd_request_submit, usbd_request_pending, usbd_request_limit, usbd_request_set_soft, usbd_request_open, usbd_request_begin, usbd_state_get.
  monad_red. rewrite save_out. cbn beta iota. sym Hs. rewrite (halting_at _ _ _ _ Hs) by done. cbn beta iota. rewrite B1. cbn [orb]. sym Hs.
  unfold gets. cbn beta iota. cbn [at_ep usbd_state].
  replace (negb (USB_ADDR2EID e =? USB_EID_DEFAULT) && negb (usbd_state s =? USB_STATE_CONFIGURED)) with false
    by (destruct Hst as [->| ->]; [done|by rewrite andb_false_r]).
  sym Hs. xred. rewrite limit_in by (done || lia). cbn beta iota. sym Hs. rewrite Z.sub_0_r, B4, (hw_call_at _ _ _ _ Hs). cbn beta iota. unfold woken.
  apply (open_any (req_view e s d PEND)) in Hh. destruct cfg_txaval.
  - rewrite (rdir_at _ _ _ _ Hs), (proj2 (proj2 calm_pend)). cbn beta iota. change (USB_DIR_IN =? USB_DIR_IN) with true. cbn beta iota. unfold usbd_request_set_async. sym Hs.
    rewrite B5, (hw_call_at _ _ _ _ Hs). cbn beta iota. apply (close_kept (req_view e s d (0x50 ||| stg))) in Hh.
    eexists. split; [done|]. by eapply restore_free.
  - eexists. split; [done|]. by eapply restore_free.
Qed.
(** The event that starts a submitted IN request: the controller's interrupt, or the bottom
    half where the stack emulates it. *)
Definition first_event : stm st unit := if cfg_txaval then usbd_async_iocb_addr ep e else irq_txin ep e.
Lemma first_in a xa it h l : hw_free h l ->
  let pkt := take (Z.to_nat size) body in
  let len := Z.of_nat (length pkt) in
  exists h', first_event (out_ep e a s SUBM (Xfr n 0 xa 0 it) h) =
    Ok (tt, out_ep e a s RUN (Xfr n len (Z.min size n) len (Z.of_nat (length data))) h') /\ hw_free h' (l ++ [(USB_ADDR2EID e, pkt)]).
Proof using Hs Hsi Hat HwOk Hio Hm Hdata Hn Hfull Hstg Hrun.
  intros Hh pkt len. apply select_free in Hh.
  assert (Hsend : forall h0, hw_is h0 [] l -> exists h', usbd_transfer_iocb ep (at_ep e s PEND (Xfr n 0 xa 0 it) h0) =
    Ok (tt, at_ep e s RUN (Xfr n len (Z.min size n) len (Z.of_nat (length data))) h') /\ hw_is h' [] (l ++ [(USB_ADDR2EID e, pkt)])).
  { intros h0 Hh0. destruct (iocb_packet PEND 0 xa 0 it l h0) as (h' & E & Hh'); [by left|lia|done|].
    change (drop (Z.to_nat 0) body) with body in E, Hh'. rewrite Z.sub_0_r, Z.add_0_l in E. exists h'. done. }
  unfold first_event. destruct cfg_txaval.
  - assert (bits_raised (0x50 ||| stg) USBD_REQ_FLAG_ASYNC = true /\ unraise_bits USBD_REQ_FLAG_ASYNC (0x50 ||| stg) = PEND) as [B1 B2]
      by (clear -Hstg; by destruct Hstg as [->|[->| ->]]).
    rewrite (async_out _ _ _ _ Hs) by done. monad_red. rewrite (async_at _ _ _ _ Hs), B2 by done.
    apply (open_kept (req_view e s d PEND)) in Hh. destruct (Hsend _ Hh) as (h' & -> & Hh').
    exists (usbd_hw_endp_select a h'). split; [done|by eapply restore_free].
  - destruct (may_send_bits PEND (Xfr n 0 xa 0 it)) as (C1 & C2 & C3); [by left|]. destruct (Hsend _ Hh) as (h' & E & Hh').
    rewrite (txin_out _ _ _ _ Hs) by done. monad_red. rewrite E. exists (usbd_hw_endp_select a h'). split; [done|by eapply restore_free].
Qed.
(** The packets after the first. *)
Lemma rest_in a l h : let pkt := take (Z.to_nat size) body in let len := Z.of_nat (length pkt) in let ps := packets zlp (Z.to_nat size) body in
  hw_free h (l ++ [(USB_ADDR2EID e, pkt)]) ->
  exists x h', times (length ps - 1) (irq_txin ep e) (out_ep e a s RUN (Xfr n len (Z.min size n) len (Z.of_nat (length data))) h) = Ok (tt, out_ep e a s RUN x h') /\
  lastb e s x = true /\ req_all x = n /\ req_cur x = Z.of_nat (length body) /\ hw_free h' (l ++ map (pair (USB_ADDR2EID e)) ps).
Proof using Hs Hsi Hat HwOk Hio Hm Hdata Hn Hfull Hstg Hrun.
  intros pkt len ps Hh2. pose proof (size_ok e (ea_eid _ _ _ _ Hs)) as Hsz. subst ps. unfold packets. cbn [packetize].
  assert (Hlb := lastb_packet 0 (Z.min size n) (Z.of_nat (length data)) ltac:(lia)). cbn zeta in Hlb. change (drop (Z.to_nat 0) body) with body in Hlb.
  rewrite Z.add_0_l in Hlb. subst len. set (b := body) in *. fold pkt in Hlb. fold pkt. cbn [length map]. rewrite Nat.sub_succ, Nat.sub_0_r.
  assert (Hlp : length pkt = Nat.min (Z.to_nat size) (length b)) by apply length_take.
  destruct (if zlp then _ else _) eqn:El.
  - cbn [length times map]. eexists _, _. split; [done|]. split_and!; [done|done| |done]. xred.
    destruct zlp; [apply Nat.ltb_lt in El|apply Nat.leb_le in El]; lia.
  - assert (Hge : (Z.to_nat size <= length b)%nat) by (destruct zlp; [apply Nat.ltb_ge in El|apply Nat.leb_gt in El]; lia).
    destruct (run_in (length b) a RUN (Z.of_nat (length pkt)) (Z.min size n) (Z.of_nat (length pkt)) (Z.of_nat (length data)) (l ++ [(USB_ADDR2EID e, pkt)]) h)
      as (x & h' & E & Hr); [by right|fold b; lia|rewrite length_drop; fold b; lia|done|].
    fold b in E, Hr. replace (Z.to_nat (Z.of_nat (length pkt))) with (Z.to_nat size) in E, Hr by lia.
    rewrite E. exists x, h'. rewrite <- app_assoc in Hr. done.
Qed.
(** From the submitted request to its last packet. *)
Lemma sent_in a xa it h l : hw_free h l -> let ps := packets zlp (Z.to_nat size) body in
  exists x h', (first_event;; times (length ps - 1) (irq_txin ep e)) (out_ep e a s SUBM (Xfr n 0 xa 0 it) h) = Ok (tt, out_ep e a s RUN x h') /\
  lastb e s x = true /\ req_all x = n /\ req_cur x = Z.of_nat (length body) /\ hw_free h' (l ++ map (pair (USB_ADDR2EID e)) ps).
Proof using Hs Hsi Hat HwOk Hio Hm Hdata Hn Hfull Hstg Hrun.
  intros Hh ps. destruct (first_in a xa it h l Hh) as (h2 & E2 & Hh2). destruct (rest_in a l h2 Hh2) as (x & h' & E & Hr).
  exists x, h'. split; [|done]. monad_red. rewrite E2. exact E.
Qed.
(** The interrupt after the last packet completes the request. *)
Lemma completed_in a x h l : lastb e s x = true -> hw_free h l ->
  exists h', irq_txin ep e (out_ep e a s RUN x h) = (complete ep d;; usbd_addr_restore a) (at_ep e s PEND x h') /\ hw_is h' [] l.
Proof using Hs HwOk Hstg Hrun.
  clear Hio Hm Hdata Hfull. intros Hl Hh. apply select_free in Hh. apply (close_kept (req_view e s d RUN)) in Hh.
  destruct (stage_bits stg Hstg) as (_ & _ & _ & B4 & _ & B6 & [B7 B7'] & [_ B8] & [_ B9] & _).
  rewrite (txin_out _ _ _ _ Hs) by (done || apply calm_run). monad_red.
  rewrite (iocb_next _ _ _ _ Hs), Hl, (exit_at _ _ _ _ Hs), B4 by (done || by rewrite B4). eexists. split; [done|exact Hh].
Qed.
End one.

(** A driver of an IN endpoint: in the driver's state [u] the handler writes [data]. *)
Record in_driver (e : Z) (d : usbd_endpoint (hw := hw) (U := U)) (u : U) (data : list Z) : Prop := InDriver {
  id_type : USBD_ATTR2TYPE (attrs d) <> USB_ENDP_CONTROL;
  id_dir : USBD_ATTR2DIR (attrs d) = USB_DIR_IN;
  id_iocb : exists m, iocb d = Some m /\ forall s c x h, user s = u -> m (at_ep e s c x h) = emit epi data (at_ep e s c x h)
}.
(** C13: An IN request is served.  On an idle bulk or interrupt endpoint, submit a request of
    [n] bytes with a handler that writes [data] in each of its runs (at least [n] bytes
    unless the endpoint ends requests with short packets).  The first event and one
    interrupt per further packet hand over exactly the first [n] bytes of [data], in order,
    in packets of the endpoint's size with the short or empty last packet the endpoint asks
    for, and touch neither other endpoints nor the driver's state; one more interrupt
    completes the request: [done] is called once, with all bytes accounted for. *)
Theorem in_request_served e s d di data n it :
  ep_at ep e s d -> ep_at epi e s di -> attrs di = attrs d -> in_driver e d (user s) data -> usbd_state s = USB_STATE_CONFIGURED ->
  usb_transfers s !! idx_of e = Some (Xfr 0 0 0 0 it) -> usbd_endp_ctrls s !! idx_of e = Some 0 -> hw_inv (hwst s) ->
  0 <= n < 2 ^ 16 -> Z.of_nat (length data) < 2 ^ 16 ->
  let zlp := Z.testbit (usbd_endp_zlps s) (USB_ADDR2EID e) in
  zlp = true \/ n <= Z.of_nat (length data) ->
  let ps := packets zlp (Z.to_nat (usbd_hw_endp_size e)) (take (Z.to_nat n) data) in
  let sent := hw_sent (hwst s) ++ map (pair (USB_ADDR2EID e)) ps in
  let io := usbd_request_submit ep e n;; first_event e;; times (length ps - 1) (irq_txin ep e) in
  exists x h h', req_all x = n /\ req_cur x = Z.of_nat (length (take (Z.to_nat n) data)) /\ hw_sent h = sent /\ hw_sent h' = sent /\
  io s = Ok (tt, out_ep e (usbd_endp s) (woken s) 0x30 x h) /\
  (io;; irq_txin ep e) s = (complete ep d;; usbd_addr_restore (usbd_endp s)) (at_ep e (woken s) 0x10 x h').
Proof.
  intros Hs Hsi Hat Hd Hst Hx Hc Hinv Hn Hl zlp Hf ps sent io. assert (Hself := out_ep_self e s 0 _ Hx Hc).
  destruct (id_iocb _ _ _ _ Hd) as (m & Em & Hm).
  assert (Hdir : req_dir (woken s) d 0x30 = USB_DIR_IN /\ req_dir s d 0x30 = USB_DIR_IN).
  { unfold req_dir. rewrite (proj2 (Z.eqb_neq _ _) (id_type _ _ _ _ Hd)). split; apply Hd. }
  assert (Hwk : ep_at ep e (woken s) d /\ ep_at epi e (woken s) di /\ user (woken s) = user s /\ usbd_endp_zlps (woken s) = usbd_endp_zlps s).
  { unfold woken. destruct cfg_txaval; [|done]. split_and!; [by apply ep_at_wake|by apply ep_at_wake|done|done]. }
  destruct Hwk as (Hsw & Hsiw & Huw & Hzw). destruct Hdir as [Hdw Hdir].
  destruct (submit_in e s d Hs 0 n Hn (or_introl eq_refl) Hdir (usbd_endp s) it (hwst s) (hw_sent (hwst s))) as (h1 & E1 & Hh1); [by right|done|]. rewrite <- Hself in E1.
  destruct (sent_in e (woken s) d di Hsw Hsiw Hat 0 m data Em (fun c x h _ _ => Hm (woken s) c x h Huw) Hl n Hn) with (a := usbd_endp s) (xa := Z.min (usbd_hw_endp_size e) n) (it := it) (h := h1)
    (l := hw_sent (hwst s)) as (x & h & E2 & Hlast & Hra & Hrc & Hfree); [by rewrite Hzw|by left|done|done|]. rewrite Hzw in E2, Hfree. fold zlp ps in E2, Hfree. fold sent in Hfree.
  destruct (completed_in e (woken s) d Hsw 0 (or_introl eq_refl) Hdw (usbd_endp s) x h sent Hlast Hfree) as (h' & E3 & Hh').
  assert (E : io s = Ok (tt, out_ep e (usbd_endp s) (woken s) 0x30 x h)) by (unfold io; monad_red; rewrite E1; exact E2).
  exists x, h, h'. split_and!; [done|done|apply Hfree|apply Hh'|done|]. monad_red. rewrite E. exact E3.
Qed.
End inreq.
