(* ===== verification/UsbdOut.v ===== *)
(** * USB device stack: OUT requests

    The handler of an OUT endpoint reads every byte of the request into the driver's
    variables ([USBD_OUTB(v)] is [v = usbd_outb(v)]) and is run again for every packet; bytes
    that earlier packets brought keep their value.  The bytes of all packets end in the
    variables as if they had been read in one run. *)
From S2P Require Import Prelude MulDiv Usbd UsbdHal UsbdIn.

Section outreq.
Context {hw U : Type} {Hw : UsbdHw hw} {Obs : UsbdObs hw} {Cfg : UsbdCfg} {HwOk : UsbdHwOk hw}.
Abbreviation st := (usbd hw U).
Context (ep : nat -> usbd_endpoint (hw := hw) (U := U)).

(** A variable of a driver: how its value is read and stored. *)
Record cell : Type := Cell { c_get : U -> Z; c_put : Z -> U -> U }.
Definition cell_ok (k : cell) : Prop := forall u, c_put k (c_get k u) u = u.
Definition outb_into (k : cell) : stm st unit :=
  b ← gets (fun s => c_get k (user s)); b' ← usbd_outb ep b; modify (fun s => set_user (c_put k b' (user s)) s).
Fixpoint absorb (cells : list cell) : stm st unit := match cells with [] => mret tt | k :: cells => outb_into k;; absorb cells end.
(** Bytes stored into successive variables, as far as both go. *)
Fixpoint store (cells : list cell) (bytes : list Z) (u : U) : U :=
  match cells, bytes with k :: cells, b :: bytes => store cells bytes (c_put k b u) | _, _ => u end.

Lemma store_app cells a b u : store cells (a ++ b) u = store (drop (length a) cells) b (store cells a u).
Proof. revert cells u. induction a as [|x a IH]; intros [|k cells] u; cbn; done. Qed.

Section one.
Context (e : Z) (d : usbd_endpoint (hw := hw) (U := U)).
Abbreviation calm s := (calm s d USB_DIR_OUT).
Implicit Types (s : st) (c : Z) (x : usb_transfer) (h : hw).
Abbreviation size := (usbd_hw_endp_size e).

(** The control pipe's packets that are not data have a fixed length. *)
Definition stage_len (d : usbd_endpoint (hw := hw) (U := U)) c (p : list Z) : Prop :=
  (USBD_ATTR2TYPE (attrs d) = USB_ENDP_CONTROL -> c &&& USBD_CTRL_STAGE_MASK = USBD_CTRL_STAGE_SETUP -> length p = 8%nat) /\
  (USBD_ATTR2TYPE (attrs d) = USB_ENDP_CONTROL -> c &&& USBD_CTRL_STAGE_MASK = USBD_CTRL_STAGE_STATUS -> length p = 0%nat).
(** The controller has [e] selected, [r] left of the packet being read and has sent [l]. *)
Definition hw_has (h : hw) (r : list Z) (l : list (Z * list Z)) : Prop :=
  hw_inv h /\ hw_sel h = USB_ADDR2EID e /\ hw_rx h = r /\ hw_sent h = l.

Lemma read_at b r l s c x h : hw_has h (b :: r) l ->
  exists h', hw_read_byte (at_ep e s c x h) = Ok (b, at_ep e s c x h') /\ hw_has h' r l.
Proof using HwOk.
  intros (H0 & H1 & H2 & H3). destruct (read_ok b r h H0 H2) as (h' & E & ? & ? & ? & ?).
  exists h'. unfold hw_read_byte, getr. monad_red. cbn [hwst at_ep]. rewrite E. split; [done|]. unfold hw_has. split_and!; (done || congruence).
Qed.
Lemma close_out_at r l s c x h : ep_at ep e s d -> calm s c -> hw_has h r l ->
  exists h', hw_transfer_close ep (at_ep e s c x h) = Ok (tt, at_ep e s c x h') /\ hw_has h' r l.
Proof using HwOk.
  intros Hs Hc (H0 & H1 & H2 & H3). destruct (close_out_ok (req_view e s d c) h H0) as (h' & E & ? & ? & ? & ?); [apply Hc|].
  exists h'. unfold hw_transfer_close, getr. monad_red. rewrite (view_at _ _ _ _ Hs). cbn [hwst at_ep]. rewrite E.
  split; [done|]. unfold hw_has. split_and!; (done || congruence).
Qed.
Lemma open_out_at p l s c n k xa xc it h : ep_at ep e s d -> calm s c -> stage_len d c p ->
  hw_inv h -> hw_sel h = USB_ADDR2EID e -> hw_pkt h (USB_ADDR2EID e) = Some p -> hw_sent h = l -> Z.of_nat (length p) <= size ->
  exists h', hw_transfer_open ep (at_ep e s c (Xfr n k xa xc it) h) = Ok (tt, at_ep e s c (Xfr n k (Z.of_nat (length p)) xc it) h') /\ hw_has h' p l.
Proof using HwOk.
  intros Hs Hc [Hp1 Hp2] H0 H1 H2 H3 Hp. pose proof (size_ok e (ea_eid _ _ _ _ Hs)) as Hsz.
  destruct (open_out_ok (req_view e s d c) h p H0) as (h' & E & ? & ? & ? & ?); [apply Hc|apply Hc|done|by rewrite H1|done|done|].
  exists h'. unfold hw_transfer_open, getr, usbd_transfer_submit. monad_red. rewrite (view_at _ _ _ _ Hs). cbn [hwst at_ep]. rewrite E. cbn beta iota. cbn [fst snd].
  sym Hs. xred. rewrite (wrap_id 8 (Z.of_nat (length p))) by lia. split; [done|]. unfold hw_has. split_and!; (done || congruence).
Qed.

Lemma outb_skip b s c x h : ep_at ep e s d -> calm s c -> xfr_all x = xfr_cur x \/ req_cur x <> iter x ->
  usbd_outb ep b (at_ep e s c x h) = Ok (b, at_ep e s c (set_iter (u16 (iter x + 1)) x) h).
Proof using.
  intros Hs Hc Hx. unfold usbd_outb, usbd_request_syncing, usbd_outb_async, usbd_transfer_unhandled. sym Hs. rewrite (proj1 (proj2 Hc)). sym Hs.
  replace ((0 <? u8 (xfr_all x - xfr_cur x)) && (req_cur x =? iter x)) with false; [by sym Hs|].
  destruct Hx as [->|Hx]; [by rewrite Z.sub_diag|]. rewrite (proj2 (Z.eqb_neq _ _) Hx). by rewrite andb_false_r.
Qed.
Lemma outb_read b0 b r l n k xa xc s c h : ep_at ep e s d -> calm s c ->
  0 <= xc < xa -> xa <= size -> 0 <= k < 2 ^ 16 - 1 -> hw_has h (b :: r) l ->
  exists h', usbd_outb ep b0 (at_ep e s c (Xfr n k xa xc k) h) = Ok (b, at_ep e s c (Xfr n (k + 1) xa (xc + 1) (k + 1)) h') /\ hw_has h' r l.
Proof using HwOk.
  intros Hs Hc Hxc Hxa Hk Hh. pose proof (size_ok e (ea_eid _ _ _ _ Hs)) as Hsz.
  unfold usbd_outb, usbd_request_syncing, usbd_outb_async, usbd_transfer_unhandled, close_if_full, usbd_transfer_handled. sym Hs. rewrite (proj1 (proj2 Hc)). sym Hs.
  xred. rewrite (wrap_id 8 (xa - xc)) by lia. rewrite (proj2 (Z.ltb_lt 0 (xa - xc))), Z.eqb_refl by lia. cbn [andb].
  destruct (read_at b r l s c (Xfr n k xa xc k) h Hh) as (h1 & -> & Hh1). cbn beta iota. sym Hs. xred.
  rewrite (wrap_id 16 (k + 1)), (wrap_id 8 (xc + 1)) by lia. destruct (xc + 1 =? size).
  - destruct (close_out_at r l s c (Xfr n (k + 1) xa (xc + 1) k) h1 Hs Hc Hh1) as (h2 & -> & Hh2). cbn beta iota. sym Hs.
    exists h2. split; [|done]. xred. by rewrite (wrap_id 16 (k + 1)) by lia.
  - cbn beta iota. sym Hs. exists h1. split; [|done]. xred. by rewrite (wrap_id 16 (k + 1)) by lia.
Qed.
Lemma outb_into_skip k0 s c x h : cell_ok k0 -> ep_at ep e s d -> calm s c -> xfr_all x = xfr_cur x \/ req_cur x <> iter x ->
  outb_into k0 (at_ep e s c x h) = Ok (tt, at_ep e s c (set_iter (u16 (iter x + 1)) x) h).
Proof using.
  intros Hk Hs Hc Hx. unfold outb_into, gets, modify. monad_red. rewrite outb_skip by done. cbn beta iota. cbn [at_ep user]. rewrite Hk. done.
Qed.
(** A run of the handler over a packet of which [r] is left: the variables after the [k - it]
    skipped ones take the bytes of [r]. *)
Lemma absorb_run cells r l n k xa xc it s c h : ep_at ep e s d -> Forall cell_ok cells -> calm s c ->
  0 <= it -> it <= k \/ r = [] -> it + Z.of_nat (length cells) < 2 ^ 16 -> 0 <= k -> k + Z.of_nat (length r) < 2 ^ 16 ->
  0 <= xc -> xa - xc = Z.of_nat (length r) -> xa <= size -> hw_has h r l ->
  let m := Nat.min (length (drop (Z.to_nat (k - it)) cells)) (length r) in
  exists h', absorb cells (at_ep e s c (Xfr n k xa xc it) h) =
    Ok (tt, at_ep e (set_user (store (drop (Z.to_nat (k - it)) cells) r (user s)) s) c
      (Xfr n (k + Z.of_nat m) xa (xc + Z.of_nat m) (it + Z.of_nat (length cells))) h') /\ hw_has h' (drop m r) l.
Proof using HwOk.
  intros Hs Hcs Hc. revert r k xc it s h Hs Hc. induction Hcs as [|k0 cells Hk0 Hcs IH]; intros r k xc it s h Hs Hc Hit Hik Hl Hk Hkr Hxc Hr Hxa Hh.
  - rewrite drop_nil. cbn [length absorb store Nat.min Z.of_nat]. rewrite !Z.add_0_r, set_user_id. exists h. split; [done|]. by destruct r.
  - cbn [absorb length] in *. monad_red. destruct r as [|b r].
    + cbn [length] in *. assert (xa = xc) by lia. rewrite outb_into_skip by (done || by left). xred. cbn beta iota. rewrite (wrap_id 16 (it + 1)) by lia.
      destruct (IH [] k xc (it + 1) s h Hs Hc) as (h' & E & Hh'); [lia|by right|lia|done|done|done|done|done|done|].
      rewrite E. exists h'. cbn [length] in *. rewrite !Nat.min_0_r in *. split; [|by rewrite drop_nil in *].
      replace (it + 1 + Z.of_nat (length cells)) with (it + Z.of_nat (S (length cells))) by lia. by repeat destruct (drop _ _).
    + destruct Hik as [Hik|]; [|done]. cbn [length] in *. destruct (decide (it = k)) as [->|Hne].
      * rewrite Z.sub_diag. change (Z.to_nat 0) with 0%nat. cbn [skipn length store].
        unfold outb_into at 1, gets, modify. monad_red.
        destruct (outb_read (c_get k0 (user (at_ep e s c (Xfr n k xa xc k) h))) b r l n k xa xc s c h Hs Hc) as (h1 & -> & Hh1); [lia..|done|].
        cbn beta iota. change (set_user (c_put k0 b (user (at_ep e s c (Xfr n (k + 1) xa (xc + 1) (k + 1)) h1))) (at_ep e s c (Xfr n (k + 1) xa (xc + 1) (k + 1)) h1))
          with (at_ep e (set_user (c_put k0 b (user s)) s) c (Xfr n (k + 1) xa (xc + 1) (k + 1)) h1).
        destruct (IH r (k + 1) (xc + 1) (k + 1) (set_user (c_put k0 b (user s)) s) h1) as (h' & E & Hh'); [by apply ep_at_user|done|lia|by left|lia..|done|].
        rewrite Z.sub_diag in E, Hh'. change (drop (Z.to_nat 0) cells) with cells in E, Hh'. rewrite E. exists h'. cbn [Nat.min skipn]. split; [|done].
        do 4 f_equal; lia.
      * rewrite outb_into_skip by (done || right; cbn; lia). xred. cbn beta iota. rewrite (wrap_id 16 (it + 1)) by lia.
        destruct (IH (b :: r) k xc (it + 1) s h Hs Hc) as (h' & E & Hh'); [lia|left; lia|lia|done|cbn; lia|done|done|done|done|].
        replace (Z.to_nat (k - it)) with (S (Z.to_nat (k - (it + 1)))) by lia. cbn [skipn]. rewrite E. exists h'. split; [|done].
        do 4 f_equal; lia.
Qed.
(** The unread rest of the packet is read and dropped. *)
Lemma reap_run fuel v r l n k xa xc it s c h : ep_at ep e s d -> calm s c ->
  0 <= it -> it <= k \/ r = [] -> k + Z.of_nat (length r) < 2 ^ 16 -> (Z.to_nat (k - it) + length r < fuel)%nat ->
  0 <= xc -> xa - xc = Z.of_nat (length r) -> xa <= size -> hw_has h r l ->
  exists h' it', reap_loop ep fuel v (at_ep e s c (Xfr n k xa xc it) h) = Ok (tt, at_ep e s c (Xfr n (k + Z.of_nat (length r)) xa xa it') h') /\ hw_has h' [] l.
Proof using HwOk.
  intros Hs Hc. revert v r k xc it h. induction fuel as [|fuel IH]; intros v r k xc it h Hit Hik Hkr Hf Hxc Hr Hxa Hh; [lia|].
  pose proof (size_ok e (ea_eid _ _ _ _ Hs)) as Hsz.
  cbn [reap_loop]. unfold usbd_transfer_unhandled at 1. sym Hs. xred. rewrite (wrap_id 8 (xa - xc)), Hr by lia. destruct r as [|b r].
  - cbn [length Z.of_nat Z.ltb Z.compare]. exists h, it. cbn in Hr. assert (xa = xc) as -> by lia. by rewrite Z.add_0_r.
  - rewrite (proj2 (Z.ltb_lt 0 _)) by (cbn; lia). destruct Hik as [Hik|]; [|done]. cbn [length] in *. destruct (decide (it = k)) as [->|Hne].
    + destruct (outb_read v b r l n k xa xc s c h Hs Hc) as (h1 & -> & Hh1); [lia..|done|]. cbn beta iota.
      destruct (IH b r (k + 1) (xc + 1) (k + 1) h1) as (h' & it' & -> & Hh'); [lia|by left|lia..|done|]. exists h', it'. split; [|done]. do 4 f_equal; lia.
    + rewrite outb_skip by (done || right; cbn; lia). xred. cbn beta iota. rewrite (wrap_id 16 (it + 1)) by lia.
      destruct (IH v (b :: r) k xc (it + 1) h) as (h' & it' & E & Hh'); [lia|left; lia|cbn; lia|cbn; lia|done|done|done|done|]. rewrite E. by exists h', it'.
Qed.
End one.
End outreq.

(** ** Packets of a request

    [ep] is the table of endpoints of the stack, [epi] the one the handler's own calls use. *)
Section outreq.
Context {hw U : Type} {Hw : UsbdHw hw} {Obs : UsbdObs hw} {Cfg : UsbdCfg} {HwOk : UsbdHwOk hw}.
Abbreviation st := (usbd hw U).
Context (ep epi : nat -> usbd_endpoint (hw := hw) (U := U)).

Section one.
Context (e : Z) (d : usbd_endpoint (hw := hw) (U := U)).
Implicit Types (s : st) (c : Z) (x : usb_transfer) (h : hw).
Abbreviation calm s := (calm s d USB_DIR_OUT).
Abbreviation size := (usbd_hw_endp_size e).
Abbreviation hw_has := (hw_has e).
Definition hw_on (h : hw) (l : list (Z * list Z)) : Prop := hw_inv h /\ hw_sel h = USB_ADDR2EID e /\ hw_sent h = l.
Definition hw_off (h : hw) (l : list (Z * list Z)) : Prop := hw_inv h /\ hw_sent h = l.
Lemma on_off a h l : hw_on h l -> hw_off (usbd_hw_endp_select a h) l.
Proof using HwOk. intros (A0 & A1 & A2). destruct (select_ok a h A0) as (B0 & _ & _ & B2 & _). split; [done|congruence]. Qed.
Lemma off_on h l : hw_off h l -> hw_on (usbd_hw_endp_select e h) l.
Proof using HwOk. intros (A0 & A2). destruct (select_ok e h A0) as (B0 & B1 & _ & B2 & _). unfold hw_on. split_and!; (done || congruence). Qed.
Lemma kept_on h h' l : hw_on h l -> kept h h' -> hw_on h' l.
Proof using. intros (H0 & H1 & H3) (K0 & K1 & _ & K3). unfold hw_on. split_and!; [done|congruence..]. Qed.

(** The end of a run over an OUT packet: a short packet is released here (a full one was when
    its last byte was read), and the end of the request is announced to the bottom half. *)
Lemma end_out n k xa xc it r l s c h : ep_at ep e s d -> calm s c -> bits_raised c USBD_REQ_FLAG_ASYNC = false -> hw_has h r l ->
  let x := Xfr n k xa xc it in
  let b := lastb e s x in
  exists h', usbd_request_end ep (at_ep e s c x h) =
    Ok (tt, at_ep e (if b then set_wake true s else s) (if b then raise_bits USBD_REQ_FLAG_ASYNC c else c) x h') /\ hw_on h' l.
Proof using HwOk.
  intros Hs Hc Hc3 Hh x b. destruct (Hc) as (Hc1 & Hc2 & Hdir).
  unfold usbd_request_end, usbd_endpoint_halting, usbd_request_asyncing, usbd_request_syncing. sym Hs. rewrite Hc1. cbn beta iota.
  rewrite (partial_at _ _ _ _ Hs). cbn beta iota.
  assert (Htail : forall h0, hw_has h0 r l -> exists h', (l0 ← usbd_transfer_last;
      if l0 : bool then d0 ← usbd_request_dir ep; sy ← flagged USBD_REQ_FLAG_SYNC;
        if ((d0 =? USB_DIR_OUT) || sy)%bool then usbd_request_set_async ep else mret tt
      else mret tt) (at_ep e s c x h0) = Ok (tt, at_ep e (if b then set_wake true s else s) (if b then raise_bits USBD_REQ_FLAG_ASYNC c else c) x h') /\ hw_on h' l).
  { intros h0 (A0 & A1 & A2 & A3). monad_red. rewrite (last_at _ _ _ _ Hs). cbn beta iota. unfold b, lastb. destruct (if Z.testbit _ _ then _ else _).
    - rewrite (rdir_at _ _ _ _ Hs), Hdir. cbn beta iota. sym Hs. change (USB_DIR_OUT =? USB_DIR_OUT) with true. cbn [orb]. unfold usbd_request_set_async. sym Hs.
      rewrite (hw_call_at _ _ _ _ Hs). cbn beta iota. eexists. split; [done|]. eapply kept_on; [|by apply request_close_ok]. done.
    - exists h0. done. }
  destruct (xfr_cur x <? size).
  - rewrite (rdir_at _ _ _ _ Hs), Hdir. cbn beta iota. sym Hs. rewrite Hc3. change (USB_DIR_OUT =? USB_DIR_IN) with false. cbn [orb negb].
    destruct (close_out_at ep e d r l s c x h Hs Hc Hh) as (h1 & -> & Hh1). cbn beta iota. by apply Htail.
  - sym Hs. rewrite Hc2. cbn [andb]. by apply Htail.
Qed.
(** What the handler [m] does in a run over the packet [p] of which it reads [mm] bytes. *)
Definition reads (m : stm st unit) s c n k (p : list Z) s1 c1 : Prop := forall l h, hw_has h p l -> exists mm it h',
  m (at_ep e s c (Xfr n k (Z.of_nat (length p)) 0 0) h) = Ok (tt, at_ep e s1 c1 (Xfr n (k + Z.of_nat mm) (Z.of_nat (length p)) (Z.of_nat mm) it) h') /\
  hw_has h' (drop mm p) l /\ (mm <= length p)%nat /\ 0 <= it < 2 ^ 16 /\ (it <= k + Z.of_nat mm \/ mm = length p).

Lemma transfer_data_out m n k xa xc it p l s c s1 c1 h : iocb d = Some m -> ep_at ep e s d -> ep_at ep e s1 d -> calm s c -> calm s1 c1 -> stage_len d c p ->
  bits_raised c1 USBD_REQ_FLAG_ASYNC = false -> reads m s c n k p s1 c1 ->
  0 <= k <= n -> n < 2 ^ 16 -> k + Z.of_nat (length p) < 2 ^ 16 -> Z.of_nat (length p) <= size ->
  hw_on h l -> hw_pkt h (USB_ADDR2EID e) = Some p ->
  exists h' it', let x := Xfr n (k + Z.of_nat (length p)) (Z.of_nat (length p)) (Z.of_nat (length p)) it' in
  __usbd_transfer_data ep (at_ep e s c (Xfr n k xa xc it) h) =
    Ok (tt, at_ep e (if lastb e s1 x then set_wake true s1 else s1) (if lastb e s1 x then raise_bits USBD_REQ_FLAG_ASYNC c1 else c1) x h') /\ hw_on h' l.
Proof using HwOk.
  intros Hio Hs Hs1 Hc Hc1 Hsl Hc3 Hm Hk Hn Hkp Hp (A0 & A1 & A3) Hpk.
  unfold __usbd_transfer_data, usbd_iter_reset, usbd_transfer_reset, usbd_transfer_limit. monad_red. rewrite (halting_at _ _ _ _ Hs) by apply Hc. cbn beta iota. sym Hs. xred.
  rewrite (rdir_at _ _ _ _ Hs), (proj2 (proj2 Hc)). cbn beta iota. change (USB_DIR_OUT =? USB_DIR_IN) with false. cbn beta iota.
  destruct (open_out_at ep e d p l s c n k xa 0 0 h Hs Hc Hsl) as (h1 & -> & Hh1); [done..|]. cbn beta iota. sym Hs. xred. unfold bugif.
  rewrite (proj2 (Z.ltb_ge n k)) by lia. cbn beta iota. rewrite Hio. cbn [call_cb].
  destruct (Hm l h1 Hh1) as (mm & it1 & h2 & E2 & Hh2 & Hmm & Hit & Hor). rewrite E2. cbn beta iota. clear E2.
  unfold usbd_request_reap. monad_red. rewrite (rdir_at _ _ _ _ Hs1), (proj2 (proj2 Hc1)). cbn beta iota. change (USB_DIR_OUT =? USB_DIR_OUT) with true. cbn beta iota.
  assert (Hdl : length (drop mm p) = (length p - mm)%nat) by apply length_drop.
  destruct (reap_run ep e d REAP_FUEL 0 (drop mm p) l n (k + Z.of_nat mm) (Z.of_nat (length p)) (Z.of_nat mm) it1 s1 c1 h2 Hs1 Hc1) as (h3 & it' & E3 & Hh3).
  { lia. } { destruct Hor as [Q|Q]; [by left|right; rewrite Q; apply drop_all]. } { lia. }
  { unfold REAP_FUEL. lia. } { lia. } { lia. } { lia. } { done. }
  rewrite E3. cbn beta iota. replace (k + Z.of_nat mm + Z.of_nat (length (drop mm p))) with (k + Z.of_nat (length p)) by lia.
  destruct (end_out n (k + Z.of_nat (length p)) (Z.of_nat (length p)) (Z.of_nat (length p)) it' [] l s1 c1 h3 Hs1 Hc1 Hc3 Hh3) as (h4 & E4 & Hh4).
  exists h4, it'. split; [|done]. exact E4.
Qed.
(** A handler that reads into variables. *)
Lemma absorb_reads di m cells n k p s c : ep_at epi e s di -> attrs di = attrs d -> calm s c -> (forall x h, m (at_ep e s c x h) = absorb epi cells (at_ep e s c x h)) ->
  Forall cell_ok cells -> Z.of_nat (length cells) < 2 ^ 16 -> 0 <= k -> k + Z.of_nat (length p) < 2 ^ 16 -> Z.of_nat (length p) <= size ->
  reads m s c n k p (set_user (store (drop (Z.to_nat k) cells) p (user s)) s) c.
Proof using HwOk.
  intros Hs Hat Hc Hm Hcells Hlen Hk Hkp Hp l h Hh. assert (Hci : UsbdHal.calm s di USB_DIR_OUT c) by (unfold UsbdHal.calm, req_dir in *; by rewrite Hat).
  destruct (absorb_run epi e di cells p l n k (Z.of_nat (length p)) 0 0 s c h Hs Hcells Hci) as (h2 & E2 & Hh2); [lia|left; lia|lia..|done|].
  rewrite Z.sub_0_r in E2, Hh2. rewrite !Z.add_0_l in E2. rewrite Hm, E2. set (mm := Nat.min (length (drop (Z.to_nat k) cells)) (length p)) in *.
  exists mm, (Z.of_nat (length cells)), h2. assert ((mm = length p \/ mm = length cells - Z.to_nat k /\ mm <= length p)%nat) by (unfold mm; rewrite length_drop; lia).
  split_and!; [done|done|lia..].
Qed.

(** ** Interrupts

    The host: [deliver p] is the arrival of the packet [p] on the endpoint. *)
Context (deliver : list Z -> hw -> hw).
Definition delivers : Prop := forall p h, hw_inv h -> Z.of_nat (length p) <= size ->
  hw_inv (deliver p h) /\ hw_sent (deliver p h) = hw_sent h /\ hw_pkt (deliver p h) (USB_ADDR2EID e) = Some p.
Context (Hdel : delivers).
Definition packet_in (p : list Z) : stm st unit := modify (fun s => set_hw (deliver p (hwst s)) s);; irq_rxout ep e.
Fixpoint packets_in (ps : list (list Z)) : stm st unit := match ps with [] => mret tt | p :: ps => packet_in p;; packets_in ps end.
(** The packets of one request of [n] bytes, [tot] of which have arrived: full ones up to a
    short one on an endpoint with explicit ends, any up to the [n]th byte on others. *)
Fixpoint out_sched (zlp : bool) (n tot : Z) (ps : list (list Z)) : bool :=
  match ps with
  | [] => false
  | p :: ps =>
      let len := Z.of_nat (length p) in
      let last := if zlp then len <? size else tot + len =? n in
      (len <=? size) && (tot + len <=? n) && match ps with [] => last | _ => negb last && out_sched zlp n (tot + len) ps end
  end.

Lemma deliver_on p h l : Z.of_nat (length p) <= size -> hw_off h l ->
  let h' := usbd_hw_endp_select e (deliver p h) in hw_on h' l /\ hw_pkt h' (USB_ADDR2EID e) = Some p.
Proof using HwOk Hdel.
  intros Hp [A0 A1] h'. destruct (Hdel p h A0 Hp) as (D0 & D1 & D2). split; [apply off_on; split; [done|congruence]|].
  destruct (select_ok e (deliver p h) D0) as (_ & _ & _ & _ & B). unfold h'. by rewrite B.
Qed.
(** One packet on an endpoint whose request waits for its first or next one, in stage [stg]. *)
Context (stg : Z) (Hstg : stg = 0 \/ stg = 1 \/ stg = 2).
Abbreviation PEND := (0x10 ||| stg).
Abbreviation RUN := (0x30 ||| stg).
Definition may_recv s c x : Prop := c = PEND \/ c = RUN /\ lastb e s x = false.
Lemma recv_iocb s c x h : ep_at ep e s d -> may_recv s c x -> usbd_transfer_iocb ep (at_ep e s c x h) = __usbd_transfer_data ep (at_ep e s RUN x h).
Proof using Hstg.
  intros Hs Hc. destruct (stage_bits stg Hstg) as (_ & _ & B3 & _ & B5 & B6 & _ & _ & [_ B9] & _).
  destruct Hc as [->|[-> Hc]]; [by rewrite (iocb_first _ _ _ _ Hs), B3|by rewrite (iocb_next _ _ _ _ Hs), Hc].
Qed.
Lemma packet_run a s c x p h : ep_at ep e s d -> calm s RUN -> may_recv s c x ->
  packet_in p (out_ep e a s c x h) = (__usbd_transfer_data ep;; usbd_addr_restore a) (at_ep e s RUN x (usbd_hw_endp_select e (deliver p h))).
Proof using Hstg.
  intros Hs (_ & _ & Hdir) Hc. destruct (stage_bits stg Hstg) as (B1 & B2 & _ & _ & _ & _ & [B7 B7'] & [B8 B8'] & _). unfold packet_in, modify. monad_red.
  change (set_hw (deliver p (hwst (out_ep e a s c x h))) (out_ep e a s c x h)) with (out_ep e a s c x (deliver p h)).
  assert (req_dir s d c = USB_DIR_OUT) by (rewrite <- Hdir; apply req_dir_stage; destruct Hc as [->|[-> _]]; congruence).
  rewrite (rxout_out _ _ _ _ Hs) by (done || by destruct Hc as [->|[-> _]]). monad_red. by rewrite recv_iocb.
Qed.
Lemma packet_step m n k xa xc it p l a s c s1 c1 h : iocb d = Some m -> ep_at ep e s d -> ep_at ep e s1 d -> calm s RUN -> calm s1 c1 -> stage_len d RUN p ->
  bits_raised c1 USBD_REQ_FLAG_ASYNC = false -> reads m s RUN n k p s1 c1 -> may_recv s c (Xfr n k xa xc it) ->
  0 <= k <= n -> n < 2 ^ 16 -> k + Z.of_nat (length p) < 2 ^ 16 -> Z.of_nat (length p) <= size -> hw_off h l ->
  exists h' it', let x := Xfr n (k + Z.of_nat (length p)) (Z.of_nat (length p)) (Z.of_nat (length p)) it' in
  packet_in p (out_ep e a s c (Xfr n k xa xc it) h) =
    Ok (tt, out_ep e a (if lastb e s1 x then set_wake true s1 else s1) (if lastb e s1 x then raise_bits USBD_REQ_FLAG_ASYNC c1 else c1) x h') /\ hw_off h' l.
Proof using HwOk Hdel Hstg.
  intros Hio Hs Hs1 Hc0 Hc1 Hsl Hc3 Hm Hc Hk Hn Hkp Hp Hh. destruct (deliver_on p h l Hp Hh) as [Hon Hpk].
  destruct (transfer_data_out m n k xa xc it p l s RUN s1 c1 (usbd_hw_endp_select e (deliver p h)) Hio Hs Hs1 Hc0 Hc1 Hsl Hc3 Hm Hk Hn Hkp Hp Hon Hpk) as (h' & it' & E & Hh').
  exists (usbd_hw_endp_select a h'), it'. split; [|by apply on_off]. rewrite (packet_run a s c) by done. monad_red. rewrite E. apply restore_out.
Qed.
Lemma lastb_out s n k xa len it : 0 <= k + len <= n -> n < 2 ^ 16 ->
  lastb e s (Xfr n (k + len) xa len it) = if Z.testbit (usbd_endp_zlps s) (USB_ADDR2EID e) then len <? size else k + len =? n.
Proof using.
  intros Hk Hn. unfold lastb. xred. destruct (Z.testbit _ _); [done|]. clear -Hk Hn. rewrite wrap_id by lia.
  destruct (Z.eqb_spec (k + len) n); [apply Z.eqb_eq|apply Z.eqb_neq]; lia.
Qed.
Definition submitted a s h : hw := usbd_hw_endp_select a (usbd_hw_request_open (req_view e s d PEND) (usbd_hw_endp_select e h)).
Lemma submit_out_at s a n it h : ep_at ep e s d -> calm s RUN -> USB_ADDR2EID e = USB_EID_DEFAULT \/ usbd_state s = USB_STATE_CONFIGURED ->
  usbd_request_submit ep e n (out_ep e a s stg (Xfr 0 0 0 0 it) h) = Ok (true, out_ep e a s PEND (Xfr n 0 0 0 it) (submitted a s h)).
Proof using Hstg.
  clear Hdel. intros Hs (_ & _ & Hrun) Hst. destruct (stage_bits stg Hstg) as (B1 & B2 & _).
  assert (Bs : bits_raised stg USBD_REQ_FLAG_SOFT = false /\ bits_raised stg USBD_ENDP_FLAG_HALT = false /\
    raise_bits USBD_REQ_FLAG_SOFT stg = PEND /\ stg &&& USBD_CTRL_STAGE_MASK = RUN &&& USBD_CTRL_STAGE_MASK) by (clear -Hstg; by destruct Hstg as [->|[->| ->]]).
  destruct Bs as (C1 & C2 & C4 & C5).
  unfold usbd_request_submit, usbd_request_pending, usbd_request_limit, usbd_request_set_soft, usbd_request_open, usbd_request_begin, usbd_state_get, usbd_transfer_limit.
  monad_red. rewrite save_out. cbn beta iota. sym Hs. rewrite (halting_at _ _ _ _ Hs) by done. cbn beta iota. rewrite C1. cbn [orb]. sym Hs.
  unfold gets. cbn beta iota. cbn [at_ep usbd_state].
  replace (negb (USB_ADDR2EID e =? USB_EID_DEFAULT) && negb (usbd_state s =? USB_STATE_CONFIGURED)) with false
    by (destruct Hst as [->| ->]; [done|by rewrite andb_false_r]).
  sym Hs. xred. rewrite (rdir_at _ _ _ _ Hs), (req_dir_stage s d stg RUN C5), Hrun. cbn beta iota. change (USB_DIR_OUT =? USB_DIR_IN) with false. cbn beta iota. sym Hs.
  rewrite C4, (hw_call_at _ _ _ _ Hs). cbn beta iota.
  destruct cfg_txaval; [|done]. rewrite (rdir_at _ _ _ _ Hs), (req_dir_stage s d PEND RUN), Hrun by congruence. cbn beta iota. done.
Qed.
Lemma submitted_off a s h l : hw_off h l -> hw_off (submitted a s h) l.
Proof using HwOk. clear Hdel. intros Hh%off_on. eapply on_off, kept_on; [done|apply request_open_ok, Hh]. Qed.
Lemma submit_out s a n it h l : ep_at ep e s d -> calm s RUN -> USB_ADDR2EID e = USB_EID_DEFAULT \/ usbd_state s = USB_STATE_CONFIGURED -> hw_off h l ->
  exists h', usbd_request_submit ep e n (out_ep e a s stg (Xfr 0 0 0 0 it) h) = Ok (true, out_ep e a s PEND (Xfr n 0 0 0 it) h') /\ hw_off h' l.
Proof using HwOk Hstg. intros. exists (submitted a s h). split; [by apply submit_out_at|by apply submitted_off]. Qed.
(** The bottom half ends a request that its last packet has announced as complete. *)
Lemma finish_out s a x h l : ep_at ep e s d -> lastb e s x = true -> hw_off h l ->
  exists h', usbd_async_iocb_addr ep e (out_ep e a s (0x70 ||| stg) x h) = (complete ep d;; usbd_addr_restore a) (at_ep e s PEND x h') /\ hw_on h' l.
Proof using HwOk Hstg.
  clear Hdel. intros Hs Hl Hh. apply off_on in Hh. destruct (stage_bits stg Hstg) as (_ & _ & _ & B4 & _ & B6 & [B7 B7'] & _ & [_ B9] & _).
  assert (bits_raised (0x70 ||| stg) USBD_REQ_FLAG_ASYNC = true /\ unraise_bits USBD_REQ_FLAG_ASYNC (0x70 ||| stg) = RUN) as [C1 C2]
    by (clear -Hstg; by destruct Hstg as [->|[->| ->]]).
  rewrite (async_out _ _ _ _ Hs) by done. monad_red. rewrite (async_at _ _ _ _ Hs), C2 by done.
  rewrite (iocb_next _ _ _ _ Hs), Hl, (exit_at _ _ _ _ Hs), B4 by (done || by rewrite B4). eexists. split; [done|].
  eapply kept_on; [|apply request_close_ok]; [|apply request_open_ok, Hh]. eapply kept_on; [done|apply request_open_ok, Hh].
Qed.
End one.

(** ** Requests of drivers

    A driver of an OUT endpoint: the handler reads into [cells]. *)
Record out_driver (e : Z) (d : usbd_endpoint (hw := hw) (U := U)) (cells : list cell) : Prop := OutDriver {
  od_type : USBD_ATTR2TYPE (attrs d) <> USB_ENDP_CONTROL;
  od_dir : USBD_ATTR2DIR (attrs d) = USB_DIR_OUT;
  od_iocb : exists m, iocb d = Some m /\ forall s c x h, m (at_ep e s c x h) = absorb epi cells (at_ep e s c x h);
  od_cells : Forall cell_ok cells;
  od_len : Z.of_nat (length cells) < 2 ^ 16
}.

Section served.
Context (e : Z) (d di : usbd_endpoint (hw := hw) (U := U)) (Hat : attrs di = attrs d) (cells : list cell) (Hd : out_driver e d cells).
Context (deliver : list Z -> hw -> hw) (Hdel : delivers e deliver).
Implicit Types s : st.
Abbreviation size := (usbd_hw_endp_size e).

Lemma calm_out s c : bits_raised c USBD_ENDP_FLAG_HALT = false -> bits_raised c USBD_REQ_FLAG_SYNC = false -> calm s d USB_DIR_OUT c.
Proof using Hd. intros H1 H2. unfold calm, req_dir. rewrite (proj2 (Z.eqb_neq _ _) (od_type _ _ _ Hd)). split_and!; [done|done|apply Hd]. Qed.
Lemma driver_step n k xa xc it p l a s c h : ep_at ep e s d -> ep_at epi e s di -> may_recv e 0 s c (Xfr n k xa xc it) ->
  0 <= k <= n -> n < 2 ^ 16 -> k + Z.of_nat (length p) < 2 ^ 16 -> Z.of_nat (length p) <= size -> hw_off h l ->
  exists h' it', let x := Xfr n (k + Z.of_nat (length p)) (Z.of_nat (length p)) (Z.of_nat (length p)) it' in
  let s1 := set_user (store (drop (Z.to_nat k) cells) p (user s)) s in
  packet_in e deliver p (out_ep e a s c (Xfr n k xa xc it) h) =
    Ok (tt, out_ep e a (if lastb e s x then set_wake true s1 else s1) (if lastb e s x then 0x70 else 0x30) x h') /\ hw_off h' l.
Proof using HwOk Hat Hd Hdel.
  intros Hs Hsi Hc Hk Hn Hkp Hp Hh. destruct (od_iocb _ _ _ Hd) as (m & Em & Hm).
  set (s1 := set_user (store (drop (Z.to_nat k) cells) p (user s)) s).
  destruct (packet_step e d deliver Hdel 0 (or_introl eq_refl) m n k xa xc it p l a s c s1 0x30 h Em Hs) as (h' & it' & E & Hh');
    [by apply ep_at_user|by apply calm_out|by apply calm_out| |done| |done..|].
  - split; intros H; by destruct (od_type _ _ _ Hd).
  - apply (absorb_reads e d di); [done|done|by apply calm_out|intros; apply Hm|apply Hd|apply Hd|lia|done|done].
  - exists h', it'. split; [exact E|done].
Qed.
Lemma run_out ps : forall n k xa xc it l a s c h, ep_at ep e s d -> ep_at epi e s di -> may_recv e 0 s c (Xfr n k xa xc it) -> 0 <= k -> n < 2 ^ 16 ->
  out_sched e (Z.testbit (usbd_endp_zlps s) (USB_ADDR2EID e)) n k ps = true -> hw_off h l ->
  exists h' x, packets_in e deliver ps (out_ep e a s c (Xfr n k xa xc it) h) =
    Ok (tt, out_ep e a (set_wake true (set_user (store (drop (Z.to_nat k) cells) (concat ps) (user s)) s)) 0x70 x h') /\
  lastb e s x = true /\ req_cur x = k + Z.of_nat (length (concat ps)) /\ hw_off h' l.
Proof using HwOk Hat Hd Hdel.
  induction ps as [|p ps IH]; intros n k xa xc it l a s c h Hs Hsi Hc Hk Hn Hsc Hh; cbn [out_sched] in Hsc; [done|].
  apply andb_true_iff in Hsc as [Hsc Hl]. apply andb_true_iff in Hsc as [Hp%Z.leb_le Htot%Z.leb_le].
  destruct (driver_step n k xa xc it p l a s c h Hs Hsi Hc ltac:(lia) Hn ltac:(lia) Hp Hh) as (h1 & it1 & E & Hh1). rewrite lastb_out in E by lia.
  cbn [packets_in concat]. monad_red. rewrite E. cbn beta iota. clear E.
  assert (Hx := fun it' => lastb_out e s n k (Z.of_nat (length p)) (Z.of_nat (length p)) it' ltac:(lia) Hn). destruct ps as [|p2 ps].
  - rewrite Hl in *. cbn [packets_in concat]. rewrite app_nil_r. monad_red. eexists _, _. split; [done|]. split_and!; [by rewrite Hx|done|done].
  - apply andb_true_iff in Hl as [Hl Hsc]. apply negb_true_iff in Hl. rewrite Hl in *.
    destruct (IH n (k + Z.of_nat (length p)) (Z.of_nat (length p)) (Z.of_nat (length p)) it1 l a (set_user (store (drop (Z.to_nat k) cells) p (user s)) s) 0x30 h1)
      as (h' & x & E & Hlx & Hrc & Hh'); [by apply ep_at_user|by apply ep_at_user|right; split; [done|apply Hx]|lia|done|done|done|].
    rewrite E. exists h', x. split_and!; [|done| |done].
    + rewrite store_app, drop_drop. replace (Z.to_nat (k + Z.of_nat (length p))) with (Z.to_nat k + length p)%nat by lia. done.
    + rewrite Hrc, length_app. lia.
Qed.
(** A packet that comes after more bytes have arrived than the request has stops the system. *)
Lemma overrun_bug n k xa xc it p a s h : ep_at ep e s d -> n < k -> lastb e s (Xfr n k xa xc it) = false ->
  hw_inv h -> Z.of_nat (length p) <= size ->
  packet_in e deliver p (out_ep e a s 0x30 (Xfr n k xa xc it) h) = Fault FBug.
Proof using HwOk Hd Hdel.
  intros Hs Hk Hl A0 Hp. destruct (deliver_on e deliver Hdel p h (hw_sent h) Hp) as [(B0 & B1 & B2) B3]; [done|].
  assert (Hc : calm s d USB_DIR_OUT 0x30) by by apply calm_out.
  rewrite (packet_run e d deliver 0 (or_introl eq_refl) a s 0x30) by (done || by right). monad_red. change (0x30 ||| 0) with 0x30.
  unfold __usbd_transfer_data, usbd_iter_reset, usbd_transfer_reset, usbd_transfer_limit. monad_red. rewrite (halting_at _ _ _ _ Hs) by apply Hc. cbn beta iota. sym Hs. xred.
  rewrite (rdir_at _ _ _ _ Hs), (proj2 (proj2 Hc)). cbn beta iota. change (USB_DIR_OUT =? USB_DIR_IN) with false. cbn beta iota.
  destruct (open_out_at ep e d p (hw_sent h) s 0x30 n k xa 0 0 (usbd_hw_endp_select e (deliver p h)) Hs) as (h1 & -> & _);
    [done|split; intros H; by destruct (od_type _ _ _ Hd)|done..|].
  cbn beta iota. sym Hs. xred. unfold bugif. by rewrite (proj2 (Z.ltb_lt n k)) by done.
Qed.
End served.

(** C14: An OUT request is served.  On an idle bulk or interrupt endpoint, submit a request of
    [n] bytes with a handler that reads into the driver's variables [cells] in each of its
    runs, and let the host send the packets [ps] of the request.  After the last packet the
    variables hold the bytes of all packets in order, as if they had been read in one run,
    nothing else of the stack has changed, and the bottom half has been woken, which
    completes the request: [done] is called once, with all bytes accounted for. *)
Theorem out_request_served e s d di cells n it deliver ps :
  ep_at ep e s d -> ep_at epi e s di -> attrs di = attrs d -> out_driver e d cells -> delivers e deliver -> usbd_state s = USB_STATE_CONFIGURED ->
  usb_transfers s !! idx_of e = Some (Xfr 0 0 0 0 it) -> usbd_endp_ctrls s !! idx_of e = Some 0 -> hw_inv (hwst s) -> n < 2 ^ 16 ->
  out_sched e (Z.testbit (usbd_endp_zlps s) (USB_ADDR2EID e)) n 0 ps = true ->
  let io := usbd_request_submit ep e n;; packets_in e deliver ps in
  let s1 := set_wake true (set_user (store cells (concat ps) (user s)) s) in
  exists x h h', req_cur x = Z.of_nat (length (concat ps)) /\ hw_sent h = hw_sent (hwst s) /\ hw_sent h' = hw_sent (hwst s) /\
  io s = Ok (tt, out_ep e (usbd_endp s) s1 0x70 x h) /\
  (io;; usbd_async_iocb_addr ep e) s = (complete ep d;; usbd_addr_restore (usbd_endp s)) (at_ep e s1 0x10 x h').
Proof.
  intros Hs Hsi Hat Hd Hdel Hst Hx Hc Hinv Hn Hsc io s1. assert (Hself := out_ep_self e s 0 _ Hx Hc).
  destruct (submit_out e d 0 (or_introl eq_refl) s (usbd_endp s) n it (hwst s) (hw_sent (hwst s)) Hs) as (h1 & E1 & Hh1);
    [by apply (calm_out e d cells)|by right|done|]. rewrite <- Hself in E1.
  destruct (run_out e d di Hat cells Hd deliver Hdel ps n 0 0 0 it (hw_sent (hwst s)) (usbd_endp s) s 0x10 h1 Hs Hsi) as (h2 & x & E2 & Hl & Hrc & Hh2); [by left|done..|].
  change (drop (Z.to_nat 0) cells) with cells in E2. fold s1 in E2.
  assert (E : io s = Ok (tt, out_ep e (usbd_endp s) s1 0x70 x h2)) by (unfold io; monad_red; rewrite E1; exact E2).
  destruct (finish_out e d 0 (or_introl eq_refl) s1 (usbd_endp s) x h2 (hw_sent (hwst s))) as (h3 & E3 & Hh3); [by apply ep_at_wake, ep_at_user|done|done|].
  exists x, h2, h3. split_and!; [done|apply Hh2|apply Hh3|done|]. monad_red. rewrite E. exact E3.
Qed.

(** A packet longer than the request is fatal.  On an endpoint without explicit ends a
    host that sends more bytes than the request has (31 of a command block, say) leaves the
    request running for ever: [done] is not called, since the count of missing bytes has
    wrapped around, and the next packet of the host, whatever it is, runs into a [BUG_ON]. *)
Theorem out_overrun_stops e s d di cells n it deliver p q :
  ep_at ep e s d -> ep_at epi e s di -> attrs di = attrs d -> out_driver e d cells -> delivers e deliver -> usbd_state s = USB_STATE_CONFIGURED ->
  usb_transfers s !! idx_of e = Some (Xfr 0 0 0 0 it) -> usbd_endp_ctrls s !! idx_of e = Some 0 -> hw_inv (hwst s) ->
  Z.testbit (usbd_endp_zlps s) (USB_ADDR2EID e) = false ->
  0 <= n < Z.of_nat (length p) -> Z.of_nat (length p) <= usbd_hw_endp_size e -> Z.of_nat (length q) <= usbd_hw_endp_size e ->
  runs (usbd_request_submit ep e n;; packet_in e deliver p) s (fun _ s1 =>
    user s1 = store cells p (user s) /\ usbd_endp_ctrls s1 !! idx_of e = Some 0x30 /\ usb_wake s1 = usb_wake s) /\
  (usbd_request_submit ep e n;; packet_in e deliver p;; packet_in e deliver q) s = Fault FBug.
Proof.
  intros Hs Hsi Hat Hd Hdel Hst Hx Hc Hinv Hz Hn Hp Hq. assert (Hself := out_ep_self e s 0 _ Hx Hc). pose proof (size_ok e (ea_eid _ _ _ _ Hs)) as Hsz.
  destruct (submit_out e d 0 (or_introl eq_refl) s (usbd_endp s) n it (hwst s) (hw_sent (hwst s)) Hs) as (h1 & E1 & Hh1);
    [by apply (calm_out e d cells)|by right|done|]. rewrite <- Hself in E1.
  destruct (driver_step e d di Hat cells Hd deliver Hdel n 0 0 0 it p (hw_sent (hwst s)) (usbd_endp s) s 0x10 h1 Hs Hsi) as (h2 & it2 & E2 & Hh2); [by left|lia|lia|lia|done|done|].
  change (drop (Z.to_nat 0) cells) with cells in E2. rewrite Z.add_0_l in E2.
  assert (Hl : lastb e s (Xfr n (Z.of_nat (length p)) (Z.of_nat (length p)) (Z.of_nat (length p)) it2) = false).
  { unfold lastb. xred. rewrite Hz. apply Z.eqb_neq. unfold wrap. rewrite <- (Z_mod_plus_full _ 1), Z.mod_small; lia. }
  rewrite Hl in E2. unfold runs. monad_red. rewrite E1. cbn beta iota. change (0x10 ||| 0) with 0x10. rewrite E2. cbn beta iota. split.
  - split_and!; [done| |done]. apply list_lookup_insert_eq, Hs.
  - apply (overrun_bug e d cells Hd deliver Hdel); [by apply ep_at_user|lia|done|apply Hh2|done].
Qed.
End outreq.
