(* ===== verification/UsbCtrl.v ===== *)
(** * USB device stack: the control pipe

    src/kernel/usb/usb_dev.c: the stages of the default control pipe, the standard requests
    and descriptors, the address and configuration of the device, and the start and reset of
    endpoints.  Interfaces are structures behind pointers as endpoints are; the names and
    numbers of the system are the fields of [UsbdIds]. *)
From S2P Require Import Prelude MulDiv Usbd.

Definition USB_SETUP_REQUEST_SIZE : Z := 8.
Definition USB_RECP_DEVICE : Z := 0.
Definition USB_RECP_INTERFACE : Z := 1.
Definition USB_RECP_ENDPOINT : Z := 2.
Definition USB_TYPE_STANDARD : Z := 0.
Definition USB_TYPE_CLASS : Z := 0x20.
Definition USB_REQ_GET_STATUS : Z := 0x00.
Definition USB_REQ_CLEAR_FEATURE : Z := 0x01.
Definition USB_REQ_SET_FEATURE : Z := 0x03.
Definition USB_REQ_SET_ADDRESS : Z := 0x05.
Definition USB_REQ_GET_DESCRIPTOR : Z := 0x06.
Definition USB_REQ_SET_DESCRIPTOR : Z := 0x07.
Definition USB_REQ_GET_CONFIGURATION : Z := 0x08.
Definition USB_REQ_SET_CONFIGURATION : Z := 0x09.
Definition USB_REQ_GET_INTERFACE : Z := 0x0A.
Definition USB_REQ_SET_INTERFACE : Z := 0x0B.
Definition USB_REQ_SYNCH_FRAME : Z := 0x0C.
Definition USB_DT_DEVICE : Z := 1.
Definition USB_DT_CONFIG : Z := 2.
Definition USB_DT_STRING : Z := 3.
Definition USB_DT_INTERFACE : Z := 4.
Definition USB_DT_ENDPOINT : Z := 5.
Definition USB_ENDPOINT_HALT : Z := 0.
Definition USB_ENDP_STATUS_HALT : Z := 1.
Definition USB_DT_DEVICE_SIZE : Z := 18.
Definition USB_DT_CONFIG_SIZE : Z := 9.
Definition USB_DT_INTERFACE_SIZE : Z := 9.
Definition USB_DT_ENDPOINT_SIZE : Z := 7.
Definition USB_CID_DEFAULT : Z := 0.
Definition USB_CID2CONF (cid : Z) : Z := cid + 1.
Definition USB_CONF_DEFAULT : Z := 0.
Definition USB_ADDR_DEFAULT : Z := 0.
Definition USB_CONFIG_ATTR_DEFAULT : Z := 0x80.
Definition USB_STRING_LANGID : Z := 0.
Definition USB_STRING_FACTORY : Z := 1.
Definition USB_STRING_PRODUCT : Z := 2.
Definition USB_STRING_SERIALNO : Z := 3.
Definition USB_LANGID_EN_US : Z := 0x0409.
Definition USB_VERSION_DEFAULT : Z := 0x110.
Definition NR_USBD_CONFS : Z := 1.
Definition USB_SERIAL_LENGTH : Z := 12.

(** The identity of the device (board and build settings). *)
Class UsbdIds : Type := {
  USBD_VENDOR_ID : Z; system_product_id : Z; system_device_id : Z; USBD_SERIAL_NO : Z;
  system_vendor_name : list Z; system_device_name : list Z; USBD_MAX_POWER : Z; USBD_HW_CTRL_SIZE : Z
}.

Section ctrl.
Context {hw U : Type} {Hw : UsbdHw hw} {Cfg : UsbdCfg} {Ids : UsbdIds}.
Abbreviation st := (usbd hw U).
Abbreviation usb := (stm st).
Record usbd_interface : Type := Interface {
  string_first : Z; string_last : Z; nr_endps : Z; config_len : option (usb Z); ctrl : option (usb unit) }.
Context (ep : nat -> usbd_endpoint (hw := hw) (U := U)) (intf : nat -> usbd_interface).
Abbreviation USBD_INB := (usbd_inb ep).
Abbreviation USBD_INW := (usbd_inw ep).

(** ** Endpoints *)
Definition usbd_declare_interface (cintf : nat) : usb Z :=
  iid ← gets usbd_nr_intfs;
  (if iid <? NR_USBD_INTFS then modify (fun s => set_intfs (<[Z.to_nat iid := cintf]> (usbd_interfaces s)) (u8 (iid + 1)) s) else mret tt);;
  mret iid.
Definition usbd_control_set_stage (stage : Z) : usb unit :=
  put_ctrl (unraise_bits USBD_CTRL_STAGE_MASK);; put_ctrl (raise_bits stage);;
  d ← usbd_request_dir ep; e ← gets usbd_endp; usbd_addr_restore (USB_ADDR d (USB_ADDR2EID e)).
Definition __usbd_control_reset : usb unit :=
  t ← usbd_endpoint_type ep; bugif (negb (t =? USB_ENDP_CONTROL));;
  usbd_endpoint_unhalt ep;;
  stage ← usbd_control_get_stage;
  if negb (stage =? USBD_CTRL_STAGE_SETUP) then usbd_control_set_stage USBD_CTRL_STAGE_SETUP;; usbd_request_reset ep else mret tt.
Definition usbd_control_reset : usb unit := __usbd_control_reset.
Definition usbd_control_setup : usb unit := usbd_control_reset;; usbd_transfer_iocb ep.
Definition usbd_request_exit : usb unit :=
  __usbd_request_exit ep;; t ← usbd_endpoint_type ep; if t =? USB_ENDP_CONTROL then __usbd_control_reset else mret tt.
Definition usbd_endpoint_reset : usb unit := hw_call ep usbd_hw_request_reset;; usbd_endpoint_unhalt ep;; usbd_request_exit.
Definition usbd_endpoint_start_addr (addr : Z) : usb unit :=
  saddr ← usbd_addr_save addr; e ← gets usbd_endp; c ← usbd_endpoint_claimed e;
  (if c : bool then hw_call ep usbd_hw_endp_enable;; usbd_endpoint_reset else mret tt);; usbd_addr_restore saddr.
Definition usbd_endpoint_reset_addr (addr : Z) : usb unit :=
  saddr ← usbd_addr_save addr; e ← gets usbd_endp; c ← usbd_endpoint_claimed e;
  (if c : bool then usbd_endpoint_reset else mret tt);; usbd_addr_restore saddr.
Definition usbd_control_start : usb unit := usbd_endpoint_start_addr (USB_ADDR USB_DIR_OUT USB_EID_DEFAULT).
Definition usbd_endpoint_start_all : usb unit :=
  for_eids (Z.to_nat (NR_USBD_ENDPS - 1)) 1 (fun eid => usbd_endpoint_start_addr (USB_ADDR USB_DIR_OUT eid)).
Definition usbd_endpoint_unhalt_addr (addr : Z) : usb unit := saddr ← usbd_addr_save addr; usbd_endpoint_unhalt ep;; usbd_addr_restore saddr.
Definition usbd_endpoint_halt_addr (addr : Z) : usb unit := saddr ← usbd_addr_save addr; usbd_endpoint_halt ep;; usbd_addr_restore saddr.

(** ** Address and configuration *)
Definition usbd_apply_address : usb unit :=
  modify (fun s => set_hw (usbd_hw_set_address (usbd_address s) (hwst s)) s);;
  a ← gets usbd_address;
  if negb (a =? USB_ADDR_DEFAULT) then
    state ← usbd_state_get; if state =? USB_STATE_DEFAULT then usbd_state_set USB_STATE_ADDRESS else mret tt
  else usbd_state_set USB_STATE_DEFAULT;; usbd_control_start.
Definition usbd_apply_config : usb unit :=
  modify (fun s => set_hw (usbd_hw_set_config (usbd_config s) (hwst s)) s);;
  c ← gets usbd_config;
  if c =? USB_CID2CONF USB_CID_DEFAULT then
    state ← usbd_state_get;
    if state =? USB_STATE_ADDRESS then usbd_state_set USB_STATE_CONFIGURED;; usbd_endpoint_start_all else mret tt
  else usbd_apply_address.
Definition usbd_config_apply : usb unit :=
  e ← gets usbd_endp; bugif (negb (USB_ADDR2EID e =? USB_EID_DEFAULT));;
  r ← usbd_control_request_type;
  if r =? USB_REQ_SET_ADDRESS then usbd_apply_address
  else if r =? USB_REQ_SET_CONFIGURATION then usbd_apply_config else mret tt.
Definition usbd_config_reset : usb unit :=
  modify (set_address USB_ADDR_DEFAULT);; modify (set_config USB_CONF_DEFAULT);; usbd_apply_config.
Definition usbd_bus_suspend : usb unit :=
  state ← usbd_state_get;
  if negb (state =? USB_STATE_SUSPENDED) then
    modify (fun s => set_hw (usbd_hw_pm_suspend (hwst s)) s);; modify (fun s => set_state (usbd_state s) (usbd_state s) s);; usbd_state_set USB_STATE_SUSPENDED
  else mret tt.
Definition usbd_bus_resume : usb unit :=
  state ← usbd_state_get;
  if state =? USB_STATE_SUSPENDED then
    modify (fun s => set_hw (usbd_hw_pm_resume (hwst s)) s);; r ← gets usbd_state_resume; usbd_state_set r
  else mret tt.
Definition usbd_bus_reset : usb unit :=
  usbd_config_reset;; saddr ← usbd_addr_save USB_EID_DEFAULT; __usbd_control_reset;; usbd_addr_restore saddr.

(** ** Descriptors *)
Definition the_interface (iid : Z) : usb usbd_interface := getr (fun s => p ← oob (usbd_interfaces s !! Z.to_nat iid); Ok (intf p)).
Definition usb_interface_ctrl_data (iid : Z) : usb unit := c ← the_interface iid; call_cb (ctrl c).
(** [for (iid = 0; iid < usbd_nr_intfs; iid++)] *)
Fixpoint for_intfs {A} (n : nat) (iid : Z) (body : Z -> A -> usb A) (a : A) : usb A :=
  match n with O => mret a | S n => a ← body iid a; for_intfs n (iid + 1) body a end.
Definition usb_config_length : usb Z :=
  n ← gets usbd_nr_intfs;
  for_intfs (Z.to_nat n) 0 (fun iid length =>
    c ← the_interface iid;
    match config_len c with
    | Some f => l ← f; mret (u16 (length + USB_DT_INTERFACE_SIZE + l + USB_DT_ENDPOINT_SIZE * nr_endps c))
    | None => fun _ => Fault FBug
    end) USB_DT_CONFIG_SIZE.
Definition usb_get_config_desc : usb unit :=
  v ← usbd_control_request_value;
  if negb (LOBYTE v =? USB_CID_DEFAULT) then usbd_endpoint_halt ep
  else
    USBD_INB USB_DT_CONFIG_SIZE;; USBD_INB USB_DT_CONFIG;;
    l ← usb_config_length; USBD_INW l;;
    n ← gets usbd_nr_intfs; USBD_INB n;;
    USBD_INB (USB_CID2CONF USB_CID_DEFAULT);; USBD_INB USB_STRING_PRODUCT;; USBD_INB USB_CONFIG_ATTR_DEFAULT;;
    USBD_INB (u8 (USBD_MAX_POWER >>> 1));;
    for_intfs (Z.to_nat n) 0 (fun iid _ =>
      c ← the_interface iid;
      USBD_INB USB_DT_INTERFACE_SIZE;; USBD_INB USB_DT_INTERFACE;; USBD_INB iid;; USBD_INB 0;; USBD_INB (nr_endps c);;
      usb_interface_ctrl_data iid) tt.
Fixpoint input_chars (l : list Z) : usb unit := match l with [] => mret tt | c :: l => USBD_INB c;; USBD_INB 0;; input_chars l end.
Definition usbd_input_string (string : list Z) : usb unit :=
  USBD_INB (u8 ((Z.of_nat (length string) <<< 1) + 2));; USBD_INB USB_DT_STRING;; input_chars string.
Definition usbd_input_device_name : usb unit := usbd_input_string system_device_name.
Definition usbd_input_serialb (num : Z) : usb unit := USBD_INB (u8 (if 9 <? num then num - 10 + 65 else num + 48));; USBD_INB 0.
Definition usbd_input_serialw (num : Z) : usb unit := usbd_input_serialb (num / 0x10);; usbd_input_serialb (num mod 0x10).
Definition usbd_input_serial_no : usb unit :=
  USBD_INB (USB_SERIAL_LENGTH * 2 + 2);; USBD_INB USB_DT_STRING;;
  usbd_input_serialw (HIBYTE USBD_VENDOR_ID);; usbd_input_serialw (LOBYTE USBD_VENDOR_ID);;
  usbd_input_serialw (HIBYTE system_product_id);; usbd_input_serialw (LOBYTE system_product_id);;
  usbd_input_serialw (HIBYTE USBD_SERIAL_NO);; usbd_input_serialw (LOBYTE USBD_SERIAL_NO).
Definition usbd_input_interface_desc (cls subcls proto istring : Z) : usb unit :=
  USBD_INB cls;; USBD_INB subcls;; USBD_INB proto;; USBD_INB istring.
Definition usbd_input_endpoint_desc (addr : Z) : usb unit :=
  USBD_INB USB_DT_ENDPOINT_SIZE;; USBD_INB USB_DT_ENDPOINT;;
  d ← usbd_endpoint_dir_addr ep addr; USBD_INB (USB_ENDPADDR d (USB_ADDR2EID addr));;
  t ← usbd_endpoint_type_addr ep addr; USBD_INB t;;
  USBD_INW (usbd_hw_endp_size addr);;
  i ← usbd_endpoint_interval_addr ep addr; USBD_INB i.
Fixpoint string_owner (n : nat) (iid id : Z) : usb (option Z) :=
  match n with
  | O => mret None
  | S n => c ← the_interface iid; if (string_first c <=? id) && (id <=? string_last c) then mret (Some iid) else string_owner n (iid + 1) id
  end.
Definition usb_get_string_desc : usb unit :=
  v ← usbd_control_request_value; let id := LOBYTE v in
  n ← gets usbd_nr_intfs; o ← string_owner (Z.to_nat n) 0 id;
  match o with
  | Some iid => usb_interface_ctrl_data iid
  | None =>
      if id =? USB_STRING_LANGID then USBD_INB (2 + 1 * 2);; USBD_INB USB_DT_STRING;; USBD_INW USB_LANGID_EN_US
      else if id =? USB_STRING_FACTORY then usbd_input_string system_vendor_name
      else if id =? USB_STRING_PRODUCT then usbd_input_device_name
      else if id =? USB_STRING_SERIALNO then usbd_input_serial_no
      else USBD_INB 0
  end.
Definition usb_get_device_desc : usb unit :=
  USBD_INB USB_DT_DEVICE_SIZE;; USBD_INB USB_DT_DEVICE;; USBD_INW USB_VERSION_DEFAULT;; USBD_INB 0;; USBD_INB 0;; USBD_INB 0;;
  USBD_INB USBD_HW_CTRL_SIZE;; USBD_INW USBD_VENDOR_ID;; USBD_INW system_product_id;; USBD_INW (u16 system_device_id);;
  USBD_INB USB_STRING_FACTORY;; USBD_INB USB_STRING_PRODUCT;; USBD_INB USB_STRING_SERIALNO;; USBD_INB NR_USBD_CONFS.
Definition usbd_get_descriptor : usb unit :=
  v ← usbd_control_request_value; let desc := HIBYTE v in
  if desc =? USB_DT_DEVICE then usb_get_device_desc
  else if desc =? USB_DT_CONFIG then usb_get_config_desc
  else if desc =? USB_DT_STRING then usb_get_string_desc
  else usbd_endpoint_halt ep.

(** ** Standard requests *)
Definition usbd_get_status : usb unit := USBD_INW 0.
Definition usbd_set_address : usb unit := v ← usbd_control_request_value; modify (set_address (LOBYTE v)).
Definition usbd_get_configuration : usb unit := c ← gets usbd_config; USBD_INB c.
Definition usbd_set_configuration : usb unit :=
  v ← usbd_control_request_value; modify (set_config (u8 v));;
  c ← gets usbd_config; if negb (c =? USB_CID2CONF USB_CID_DEFAULT) then modify (set_config USB_CONF_DEFAULT) else mret tt.
Definition usbd_handle_device_standard : usb unit :=
  r ← usbd_control_request_type;
  if r =? USB_REQ_GET_STATUS then usbd_get_status
  else if r =? USB_REQ_CLEAR_FEATURE then mret tt
  else if r =? USB_REQ_SET_FEATURE then mret tt
  else if r =? USB_REQ_SET_ADDRESS then usbd_set_address
  else if r =? USB_REQ_GET_DESCRIPTOR then usbd_get_descriptor
  else if r =? USB_REQ_SET_DESCRIPTOR then usbd_endpoint_halt ep
  else if r =? USB_REQ_GET_CONFIGURATION then usbd_get_configuration
  else if r =? USB_REQ_SET_CONFIGURATION then usbd_set_configuration
  else usbd_endpoint_halt ep.
Definition usbd_endpoint_get_status (addr : Z) : usb unit :=
  saddr ← usbd_addr_save addr; h ← usbd_endpoint_halting;
  USBD_INW (if h : bool then USB_ENDP_STATUS_HALT else 0);; usbd_addr_restore saddr.
Definition usbd_endpoint_clear_feature (addr : Z) : usb unit :=
  v ← usbd_control_request_value; if v =? USB_ENDPOINT_HALT then usbd_endpoint_unhalt_addr addr else mret tt.
Definition usbd_endpoint_set_feature (addr : Z) : usb unit :=
  v ← usbd_control_request_value; if v =? USB_ENDPOINT_HALT then usbd_endpoint_halt_addr addr else mret tt.
Definition usbd_handle_endpoint_request (addr : Z) : usb unit := usbd_endpoint_halt ep.
Definition usbd_handle_endpoint_standard (addr : Z) : usb unit :=
  r ← usbd_control_request_type;
  if r =? USB_REQ_GET_STATUS then usbd_endpoint_get_status addr
  else if r =? USB_REQ_CLEAR_FEATURE then usbd_endpoint_clear_feature addr
  else if r =? USB_REQ_SET_FEATURE then usbd_endpoint_set_feature addr
  else if r =? USB_REQ_SYNCH_FRAME then usbd_endpoint_halt ep
  else usbd_handle_endpoint_request addr.
Definition usb_interface_set_interface (iid : Z) : usb unit :=
  v ← usbd_control_request_value; if negb (LOBYTE v =? 0) then usbd_endpoint_halt ep else mret tt.
Definition usbd_handle_interface_request : usb unit :=
  w ← usbd_control_request_index; n ← gets usbd_nr_intfs; let iid := u8 w in
  if iid <? n then usb_interface_ctrl_data iid else usbd_endpoint_halt ep.
Definition usbd_handle_interface_standard : usb unit :=
  w ← usbd_control_request_index; n ← gets usbd_nr_intfs; r ← usbd_control_request_type; let iid := u8 w in
  if iid <? n then
    if r =? USB_REQ_GET_STATUS then USBD_INW 0
    else if r =? USB_REQ_CLEAR_FEATURE then mret tt
    else if r =? USB_REQ_SET_FEATURE then mret tt
    else if r =? USB_REQ_GET_INTERFACE then USBD_INB 0
    else if r =? USB_REQ_SET_INTERFACE then usb_interface_set_interface iid
    else usbd_handle_interface_request
  else usbd_endpoint_halt ep.

(** ** The handlers of the control pipe *)
Definition usbd_handle_ctrl_poll : usb unit :=
  stage ← usbd_control_get_stage; e ← gets usbd_endp;
  if stage =? USBD_CTRL_STAGE_SETUP then usbd_request_submit ep e USB_SETUP_REQUEST_SIZE;; mret tt
  else if stage =? USBD_CTRL_STAGE_DATA then l ← usbd_control_request_length; usbd_request_submit ep e l;; mret tt
  else if stage =? USBD_CTRL_STAGE_STATUS then usbd_request_submit ep e 0;; mret tt
  else mret tt.
Definition usbd_handle_ctrl_data : usb unit :=
  type ← usbd_control_setup_type; recp ← usbd_control_setup_recp;
  if recp =? USB_RECP_DEVICE then
    if type =? USB_TYPE_STANDARD then usbd_handle_device_standard else usbd_endpoint_halt ep
  else if recp =? USB_RECP_INTERFACE then
    if type =? USB_TYPE_STANDARD then usbd_handle_interface_standard
    else if type =? USB_TYPE_CLASS then usbd_handle_interface_request else usbd_endpoint_halt ep
  else if recp =? USB_RECP_ENDPOINT then
    addr ← usbd_control_request_addr; c ← usbd_endpoint_claimed addr;
    if c : bool then
      if type =? USB_TYPE_STANDARD then usbd_handle_endpoint_standard addr
      else if type =? USB_TYPE_CLASS then usbd_handle_endpoint_request addr else usbd_endpoint_halt ep
    else usbd_endpoint_halt ep
  else usbd_endpoint_halt ep.
(** [USBD_OUTB(usbd_ctrl_setup.f)] and [USBD_OUTW(usbd_ctrl_setup.f)] *)
Definition setup_outb (get : usb_ctlsetup -> Z) (put : Z -> usb_ctlsetup -> usb_ctlsetup) : usb unit :=
  b ← gets (fun s => get (usbd_ctrl_setup s)); v ← usbd_outb ep b; modify (fun s => set_setup (put v (usbd_ctrl_setup s)) s).
Definition setup_outw (get : usb_ctlsetup -> Z) (put : Z -> usb_ctlsetup -> usb_ctlsetup) : usb unit :=
  w ← gets (fun s => get (usbd_ctrl_setup s)); v ← usbd_outw ep w; modify (fun s => set_setup (put v (usbd_ctrl_setup s)) s).
Definition ctrl_data_run : usb unit := usbd_request_set_sync;; usbd_handle_ctrl_data;; usbd_request_clear_sync.
Definition usbd_handle_ctrl_iocb : usb unit :=
  stage ← usbd_control_get_stage;
  if stage =? USBD_CTRL_STAGE_SETUP then
    usbd_request_set_sync;;
    setup_outb bmRequestType (fun v c => Setup v (bRequest c) (wValue c) (wIndex c) (wLength c));;
    setup_outb bRequest (fun v c => Setup (bmRequestType c) v (wValue c) (wIndex c) (wLength c));;
    setup_outw wValue (fun v c => Setup (bmRequestType c) (bRequest c) v (wIndex c) (wLength c));;
    setup_outw wIndex (fun v c => Setup (bmRequestType c) (bRequest c) (wValue c) v (wLength c));;
    setup_outw wLength (fun v c => Setup (bmRequestType c) (bRequest c) (wValue c) (wIndex c) v);;
    usbd_request_clear_sync;;
    l ← usbd_control_request_length;
    if 0 <? l then mret tt else usbd_control_set_stage USBD_CTRL_STAGE_DATA;; ctrl_data_run
  else if stage =? USBD_CTRL_STAGE_DATA then ctrl_data_run
  else mret tt.
Definition usbd_handle_ctrl_cso : usb unit :=
  if cfg_cso then __usbd_control_reset
  else usbd_control_set_stage USBD_CTRL_STAGE_STATUS;; h ← usbd_endpoint_halting; if h : bool then __usbd_control_reset else mret tt.
Definition usbd_handle_ctrl_done : usb unit :=
  stage ← usbd_control_get_stage;
  if stage =? USBD_CTRL_STAGE_SETUP then usbd_control_set_stage USBD_CTRL_STAGE_DATA
  else if stage =? USBD_CTRL_STAGE_DATA then usbd_handle_ctrl_cso
  else if stage =? USBD_CTRL_STAGE_STATUS then usbd_config_apply;; usbd_control_set_stage USBD_CTRL_STAGE_SETUP
  else mret tt.
Definition USBD_ENDP_CTRL : Z := USB_DIR2ADDR USB_DIR_OUT ||| USB_ENDP_CONTROL.
Definition usbd_ctrl : usbd_endpoint (hw := hw) (U := U) :=
  Endpoint USBD_ENDP_CTRL 0 (Some usbd_handle_ctrl_poll) (Some usbd_handle_ctrl_iocb) (Some usbd_handle_ctrl_done).
End ctrl.

(** ** The endpoints of a device

    Pointer 0 is [&usbd_ctrl], the others are the endpoints of the interface drivers.  The
    handlers call the stack again: [done] of the control pipe can end requests of endpoints
    (and its own) when an address or configuration is applied.  [depth] bounds this
    nesting. *)
Section device.
Context {hw U : Type} {Hw : UsbdHw hw} {Cfg : UsbdCfg} {Ids : UsbdIds}.
Definition endp_table : Type := nat -> usbd_endpoint (hw := hw) (U := U).
Context (drivers : endp_table -> endp_table) (intfs : endp_table -> nat -> usbd_interface (hw := hw) (U := U)).
Fixpoint endpoints (depth : nat) : endp_table :=
  match depth with
  | O => fun p => let c := drivers (fun _ => Endpoint USBD_ENDP_CTRL 0 None None None) p in
      if (p =? 0)%nat then Endpoint USBD_ENDP_CTRL 0 None None None else Endpoint (attrs c) (interval c) None None None
  | S d => fun p => if (p =? 0)%nat then usbd_ctrl (endpoints d) (intfs (endpoints d)) else drivers (endpoints d) p
  end.
Definition usbd_reserve_endpoint0 : stm (usbd hw U) unit := usbd_register_control USB_EID_DEFAULT 0.
End device.
