(* ===== verification/UsbCtrlIo.v ===== *)
(** * USB device stack: control transfers

    The three stages of a transfer on the default control pipe, composed from the engine's
    OUT and IN requests: the SETUP packet is parsed, the data stage is served, the status
    stage is completed and its effect applied, and the pipe waits for the next SETUP packet.
    Here transfers are asynchronous (no CONFIG_USBD_XFR_SYNC) and the controller reports the
    status stage to the stack (no CONFIG_ARCH_HAS_USBD_ENDP_CSO), as on the AT90SCR100. *)
From S2P Require Import Prelude MulDiv Usbd UsbdHal UsbdIn UsbdOut UsbCtrl.

(** The request in a SETUP packet. *)
Definition word (lo hi : Z) : Z := lo ||| (hi <<< 8).
Definition setup_of (p : list Z) : usb_ctlsetup :=
  match p with [a; b; v0; v1; i0; i1; l0; l1] => Setup a b (word v0 v1) (word i0 i1) (word l0 l1) | _ => Setup 0 0 0 0 0 end.
Lemma word_range lo hi : 0 <= lo < 2 ^ 8 -> 0 <= hi < 2 ^ 8 -> 0 <= word lo hi < 2 ^ 16.
Proof.
  intros Hl Hh. unfold word. split; [apply Z.lor_nonneg; split; [lia|apply Z.shiftl_nonneg; lia]|].
  assert (0 <= Z.shiftl hi 8 < 2 ^ 16) by (rewrite Z.shiftl_mul_pow2 by lia; lia).
  destruct (Z.eq_dec (Z.lor lo (Z.shiftl hi 8)) 0) as [->|Hz]; [lia|].
  assert (0 <= Z.lor lo (Z.shiftl hi 8)) by (apply Z.lor_nonneg; lia).
  apply Z.log2_lt_pow2; [lia|]. rewrite Z.log2_lor by lia.
  assert (forall y, 0 <= y < 2 ^ 16 -> Z.log2 y < 16) as Hlog.
  { intros y Hy. destruct (Z.eq_dec y 0) as [->|]; [done|]. apply Z.log2_lt_pow2; lia. }
  apply Z.max_lub_lt; apply Hlog; lia.
Qed.

Section pipe.
Context {hw U : Type} {Hw : UsbdHw hw} {Obs : UsbdObs hw} {Cfg : UsbdCfg} {HwOk : UsbdHwOk hw} {Ids : UsbdIds}.
Abbreviation st := (usbd hw U).
Context (ep epi : nat -> usbd_endpoint (hw := hw) (U := U)) (intf : nat -> usbd_interface (hw := hw) (U := U)).
Context (di : usbd_endpoint (hw := hw) (U := U)) (Hat : attrs di = USBD_ENDP_CTRL).
Context (Hsync : cfg_sync = false) (Hcso : cfg_cso = false).
Abbreviation d := (usbd_ctrl epi intf).
Abbreviation size := (usbd_hw_endp_size 0).
Implicit Types (s : st) (x : usb_transfer) (h : hw).

(** The control pipe of the state: claimed, with explicit ends, driven by [usbd_ctrl]. *)
Record pipe_at s : Prop := PipeAt {
  pa_ep : ep_at ep 0 s d;
  pa_epi : ep_at epi 0 s di;
  pa_zlp : Z.testbit (usbd_endp_zlps s) 0 = true;
  pa_size : 8 < size
}.
Lemma pipe_setup s c : pipe_at s -> pipe_at (set_setup c s).
Proof. intros []. constructor; [by apply ep_at_setup..|done|done]. Qed.
Lemma pipe_wake s w : pipe_at s -> pipe_at (set_wake w s).
Proof. intros []. constructor; [by apply ep_at_wake..|done|done]. Qed.

Definition stage_ok (g : Z) : Prop := g = 0 \/ g = 1 \/ g = 2.
Definition setup_dir s : Z := USB_SETUP2DIR (bmRequestType (usbd_ctrl_setup s)).
Lemma ctl_dir s dx c : attrs dx = USBD_ENDP_CTRL -> req_dir s dx c = stage_dir (c &&& USBD_CTRL_STAGE_MASK) (setup_dir s).
Proof. intros E. unfold req_dir. by rewrite E. Qed.
Lemma ctl_calm s dx dir g c : attrs dx = USBD_ENDP_CTRL -> stage_ok g -> c = 0x10 ||| g \/ c = 0x30 ||| g -> stage_dir g (setup_dir s) = dir -> calm s dx dir c.
Proof.
  intros E Hg Hc Hdir. destruct (stage_bits g Hg) as (B1 & B2 & _ & _ & _ & _ & _ & _ & [B9 B9'] & B10 & B11).
  unfold calm. rewrite ctl_dir by done. destruct Hc as [-> | ->]; [by rewrite B1|by rewrite B2].
Qed.

(** ** From stage to stage *)
Lemma set_stage_at s f g nxt x h : pipe_at s -> f = 0x10 \/ f = 0x30 -> stage_ok g -> stage_ok nxt ->
  usbd_control_set_stage epi nxt (at_ep 0 s (f ||| g) x h) = Ok (tt, at_ep 0 s (f ||| nxt) x (usbd_hw_endp_select 0 h)).
Proof using Hat.
  intros Hp Hf Hg Hn. assert (Hs := pa_epi _ Hp). unfold usbd_control_set_stage. sym Hs.
  assert (raise_bits nxt (unraise_bits USBD_CTRL_STAGE_MASK (f ||| g)) = f ||| nxt) as ->
    by (clear -Hf Hg Hn; by destruct Hf as [-> | ->]; destruct Hg as [->|[->| ->]]; destruct Hn as [->|[->| ->]]).
  rewrite (rdir_at _ _ _ _ Hs). cbn beta iota. by sym Hs.
Qed.
Definition stage_length g s : Z := if g =? 0 then 8 else if g =? 1 then wLength (usbd_ctrl_setup s) else 0.
Lemma reset_at s g x h : pipe_at s -> stage_ok g ->
  (usbd_request_clear_soft;; usbd_request_reset ep) (at_ep 0 s (0x10 ||| g) x h) =
  (usbd_request_submit epi 0 (stage_length g s);; mret tt) (at_ep 0 s g (Xfr 0 0 0 0 (iter x)) h).
Proof using.
  intros Hp Hg. assert (Hs := pa_ep _ Hp). assert (Hs' := pa_epi _ Hp). unfold usbd_request_clear_soft, usbd_request_reset, usbd_request_poll. sym Hs.
  assert (unraise_bits USBD_REQ_FLAG_MASK (unraise_bits USBD_REQ_FLAG_SOFT (0x10 ||| g)) = g) as -> by (clear -Hg; by destruct Hg as [->|[->| ->]]).
  cbn [poll usbd_ctrl call_cb]. unfold usbd_handle_ctrl_poll, usbd_control_request_length. sym Hs'. destruct Hg as [->|[->| ->]]; done.
Qed.
(** [done] has moved the pipe to the stage [nxt]: the next request is submitted. *)
Lemma complete_at s g x h s1 nxt x1 h1 : pipe_at s -> pipe_at s1 -> stage_ok nxt ->
  usbd_handle_ctrl_done epi (at_ep 0 s (0x10 ||| g) x h) = Ok (tt, at_ep 0 s1 (0x10 ||| nxt) x1 h1) ->
  complete ep d (at_ep 0 s (0x10 ||| g) x h) =
  (usbd_request_submit epi 0 (stage_length nxt s1);; mret tt) (out_ep 0 0 s1 nxt (Xfr 0 0 0 0 (iter x1)) h1).
Proof using.
  intros Hp Hp1 Hn E. unfold complete. cbn [done_cb usbd_ctrl call_cb]. pose proof (reset_at s1 nxt x1 h1 Hp1 Hn) as R. revert R. monad_red. rewrite E. by intros ->.
Qed.
Lemma select_off a h l : hw_off h l -> hw_off (usbd_hw_endp_select a h) l.
Proof using HwOk. intros [A0 A1]. destruct (select_ok a h A0) as (B0 & _ & _ & B1 & _). split; (done || congruence). Qed.
(** Where a finished stage leaves the pipe when the next one is IN or OUT. *)
Abbreviation SUBM := (if cfg_txaval then 0x50 else 0x10).
Lemma next_in a s g x h s1 nxt x1 h1 l : pipe_at s -> pipe_at s1 -> stage_ok nxt ->
  usbd_handle_ctrl_done epi (at_ep 0 s (0x10 ||| g) x h) = Ok (tt, at_ep 0 s1 (0x10 ||| nxt) x1 h1) ->
  stage_dir nxt (setup_dir s1) = USB_DIR_IN -> let n := stage_length nxt s1 in in_u 16 n -> hw_off h1 l ->
  exists h', (complete ep d;; usbd_addr_restore a) (at_ep 0 s (0x10 ||| g) x h) =
    Ok (tt, out_ep 0 a (woken s1) (SUBM ||| nxt) (Xfr n 0 (Z.min size n) 0 (iter x1)) h') /\ hw_free h' l.
Proof using Hat HwOk.
  intros Hp Hp1 Hn E Hdir n Hlen Hh. monad_red. rewrite (complete_at _ _ _ _ _ _ _ _ Hp Hp1 Hn E). monad_red.
  destruct (stage_bits nxt Hn) as (_ & B2 & _).
  destruct (submit_in epi 0 s1 di (pa_epi _ Hp1) nxt n Hlen Hn) with (a := 0) (it := iter x1) (h := h1) (l := l) as (h' & E' & Hh');
    [by rewrite ctl_dir, B2 by done|by left|done|]. fold n. rewrite E'. cbn beta iota.
  exists (usbd_hw_endp_select a h'). split; [done|]. destruct Hh' as (A0 & A1 & A2). destruct (select_ok a h' A0) as (B0 & _ & B1 & B2' & _). unfold hw_free. split_and!; (done || congruence).
Qed.
Definition rearmed a nxt s h : hw := usbd_hw_endp_select a (submitted 0 di nxt 0 s h).
Lemma next_out_at a s g x h s1 nxt x1 h1 : pipe_at s -> pipe_at s1 -> stage_ok nxt ->
  usbd_handle_ctrl_done epi (at_ep 0 s (0x10 ||| g) x h) = Ok (tt, at_ep 0 s1 (0x10 ||| nxt) x1 h1) ->
  stage_dir nxt (setup_dir s1) = USB_DIR_OUT ->
  (complete ep d;; usbd_addr_restore a) (at_ep 0 s (0x10 ||| g) x h) =
    Ok (tt, out_ep 0 a s1 (0x10 ||| nxt) (Xfr (stage_length nxt s1) 0 0 0 (iter x1)) (rearmed a nxt s1 h1)).
Proof using Hat.
  intros Hp Hp1 Hn E Hdir. monad_red. rewrite (complete_at _ _ _ _ _ _ _ _ Hp Hp1 Hn E). monad_red.
  rewrite (submit_out_at epi 0 di nxt Hn s1 0 _ (iter x1) h1 (pa_epi _ Hp1)) by first [by left|by apply (ctl_calm _ _ _ nxt); auto]. done.
Qed.
Lemma rearmed_off a nxt s h l : hw_off h l -> hw_off (rearmed a nxt s h) l.
Proof using HwOk. intros Hh. by apply select_off, submitted_off. Qed.
Lemma next_out a s g x h s1 nxt x1 h1 l : pipe_at s -> pipe_at s1 -> stage_ok nxt ->
  usbd_handle_ctrl_done epi (at_ep 0 s (0x10 ||| g) x h) = Ok (tt, at_ep 0 s1 (0x10 ||| nxt) x1 h1) ->
  stage_dir nxt (setup_dir s1) = USB_DIR_OUT -> hw_off h1 l ->
  exists h', (complete ep d;; usbd_addr_restore a) (at_ep 0 s (0x10 ||| g) x h) =
    Ok (tt, out_ep 0 a s1 (0x10 ||| nxt) (Xfr (stage_length nxt s1) 0 0 0 (iter x1)) h') /\ hw_off h' l.
Proof using Hat HwOk. intros. exists (rearmed a nxt s1 h1). split; [by apply next_out_at|by apply rearmed_off]. Qed.
(** [done] of the three stages. *)
Lemma done_setup s x h : pipe_at s -> usbd_handle_ctrl_done epi (at_ep 0 s 0x10 x h) = Ok (tt, at_ep 0 s 0x11 x (usbd_hw_endp_select 0 h)).
Proof using Hat.
  intros Hp. unfold usbd_handle_ctrl_done. sym (pa_epi _ Hp). change (16 &&& USBD_CTRL_STAGE_MASK =? USBD_CTRL_STAGE_SETUP) with true. cbn beta iota.
  apply (set_stage_at s 0x10 0 1 x h Hp); unfold stage_ok; auto.
Qed.
Lemma done_data s x h : pipe_at s -> usbd_handle_ctrl_done epi (at_ep 0 s 0x11 x h) = Ok (tt, at_ep 0 s 0x12 x (usbd_hw_endp_select 0 h)).
Proof using Hat Hcso.
  intros Hp. unfold usbd_handle_ctrl_done, usbd_handle_ctrl_cso. sym (pa_epi _ Hp). change (17 &&& USBD_CTRL_STAGE_MASK =? USBD_CTRL_STAGE_SETUP) with false.
  change (17 &&& USBD_CTRL_STAGE_MASK =? USBD_CTRL_STAGE_DATA) with true. cbn beta iota. rewrite Hcso.
  assert (E : usbd_control_set_stage epi USBD_CTRL_STAGE_STATUS (at_ep 0 s 17 x h) = Ok (tt, at_ep 0 s 18 x (usbd_hw_endp_select 0 h)))
    by (apply (set_stage_at s 0x10 1 2 x h Hp); unfold stage_ok; auto).
  monad_red. rewrite E. cbn beta iota. unfold usbd_endpoint_halting. sym (pa_epi _ Hp). done.
Qed.
Lemma done_status s x h s1 h1 : pipe_at s -> pipe_at s1 -> usbd_config_apply epi (at_ep 0 s 0x12 x h) = Ok (tt, at_ep 0 s1 0x12 x h1) ->
  usbd_handle_ctrl_done epi (at_ep 0 s 0x12 x h) = Ok (tt, at_ep 0 s1 0x10 x (usbd_hw_endp_select 0 h1)).
Proof using Hat.
  intros Hp Hp1 E. unfold usbd_handle_ctrl_done. sym (pa_epi _ Hp). change (18 &&& USBD_CTRL_STAGE_MASK =? USBD_CTRL_STAGE_SETUP) with false.
  change (18 &&& USBD_CTRL_STAGE_MASK =? USBD_CTRL_STAGE_DATA) with false. change (18 &&& USBD_CTRL_STAGE_MASK =? USBD_CTRL_STAGE_STATUS) with true. cbn beta iota. monad_red. rewrite E. cbn beta iota.
  apply (set_stage_at s1 0x10 2 0 x h1 Hp1); unfold stage_ok; auto.
Qed.

(** ** The SETUP packet *)
Abbreviation at_byte k := (Xfr 8 k 8 k k).
Lemma setup_calm s dx : attrs dx = USBD_ENDP_CTRL -> calm s dx USB_DIR_OUT 0x30.
Proof using. intros E. apply (ctl_calm s dx USB_DIR_OUT 0); [done|by left|by right|done]. Qed.
Lemma setup_outb_at get put b r l k c s h : pipe_at s -> 0 <= k < 8 -> hw_has 0 h (b :: r) l ->
  exists h', setup_outb epi get put (at_ep 0 (set_setup c s) 0x30 (at_byte k) h) =
    Ok (tt, at_ep 0 (set_setup (put b c) s) 0x30 (at_byte (k + 1)) h') /\ hw_has 0 h' r l.
Proof using Hat HwOk.
  intros Hp Hk Hh. pose proof (pa_size _ Hp). assert (Hs := pa_epi _ (pipe_setup s c Hp)). unfold setup_outb, gets, modify. monad_red.
  destruct (outb_read epi 0 di (get (usbd_ctrl_setup (at_ep 0 (set_setup c s) 48 (at_byte k) h))) b r l 8 k 8 k (set_setup c s) 0x30 h Hs) as (h' & E & Hh');
    [by apply setup_calm|lia|lia|lia|done|]. rewrite E. exists h'. done.
Qed.
Lemma setup_outw_at get put b0 b1 r l k c s h : pipe_at s -> 0 <= k < 7 -> hw_has 0 h (b0 :: b1 :: r) l ->
  exists h', setup_outw epi get put (at_ep 0 (set_setup c s) 0x30 (at_byte k) h) =
    Ok (tt, at_ep 0 (set_setup (put (word b0 b1) c) s) 0x30 (at_byte (k + 1 + 1)) h') /\ hw_has 0 h' r l.
Proof using Hat HwOk.
  intros Hp Hk Hh. pose proof (pa_size _ Hp). assert (Hs := pa_epi _ (pipe_setup s c Hp)). unfold setup_outw, usbd_outw, gets, modify. monad_red. set (w := get _).
  destruct (outb_read epi 0 di (LOBYTE w) b0 (b1 :: r) l 8 k 8 k (set_setup c s) 0x30 h Hs) as (h1 & E1 & Hh1); [by apply setup_calm|lia|lia|lia|done|].
  destruct (outb_read epi 0 di (HIBYTE w) b1 r l 8 (k + 1) 8 (k + 1) (set_setup c s) 0x30 h1 Hs) as (h2 & E2 & Hh2); [by apply setup_calm|lia|lia|lia|done|].
  rewrite E1. cbn beta iota. rewrite E2. exists h2. done.
Qed.
Lemma set_setup_id s : s = set_setup (usbd_ctrl_setup s) s.
Proof. by destruct s. Qed.
(** The run of the handler over a SETUP packet: the request is parsed, and, when it has no
    data stage, carried out at once. *)
Lemma iocb_setup p l s h : pipe_at s -> length p = 8%nat -> hw_has 0 h p l -> let s1 := set_setup (setup_of p) s in
  exists h', usbd_handle_ctrl_iocb epi intf (at_ep 0 s 0x30 (at_byte 0) h) =
    (if 0 <? wLength (setup_of p) then mret tt else usbd_control_set_stage epi USBD_CTRL_STAGE_DATA;; usbd_handle_ctrl_data epi intf) (at_ep 0 s1 0x30 (at_byte 8) h') /\
  hw_has 0 h' [] l.
Proof using Hat HwOk Hsync.
  intros Hp Hl Hh. destruct p as [|a [|b [|v0 [|v1 [|i0 [|i1 [|l0 [|l1 [|]]]]]]]]]; try done. clear Hl.
  unfold usbd_handle_ctrl_iocb, ctrl_data_run, usbd_request_set_sync, usbd_request_clear_sync. rewrite Hsync. sym (pa_epi _ Hp).
  change (48 &&& USBD_CTRL_STAGE_MASK =? USBD_CTRL_STAGE_SETUP) with true. cbn beta iota. destruct (usbd_ctrl_setup s) as [m q v i n] eqn:Es.
  replace (at_ep 0 s 48 (at_byte 0) h) with (at_ep 0 (set_setup (Setup m q v i n) s) 48 (at_byte 0) h) by (by rewrite <- Es, <- set_setup_id).
  destruct (setup_outb_at bmRequestType (fun v c => Setup v (bRequest c) (wValue c) (wIndex c) (wLength c)) a _ l 0 (Setup m q v i n) s h Hp ltac:(lia) Hh) as (h1 & -> & Hh1).
  cbn beta iota. cbn [bmRequestType bRequest wValue wIndex wLength].
  destruct (setup_outb_at bRequest (fun v c => Setup (bmRequestType c) v (wValue c) (wIndex c) (wLength c)) b _ l 1 (Setup a q v i n) s h1 Hp ltac:(lia) Hh1) as (h2 & E2 & Hh2).
  change (0 + 1) with 1. rewrite E2. cbn beta iota. clear E2. cbn [bmRequestType bRequest wValue wIndex wLength].
  destruct (setup_outw_at wValue (fun v c => Setup (bmRequestType c) (bRequest c) v (wIndex c) (wLength c)) v0 v1 _ l 2 (Setup a b v i n) s h2 Hp ltac:(lia) Hh2) as (h3 & E3 & Hh3).
  change (1 + 1) with 2. rewrite E3. cbn beta iota. clear E3. cbn [bmRequestType bRequest wValue wIndex wLength].
  destruct (setup_outw_at wIndex (fun v c => Setup (bmRequestType c) (bRequest c) (wValue c) v (wLength c)) i0 i1 _ l 4 (Setup a b (word v0 v1) i n) s h3 Hp ltac:(lia) Hh3) as (h4 & E4 & Hh4).
  change (2 + 1 + 1) with 4. rewrite E4. cbn beta iota. clear E4. cbn [bmRequestType bRequest wValue wIndex wLength].
  destruct (setup_outw_at wLength (fun v c => Setup (bmRequestType c) (bRequest c) (wValue c) (wIndex c) v) l0 l1 _ l 6 (Setup a b (word v0 v1) (word i0 i1) n) s h4 Hp ltac:(lia) Hh4) as (h5 & E5 & Hh5).
  change (4 + 1 + 1) with 6. rewrite E5. cbn beta iota. clear E5. cbn [bmRequestType bRequest wValue wIndex wLength].
  exists h5. split; [|done]. unfold usbd_control_request_length, gets. cbn beta iota. cbn [at_ep usbd_ctrl_setup set_setup wLength setup_of].
  destruct (0 <? word l0 l1); [done|]. monad_red. change (6 + 1 + 1) with 8.
  destruct (usbd_control_set_stage _ _ _) as [[? s']|]; [|done]. by destruct (usbd_handle_ctrl_data epi intf s') as [[[] ?]|].
Qed.
Definition setup_in (deliver : list Z -> hw -> hw) (p : list Z) : stm st unit :=
  modify (fun s => set_hw (deliver p (hwst s)) s);; saddr ← usbd_addr_save 0; usbd_control_setup ep;; usbd_addr_restore saddr.
(** The host: the arrival of a SETUP packet and of an OUT packet. *)
Context (dset deliver : list Z -> hw -> hw) (Hdset : delivers 0 dset) (Hdel : delivers 0 deliver).
Abbreviation iocb0 := (usbd_handle_ctrl_iocb epi intf).
Lemma setup_step a s s1 c1 it p l h : pipe_at s -> pipe_at s1 -> calm s1 d USB_DIR_OUT c1 -> bits_raised c1 USBD_REQ_FLAG_ASYNC = false ->
  length p = 8%nat -> reads 0 iocb0 s 0x30 8 0 p s1 c1 -> hw_off h l ->
  exists h' x, setup_in dset p (out_ep 0 a s 0x10 (Xfr 8 0 0 0 it) h) = Ok (tt, out_ep 0 a (set_wake true s1) (raise_bits USBD_REQ_FLAG_ASYNC c1) x h') /\
  lastb 0 s1 x = true /\ hw_off h' l.
Proof using HwOk Hdset.
  intros Hp Hp1 Hc1 Hb Hl Hm Hh. pose proof (pa_size _ Hp) as Hsz. assert (Hs := pa_ep _ Hp). destruct (deliver_on 0 dset Hdset p h l ltac:(lia) Hh) as [Hon Hpk].
  destruct (transfer_data_out ep 0 d iocb0 8 0 0 0 it p l s 0x30 s1 c1 (usbd_hw_endp_select 0 (dset p h)) eq_refl Hs (pa_ep _ Hp1)) as (h' & it' & E & Hh');
    [by apply setup_calm|done|split; [done|done]|done|done|lia|lia|lia|lia|done|done|].
  assert (Hlast : lastb 0 s1 (Xfr 8 (0 + Z.of_nat (length p)) (Z.of_nat (length p)) (Z.of_nat (length p)) it') = true).
  { unfold lastb. change (USB_ADDR2EID 0) with 0. rewrite (pa_zlp _ Hp1). xred. apply Z.ltb_lt. lia. }
  rewrite Hlast in E. exists (usbd_hw_endp_select a h'), (Xfr 8 (0 + Z.of_nat (length p)) (Z.of_nat (length p)) (Z.of_nat (length p)) it').
  split_and!; [|done|apply (on_off 0), Hh']. unfold setup_in, modify, usbd_control_setup, usbd_control_reset, __usbd_control_reset, usbd_endpoint_unhalt, usbd_endpoint_halting. monad_red.
  change (set_hw (dset p (hwst (out_ep 0 a s 16 (Xfr 8 0 0 0 it) h))) (out_ep 0 a s 16 (Xfr 8 0 0 0 it) h)) with (out_ep 0 a s 16 (Xfr 8 0 0 0 it) (dset p h)).
  rewrite save_out. cbn beta iota. sym Hs. change (USBD_ATTR2TYPE (attrs d) =? USB_ENDP_CONTROL) with true. cbn [negb bugif]. sym Hs.
  change (bits_raised 16 USBD_ENDP_FLAG_HALT) with false. cbn beta iota. sym Hs. change (16 &&& USBD_CTRL_STAGE_MASK =? USBD_CTRL_STAGE_SETUP) with true. cbn [negb].
  rewrite (iocb_first _ _ _ _ Hs) by done. change (raise_bits USBD_REQ_FLAG_HARD 16) with 0x30. rewrite E. done.
Qed.
Lemma reads_data p s : pipe_at s -> length p = 8%nat -> 0 < wLength (setup_of p) -> reads 0 iocb0 s 0x30 8 0 p (set_setup (setup_of p) s) 0x30.
Proof using Hat HwOk Hsync.
  intros Hp Hl Hw' l h Hh. destruct (iocb_setup p l s h Hp Hl Hh) as (h' & E & Hh'). rewrite (proj2 (Z.ltb_lt 0 _) Hw') in E. rewrite Hl. exists 8%nat, 8, h'.
  split_and!; [exact E|by rewrite drop_ge by lia|lia|lia|lia|by right].
Qed.
(** A request without data whose handler only changes the state of the stack. *)
Lemma reads_nodata p s s1 : pipe_at s -> length p = 8%nat -> wLength (setup_of p) = 0 -> let s0 := set_setup (setup_of p) s in
  (forall x h, usbd_handle_ctrl_data epi intf (at_ep 0 s0 0x31 x h) = Ok (tt, at_ep 0 s1 0x31 x h)) -> reads 0 iocb0 s 0x30 8 0 p s1 0x31.
Proof using Hat HwOk Hsync.
  intros Hp Hl Hw' s0 Hm l h Hh. destruct (iocb_setup p l s h Hp Hl Hh) as (h' & E & (A0 & A1 & A2 & A3)). rewrite Hw', Hl in *. change (0 <? 0) with false in E.
  cbn beta iota in E. fold s0 in E. assert (Es := set_stage_at s0 0x30 0 1 (at_byte 8) h' (pipe_setup _ _ Hp)). change (0x30 ||| 0) with 0x30 in Es. change (0x30 ||| 1) with 0x31 in Es.
  revert E. monad_red. change USBD_CTRL_STAGE_DATA with 1. rewrite Es by (unfold stage_ok; auto). cbn beta iota. rewrite Hm. intros E.
  exists 8%nat, 8, (usbd_hw_endp_select 0 h'). split_and!; [exact E| |lia|lia|lia|by right].
  destruct (select_ok 0 h' A0) as (B0 & B1 & _ & B3 & _). unfold hw_has. rewrite drop_ge by lia. split_and!; [done|done|by rewrite select_rx|congruence].
Qed.

(** ** Stages *)
Abbreviation bh := (usbd_async_iocb_addr ep 0).
Lemma woken_woken s : woken (set_wake true s) = set_wake true s.
Proof using. unfold woken. by destruct cfg_txaval. Qed.
(** The bottom half after the last packet of an OUT stage [g]: the next stage is IN. *)
Lemma bh_in a s g x h nxt l : pipe_at s -> stage_ok g -> stage_ok nxt -> lastb 0 s x = true ->
  (forall x h, usbd_handle_ctrl_done epi (at_ep 0 s (0x10 ||| g) x h) = Ok (tt, at_ep 0 s (0x10 ||| nxt) x (usbd_hw_endp_select 0 h))) ->
  stage_dir nxt (setup_dir s) = USB_DIR_IN -> let n := stage_length nxt s in in_u 16 n -> hw_off h l ->
  exists h', bh (out_ep 0 a s (0x70 ||| g) x h) = Ok (tt, out_ep 0 a (woken s) (SUBM ||| nxt) (Xfr n 0 (Z.min size n) 0 (iter x)) h') /\ hw_free h' l.
Proof using Hat HwOk.
  intros Hp Hg Hn Hl Hd Hdir n Hlen Hh. destruct (finish_out ep 0 d g Hg s a x h l (pa_ep _ Hp) Hl Hh) as (h1 & E1 & Hh1).
  destruct (next_in a s g x h1 s nxt x (usbd_hw_endp_select 0 h1) l Hp Hp Hn (Hd x h1) Hdir Hlen) as (h2 & E2 & Hh2); [by apply (on_off 0)|].
  exists h2. split; [by rewrite E1|done].
Qed.
(** The data or status stage IN: its packets, and the interrupt that ends it. *)
Lemma stage_in a s g xa it h l data : pipe_at s -> g = 1 \/ g = 2 -> stage_dir g (setup_dir s) = USB_DIR_IN -> Z.of_nat (length data) < 2 ^ 16 ->
  (forall c x h, calm s d USB_DIR_IN c -> c &&& USBD_CTRL_STAGE_MASK = g -> iocb0 (at_ep 0 s c x h) = emit epi data (at_ep 0 s c x h)) ->
  let n := stage_length g s in in_u 16 n -> hw_free h l ->
  let ps := packets true (Z.to_nat size) (take (Z.to_nat n) data) in
  exists x h', (first_event ep 0;; times (length ps - 1) (irq_txin ep 0);; irq_txin ep 0) (out_ep 0 a s (SUBM ||| g) (Xfr n 0 xa 0 it) h) =
    (complete ep d;; usbd_addr_restore a) (at_ep 0 s (0x10 ||| g) x h') /\ hw_on 0 h' (l ++ map (pair 0) ps).
Proof using Hat HwOk.
  intros Hp Hg Hdir Hlen Hm n Hn Hh ps. assert (Hgs : stage_ok g) by (unfold stage_ok; lia).
  destruct (stage_bits g Hgs) as (_ & B2 & _). assert (Hrun : req_dir s d (0x30 ||| g) = USB_DIR_IN) by (by rewrite ctl_dir, B2).
  destruct (sent_in ep epi 0 s d di (pa_ep _ Hp) (pa_epi _ Hp) Hat g iocb0 data eq_refl Hm Hlen n Hn (or_introl (pa_zlp _ Hp)) Hgs Hrun a xa it h l Hh)
    as (x & h1 & E1 & Hl & _ & _ & Hh1). change (USB_ADDR2EID 0) with 0 in *. rewrite (pa_zlp _ Hp) in E1, Hh1. fold ps in E1, Hh1.
  destruct (completed_in ep 0 s d (pa_ep _ Hp) g Hgs Hrun a x h1 _ Hl Hh1) as (h2 & E2 & Hh2). exists x, h2. split; [|split_and!; apply Hh2].
  revert E1. monad_red. destruct (first_event ep 0 _) as [[[] s1]|]; [|done]. intros ->. exact E2.
Qed.
(** The status stage OUT: the host's empty packet, and the bottom half that ends it. *)
Lemma stage_status_out a s it h l : pipe_at s -> setup_dir s = USB_DIR_IN -> hw_off h l ->
  exists x h', (packet_in ep 0 deliver [];; bh) (out_ep 0 a s 0x12 (Xfr 0 0 0 0 it) h) =
    (complete ep d;; usbd_addr_restore a) (at_ep 0 (set_wake true s) 0x12 x h') /\ hw_on 0 h' l.
Proof using HwOk Hdel.
  intros Hp Hdir Hh. assert (Hc : forall s', setup_dir s' = USB_DIR_IN -> calm s' d USB_DIR_OUT 0x32).
  { intros s' E. apply (ctl_calm s' d USB_DIR_OUT 2); unfold stage_ok; auto. by rewrite E. }
  pose proof (pa_size _ Hp). destruct (packet_step ep 0 d deliver Hdel 2 ltac:(auto) iocb0 0 0 0 0 it [] l a s 0x12 s 0x32 h eq_refl (pa_ep _ Hp) (pa_ep _ Hp)) as (h1 & it1 & E1 & Hh1).
  { by apply Hc. } { by apply Hc. } { split; done. } { done. }
  { intros l0 h0 Hh0. exists 0%nat, 0, h0. split_and!; [|done|done|lia|lia|by right]. unfold usbd_handle_ctrl_iocb. sym (pa_epi _ Hp). done. }
  { by left. } { lia. } { lia. } { cbn; lia. } { cbn; lia. } { done. }
  assert (Hl : forall xx, xfr_cur xx = 0 -> lastb 0 s xx = true).
  { intros xx E. unfold lastb. change (USB_ADDR2EID 0) with 0. rewrite (pa_zlp _ Hp), E. apply Z.ltb_lt. lia. }
  rewrite Hl in E1 by done. destruct (finish_out ep 0 d 2 ltac:(auto) (set_wake true s) a (Xfr 0 (0 + Z.of_nat (length (@nil Z))) (Z.of_nat (length (@nil Z))) (Z.of_nat (length (@nil Z))) it1) h1 l)
    as (h2 & E2 & Hh2); [apply (pa_ep _ (pipe_wake s true Hp))|by apply Hl|done|].
  eexists _, h2. split; [|done]. monad_red. rewrite E1. cbn beta iota. exact E2.
Qed.

(** ** Transfers

    The pipe between transfers: the request for the next SETUP packet is pending. *)
Definition pipe_idle s it : Prop := usb_transfers s !! 0%nat = Some (Xfr 8 0 0 0 it) /\ usbd_endp_ctrls s !! 0%nat = Some 0x10 /\ hw_inv (hwst s).
Definition bytes (p : list Z) : Prop := Forall (fun b => 0 <= b < 2 ^ 8) p.
Lemma setup_length p : bytes p -> in_u 16 (wLength (setup_of p)).
Proof using.
  intros Hb. unfold setup_of. destruct p as [|? [|? [|? [|? [|? [|? [|l0 [|l1 [|]]]]]]]]]; try (cbn; lia).
  unfold bytes in Hb. decompose_Forall_hyps. cbn [wLength]. by apply word_range.
Qed.
(** The status stage of a control read ends and nothing is to be applied. *)
Definition applies (c : usb_ctlsetup) : bool := (bRequest c =? USB_REQ_SET_ADDRESS) || (bRequest c =? USB_REQ_SET_CONFIGURATION).
Lemma apply_none s x h : applies (usbd_ctrl_setup s) = false -> usbd_config_apply epi (at_ep 0 s 0x12 x h) = Ok (tt, at_ep 0 s 0x12 x h).
Proof using.
  unfold applies. intros [E1 E2]%orb_false_iff. unfold usbd_config_apply, usbd_control_request_type, gets, bugif. monad_red. change (USB_ADDR2EID (usbd_endp (at_ep 0 s 18 x h)) =? USB_EID_DEFAULT) with true. cbn beta iota. cbn [negb].
  change (usbd_ctrl_setup (at_ep 0 s 18 x h)) with (usbd_ctrl_setup s). by rewrite E1, E2.
Qed.

(** C12: A control read is served.  The control pipe waits for a SETUP packet; the host sends
    one that asks for up to [wLength] bytes from the device, other than SET_ADDRESS and
    SET_CONFIGURATION, the control endpoint takes more than the 8 bytes of that packet, and
    the handler of the request writes [data] in its runs.  Then the SETUP packet, the bottom half, the events of the
    data stage, the host's empty status packet and the bottom half again hand over exactly
    the first [wLength] bytes of [data], in packets of the endpoint's size that end with a
    short or empty one, and leave the pipe waiting for the next SETUP packet; nothing else
    of the stack has changed but the request it remembers. *)
Theorem control_read_served s it p data :
  pipe_at s -> pipe_idle s it -> length p = 8%nat -> bytes p ->
  let c := setup_of p in
  USB_SETUP2DIR (bmRequestType c) = USB_DIR_IN -> 0 < wLength c -> applies c = false -> Z.of_nat (length data) < 2 ^ 16 ->
  let s1 := set_wake true (set_setup c s) in
  (forall fl x h, calm s1 d USB_DIR_IN fl -> fl &&& USBD_CTRL_STAGE_MASK = USBD_CTRL_STAGE_DATA -> usbd_handle_ctrl_data epi intf (at_ep 0 s1 fl x h) = emit epi data (at_ep 0 s1 fl x h)) ->
  let ps := packets true (Z.to_nat size) (take (Z.to_nat (wLength c)) data) in
  let data_stage := first_event ep 0;; times (length ps - 1) (irq_txin ep 0);; irq_txin ep 0 in
  exists it' h', (setup_in dset p;; bh;; data_stage;; packet_in ep 0 deliver [];; bh) s =
    Ok (tt, out_ep 0 (usbd_endp s) s1 0x10 (Xfr 8 0 0 0 it') h') /\ hw_inv h' /\ hw_sent h' = hw_sent (hwst s) ++ map (pair 0) ps.
Proof using Hat HwOk Hsync Hcso Hdset Hdel.
  intros Hp (Hx & Hc & Hinv) Hl Hb c Hdir Hw' Hap Hlen s1 Hm ps data_stage. set (a := usbd_endp s).
  assert (Hself := out_ep_self 0 s 0x10 _ Hx Hc). pose proof (setup_length p Hb) as Hwl. fold c in Hwl.
  assert (Hp1 : pipe_at s1) by by apply pipe_wake, pipe_setup. assert (Hw1 : woken s1 = s1) by apply woken_woken.
  destruct (setup_step a s (set_setup c s) 0x30 it p (hw_sent (hwst s)) (hwst s) Hp) as (h1 & x1 & E1 & Hl1 & Hh1);
    [by apply pipe_setup|by apply setup_calm|done|done|by apply reads_data|done|].
  fold a in Hself. rewrite <- Hself in E1.
  destruct (bh_in a s1 0 x1 h1 1 (hw_sent (hwst s)) Hp1) as (h2 & E2 & Hh2); [by left|by right; left|done|intros; by apply done_setup|done|done|done|].
  rewrite Hw1 in E2.
  destruct (stage_in a s1 1 (Z.min size (wLength c)) (iter x1) h2 (hw_sent (hwst s)) data Hp1) as (x3 & h3 & E3 & Hh3); [by left|done|done| |done|done|].
  { intros fl x h Hfl Hst. rewrite <- (Hm fl x h Hfl Hst). unfold usbd_handle_ctrl_iocb, ctrl_data_run, usbd_request_set_sync, usbd_request_clear_sync. rewrite Hsync.
    sym (pa_epi _ Hp1). rewrite Hst. change (1 =? USBD_CTRL_STAGE_SETUP) with false. change (1 =? USBD_CTRL_STAGE_DATA) with true. cbn beta iota. monad_red.
    by destruct (usbd_handle_ctrl_data epi intf _) as [[[] ?]|]. }
  change (stage_length 1 s1) with (wLength c) in E2, E3, Hh3. fold ps data_stage in E3, Hh3.
  destruct (next_out a s1 1 x3 h3 s1 2 x3 (usbd_hw_endp_select 0 h3) (hw_sent (hwst s) ++ map (pair 0) ps) Hp1 Hp1) as (h4 & E4 & Hh4);
    [by right; right|by apply done_data|unfold stage_dir, setup_dir; cbn; by rewrite Hdir|by apply (on_off 0)|].
  destruct (stage_status_out a s1 (iter x3) h4 (hw_sent (hwst s) ++ map (pair 0) ps) Hp1 Hdir Hh4) as (x5 & h5 & E5 & Hh5).
  change (set_wake true s1) with s1 in E5.
  destruct (next_out a s1 2 x5 h5 s1 0 x5 (usbd_hw_endp_select 0 h5) (hw_sent (hwst s) ++ map (pair 0) ps) Hp1 Hp1) as (h6 & E6 & Hh6);
    [by left|apply done_status; [done|done|by apply apply_none]|done|by apply (on_off 0)|].
  exists (iter x5), h6. split; [|exact Hh6]. monad_red.
  rewrite E1. cbn beta iota. change (raise_bits USBD_REQ_FLAG_ASYNC 48) with (0x70 ||| 0). fold s1. rewrite E2. cbn beta iota.
  rewrite E3, E4. cbn beta iota. change (0x10 ||| 2) with 0x12 in E6. rewrite E6 in E5. revert E5. monad_red. change (0x10 ||| 2) with 0x12. change (stage_length 2 s1) with 0.
  destruct (packet_in ep 0 deliver [] _) as [[[] s5]|]; [|done]. by intros ->.
Qed.

(** The effect of SET_ADDRESS: remembered at once, applied by the status stage. *)
Lemma pipe_frame s s' : usb_transfers s' = usb_transfers s -> usbd_endp_ctrls s' = usbd_endp_ctrls s -> usbd_endpoints s' = usbd_endpoints s ->
  usbd_endp_regs s' = usbd_endp_regs s -> usbd_endp_zlps s' = usbd_endp_zlps s -> pipe_at s -> pipe_at s'.
Proof using.
  intros E1 E2 E3 E4 E5 [[] [] ? ?]. constructor; [constructor|constructor| |]; by rewrite ?E1, ?E2, ?E3, ?E4, ?E5.
Qed.
Definition addressed s : st := if usbd_state s =? USB_STATE_DEFAULT then set_state (usbd_state_resume s) USB_STATE_ADDRESS s else s.
Lemma apply_addr s x h : bRequest (usbd_ctrl_setup s) = USB_REQ_SET_ADDRESS -> usbd_address s <> 0 ->
  usbd_config_apply epi (at_ep 0 s 0x12 x h) = Ok (tt, at_ep 0 (addressed s) 0x12 x (usbd_hw_set_address (usbd_address s) h)).
Proof using.
  intros E1 E2. unfold usbd_config_apply, usbd_apply_address, usbd_control_request_type, usbd_state_get, usbd_state_set, gets, modify, bugif. monad_red.
  change (USB_ADDR2EID (usbd_endp (at_ep 0 s 18 x h)) =? USB_EID_DEFAULT) with true. cbn beta iota. cbn [negb].
  change (usbd_ctrl_setup (at_ep 0 s 18 x h)) with (usbd_ctrl_setup s). rewrite E1. change (USB_REQ_SET_ADDRESS =? USB_REQ_SET_ADDRESS) with true. cbn beta iota.
  cbn [usbd_address set_hw at_ep hwst usbd_state]. change USB_ADDR_DEFAULT with 0. rewrite (proj2 (Z.eqb_neq _ _) E2). cbn [negb]. unfold addressed.
  change (usbd_state (set_hw (usbd_hw_set_address (usbd_address s) h) (at_ep 0 s 18 x h))) with (usbd_state s). by destruct (usbd_state s =? USB_STATE_DEFAULT).
Qed.
Lemma handle_addr c s x h : bmRequestType c = 0 -> bRequest c = USB_REQ_SET_ADDRESS ->
  usbd_handle_ctrl_data epi intf (at_ep 0 (set_setup c s) 0x31 x h) = Ok (tt, at_ep 0 (set_address (LOBYTE (wValue c)) (set_setup c s)) 0x31 x h).
Proof using.
  destruct c as [m r v i n]. cbn [bmRequestType bRequest wValue]. intros -> ->. done.
Qed.

(** The run of SET_ADDRESS, with what the controller is given. *)
Lemma set_address_run s it p :
  pipe_at s -> pipe_idle s it -> length p = 8%nat ->
  let c := setup_of p in let addr := LOBYTE (wValue c) in
  bmRequestType c = 0 -> bRequest c = USB_REQ_SET_ADDRESS -> wLength c = 0 -> addr <> 0 ->
  let s1 := set_wake true (set_address addr (set_setup c s)) in
  let io := setup_in dset p;; bh;; first_event ep 0 in
  exists x h it' h', io s = Ok (tt, out_ep 0 (usbd_endp s) s1 0x32 x h) /\ hw_inv h /\ hw_sent h = hw_sent (hwst s) ++ [(0, [])] /\
  hw_inv h' /\ hw_sent h' = hw_sent h /\
  (io;; irq_txin ep 0) s = Ok (tt, out_ep 0 (usbd_endp s) (addressed s1) 0x10 (Xfr 8 0 0 0 it')
    (rearmed (usbd_endp s) 0 (addressed s1) (usbd_hw_endp_select 0 (usbd_hw_set_address addr h')))).
Proof using Hat HwOk Hsync Hcso Hdset.
  intros Hp (Hx & Hc & Hinv) Hl c addr Hty Hrq Hlen Hnz s1 io. set (a := usbd_endp s). set (l := hw_sent (hwst s)).
  assert (Hself := out_ep_self 0 s 0x10 _ Hx Hc). fold a in Hself.
  assert (Hp0 : pipe_at (set_address addr (set_setup c s))) by (eapply pipe_frame; [..|exact Hp]; done).
  assert (Hp1 : pipe_at s1) by by apply pipe_wake. assert (Hw1 : woken s1 = s1) by apply woken_woken.
  assert (Hp2 : pipe_at (addressed s1)) by (unfold addressed; destruct (_ =? _); [eapply pipe_frame; [..|exact Hp1]|]; done).
  assert (Hd1 : stage_dir 1 (setup_dir s1) = USB_DIR_OUT /\ stage_dir 2 (setup_dir s1) = USB_DIR_IN) by (unfold setup_dir; cbn; by rewrite Hty).
  destruct (setup_step a s (set_address addr (set_setup c s)) 0x31 it p l (hwst s) Hp Hp0) as (h1 & x1 & E1 & Hl1 & Hh1);
    [apply (ctl_calm _ _ _ 1); unfold stage_ok; auto; apply Hd1|done|done|apply reads_nodata; [done..|]; intros; by apply handle_addr|done|].
  rewrite <- Hself in E1.
  destruct (bh_in a s1 1 x1 h1 2 l Hp1) as (h2 & E2 & Hh2); [by right; left|by right; right|done|intros; by apply done_data|apply Hd1|done|done|]. rewrite Hw1 in E2.
  assert (Hrun : req_dir s1 d 0x32 = USB_DIR_IN) by (rewrite ctl_dir by done; apply Hd1).
  destruct (first_in ep epi 0 s1 d di (pa_ep _ Hp1) (pa_epi _ Hp1) Hat 2 iocb0 [] eq_refl) with (n := 0) (a := a) (xa := Z.min size 0) (it := iter x1) (h := h2) (l := l)
    as (h3 & E3 & Hh3); [|done|done|by left; apply Hp1|by right; right|done|done|].
  { intros fl x h Hfl Hst. unfold usbd_handle_ctrl_iocb. sym (pa_epi _ Hp1). by rewrite Hst. }
  change (take (Z.to_nat size) (take (Z.to_nat 0) [])) with (take (Z.to_nat size) (@nil Z)) in E3, Hh3. rewrite take_nil in E3, Hh3.
  pose (x := Xfr 0 0 (Z.min size 0) 0 0). assert (Hlast : lastb 0 s1 x = true).
  { unfold lastb. change (USB_ADDR2EID 0) with 0. rewrite (pa_zlp _ Hp1). apply Z.ltb_lt. pose proof (pa_size _ Hp). cbn. lia. }
  destruct (completed_in ep 0 s1 d (pa_ep _ Hp1) 2 ltac:(auto) Hrun a x h3 _ Hlast Hh3) as (h4 & E4 & Hh4).
  assert (E : io s = Ok (tt, out_ep 0 a s1 0x32 x h3)).
  { unfold io. monad_red. rewrite E1. cbn beta iota. change (raise_bits USBD_REQ_FLAG_ASYNC 49) with (0x70 ||| 1). fold s1. rewrite E2. exact E3. }
  exists x, h3, (iter x), h4. split_and!; [done|apply Hh3|apply Hh3|apply Hh4|by rewrite (proj2 (proj2 (proj2 Hh4))), (proj2 (proj2 Hh3))|].
  monad_red. rewrite E. cbn beta iota. change 0x32 with (0x30 ||| 2). rewrite E4.
  by rewrite (next_out_at a s1 2 x h4 (addressed s1) 0 x (usbd_hw_endp_select 0 (usbd_hw_set_address addr h4))) by first [done|by left|apply done_status; [done|done|by apply apply_addr]].
Qed.
End pipe.

Section address.
Context {hw U : Type} {Hw : UsbdHw hw} {Obs : UsbdObs hw} {Cfg : UsbdCfg} {HwOk : UsbdHwOk hw} {Ids : UsbdIds} {Addr : UsbdAddr hw}.
Context (ep epi : nat -> usbd_endpoint (hw := hw) (U := U)) (intf : nat -> usbd_interface (hw := hw) (U := U)).
Context (di : usbd_endpoint (hw := hw) (U := U)) (Hat : attrs di = USBD_ENDP_CTRL).
Context (Hsync : cfg_sync = false) (Hcso : cfg_cso = false).
Context (dset : list Z -> hw -> hw) (Hdset : delivers 0 dset) (Hdaddr : forall p h, hw_addr (dset p h) = hw_addr h).
Abbreviation size := (usbd_hw_endp_size 0).

(** C22: SET_ADDRESS takes effect after its status stage, and not before.  The host sends
    SET_ADDRESS with a non-zero address to a waiting control pipe.  Up to the empty packet of
    the status stage the stack only remembers the address: the controller has the address it
    had before, the state of the device is unchanged and the pipe runs its status stage.  The
    interrupt after the host has taken that packet gives the controller the new address,
    moves a device in the default state to the address state, and leaves the pipe waiting
    for the next SETUP packet, with no further packet handed over. *)
Theorem set_address_served (s : usbd hw U) it p :
  pipe_at ep epi intf di s -> pipe_idle s it -> length p = 8%nat ->
  let c := setup_of p in let addr := LOBYTE (wValue c) in
  bmRequestType c = 0 -> bRequest c = USB_REQ_SET_ADDRESS -> wLength c = 0 -> addr <> 0 ->
  let s1 := set_wake true (set_address addr (set_setup c s)) in
  let io := setup_in ep dset p;; usbd_async_iocb_addr ep 0;; first_event ep 0 in
  exists x h it' h', io s = Ok (tt, out_ep 0 (usbd_endp s) s1 0x32 x h) /\
  hw_addr h = hw_addr (hwst s) /\ hw_inv h /\ hw_sent h = hw_sent (hwst s) ++ [(0, [])] /\
  (io;; irq_txin ep 0) s = Ok (tt, out_ep 0 (usbd_endp s) (addressed s1) 0x10 (Xfr 8 0 0 0 it') h') /\
  hw_addr h' = addr /\ hw_inv h' /\ hw_sent h' = hw_sent h.
Proof using Hat HwOk Hsync Hcso Hdset Hdaddr.
  intros Hp (Hx & Hc & Hinv) Hl c addr Hty Hrq Hlen Hnz s1 io. set (a := hw_addr (hwst s)).
  assert (Hd : @delivers hw Hw (with_addr a) 0 dset).
  { intros q h [Hi Ha] Hq. destruct (Hdset q h Hi Hq) as (D1 & D2 & D3). split_and!; [split; [done|by rewrite Hdaddr]|done|done]. }
  destruct (@set_address_run hw U Hw (with_addr a) Cfg (with_addr_ok a) Ids ep epi intf di Hat Hsync Hcso dset Hd s it p)
    as (x & h & it' & h' & E1 & [I1 A1] & S1 & [I2 A2] & S2 & E2); [by destruct Hp|done..|].
  cbn [hw_sent with_addr] in S1, S2. fold c in E1, E2. fold addr in E1, E2. fold s1 in E1, E2.
  destruct (set_address_ok addr h' I2) as (K1 & _ & _ & K4). pose proof (set_address_addr addr h' I2) as K5.
  set (hf := usbd_hw_endp_select 0 (usbd_hw_set_address addr h')) in *.
  assert (Hf : @hw_off hw (with_addr addr) hf (hw_sent h)).
  { destruct (select_ok 0 _ K1) as (J1 & _ & _ & J2 & _). unfold hw_off, hf. cbn [hw_inv hw_sent with_addr]. rewrite select_addr. split_and!; (done || congruence). }
  apply (@rearmed_off hw U Hw (with_addr addr) Cfg (with_addr_ok addr) di (usbd_endp s) 0 (addressed s1)) in Hf as [[F1 F2] F3].
  exists x, h, it'. eexists. split_and!; [exact E1|done|done|done|exact E2|done|done|exact F3].
Qed.
End address.
