(* ===== verification/UsbDesc.v ===== *)
(** * USB device stack: descriptors

    What the handlers of GET_DESCRIPTOR write into the data stage of the control pipe.  A
    handler that [emits] a list of bytes is one that [control_read_served] asks for. *)
From S2P Require Import Prelude MulDiv Usbd UsbdHal UsbdIn UsbdOut UsbCtrl UsbCtrlIo.

Section desc.
Context {hw U : Type} {Hw : UsbdHw hw} {Cfg : UsbdCfg} {Ids : UsbdIds}.
Abbreviation st := (usbd hw U).
Context (ep : nat -> usbd_endpoint (hw := hw) (U := U)) (intf : nat -> usbd_interface (hw := hw) (U := U)).
Context (d : usbd_endpoint (hw := hw) (U := U)) (s : st) (Hs : ep_at ep 0 s d).
Implicit Types (c : Z) (x : usb_transfer) (h : hw) (m : stm st unit) (l : list Z).

(** The flags of the control pipe in a data stage IN. *)
Abbreviation sending c := (calm s d USB_DIR_IN c /\ c &&& USBD_CTRL_STAGE_MASK = USBD_CTRL_STAGE_DATA).
Definition emits m l : Prop := forall c x h, sending c -> m (at_ep 0 s c x h) = emit ep l (at_ep 0 s c x h).
(** A run that stays in the data stage. *)
Definition stays {A} (r : res (A * st)) c : Prop := match r with Ok (_, s') => exists x h, s' = at_ep 0 s c x h | Fault _ => True end.

Lemma write_stays b c x h : stays (hw_write_byte b (at_ep 0 s c x h)) c.
Proof using. unfold hw_write_byte, getr, modify. monad_red. destruct (usbd_hw_write_byte _ _); [|done]. by eexists _, _. Qed.
Lemma close_stays c x h : stays (hw_transfer_close ep (at_ep 0 s c x h)) c.
Proof using Hs.
  unfold hw_transfer_close, getr, modify. monad_red. rewrite (view_at _ _ _ _ Hs). cbn beta iota. destruct (usbd_hw_transfer_close _ _); [|done]. by eexists _, _.
Qed.
Lemma inb_stays b c x h : calm s d USB_DIR_IN c -> stays (usbd_inb ep b (at_ep 0 s c x h)) c.
Proof using Hs.
  intros Hc. unfold usbd_inb, usbd_request_syncing, usbd_inb_async, usbd_transfer_unhandled, close_if_full, usbd_transfer_handled. sym Hs. rewrite (proj1 (proj2 Hc)). sym Hs.
  destruct (_ && _); [|by sym Hs; eexists _, _]. pose proof (write_stays b c x h) as Q. destruct (hw_write_byte b _) as [[[] s1]|]; [|done]. destruct Q as (x1 & h1 & ->).
  cbn beta iota. sym Hs. destruct (_ =? _); [|by sym Hs; eexists _, _].
  pose proof (close_stays c (advance x1) h1) as Q. destruct (hw_transfer_close ep _) as [[[] s1]|]; [|done]. destruct Q as (x2 & h2 & ->). cbn beta iota. by sym Hs; eexists _, _.
Qed.
Lemma emit_stays l c x h : calm s d USB_DIR_IN c -> stays (emit ep l (at_ep 0 s c x h)) c.
Proof using Hs.
  intros Hc. revert x h. induction l as [|b l IH]; intros x h; cbn [emit]; [by eexists _, _|]. monad_red.
  pose proof (inb_stays b c x h Hc) as Q. destruct (usbd_inb ep b _) as [[[] s1]|]; [|done]. destruct Q as (x1 & h1 & ->). apply IH.
Qed.
Lemma emit_app l1 l2 (s0 : st) : emit ep (l1 ++ l2) s0 = (emit ep l1;; emit ep l2) s0.
Proof using.
  revert s0. induction l1 as [|b l1 IH]; intros s0; cbn [emit app]; [done|]. monad_red. destruct (usbd_inb ep b s0) as [[[] s1]|]; [|done]. by rewrite IH.
Qed.
(** ** Composition *)
Lemma emits_ret : emits (mret tt) [].
Proof using. done. Qed.
Lemma emits_bind m1 (m2 : unit -> stm st unit) l1 l2 : emits m1 l1 -> emits (m2 tt) l2 -> emits (y ← m1; m2 y) (l1 ++ l2).
Proof using Hs.
  intros H1 H2 c x h Hc. rewrite emit_app. monad_red. rewrite H1 by done. pose proof (emit_stays l1 c x h (proj1 Hc)) as Q.
  destruct (emit ep l1 _) as [[[] s1]|]; [|done]. destruct Q as (x1 & h1 & ->). by apply H2.
Qed.
Lemma emits_inb b : emits (usbd_inb ep b) [b].
Proof using. intros c x h _. cbn [emit]. monad_red. by destruct (usbd_inb ep b _) as [[[] ?]|]. Qed.
Lemma emits_inb_bind b m l : emits m l -> emits (usbd_inb ep b;; m) (b :: l).
Proof using Hs. apply (emits_bind _ (fun _ => m) [b]), emits_inb. Qed.
Lemma emits_inw w : emits (usbd_inw ep w) [LOBYTE w; HIBYTE w].
Proof using Hs. unfold usbd_inw. apply emits_inb_bind, emits_inb. Qed.
Lemma emits_inw_bind w m l : emits m l -> emits (usbd_inw ep w;; m) (LOBYTE w :: HIBYTE w :: l).
Proof using Hs. apply (emits_bind _ (fun _ => m) [LOBYTE w; HIBYTE w]), emits_inw. Qed.
(** A value read from the state. *)
Definition yields {A} (q : stm st A) (a : A) : Prop := forall c x h, sending c -> q (at_ep 0 s c x h) = Ok (a, at_ep 0 s c x h).
Lemma emits_read {A} (q : stm st A) a (k : A -> stm st unit) l : yields q a -> emits (k a) l -> emits (y ← q; k y) l.
Proof using. intros Hq Hk c x h Hc. monad_red. rewrite (Hq c x h Hc). by apply Hk. Qed.
Lemma yields_gets {A} (f : st -> A) a : (forall c x h, f (at_ep 0 s c x h) = a) -> yields (gets f) a.
Proof using. intros E c x h _. unfold gets. by rewrite E. Qed.
Lemma yields_bind {A B} (q : stm st A) a (k : A -> stm st B) b : yields q a -> yields (k a) b -> yields (y ← q; k y) b.
Proof using. intros Hq Hk c x h Hc. monad_red. rewrite (Hq c x h Hc). by apply Hk. Qed.

(** ** Descriptors *)
Definition device_descriptor : list Z :=
  [USB_DT_DEVICE_SIZE; USB_DT_DEVICE; LOBYTE USB_VERSION_DEFAULT; HIBYTE USB_VERSION_DEFAULT; 0; 0; 0; USBD_HW_CTRL_SIZE;
   LOBYTE USBD_VENDOR_ID; HIBYTE USBD_VENDOR_ID; LOBYTE system_product_id; HIBYTE system_product_id;
   LOBYTE (u16 system_device_id); HIBYTE (u16 system_device_id); USB_STRING_FACTORY; USB_STRING_PRODUCT; USB_STRING_SERIALNO; NR_USBD_CONFS].
Lemma device_desc_emits : emits (usb_get_device_desc ep) device_descriptor.
Proof using Hs. unfold usb_get_device_desc, device_descriptor. repeat first [apply emits_inb_bind|apply emits_inw_bind]. apply emits_inb. Qed.
Lemma interface_desc_emits cls sub proto str : emits (usbd_input_interface_desc ep cls sub proto str) [cls; sub; proto; str].
Proof using Hs. unfold usbd_input_interface_desc. do 3 apply emits_inb_bind. apply emits_inb. Qed.
(** The descriptor of the endpoint that [e'] describes. *)
Definition endpoint_descriptor (addr : Z) (e' : usbd_endpoint (hw := hw) (U := U)) : list Z :=
  [USB_DT_ENDPOINT_SIZE; USB_DT_ENDPOINT; USB_ENDPADDR (USBD_ATTR2DIR (attrs e')) (USB_ADDR2EID addr); USBD_ATTR2TYPE (attrs e');
   LOBYTE (usbd_hw_endp_size addr); HIBYTE (usbd_hw_endp_size addr); u8 (interval e')].
Lemma endpoint_desc_emits addr p : USB_ADDR2EID addr < NR_USBD_ENDPS -> usbd_endpoints s !! idx_of addr = Some p ->
  emits (usbd_input_endpoint_desc ep addr) (endpoint_descriptor addr (ep p)).
Proof using Hs.
  intros Ha Hp. assert (Yf : yields (usbd_endp_func_by_addr ep addr) (ep p)) by (intros c x h _; unfold usbd_endp_func_by_addr, getr; cbn; by rewrite Hp).
  unfold usbd_input_endpoint_desc. do 2 apply emits_inb_bind. unfold usbd_endpoint_dir_addr, usbd_endpoint_type_addr, usbd_endpoint_attrs_addr, usbd_endpoint_interval_addr.
  rewrite (proj2 (Z.ltb_lt _ _) Ha). eapply emits_read; [eapply yields_bind; [eapply yields_bind; [exact Yf|done]|done]|]. apply emits_inb_bind.
  eapply emits_read; [eapply yields_bind; [eapply yields_bind; [exact Yf|done]|done]|]. apply emits_inb_bind, emits_inw_bind.
  eapply emits_read; [eapply yields_bind; [exact Yf|done]|]. apply emits_inb.
Qed.
(** The bytes an interface adds to the configuration descriptor: five of its interface
    descriptor, and what its [ctrl] writes: the rest of it, descriptors of the class, and
    descriptors of the endpoints.  [config_len] is the length of the class' part. *)
Definition intf_part (iid : Z) (part : list Z) : Prop := exists p m l f k,
  usbd_interfaces s !! Z.to_nat iid = Some p /\
  ctrl (intf p) = Some m /\ emits m l /\ part = [USB_DT_INTERFACE_SIZE; USB_DT_INTERFACE; iid; 0; nr_endps (intf p)] ++ l /\
  config_len (intf p) = Some f /\ yields f k /\ Z.of_nat (length part) = USB_DT_INTERFACE_SIZE + k + USB_DT_ENDPOINT_SIZE * nr_endps (intf p).
Fixpoint intf_parts (iid : Z) (parts : list (list Z)) : Prop :=
  match parts with [] => True | part :: parts => intf_part iid part /\ intf_parts (iid + 1) parts end.
Lemma yields_setup {A} (f : usb_ctlsetup -> A) (c0 : usb_ctlsetup) : usbd_ctrl_setup s = c0 -> yields (gets (fun s => f (usbd_ctrl_setup s))) (f c0).
Proof using. intros <-. by apply yields_gets. Qed.
Lemma yields_interface iid p : usbd_interfaces s !! Z.to_nat iid = Some p -> yields (the_interface intf iid) (intf p).
Proof using. intros E c x h _. unfold the_interface, getr. cbn. by rewrite E. Qed.
Lemma length_loop parts iid acc : intf_parts iid parts -> 0 <= acc -> acc + Z.of_nat (length (concat parts)) < 2 ^ 16 ->
  yields (for_intfs (length parts) iid (fun iid length =>
    c ← the_interface intf iid;
    match config_len c with
    | Some f => l ← f; mret (u16 (length + USB_DT_INTERFACE_SIZE + l + USB_DT_ENDPOINT_SIZE * nr_endps c))
    | None => fun _ => Fault FBug
    end) acc) (acc + Z.of_nat (length (concat parts))).
Proof using.
  revert iid acc. induction parts as [|part parts IH]; intros iid acc Hp Ha Hl; cbn [for_intfs length concat] in *; [by rewrite Z.add_0_r|].
  destruct Hp as [(p & m & l & f & k & E1 & E2 & E3 & E4 & E5 & E6 & E7) Hp]. rewrite length_app in *. eapply yields_bind with (a := acc + Z.of_nat (length part)).
  - eapply yields_bind; [by apply yields_interface|]. cbn beta. rewrite E5. eapply yields_bind; [done|]. cbn beta. rewrite Nat2Z.inj_add, E7 in Hl. rewrite E7.
    replace (u16 (acc + USB_DT_INTERFACE_SIZE + k + USB_DT_ENDPOINT_SIZE * nr_endps (intf p))) with (acc + (USB_DT_INTERFACE_SIZE + k + USB_DT_ENDPOINT_SIZE * nr_endps (intf p)))
      by (rewrite wrap_id; lia). done.
  - rewrite Nat2Z.inj_add, Z.add_assoc. apply IH; [done|lia|lia].
Qed.
Lemma desc_loop parts iid : intf_parts iid parts ->
  emits (for_intfs (length parts) iid (fun iid _ =>
    c ← the_interface intf iid;
    usbd_inb ep USB_DT_INTERFACE_SIZE;; usbd_inb ep USB_DT_INTERFACE;; usbd_inb ep iid;; usbd_inb ep 0;; usbd_inb ep (nr_endps c);;
    usb_interface_ctrl_data intf iid) tt) (concat parts).
Proof using Hs.
  revert iid. induction parts as [|part parts IH]; intros iid Hp; cbn [for_intfs length concat]; [done|].
  destruct Hp as [(p & m & l & f & k & E1 & E2 & E3 & -> & _) Hp]. apply emits_bind; [|by apply IH].
  eapply emits_read; [by apply yields_interface|]. do 5 apply emits_inb_bind.
  unfold usb_interface_ctrl_data. eapply emits_read; [by apply yields_interface|]. cbn beta. by rewrite E2.
Qed.
(** The configuration descriptor: its total length is the number of its bytes. *)
Definition config_descriptor (parts : list (list Z)) : list Z :=
  let total := USB_DT_CONFIG_SIZE + Z.of_nat (length (concat parts)) in
  [USB_DT_CONFIG_SIZE; USB_DT_CONFIG; LOBYTE total; HIBYTE total; Z.of_nat (length parts); USB_CID2CONF USB_CID_DEFAULT; USB_STRING_PRODUCT;
   USB_CONFIG_ATTR_DEFAULT; u8 (USBD_MAX_POWER >>> 1)] ++ concat parts.
(** For GET_DESCRIPTOR of the configuration the handler of the control pipe writes the
    configuration's header and the parts of all interfaces in order; if each interface's
    [config_len] is that of its part, the total length in the header is the number of bytes
    written. *)
Lemma config_desc_emits parts w n :
  usbd_ctrl_setup s = Setup 0x80 USB_REQ_GET_DESCRIPTOR (word USB_CID_DEFAULT USB_DT_CONFIG) w n ->
  usbd_nr_intfs s = Z.of_nat (length parts) -> intf_parts 0 parts -> USB_DT_CONFIG_SIZE + Z.of_nat (length (concat parts)) < 2 ^ 16 ->
  let desc := config_descriptor parts in
  emits (usbd_handle_ctrl_data ep intf) desc /\
  exists lo hi, desc !! 2%nat = Some lo /\ desc !! 3%nat = Some hi /\ lo + 256 * hi = Z.of_nat (length desc).
Proof using Hs.
  intros Hset Hn Hp Hl desc. split.
  - assert (Yn : yields (gets usbd_nr_intfs) (Z.of_nat (length parts))) by (apply yields_gets; intros; exact Hn).
    assert (Ys := fun f : usb_ctlsetup -> Z => yields_setup f _ Hset).
    eapply emits_read; [apply (Ys (fun q => USB_SETUP2TYPE (bmRequestType q)))|]. eapply emits_read; [apply (Ys (fun q => USB_SETUP2RECP (bmRequestType q)))|].
    eapply emits_read; [apply (Ys bRequest)|]. do 2 (eapply emits_read; [apply (Ys wValue)|]). unfold desc, config_descriptor. do 2 apply emits_inb_bind. eapply emits_read.
    { eapply yields_bind; [exact Yn|]. cbn beta. rewrite Nat2Z.id. by apply length_loop. }
    apply emits_inw_bind. eapply emits_read; [exact Yn|]. cbn beta. do 5 apply emits_inb_bind. rewrite Nat2Z.id. by apply desc_loop.
  - set (t := USB_DT_CONFIG_SIZE + Z.of_nat (length (concat parts))) in *. exists (LOBYTE t), (HIBYTE t). split_and!; [done|done|].
    unfold desc, config_descriptor. rewrite length_app. fold t. cbn [length]. unfold LOBYTE, HIBYTE, wrap. rewrite Z.shiftr_div_pow2 by lia.
    assert (0 <= t) by (unfold t, USB_DT_CONFIG_SIZE; lia). change (2 ^ 8) with 256 in *. rewrite (Z.mod_small (t / 256)) by (split; [apply Z.div_pos; lia|apply Z.div_lt_upper_bound; lia]).
    rewrite Nat2Z.inj_add. change (Z.of_nat 9) with USB_DT_CONFIG_SIZE. fold t. pose proof (Z.div_mod t 256 ltac:(lia)). lia.
Qed.
End desc.
