(* ===== verification/UsbScr100.v ===== *)
(** * The USB controller of the AT90SCR100

    src/arch/avr/mach-at90scr100/usb.c and its header: the controller's driver as an
    instance of [UsbdHw].  Bytes go through the DMA buffer [usbd_dma_buffer]; the registers
    of the endpoint selected by USBENUM are a record per endpoint, with the endpoint's FIFO.
    The hardware's part is the DMA, which stops the CPU while it copies between the buffer
    and the FIFO, and the bus, on which the FIFO's contents go when TXPB is raised; the
    driver's busy wait for an empty FIFO ends when the host has taken the last packet.  No
    bus reset (FEURI) is pending in these functions, which would end their waits. *)
From S2P Require Import Prelude MulDiv Usbd UsbdHal UsbdIn UsbdOut UsbCtrl.

Definition TXC : Z := 0.
Definition RCVD : Z := 1.
Definition RXSETUP : Z := 2.
Definition STSENT : Z := 3.
Definition TXPB : Z := 4.
Definition FSTALL : Z := 5.
Definition _BV (b : Z) : Z := 1 <<< b.
Definition USBD_DMA_SIZE : Z := 128.
Definition SCR_ENDPS : Z := 7.

Record epreg : Type := Epreg { USBCSEX : Z; USBDBCEX : Z; USBFCEX : Z; ep_fifo : list Z }.
Record scr : Type := Scr {
  USBENUM : Z; scr_eps : Z -> epreg; USBEIM : Z; USBGS : Z; USBFA : Z; USBDMAB : Z;
  usbd_dma_buffer : list Z; dma_count : Z; scr_bus : list (Z * list Z)
}.
Definition set_ep (e : Z) (r : epreg) (h : scr) : scr :=
  Scr (USBENUM h) (fun i => if i =? e then r else scr_eps h i) (USBEIM h) (USBGS h) (USBFA h) (USBDMAB h) (usbd_dma_buffer h) (dma_count h) (scr_bus h).
Definition set_csr (f : Z -> Z) (h : scr) : scr :=
  let r := scr_eps h (USBENUM h) in set_ep (USBENUM h) (Epreg (f (USBCSEX r)) (USBDBCEX r) (USBFCEX r) (ep_fifo r)) h.
Definition __usbd_hw_sta_raised (flag : Z) (h : scr) : bool := Z.testbit (USBCSEX (scr_eps h (USBENUM h))) flag.
Definition __usbd_hw_unraise_sta (flag : Z) (h : scr) : scr := set_csr (fun c => u8 (c &&& Z.lnot (_BV flag))) h.
Definition __usbd_hw_raise_sta (flag : Z) (h : scr) : scr := set_csr (fun c => c ||| _BV flag) h.
Definition set_dma (b : list Z) (n c : Z) (h : scr) : scr :=
  Scr (USBENUM h) (scr_eps h) (USBEIM h) (USBGS h) (USBFA h) n b c (scr_bus h).
Definition set_gs (gs fa : Z) (h : scr) : scr :=
  Scr (USBENUM h) (scr_eps h) (USBEIM h) gs fa (USBDMAB h) (usbd_dma_buffer h) (dma_count h) (scr_bus h).
Definition set_eim (m : Z) (h : scr) : scr :=
  Scr (USBENUM h) (scr_eps h) m (USBGS h) (USBFA h) (USBDMAB h) (usbd_dma_buffer h) (dma_count h) (scr_bus h).

Definition scr_endp_size (addr : Z) : Z :=
  let eid := USB_ADDR2EID addr in if SCR_ENDPS <=? eid then 0 else nth (Z.to_nat eid) [64; 64; 64; 64; 8; 8; 8] 0.
Definition scr_endp_caps (addr type : Z) : bool :=
  let eid := USB_ADDR2EID addr in
  negb (SCR_ENDPS <=? eid) &&
  negb ((type =? USB_ENDP_CONTROL) && negb (eid =? USB_EID_DEFAULT)) &&
  negb ((type =? USB_ENDP_BULK) && ((eid <? 1) || (3 <? eid))) &&
  negb ((type =? USB_ENDP_INTERRUPT) && ((eid <? 4) || (6 <? eid))).
Definition scr_endp_select (addr : Z) (h : scr) : scr :=
  Scr (USB_ADDR2EID addr) (scr_eps h) (USBEIM h) (USBGS h) (USBFA h) (USBDMAB h) (usbd_dma_buffer h) (dma_count h) (scr_bus h).
Definition scr_endp_enable (v : view) (h : scr) : scr :=
  let r := scr_eps h (USBENUM h) in
  set_ep (USBENUM h) (Epreg (USBCSEX r) (USBDBCEX r) (_BV 7 ||| v_type v ||| (v_edir v <<< 2)) (ep_fifo r)) h.
Definition usbd_hw_dma_reset (h : scr) : scr := set_dma (usbd_dma_buffer h) (USBDMAB h) 0 h.
(** The DMA run of [usbd_hw_dma_submit]: [dma_count] bytes, to the FIFO of the endpoint for
    IN, to the buffer for OUT. *)
Definition usbd_hw_dma_submit (v : view) (h : scr) : scr :=
  let eid := USB_ADDR2EID (v_endp v) in
  let r := scr_eps h eid in
  let n := dma_count h in
  let h := if v_dir v =? USB_DIR_IN then
    let w := take (Z.to_nat n) (usbd_dma_buffer h) in
    set_dma (usbd_dma_buffer h) n (dma_count h) (set_ep eid (Epreg (USBCSEX r) (Z.of_nat (length w)) (USBFCEX r) w) h)
  else set_dma (take (Z.to_nat n) (ep_fifo r) ++ drop (Z.to_nat n) (usbd_dma_buffer h)) n (dma_count h) h in
  usbd_hw_dma_reset h.
Definition usbd_hw_dma_submit_rx (v : view) (length : Z) (h : scr) : scr :=
  usbd_hw_dma_submit v (set_dma (usbd_dma_buffer h) (USBDMAB h) length h).
Definition usbd_hw_read_avail (v : view) (h : scr) : Z :=
  if v_type v =? USB_ENDP_CONTROL then
    if v_stage v =? USBD_CTRL_STAGE_STATUS then 0
    else if v_stage v =? USBD_CTRL_STAGE_SETUP then 8 else USBDBCEX (scr_eps h (USBENUM h))
  else USBDBCEX (scr_eps h (USBENUM h)).
Definition scr_read_byte (h : scr) : res (Z * scr) :=
  bug_on (USBD_DMA_SIZE <=? dma_count h);;
  b ← oob (usbd_dma_buffer h !! Z.to_nat (dma_count h));
  Ok (b, set_dma (usbd_dma_buffer h) (USBDMAB h) (u8 (dma_count h + 1)) h).
Definition scr_write_byte (byte : Z) (h : scr) : res scr :=
  bug_on (USBD_DMA_SIZE <=? dma_count h);;
  _ ← oob (usbd_dma_buffer h !! Z.to_nat (dma_count h));
  Ok (set_dma (<[Z.to_nat (dma_count h) := byte]> (usbd_dma_buffer h)) (USBDMAB h) (u8 (dma_count h + 1)) h).
(** [while (!__usbd_hw_is_txaval());] *)
Definition scr_wait_tx (h : scr) : scr := if __usbd_hw_sta_raised TXPB h then __usbd_hw_raise_sta TXC (__usbd_hw_unraise_sta TXPB h) else h.
Definition __usbd_hw_is_rxaval (v : view) (h : scr) : bool :=
  if v_type v =? USB_ENDP_CONTROL then __usbd_hw_sta_raised RXSETUP h || __usbd_hw_sta_raised RCVD h else __usbd_hw_sta_raised RCVD h.
Definition scr_transfer_open (v : view) (h : scr) : res (option Z * scr) :=
  if v_dir v =? USB_DIR_IN then Ok (None, if v_sync v then scr_wait_tx h else h)
  else if v_sync v && negb (__usbd_hw_is_rxaval v h) then Fault FHang
  else let h' := usbd_hw_dma_submit_rx v (usbd_hw_read_avail v h) h in Ok (Some (usbd_hw_read_avail v h'), h').
(** The FIFO's contents go on the bus. *)
Definition scr_send (h : scr) : scr :=
  Scr (USBENUM h) (scr_eps h) (USBEIM h) (USBGS h) (USBFA h) (USBDMAB h) (usbd_dma_buffer h) (dma_count h)
    (scr_bus h ++ [(USBENUM h, ep_fifo (scr_eps h (USBENUM h)))]).
Definition scr_transfer_close (v : view) (h : scr) : res scr :=
  if v_dir v =? USB_DIR_IN then
    Ok (scr_send (__usbd_hw_raise_sta TXPB (usbd_hw_dma_submit v (__usbd_hw_unraise_sta TXC (scr_wait_tx h)))))
  else
    let h := if v_staging v && __usbd_hw_sta_raised RXSETUP h then __usbd_hw_unraise_sta RXSETUP h else h in
    Ok (__usbd_hw_unraise_sta RCVD h).
Definition scr_request_open (v : view) (h : scr) : scr :=
  let h := usbd_hw_dma_reset h in set_eim (USBEIM h ||| _BV (USB_ADDR2EID (v_endp v))) h.
Definition scr_request_close (v : view) (h : scr) : scr := set_eim (u8 (USBEIM h &&& Z.lnot (_BV (USB_ADDR2EID (v_endp v))))) h.
(** The endpoint's reset empties its FIFO; [USBCSEX = 0x00] is written to the selected one. *)
Definition scr_request_reset (v : view) (h : scr) : scr :=
  let eid := USB_ADDR2EID (v_endp v) in
  let r := scr_eps h eid in
  set_csr (fun _ => 0) (set_ep eid (Epreg (USBCSEX r) 0 (USBFCEX r) []) h).
Definition scr_set_config (config : Z) (h : scr) : scr :=
  set_gs (if config =? 0 then u8 (USBGS h &&& Z.lnot (_BV 1)) else USBGS h ||| _BV 1) (USBFA h) h.
Definition scr_set_address (addr : Z) (h : scr) : scr :=
  if addr =? 0 then set_gs (u8 (USBGS h &&& Z.lnot (_BV 0))) (u8 (USBFA h &&& Z.lnot 0x7F)) h else set_gs (USBGS h ||| _BV 0) addr h.

#[export] Instance scr_hw : UsbdHw scr := {
  usbd_hw_endp_size := scr_endp_size;
  usbd_hw_endp_caps := scr_endp_caps;
  usbd_hw_endp_select := scr_endp_select;
  usbd_hw_endp_enable := scr_endp_enable;
  usbd_hw_endp_halt := fun _ => __usbd_hw_raise_sta FSTALL;
  usbd_hw_endp_unhalt := fun _ => __usbd_hw_unraise_sta FSTALL;
  usbd_hw_read_byte := scr_read_byte;
  usbd_hw_write_byte := scr_write_byte;
  usbd_hw_transfer_open := scr_transfer_open;
  usbd_hw_transfer_close := scr_transfer_close;
  usbd_hw_request_open := scr_request_open;
  usbd_hw_request_close := scr_request_close;
  usbd_hw_request_reset := scr_request_reset;
  usbd_hw_set_address := scr_set_address;
  usbd_hw_set_config := scr_set_config;
  usbd_hw_pm_suspend := fun h => h;
  usbd_hw_pm_resume := fun h => h
}.
(** The controller reports completed transmissions (TXC), so that the stack starts an IN
    request by itself (CONFIG_USBD_XFR_ASYNC_TXAVAL). *)
#[export] Instance scr_cfg : UsbdCfg := { NR_USBD_ENDPS := SCR_ENDPS; NR_USBD_INTFS := 1; cfg_sync := false; cfg_txaval := true; cfg_cso := false }.

(** ** What the driver promises *)
Record scr_inv (h : scr) : Prop := ScrInv {
  si_buf : length (usbd_dma_buffer h) = Z.to_nat USBD_DMA_SIZE;
  si_count : 0 <= dma_count h <= USBD_DMA_SIZE;
  si_dmab : 0 <= USBDMAB h <= USBD_DMA_SIZE;
  si_fifo i : USBDBCEX (scr_eps h i) = Z.of_nat (length (ep_fifo (scr_eps h i))) /\ Z.of_nat (length (ep_fifo (scr_eps h i))) <= USBD_DMA_SIZE
}.
#[export] Instance scr_obs : UsbdObs scr := {
  hw_inv := scr_inv;
  hw_sel := USBENUM;
  hw_tx := fun h => take (Z.to_nat (dma_count h)) (usbd_dma_buffer h);
  hw_sent := scr_bus;
  hw_pkt := fun h e => let r := scr_eps h e in if Z.testbit (USBCSEX r) RCVD || Z.testbit (USBCSEX r) RXSETUP then Some (ep_fifo r) else None;
  hw_rx := fun h => drop (Z.to_nat (dma_count h)) (take (Z.to_nat (USBDMAB h)) (usbd_dma_buffer h))
}.

Lemma USB_ADDR2EID_idem a : USB_ADDR2EID (USB_ADDR2EID a) = USB_ADDR2EID a.
Proof. unfold USB_ADDR2EID. by rewrite <- Z.land_assoc. Qed.
Lemma scr_size_le a : scr_endp_size a <= 64.
Proof.
  unfold scr_endp_size. destruct (_ <=? _); [lia|]. destruct (Z.to_nat (USB_ADDR2EID a)) as [|[|[|[|[|[|[|[|]]]]]]]]; cbn; lia.
Qed.
Lemma take_insert_snoc {A} (l : list A) i x : (i < length l)%nat -> take (S i) (<[i := x]> l) = take i l ++ [x].
Proof. intros Hi. rewrite (take_S_r _ _ x) by by apply list_lookup_insert_eq. by rewrite take_insert_ge by lia. Qed.
Lemma inv_set_csr f h : scr_inv h -> scr_inv (set_csr f h).
Proof. intros [? ? ? Hf]. constructor; try done. intros i. cbn. destruct (i =? USBENUM h); cbn; apply Hf. Qed.
Lemma wait_tx_same h : let h' := scr_wait_tx h in
  USBENUM h' = USBENUM h /\ usbd_dma_buffer h' = usbd_dma_buffer h /\ dma_count h' = dma_count h /\ scr_bus h' = scr_bus h /\ (scr_inv h -> scr_inv h').
Proof.
  unfold scr_wait_tx. destruct (__usbd_hw_sta_raised TXPB h); [|done]. split_and!; try done. intros H. by apply inv_set_csr, inv_set_csr.
Qed.
Lemma scr_select_ok a h : scr_inv h -> scr_inv (scr_endp_select a h).
Proof. by intros []. Qed.
Lemma inv_dma b n c h : scr_inv h -> length b = Z.to_nat USBD_DMA_SIZE -> 0 <= n <= USBD_DMA_SIZE -> 0 <= c <= USBD_DMA_SIZE -> scr_inv (set_dma b n c h).
Proof. intros [? ? ? ?] ? ? ?. by constructor. Qed.
Lemma inv_set_ep e r h : scr_inv h -> USBDBCEX r = Z.of_nat (length (ep_fifo r)) /\ Z.of_nat (length (ep_fifo r)) <= USBD_DMA_SIZE -> scr_inv (set_ep e r h).
Proof. intros [? ? ? Hf] ?. constructor; try done. intros i. cbn. by destruct (i =? e). Qed.
Lemma inv_send h : scr_inv h -> scr_inv (scr_send h).
Proof. by intros []. Qed.
Lemma inv_eim m h : scr_inv h -> scr_inv (set_eim m h).
Proof. by intros []. Qed.
Lemma kept_gs h : scr_inv h -> forall gs fa, kept h (set_gs gs fa h).
Proof. intros [A1 A2 A3 A4] gs fa. unfold kept. split_and!; [by constructor|done..]. Qed.
Lemma scr_open_in v h : scr_inv h -> v_dir v = USB_DIR_IN -> exists h', scr_transfer_open v h = Ok (None, h') /\
  scr_inv h' /\ USBENUM h' = USBENUM h /\ hw_tx h' = hw_tx h /\ scr_bus h' = scr_bus h.
Proof.
  intros Hi Hv. unfold scr_transfer_open. rewrite Hv. change (USB_DIR_IN =? USB_DIR_IN) with true. cbn beta iota.
  eexists. split; [done|]. destruct (v_sync v); [|done]. destruct (wait_tx_same h) as (H1 & H2 & H3 & H4 & H5). cbn. rewrite H2, H3. auto.
Qed.
Lemma scr_close_in v h : scr_inv h -> v_dir v = USB_DIR_IN -> USB_ADDR2EID (v_endp v) = USBENUM h -> exists h', scr_transfer_close v h = Ok h' /\
  scr_inv h' /\ USBENUM h' = USBENUM h /\ hw_tx h' = [] /\ scr_bus h' = scr_bus h ++ [(USBENUM h, hw_tx h)].
Proof.
  intros Hi Hv He. unfold scr_transfer_close. rewrite Hv. change (USB_DIR_IN =? USB_DIR_IN) with true. cbn beta iota.
  destruct (wait_tx_same h) as (H1 & H2 & H3 & H4 & H5). set (h1 := scr_wait_tx h) in *. set (h2 := __usbd_hw_unraise_sta TXC h1).
  assert (Hi2 : scr_inv h2) by apply inv_set_csr, H5, Hi. eexists. split; [done|]. unfold usbd_hw_dma_submit. rewrite Hv. change (USB_DIR_IN =? USB_DIR_IN) with true. cbn beta iota.
  rewrite He. split_and!.
  - destruct (Hi2) as [A1 A2 A3 A4]. apply inv_send, inv_set_csr. unfold usbd_hw_dma_reset. apply inv_dma; [|done..]. apply inv_dma; [|done..]. apply inv_set_ep; [done|].
    cbn [USBDBCEX ep_fifo]. rewrite length_take. split; [done|]. lia.
  - done.
  - done.
  - cbn. rewrite H1, !Z.eqb_refl. cbn. by rewrite H2, H3, H4.
Qed.
Lemma scr_open_out v h p : scr_inv h -> v_dir v = USB_DIR_OUT -> v_sync v = false -> USB_ADDR2EID (v_endp v) = USBENUM h -> hw_pkt h (USBENUM h) = Some p ->
  (v_type v = USB_ENDP_CONTROL -> v_stage v = USBD_CTRL_STAGE_SETUP -> length p = 8%nat) ->
  (v_type v = USB_ENDP_CONTROL -> v_stage v = USBD_CTRL_STAGE_STATUS -> length p = 0%nat) ->
  exists h', scr_transfer_open v h = Ok (Some (Z.of_nat (length p)), h') /\
  scr_inv h' /\ USBENUM h' = USBENUM h /\ hw_rx h' = p /\ scr_bus h' = scr_bus h.
Proof.
  intros Hi Hv Hs He Hp H8 H0. destruct (Hi) as [A1 A2 A3 A4]. cbn in Hp. destruct (_ || _); [|done]. injection Hp as Hp.
  destruct (A4 (USBENUM h)) as [B1 B2]. rewrite Hp in B1, B2.
  assert (Hav : forall h', scr_eps h' = scr_eps h -> USBENUM h' = USBENUM h -> usbd_hw_read_avail v h' = Z.of_nat (length p)).
  { intros h' Q1 Q2. unfold usbd_hw_read_avail. rewrite Q1, Q2, B1. destruct (Z.eqb_spec (v_type v) USB_ENDP_CONTROL) as [Et|]; [|done].
    destruct (Z.eqb_spec (v_stage v) USBD_CTRL_STAGE_STATUS) as [Es|]; [by rewrite H0|].
    destruct (Z.eqb_spec (v_stage v) USBD_CTRL_STAGE_SETUP) as [Es|]; [by rewrite H8|done]. }
  unfold scr_transfer_open. rewrite Hv, Hs. change (USB_DIR_OUT =? USB_DIR_IN) with false. cbn beta iota. cbn [andb]. rewrite (Hav h) by done.
  unfold usbd_hw_dma_submit_rx, usbd_hw_dma_submit. rewrite Hv. change (USB_DIR_OUT =? USB_DIR_IN) with false. cbn beta iota. cbn [dma_count set_dma usbd_dma_buffer scr_eps].
  rewrite He, Hp, Nat2Z.id, firstn_all. rewrite Hav by done. eexists. split; [done|]. split_and!; [|done| |done].
  - assert (length (p ++ drop (length p) (usbd_dma_buffer h)) = Z.to_nat USBD_DMA_SIZE) by (rewrite length_app, length_drop; lia).
    unfold usbd_hw_dma_reset. repeat (apply inv_dma; [|first [done|cbn; lia]..]). done.
  - cbn. by rewrite Nat2Z.id, take_app_length.
Qed.
Lemma scr_rw_count h : scr_inv h -> dma_count h < USBD_DMA_SIZE -> 0 <= dma_count h + 1 <= USBD_DMA_SIZE /\ u8 (dma_count h + 1) = dma_count h + 1 /\
  (USBD_DMA_SIZE <=? dma_count h) = false /\ is_Some (usbd_dma_buffer h !! Z.to_nat (dma_count h)).
Proof.
  intros [A1 A2 A3 A4] H. split_and!; [lia|lia|apply wrap_id; unfold USBD_DMA_SIZE in *; lia|by apply Z.leb_gt|apply lookup_lt_is_Some_2; lia].
Qed.
#[export] Instance scr_hw_ok : UsbdHwOk scr.
Proof.
  constructor; cbn [usbd_hw_endp_size usbd_hw_endp_select usbd_hw_read_byte usbd_hw_write_byte usbd_hw_transfer_open usbd_hw_transfer_close
    usbd_hw_request_open usbd_hw_request_close scr_hw hw_inv hw_sel hw_sent scr_obs].
  - intros a Ha. unfold scr_endp_size. rewrite (proj2 (Z.leb_gt _ _)) by done.
    assert (0 <= USB_ADDR2EID a) by (apply Z.land_nonneg; lia). cbn in Ha. unfold SCR_ENDPS in Ha.
    assert (Hc : (Z.to_nat (USB_ADDR2EID a) < 7)%nat) by lia. destruct (Z.to_nat (USB_ADDR2EID a)) as [|[|[|[|[|[|[|]]]]]]]; cbn; lia.
  - intros a. unfold scr_endp_size. cbv zeta. by rewrite (USB_ADDR2EID_idem a).
  - intros a h Hi. split; [by apply scr_select_ok|]. done.
  - done.
  - intros b h Hi Hl. destruct (Hi) as [A1 A2 A3 A4]. change (hw_tx h) with (take (Z.to_nat (dma_count h)) (usbd_dma_buffer h)) in Hl. rewrite length_take, A1 in Hl.
    assert (Hm : scr_endp_size (USBENUM h) <= 64) by apply scr_size_le.
    destruct (scr_rw_count h Hi) as (B1 & B2 & B3 & [y Hy]); [unfold USBD_DMA_SIZE in *; lia|].
    unfold scr_write_byte. rewrite B3, Hy, B2. cbn. eexists. split; [done|]. split_and!; [|done| |done].
    + apply inv_dma; [done|by rewrite length_insert|done|done].
    + cbn. replace (Z.to_nat (dma_count h + 1)) with (S (Z.to_nat (dma_count h))) by lia. apply take_insert_snoc; lia.
  - apply scr_open_in.
  - apply scr_close_in.
  - apply scr_open_out.
  - intros b r h Hi Hr. destruct (Hi) as [A1 A2 A3 A4]. cbn in Hr.
    assert (Hl : usbd_dma_buffer h !! Z.to_nat (dma_count h) = Some b /\ dma_count h < USBDMAB h).
    { assert (E : drop (Z.to_nat (dma_count h)) (take (Z.to_nat (USBDMAB h)) (usbd_dma_buffer h)) !! 0%nat = Some b) by by rewrite Hr.
      rewrite lookup_drop, Nat.add_0_r in E. apply lookup_take_Some in E as [E ?]. split; [done|lia]. }
    destruct Hl as [Hb Hlt]. destruct (scr_rw_count h Hi) as (B1 & B2 & B3 & _); [lia|].
    unfold scr_read_byte. rewrite B3, Hb, B2. cbn. eexists. split; [done|]. split_and!; [by apply inv_dma|done| |done].
    cbn. replace (Z.to_nat (dma_count h + 1)) with (S (Z.to_nat (dma_count h))) by lia.
    rewrite <- Nat.add_1_r, <- drop_drop, Hr. done.
  - intros v h Hi Hv. unfold scr_transfer_close. rewrite Hv. change (USB_DIR_OUT =? USB_DIR_IN) with false. cbn beta iota.
    eexists. split; [done|]. destruct (_ && _); (split_and!; [by repeat apply inv_set_csr|done..]).
  - intros v h Hi. unfold kept, scr_request_open. split_and!; [apply inv_eim, inv_dma; try done; apply Hi|done|done|done].
  - intros v h Hi. done.
  - intros v h Hi. unfold kept, scr_request_close. split_and!; [by apply inv_eim|done..].
Qed.
(** The function address: USBFA while it is enabled, 0 before. *)
Definition scr_addr (h : scr) : Z := if Z.testbit (USBGS h) 0 then USBFA h else 0.
Lemma addr_wait_tx h : scr_addr (scr_wait_tx h) = scr_addr h.
Proof. unfold scr_wait_tx. by destruct (__usbd_hw_sta_raised TXPB h). Qed.
#[export] Instance scr_hw_addr : UsbdAddr scr.
Proof.
  refine {| hw_addr := scr_addr |}; cbn [usbd_hw_endp_select usbd_hw_read_byte usbd_hw_write_byte usbd_hw_transfer_open usbd_hw_transfer_close
    usbd_hw_request_open usbd_hw_request_close usbd_hw_set_address scr_hw hw_inv scr_obs].
  - intros a h Hi. pose proof (kept_gs h Hi). unfold scr_set_address. by destruct (a =? 0).
  - intros a h _. unfold scr_set_address, scr_addr. destruct (Z.eqb_spec a 0) as [->|]; cbn [USBGS USBFA set_gs].
    + unfold wrap. rewrite <- Z.land_ones, !Z.land_spec by lia. cbn. by rewrite ?andb_false_r.
    + rewrite Z.lor_spec. by rewrite orb_true_r.
  - done.
  - intros b h h'. unfold scr_write_byte. destruct (USBD_DMA_SIZE <=? dma_count h); [done|]. cbn. by destruct (_ !! _); cbn; intros [= <-].
  - intros b h h'. unfold scr_read_byte. destruct (USBD_DMA_SIZE <=? dma_count h); [done|]. cbn. by destruct (_ !! _); cbn; intros [= <- <-].
  - intros v r h h'. unfold scr_transfer_open, usbd_hw_dma_submit_rx, usbd_hw_dma_submit. destruct (v_dir v =? USB_DIR_IN).
    + destruct (v_sync v); intros [= <- <-]; [apply addr_wait_tx|done].
    + by destruct (_ && _); intros [= <- <-].
  - intros v h h'. unfold scr_transfer_close, usbd_hw_dma_submit. destruct (v_dir v =? USB_DIR_IN); intros [= <-]; [apply addr_wait_tx|].
    by destruct (_ && _).
  - done.
  - done.
Defined.

(** ** Interrupts of the controller *)
Section irq.
Context {U : Type} {Ids : UsbdIds}.
Abbreviation st := (usbd scr U).
Abbreviation usb := (stm st).
Context (ep : nat -> usbd_endpoint (hw := scr) (U := U)).
Definition on_hw (f : scr -> scr) : usb unit := modify (fun s => set_hw (f (hwst s)) s).
Definition __usbd_hw_eirq_requested (irq : Z) : usb bool :=
  gets (fun s => Z.testbit (USBEIM (hwst s)) (USB_ADDR2EID (usbd_endp s)) && __usbd_hw_sta_raised irq (hwst s)).
Definition usbd_hw_handle_rxout : usb unit :=
  t ← usbd_endpoint_type ep;
  (if t =? USB_ENDP_CONTROL then
     r ← __usbd_hw_eirq_requested RXSETUP; if r : bool then usbd_control_setup ep else mret tt
   else mret tt);;
  i ← usbd_request_interrupting ep USB_DIR_OUT;
  if negb i then mret tt
  else
    stall ← __usbd_hw_eirq_requested STSENT;
    (if stall : bool then on_hw (__usbd_hw_unraise_sta STSENT);; usbd_request_stall ep else mret tt);;
    rcvd ← __usbd_hw_eirq_requested RCVD;
    if rcvd : bool then usbd_transfer_rxout ep else mret tt.
Definition usbd_hw_handle_txin : usb unit :=
  i ← usbd_request_interrupting ep USB_DIR_IN;
  if negb i then mret tt
  else
    stall ← __usbd_hw_eirq_requested STSENT;
    (if stall : bool then on_hw (__usbd_hw_unraise_sta STSENT);; usbd_request_stall ep else mret tt);;
    txc ← __usbd_hw_eirq_requested TXC;
    if txc : bool then on_hw (__usbd_hw_unraise_sta TXC);; usbd_transfer_txin ep else mret tt.
(** [usbd_hw_handle_eirq] for the endpoint whose interrupt is raised. *)
Definition usbd_hw_handle_eirq (eid : Z) : usb unit :=
  saddr ← usbd_addr_save (USB_ADDR USB_DIR_OUT eid); usbd_hw_handle_rxout;; usbd_addr_restore saddr;;
  saddr ← usbd_addr_save (USB_ADDR USB_DIR_IN eid); usbd_hw_handle_txin;; usbd_addr_restore saddr.

(** ** The host

    What the controller does when the host sends a packet to an endpoint, a SETUP packet to
    the control pipe, or takes the packet of an IN endpoint. *)
Definition scr_deliver (flag eid : Z) (p : list Z) (h : scr) : scr :=
  let r := scr_eps h eid in set_ep eid (Epreg (USBCSEX r ||| _BV flag) (Z.of_nat (length p)) (USBFCEX r) p) h.
Definition host_out (eid : Z) (p : list Z) : usb unit := on_hw (scr_deliver RCVD eid p);; usbd_hw_handle_eirq eid.
Definition host_setup (p : list Z) : usb unit := on_hw (scr_deliver RXSETUP 0 p);; usbd_hw_handle_eirq 0.
Definition host_in (eid : Z) : usb unit :=
  on_hw (fun h => let r := scr_eps h eid in
    if Z.testbit (USBCSEX r) TXPB then set_ep eid (Epreg (u8 (USBCSEX r &&& Z.lnot (_BV TXPB)) ||| _BV TXC) (USBDBCEX r) (USBFCEX r) (ep_fifo r)) h else h);;
  usbd_hw_handle_eirq eid.
(** The bottom half, if it has been woken. *)
Definition usb_bh : usb unit := w ← gets usb_wake; if w : bool then modify (set_wake false);; usbd_async_handler ep else mret tt.
End irq.
