(* ===== verification/UsbRun.v ===== *)
(** * A device on the AT90SCR100

    A concrete device: the stack on the AT90SCR100's controller, with a driver that owns a
    bulk IN and a bulk OUT endpoint as a mass storage interface does.  The theorems on
    requests and control transfers are applied to it, and whole runs of the interrupt
    handlers and of the bottom half are evaluated. *)
From S2P Require Import Prelude MulDiv Usbd UsbdHal UsbdIn UsbdOut UsbCtrl UsbCtrlIo UsbDesc UsbScr100.

#[export] Instance ids : UsbdIds := {
  USBD_VENDOR_ID := 0x03EB; system_product_id := 0x1234; system_device_id := 0x0102; USBD_SERIAL_NO := 0xABCD;
  system_vendor_name := [65; 66]; system_device_name := [67; 68; 69]; USBD_MAX_POWER := 500; USBD_HW_CTRL_SIZE := 64 }.

(** The driver's variables are a list of bytes; it sends 70 bytes and receives 4. *)
Abbreviation st := (usbd scr (list Z)).
Abbreviation table := (endp_table (hw := scr) (U := list Z)).
Definition var (i : nat) : cell (U := list Z) := Cell (fun u => nth i u 0) (fun v u => <[i := v]> u).
Lemma var_ok i : cell_ok (var i).
Proof. intros u. cbn. destruct (nth_lookup_or_length u i 0) as [E|E]; [by apply list_insert_id|by apply list_insert_ge]. Qed.
Definition payload : list Z := seqZ 0 70.
Definition vars : list (cell (U := list Z)) := map var (seq 0 4).
Definition drivers (tbl : table) : table := fun p =>
  if (p =? 1)%nat then Endpoint 0x82 0 (Some (mret tt)) (Some (emit tbl payload)) (Some (mret tt))
  else Endpoint 0x02 0 (Some (mret tt)) (Some (absorb tbl vars)) (Some (mret tt)).
Definition intfs (tbl : table) : nat -> usbd_interface (hw := scr) (U := list Z) := fun _ =>
  Interface 30 30 2 (Some (mret 0))
    (Some (usbd_input_interface_desc tbl 8 6 0x50 30;; usbd_input_endpoint_desc tbl 1;; usbd_input_endpoint_desc tbl 2)).
Definition tbl2 : table := endpoints drivers intfs 2.
Definition tbl3 : table := endpoints drivers intfs 3.
Definition hw0 : scr := Scr 7 (fun _ => Epreg 0 0 0 []) 0 0 0 0 (replicate 128 0) 0 [].
Lemma hw0_inv : scr_inv hw0.
Proof. by constructor. Qed.
(** Before the bus is reset: nothing claimed; and a device whose endpoints are claimed. *)
Definition s_init : st :=
  Usbd 7 (replicate 7 (Xfr 0 0 0 0 0)) (replicate 7 0) (replicate 7 0%nat) 0 0 (Setup 0 0 0 0 0) [0%nat] 1 0 0 0 0 false hw0 [0; 0; 0; 0].
Definition s_conf : st :=
  Usbd 7 (Xfr 8 0 0 0 0 :: replicate 6 (Xfr 0 0 0 0 0)) (0x10 :: replicate 6 0) [0%nat; 1%nat; 2%nat; 0%nat; 0%nat; 0%nat; 0%nat] 7 1 (Setup 0 0 0 0 0) [0%nat] 1
    0 0 0 USB_STATE_CONFIGURED false hw0 [0; 0; 0; 0].
Lemma conf_ep i tbl : (i < 3)%nat -> ep_at tbl (Z.of_nat i) s_conf (tbl i).
Proof.
  intros Hi. destruct i as [|[|[|]]]; [..|lia].
  all: constructor; [by vm_compute|by apply Nat.ltb_lt; vm_compute|by apply Nat.ltb_lt; vm_compute|eexists; split; [reflexivity|done]|by vm_compute].
Qed.
Lemma scr_delivers flag e : flag = RCVD \/ flag = RXSETUP -> delivers e (scr_deliver flag (USB_ADDR2EID e)).
Proof.
  intros Hf p h Hi Hp. pose proof (scr_size_le e) as Hle. change (usbd_hw_endp_size e) with (scr_endp_size e) in Hp. split_and!; [|done|].
  - apply inv_set_ep; [done|]. cbn. split; [done|]. unfold USBD_DMA_SIZE. lia.
  - unfold hw_pkt, scr_obs, scr_deliver, set_ep. cbn [scr_eps]. rewrite Z.eqb_refl. cbn [USBCSEX ep_fifo]. rewrite !Z.lor_spec. destruct Hf as [-> | ->].
    + replace (Z.testbit (_BV RCVD) RCVD) with true by done. by rewrite orb_true_r.
    + replace (Z.testbit (_BV RXSETUP) RXSETUP) with true by done. by rewrite !orb_true_r.
Qed.

Lemma tbl_in d : endpoints drivers intfs (S d) 1%nat = Endpoint 0x82 0 (Some (mret tt)) (Some (emit (endpoints drivers intfs d) payload)) (Some (mret tt)).
Proof. reflexivity. Qed.
Lemma tbl_out d : endpoints drivers intfs (S d) 2%nat = Endpoint 0x02 0 (Some (mret tt)) (Some (absorb (endpoints drivers intfs d) vars)) (Some (mret tt)).
Proof. reflexivity. Qed.
Lemma tbl_ctrl d : endpoints drivers intfs (S d) 0%nat = usbd_ctrl (endpoints drivers intfs d) (intfs (endpoints drivers intfs d)).
Proof. reflexivity. Qed.

(** ** The theorems on requests, applied *)
Lemma in_request_served_witness : exists s',
  (usbd_request_submit tbl3 1 70;; first_event tbl3 1;; times 1 (irq_txin tbl3 1)) s_conf = Ok (tt, s') /\
  hw_sent (hwst s') = [(1, take 64 payload); (1, drop 64 payload)].
Proof.
  destruct (in_request_served tbl3 tbl2 1 s_conf (tbl3 1%nat) (tbl2 1%nat) payload 70 0) as (x & h & h' & E1 & E2 & E3 & E4 & E5 & E6).
  - exact (conf_ep 1 tbl3 ltac:(lia)).
  - exact (conf_ep 1 tbl2 ltac:(lia)).
  - unfold tbl3, tbl2. rewrite !tbl_in. cbn [attrs]. reflexivity.
  - unfold tbl3, tbl2. rewrite !tbl_in. constructor; [by vm_compute|reflexivity|eexists; split; [reflexivity|intros; reflexivity]].
  - reflexivity.
  - reflexivity.
  - reflexivity.
  - exact hw0_inv.
  - lia.
  - vm_compute. reflexivity.
  - right. vm_compute. discriminate.
  - eexists. split; [exact E5|exact E3].
Defined.
Lemma out_is_driver : out_driver tbl2 2 (tbl3 2%nat) vars.
Proof.
  unfold tbl3, tbl2. rewrite tbl_out. constructor; [by vm_compute|reflexivity|eexists; split; [reflexivity|intros; reflexivity]| |vm_compute; reflexivity].
  repeat constructor; apply var_ok.
Qed.
Lemma out_attrs : attrs (tbl2 2%nat) = attrs (tbl3 2%nat).
Proof. unfold tbl3, tbl2. rewrite !tbl_out. cbn [attrs]. reflexivity. Qed.
Lemma out_request_served_witness : exists s',
  (usbd_request_submit tbl3 2 4;; packets_in tbl3 2 (scr_deliver RCVD 2) [[10; 20]; [30; 40]]) s_conf = Ok (tt, s') /\ user s' = [10; 20; 30; 40].
Proof.
  destruct (out_request_served tbl3 tbl2 2 s_conf (tbl3 2%nat) (tbl2 2%nat) vars 4 0 (scr_deliver RCVD 2) [[10; 20]; [30; 40]]) as (x & h & h' & E1 & E2 & E3 & E4 & E5).
  - exact (conf_ep 2 tbl3 ltac:(lia)).
  - exact (conf_ep 2 tbl2 ltac:(lia)).
  - exact out_attrs.
  - exact out_is_driver.
  - apply (scr_delivers RCVD 2). by left.
  - reflexivity.
  - reflexivity.
  - reflexivity.
  - exact hw0_inv.
  - lia.
  - vm_compute. reflexivity.
  - eexists. split; [exact E4|vm_compute; reflexivity].
Defined.
Lemma out_overrun_stops_witness :
  (usbd_request_submit tbl3 2 4;; packet_in tbl3 2 (scr_deliver RCVD 2) [1; 2; 3; 4; 5];; packet_in tbl3 2 (scr_deliver RCVD 2) []) s_conf = Fault FBug.
Proof.
  apply (out_overrun_stops tbl3 tbl2 2 s_conf (tbl3 2%nat) (tbl2 2%nat) vars 4 0 (scr_deliver RCVD 2) [1; 2; 3; 4; 5] []).
  - exact (conf_ep 2 tbl3 ltac:(lia)).
  - exact (conf_ep 2 tbl2 ltac:(lia)).
  - exact out_attrs.
  - exact out_is_driver.
  - apply (scr_delivers RCVD 2). by left.
  - reflexivity.
  - reflexivity.
  - reflexivity.
  - exact hw0_inv.
  - vm_compute. reflexivity.
  - cbn. lia.
  - vm_compute. discriminate.
  - vm_compute. discriminate.
Defined.

(** ** The theorems on control transfers, applied *)
Lemma conf_pipe : pipe_at tbl3 tbl2 (intfs tbl2) (tbl2 0%nat) s_conf.
Proof.
  constructor; [|exact (conf_ep 0 tbl2 ltac:(lia))|by vm_compute|by vm_compute]. pose proof (conf_ep 0 tbl3 ltac:(lia)) as H. unfold tbl3 at 2 in H. rewrite tbl_ctrl in H. exact H.
Qed.
Lemma conf_idle : pipe_idle s_conf 0.
Proof. split_and!; [reflexivity|reflexivity|exact hw0_inv]. Qed.
Lemma ctrl_attrs : attrs (tbl2 0%nat) = USBD_ENDP_CTRL.
Proof. unfold tbl2. rewrite tbl_ctrl. reflexivity. Qed.
Lemma control_read_served_witness : exists s',
  (setup_in tbl3 (scr_deliver RXSETUP 0) [0x80; 6; 0; 1; 0; 0; 64; 0];; usbd_async_iocb_addr tbl3 0;;
   (first_event tbl3 0;; times 0 (irq_txin tbl3 0);; irq_txin tbl3 0);; packet_in tbl3 0 (scr_deliver RCVD 0) [];; usbd_async_iocb_addr tbl3 0) s_conf = Ok (tt, s') /\
  hw_sent (hwst s') = [(0, [18; 1; 0x10; 1; 0; 0; 0; 64; 0xEB; 0x03; 0x34; 0x12; 0x02; 0x01; 1; 2; 3; 1])].
Proof.
  destruct (control_read_served (Cfg := scr_cfg) tbl3 tbl2 (intfs tbl2) (tbl2 0%nat) ctrl_attrs eq_refl eq_refl (scr_deliver RXSETUP 0) (scr_deliver RCVD 0)
    (scr_delivers RXSETUP 0 (or_intror eq_refl)) (scr_delivers RCVD 0 (or_introl eq_refl)) s_conf 0 [0x80; 6; 0; 1; 0; 0; 64; 0] device_descriptor) as (it & h & E1 & E2 & E3).
  - exact conf_pipe.
  - exact conf_idle.
  - reflexivity.
  - repeat constructor; lia.
  - reflexivity.
  - reflexivity.
  - reflexivity.
  - vm_compute. reflexivity.
  - intros fl x h0 Hfl Hst.
    assert (Hs : ep_at tbl2 0 (set_wake true (set_setup (setup_of [0x80; 6; 0; 1; 0; 0; 64; 0]) s_conf)) (tbl2 0%nat)) by (apply ep_at_wake, ep_at_setup, (conf_ep 0 tbl2); lia).
    apply (device_desc_emits tbl2 (tbl2 0%nat) _ Hs). split; [|done].
    destruct Hfl as (H1 & H2 & H3). split_and!; [exact H1|exact H2|]. unfold req_dir in *. rewrite ctrl_attrs. exact H3.
  - eexists. split; [exact E1|]. exact E3.
Defined.
Lemma set_address_served_witness : exists s',
  ((setup_in tbl3 (scr_deliver RXSETUP 0) [0; 5; 9; 0; 0; 0; 0; 0];; usbd_async_iocb_addr tbl3 0;; first_event tbl3 0);; irq_txin tbl3 0) s_conf = Ok (tt, s') /\
  usbd_address s' = 9 /\ scr_addr (hwst s') = 9.
Proof.
  destruct (set_address_served (Cfg := scr_cfg) (Addr := scr_hw_addr) tbl3 tbl2 (intfs tbl2) (tbl2 0%nat) ctrl_attrs eq_refl eq_refl (scr_deliver RXSETUP 0)
    (scr_delivers RXSETUP 0 (or_intror eq_refl)) (fun _ _ => eq_refl) s_conf 0 [0; 5; 9; 0; 0; 0; 0; 0]) as (x & h & it & h' & E1 & E2 & E3 & E4 & E6 & E7 & _).
  - exact conf_pipe.
  - exact conf_idle.
  - reflexivity.
  - reflexivity.
  - reflexivity.
  - reflexivity.
  - discriminate.
  - eexists. split; [exact E6|]. split; [reflexivity|exact E7].
Defined.
Lemma config_descriptor_bulk : let s := set_setup (Setup 0x80 USB_REQ_GET_DESCRIPTOR (word 0 2) 0 255) s_conf in
  emits tbl2 (tbl2 0%nat) s (usbd_handle_ctrl_data tbl2 (intfs tbl2))
    [9; 2; 32; 0; 1; 1; 2; 0x80; 250;  9; 4; 0; 0; 2; 8; 6; 0x50; 30;  7; 5; 0x81; 2; 64; 0; 0;  7; 5; 2; 2; 64; 0; 0].
Proof.
  cbn zeta. set (s := set_setup _ _). assert (Hs : ep_at tbl2 0 s (tbl2 0%nat)) by (apply ep_at_setup, (conf_ep 0 tbl2); lia).
  refine (proj1 (config_desc_emits tbl2 (intfs tbl2) (tbl2 0%nat) s Hs
    [[9; 4; 0; 0; 2; 8; 6; 0x50; 30; 7; 5; 0x81; 2; 64; 0; 0; 7; 5; 2; 2; 64; 0; 0]] 0 255 _ _ _ _)).
  - reflexivity.
  - reflexivity.
  - split; [|done]. eexists 0%nat, _, _, _, 0. split_and!; [reflexivity|reflexivity| |reflexivity|reflexivity|done|reflexivity].
    apply (emits_bind tbl2 _ s Hs _ _ [8; 6; 0x50; 30]); [by apply interface_desc_emits|].
    assert (He : forall i : nat, (i = 1 \/ i = 2)%nat -> emits tbl2 (tbl2 0%nat) s (usbd_input_endpoint_desc tbl2 (Z.of_nat i)) (endpoint_descriptor (Z.of_nat i) (tbl2 i))).
    { intros i [-> | ->]; apply endpoint_desc_emits; done. }
    apply (emits_bind tbl2 _ s Hs _ _ [7; 5; 0x81; 2; 64; 0; 0]); [apply (He 1%nat); by left|apply (He 2%nat); by right].
  - vm_compute. reflexivity.
Defined.

(** ** Runs of the interrupt handlers and the bottom half

    Start-up, and the host's control transfers without and with a data stage. *)
Definition boot : stm st unit :=
  usbd_reserve_endpoint0;; _ ← usbd_claim_endpoint tbl3 false 1; _ ← usbd_claim_endpoint tbl3 false 2;
  usbd_state_set USB_STATE_ATTACHED;; usbd_bus_reset tbl3.
Definition control_nodata (p : list Z) : stm st unit := host_setup tbl3 p;; times 2 (usb_bh tbl3);; host_in tbl3 0;; usb_bh tbl3.
Definition control_read (p : list Z) (n : nat) : stm st unit :=
  host_setup tbl3 p;; times 2 (usb_bh tbl3);; times n (host_in tbl3 0);; host_out tbl3 0 [];; usb_bh tbl3.
Definition enumerate : stm st unit :=
  control_read [0x80; 6; 0; 1; 0; 0; 64; 0] 1;; control_nodata [0; 5; 9; 0; 0; 0; 0; 0];;
  control_read [0x80; 6; 0; 2; 0; 0; 255; 0] 1;; control_nodata [0; 9; 1; 0; 0; 0; 0; 0].
(** A host enumerates the device: device descriptor, address 9, configuration descriptor,
    configuration 1.  The device ends configured, with the address in the controller and the
    control pipe waiting for a SETUP packet. *)
Lemma enumeration_run : runs (boot;; enumerate) s_init (fun _ s =>
  usbd_state s = USB_STATE_CONFIGURED /\ usbd_config s = 1 /\ USBFA (hwst s) = 9 /\
  usb_transfers s !! 0%nat = Some (Xfr 8 0 0 0 0) /\ usbd_endp_ctrls s !! 0%nat = Some 0x10 /\
  scr_bus (hwst s) = [
    (0, [18; 1; 0x10; 1; 0; 0; 0; 64; 0xEB; 3; 0x34; 0x12; 2; 1; 1; 2; 3; 1]); (0, []);
    (0, [9; 2; 32; 0; 1; 1; 2; 0x80; 250;  9; 4; 0; 0; 2; 8; 6; 0x50; 30;  7; 5; 0x81; 2; 64; 0; 0;  7; 5; 2; 2; 64; 0; 0]); (0, [])]).
Proof.
  vm_compute. split_and!; reflexivity.
Qed.
(** SET_CONFIGURATION(0) is acknowledged and leaves the device in the configured state: a
    host cannot deconfigure it. *)
Lemma deconfigure_run : runs (boot;; enumerate;; control_nodata [0; 9; 0; 0; 0; 0; 0; 0]) s_init (fun _ s =>
  usbd_config s = 0 /\ usbd_state s = USB_STATE_CONFIGURED /\ length (scr_bus (hwst s)) = 5%nat).
Proof. vm_compute. split_and!; reflexivity. Qed.
(** GET_STATUS of an endpoint writes its two bytes through that endpoint: the control pipe
    answers with an empty packet. *)
Lemma endpoint_status_run : runs (boot;; enumerate;; control_read [0x82; 0; 0; 0; 1; 0; 2; 0] 1) s_init (fun _ s =>
  drop 4 (scr_bus (hwst s)) = [(0, [])]).
Proof. vm_compute. reflexivity. Qed.
(** The DMA buffer is shared: an OUT packet that arrives between two packets of an IN request
    leaves its bytes in front of the next IN packet. *)
Lemma stale_bytes_run : runs
  (usbd_request_submit tbl3 1 70;; usbd_request_submit tbl3 2 4;; usb_bh tbl3;; host_out tbl3 2 [7; 8];; host_in tbl3 1) s_conf (fun _ s =>
  scr_bus (hwst s) = [(1, take 64 payload); (1, [7; 8] ++ drop 64 payload)]).
Proof. vm_compute. reflexivity. Qed.
