(* ===== verification/Kbd.v ===== *)
(** * Keyboard

    src/kernel/io/kbd.c, which hands key events to the captured callback, and the key matrix
    of the AT90SCR100 (src/arch/avr/mach-at90scr100/kbd.c, four rows and four columns at bit
    0 of their ports).  [C] is the state of the callbacks' owners.  The pins are an argument
    of a scan: [level col] is what the row port reads while column [col] is driven low. *)
From Stdlib Require Import ZifyBool.
From S2P Require Import Prelude MulDiv Usbd.

Definition KBD_EVENT_KEY_UP : Z := 0x00.
Definition KBD_EVENT_KEY_DOWN : Z := 0x01.
Definition KBD_EVENT_KEY_TOUT : Z := 0x02.
Definition any_bit (i bits : Z) : bool := negb ((i &&& bits) =? 0).
Definition unraise16 (bits i : Z) : Z := u16 (i &&& Z.lnot bits).
(** An operation on the second part of a state. *)
Definition inner {X S A : Type} (m : stm S A) : stm (X * S) A := fun s =>
  match m s.2 with Ok (a, s') => Ok (a, (s.1, s')) | Fault f => Fault f end.

(** The variables of kbd.c; [kbd_wake] is the pending wake-up of its bottom half, the
    callback is a number, [None] the null pointer. *)
Record kbd : Type := Kbd {
  kbd_event_iocb : option nat; kbd_event_tout : Z; kbd_event_left : Z; kbd_sync_aborted : bool; kbd_wake : bool }.
Definition set_left (n : Z) (k : kbd) : kbd := Kbd (kbd_event_iocb k) (kbd_event_tout k) n (kbd_sync_aborted k) (kbd_wake k).
Definition set_aborted (b : bool) (k : kbd) : kbd := Kbd (kbd_event_iocb k) (kbd_event_tout k) (kbd_event_left k) b (kbd_wake k).
Definition KBD_DEFAULT_CAPTURE : nat := 0.

Section kbd.
Context {C : Type}.
Abbreviation io := (stm (kbd * C)).
(** The functions behind the numbers, other than the default one. *)
Context (capture : nat -> Z -> Z -> io unit).
Definition kget {A} (f : kbd -> A) : io A := gets (fun s => f s.1).
Definition kput (f : kbd -> kbd) : io unit := modify (fun s => (f s.1, s.2)).
Definition kbd_default_capture (scancode event : Z) : io unit := mret tt.
Definition call_iocb (scancode event : Z) : io unit :=
  o ← kget kbd_event_iocb;
  match o with
  | None => bugif true
  | Some p => if (p =? KBD_DEFAULT_CAPTURE)%nat then kbd_default_capture scancode event else capture p scancode event
  end.
Definition kbd_reset_timeout : io unit :=
  tout ← kget kbd_event_tout;
  if negb (tout =? 0) then kput (set_left tout);; call_iocb tout KBD_EVENT_KEY_TOUT else mret tt.
Definition kbd_event_down (scancode : Z) : io unit := kbd_reset_timeout;; call_iocb scancode KBD_EVENT_KEY_DOWN.
Definition kbd_event_up (scancode : Z) : io unit := call_iocb scancode KBD_EVENT_KEY_UP.
Definition kbd_abort_capture : io unit := kput (set_aborted true).
Definition kbd_set_capture (new_kh : option nat) (timeout : Z) : io (option nat) :=
  temp_kh ← kget kbd_event_iocb;
  kput (fun k => Kbd new_kh timeout (kbd_event_left k) (kbd_sync_aborted k) (kbd_wake k));;
  (if negb (timeout =? 0) then kput (fun k => Kbd (kbd_event_iocb k) (kbd_event_tout k) (kbd_event_left k) false true) else mret tt);;
  mret temp_kh.
End kbd.

(** ** The key matrix *)
Record matrix : Type := Matrix { __kbd_hw_last_status : Z; KBF : Z; KBE : Z; KBLS : Z; PORTA : Z; PORTE : Z }.
Definition set_status (v : Z) (m : matrix) : matrix := Matrix v (KBF m) (KBE m) (KBLS m) (PORTA m) (PORTE m).
Definition set_ports (r c : Z) (m : matrix) : matrix := Matrix (__kbd_hw_last_status m) (KBF m) (KBE m) (KBLS m) r c.
Definition __KBD_HW_ROW_MAX : Z := 4.
Definition __KBD_HW_COL_MAX : Z := 4.
Definition __KBD_HW_MAX_SCANS : Z := __KBD_HW_ROW_MAX * __KBD_HW_COL_MAX.
Definition __KBD_HW_ROW_MASK : Z := (1 <<< __KBD_HW_ROW_MAX) - 1.
Definition __KBD_HW_COL_MASK : Z := (1 <<< __KBD_HW_COL_MAX) - 1.
Definition __kbd_hw_ascii_keys : list Z := [0x1B; 0x30; 0x0D; 43;  0x31; 0x32; 0x33; 45;  0x34; 0x35; 0x36; 42;  0x37; 0x38; 0x39; 37].
Definition kbd_hw_translate_key (scancode : Z) : res Z := oob (__kbd_hw_ascii_keys !! Z.to_nat scancode).
Definition __kbd_hw_translate_scan (row col : Z) : Z := u8 (row * __KBD_HW_COL_MAX + col).
(** [for (row = 0; row < NR_KEY_ROWS; row++)] and the loop over the columns. *)
Fixpoint scan_rows (n : nat) (row col level status : Z) : Z :=
  match n with
  | O => status
  | S n =>
      let scancode := __kbd_hw_translate_scan row col in
      let status := if any_bit level (1 <<< row) then u16 (status &&& Z.lnot (1 <<< scancode)) else u16 (status ||| (1 <<< scancode)) in
      scan_rows n (row + 1) col level status
  end.
Fixpoint scan_cols (n : nat) (col : Z) (level : Z -> Z) (status : Z) : Z :=
  match n with O => status | S n => scan_cols n (col + 1) level (scan_rows (Z.to_nat __KBD_HW_ROW_MAX) 0 col (level col) status) end.

Section matrix.
Context {C : Type}.
Abbreviation io := (stm (matrix * (kbd * C))).
Context (capture : nat -> Z -> Z -> stm (kbd * C) unit).
Definition mput (f : matrix -> matrix) : io unit := modify (fun s => (f s.1, s.2)).
Definition __kbd_hw_reset_port : io unit := mput (set_ports __KBD_HW_ROW_MASK (u8 (Z.lnot __KBD_HW_COL_MASK))).
(** The ports are rewritten for every column and reset at the end. *)
Definition __kbd_hw_get_status (level : Z -> Z) : io Z :=
  let status := scan_cols (Z.to_nat __KBD_HW_COL_MAX) 0 level 0 in __kbd_hw_reset_port;; mret status.
Definition handle_scan (scancode status : Z) : io unit :=
  let flag := u16 (1 <<< scancode) in
  last ← gets (fun s => __kbd_hw_last_status s.1);
  if any_bit status flag then
    if negb (any_bit last flag) then inner (kbd_event_down capture scancode);; mput (fun m => set_status (raise_bits flag (__kbd_hw_last_status m)) m) else mret tt
  else
    if any_bit last flag then inner (kbd_event_up capture scancode);; mput (fun m => set_status (unraise16 flag (__kbd_hw_last_status m)) m) else mret tt.
Fixpoint handle_scans (n : nat) (scancode status : Z) : io unit :=
  match n with O => mret tt | S n => handle_scan scancode status;; handle_scans n (scancode + 1) status end.
Definition __kbd_hw_handle_status (status : Z) : io unit := handle_scans (Z.to_nat __KBD_HW_MAX_SCANS) 0 status.
Fixpoint detect_rows (n : nat) (row last kbls : Z) : Z :=
  match n with
  | O => kbls
  | S n =>
      let mask := ((1 <<< __KBD_HW_COL_MAX) - 1) <<< (row * __KBD_HW_COL_MAX) in
      detect_rows n (row + 1) last (if any_bit last mask then u8 (raise_bits (1 <<< row) kbls) else kbls)
  end.
Definition __kbd_hw_config_detect : io unit :=
  mput (fun m => Matrix (__kbd_hw_last_status m) 0 __KBD_HW_ROW_MASK
    (detect_rows (Z.to_nat __KBD_HW_ROW_MAX) 0 (__kbd_hw_last_status m) (u8 (Z.lnot __KBD_HW_ROW_MASK))) (PORTA m) (PORTE m)).
(** [level] and [level'] are the pins before and after the delay of 10 ms. *)
Definition __kbd_hw_scan_async (level level' : Z -> Z) : io unit :=
  status ← __kbd_hw_get_status level; status' ← __kbd_hw_get_status level';
  __kbd_hw_handle_status (status &&& status');; __kbd_hw_config_detect.
(** The scans of [kbd_hw_scan_sync], with the pins each of them sees. *)
Fixpoint kbd_hw_scan_sync (pins : list ((Z -> Z) * (Z -> Z))) : io unit :=
  match pins with [] => mret tt | (level, level') :: pins => __kbd_hw_scan_async level level';; kbd_hw_scan_sync pins end.
(** One turn of the loop of [kbd_capture_sync], a second; the result tells whether it ends. *)
Definition capture_second (pins : list ((Z -> Z) * (Z -> Z))) : io bool :=
  kbd_hw_scan_sync pins;;
  inner (kput (fun k => set_left (u8 (kbd_event_left k - 1)) k));;
  left ← inner (kget kbd_event_left); inner (call_iocb capture left KBD_EVENT_KEY_TOUT);;
  ab ← inner (kget kbd_sync_aborted);
  (if ab : bool then inner (call_iocb capture 0 KBD_EVENT_KEY_TOUT) else mret tt);; mret ab.
(** [while (kbd_event_tout != 0)]: [scans] are the pins seen in each second, and the loop
    hangs when it needs more of them. *)
Fixpoint capture_loop (scans : list (list ((Z -> Z) * (Z -> Z)))) : io unit := fun s =>
  if kbd_event_tout s.2.1 =? 0 then Ok (tt, s)
  else
    match scans with
    | [] => Fault FHang
    | pins :: scans => (ab ← capture_second pins; if ab : bool then mret tt else capture_loop scans) s
    end.
Definition kbd_capture_sync (scans : list (list ((Z -> Z) * (Z -> Z)))) : io unit :=
  inner (kput (fun k => set_left (kbd_event_tout k) k));; capture_loop scans;; inner (kput (set_aborted true)).
(** The bottom half, called with BH_WAKEUP. *)
Definition kbd_handler (scans : list (list ((Z -> Z) * (Z -> Z)))) : io unit :=
  ab ← inner (kget kbd_sync_aborted); if negb ab then kbd_capture_sync scans else mret tt.
(** The directions of the ports and the interrupt vector are set to constants, too. *)
Definition kbd_hw_ctrl_init : io unit := __kbd_hw_reset_port;; __kbd_hw_config_detect.
Definition kbd_init : io unit := inner (kput (set_aborted true));; kbd_hw_ctrl_init.
End matrix.

(** ** What a scan reports *)
#[local] Ltac Zify.zify_post_hook ::= Z.to_euclidean_division_equations.
Lemma any_bit_pow (x i : Z) : 0 <= i -> any_bit x (1 <<< i) = Z.testbit x i.
Proof.
  intros Hi. unfold any_bit. rewrite Z.shiftl_1_l. destruct (Z.testbit x i) eqn:E.
  - apply negb_true_iff, Z.eqb_neq. intros H. apply (f_equal (fun y => Z.testbit y i)) in H. rewrite Z.land_spec, E, Z.pow2_bits_true, Z.testbit_0_l in H by lia. done.
  - apply negb_false_iff, Z.eqb_eq, Z.bits_inj'. intros j Hj. rewrite Z.land_spec, Z.testbit_0_l. destruct (decide (i = j)) as [<-|Hn]; [by rewrite E|].
    by rewrite Z.pow2_bits_false, andb_false_r.
Qed.
Lemma set_bit16 (x i j : Z) : 0 <= i < 16 -> 0 <= j < 16 -> Z.testbit (u16 (x ||| (1 <<< i))) j = (j =? i) || Z.testbit x j.
Proof.
  intros Hi Hj. rewrite wrap_testbit, bool_decide_true, Z.lor_spec, Z.shiftl_1_l, Z.pow2_bits_eqb, (Z.eqb_sym i j) by lia. cbn [andb]. apply orb_comm.
Qed.
Lemma clear_bit16 (x i j : Z) : 0 <= i < 16 -> 0 <= j < 16 -> Z.testbit (u16 (x &&& Z.lnot (1 <<< i))) j = negb (j =? i) && Z.testbit x j.
Proof.
  intros Hi Hj. rewrite wrap_testbit, bool_decide_true, Z.land_spec, Z.lnot_spec, Z.shiftl_1_l, Z.pow2_bits_eqb, (Z.eqb_sym i j) by lia. cbn [andb]. apply andb_comm.
Qed.
(** Words that agree on their 16 bits are equal. *)
Lemma eq16 (x y : Z) : in_u 16 x -> in_u 16 y -> (forall i, 0 <= i < 16 -> Z.testbit x i = Z.testbit y i) -> x = y.
Proof.
  intros Hx Hy H. apply Z.bits_inj'. intros i Hi. destruct (decide (i < 16)) as [|Hn]; [apply H; lia|].
  by rewrite (testbit_high 16 x), (testbit_high 16 y) by (done || lia).
Qed.

(** The key of a scan code is pressed when its row reads low in its column. *)
Definition pressed (level : Z -> Z) (scancode : Z) : bool := negb (Z.testbit (level (scancode mod 4)) (scancode / 4)).
Lemma scan_rows_spec n row col level status i : 0 <= row -> row + Z.of_nat n <= 4 -> 0 <= col < 4 -> 0 <= i < 16 -> in_u 16 status ->
  in_u 16 (scan_rows n row col level status) /\
  Z.testbit (scan_rows n row col level status) i =
  if (i mod 4 =? col) && (row <=? i / 4) && (i / 4 <? row + Z.of_nat n) then negb (Z.testbit level (i / 4)) else Z.testbit status i.
Proof.
  revert row status. induction n as [|n IH]; intros row status Hr Hn Hc Hi Hs; cbn [scan_rows].
  - split; [done|]. destruct (_ && _) eqn:E; [|done]. lia.
  - assert (Hsc : __kbd_hw_translate_scan row col = 4 * row + col) by (unfold __kbd_hw_translate_scan, __KBD_HW_COL_MAX; rewrite wrap_id by lia; lia).
    rewrite Hsc, any_bit_pow by lia. set (st := if Z.testbit level row then _ else _).
    assert (Hst : in_u 16 st /\ Z.testbit st i = if i =? 4 * row + col then negb (Z.testbit level row) else Z.testbit status i).
    { subst st. destruct (Z.testbit level row); (split; [apply wrap_range; lia|]); [rewrite clear_bit16 by lia|rewrite set_bit16 by lia]; by destruct (i =? _). }
    destruct Hst as [Hw Hb]. destruct (IH (row + 1) st) as [H1 H2]; [lia..|done|]. split; [done|]. rewrite H2, Hb.
    destruct (i =? 4 * row + col) eqn:E.
    + replace (i / 4) with row by lia. rewrite (proj2 (Z.leb_gt (row + 1) row)), (proj2 (Z.leb_le row row)), (proj2 (Z.ltb_lt row (row + Z.of_nat (S n)))), (proj2 (Z.eqb_eq (i mod 4) col)) by lia. done.
    + replace ((i mod 4 =? col) && (row <=? i / 4) && (i / 4 <? row + Z.of_nat (S n))) with ((i mod 4 =? col) && (row + 1 <=? i / 4) && (i / 4 <? row + 1 + Z.of_nat n)) by lia. done.
Qed.
Lemma scan_cols_spec n col level status i : 0 <= col -> col + Z.of_nat n <= 4 -> 0 <= i < 16 -> in_u 16 status ->
  in_u 16 (scan_cols n col level status) /\
  Z.testbit (scan_cols n col level status) i = if (col <=? i mod 4) && (i mod 4 <? col + Z.of_nat n) then pressed level i else Z.testbit status i.
Proof.
  revert col status. induction n as [|n IH]; intros col status Hc Hn Hi Hs; cbn [scan_cols].
  - split; [done|]. destruct (_ && _) eqn:E; [|done]. lia.
  - destruct (scan_rows_spec 4 0 col (level col) status i) as [H1 H2]; [lia..|done|]. change (Z.to_nat __KBD_HW_ROW_MAX) with 4%nat.
    destruct (IH (col + 1) (scan_rows 4 0 col (level col) status)) as [H3 H4]; [lia..|done|]. split; [done|]. rewrite H4, H2.
    rewrite (proj2 (Z.leb_le 0 (i / 4))), (proj2 (Z.ltb_lt (i / 4) (0 + Z.of_nat 4))) by lia. unfold pressed. destruct (Z.eqb_spec (i mod 4) col) as [<-|Hne]; cbn [andb].
    + rewrite (proj2 (Z.leb_gt (i mod 4 + 1) (i mod 4))), (proj2 (Z.leb_le (i mod 4) (i mod 4))), (proj2 (Z.ltb_lt (i mod 4) (i mod 4 + Z.of_nat (S n)))) by lia. done.
    + replace ((col <=? i mod 4) && (i mod 4 <? col + Z.of_nat (S n))) with ((col + 1 <=? i mod 4) && (i mod 4 <? col + 1 + Z.of_nat n)) by lia. done.
Qed.
(** The status word of [pins]. *)
Definition status_of (level : Z -> Z) : Z := scan_cols 4 0 level 0.
Lemma status_of_spec level : in_u 16 (status_of level) /\ forall i, 0 <= i < 16 -> Z.testbit (status_of level) i = pressed level i.
Proof.
  split; [|intros i Hi]; (destruct (scan_cols_spec 4 0 level 0 0) as [H1 H2]; [lia..|]); [done|].
  destruct (scan_cols_spec 4 0 level 0 i) as [_ H]; [lia..|]. unfold status_of. rewrite H. by rewrite (proj2 (Z.leb_le 0 (i mod 4))), (proj2 (Z.ltb_lt (i mod 4) (0 + Z.of_nat 4))) by lia.
Qed.

(** The events between two statuses, in the order of the scan codes. *)
Definition change (last status scancode : Z) : list (Z * Z) :=
  match Z.testbit last scancode, Z.testbit status scancode with
  | false, true => [(scancode, KBD_EVENT_KEY_DOWN)]
  | true, false => [(scancode, KBD_EVENT_KEY_UP)]
  | _, _ => []
  end.
Definition changes (last status : Z) : list (Z * Z) := concat (map (change last status) (seqZ 0 16)).

Section scan.
Context {C : Type} (capture : nat -> Z -> Z -> stm (kbd * C) unit).
Definition key_event (e : Z * Z) : stm (kbd * C) unit := if e.2 =? KBD_EVENT_KEY_DOWN then kbd_event_down capture e.1 else kbd_event_up capture e.1.
Fixpoint key_events (l : list (Z * Z)) : stm (kbd * C) unit := match l with [] => mret tt | e :: l => key_event e;; key_events l end.
Lemma key_events_app l1 l2 s : key_events (l1 ++ l2) s = (key_events l1;; key_events l2) s.
Proof.
  revert s. induction l1 as [|e l1 IH]; intros s; [done|]. cbn [app key_events]. cbv [mbind stm_bind st_bind]. destruct (key_event e s) as [[[] s']|]; [|done]. apply IH.
Qed.
(** [m] with the events [l] handed over, and the status [last] recorded. *)
Definition with_events (l : list (Z * Z)) (last : Z) (m : matrix) (s : kbd * C) : res (unit * (matrix * (kbd * C))) :=
  match key_events l s with Ok (_, s') => Ok (tt, (set_status last m, s')) | Fault f => Fault f end.
Lemma with_events_app l1 l2 last1 last2 m s m1 :
  (forall s', m1 (set_status last1 m, s') = with_events l2 last2 m s') ->
  match with_events l1 last1 m s with Ok (_, ms) => m1 ms | Fault f => Fault f end = with_events (l1 ++ l2) last2 m s.
Proof.
  intros H. unfold with_events at 1 2. rewrite key_events_app. cbv [mbind stm_bind st_bind]. destruct (key_events l1 s) as [[[] s']|]; [|done]. apply H.
Qed.
(** The status after the key [sc] has been looked at. *)
Definition copy_bit (sc status last : Z) : Z := if Z.testbit status sc then u16 (last ||| (1 <<< sc)) else u16 (last &&& Z.lnot (1 <<< sc)).
Lemma copy_bit_spec sc status last : 0 <= sc < 16 -> in_u 16 (copy_bit sc status last) /\
  forall i, 0 <= i < 16 -> Z.testbit (copy_bit sc status last) i = if i =? sc then Z.testbit status sc else Z.testbit last i.
Proof.
  intros Hsc. unfold copy_bit. destruct (Z.testbit status sc); (split; [apply wrap_range; lia|]); intros i Hi; [rewrite set_bit16 by lia|rewrite clear_bit16 by lia]; by destruct (i =? sc).
Qed.
Lemma copy_bit_same sc status last : 0 <= sc < 16 -> in_u 16 last -> Z.testbit last sc = Z.testbit status sc -> copy_bit sc status last = last.
Proof.
  intros Hsc Hl Hb. destruct (copy_bit_spec sc status last Hsc) as [H1 B1]. apply eq16; [done..|]. intros i Hi. rewrite B1 by done.
  destruct (Z.eqb_spec i sc) as [->|]; [by rewrite Hb|done].
Qed.
Lemma handle_scan_spec sc status m s : 0 <= sc < 16 -> in_u 16 (__kbd_hw_last_status m) ->
  handle_scan capture sc status (m, s) = with_events (change (__kbd_hw_last_status m) status sc) (copy_bit sc status (__kbd_hw_last_status m)) m s.
Proof.
  intros Hsc Hl. assert (H1 : 0 <= 1 <<< sc < 2 ^ 16) by (rewrite Z.shiftl_1_l; split; [lia|apply Z.pow_lt_mono_r; lia]).
  pose proof (copy_bit_same sc status _ Hsc Hl) as Hsame. unfold handle_scan, with_events, change. cbv [mbind stm_bind st_bind gets mret stm_ret st_ret]. cbn [fst snd].
  rewrite (wrap_id 16 (1 <<< sc)), !any_bit_pow by lia.
  destruct (Z.testbit (__kbd_hw_last_status m) sc) eqn:El, (Z.testbit status sc) eqn:Es; cbn [negb key_events].
  - rewrite Hsame by done. by destruct m.
  - unfold inner, copy_bit. cbn [fst snd]. rewrite Es. cbv [mbind stm_bind st_bind key_event]. cbn [fst snd]. change (KBD_EVENT_KEY_UP =? KBD_EVENT_KEY_DOWN) with false. cbn beta iota.
    by destruct (kbd_event_up capture sc s) as [[[] s']|].
  - unfold inner, copy_bit. cbn [fst snd]. rewrite Es. cbv [mbind stm_bind st_bind key_event]. cbn [fst snd]. change (KBD_EVENT_KEY_DOWN =? KBD_EVENT_KEY_DOWN) with true. cbn beta iota.
    destruct (kbd_event_down capture sc s) as [[[] s']|]; [|done]. cbv [mput modify]. cbn [fst snd]. do 4 f_equal. unfold raise_bits. rewrite wrap_id; [done|].
    by apply lor_in_u.
  - rewrite Hsame by done. by destruct m.
Qed.
Lemma handle_scans_spec n sc status last : 0 <= sc -> sc + Z.of_nat n <= 16 -> in_u 16 last ->
  exists last', in_u 16 last' /\ (forall i, 0 <= i < 16 -> Z.testbit last' i = if (sc <=? i) && (i <? sc + Z.of_nat n) then Z.testbit status i else Z.testbit last i) /\
  forall m s, __kbd_hw_last_status m = last -> handle_scans capture n sc status (m, s) = with_events (concat (map (change last status) (seqZ sc (Z.of_nat n)))) last' m s.
Proof.
  revert sc last. induction n as [|n IH]; intros sc last Hsc Hn Hl.
  - exists last. split; [done|]. split; [intros i Hi; destruct (_ && _) eqn:E; [lia|done]|]. intros m s <-. by destruct m.
  - destruct (copy_bit_spec sc status last) as [H1 B1]; [lia|]. destruct (IH (sc + 1) (copy_bit sc status last)) as (last' & H2 & B2 & E2); [lia..|done|].
    exists last'. split; [done|]. split.
    + intros i Hi. rewrite B2, B1 by done. destruct (Z.eqb_spec i sc) as [->|Hne].
      * rewrite (proj2 (Z.leb_gt (sc + 1) sc)), (proj2 (Z.leb_le sc sc)), (proj2 (Z.ltb_lt sc (sc + Z.of_nat (S n)))) by lia. done.
      * replace ((sc <=? i) && (i <? sc + Z.of_nat (S n))) with ((sc + 1 <=? i) && (i <? sc + 1 + Z.of_nat n)) by lia. done.
    + intros m s Hm. rewrite seqZ_cons by lia. cbn [map concat]. replace (Z.pred (Z.of_nat (S n))) with (Z.of_nat n) by lia. rewrite <- Z.add_1_r.
      cbn [handle_scans]. cbv [mbind stm_bind st_bind]. rewrite handle_scan_spec, Hm by (rewrite ?Hm; done || lia).
      apply with_events_app. intros s'. rewrite (E2 (set_status _ m) s' eq_refl).
      assert (map (change (copy_bit sc status last) status) (seqZ (sc + 1) (Z.of_nat n)) = map (change last status) (seqZ (sc + 1) (Z.of_nat n))) as ->; [|done].
      apply map_ext_in. intros i Hi%list_elem_of_In%elem_of_seqZ. unfold change. rewrite B1 by lia. by rewrite (proj2 (Z.eqb_neq i sc)) by lia.
Qed.

(** The level each row's interrupt waits for: released where one of its keys is down. *)
Lemma any_bit_mask (x k n : Z) : 0 <= k -> 0 <= n -> any_bit x (((1 <<< n) - 1) <<< k) = true <-> exists i, k <= i < k + n /\ Z.testbit x i = true.
Proof.
  intros Hk Hn. assert (Hm : forall i, 0 <= i -> Z.testbit (((1 <<< n) - 1) <<< k) i = (k <=? i) && (i <? k + n)).
  { intros i Hi. rewrite Z.shiftl_spec by lia. replace ((1 <<< n) - 1) with (Z.ones n) by (unfold Z.ones; lia). rewrite Z.testbit_ones by lia. lia. }
  unfold any_bit. rewrite negb_true_iff, Z.eqb_neq. split.
  - intros Hx. destruct (decide (Exists (fun i => Z.testbit x i = true) (seqZ k n))) as [E|E].
    + apply list.Exists_exists in E as (i & Hi%elem_of_seqZ & Hb). eauto.
    + exfalso. apply Hx, Z.bits_inj'. intros i Hi. rewrite Z.land_spec, Hm, Z.testbit_0_l by done. destruct (Z.testbit x i) eqn:Eb; [|done].
      destruct ((k <=? i) && (i <? k + n)) eqn:Er; [|done]. exfalso. apply E, list.Exists_exists. exists i. split; [apply elem_of_seqZ; lia|done].
  - intros (i & Hi & Hb) Hx. apply (f_equal (fun y => Z.testbit y i)) in Hx. rewrite Z.land_spec, Hm, Hb, Z.testbit_0_l in Hx by lia. lia.
Qed.
Lemma detect_rows_spec n row last kbls i : 0 <= row -> row + Z.of_nat n <= 4 -> 0 <= i < 4 ->
  Z.testbit (detect_rows n row last kbls) i = true <->
  Z.testbit kbls i = true \/ row <= i < row + Z.of_nat n /\ exists sc, sc / 4 = i /\ Z.testbit last sc = true.
Proof.
  revert row kbls. induction n as [|n IH]; intros row kbls Hr Hn Hi; cbn [detect_rows].
  - split; [by left|]. intros [?|[? _]]; [done|lia].
  - rewrite IH by lia. pose proof (any_bit_mask last (row * 4) 4 ltac:(lia) ltac:(lia)) as Hm. change __KBD_HW_COL_MAX with 4.
    set (b := any_bit _ _) in *. assert (Hk : Z.testbit (if b then u8 (raise_bits (1 <<< row) kbls) else kbls) i = true <-> Z.testbit kbls i = true \/ b = true /\ i = row).
    { destruct b; [|naive_solver]. unfold raise_bits. rewrite wrap_testbit, bool_decide_true, Z.lor_spec, Z.shiftl_1_l, Z.pow2_bits_eqb by lia. cbn [andb].
      rewrite orb_true_iff, Z.eqb_eq. naive_solver. }
    rewrite Hk, Hm. split.
    + intros [[H|[(sc & ? & ?) ->]]|[? H]]; [by left|right; split; [lia|]; exists sc; split; [lia|done]|right; split; [lia|done]].
    + intros [H|[H (sc & <- & Hb)]]; [by left; left|]. destruct (decide (sc / 4 = row)) as [<-|Hne]; [left; right; split; [exists sc; split; [lia|done]|done]|].
      right. split; [lia|eauto].
Qed.

(** A scan, as a function of the status it finds. *)
Definition scanned (status : Z) : matrix :=
  Matrix status 0 __KBD_HW_ROW_MASK (detect_rows 4 0 status (u8 (Z.lnot __KBD_HW_ROW_MASK))) __KBD_HW_ROW_MASK (u8 (Z.lnot __KBD_HW_COL_MASK)).
Lemma scan_eq level level' m s : in_u 16 (__kbd_hw_last_status m) -> let status := status_of level &&& status_of level' in in_u 16 status /\
  __kbd_hw_scan_async capture level level' (m, s) =
  match key_events (changes (__kbd_hw_last_status m) status) s with Ok (_, s') => Ok (tt, (scanned status, s')) | Fault f => Fault f end.
Proof.
  intros Hl status. destruct (status_of_spec level) as [H1 _], (status_of_spec level') as [H2 _].
  assert (Hst : in_u 16 status) by (apply land_in_u; [lia|done|apply H2]). split; [done|].
  destruct (handle_scans_spec 16 0 status (__kbd_hw_last_status m)) as (last' & H3 & B3 & E3); [lia..|done|].
  assert (last' = status) as ->.
  { apply eq16; [done..|]. intros i Hi. rewrite B3 by done. by rewrite (proj2 (Z.leb_le 0 i)), (proj2 (Z.ltb_lt i (0 + Z.of_nat 16))) by lia. }
  unfold __kbd_hw_scan_async, __kbd_hw_get_status, __kbd_hw_handle_status, __kbd_hw_reset_port, mput, modify. cbv [mbind stm_bind st_bind mret stm_ret st_ret]. cbn [fst snd].
  change (scan_cols (Z.to_nat __KBD_HW_COL_MAX) 0 level 0) with (status_of level). change (scan_cols (Z.to_nat __KBD_HW_COL_MAX) 0 level' 0) with (status_of level').
  change (Z.to_nat __KBD_HW_MAX_SCANS) with 16%nat. fold status. rewrite (E3 _ s) by done. unfold with_events, changes. change (Z.of_nat 16) with 16.
  by destruct (key_events _ s) as [[[] s']|].
Qed.
(** C17: A scan of the key matrix.  A key counts as down when both looks at the pins, 10 ms
    apart, find it pressed; the captured callback gets exactly one event for each key whose
    state differs from the last scan, down or up, in the order of the scan codes, and the
    last status becomes the new one.  Afterwards the interrupt of a row waits for a release
    exactly when one of the row's keys is down, and for a press otherwise. *)
Theorem scan_reports_changes level level' m s : in_u 16 (__kbd_hw_last_status m) ->
  exists status m', in_u 16 status /\ (forall i, 0 <= i < 16 -> Z.testbit status i = pressed level i && pressed level' i) /\
  __kbd_hw_last_status m' = status /\ (forall row, 0 <= row < 4 -> Z.testbit (KBLS m') row = true <-> exists sc, sc / 4 = row /\ Z.testbit status sc = true) /\
  __kbd_hw_scan_async capture level level' (m, s) =
  match key_events (changes (__kbd_hw_last_status m) status) s with Ok (_, s') => Ok (tt, (m', s')) | Fault f => Fault f end.
Proof.
  intros Hl. destruct (scan_eq level level' m s Hl) as [Hst E]. exists (status_of level &&& status_of level'), (scanned (status_of level &&& status_of level')).
  split; [done|]. split; [intros i Hi; by rewrite Z.land_spec, (proj2 (status_of_spec level)), (proj2 (status_of_spec level'))|]. split; [done|]. split; [|exact E].
  intros row Hrow. cbn [KBLS scanned]. rewrite detect_rows_spec by lia. split.
  - intros [Hk|[_ H]]; [|done]. exfalso. revert Hk. change (u8 (Z.lnot __KBD_HW_ROW_MASK)) with (15 <<< 4). rewrite Z.shiftl_spec_low by lia. done.
  - intros H. right. split; [lia|done].
Qed.
End scan.
(** A key pressed, seen by a client that records its events, and released again. *)
Definition record_events (_ : nat) (scancode event : Z) : stm (kbd * list (Z * Z)) unit := modify (fun s => (s.1, s.2 ++ [(scancode, event)])).
Definition no_key (_ : Z) : Z := 0xFF.
Definition key_6 (col : Z) : Z := if col =? 2 then 0xFD else 0xFF.
Definition m0 : matrix := Matrix 0 0 0 0 0 0.
Definition k0 : kbd := Kbd (Some 1%nat) 0 0 true false.
Lemma scan_run : runs (__kbd_hw_scan_async record_events key_6 key_6;; __kbd_hw_scan_async record_events key_6 key_6;; __kbd_hw_scan_async record_events no_key no_key) (m0, (k0, []))
  (fun _ s => s.2.2 = [(6, KBD_EVENT_KEY_DOWN); (6, KBD_EVENT_KEY_UP)]).
Proof. vm_compute. reflexivity. Qed.
Lemma scan_reports_changes_witness : exists status m', Z.testbit status 6 = true /\
  __kbd_hw_scan_async record_events key_6 key_6 (m0, (k0, [])) =
  match key_events record_events (changes 0 status) (k0, []) with Ok (_, s') => Ok (tt, (m', s')) | Fault f => Fault f end.
Proof.
  destruct (scan_reports_changes record_events key_6 key_6 m0 (k0, [])) as (status & m' & _ & H & _ & _ & E); [split; [discriminate|reflexivity]|].
  exists status, m'. split; [rewrite H by lia; reflexivity|exact E].
Defined.
