(* ===== verification/UsbHid.v ===== *)
(** * USB keyboard

    src/kernel/usb/hid/usb_hid.c and hid_kbd.c: the HID class driver, a client of the device
    stack with an interrupt IN and an interrupt OUT endpoint, and the keyboard report.  The
    build is the one without CONFIG_HID_DURATION and with the table of 16 keys.  [hid] are the
    variables of both files; report drivers are structures behind pointers, of which the
    source has one, [hid_kbd_report]. *)
From S2P Require Import Prelude MulDiv Usbd UsbCtrl Kbd.

Definition USB_INTERFACE_CLASS_HID : Z := 3.
Definition USB_INTERFACE_SUBCLASS_BOOT : Z := 1.
Definition USB_INTERFACE_PROTOCOL_KEYBOARD : Z := 1.
Definition HID_REQ_GET_REPORT : Z := 0x01.
Definition HID_REQ_GET_IDLE : Z := 0x02.
Definition HID_REQ_GET_PROTOCOL : Z := 0x03.
Definition HID_REQ_SET_REPORT : Z := 0x09.
Definition HID_REQ_SET_IDLE : Z := 0x0A.
Definition HID_REQ_SET_PROTOCOL : Z := 0x0B.
Definition HID_DT_HID : Z := USB_TYPE_CLASS ||| 0x01.
Definition HID_DT_REPORT : Z := USB_TYPE_CLASS ||| 0x02.
Definition HID_VERSION_DEFAULT : Z := 0x111.
Definition HID_DT_HID_SIZE : Z := 6.
Definition HID_DT_HID_OPT_SIZE : Z := 3.
Definition HID_REPORT_RUNNING : Z := 0x01.
Definition HID_REPORT_PENDING : Z := 0x02.
Definition HID_ENDP_IN : Z := 0.
Definition HID_ENDP_OUT : Z := 1.
Definition HID_ENDP_INTERVAL_INTERRUPT : Z := 10.
Definition HID_REPORTID_ALL : Z := 0.
Definition HID_REPORTRID (id : Z) : Z := id - 1.
Definition HID_REPORT_INPUT : Z := 0x01.
Definition HID_REPORT_OUTPUT : Z := 0x02.
Definition HID_DURATION_NEVER : Z := 0.
Definition HID_STRING_FIRST : Z := 20.
Definition HID_STRING_INTERFACE : Z := HID_STRING_FIRST + 0.
Definition HID_STRING_LAST : Z := HID_STRING_INTERFACE.
Definition NR_HID_ENDPS : Z := 2.
Definition USBD_ENDP_INTR_IN : Z := USB_DIR2ADDR USB_DIR_IN ||| USB_ENDP_INTERRUPT.
Definition USBD_ENDP_INTR_OUT : Z := USB_DIR2ADDR USB_DIR_OUT ||| USB_ENDP_INTERRUPT.
Definition HID_KBD_STATE_NONE : Z := 0.
Definition HID_KBD_STATE_DOWN : Z := 0x8000.
Definition HID_KBD_STATE_UP : Z := 0x4000.
Definition HID_KBD_STATE_BUSY : Z := 0x2000.
Definition HID_KBD_OUTPUT_BYTES : Z := 1.

(** ** Items of a report descriptor *)
Definition HID_ITEM_FORMAT_SHORT : Z := 0.
Definition HID_ITEM_FORMAT_LONG : Z := 1.
Definition HID_LONG_ITEM_LEADING : Z := 0xFE.
Definition HID_ITEM_TYPE_MAIN : Z := 0.
Definition HID_ITEM_TYPE_GLOBAL : Z := 1.
Definition HID_ITEM_TYPE_LOCAL : Z := 2.
Definition HID_MAIN_ITEM_TAG_INPUT : Z := 8.
Definition HID_MAIN_ITEM_TAG_OUTPUT : Z := 9.
Definition HID_MAIN_ITEM_TAG_COLLECTION : Z := 10.
Definition HID_MAIN_ITEM_TAG_END_COLLECTION : Z := 12.
Definition HID_MAIN_ITEM_DATA : Z := 0x000.
Definition HID_MAIN_ITEM_CONSTANT : Z := 0x001.
Definition HID_MAIN_ITEM_ARRAY : Z := 0x000.
Definition HID_MAIN_ITEM_VARIABLE : Z := 0x002.
Definition HID_MAIN_ITEM_ABSOLUTE : Z := 0x000.
Definition HID_COLLECTION_APPLICATION : Z := 1.
Definition HID_GLOBAL_ITEM_TAG_USAGE_PAGE : Z := 0.
Definition HID_GLOBAL_ITEM_TAG_LOGICAL_MINIMUM : Z := 1.
Definition HID_GLOBAL_ITEM_TAG_LOGICAL_MAXIMUM : Z := 2.
Definition HID_GLOBAL_ITEM_TAG_REPORT_SIZE : Z := 7.
Definition HID_GLOBAL_ITEM_TAG_REPORT_COUNT : Z := 9.
Definition HID_LOCAL_ITEM_TAG_USAGE : Z := 0.
Definition HID_LOCAL_ITEM_TAG_USAGE_MINIMUM : Z := 1.
Definition HID_LOCAL_ITEM_TAG_USAGE_MAXIMUM : Z := 2.
Definition HID_UP_GENDESK : Z := 0x0001.
Definition HID_UP_KEYBOARD : Z := 0x0007.
Definition HID_UP_LED : Z := 0x0008.
Definition HID_GD_KEYBOARD : Z := 0x0006.
Definition HID_KEYSTATE_BEGIN : Z := 224.
Definition HID_KEYSTATE_END : Z := 231.
Definition HID_KBD_INPUT_CTRL_BITS : Z := 8.
Definition HID_KBD_INPUT_PAD_BITS : Z := 8.
Definition HID_KBD_INPUT_KEYS_BYTES : Z := 6.
Definition HID_KEYBOARD_1 : Z := 30.
Definition HID_KEYBOARD_2 : Z := 31.
Definition HID_KEYBOARD_3 : Z := 32.
Definition HID_KEYBOARD_4 : Z := 33.
Definition HID_KEYBOARD_5 : Z := 34.
Definition HID_KEYBOARD_6 : Z := 35.
Definition HID_KEYBOARD_7 : Z := 36.
Definition HID_KEYBOARD_8 : Z := 37.
Definition HID_KEYBOARD_9 : Z := 38.
Definition HID_KEYBOARD_0 : Z := 39.
Definition HID_KEYBOARD_ENTER : Z := 40.
Definition HID_KEYBOARD_ESCAPE : Z := 41.
Definition HID_KEYBOARD_DIVIDE : Z := 56.
Definition HID_KEYBOARD_MULTIPLY : Z := 37.
Definition HID_KEYBOARD_MINUS : Z := 45.
Definition HID_KEYBOARD_PLUS : Z := 46.
Record hid_item : Type := Item { i_format : Z; i_size : Z; i_type : Z; i_tag : Z; i_udata : Z }.
Definition HID_UsagePage (page : Z) := Item HID_ITEM_FORMAT_SHORT 1 HID_ITEM_TYPE_GLOBAL HID_GLOBAL_ITEM_TAG_USAGE_PAGE page.
Definition HID_Usage (type : Z) := Item HID_ITEM_FORMAT_SHORT 1 HID_ITEM_TYPE_LOCAL HID_LOCAL_ITEM_TAG_USAGE type.
Definition HID_Collection (type : Z) := Item HID_ITEM_FORMAT_SHORT 1 HID_ITEM_TYPE_MAIN HID_MAIN_ITEM_TAG_COLLECTION type.
Definition HID_EndCollection := Item HID_ITEM_FORMAT_SHORT 0 HID_ITEM_TYPE_MAIN HID_MAIN_ITEM_TAG_END_COLLECTION 0.
Definition HID_UsageMinimum (val : Z) := Item HID_ITEM_FORMAT_SHORT 1 HID_ITEM_TYPE_LOCAL HID_LOCAL_ITEM_TAG_USAGE_MINIMUM val.
Definition HID_UsageMaximum (val : Z) := Item HID_ITEM_FORMAT_SHORT 1 HID_ITEM_TYPE_LOCAL HID_LOCAL_ITEM_TAG_USAGE_MAXIMUM val.
Definition HID_LogicalMinimum (val : Z) := Item HID_ITEM_FORMAT_SHORT 1 HID_ITEM_TYPE_GLOBAL HID_GLOBAL_ITEM_TAG_LOGICAL_MINIMUM val.
Definition HID_LogicalMaximum (val : Z) := Item HID_ITEM_FORMAT_SHORT 1 HID_ITEM_TYPE_GLOBAL HID_GLOBAL_ITEM_TAG_LOGICAL_MAXIMUM val.
Definition HID_ReportSize (size : Z) := Item HID_ITEM_FORMAT_SHORT 1 HID_ITEM_TYPE_GLOBAL HID_GLOBAL_ITEM_TAG_REPORT_SIZE size.
Definition HID_ReportCount (count : Z) := Item HID_ITEM_FORMAT_SHORT 1 HID_ITEM_TYPE_GLOBAL HID_GLOBAL_ITEM_TAG_REPORT_COUNT count.
Definition HID_Input (flags : Z) := Item HID_ITEM_FORMAT_SHORT 1 HID_ITEM_TYPE_MAIN HID_MAIN_ITEM_TAG_INPUT flags.
Definition HID_Output (flags : Z) := Item HID_ITEM_FORMAT_SHORT 1 HID_ITEM_TYPE_MAIN HID_MAIN_ITEM_TAG_OUTPUT flags.
Definition hid_kbd_report_desc : list hid_item := [
  HID_UsagePage HID_UP_GENDESK; HID_Usage HID_GD_KEYBOARD; HID_Collection HID_COLLECTION_APPLICATION; HID_UsagePage HID_UP_KEYBOARD;
  HID_UsageMinimum HID_KEYSTATE_BEGIN; HID_UsageMaximum HID_KEYSTATE_END; HID_LogicalMinimum 0; HID_LogicalMaximum 1;
  HID_ReportSize 1; HID_ReportCount HID_KBD_INPUT_CTRL_BITS; HID_Input (HID_MAIN_ITEM_DATA ||| HID_MAIN_ITEM_VARIABLE ||| HID_MAIN_ITEM_ABSOLUTE);
  HID_ReportCount 1; HID_ReportSize HID_KBD_INPUT_PAD_BITS; HID_Input HID_MAIN_ITEM_CONSTANT;
  HID_ReportCount 5; HID_ReportSize 1; HID_UsagePage HID_UP_LED; HID_UsageMinimum 1; HID_UsageMaximum 5;
  HID_Output (HID_MAIN_ITEM_DATA ||| HID_MAIN_ITEM_VARIABLE ||| HID_MAIN_ITEM_ABSOLUTE);
  HID_ReportCount 1; HID_ReportSize 3; HID_Output HID_MAIN_ITEM_CONSTANT;
  HID_ReportCount HID_KBD_INPUT_KEYS_BYTES; HID_ReportSize 8; HID_LogicalMinimum 0; HID_LogicalMaximum 101; HID_UsagePage HID_UP_KEYBOARD;
  HID_UsageMinimum 0; HID_UsageMaximum 101; HID_Input (HID_MAIN_ITEM_DATA ||| HID_MAIN_ITEM_ARRAY); HID_EndCollection].
Definition HID_KBD_INPUT_BYTES : Z := HID_KBD_INPUT_CTRL_BITS / 8 + HID_KBD_INPUT_PAD_BITS / 8 + HID_KBD_INPUT_KEYS_BYTES.
Definition hid_item_length (format size : Z) : Z := if format =? HID_ITEM_FORMAT_LONG then u16 (1 + size + 2) else u16 (1 + size).
Definition hid_item_length_value (length : Z) : Z := if 2 <? length then 3 else length.
Definition hid_kbd_config_len : Z := fold_left (fun length i => u16 (length + hid_item_length (i_format i) (i_size i))) hid_kbd_report_desc 0.

(** ** Keys: the characters of the key pad, with modifier and HID code *)
Definition kbd_keyboard_ascii : list Z := [0x1B; 0x30; 0x0D; 43;  0x31; 0x32; 0x33; 45;  0x34; 0x35; 0x36; 42;  0x37; 0x38; 0x39; 37].
Definition kbd_keyboard_ctrls : list Z := [0; 0; 0; 0x20;  0; 0; 0; 0;  0; 0; 0; 0x20;  0; 0; 0; 0].
Definition kbd_keyboard_keys : list Z := [
  HID_KEYBOARD_ESCAPE; HID_KEYBOARD_0; HID_KEYBOARD_ENTER; HID_KEYBOARD_PLUS;  HID_KEYBOARD_1; HID_KEYBOARD_2; HID_KEYBOARD_3; HID_KEYBOARD_MINUS;
  HID_KEYBOARD_4; HID_KEYBOARD_5; HID_KEYBOARD_6; HID_KEYBOARD_MULTIPLY;  HID_KEYBOARD_7; HID_KEYBOARD_8; HID_KEYBOARD_9; HID_KEYBOARD_DIVIDE].
Fixpoint key_search (ascii values : list Z) (key_code : Z) : Z :=
  match ascii, values with a :: ascii, v :: values => if a =? key_code then v else key_search ascii values key_code | _, _ => 0 end.
Definition hid_kbd_key_ctrls (key_code : Z) : Z := key_search kbd_keyboard_ascii kbd_keyboard_ctrls key_code.
Definition hid_kbd_key_code (key_code : Z) : Z := key_search kbd_keyboard_ascii kbd_keyboard_keys key_code.

(** ** State *)
Record hid : Type := Hid {
  hid_nr_reports : Z; hid_addr : list Z; hid_rept_ctrls : list Z; hid_reports : list nat; hid_kbd_rid : Z; hid_kbd_last : Z }.
Definition set_addr (l : list Z) (u : hid) : hid := Hid (hid_nr_reports u) l (hid_rept_ctrls u) (hid_reports u) (hid_kbd_rid u) (hid_kbd_last u).
Definition set_flags (l : list Z) (u : hid) : hid := Hid (hid_nr_reports u) (hid_addr u) l (hid_reports u) (hid_kbd_rid u) (hid_kbd_last u).
Definition set_reports (n : Z) (p : list nat) (u : hid) : hid := Hid n (hid_addr u) (hid_rept_ctrls u) p (hid_kbd_rid u) (hid_kbd_last u).
Definition set_rid (rid : Z) (u : hid) : hid := Hid (hid_nr_reports u) (hid_addr u) (hid_rept_ctrls u) (hid_reports u) rid (hid_kbd_last u).
Definition set_last (l : Z) (u : hid) : hid := Hid (hid_nr_reports u) (hid_addr u) (hid_rept_ctrls u) (hid_reports u) (hid_kbd_rid u) l.

Section hid.
Context {hw : Type} {Hw : UsbdHw hw} {Cfg : UsbdCfg} {Ids : UsbdIds}.
Abbreviation st := (usbd hw hid).
Abbreviation usb := (stm st).
Context (NR_HID_REPORTS : Z).
(** The structures the pointers of the stack lead to. *)
Context (ep : nat -> usbd_endpoint (hw := hw) (U := hid)).
Abbreviation USBD_INB := (usbd_inb ep).
Abbreviation USBD_INW := (usbd_inw ep).
Definition hget {A} (f : hid -> A) : usb A := gets (fun s => f (user s)).
Definition hput (f : hid -> hid) : usb unit := modify (fun s => set_user (f (user s)) s).
Definition rept_flags (rid : Z) : usb Z := getr (fun s => oob (hid_rept_ctrls (user s) !! Z.to_nat rid)).
Definition put_flags (rid : Z) (f : Z -> Z) : usb unit :=
  v ← rept_flags rid; hput (fun u => set_flags (<[Z.to_nat rid := f v]> (hid_rept_ctrls u)) u).
Definition hid_addr_of (endp : Z) : usb Z := getr (fun s => oob (hid_addr (user s) !! Z.to_nat endp)).

Record hid_report : Type := Report {
  input_len : Z; output_len : Z;
  r_poll : option (Z -> usb unit); r_iocb : option (Z -> usb unit); r_done : option (Z -> usb unit);
  r_config_len : option (usb Z); r_ctrl : option (usb unit) }.

(** ** Interrupts *)
Definition hid_interrupt_busy (rid : Z) : usb bool := f ← rept_flags rid; mret (any_bit f (HID_REPORT_RUNNING ||| HID_REPORT_PENDING)).
Definition hid_interrupt_running (rid : Z) : usb bool := f ← rept_flags rid; mret (any_bit f HID_REPORT_RUNNING).
Definition hid_interrupt_pending (rid : Z) : usb bool := f ← rept_flags rid; mret (any_bit f HID_REPORT_PENDING).
Definition hid_raise_interrupt (rid : Z) : usb unit :=
  n ← hget hid_nr_reports;
  if rid <? n then b ← hid_interrupt_busy rid; bugif b;; put_flags rid (raise_bits HID_REPORT_PENDING) else mret tt.

(** ** The keyboard *)
Definition hid_kbd_submit : usb unit := rid ← hget hid_kbd_rid; hid_raise_interrupt rid.
Definition hid_kbd_irq_in : usb unit :=
  last ← hget hid_kbd_last;
  let down := bits_raised last HID_KBD_STATE_DOWN in
  USBD_INB (if down then hid_kbd_key_ctrls (LOBYTE last) else 0);; USBD_INB 0;;
  USBD_INB (if down then hid_kbd_key_code (LOBYTE last) else 0);;
  USBD_INB 0;; USBD_INB 0;; USBD_INB 0;; USBD_INB 0;; USBD_INB 0.
Definition hid_kbd_irq_out : usb unit := _ ← usbd_outb ep 0; mret tt.
Definition hid_kbd_irq_iocb (endp : Z) : usb unit :=
  (if endp =? HID_ENDP_IN then hid_kbd_irq_in else mret tt);; if endp =? HID_ENDP_OUT then hid_kbd_irq_out else mret tt.
Definition hid_kbd_irq_poll (endp : Z) : usb unit :=
  if endp =? HID_ENDP_IN then
    last ← hget hid_kbd_last;
    if any_bit last HID_KBD_STATE_DOWN then hid_kbd_submit
    else if any_bit last HID_KBD_STATE_UP then (if negb (any_bit last HID_KBD_STATE_DOWN) then hid_kbd_submit else mret tt) else mret tt
  else mret tt.
Definition hid_kbd_irq_done (endp : Z) : usb unit :=
  if endp =? HID_ENDP_IN then
    last ← hget hid_kbd_last;
    if any_bit last HID_KBD_STATE_DOWN then hput (set_last (unraise16 HID_KBD_STATE_DOWN last))
    else if any_bit last HID_KBD_STATE_UP then
      (if negb (any_bit last HID_KBD_STATE_DOWN) then hput (set_last (unraise16 (HID_KBD_STATE_UP ||| HID_KBD_STATE_BUSY) last)) else mret tt)
    else mret tt
  else mret tt.
Definition hid_kbd_key_event (key_code key_scan : Z) : usb unit :=
  last ← hget hid_kbd_last;
  if key_scan =? HID_KBD_STATE_DOWN then
    rid ← hget hid_kbd_rid; b ← hid_interrupt_busy rid;
    if negb b && negb (bits_raised last HID_KBD_STATE_BUSY) then
      hput (set_last (raise_bits (HID_KBD_STATE_BUSY ||| HID_KBD_STATE_DOWN) key_code))
    else mret tt
  else if (LOBYTE last =? key_code) && bits_raised last HID_KBD_STATE_BUSY then hput (set_last (raise_bits HID_KBD_STATE_UP last)) else mret tt.
Definition hid_kbd_capture (scancode event : Z) : usb unit :=
  ascii ← getr (fun _ => kbd_hw_translate_key scancode);
  (if event =? KBD_EVENT_KEY_DOWN then hid_kbd_key_event ascii HID_KBD_STATE_DOWN else mret tt);;
  if event =? KBD_EVENT_KEY_UP then hid_kbd_key_event ascii HID_KBD_STATE_UP else mret tt.
Definition hid_in_head (format size type tag : Z) : usb unit :=
  if format =? HID_ITEM_FORMAT_LONG then USBD_INB HID_LONG_ITEM_LEADING;; USBD_INB size;; USBD_INB tag
  else if format =? HID_ITEM_FORMAT_SHORT then
    USBD_INB (u8 ((hid_item_length_value size <<< 0) ||| ((type &&& 0x03) <<< 2) ||| ((tag &&& 0x0f) <<< 4)))
  else mret tt.
Definition hid_in_short (format size udata : Z) : usb unit :=
  if format =? HID_ITEM_FORMAT_SHORT then
    if size =? 1 then USBD_INB (LOBYTE (LOWORD udata)) else if size =? 2 then USBD_INW (LOWORD udata) else if size =? 4 then usbd_inl ep udata else mret tt
  else fun _ => Fault FBug.
Fixpoint in_items (l : list hid_item) : usb unit :=
  match l with
  | [] => mret tt
  | i :: l => hid_in_head (i_format i) (i_size i) (i_type i) (i_tag i);; hid_in_short (i_format i) (i_size i) (i_udata i);; in_items l
  end.
Definition hid_kbd_ctrl_data : usb unit := in_items hid_kbd_report_desc.
Definition hid_kbd_report : hid_report :=
  Report HID_KBD_INPUT_BYTES HID_KBD_OUTPUT_BYTES (Some hid_kbd_irq_poll) (Some hid_kbd_irq_iocb) (Some hid_kbd_irq_done) (Some (mret hid_kbd_config_len)) (Some hid_kbd_ctrl_data).

(** ** Reports *)
Definition rept (p : nat) : hid_report := hid_kbd_report.
Definition the_report (rid : Z) : usb hid_report := getr (fun s => p ← oob (hid_reports (user s) !! Z.to_nat rid); Ok (rept p)).
Definition opt_call (o : option (Z -> usb unit)) (endp : Z) : usb unit := match o with Some f => f endp | None => mret tt end.
Definition hid_register_report (creport : nat) : usb Z :=
  rid ← hget hid_nr_reports;
  (if rid <? NR_HID_REPORTS then
     hput (fun u => set_reports (hid_nr_reports u) (<[Z.to_nat rid := creport]> (hid_reports u)) u);;
     put_flags rid (fun _ => 0);; hput (fun u => set_reports (u8 (hid_nr_reports u + 1)) (hid_reports u) u)
   else mret tt);; mret rid.
Definition hid_report_registered (reportid : Z) : usb bool := n ← hget hid_nr_reports; mret (HID_REPORTRID reportid <? n).
Definition hid_report_input_data (rid : Z) : usb unit := r ← the_report rid; opt_call (r_iocb r) HID_ENDP_IN.
Definition hid_report_output_data (rid : Z) : usb unit := r ← the_report rid; opt_call (r_iocb r) HID_ENDP_OUT.
(** [for (rid = 0; rid < hid_nr_reports; rid++)] *)
Fixpoint for_rids {A} (n : nat) (rid : Z) (body : Z -> A -> usb A) (a : A) : usb A :=
  match n with O => mret a | S n => a ← body rid a; for_rids n (rid + 1) body a end.
Definition for_reports {A} (body : Z -> A -> usb A) (a : A) : usb A := n ← hget hid_nr_reports; for_rids (Z.to_nat n) 0 body a.
Fixpoint any_rid (n : nat) (rid : Z) (test : Z -> usb bool) : usb bool :=
  match n with O => mret false | S n => b ← test rid; if b : bool then mret true else any_rid n (rid + 1) test end.
Definition hid_poll_interrupt (rid : Z) : usb unit :=
  b ← hid_interrupt_busy rid; if negb b then r ← the_report rid; opt_call (r_poll r) HID_ENDP_IN else mret tt.
Definition hid_discard_interrupt (rid : Z) : usb unit :=
  r ← the_report rid; opt_call (r_done r) HID_ENDP_IN;; put_flags rid (unraise_bits HID_REPORT_RUNNING).
Definition hid_output_length : usb Z := for_reports (fun rid length => r ← the_report rid; mret (u16 (length + output_len r))) 0.
Definition hid_input_length : usb Z := for_reports (fun rid length => r ← the_report rid; mret (u16 (length + input_len r))) 0.
Definition hid_input_running : usb bool := n ← hget hid_nr_reports; any_rid (Z.to_nat n) 0 hid_interrupt_running.
Definition hid_input_pending : usb bool := n ← hget hid_nr_reports; any_rid (Z.to_nat n) 0 hid_interrupt_pending.
Definition hid_input_poll : usb unit := for_reports (fun rid _ => hid_poll_interrupt rid) tt.
Definition hid_input_discard : usb unit :=
  for_reports (fun rid _ => b ← hid_interrupt_running rid; if b : bool then hid_discard_interrupt rid else mret tt) tt.
Definition hid_input_submit : usb unit :=
  hid_input_poll;; p ← hid_input_pending;
  if p : bool then
    a ← hid_addr_of HID_ENDP_IN; n ← hid_input_length; ok ← usbd_request_submit ep a n;
    if ok : bool then
      for_reports (fun rid _ => put_flags rid (unraise_bits HID_REPORT_PENDING);; put_flags rid (raise_bits HID_REPORT_RUNNING)) tt
    else mret tt
  else mret tt.
Definition hid_input_handle : usb unit := for_reports (fun rid _ => hid_report_input_data rid) tt.
Definition hid_output_submit : usb unit := a ← hid_addr_of HID_ENDP_OUT; n ← hid_output_length; usbd_request_submit ep a n;; mret tt.
Definition hid_output_discard : usb unit := mret tt.
Definition hid_output_handle : usb unit := for_reports (fun rid _ => hid_report_output_data rid) tt.
Definition hid_endpoint_in : usbd_endpoint (hw := hw) (U := hid) :=
  Endpoint USBD_ENDP_INTR_IN HID_ENDP_INTERVAL_INTERRUPT (Some hid_input_submit) (Some hid_input_handle) (Some hid_input_discard).
Definition hid_endpoint_out : usbd_endpoint (hw := hw) (U := hid) :=
  Endpoint USBD_ENDP_INTR_OUT HID_ENDP_INTERVAL_INTERRUPT (Some hid_output_submit) (Some hid_output_handle) (Some hid_output_discard).

(** ** The control pipe *)
Definition hid_descriptor_length : usb Z := for_reports (fun _ length => mret (u8 (length + HID_DT_HID_OPT_SIZE))) HID_DT_HID_SIZE.
Definition hid_config_length : usb Z := hid_descriptor_length.
Definition hid_opt_descriptor_length (rid : Z) : usb Z :=
  r ← the_report rid; match r_config_len r with Some f => l ← f; mret (u8 (0 + l)) | None => fun _ => Fault FBug end.
Definition hid_get_hid_desc : usb unit :=
  l ← hid_descriptor_length; USBD_INB l;; USBD_INB HID_DT_HID;; USBD_INW HID_VERSION_DEFAULT;; USBD_INB 0;;
  n ← hget hid_nr_reports; USBD_INB n;;
  for_reports (fun i _ => USBD_INB HID_DT_REPORT;; l ← hid_opt_descriptor_length i; USBD_INW l) tt.
Definition hid_get_config_desc : usb unit :=
  usbd_input_interface_desc ep USB_INTERFACE_CLASS_HID USB_INTERFACE_SUBCLASS_BOOT USB_INTERFACE_PROTOCOL_KEYBOARD HID_STRING_INTERFACE;;
  hid_get_hid_desc;;
  a ← hid_addr_of HID_ENDP_IN; usbd_input_endpoint_desc ep a;;
  b ← hid_addr_of HID_ENDP_OUT; usbd_input_endpoint_desc ep b.
Definition hid_get_string_desc : usb unit :=
  v ← usbd_control_request_value; if LOBYTE v =? HID_STRING_INTERFACE then usbd_input_device_name ep else USBD_INB 0x00.
Definition hid_get_report_desc (rid : Z) : usb unit :=
  n ← hget hid_nr_reports; if rid <? n then r ← the_report rid; call_cb (r_ctrl r) else mret tt.
Definition hid_get_descriptor : usb unit :=
  v ← usbd_control_request_value; recp ← usbd_control_setup_recp;
  let desc := HIBYTE v in let index := LOBYTE v in
  if desc =? USB_DT_CONFIG then hid_get_config_desc
  else if desc =? USB_DT_STRING then hid_get_string_desc
  else if desc =? HID_DT_HID then (if recp =? USB_RECP_INTERFACE then hid_get_hid_desc else usbd_endpoint_halt ep)
  else if desc =? HID_DT_REPORT then (if recp =? USB_RECP_INTERFACE then hid_get_report_desc index else usbd_endpoint_halt ep)
  else usbd_endpoint_halt ep.
Definition hid_get_report : usb unit :=
  v ← usbd_control_request_value; let repttype := HIBYTE v in let reportid := LOBYTE v in
  if reportid =? HID_REPORTID_ALL then (if repttype =? HID_REPORT_INPUT then hid_input_handle else usbd_endpoint_halt ep)
  else
    b ← hid_report_registered reportid;
    if b && (repttype =? HID_REPORT_INPUT) then hid_report_input_data (HID_REPORTRID reportid) else usbd_endpoint_halt ep.
Definition hid_set_report : usb unit :=
  v ← usbd_control_request_value; let repttype := HIBYTE v in let reportid := LOBYTE v in
  if reportid =? HID_REPORTID_ALL then (if repttype =? HID_REPORT_OUTPUT then hid_output_handle else usbd_endpoint_halt ep)
  else
    b ← hid_report_registered reportid;
    if b && (repttype =? HID_REPORT_OUTPUT) then hid_report_output_data (HID_REPORTRID reportid) else usbd_endpoint_halt ep.
Definition hid_handle_standard_request : usb unit :=
  req ← usbd_control_request_type;
  if req =? USB_REQ_GET_DESCRIPTOR then hid_get_descriptor
  else if req =? USB_REQ_SET_DESCRIPTOR then usbd_endpoint_halt ep else usbd_endpoint_halt ep.
Definition hid_handle_class_request : usb unit :=
  req ← usbd_control_request_type;
  if req =? HID_REQ_GET_REPORT then hid_get_report
  else if req =? HID_REQ_GET_IDLE then USBD_INB HID_DURATION_NEVER
  else if req =? HID_REQ_GET_PROTOCOL then usbd_endpoint_halt ep
  else if req =? HID_REQ_SET_REPORT then hid_set_report
  else if req =? HID_REQ_SET_IDLE then mret tt
  else if req =? HID_REQ_SET_PROTOCOL then usbd_endpoint_halt ep
  else usbd_endpoint_halt ep.
Definition hid_handle_ctrl_data : usb unit :=
  type ← usbd_control_setup_type; recp ← usbd_control_setup_recp;
  if (recp =? USB_RECP_DEVICE) && (type =? USB_TYPE_STANDARD) then hid_handle_standard_request
  else if (recp =? USB_RECP_INTERFACE) && (type =? USB_TYPE_STANDARD) then hid_handle_standard_request
  else if (recp =? USB_RECP_INTERFACE) && (type =? USB_TYPE_CLASS) then hid_handle_class_request
  else usbd_endpoint_halt ep.
Definition usb_hid_interface : usbd_interface (hw := hw) (U := hid) :=
  Interface HID_STRING_FIRST HID_STRING_LAST NR_HID_ENDPS (Some hid_config_length) (Some hid_handle_ctrl_data).

(** ** Start *)
Definition HID_CAPTURE : nat := 1.
(** The callback of the keyboard, which changes no variable of kbd.c. *)
Definition hid_capture (p : nat) (scancode event : Z) : stm (kbd * st) unit := inner (hid_kbd_capture scancode event).
Definition hid_kbd_init : stm (kbd * st) unit :=
  rid ← inner (hid_register_report 0); inner (hput (set_rid rid));; kbd_set_capture (Some HID_CAPTURE) 0;; mret tt.
Definition hid_start : usb unit := for_reports (fun rid _ => hid_raise_interrupt rid) tt.
Definition set_hid_addr (endp addr : Z) : usb unit := hput (fun u => set_addr (<[Z.to_nat endp := addr]> (hid_addr u)) u).
(** [p_intf], [p_in] and [p_out] are the addresses of the structures. *)
Definition hid_init (p_intf p_in p_out : nat) : stm (kbd * st) unit :=
  inner (usbd_declare_interface p_intf);;
  a ← inner (usbd_claim_endpoint ep true p_in); inner (set_hid_addr HID_ENDP_IN a);;
  b ← inner (usbd_claim_endpoint ep true p_out); inner (set_hid_addr HID_ENDP_OUT b);;
  hid_kbd_init;; inner hid_start.
End hid.
