(* ===== verification/UsbHidDesc.v ===== *)
(** * USB keyboard: descriptors

    What a host reads of the keyboard before it uses it: the configuration descriptor that
    the stack (src/kernel/usb/usb_dev.c) puts together from the HID class driver's part, and
    the report descriptor (src/kernel/usb/hid/usb_hid.c, hid_kbd.c).  Both drivers compute
    lengths before anything is written; the lengths are those of what is written. *)
From S2P Require Import Prelude MulDiv Usbd UsbdHal UsbdIn UsbdOut UsbCtrl UsbCtrlIo UsbDesc Kbd UsbHid.

Section kbd_desc.
Context {hw : Type} {Hw : UsbdHw hw} {Cfg : UsbdCfg} {Ids : UsbdIds}.
Abbreviation st := (usbd hw hid).
Context (ep : nat -> usbd_endpoint (hw := hw) (U := hid)) (intf : nat -> usbd_interface (hw := hw) (U := hid)).
Context (d : usbd_endpoint (hw := hw) (U := hid)) (s : st) (Hs : ep_at ep 0 s d).
Abbreviation emits := (emits ep d s).
Abbreviation yields := (yields d s).

(** A device whose only interface is the keyboard's, with [n] reports registered and two
    endpoints claimed, at the addresses [a] and [b]. *)
Record kbd_device (n : nat) (a b : Z) (pa pb : nat) : Prop := KbdDevice {
  kd_intfs : usbd_nr_intfs s = 1;
  kd_intf : exists p, usbd_interfaces s !! 0%nat = Some p /\ intf p = usb_hid_interface ep;
  kd_nr : hid_nr_reports (user s) = Z.of_nat n;
  kd_reports : (n <= length (hid_reports (user s)))%nat;
  kd_fits : HID_DT_HID_SIZE + HID_DT_HID_OPT_SIZE * Z.of_nat n < 2 ^ 8;
  kd_addr : hid_addr (user s) = [a; b];
  kd_in : USB_ADDR2EID a < NR_USBD_ENDPS /\ usbd_endpoints s !! idx_of a = Some pa;
  kd_out : USB_ADDR2EID b < NR_USBD_ENDPS /\ usbd_endpoints s !! idx_of b = Some pb
}.

(** ** The descriptors *)
Definition hid_descriptor (n : nat) : list Z :=
  [HID_DT_HID_SIZE + HID_DT_HID_OPT_SIZE * Z.of_nat n; HID_DT_HID; LOBYTE HID_VERSION_DEFAULT; HIBYTE HID_VERSION_DEFAULT; 0; Z.of_nat n] ++
  concat (replicate n [HID_DT_REPORT; LOBYTE hid_kbd_config_len; HIBYTE hid_kbd_config_len]).
Definition kbd_interface_part (n : nat) (a b : Z) (pa pb : nat) : list Z :=
  [USB_DT_INTERFACE_SIZE; USB_DT_INTERFACE; 0; 0; NR_HID_ENDPS] ++
  [USB_INTERFACE_CLASS_HID; USB_INTERFACE_SUBCLASS_BOOT; USB_INTERFACE_PROTOCOL_KEYBOARD; HID_STRING_INTERFACE] ++
  hid_descriptor n ++ endpoint_descriptor a (ep pa) ++ endpoint_descriptor b (ep pb).
(** The bytes of an item: tag, type and size, and the data. *)
Definition item_bytes (i : hid_item) : list Z :=
  u8 ((hid_item_length_value (i_size i) <<< 0) ||| ((i_type i &&& 0x03) <<< 2) ||| ((i_tag i &&& 0x0f) <<< 4)) ::
  if i_size i =? 1 then [LOBYTE (LOWORD (i_udata i))] else [].
Definition report_descriptor : list Z := concat (map item_bytes hid_kbd_report_desc).

(** ** Loops over the reports *)
Lemma yields_hget {A} (f : hid -> A) : yields (hget f) (f (user s)).
Proof using. by apply yields_gets. Qed.
Lemma yields_report rid : 0 <= rid < Z.of_nat (length (hid_reports (user s))) -> yields (the_report ep rid) (hid_kbd_report ep).
Proof using.
  intros Hr c x h _. unfold the_report, getr. cbn [at_ep user].
  destruct (lookup_lt_is_Some_2 (hid_reports (user s)) (Z.to_nat rid)) as [p ->]; [lia|done].
Qed.
Lemma yields_addr (endp : Z) a : hid_addr (user s) !! Z.to_nat endp = Some a -> yields (hid_addr_of endp) a.
Proof using. intros E c x h _. unfold hid_addr_of, getr. cbn [at_ep user]. by rewrite E. Qed.
Lemma opt_length_yields rid : 0 <= rid < Z.of_nat (length (hid_reports (user s))) -> yields (hid_opt_descriptor_length ep rid) hid_kbd_config_len.
Proof using. intros Hr. eapply yields_bind; [by apply yields_report|done]. Qed.
Lemma length_rids n rid acc : 0 <= acc -> acc + HID_DT_HID_OPT_SIZE * Z.of_nat n < 2 ^ 8 ->
  yields (for_rids n rid (fun _ length => mret (u8 (length + HID_DT_HID_OPT_SIZE))) acc) (acc + HID_DT_HID_OPT_SIZE * Z.of_nat n).
Proof using.
  unfold HID_DT_HID_OPT_SIZE. revert rid acc. induction n as [|n IH]; intros rid acc Ha Hl; cbn [for_rids].
  - by replace (acc + 3 * Z.of_nat 0) with acc by lia.
  - eapply yields_bind; [done|]. cbn beta. rewrite wrap_id by lia.
    replace (acc + 3 * Z.of_nat (S n)) with (acc + 3 + 3 * Z.of_nat n) by lia. apply IH; lia.
Qed.
Lemma emits_rids n rid (body : Z -> unit -> stm st unit) l :
  (forall r u, rid <= r < rid + Z.of_nat n -> emits (body r u) l) -> emits (for_rids n rid body tt) (concat (replicate n l)).
Proof using Hs.
  revert rid. induction n as [|n IH]; intros rid Hb; cbn [for_rids replicate concat]; [done|].
  apply (emits_bind ep d s Hs); [apply Hb; lia|]. apply IH. intros r u Hr. apply Hb. lia.
Qed.

Section device.
Context (n : nat) (a b : Z) (pa pb : nat) (Hd : kbd_device n a b pa pb).

Lemma descriptor_length_yields : yields (hid_descriptor_length) (HID_DT_HID_SIZE + HID_DT_HID_OPT_SIZE * Z.of_nat n).
Proof using Hd.
  unfold hid_descriptor_length, for_reports. eapply yields_bind; [apply yields_hget|]. cbn beta. rewrite (kd_nr _ _ _ _ _ Hd), Nat2Z.id.
  apply length_rids; [done|apply Hd].
Qed.
Lemma hid_desc_emits : emits (hid_get_hid_desc ep) (hid_descriptor n).
Proof using Hs Hd.
  unfold hid_get_hid_desc, hid_descriptor. cbn [app]. eapply emits_read; [apply descriptor_length_yields|].
  do 2 (apply emits_inb_bind; [done|]). apply emits_inw_bind; [done|]. apply emits_inb_bind; [done|].
  eapply emits_read; [apply yields_hget|]. rewrite (kd_nr _ _ _ _ _ Hd). apply emits_inb_bind; [done|].
  unfold for_reports. eapply emits_read; [apply yields_hget|]. rewrite (kd_nr _ _ _ _ _ Hd), Nat2Z.id.
  apply emits_rids. intros r u Hr. pose proof (kd_reports _ _ _ _ _ Hd). apply emits_inb_bind; [done|].
  eapply emits_read; [apply opt_length_yields; lia|]. by apply emits_inw.
Qed.
Lemma kbd_config_desc_emits : emits (hid_get_config_desc ep) (drop 5 (kbd_interface_part n a b pa pb)).
Proof using Hs Hd.
  destruct (kd_in _ _ _ _ _ Hd) as [A1 A2]. destruct (kd_out _ _ _ _ _ Hd) as [B1 B2]. pose proof (kd_addr _ _ _ _ _ Hd) as Ha.
  change (drop 5 (kbd_interface_part n a b pa pb)) with
    ([USB_INTERFACE_CLASS_HID; USB_INTERFACE_SUBCLASS_BOOT; USB_INTERFACE_PROTOCOL_KEYBOARD; HID_STRING_INTERFACE] ++
     hid_descriptor n ++ endpoint_descriptor a (ep pa) ++ endpoint_descriptor b (ep pb)).
  unfold hid_get_config_desc. apply (emits_bind ep d s Hs); [by apply interface_desc_emits|].
  apply (emits_bind ep d s Hs); [apply hid_desc_emits|]. eapply emits_read; [apply (yields_addr HID_ENDP_IN a); by rewrite Ha|].
  apply (emits_bind ep d s Hs); [by apply endpoint_desc_emits|]. eapply emits_read; [apply (yields_addr HID_ENDP_OUT b); by rewrite Ha|].
  by apply endpoint_desc_emits.
Qed.
Lemma hid_descriptor_length_ok : Z.of_nat (length (hid_descriptor n)) = HID_DT_HID_SIZE + HID_DT_HID_OPT_SIZE * Z.of_nat n.
Proof using.
  clear Hd Hs. assert (length (concat (replicate n [HID_DT_REPORT; LOBYTE hid_kbd_config_len; HIBYTE hid_kbd_config_len])) = (3 * n)%nat) as E.
  { induction n as [|k IH]; [done|]. cbn [replicate concat]. rewrite length_app, IH. cbn [length]. lia. }
  unfold hid_descriptor. rewrite length_app, E. unfold HID_DT_HID_SIZE, HID_DT_HID_OPT_SIZE. cbn [length]. lia.
Qed.
Lemma part_length : Z.of_nat (length (kbd_interface_part n a b pa pb)) =
  USB_DT_INTERFACE_SIZE + (HID_DT_HID_SIZE + HID_DT_HID_OPT_SIZE * Z.of_nat n) + USB_DT_ENDPOINT_SIZE * NR_HID_ENDPS.
Proof using.
  unfold kbd_interface_part. rewrite !length_app. pose proof hid_descriptor_length_ok.
  unfold USB_DT_INTERFACE_SIZE, USB_DT_ENDPOINT_SIZE, NR_HID_ENDPS. cbn [length endpoint_descriptor]. lia.
Qed.
(** GET_DESCRIPTOR of the configuration is handed to the class driver as it arrived. *)
Lemma hid_data_emits w k : usbd_ctrl_setup s = Setup 0x80 USB_REQ_GET_DESCRIPTOR (word USB_CID_DEFAULT USB_DT_CONFIG) w k ->
  emits (hid_handle_ctrl_data ep) (drop 5 (kbd_interface_part n a b pa pb)).
Proof using Hs Hd.
  intros Hset. assert (Ys := fun f : usb_ctlsetup -> Z => yields_setup d s f _ Hset).
  eapply emits_read; [apply (Ys (fun q => USB_SETUP2TYPE (bmRequestType q)))|]. eapply emits_read; [apply (Ys (fun q => USB_SETUP2RECP (bmRequestType q)))|].
  eapply emits_read; [apply (Ys bRequest)|]. eapply emits_read; [apply (Ys wValue)|]. eapply emits_read; [apply (Ys (fun q => USB_SETUP2RECP (bmRequestType q)))|].
  apply kbd_config_desc_emits.
Qed.
Lemma kbd_part_ok w k : usbd_ctrl_setup s = Setup 0x80 USB_REQ_GET_DESCRIPTOR (word USB_CID_DEFAULT USB_DT_CONFIG) w k ->
  intf_parts ep intf d s 0 [kbd_interface_part n a b pa pb].
Proof using Hs Hd.
  intros Hset. destruct (kd_intf _ _ _ _ _ Hd) as (p & Hp & Ei). split; [|done].
  exists p. rewrite Ei. eexists _, _, _, _. split_and!; [done|reflexivity|by eapply hid_data_emits|done|reflexivity|apply descriptor_length_yields|apply part_length].
Qed.
End device.

(** ** The report descriptor *)
Lemma items_emit items : Forall (fun i => i_format i = HID_ITEM_FORMAT_SHORT /\ (i_size i = 0 \/ i_size i = 1)) items ->
  emits (in_items ep items) (concat (map item_bytes items)).
Proof using Hs.
  induction 1 as [|i items [Hf Hz] _ IH]; cbn [in_items map concat]; [done|]. unfold hid_in_head, hid_in_short. rewrite Hf.
  change (HID_ITEM_FORMAT_SHORT =? HID_ITEM_FORMAT_LONG) with false. change (HID_ITEM_FORMAT_SHORT =? HID_ITEM_FORMAT_SHORT) with true. cbn beta iota.
  apply emits_inb_bind; [done|]. destruct Hz as [-> | ->]; cbn [Z.eqb Pos.eqb].
  - by apply (emits_bind ep d s Hs _ _ []).
  - by apply emits_inb_bind.
Qed.
Lemma report_desc_emits n a b pa pb rid : kbd_device n a b pa pb -> 0 <= rid < Z.of_nat n -> emits (hid_get_report_desc ep rid) report_descriptor.
Proof using Hs.
  intros Hd Hr. unfold hid_get_report_desc. eapply emits_read; [apply yields_hget|]. rewrite (kd_nr _ _ _ _ _ Hd), (proj2 (Z.ltb_lt _ _)) by lia.
  pose proof (kd_reports _ _ _ _ _ Hd). eapply emits_read; [apply yields_report; lia|]. apply items_emit.
  apply List.Forall_forall. intros i Hi.
  assert (forallb (fun i => (i_format i =? HID_ITEM_FORMAT_SHORT) && ((i_size i =? 0) || (i_size i =? 1))) hid_kbd_report_desc = true) as Hb by reflexivity.
  rewrite forallb_forall in Hb. specialize (Hb i Hi). apply andb_prop in Hb as [Hb1%Z.eqb_eq Hb2]. split; [done|].
  apply orb_prop in Hb2 as [?%Z.eqb_eq|?%Z.eqb_eq]; auto.
Qed.

(** C23: The descriptors of the keyboard are well-formed.  For GET_DESCRIPTOR of the
    configuration, the handler of the control pipe of a device whose interface is the HID
    keyboard writes the configuration's header, the interface descriptor, the HID descriptor
    with an entry for each of the registered reports (their number fits its one-byte length)
    and the descriptors of the two endpoints.  The total length in the header, computed by
    [usb_config_length] and [hid_config_length] before anything is written, is the number of
    bytes written, the length in the HID descriptor is that of its own bytes, and the length
    it announces for a report descriptor is the number of bytes that the request for the
    report descriptor is answered with. *)
Theorem kbd_descriptors_emitted n a b pa pb w k :
  kbd_device n a b pa pb ->
  usbd_ctrl_setup s = Setup 0x80 USB_REQ_GET_DESCRIPTOR (word USB_CID_DEFAULT USB_DT_CONFIG) w k ->
  let desc := config_descriptor [kbd_interface_part n a b pa pb] in
  emits (usbd_handle_ctrl_data ep intf) desc /\
  (exists lo hi, desc !! 2%nat = Some lo /\ desc !! 3%nat = Some hi /\ lo + 256 * hi = Z.of_nat (length desc)) /\
  hid_descriptor n !! 0%nat = Some (Z.of_nat (length (hid_descriptor n))) /\
  (forall rid, 0 <= rid < Z.of_nat n -> emits (hid_get_report_desc ep rid) report_descriptor) /\
  hid_kbd_config_len = Z.of_nat (length report_descriptor).
Proof using Hs.
  intros Hd Hset desc. pose proof (kd_fits _ _ _ _ _ Hd). unfold HID_DT_HID_SIZE, HID_DT_HID_OPT_SIZE in *.
  destruct (config_desc_emits ep intf d s Hs [kbd_interface_part n a b pa pb] w k Hset) as [E1 E2]; [apply Hd|by eapply kbd_part_ok| |].
  { cbn [concat]. rewrite app_nil_r, part_length. unfold USB_DT_CONFIG_SIZE, USB_DT_INTERFACE_SIZE, HID_DT_HID_SIZE, HID_DT_HID_OPT_SIZE, USB_DT_ENDPOINT_SIZE, NR_HID_ENDPS. lia. }
  split; [done|]. split; [done|]. split; [|split; [intros rid; by eapply report_desc_emits|done]].
  rewrite hid_descriptor_length_ok. done.
Qed.
End kbd_desc.
