(* ===== verification/UsbKbd.v ===== *)
(** * From the key matrix to the host

    The keyboard of [UsbHid] on the device stack, driven by the scans of [Kbd]: an abstract
    machine of key strokes and reports, and the proof that scans, polls and the events of the
    interrupt IN endpoint implement it, so that the host gets every accepted key stroke as a
    press and a release, in order and in whole reports. *)
From S2P Require Import Prelude MulDiv Usbd UsbdHal UsbdIn UsbCtrl UsbDesc Kbd UsbHid.

(** ** Abstract keyboard

    A stroke is accepted when the key goes down; its press and then its release are to be
    reported.  [released] says that the key has gone up before its press was reported. *)
Inductive key_st : Type := KUp | KPressed (k : Z) (released : bool) | KHeld (k : Z) | KReleased (k : Z).
(** The report: none, due (raised when the driver starts), submitted, or being sent with
    packets to go. *)
Inductive bus_st : Type := BIdle | BPending | BSubmitted | BSending (todo : list (list Z)).
Record kb : Type := KbSt { kb_last : Z; kb_key : key_st; kb_bus : bus_st; kb_log : list (list Z); kb_strokes : list Z }.
Definition press (k : Z) : list Z := [hid_kbd_key_ctrls k; 0; hid_kbd_key_code k; 0; 0; 0; 0; 0].
Definition release : list Z := replicate 8 0.
Definition report (key : key_st) : list Z := match key with KPressed k _ => press k | _ => release end.

Definition spec_down (k : Z) (a : kb) : kb :=
  match kb_key a, kb_bus a with
  | KUp, BIdle => KbSt (kb_last a) (KPressed k false) BIdle (kb_log a) (kb_strokes a ++ [k])
  | _, _ => a
  end.
Definition up_key (k : Z) (key : key_st) : key_st :=
  match key with
  | KUp => KUp
  | KPressed k' r => if k' =? k then KPressed k' true else key
  | KHeld k' => if k' =? k then KReleased k' else key
  | KReleased k' => key
  end.
Definition spec_up (k : Z) (a : kb) : kb := KbSt (kb_last a) (up_key k (kb_key a)) (kb_bus a) (kb_log a) (kb_strokes a).
Definition ascii_of (scancode : Z) : Z := nth (Z.to_nat scancode) __kbd_hw_ascii_keys 0.
Definition spec_key (ev : Z * Z) (a : kb) : kb := if ev.2 =? KBD_EVENT_KEY_DOWN then spec_down (ascii_of ev.1) a else spec_up (ascii_of ev.1) a.
Fixpoint spec_keys (l : list (Z * Z)) (a : kb) : kb := match l with [] => a | ev :: l => spec_keys l (spec_key ev a) end.
(** The driver asks for a report when one is due. *)
Definition due (key : key_st) : bool := match key with KPressed _ _ | KReleased _ => true | _ => false end.
Definition poll_bus (key : key_st) (bus : bus_st) : bus_st :=
  match bus with BIdle => if due key then BSubmitted else BIdle | BPending => BSubmitted | _ => bus end.
(** The report has gone out. *)
Definition done_key (key : key_st) : key_st :=
  match key with KPressed k false => KHeld k | KPressed k true => KReleased k | KReleased _ => KUp | _ => key end.

(** Scans of the matrix; the timer's poll of the endpoint; the event that starts a submitted
    request; the interrupt after a packet. *)
Inductive event : Type := Scan (level level' : Z -> Z) | Poll | First | Txin.

#[local] Arguments packets : simpl never.
Section spec.
Context (zlp : bool) (size : nat).
Definition report_packets (key : key_st) : list (list Z) := packets zlp size (report key).
Definition spec_step (ev : event) (a : kb) : option kb :=
  match ev, kb_bus a with
  | Scan level level', _ =>
      let status := status_of level &&& status_of level' in
      let a' := spec_keys (changes (kb_last a) status) a in Some (KbSt status (kb_key a') (kb_bus a') (kb_log a') (kb_strokes a'))
  | Poll, _ => Some (KbSt (kb_last a) (kb_key a) (poll_bus (kb_key a) (kb_bus a)) (kb_log a) (kb_strokes a))
  | First, BSubmitted =>
      match report_packets (kb_key a) with
      | p :: ps => Some (KbSt (kb_last a) (kb_key a) (BSending ps) (kb_log a ++ [p]) (kb_strokes a))
      | [] => None
      end
  | Txin, BSending (p :: ps) => Some (KbSt (kb_last a) (kb_key a) (BSending ps) (kb_log a ++ [p]) (kb_strokes a))
  | Txin, BSending [] => let key := done_key (kb_key a) in Some (KbSt (kb_last a) key (poll_bus key BIdle) (kb_log a) (kb_strokes a))
  | _, _ => None
  end.
Fixpoint spec_run (l : list event) (a : kb) : option kb :=
  match l with [] => Some a | ev :: l => a' ← spec_step ev a; spec_run l a' end.

(** *** What the host gets

    The reports of the strokes: a press and a release for each, in order, as far as the
    current stroke has come; [init] tells whether the report raised at the start is among
    them. *)
Definition stroke (k : Z) : list (list Z) := [press k; release].
Definition strokes_done (key : key_st) (ks : list Z) : list (list Z) :=
  match key with
  | KUp => concat (map stroke ks)
  | KPressed _ _ => concat (map stroke (removelast ks))
  | KHeld k | KReleased k => concat (map stroke (removelast ks)) ++ [press k]
  end.
Definition started (a : kb) : list (list Z) := match kb_key a, kb_bus a with KUp, BIdle => [release] | KUp, _ => [] | _, _ => [release] end.
Definition todo (bus : bus_st) : list (list Z) := match bus with BSending ps => ps | _ => [] end.
Definition reports (init : bool) (a : kb) : list (list Z) :=
  (if init then started a else []) ++ strokes_done (kb_key a) (kb_strokes a) ++ match kb_bus a with BSending _ => [report (kb_key a)] | _ => [] end.
Record spec_inv (init : bool) (a : kb) : Prop := SpecInv {
  si_stroke : match kb_key a with KUp => True | KPressed k _ | KHeld k | KReleased k => exists ks, kb_strokes a = ks ++ [k] end;
  si_bus : match kb_key a with KUp => kb_bus a = BIdle \/ init = true /\ kb_strokes a = [] | KHeld _ => kb_bus a = BIdle | _ => kb_bus a <> BPending end;
  si_log : kb_log a ++ todo (kb_bus a) = concat (map (packets zlp size) (reports init a))
}.
Lemma inv_down init k a : spec_inv init a -> spec_inv init (spec_down k a).
Proof.
  intros [H1 H2 H3]. unfold spec_down. destruct (kb_key a) eqn:Ek, (kb_bus a) eqn:Eb; try (constructor; rewrite ?Ek, ?Eb; done).
  constructor; cbn; [by eexists|done|]. cbn in H3. rewrite H3. unfold reports, started. cbn. rewrite Ek, Eb. cbn [strokes_done]. by rewrite removelast_last.
Qed.
Lemma inv_up init k a : spec_inv init a -> spec_inv init (spec_up k a).
Proof.
  intros [H1 H2 H3]. unfold spec_up. destruct (kb_key a) as [|k' r|k'|k'] eqn:Ek; cbn [up_key]; [|destruct (k' =? k)..|]; constructor; cbn; try done; try (by rewrite H2);
    rewrite H3; unfold reports, started; cbn; by rewrite ?Ek.
Qed.
Lemma inv_keys init l a : spec_inv init a -> spec_inv init (spec_keys l a).
Proof. revert a. induction l as [|ev l IH]; intros a Ha; [done|]. apply IH. unfold spec_key. destruct (_ =? _); [by apply inv_down|by apply inv_up]. Qed.
Lemma inv_poll init a : spec_inv init a -> spec_inv init (KbSt (kb_last a) (kb_key a) (poll_bus (kb_key a) (kb_bus a)) (kb_log a) (kb_strokes a)).
Proof.
  intros [H1 H2 H3]. destruct (kb_key a) as [|k r|k|k] eqn:Ek, (kb_bus a) as [| | |ps] eqn:Eb; constructor; cbn in *; try done; try tauto; try (right; by destruct H2);
    rewrite ?H3; unfold reports, started; cbn; rewrite ?Ek, ?Eb; try done.
Qed.
Lemma inv_log init a p ps : spec_inv init a -> kb_bus a = BSubmitted /\ report_packets (kb_key a) = p :: ps \/ kb_bus a = BSending (p :: ps) ->
  spec_inv init (KbSt (kb_last a) (kb_key a) (BSending ps) (kb_log a ++ [p]) (kb_strokes a)).
Proof.
  intros [H1 H2 H3] Hb. constructor; cbn.
  - done.
  - destruct (kb_key a) eqn:Ek; [|done|by destruct Hb as [[Hb _]|Hb]; rewrite Hb in H2|done]. right. by destruct Hb as [[Hb _]|Hb]; rewrite Hb in H2; destruct H2.
  - rewrite <- app_assoc. change ([p] ++ ps) with (p :: ps). destruct Hb as [[Hb Hp]|Hb]; rewrite Hb in H3; cbn in H3; [rewrite app_nil_r in H3|]; rewrite H3; unfold reports, started; cbn; rewrite Hb.
    + rewrite <- Hp. unfold report_packets. rewrite app_nil_r, !map_app, !concat_app. cbn [map concat]. rewrite app_nil_r, !app_assoc. by destruct init, (kb_key a).
    + by destruct (kb_key a).
Qed.
Lemma inv_done init a : spec_inv init a -> kb_bus a = BSending [] ->
  let key := done_key (kb_key a) in spec_inv init (KbSt (kb_last a) key (poll_bus key BIdle) (kb_log a) (kb_strokes a)).
Proof.
  intros [H1 H2 H3] Hb. rewrite Hb in *. cbn in H3. assert (Hr : forall key bus, todo bus = [] -> reports init a = reports init (KbSt (kb_last a) key bus (kb_log a) (kb_strokes a)) ->
    kb_log a ++ todo bus = concat (map (packets zlp size) (reports init (KbSt (kb_last a) key bus (kb_log a) (kb_strokes a))))) by (intros key bus -> <-; exact H3).
  destruct (kb_key a) as [|k []|k|k] eqn:Ek; cbn [done_key poll_bus due]; [| | |done|].
  - destruct H2 as [|[-> Hks]]; [done|]. constructor; [done|by left|]. apply (Hr KUp BIdle); [done|]. unfold reports, started. cbn. by rewrite Ek, Hb, Hks.
  - destruct H1 as [ks Hks]. constructor; [by exists ks|done|]. apply (Hr (KReleased k) BSubmitted); [done|]. unfold reports, started. cbn. rewrite Ek, Hb. cbn. by rewrite app_nil_r.
  - destruct H1 as [ks Hks]. constructor; [by exists ks|done|]. apply (Hr (KHeld k) BIdle); [done|]. unfold reports, started. cbn. rewrite Ek, Hb. cbn. by rewrite app_nil_r.
  - destruct H1 as [ks Hks]. constructor; [done|by left|]. apply (Hr KUp BIdle); [done|]. unfold reports, started. cbn. rewrite Ek, Hb, Hks. cbn.
    rewrite removelast_last, map_app, concat_app. cbn. by rewrite app_nil_r, <- !app_assoc.
Qed.
Lemma inv_step init ev a a' : spec_inv init a -> spec_step ev a = Some a' -> spec_inv init a'.
Proof.
  intros Ha E. destruct ev as [level level'| | |]; cbn [spec_step] in E.
  - injection E as <-. by destruct (inv_keys init (changes (kb_last a) (status_of level &&& status_of level')) a Ha).
  - injection E as <-. by apply inv_poll.
  - destruct (kb_bus a) eqn:Eb; [done..| |done]. destruct (report_packets (kb_key a)) as [|p ps] eqn:Ep; [done|]. injection E as <-. apply inv_log; [done|]. by left.
  - destruct (kb_bus a) as [| | |[|p ps]] eqn:Eb; [done..| |]; injection E as <-; [by apply inv_done|]. apply inv_log; [done|]. by right.
Qed.
Lemma spec_run_app l1 l2 a : spec_run (l1 ++ l2) a = a' ← spec_run l1 a; spec_run l2 a'.
Proof. revert a. induction l1 as [|ev l1 IH]; intros a; [done|]. cbn. destruct (spec_step ev a); [apply IH|done]. Qed.
Lemma inv_run init l a a' : spec_inv init a -> spec_run l a = Some a' -> spec_inv init a'.
Proof.
  revert a. induction l as [|ev l IH]; intros a Ha E; [by injection E as <-|]. cbn in E. destruct (spec_step ev a) as [a1|] eqn:E1; [|done]. exact (IH a1 (inv_step _ _ _ _ Ha E1) E).
Qed.

(** *** Reports that are due go out

    With no further key event, polls and bus events bring every due report to the host. *)
Definition bus_event (ev : event) : Prop := match ev with Scan _ _ => False | _ => True end.
Definition settled (a : kb) : Prop := kb_bus a = BIdle /\ due (kb_key a) = false.
Lemma drain_packets ps a : kb_bus a = BSending ps -> let key := done_key (kb_key a) in
  spec_run (replicate (S (length ps)) Txin) a = Some (KbSt (kb_last a) key (poll_bus key BIdle) (kb_log a ++ ps) (kb_strokes a)).
Proof.
  revert a. induction ps as [|p ps IH]; intros a Hb.
  - cbn. rewrite Hb. by rewrite app_nil_r.
  - cbn [length]. change (replicate (S (S (length ps))) Txin) with (Txin :: replicate (S (length ps)) Txin). cbn [spec_run spec_step]. rewrite Hb. cbn [mbind option_bind].
    rewrite (IH (KbSt _ _ (BSending ps) _ _)) by done. cbn. by rewrite <- app_assoc.
Qed.
Lemma drain_report a : kb_bus a = BSubmitted -> let key := done_key (kb_key a) in
  exists evs, Forall bus_event evs /\
  spec_run evs a = Some (KbSt (kb_last a) key (poll_bus key BIdle) (kb_log a ++ report_packets (kb_key a)) (kb_strokes a)).
Proof.
  intros Hb key. destruct (report_packets (kb_key a)) as [|p ps] eqn:Ep; [done|]. exists (First :: replicate (S (length ps)) Txin). split.
  - constructor; [done|]. by apply Forall_replicate.
  - cbn [spec_run spec_step]. rewrite Hb, Ep. cbn [mbind option_bind]. rewrite drain_packets by done. cbn. by rewrite <- app_assoc.
Qed.
Definition owed (key : key_st) : nat := match key with KPressed _ true => 2 | KPressed _ false | KReleased _ => 1 | _ => 0 end.
Lemma drain_submitted n a : (owed (done_key (kb_key a)) <= n)%nat -> kb_bus a = BSubmitted -> exists evs a', Forall bus_event evs /\ spec_run evs a = Some a' /\ settled a'.
Proof.
  revert a. induction n as [|n IH]; intros a Hn Hb; destruct (drain_report a Hb) as (evs & Hev & E).
  - exists evs. eexists. split; [done|]. split; [exact E|]. unfold settled. destruct (kb_key a) as [|k []|k|k]; cbn in *; (done || lia).
  - destruct (due (done_key (kb_key a))) eqn:Ed.
    + destruct (IH (KbSt (kb_last a) (done_key (kb_key a)) (poll_bus (done_key (kb_key a)) BIdle) (kb_log a ++ report_packets (kb_key a)) (kb_strokes a))) as (evs' & a' & Hev' & E' & Ha').
      * cbn. destruct (kb_key a) as [|k []|k|k]; cbn in *; lia.
      * cbn. by rewrite Ed.
      * exists (evs ++ evs'), a'. split; [by apply Forall_app|]. split; [|done]. rewrite spec_run_app, E. exact E'.
    + exists evs. eexists. split; [done|]. split; [exact E|]. unfold settled. cbn. by rewrite Ed.
Qed.
Lemma drain a : exists evs a', Forall bus_event evs /\ spec_run evs a = Some a' /\ settled a'.
Proof.
  destruct (kb_bus a) as [| | |ps] eqn:Eb.
  - destruct (due (kb_key a)) eqn:Ed; [|by exists [], a].
    destruct (drain_submitted 2 (KbSt (kb_last a) (kb_key a) BSubmitted (kb_log a) (kb_strokes a))) as (evs & a' & Hev & E & Ha'); [cbn; destruct (kb_key a) as [|k []|k|k]; cbn; lia|done|].
    exists (Poll :: evs), a'. split; [by constructor|]. split; [|done]. cbn [spec_run spec_step mbind option_bind]. rewrite Eb. cbn [poll_bus]. by rewrite Ed.
  - destruct (drain_submitted 2 (KbSt (kb_last a) (kb_key a) BSubmitted (kb_log a) (kb_strokes a))) as (evs & a' & Hev & E & Ha'); [cbn; destruct (kb_key a) as [|k []|k|k]; cbn; lia|done|].
    exists (Poll :: evs), a'. split; [by constructor|]. split; [|done]. cbn [spec_run spec_step mbind option_bind]. by rewrite Eb.
  - apply (drain_submitted 2); [destruct (kb_key a) as [|k []|k|k]; cbn; lia|done].
  - pose proof (drain_packets ps a Eb) as E. cbn zeta in E. destruct (due (done_key (kb_key a))) eqn:Ed.
    + destruct (drain_submitted 2 (KbSt (kb_last a) (done_key (kb_key a)) BSubmitted (kb_log a ++ ps) (kb_strokes a))) as (evs & a' & Hev & E' & Ha');
        [cbn; destruct (kb_key a) as [|k []|k|k]; cbn; lia|done|].
      exists (replicate (S (length ps)) Txin ++ evs), a'. split; [apply Forall_app; split; [by apply Forall_replicate|done]|]. split; [|done]. rewrite spec_run_app, E. cbn [mbind option_bind poll_bus]. by rewrite Ed.
    + exists (replicate (S (length ps)) Txin). eexists. split; [by apply Forall_replicate|]. split; [exact E|]. unfold settled. cbn. by rewrite Ed.
Qed.
End spec.

(** ** An IN request, one event at a time

    [in_progress x todo]: the request of [n] bytes of [data] has the progress [x], and the
    packets [todo] are still to be handed over. *)
Section packet.
Context {hw U : Type} {Hw : UsbdHw hw} {Obs : UsbdObs hw} {Cfg : UsbdCfg} {HwOk : UsbdHwOk hw}.
Context (ep epi : nat -> usbd_endpoint (hw := hw) (U := U)) (e : Z) (s : usbd hw U) (d di : usbd_endpoint (hw := hw) (U := U)).
Context (Hs : ep_at ep e s d) (Hsi : ep_at epi e s di) (Hat : attrs di = attrs d) (Hdir : req_dir s d 0x30 = USB_DIR_IN).
Context (m : stm (usbd hw U) unit) (data : list Z) (Hio : iocb d = Some m).
Context (Hm : forall c x h, calm s d USB_DIR_IN c -> m (at_ep e s c x h) = emit epi data (at_ep e s c x h)).
Context (Hdata : Z.of_nat (length data) < 2 ^ 16).
Abbreviation n := (Z.of_nat (length data)).
Abbreviation zlp := (Z.testbit (usbd_endp_zlps s) (USB_ADDR2EID e)).
Abbreviation size := (Z.to_nat (usbd_hw_endp_size e)).
Definition in_progress (x : usb_transfer) (todo : list (list Z)) : Prop := exists k xa xc it, x = Xfr n k xa xc it /\ 0 <= k <= n /\
  if lastb e s x then todo = [] else exists fuel, (length (drop (Z.to_nat k) data) < fuel)%nat /\ todo = packetize fuel zlp size (drop (Z.to_nat k) data).

Lemma take_all : take (Z.to_nat n) data = data.
Proof using. apply take_ge. lia. Qed.
(** The packet at byte [k], when it is in the request's turn. *)
Lemma packet_progress k fuel : 0 <= k <= n -> (length (drop (Z.to_nat k) data) < fuel)%nat ->
  let pkt := take size (drop (Z.to_nat k) data) in let len := Z.of_nat (length pkt) in
  exists ps, packetize fuel zlp size (drop (Z.to_nat k) data) = pkt :: ps /\
  forall xa it, in_progress (Xfr n (k + len) xa len it) ps.
Proof using Hs HwOk Hdata.
  clear Hio Hm. intros Hk Hf pkt len. destruct fuel as [|fuel]; [lia|]. cbn [packetize]. fold pkt. eexists. split; [done|]. intros xa it.
  pose proof (size_ok e (ea_eid _ _ _ _ Hs)) as Hsz. pose proof (lastb_packet ep e s d Hs data Hdata n ltac:(lia) (or_intror (Z.le_refl _)) k xa it) as Hl.
  rewrite take_all in Hl. specialize (Hl Hk). cbn zeta in Hl. fold pkt in Hl. fold len in Hl.
  assert (Hle : len = Z.min (usbd_hw_endp_size e) (n - k)) by (unfold len, pkt; rewrite length_take, length_drop; lia).
  exists (k + len), xa, len, it. split; [done|]. split; [lia|]. rewrite Hl. rewrite length_drop in *. destruct (if zlp then _ else _) eqn:E; [done|].
  assert (Hge : usbd_hw_endp_size e <= n - k) by (destruct zlp; [apply Nat.ltb_ge in E|apply Nat.leb_gt in E]; lia).
  assert (Hd : drop (Z.to_nat (k + len)) data = drop size (drop (Z.to_nat k) data)) by (rewrite drop_drop; f_equal; lia).
  exists fuel. rewrite Hd. split; [rewrite !length_drop; lia|done].
Qed.
Lemma first_packet a xa it h l : hw_free h l ->
  exists p ps x h', packets zlp size data = p :: ps /\
  first_event ep e (out_ep e a s (if cfg_txaval then 0x50 else 0x10) (Xfr n 0 xa 0 it) h) = Ok (tt, out_ep e a s 0x30 x h') /\
  in_progress x ps /\ hw_free h' (l ++ [(USB_ADDR2EID e, p)]).
Proof using Hs Hsi Hat Hdir HwOk Hio Hm Hdata.
  intros Hh. destruct (first_in ep epi e s d di Hs Hsi Hat 0 m data Hio (fun c x h Hc _ => Hm c x h Hc) Hdata n ltac:(lia) (or_intror (Z.le_refl _)) (or_introl eq_refl) Hdir a xa it h l Hh)
    as (h' & E & Hh'). rewrite take_all in E, Hh'.
  destruct (packet_progress 0 (S (length data))) as (ps & Ep & Hp); [lia|rewrite length_drop; lia|]. change (drop (Z.to_nat 0) data) with data in Ep, Hp. rewrite Z.add_0_l in Hp.
  eexists _, ps, _, h'. split; [exact Ep|]. split; [|split; [apply Hp|exact Hh']]. by destruct cfg_txaval.
Qed.
Lemma next_packet a x p ps h l : in_progress x (p :: ps) -> hw_free h l ->
  exists x' h', irq_txin ep e (out_ep e a s 0x30 x h) = Ok (tt, out_ep e a s 0x30 x' h') /\ in_progress x' ps /\ hw_free h' (l ++ [(USB_ADDR2EID e, p)]).
Proof using Hs Hsi Hat Hdir HwOk Hio Hm Hdata.
  intros (k & xa & xc & it & -> & Hk & Hx) Hh. destruct (lastb e s _) eqn:El; [done|]. destruct Hx as (fuel & Hf & Hx).
  destruct (packet_progress k fuel Hk Hf) as (ps' & Ep & Hp). rewrite Ep in Hx. injection Hx as -> ->.
  destruct (iocb_packet ep epi e s d di Hs Hsi Hat 0 m data Hio (fun c x h Hc _ => Hm c x h Hc) Hdata n ltac:(lia) (or_intror (Z.le_refl _)) (or_introl eq_refl) Hdir
    0x30 k xa xc it l (usbd_hw_endp_select e h)) as (h' & E & Hh'); [by right|by rewrite take_all|by apply select_free|].
  rewrite take_all in E, Hh'. rewrite (txin_out _ _ _ _ Hs) by done. monad_red. rewrite E. cbn beta iota. rewrite restore_out.
  eexists _, _. split; [done|]. split; [apply Hp|]. by eapply restore_free.
Qed.
Lemma last_packet a x h l : in_progress x [] -> hw_free h l ->
  exists h', irq_txin ep e (out_ep e a s 0x30 x h) = (complete ep d;; usbd_addr_restore a) (at_ep e s 0x10 x h') /\ hw_is e h' [] l.
Proof using Hs Hdir HwOk Hdata.
  clear Hio Hm. intros (k & xa & xc & it & -> & Hk & Hx) Hh. destruct (lastb e s _) eqn:El.
  - by apply (completed_in ep e s d Hs 0 (or_introl eq_refl) Hdir a _ h l).
  - destruct Hx as (fuel & Hf & Hx). destruct (packet_progress k fuel Hk Hf) as (ps' & Ep & _). by rewrite Ep in Hx.
Qed.
End packet.

(** ** The driver's variables *)
Definition tag (key : key_st) : Z :=
  match key with
  | KUp => 0
  | KPressed _ false => HID_KBD_STATE_BUSY ||| HID_KBD_STATE_DOWN
  | KPressed _ true => HID_KBD_STATE_BUSY ||| HID_KBD_STATE_DOWN ||| HID_KBD_STATE_UP
  | KHeld _ => HID_KBD_STATE_BUSY
  | KReleased _ => HID_KBD_STATE_BUSY ||| HID_KBD_STATE_UP
  end.
(** [last] holds the key's code and state; the code of no key is stale. *)
Definition enc (key : key_st) (last : Z) : Prop := exists k, in_u 8 k /\ last = k ||| tag key /\
  match key with KUp => True | KPressed k' _ | KHeld k' | KReleased k' => k' = k end.
Definition masks : list Z := [HID_KBD_STATE_DOWN; HID_KBD_STATE_UP; HID_KBD_STATE_BUSY; HID_KBD_STATE_UP ||| HID_KBD_STATE_BUSY].
Lemma forall_byte (P : Z -> bool) : forallb P (seqZ 0 256) = true -> forall k, in_u 8 k -> P k = true.
Proof. intros H k Hk. rewrite forallb_forall in H. apply H, list_elem_of_In, elem_of_seqZ. lia. Qed.
Definition tags : list Z := [tag KUp; tag (KPressed 0 false); tag (KPressed 0 true); tag (KHeld 0); tag (KReleased 0)].
Lemma tag_in key : tag key ∈ tags.
Proof. apply list_elem_of_In. destruct key as [|? []|?|?]; cbn; tauto. Qed.
Definition tag_check (k : Z) : bool := forallb (fun t => (LOBYTE (k ||| t) =? k) &&
  forallb (fun b => ((k ||| t) &&& b =? t &&& b) && (unraise16 b (k ||| t) =? k ||| unraise16 b t)) masks) tags.
Lemma tag_facts k key : in_u 8 k -> LOBYTE (k ||| tag key) = k /\
  forall b, b ∈ masks -> (k ||| tag key) &&& b = tag key &&& b /\ unraise16 b (k ||| tag key) = k ||| unraise16 b (tag key).
Proof.
  intros Hk. assert (H : tag_check k = true) by (apply (forall_byte tag_check); [vm_compute; reflexivity|done]).
  unfold tag_check in H. rewrite forallb_forall in H. specialize (H (tag key)). rewrite <- list_elem_of_In in H. apply andb_true_iff in H as [H1 H2]; [|apply tag_in].
  split; [by apply Z.eqb_eq|]. intros b Hb. rewrite forallb_forall in H2. specialize (H2 b). rewrite <- list_elem_of_In, andb_true_iff, !Z.eqb_eq in H2. auto.
Qed.
Lemma enc_any key last b : enc key last -> b ∈ masks -> any_bit last b = any_bit (tag key) b /\ bits_raised last b = bits_raised (tag key) b.
Proof. intros (k & Hk & -> & _) Hb. unfold any_bit, bits_raised. by rewrite (proj1 (proj2 (tag_facts k key Hk) b Hb)). Qed.
Lemma enc_code key last : enc key last -> match key with KUp => True | KPressed k _ | KHeld k | KReleased k => LOBYTE last = k end.
Proof. intros (k & Hk & -> & Hc). pose proof (proj1 (tag_facts k key Hk)). by destruct key; subst. Qed.

(** ** The simulation *)
Section sim.
Context {hw : Type} {Hw : UsbdHw hw} {Obs : UsbdObs hw} {Cfg : UsbdCfg} {HwOk : UsbdHwOk hw}.
Abbreviation st := (usbd hw hid).
Context (ep epi : nat -> usbd_endpoint (hw := hw) (U := hid)) (e : Z) (zlp : bool) (base : list (Z * list Z)).
Abbreviation d := (hid_endpoint_in epi).
Abbreviation size := (Z.to_nat (usbd_hw_endp_size e)).
Definition flag (bus : bus_st) : Z := match bus with BIdle => 0 | BPending => HID_REPORT_PENDING | _ => HID_REPORT_RUNNING end.
Definition ctrl_flags (bus : bus_st) : Z := match bus with BSubmitted => if cfg_txaval then 0x50 else 0x10 | BSending _ => 0x30 | _ => 0 end.
Definition progress (key : key_st) (bus : bus_st) (s : st) (x : usb_transfer) : Prop :=
  match bus with
  | BSubmitted => exists xa it, x = Xfr (Z.of_nat (length (report key))) 0 xa 0 it
  | BSending todo => in_progress e s (report key) x todo
  | _ => exists it, x = Xfr 0 0 0 0 it
  end.
Definition vars_ok (a : kb) (u : hid) : Prop := exists addrs p last, u = Hid 1 (e :: addrs) [flag (kb_bus a)] [p] 0 last /\ enc (kb_key a) last.
Record usb_rel (a : kb) (s : st) : Prop := UsbRel {
  ur_ep : ep_at ep e s d;
  ur_epi : exists di, ep_at epi e s di /\ attrs di = USBD_ENDP_INTR_IN;
  ur_state : usbd_state s = USB_STATE_CONFIGURED /\ Z.testbit (usbd_endp_zlps s) (USB_ADDR2EID e) = zlp;
  ur_vars : vars_ok a (user s);
  ur_ctrl : usbd_endp_ctrls s !! idx_of e = Some (ctrl_flags (kb_bus a));
  ur_xfr : exists x, usb_transfers s !! idx_of e = Some x /\ progress (kb_key a) (kb_bus a) s x;
  ur_hw : hw_free (hwst s) (base ++ map (pair (USB_ADDR2EID e)) (kb_log a))
}.
Lemma rel_user a a' s u : usb_rel a s -> kb_bus a' = kb_bus a -> kb_log a' = kb_log a -> report (kb_key a') = report (kb_key a) \/ kb_bus a = BIdle ->
  vars_ok a' u -> usb_rel a' (set_user u s).
Proof.
  intros [H1 (di & H2 & H2') H3 H4 H5 (x & H6 & H7) H8] Eb El Er Hv. constructor.
  - by apply ep_at_user.
  - exists di. split; [by apply ep_at_user|done].
  - done.
  - done.
  - by rewrite Eb.
  - exists x. split; [done|]. rewrite Eb. destruct Er as [Er|Er]; [|by rewrite Er in H7 |- *]. unfold progress in *. by rewrite Er.
  - by rewrite El.
Qed.

(** *** Key events *)
Lemma key_event_run k scan (s : st) addrs p f last : user s = Hid 1 addrs [f] [p] 0 last ->
  hid_kbd_key_event k scan s = Ok (tt, if scan =? HID_KBD_STATE_DOWN then
    if negb (any_bit f (HID_REPORT_RUNNING ||| HID_REPORT_PENDING)) && negb (bits_raised last HID_KBD_STATE_BUSY)
    then set_user (Hid 1 addrs [f] [p] 0 (raise_bits (HID_KBD_STATE_BUSY ||| HID_KBD_STATE_DOWN) k)) s else s
    else if (LOBYTE last =? k) && bits_raised last HID_KBD_STATE_BUSY then set_user (Hid 1 addrs [f] [p] 0 (raise_bits HID_KBD_STATE_UP last)) s else s).
Proof.
  intros Hu. unfold hid_kbd_key_event, hget, hput, hid_interrupt_busy, rept_flags, gets, getr, modify. monad_red. rewrite Hu. cbn [hid_kbd_last hid_kbd_rid hid_rept_ctrls].
  destruct (scan =? _); cbn beta; rewrite ?Hu; [change (oob _) with (Ok f); cbn beta iota|]; destruct (_ && _); cbn beta; by rewrite ?Hu.
Qed.
Lemma ascii_ok sc : 0 <= sc < 16 -> kbd_hw_translate_key sc = Ok (ascii_of sc) /\ in_u 8 (ascii_of sc).
Proof.
  intros Hsc. set (P := fun sc => match kbd_hw_translate_key sc with Ok v => v =? ascii_of sc | Fault _ => false end && (0 <=? ascii_of sc) && (ascii_of sc <? 256)).
  assert (H : forallb P (seqZ 0 16) = true) by (vm_compute; reflexivity). rewrite forallb_forall in H. specialize (H sc).
  rewrite <- list_elem_of_In, elem_of_seqZ in H. specialize (H ltac:(lia)). unfold P in H. rewrite !andb_true_iff, Z.leb_le, Z.ltb_lt in H.
  destruct H as [[H1 H2] H3]. split; [|done]. destruct (kbd_hw_translate_key sc); [by apply Z.eqb_eq in H1 as ->|done].
Qed.
Lemma down_ok a s k : usb_rel a s -> in_u 8 k -> exists s', hid_kbd_key_event k HID_KBD_STATE_DOWN s = Ok (tt, s') /\ usb_rel (spec_down k a) s'.
Proof.
  intros Ha Hk. destruct (ur_vars _ _ Ha) as (addrs & p & last & Hu & He). rewrite (key_event_run _ _ _ _ _ _ _ Hu). change (HID_KBD_STATE_DOWN =? HID_KBD_STATE_DOWN) with true.
  cbn beta iota. rewrite (proj2 (enc_any _ _ HID_KBD_STATE_BUSY He ltac:(apply list_elem_of_In; cbn; tauto))).
  eexists. split; [done|]. unfold spec_down.
  destruct (kb_key a) as [|k' r|k'|k'] eqn:Ek; [|by destruct r; destruct (any_bit _ _)|by destruct (any_bit _ _)|by destruct (any_bit _ _)].
  destruct (kb_bus a) eqn:Eb; [|exact Ha|exact Ha|exact Ha].
  match goal with |- usb_rel _ (if ?b then _ else _) => change b with true end. cbn beta iota.
  apply (rel_user a); [done|done|done|by right|]. eexists addrs, p, _. split; [reflexivity|]. exists k. done.
Qed.
Lemma up_enc key last k : enc key last ->
  enc (up_key k key) (if (LOBYTE last =? k) && bits_raised (tag key) HID_KBD_STATE_BUSY then raise_bits HID_KBD_STATE_UP last else last).
Proof.
  intros He. pose proof (enc_code _ _ He) as Hc. destruct key as [|k' r|k'|k']; cbn [up_key]; [by rewrite andb_false_r|..].
  all: rewrite Hc; destruct (k' =? k); [|exact He].
  all: destruct He as (k0 & Hk0 & -> & ->); exists k0; (split; [done|split; [|done]]); try destruct r; match goal with |- context [true && ?b] => change b with true end; cbn [andb]; unfold raise_bits; by rewrite <- Z.lor_assoc.
Qed.
Lemma up_ok a s k : usb_rel a s -> exists s', hid_kbd_key_event k HID_KBD_STATE_UP s = Ok (tt, s') /\ usb_rel (spec_up k a) s'.
Proof.
  intros Ha. destruct (ur_vars _ _ Ha) as (addrs & p & last & Hu & He). rewrite (key_event_run _ _ _ _ _ _ _ Hu). change (HID_KBD_STATE_UP =? HID_KBD_STATE_DOWN) with false.
  cbn beta iota. rewrite (proj2 (enc_any _ _ HID_KBD_STATE_BUSY He ltac:(apply list_elem_of_In; cbn; tauto))).
  apply (up_enc _ _ k) in He. eexists. split; [done|].
  replace (if _ && _ then _ else s) with (set_user (Hid 1 (e :: addrs) [flag (kb_bus a)] [p] 0 (if (LOBYTE last =? k) && bits_raised (tag (kb_key a)) HID_KBD_STATE_BUSY then raise_bits HID_KBD_STATE_UP last else last)) s)
    by (destruct (_ && _); [done|rewrite <- Hu; apply set_user_id]).
  apply (rel_user a); [done|done|done| |by exists addrs, p, (if (LOBYTE last =? k) && bits_raised (tag (kb_key a)) HID_KBD_STATE_BUSY then raise_bits HID_KBD_STATE_UP last else last)].
  left. cbn. unfold up_key. destruct (kb_key a) as [|k' r|k'|k']; [done|..]; by destruct (k' =? k).
Qed.
Lemma capture_ok a s ev : usb_rel a s -> 0 <= ev.1 < 16 -> ev.2 = KBD_EVENT_KEY_DOWN \/ ev.2 = KBD_EVENT_KEY_UP ->
  exists s', hid_kbd_capture ev.1 ev.2 s = Ok (tt, s') /\ usb_rel (spec_key ev a) s'.
Proof.
  intros Ha Hsc Hev. destruct (ascii_ok _ Hsc) as [E Hk]. unfold hid_kbd_capture, getr, spec_key. monad_red. rewrite E. cbn beta iota. destruct Hev as [-> | ->].
  - change (KBD_EVENT_KEY_DOWN =? KBD_EVENT_KEY_DOWN) with true. change (KBD_EVENT_KEY_DOWN =? KBD_EVENT_KEY_UP) with false. cbn beta iota.
    destruct (down_ok a s _ Ha Hk) as (s' & -> & Hs'). by exists s'.
  - change (KBD_EVENT_KEY_UP =? KBD_EVENT_KEY_DOWN) with false. change (KBD_EVENT_KEY_UP =? KBD_EVENT_KEY_UP) with true. cbn beta iota. by apply up_ok.
Qed.
Definition key_ok (ev : Z * Z) : Prop := 0 <= ev.1 < 16 /\ (ev.2 = KBD_EVENT_KEY_DOWN \/ ev.2 = KBD_EVENT_KEY_UP).
Lemma changes_ok last status : Forall key_ok (changes last status).
Proof.
  unfold changes. apply list.Forall_forall. intros ev (l & Hl & Hev)%list_elem_of_In%in_concat. apply in_map_iff in Hl as (sc & <- & Hsc%list_elem_of_In%elem_of_seqZ).
  unfold change, key_ok in *. destruct (Z.testbit last sc), (Z.testbit status sc); cbn in Hev; [done| | |done]; destruct Hev as [<-|[]]; cbn [fst snd]; split; [lia|tauto|lia|tauto].
Qed.
(** The keyboard's callback is the driver's. *)
Definition captured (k : kbd) : Prop := kbd_event_iocb k = Some HID_CAPTURE /\ kbd_event_tout k = 0.
Lemma keys_ok l a k s : Forall key_ok l -> captured k -> usb_rel a s ->
  exists s', key_events hid_capture l (k, s) = Ok (tt, (k, s')) /\ usb_rel (spec_keys l a) s'.
Proof.
  intros Hl [Hk1 Hk2]. revert a s. induction Hl as [|ev l [Hsc Hev] Hl IH]; intros a s Ha; cbn [key_events spec_keys]; [by exists s|].
  destruct (capture_ok a s ev Ha Hsc Hev) as (s1 & E1 & Hs1). destruct (IH _ _ Hs1) as (s2 & E2 & Hs2). exists s2. split; [|done]. monad_red.
  assert (Hc : key_event hid_capture ev (k, s) = Ok (tt, (k, s1))).
  { assert (Hi : forall ev', ev' = ev.2 -> call_iocb hid_capture ev.1 ev' (k, s) = Ok (tt, (k, s1))).
    { intros ev' ->. unfold call_iocb, kget, gets. monad_red. cbn [fst]. rewrite Hk1. cbn beta iota. change (HID_CAPTURE =? KBD_DEFAULT_CAPTURE)%nat with false. cbn beta iota.
      unfold hid_capture, inner. cbn [fst snd]. by rewrite E1. }
    unfold key_event. destruct Hev as [Ev|Ev]; rewrite Ev; [|by apply (Hi KBD_EVENT_KEY_UP)]. change (KBD_EVENT_KEY_DOWN =? KBD_EVENT_KEY_DOWN) with true. cbn beta iota.
    unfold kbd_event_down, kbd_reset_timeout, kget, gets. monad_red. cbn [fst]. rewrite Hk2. change (negb (0 =? 0)) with false. cbn beta iota. by apply (Hi KBD_EVENT_KEY_DOWN). }
  rewrite Hc. exact E2.
Qed.

(** *** Polls, packets and completion *)
Lemma ep_at_out tbl d' a (s : st) c x h : ep_at tbl e s d' -> ep_at tbl e (out_ep e a s c x h) d'.
Proof. intros [H1 H2 H3 H4 H5]. constructor; cbn; [done|by rewrite length_insert|by rewrite length_insert|done|done]. Qed.
Definition fixed (s : st) : Prop := ep_at ep e s d /\ (exists di, ep_at epi e s di /\ attrs di = USBD_ENDP_INTR_IN) /\
  usbd_state s = USB_STATE_CONFIGURED /\ Z.testbit (usbd_endp_zlps s) (USB_ADDR2EID e) = zlp.
Lemma fixed_user s u : fixed s -> fixed (set_user u s).
Proof. intros (H1 & (di & H2 & H3) & H4). split; [by apply ep_at_user|]. split; [|done]. exists di. split; [by apply ep_at_user|done]. Qed.
Lemma fixed_woken s : fixed s -> fixed (woken s).
Proof.
  intros (H1 & (di & H2 & H3) & H4). unfold woken. destruct cfg_txaval; [|by split; [|split; [exists di|]]].
  split; [by apply ep_at_wake|]. split; [|done]. exists di. split; [by apply ep_at_wake|done].
Qed.
Lemma rel_out a ad (s : st) x h : fixed s -> vars_ok a (user s) -> progress (kb_key a) (kb_bus a) s x ->
  hw_free h (base ++ map (pair (USB_ADDR2EID e)) (kb_log a)) -> usb_rel a (out_ep e ad s (ctrl_flags (kb_bus a)) x h).
Proof.
  intros (H1 & (di & H2 & H3) & H4) Hv Hp Hh. constructor; [by apply ep_at_out|exists di; split; [by apply ep_at_out|done]|done|done| | |done].
  - cbn. apply list_lookup_insert_eq, H1.
  - exists x. split; [apply list_lookup_insert_eq, H1|done].
Qed.
Lemma rel_in a s : usb_rel a s -> fixed s /\ exists x, progress (kb_key a) (kb_bus a) s x /\ s = out_ep e (usbd_endp s) s (ctrl_flags (kb_bus a)) x (hwst s).
Proof. intros [H1 H2 H3 H4 H5 (x & H6 & H7) H8]. split; [done|]. exists x. split; [done|]. by apply out_ep_self. Qed.
(** What the driver's callbacks do with its variables. *)
Lemma down_in : HID_KBD_STATE_DOWN ∈ masks. Proof. apply list_elem_of_In. cbn. tauto. Qed.
Lemma up_in : HID_KBD_STATE_UP ∈ masks. Proof. apply list_elem_of_In. cbn. tauto. Qed.
Lemma rept_0 (s : st) addrs p f last : user s = Hid 1 addrs [f] [p] 0 last ->
  rept_flags 0 s = Ok (f, s) /\ the_report epi 0 s = Ok (hid_kbd_report epi, s) /\ hget hid_nr_reports s = Ok (1, s) /\ hget hid_kbd_last s = Ok (last, s) /\ hget hid_kbd_rid s = Ok (0, s).
Proof. intros Hu. unfold rept_flags, the_report, hget, getr, gets. rewrite !Hu. done. Qed.
Lemma handle_run key (s : st) addrs p f last : user s = Hid 1 addrs [f] [p] 0 last -> enc key last -> hid_input_handle epi s = emit epi (report key) s.
Proof.
  intros Hu He. destruct (rept_0 s addrs p f last Hu) as (_ & E2 & E3 & E4 & _). pose proof (proj2 (enc_any _ _ _ He down_in)) as Hd. pose proof (enc_code _ _ He) as Hc.
  unfold hid_input_handle, for_reports. monad_red. rewrite E3. cbn beta iota. change (Z.to_nat 1) with 1%nat. cbn [for_rids]. unfold hid_report_input_data. monad_red. rewrite E2. cbn beta iota.
  cbn [hid_kbd_report r_iocb opt_call]. unfold hid_kbd_irq_iocb. change (HID_ENDP_IN =? HID_ENDP_IN) with true. change (HID_ENDP_IN =? HID_ENDP_OUT) with false. cbn beta iota.
  unfold hid_kbd_irq_in. monad_red. rewrite E4. cbn beta iota. rewrite Hd.
  assert (Hr : report key = [if bits_raised (tag key) HID_KBD_STATE_DOWN then hid_kbd_key_ctrls (LOBYTE last) else 0; 0;
    if bits_raised (tag key) HID_KBD_STATE_DOWN then hid_kbd_key_code (LOBYTE last) else 0; 0; 0; 0; 0; 0]) by (destruct key as [|k []|k|k]; rewrite ?Hc; done).
  rewrite Hr. cbn [emit]. monad_red.
  repeat (match goal with |- context [usbd_inb epi ?b ?s0] => destruct (usbd_inb epi b s0) as [[[] ?]|]; cbn beta iota; [|reflexivity] end). reflexivity.
Qed.
Lemma input_poll_run (s : st) addrs p f last : user s = Hid 1 addrs [f] [p] 0 last ->
  hid_input_poll epi s = Ok (tt, if any_bit f (HID_REPORT_RUNNING ||| HID_REPORT_PENDING) then s
    else if any_bit last HID_KBD_STATE_DOWN || any_bit last HID_KBD_STATE_UP then set_user (Hid 1 addrs [raise_bits HID_REPORT_PENDING f] [p] 0 last) s else s).
Proof.
  intros Hu. destruct (rept_0 s addrs p f last Hu) as (E1 & E2 & E3 & E4 & E5).
  assert (Hr : any_bit f (HID_REPORT_RUNNING ||| HID_REPORT_PENDING) = false -> hid_kbd_submit s = Ok (tt, set_user (Hid 1 addrs [raise_bits HID_REPORT_PENDING f] [p] 0 last) s)).
  { intros Hf. unfold hid_kbd_submit, hid_raise_interrupt, hid_interrupt_busy, put_flags, hput, modify. monad_red. rewrite E5. cbn beta iota. rewrite E3. cbn beta iota.
    change (0 <? 1) with true. cbn beta iota. rewrite E1. cbn beta iota. rewrite Hf. unfold bugif. rewrite E1. cbn beta iota. by rewrite Hu. }
  unfold hid_input_poll, for_reports, hid_poll_interrupt, hid_interrupt_busy. monad_red. rewrite E3. cbn beta iota. change (Z.to_nat 1) with 1%nat. cbn [for_rids]. monad_red.
  rewrite E1. cbn beta iota. destruct (any_bit f _) eqn:Ef; cbn [negb]; cbn beta iota; [done|]. rewrite E2. cbn beta iota. cbn [hid_kbd_report r_poll opt_call].
  unfold hid_kbd_irq_poll. change (HID_ENDP_IN =? HID_ENDP_IN) with true. cbn beta iota. monad_red. rewrite E4. cbn beta iota.
  destruct (any_bit last HID_KBD_STATE_DOWN); cbn [orb negb]; [by rewrite Hr|]. destruct (any_bit last HID_KBD_STATE_UP); [by rewrite Hr|done].
Qed.
Lemma free_select a h l : hw_free h l -> hw_free (usbd_hw_endp_select a h) l.
Proof. intros (H1 & H2 & H3). destruct (select_ok a h H1) as (S1 & _ & S2 & S3 & _). unfold hw_free. split_and!; (done || congruence). Qed.
Lemma dir_in s c : req_dir s d c = USB_DIR_IN.
Proof. done. Qed.
Definition with_bus (a : kb) (key : key_st) (bus : bus_st) : kb := KbSt (kb_last a) key bus (kb_log a) (kb_strokes a).
Lemma report_length key : length (report key) = 8%nat.
Proof. by destruct key. Qed.
Lemma pending_run (s : st) addrs p f last : user s = Hid 1 addrs [f] [p] 0 last ->
  hid_input_pending s = Ok (any_bit f HID_REPORT_PENDING, s) /\ hid_input_length epi s = Ok (HID_KBD_INPUT_BYTES, s) /\ hid_input_running s = Ok (any_bit f HID_REPORT_RUNNING, s).
Proof.
  intros Hu. destruct (rept_0 s addrs p f last Hu) as (E1 & E2 & E3 & _ & _).
  unfold hid_input_pending, hid_input_length, hid_input_running, for_reports, hid_interrupt_pending, hid_interrupt_running. monad_red. rewrite E3. cbn beta iota. change (Z.to_nat 1) with 1%nat.
  cbn [any_rid for_rids]. monad_red. rewrite E1, E2. cbn beta iota. split_and!; [by destruct (any_bit f _)|done|by destruct (any_bit f _)].
Qed.
Lemma put_flags_run g (s : st) addrs p f last : user s = Hid 1 addrs [f] [p] 0 last -> put_flags 0 g s = Ok (tt, set_user (Hid 1 addrs [g f] [p] 0 last) s).
Proof. intros Hu. destruct (rept_0 s addrs p f last Hu) as (E1 & _). unfold put_flags, hput, modify. monad_red. rewrite E1. cbn beta iota. by rewrite Hu. Qed.
Lemma to_running_run (s : st) addrs p last : user s = Hid 1 addrs [HID_REPORT_PENDING] [p] 0 last ->
  for_reports (fun rid _ => put_flags rid (unraise_bits HID_REPORT_PENDING);; put_flags rid (raise_bits HID_REPORT_RUNNING)) tt s =
  Ok (tt, set_user (Hid 1 addrs [HID_REPORT_RUNNING] [p] 0 last) s).
Proof.
  intros Hu. destruct (rept_0 s addrs p _ last Hu) as (_ & _ & E3 & _). unfold for_reports. monad_red. rewrite E3. cbn beta iota. change (Z.to_nat 1) with 1%nat. cbn [for_rids]. monad_red.
  rewrite (put_flags_run _ _ addrs p _ last Hu). cbn beta iota. by rewrite (put_flags_run _ _ addrs p 0 last).
Qed.
(** The poll of the driver: a request is submitted when a report is due. *)
Lemma submit_run a s it h l : fixed s -> vars_ok a (user s) -> kb_bus a = BIdle \/ kb_bus a = BPending -> hw_free h l ->
  let bus := poll_bus (kb_key a) (kb_bus a) in
  exists s' x h', hid_input_submit epi (at_ep e s 0 (Xfr 0 0 0 0 it) h) = Ok (tt, at_ep e s' (ctrl_flags bus) x h') /\
  fixed s' /\ vars_ok (with_bus a (kb_key a) bus) (user s') /\ progress (kb_key a) bus s' x /\ hw_free h' l.
Proof.
  intros Hf (addrs & p & last & Hu & He) Hb Hh bus. pose proof (proj1 (enc_any _ _ _ He down_in)) as Hd. pose proof (proj1 (enc_any _ _ _ He up_in)) as Hup.
  set (x0 := Xfr 0 0 0 0 it). set (u f := Hid 1 (e :: addrs) [f] [p] 0 last) in *.
  set (f1 := match kb_bus a with BPending => HID_REPORT_PENDING | _ => if due (kb_key a) then HID_REPORT_PENDING else 0 end).
  assert (Hp : hid_input_poll epi (at_ep e s 0 x0 h) = Ok (tt, at_ep e (set_user (u f1) s) 0 x0 h)).
  { assert (Hself : set_user (u (flag (kb_bus a))) s = s) by (unfold u; rewrite <- Hu; apply set_user_id).
    rewrite (input_poll_run (at_ep e s 0 x0 h) (e :: addrs) p (flag (kb_bus a)) last Hu), Hd, Hup. unfold f1. destruct Hb as [Hb|Hb]; rewrite Hb in Hself |- *.
    - change (any_bit (flag BIdle) _) with false. cbn beta iota. destruct (kb_key a) as [|k []|k|k]; cbn [due]; try done; change (u 0) with (u (flag BIdle)); by rewrite Hself.
    - change (any_bit (flag BPending) _) with true. cbn beta iota. change (u HID_REPORT_PENDING) with (u (flag BPending)). by rewrite Hself. }
  unfold hid_input_submit. monad_red. rewrite Hp. cbn beta iota. destruct (pending_run (at_ep e (set_user (u f1) s) 0 x0 h) (e :: addrs) p f1 last eq_refl) as (E1 & E2 & _). rewrite E1. cbn beta iota.
  assert (Hcase : f1 = 0 /\ bus = BIdle \/ f1 = HID_REPORT_PENDING /\ bus = BSubmitted) by (unfold f1, bus; destruct Hb as [-> | ->]; cbn; [destruct (due _)|]; tauto).
  apply (fixed_user s (u f1)) in Hf. destruct Hcase as [[Hf1 ->]|[Hf1 ->]]; rewrite Hf1 in *.
  - change (any_bit 0 HID_REPORT_PENDING) with false. cbn beta iota. exists (set_user (u 0) s), x0, h. split; [done|]. split; [done|]. split; [by exists addrs, p, last|]. split; [by exists it|done].
  - change (any_bit HID_REPORT_PENDING HID_REPORT_PENDING) with true. cbn beta iota. change (hid_addr_of HID_ENDP_IN _) with (Ok (e, at_ep e (set_user (u HID_REPORT_PENDING) s) 0 x0 h)). cbn beta iota.
    rewrite E2. cbn beta iota. destruct (Hf) as (_ & (di & Hdi & Hat) & Hst & _).
    destruct (submit_in epi e _ di Hdi 0 HID_KBD_INPUT_BYTES ltac:(done) (or_introl eq_refl)) with (a := e) (it := it) (h := h) (l := l) as (h' & E & Hh');
      [unfold req_dir; by rewrite Hat|by right|by destruct Hh as (? & _ & ?)|].
    change (at_ep e (set_user (u HID_REPORT_PENDING) s) 0 x0 h) with (out_ep e e (set_user (u HID_REPORT_PENDING) s) 0 x0 h). unfold x0. rewrite E. cbn beta iota.
    match goal with |- context [for_reports _ _ ?s1] => pose proof (to_running_run s1 (e :: addrs) p last ltac:(unfold woken; by destruct cfg_txaval)) as Hr end.
    cbv [mbind stm_bind st_bind] in Hr. rewrite Hr.
    eexists (set_user (u HID_REPORT_RUNNING) (woken (set_user (u HID_REPORT_PENDING) s))), _, h'. split; [by unfold ctrl_flags; destruct cfg_txaval|].
    split; [by apply fixed_user, fixed_woken|]. split; [by exists addrs, p, last|]. split; [|done]. eexists _, it. by rewrite report_length.
Qed.
Lemma done_enc key last : enc key last -> enc (done_key key)
  (if any_bit last HID_KBD_STATE_DOWN then unraise16 HID_KBD_STATE_DOWN last
   else if any_bit last HID_KBD_STATE_UP then unraise16 (HID_KBD_STATE_UP ||| HID_KBD_STATE_BUSY) last else last).
Proof.
  intros He. rewrite (proj1 (enc_any _ _ _ He down_in)), (proj1 (enc_any _ _ _ He up_in)). destruct He as (k & Hk & -> & Hc). destruct (tag_facts k key Hk) as [_ Hb].
  exists k. split; [done|]. destruct key as [|k' []|k'|k']; (split; [|done]); cbn [done_key tag].
  - done.
  - exact (proj2 (Hb _ down_in)).
  - exact (proj2 (Hb _ down_in)).
  - done.
  - refine (proj2 (Hb (HID_KBD_STATE_UP ||| HID_KBD_STATE_BUSY) _)). apply list_elem_of_In. cbn. tauto.
Qed.
Lemma discard_run key (s : st) addrs p last : user s = Hid 1 addrs [HID_REPORT_RUNNING] [p] 0 last -> enc key last ->
  exists last', hid_input_discard epi s = Ok (tt, set_user (Hid 1 addrs [0] [p] 0 last') s) /\ enc (done_key key) last'.
Proof.
  intros Hu He. destruct (rept_0 s addrs p _ last Hu) as (E1 & E2 & E3 & E4 & _). eexists. split; [|exact (done_enc _ _ He)].
  unfold hid_input_discard, for_reports, hid_interrupt_running, hid_discard_interrupt. monad_red. rewrite E3. cbn beta iota. change (Z.to_nat 1) with 1%nat. cbn [for_rids]. monad_red.
  rewrite E1. cbn beta iota. change (any_bit HID_REPORT_RUNNING HID_REPORT_RUNNING) with true. cbn beta iota. rewrite E2. cbn beta iota. cbn [hid_kbd_report r_done opt_call].
  unfold hid_kbd_irq_done. change (HID_ENDP_IN =? HID_ENDP_IN) with true. cbn beta iota. monad_red. rewrite E4. cbn beta iota. unfold hput, modify. monad_red.
  destruct (any_bit last HID_KBD_STATE_DOWN); [|destruct (any_bit last HID_KBD_STATE_UP)]; cbn [negb]; cbn beta iota; rewrite ?Hu; cbn beta iota;
    (erewrite put_flags_run by (first [exact Hu|reflexivity]); reflexivity).
Qed.

Lemma with_bus_same a : with_bus a (kb_key a) (kb_bus a) = a.
Proof. by destruct a. Qed.
Lemma poll_ok a s : usb_rel a s -> exists s', usbd_endpoint_poll_addr ep e s = Ok (tt, s') /\ usb_rel (with_bus a (kb_key a) (poll_bus (kb_key a) (kb_bus a))) s'.
Proof.
  intros Ha. destruct (rel_in _ _ Ha) as (Hf & x & Hx & Es). pose proof (ur_vars _ _ Ha) as Hv. pose proof (free_select e _ _ (ur_hw _ _ Ha)) as Hh. pose proof (proj1 Hf) as Hs.
  set (ad := usbd_endp s) in *. rewrite Es. unfold usbd_endpoint_poll_addr. monad_red. rewrite save_out. cbn beta iota. sym Hs. unfold usbd_endpoint_claimed, gets. cbn beta iota.
  cbn [at_ep usbd_endp_regs]. rewrite (ea_reg _ _ _ _ Hs). cbn beta iota. unfold usbd_endpoint_poll, usbd_request_pending, usbd_request_poll. sym Hs.
  assert (Hcase : (kb_bus a = BIdle \/ kb_bus a = BPending) \/ bits_raised (ctrl_flags (kb_bus a)) USBD_REQ_FLAG_SOFT = true /\ poll_bus (kb_key a) (kb_bus a) = kb_bus a)
    by (destruct (kb_bus a); cbn; [tauto|tauto|right; by destruct cfg_txaval|right; done]).
  destruct Hcase as [Hb|[-> ->]].
  - assert (Hc : ctrl_flags (kb_bus a) = 0 /\ exists it, x = Xfr 0 0 0 0 it) by (unfold progress in Hx; by destruct Hb as [Hb|Hb]; rewrite Hb in Hx |- *).
    destruct Hc as [-> [it ->]]. change (bits_raised 0 USBD_REQ_FLAG_SOFT) with false. cbn [negb]. sym Hs. cbn [hid_endpoint_in poll call_cb].
    destruct (submit_run a s it _ _ Hf Hv Hb Hh) as (s' & x' & h' & -> & Hf' & Hv' & Hx' & Hh'). cbn beta iota. rewrite restore_out. eexists. split; [done|].
    apply rel_out; [done|done|done|by apply free_select].
  - cbn [negb]. cbn beta iota. rewrite restore_out. eexists. split; [done|]. rewrite with_bus_same. apply rel_out; [done|done|done|by apply free_select].
Qed.
Section sending.
Context (a : kb) (s : st) (Ha : usb_rel a s).
Lemma first_ok : kb_bus a = BSubmitted ->
  exists p ps s', report_packets zlp size (kb_key a) = p :: ps /\ first_event ep e s = Ok (tt, s') /\
  usb_rel (KbSt (kb_last a) (kb_key a) (BSending ps) (kb_log a ++ [p]) (kb_strokes a)) s'.
Proof using Ha HwOk.
  intros Hb. destruct (rel_in _ _ Ha) as (Hf & x & Hx & Es). destruct (Hf) as (Hs & (di & Hsi & Hat) & _). destruct (ur_vars _ _ Ha) as (addrs & pt & last & Hu & He).
  rewrite Hb in Es, Hx, Hu. cbn [progress ctrl_flags] in Hx, Es. destruct Hx as (xa & it & ->).
  destruct (first_packet ep epi e s d di Hs Hsi Hat (dir_in s _) (hid_input_handle epi) (report (kb_key a)) eq_refl) with (a := usbd_endp s) (xa := xa) (it := it) (h := hwst s)
    (l := base ++ map (pair (USB_ADDR2EID e)) (kb_log a)) as (p & ps & x & h' & Ep & E & Hx & Hh');
    [intros c x h _; by eapply (handle_run _ (at_ep e s c x h))|by rewrite report_length|apply Ha|].
  rewrite (proj2 (ur_state _ _ Ha)) in Ep. rewrite Es. exists p, ps. eexists. split; [exact Ep|]. split; [exact E|]. apply rel_out; [done|by exists addrs, pt, last|exact Hx|]. cbn [kb_log]. by rewrite map_app, app_assoc.
Qed.
Lemma next_ok p ps : kb_bus a = BSending (p :: ps) ->
  exists s', irq_txin ep e s = Ok (tt, s') /\ usb_rel (KbSt (kb_last a) (kb_key a) (BSending ps) (kb_log a ++ [p]) (kb_strokes a)) s'.
Proof using Ha HwOk.
  intros Hb. destruct (rel_in _ _ Ha) as (Hf & x & Hx & Es). destruct (Hf) as (Hs & (di & Hsi & Hat) & _). destruct (ur_vars _ _ Ha) as (addrs & pt & last & Hu & He).
  rewrite Hb in Es, Hx, Hu. cbn [progress ctrl_flags] in Hx, Es.
  destruct (next_packet ep epi e s d di Hs Hsi Hat (dir_in s _) (hid_input_handle epi) (report (kb_key a)) eq_refl) with (a := usbd_endp s) (x := x) (p := p) (ps := ps) (h := hwst s)
    (l := base ++ map (pair (USB_ADDR2EID e)) (kb_log a)) as (x' & h' & E & Hx' & Hh');
    [intros c x0 h _; by eapply (handle_run _ (at_ep e s c x0 h))|by rewrite report_length|done|apply Ha|].
  rewrite Es. eexists. split; [exact E|]. apply rel_out; [done|by exists addrs, pt, last|exact Hx'|]. cbn [kb_log]. by rewrite map_app, app_assoc.
Qed.
(** The report has gone out: the next one, if one is due, is submitted at once. *)
Lemma done_ok : kb_bus a = BSending [] ->
  exists s', irq_txin ep e s = Ok (tt, s') /\ usb_rel (with_bus a (done_key (kb_key a)) (poll_bus (done_key (kb_key a)) BIdle)) s'.
Proof using Ha HwOk.
  intros Hb. destruct (rel_in _ _ Ha) as (Hf & x & Hx & Es). destruct (Hf) as (Hs & _ & _). destruct (ur_vars _ _ Ha) as (addrs & pt & last & Hu & He).
  rewrite Hb in Es, Hx, Hu. cbn [progress ctrl_flags] in Hx, Es.
  destruct (last_packet ep e s d Hs (dir_in s _) (report (kb_key a))) with (a := usbd_endp s) (x := x) (h := hwst s) (l := base ++ map (pair (USB_ADDR2EID e)) (kb_log a))
    as (h' & E & Hh'); [by rewrite report_length|done|apply Ha|].
  rewrite Es, E. unfold complete. cbn [hid_endpoint_in done_cb call_cb]. monad_red.
  destruct (discard_run (kb_key a) (at_ep e s 0x10 x h') (e :: addrs) pt last Hu He) as (last' & -> & He'). cbn beta iota.
  set (s1 := set_user (Hid 1 (e :: addrs) [0] [pt] 0 last') s). change (set_user _ (at_ep e s _ _ _)) with (at_ep e s1 0x10 x h').
  assert (Hf1 : fixed s1) by by apply fixed_user. pose proof (proj1 Hf1) as Hs1. unfold usbd_request_clear_soft, usbd_request_reset, usbd_request_poll. sym Hs1.
  change (unraise_bits USBD_REQ_FLAG_MASK (unraise_bits USBD_REQ_FLAG_SOFT 0x10)) with 0. sym Hs1. cbn [hid_endpoint_in poll call_cb].
  destruct (submit_run (with_bus a (done_key (kb_key a)) BIdle) s1 (iter x) h' (base ++ map (pair (USB_ADDR2EID e)) (kb_log a)) Hf1) as (s' & x' & h2 & E2 & Hf2 & Hv2 & Hx2 & Hh2);
    [by exists addrs, pt, last'|by left|by destruct Hh' as (? & _ & ? & ?)|].
  rewrite E2. cbn beta iota. rewrite restore_out. eexists. split; [done|]. apply rel_out; [done|done|done|by apply free_select].
Qed.
End sending.

(** *** The whole system *)
Abbreviation sys := (matrix * (kbd * st))%type.
Definition run_event (ev : event) : stm sys unit :=
  match ev with
  | Scan level level' => __kbd_hw_scan_async hid_capture level level'
  | Poll => inner (inner (usbd_endpoint_poll_addr ep e))
  | First => inner (inner (first_event ep e))
  | Txin => inner (inner (irq_txin ep e))
  end.
Fixpoint run_events (l : list event) : stm sys unit := match l with [] => mret tt | ev :: l => run_event ev;; run_events l end.
Definition sys_rel (a : kb) (x : sys) : Prop :=
  __kbd_hw_last_status x.1 = kb_last a /\ in_u 16 (kb_last a) /\ captured x.2.1 /\ usb_rel a x.2.2.
Lemma inner2_ok (m : stm st unit) (x : sys) s' : m x.2.2 = Ok (tt, s') -> inner (inner m) x = Ok (tt, (x.1, (x.2.1, s'))).
Proof. intros E. unfold inner. by rewrite E. Qed.
Lemma spec_keys_last l a : kb_last (spec_keys l a) = kb_last a.
Proof.
  revert a. induction l as [|ev l IH]; intros a; [done|]. cbn [spec_keys]. rewrite IH. unfold spec_key, spec_down. destruct (_ =? _); [|done]. by destruct (kb_key a), (kb_bus a).
Qed.
Lemma step_ok ev a a' x : sys_rel a x -> spec_step zlp size ev a = Some a' -> exists x', run_event ev x = Ok (tt, x') /\ sys_rel a' x'.
Proof.
  intros (H1 & H2 & H3 & H4) E. destruct x as [m [k s]]. cbn [fst snd] in *. destruct ev as [level level'| | |]; cbn [spec_step run_event] in *.
  - injection E as <-. rewrite <- H1 in H2. destruct (scan_eq hid_capture level level' m (k, s) H2) as [Hst ->]. rewrite H1.
    destruct (keys_ok (changes (kb_last a) (status_of level &&& status_of level')) a k s) as (s' & -> & Hs'); [apply changes_ok|done|done|].
    eexists. split; [done|]. split; [done|]. split; [done|]. split; [done|]. by destruct Hs'.
  - injection E as <-. destruct (poll_ok _ _ H4) as (s' & E & Hs'). eexists. split; [by apply inner2_ok|done].
  - destruct (kb_bus a) eqn:Eb; [done..| |done]. destruct (first_ok _ _ H4 Eb) as (p & ps & s' & Ep & E1 & Hs'). rewrite Ep in E. injection E as <-.
    eexists. split; [by apply inner2_ok|done].
  - destruct (kb_bus a) as [| | |[|p ps]] eqn:Eb; [done..| |].
    + injection E as <-. destruct (done_ok _ _ H4 Eb) as (s' & E & Hs'). eexists. split; [by apply inner2_ok|done].
    + injection E as <-. destruct (next_ok _ _ H4 _ _ Eb) as (s' & E & Hs'). eexists. split; [by apply inner2_ok|done].
Qed.
Lemma sim_run l a a' x : sys_rel a x -> spec_run zlp size l a = Some a' -> exists x', run_events l x = Ok (tt, x') /\ sys_rel a' x'.
Proof.
  revert a x. induction l as [|ev l IH]; intros a x Hx E; [injection E as <-; by exists x|]. cbn in E. destruct (spec_step zlp size ev a) as [a1|] eqn:E1; [|done].
  destruct (step_ok _ _ _ _ Hx E1) as (x1 & E2 & Hx1). destruct (IH _ _ Hx1 E) as (x2 & E3 & Hx2). exists x2. split; [|done]. cbn [run_events]. monad_red. by rewrite E2.
Qed.
(** The keyboard at rest, or with the report that the driver raises when it starts. *)
Definition start_kb (init : bool) (last : Z) : kb := KbSt last KUp (if init then BPending else BIdle) [] [].
Lemma start_inv init last : spec_inv zlp size init (start_kb init last).
Proof. destruct init; constructor; cbn; [done|by right|done|done|by left|done]. Qed.

(** C15: Key strokes reach the host.  Take any sequence of scans of the key matrix, polls by
    the timer and events of the keyboard's IN endpoint (a start event after a submission, a
    transmit interrupt after a packet), in any order.  The code runs without a fault and
    simulates the abstract keyboard; the packets it has handed over, with those that the
    request in flight still has to send, are exactly the packets of the reports of the
    accepted strokes: a press and a release for each, in order, cut into packets as the
    endpoint asks, preceded by the report of the start if that was due.  A stroke is accepted
    when its key goes down while no stroke is unfinished; key events between the packets of
    a report do not change it. *)
Theorem keystrokes_reported init last evs a x : sys_rel (start_kb init last) x -> spec_run zlp size evs (start_kb init last) = Some a ->
  exists x', run_events evs x = Ok (tt, x') /\ sys_rel a x' /\
  hw_sent (hwst x'.2.2) = base ++ map (pair (USB_ADDR2EID e)) (kb_log a) /\
  kb_log a ++ todo (kb_bus a) = concat (map (packets zlp size) (reports init a)).
Proof.
  intros Hx E. destruct (sim_run _ _ _ _ Hx E) as (x' & E' & Hx'). exists x'. split; [done|]. split; [done|]. split; [apply Hx'|].
  apply (inv_run _ _ _ _ _ _ (start_inv init last) E).
Qed.
(** C16: Reports that are due can be completed.  In every state that a configured keyboard
    reaches by scans, polls and events of its endpoint, some sequence of polls and endpoint
    events, without a further key event, completes all reports that are due: the endpoint is
    idle again, and of the strokes only the press of a key still held down awaits its
    release.  Restarts of the endpoint and bus resets are not among these events: a restart
    between the submission of a report and its first packet loses the completion, and the
    keyboard then reports nothing any more ([lost_completion_run]). *)
Theorem reports_drain init last evs a x : sys_rel (start_kb init last) x -> spec_run zlp size evs (start_kb init last) = Some a ->
  exists evs' a' x', Forall bus_event evs' /\ run_events (evs ++ evs') x = Ok (tt, x') /\ sys_rel a' x' /\ settled a' /\
  hw_sent (hwst x'.2.2) = base ++ map (pair (USB_ADDR2EID e)) (concat (map (packets zlp size) (reports init a'))).
Proof.
  intros Hx E. destruct (drain zlp size a) as (evs' & a' & Hev & E' & Ha').
  assert (E2 : spec_run zlp size (evs ++ evs') (start_kb init last) = Some a') by (rewrite spec_run_app, E; exact E').
  destruct (sim_run _ _ _ _ Hx E2) as (x' & E3 & Hx'). exists evs', a', x'. split; [done|]. split; [done|]. split; [done|]. split; [done|].
  destruct (Hx') as (_ & _ & _ & Hr). rewrite (proj2 (proj2 (ur_hw _ _ Hr))). do 2 f_equal.
  destruct (inv_run _ _ _ _ _ _ (start_inv init last) E2) as [_ _ Hl]. rewrite (proj1 Ha') in Hl. cbn in Hl. by rewrite app_nil_r in Hl.
Qed.
End sim.
