(* ===== verification/UsbKbdRun.v ===== *)
(** * A keyboard on the AT90SCR100

    The keyboard on the AT90SCR100's key matrix and USB controller: the theorems of [UsbKbd]
    applied to it, and a run of the interrupt handlers from start-up to the host's view of a
    key stroke. *)
From S2P Require Import Prelude MulDiv Usbd UsbdHal UsbdIn UsbdOut UsbCtrl UsbCtrlIo UsbDesc UsbScr100 Kbd UsbHid UsbHidDesc UsbKbd.

#[local] Instance kbd_ids : UsbdIds := {
  USBD_VENDOR_ID := 0x03EB; system_product_id := 0x1234; system_device_id := 0x0102; USBD_SERIAL_NO := 0xABCD;
  system_vendor_name := [65; 66]; system_device_name := [67; 68; 69]; USBD_MAX_POWER := 500; USBD_HW_CTRL_SIZE := 64 }.
Abbreviation st := (usbd scr hid).
Abbreviation table := (endp_table (hw := scr) (U := hid)).
Definition hid_drivers (tbl : table) : table := fun p => if (p =? 1)%nat then hid_endpoint_in tbl else hid_endpoint_out tbl.
Definition hid_intfs (tbl : table) : nat -> usbd_interface (hw := scr) (U := hid) := fun _ => usb_hid_interface tbl.
Definition kbd_table (depth : nat) : table := endpoints hid_drivers hid_intfs depth.
Definition hw_reset : scr := Scr 7 (fun _ => Epreg 0 0 0 []) 0 0 0 0 (replicate 128 0) 0 [].
Lemma table_in n : kbd_table (S n) 1%nat = hid_endpoint_in (kbd_table n).
Proof. reflexivity. Qed.

(** ** The configured keyboard: endpoint 4 is the IN endpoint, with 8 bytes *)
Definition s_kbd : st :=
  Usbd 7 (replicate 7 (Xfr 0 0 0 0 0)) (replicate 7 0) [0%nat; 0%nat; 0%nat; 0%nat; 1%nat; 2%nat; 0%nat] 0x31 0x31 (Setup 0 0 0 0 0) [0%nat] 1
    0 0 0 USB_STATE_CONFIGURED false hw_reset (Hid 1 [4; 5] [HID_REPORT_PENDING] [0%nat] 0 0).
Definition x_kbd : matrix * (kbd * st) := (Matrix 0 0 0 0 0 0, (Kbd (Some HID_CAPTURE) 0 0 true false, s_kbd)).
Lemma kbd_ep tbl : ep_at tbl 4 s_kbd (tbl 1%nat).
Proof. constructor; [by vm_compute|by apply Nat.ltb_lt; vm_compute|by apply Nat.ltb_lt; vm_compute|eexists; split; [reflexivity|done]|by vm_compute]. Qed.
Lemma kbd_ready : sys_rel (kbd_table 3) (kbd_table 2) 4 true [] (start_kb true 0) x_kbd.
Proof.
  split; [done|]. split; [done|]. split; [done|]. constructor.
  - pose proof (kbd_ep (kbd_table 3)) as H. rewrite table_in in H. exact H.
  - exists (kbd_table 2 1%nat). split; [apply kbd_ep|]. rewrite table_in. reflexivity.
  - done.
  - exists [5], 0%nat, 0. split; [done|]. exists 0. done.
  - done.
  - eexists. split; [done|]. by exists 0.
  - split_and!; [by constructor|done|done].
Qed.

(** The report of the start, then a key pressed and released before its press is sent. *)
Definition report_out : list event := [First; Txin; Txin].
Definition evs : list event := (Poll :: report_out) ++ [Scan key_6 key_6; Scan no_key no_key; Poll] ++ report_out ++ report_out.
Definition zeros : list Z := [0; 0; 0; 0; 0; 0; 0; 0].
Lemma keystrokes_reported_witness : exists x', run_events (kbd_table 3) 4 evs x_kbd = Ok (tt, x') /\
  hw_sent (hwst x'.2.2) = [(4, zeros); (4, []); (4, [0; 0; HID_KEYBOARD_3; 0; 0; 0; 0; 0]); (4, []); (4, zeros); (4, [])].
Proof.
  destruct (keystrokes_reported (kbd_table 3) (kbd_table 2) 4 true [] true 0 evs (KbSt 0 KUp BIdle [zeros; []; [0; 0; HID_KEYBOARD_3; 0; 0; 0; 0; 0]; []; zeros; []] [0x33]) x_kbd)
    as (x' & E & _ & Hs & _); [exact kbd_ready|vm_compute; reflexivity|]. exists x'. split; [exact E|exact Hs].
Defined.
Lemma reports_drain_witness : exists evs' a' x', Forall bus_event evs' /\ run_events (kbd_table 3) 4 ([Poll; First; Scan key_6 key_6] ++ evs') x_kbd = Ok (tt, x') /\ settled a'.
Proof.
  destruct (reports_drain (kbd_table 3) (kbd_table 2) 4 true [] true 0 [Poll; First; Scan key_6 key_6] (KbSt 0x40 KUp (BSending [[]]) [zeros] []) x_kbd)
    as (evs' & a' & x' & H1 & H2 & _ & H3 & _); [exact kbd_ready|vm_compute; reflexivity|]. exists evs', a', x'. split; [exact H1|]. split; [exact H2|exact H3].
Defined.

Lemma kbd_descriptors_emitted_witness : let s := set_setup (Setup 0x80 USB_REQ_GET_DESCRIPTOR (word 0 2) 0 255) s_kbd in let t := kbd_table 2 in
  emits t (t 0%nat) s (usbd_handle_ctrl_data t (hid_intfs t))
    [9; 2; 41; 0; 1; 1; 2; 128; 250;  9; 4; 0; 0; 2; 3; 1; 1; 20;  9; 0x21; 0x11; 1; 0; 1; 0x22; 63; 0;  7; 5; 0x84; 3; 8; 0; 10;  7; 5; 5; 3; 8; 0; 10].
Proof.
  cbn zeta. set (s := set_setup _ _).
  assert (Hs : ep_at (kbd_table 2) 0 s (kbd_table 2 0%nat)).
  { constructor; [by vm_compute|by apply Nat.ltb_lt; vm_compute|by apply Nat.ltb_lt; vm_compute|eexists; split; [reflexivity|done]|by vm_compute]. }
  refine (proj1 (kbd_descriptors_emitted (kbd_table 2) (hid_intfs (kbd_table 2)) (kbd_table 2 0%nat) s Hs 1 4 5 1 2 0 255 _ _)).
  - constructor; [reflexivity|by exists 0%nat|reflexivity|cbn; lia|reflexivity|reflexivity|by split|by split].
  - reflexivity.
Defined.

(** ** A run of the interrupt handlers *)
Definition tbl : table := kbd_table 3.
Definition dev {A} (m : stm st A) : stm (matrix * (kbd * st)) A := inner (inner m).
Definition s_cold : st :=
  Usbd 7 (replicate 7 (Xfr 0 0 0 0 0)) (replicate 7 0) (replicate 7 0%nat) 0 0 (Setup 0 0 0 0 0) [0%nat] 0 0 0 0 0 false hw_reset (Hid 0 [0; 0] [0] [0%nat] 0 0).
Definition x_cold : matrix * (kbd * st) := (Matrix 0 0 0 0 0 0, (Kbd (Some KBD_DEFAULT_CAPTURE) 0 0 true false, s_cold)).
Definition boot : stm (matrix * (kbd * st)) unit :=
  kbd_init;; dev usbd_reserve_endpoint0;; inner (hid_init 1 tbl 0 1 2);; dev (usbd_state_set USB_STATE_ATTACHED);; dev (usbd_bus_reset tbl).
Definition control_nodata (p : list Z) : stm st unit := host_setup tbl p;; times 2 (usb_bh tbl);; host_in tbl 0;; usb_bh tbl.
Definition control_read (p : list Z) (n : nat) : stm st unit :=
  host_setup tbl p;; times 2 (usb_bh tbl);; times n (host_in tbl 0);; host_out tbl 0 [];; usb_bh tbl.
Definition configure : stm st unit := control_nodata [0; 5; 9; 0; 0; 0; 0; 0];; control_nodata [0; 9; 1; 0; 0; 0; 0; 0].
(** The timer's poll of all endpoints, the bottom half, and the host taking a report. *)
Definition tick : stm st unit := usbd_endpoint_poll_all tbl;; usb_bh tbl.
Definition host_report : stm st unit := host_in tbl 4;; host_in tbl 4;; usb_bh tbl.
Definition scan (level : Z -> Z) : stm (matrix * (kbd * st)) unit := __kbd_hw_scan_async hid_capture level level.
Definition type_key : stm (matrix * (kbd * st)) unit := scan key_6;; dev tick;; dev host_report;; scan no_key;; dev tick;; dev host_report.
Lemma typing_run : runs (boot;; dev configure;; dev tick;; dev host_report;; type_key) x_cold (fun _ x =>
  filter (fun p => p.1 = 4) (scr_bus (hwst x.2.2)) =
  [(4, zeros); (4, []); (4, [0; 0; HID_KEYBOARD_3; 0; 0; 0; 0; 0]); (4, []); (4, zeros); (4, [])]).
Proof. vm_compute. reflexivity. Qed.
(** The descriptors a host reads: the configuration with the interface, the HID descriptor
    and the two endpoints; and the report descriptor, of the length that the HID descriptor
    announces. *)
Lemma descriptors_run :
  runs (boot;; dev configure;; dev (control_read [0x80; 6; 0; 2; 0; 0; 255; 0] 2;; control_read [0x81; 6; 0; 0x22; 0; 0; 255; 0] 2)) x_cold (fun _ x =>
  map snd (drop 3 (scr_bus (hwst x.2.2))) = [
    [9; 2; 41; 0; 1; 1; 2; 128; 250;  9; 4; 0; 0; 2; 3; 1; 1; 20;  9; 0x21; 0x11; 1; 0; 1; 0x22; 63; 0;  7; 5; 0x84; 3; 8; 0; 10;  7; 5; 5; 3; 8; 0; 10];
    [5; 1; 9; 6; 161; 1;  5; 7; 25; 224; 41; 231; 21; 0; 37; 1; 117; 1; 149; 8; 129; 2;  149; 1; 117; 8; 129; 1;
     149; 5; 117; 1; 5; 8; 25; 1; 41; 5; 145; 2;  149; 1; 117; 3; 145; 1;  149; 6; 117; 8; 21; 0; 37; 101; 5; 7; 25; 0; 41; 101; 129; 0;  192]] /\
  hid_kbd_config_len = 63).
Proof. vm_compute. split; reflexivity. Qed.
(** An endpoint that is restarted between the submission of a report and its first packet
    drops the request without calling [done]: the driver waits for its completion for ever
    and no poll submits a report again. *)
Lemma lost_completion_run : runs (usbd_endpoint_poll_addr tbl 4;; usbd_endpoint_start_all tbl;; times 3 (usbd_endpoint_poll_all tbl)) s_kbd (fun _ s =>
  hid_rept_ctrls (user s) = [HID_REPORT_RUNNING] /\ usbd_endp_ctrls s !! 4%nat = Some 0 /\ usb_transfers s !! 4%nat = Some (Xfr 0 0 0 0 0)).
Proof. vm_compute. split_and!; reflexivity. Qed.
